(* ===== verification/_CoqProject ===== *)
-Q . S2P
Prelude.v
CString.v
Env.v
DList.v
DListOps.v
DListIter.v
HList.v
MbTrace.v
RunQueue.v
Kfifo.v
KfifoMacros.v
BdbufAvl.v
BdbufState.v
Bdbuf.v
BdbufSwap.v
BdbufStep.v
BdbufInv.v
BdbufSafe.v
BdbufData.v
BdbufInit.v
Blkdev.v
BdbufWrite.v
BdbufSync.v
Disk.v
Crc.v
Boot.v
Clock.v
Callout.v
BlkCache.v
BlkCacheOk.v
Partition.v
PartitionOk.v
VFlash.v
DiskLog.v
DiskLogOk.v
SFile.v
Bitops.v
Bits.v
Dwt.v
ObjPool.v
VfsOk.v
CstdFs.v
ZephyrFs.v
Printf.v
Log.v
DevStats.v
ZephyrPlatform.v
Motor.v
TimerList.v
WinTimer.v
ZephyrTimer.v
CcInit.v
Resource.v
