(* ===== verification/Prelude.v ===== *)
(** * TestRunner / basework : a verification library

    The repository is a run-time base for small devices: storage (flash
    devices, two block caches, partitions, a disk log, one-file partitions),
    a boot loader, an environment of variables, and containers, timers, a run
    queue, a clock and text formatting under them. This library models its C
    code under src/basework/ as Rocq functions and proves what each part
    promises. What the code calls outside the repository (the operating systems,
    the C library, the chips) is a parameter of the definitions; tests and the
    vendored googletest and LZ4 are left out.

    ** How the parts interact

<<
   boot (Boot)      disk log (DiskLog, DiskLogOk)    file of a partition (SFile)
     |   |  \            |                               |
     |   |   \           +---- partitions (Partition, PartitionOk) 
     |   |  environment                |   class ByteStore
     |   |  (Env, CString)      block cache of dev/blkdev.c (BlkCache, BlkCacheOk)
     |  checksums (Crc)                |   classes Driver, Flash
     +---------------------- disk devices (Disk)

                         virtual flash (VFlash), registered at start-up

   files over the buffer cache (Blkdev), with the virtual disk
     |  class of other threads and drivers: data_env
   buffer cache of lib/block (BdbufState .. BdbufSync, tree in BdbufAvl)
     +-- its statistics (DevStats)

   messages (Log) --- formatted output (Printf) --- disk log
   start of the Zephyr platform (ZephyrPlatform): flash devices, block cache,
     partitions, disk log, messages

   ring buffer (Kfifo, KfifoMacros)   run queue (RunQueue on DList)
   timers (TimerList), on Windows and Zephyr (WinTimer, ZephyrTimer)
   clock (Clock, Callout)   lists (DList, DListOps, DListIter)
   object pools, files, OS timers (ObjPool, VfsOk, CstdFs, ZephyrFs)
   allocation trace (MbTrace on HList)   initialisers (CcInit)
   bit searches (Bitops), logarithms and fields (Bits)   motor (Motor)
   watchpoints (Dwt)   resource tables of the user interface (Resource)
>>

    Prelude holds what all files share: machine integers (an unsigned object
    of [w] bits is an integer that is reduced with [wrap] where the code
    assigns it, [swrap] for signed ones; [long] has 64 bits), the error
    numbers, the type [outcome] (a value, a failed assertion or fatal error,
    or undefined behaviour: a bad access, a NULL pointer, an uninitialised
    value), buffers as lists with [slice] and [splice], the hint database [bw]
    and the tactics [zlia], [bools], [outcome_inv], [len_lia].

    ** The files

    - Kfifo (kfifo.c): the state is [struct __kfifo]; every routine.
      [kfifo_refines_queue] and [kfifo_records_refine]: a bounded queue of
      bytes, or of records, over any sequence of calls, with counters that
      wrap. KfifoMacros: the macros of kfifo.h on a fifo of any declared type;
      [macros_refine].
    - DList, DListOps (container/list.h): lists as programs of single loads
      and stores; [dlist_refines]: run alone every routine is an operation on
      sequences. DListIter: the loop macros with any body, and the rules that
      say what the body may do to the list ([safe_loop], [plain_loop]).
    - HList (the hash lists of container/list.h) on words of memory, and
      MbTrace (hash.h, hashtbl.h, debug/mb_trace.c) on it: a hash table over a
      free list in one block of memory; [hlist_refines], [mb_tracer_refines].
    - CcInit (ccinit.cc): [initializers_run_in_order]; the sort is a parameter.
    - RunQueue (rq.c): a critical section is a step, and the removal that the
      service thread makes without the lock after a wake-up is a window of two
      steps; a critical section of another thread in it is undefined.
      [rq_refines_queue] and [rq_runs_all_pending] for the other
      interleavings, [rq_unlocked_pop_loses_job] for what can happen in it.
    - TimerList (lib/timer/timer_list.c): the delta list refines a sorted
      queue of deadlines; the function of a timer is the list of timer calls
      it makes; [timer_schedule_returns] gives the fuel that is enough, for
      positive periods ([zero_period_diverges] shows why). WinTimer
      (os/win32/os_timer_impl.cc) and ZephyrTimer (os/zephyr/os_timer_impl.c)
      are the timers of osapi_timer.h; on Windows the thread of the timers is a
      state machine of locked sections ([schedule_section]) and callbacks, with
      calls of other threads between any two steps: [os_timers_refine].
    - Clock (dev/clock_base.c): [clock_follows_calendar], against a clock that
      is advanced second by second. Callout (dev/clock_timer.c):
      [callouts_periodic].
    - CString (lib/itoa.c, lib/libstrlcpy.c) and Env (env.c, lib/env_core.c):
      an environment refines a finite map, and its image in RAM is read back;
      lengths and counts are [int]s, beyond 2^31 the model is undefined.
    - Crc (lib/libcrc16.c and boot.c): tables against polynomials; bursts.
    - Bitops (lib/bitops.c): searches against a search bit by bit. Bits
      (ilog2.h, bitops.h, circ_buffer.h): logarithms, powers, fields, counts.
    - Dwt (debug/cortexm/dwt.c): watchpoints and the cycle counter.
    - ObjPool (os/osapi_obj.c, os/osapi_fs.c, os/posix/os_timer_impl.c): the
      pool refines a stack of free objects under any interleaving. VfsOk: the
      files are a table in front of a file system, [vfs_refines], with the
      assertion when the table is full; CstdFs and ZephyrFs: the file systems
      of Windows and Zephyr; every call of the C library can fail.
    - Printf (lib/iovprintf.c, lib/printer.c): the interpreter against a
      syntax of format items with their texts. Log (log.h, lib/printer.c and
      the platforms of posix and Windows): printers, levels, message macros.
    - DevStats (lib/block/blkdev-stats.c, blkdev-blkstats.c, blkdev_print of
      dev/blkdev.c): the reports and the text they become.
    - ZephyrPlatform (os/zephyr/os_platform.c): heap, flash devices and
      partitions of Zephyr; [messages_survive_reboot] goes through all of
      BlkCache, Partition, DiskLog, Printf and Log.
    - Motor (drive/motor/motor.c): the pulses of the vibration motor, for a
      layer that takes the address of a timer handle for the handle.
    - Disk (dev/disk.c): devices and checks; a driver is a class, with the
      laws of a NOR flash in [Flash] and the instance [nor_flash] of chips
      that are byte lists.
    - BlkCache, BlkCacheOk (dev/blkdev.c): the write-back cache stands for
      flat arrays; after a sync the chips hold them.
    - Partition, PartitionOk (dev/partition.c, dev/partitions_cfg.c): over the
      class [ByteStore], which [blkdev_store] shows of the cache; isolation
      and layout.
    - DiskLog, DiskLogOk (lib/disklog.c): the log keeps the last bytes,
      through restarts over any store that stands for the same bytes (a write-
      back store must be synchronised before). SFile (dev/partition_file.c):
      the file of a partition is an array; what a new opening finds depends on
      what the allocator left in [base], and closing unlocks a freed mutex,
      which is a parameter; what goes wrong is at its end.
    - VFlash (os/posix/os_vflash_impl.cc): a chip in memory, and the block
      cache over the partitions that its initialiser lays out.
    - Resource (ui/resource): pools linked through their objects, contexts,
      callbacks; [resources_well_typed] and, for a close,
      [resource_close_unloads]; what goes wrong is at its end.
    - Boot (boot/boot.c, system.c): images are copied, verified and recorded,
      and two decisions that do not do what they mean to.
    - BdbufState, Bdbuf, BdbufSwap (lib/block/bdbuf.c, bdbuf.h, diskdevs.c,
      bdbuf-ioctl.c): the buffer cache in a monad with explicit points where
      other threads run; BdbufAvl: its tree, a finite map ([avl_refines_map]);
      BdbufInv: the state table of bdbuf.h as an invariant, with a program
      logic; BdbufSafe: every operation keeps it and does not reach
      [rtems_bdbuf_fatal] while the other threads keep it and change no block
      sizes ([recycle_of_empty_buffer_is_fatal] shows a run where they do);
      BdbufInit, BdbufWrite: initialisation, the API, the swapout. BdbufStep says which steps leave the contents of the buffers
      alone, BdbufData has the invariant of the contents: buffers and
      medium together hold the blocks of a device, and BdbufSync shows that the
      swapout keeps it and that a sync brings every block to the medium
      ([sync_reaches_medium]).
    - Blkdev (lib/block/blkdev.c, os/posix/os_vdisk_impl.cc):
      [rtems_blkdev_refines]: reads and writes of bytes through the buffer
      cache act on an array, whatever the other threads do within [data_env],
      which the virtual disk satisfies ([vdisk_env_ok]).

    ** What the theorems show

    Refinement theorems ("... is a queue, a map, an array") quantify over all
    sequences of calls, errors included, and conclude that the code has a
    result ([Done]) equal to the abstract one: no assertion fails and nothing
    undefined happens on the way; where the code can fail an assertion or do
    something undefined within the calls considered (VfsOk, RunQueue), the
    specification says when. Invariant theorems of the buffer cache
    quantify over what the other threads do at the points where the lock is
    given up. Equivalences compare with a reference that is simpler than the
    code. Closed examples, and lemmas without a claim, exhibit defects:
    [find_last_bit_wrong], [sfile_base_unset], [sfile_negative_offset],
    [os_timer_create_leaks], [env_limits], [partition_defects],
    [purge_during_read_is_fatal], [rq_reset_leaks], [rq_unlocked_pop_loses_job],
    [init_without_groups], [destroyed_timer_is_called], [creations_race],
    [rc_contexts_leak], [second_init_overlaps] and others.

    ** Bounds and fuel

    Loops that are not structural have a [nat] as fuel. In the definitions it
    is computed from the sizes (the checksum of SFile: a turn for 256 bytes;
    [ksprintn]: 64 digits; the tree of BdbufAvl: the 32 entries of its stack;
    the walks of BlkCache, DiskLog, Blkdev and Boot: a turn for each byte or
    block that is left; the chains of HList: a turn for each word of memory), or it is an argument and the theorem says which value is
    enough. Running out of fuel is [Undef], or [Diverged] in the buffer cache,
    never a result, so each theorem that states a result also states that the
    loop ends; the one loop without such an outcome, [bds_per_size_loop],
    doubles a 64-bit number and has 64 turns. [clock_follows_calendar] holds for
    6 * 10^16 seconds around 1970, [bit_searches_correct] for fewer than 2^31
    bits (an [int] counts them), [printf_writes_items] for texts shorter than
    2^31 characters.

    ** Parameters

    Flash drivers ([Driver], [Flash]), the allocators, the operating system's
    timers, the file systems under [vfs_open], the answers of the C library to
    calls on streams, whether a freed mutex can be unlocked,
    the heap, the flash devices and the partitions of Zephyr, the constants of
    CMSIS, the readers and writers of the environment, and the functions of
    callouts, timers and jobs are arguments; every theorem with such an
    argument has a witness that gives it.

    ** Not modelled

    LZ4 and googletest, which are vendored; the tests; the macros that name
    the locks of an operating system (os_base_impl.h, osapi.h), whose effect is
    in the models that use them; the allocation operators of C++ and the
    printer of assertions; [disk_partition_dump] and the tracing output of the
    buffer cache, which print; dev/paritions_usr_cfg.c, a table without users. *)
From Stdlib Require Import ZArith Lia Bool.
From stdpp Require Import base list numbers.

Declare Scope bw_scope.
Delimit Scope bw_scope with bw.

(** ** Machine integers *)

Open Scope Z_scope.

(** The value of an unsigned [w]-bit C object after an assignment. *)
Definition wrap (w z : Z) : Z := z mod 2 ^ w.
Abbreviation u8 := (wrap 8).
Abbreviation u16 := (wrap 16).
Abbreviation u32 := (wrap 32).
Abbreviation u64 := (wrap 64).

(** The value of a signed [w]-bit C object (two's complement). *)
Definition swrap (w z : Z) : Z := (z + 2 ^ (w - 1)) mod 2 ^ w - 2 ^ (w - 1).
Abbreviation s32 := (swrap 32).
Abbreviation s64 := (swrap 64).

(** The range of an unsigned [w]-bit object. *)
Definition in_w (w z : Z) : Prop := 0 <= z < 2 ^ w.

(** ** Error numbers (Linux) *)

Definition EIO : Z := 5.
Definition EBADF : Z := 9.
Definition ENOMEM : Z := 12.
Definition EFAULT : Z := 14.
Definition EBUSY : Z := 16.
Definition EEXIST : Z := 17.
Definition ENODEV : Z := 19.
Definition EINVAL : Z := 22.
Definition ENOSYS : Z := 38.
Definition ENODATA : Z := 61.
Definition ETIMEDOUT : Z := 110.

(** ** Outcomes of a C function

    [Done] is a return; [Assert] is a failed [assert]; [Undef] is a
    behaviour C leaves undefined (an invalid pointer, an access out of
    an object, an uninitialised variable). *)
Inductive outcome (A : Type) : Type :=
| Done (a : A)
| Assert
| Undef.
Arguments Done {A} a.
Arguments Assert {A}.
Arguments Undef {A}.

Definition obind {A B} (m : outcome A) (k : A -> outcome B) : outcome B :=
  match m with
  | Done a => k a
  | Assert => Assert
  | Undef => Undef
  end.

Notation "'let*' x ':=' m 'in' k" := (obind m (fun x => k))
  (at level 10, x binder, m at level 100, k at level 200) : bw_scope.
Notation "'guard*' b 'in' k" := (if b then k else Undef)
  (at level 10, b at level 100, k at level 200) : bw_scope.
Notation "'assert*' b 'in' k" := (if b then k else Assert)
  (at level 10, b at level 100, k at level 200) : bw_scope.
Open Scope bw_scope.

Lemma obind_done {A B} (m : outcome A) (k : A -> outcome B) b :
  obind m k = Done b -> exists a, m = Done a /\ k a = Done b.
Proof. destruct m; simpl; intros H; try discriminate; eauto. Qed.

Lemma obind_assoc {A B C} (m : outcome A) (f : A -> outcome B) (g : B -> outcome C) :
  obind (obind m f) g = obind m (fun x => obind (f x) g).
Proof. by destruct m. Qed.

(** Take an [obind] chain apart. *)
Ltac outcome_inv :=
  repeat match goal with
  | H : obind _ _ = Done _ |- _ =>
      let a := fresh "a" in let Ha := fresh "Ha" in
      apply obind_done in H as (a & Ha & H)
  | H : Done _ = Done _ |- _ => injection H; clear H; intros
  | H : Assert = Done _ |- _ => discriminate H
  | H : Undef = Done _ |- _ => discriminate H
  | H : (if ?b then _ else Undef) = Done _ |- _ =>
      let E := fresh "E" in destruct b eqn:E; [|discriminate H]
  | H : (if ?b then _ else Assert) = Done _ |- _ =>
      let E := fresh "E" in destruct b eqn:E; [|discriminate H]
  end; subst.

(** Boolean integer tests, as propositions. *)
Ltac bools :=
  repeat match goal with
  | H : (_ && _) = true |- _ => apply andb_prop in H as [? ?]
  | H : (_ || _) = false |- _ => apply orb_false_iff in H as [? ?]
  | H : negb _ = true |- _ => apply negb_true_iff in H
  | H : negb _ = false |- _ => apply negb_false_iff in H
  | H : (_ <? _)%Z = true |- _ => apply Z.ltb_lt in H
  | H : (_ <? _)%Z = false |- _ => apply Z.ltb_ge in H
  | H : (_ <=? _)%Z = true |- _ => apply Z.leb_le in H
  | H : (_ <=? _)%Z = false |- _ => apply Z.leb_gt in H
  | H : (_ =? _)%Z = true |- _ => apply Z.eqb_eq in H
  | H : (_ =? _)%Z = false |- _ => apply Z.eqb_neq in H
  | H : (_ >? _)%Z = _ |- _ => rewrite Z.gtb_ltb in H
  | H : (_ >=? _)%Z = _ |- _ => rewrite Z.geb_leb in H
  end.

(** Linear arithmetic with division and modulus by constants. *)
Ltac zlia := Z.to_euclidean_division_equations; lia.

(** ** Arithmetic of [wrap] *)

Lemma wrap_range w z : 0 <= w -> in_w w (wrap w z).
Proof. intros H. apply Z.mod_pos_bound, Z.pow_pos_nonneg; lia. Qed.

Lemma wrap_small w z : in_w w z -> wrap w z = z.
Proof. apply Z.mod_small. Qed.

Lemma wrap_0 w : wrap w 0 = 0.
Proof. apply Zmod_0_l. Qed.

Lemma wrap_add_l w a b : wrap w (wrap w a + b) = wrap w (a + b).
Proof. apply Zplus_mod_idemp_l. Qed.

(** The distance between two counters that wrap together. *)
Lemma wrap_diff w a n : in_w w n -> wrap w (wrap w (a + n) - a) = n.
Proof.
  intros Hn. unfold wrap. rewrite Zminus_mod_idemp_l.
  replace (a + n - a) with n by lia. by apply Z.mod_small.
Qed.

Lemma swrap_small w z : 0 < w -> - 2 ^ (w - 1) <= z < 2 ^ (w - 1) -> swrap w z = z.
Proof.
  intros Hw Hz. unfold swrap.
  assert (2 ^ w = 2 * 2 ^ (w - 1)) as Hp.
  { rewrite <- Z.pow_succ_r by lia. f_equal. lia. }
  rewrite Z.mod_small; lia.
Qed.

(** A mask of [k] low bits is a remainder. *)
Lemma land_mask a k : 0 <= k -> Z.land a (2 ^ k - 1) = a mod 2 ^ k.
Proof.
  intros Hk. replace (2 ^ k - 1) with (Z.ones k).
  - by apply Z.land_ones.
  - rewrite Z.ones_equiv. lia.
Qed.

(** ** Byte buffers

    A C byte array is a [list Z]; an access outside of it is [Undef]. *)

Definition len {A} (l : list A) : Z := Z.of_nat (length l).

(** [n] elements from offset [off] (total). *)
Definition slice {A} (l : list A) (off n : Z) : list A :=
  take (Z.to_nat n) (drop (Z.to_nat off) l).

(** [l] with [src] written at offset [off] (total). *)
Definition splice {A} (l : list A) (off : Z) (src : list A) : list A :=
  take (Z.to_nat off) l ++ src ++ drop (Z.to_nat off + length src) l.

(** [memcpy (out, l + off, n)] *)
Definition mem_read {A} (l : list A) (off n : Z) : outcome (list A) :=
  guard* (0 <=? off) && (0 <=? n) && (off + n <=? len l) in Done (slice l off n).

(** [memcpy (l + off, src, length src)] *)
Definition mem_write {A} (l : list A) (off : Z) (src : list A) : outcome (list A) :=
  guard* (0 <=? off) && (off + len src <=? len l) in Done (splice l off src).

Lemma mem_read_ok {A} (l : list A) off n :
  0 <= off -> 0 <= n -> off + n <= len l -> mem_read l off n = Done (slice l off n).
Proof.
  intros. unfold mem_read.
  rewrite !(proj2 (Z.leb_le _ _)) by lia. done.
Qed.

Lemma mem_write_ok {A} (l : list A) off src :
  0 <= off -> off + len src <= len l -> mem_write l off src = Done (splice l off src).
Proof.
  intros. unfold mem_write.
  rewrite !(proj2 (Z.leb_le _ _)) by lia. done.
Qed.

Lemma len_nonneg {A} (l : list A) : 0 <= len l.
Proof. unfold len. lia. Qed.

Lemma len_nil {A} : len (@nil A) = 0.
Proof. done. Qed.

Lemma len_cons {A} (x : A) l : len (x :: l) = len l + 1.
Proof. unfold len. simpl. lia. Qed.

Lemma len_app {A} (l k : list A) : len (l ++ k) = len l + len k.
Proof. unfold len. rewrite length_app. lia. Qed.

Lemma length_slice {A} (l : list A) off n :
  length (slice l off n) = (Z.to_nat n `min` (length l - Z.to_nat off))%nat.
Proof. unfold slice. by rewrite length_take, length_drop. Qed.

Lemma len_slice {A} (l : list A) off n :
  0 <= off -> 0 <= n -> off + n <= len l -> len (slice l off n) = n.
Proof. unfold len. intros. rewrite length_slice. lia. Qed.

Lemma length_splice {A} (l : list A) off src :
  0 <= off -> off + len src <= len l -> length (splice l off src) = length l.
Proof.
  unfold splice, len. intros. rewrite !length_app, length_take, length_drop. lia.
Qed.

Lemma len_splice {A} (l : list A) off src :
  0 <= off -> off + len src <= len l -> len (splice l off src) = len l.
Proof. intros. unfold len. by rewrite length_splice. Qed.

Lemma lookup_slice {A} (l : list A) off n i :
  slice l off n !! i = if decide (i < Z.to_nat n)%nat then l !! (Z.to_nat off + i)%nat else None.
Proof. unfold slice. rewrite lookup_take, lookup_drop. by case_decide. Qed.

Lemma lookup_splice {A} (l : list A) off src i :
  0 <= off -> off + len src <= len l ->
  splice l off src !! i =
    if decide (Z.to_nat off <= i < Z.to_nat off + length src)%nat
    then src !! (i - Z.to_nat off)%nat else l !! i.
Proof.
  unfold splice, len. intros H1 H2.
  case_decide as Hi.
  - rewrite lookup_app_r; rewrite length_take; [|lia].
    rewrite lookup_app_l by lia. f_equal. lia.
  - destruct (decide (i < Z.to_nat off)%nat).
    + rewrite lookup_app_l by (rewrite length_take; lia).
      by rewrite lookup_take_lt.
    + rewrite lookup_app_r; rewrite length_take; [|lia].
      rewrite lookup_app_r by lia. rewrite lookup_drop. f_equal. lia.
Qed.

(** Reading back what was written. *)
Lemma slice_splice_same {A} (l : list A) off src :
  0 <= off -> off + len src <= len l -> slice (splice l off src) off (len src) = src.
Proof.
  intros H1 H2. apply list_eq. intros i. rewrite lookup_slice, lookup_splice by done.
  unfold len in *. case_decide.
  - rewrite decide_True by lia. f_equal. lia.
  - symmetry. apply lookup_ge_None. lia.
Qed.

(** A read outside of what was written. *)
Lemma slice_splice_other {A} (l : list A) off src off' n :
  0 <= off -> off + len src <= len l -> 0 <= off' ->
  off' + n <= off \/ off + len src <= off' ->
  slice (splice l off src) off' n = slice l off' n.
Proof.
  intros H1 H2 H3 H4. apply list_eq. intros i. rewrite !lookup_slice.
  case_decide; [|done]. rewrite lookup_splice by done.
  unfold len in *. rewrite decide_False; [done|lia].
Qed.

Lemma slice_app_split {A} (l : list A) off n m :
  0 <= off -> 0 <= n -> 0 <= m ->
  slice l off (n + m) = slice l off n ++ slice l (off + n) m.
Proof.
  intros. unfold slice. rewrite !Z2Nat.inj_add by lia.
  rewrite <- drop_drop. symmetry. apply take_take_drop.
Qed.

Lemma splice_app {A} (l : list A) off s1 s2 :
  0 <= off -> off + len s1 + len s2 <= len l ->
  splice l off (s1 ++ s2) = splice (splice l off s1) (off + len s1) s2.
Proof.
  intros H1 H2. pose proof (len_nonneg s1). pose proof (len_nonneg s2).
  apply list_eq. intros i.
  rewrite !lookup_splice; rewrite ?len_app, ?len_splice; try lia.
  rewrite length_app. unfold len in *.
  repeat case_decide; try lia; try done.
  - rewrite lookup_app_r by lia. f_equal. lia.
  - by rewrite lookup_app_l by lia.
Qed.

(** Writing twice at a place. *)
Lemma splice_splice {A} (l : list A) off s1 s2 :
  length s1 = length s2 -> 0 <= off -> off + len s2 <= len l ->
  splice (splice l off s1) off s2 = splice l off s2.
Proof.
  intros Hl H1 H2. apply list_eq. intros i.
  assert (len s1 = len s2) as Hl' by (unfold len; lia).
  rewrite !lookup_splice; rewrite ?len_splice; try lia.
  case_decide; [done|]. rewrite decide_False by lia. done.
Qed.

(** A write inside of a block. *)
Lemma slice_splice_in {A} (l : list A) off n x src :
  0 <= off -> 0 <= x -> x + len src <= n -> off + n <= len l ->
  slice (splice l (off + x) src) off n = splice (slice l off n) x src.
Proof.
  intros H1 H2 H3 H4. pose proof (len_nonneg src). apply list_eq. intros i.
  rewrite lookup_slice, !lookup_splice, lookup_slice by (rewrite ?len_slice by lia; lia).
  unfold len in *. repeat case_decide; try lia; try done. f_equal. lia.
Qed.

Lemma slice_slice {A} (l : list A) o1 n1 o2 n2 :
  0 <= o1 -> 0 <= o2 -> o2 + n2 <= n1 -> slice (slice l o1 n1) o2 n2 = slice l (o1 + o2) n2.
Proof.
  intros. apply list_eq. intros i. rewrite !lookup_slice. case_decide; [|done].
  rewrite decide_True by lia. f_equal. lia.
Qed.

(** All of the buffer written. *)
Lemma splice_all {A} (l src : list A) : len l = len src -> splice l 0 src = src.
Proof.
  unfold len. intros. unfold splice. simpl. rewrite drop_ge by lia. apply app_nil_r.
Qed.

(** ** Lists *)

(** A filter that keeps everything. *)
Lemma filter_all {A} (P : A -> Prop) `{!forall x, Decision (P x)} (q : list A) : (forall x, x ∈ q -> P x) -> filter P q = q.
Proof.
  induction q as [|x q IH]; intros Hq; [done|]. rewrite filter_cons_True by (apply Hq; constructor).
  rewrite IH; [done|]. intros y Hy. apply Hq. by constructor.
Qed.

(** Taking one element out of a list without repetitions. *)
Lemma filter_remove {A} `{EqDecision A} (l1 : list A) e l2 :
  NoDup (l1 ++ e :: l2) -> filter (fun z => z <> e) (l1 ++ e :: l2) = l1 ++ l2.
Proof.
  intros Hn. rewrite <- Permutation_middle in Hn. apply NoDup_cons_1_1 in Hn as He.
  rewrite list.filter_app, filter_cons_False by (intros Hx; by apply Hx).
  rewrite <- list.filter_app. apply filter_all. intros z Hz ->. done.
Qed.

(** ** Automation

    [bw] holds the facts about lengths, ranges and buffer accesses that the
    components' proofs use without naming them. *)
Create HintDb bw.
#[export] Hint Resolve len_nonneg wrap_range wrap_small mem_read_ok mem_write_ok : bw.
#[export] Hint Rewrite @len_nil @len_cons @len_app @length_slice : bw.
#[export] Hint Rewrite @length_splice @len_splice @len_slice using lia : bw.

(** Lengths of buffers, computed; then linear arithmetic. *)
Ltac len_lia := autorewrite with bw in *; unfold len in *; lia.
