(* ===== verification/CString.v ===== *)
(** * lib/itoa.c, lib/libstrlcpy.c and C strings

    A string is the bytes in front of the first NUL of a buffer. The number
    conversions of the standard library that the environment uses
    ([strtol], [strtoul]), [strchr], and the two routines of the program,
    [itoa] and [strlcpy], on buffers. *)
From Stdlib Require Import ZArith Lia Bool.
From stdpp Require Import base list numbers gmap.
From S2P Require Import Prelude.

Module CString.

(** ** Strings in memory *)

(** The string that starts at the front of [m]; a buffer without a NUL is
    read beyond its end. *)
Fixpoint c_str (m : list Z) : outcome (list Z) :=
  match m with
  | [] => Undef
  | c :: m => if c =? 0 then Done [] else let* s := c_str m in Done (c :: s)
  end.

(** [strchr (s, c)] for a [c] other than NUL: the offset of the first [c]. *)
Fixpoint strchr (m : list Z) (c : Z) : outcome (option Z) :=
  match m with
  | [] => Undef
  | x :: m => if x =? c then Done (Some 0) else if x =? 0 then Done None
              else let* r := strchr m c in Done ((fun n => n + 1) <$> r)
  end.

(** A string without its terminator. *)
Definition is_string (s : list Z) : Prop := Forall (fun c => 0 < c < 256) s.

(** ** itoa *)

Definition INT_MIN : Z := - 2 ^ 31.

(** ["0123456789abcdefghijklmnopqrstuvwxyz"] *)
Definition digit_char (d : Z) : Z := if d <? 10 then 48 + d else 87 + d.

(** The [do]-loop; [pos] is [buf - str]. *)
Fixpoint itoa_digits (fuel : nat) (intval base : Z) (str : list Z) (pos : Z) : outcome (list Z * Z) :=
  match fuel with
  | O => Undef
  | S fuel =>
      let* str := mem_write str pos [digit_char (intval mod base)] in
      let intval := intval / base in
      if intval >? 0 then itoa_digits fuel intval base str (pos + 1) else Done (str, pos + 1)
  end.

(** The loop that reverses the first [n] bytes. *)
Fixpoint itoa_reverse (fuel : nat) (str : list Z) (pos n : Z) : outcome (list Z) :=
  if negb (pos <? n / 2) then Done str
  else match fuel with
  | O => Undef
  | S fuel =>
      let* swap := mem_read str (n - pos - 1) 1 in
      let* x := mem_read str pos 1 in
      let* str := mem_write str (n - pos - 1) x in
      let* str := mem_write str pos swap in
      itoa_reverse fuel str (pos + 1) n
  end.

(** [itoa (val, str, base)] *)
Definition itoa (val : Z) (str : list Z) (base : Z) : outcome (list Z) :=
  guard* negb (val =? INT_MIN) in      (* abs *)
  let intval := Z.abs val in
  let* r :=
    (if (2 <=? base) && (base <=? 36) then
      let* r := itoa_digits 32 intval base str 0 in
      let* r := (if val <? 0 then let* s := mem_write r.1 r.2 [45] in Done (s, r.2 + 1) else Done r) in
      let* s := itoa_reverse 17 r.1 0 r.2 in
      Done (s, r.2)
    else Done (str, 0)) in
  mem_write r.1 r.2 [0].

(** ** strlcpy *)

(** The copying loop: [nleft] bytes of room after the decrement; the string
    left over when there was not enough room. *)
Fixpoint strlcpy_loop (nleft : nat) (dst : list Z) (pos : Z) (src : list Z) : outcome (list Z * Z * option (list Z)) :=
  match nleft with
  | O => Done (dst, pos, Some src)
  | S nleft =>
      match src with
      | [] => Undef
      | c :: src =>
          let* dst := mem_write dst pos [c] in
          if c =? 0 then Done (dst, pos + 1, None) else strlcpy_loop nleft dst (pos + 1) src
      end
  end.

(** [strlcpy (dst, src, dsize)] *)
Definition strlcpy (dst src : list Z) (dsize : Z) : outcome (Z * list Z) :=
  let* r := (if dsize =? 0 then Done (dst, 0, Some src)
             else strlcpy_loop (Z.to_nat dsize - 1) dst 0 src) in
  let '(dst, pos, rest) := r in
  match rest with
  | None => Done (pos - 1, dst)
  | Some src' =>
      let* dst := (if dsize =? 0 then Done dst else mem_write dst pos [0]) in
      let* s := c_str src' in
      Done (pos + len s, dst)
  end.

(** ** The standard library's conversions *)

Definition isspace (c : Z) : bool := (c =? 32) || ((9 <=? c) && (c <=? 13)).

(** The value of a digit or letter. *)
Definition digit_val (c : Z) : option Z :=
  if (48 <=? c) && (c <=? 57) then Some (c - 48)
  else if (97 <=? c) && (c <=? 122) then Some (c - 87)
  else if (65 <=? c) && (c <=? 90) then Some (c - 55)
  else None.
Definition is_digit (base c : Z) : bool :=
  match digit_val c with Some d => d <? base | None => false end.

Fixpoint skip_space (s : list Z) : list Z :=
  match s with
  | c :: s' => if isspace c then skip_space s' else s
  | [] => []
  end.

Fixpoint scan_digits (base acc : Z) (s : list Z) : Z :=
  match s with
  | c :: s => match digit_val c with
              | Some d => if d <? base then scan_digits base (acc * base + d) s else acc
              | None => acc
              end
  | [] => acc
  end.

Definition scan_sign (s : list Z) : bool * list Z :=
  match s with
  | c :: s' => if c =? 45 then (true, s') else if c =? 43 then (false, s') else (false, s)
  | [] => (false, [])
  end.

(** [0x] in front of a hexadecimal digit *)
Definition skip_prefix (base : Z) (s : list Z) : list Z :=
  match s with
  | z :: x :: d :: s' =>
      if (base =? 16) && (z =? 48) && ((x =? 120) || (x =? 88)) && is_digit 16 d then d :: s' else s
  | _ => s
  end.

(** The sign and the value of the digits. *)
Definition scan_number (base : Z) (s : list Z) : bool * Z :=
  let '(neg, s) := scan_sign (skip_space s) in
  (neg, scan_digits base 0 (skip_prefix base s)).

Definition ULONG_MAX : Z := 2 ^ 64 - 1.
Definition LONG_MAX : Z := 2 ^ 63 - 1.
Definition LONG_MIN : Z := - 2 ^ 63.

(** [strtoul (s, NULL, base)] for a base of 2 to 36 *)
Definition strtoul (s : list Z) (base : Z) : Z :=
  let '(neg, v) := scan_number base s in
  if v >? ULONG_MAX then ULONG_MAX else if neg then u64 (- v) else v.

(** [strtol (s, NULL, base)] *)
Definition strtol (s : list Z) (base : Z) : Z :=
  let '(neg, v) := scan_number base s in
  let v := if neg then - v else v in
  if v >? LONG_MAX then LONG_MAX else if v <? LONG_MIN then LONG_MIN else v.

(** ** itoa, functionally *)

(** The digits that the loop writes, least first. *)
Fixpoint low_digits (fuel : nat) (base n : Z) : list Z :=
  match fuel with
  | O => []
  | S fuel => digit_char (n mod base) :: if n / base >? 0 then low_digits fuel base (n / base) else []
  end.

Lemma splice_snoc {A} (l : list A) (k : list A) x :
  len k < len l -> splice (splice l 0 k) (len k) [x] = splice l 0 (k ++ [x]).
Proof.
  intros H. pose proof (len_nonneg k). pose proof (splice_app l 0 k [x]) as E. rewrite Z.add_0_l in E.
  rewrite E; [done|lia|]. rewrite len_cons, len_nil. lia.
Qed.

Lemma write_snoc (l k : list Z) x :
  len k < len l -> mem_write (splice l 0 k) (len k) [x] = Done (splice l 0 (k ++ [x])).
Proof.
  intros H. pose proof (len_nonneg k). rewrite mem_write_ok; [|lia|].
  - by rewrite splice_snoc.
  - rewrite len_splice, len_cons, len_nil by lia. lia.
Qed.

Lemma low_digits_len fuel base n : (length (low_digits fuel base n) <= fuel)%nat.
Proof. revert n. induction fuel as [|f IH]; intros n; simpl; [done|]. destruct (n / base >? 0); simpl; [specialize (IH (n / base))|]; lia. Qed.

Lemma low_digits_pos fuel base n : (0 < fuel)%nat -> 1 <= len (low_digits fuel base n).
Proof. destruct fuel; [lia|]. intros _. simpl. rewrite len_cons. pose proof (len_nonneg (if n / base >? 0 then low_digits fuel base (n / base) else [])). lia. Qed.

(** No more digits than the value needs. *)
Lemma low_digits_short fuel base n k :
  2 <= base -> 0 <= n < base ^ Z.of_nat (S k) -> (length (low_digits fuel base n) <= S k)%nat.
Proof.
  intros Hb. revert n k. induction fuel as [|f IH]; intros n k Hn; simpl; [lia|].
  destruct (n / base >? 0) eqn:E; rewrite Z.gtb_ltb in E; bools; [|simpl; lia].
  rewrite Nat2Z.inj_succ, Z.pow_succ_r in Hn by lia.
  assert (n / base < base ^ Z.of_nat k) by (apply Z.div_lt_upper_bound; lia).
  destruct k as [|k]; [change (base ^ Z.of_nat 0) with 1 in *; lia|].
  apply le_n_S, IH. split; [apply Z.div_pos; lia|done].
Qed.

(** Enough turns for [n]. *)
Lemma itoa_digits_ok fuel base n str k :
  2 <= base -> 0 <= n < 2 ^ Z.of_nat fuel -> (0 < fuel)%nat -> len (k ++ low_digits fuel base n) <= len str ->
  itoa_digits fuel n base (splice str 0 k) (len k)
    = Done (splice str 0 (k ++ low_digits fuel base n), len (k ++ low_digits fuel base n)).
Proof.
  intros Hb. revert n k. induction fuel as [|f IH]; intros n k Hn Hf Hl; [lia|].
  pose proof (low_digits_pos (S f) base n Hf). rewrite len_app in Hl.
  cbn [itoa_digits low_digits] in *. rewrite write_snoc by lia. cbn [obind].
  destruct (n / base >? 0) eqn:E; rewrite Z.gtb_ltb in E; bools.
  - assert (f <> 0%nat) as Hf0.
    { intros ->. assert (n = 0 \/ n = 1) as [-> | ->] by (change (2 ^ Z.of_nat 1) with 2 in Hn; lia);
        [rewrite Z.div_0_l in E by lia; lia|rewrite Z.div_1_l in E by lia; lia]. }
    replace (len k + 1) with (len (k ++ [digit_char (n mod base)])) by (rewrite len_app; done).
    rewrite IH; [by rewrite <- app_assoc| |lia|rewrite !len_app; rewrite !len_cons, len_nil in *; lia].
    split; [apply Z.div_pos; lia|]. rewrite Nat2Z.inj_succ, Z.pow_succ_r in Hn by lia.
    apply Z.div_lt_upper_bound; [lia|]. nia.
  - rewrite len_app. done.
Qed.

Lemma read_mid {A} (a : list A) x r : mem_read (a ++ x :: r) (len a) 1 = Done [x].
Proof.
  pose proof (len_nonneg a). pose proof (len_nonneg r). rewrite mem_read_ok; [|lia|lia|rewrite len_app, len_cons; lia].
  unfold slice, len. rewrite Nat2Z.id. by rewrite drop_app_length.
Qed.

Lemma write_mid {A} (a : list A) x y r : mem_write (a ++ x :: r) (len a) [y] = Done (a ++ y :: r).
Proof.
  pose proof (len_nonneg a). pose proof (len_nonneg r). rewrite mem_write_ok; [|lia|rewrite len_app, !len_cons, len_nil; lia].
  unfold splice, len. rewrite Nat2Z.id, take_app_length. simpl. rewrite drop_app_ge by lia.
  replace (length a + 1 - length a)%nat with 1%nat by lia. done.
Qed.

Lemma itoa_reverse_short fuel a m c t :
  len a = len c -> (length m <= 1)%nat ->
  itoa_reverse fuel (a ++ m ++ c ++ t) (len a) (len (a ++ m ++ c)) = Done (a ++ reverse m ++ c ++ t).
Proof.
  intros Hac Hm. assert (len a <? len (a ++ m ++ c) / 2 = false) as E
    by (apply Z.ltb_ge; rewrite !len_app, Hac; unfold len in *; zlia).
  destruct fuel; cbn [itoa_reverse]; rewrite E; destruct m as [|x [|y m]]; try done; simpl in Hm; lia.
Qed.

Lemma itoa_reverse_ok fuel a m c t :
  len a = len c -> (length m <= 2 * fuel + 1)%nat ->
  itoa_reverse fuel (a ++ m ++ c ++ t) (len a) (len (a ++ m ++ c)) = Done (a ++ reverse m ++ c ++ t).
Proof.
  revert a m c. induction fuel as [|f IH]; intros a m c Hac Hm; (destruct (decide (length m <= 1)%nat) as [Hs|Hs];
    [by apply itoa_reverse_short|]); [simpl in Hm; lia|].
  destruct m as [|x m]; [simpl in Hs; lia|]. destruct m as [|y m _] using rev_ind; [simpl in Hs; lia|].
  assert (len a <? len (a ++ (x :: m ++ [y]) ++ c) / 2 = true) as E.
  { apply Z.ltb_lt. rewrite !len_app, len_cons, len_app, len_cons, len_nil, Hac. pose proof (len_nonneg m). zlia. }
  cbn [itoa_reverse]. rewrite E. cbn [negb]. remember (len (a ++ (x :: m ++ [y]) ++ c)) as n eqn:En.
  replace (n - len a - 1) with (len (a ++ x :: m))
    by (rewrite En, !len_app, !len_cons, len_app, len_cons, len_nil, Hac; lia).
  replace (a ++ (x :: m ++ [y]) ++ c ++ t) with ((a ++ x :: m) ++ y :: c ++ t) by (cbn [app]; rewrite <- !app_assoc; done).
  rewrite read_mid. cbn [obind]. rewrite <- app_assoc. cbn [app]. rewrite read_mid. cbn [obind].
  replace (a ++ x :: m ++ y :: c ++ t) with ((a ++ x :: m) ++ y :: c ++ t) by (by rewrite <- app_assoc).
  rewrite write_mid. cbn [obind]. rewrite <- app_assoc. cbn [app]. rewrite write_mid. cbn [obind].
  replace (len a + 1) with (len (a ++ [y])) by (by rewrite len_app).
  replace (a ++ y :: m ++ x :: c ++ t) with ((a ++ [y]) ++ m ++ (x :: c) ++ t) by (by rewrite <- app_assoc).
  replace n with (len ((a ++ [y]) ++ m ++ (x :: c)))
    by (rewrite En, !len_app, !len_cons, !len_app, !len_cons, len_nil; lia).
  rewrite IH; [|rewrite len_app, !len_cons, len_nil; lia|rewrite length_cons, length_app in Hm; simpl in Hm; lia].
  rewrite reverse_cons, reverse_app, <- !app_assoc. done.
Qed.

(** ** What itoa writes *)

Definition itoa_text (val base : Z) : list Z :=
  (if val <? 0 then [45] else []) ++ reverse (low_digits 32 base (Z.abs val)).

Lemma splice_front {A} (l k : list A) : len k <= len l -> splice l 0 k = k ++ drop (length k) l.
Proof. intros H. unfold splice. done. Qed.

Lemma c_str_app s t : Forall (fun c => c <> 0) s -> c_str (s ++ 0 :: t) = Done s.
Proof.
  induction s as [|c s IH]; intros Hs; [done|]. apply Forall_cons_1 in Hs as [Hc Hs]. simpl.
  destruct (Z.eqb_spec c 0); [done|]. by rewrite IH.
Qed.

Lemma itoa_ok val str base :
  2 <= base <= 36 -> - 2 ^ 31 < val < 2 ^ 31 -> len (itoa_text val base) < len str ->
  itoa val str base = Done (splice str 0 (itoa_text val base ++ [0])).
Proof.
  intros Hb Hv Hl. unfold itoa, INT_MIN. destruct (Z.eqb_spec val (- 2 ^ 31)); [lia|]. cbn [negb].
  rewrite !(proj2 (Z.leb_le _ _)) by lia. cbn [andb].
  pose proof (itoa_digits_ok 32 base (Z.abs val) str []) as Hd. change (len (@nil Z)) with 0 in Hd. cbn [app] in Hd.
  change (splice str 0 []) with str in Hd.
  assert (len (itoa_text val base) = len (low_digits 32 base (Z.abs val)) + if val <? 0 then 1 else 0) as Ht
    by (unfold itoa_text; generalize (low_digits 32 base (Z.abs val)); intros l; unfold len;
        rewrite length_app, length_reverse; destruct (val <? 0); simpl; lia).
  rewrite Ht in Hl. assert (0 <= (if val <? 0 then 1 else 0)) by (destruct (val <? 0); lia).
  rewrite Hd; [|lia|change (2 ^ Z.of_nat 32) with (2 ^ 32); lia|lia|lia]. cbn [obind fst snd].
  pose proof (low_digits_len 32 base (Z.abs val)) as Hlen.
  remember (low_digits 32 base (Z.abs val)) as ds eqn:Eds.
  set (w := ds ++ if val <? 0 then [45] else []).
  assert (len w <= 33 /\ len w < len str) as [Hw Hw']
    by (unfold w; rewrite len_app; unfold len in *; destruct (val <? 0); simpl; lia).
  transitivity (let* s := itoa_reverse 17 (splice str 0 w) 0 (len w) in mem_write s (len w) [0]).
  { unfold w. destruct (val <? 0).
    - rewrite write_snoc by lia. cbn [obind fst snd].
      replace (len ds + 1) with (len (ds ++ [45])) by (by rewrite len_app). by destruct (itoa_reverse _ _ _ _).
    - cbn [obind fst snd]. rewrite app_nil_r. by destruct (itoa_reverse _ _ _ _). }
  rewrite splice_front by lia.
  pose proof (itoa_reverse_ok 17 [] w [] (drop (length w) str) eq_refl) as Hr. cbn [app] in Hr. rewrite app_nil_r in Hr.
  change (len (@nil Z)) with 0 in Hr. rewrite Hr by (unfold len in *; lia). cbn [obind].
  rewrite <- (length_reverse w), <- splice_front by (unfold len in *; rewrite length_reverse; lia).
  replace (len w) with (len (reverse w)) by (unfold len; by rewrite length_reverse).
  rewrite write_snoc by (unfold len in *; rewrite length_reverse; lia).
  do 3 f_equal. unfold w, itoa_text. rewrite <- Eds, reverse_app. by destruct (val <? 0).
Qed.

(** ** Reading a number back *)

Lemma digit_val_char d : 0 <= d < 36 -> digit_val (digit_char d) = Some d.
Proof.
  intros Hd. unfold digit_val, digit_char. destruct (Z.ltb_spec d 10).
  - rewrite !(proj2 (Z.leb_le _ _)) by lia. simpl. f_equal. lia.
  - rewrite (proj2 (Z.leb_gt (87 + d) 57)), andb_false_r by lia. rewrite !(proj2 (Z.leb_le _ _)) by lia. simpl. f_equal. lia.
Qed.

Definition digits_of (base : Z) (l : list Z) : Prop :=
  Forall (fun c => exists d, c = digit_char d /\ 0 <= d < base) l.

Lemma low_digits_digits fuel base n : 2 <= base -> 0 <= n -> digits_of base (low_digits fuel base n).
Proof.
  intros Hb. revert n. induction fuel as [|f IH]; intros n Hn; simpl; [constructor|].
  constructor; [exists (n mod base); split; [done|apply Z.mod_pos_bound; lia]|].
  destruct (n / base >? 0); [|constructor]. apply IH. apply Z.div_pos; lia.
Qed.

Lemma scan_app base acc l r :
  2 <= base <= 36 -> digits_of base l -> scan_digits base acc (l ++ r) = scan_digits base (scan_digits base acc l) r.
Proof.
  intros Hb Hl. revert acc. induction Hl as [|c l (d & -> & Hd) _ IH]; intros acc; [done|]. simpl.
  rewrite digit_val_char by lia. rewrite (proj2 (Z.ltb_lt _ _)) by lia. apply IH.
Qed.

Lemma scan_low_digits fuel base n :
  2 <= base <= 36 -> 0 <= n < 2 ^ Z.of_nat fuel -> scan_digits base 0 (reverse (low_digits fuel base n)) = n.
Proof.
  intros Hb. revert n. induction fuel as [|f IH]; intros n Hn; [change (2 ^ Z.of_nat 0) with 1 in Hn; simpl; lia|].
  cbn [low_digits]. rewrite reverse_cons, scan_app; [|lia|].
  - assert (scan_digits base 0 (reverse (if n / base >? 0 then low_digits f base (n / base) else [])) = n / base) as ->.
    { destruct (n / base >? 0) eqn:E; rewrite Z.gtb_ltb in E; bools.
      - apply IH. split; [apply Z.div_pos; lia|]. rewrite Nat2Z.inj_succ, Z.pow_succ_r in Hn by lia.
        apply Z.div_lt_upper_bound; [lia|]. nia.
      - simpl. pose proof (Z.div_pos n base). lia. }
    pose proof (Z.mod_pos_bound n base). cbn [scan_digits]. rewrite digit_val_char by lia.
    rewrite (proj2 (Z.ltb_lt _ _)) by lia. pose proof (Z.div_mod n base). lia.
  - apply Forall_reverse. destruct (n / base >? 0); [apply low_digits_digits; [lia|apply Z.div_pos; lia]|constructor].
Qed.

Lemma digit_char_range d : 0 <= d -> 48 <= digit_char d /\ digit_char d <> 120 /\ digit_char d <> 88 \/ 16 <= d.
Proof. unfold digit_char. destruct (Z.ltb_spec d 10); lia. Qed.

Lemma skip_prefix_digits base l : 2 <= base <= 36 -> digits_of base l -> skip_prefix base l = l.
Proof.
  intros Hb Hl. destruct l as [|z [|x [|d l]]]; try done. simpl.
  destruct (Z.eqb_spec base 16) as [->|]; [|done].
  apply Forall_cons_1 in Hl as [_ Hl]. apply Forall_cons_1 in Hl as [(e & -> & He) _].
  destruct (digit_char_range e) as [(_ & ? & ?)|?]; [lia| |lia].
  rewrite (proj2 (Z.eqb_neq (digit_char e) 120)), (proj2 (Z.eqb_neq (digit_char e) 88)) by done.
  by rewrite andb_false_r.
Qed.

Lemma itoa_text_scan val base :
  2 <= base <= 36 -> - 2 ^ 31 < val < 2 ^ 31 -> scan_number base (itoa_text val base) = (val <? 0, Z.abs val).
Proof.
  intros Hb Hv. unfold scan_number, itoa_text.
  pose proof (low_digits_digits 32 base (Z.abs val)) as Hd. pose proof (low_digits_pos 32 base (Z.abs val)) as Hp.
  pose proof (scan_low_digits 32 base (Z.abs val)) as Hs. remember (reverse (low_digits 32 base (Z.abs val))) as r eqn:Er.
  assert (digits_of base r) as Hr by (subst; apply Forall_reverse, Hd; lia).
  assert (exists c r', r = c :: r' /\ c <> 45 /\ c <> 43 /\ isspace c = false) as (c & r' & Ec & H1 & H2 & H3).
  { destruct r as [|c r'].
    - apply (f_equal length) in Er. rewrite length_reverse in Er. change (length (@nil Z)) with 0%nat in Er.
      specialize (Hp ltac:(lia)). unfold len in Hp. lia.
    - exists c, r'. apply Forall_cons_1 in Hr as [(d & -> & Hd') _]. split; [done|].
      assert (48 <= digit_char d) by (unfold digit_char; destruct (Z.ltb_spec d 10); lia).
      split; [lia|]. split; [lia|]. unfold isspace. apply orb_false_iff. split; [lia|]. apply andb_false_iff. lia. }
  destruct (val <? 0); simpl app; rewrite Ec; cbn [skip_space scan_sign];
    [change (isspace 45) with false; cbn [Z.eqb] | rewrite H3].
  - change (skip_space (45 :: c :: r')) with (45 :: c :: r'). cbn [scan_sign]. rewrite Z.eqb_refl.
    rewrite <- Ec, skip_prefix_digits, Hs by (try done; lia). done.
  - cbn [scan_sign]. rewrite (proj2 (Z.eqb_neq _ _) H1), (proj2 (Z.eqb_neq _ _) H2). rewrite <- Ec, skip_prefix_digits, Hs by (try done; lia). done.
Qed.

(** What [itoa] writes, read back. *)
Lemma itoa_read_back val str base k :
  2 <= base <= 36 -> - 2 ^ 31 < val < 2 ^ 31 ->
  Z.abs val < base ^ Z.of_nat (S k) -> Z.of_nat k + 3 <= len str ->
  exists s, itoa val str base = Done (splice str 0 (s ++ [0]))
    /\ len s + 1 <= Z.of_nat k + 3
    /\ c_str (splice str 0 (s ++ [0])) = Done s
    /\ strtol s base = val /\ strtoul s base = u64 val.
Proof.
  intros Hb Hv Hk Hl. exists (itoa_text val base).
  assert (len (itoa_text val base) <= Z.of_nat k + 2) as Ht.
  { pose proof (low_digits_short 32 base (Z.abs val) k). unfold itoa_text, len.
    rewrite length_app, length_reverse. destruct (val <? 0); cbn [length app]; lia. }
  split; [apply itoa_ok; lia|]. split; [lia|]. split.
  - rewrite splice_front by (rewrite len_app, len_cons, len_nil; lia). rewrite <- app_assoc. apply c_str_app.
    unfold itoa_text. apply Forall_app_2.
    + destruct (val <? 0); [|constructor]. by constructor.
    + apply Forall_reverse. eapply Forall_impl; [apply (low_digits_digits 32 base); lia|].
      intros c (d & -> & Hd). unfold digit_char. destruct (Z.ltb_spec d 10); lia.
  - unfold strtol, strtoul, LONG_MAX, LONG_MIN, ULONG_MAX, wrap. rewrite itoa_text_scan by done.
    destruct (Z.ltb_spec val 0); rewrite !Z.gtb_ltb, !(proj2 (Z.ltb_ge _ _)) by lia; (split; [lia|]).
    + f_equal. lia.
    + rewrite Z.mod_small; lia.
Qed.

(** C38: [itoa] writes a string that [strtol] and [strtoul] read back to the
    same number, in every base from 2 to 36 and for every [int] but the least
    one; it changes nothing behind the terminator, and the buffer has to hold
    only the sign, the digits that the value needs, and the terminator. *)
Theorem itoa_strtol val str base k :
  2 <= base <= 36 -> - 2 ^ 31 < val < 2 ^ 31 ->
  Z.abs val < base ^ Z.of_nat (S k) -> Z.of_nat k + 3 <= len str ->
  exists s, itoa val str base = Done (splice str 0 (s ++ [0]))
    /\ len s + 1 <= Z.of_nat k + 3
    /\ c_str (splice str 0 (s ++ [0])) = Done s
    /\ strtol s base = val /\ strtoul s base = u64 val.
Proof. apply itoa_read_back. Qed.

Lemma itoa_strtol_witness :
  exists s, itoa (-48879) (repeat 7 16) 16 = Done (splice (repeat 7 16) 0 (s ++ [0]))
    /\ len s + 1 <= 7 + 3 /\ c_str (splice (repeat 7 16) 0 (s ++ [0])) = Done s
    /\ strtol s 16 = -48879 /\ strtoul s 16 = u64 (-48879).
Proof.
  refine (itoa_strtol (-48879) (repeat 7 16) 16 7 _ _ _ _); [lia|lia|vm_compute; reflexivity|vm_compute; discriminate].
Defined.

Example itoa_example : itoa (-48879) (repeat 7 8) 16 = Done [45; 98; 101; 101; 102; 0; 7; 7].
Proof. reflexivity. Qed.

Lemma scan_digits_nonneg base acc s : 0 <= base -> 0 <= acc -> 0 <= scan_digits base acc s.
Proof.
  intros Hb. revert acc. induction s as [|c s IH]; intros acc Ha; simpl; [done|].
  destruct (digit_val c) as [d|] eqn:E; [|done]. destruct (d <? base); [|done]. apply IH.
  assert (0 <= d); [|nia]. unfold digit_val in E. repeat case_match; simplify_eq; bools; lia.
Qed.

Lemma strtoul_nonneg s : 0 <= strtoul s 16.
Proof.
  unfold strtoul, scan_number. destruct (scan_sign _) as [neg r].
  pose proof (scan_digits_nonneg 16 0 (skip_prefix 16 r)). unfold ULONG_MAX.
  destruct (_ >? _); [lia|]. destruct neg; [|lia]. apply (wrap_range 64). lia.
Qed.

(** ** strlcpy *)

Lemma strlcpy_loop_ok n dst k src s :
  c_str src = Done s -> len k + Z.of_nat n < len dst ->
  strlcpy_loop n (splice dst 0 k) (len k) src =
    (if bool_decide (length s < n)%nat then Done (splice dst 0 (k ++ s ++ [0]), len (k ++ s ++ [0]), None)
    else Done (splice dst 0 (k ++ take n s), len (k ++ take n s), Some (drop n src)))
  /\ ((n <= length s)%nat -> c_str (drop n src) = Done (drop n s)).
Proof.
  revert k src s. induction n as [|n IH]; intros k src s Hs Hl.
  - simpl. rewrite app_nil_r. by rewrite drop_0.
  - destruct src as [|c src]; [done|]. cbn [strlcpy_loop]. rewrite write_snoc by lia. cbn [obind].
    cbn [c_str] in Hs. destruct (Z.eqb_spec c 0) as [->|Hc].
    + injection Hs as <-. simpl. rewrite len_app. split; [done|]. lia.
    + destruct (c_str src) as [s'| |] eqn:E; [|done..]. injection Hs as <-.
      replace (len k + 1) with (len (k ++ [c])) by (by rewrite len_app).
      destruct (IH (k ++ [c]) src s' E) as [-> H2]; [rewrite len_app, len_cons, len_nil; lia|].
      rewrite <- !app_assoc. simpl. split; [|intros; apply H2; lia].
      destruct (decide (length s' < n)%nat); [rewrite !bool_decide_eq_true_2 by lia|rewrite !bool_decide_eq_false_2 by lia]; done.
Qed.

Lemma strlcpy_ok dst src s dsize :
  c_str src = Done s -> 0 <= dsize <= len dst ->
  strlcpy dst src dsize =
    Done (len s, if dsize =? 0 then dst else splice dst 0 (take (Z.to_nat dsize - 1) s ++ [0])).
Proof.
  intros Hs Hd. unfold strlcpy. destruct (Z.eqb_spec dsize 0) as [->|Hz]; [simpl; by rewrite Hs|].
  destruct (strlcpy_loop_ok (Z.to_nat dsize - 1) dst [] src s Hs) as [H1 H2]; [rewrite len_nil; lia|].
  change (splice dst 0 []) with dst in H1. change (len (@nil Z)) with 0 in H1. cbn [app] in H1. rewrite H1. clear H1.
  case_bool_decide as Hlt; cbn [obind].
  - rewrite len_app, len_cons, len_nil. rewrite take_ge by lia. do 2 f_equal. lia.
  - assert (len (take (Z.to_nat dsize - 1) s) = dsize - 1) as Ht by (unfold len; rewrite length_take; lia).
    rewrite write_snoc by lia. cbn [obind]. rewrite H2 by lia. cbn [obind]. do 2 f_equal.
    rewrite Ht. unfold len. rewrite length_drop. lia.
Qed.

(** What was copied is a string of the destination, cut to the room. *)
Lemma strlcpy_c_str dst src s dsize r :
  c_str src = Done s -> Forall (fun c => c <> 0) s -> 0 < dsize <= len dst ->
  strlcpy dst src dsize = Done r -> r.1 = len s /\ c_str r.2 = Done (take (Z.to_nat dsize - 1) s).
Proof.
  intros Hs Hn Hd. rewrite (strlcpy_ok dst src s dsize) by (done || lia). intros [= <-]. cbn [fst snd].
  split; [done|]. rewrite (proj2 (Z.eqb_neq _ _)) by lia.
  rewrite splice_front by (rewrite len_app, len_cons, len_nil; unfold len in *; rewrite length_take; lia).
  rewrite <- app_assoc. apply c_str_app. by apply Forall_take.
Qed.
End CString.
