(* ===== verification/Env.v ===== *)
(** * lib/env_core.c, env.c : environment variables

    An array of strings [NAME=value], and its image in a RAM area that
    survives a reboot, one line per variable. Strings are byte lists without
    their terminator. The answers of the allocator are part of the state. *)
From Stdlib Require Import ZArith Lia Bool.
From stdpp Require Import base list numbers gmap.
From S2P Require Import Prelude CString.

Module Env.

Definition ENV_MAX : Z := 1024.
Definition EQ : Z := 61.   (* '=' *)
Definition NL : Z := 10.   (* newline *)

(** ** The environment

    [environ] is [*p_environ], a NULL-terminated array ([None] when the
    pointer is NULL); [on_heap] tells whether it was allocated; [mem] holds
    the next answers of the allocator (always yes when it runs out); [blocks]
    counts the strings that are allocated. *)
Record env_reent := mk_env {
  environ : option (list (list Z));
  on_heap : bool;
  alloced : bool;
  mem : list bool;
  blocks : Z;
}.

Definition set_environ (a : option (list (list Z))) (e : env_reent) : env_reent :=
  mk_env a (on_heap e) (alloced e) (mem e) (blocks e).
Definition set_array (a : option (list (list Z))) (h al : bool) (e : env_reent) : env_reent :=
  mk_env a h al (mem e) (blocks e).
Definition add_blocks (n : Z) (e : env_reent) : env_reent :=
  mk_env (environ e) (on_heap e) (alloced e) (mem e) (blocks e + n).

(** [env_malloc] and [env_realloc]: whether there is memory. *)
Definition env_alloc (e : env_reent) : bool * env_reent :=
  match mem e with
  | [] => (true, e)
  | b :: m => (b, mk_env (environ e) (on_heap e) (alloced e) m (blocks e))
  end.

(** [_ENV_DEFINE (name, ...)] *)
Definition env_define (m : list bool) : env_reent := mk_env (Some []) false false m 0.

(** [strchr (s, '=')] on a string without its terminator. *)
Fixpoint find_eq (s : list Z) : option nat :=
  match s with
  | [] => None
  | c :: s => if c =? EQ then Some O else S <$> find_eq s
  end.
Definition has_eq (s : list Z) : bool := match find_eq s with Some _ => true | None => false end.

(** [!strncmp (p, name, len) && p [len] == '='], where [len] is the length of
    the name, cut to an [int] and widened again for [strncmp]: the value. A
    negative [len] compares the whole strings; they differ, because a name has
    no equal sign and a variable has one. *)
Definition entry_match (name p : list Z) : option (list Z) :=
  let l := s32 (len name) in
  if l <? 0 then None
  else
  let n := Z.to_nat l in
  if bool_decide (take n p = take n name) then
    match drop n p with
    | c :: v => if c =? EQ then Some v else None
    | [] => None
    end
  else None.

(** The loop of [env_find]: offset and value. *)
Fixpoint find_entry (name : list Z) (l : list (list Z)) : option (nat * list Z) :=
  match l with
  | [] => None
  | p :: l => match entry_match name p with
              | Some v => Some (O, v)
              | None => (fun r => (S r.1, r.2)) <$> find_entry name l
              end
  end.

(** [env_find (reent_ptr, name, &offset)] *)
Definition env_find (e : env_reent) (name : list Z) : option (nat * list Z) :=
  match environ e with
  | None => None
  | Some l => if has_eq name then None else find_entry name l
  end.

(** From the allocation of the string on; [offset] is its slot, which is the
    one behind the last when the variable is new. The size is computed as an
    [int]: the sum must not overflow, and the string must fit. *)
Definition set_string (e : env_reent) (l : list (list Z)) (offset : nat) (name value : list Z) : outcome (Z * env_reent) :=
  let size := s32 (len name) + s32 (len value) + 2 in
  guard* (- 2 ^ 31 <=? size) && (size <? 2 ^ 31) in
  let '(ok, e) := env_alloc e in
  if ok then
    guard* len name + len value + 2 <=? u64 size in
    Done (0, add_blocks 1 (set_environ (Some (take offset l ++ [name ++ EQ :: value] ++ drop (S offset) l)) e))
  else Done (-1, set_environ (Some (take offset l)) e).   (* the slot is NULL and ends the array *)

(** [_env_set (reent_ptr, name, value, rewrite)] *)
Definition _env_set (e : env_reent) (name value : list Z) (rewrite : bool) : outcome (Z * env_reent) :=
  if has_eq name then Done (-1, e)
  else
  match env_find e name with
  | Some (offset, old) =>
      match environ e with
      | None => Undef
      | Some l =>
          if negb rewrite then Done (0, e)
          else if s32 (len old) >=? s32 (len value)
          then guard* len value <=? len old in     (* the copy stays in the old string *)
               Done (0, set_environ (Some (take offset l ++ [name ++ EQ :: value] ++ drop (S offset) l)) e)
          else set_string e l offset name value
      end
  | None =>
      match environ e with
      | None => Undef
      | Some l =>
          guard* len l + 2 <? 2 ^ 31 in   (* cnt + 2 *)
          if alloced e then
            guard* on_heap e in         (* realloc of what malloc returned *)
            let '(ok, e) := env_alloc e in
            if ok then set_string e l (length l) name value
            else Done (-1, set_array None false (alloced e) e)
          else
            let e := set_array (environ e) (on_heap e) true e in
            let '(ok, e) := env_alloc e in
            if ok then set_string (set_array (Some l) true true e) l (length l) name value
            else Done (-1, e)
      end
  end.

(** The loop of [_env_unset]. *)
Fixpoint unset_loop (fuel : nat) (e : env_reent) (name : list Z) : outcome env_reent :=
  match env_find e name with
  | None => Done e
  | Some (offset, _) =>
      match fuel, environ e with
      | S fuel, Some l => unset_loop fuel (set_environ (Some (delete offset l)) e) name
      | _, _ => Undef
      end
  end.

(** [_env_unset (reent_ptr, name)]; a NULL name is [None]. *)
Definition _env_unset (e : env_reent) (name : option (list Z)) : outcome (Z * env_reent) :=
  match name with
  | None | Some [] => Done (-1, e)
  | Some name =>
      if has_eq name then Done (-1, e)
      else let* e' := unset_loop (match environ e with Some l => length l | None => 0 end) e name in
           Done (0, e')
  end.

Definition _env_get (e : env_reent) (name : list Z) : option (list Z) := snd <$> env_find e name.

(** [_env_free (reent_ptr)]: the array is freed only when it was allocated. *)
Definition _env_free (e : env_reent) : outcome env_reent :=
  match environ e with
  | None => Undef
  | Some l =>
      guard* (if alloced e then on_heap e else true) in
      Done (mk_env (Some []) false false (mem e) (blocks e - len l))
  end.

(** ** Loading and flushing through callbacks *)

Section Callbacks.
Context {St : Type}.

(** [readline_cb (ctx, buffer, max_size)]: its answer and the buffer. *)
Variable readline_cb : St -> list Z -> Z -> outcome (Z * list Z * St).

(** The loop of [_env_load]; [err] is [None] as long as it is not assigned. *)
Fixpoint load_loop (fuel : nat) (e : env_reent) (ctx : St) (buffer : list Z) (err : option Z)
    : outcome (option Z * env_reent * St) :=
  match fuel with
  | O => Undef
  | S fuel =>
      let* r := readline_cb ctx buffer (ENV_MAX - 1) in
      let '(ret, buffer, ctx) := r in
      if negb (ret >? 0) then Done (err, e, ctx)
      else
      let* buffer := mem_write buffer ret [0] in
      let* p := CString.strchr buffer EQ in
      match p with
      | None => load_loop fuel e ctx buffer err
      | Some pval =>
          let* buffer := mem_write buffer pval [0] in
          let* c := mem_read buffer (ret - 1) 1 in
          let* buffer := (if bool_decide (c = [NL]) then mem_write buffer (ret - 1) [0] else Done buffer) in
          let* name := CString.c_str buffer in
          let* value := CString.c_str (drop (Z.to_nat (pval + 1)) buffer) in
          let* s := _env_set e name value false in
          if negb (s.1 =? 0) then Done (Some s.1, s.2, ctx)
          else load_loop fuel s.2 ctx buffer (Some s.1)
      end
  end.

(** [_env_load (reent_ptr, readline_cb, ctx)]; [buffer] is what the allocated
    memory holds. *)
Definition _env_load (fuel : nat) (e : env_reent) (ctx : St) (buffer : list Z)
    : outcome (option Z * env_reent * St) :=
  let '(ok, e) := env_alloc e in
  if negb ok then Done (Some (- EINVAL), e, ctx)
  else load_loop fuel e ctx buffer None.

(** [write_cb (ctx, buffer, size)], given the [size] bytes. *)
Variable write_cb : St -> list Z -> outcome (Z * St).

Fixpoint flush_loop (l : list (list Z)) (ctx : St) (ret : Z) : outcome (Z * St) :=
  match l with
  | [] => Done (ret, ctx)
  | p :: l =>
      if negb (has_eq p) then flush_loop l ctx ret
      else
      guard* len p + 1 <=? ENV_MAX in     (* the buffer has ENV_MAX bytes *)
      let* r := write_cb ctx (p ++ [NL]) in
      if r.1 <? 0 then Done (r.1, r.2) else flush_loop l r.2 r.1
  end.

(** [_env_flush (reent_ptr, write_cb, ctx)] *)
Definition _env_flush (e : env_reent) (ctx : St) : outcome (Z * env_reent * St) :=
  let '(ok, e) := env_alloc e in
  if negb ok then Done (- EINVAL, e, ctx)
  else match environ e with
  | None => Undef
  | Some l => let* r := flush_loop l ctx 0 in Done (r.1, e, r.2)
  end.
End Callbacks.

(** ** env.c *)

Record env_ram := mk_ram { rm_buffer : list Z; rm_offset : Z; rm_maxlen : Z; rm_total : Z }.
Definition MAX_KEY_SIZE : Z := 64.

Definition env_ram_write (ram : env_ram) (bytes : list Z) : outcome (Z * env_ram) :=
  let remain := u64 (rm_maxlen ram - rm_offset ram) in
  if remain =? 0 then Done (- EINVAL, ram)
  else
  let n := if remain >? len bytes then len bytes else remain in
  let* b := mem_write (rm_buffer ram) (rm_offset ram) (take (Z.to_nat n) bytes) in
  Done (0, mk_ram b (rm_offset ram + n) (rm_maxlen ram) (rm_total ram + n)).

Definition env_ram_readline (ram : env_ram) (buffer : list Z) (max_size : Z) : outcome (Z * list Z * env_ram) :=
  let ofs := rm_offset ram in
  if ofs >=? rm_maxlen ram then Done (- EINVAL, buffer, ram)
  else
  let start := drop (Z.to_nat ofs) (rm_buffer ram) in
  let* p := CString.strchr start EQ in
  match p with
  | None => Done (- EINVAL, buffer, ram)
  | Some p =>
      if p >? MAX_KEY_SIZE then Done (- EINVAL, buffer, ram)
      else
      let* q := CString.strchr (drop (Z.to_nat p) start) NL in
      match q with
      | None => Done (- EINVAL, buffer, ram)
      | Some q =>
          let n := p + q + 1 in
          if (n <? ENV_MAX) && (ofs + n <? rm_maxlen ram) then
            let* line := mem_read start 0 n in
            let* buffer := mem_write buffer 0 line in
            Done (n, buffer, mk_ram (rm_buffer ram) (ofs + n) (rm_maxlen ram) (rm_total ram))
          else Done (- EINVAL, buffer, ram)
      end
  end.

(** [env_load_ram (input, size)]; a NULL input is [None]. *)
Definition env_load_ram (e : env_reent) (input : option (list Z)) (size : Z) (scratch : list Z)
    : outcome (option Z * env_reent) :=
  match input with
  | None => Done (Some 0, e)
  | Some b =>
      if size =? 0 then Done (Some 0, e)
      else let* r := _env_load env_ram_readline (S (Z.to_nat size)) e (mk_ram b 0 size 0) scratch in
           Done r.1
  end.

(** [env_flush_ram (buffer, maxlen)]; the buffer afterwards. *)
Definition env_flush_ram (e : env_reent) (buffer : option (list Z)) (maxlen : Z)
    : outcome (Z * env_reent * option (list Z)) :=
  match buffer with
  | None => Done (- EINVAL, e, None)
  | Some b =>
      if maxlen =? 0 then Done (- EINVAL, e, buffer)
      else let* r := _env_flush env_ram_write e (mk_ram b 0 maxlen 0) in
           let '(err, e, ram) := r in
           Done (if negb (err =? 0) then err else s32 (rm_total ram), e, Some (rm_buffer ram))
  end.

Definition env_set (e : env_reent) (name value : list Z) (overwrite : bool) : outcome (Z * env_reent) :=
  _env_set e name value overwrite.
Definition env_unset (e : env_reent) (name : option (list Z)) : outcome (Z * env_reent) := _env_unset e name.
Definition env_get (e : env_reent) (name : list Z) : option (list Z) := _env_get e name.
Definition env_reset (e : env_reent) : outcome env_reent := _env_free e.

(** [env_streq (key, s)]; a NULL [s] is [None]. *)
Definition env_streq (e : env_reent) (key : list Z) (s : option (list Z)) : bool :=
  match env_get e key, s with
  | Some v, Some s => bool_decide (v = s)
  | _, _ => false
  end.

Definition env_getul (e : env_reent) (key : list Z) : Z :=
  match env_get e key with Some v => CString.strtoul v 16 | None => 0 end.
Definition env_getl (e : env_reent) (key : list Z) : Z :=
  match env_get e key with Some v => CString.strtol v 16 | None => 0 end.

(** [env_setint (key, v)]; [number] is what the array of 16 bytes holds. *)
Definition env_setint (e : env_reent) (key : list Z) (v : Z) (number : list Z) : outcome (Z * env_reent) :=
  let* str := CString.itoa v number 16 in
  let* s := CString.c_str str in
  env_set e key s true.

(** ** Names and entries *)

Definition ent (kv : list Z * list Z) : list Z := kv.1 ++ EQ :: kv.2.
Abbreviation keys kv := (fst <$> kv : list (list Z)).

Lemma has_eq_spec s : has_eq s = bool_decide (EQ ∈ s).
Proof.
  unfold has_eq. induction s as [|c s IH]; [done|]. simpl. destruct (Z.eqb_spec c EQ) as [->|Hc].
  - symmetry. apply bool_decide_eq_true_2. constructor.
  - assert (bool_decide (EQ ∈ c :: s) = bool_decide (EQ ∈ s)) as ->.
    { apply bool_decide_ext. rewrite elem_of_cons. naive_solver. }
    rewrite <- IH. by destruct (find_eq s).
Qed.

Lemma entry_match_ent name k v : len name < 2 ^ 31 ->
  EQ ∉ name -> EQ ∉ k -> entry_match name (ent (k, v)) = if decide (name = k) then Some v else None.
Proof.
  intros Hl Hn Hk. unfold entry_match. pose proof (len_nonneg name). rewrite swrap_small by lia. rewrite (proj2 (Z.ltb_ge _ _)) by lia.
  unfold len. rewrite Nat2Z.id, (take_ge name) by lia. clear Hl H. unfold ent. simpl.
  revert k Hk. induction name as [|c name IH]; intros k Hk.
  - destruct k as [|d k]; [done|]. simpl. destruct (Z.eqb_spec d EQ) as [->|]; [|done]. destruct Hk. constructor.
  - apply not_elem_of_cons in Hn as [Hc Hn]. destruct k as [|d k].
    + simpl. rewrite bool_decide_eq_false_2; [done|]. simpl. congruence.
    + apply not_elem_of_cons in Hk as [Hd Hk]. specialize (IH Hn k Hk). simpl in *.
      destruct (decide (c = d)) as [->|Hcd].
      * assert (bool_decide (d :: take (length name) (k ++ EQ :: v) = d :: name)
          = bool_decide (take (length name) (k ++ EQ :: v) = name)) as -> by (apply bool_decide_ext; split; congruence).
        rewrite IH. destruct (decide (name = k)) as [->|]; [by rewrite decide_True|]. rewrite decide_False by congruence. done.
      * rewrite bool_decide_eq_false_2, decide_False by congruence. done.
Qed.

(** A variable whose string has a size that an [int] can hold. *)
Definition small (kv : list Z * list Z) : Prop := len kv.1 + len kv.2 + 2 < 2 ^ 31.

(** The state stands for the variables [kv], in order, of sizes and a number
    that an [int] can hold, and there is memory. *)
Record env_rep (e : env_reent) (kv : list (list Z * list Z)) : Prop := {
  rep_env : environ e = Some (ent <$> kv);
  rep_keys : Forall (fun k => EQ ∉ k) (keys kv);
  rep_nodup : NoDup (keys kv);
  rep_small : Forall small kv;
  rep_count : len kv + 2 < 2 ^ 31;
  rep_heap : alloced e = true -> on_heap e = true;
  rep_mem : mem e = [];
}.

Lemma find_entry_some name kv :
  len name < 2 ^ 31 -> EQ ∉ name -> Forall (fun k => EQ ∉ k) (keys kv) ->
  match find_entry name (ent <$> kv) with
  | Some (i, v) => kv !! i = Some (name, v)
  | None => name ∉ keys kv
  end.
Proof.
  intros Hl Hn. induction kv as [|[k v] kv IH]; intros Hk; [apply not_elem_of_nil|].
  rewrite fmap_cons in Hk. apply Forall_cons in Hk as [Hk1 Hk]. rewrite !fmap_cons. cbn [find_entry]. rewrite entry_match_ent by done.
  destruct (decide (name = k)) as [->|Hne]; [done|]. specialize (IH Hk).
  destruct (find_entry name (ent <$> kv)) as [[i w]|]; [done|]. cbn [fst]. by apply not_elem_of_cons.
Qed.

Lemma env_find_rep e kv name : env_rep e kv -> len name < 2 ^ 31 -> EQ ∉ name ->
  match env_find e name with
  | Some (i, v) => kv !! i = Some (name, v)
  | None => name ∉ keys kv
  end.
Proof.
  intros [He Hk _ _ _ _ _] Hl Hn. unfold env_find. rewrite He, has_eq_spec, bool_decide_eq_false_2 by done.
  by apply find_entry_some.
Qed.

Lemma map_take_drop_insert (kv : list (list Z * list Z)) i (x : list Z * list Z) :
  (i < length kv)%nat -> take i (ent <$> kv) ++ [ent x] ++ drop (S i) (ent <$> kv) = (ent <$> <[i := x]> kv).
Proof.
  intros Hi. rewrite insert_take_drop, fmap_app, fmap_cons, fmap_take, fmap_drop by done. done.
Qed.

Lemma kv_keys_insert (kv : list (list Z * list Z)) i k v w : kv !! i = Some (k, v) -> keys (<[i := (k, w)]> kv) = keys kv.
Proof.
  intros Hi. rewrite list_fmap_insert. apply list_insert_id. by rewrite list_lookup_fmap, Hi.
Qed.

Lemma len_filter_le {T} (P : T -> Prop) `{!forall x, Decision (P x)} (l : list T) : len (filter P l) <= len l.
Proof. unfold len. pose proof (sublist_length _ _ (sublist_filter P l)). lia. Qed.

(** What [_env_set] does to the variables. *)
Lemma env_set_rep e kv name value rewrite :
  env_rep e kv -> EQ ∉ name -> small (name, value) -> len kv + 3 < 2 ^ 31 ->
  exists e', _env_set e name value rewrite = Done (0, e') /\
    env_rep e' (match list_find (fun x => x.1 = name) kv with
                | Some (i, _) => if rewrite then <[i := (name, value)]> kv else kv
                | None => kv ++ [(name, value)]
                end).
Proof.
  intros Hr Hn Hsm Hroom. pose proof (len_nonneg name) as N1. pose proof (len_nonneg value) as N2. unfold small in Hsm. cbn [fst snd] in Hsm.
  pose proof (env_find_rep e kv name Hr ltac:(lia) Hn) as Hf. pose proof Hr as [He Hk Hd Hs0 Hc0 Hh Hm].
  unfold _env_set. rewrite has_eq_spec, bool_decide_eq_false_2, He by done.
  assert (len (ent <$> kv) = len kv) as Elen by (unfold len; by rewrite length_fmap).
  assert (forall e i, mem e = [] -> set_string e (ent <$> kv) i name value
    = Done (0, add_blocks 1 (set_environ (Some (take i (ent <$> kv) ++ [ent (name, value)] ++ drop (S i) (ent <$> kv))) e))) as Hs.
  { intros e0 i Hm0. unfold set_string, env_alloc. rewrite Hm0, !swrap_small by lia.
    rewrite (proj2 (Z.leb_le (- 2 ^ 31) _)) by lia. rewrite (proj2 (Z.ltb_lt _ (2 ^ 31))) by lia. cbn [andb].
    rewrite wrap_small by (split; lia). rewrite (proj2 (Z.leb_le _ _)) by lia. done. }
  destruct (env_find e name) as [[i old]|].
  - destruct (list_find (fun x => x.1 = name) kv) as [[j y]|] eqn:El.
    + apply list_find_Some in El as (E1 & E2 & E3). destruct y as [k w]. simpl in E2. subst k.
      assert (i = j) as <-.
      { apply (NoDup_lookup (keys kv) i j name); [done| |];
          rewrite list_lookup_fmap; [by rewrite Hf|by rewrite E1]. }
      destruct rewrite; [|by exists e]. pose proof (lookup_lt_Some _ _ _ Hf) as Hi.
      assert (forall e', environ e' = Some (ent <$> <[i := (name, value)]> kv) -> alloced e' = alloced e -> on_heap e' = on_heap e -> mem e' = [] ->
        env_rep e' (<[i := (name, value)]> kv)) as Hrep.
      { intros e' H1 H2 H3 H4. split; [done| | | | |by rewrite H2, H3|done]; rewrite ?(kv_keys_insert _ _ _ _ _ Hf) by done; [done|done| |].
        - by apply Forall_insert.
        - unfold len. by rewrite length_insert. }
      assert (len old < 2 ^ 31) as Hold.
      { apply list_elem_of_lookup_2 in Hf. rewrite Forall_forall in Hs0. specialize (Hs0 _ Hf). unfold small in Hs0. cbn [fst snd] in Hs0. lia. }
      pose proof (len_nonneg old). rewrite !swrap_small by lia. cbn [negb]. rewrite Z.geb_leb.
      destruct (Z.leb_spec (len value) (len old)); simpl; [|rewrite Hs by done]; (eexists; split; [reflexivity|]); apply Hrep; try done;
        exact (f_equal Some (map_take_drop_insert kv i (name, value) Hi)).
    + apply list_find_None in El. apply list_elem_of_lookup_2 in Hf. rewrite Forall_forall in El. by destruct (El _ Hf).
  - destruct (list_find (fun x => x.1 = name) kv) as [[j y]|] eqn:El.
    + apply list_find_Some in El as (E1 & E2 & _). apply list_elem_of_lookup_2 in E1. destruct Hf. subst.
      apply list_elem_of_fmap. eauto.
    + assert (forall e', environ e' = Some (take (length (ent <$> kv)) (ent <$> kv) ++ [ent (name, value)] ++ drop (S (length (ent <$> kv))) (ent <$> kv)) ->
        (alloced e' = true -> on_heap e' = true) -> mem e' = [] -> env_rep e' (kv ++ [(name, value)])) as Hrep.
      { intros e' H1 H2 H3. rewrite take_ge, (drop_ge (ent <$> kv)) in H1 by lia. split; try done.
        - by rewrite fmap_app.
        - rewrite fmap_app. apply Forall_app_2; [done|]. by constructor.
        - rewrite fmap_app. apply NoDup_app. split; [done|]. split; [|apply NoDup_singleton].
          intros x Hx Hx2. simpl in Hx2. apply list_elem_of_singleton in Hx2. by subst.
        - apply Forall_app_2; [done|]. by repeat constructor.
        - rewrite len_app. change (len [(name, value)]) with 1. lia. }
      rewrite (proj2 (Z.ltb_lt _ _)) by lia.
      destruct (alloced e) eqn:Ea; [rewrite Hh by done|]; unfold env_alloc; simpl; rewrite Hm, Hs by done;
        (eexists; split; [reflexivity|]); apply Hrep; try done; simpl; intros; by apply Hh.
Qed.

Lemma filter_key_out (kv : list (list Z * list Z)) name : name ∉ keys kv -> filter (fun x => x.1 <> name) kv = kv.
Proof.
  intros Hn. apply filter_all. intros x Hx <-. destruct Hn. apply list_elem_of_fmap. eauto.
Qed.

Lemma delete_filter (kv : list (list Z * list Z)) i name v :
  NoDup (keys kv) -> kv !! i = Some (name, v) -> delete i kv = filter (fun x => x.1 <> name) kv.
Proof.
  revert i. induction kv as [|[k w] kv IH]; intros i Hd Hi; [done|]. rewrite fmap_cons in Hd. apply NoDup_cons in Hd as [Hk Hd].
  destruct i as [|i]; simpl in Hi |- *.
  - injection Hi as -> ->. rewrite filter_cons_False by (intros H; by apply H). by rewrite filter_key_out.
  - rewrite filter_cons_True; [by erewrite IH|]. intros E. simpl in *. subst. destruct Hk.
    apply list_elem_of_fmap. exists (name, v). split; [done|]. by apply list_elem_of_lookup_2 in Hi.
Qed.

Lemma filter_rep e kv name :
  env_rep e kv -> env_rep (set_environ (Some (ent <$> filter (fun x => x.1 <> name) kv)) e) (filter (fun x => x.1 <> name) kv).
Proof.
  intros [He Hk Hd Hs Hc Hh Hm]. split; try done.
  - rewrite Forall_forall in Hk |- *. intros k Hin. apply Hk. revert Hin. rewrite !list_elem_of_fmap.
    intros (x & -> & Hx%list_elem_of_filter). naive_solver.
  - apply (sublist_NoDup _ (keys kv)); [done|]. apply fmap_sublist, sublist_filter.
  - rewrite Forall_forall in Hs |- *. intros x [_ Hx]%list_elem_of_filter. by apply Hs.
  - pose proof (len_filter_le (fun x => x.1 <> name) kv). lia.
Qed.

Lemma unset_loop_rep fuel e kv name :
  env_rep e kv -> len name < 2 ^ 31 -> EQ ∉ name -> (length kv <= fuel)%nat ->
  exists e', unset_loop fuel e name = Done e' /\ env_rep e' (filter (fun x => x.1 <> name) kv).
Proof.
  intros Hr Hnl Hn Hl. pose proof (env_find_rep e kv name Hr Hnl Hn) as Hf. pose proof Hr as [He _ Hd _ _ _ _].
  assert (forall fuel, match env_find e name with Some _ => True | None => unset_loop fuel e name = Done e end) as Hnone
    by (intros []; simpl; by destruct (env_find e name)).
  specialize (Hnone fuel). destruct (env_find e name) as [[i v]|] eqn:Ef.
  - pose proof (lookup_lt_Some _ _ _ Hf). destruct fuel as [|fuel]; [lia|]. cbn [unset_loop]. rewrite Ef, He.
    assert (delete i (ent <$> kv) = (ent <$> filter (fun x => x.1 <> name) kv)) as ->.
    { rewrite <- list_fmap_delete. by rewrite (delete_filter kv i name v). }
    pose proof (filter_rep e kv name Hr) as Hr'. set (e' := set_environ _ e) in *. exists e'. split; [|done].
    pose proof (env_find_rep e' _ name Hr' Hnl Hn) as Hf'.
    destruct (env_find e' name) as [[j w]|] eqn:Ef'; [|destruct fuel; simpl; by rewrite Ef'].
    apply list_elem_of_lookup_2, list_elem_of_filter in Hf' as [Hf' _]. by destruct Hf'.
  - exists e. rewrite filter_key_out by done. done.
Qed.

(** ** The refinement of a map *)

Inductive env_op :=
| OSet (name value : list Z) (rewrite : bool)
| OUnset (name : option (list Z))
| OGet (name : list Z)
| OStreq (name : list Z) (s : option (list Z))
| OReset.

Inductive env_result := RInt (r : Z) | RString (s : option (list Z)) | RBool (b : bool) | RVoid.

Definition env_do (o : env_op) (e : env_reent) : outcome (env_result * env_reent) :=
  match o with
  | OSet name value rewrite => let* r := env_set e name value rewrite in Done (RInt r.1, r.2)
  | OUnset name => let* r := env_unset e name in Done (RInt r.1, r.2)
  | OGet name => Done (RString (env_get e name), e)
  | OStreq name s => Done (RBool (env_streq e name s), e)
  | OReset => let* e := env_reset e in Done (RVoid, e)
  end.

Fixpoint env_dos (os : list env_op) (e : env_reent) : outcome (list env_result * env_reent) :=
  match os with
  | [] => Done ([], e)
  | o :: os => let* r := env_do o e in let* s := env_dos os r.2 in Done (r.1 :: s.1, s.2)
  end.

(** The same calls on a map. *)
Definition map_do (o : env_op) (m : gmap (list Z) (list Z)) : env_result * gmap (list Z) (list Z) :=
  match o with
  | OSet name value rewrite =>
      if decide (EQ ∈ name) then (RInt (-1), m)
      else (RInt 0, match m !! name with Some _ => if rewrite then <[name := value]> m else m | None => <[name := value]> m end)
  | OUnset name =>
      match name with
      | Some ((_ :: _) as name) => if decide (EQ ∈ name) then (RInt (-1), m) else (RInt 0, delete name m)
      | _ => (RInt (-1), m)
      end
  | OGet name => (RString (m !! name), m)
  | OStreq name s => (RBool (match s with Some s => bool_decide (m !! name = Some s) | None => false end), m)
  | OReset => (RVoid, ∅)
  end.

Fixpoint map_dos (os : list env_op) (m : gmap (list Z) (list Z)) : list env_result * gmap (list Z) (list Z) :=
  match os with
  | [] => ([], m)
  | o :: os => let r := map_do o m in let s := map_dos os r.2 in (r.1 :: s.1, s.2)
  end.

Definition kvmap (kv : list (list Z * list Z)) : gmap (list Z) (list Z) := list_to_map kv.

Lemma kvmap_insert kv i k v w : NoDup (keys kv) -> kv !! i = Some (k, w) -> kvmap (<[i := (k, v)]> kv) = <[k := v]> (kvmap kv).
Proof.
  unfold kvmap. revert i. induction kv as [|[k' w'] kv IH]; intros i Hd Hi; [done|]. rewrite fmap_cons in Hd.
  apply NoDup_cons in Hd as [Hk Hd]. destruct i as [|i]; simpl in Hi |- *.
  - injection Hi as -> ->. by rewrite insert_insert_eq.
  - rewrite IH by done. apply insert_insert_ne. intros ->. destruct Hk. apply list_elem_of_fmap. exists (k, w).
    split; [done|]. by apply list_elem_of_lookup_2 in Hi.
Qed.

Lemma kvmap_filter kv name : kvmap (filter (fun x => x.1 <> name) kv) = delete name (kvmap kv).
Proof.
  unfold kvmap. induction kv as [|[k v] kv IH]; [symmetry; apply delete_empty|]. destruct (decide (k = name)) as [->|Hk].
  - rewrite filter_cons_False by (intros H; by apply H). simpl. by rewrite delete_insert_eq, IH.
  - rewrite filter_cons_True by done. simpl. by rewrite delete_insert_ne, IH.
Qed.

Lemma kvmap_find kv name : NoDup (keys kv) ->
  match list_find (fun x => x.1 = name) kv with
  | Some (i, x) => kv !! i = Some x /\ x.1 = name /\ kvmap kv !! name = Some x.2
  | None => name ∉ keys kv /\ kvmap kv !! name = None
  end.
Proof.
  intros Hd. destruct (list_find _ kv) as [[i [k v]]|] eqn:E.
  - apply list_find_Some in E as (E1 & E2 & _). simpl in E2. subst. split; [done|]. split; [done|].
    apply elem_of_list_to_map; [done|]. by apply list_elem_of_lookup_2 in E1.
  - apply list_find_None in E. rewrite Forall_forall in E.
    assert (name ∉ keys kv) as Hn by (intros ([k v] & -> & Hx)%list_elem_of_fmap; by apply (E _ Hx)).
    split; [done|]. by apply not_elem_of_list_to_map_1.
Qed.

Lemma env_get_rep e kv name : env_rep e kv -> len name < 2 ^ 31 -> env_get e name = kvmap kv !! name.
Proof.
  intros Hr Hl. pose proof Hr as [_ Hk Hd _ _ _ _]. unfold env_get, _env_get.
  destruct (decide (EQ ∈ name)) as [Hn|Hn].
  - unfold env_find. rewrite has_eq_spec, bool_decide_eq_true_2 by done. symmetry.
    destruct (environ e); simpl; apply not_elem_of_list_to_map_1; intros Hx; rewrite Forall_forall in Hk; by apply (Hk _ Hx).
  - pose proof (env_find_rep e kv name Hr Hl Hn) as Hf. destruct (env_find e name) as [[i v]|]; simpl; symmetry.
    + apply elem_of_list_to_map; [done|]. by apply list_elem_of_lookup_2 in Hf.
    + by apply not_elem_of_list_to_map_1.
Qed.

(** A call whose strings have sizes that an [int] can hold. *)
Definition op_small (o : env_op) : Prop :=
  match o with
  | OSet name value _ => small (name, value)
  | OUnset (Some name) | OGet name | OStreq name _ => len name < 2 ^ 31
  | OUnset None | OReset => True
  end.

Lemma env_do_rep o e kv : env_rep e kv -> op_small o -> len kv + 3 < 2 ^ 31 ->
  exists e' kv', env_do o e = Done ((map_do o (kvmap kv)).1, e') /\ env_rep e' kv' /\ kvmap kv' = (map_do o (kvmap kv)).2 /\ len kv' <= len kv + 1.
Proof.
  intros Hr Ho Hroom. pose proof Hr as [He Hk Hd Hs Hc Hh Hm]. destruct o as [name value rewrite|name|name|name s|]; simpl.
  - unfold env_set. destruct (decide (EQ ∈ name)) as [Hn|Hn].
    + unfold _env_set. rewrite has_eq_spec, bool_decide_eq_true_2 by done. simpl. exists e, kv. split_and!; try done. lia.
    + destruct (env_set_rep e kv name value rewrite Hr Hn Ho Hroom) as (e' & -> & Hr'). simpl.
      pose proof (kvmap_find kv name Hd) as Hf. destruct (list_find _ kv) as [[i [k v]]|].
      * destruct Hf as (Hi & Hkn & ->). simpl in Hkn. subst k. exists e'. destruct rewrite; [|exists kv; split_and!; try done; lia].
        eexists. split; [done|]. split; [done|]. simpl. split; [by apply (kvmap_insert _ _ _ _ v)|]. unfold len. rewrite length_insert. lia.
      * destruct Hf as (Hi & ->). exists e'. eexists. split; [done|]. split; [done|]. split; [by apply list_to_map_snoc|].
        rewrite len_app. change (len [(name, value)]) with 1. lia.
  - destruct name as [[|c name]|]; simpl; [exists e, kv; split_and!; try done; lia| |exists e, kv; split_and!; try done; lia].
    set (nm := c :: name) in *. rewrite has_eq_spec. destruct (decide (EQ ∈ nm)) as [Hn|Hn].
    + rewrite bool_decide_eq_true_2 by done. simpl. exists e, kv. split_and!; try done. lia.
    + rewrite bool_decide_eq_false_2, He by done. destruct (unset_loop_rep (length (ent <$> kv)) e kv nm Hr Ho Hn) as (e' & -> & Hr');
        [by rewrite length_fmap|]. simpl. exists e'. eexists. split; [done|]. split; [done|]. split; [apply kvmap_filter|].
      pose proof (len_filter_le (fun x => x.1 <> nm) kv). lia.
  - rewrite (env_get_rep e kv) by done. exists e, kv. split_and!; try done. lia.
  - unfold env_streq. rewrite (env_get_rep e kv) by done. exists e, kv. split; [|split_and!; try done; lia].
    destruct (kvmap kv !! name) as [v|]; destruct s as [s|]; try done.
    rewrite (bool_decide_ext (v = s) (Some v = Some s)) by (split; congruence). done.
  - unfold env_reset, _env_free. rewrite He. pose proof (len_nonneg kv). destruct (alloced e) eqn:Ea; [rewrite Hh by done|]; simpl;
      (eexists; exists []; split; [reflexivity|]; split; [|split; [done|change (len []) with 0; lia]]; by split; [|constructor|constructor|constructor| | |]).
Qed.

(** C10: as long as there is memory, and with fewer than 2^31 calls whose
    strings have less than 2^31 bytes (a variable with its equal sign and
    terminator), so that the lengths and counts fit in an [int], the
    environment is a map: any sequence
    of [env_set], [env_unset], [env_get], [env_streq] and [env_reset] from the
    empty environment gives the results that a finite map gives, whether a
    value is written over the old one or into a new string, and whether the
    array is the static one or allocated. Names with an equal sign are
    refused, an existing variable is kept unless it is to be rewritten, and no
    call is undefined. *)
Theorem env_refines_map os :
  Forall op_small os -> len os + 3 < 2 ^ 31 ->
  exists e, env_dos os (env_define []) = Done ((map_dos os ∅).1, e)
    /\ forall name, len name < 2 ^ 31 -> env_get e name = (map_dos os ∅).2 !! name.
Proof.
  enough (forall os e kv, env_rep e kv -> Forall op_small os -> len kv + len os + 3 < 2 ^ 31 ->
    exists e' kv', env_dos os e = Done ((map_dos os (kvmap kv)).1, e')
    /\ env_rep e' kv' /\ kvmap kv' = (map_dos os (kvmap kv)).2) as H.
  { intros Ho Hn. destruct (H os (env_define []) []) as (e & kv & H1 & H2 & H3); [by split; [|constructor|constructor|constructor| | |]|done|done|].
    exists e. split; [done|]. intros name Hl. rewrite (env_get_rep e kv) by done. by rewrite H3. }
  clear os. induction os as [|o os IH]; intros e kv Hr Ho Hn; [by exists e, kv|]. simpl.
  apply Forall_cons in Ho as [Ho1 Ho]. rewrite len_cons in Hn. pose proof (len_nonneg os).
  destruct (env_do_rep o e kv Hr Ho1 ltac:(lia)) as (e1 & kv1 & -> & Hr1 & E1 & Hl1). simpl. rewrite <- E1.
  destruct (IH e1 kv1 Hr1 Ho ltac:(lia)) as (e2 & kv2 & -> & Hr2 & E2). simpl. by exists e2, kv2.
Qed.

(** A set, a longer and a shorter value, and a removal. *)
Definition ops_example : list env_op :=
  [OSet [97] [49] false; OSet [97] [50; 51] true; OSet [97] [52] true; OStreq [97] (Some [52]); OSet [61] [49] true; OUnset (Some [97]); OGet [97]].

Lemma env_refines_map_witness :
  exists e, env_dos ops_example (env_define []) = Done ((map_dos ops_example ∅).1, e)
    /\ forall name, len name < 2 ^ 31 -> env_get e name = (map_dos ops_example ∅).2 !! name.
Proof. refine (env_refines_map ops_example _ _); [repeat constructor|reflexivity]. Defined.

(** ** The image in RAM *)

Definition plain (s : list Z) : Prop := Forall (fun c => 0 < c < 256 /\ c <> NL) s.

(** A variable that fits in a line: no newline, a name of at most 64 bytes,
    and a line shorter than the buffers of 1024 bytes. *)
Record storable (kv : list Z * list Z) : Prop := {
  st_name : plain kv.1;
  st_value : plain kv.2;
  st_eq : EQ ∉ kv.1;
  st_key : len kv.1 <= MAX_KEY_SIZE;
  st_len : len (ent kv) + 1 < ENV_MAX;
}.

Definition line (kv : list Z * list Z) : list Z := ent kv ++ [NL].
Definition text (kv : list (list Z * list Z)) : list Z := concat (line <$> kv).

Lemma len_line kv : len (line kv) = len kv.1 + len kv.2 + 2.
Proof. unfold line, ent. rewrite !len_app, !len_cons, len_nil. lia. Qed.

Lemma len_ent kv : len (ent kv) = len kv.1 + len kv.2 + 1.
Proof. unfold ent. rewrite !len_app, !len_cons. lia. Qed.

(** Appending to what is already in the front of a buffer. *)
Lemma write_append (l k x : list Z) :
  len k + len x <= len l -> mem_write (splice l 0 k) (len k) x = Done (splice l 0 (k ++ x)).
Proof.
  intros H. pose proof (len_nonneg k). pose proof (len_nonneg x).
  rewrite mem_write_ok; [|lia|rewrite len_splice; lia].
  pose proof (splice_app l 0 k x) as E. rewrite Z.add_0_l in E. by rewrite E by lia.
Qed.

Lemma flush_loop_ram kv b k maxlen :
  Forall storable kv -> len b = maxlen -> maxlen < 2 ^ 64 -> len k + len (text kv) < maxlen ->
  flush_loop env_ram_write (ent <$> kv) (mk_ram (splice b 0 k) (len k) maxlen (len k)) 0
  = Done (0, mk_ram (splice b 0 (k ++ text kv)) (len (k ++ text kv)) maxlen (len (k ++ text kv))).
Proof.
  intros Hs Hb Hm. revert k. induction Hs as [|x kv Hx _ IH]; intros k Hl.
  - simpl. unfold text. simpl. by rewrite app_nil_r.
  - change (text (x :: kv)) with (line x ++ text kv) in *. rewrite len_app in Hl.
    pose proof (len_nonneg (text kv)). pose proof (len_nonneg k). pose proof (len_nonneg (line x)).
    rewrite fmap_cons. cbn [flush_loop].
    assert (has_eq (ent x) = true) as -> by (rewrite has_eq_spec; apply bool_decide_eq_true_2; unfold ent; set_solver).
    destruct Hx as [_ _ _ _ Hlen]. cbn [negb]. rewrite (proj2 (Z.leb_le _ _)) by lia.
    unfold env_ram_write. cbn [rm_maxlen rm_offset rm_buffer rm_total].
    change (ent x ++ [NL]) with (line x). pose proof (len_line x). pose proof (len_ent x).
    pose proof (len_nonneg x.1). pose proof (len_nonneg x.2).
    rewrite (wrap_small 64) by (split; lia). rewrite (proj2 (Z.eqb_neq _ _)) by lia.
    rewrite Z.gtb_ltb, (proj2 (Z.ltb_lt (len (line x)) _)) by lia.
    rewrite take_ge by (unfold len; lia). rewrite write_append by lia. cbn [obind fst snd].
    change (0 <? 0) with false. cbn iota. rewrite <- len_app, IH by (rewrite len_app; lia). by rewrite <- app_assoc.
Qed.

Lemma strchr_skip s c t :
  Forall (fun x => x <> c /\ x <> 0) s -> CString.strchr (s ++ c :: t) c = Done (Some (len s)).
Proof.
  induction s as [|x s IH]; intros Hs.
  - simpl. by rewrite Z.eqb_refl.
  - apply Forall_cons in Hs as [[H1 H2] Hs]. simpl. rewrite (proj2 (Z.eqb_neq _ _) H1), (proj2 (Z.eqb_neq _ _) H2).
    rewrite IH by done. simpl. by rewrite len_cons.
Qed.

Lemma plain_not s c : plain s -> c = 0 \/ c = NL -> Forall (fun x => x <> c /\ x <> 0) s.
Proof. intros Hs Hc. eapply Forall_impl; [exact Hs|]. intros x [? ?]. split; [destruct Hc; lia|lia]. Qed.

Lemma plain_eq s : plain s -> EQ ∉ s -> Forall (fun x => x <> EQ /\ x <> 0) s.
Proof.
  intros Hs Hn. apply Forall_forall. intros x Hx. split; [by intros ->|]. unfold plain in Hs. rewrite Forall_forall in Hs.
  destruct (Hs x Hx). lia.
Qed.

Lemma plain_c_str s t : plain s -> CString.c_str (s ++ 0 :: t) = Done s.
Proof. intros Hs. apply CString.c_str_app. eapply Forall_impl; [exact Hs|]. intros x [? ?]. lia. Qed.

(** The reader finds the next line. *)
Lemma readline_ok done x rest maxlen scratch total :
  storable x -> len scratch = ENV_MAX -> len (done ++ line x) < maxlen ->
  env_ram_readline (mk_ram (done ++ line x ++ rest) (len done) maxlen total) scratch (ENV_MAX - 1)
  = Done (len (line x), line x ++ drop (length (line x)) scratch, mk_ram (done ++ line x ++ rest) (len (done ++ line x)) maxlen total).
Proof.
  intros Hx Hs Hl. destruct Hx as [H1 H2 H3 H4 H5]. pose proof (len_line x) as Hn. pose proof (len_ent x) as He.
  rewrite len_app in Hl. pose proof (len_nonneg x.1). pose proof (len_nonneg x.2). pose proof (len_nonneg done). unfold ENV_MAX in *.
  unfold env_ram_readline. cbn [rm_offset rm_maxlen rm_buffer rm_total].
  rewrite Z.geb_leb, (proj2 (Z.leb_gt _ _)) by lia.
  assert (drop (Z.to_nat (len done)) (done ++ line x ++ rest) = line x ++ rest) as ->.
  { unfold len. rewrite Nat2Z.id. apply drop_app_length. }
  assert (line x ++ rest = x.1 ++ EQ :: x.2 ++ NL :: rest) as El by (unfold line, ent; rewrite <- !app_assoc; done).
  rewrite El, strchr_skip by (by apply plain_eq). cbn [obind]. rewrite Z.gtb_ltb, (proj2 (Z.ltb_ge _ _)) by lia.
  assert (drop (Z.to_nat (len x.1)) (x.1 ++ EQ :: x.2 ++ NL :: rest) = EQ :: x.2 ++ NL :: rest) as ->.
  { unfold len. rewrite Nat2Z.id. apply drop_app_length. }
  change (EQ :: x.2 ++ NL :: rest) with ((EQ :: x.2) ++ NL :: rest).
  rewrite strchr_skip by (constructor; [done|by apply plain_not; [|right]]). cbn [obind].
  rewrite len_cons. replace (len x.1 + (len x.2 + 1) + 1) with (len (line x)) by lia.
  unfold ENV_MAX. rewrite !(proj2 (Z.ltb_lt _ _)) by lia. cbn [andb].
  change ((EQ :: x.2) ++ NL :: rest) with (EQ :: x.2 ++ NL :: rest). rewrite <- El.
  rewrite mem_read_ok; [|lia|apply len_nonneg|rewrite len_app; pose proof (len_nonneg rest); lia]. cbn [obind].
  assert (slice (line x ++ rest) 0 (len (line x)) = line x) as ->.
  { unfold slice, len. rewrite Nat2Z.id. simpl. apply take_app_length. }
  rewrite mem_write_ok by lia. cbn [obind]. rewrite CString.splice_front by lia. by rewrite len_app.
Qed.

(** A turn of the loading loop stores the variable of the next line. *)
Lemma load_line fuel e kv done x rest maxlen total scratch err :
  env_rep e kv -> len kv + 3 < 2 ^ 31 -> x.1 ∉ keys kv -> storable x -> len scratch = ENV_MAX -> len (done ++ line x) < maxlen ->
  exists e' scratch', env_rep e' (kv ++ [x]) /\ len scratch' = ENV_MAX /\
    load_loop env_ram_readline (S fuel) e (mk_ram (done ++ line x ++ rest) (len done) maxlen total) scratch err
    = load_loop env_ram_readline fuel e' (mk_ram (done ++ line x ++ rest) (len (done ++ line x)) maxlen total) scratch' (Some 0).
Proof.
  intros Hr Hroom Hk Hx Hs Hl. cbn [load_loop]. rewrite readline_ok by done. cbn [obind].
  pose proof (len_line x) as Hn. pose proof (len_ent x) as He. pose proof (len_nonneg x.1). pose proof (len_nonneg x.2).
  destruct Hx as [H1 H2 H3 H4 H5]. rewrite Z.gtb_ltb, (proj2 (Z.ltb_lt _ _)) by lia. cbn [negb].
  destruct (drop (length (line x)) scratch) as [|z tl] eqn:Ed.
  { apply (f_equal length) in Ed. rewrite length_drop in Ed. unfold len, ENV_MAX in *. simpl in Ed. lia. }
  assert (len scratch = len (line x) + 1 + len tl) as Hsl.
  { apply (f_equal length) in Ed. rewrite length_drop in Ed. unfold len, ENV_MAX in *. simpl in Ed. lia. }
  rewrite CString.write_mid. cbn [obind].
  assert (line x ++ 0 :: tl = x.1 ++ EQ :: x.2 ++ NL :: 0 :: tl) as -> by (unfold line, ent; rewrite <- !app_assoc; done).
  rewrite strchr_skip by (by apply plain_eq). cbn [obind]. rewrite CString.write_mid. cbn [obind].
  replace (len (line x) - 1) with (len (x.1 ++ 0 :: x.2)) by (rewrite len_app, len_cons; lia).
  replace (x.1 ++ 0 :: x.2 ++ NL :: 0 :: tl) with ((x.1 ++ 0 :: x.2) ++ NL :: 0 :: tl) by (by rewrite <- app_assoc).
  rewrite CString.read_mid. cbn [obind]. rewrite bool_decide_eq_true_2 by done. rewrite CString.write_mid. cbn [obind].
  rewrite <- app_assoc. cbn [app]. rewrite plain_c_str by done. cbn [obind].
  assert (drop (Z.to_nat (len x.1 + 1)) (x.1 ++ 0 :: x.2 ++ 0 :: 0 :: tl) = x.2 ++ 0 :: 0 :: tl) as ->.
  { unfold len. replace (Z.to_nat (Z.of_nat (length x.1) + 1)) with (S (length x.1)) by lia.
    rewrite drop_app_ge by lia. by replace (S (length x.1) - length x.1)%nat with 1%nat by lia. }
  rewrite plain_c_str by done. cbn [obind].
  destruct (env_set_rep e kv x.1 x.2 false Hr H3 ltac:(unfold small, ENV_MAX in *; cbn [fst snd]; lia) Hroom) as (e' & -> & Hr'). cbn [obind fst snd]. change (negb (0 =? 0)) with false. cbn iota.
  exists e', (x.1 ++ 0 :: x.2 ++ 0 :: 0 :: tl). split; [|split; [|done]].
  - pose proof (kvmap_find kv x.1 (rep_nodup _ _ Hr)) as Hf. destruct (list_find _ kv) as [[i y]|]; [|by destruct x].
    destruct Hf as (Hi & Hy & _). destruct Hk. apply list_elem_of_fmap. exists y. split; [done|]. by apply list_elem_of_lookup_2 in Hi.
  - rewrite <- Hs, Hsl, Hn. rewrite len_app, len_cons, len_app, !len_cons. lia.
Qed.

Lemma load_lines kv2 kv1 fuel e done tl maxlen total scratch err :
  env_rep e kv1 -> len (kv1 ++ kv2) + 2 < 2 ^ 31 -> NoDup (keys (kv1 ++ kv2)) -> Forall storable kv2 -> len scratch = ENV_MAX ->
  len (done ++ text kv2) < maxlen -> (length kv2 < fuel)%nat ->
  exists e' ctx, load_loop env_ram_readline fuel e (mk_ram (done ++ text kv2 ++ 0 :: tl) (len done) maxlen total) scratch err
      = Done (match kv2 with [] => err | _ => Some 0 end, e', ctx)
    /\ env_rep e' (kv1 ++ kv2).
Proof.
  revert kv1 fuel e done scratch err. induction kv2 as [|x kv2 IH]; intros kv1 fuel e done scratch err Hr Hn Hd Hst Hs Hl Hf.
  - destruct fuel as [|fuel]; [lia|]. cbn [load_loop]. unfold env_ram_readline. cbn [rm_offset rm_maxlen rm_buffer rm_total].
    unfold text in *. simpl in Hl |- *. rewrite app_nil_r in *. rewrite Z.geb_leb, (proj2 (Z.leb_gt _ _)) by lia.
    assert (drop (Z.to_nat (len done)) (done ++ 0 :: tl) = 0 :: tl) as -> by (unfold len; rewrite Nat2Z.id; apply drop_app_length).
    simpl. eauto.
  - apply Forall_cons in Hst as [Hx Hst]. change (text (x :: kv2)) with (line x ++ text kv2) in *.
    destruct fuel as [|fuel]; [lia|]. rewrite fmap_app, fmap_cons in Hd.
    pose proof (len_nonneg (text kv2)).
    destruct (load_line fuel e kv1 done x (text kv2 ++ 0 :: tl) maxlen total scratch err) as (e1 & s1 & Hr1 & Hs1 & E); try done.
    { rewrite len_app, len_cons in Hn. pose proof (len_nonneg kv2). lia. }
    { apply NoDup_app in Hd as (_ & Hd & _). intros Hk. apply (Hd _ Hk). constructor. }
    { rewrite !len_app in *. lia. }
    rewrite <- app_assoc, E.
    destruct (IH (kv1 ++ [x]) fuel e1 (done ++ line x) s1 (Some 0)) as (e2 & ctx & E2 & Hr2); try done.
    { by rewrite <- app_assoc. }
    { rewrite <- app_assoc, fmap_app. done. }
    { by rewrite <- app_assoc. }
    { simpl in Hf. lia. }
    exists e2, ctx. rewrite <- app_assoc in E2, Hr2. rewrite E2. split; [|done]. by destruct kv2.
Qed.

(** C11: what [env_flush_ram] writes, [env_load_ram] reads back: the same
    variables in the same order, when every variable fits in a line, the text
    is shorter than the area, and the byte behind the text is 0. The flush
    answers the length of the text as an [int]. *)
Theorem env_ram_roundtrip e kv b scratch :
  env_rep e kv -> kv <> [] -> Forall storable kv ->
  len b < 2 ^ 64 -> len (text kv) < len b -> b !! length (text kv) = Some 0 -> len scratch = ENV_MAX ->
  exists b' e2,
    env_flush_ram e (Some b) (len b) = Done (s32 (len (text kv)), e, Some b')
    /\ env_load_ram (env_define []) (Some b') (len b) scratch = Done (Some 0, e2)
    /\ environ e2 = environ e
    /\ forall name, env_get e2 name = env_get e name.
Proof.
  intros Hr Hne Hst Hb Hl Hz Hs. pose proof Hr as [He Hk Hd _ Hc Hh Hm]. pose proof (len_nonneg (text kv)).
  exists (text kv ++ drop (length (text kv)) b).
  assert (env_flush_ram e (Some b) (len b) = Done (s32 (len (text kv)), e, Some (text kv ++ drop (length (text kv)) b))) as Hflush.
  { unfold env_flush_ram, _env_flush, env_alloc. rewrite (proj2 (Z.eqb_neq _ _)), Hm, He by lia. cbn [negb obind].
    pose proof (flush_loop_ram kv b [] (len b) Hst eq_refl Hb) as Hf. change (splice b 0 []) with b in Hf.
    change (len (@nil Z)) with 0 in Hf. rewrite Hf by lia. cbn [obind fst snd rm_total rm_buffer]. cbn [app].
    by rewrite CString.splice_front by lia. }
  destruct (drop (length (text kv)) b) as [|z tl] eqn:Ed.
  { apply (f_equal length) in Ed. rewrite length_drop in Ed. unfold len in Hl. simpl in Ed. lia. }
  assert (z = 0) as ->.
  { assert (drop (length (text kv)) b !! 0%nat = Some z) as Hd0 by (by rewrite Ed). rewrite lookup_drop, Nat.add_0_r in Hd0. congruence. }
  assert (env_rep (env_define []) []) as H0 by (by split; [|constructor|constructor|constructor| | |]).
  destruct (load_lines kv [] (S (Z.to_nat (len b))) (env_define []) [] tl (len b) 0 scratch None H0) as (e2 & ctx & E & Hr2); try done.
  { assert (length kv <= length (text kv))%nat; [|unfold len in *; lia]. clear.
    induction kv as [|x kv IH]; [done|]. change (text (x :: kv)) with (line x ++ text kv). rewrite length_app. unfold line.
    rewrite length_app. simpl. lia. }
  exists e2. split; [done|]. split.
  - unfold env_load_ram, _env_load. rewrite (proj2 (Z.eqb_neq _ _)) by lia. change (env_alloc (env_define [])) with (true, env_define []).
    cbn [negb]. change (len (@nil Z)) with 0 in E. cbn [app] in E. rewrite E. cbn [obind fst]. by destruct kv.
  - assert (environ e2 = environ e) as Ee by (by rewrite (rep_env _ _ Hr2)). split; [done|]. intros name.
    unfold env_get, _env_get, env_find. by rewrite Ee.
Qed.

(** ["os=posix"] and ["ip="] *)
Definition kv_example : list (list Z * list Z) := [([111; 115], [112; 111; 115; 105; 120]); ([105; 112], [])].
Definition env_example : env_reent := mk_env (Some (ent <$> kv_example)) true true [] 2.

Lemma env_ram_roundtrip_witness :
  exists b' e2,
    env_flush_ram env_example (Some (repeat 0 32)) 32 = Done (13, env_example, Some b')
    /\ env_load_ram (env_define []) (Some b') 32 (repeat 7 1024) = Done (Some 0, e2)
    /\ environ e2 = environ env_example
    /\ forall name, env_get e2 name = env_get env_example name.
Proof.
  refine (env_ram_roundtrip env_example kv_example (repeat 0 32) (repeat 7 1024) _ _ _ _ _ _ _).
  - split; [reflexivity| | |by repeat constructor|reflexivity|reflexivity|reflexivity]; apply (bool_decide_unpack _); vm_compute; exact I.
  - discriminate.
  - repeat constructor; simpl; try lia; apply (bool_decide_unpack _); vm_compute; exact I.
  - reflexivity.
  - reflexivity.
  - reflexivity.
  - reflexivity.
Defined.

(** An integer that [env_setint] stores is read back by [env_getl], and by
    [env_getul] modulo 2^64, for every [int] but the least one; the array of 16
    bytes is large enough. *)
Lemma env_setint_roundtrip e kv key v number :
  env_rep e kv -> len kv + 3 < 2 ^ 31 -> EQ ∉ key -> len key + 32 < 2 ^ 31 -> - 2 ^ 31 < v < 2 ^ 31 -> len number = 16 ->
  exists e' kv', env_setint e key v number = Done (0, e') /\ env_rep e' kv'
    /\ env_getl e' key = v /\ env_getul e' key = u64 v.
Proof.
  intros Hr Hroom Hk Hkl Hv Hn. destruct (CString.itoa_read_back v number 16 7) as (s & E1 & Hsl & E2 & E3 & E4); [lia|done|simpl; lia|simpl; lia|].
  unfold env_setint. rewrite E1. cbn [obind]. rewrite E2. cbn [obind]. unfold env_set.
  destruct (env_set_rep e kv key s true Hr Hk) as (e' & E & Hr'); [unfold small; cbn [fst snd]; lia|done|]. rewrite E.
  exists e'. eexists. split; [done|]. split; [done|]. unfold env_getl, env_getul. rewrite !(env_get_rep _ _ _ Hr') by lia.
  assert (kvmap (match list_find (fun x => x.1 = key) kv with
                 | Some (i, _) => <[i := (key, s)]> kv
                 | None => kv ++ [(key, s)] end) !! key = Some s) as ->; [|done].
  pose proof (kvmap_find kv key (rep_nodup _ _ Hr)) as Hf. destruct (list_find _ kv) as [[i [k w]]|].
  - destruct Hf as (Hi & Hkk & _). simpl in Hkk. subst k.
    rewrite (kvmap_insert _ _ _ _ w (rep_nodup _ _ Hr) Hi). apply lookup_insert_eq.
  - destruct Hf as [Hi _]. unfold kvmap. rewrite list_to_map_snoc by done. apply lookup_insert_eq.
Qed.

(** ** When there is no memory, and other limits *)

Definition A : list Z := [97].
Definition B : list Z := [98].
Definition env_ab (m : list bool) : env_reent := mk_env (Some [A ++ [61; 49]; B ++ [61; 50]]) true true m 2.

(** What the code does at its limits. A longer value for which there is
    no memory removes the variable and every variable behind it, although
    [env_set] reports an error; after a failed first allocation the next
    [env_set] passes the static array to [realloc]; a failed [realloc] loses
    all variables and makes the next [env_set] use a null pointer; a longer
    value leaks the old one; loading from an area without a line returns a
    value that was never assigned; a variable of 1024 bytes overflows the
    buffer of [_env_flush]; and a flush that is shorter than the one before
    leaves old lines behind, which the next load brings back. *)
Theorem env_limits :
  (exists e, env_set (env_ab [false]) A [49; 49] true = Done (-1, e) /\ env_get e A = None /\ env_get e B = None
     /\ env_get (env_ab [false]) B = Some [50])
  /\ (exists e, env_set (env_define [false]) A [49] true = Done (-1, e) /\ env_set e A [49] true = Undef)
  /\ (exists e, env_set (env_ab [false]) [99] [51] true = Done (-1, e) /\ env_get e A = None /\ env_set e A [49] true = Undef)
  /\ (exists e e', env_set (env_ab []) A [49; 49] true = Done (0, e) /\ env_reset e = Done e' /\ blocks e' = 1)
  /\ env_load_ram (env_define []) (Some (repeat 0 512)) 512 (repeat 7 1024) = Done (None, env_define [])
  /\ (exists e, env_set (env_define []) A (repeat 120 1022) true = Done (0, e) /\ env_flush_ram e (Some (repeat 0 2048)) 2048 = Undef)
  /\ (exists n b n' e e' e'' b', env_flush_ram (env_ab []) (Some (repeat 0 512)) 512 = Done (n, e, Some b)
        /\ env_unset (env_ab []) (Some B) = Done (0, e')
        /\ env_flush_ram e' (Some b) 512 = Done (n', e', Some b')
        /\ env_get e' B = None
        /\ env_load_ram (env_define []) (Some b') 512 (repeat 7 1024) = Done (Some 0, e'')
        /\ env_get e'' B = Some [50]).
Proof.
  split; [eexists; split; [vm_compute; reflexivity|repeat split]|].
  split; [eexists; split; [vm_compute; reflexivity|repeat split]|].
  split; [eexists; split; [vm_compute; reflexivity|repeat split]|].
  split; [do 2 eexists; split; [vm_compute; reflexivity|]; split; vm_compute; reflexivity|].
  split; [vm_compute; reflexivity|]. split; [eexists; split; [vm_compute; reflexivity|]; vm_compute; reflexivity|].
  do 7 eexists. repeat (split; [vm_compute; reflexivity|]). vm_compute. reflexivity.
Qed.
End Env.
