(* ===== verification/DList.v ===== *)
(** * container/list.h : doubly linked lists

    The pointer operations the program's lists are made of, as programs of
    single loads and stores, so that they can be run alone or interleaved.
    Run alone on well-formed circular lists they are the operations on
    sequences that the models of the other files use; RunQueue runs two of
    them interleaved. *)
From Stdlib Require Import ZArith Lia Bool.
From stdpp Require Import base list numbers gmap.
From S2P Require Import Prelude.

Module DList.

(** ** Memory

    The [next] and [prev] fields of the [struct list_head] at each address. *)
Record heap := mk_heap { h_next : gmap Z Z; h_prev : gmap Z Z }.

Definition store_next (p v : Z) (h : heap) : heap := mk_heap (<[p := v]> (h_next h)) (h_prev h).
Definition store_prev (p v : Z) (h : heap) : heap := mk_heap (h_next h) (<[p := v]> (h_prev h)).

(** Programs of loads and stores. *)
Inductive prog :=
| Stop
| LoadNext (p : Z) (k : Z -> prog)
| LoadPrev (p : Z) (k : Z -> prog)
| StoreNext (p v : Z) (k : prog)
| StorePrev (p v : Z) (k : prog).

(** One access; [None] when the pointer is not that of a list node. *)
Definition pstep (c : prog) (h : heap) : option (prog * heap) :=
  match c with
  | Stop => Some (Stop, h)
  | LoadNext p k => v ← h_next h !! p; Some (k v, h)
  | LoadPrev p k => v ← h_prev h !! p; Some (k v, h)
  | StoreNext p v k => _ ← h_next h !! p; Some (k, store_next p v h)
  | StorePrev p v k => _ ← h_prev h !! p; Some (k, store_prev p v h)
  end.

Fixpoint psteps (n : nat) (c : prog) (h : heap) : option (prog * heap) :=
  match n with
  | O => Some (c, h)
  | S n => r ← pstep c h; psteps n r.1 r.2
  end.

(** Two programs on one memory; the schedule says whose access is next. *)
Fixpoint interleave (sched : list bool) (c d : prog) (h : heap) : option (prog * prog * heap) :=
  match sched with
  | [] => Some (c, d, h)
  | true :: sched => r ← pstep c h; interleave sched r.1 d r.2
  | false :: sched => r ← pstep d h; interleave sched c r.1 r.2
  end.

Definition LIST_POISON1 : Z := 0.
Definition LIST_POISON2 : Z := 0.

Definition INIT_LIST_HEAD (l : Z) (k : prog) : prog := StoreNext l l (StorePrev l l k).

Definition __list_add (newn prev next : Z) (k : prog) : prog :=
  StorePrev next newn (StoreNext newn next (StorePrev newn prev (StoreNext prev newn k))).
Definition list_add (newn head : Z) : prog := LoadNext head (fun n => __list_add newn head n Stop).
Definition list_add_tail (newn head : Z) : prog := LoadPrev head (fun p => __list_add newn p head Stop).

Definition __list_del (prev next : Z) (k : prog) : prog := StorePrev next prev (StoreNext prev next k).
Definition __list_del_entry (entry : Z) (k : prog) : prog :=
  LoadPrev entry (fun p => LoadNext entry (fun n => __list_del p n k)).
Definition list_del (entry : Z) : prog :=
  __list_del_entry entry (StoreNext entry LIST_POISON1 (StorePrev entry LIST_POISON2 Stop)).

Definition list_empty (head : Z) (h : heap) : option bool := n ← h_next h !! head; Some (n =? head).

Definition __list_splice (l prev next : Z) (k : prog) : prog :=
  LoadNext l (fun first => LoadPrev l (fun last =>
    StorePrev first prev (StoreNext prev first (StoreNext last next (StorePrev next last k))))).
Definition list_splice (l head : Z) : prog :=
  LoadNext l (fun n =>
    if n =? l then Stop else LoadNext head (fun hn => __list_splice l head hn Stop)).
Definition list_splice_tail (l head : Z) : prog :=
  LoadNext l (fun n =>
    if n =? l then Stop else LoadPrev head (fun p => __list_splice l p head Stop)).
Definition list_splice_init (l head : Z) : prog :=
  LoadNext l (fun n =>
    if n =? l then Stop
    else LoadNext head (fun hn => __list_splice l head hn (INIT_LIST_HEAD l Stop))).
Definition list_splice_tail_init (l head : Z) : prog :=
  LoadNext l (fun n =>
    if n =? l then Stop
    else LoadPrev head (fun p => __list_splice l p head (INIT_LIST_HEAD l Stop))).

Definition __list_replace (old newn : Z) (k : prog) : prog :=
  LoadNext old (fun n => StoreNext newn n (LoadNext newn (fun n => StorePrev n newn
    (LoadPrev old (fun p => StorePrev newn p (LoadPrev newn (fun p => StoreNext p newn k))))))).
Definition list_replace (old newn : Z) : prog := __list_replace old newn Stop.
Definition list_replace_init (old newn : Z) : prog :=
  __list_replace old newn (INIT_LIST_HEAD old Stop).

Definition list_del_init (entry : Z) : prog := __list_del_entry entry (INIT_LIST_HEAD entry Stop).
Definition list_move (l head : Z) : prog := __list_del_entry l (list_add l head).
Definition list_move_tail (l head : Z) : prog := __list_del_entry l (list_add_tail l head).
Definition list_rotate_left (head : Z) : prog :=
  LoadNext head (fun n =>
    if n =? head then Stop else LoadNext head (fun first => list_move_tail first head)).

Definition __list_cut_position (l head entry : Z) : prog :=
  LoadNext entry (fun new_first =>
    LoadNext head (fun n => StoreNext l n (LoadNext l (fun n => StorePrev n l
      (StorePrev l entry (StoreNext entry l (StoreNext head new_first (StorePrev new_first head Stop)))))))).

(** The code after the test for a list of one entry. *)
Definition list_cut_tail (l head entry : Z) : prog :=
  if entry =? head then INIT_LIST_HEAD l Stop else __list_cut_position l head entry.
(** [list_is_singular(head)], then the test of its entry, then [k]. *)
Definition list_cut_position (l head entry : Z) : prog :=
  LoadNext head (fun n =>
    if n =? head then Stop
    else LoadNext head (fun n => if n =? head then list_cut_tail l head entry
      else LoadNext head (fun n => LoadPrev head (fun p =>
        if n =? p
        then LoadNext head (fun n =>
          if negb (n =? entry) && negb (head =? entry) then Stop else list_cut_tail l head entry)
        else list_cut_tail l head entry)))).

Definition list_cut_before (l head entry : Z) : prog :=
  LoadNext head (fun n =>
    if n =? entry then INIT_LIST_HEAD l Stop
    else LoadNext head (fun n => StoreNext l n (LoadNext l (fun n => StorePrev n l
      (LoadPrev entry (fun p => StorePrev l p (LoadPrev l (fun p => StoreNext p l
        (StoreNext head entry (StorePrev entry head Stop)))))))))).

(** The questions, which store nothing. *)
Definition list_is_last (l head : Z) (h : heap) : option bool := n ← h_next h !! l; Some (n =? head).
Definition list_empty_careful (head : Z) (h : heap) : option bool :=
  next ← h_next h !! head;
  if (next =? head)%Z then p ← h_prev h !! head; Some (next =? p) else Some false.
Definition list_is_singular (head : Z) (h : heap) : option bool :=
  e ← list_empty head h;
  if (e : bool) then Some false else n ← h_next h !! head; p ← h_prev h !! head; Some (n =? p).

(** ** Well-formed lists *)

Definition link (h : heap) (a b : Z) : Prop := h_next h !! a = Some b /\ h_prev h !! b = Some a.

Fixpoint path (h : heap) (l : list Z) : Prop :=
  match l with
  | a :: (b :: _) as l => link h a b /\ path h l
  | _ => True
  end.

(** The circular list through the nodes [x :: l]. *)
Definition cyc (h : heap) (c : list Z) : Prop :=
  match c with [] => False | x :: _ => path h (c ++ [x]) end.

(** The list with head [x] and the elements [l]. *)
Definition dlist (h : heap) (x : Z) (l : list Z) : Prop := NoDup (x :: l) /\ cyc h (x :: l).

(** [e] is a node whose fields can be written. *)
Definition is_node (h : heap) (e : Z) : Prop := is_Some (h_next h !! e) /\ is_Some (h_prev h !! e).

(** The program ends, in memory with [Q]. *)
Definition runs (c : prog) (h : heap) (Q : heap -> Prop) : Prop :=
  exists n h', psteps n c h = Some (Stop, h') /\ Q h'.

Lemma path_app h l1 a l2 : path h (l1 ++ a :: l2) <-> path h (l1 ++ [a]) /\ path h (a :: l2).
Proof.
  induction l1 as [|x l1 IH]; simpl; [tauto|].
  destruct l1 as [|y l1]; simpl in *; [tauto|]. rewrite IH. tauto.
Qed.

Lemma path_ext h h' l z :
  (forall x, x ∈ l -> h_next h' !! x = h_next h !! x) ->
  (forall x, x ∈ tail (l ++ [z]) -> h_prev h' !! x = h_prev h !! x) ->
  path h (l ++ [z]) -> path h' (l ++ [z]).
Proof.
  induction l as [|x l IH]; intros Hn Hp H; simpl in *; [done|].
  assert (forall y k, y :: k = l ++ [z] -> path h (y :: k) /\ link h x y -> path h' (y :: k) /\ link h' x y) as Hstep.
  { intros y k E [H1 [H2 H3]]. split.
    - rewrite E in H1 |- *. apply IH; [intros; apply Hn; by constructor| |done].
      intros w Hw. apply Hp. rewrite <- E in Hw |- *. by constructor.
    - split; [rewrite Hn by constructor; done|]. rewrite Hp; [done|]. rewrite <- E. constructor. }
  destruct (l ++ [z]) as [|y k] eqn:E; [done|].
  destruct (Hstep y k eq_refl) as [? ?]; [tauto|]. tauto.
Qed.

Lemma cyc_rotate h x l : cyc h (x :: l) <-> cyc h (l ++ [x]).
Proof.
  destruct l as [|y l]; [done|]. unfold cyc. cbn [app].
  change (path h (x :: y :: l ++ [x])) with (link h x y /\ path h (y :: l ++ [x])).
  change (path h (y :: (l ++ [x]) ++ [y])) with (path h (y :: (l ++ [x]) ++ [y])).
  replace (y :: (l ++ [x]) ++ [y]) with ((y :: l) ++ x :: [y]) by (by rewrite <- app_assoc).
  rewrite path_app. cbn [path app]. tauto.
Qed.

Lemma cyc_rotate_app h l k : cyc h (l ++ k) <-> cyc h (k ++ l).
Proof.
  revert k. induction l as [|x l IH]; intros k; [by rewrite app_nil_r|].
  cbn [app]. rewrite cyc_rotate, <- app_assoc, IH, <- app_assoc. done.
Qed.

Lemma snoc_cases {A} (l : list A) : l = [] \/ exists k z, l = k ++ [z].
Proof. destruct l as [|z k] using rev_ind; eauto. Qed.

Lemma cyc_is_node h c x : cyc h c -> x ∈ c -> is_node h x.
Proof.
  intros Hc Hx. apply list_elem_of_split in Hx as (l1 & l2 & ->).
  rewrite cyc_rotate_app in Hc. cbn [app cyc] in Hc.
  assert (exists y, link h x y) as [y [Hy _]].
  { destruct ((l2 ++ l1) ++ [x]) as [|y k] eqn:E; [by destruct (l2 ++ l1)|]. destruct Hc. eauto. }
  assert (exists y, link h y x) as [w [_ Hw]].
  { destruct (snoc_cases (l2 ++ l1)) as [E|(k & z & E)]; rewrite E in Hc; [destruct Hc; eauto|].
    rewrite <- app_assoc in Hc. apply (path_app h (x :: k)) in Hc as [_ [Hc _]]. eauto. }
  split; eauto.
Qed.

Lemma is_node_stores h e f :
  h_next f = h_next h -> h_prev f = h_prev h -> is_node h e -> is_node f e.
Proof. unfold is_node. by intros -> ->. Qed.

(** ** Insertion and removal in a cycle *)

Definition add_heap (newn prev next : Z) (h : heap) : heap :=
  store_next prev newn (store_prev newn prev (store_next newn next (store_prev next newn h))).
Definition del_heap (e prev next : Z) (h : heap) : heap :=
  store_prev e LIST_POISON2 (store_next e LIST_POISON1 (store_next prev next (store_prev next prev h))).

(** A new node between the first node of a cycle and the one after it. *)
Lemma cyc_insert h a rest new :
  NoDup (a :: rest) -> new ∉ a :: rest -> cyc h (a :: rest) ->
  cyc (add_heap new a (default a (head rest)) h) (a :: new :: rest).
Proof.
  intros Hn Hnew Hc. apply NoDup_cons in Hn as [Ha Hn]. apply not_elem_of_cons in Hnew as [Hna Hnr].
  set (b := default a (head rest)). set (h' := add_heap new a b h).
  assert (exists k, rest ++ [a] = b :: k /\ b ∉ k /\ new ∉ b :: k) as (k & E & Hbk & Hnk).
  { unfold b. destruct rest as [|y r]; simpl in *.
    - exists []. split_and!; [done|apply not_elem_of_nil|]. by apply not_elem_of_cons.
    - apply NoDup_cons in Hn as [Hy Hn]. apply not_elem_of_cons in Ha as [Hay Har]. apply not_elem_of_cons in Hnr as [Hny Hnr].
      exists (r ++ [a]). split_and!; [done| |].
      + rewrite not_elem_of_app, list_elem_of_singleton. done.
      + rewrite not_elem_of_cons, not_elem_of_app, list_elem_of_singleton. done. }
  apply not_elem_of_cons in Hnk as [Hnb Hnk].
  assert (path h' (rest ++ [a])) as Hrest.
  { apply (path_ext h).
    - intros x Hx. simpl. rewrite !lookup_insert_ne; [done| |]; intros ->; done.
    - intros x Hx. rewrite E in Hx. simpl in Hx |- *. rewrite !lookup_insert_ne; [done| |]; intros ->; done.
    - cbn [cyc app] in Hc. rewrite E in Hc. rewrite E. apply Hc. }
  cbn [cyc app]. rewrite E in Hrest |- *. split; [|split; [|done]].
  - split; simpl; [by rewrite lookup_insert_eq|]. by rewrite lookup_insert_eq.
  - split; simpl.
    + rewrite lookup_insert_ne, lookup_insert_eq by done. done.
    + rewrite lookup_insert_ne, lookup_insert_eq by done. done.
Qed.

(** The first node of a cycle of at least two is taken out. *)
Lemma cyc_delete h e b r a r0 :
  b :: r = r0 ++ [a] -> NoDup (e :: b :: r) -> cyc h (e :: b :: r) ->
  h_prev h !! e = Some a /\ h_next h !! e = Some b /\ cyc (del_heap e a b h) (b :: r).
Proof.
  intros E Hn Hc. apply NoDup_cons in Hn as [He Hn]. cbn [cyc] in Hc.
  assert (b <> e) by (intros ->; apply He; constructor).
  assert (path h (e :: b :: r) /\ link h a e) as [Hc1 [Hae1 Hae2]].
  { rewrite E in Hc. replace ((e :: r0 ++ [a]) ++ [e]) with ((e :: r0) ++ a :: [e]) in Hc by (simpl; by rewrite <- app_assoc).
    rewrite path_app in Hc. rewrite E. destruct Hc as [? [? _]]. done. }
  destruct Hc1 as [[Heb1 Heb2] Hc1]. split; [done|]. split; [done|].
  pose proof Hn as Hn2. rewrite E in Hn, He.
  apply NoDup_app in Hn as (Hr0 & Har & _). apply not_elem_of_app in He as [He1 He2%not_elem_of_cons]. destruct He2 as [He2 _].
  assert (path (del_heap e a b h) (r0 ++ [a])) as Hp.
  { apply (path_ext h).
    - intros x Hx. simpl. rewrite !lookup_insert_ne; [done| |]; intros ->; [|done]. apply (Har x); [done|constructor].
    - intros x Hx. rewrite <- E in Hx. simpl in Hx |- *. apply NoDup_cons in Hn2 as [Hb _].
      rewrite !lookup_insert_ne; [done| |]; intros ->; [done|].
      assert (x ∈ r0 ++ [a]) as Hx2 by (rewrite <- E; by constructor).
      apply elem_of_app in Hx2 as [?|?%list_elem_of_singleton]; done.
    - by rewrite <- E. }
  cbn [cyc]. rewrite E, <- app_assoc. apply path_app. split; [done|]. split; [|done].
  split; simpl; rewrite lookup_insert_ne, lookup_insert_eq by done; done.
Qed.

Lemma runs_intro n c h h' (Q : heap -> Prop) : psteps n c h = Some (Stop, h') -> Q h' -> runs c h Q.
Proof. intros. exists n, h'. done. Qed.

Lemma runs_load_next p k h v Q : h_next h !! p = Some v -> runs (k v) h Q -> runs (LoadNext p k) h Q.
Proof. intros Hp (n & h' & E & HQ). apply (runs_intro (S n) _ _ h'); [|done]. cbn [psteps pstep]. rewrite Hp. done. Qed.
Lemma runs_load_prev p k h v Q : h_prev h !! p = Some v -> runs (k v) h Q -> runs (LoadPrev p k) h Q.
Proof. intros Hp (n & h' & E & HQ). apply (runs_intro (S n) _ _ h'); [|done]. cbn [psteps pstep]. rewrite Hp. done. Qed.
Lemma runs_store_next p v k h Q : is_Some (h_next h !! p) -> runs k (store_next p v h) Q -> runs (StoreNext p v k) h Q.
Proof. intros [? Hp] (n & h' & E & HQ). apply (runs_intro (S n) _ _ h'); [|done]. cbn [psteps pstep]. rewrite Hp. done. Qed.
Lemma runs_store_prev p v k h Q : is_Some (h_prev h !! p) -> runs k (store_prev p v h) Q -> runs (StorePrev p v k) h Q.
Proof. intros [? Hp] (n & h' & E & HQ). apply (runs_intro (S n) _ _ h'); [|done]. cbn [psteps pstep]. rewrite Hp. done. Qed.
Lemma runs_stop h (Q : heap -> Prop) : Q h -> runs Stop h Q.
Proof. by apply (runs_intro 0). Qed.

Lemma add_runs newn prev next h (Q : heap -> Prop) :
  is_node h newn -> is_node h prev -> is_node h next ->
  Q (add_heap newn prev next h) -> runs (__list_add newn prev next Stop) h Q.
Proof.
  intros [Hn1 Hn2] [Hp1 _] [_ Hx] HQ.
  apply runs_store_prev; [done|]. apply runs_store_next; [done|].
  apply runs_store_prev; [simpl; apply lookup_insert_is_Some'; by right|].
  apply runs_store_next; [simpl; apply lookup_insert_is_Some'; by right|]. by apply runs_stop.
Qed.

Lemma del_runs e a b h (Q : heap -> Prop) :
  is_node h e -> is_node h a -> is_node h b -> h_prev h !! e = Some a -> h_next h !! e = Some b ->
  Q (del_heap e a b h) -> runs (list_del e) h Q.
Proof.
  intros [He1 He2] [Ha _] [_ Hb] Hp Hn HQ.
  apply (runs_load_prev _ _ _ a); [done|]. apply (runs_load_next _ _ _ b); [done|].
  apply runs_store_prev; [done|]. apply runs_store_next; [done|].
  apply runs_store_next; [simpl; apply lookup_insert_is_Some'; by right|].
  apply runs_store_prev; [simpl; apply lookup_insert_is_Some'; by right|]. by apply runs_stop.
Qed.

(** ** The operations on whole lists *)

(** Only the fields of [l]'s nodes differ. *)
Definition same_outside (l : list Z) (h h' : heap) : Prop :=
  forall z, z ∉ l -> h_next h' !! z = h_next h !! z /\ h_prev h' !! z = h_prev h !! z.

Lemma same_outside_dlist l h h' y k :
  same_outside l h h' -> (forall z, z ∈ y :: k -> z ∉ l) -> dlist h y k -> dlist h' y k.
Proof.
  intros Hs Hd [Hn Hc]. split; [done|]. cbn [cyc] in Hc |- *. revert Hc. apply (path_ext h h' (y :: k)).
  - intros z Hz. by apply Hs, Hd.
  - intros z Hz. apply Hs, Hd. simpl in Hz. apply elem_of_app in Hz as [?|?%list_elem_of_singleton]; set_solver.
Qed.

Lemma dlist_list_add h x l e :
  dlist h x l -> is_node h e -> e ∉ x :: l ->
  runs (list_add e x) h (fun h' => dlist h' x (e :: l) /\ same_outside (e :: x :: l) h h').
Proof.
  intros [Hn Hc] He Hel. set (b := default x (head l)).
  assert (h_next h !! x = Some b) as Hb by (unfold b; destruct l; apply Hc).
  apply (runs_load_next _ _ _ b); [done|].
  assert (b ∈ x :: l) as Hbx by (unfold b; destruct l; simpl; set_solver).
  apply add_runs; [done|by apply (cyc_is_node _ _ _ Hc); constructor|by apply (cyc_is_node _ _ _ Hc)|].
  split; [split|].
  - apply NoDup_cons in Hn as [? ?]. apply not_elem_of_cons in Hel as [? ?].
    apply NoDup_cons; split; [set_solver|]. by apply NoDup_cons.
  - by apply cyc_insert.
  - intros z Hz. simpl. rewrite !lookup_insert_ne by set_solver. done.
Qed.

Lemma dlist_list_add_tail h x l e :
  dlist h x l -> is_node h e -> e ∉ x :: l ->
  runs (list_add_tail e x) h (fun h' => dlist h' x (l ++ [e]) /\ same_outside (e :: x :: l) h h').
Proof.
  intros [Hn Hc] He Hel.
  destruct (snoc_cases (x :: l)) as [?|(m & z & E)]; [done|].
  assert (z ∈ x :: l) as Hz by (rewrite E; set_solver).
  assert (default z (head m) = x) as Hm by (destruct m; simplify_eq/=; done).
  assert (cyc h (z :: m)) as Hzm by (apply cyc_rotate; by rewrite <- E).
  assert (h_prev h !! x = Some z) as Hp by (rewrite <- Hm; destruct m; apply Hzm).
  apply (runs_load_prev _ _ _ z); [done|].
  apply add_runs; [done|by apply (cyc_is_node _ _ _ Hc)|apply (cyc_is_node _ _ _ Hc); constructor|].
  assert (NoDup (z :: m)) as Hnz.
  { rewrite E in Hn. apply NoDup_app in Hn as (? & Hmz & _). apply NoDup_cons; split; [|done].
    intros Hz2. apply (Hmz z); [done|constructor]. }
  assert (e ∉ z :: m) by (rewrite E in Hel; set_solver).
  split; [split|].
  - change (x :: l ++ [e]) with ((x :: l) ++ [e]). apply NoDup_app. split; [done|]. split; [set_solver|apply NoDup_singleton].
  - change (x :: l ++ [e]) with ((x :: l) ++ [e]). rewrite E, <- app_assoc. cbn [app].
    rewrite <- Hm at 1. apply cyc_rotate_app. cbn [app]. by apply cyc_insert.
  - intros w Hw. simpl. rewrite !lookup_insert_ne by set_solver. done.
Qed.

(** What taking the node [e] out does, before its own fields are set. *)
Lemma dlist_unlinked h x l1 e l2 :
  dlist h x (l1 ++ e :: l2) ->
  exists a b, h_prev h !! e = Some a /\ h_next h !! e = Some b
    /\ is_node h e /\ is_node h a /\ is_node h b
    /\ dlist (del_heap e a b h) x (l1 ++ l2) /\ same_outside (x :: l1 ++ e :: l2) h (del_heap e a b h).
Proof.
  intros [Hn Hc].
  assert (x :: l1 ++ e :: l2 ≡ₚ e :: l2 ++ x :: l1) as Hperm by (rewrite <- Permutation_middle; set_solver by solve_Permutation).
  assert (cyc h (e :: l2 ++ x :: l1)) as Hc2.
  { change (cyc h ((e :: l2) ++ x :: l1)). by apply cyc_rotate_app. }
  assert (NoDup (e :: l2 ++ x :: l1)) as Hn2 by by rewrite <- Hperm.
  destruct (l2 ++ x :: l1) as [|b r] eqn:E1; [by destruct l2|].
  destruct (snoc_cases (b :: r)) as [?|(r0 & a & E2)]; [done|].
  destruct (cyc_delete h e b r a r0 E2 Hn2 Hc2) as (Hp & Hx & Hcyc).
  assert (a ∈ e :: b :: r) by (rewrite E2; set_solver).
  exists a, b. split; [done|]. split; [done|].
  split; [apply (cyc_is_node _ _ _ Hc2); constructor|]. split; [by apply (cyc_is_node _ _ _ Hc2)|].
  split; [apply (cyc_is_node _ _ _ Hc2); set_solver|].
  split; [split|].
  - apply NoDup_cons in Hn2 as [_ Hn2]. rewrite <- E1 in Hn2. rewrite <- Permutation_middle in Hn2.
    by rewrite (Permutation_app_comm l1).
  - change (cyc (del_heap e a b h) ((x :: l1) ++ l2)). apply cyc_rotate_app. by rewrite E1.
  - intros w Hw. rewrite Hperm in Hw. simpl. rewrite !lookup_insert_ne by set_solver. done.
Qed.

Lemma dlist_list_del h x l1 e l2 :
  dlist h x (l1 ++ e :: l2) ->
  runs (list_del e) h (fun h' => dlist h' x (l1 ++ l2) /\ same_outside (x :: l1 ++ e :: l2) h h').
Proof. intros H. destruct (dlist_unlinked _ _ _ _ _ H) as (a & b & ? & ? & ? & ? & ? & ? & ?). by apply (del_runs e a b). Qed.

Lemma dlist_list_empty h x l : dlist h x l -> list_empty x h = Some (bool_decide (l = [])).
Proof.
  intros [Hn Hc]. unfold list_empty. destruct l as [|y l].
  - destruct Hc as [[-> _] _]. simpl. by rewrite Z.eqb_refl.
  - destruct Hc as [[-> _] _]. simpl. apply NoDup_cons in Hn as [Hx _].
    destruct (Z.eqb_spec y x) as [->|]; [set_solver|done].
Qed.

Lemma dlist_init h x : is_node h x -> runs (INIT_LIST_HEAD x Stop) h (fun h' => dlist h' x [] /\ same_outside [x] h h').
Proof.
  intros [H1 H2]. apply runs_store_next; [done|]. apply runs_store_prev; [done|]. apply runs_stop.
  split; [split; [apply NoDup_singleton|]|].
  - split; [split; simpl; by rewrite lookup_insert_eq|done].
  - intros z Hz. simpl. rewrite !lookup_insert_ne by set_solver. done.
Qed.

(** The first and the last node after the head. *)
Lemma dlist_ends h x l :
  dlist h x l -> h_next h !! x = Some (default x (head l)) /\ h_prev h !! x = Some (default x (last l)).
Proof.
  intros [_ Hc]. split; [destruct l; apply Hc|].
  destruct l as [|z m _] using rev_ind; [apply Hc|]. rewrite last_snoc. simpl.
  cbn [cyc app] in Hc. rewrite <- app_assoc in Hc. apply (path_app h (x :: m)) in Hc as [_ [[_ ?] _]]. done.
Qed.

Definition splice_heap (prev next first last : Z) (h : heap) : heap :=
  store_prev next last (store_next last next (store_next prev first (store_prev first prev h))).

Lemma splice_path h x l p m y f r la k0 :
  x :: l = m ++ [p] -> f :: r = k0 ++ [la] -> NoDup ((x :: l) ++ y :: f :: r) ->
  cyc h (x :: l) -> cyc h (y :: f :: r) ->
  path (splice_heap p x f la h) ((m ++ [p]) ++ (k0 ++ [la]) ++ [x]).
Proof.
  intros E1 E2 Hn Hx Hy. rewrite E1, E2 in Hn.
  assert (NoDup (m ++ [p]) /\ NoDup (k0 ++ [la]) /\ y ∉ m ++ [p] /\ y ∉ k0 ++ [la] /\ (forall z, z ∈ m ++ [p] -> z ∉ k0 ++ [la]))
    as (Hn1 & Hn2 & Hy1 & Hy2 & Hd).
  { apply NoDup_app in Hn as (? & Hd & Hn2). apply NoDup_cons in Hn2 as [? ?].
    split; [done|]. split; [done|]. split; [intros Hz; apply (Hd y Hz); constructor|]. split; [done|].
    intros z Hz Hz2. apply (Hd z Hz). by constructor. }
  assert (p ∉ m /\ la ∉ k0) as [Hp Hla].
  { apply NoDup_app in Hn1 as (_ & H1 & _). apply NoDup_app in Hn2 as (_ & H2 & _). set_solver. }
  assert (x ∉ l) as Hxl by (rewrite <- E1 in Hn1; by apply NoDup_cons in Hn1 as [? _]).
  assert (f ∉ r) as Hfr by (rewrite <- E2 in Hn2; by apply NoDup_cons in Hn2 as [? _]).
  assert (x ∈ m ++ [p]) as Hxin by (rewrite <- E1; constructor).
  assert (f ∈ k0 ++ [la]) as Hfin by (rewrite <- E2; constructor).
  set (h' := splice_heap p x f la h).
  assert (path h' (m ++ [p])) as P1.
  { apply (path_ext h).
    - intros z Hz. simpl. rewrite !lookup_insert_ne by set_solver. done.
    - intros z Hz. rewrite <- E1 in Hz. simpl in Hz. assert (z ∈ m ++ [p]) by (rewrite <- E1; by constructor).
      simpl. rewrite !lookup_insert_ne by set_solver. done.
    - cbn [cyc app] in Hx. change (x :: l ++ [x]) with ((x :: l) ++ [x]) in Hx. rewrite E1, <- app_assoc in Hx.
      apply (path_app h m p [x]) in Hx. tauto. }
  assert (path h' (k0 ++ [la])) as P2.
  { apply (path_ext h).
    - intros z Hz. simpl. rewrite !lookup_insert_ne by set_solver. done.
    - intros z Hz. rewrite <- E2 in Hz. simpl in Hz. assert (z ∈ k0 ++ [la]) by (rewrite <- E2; by constructor).
      simpl. rewrite !lookup_insert_ne by set_solver. done.
    - cbn [cyc app] in Hy. destruct Hy as [_ Hy]. change (f :: r ++ [y]) with ((f :: r) ++ [y]) in Hy.
      rewrite E2, <- app_assoc in Hy. apply (path_app h k0 la [y]) in Hy. tauto. }
  rewrite <- app_assoc. cbn [app]. apply path_app. split; [done|].
  assert (link h' p f /\ link h' la x) as [L1 L2].
  { split; (split; simpl; [|]).
    - rewrite lookup_insert_ne by set_solver. by rewrite lookup_insert_eq.
    - rewrite lookup_insert_ne by set_solver. by rewrite lookup_insert_eq.
    - by rewrite lookup_insert_eq.
    - by rewrite lookup_insert_eq. }
  rewrite <- app_assoc. cbn [app].
  destruct k0 as [|f' k0]; simplify_eq/=; [done|]. split; [done|].
  change (path h' ((f' :: k0) ++ la :: [x])). apply path_app. done.
Qed.

(** The elements [f :: r] of a list come behind those of another. *)
Lemma dlist_splice_core h x l y f r k Q :
  dlist h x l -> dlist h y (f :: r) -> (forall z, z ∈ y :: f :: r -> z ∉ x :: l) ->
  (forall h', dlist h' x (l ++ f :: r) -> is_node h' y -> same_outside (y :: (f :: r) ++ x :: l) h h' -> runs k h' Q) ->
  runs (__list_splice y (default x (last l)) x k) h Q.
Proof.
  intros Hx Hy Hd HQ. pose proof (dlist_ends _ _ _ Hy) as [Hy1 Hy2]. destruct Hx as [Hn Hc]. destruct Hy as [Hny Hcy].
  destruct (snoc_cases (x :: l)) as [?|(m & p & E1)]; [done|]. destruct (snoc_cases (f :: r)) as [?|(k0 & la & E2)]; [done|].
  assert (default x (last l) = p) as ->.
  { destruct m as [|x' m]; simplify_eq/=; [done|]. by rewrite last_snoc. }
  assert (default y (last (f :: r)) = la) as Hla by (by rewrite E2, last_snoc).
  rewrite Hla in Hy2. simpl in Hy1.
  assert (is_node h f /\ is_node h p /\ is_node h la /\ is_node h x /\ is_node h y) as ([Hf1 Hf2] & [Hp1' Hp2'] & [Hl1 Hl2] & [Hi1 Hi2] & [Hj1 Hj2]).
  { split_and!; [apply (cyc_is_node _ _ _ Hcy)|apply (cyc_is_node _ _ _ Hc)|apply (cyc_is_node _ _ _ Hcy)
      |apply (cyc_is_node _ _ _ Hc)|apply (cyc_is_node _ _ _ Hcy)]; [set_solver|rewrite E1; set_solver|rewrite E2; set_solver|constructor|constructor]. }
  apply (runs_load_next _ _ _ f); [done|]. apply (runs_load_prev _ _ _ la); [done|].
  apply runs_store_prev; [done|]. apply runs_store_next; [done|].
  apply runs_store_next; [simpl; apply lookup_insert_is_Some'; by right|].
  apply runs_store_prev; [simpl; apply lookup_insert_is_Some'; by right|].
  assert (NoDup ((x :: l) ++ y :: f :: r)) as Hall.
  { apply NoDup_app. split; [done|]. split; [set_solver|done]. }
  apply HQ.
  - split.
    + change (x :: l ++ f :: r) with ((x :: l) ++ f :: r).
      apply (sublist_NoDup _ ((x :: l) ++ y :: f :: r)); [done|]. apply sublist_app; [done|]. by constructor.
    + cbn [cyc]. change (x :: l ++ f :: r) with ((x :: l) ++ f :: r). rewrite E1, E2, <- app_assoc.
      by apply (splice_path h x l p m y f r la k0).
  - split; simpl; rewrite !lookup_insert_is_Some'; by repeat right.
  - assert (p ∈ x :: l) by (rewrite E1; set_solver). assert (la ∈ f :: r) by (rewrite E2; set_solver).
    intros z Hz. simpl. rewrite !lookup_insert_ne by set_solver. done.
Qed.

(** The order of the stores matters to a reader that does not take the lock:
    the two programs below are those of [rq_get_first_locked] (which, after a
    wake-up, runs without it) and of a submission. The node 1 is taken out
    while 4 is put behind it, and 4 is in no list afterwards. *)
Example list_race_loses_node :
  exists h', interleave [true; true; false; false; false; false; false; true; true; true; true]
      (list_del 1) (list_add_tail 4 10)
      (mk_heap (list_to_map [(10, 1); (1, 10); (4, 0)]%Z) (list_to_map [(10, 1); (1, 10); (4, 0)]%Z))
    = Some (Stop, Stop, h') /\ dlist h' 10 [].
Proof.
  eexists. split; [vm_compute; reflexivity|]. split; [apply NoDup_singleton|]. vm_compute. repeat split.
Qed.
End DList.
