(* ===== verification/DListOps.v ===== *)
(** * container/list.h : every operation on lists

    What each routine of the header does to the sequence of a list, from the
    cycles of DList: insertion, removal, replacement, moves, rotation, cutting
    and joining, and the questions. *)
From Stdlib Require Import ZArith Lia Bool.
From stdpp Require Import base list numbers gmap.
From S2P Require Import Prelude DList.

Module DListOps.
Import DList.

(** ** Steps of the proofs *)

Lemma same_outside_trans l h h' h'' : same_outside l h h' -> same_outside l h' h'' -> same_outside l h h''.
Proof. intros H1 H2 z Hz. destruct (H1 z Hz), (H2 z Hz). split; congruence. Qed.

Lemma same_outside_weaken l m h h' : (forall z, z ∈ l -> z ∈ m) -> same_outside l h h' -> same_outside m h h'.
Proof. intros Hlm H z Hz. apply H. auto. Qed.

Lemma same_outside_node l h h' z : same_outside l h h' -> z ∉ l -> is_node h z -> is_node h' z.
Proof. intros H Hz. unfold is_node. by destruct (H z Hz) as [-> ->]. Qed.

Lemma runs_seq c h (Q R : heap -> Prop) : runs c h Q -> (forall h', Q h' -> R h') -> runs c h R.
Proof. intros (n & h' & ? & ?) HQR. exists n, h'. auto. Qed.

Lemma dlist_rotate h x l1 y l2 : dlist h x (l1 ++ y :: l2) -> dlist h y (l2 ++ x :: l1).
Proof.
  intros [Hn Hc]. split.
  - change (NoDup ((y :: l2) ++ x :: l1)). rewrite Permutation_app_comm. done.
  - change (cyc h ((y :: l2) ++ x :: l1)). by apply cyc_rotate_app.
Qed.

Lemma dlist_node h x l z : dlist h x l -> z ∈ x :: l -> is_node h z.
Proof. intros [_ Hc]. by apply cyc_is_node. Qed.

(** A store does not make a node out of anything, nor the reverse. *)
Lemma is_node_store_next h p v z : is_node h z -> is_node (store_next p v h) z.
Proof. intros [H1 H2]. split; [|done]. simpl. apply lookup_insert_is_Some'. by right. Qed.
Lemma is_node_store_prev h p v z : is_node h z -> is_node (store_prev p v h) z.
Proof. intros [H1 H2]. split; [done|]. simpl. apply lookup_insert_is_Some'. by right. Qed.

(** Accesses to nodes always succeed. *)
Lemma node_store_next p v k h Q : is_node h p -> runs k (store_next p v h) Q -> runs (StoreNext p v k) h Q.
Proof. intros [? ?]. by apply runs_store_next. Qed.
Lemma node_store_prev p v k h Q : is_node h p -> runs k (store_prev p v h) Q -> runs (StorePrev p v k) h Q.
Proof. intros [? ?]. by apply runs_store_prev. Qed.

(** The node [e] is taken out of the list, and [k] goes on. *)
Lemma unlink_runs h x l1 e l2 k Q :
  dlist h x (l1 ++ e :: l2) ->
  (forall h', dlist h' x (l1 ++ l2) -> is_node h' e -> same_outside (x :: l1 ++ e :: l2) h h' -> runs k h' Q) ->
  runs (__list_del_entry e k) h Q.
Proof.
  intros H HQ. assert (e ∉ x :: l1 ++ l2) as He.
  { destruct H as [Hn _]. change (NoDup ((x :: l1) ++ e :: l2)) in Hn. rewrite <- Permutation_middle in Hn.
    by apply NoDup_cons in Hn as [? _]. }
  destruct (dlist_unlinked _ _ _ _ _ H) as (a & b & Hp & Hn & He' & Ha & Hb & Hd & Hs).
  apply (runs_load_prev _ _ _ a); [done|]. apply (runs_load_next _ _ _ b); [done|].
  apply node_store_prev; [done|]. apply node_store_next; [by apply is_node_store_prev|].
  apply HQ.
  - eapply (same_outside_dlist [e]); [|set_solver|exact Hd]. intros z Hz. simpl. rewrite (lookup_insert_ne _ e) by set_solver.
    by rewrite (lookup_insert_ne _ e) by set_solver.
  - by apply is_node_store_next, is_node_store_prev.
  - intros z Hz. destruct (Hs z Hz) as [<- <-]. simpl. rewrite (lookup_insert_ne _ e) by set_solver.
    by rewrite (lookup_insert_ne _ e) by set_solver.
Qed.

(** ** Removal, moves and rotation *)

Lemma dlist_list_del_init h x l1 e l2 :
  dlist h x (l1 ++ e :: l2) ->
  runs (list_del_init e) h (fun h' => dlist h' x (l1 ++ l2) /\ dlist h' e [] /\ same_outside (x :: l1 ++ e :: l2) h h').
Proof.
  intros H. eapply unlink_runs; [exact H|]. intros h1 H1 He Hs.
  assert (e ∉ x :: l1 ++ l2) as Hel.
  { destruct H as [Hn _]. change (NoDup ((x :: l1) ++ e :: l2)) in Hn. rewrite <- Permutation_middle in Hn.
    by apply NoDup_cons in Hn as [? _]. }
  eapply runs_seq; [by apply dlist_init|]. intros h2 [H2 Hs2]. split; [|split; [done|]].
  - eapply same_outside_dlist; [exact Hs2|set_solver|done].
  - eapply same_outside_trans; [exact Hs|]. eapply same_outside_weaken; [|exact Hs2]. set_solver.
Qed.

(** The entry [e] of the list [y] goes to the front, or to the end, of the list [x]. *)
Lemma dlist_list_take h x l y k1 e k2 :
  dlist h x l -> dlist h y (k1 ++ e :: k2) -> (forall z, z ∈ y :: k1 ++ e :: k2 -> z ∉ x :: l) ->
  (runs (list_move e x) h (fun h' => dlist h' x (e :: l) /\ dlist h' y (k1 ++ k2)
     /\ same_outside (y :: (k1 ++ e :: k2) ++ x :: l) h h'))
  /\ runs (list_move_tail e x) h (fun h' => dlist h' x (l ++ [e]) /\ dlist h' y (k1 ++ k2)
     /\ same_outside (y :: (k1 ++ e :: k2) ++ x :: l) h h').
Proof.
  intros Hx Hy Hd. assert (e ∉ y :: k1 ++ k2) as Hel.
  { destruct Hy as [Hn _]. change (NoDup ((y :: k1) ++ e :: k2)) in Hn. rewrite <- Permutation_middle in Hn.
    by apply NoDup_cons in Hn as [? _]. }
  assert (e ∉ x :: l) as Hex by (apply Hd; set_solver).
  split; (eapply unlink_runs; [exact Hy|]; intros h1 H1 He Hs;
    assert (dlist h1 x l) as Hx1 by (eapply same_outside_dlist; [exact Hs| |done]; set_solver);
    (eapply runs_seq; [first [by apply dlist_list_add|by apply dlist_list_add_tail]|]);
    intros h2 [H2 Hs2]; split; [done|]; split;
    [eapply same_outside_dlist; [exact Hs2|set_solver|done]
    |eapply same_outside_trans; (eapply same_outside_weaken; [|eassumption]); set_solver]).
Qed.

(** The same within one list. *)
Lemma dlist_list_move h x l1 e l2 :
  dlist h x (l1 ++ e :: l2) ->
  (runs (list_move e x) h (fun h' => dlist h' x (e :: l1 ++ l2) /\ same_outside (x :: l1 ++ e :: l2) h h'))
  /\ runs (list_move_tail e x) h (fun h' => dlist h' x ((l1 ++ l2) ++ [e]) /\ same_outside (x :: l1 ++ e :: l2) h h').
Proof.
  intros H. assert (e ∉ x :: l1 ++ l2) as Hel.
  { destruct H as [Hn _]. change (NoDup ((x :: l1) ++ e :: l2)) in Hn. rewrite <- Permutation_middle in Hn.
    by apply NoDup_cons in Hn as [? _]. }
  split; (eapply unlink_runs; [exact H|]; intros h1 H1 He Hs;
    (eapply runs_seq; [first [by apply dlist_list_add|by apply dlist_list_add_tail]|]);
    intros h2 [H2 Hs2]; (split; [done|]);
    eapply same_outside_trans; (eapply same_outside_weaken; [|eassumption]); set_solver).
Qed.

Lemma dlist_rotate_left h x l :
  dlist h x l ->
  runs (list_rotate_left x) h (fun h' => dlist h' x (drop 1 l ++ take 1 l) /\ same_outside (x :: l) h h').
Proof.
  intros H. pose proof (dlist_ends _ _ _ H) as [H1 _]. eapply runs_load_next; [done|].
  destruct l as [|f r]; simpl in H1 |- *; [rewrite Z.eqb_refl; by apply runs_stop|].
  destruct (Z.eqb_spec f x) as [->|]; [destruct H as [[? _]%NoDup_cons _]; set_solver|].
  eapply runs_load_next; [done|]. by apply (dlist_list_move h x [] f r).
Qed.

(** ** Replacement *)

(** Another node takes the place of [old], the head or an entry of a list. *)
Lemma replace_cyc h old b r newn r0 a :
  b :: r = r0 ++ [a] -> NoDup (old :: b :: r) -> newn ∉ old :: b :: r -> cyc h (old :: b :: r) ->
  cyc (store_next a newn (store_prev newn a (store_prev b newn (store_next newn b h)))) (newn :: b :: r).
Proof.
  intros E Hn Hnew Hc. apply NoDup_cons in Hn as [Ho Hn]. set (h' := store_next a _ _).
  assert (path h' (r0 ++ [a])) as Hp.
  { pose proof Hn as Hn2. rewrite E in Hn2. apply NoDup_app in Hn2 as (_ & Ha & _). apply NoDup_cons in Hn as [Hb _].
    apply (path_ext h).
    - intros x Hx. assert (x ∈ b :: r) by (rewrite E; set_solver). simpl. rewrite !lookup_insert_ne by set_solver. done.
    - intros x Hx. rewrite <- E in Hx. simpl in Hx |- *. rewrite !lookup_insert_ne by set_solver. done.
    - rewrite <- E. cbn [cyc app] in Hc. destruct Hc as [_ Hc]. change (path h ((b :: r) ++ [old])) in Hc.
      rewrite E, <- app_assoc in Hc. rewrite E. by apply path_app in Hc as [? _]. }
  assert (a ∈ b :: r) by (rewrite E; set_solver).
  cbn [cyc app]. change (path h' (newn :: b :: r ++ [newn])) with (link h' newn b /\ path h' ((b :: r) ++ [newn])).
  split; [split; simpl|].
  - rewrite lookup_insert_ne by set_solver. by rewrite lookup_insert_eq.
  - rewrite lookup_insert_ne by set_solver. by rewrite lookup_insert_eq.
  - rewrite E, <- app_assoc. apply path_app. split; [done|]. split; [|done]. split; simpl; by rewrite lookup_insert_eq.
Qed.

Lemma replace_runs h old rest newn k Q :
  dlist h old rest -> is_node h newn -> newn ∉ old :: rest ->
  (forall h', dlist h' newn rest -> is_node h' old -> same_outside (newn :: old :: rest) h h' -> runs k h' Q) ->
  runs (__list_replace old newn k) h Q.
Proof.
  intros H Hnew Hel HQ. pose proof (dlist_ends _ _ _ H) as [H1 H2].
  assert (is_node h old) as Ho by (eapply dlist_node; [done|constructor]).
  eapply runs_load_next; [done|]. apply node_store_next; [done|].
  eapply runs_load_next; [simpl; apply lookup_insert_eq|].
  destruct rest as [|b r]; simpl in H1, H2.
  - apply node_store_prev; [by apply is_node_store_next|].
    eapply runs_load_prev; [simpl; apply lookup_insert_eq|].
    apply node_store_prev; [by apply is_node_store_prev, is_node_store_next|].
    eapply runs_load_prev; [simpl; apply lookup_insert_eq|].
    apply node_store_next; [by apply is_node_store_prev, is_node_store_prev, is_node_store_next|]. apply HQ.
    + split; [apply NoDup_singleton|]. split; [split; simpl; by rewrite lookup_insert_eq|done].
    + by apply is_node_store_next, is_node_store_prev, is_node_store_prev, is_node_store_next.
    + intros z Hz. simpl. rewrite !lookup_insert_ne by set_solver. done.
  - assert (is_node h b) as Hb by (eapply dlist_node; [done|set_solver]).
    destruct H as [Hn Hc]. destruct (snoc_cases (b :: r)) as [?|(r0 & a & E)]; [done|].
    assert (default old (last (b :: r)) = a) as Ha by (by rewrite E, last_snoc). simpl in Ha. rewrite Ha in H2.
    assert (is_node h a) as Ha' by (eapply cyc_is_node; [done|rewrite E; set_solver]).
    apply NoDup_cons in Hn as Hn2. destruct Hn2 as [Hob _].
    apply node_store_prev; [by apply is_node_store_next|].
    eapply runs_load_prev; [simpl; rewrite lookup_insert_ne by set_solver; done|].
    apply node_store_prev; [by apply is_node_store_prev, is_node_store_next|].
    eapply runs_load_prev; [simpl; apply lookup_insert_eq|].
    apply node_store_next; [by apply is_node_store_prev, is_node_store_prev, is_node_store_next|]. apply HQ.
    + split; [apply NoDup_cons in Hn as [_ Hn]; apply NoDup_cons; split; [set_solver|done]|].
      eapply replace_cyc; [done|exact Hn|done|done].
    + by apply is_node_store_next, is_node_store_prev, is_node_store_prev, is_node_store_next.
    + assert (a ∈ b :: r) by (rewrite E; set_solver). intros z Hz. simpl. rewrite !lookup_insert_ne by set_solver. done.
Qed.

Lemma dlist_list_replace h x l1 old l2 newn :
  dlist h x (l1 ++ old :: l2) -> is_node h newn -> newn ∉ x :: l1 ++ old :: l2 ->
  (runs (list_replace old newn) h (fun h' => dlist h' x (l1 ++ newn :: l2)
     /\ same_outside (newn :: x :: l1 ++ old :: l2) h h'))
  /\ runs (list_replace_init old newn) h (fun h' => dlist h' x (l1 ++ newn :: l2) /\ dlist h' old []
     /\ same_outside (newn :: x :: l1 ++ old :: l2) h h').
Proof.
  intros H Hnew Hel. apply dlist_rotate in H as Hr.
  assert (old ∉ l2 ++ x :: l1) as Ho by (by destruct Hr as [[? _]%NoDup_cons _]).
  split; (eapply replace_runs; [exact Hr|done|set_solver|]; intros h1 H1 Hn1 Hs1; apply dlist_rotate in H1).
  - apply runs_stop. split; [done|]. eapply same_outside_weaken; [|exact Hs1]. set_solver.
  - eapply runs_seq; [by apply dlist_init|]. intros h2 [H2 Hs2]. split; [|split; [done|]].
    + eapply same_outside_dlist; [exact Hs2|set_solver|done].
    + eapply same_outside_trans; (eapply same_outside_weaken; [|eassumption]); set_solver.
Qed.

(** ** Joining *)

Lemma dlist_joins h x l y k :
  dlist h x l -> dlist h y k -> (forall z, z ∈ y :: k -> z ∉ x :: l) ->
  let P m h' := dlist h' x m /\ same_outside (y :: k ++ x :: l) h h' in
  runs (list_splice y x) h (P (k ++ l))
  /\ runs (list_splice_tail y x) h (P (l ++ k))
  /\ runs (list_splice_init y x) h (fun h' => P (k ++ l) h' /\ dlist h' y [])
  /\ runs (list_splice_tail_init y x) h (fun h' => P (l ++ k) h' /\ dlist h' y []).
Proof.
  intros Hx Hy Hd P. pose proof (dlist_ends _ _ _ Hx) as [Hx1 Hx2]. pose proof (dlist_ends _ _ _ Hy) as [Hy1 _].
  destruct k as [|f r].
  { rewrite app_nil_r. unfold P. split_and!; (eapply runs_load_next; [done|]; simpl; rewrite Z.eqb_refl; by apply runs_stop). }
  simpl in Hy1. assert ((f =? y) = false)%Z as Hf.
  { apply Z.eqb_neq. intros ->. destruct Hy as [[? _]%NoDup_cons _]. set_solver. }
  assert (forall kont R, (forall h', P (l ++ f :: r) h' -> is_node h' y -> runs kont h' R) ->
    runs (__list_splice y (default x (last l)) x kont) h R) as Htail.
  { intros kont R HR. eapply dlist_splice_core; [done|done|done|]. intros. apply HR; [split|]; done. }
  assert (forall kont R, (forall h', P ((f :: r) ++ l) h' -> is_node h' y -> runs kont h' R) ->
    runs (__list_splice y x (default x (head l)) kont) h R) as Hhead.
  { intros kont R HR. destruct l as [|b tl].
    - apply (Htail kont R). intros h' Hh. apply HR. by rewrite app_nil_r.
    - pose proof (dlist_rotate h x [] b tl Hx) as Hb.
      pose proof (dlist_splice_core h b (tl ++ [x]) y f r kont R Hb Hy) as Hc. rewrite last_snoc in Hc. apply Hc; [set_solver|].
      intros h' H1 H2 Hs. apply HR; [split|done].
      + rewrite <- app_assoc in H1. apply (dlist_rotate h' b tl x (f :: r)) in H1. done.
      + eapply same_outside_weaken; [|exact Hs]. set_solver. }
  assert (forall m h', P m h' -> is_node h' y -> (forall z, z ∈ m -> z <> y) ->
    runs (INIT_LIST_HEAD y Stop) h' (fun h2 => P m h2 /\ dlist h2 y [])) as Hinit.
  { intros m h' [H1 Hs1] Hn Hm. assert (y <> x) by (specialize (Hd y); set_solver).
    eapply runs_seq; [by apply dlist_init|]. intros h2 [H2 Hs2]. split; [split|done].
    - eapply same_outside_dlist; [exact Hs2|set_solver|done].
    - eapply same_outside_trans; [exact Hs1|]. eapply same_outside_weaken; [|exact Hs2]. set_solver. }
  assert (forall z, z ∈ (f :: r) ++ l -> z <> y) as Hm.
  { intros z Hz ->. apply elem_of_app in Hz as [Hz|Hz]; [by destruct Hy as [[? _]%NoDup_cons _]|].
    apply (Hd y); set_solver. }
  split_and!; (eapply runs_load_next; [done|]; rewrite Hf;
    first [eapply runs_load_next; [exact Hx1|]; apply Hhead|eapply runs_load_prev; [exact Hx2|]; apply Htail];
    intros h' HP Hny; first [by apply runs_stop|apply Hinit; [done|done|set_solver]]).
Qed.

(** ** Cutting *)

Definition cut_heap (y x f e n : Z) (h : heap) : heap :=
  store_prev n x (store_next x n (store_next e y (store_prev y e (store_prev f y (store_next y f h))))).

(** What both cuts end with: the entries up to [e] belong to [y], those from
    [n] on stay with [x]. *)
Lemma cut_cyc h x y k1 e k2 f r n m :
  dlist h x (k1 ++ e :: k2) -> y ∉ x :: k1 ++ e :: k2 -> k1 ++ [e] = f :: r -> k2 ++ [x] = n :: m ->
  dlist (cut_heap y x f e n h) x k2 /\ dlist (cut_heap y x f e n h) y (k1 ++ [e]).
Proof.
  intros [Hn Hc] Hy E1 E2. set (h' := cut_heap y x f e n h).
  assert (NoDup k2 /\ x ∉ k2 /\ NoDup (k1 ++ [e]) /\ x ∉ k1 ++ [e] /\ (forall z, z ∈ k1 ++ [e] -> z ∉ k2) /\ e ∉ k1)
    as (Hn2 & Hx2 & Hn1 & Hx1 & Hd & He).
  { rewrite cons_middle, app_assoc in Hn. apply NoDup_cons in Hn as [Hx Hn].
    apply NoDup_app in Hn as (H1 & H2 & H3). apply not_elem_of_app in Hx as [Hx1 Hx2].
    split_and!; [done|done|done|done|done|]. apply NoDup_app in H1 as (_ & H1 & _). set_solver. }
  assert (y ∉ k1 ++ [e] /\ y ∉ k2 ++ [x]) as [Hy1 Hy2] by set_solver.
  assert (n ∉ m /\ (forall z, z ∈ n :: m -> z ∉ k1 ++ [e])) as [Hnm Hdn].
  { assert (NoDup (n :: m)) as Hnm.
    { rewrite <- E2. apply NoDup_app. split; [done|]. split; [set_solver|apply NoDup_singleton]. }
    split; [by apply NoDup_cons in Hnm as [? _]|]. rewrite <- E2. set_solver. }
  assert (f ∉ r) as Hfr by (rewrite E1 in Hn1; by apply NoDup_cons in Hn1 as [? _]).
  assert (f ∈ k1 ++ [e] /\ n ∈ k2 ++ [x]) as [Hf Hnn] by (rewrite E1, E2; set_solver).
  assert (path h (k1 ++ [e]) /\ path h (k2 ++ [x])) as [Hp1 Hp2].
  { cbn [cyc app] in Hc. rewrite <- app_assoc in Hc. change (path h ((x :: k1) ++ e :: k2 ++ [x])) in Hc.
    apply path_app in Hc as [H1 H2]. rewrite E1, E2 in *. cbn [app] in H1. rewrite E1 in H1. split; [apply H1|apply H2]. }
  assert (path h' (k1 ++ [e])) as Hq1.
  { revert Hp1. apply path_ext; intros z Hz; simpl.
    - assert (z <> e /\ z <> x /\ z <> y) as (? & ? & ?) by (clear -Hz He Hx1 Hy1; set_solver).
      rewrite !lookup_insert_ne by done. done.
    - rewrite E1 in Hz. simpl in Hz. assert (z ∈ k1 ++ [e]) by (rewrite E1; by constructor).
      assert (z <> f /\ z <> y /\ z <> n) as (? & ? & ?).
      { split_and!; [by intros ->|by intros ->|intros ->]. by apply (Hdn n); [constructor|]. }
      rewrite !lookup_insert_ne by done. done. }
  assert (path h' (k2 ++ [x])) as Hq2.
  { revert Hp2. apply path_ext; intros z Hz; simpl.
    - assert (z <> e /\ z <> x /\ z <> y) as (? & ? & ?) by (clear -Hz Hd Hx2 Hy2; set_solver).
      rewrite !lookup_insert_ne by done. done.
    - rewrite E2 in Hz. simpl in Hz. assert (z ∈ n :: m) by (by constructor).
      assert (z <> f /\ z <> y /\ z <> n) as (? & ? & ?).
      { split_and!; [|intros ->; by rewrite E2 in Hy2|by intros ->]. intros ->. by apply (Hdn f). }
      rewrite !lookup_insert_ne by done. done. }
  assert (f <> n /\ y <> n /\ y <> f /\ e <> x /\ y <> x /\ y <> e) as (Hfn & Hyn & Hyf & Hex & Hyx & Hye).
  { split_and!; [intros ->; by apply (Hdn n); [constructor|]| | | | |]; clear -Hy1 Hy2 Hf Hnn Hx1; set_solver. }
  split; split.
  - by apply NoDup_cons.
  - cbn [cyc app]. rewrite E2 in Hq2 |- *. split; [|done]. split; simpl; by rewrite lookup_insert_eq.
  - by apply NoDup_cons.
  - cbn [cyc]. change (path h' (y :: (k1 ++ [e]) ++ [y])). rewrite <- app_assoc. cbn [app].
    change (path h' ((y :: k1) ++ e :: [y])). apply path_app. split; [|split; [|done]].
    + cbn [app]. rewrite E1 in Hq1 |- *. split; [|done]. split; simpl; rewrite !lookup_insert_ne by done; by rewrite lookup_insert_eq.
    + split; simpl; rewrite lookup_insert_ne by done; by rewrite lookup_insert_eq.
Qed.

(** The entries before [e] and those from [e] on; all of them are before an
    entry that is not there. *)
Fixpoint before (e : Z) (l : list Z) : list Z :=
  match l with [] => [] | z :: l => if z =? e then [] else z :: before e l end.
Fixpoint from (e : Z) (l : list Z) : list Z :=
  match l with [] => [] | z :: k => if z =? e then l else from e k end.

Lemma before_from_split e l1 l2 : e ∉ l1 -> before e (l1 ++ e :: l2) = l1 /\ from e (l1 ++ e :: l2) = e :: l2.
Proof.
  induction l1 as [|z l1 IH]; intros He; simpl; [by rewrite Z.eqb_refl|].
  apply not_elem_of_cons in He as [? He]. destruct (Z.eqb_spec z e); [congruence|]. destruct (IH He) as [-> ->]. done.
Qed.
Lemma before_from_absent e l : e ∉ l -> before e l = l /\ from e l = [].
Proof.
  induction l as [|z l IH]; intros He; simpl; [done|].
  apply not_elem_of_cons in He as [? He]. destruct (Z.eqb_spec z e); [congruence|]. destruct (IH He) as [-> ->]. done.
Qed.

(** The entries that go to the new list, and those that stay. *)
Definition cut_position_spec (x e : Z) (l : list Z) : list Z * list Z :=
  if e =? x then ([], l) else (before e l ++ [e], tail (from e l)).

(** One access of a step that is known to work. *)
Ltac node_stores :=
  repeat first [apply is_node_store_next | apply is_node_store_prev]; assumption.

Lemma dlist_cut_position_in h x l1 e l2 y :
  dlist h x (l1 ++ e :: l2) -> is_node h y -> y ∉ x :: l1 ++ e :: l2 ->
  runs (__list_cut_position y x e) h (fun h' =>
    dlist h' x l2 /\ dlist h' y (l1 ++ [e]) /\ same_outside (y :: x :: l1 ++ e :: l2) h h').
Proof.
  intros H Hy Hel. pose proof (dlist_ends _ _ _ H) as [H1 _].
  destruct (l1 ++ [e]) as [|f r] eqn:E1; [by destruct l1|]. destruct (l2 ++ [x]) as [|n m] eqn:E2; [by destruct l2|].
  assert (h_next h !! x = Some f) as Hxf by (rewrite H1; destruct l1; simplify_eq/=; done).
  assert (h_next h !! e = Some n) as Hen.
  { destruct (dlist_ends _ _ _ (dlist_rotate _ _ _ _ _ H)) as [He _]. rewrite He. destruct l2; simplify_eq/=; done. }
  assert (is_node h x /\ is_node h e /\ is_node h f /\ is_node h n) as (Hnx & Hne & Hnf & Hnn).
  { assert (f ∈ l1 ++ [e] /\ n ∈ l2 ++ [x]) as [? ?] by (rewrite E1, E2; set_solver).
    split_and!; (eapply dlist_node; [exact H|set_solver]). }
  assert (y <> x) by set_solver.
  eapply runs_load_next; [done|]. eapply runs_load_next; [done|]. apply node_store_next; [done|].
  eapply runs_load_next; [simpl; apply lookup_insert_eq|]. apply node_store_prev; [node_stores|].
  apply node_store_prev; [node_stores|]. apply node_store_next; [node_stores|]. apply node_store_next; [node_stores|].
  apply node_store_prev; [node_stores|]. apply runs_stop.
  destruct (cut_cyc h x y l1 e l2 f r n m H Hel E1 E2) as [Hc1 Hc2]. rewrite E1 in Hc2. split; [exact Hc1|]. split; [exact Hc2|].
  assert (f ∈ l1 ++ [e] /\ n ∈ l2 ++ [x]) as [? ?] by (rewrite E1, E2; set_solver).
  intros z Hz. assert (z <> y /\ z <> x /\ z <> e /\ z <> f /\ z <> n) as (? & ? & ? & ? & ?) by set_solver.
  simpl. rewrite !lookup_insert_ne by done. done.
Qed.

Lemma dlist_list_cut_position h x l y e :
  dlist h x l -> is_node h y -> y ∉ x :: l -> e ∈ x :: l ->
  runs (list_cut_position y x e) h (fun h' => dlist h' x (cut_position_spec x e l).2
    /\ (l <> [] -> dlist h' y (cut_position_spec x e l).1) /\ same_outside (y :: x :: l) h h').
Proof.
  intros H Hy Hel He. pose proof (dlist_ends _ _ _ H) as [H1 H2].
  assert (l <> [] -> runs (list_cut_tail y x e) h (fun h' => dlist h' x (cut_position_spec x e l).2
    /\ (l <> [] -> dlist h' y (cut_position_spec x e l).1) /\ same_outside (y :: x :: l) h h')) as Htail.
  { intros Hl. unfold list_cut_tail, cut_position_spec. destruct (Z.eqb_spec e x) as [->|Hne].
    - eapply runs_seq; [by apply dlist_init|]. intros h' [H3 Hs]. split; [|split; [done|]].
      + eapply same_outside_dlist; [exact Hs|set_solver|done].
      + eapply same_outside_weaken; [|exact Hs]. set_solver.
    - apply elem_of_cons in He as [?|He]; [done|]. apply list_elem_of_split in He as (l1 & l2 & ->).
      assert (e ∉ l1) as Hel1.
      { destruct H as [Hn _]. apply NoDup_cons in Hn as [_ Hn]. apply NoDup_app in Hn as (_ & Hd & _). set_solver. }
      destruct (before_from_split e l1 l2 Hel1) as [-> ->]. cbn [tail fst snd].
      eapply runs_seq; [by apply dlist_cut_position_in|]. intros h' (? & ? & ?). done. }
  eapply runs_load_next; [done|]. destruct l as [|f r].
  - simpl. rewrite Z.eqb_refl. apply runs_stop. split; [|split; [done|done]].
    unfold cut_position_spec. by destruct (e =? x)%Z.
  - cbn [default head id] in H1, H2 |- *. assert ((f =? x) = false)%Z as Hfx.
    { apply Z.eqb_neq. intros ->. destruct H as [[? _]%NoDup_cons _]. set_solver. }
    rewrite Hfx. eapply runs_load_next; [done|]. rewrite Hfx. eapply runs_load_next; [done|]. eapply runs_load_prev; [done|].
    destruct (Z.eqb_spec f (default x (last (f :: r)))) as [Hfl|]; [|by apply Htail].
    eapply runs_load_next; [done|].
    destruct (Z.eqb_spec f e); [by apply Htail|]. destruct (Z.eqb_spec x e); [by apply Htail|]. exfalso.
    destruct (snoc_cases r) as [->|(k & z & ->)]; [set_solver|].
    rewrite app_comm_cons, last_snoc in Hfl. simpl in Hfl. subst z.
    destruct H as [Hn _]. apply NoDup_cons in Hn as [_ [Hn _]%NoDup_cons]. set_solver.
Qed.

Lemma dlist_list_cut_before h x l y e :
  dlist h x l -> is_node h y -> y ∉ x :: l -> e ∈ x :: l ->
  runs (list_cut_before y x e) h (fun h' => dlist h' x (from e l) /\ dlist h' y (before e l)
    /\ same_outside (y :: x :: l) h h').
Proof.
  intros H Hy Hel He. pose proof (dlist_ends _ _ _ H) as [H1 H2].
  (* the entries before [e] *)
  assert (exists k rest, l = k ++ rest /\ before e l = k /\ from e l = rest /\ default x (head rest) = e) as (k & rest & -> & -> & -> & Hr).
  { apply elem_of_cons in He as [->|He].
    - exists l, []. rewrite app_nil_r. destruct H as [[Hx _]%NoDup_cons _]. by destruct (before_from_absent x l Hx).
    - apply list_elem_of_split in He as (l1 & l2 & ->). exists l1, (e :: l2).
      assert (e ∉ l1).
      { destruct H as [Hn _]. apply NoDup_cons in Hn as [_ Hn]. apply NoDup_app in Hn as (_ & Hd & _). set_solver. }
      by destruct (before_from_split e l1 l2). }
  eapply runs_load_next; [done|]. destruct (snoc_cases k) as [->|(k1 & a & ->)].
  - cbn [app]. rewrite Hr, Z.eqb_refl. eapply runs_seq; [by apply dlist_init|]. intros h' [H3 Hs]. split; [|split; [done|]].
    + eapply same_outside_dlist; [exact Hs|set_solver|done].
    + eapply same_outside_weaken; [|exact Hs]. set_solver.
  - rewrite <- app_assoc in *. cbn [app] in *.
    destruct (k1 ++ [a]) as [|f r] eqn:E1; [by destruct k1|]. destruct (rest ++ [x]) as [|n m] eqn:E2; [by destruct rest|].
    assert (n = e) as -> by (destruct rest; simplify_eq/=; done).
    assert (default x (head (k1 ++ a :: rest)) = f) as Hf by (destruct k1; simplify_eq/=; done). rewrite Hf in *.
    assert (h_prev h !! e = Some a) as Hpe.
    { destruct rest as [|e' rest]; simplify_eq/=.
      - rewrite H2. by rewrite last_snoc.
      - rewrite cons_middle, app_assoc in H. apply dlist_rotate in H.
        destruct (dlist_ends _ _ _ H) as [_ ->]. rewrite !app_comm_cons, app_assoc, last_snoc. done. }
    assert (f ∈ k1 ++ [a] /\ e ∈ rest ++ [x]) as [Hfi Hei] by (rewrite E1, E2; set_solver).
    assert (is_node h x /\ is_node h e /\ is_node h f /\ is_node h a) as (Hnx & Hne & Hnf & Hna).
    { split_and!; (eapply dlist_node; [exact H|set_solver]). }
    assert (f <> e) as Hfe.
    { intros ->. destruct H as [Hn _]. rewrite cons_middle, app_assoc in Hn. apply NoDup_cons in Hn as [Hx Hn].
      apply NoDup_app in Hn as (_ & Hd & _). specialize (Hd e Hfi).
      apply not_elem_of_app in Hx as [Hx _]. apply elem_of_app in Hei as [?| ->%list_elem_of_singleton]; done. }
    assert (y <> e) as Hye by set_solver.
    destruct (Z.eqb_spec f e); [done|]. eapply runs_load_next; [done|]. apply node_store_next; [done|].
    eapply runs_load_next; [simpl; apply lookup_insert_eq|]. apply node_store_prev; [node_stores|].
    eapply runs_load_prev; [simpl; rewrite lookup_insert_ne by done; done|]. apply node_store_prev; [node_stores|].
    eapply runs_load_prev; [simpl; apply lookup_insert_eq|]. apply node_store_next; [node_stores|].
    apply node_store_next; [node_stores|]. apply node_store_prev; [node_stores|]. apply runs_stop.
    destruct (cut_cyc h x y k1 a rest f r e m H Hel E1 E2) as [Hc1 Hc2]. rewrite E1 in Hc2. split; [exact Hc1|]. split; [exact Hc2|].
    intros z Hz. assert (z <> y /\ z <> x /\ z <> e /\ z <> f /\ z <> a) as (? & ? & ? & ? & ?) by set_solver.
    simpl. rewrite !lookup_insert_ne by done. done.
Qed.
(** ** The questions *)

Lemma dlist_list_empty_careful h x l : dlist h x l -> list_empty_careful x h = Some (bool_decide (l = [])).
Proof.
  intros H. destruct (dlist_ends _ _ _ H) as [H1 H2]. unfold list_empty_careful. rewrite H1. destruct l as [|f r]; simpl.
  - rewrite Z.eqb_refl. simpl in H2. rewrite H2. simpl. by rewrite Z.eqb_refl.
  - destruct (Z.eqb_spec f x) as [->|]; [destruct H as [[? _]%NoDup_cons _]; set_solver|done].
Qed.

Lemma dlist_list_is_singular h x l : dlist h x l -> list_is_singular x h = Some (bool_decide (length l = 1%nat)).
Proof.
  intros H. unfold list_is_singular. rewrite (dlist_list_empty _ _ _ H). destruct (dlist_ends _ _ _ H) as [H1 H2].
  destruct l as [|f r]; [done|]. cbn [mbind option_bind]. rewrite bool_decide_eq_false_2 by done. rewrite H1, H2. simpl.
  f_equal. destruct (snoc_cases r) as [->|(k & z & ->)]; [by rewrite Z.eqb_refl|].
  rewrite app_comm_cons, last_snoc. simpl. rewrite length_app, bool_decide_eq_false_2 by (simpl; lia).
  apply Z.eqb_neq. intros ->. destruct H as [[_ [Hn _]%NoDup_cons]%NoDup_cons _]. set_solver.
Qed.

Lemma dlist_list_is_last h x l e : dlist h x l -> e ∈ l -> list_is_last e x h = Some (bool_decide (last l = Some e)).
Proof.
  intros H He. apply list_elem_of_split in He as (l1 & l2 & ->). unfold list_is_last.
  destruct (dlist_ends _ _ _ (dlist_rotate _ _ _ _ _ H)) as [-> _]. simpl. f_equal.
  destruct H as [Hn _]. destruct (snoc_cases l2) as [->|(k & z & ->)].
  - simpl. by rewrite Z.eqb_refl, last_snoc, bool_decide_eq_true_2.
  - rewrite (bool_decide_eq_false_2 (last _ = _)).
    + apply Z.eqb_neq. apply NoDup_cons in Hn as [Hx _]. destruct k; simpl; set_solver.
    + rewrite app_comm_cons, app_assoc, last_snoc. intros [= ->].
      apply NoDup_cons in Hn as [_ Hn]. apply NoDup_app in Hn as (_ & _ & [Hn _]%NoDup_cons). set_solver.
Qed.

(** ** The operations and the sequences *)

Inductive op :=
| OpAdd (e : Z) | OpAddTail (e : Z) | OpDel (e : Z) | OpDelInit (e : Z)
| OpMove (e : Z) | OpMoveTail (e : Z) | OpTake (e y : Z) | OpTakeTail (e y : Z)
| OpReplace (old newn : Z) | OpReplaceInit (old newn : Z) | OpRotateLeft
| OpSplice (y : Z) | OpSpliceTail (y : Z) | OpSpliceInit (y : Z) | OpSpliceTailInit (y : Z)
| OpCutPosition (y e : Z) | OpCutBefore (y e : Z).

(** The operation on the list with head [x]; [OpTake] moves an entry of
    another list. *)
Definition op_prog (x : Z) (o : op) : prog :=
  match o with
  | OpAdd e => list_add e x
  | OpAddTail e => list_add_tail e x
  | OpDel e => list_del e
  | OpDelInit e => list_del_init e
  | OpMove e | OpTake e _ => list_move e x
  | OpMoveTail e | OpTakeTail e _ => list_move_tail e x
  | OpReplace old newn => list_replace old newn
  | OpReplaceInit old newn => list_replace_init old newn
  | OpRotateLeft => list_rotate_left x
  | OpSplice y => list_splice y x
  | OpSpliceTail y => list_splice_tail y x
  | OpSpliceInit y => list_splice_init y x
  | OpSpliceTailInit y => list_splice_tail_init y x
  | OpCutPosition y e => list_cut_position y x e
  | OpCutBefore y e => list_cut_before y x e
  end.

Definition without (e : Z) (l : list Z) : list Z := filter (fun z => z <> e) l.

(** What the operation makes of the sequence [l]; [k] is that of the list [y]. *)
Definition op_spec (x : Z) (o : op) (l k : list Z) : list Z :=
  match o with
  | OpAdd e | OpTake e _ => e :: l
  | OpAddTail e | OpTakeTail e _ => l ++ [e]
  | OpDel e | OpDelInit e => without e l
  | OpMove e => e :: without e l
  | OpMoveTail e => without e l ++ [e]
  | OpReplace old newn | OpReplaceInit old newn => map (fun z => if z =? old then newn else z) l
  | OpRotateLeft => drop 1 l ++ take 1 l
  | OpSplice _ | OpSpliceInit _ => k ++ l
  | OpSpliceTail _ | OpSpliceTailInit _ => l ++ k
  | OpCutPosition _ e => (cut_position_spec x e l).2
  | OpCutBefore _ e => from e l
  end.

(** The second list there is afterwards. *)
Definition op_other (x : Z) (o : op) (l k : list Z) : option (Z * list Z) :=
  match o with
  | OpDelInit e => Some (e, [])
  | OpTake e y | OpTakeTail e y => Some (y, without e k)
  | OpReplaceInit old _ => Some (old, [])
  | OpSpliceInit y | OpSpliceTailInit y => Some (y, [])
  | OpCutPosition y e => if bool_decide (l = []) then None else Some (y, (cut_position_spec x e l).1)
  | OpCutBefore y e => Some (y, before e l)
  | _ => None
  end.

(** When the operation may be used. *)
Definition op_pre (h : heap) (x : Z) (l k : list Z) (o : op) : Prop :=
  match o with
  | OpAdd e | OpAddTail e => is_node h e /\ e ∉ x :: l
  | OpDel e | OpDelInit e | OpMove e | OpMoveTail e => e ∈ l
  | OpTake e y | OpTakeTail e y => dlist h y k /\ e ∈ k /\ (forall z, z ∈ y :: k -> z ∉ x :: l)
  | OpReplace old newn | OpReplaceInit old newn => old ∈ l /\ is_node h newn /\ newn ∉ x :: l
  | OpRotateLeft => True
  | OpSplice y | OpSpliceTail y | OpSpliceInit y | OpSpliceTailInit y =>
      dlist h y k /\ forall z, z ∈ y :: k -> z ∉ x :: l
  | OpCutPosition y e | OpCutBefore y e => is_node h y /\ y ∉ x :: l /\ e ∈ x :: l
  end.

(** The nodes it may write. *)
Definition op_nodes (x : Z) (l k : list Z) (o : op) : list Z :=
  match o with
  | OpAdd e | OpAddTail e | OpReplace _ e | OpReplaceInit _ e => e :: x :: l
  | OpDel _ | OpDelInit _ | OpMove _ | OpMoveTail _ | OpRotateLeft => x :: l
  | OpTake _ y | OpTakeTail _ y | OpSplice y | OpSpliceTail y | OpSpliceInit y | OpSpliceTailInit y => y :: k ++ x :: l
  | OpCutPosition y _ | OpCutBefore y _ => y :: x :: l
  end.

(** What the questions answer on a list with the elements [l]. *)
Definition answers (h : heap) (x : Z) (l : list Z) : Prop :=
  list_empty x h = Some (bool_decide (l = [])) /\ list_empty_careful x h = Some (bool_decide (l = []))
  /\ list_is_singular x h = Some (bool_decide (length l = 1%nat))
  /\ forall e, e ∈ l -> list_is_last e x h = Some (bool_decide (last l = Some e)).

Lemma without_remove e (l1 l2 : list Z) : NoDup (l1 ++ e :: l2) -> without e (l1 ++ e :: l2) = l1 ++ l2.
Proof. apply filter_remove. Qed.

Lemma map_replace old newn (l1 l2 : list Z) :
  NoDup (l1 ++ old :: l2) -> map (fun z => if (z =? old)%Z then newn else z) (l1 ++ old :: l2) = l1 ++ newn :: l2.
Proof.
  intros (H1 & H2 & [H3 H4]%NoDup_cons)%NoDup_app. rewrite map_app. cbn [map]. rewrite Z.eqb_refl.
  assert (forall l, old ∉ l -> map (fun z => if (z =? old)%Z then newn else z) l = l) as Hid.
  { induction l as [|z l IH]; intros Hl; [done|]. apply not_elem_of_cons in Hl as [? ?]. simpl.
    destruct (Z.eqb_spec z old); [congruence|]. by rewrite IH. }
  rewrite !Hid; [done|done|]. intros Hz. apply (H2 old); [done|constructor].
Qed.

Definition op_result (x : Z) (l k : list Z) (o : op) (h h' : heap) : Prop :=
  dlist h' x (op_spec x o l k) /\ (forall y m, op_other x o l k = Some (y, m) -> dlist h' y m)
  /\ same_outside (op_nodes x l k o) h h'.

Lemma dlist_NoDup h x l : dlist h x l -> NoDup l.
Proof. by intros [[_ ?]%NoDup_cons _]. Qed.

Lemma op_runs h x l k o : dlist h x l -> op_pre h x l k o -> runs (op_prog x o) h (op_result x l k o h).
Proof.
  intros Hl Hpre. pose proof (dlist_NoDup _ _ _ Hl) as Hnd. destruct o as [e|e|e|e|e|e|e y|e y|old newn|old newn| |y|y|y|y|y e|y e]; simpl in Hpre.
  1,2: destruct Hpre; eapply runs_seq; [first [by apply dlist_list_add|by apply dlist_list_add_tail]|]; unfold op_result; simpl; naive_solver.
  1-4: apply list_elem_of_split in Hpre as (l1 & l2 & ->); unfold op_result; simpl; rewrite without_remove by done.
  - eapply runs_seq; [by apply dlist_list_del|]. naive_solver.
  - eapply runs_seq; [by apply dlist_list_del_init|]. naive_solver.
  - destruct (dlist_list_move _ _ _ _ _ Hl) as [H _]. eapply runs_seq; [exact H|]. naive_solver.
  - destruct (dlist_list_move _ _ _ _ _ Hl) as [_ H]. eapply runs_seq; [exact H|]. naive_solver.
  - destruct Hpre as (Hy & (l1 & l2 & ->)%list_elem_of_split & Hd). destruct (dlist_list_take _ _ _ _ _ _ _ Hl Hy Hd) as [H _].
    unfold op_result; simpl. rewrite without_remove by (by eapply dlist_NoDup). eapply runs_seq; [exact H|]. naive_solver.
  - destruct Hpre as (Hy & (l1 & l2 & ->)%list_elem_of_split & Hd). destruct (dlist_list_take _ _ _ _ _ _ _ Hl Hy Hd) as [_ H].
    unfold op_result; simpl. rewrite without_remove by (by eapply dlist_NoDup). eapply runs_seq; [exact H|]. naive_solver.
  - destruct Hpre as ((l1 & l2 & ->)%list_elem_of_split & Hn & Hd). destruct (dlist_list_replace _ _ _ _ _ _ Hl Hn Hd) as [H _].
    unfold op_result; simpl. rewrite map_replace by done. eapply runs_seq; [exact H|]. naive_solver.
  - destruct Hpre as ((l1 & l2 & ->)%list_elem_of_split & Hn & Hd). destruct (dlist_list_replace _ _ _ _ _ _ Hl Hn Hd) as [_ H].
    unfold op_result; simpl. rewrite map_replace by done. eapply runs_seq; [exact H|]. naive_solver.
  - eapply runs_seq; [by apply dlist_rotate_left|]. unfold op_result; simpl. naive_solver.
  - destruct Hpre as [Hy Hd]. destruct (dlist_joins _ _ _ _ _ Hl Hy Hd) as (H & _). eapply runs_seq; [exact H|]. unfold op_result; simpl. naive_solver.
  - destruct Hpre as [Hy Hd]. destruct (dlist_joins _ _ _ _ _ Hl Hy Hd) as (_ & H & _). eapply runs_seq; [exact H|]. unfold op_result; simpl. naive_solver.
  - destruct Hpre as [Hy Hd]. destruct (dlist_joins _ _ _ _ _ Hl Hy Hd) as (_ & _ & H & _). eapply runs_seq; [exact H|]. unfold op_result; simpl. naive_solver.
  - destruct Hpre as [Hy Hd]. destruct (dlist_joins _ _ _ _ _ Hl Hy Hd) as (_ & _ & _ & H). eapply runs_seq; [exact H|]. unfold op_result; simpl. naive_solver.
  - destruct Hpre as (Hy & Hd & He). eapply runs_seq; [by apply dlist_list_cut_position|]. unfold op_result; simpl.
    intros h' (H1 & H2 & H3). split; [done|]. split; [|done]. intros z m. case_bool_decide; [done|]. intros [= <- <-]. auto.
  - destruct Hpre as (Hy & Hd & He). eapply runs_seq; [by apply dlist_list_cut_before|]. unfold op_result; simpl. naive_solver.
Qed.

(** C29: the pointer code of container/list.h does to a circular list what its
    names say of the sequence of its elements. Adding, deleting, replacing and
    moving an entry, rotating, joining two lists and cutting one in two each
    end, access list nodes only, and leave the list with the sequence [op_spec]
    says and the second list (the source of a move, what is cut off, what an
    [_init] variant leaves behind) with that of [op_other]; afterwards
    [list_empty], [list_empty_careful], [list_is_singular] and [list_is_last]
    give the right answers, and every other list is what it was. *)
Theorem dlist_refines h x l k o :
  dlist h x l -> op_pre h x l k o ->
  runs (op_prog x o) h (fun h' =>
    dlist h' x (op_spec x o l k)
    /\ (forall y m, op_other x o l k = Some (y, m) -> dlist h' y m)
    /\ answers h' x (op_spec x o l k)
    /\ (forall z m, (forall w, w ∈ z :: m -> w ∉ op_nodes x l k o) -> dlist h z m -> dlist h' z m)).
Proof.
  intros Hl Hpre. eapply runs_seq; [by apply op_runs|]. intros h' (H1 & H2 & H3). split; [done|]. split; [done|]. split.
  - split; [by apply dlist_list_empty|]. split; [by apply dlist_list_empty_careful|].
    split; [by apply dlist_list_is_singular|]. intros. by apply dlist_list_is_last.
  - intros z m Hd. by apply (same_outside_dlist _ _ _ _ _ H3).
Qed.

(** Head 10 with the nodes 1 and 2, head 20 with 3, head 30 alone, and 4 free. *)
Definition heap_example : heap :=
  mk_heap (list_to_map [(10, 1); (1, 2); (2, 10); (20, 3); (3, 20); (30, 30); (4, 0)]%Z)
          (list_to_map [(10, 2); (1, 10); (2, 1); (20, 3); (3, 20); (30, 30); (4, 0)]%Z).

Lemma dlist_refines_witness :
  runs (list_cut_position 30 10 1) heap_example (fun h' =>
    dlist h' 10 [2] /\ (forall y m, Some (30, [1]) = Some (y, m) -> dlist h' y m)
    /\ answers h' 10 [2]
    /\ (forall z m, (forall w, w ∈ z :: m -> w ∉ [30; 10; 1; 2]) -> dlist heap_example z m -> dlist h' z m)).
Proof.
  refine (dlist_refines heap_example 10 [1; 2] [] (OpCutPosition 30 1) _ _).
  - split; [by apply (bool_decide_unpack _)|vm_compute; repeat split].
  - split; [split; by eexists|]. split; set_unfold; lia.
Defined.
End DListOps.
