(* ===== verification/DListIter.v ===== *)
(** * container/list.h : the loops over a list

    The macros that walk a list, over the memory of DList: [pos] is the address
    of an element, whose [struct list_head] lies [off] bytes behind it.  The
    body of a loop is any function of the memory and a state.  [safe_loop] and
    [plain_loop] are the rules for the two kinds of loops: which changes a body
    may make to the list while it is walked. *)
From Stdlib Require Import ZArith Lia Bool.
From stdpp Require Import base list numbers gmap.
From S2P Require Import Prelude DList DListOps.
Import DList DListOps.

Module DListIter.

Section Iter.
Context {S : Type}.

Definition load (m : gmap Z Z) (p : Z) : outcome Z := match m !! p with Some v => Done v | None => Undef end.
Definition body : Type := Z -> S -> heap -> outcome (S * heap).

(** ** The elements *)

Definition list_entry (ptr off : Z) : Z := ptr - off.
Definition list_first_entry (ptr off : Z) (h : heap) : outcome Z := let* n := load (h_next h) ptr in Done (list_entry n off).
Definition list_last_entry (ptr off : Z) (h : heap) : outcome Z := let* p := load (h_prev h) ptr in Done (list_entry p off).
Definition list_first_entry_or_null (ptr off : Z) (h : heap) : outcome (option Z) :=
  let* pos := load (h_next h) ptr in Done (if negb (pos =? ptr) then Some (list_entry pos off) else None).
Definition list_next_entry (pos off : Z) (h : heap) : outcome Z := let* n := load (h_next h) (pos + off) in Done (list_entry n off).
Definition list_prev_entry (pos off : Z) (h : heap) : outcome Z := let* p := load (h_prev h) (pos + off) in Done (list_entry p off).
Definition list_prepare_entry (pos head off : Z) : Z := if negb (pos =? 0) then pos else list_entry head off.
Definition list_safe_reset_next (pos off : Z) (h : heap) : outcome Z := list_next_entry pos off h.

(** ** The loops

    [step] is [list_next_entry] or [list_prev_entry]; in the first kind it
    follows [pos] behind the body, in the second it follows [n], which was
    taken in front of it. *)
Fixpoint loop (step : Z -> Z -> heap -> outcome Z) (fuel : nat) (pos head off : Z) (f : body) (s : S) (h : heap) : outcome (S * heap) :=
  if pos + off =? head then Done (s, h)
  else
  match fuel with
  | O => Undef
  | Datatypes.S fuel =>
      let* r := f pos s h in
      let* pos := step pos off r.2 in loop step fuel pos head off f r.1 r.2
  end.

Fixpoint loop_safe (step : Z -> Z -> heap -> outcome Z) (fuel : nat) (pos n head off : Z) (f : body) (s : S) (h : heap) : outcome (S * heap) :=
  if pos + off =? head then Done (s, h)
  else
  match fuel with
  | O => Undef
  | Datatypes.S fuel =>
      let* r := f pos s h in
      let* n' := step n off r.2 in loop_safe step fuel n n' head off f r.1 r.2
  end.

Definition list_for_each_entry (fuel : nat) (head off : Z) (f : body) (s : S) (h : heap) :=
  let* pos := list_first_entry head off h in loop list_next_entry fuel pos head off f s h.
Definition list_for_each_entry_reverse (fuel : nat) (head off : Z) (f : body) (s : S) (h : heap) :=
  let* pos := list_last_entry head off h in loop list_prev_entry fuel pos head off f s h.
Definition list_for_each_entry_continue (fuel : nat) (pos head off : Z) (f : body) (s : S) (h : heap) :=
  let* pos := list_next_entry pos off h in loop list_next_entry fuel pos head off f s h.
Definition list_for_each_entry_continue_reverse (fuel : nat) (pos head off : Z) (f : body) (s : S) (h : heap) :=
  let* pos := list_prev_entry pos off h in loop list_prev_entry fuel pos head off f s h.
Definition list_for_each_entry_from (fuel : nat) (pos head off : Z) (f : body) (s : S) (h : heap) :=
  loop list_next_entry fuel pos head off f s h.
Definition list_for_each_entry_from_reverse (fuel : nat) (pos head off : Z) (f : body) (s : S) (h : heap) :=
  loop list_prev_entry fuel pos head off f s h.
Definition list_for_each_entry_safe (fuel : nat) (head off : Z) (f : body) (s : S) (h : heap) :=
  let* pos := list_first_entry head off h in let* n := list_next_entry pos off h in loop_safe list_next_entry fuel pos n head off f s h.
Definition list_for_each_entry_safe_continue (fuel : nat) (pos head off : Z) (f : body) (s : S) (h : heap) :=
  let* pos := list_next_entry pos off h in let* n := list_next_entry pos off h in loop_safe list_next_entry fuel pos n head off f s h.
Definition list_for_each_entry_safe_from (fuel : nat) (pos head off : Z) (f : body) (s : S) (h : heap) :=
  let* n := list_next_entry pos off h in loop_safe list_next_entry fuel pos n head off f s h.
Definition list_for_each_entry_safe_reverse (fuel : nat) (head off : Z) (f : body) (s : S) (h : heap) :=
  let* pos := list_last_entry head off h in let* n := list_prev_entry pos off h in loop_safe list_prev_entry fuel pos n head off f s h.

(** The loops over the list heads themselves. *)
Definition list_for_each (fuel : nat) (head : Z) (f : body) s h := list_for_each_entry fuel head 0 f s h.
Definition list_for_each_prev (fuel : nat) (head : Z) (f : body) s h := list_for_each_entry_reverse fuel head 0 f s h.
Definition list_for_each_safe (fuel : nat) (head : Z) (f : body) s h := list_for_each_entry_safe fuel head 0 f s h.
Definition list_for_each_prev_safe (fuel : nat) (head : Z) (f : body) s h := list_for_each_entry_safe_reverse fuel head 0 f s h.

(** ** The rules

    Both directions at once: [shape h l] says that the list is [l] in the order
    of the walk. *)
Section Rules.
Context (head off : Z) (field : heap -> gmap Z Z) (shape : heap -> list Z -> Prop).
Context (Hfirst : forall h l, shape h l -> field h !! head = Some (default head (hd_error l)))
  (Hnext : forall h l1 x l2, shape h (l1 ++ x :: l2) -> field h !! x = Some (default head (hd_error l2)))
  (Hhead : forall h l, shape h l -> head ∉ l).

#[local] Abbreviation step := (fun pos off h => let* n := load (field h) (pos + off) in Done (list_entry n off)).

(** What the body does at an element: the elements before it that are still in
    the list, the state, and both behind it. *)
Context (R : Z -> list Z -> S -> list Z -> S -> Prop).
Inductive turns : list Z -> list Z -> S -> list Z -> S -> Prop :=
| turns_nil kept s : turns [] kept s kept s
| turns_cons x l kept s kept1 s1 kept2 s2 : R x kept s kept1 s1 -> turns l kept1 s1 kept2 s2 -> turns (x :: l) kept s kept2 s2.

(** A body of the second kind may take its element out, and do what it wants
    with the elements before it; those behind it stay. *)
Definition safe_body (f : body) : Prop := forall kept x rest s h, shape h (kept ++ x :: rest) ->
  exists s' h' kept', f (x - off) s h = Done (s', h') /\ shape h' (kept' ++ rest) /\ R x kept s kept' s'.

Lemma loop_safe_ok f l : safe_body f -> forall fuel kept s h, shape h (kept ++ l) -> (length l <= fuel)%nat ->
  let pos := default head (hd_error l) in
  let n := default head (hd_error (tl l)) in
  exists s' h' kept', (forall n0, (l <> [] -> n0 = n - off) -> loop_safe step fuel (pos - off) n0 head off f s h = Done (s', h')) /\
    shape h' kept' /\ turns l kept s kept' s'.
Proof.
  intros Hf. induction l as [|x l IH]; intros fuel kept s h Hs Hl pos n.
  - exists s, h, kept. rewrite app_nil_r in Hs. split; [|split; [done|constructor]]. intros n0 _. unfold pos. cbn [hd_error default from_option Datatypes.id].
    destruct fuel; cbn [loop_safe]; by rewrite Z.sub_add, Z.eqb_refl.
  - cbn [length] in Hl. destruct fuel as [|fuel]; [lia|]. unfold pos. cbn [hd_error default from_option Datatypes.id].
    destruct (Hf kept x l s h Hs) as (s1 & h1 & kept1 & E1 & Hs1 & HR).
    destruct (IH fuel kept1 s1 h1 Hs1 ltac:(lia)) as (s2 & h2 & kept2 & E2 & Hs2 & Ht).
    exists s2, h2, kept2. split; [|split; [done|by econstructor]]. intros n0 Hn0. rewrite (Hn0 ltac:(done)). cbn [loop_safe].
    assert (x <> head) as Hne by (intros ->; apply (Hhead h _ Hs), elem_of_app; right; left).
    rewrite Z.sub_add, (proj2 (Z.eqb_neq x head)), E1 by done. cbn [obind fst snd tl]. rewrite Z.sub_add.
    unfold n. cbn [tl]. assert (field h1 !! default head (hd_error l) = Some (default head (hd_error (tl l))) \/ (l = [] /\ is_Some (field h1 !! head))) as [E|[-> [q Eq]]].
    { destruct l as [|y l]; [right|left; by apply (Hnext h1 kept1)]. split; [done|]. rewrite app_nil_r in Hs1. rewrite (Hfirst h1 _ Hs1). by eexists. }
    + unfold load. rewrite E. cbn [obind]. apply E2. done.
    + cbn [hd_error default from_option Datatypes.id]. unfold load. rewrite Eq. cbn [obind]. apply E2. done.
Qed.

(** A body of the first kind leaves its element in the list. *)
Definition plain_body (f : body) : Prop := forall kept x rest s h, shape h (kept ++ x :: rest) ->
  exists s' h' kept', f (x - off) s h = Done (s', h') /\ shape h' (kept' ++ x :: rest) /\ R x kept s (kept' ++ [x]) s'.

Lemma loop_ok f l : plain_body f -> forall fuel kept s h, shape h (kept ++ l) -> (length l <= fuel)%nat ->
  exists s' h' kept', loop step fuel (default head (hd_error l) - off) head off f s h = Done (s', h') /\
    shape h' kept' /\ turns l kept s kept' s'.
Proof.
  intros Hf. induction l as [|x l IH]; intros fuel kept s h Hs Hl.
  - exists s, h, kept. rewrite app_nil_r in Hs. split; [|split; [done|constructor]]. cbn [hd_error default from_option Datatypes.id].
    destruct fuel; cbn [loop]; by rewrite Z.sub_add, Z.eqb_refl.
  - cbn [length] in Hl. destruct fuel as [|fuel]; [lia|]. cbn [hd_error default from_option Datatypes.id].
    destruct (Hf kept x l s h Hs) as (s1 & h1 & kept1 & E1 & Hs1 & HR).
    pose proof (Hnext h1 kept1 x l Hs1) as En. replace (kept1 ++ x :: l) with ((kept1 ++ [x]) ++ l) in Hs1 by (by rewrite <- app_assoc).
    destruct (IH fuel _ s1 h1 Hs1 ltac:(lia)) as (s2 & h2 & kept2 & E2 & Hs2 & Ht).
    exists s2, h2, kept2. split; [|split; [done|by econstructor]]. cbn [loop].
    assert (x <> head) as Hne by (intros ->; apply (Hhead h _ Hs), elem_of_app; right; left).
    rewrite Z.sub_add, (proj2 (Z.eqb_neq x head)), E1 by done. cbn [obind fst snd]. unfold load. rewrite En. exact E2.
Qed.
End Rules.

(** *** Forwards and backwards *)

Section Walks.
Context (head off : Z).

Definition backwards (h : heap) (l : list Z) : Prop := dlist h head (reverse l).

Lemma dlist_next h l1 x l2 : dlist h head (l1 ++ x :: l2) -> h_next h !! x = Some (default head (hd_error l2)).
Proof. intros H%dlist_rotate%dlist_ends. rewrite (proj1 H). by destruct l2. Qed.

Lemma backwards_first h l : backwards h l -> h_prev h !! head = Some (default head (hd_error l)).
Proof. intros H%dlist_ends. rewrite (proj2 H). destruct l as [|x l]; [done|]. rewrite reverse_cons. by rewrite list.last_snoc. Qed.

Lemma backwards_next h l1 x l2 : backwards h (l1 ++ x :: l2) -> h_prev h !! x = Some (default head (hd_error l2)).
Proof.
  unfold backwards. rewrite reverse_app, reverse_cons, <- app_assoc. intros H%dlist_rotate%dlist_ends. rewrite (proj2 H). f_equal.
  destruct l2 as [|y l2]; [by rewrite reverse_nil, list.last_snoc|].
  rewrite reverse_cons. change (head :: reverse l2 ++ [y]) with ((head :: reverse l2) ++ [y]). by rewrite app_assoc, list.last_snoc.
Qed.

Lemma dlist_head h l : dlist h head l -> head ∉ l.
Proof. intros [Hn _]. by apply NoDup_cons in Hn as [? _]. Qed.
Lemma backwards_head h l : backwards h l -> head ∉ l.
Proof. intros Hd%dlist_head. by rewrite elem_of_reverse in Hd. Qed.

Context (R : Z -> list Z -> S -> list Z -> S -> Prop) (f : body).

(** [list_for_each_entry_safe]: the body sees every element in order, and may
    take it out. *)
Lemma safe_loop fuel l s h : safe_body off (fun h => dlist h head) R f -> dlist h head l -> (length l <= fuel)%nat ->
  exists s' h' kept, list_for_each_entry_safe fuel head off f s h = Done (s', h') /\ dlist h' head kept /\ turns R l [] s kept s'.
Proof.
  intros Hf Hd Hl. destruct (loop_safe_ok head off h_next (fun h => dlist h head) (fun h l H => proj1 (dlist_ends h head l H)) dlist_next dlist_head
    R f l Hf fuel [] s h Hd Hl) as (s' & h' & kept & E & Hs & Ht).
  exists s', h', kept. split; [|done]. unfold list_for_each_entry_safe, list_first_entry, list_next_entry.
  destruct (dlist_ends h head l Hd) as [Ef _]. unfold load at 1. rewrite Ef. cbn [obind].
  change (list_entry ?a ?b) with (a - b). rewrite Z.sub_add. destruct l as [|x l].
  - unfold load at 1. cbn [hd_error default from_option Datatypes.id] in *. rewrite Ef. cbn [obind]. by apply E.
  - cbn [hd_error default from_option Datatypes.id] in *. unfold load at 1. rewrite (dlist_next h [] x l Hd). cbn [obind]. by apply E.
Qed.

Lemma safe_loop_reverse fuel l s h : safe_body off backwards R f -> backwards h l -> (length l <= fuel)%nat ->
  exists s' h' kept, list_for_each_entry_safe_reverse fuel head off f s h = Done (s', h') /\ backwards h' kept /\ turns R l [] s kept s'.
Proof.
  intros Hf Hd Hl. destruct (loop_safe_ok head off h_prev backwards backwards_first backwards_next backwards_head
    R f l Hf fuel [] s h Hd Hl) as (s' & h' & kept & E & Hs & Ht).
  exists s', h', kept. split; [|done]. unfold list_for_each_entry_safe_reverse, list_last_entry, list_prev_entry.
  pose proof (backwards_first h l Hd) as Ef. unfold load at 1. rewrite Ef. cbn [obind].
  change (list_entry ?a ?b) with (a - b). rewrite Z.sub_add. destruct l as [|x l].
  - unfold load at 1. cbn [hd_error default from_option Datatypes.id] in *. rewrite Ef. cbn [obind]. by apply E.
  - cbn [hd_error default from_option Datatypes.id] in *. unfold load at 1. rewrite (backwards_next h [] x l Hd). cbn [obind]. by apply E.
Qed.

(** [list_for_each_entry], when the body leaves the element in its place. *)
Lemma plain_loop fuel l s h : plain_body off (fun h => dlist h head) R f -> dlist h head l -> (length l <= fuel)%nat ->
  exists s' h' kept, list_for_each_entry fuel head off f s h = Done (s', h') /\ dlist h' head kept /\ turns R l [] s kept s'.
Proof.
  intros Hf Hd Hl. destruct (loop_ok head off h_next (fun h => dlist h head) dlist_next dlist_head R f l Hf fuel [] s h Hd Hl) as (s' & h' & kept & E & Hs & Ht).
  exists s', h', kept. split; [|done]. unfold list_for_each_entry, list_first_entry.
  destruct (dlist_ends h head l Hd) as [Ef _]. unfold load. rewrite Ef. cbn [obind]. exact E.
Qed.

Lemma plain_loop_reverse fuel l s h : plain_body off backwards R f -> backwards h l -> (length l <= fuel)%nat ->
  exists s' h' kept, list_for_each_entry_reverse fuel head off f s h = Done (s', h') /\ backwards h' kept /\ turns R l [] s kept s'.
Proof.
  intros Hf Hd Hl. destruct (loop_ok head off h_prev backwards backwards_next backwards_head R f l Hf fuel [] s h Hd Hl) as (s' & h' & kept & E & Hs & Ht).
  exists s', h', kept. split; [|done]. unfold list_for_each_entry_reverse, list_last_entry.
  unfold load. rewrite (backwards_first h l Hd). cbn [obind]. exact E.
Qed.
End Walks.
End Iter.

(** ** Taking elements out *)

(** A program as a function of the memory. *)
Fixpoint exec (c : prog) (h : heap) : outcome heap :=
  match c with
  | Stop => Done h
  | LoadNext p k => match h_next h !! p with Some v => exec (k v) h | None => Undef end
  | LoadPrev p k => match h_prev h !! p with Some v => exec (k v) h | None => Undef end
  | StoreNext p v k => match h_next h !! p with Some _ => exec k (store_next p v h) | None => Undef end
  | StorePrev p v k => match h_prev h !! p with Some _ => exec k (store_prev p v h) | None => Undef end
  end.

Lemma runs_exec c h Q : runs c h Q -> exists h', exec c h = Done h' /\ Q h'.
Proof.
  intros (n & h' & E & HQ). exists h'. split; [|done]. clear HQ. revert c h E. induction n as [|n IH]; intros c h E; [by injection E as -> ->|].
  destruct c as [|p k|p k|p v k|p v k]; cbn [psteps pstep exec] in *; [by apply (IH Stop)|..];
    (destruct (_ !! p) eqn:Ep; [|done]; cbn in E; by apply IH).
Qed.

Section Remove.
Context (p : Z -> bool).

(** Every element is recorded, and those with [p] are taken out. *)
Definition remove_body (off : Z) : body (S := list Z) := fun pos seen h =>
  if p (pos + off) then let* h := exec (list_del (pos + off)) h in Done (seen ++ [pos + off], h) else Done (seen ++ [pos + off], h).

Definition removed (x : Z) (kept seen kept' seen' : list Z) : Prop :=
  kept' = kept ++ (if p x then [] else [x]) /\ seen' = seen ++ [x].

Lemma remove_turns l kept seen kept' seen' : turns removed l kept seen kept' seen' -> kept' = kept ++ filter (fun x => p x = false) l /\ seen' = seen ++ l.
Proof.
  induction 1 as [|x l kept seen kept1 seen1 kept2 seen2 [-> ->] _ [-> ->]]; [by rewrite !app_nil_r|].
  rewrite <- !app_assoc. split; [|done]. f_equal. destruct (p x) eqn:E; [by rewrite filter_cons_False by (by rewrite E)|by rewrite filter_cons_True].
Qed.

(** The safe loop takes the elements with [p] out and keeps the others in
    order, forwards and backwards. *)
Lemma remove_safe fuel head off l h : dlist h head l -> (length l <= fuel)%nat ->
  exists h', list_for_each_entry_safe fuel head off (remove_body off) [] h = Done (l, h') /\ dlist h' head (filter (fun x => p x = false) l).
Proof.
  intros Hd Hl. destruct (safe_loop head off removed (remove_body off) fuel l [] h) as (s & h' & kept & E & Hk & [-> ->]%remove_turns); [|done..|].
  - intros kept x rest seen h1 Hs. unfold remove_body. rewrite Z.sub_add. destruct (p x) eqn:Ep.
    + destruct (runs_exec _ _ _ (dlist_list_del h1 head kept x rest Hs)) as (h2 & -> & Hd2 & _).
      exists (seen ++ [x]), h2, kept. split; [done|]. split; [done|]. split; [|done]. by rewrite Ep, app_nil_r.
    + exists (seen ++ [x]), h1, (kept ++ [x]). split; [done|]. rewrite <- app_assoc. split; [done|]. split; [|done]. by rewrite Ep.
  - exists h'. by split.
Qed.

Lemma remove_safe_reverse fuel head off l h : dlist h head l -> (length l <= fuel)%nat ->
  exists h', list_for_each_entry_safe_reverse fuel head off (remove_body off) [] h = Done (reverse l, h') /\ dlist h' head (filter (fun x => p x = false) l).
Proof.
  intros Hd Hl. destruct (safe_loop_reverse head off removed (remove_body off) fuel (reverse l) [] h) as (s & h' & kept & E & Hk & [-> ->]%remove_turns);
    [|by unfold backwards; rewrite reverse_involutive|by rewrite length_reverse|].
  - intros kept x rest seen h1 Hs. unfold remove_body. rewrite Z.sub_add. unfold backwards in *. rewrite reverse_app, reverse_cons, <- app_assoc in Hs. destruct (p x) eqn:Ep.
    + destruct (runs_exec _ _ _ (dlist_list_del h1 head (reverse rest) x (reverse kept) Hs)) as (h2 & -> & Hd2 & _).
      exists (seen ++ [x]), h2, kept. split; [done|]. rewrite reverse_app. split; [done|]. split; [|done]. by rewrite Ep, app_nil_r.
    + exists (seen ++ [x]), h1, (kept ++ [x]). split; [done|]. rewrite !reverse_app, reverse_singleton. split; [by cbn [app]|]. split; [|done]. by rewrite Ep.
  - exists h'. split; [done|]. unfold backwards in Hk. cbn [app] in Hk. rewrite filter_reverse, reverse_involutive in Hk. done.
Qed.

(** The other loop follows the pointer of an element that was taken out, which
    is no list node any more. *)
Lemma remove_plain fuel head off x l h : dlist h head (x :: l) -> p x = true -> head <> LIST_POISON1 ->
  h_next h !! LIST_POISON1 = None -> h_prev h !! LIST_POISON1 = None ->
  list_for_each_entry fuel head off (remove_body off) [] h = Undef.
Proof.
  intros Hd Hp Hne Hno Hnop. unfold list_for_each_entry, list_first_entry. destruct (dlist_ends h head _ Hd) as [Ef _].
  unfold load. rewrite Ef. cbn [obind hd_error default from_option Datatypes.id]. change (list_entry x off) with (x - off).
  assert (x <> head) as Hxh by (intros ->; apply (dlist_head head h _ Hd); left).
  destruct fuel as [|fuel]; cbn [loop]; rewrite Z.sub_add, (proj2 (Z.eqb_neq x head)) by done; [done|].
  unfold remove_body at 1. rewrite Z.sub_add, Hp. destruct (dlist_unlinked h head [] x l Hd) as (a & b & Ea & Eb & Hx & Ha & Hb & _ & _).
  assert (exec (list_del x) h = Done (del_heap x a b h)) as ->.
  { destruct (runs_exec _ _ _ (del_runs x a b h (fun h' => h' = del_heap x a b h) Hx Ha Hb Ea Eb eq_refl)) as (h' & -> & ->). done. }
  cbn [obind fst snd]. unfold list_next_entry. rewrite Z.sub_add. unfold load. cbn [h_next del_heap store_prev store_next]. rewrite lookup_insert_eq.
  cbn [obind]. change (list_entry LIST_POISON1 off) with (LIST_POISON1 - off).
  assert (h_next (del_heap x a b h) !! LIST_POISON1 = None) as Hno'.
  { cbn [h_next del_heap store_prev store_next]. rewrite !lookup_insert_ne; [done|intros ->|intros ->]; [destruct Ha as [[? Ha] _]|destruct Hx as [[? Hx] _]]; congruence. }
  assert (h_prev (del_heap x a b h) !! LIST_POISON1 = None) as Hnop'.
  { cbn [h_prev del_heap store_prev store_next]. rewrite !lookup_insert_ne; [done|intros ->|intros ->]; [destruct Hb as [_ [? Hb]]|destruct Hx as [_ [? Hx]]]; congruence. }
  destruct fuel as [|fuel]; cbn [loop]; rewrite Z.sub_add, (proj2 (Z.eqb_neq LIST_POISON1 head)) by (by intros E; apply Hne); [done|].
  unfold remove_body at 1. rewrite Z.sub_add. destruct (p LIST_POISON1).
  - unfold list_del, __list_del_entry. cbn [exec]. by rewrite Hnop'.
  - cbn [obind fst snd]. unfold list_next_entry, load. by rewrite Hno'.
Qed.
End Remove.
End DListIter.
