(* ===== verification/HList.v ===== *)
(** * container/list.h : lists with a one-word head

    The [hlist] half of list.h, on a memory of words, where a [pprev] is what
    it is in C: the address of the word that leads to the node.  The target
    is the 32-bit one (hashtbl.h needs asm/hash.h, which only the Cortex-M
    port has): the node at [n] has its [next] at [n] and its [pprev] at
    [n + 4].  [hlist_refines]: on well-formed lists the operations are those
    on sequences. *)
From Stdlib Require Import ZArith Lia Bool.
From stdpp Require Import base list numbers gmap.
From S2P Require Import Prelude.

Module HList.

(** ** Memory *)

(** The mapped words and their values. *)
Abbreviation mem := (gmap Z Z).

Definition ld (p : Z) (m : mem) : outcome Z :=
  match m !! p with Some v => Done v | None => Undef end.
Definition st (p v : Z) (m : mem) : outcome mem :=
  match m !! p with Some _ => Done (<[p := v]> m) | None => Undef end.

Definition next (n : Z) : Z := n.
Definition pprev (n : Z) : Z := n + 4.
Definition first (h : Z) : Z := h.
Definition LIST_POISON1 : Z := 0.
Definition LIST_POISON2 : Z := 0.

(** ** The operations *)

Definition INIT_HLIST_HEAD (h : Z) (m : mem) : outcome mem := st (first h) 0 m.

Definition INIT_HLIST_NODE (h : Z) (m : mem) : outcome mem :=
  let* m := st (next h) 0 m in st (pprev h) 0 m.

Definition hlist_unhashed (h : Z) (m : mem) : outcome bool :=
  let* v := ld (pprev h) m in Done (v =? 0).

Definition hlist_empty (h : Z) (m : mem) : outcome bool :=
  let* v := ld (first h) m in Done (v =? 0).

Definition __hlist_del (n : Z) (m : mem) : outcome mem :=
  let* nx := ld (next n) m in
  let* pp := ld (pprev n) m in
  let* m := st pp nx m in
  if negb (nx =? 0) then st (pprev nx) pp m else Done m.

Definition hlist_del (n : Z) (m : mem) : outcome mem :=
  let* m := __hlist_del n m in
  let* m := st (next n) LIST_POISON1 m in
  st (pprev n) LIST_POISON2 m.

Definition hlist_del_init (n : Z) (m : mem) : outcome mem :=
  let* u := hlist_unhashed n m in
  if negb u then
    let* m := __hlist_del n m in INIT_HLIST_NODE n m
  else Done m.

Definition hlist_add_head (n h : Z) (m : mem) : outcome mem :=
  let* f := ld (first h) m in
  let* m := st (next n) f m in
  let* m := (if negb (f =? 0) then st (pprev f) (next n) m else Done m) in
  let* m := st (first h) n m in
  st (pprev n) (first h) m.

Definition hlist_add_before (n nx : Z) (m : mem) : outcome mem :=
  let* pp := ld (pprev nx) m in
  let* m := st (pprev n) pp m in
  let* m := st (next n) nx m in
  let* m := st (pprev nx) (next n) m in
  let* pp := ld (pprev n) m in
  st pp n m.

Definition hlist_add_behind (n prev : Z) (m : mem) : outcome mem :=
  let* nx := ld (next prev) m in
  let* m := st (next n) nx m in
  let* m := st (next prev) n m in
  let* m := st (pprev n) (next prev) m in
  let* nx := ld (next n) m in
  if negb (nx =? 0) then
    let* nx := ld (next n) m in st (pprev nx) (next n) m
  else Done m.

Definition hlist_add_fake (n : Z) (m : mem) : outcome mem := st (pprev n) (next n) m.

Definition hlist_fake (h : Z) (m : mem) : outcome bool :=
  let* v := ld (pprev h) m in Done (v =? next h).

Definition hlist_is_singular_node (n h : Z) (m : mem) : outcome bool :=
  let* nx := ld (next n) m in
  if nx =? 0 then let* pp := ld (pprev n) m in Done (pp =? first h) else Done false.

Definition hlist_move_list (old newn : Z) (m : mem) : outcome mem :=
  let* f := ld (first old) m in
  let* m := st (first newn) f m in
  let* f := ld (first newn) m in
  let* m := (if negb (f =? 0)
             then let* f := ld (first newn) m in st (pprev f) (first newn) m
             else Done m) in
  st (first old) 0 m.

(** [for (pos = pos; pos; pos = pos->next)] with a body that may leave the
    loop, with the value of [pos] at the end ([NULL] when the list has). *)
Fixpoint hlist_for_each {S} (fuel : nat) (pos : Z) (body : Z -> S -> outcome (bool * S))
    (m : mem) (s : S) : outcome (Z * S) :=
  match fuel with
  | O => Undef
  | Datatypes.S fuel =>
      if pos =? 0 then Done (0, s)
      else
        let* r := body pos s in
        if r.1 then Done (pos, r.2)
        else
          let* nx := ld (next pos) m in
          hlist_for_each fuel nx body m r.2
  end.

(** ** Well-formed lists *)

Definition link (m : mem) (a n : Z) : Prop :=
  m !! a = Some n /\ n <> 0 /\ m !! pprev n = Some a.

Fixpoint path (m : mem) (c : list Z) : Prop :=
  match c with
  | a :: (b :: _) as c => link m a b /\ path m c
  | _ => True
  end.

(** The word whose value leads to what follows [l]. *)
Definition endp (h : Z) (l : list Z) : Z := default h (last l).

(** The words of the list are distinct. *)
Definition sep (h : Z) (l : list Z) : Prop :=
  NoDup (h :: l) /\ forall x y, x ∈ h :: l -> y ∈ l -> x <> pprev y.

(** The list with head [h] and the nodes [l]. *)
Definition hlist (m : mem) (h : Z) (l : list Z) : Prop :=
  sep h l /\ path m (h :: l) /\ m !! endp h l = Some 0.

Definition word_of (h : Z) (l : list Z) (x : Z) : Prop := x ∈ h :: l \/ exists y, y ∈ l /\ x = pprev y.

Definition same_outside (W : Z -> Prop) (m m' : mem) : Prop :=
  forall x, ~ W x -> m' !! x = m !! x.

(** A node that can be written. *)
Definition is_node (m : mem) (n : Z) : Prop := n <> 0 /\ is_Some (m !! n) /\ is_Some (m !! pprev n).

Inductive op :=
| AddHead (n : Z) | AddBefore (n nx : Z) | AddBehind (n prev : Z) | Del (n : Z) | DelInit (n : Z).

Definition op_run (h : Z) (o : op) (m : mem) : outcome mem :=
  match o with
  | AddHead n => hlist_add_head n h m
  | AddBefore n nx => hlist_add_before n nx m
  | AddBehind n prev => hlist_add_behind n prev m
  | Del n => hlist_del n m
  | DelInit n => hlist_del_init n m
  end.

(** What the operation does to the sequence. *)
Definition op_spec (o : op) (l : list Z) : list Z :=
  match o with
  | AddHead n => n :: l
  | AddBefore n nx => l ≫= (fun z => if decide (z = nx) then [n; z] else [z])
  | AddBehind n prev => l ≫= (fun z => if decide (z = prev) then [z; n] else [z])
  | Del n | DelInit n => filter (fun z => z <> n) l
  end.

Definition op_node (o : op) : Z :=
  match o with AddHead n | AddBefore n _ | AddBehind n _ | Del n | DelInit n => n end.

(** When the operation may be used. *)
Definition op_pre (m : mem) (h : Z) (l : list Z) (o : op) : Prop :=
  match o with
  | AddHead n => is_node m n /\ sep h (n :: l)
  | AddBefore n nx => is_node m n /\ sep h (n :: l) /\ nx ∈ l
  | AddBehind n prev => is_node m n /\ sep h (n :: l) /\ prev ∈ l
  | Del n | DelInit n => n ∈ l
  end.

(** ** Lemmas on memories and paths *)

Lemma ld_ok p v m : m !! p = Some v -> ld p m = Done v.
Proof. unfold ld. by intros ->. Qed.
Lemma st_ok p v m : is_Some (m !! p) -> st p v m = Done (<[p := v]> m).
Proof. unfold st. by intros [? ->]. Qed.
Lemma insert_is_Some (m : mem) p q v : is_Some (m !! q) -> is_Some (<[p := v]> m !! q).
Proof. intros. apply lookup_insert_is_Some'. by right. Qed.
#[local] Hint Resolve insert_is_Some : core.

Lemma hpath_app m l1 a l2 : path m (l1 ++ a :: l2) <-> path m (l1 ++ [a]) /\ path m (a :: l2).
Proof.
  induction l1 as [|x l1 IH]; simpl; [tauto|].
  destruct l1 as [|y l1]; simpl in *; [tauto|]. rewrite IH. tauto.
Qed.

Lemma hpath_cons_app m h l1 n l2 :
  path m (h :: l1 ++ n :: l2) <-> path m (h :: l1) /\ link m (endp h l1) n /\ path m (n :: l2).
Proof.
  revert h. induction l1 as [|x l1 IH]; intros h; [unfold endp; simpl; tauto|].
  change (h :: (x :: l1) ++ n :: l2) with ([h] ++ x :: l1 ++ n :: l2).
  rewrite hpath_app, IH. replace (endp h (x :: l1)) with (endp x l1).
  - simpl. tauto.
  - unfold endp. rewrite last_cons. by destruct (last l1).
Qed.

(** A store to a word that the path does not read. *)
Lemma hpath_ext m m' l h :
  (forall x, x ∈ removelast (h :: l) -> m' !! x = m !! x) ->
  (forall x, x ∈ l -> m' !! pprev x = m !! pprev x) ->
  path m (h :: l) -> path m' (h :: l).
Proof.
  revert h. induction l as [|x l IH]; intros h Hn Hp H; [done|].
  destruct H as [(H1 & H2 & H3) H]. split.
  - split_and!; [rewrite Hn; [done|]|done|rewrite Hp; [done|]]; simpl; constructor.
  - apply IH; [| |done]; intros; [apply Hn|apply Hp]; simpl; by constructor.
Qed.

Lemma endp_elem h l : endp h l ∈ h :: l.
Proof.
  unfold endp. destruct (last l) as [z|] eqn:E; [|constructor].
  apply last_Some in E as [k ->]. simpl. set_solver.
Qed.
Lemma endp_app h l1 n l2 : endp h (l1 ++ n :: l2) = endp n l2.
Proof. unfold endp. rewrite last_app_cons, last_cons. by destruct (last l2). Qed.
Lemma removelast_endp h l : NoDup (h :: l) -> forall x, x ∈ removelast (h :: l) -> x ∈ h :: l /\ x <> endp h l.
Proof.
  intros Hn x Hx. unfold endp.
  destruct (last l) as [z|] eqn:E.
  - apply last_Some in E as [k ->]. change (h :: k ++ [z]) with ((h :: k) ++ [z]) in *.
    rewrite removelast_app in Hx by done. simpl removelast in Hx. rewrite app_nil_r in Hx.
    apply NoDup_app in Hn as (_ & Hz & _). split; [set_solver|]. intros ->. apply (Hz z); [done|constructor].
  - apply last_None in E as ->. simpl in Hx. by apply elem_of_nil in Hx.
Qed.

Lemma sep_app h l1 l2 : sep h (l1 ++ l2) -> sep h l1 /\ (forall x, x ∈ l2 -> x ∉ h :: l1).
Proof.
  intros [H1 H2]. change (h :: l1 ++ l2) with ((h :: l1) ++ l2) in H1. apply NoDup_app in H1 as (Ha & Hb & _).
  split; [split; [done|]|].
  - intros x y Hx Hy. apply H2; set_solver.
  - intros x Hx Hx'. by apply (Hb x).
Qed.

Lemma sep_perm h l k : l ≡ₚ k -> sep h l -> sep h k.
Proof.
  intros Hp [H1 H2]. split; [by rewrite <- Hp|]. intros x y. rewrite <- Hp. apply H2.
Qed.
Lemma sep_remove h l1 n l2 : sep h (l1 ++ n :: l2) -> sep h (l1 ++ l2).
Proof.
  intros [H1 H2]. split.
  - eapply sublist_NoDup; [exact H1|]. change (h :: l1 ++ l2) with ((h :: l1) ++ l2).
    change (h :: l1 ++ n :: l2) with ((h :: l1) ++ n :: l2).
    apply sublist_app; [done|]. by constructor.
  - intros x y Hx Hy. apply H2; set_solver.
Qed.

(** A list in a memory that agrees on its words. *)
Lemma hlist_ext m m' h l :
  (forall x, word_of h l x -> m' !! x = m !! x) -> hlist m h l -> hlist m' h l.
Proof.
  intros Hw (H1 & H2 & H3). split; [done|]. split.
  - eapply hpath_ext; [| |exact H2].
    + intros x Hx. apply Hw. left. destruct H1 as [H1 _]. by apply (removelast_endp h l).
    + intros x Hx. apply Hw. right. eauto.
  - rewrite Hw; [done|]. left. apply endp_elem.
Qed.

Lemma same_outside_hlist W m m' h l :
  same_outside W m m' -> (forall x, word_of h l x -> ~ W x) -> hlist m h l -> hlist m' h l.
Proof. intros Hs Hd. apply hlist_ext. intros x Hx. by apply Hs, Hd. Qed.

Definition after (l2 : list Z) : Z := default 0 (head l2).

Lemma link_next m h l1 l2 : path m (h :: l1 ++ l2) -> m !! endp h (l1 ++ l2) = Some 0 -> m !! endp h l1 = Some (after l2).
Proof.
  intros H H0. destruct l2 as [|n l2]; [by rewrite app_nil_r in H0|].
  apply hpath_cons_app in H as (_ & [H _] & _). done.
Qed.

Lemma head_elem (l2 : list Z) y : head l2 = Some y -> y ∈ l2.
Proof. destruct l2; simpl; intros; simplify_eq. constructor. Qed.

(** ** A node between [l1] and [l2] *)

Section Middle.
Context (h : Z) (l1 : list Z) (n : Z) (l2 : list Z).
Hypothesis Hs : sep h (l1 ++ n :: l2).

(** The words that change when the node is put in or taken out. *)
Definition touched (x : Z) : Prop :=
  x = n \/ x = endp h l1 \/ x = pprev n \/ exists y, head l2 = Some y /\ x = pprev y.

Context (m m' : mem).
Hypothesis Hm : forall x, ~ touched x -> m' !! x = m !! x.

Lemma middle_nodup : NoDup (h :: l1) /\ NoDup (n :: l2) /\ forall x, x ∈ n :: l2 -> x ∉ h :: l1.
Proof.
  destruct Hs as [H _]. change (h :: l1 ++ n :: l2) with ((h :: l1) ++ n :: l2) in H.
  apply NoDup_app in H as (? & H & ?). split_and!; [done|done|]. intros x Hx Hx'. by apply (H x).
Qed.

(** Words of the two kinds are different. *)
Lemma middle_next_ne x y : x ∈ h :: l1 ++ n :: l2 -> y ∈ l1 ++ n :: l2 -> x <> pprev y.
Proof. apply Hs. Qed.

Lemma untouched_next x : x ∈ h :: l1 ++ l2 -> x <> n -> x <> endp h l1 -> ~ touched x.
Proof.
  intros Hx Hn He [->|[->|[->|(y & Hy%head_elem & ->)]]]; [done|done| |].
  - apply (middle_next_ne (pprev n) n); [set_solver|set_solver|done].
  - apply (middle_next_ne (pprev y) y); [set_solver|set_solver|done].
Qed.

Lemma untouched_pprev x : x ∈ l1 ++ tail l2 -> ~ touched (pprev x).
Proof.
  destruct middle_nodup as (_ & [Hn2 Hd]%NoDup_cons & Hd2).
  assert (x ∈ l1 ++ tail l2 -> x ∈ l1 ++ n :: l2) as Hin by (destruct l2; set_solver).
  intros Hx [E|[E|[E|(y & Hy & E)]]].
  - symmetry in E. revert E. apply middle_next_ne; [set_solver|auto].
  - symmetry in E. revert E. apply middle_next_ne; [|auto]. pose proof (endp_elem h l1). set_solver.
  - unfold pprev in E. assert (x = n) as -> by lia. apply elem_of_app in Hx as [?|?].
    + apply (Hd2 n); [constructor|set_solver].
    + apply Hn2. destruct l2; set_solver.
  - unfold pprev in E. assert (x = y) as -> by lia. apply elem_of_app in Hx as [?|?].
    + apply (Hd2 y); [apply head_elem in Hy; set_solver|set_solver].
    + destruct l2; simplify_eq/=. apply NoDup_cons in Hd as [? _]. done.
Qed.

Lemma path_prefix : path m (h :: l1) -> path m' (h :: l1).
Proof.
  destruct middle_nodup as (H1 & _ & Hd). apply hpath_ext.
  - intros x Hx. apply removelast_endp in Hx as [Hx He]; [|done]. apply Hm, untouched_next; [set_solver| |done].
    intros ->. apply (Hd n); [constructor|done].
  - intros x Hx. apply Hm, untouched_pprev. set_solver.
Qed.

Lemma path_suffix z k : l2 = z :: k ->
  path m (z :: k) -> path m' (z :: k) /\ m' !! endp z k = m !! endp z k.
Proof.
  destruct middle_nodup as (_ & [Hn2 _]%NoDup_cons & Hd). intros E.
  assert (forall x, x ∈ z :: k -> m' !! x = m !! x) as Hsame.
  { intros x Hx. rewrite <- E in Hx. apply Hm, untouched_next; [set_solver|by intros ->|].
    intros ->. apply (Hd (endp h l1)); [set_solver|apply endp_elem]. }
  split; [|apply Hsame, endp_elem]. revert H. apply hpath_ext.
  - intros x Hx. apply Hsame.
    destruct middle_nodup as (_ & [_ Hn]%NoDup_cons & _). rewrite E in Hn. by apply removelast_endp in Hx as [? _].
  - intros x Hx. apply Hm, untouched_pprev. rewrite E. set_solver.
Qed.

Lemma touched_word x : touched x -> word_of h (l1 ++ n :: l2) x.
Proof.
  unfold word_of. intros [->|[->|[->|(y & Hy%head_elem & ->)]]].
  - left. set_solver.
  - left. pose proof (endp_elem h l1). set_solver.
  - right. exists n. set_solver.
  - right. exists y. set_solver.
Qed.

(** A memory that differs by the node put in. *)
Lemma hlist_insert :
  hlist m h (l1 ++ l2) -> n <> 0 ->
  m' !! n = Some (after l2) -> m' !! endp h l1 = Some n -> m' !! pprev n = Some (endp h l1) ->
  (forall x, head l2 = Some x -> m' !! pprev x = Some n) ->
  hlist m' h (l1 ++ n :: l2) /\ same_outside (word_of h (l1 ++ n :: l2)) m m'.
Proof.
  intros (_ & Hp & Hz) Hn0 Hn Hpn Hpp Hx. split; [|intros x Hw; apply Hm; by intros ?%touched_word].
  split; [done|]. rewrite endp_app, hpath_cons_app.
  pose proof path_prefix as HP. pose proof path_suffix as HS. clear Hs Hm.
  destruct l2 as [|z k].
  - rewrite app_nil_r in *. split_and!; [by apply HP|by split_and!|done|exact Hn].
  - apply hpath_cons_app in Hp as (Hp1 & Hlz & Hp). rewrite endp_app in Hz.
    replace (endp n (z :: k)) with (endp z k) by (unfold endp; rewrite last_cons; by destruct (last k)).
    destruct (HS z k eq_refl Hp) as [Hp2 ->].
    split_and!; [by apply HP|by split_and!| |done].
    split; [|done]. split_and!; [done|apply Hlz|by apply Hx].
Qed.

(** A memory that differs by the node taken out. *)
Lemma hlist_remove :
  hlist m h (l1 ++ n :: l2) ->
  m' !! endp h l1 = Some (after l2) ->
  (forall x, head l2 = Some x -> m' !! pprev x = Some (endp h l1)) ->
  hlist m' h (l1 ++ l2) /\ same_outside (word_of h (l1 ++ n :: l2)) m m'.
Proof.
  intros (_ & Hp & Hz) Hpn Hx. split; [|intros x Hw; apply Hm; by intros ?%touched_word].
  split; [by eapply sep_remove|]. apply hpath_cons_app in Hp as (Hp1 & Hln & Hp2). rewrite endp_app in Hz.
  pose proof path_prefix as HP. pose proof path_suffix as HS. clear Hs Hm.
  destruct l2 as [|z k].
  - rewrite app_nil_r. split; [by apply HP|done].
  - destruct Hp2 as [Hlz Hp2].
    replace (endp n (z :: k)) with (endp z k) in Hz by (unfold endp; rewrite last_cons; by destruct (last k)).
    destruct (HS z k eq_refl Hp2) as [Hp3 Hz3].
    rewrite endp_app, Hz3, hpath_cons_app.
    split_and!; [by apply HP| |done|done].
    split_and!; [done|apply Hlz|by apply Hx].
Qed.
End Middle.

(** ** The operations *)

(** Inequalities of the words that are touched. *)
Lemma touched_ne h l1 n l2 : sep h (l1 ++ n :: l2) ->
  n <> endp h l1 /\ n <> pprev n /\ endp h l1 <> pprev n /\
  forall z, head l2 = Some z -> n <> pprev z /\ endp h l1 <> pprev z /\ pprev n <> pprev z.
Proof.
  intros Hs. pose proof (middle_nodup _ _ _ _ Hs) as (_ & [Hn _]%NoDup_cons & Hd).
  pose proof (endp_elem h l1) as He. destruct Hs as [_ Hs].
  split_and!; [|unfold pprev; lia|apply Hs; set_solver|].
  - intros E. apply (Hd n); [constructor|by rewrite E].
  - intros z Hz%head_elem. split_and!; [apply Hs; set_solver|apply Hs; set_solver|].
    unfold pprev. intros E. assert (n = z) by lia. set_solver.
Qed.

Lemma hlist_mapped m h l1 l2 : hlist m h (l1 ++ l2) ->
  m !! endp h l1 = Some (after l2) /\
  forall z, head l2 = Some z -> z <> 0 /\ m !! pprev z = Some (endp h l1).
Proof.
  intros (_ & Hp & Hz). split; [by eapply link_next|]. destruct l2 as [|y k]; intros z Hy; simplify_eq/=.
  apply hpath_cons_app in Hp as (_ & (_ & ? & ?) & _). done.
Qed.

(** Reads after writes. *)
Ltac lk :=
  repeat first [rewrite lookup_insert_eq | rewrite lookup_insert_ne by (done || (unfold pprev in *; lia))].

Lemma after_nil : after [] = 0.
Proof. done. Qed.
Lemma after_cons z l : after (z :: l) = z.
Proof. done. Qed.

(** The value of the pointer that is tested, by cases on what follows. *)
Ltac follow l2 z :=
  destruct l2 as [|z l2];
  [rewrite ?after_nil in *
  |rewrite ?after_cons in *;
   repeat match goal with H : forall x, head (z :: l2) = Some x -> _ |- _ =>
      specialize (H z eq_refl) end].

Lemma endp_snoc h l a : endp h (l ++ [a]) = a.
Proof. apply (endp_app h l a []). Qed.

(** A word that is not touched is not written. *)
Ltac untouched :=
  let x := fresh "x" in let Hx := fresh "Hx" in
  intros x Hx; rewrite !lookup_insert_ne; [done|..]; intros <-; apply Hx;
  unfold touched; rewrite ?endp_snoc; unfold endp; simpl; eauto 10.

Lemma hlist_add_head_ok m h l n :
  hlist m h l -> is_node m n -> sep h (n :: l) ->
  exists m', hlist_add_head n h m = Done m' /\ hlist m' h (n :: l) /\ same_outside (word_of h (n :: l)) m m'.
Proof.
  intros Hl (Hn0 & Hn1 & Hn2) Hs. pose proof (touched_ne h [] n l Hs) as (N1 & N2 & N3 & N4).
  pose proof (hlist_mapped m h [] l Hl) as [Hh Hz]. unfold endp in *. simpl in *.
  unfold hlist_add_head, first, next. rewrite (ld_ok _ _ _ Hh). simpl. rewrite st_ok by done. simpl.
  follow l z; simpl.
  - rewrite st_ok by eauto. simpl. rewrite st_ok by eauto.
    eexists; split; [done|]. apply (hlist_insert h [] n []); [done|untouched|done|done|..]; simpl; lk; done.
  - destruct Hz as [Hz0 Hz]. destruct N4 as (N4 & N5 & N6).
    rewrite (proj2 (Z.eqb_neq z 0)) by done. simpl. rewrite st_ok by eauto. simpl.
    rewrite st_ok by eauto. simpl. rewrite st_ok by eauto.
    eexists; split; [done|]. apply (hlist_insert h [] n (z :: l)); [done|untouched|done|done|..];
      simpl; try (intros ? [= <-]); lk; done.
Qed.

Lemma hlist_add_before_ok m h l1 nx l2 n :
  hlist m h (l1 ++ nx :: l2) -> is_node m n -> sep h (l1 ++ n :: nx :: l2) ->
  exists m', hlist_add_before n nx m = Done m' /\ hlist m' h (l1 ++ n :: nx :: l2) /\
    same_outside (word_of h (l1 ++ n :: nx :: l2)) m m'.
Proof.
  intros Hl (Hn0 & Hn1 & Hn2) Hs. pose proof (touched_ne h l1 n _ Hs) as (N1 & N2 & N3 & N4).
  pose proof (hlist_mapped m h l1 _ Hl) as [Hh Hz].
  destruct (Hz nx eq_refl) as [Hx0 Hx]. destruct (N4 nx eq_refl) as (N5 & N6 & N7).
  unfold hlist_add_before, next. rewrite (ld_ok _ _ _ Hx). simpl. rewrite st_ok by done. simpl.
  rewrite st_ok by eauto. simpl. rewrite st_ok by eauto. simpl.
  rewrite (ld_ok _ (endp h l1)) by (by lk). simpl. rewrite st_ok by eauto.
  eexists; split; [done|]. apply (hlist_insert h l1 n (nx :: l2)); [done|untouched|done|done|..];
    simpl; try (intros ? [= <-]); lk; done.
Qed.

Lemma hlist_add_behind_ok m h l1 prev l2 n :
  hlist m h (l1 ++ prev :: l2) -> is_node m n -> sep h (l1 ++ prev :: n :: l2) ->
  exists m', hlist_add_behind n prev m = Done m' /\ hlist m' h (l1 ++ prev :: n :: l2) /\
    same_outside (word_of h (l1 ++ prev :: n :: l2)) m m'.
Proof.
  assert (forall k, l1 ++ prev :: k = (l1 ++ [prev]) ++ k) as E by (intros; by rewrite <- app_assoc).
  rewrite (E l2), (E (n :: l2)). clear E. intros Hl (Hn0 & Hn1 & Hn2) Hs.
  pose proof (touched_ne h _ n _ Hs) as (N1 & N2 & N3 & N4).
  pose proof (hlist_mapped m h _ _ Hl) as [Hh Hz].
  assert (endp h (l1 ++ [prev]) = prev) as Ep by apply endp_snoc. rewrite Ep in *.
  unfold hlist_add_behind, next. rewrite (ld_ok _ _ _ Hh). simpl. rewrite st_ok by done. simpl.
  rewrite st_ok by eauto. simpl. rewrite st_ok by eauto. simpl.
  rewrite (ld_ok _ (after l2)) by (by lk). simpl.
  follow l2 z; simpl.
  - eexists; split; [done|]. apply (hlist_insert h (l1 ++ [prev]) n []); rewrite ?Ep; [done| |done|done|..];
      simpl; try (by lk). untouched.
  - destruct Hz as [Hz0 Hz]. destruct N4 as (N4 & N5 & N6).
    rewrite (proj2 (Z.eqb_neq z 0)) by done. simpl. rewrite st_ok by eauto.
    eexists; split; [done|]. apply (hlist_insert h (l1 ++ [prev]) n (z :: l2)); rewrite ?Ep; [done| |done|done|..];
      simpl; try (intros ? [= <-]); try (by lk). untouched.
Qed.

Lemma hlist_sep m h l : hlist m h l -> sep h l.
Proof. by intros [? _]. Qed.

(** The words of a node of the list. *)
Lemma hlist_node_words m h l1 n l2 : hlist m h (l1 ++ n :: l2) ->
  n <> 0 /\ m !! n = Some (after l2) /\ m !! pprev n = Some (endp h l1).
Proof.
  intros (_ & Hp & Hz). apply hpath_cons_app in Hp as (_ & (_ & Hn0 & Hn2) & Hp). rewrite endp_app in Hz.
  split_and!; [done| |done]. by apply (link_next m n [] l2).
Qed.

(** [__hlist_del] followed by stores of 0 to the node's own words. *)
Lemma hlist_del_words m h l1 n l2 :
  hlist m h (l1 ++ n :: l2) ->
  exists m1, __hlist_del n m = Done m1 /\ is_Some (m1 !! n) /\ is_Some (m1 !! pprev n) /\
    let m' := <[pprev n := 0]> (<[n := 0]> m1) in
    hlist m' h (l1 ++ l2) /\ same_outside (word_of h (l1 ++ n :: l2)) m m'.
Proof.
  intros Hl. pose proof (hlist_sep _ _ _ Hl) as Hs.
  pose proof (touched_ne h l1 n _ Hs) as (N1 & N2 & N3 & N4).
  destruct (hlist_node_words _ _ _ _ _ Hl) as (Hn0 & Hn & Hnp).
  assert (m !! endp h l1 = Some n) as He by (by apply (hlist_mapped m h l1 (n :: l2))).
  assert (forall z, head l2 = Some z -> z <> 0 /\ is_Some (m !! pprev z)) as Hz.
  { intros z E. destruct l2 as [|y k]; simplify_eq/=. destruct Hl as (_ & Hp & _).
    apply hpath_cons_app in Hp as (_ & _ & (_ & ? & ?) & _). eauto. }
  unfold __hlist_del, next. rewrite (ld_ok _ _ _ Hn). simpl. rewrite (ld_ok _ _ _ Hnp). simpl.
  rewrite st_ok by eauto. simpl. follow l2 z; simpl.
  - eexists; do 3 (split; [by eauto|]). cbv zeta. apply (hlist_remove h l1 n []);
      [done|untouched|done|lk; done|done].
  - destruct Hz as [Hz0 Hz]. destruct N4 as (N4 & N5 & N6).
    rewrite (proj2 (Z.eqb_neq z 0)) by done. simpl. rewrite st_ok by eauto.
    eexists; do 3 (split; [by eauto|]). cbv zeta. apply (hlist_remove h l1 n (z :: l2));
      [done|untouched|done|simpl; lk; done|]. intros ? [= <-]. by lk.
Qed.

Lemma hlist_del_ok m h l1 n l2 (o : op) : o = Del n \/ o = DelInit n -> h <> 0 ->
  hlist m h (l1 ++ n :: l2) ->
  exists m', op_run h o m = Done m' /\ hlist m' h (l1 ++ l2) /\
    same_outside (word_of h (l1 ++ n :: l2)) m m' /\ m' !! n = Some 0 /\ m' !! pprev n = Some 0.
Proof.
  intros Ho Hh Hl. destruct (hlist_del_words _ _ _ _ _ Hl) as (m1 & E & H1 & H2 & H3).
  destruct (hlist_node_words _ _ _ _ _ Hl) as (Hn0 & _ & Hnp).
  assert (endp h l1 <> 0) as Hp0.
  { destruct Hl as (_ & Hp & _). clear -Hp Hh. destruct (last l1) as [z|] eqn:Ez; unfold endp; rewrite Ez; [|done].
    apply last_Some in Ez as [k ->]. rewrite <- app_assoc in Hp. apply hpath_cons_app in Hp as (_ & (_ & ? & _) & _). done. }
  assert (forall m2, m2 = <[pprev n := 0]> (<[n := 0]> m1) -> m2 !! n = Some 0 /\ m2 !! pprev n = Some 0) as Hz.
  { intros m2 ->. split; lk; [|done]. done. }
  exists (<[pprev n := 0]> (<[n := 0]> m1)). split; [|destruct H3; destruct (Hz _ eq_refl); done].
  destruct Ho as [->| ->]; simpl.
  - unfold hlist_del, LIST_POISON1, LIST_POISON2, next. rewrite E. simpl. rewrite st_ok by done. simpl. by rewrite st_ok by eauto.
  - unfold hlist_del_init, hlist_unhashed, INIT_HLIST_NODE, next. rewrite (ld_ok _ _ _ Hnp). simpl.
    rewrite (proj2 (Z.eqb_neq _ 0)) by done. simpl. rewrite E. simpl. rewrite st_ok by done. simpl. by rewrite st_ok by eauto.
Qed.

(** ** Walking a list *)

(** The loop over the sequence, left early when the body says so. *)
Fixpoint each {S} (l : list Z) (body : Z -> S -> outcome (bool * S)) (s : S) : outcome (Z * S) :=
  match l with
  | [] => Done (0, s)
  | n :: l => let* r := body n s in if r.1 then Done (n, r.2) else each l body r.2
  end.

Lemma hlist_for_each_ok {S} m h l1 l2 (body : Z -> S -> outcome (bool * S)) fuel s :
  hlist m h (l1 ++ l2) -> (length l2 < fuel)%nat ->
  hlist_for_each fuel (after l2) body m s = each l2 body s.
Proof.
  revert l1 fuel s. induction l2 as [|n l2 IH]; intros l1 fuel s Hl Hf; (destruct fuel as [|fuel]; [simpl in Hf; lia|]); [done|].
  destruct (hlist_node_words _ _ _ _ _ Hl) as (Hn0 & Hn & _). rewrite after_cons. simpl.
  rewrite (proj2 (Z.eqb_neq n 0)) by done. destruct (body n s) as [[b s']| |]; simpl; [|done|done].
  destruct b; [done|]. unfold next. rewrite (ld_ok _ _ _ Hn). simpl.
  apply (IH (l1 ++ [n])); [by rewrite <- app_assoc|]. simpl in Hf. lia.
Qed.

Lemma hlist_first m h l : hlist m h l -> m !! h = Some (after l).
Proof. intros Hl. by apply (hlist_mapped m h [] l). Qed.

Lemma hlist_empty_ok m h l : hlist m h l -> hlist_empty h m = Done (bool_decide (l = [])).
Proof.
  intros Hl. unfold hlist_empty, first. rewrite (ld_ok _ _ _ (hlist_first _ _ _ Hl)). simpl.
  destruct l as [|n l]; [done|]. destruct (hlist_node_words m h [] n l Hl) as [Hn0 _].
  rewrite after_cons, (proj2 (Z.eqb_neq n 0)) by done. done.
Qed.

Lemma each_collect l k : each l (fun n s => Done (false, s ++ [n])) k = Done (0, k ++ l).
Proof.
  revert k. induction l as [|n l IH]; intros k; simpl; [by rewrite app_nil_r|].
  rewrite IH. by rewrite <- app_assoc.
Qed.

Lemma bind_split (f : Z -> list Z) l1 x l2 : NoDup (l1 ++ x :: l2) ->
  (forall z, z <> x -> f z = [z]) -> (l1 ++ x :: l2) ≫= f = l1 ++ f x ++ l2.
Proof.
  intros Hn Hf. assert (forall l, x ∉ l -> l ≫= f = l) as Hid.
  { induction l as [|z l IH]; intros Hx; [done|]. apply not_elem_of_cons in Hx as [? ?].
    rewrite bind_cons, Hf, IH by done. done. }
  rewrite bind_app, bind_cons. apply NoDup_app in Hn as (_ & H1 & [H2 _]%NoDup_cons).
  rewrite !Hid; [done|done|]. intros Hx. apply (H1 x); [done|constructor].
Qed.


(** The words of a list that has lost a node are not that node. *)
Lemma removed_word h l1 n l2 x : sep h (l1 ++ n :: l2) -> word_of h (l1 ++ l2) x -> x <> n.
Proof.
  intros Hs Hx ->. pose proof (middle_nodup _ _ _ _ Hs) as (_ & [Hn _]%NoDup_cons & Hd).
  destruct Hs as [_ Hs]. destruct Hx as [Hx|(y & Hy & E)].
  - apply elem_of_cons in Hx as [Hx|[Hx|Hx]%elem_of_app]; [|apply (Hd n); [constructor|by constructor]|done].
    apply (Hd n); [constructor|]. rewrite Hx. constructor.
  - revert E. apply Hs; rewrite ?elem_of_cons, !elem_of_app, ?elem_of_cons; [tauto|].
    apply elem_of_app in Hy. tauto.
Qed.

Lemma word_of_mono h l k : (forall y, y ∈ l -> y ∈ k) -> forall x, word_of h l x -> word_of h k x.
Proof. intros H x [Hx|(y & Hy & ->)]; [left; set_solver|right; eauto]. Qed.
Lemma same_outside_mono (W W' : Z -> Prop) m m' :
  (forall x, W x -> W' x) -> same_outside W m m' -> same_outside W' m m'.
Proof. intros H Hs x Hx. apply Hs. auto. Qed.

(** C30: the [hlist] operations of container/list.h do to a list what their
    names say of its sequence of nodes: [hlist_add_head] puts the node in
    front, [hlist_add_before] and [hlist_add_behind] next to the node given,
    [hlist_del] and [hlist_del_init] take it out and leave it unhashed. Every
    access is to a mapped word, only words of the list and of the node are
    written (so every other list is what it was), [hlist_empty] tells whether
    the sequence is empty, and a loop over the list, with any body, is a loop
    over the sequence. *)
Theorem hlist_refines {S} m h l o (body : Z -> S -> outcome (bool * S)) s :
  h <> 0 -> hlist m h l -> op_pre m h l o ->
  exists m', op_run h o m = Done m' /\
    hlist m' h (op_spec o l) /\
    same_outside (word_of h (op_node o :: l)) m m' /\
    (op_node o ∉ op_spec o l -> hlist_unhashed (op_node o) m' = Done true) /\
    hlist_empty h m' = Done (bool_decide (op_spec o l = [])) /\
    (let* f := ld (first h) m' in
     hlist_for_each (Datatypes.S (length (op_spec o l))) f body m' s) = each (op_spec o l) body s.
Proof.
  intros Hh Hl Hpre.
  enough (exists m', op_run h o m = Done m' /\ hlist m' h (op_spec o l) /\
    same_outside (word_of h (op_node o :: l)) m m' /\
    (op_node o ∉ op_spec o l -> m' !! pprev (op_node o) = Some 0)) as (m' & E & H1 & H2 & H3).
  { exists m'. split_and!; [done|done|done| |by apply hlist_empty_ok|].
    - intros Hn. unfold hlist_unhashed. by rewrite (ld_ok _ _ _ (H3 Hn)).
    - unfold first. rewrite (ld_ok _ _ _ (hlist_first _ _ _ H1)). cbn [obind].
      apply (hlist_for_each_ok m' h [] (op_spec o l)); [done|]. unfold lt. done. }
  pose proof (hlist_sep _ _ _ Hl) as Hs.
  destruct o as [n|n nx|n prev|n|n]; simpl in *.
  - destruct Hpre as [Hn Hs']. destruct (hlist_add_head_ok m h l n) as (m' & ? & ? & ?); [done..|].
    exists m'. split_and!; [done..|]. intros []. constructor.
  - destruct Hpre as (Hn & Hs' & (l1 & l2 & ->)%list_elem_of_split).
    assert (n :: l1 ++ nx :: l2 ≡ₚ l1 ++ n :: nx :: l2) as Hp by apply Permutation_middle.
    rewrite bind_split; [|by destruct Hs as [[_ ?]%NoDup_cons _]|intros; by rewrite decide_False].
    rewrite decide_True by done. change ([n; nx] ++ l2) with (n :: nx :: l2).
    destruct (hlist_add_before_ok m h l1 nx l2 n) as (m' & ? & ? & Ho); [done|done|by eapply sep_perm|].
    exists m'. split_and!; [done|done| |intros []; set_solver].
    eapply same_outside_mono; [apply word_of_mono|exact Ho]; set_solver.
  - destruct Hpre as (Hn & Hs' & (l1 & l2 & ->)%list_elem_of_split).
    rewrite bind_split; [|by destruct Hs as [[_ ?]%NoDup_cons _]|intros; by rewrite decide_False].
    rewrite decide_True by done. change ([prev; n] ++ l2) with (prev :: n :: l2).
    assert (n :: l1 ++ prev :: l2 ≡ₚ l1 ++ prev :: n :: l2) as Hp by solve_Permutation.
    destruct (hlist_add_behind_ok m h l1 prev l2 n) as (m' & ? & ? & Ho); [done|done|by eapply sep_perm|].
    exists m'. split_and!; [done|done| |intros []; set_solver].
    eapply same_outside_mono; [apply word_of_mono|exact Ho]; set_solver.
  - apply list_elem_of_split in Hpre as (l1 & l2 & ->).
    rewrite filter_remove by (by destruct Hs as [[_ ?]%NoDup_cons _]).
    destruct (hlist_del_ok m h l1 n l2 (Del n)) as (m' & ? & ? & Ho & ? & ?); [auto|done|done|].
    exists m'. split_and!; [done|done| |done].
    eapply same_outside_mono; [apply word_of_mono|exact Ho]; set_solver.
  - apply list_elem_of_split in Hpre as (l1 & l2 & ->).
    rewrite filter_remove by (by destruct Hs as [[_ ?]%NoDup_cons _]).
    destruct (hlist_del_ok m h l1 n l2 (DelInit n)) as (m' & ? & ? & Ho & ? & ?); [auto|done|done|].
    exists m'. split_and!; [done|done| |done].
    eapply same_outside_mono; [apply word_of_mono|exact Ho]; set_solver.
Qed.

(** Head 100 with the nodes 8 and 24, head 104 empty, and 40 free. *)
Definition mem_example : mem :=
  list_to_map [(100, 8); (8, 24); (12, 100); (24, 0); (28, 8); (104, 0); (40, 7); (44, 7)]%Z.

Lemma hlist_refines_witness :
  exists m', hlist_add_behind 40 8 mem_example = Done m' /\
    hlist m' 100 [8; 40; 24] /\
    same_outside (word_of 100 [40; 8; 24]) mem_example m' /\
    (40 ∉ [8; 40; 24] -> hlist_unhashed 40 m' = Done true) /\
    hlist_empty 100 m' = Done (bool_decide ([8; 40; 24] = [])) /\
    (let* f := ld 100 m' in
     hlist_for_each 4 f (fun n s => Done (s + n >? 40, s + n)) m' 0) =
      each [8; 40; 24] (fun n s => Done (s + n >? 40, s + n)) 0.
Proof.
  refine (hlist_refines mem_example 100 [8; 24] (AddBehind 40 8) (fun n s => Done (s + n >? 40, s + n)) 0 _ _ _).
  - lia.
  - split; [split; [by apply (bool_decide_unpack _)|]|split; [|done]].
    + intros x y Hx Hy. set_unfold. unfold pprev. lia.
    + cbn [path]. unfold link, pprev. simpl. split_and!; (lia || done).
  - cbn [op_pre]. split; [|split; [split|set_solver]].
    + split; [lia|]. split; eexists; vm_compute; reflexivity.
    + by apply (bool_decide_unpack _).
    + intros x y Hx Hy. set_unfold. unfold pprev. lia.
Defined.

(** The nodes of one head go to another. *)
Lemma hlist_move_list_ok m old newn l :
  hlist m old l -> sep newn l -> old <> newn -> is_Some (m !! newn) -> newn ∉ old :: l ->
  (forall y, y ∈ l -> old <> pprev y) ->
  exists m', hlist_move_list old newn m = Done m' /\ hlist m' newn l /\ hlist m' old [].
Proof.
  intros Hl Hs Hne Hn Hin Hold. pose proof (hlist_first _ _ _ Hl) as Hf. pose proof (hlist_sep _ _ _ Hl) as [Hs1 Hs2].
  unfold hlist_move_list, first. rewrite (ld_ok _ _ _ Hf). cbn [obind]. rewrite st_ok by done. cbn [obind].
  rewrite (ld_ok _ (after l)) by (by lk). cbn [obind].
  assert (sep old []) as Hs0 by (split; [apply NoDup_singleton|set_solver]).
  destruct l as [|z k]; rewrite ?after_nil, ?after_cons in *; simpl.
  - rewrite st_ok by eauto. eexists; split; [done|]. split; (split; [done|]); (split; [done|]);
      unfold endp; simpl; by lk.
  - destruct (hlist_node_words m old [] z k Hl) as (Hz0 & _ & Hz). simpl in Hz.
    rewrite (proj2 (Z.eqb_neq z 0)) by done. simpl. rewrite st_ok by eauto. cbn [obind]. rewrite st_ok by eauto.
    destruct Hl as (_ & [(H1 & H2 & H3) Hp] & He). destruct Hs as [Hn1 Hn2].
    assert (forall x, x ∈ z :: k -> x <> newn /\ x <> old /\ x <> pprev z) as Hx.
    { intros x Hx. split_and!; [set_solver| |apply Hs2; set_solver].
      intros ->. apply NoDup_cons in Hs1 as [? _]. done. }
    eexists; split; [done|]. split; (split; [done|]).
    + replace (endp newn (z :: k)) with (endp z k) by (unfold endp; rewrite last_cons; by destruct (last k)).
      replace (endp old (z :: k)) with (endp z k) in He by (unfold endp; rewrite last_cons; by destruct (last k)).
      split.
      * split; [split_and!; [|done|]|].
        -- rewrite lookup_insert_ne, lookup_insert_ne by (done || (intros E; symmetry in E; revert E; apply Hn2; set_solver)). by lk.
        -- rewrite lookup_insert_ne by (apply Hold; set_solver). by lk.
        -- revert Hp. apply hpath_ext.
           ++ intros x Hxk. apply NoDup_cons in Hs1 as [_ Hs1]. apply removelast_endp in Hxk as [Hxk _]; [|done].
              destruct (Hx x Hxk) as (? & ? & ?). rewrite !lookup_insert_ne by done. done.
           ++ intros x Hxk. rewrite !lookup_insert_ne; [done|..].
              ** apply Hn2; set_solver.
              ** unfold pprev. intros E. assert (z = x) by lia. apply NoDup_cons in Hs1 as [_ [? _]%NoDup_cons]. set_solver.
              ** apply Hold; set_solver.
      * destruct (Hx (endp z k) (endp_elem z k)) as (? & ? & ?). rewrite !lookup_insert_ne by done. done.
    + split; [done|]. unfold endp. simpl. by lk.
Qed.

(** ** Nothing is unmapped *)

Definition stays_mapped (m m' : mem) : Prop := forall x, is_Some (m !! x) -> is_Some (m' !! x).

Lemma st_mapped p v m m' : st p v m = Done m' -> stays_mapped m m'.
Proof. unfold st. destruct (m !! p); intros [= <-]. intros x. apply insert_is_Some. Qed.

(** Every operation is a sequence of loads and stores. *)
Ltac mapped_by_stores :=
  repeat match goal with
  | H : st _ _ ?m = Done ?m', Hx : is_Some (?m !! ?x) |- _ => apply (st_mapped _ _ _ _ H) in Hx; clear H
  | H : (if ?b then _ else _) = Done _ |- _ => destruct b
  end; outcome_inv.

Lemma hlist_add_head_mapped n h m m' : hlist_add_head n h m = Done m' -> stays_mapped m m'.
Proof. unfold hlist_add_head. intros H x Hx. outcome_inv. mapped_by_stores; try done; mapped_by_stores; done. Qed.

Lemma hlist_del_init_mapped n m m' : hlist_del_init n m = Done m' -> stays_mapped m m'.
Proof.
  unfold hlist_del_init, __hlist_del, INIT_HLIST_NODE. intros H x Hx. outcome_inv.
  destruct (negb a); outcome_inv; [|done]. mapped_by_stores; mapped_by_stores; done.
Qed.
End HList.
