(* ===== verification/MbTrace.v ===== *)
(** * debug/mb_trace.c, hashtbl.h, hash.h : the allocation tracer

    A hash table of records of allocations, whose nodes come from a free list
    inside the tracer's own object, on the word memory of HList.
    [mb_tracer_refines]: it is a bounded list of records.  The functions that
    allocate and free the object are parameters. *)
From Stdlib Require Import ZArith Lia Bool.
From stdpp Require Import base list numbers gmap.
From S2P Require Import Prelude HList.
Import HList.

Module MbTrace.

(** ** hash.h, with [__have_long32] *)

Definition GOLDEN_RATIO_32 : Z := 0x61C88647.

Definition __hash_32 (val : Z) : Z := u32 (val * GOLDEN_RATIO_32).
Definition hash_32 (val bits : Z) : Z := Z.shiftr (__hash_32 val) (32 - bits).
Definition hash_64 (val bits : Z) : Z :=
  hash_32 (Z.lxor (u32 val) (__hash_32 (u32 (Z.shiftr val 32)))) bits.
Definition hash_long (val bits : Z) : Z := hash_32 val bits.
Definition hash_ptr (ptr bits : Z) : Z := hash_long (u32 ptr) bits.
Definition hash32_ptr (ptr : Z) : Z := u32 ptr.

(** ** hashtbl.h, for the table of [1 << 8] heads *)

Definition HASH_SIZE : Z := 256.
Definition HASH_BITS : Z := 8.  (* ilog2 (HASH_SIZE) *)

(** [sz] is [sizeof (val)]. *)
Definition hash_min (sz val bits : Z) : Z :=
  if sz <=? 4 then hash_32 (u32 val) bits else hash_long (u32 val) bits.

(** [&hashtable[bkt]] *)
Definition bucket (table bkt : Z) : Z := table + 4 * bkt.
Definition key_bucket (table key : Z) : Z := bucket table (hash_min 4 key HASH_BITS).

Fixpoint hash_init_from (n : nat) (i table : Z) (m : mem) : outcome mem :=
  match n with
  | O => Done m
  | S n => let* m := INIT_HLIST_HEAD (bucket table i) m in hash_init_from n (i + 1) table m
  end.
Definition hash_init (table : Z) (m : mem) : outcome mem := hash_init_from (Z.to_nat HASH_SIZE) 0 table m.

Definition hash_add (table node key : Z) (m : mem) : outcome mem :=
  hlist_add_head node (key_bucket table key) m.

Definition hash_hashed (node : Z) (m : mem) : outcome bool :=
  let* u := hlist_unhashed node m in Done (negb u).

Fixpoint hash_empty_from (n : nat) (i table : Z) (m : mem) : outcome bool :=
  match n with
  | O => Done true
  | S n =>
      let* e := hlist_empty (bucket table i) m in
      if e then hash_empty_from n (i + 1) table m else Done false
  end.
Definition hash_empty (table : Z) (m : mem) : outcome bool :=
  hash_empty_from (Z.to_nat HASH_SIZE) 0 table m.

Definition hash_del (node : Z) (m : mem) : outcome mem := hlist_del_init node m.

(** A chain has no more nodes than there are words. *)
Definition chain_fuel (m : mem) : nat := S (size m).

(** The loop over the buckets goes on while [obj == NULL]: a [break] of the
    body leaves both loops.  The value is [obj] at the end. *)
Fixpoint hash_for_each_from {A} (n : nat) (bkt table : Z) (body : Z -> A -> outcome (bool * A))
    (m : mem) (s : A) : outcome (Z * A) :=
  match n with
  | O => Done (0, s)
  | S n =>
      let* f := ld (first (bucket table bkt)) m in
      let* r := hlist_for_each (chain_fuel m) f body m s in
      if r.1 =? 0 then hash_for_each_from n (bkt + 1) table body m r.2 else Done r
  end.
Definition hash_for_each {A} (table : Z) (body : Z -> A -> outcome (bool * A)) (m : mem) (s : A)
    : outcome (Z * A) :=
  hash_for_each_from (Z.to_nat HASH_SIZE) 0 table body m s.

Definition hash_for_each_possible {A} (table key : Z) (body : Z -> A -> outcome (bool * A))
    (m : mem) (s : A) : outcome (Z * A) :=
  let* f := ld (first (key_bucket table key)) m in
  hlist_for_each (chain_fuel m) f body m s.

(** ** mb_trace.c *)

(** [struct mb_node]: [node] is at offset 0. *)
Definition mb_ptr (n : Z) : Z := n + 8.
Definition mb_size (n : Z) : Z := n + 12.
Definition mb_sym (n : Z) : Z := n + 16.
Definition sizeof_mb_node : Z := 20.

(** [struct mb_tracer] *)
Definition tr_hashtbl (t : Z) : Z := t.
Definition tr_alloc (t : Z) : Z := t + 1024.
Definition tr_free (t : Z) : Z := t + 1028.
Definition tr_freelist (t : Z) : Z := t + 1032.
Definition tr_size (t : Z) : Z := t + 1036.
Definition tr_freends (t : Z) : Z := t + 1040.
Definition sizeof_mb_tracer : Z := 1040.

Definition mb_node_alloc (t : Z) (m : mem) : outcome (Z * mem) :=
  let* newnode := ld (tr_freelist t) m in
  let* m := (if negb (newnode =? 0)
             then let* nx := ld newnode m in st (tr_freelist t) nx m
             else Done m) in
  Done (newnode, m).

Definition mb_node_free (t node : Z) (m : mem) : outcome mem :=
  let* f := ld (tr_freelist t) m in
  let* m := st node f m in
  st (tr_freelist t) node m.

Definition mb_tracer_add (t ptr size sym : Z) (m : mem) : outcome (Z * mem) :=
  let* r := mb_node_alloc t m in
  let '(newn, m) := r in
  if negb (newn =? 0) then
    let* m := st (mb_ptr newn) ptr m in
    let* m := st (mb_size newn) size m in
    let* m := st (mb_sym newn) sym m in
    let* m := hash_add (tr_hashtbl t) newn ptr m in
    Done (0, m)
  else Done (- ENOMEM, m).

Definition mb_tracer_del (t ptr : Z) (m : mem) : outcome (Z * mem) :=
  let* r := hash_for_each_possible (tr_hashtbl t) ptr
              (fun pos _ => let* p := ld (mb_ptr pos) m in Done (p =? ptr, tt)) m tt in
  let pos := r.1 in
  if negb (pos =? 0) then
    let* m := hash_del pos m in
    let* m := mb_node_free t pos m in
    Done (0, m)
  else Done (- ENODATA, m).

(** The visitor reads the node and has a state of its own; [None] is [NULL]. *)
Definition mb_tracer_visit {A} (t : Z) (visitor : option (Z -> mem -> A -> outcome (bool * A)))
    (m : mem) (s : A) : outcome A :=
  match visitor with
  | Some visitor =>
      if negb (t =? 0) then
        let* r := hash_for_each (tr_hashtbl t)
                    (fun pos s => let* r := visitor pos m s in Done (negb r.1, r.2)) m s in
        Done r.2
      else Done s
  | None => Done s
  end.

(** [memset (p, 0, 4 * n)] *)
Fixpoint memset0 (n : nat) (p : Z) (m : mem) : outcome mem :=
  match n with
  | O => Done m
  | S n => let* m := st p 0 m in memset0 n (p + 4) m
  end.

Fixpoint init_freelist (n : nat) (t ptr : Z) (m : mem) : outcome mem :=
  match n with
  | O => Done m
  | S n =>
      let* f := ld (tr_freelist t) m in
      let* m := st ptr f m in
      let* m := st (tr_freelist t) ptr m in
      init_freelist n t (ptr + sizeof_mb_node) m
  end.

Section Allocator.
(** Calls through function pointers. *)
Context (call_alloc : Z -> Z -> mem -> outcome (Z * mem)).
Context (call_free : Z -> Z -> mem -> outcome mem).

(** The tracer or [NULL], and what was stored in [errno]. *)
Definition mb_tracer_create (maxitems alloc mfree : Z) (m : mem) : outcome (Z * option Z * mem) :=
  if (maxitems =? 0) || (alloc =? 0) || (mfree =? 0) then Done (0, Some (- EINVAL), m)
  else
    let alloc_size := u32 (sizeof_mb_tracer + u32 (sizeof_mb_node * maxitems)) in
    let* r := call_alloc alloc alloc_size m in
    let '(tracer, m) := r in
    if tracer =? 0 then Done (0, Some (- ENOMEM), m)
    else
      let* m := memset0 (Z.to_nat (alloc_size / 4)) tracer m in
      let* m := init_freelist (Z.to_nat maxitems) tracer (tr_freends tracer) m in
      let* m := hash_init (tr_hashtbl tracer) m in
      let* m := st (tr_free tracer) mfree m in
      let* m := st (tr_size tracer) maxitems m in
      Done (tracer, None, m).

Definition mb_tracer_destory (t : Z) (m : mem) : outcome mem :=
  if negb (t =? 0) then let* f := ld (tr_free t) m in call_free f t m else Done m.

(** ** Sequences of calls *)

Inductive call := Add (ptr size sym : Z) | Delete (ptr : Z) | Visit.

Context {A : Type} (vis : Z * Z * Z -> A -> bool * A).

(** A visitor that looks at the fields of the node. *)
Definition visitor (pos : Z) (m : mem) (s : A) : outcome (bool * A) :=
  let* p := ld (mb_ptr pos) m in
  let* z := ld (mb_size pos) m in
  let* y := ld (mb_sym pos) m in
  Done (vis (p, z, y) s).

Fixpoint run (t : Z) (cs : list call) (m : mem) (s : A) : outcome (list Z * A * mem) :=
  match cs with
  | [] => Done ([], s, m)
  | c :: cs =>
      let* r := match c with
                | Add p z y => let* r := mb_tracer_add t p z y m in Done ([r.1], s, r.2)
                | Delete p => let* r := mb_tracer_del t p m in Done ([r.1], s, r.2)
                | Visit => let* s := mb_tracer_visit t (Some visitor) m s in Done ([], s, m)
                end in
      let '(rs, s, m) := r in
      let* k := run t cs m s in
      let '(rs', s, m) := k in
      Done (rs ++ rs', s, m)
  end.

(** ** The specification: the records that are live, the newest first *)

Definition rec : Type := Z * Z * Z.
Definition rec_ptr (r : rec) : Z := r.1.1.
Definition hash_of (r : rec) : Z := hash_min 4 (rec_ptr r) HASH_BITS.

Fixpoint remove_first (ptr : Z) (l : list rec) : option (list rec) :=
  match l with
  | [] => None
  | r :: l => if rec_ptr r =? ptr then Some l else k ← remove_first ptr l; Some (r :: k)
  end.

(** The order of a walk: by bucket, and the newest first in a bucket. *)
Definition in_bucket (b : Z) (l : list rec) : list rec := filter (fun r => hash_of r = b) l.
Definition walk (l : list rec) : list rec := seqZ 0 HASH_SIZE ≫= fun b => in_bucket b l.

(** The visitor sees the records until it returns false. *)
Fixpoint visit_all (l : list rec) (s : A) : A :=
  match l with
  | [] => s
  | r :: l => let '(go, s) := vis r s in if go then visit_all l s else s
  end.

Fixpoint run_spec (maxitems : Z) (cs : list call) (l : list rec) (s : A) : list Z * A * list rec :=
  match cs with
  | [] => ([], s, l)
  | c :: cs =>
      let '(rs, s, l) :=
        match c with
        | Add p z y => if len l <? maxitems then ([0], s, (p, z, y) :: l) else ([- ENOMEM], s, l)
        | Delete p => match remove_first p l with
                      | Some l => ([0], s, l)
                      | None => ([- ENODATA], s, l)
                      end
        | Visit => ([], visit_all (walk l) s, l)
        end in
      let '(rs', s, l) := run_spec maxitems cs l s in
      (rs ++ rs', s, l)
  end.
End Allocator.

#[local] Arguments hash_of : simpl never.
#[local] Arguments hash_min : simpl never.
#[local] Arguments key_bucket : simpl never.
#[local] Arguments chain_fuel : simpl never.

(** ** The state of the tracer

    [live] are the nodes in use with their records, [free] the free list. *)

Definition pool (t N : Z) : list Z := (fun i => tr_freends t + sizeof_mb_node * i) <$> seqZ 0 N.

Definition node_list (b : Z) (live : list (Z * rec)) : list Z :=
  fst <$> filter (fun e => hash_of e.2 = b) live.

Definition rec_at (m : mem) (e : Z * rec) : Prop :=
  m !! mb_ptr e.1 = Some e.2.1.1 /\ m !! mb_size e.1 = Some e.2.1.2 /\ m !! mb_sym e.1 = Some e.2.2.

Fixpoint free_links (m : mem) (l : list Z) : Prop :=
  match l with [] => True | n :: l => m !! n = Some (after l) /\ free_links m l end.

Record ok (t N : Z) (mfree : Z) (m : mem) (live : list (Z * rec)) (free : list Z) : Prop := {
  ok_addr : 0 < t;
  ok_pool : (fst <$> live) ++ free ≡ₚ pool t N;
  ok_chains : forall b, 0 <= b < HASH_SIZE -> hlist m (bucket t b) (node_list b live);
  ok_recs : forall e, e ∈ live -> rec_at m e;
  ok_head : m !! tr_freelist t = Some (after free);
  ok_free : free_links m free;
  ok_mapped : forall k, 0 <= k < 260 + 5 * N -> is_Some (m !! (t + 4 * k));
  ok_mfree : m !! tr_free t = Some mfree }.

(** ** Addresses *)

Ltac addr_unfold :=
  unfold tr_freends, tr_freelist, tr_free, tr_size, mb_ptr, mb_size, mb_sym, bucket, pprev, HASH_SIZE,
    sizeof_mb_node, HList.first, HList.next in *.

Lemma pool_elem t N n : n ∈ pool t N <-> exists i, 0 <= i < N /\ n = t + 1040 + 20 * i.
Proof.
  unfold pool. rewrite list_elem_of_fmap. addr_unfold.
  split.
  - intros (i & -> & Hi%elem_of_seqZ). exists i. lia.
  - intros (i & Hi & ->). exists i. split; [lia|]. apply elem_of_seqZ. lia.
Qed.

Lemma pool_nodup t N : NoDup (pool t N).
Proof.
  apply NoDup_fmap_2; [|apply NoDup_seqZ]. intros i j E. cbv beta in E. addr_unfold. lia.
Qed.

Lemma hash_of_range r : 0 <= hash_of r < HASH_SIZE.
Proof.
  unfold hash_of, hash_min, HASH_BITS, HASH_SIZE. change (4 <=? 4) with true. cbv iota. unfold hash_32.
  change (32 - 8) with 24. rewrite Z.shiftr_div_pow2 by lia.
  pose proof (wrap_range 32 (u32 (rec_ptr r) * GOLDEN_RATIO_32) ltac:(lia)) as Hr. unfold in_w in Hr.
  unfold __hash_32. change (2 ^ 24) with 16777216. change (2 ^ 32) with 4294967296 in Hr. zlia.
Qed.

Section State.
Context (t N mfree : Z).

Lemma ok_live_pool m live free n : ok t N mfree m live free -> n ∈ fst <$> live ->
  exists i, 0 <= i < N /\ n = t + 1040 + 20 * i.
Proof. intros H Hn. apply pool_elem. rewrite <- (ok_pool _ _ _ _ _ _ H). set_solver. Qed.
Lemma ok_free_pool m live free n : ok t N mfree m live free -> n ∈ free ->
  exists i, 0 <= i < N /\ n = t + 1040 + 20 * i.
Proof. intros H Hn. apply pool_elem. rewrite <- (ok_pool _ _ _ _ _ _ H). set_solver. Qed.
Lemma ok_nodup m live free : ok t N mfree m live free -> NoDup ((fst <$> live) ++ free).
Proof. intros H. rewrite (ok_pool _ _ _ _ _ _ H). apply pool_nodup. Qed.

Lemma node_list_elem b live n : n ∈ node_list b live -> n ∈ fst <$> live.
Proof.
  unfold node_list. rewrite !list_elem_of_fmap. intros (e & -> & He). apply list_elem_of_filter in He as [_ He]. eauto.
Qed.
Lemma node_list_nodup b live : NoDup (fst <$> live) -> NoDup (node_list b live).
Proof.
  intros H. unfold node_list. eapply sublist_NoDup; [exact H|]. apply fmap_sublist, sublist_filter.
Qed.

(** Nodes of the pool can be on one list. *)
Lemma pool_sep b l : 0 <= b < HASH_SIZE -> NoDup l ->
  (forall n, n ∈ l -> exists i, 0 <= i < N /\ n = t + 1040 + 20 * i) -> sep (bucket t b) l.
Proof.
  intros Hb Hl Hp. split.
  - apply NoDup_cons. split; [|done]. intros (i & Hi & E)%Hp. addr_unfold. lia.
  - intros x y Hx (j & Hj & ->)%Hp. apply elem_of_cons in Hx as [->|(i & Hi & ->)%Hp]; addr_unfold; lia.
Qed.

(** The words of a chain are heads, and first words of nodes in use. *)
Lemma chain_word m live free b x : ok t N mfree m live free -> 0 <= b < HASH_SIZE ->
  word_of (bucket t b) (node_list b live) x ->
  x = t + 4 * b \/ exists n, n ∈ node_list b live /\ (x = n \/ x = n + 4).
Proof.
  intros Ho Hb [Hx|(y & Hy & ->)].
  - apply elem_of_cons in Hx as [->|Hx]; [by left|eauto].
  - right. exists y. unfold pprev. auto.
Qed.

Lemma mapped_node m live free i k : ok t N mfree m live free -> 0 <= i < N -> 0 <= k < 5 ->
  is_Some (m !! (t + 1040 + 20 * i + 4 * k)).
Proof.
  intros Ho Hi Hk. replace (t + 1040 + 20 * i + 4 * k) with (t + 4 * (260 + 5 * i + k)) by lia.
  apply (ok_mapped _ _ _ _ _ _ Ho). lia.
Qed.
End State.

(** ** Adding and deleting *)

Lemma free_links_ext m m' l : (forall n, n ∈ l -> m' !! n = m !! n) -> free_links m l -> free_links m' l.
Proof.
  induction l as [|n l IH]; intros H; [done|]. intros [H1 H2]. split.
  - rewrite H; [done|constructor].
  - apply IH; [|done]. intros. apply H. by constructor.
Qed.

Lemma node_list_cons b n r live :
  node_list b ((n, r) :: live) = if decide (hash_of r = b) then n :: node_list b live else node_list b live.
Proof. unfold node_list. rewrite filter_cons. cbn [snd]. by destruct (decide (hash_of r = b)). Qed.
Lemma node_list_split b l1 e l2 : hash_of e.2 = b ->
  node_list b (l1 ++ e :: l2) = node_list b l1 ++ e.1 :: node_list b l2.
Proof.
  intros Hb. unfold node_list. rewrite filter_app, filter_cons_True by done. by rewrite fmap_app.
Qed.
Lemma node_list_skip b l1 e l2 : hash_of e.2 <> b -> node_list b (l1 ++ e :: l2) = node_list b (l1 ++ l2).
Proof. intros Hb. unfold node_list. rewrite !filter_app, filter_cons_False by done. done. Qed.

(** A node has one record. *)
Lemma NoDup_fmap_fst_inj (l : list (Z * rec)) e1 e2 :
  NoDup (fst <$> l) -> e1 ∈ l -> e2 ∈ l -> e1.1 = e2.1 -> e1 = e2.
Proof.
  intros Hn H1 H2 E. apply list_elem_of_lookup in H1 as [i H1]. apply list_elem_of_lookup in H2 as [j H2].
  assert (i = j) as ->; [|congruence]. eapply (NoDup_lookup (fst <$> l)); [done|..];
    rewrite list_lookup_fmap; [by rewrite H1|rewrite H2; simpl; congruence].
Qed.

Lemma word_of_cons h n l x : word_of h (n :: l) x <-> x = n \/ x = pprev n \/ word_of h l x.
Proof. unfold word_of. set_solver. Qed.

(** What the words of a chain are not. *)
Lemma chain_away t N mfree m live free b x :
  ok t N mfree m live free -> 0 <= b < HASH_SIZE -> word_of (bucket t b) (node_list b live) x ->
  (x <> tr_freelist t /\ x <> tr_free t) /\
  (forall b', 0 <= b' < HASH_SIZE -> b' <> b -> x <> bucket t b') /\
  forall n, n ∈ pool t N -> ~ n + 8 <= x < n + 20 /\ (n ∉ node_list b live -> ~ n <= x < n + 20).
Proof.
  intros Ho Hb Hx. eapply chain_word in Hx; [|done|done]. addr_unfold.
  destruct Hx as [->|(w & Hw & Hxw)].
  - split_and!; [lia|lia|intros; lia|]. intros n (i & Hi & ->)%pool_elem. lia.
  - pose proof (node_list_elem _ _ _ Hw) as Hw'. destruct (ok_live_pool _ _ _ _ _ _ _ Ho Hw') as (j & Hj & ->).
    split_and!; [lia|lia|intros; lia|]. intros n (i & Hi & ->)%pool_elem. split; [lia|].
    intros Hn. assert (i <> j) by (intros ->; done). lia.
Qed.

(** Chains of different buckets have no word in common. *)
Lemma chains_disjoint t N mfree m live free b b' x :
  ok t N mfree m live free -> 0 <= b < HASH_SIZE -> 0 <= b' < HASH_SIZE -> b <> b' ->
  word_of (bucket t b) (node_list b live) x -> ~ word_of (bucket t b') (node_list b' live) x.
Proof.
  intros Ho Hb Hb' Hne Hx Hx'. pose proof (chain_away _ _ _ _ _ _ _ _ Ho Hb Hx) as (_ & A1 & A2).
  pose proof (chain_word _ _ _ _ _ _ _ _ Ho Hb' Hx') as [->|(w & Hw & Hxw)].
  - by apply (A1 b').
  - pose proof (node_list_elem _ _ _ Hw) as Hwl. destruct (A2 w) as [_ A3].
    { rewrite <- (ok_pool _ _ _ _ _ _ Ho). set_solver. }
    apply A3; [|lia]. intros Hw2. unfold node_list in Hw, Hw2.
    apply list_elem_of_fmap in Hw as (e1 & -> & [Hh1 He1]%list_elem_of_filter).
    apply list_elem_of_fmap in Hw2 as (e2 & E2 & [Hh2 He2]%list_elem_of_filter).
    assert (e1 = e2) as ->; [|congruence]. eapply NoDup_fmap_fst_inj; [|done|done|done].
    pose proof (ok_nodup _ _ _ _ _ _ Ho) as Hnd. by apply NoDup_app in Hnd as (? & _).
Qed.

Section Update.
Context (t N mfree : Z).

(** What the operations keep besides the chain they change: the words that
    are written are the head of the free list, the words of the node [n],
    and words of the chain of the bucket [b]. *)
Definition written (n b : Z) (l : list Z) (x : Z) : Prop :=
  x = tr_freelist t \/ (n <= x < n + 20) \/ word_of (bucket t b) l x.

Lemma ok_update m m' live free live' free' n b :
  ok t N mfree m live free -> 0 <= b < HASH_SIZE -> n ∈ pool t N ->
  same_outside (written n b (node_list b live)) m m' ->
  stays_mapped m m' ->
  (fst <$> live') ++ free' ≡ₚ pool t N ->
  hlist m' (bucket t b) (node_list b live') ->
  (forall b', b' <> b -> node_list b' live' = node_list b' live /\ n ∉ node_list b' live) ->
  (forall e, e ∈ live' -> e.1 = n -> rec_at m' e) ->
  (forall e, e ∈ live' -> e.1 <> n -> e ∈ live) ->
  m' !! tr_freelist t = Some (after free') ->
  free_links m' free' ->
  ok t N mfree m' live' free'.
Proof.
  intros Ho Hb Hnp Hw Hs Hp Hc Hother Hn Hold Hhead Hfree.
  pose proof Hnp as (i & Hi & Ei)%pool_elem.
  split; [apply Ho|done| | |done|done| |].
  - intros b' Hb'. destruct (decide (b' = b)) as [->|Hne]; [done|].
    destruct (Hother b' Hne) as [-> Hnn]. apply (hlist_ext m); [|by apply Ho].
    intros x Hx. apply Hw. intros Hwx. pose proof (chain_away _ _ _ _ _ _ _ _ Ho Hb' Hx) as ([A1 _] & _ & A2).
    destruct Hwx as [?|[?|Hwx]]; [done|by apply (proj2 (A2 n Hnp))|]. by eapply (chains_disjoint t N mfree m live free b b').
  - intros e He. destruct (decide (e.1 = n)) as [Hen|Hen]; [by apply Hn|].
    pose proof (Hold e He Hen) as Hin. destruct (ok_recs _ _ _ _ _ _ Ho e Hin) as (H1 & H2 & H3).
    assert (e.1 ∈ pool t N) as Hep.
    { rewrite <- (ok_pool _ _ _ _ _ _ Ho). apply elem_of_app. left. apply list_elem_of_fmap. eauto. }
    assert (forall x, e.1 + 8 <= x < e.1 + 20 -> m' !! x = m !! x) as Hx.
    { intros x Hx. apply Hw. intros [E|[E|Hwx]].
      - apply pool_elem in Hep as (j & Hj & Ej). unfold tr_freelist in E. lia.
      - apply pool_elem in Hep as (j & Hj & Ej). lia.
      - pose proof (chain_away _ _ _ _ _ _ _ _ Ho Hb Hwx) as (_ & _ & A2). by apply (proj1 (A2 e.1 Hep)). }
    unfold rec_at, mb_ptr, mb_size, mb_sym in *. by rewrite !Hx by lia.
  - intros k Hk. by apply Hs, (ok_mapped _ _ _ _ _ _ Ho).
  - rewrite Hw; [apply Ho|]. intros [E|[E|Hwx]]; [unfold tr_free, tr_freelist in E; lia|unfold tr_free in E; lia|].
    pose proof (chain_away _ _ _ _ _ _ _ _ Ho Hb Hwx) as ([_ A1] & _). done.
Qed.
End Update.

Lemma free_links_after m n l : free_links m (n :: l) -> m !! n = Some (after l) /\ free_links m l.
Proof. done. Qed.

Lemma pool_node_mapped t N mfree m live free n k :
  ok t N mfree m live free -> n ∈ pool t N -> 0 <= k < 5 -> is_Some (m !! (n + 4 * k)).
Proof. intros Ho (i & Hi & ->)%pool_elem Hk. by eapply mapped_node. Qed.

Lemma ok_pool_nodes t N mfree m live free : ok t N mfree m live free ->
  (forall n, n ∈ fst <$> live -> n ∈ pool t N) /\ (forall n, n ∈ free -> n ∈ pool t N).
Proof. intros Ho. split; intros n Hn; rewrite <- (ok_pool _ _ _ _ _ _ Ho); set_solver. Qed.

Lemma ok_live_nodup t N mfree m live free : ok t N mfree m live free ->
  NoDup (fst <$> live) /\ NoDup free /\ forall n, n ∈ fst <$> live -> n ∉ free.
Proof.
  intros Ho. pose proof (ok_nodup _ _ _ _ _ _ Ho) as H. apply NoDup_app in H as (? & H & ?). auto.
Qed.

(** No node is at address 0, nor at an address of the header. *)
Lemma pool_addr t N mfree m live free n : ok t N mfree m live free -> n ∈ pool t N ->
  n <> 0 /\ t + 1040 <= n.
Proof. intros Ho (i & Hi & ->)%pool_elem. pose proof (ok_addr _ _ _ _ _ _ Ho). lia. Qed.

Lemma after_free t N mfree m live free : ok t N mfree m live free ->
  (after free =? 0) = match free with [] => true | _ => false end.
Proof.
  intros Ho. destruct free as [|n free]; [done|]. rewrite after_cons. apply Z.eqb_neq.
  apply (pool_addr _ _ _ _ _ _ n Ho). apply (ok_pool_nodes _ _ _ _ _ _ Ho). constructor.
Qed.

(** A node of the pool can be added to the chain of a bucket. *)
Lemma chain_sep_cons t N mfree m live n free b :
  ok t N mfree m live (n :: free) -> 0 <= b < HASH_SIZE -> sep (bucket t b) (n :: node_list b live).
Proof.
  intros Ho Hb. destruct (ok_live_nodup _ _ _ _ _ _ Ho) as (H1 & H2 & H3).
  apply (pool_sep t N); [done| |].
  - apply NoDup_cons. split; [|by apply node_list_nodup]. intros Hn%node_list_elem.
    apply (H3 n Hn). constructor.
  - destruct (ok_pool_nodes _ _ _ _ _ _ Ho) as [Hp1 Hp2].
    intros x [->|Hx]%elem_of_cons; apply pool_elem; [apply Hp2; constructor|].
    apply node_list_elem in Hx. auto.
Qed.

Lemma add_full t N mfree m live p z y : ok t N mfree m live [] ->
  mb_tracer_add t p z y m = Done (- ENOMEM, m).
Proof.
  intros Ho. unfold mb_tracer_add, mb_node_alloc. by rewrite (ld_ok _ _ _ (ok_head _ _ _ _ _ _ Ho)).
Qed.

(** The three words of the record are written before the node is linked. *)
Lemma rec_words m n p z y : let m' := <[mb_sym n := y]> (<[mb_size n := z]> (<[mb_ptr n := p]> m)) in
  rec_at m' (n, (p, z, y)) /\ same_outside (fun x => n + 8 <= x < n + 20) m m'.
Proof.
  unfold rec_at, mb_sym, mb_size, mb_ptr. cbn [fst snd]. split; [split_and!; by lk|].
  intros x Hx. rewrite !lookup_insert_ne; [done|lia..].
Qed.

(** Linking a free node whose record is in place. *)
Lemma link_ok t N mfree m m2 live n free r :
  ok t N mfree m live (n :: free) ->
  same_outside (fun x => x = tr_freelist t \/ n + 8 <= x < n + 20) m m2 -> stays_mapped m m2 ->
  m2 !! tr_freelist t = Some (after free) -> rec_at m2 (n, r) ->
  exists m', hlist_add_head n (bucket t (hash_of r)) m2 = Done m' /\ ok t N mfree m' ((n, r) :: live) free.
Proof.
  intros Ho Ho2 Hs2 Hfl Hr. pose proof (ok_pool_nodes _ _ _ _ _ _ Ho) as [Hlp Hfp].
  assert (n ∈ pool t N) as Hnp by (apply Hfp; constructor).
  destruct (pool_addr _ _ _ _ _ _ _ Ho Hnp) as [Hn0 Hnt].
  destruct (ok_live_nodup _ _ _ _ _ _ Ho) as (Hd1 & [Hnf Hd2]%NoDup_cons & Hd3).
  destruct (ok_free _ _ _ _ _ _ Ho) as [Hnn Hfree].
  pose proof (hash_of_range r) as Hb. set (b := hash_of r) in *.
  assert (forall x, word_of (bucket t b) (node_list b live) x -> x <> tr_freelist t /\ ~ n <= x < n + 20) as Hch.
  { intros x Hx. destruct (chain_away _ _ _ _ _ _ _ _ Ho Hb Hx) as ([A1 _] & _ & A2). split; [done|].
    apply (A2 n Hnp). intros Hn%node_list_elem. apply (Hd3 n Hn). constructor. }
  destruct (hlist_add_head_ok m2 (bucket t b) (node_list b live) n) as (m' & E & Hl' & Ho'); [| |by eapply chain_sep_cons|].
  { eapply same_outside_hlist; [exact Ho2| |by apply (ok_chains _ _ _ _ _ _ Ho)]. intros x Hx. apply Hch in Hx. cbv beta. lia. }
  { split; [done|]. split; apply Hs2.
    - replace n with (n + 4 * 0) by lia. eapply pool_node_mapped; [done|done|lia].
    - unfold pprev. replace (n + 4) with (n + 4 * 1) by lia. eapply pool_node_mapped; [done|done|lia]. }
  exists m'. split; [done|].
  assert (forall x, ~ (x = n \/ x = n + 4) -> ~ word_of (bucket t b) (node_list b live) x -> m' !! x = m2 !! x) as Hx'.
  { intros x H1 H2. apply Ho'. rewrite word_of_cons. unfold pprev. tauto. }
  apply (ok_update t N mfree m m' live (n :: free) _ _ n b); [done|done|done| | | | | | | | |].
  - intros x Hx. unfold written in Hx. rewrite Hx', Ho2; [done|lia|lia|tauto].
  - intros x Hx. by eapply hlist_add_head_mapped, Hs2.
  - rewrite <- (ok_pool _ _ _ _ _ _ Ho). simpl. apply Permutation_middle.
  - rewrite node_list_cons. by rewrite decide_True.
  - intros b' Hb'. rewrite node_list_cons, decide_False by (unfold b in *; congruence). split; [done|].
    intros Hx%node_list_elem. apply (Hd3 n Hx). constructor.
  - intros e [->|He]%elem_of_cons Hen; simpl in Hen.
    + unfold rec_at, mb_ptr, mb_size, mb_sym in *. cbn [fst] in *.
      rewrite !Hx'; [done|lia| |lia| |lia|]; intros Hx%Hch; lia.
    + exfalso. apply (Hd3 e.1); [apply list_elem_of_fmap; eauto|]. rewrite Hen. constructor.
  - intros e [->|He]%elem_of_cons Hen; done.
  - rewrite Hx'; [done|unfold tr_freelist; lia|]. by intros [? _]%Hch.
  - eapply free_links_ext; [|exact Hfree]. intros w Hw.
    pose proof (Hfp w ltac:(by constructor)) as Hwp. assert (w <> n) by (intros ->; done).
    assert (~ word_of (bucket t b) (node_list b live) w) as Hwc.
    { intros Hx. destruct (chain_away _ _ _ _ _ _ _ _ Ho Hb Hx) as (_ & _ & A2). apply (A2 w Hwp); [|lia].
      intros Hv%node_list_elem. apply (Hd3 w Hv). by constructor. }
    apply pool_elem in Hnp as (i & Hi & ->). apply pool_elem in Hwp as (j & Hj & ->).
    assert (i <> j) by (intros ->; done).
    rewrite Hx', Ho2; [done|unfold tr_freelist; lia|lia|done].
Qed.

Lemma tracer_add_ok t N mfree m live n free p z y :
  ok t N mfree m live (n :: free) ->
  exists m', mb_tracer_add t p z y m = Done (0, m') /\ ok t N mfree m' ((n, (p, z, y)) :: live) free.
Proof.
  intros Ho. assert (n ∈ pool t N) as Hnp by (apply (proj2 (ok_pool_nodes _ _ _ _ _ _ Ho)); constructor).
  destruct (pool_addr _ _ _ _ _ _ _ Ho Hnp) as [Hn0 Hnt]. destruct (ok_free _ _ _ _ _ _ Ho) as [Hnn _].
  assert (is_Some (m !! tr_freelist t)) as Hfl by (rewrite (ok_head _ _ _ _ _ _ Ho); eauto).
  assert (forall k, 0 <= k < 5 -> is_Some (m !! (n + 4 * k))) as Hk by (intros; by eapply pool_node_mapped).
  unfold mb_tracer_add, mb_node_alloc. rewrite (ld_ok _ _ _ (ok_head _ _ _ _ _ _ Ho)), after_cons.
  cbn [obind]. rewrite (proj2 (Z.eqb_neq n 0)) by done. cbn [negb]. rewrite (ld_ok _ _ _ Hnn). cbn [obind].
  rewrite st_ok by done. cbn [obind]. rewrite (proj2 (Z.eqb_neq n 0)) by done. cbn [negb].
  rewrite st_ok by (apply insert_is_Some, (Hk 2); lia). cbn [obind].
  rewrite st_ok by (do 2 apply insert_is_Some; apply (Hk 3); lia). cbn [obind].
  rewrite st_ok by (do 3 apply insert_is_Some; apply (Hk 4); lia). cbn [obind].
  destruct (rec_words (<[tr_freelist t := after free]> m) n p z y) as [Hr Hsame]. cbv zeta in *. set (m2 := <[mb_sym n := y]> _) in *.
  destruct (link_ok t N mfree m m2 live n free (p, z, y) Ho) as (m' & E & Ho'); [| | |done|].
  - intros x Hx. rewrite Hsame by lia. apply lookup_insert_ne. lia.
  - intros x Hx. unfold m2. by do 4 apply insert_is_Some.
  - rewrite Hsame by (unfold tr_freelist; lia). by lk.
  - exists m'. split; [|done]. unfold hash_add, key_bucket, tr_hashtbl.
    change (hash_min 4 p HASH_BITS) with (hash_of (p, z, y)). by rewrite E.
Qed.

(** The first record of [ptr], if there is one. *)
Lemma live_cases ptr (live : list (Z * rec)) :
  (forall e, e ∈ live -> rec_ptr e.2 <> ptr) \/
  exists l1 e l2, live = l1 ++ e :: l2 /\ rec_ptr e.2 = ptr /\ forall e', e' ∈ l1 -> rec_ptr e'.2 <> ptr.
Proof.
  induction live as [|e live [IH|(l1 & e' & l2 & -> & H1 & H2)]]; [left; set_solver|..];
    (destruct (decide (rec_ptr e.2 = ptr)) as [He|He]; [right; exists [], e; eexists; split_and!; [done|done|set_solver]|]).
  - left. intros e' [->|?]%elem_of_cons; auto.
  - right. exists (e :: l1), e', l2. split_and!; [done|done|]. intros ? [->|?]%elem_of_cons; auto.
Qed.

Lemma remove_first_none ptr (live : list (Z * rec)) :
  (forall e, e ∈ live -> rec_ptr e.2 <> ptr) -> remove_first ptr (snd <$> live) = None.
Proof.
  induction live as [|e live IH]; intros H; [done|]. rewrite fmap_cons. cbn [remove_first].
  rewrite (proj2 (Z.eqb_neq _ _)) by (apply H; constructor). rewrite IH; [done|].
  intros. apply H. by constructor.
Qed.
Lemma remove_first_some ptr l1 (e : Z * rec) l2 :
  (forall e', e' ∈ l1 -> rec_ptr e'.2 <> ptr) -> rec_ptr e.2 = ptr ->
  remove_first ptr (snd <$> l1 ++ e :: l2) = Some (snd <$> l1 ++ l2).
Proof.
  induction l1 as [|x l1 IH]; intros H He; cbn [app]; rewrite fmap_cons; cbn [remove_first].
  - by rewrite He, Z.eqb_refl.
  - rewrite (proj2 (Z.eqb_neq _ _)) by (apply H; constructor). rewrite IH; [done|intros; apply H; by constructor|done].
Qed.

(** The loop of [mb_tracer_del] over records, until [ptr] is found. *)
Lemma each_find m ptr (L : list (Z * rec)) k :
  (forall e, e ∈ L -> rec_at m e) -> (forall e, e ∈ L -> rec_ptr e.2 <> ptr) ->
  each (fst <$> L ++ k) (fun pos (_ : unit) => let* p := ld (mb_ptr pos) m in Done (p =? ptr, tt)) tt =
  each (fst <$> k) (fun pos (_ : unit) => let* p := ld (mb_ptr pos) m in Done (p =? ptr, tt)) tt.
Proof.
  induction L as [|e L IH]; intros Hr Hp; [done|]. simpl.
  destruct (Hr e ltac:(constructor)) as [He _]. rewrite (ld_ok _ _ _ He). cbn [obind fst].
  rewrite (proj2 (Z.eqb_neq _ _)) by (apply Hp; constructor). apply IH; intros; [apply Hr|apply Hp]; by constructor.
Qed.

Lemma chain_fuel_ok m l : NoDup l -> (forall x, x ∈ l -> is_Some (m !! x)) -> (length l < chain_fuel m)%nat.
Proof.
  intros Hn Hl. unfold chain_fuel. apply Nat.lt_succ_r.
  rewrite <- (size_list_to_set (C := gset Z) l) by done. rewrite <- (size_dom (D := gset Z) m).
  apply subseteq_size. intros x Hx. apply elem_of_dom, Hl. by apply elem_of_list_to_set in Hx.
Qed.

(** A walk over the chain of a bucket. *)
Lemma chain_walk {A} t N mfree m live free b (body : Z -> A -> outcome (bool * A)) s :
  ok t N mfree m live free -> 0 <= b < HASH_SIZE ->
  (let* f := ld (first (bucket t b)) m in hlist_for_each (chain_fuel m) f body m s) = each (node_list b live) body s.
Proof.
  intros Ho Hb. pose proof (ok_chains _ _ _ _ _ _ Ho b Hb) as Hl. unfold first.
  rewrite (ld_ok _ _ _ (hlist_first _ _ _ Hl)). cbn [obind].
  apply (hlist_for_each_ok m (bucket t b) []); [done|]. destruct (ok_live_nodup _ _ _ _ _ _ Ho) as (H1 & _).
  apply chain_fuel_ok; [by apply node_list_nodup|]. intros x Hx%node_list_elem.
  replace x with (x + 4 * 0) by lia. eapply pool_node_mapped; [done| |lia]. by apply (proj1 (ok_pool_nodes _ _ _ _ _ _ Ho)).
Qed.

Lemma del_missing t N mfree m live free ptr : ok t N mfree m live free ->
  (forall e, e ∈ live -> rec_ptr e.2 <> ptr) -> mb_tracer_del t ptr m = Done (- ENODATA, m).
Proof.
  intros Ho Hp. pose proof (hash_of_range (ptr, 0, 0)) as Hb.
  unfold mb_tracer_del, hash_for_each_possible, key_bucket, tr_hashtbl.
  fold (hash_of (ptr, 0, 0)). change (hash_min 4 ptr HASH_BITS) with (hash_of (ptr, 0, 0)).
  rewrite (chain_walk _ _ _ _ _ _ _ _ _ Ho Hb). unfold node_list.
  rewrite <- (app_nil_r (filter _ live)), each_find; [done|..].
  - intros e [_ He]%list_elem_of_filter. by apply (ok_recs _ _ _ _ _ _ Ho).
  - intros e [_ He]%list_elem_of_filter. auto.
Qed.

(** The walk of [mb_tracer_del] stops at the first record of [ptr]. *)
Lemma walk_finds t N mfree m l1 e l2 free ptr :
  ok t N mfree m (l1 ++ e :: l2) free -> rec_ptr e.2 = ptr -> (forall e', e' ∈ l1 -> rec_ptr e'.2 <> ptr) ->
  hash_for_each_possible (tr_hashtbl t) ptr
    (fun pos (_ : unit) => let* p := ld (mb_ptr pos) m in Done (p =? ptr, tt)) m tt = Done (e.1, tt).
Proof.
  intros Ho He Hp. pose proof (hash_of_range e.2) as Hb.
  unfold hash_for_each_possible, key_bucket, tr_hashtbl.
  replace (hash_min 4 ptr HASH_BITS) with (hash_of e.2) by (unfold hash_of; by rewrite He).
  rewrite (chain_walk _ _ _ _ _ _ _ _ _ Ho Hb). unfold node_list. rewrite filter_app, each_find.
  - rewrite filter_cons_True by done. destruct (ok_recs _ _ _ _ _ _ Ho e ltac:(set_solver)) as [Hr _].
    rewrite fmap_cons. cbn [each]. rewrite (ld_ok _ _ _ Hr). cbn [obind fst]. unfold rec_ptr in He. by rewrite He, Z.eqb_refl.
  - intros e' [_ He']%list_elem_of_filter. apply (ok_recs _ _ _ _ _ _ Ho). set_solver.
  - intros e' [_ He']%list_elem_of_filter. auto.
Qed.

(** Unlinking a node in use and giving it to the free list. *)
Lemma unlink_ok t N mfree m l1 e l2 free :
  ok t N mfree m (l1 ++ e :: l2) free ->
  exists m1, hlist_del_init e.1 m = Done m1 /\
    m1 !! tr_freelist t = Some (after free) /\ is_Some (m1 !! e.1) /\
    ok t N mfree (<[tr_freelist t := e.1]> (<[e.1 := after free]> m1)) (l1 ++ l2) (e.1 :: free).
Proof.
  intros Ho. set (live := l1 ++ e :: l2) in *. assert (e ∈ live) as Hin by (unfold live; set_solver).
  pose proof (ok_pool_nodes _ _ _ _ _ _ Ho) as [Hlp Hfp].
  assert (e.1 ∈ pool t N) as Hnp by (apply Hlp, list_elem_of_fmap; eauto).
  destruct (pool_addr _ _ _ _ _ _ _ Ho Hnp) as [Hn0 Hnt]. destruct (ok_live_nodup _ _ _ _ _ _ Ho) as (Hd1 & Hd2 & Hd3).
  pose proof (hash_of_range e.2) as Hb. set (b := hash_of e.2) in *.
  assert (node_list b live = node_list b l1 ++ e.1 :: node_list b l2) as Enl by (by apply node_list_split).
  assert (node_list b (l1 ++ l2) = node_list b l1 ++ node_list b l2) as Enl'.
  { unfold node_list. by rewrite filter_app, fmap_app. }
  pose proof (ok_chains _ _ _ _ _ _ Ho b Hb) as Hl. rewrite Enl in Hl.
  destruct (hlist_del_ok m (bucket t b) (node_list b l1) e.1 (node_list b l2) (DelInit e.1)) as (m1 & E & Hl1 & Ho1 & Hw1 & _);
    [by right|unfold bucket; pose proof (ok_addr _ _ _ _ _ _ Ho); lia|done|]. rewrite <- Enl in Ho1.
  assert (forall x, word_of (bucket t b) (node_list b live) x -> x <> tr_freelist t) as Hch.
  { intros x Hx. by destruct (chain_away _ _ _ _ _ _ _ _ Ho Hb Hx) as ([A1 _] & _). }
  assert (m1 !! tr_freelist t = Some (after free)) as Hhead.
  { rewrite Ho1; [apply Ho|]. by intros Hx%Hch. }
  exists m1. do 2 (split; [done|]). split; [eauto|].
  assert (forall x, x <> tr_freelist t -> x <> e.1 ->
    (<[tr_freelist t := e.1]> (<[e.1 := after free]> m1)) !! x = m1 !! x) as Hm'.
  { intros x H1 H2. by rewrite !lookup_insert_ne by done. }
  apply (ok_update t N mfree m _ live free _ _ e.1 b); [done|done|done| | | | | | | | |].
  - intros x Hx. unfold written in Hx. rewrite Hm' by lia. apply Ho1. tauto.
  - intros x Hx. do 2 apply insert_is_Some. by eapply hlist_del_init_mapped.
  - rewrite <- (ok_pool _ _ _ _ _ _ Ho). unfold live. rewrite !fmap_app. simpl. solve_Permutation.
  - rewrite Enl'. eapply hlist_ext; [|exact Hl1]. intros x Hx. apply Hm'.
    + apply Hch. revert Hx. apply word_of_mono. rewrite Enl. intros y. rewrite !elem_of_app, elem_of_cons. tauto.
    + by apply (removed_word (bucket t b) (node_list b l1) e.1 (node_list b l2)); [apply hlist_sep in Hl|].
  - intros b' Hb'. split; [unfold live; by rewrite node_list_skip by (unfold b in Hb'; congruence)|].
    unfold node_list. rewrite list_elem_of_fmap. intros (e' & E' & [Hh He']%list_elem_of_filter).
    assert (e' = e) as ->; [|unfold b in Hb'; congruence]. by eapply NoDup_fmap_fst_inj.
  - intros e' He' Hen. exfalso. assert (fst <$> live ≡ₚ e.1 :: (fst <$> l1 ++ l2)) as Hperm.
    { unfold live. rewrite !fmap_app, fmap_cons. solve_Permutation. }
    rewrite Hperm in Hd1. apply NoDup_cons in Hd1 as [Hd1 _]. apply Hd1. rewrite <- Hen. apply list_elem_of_fmap. eauto.
  - intros e' He' _. unfold live. rewrite elem_of_app, elem_of_cons. apply elem_of_app in He'. tauto.
  - by rewrite lookup_insert_eq.
  - split.
    + rewrite lookup_insert_ne by (unfold tr_freelist; lia). by rewrite lookup_insert_eq.
    + eapply free_links_ext; [|by apply (ok_free _ _ _ _ _ _ Ho)]. intros w Hw. pose proof (Hfp w Hw) as Hwp.
      pose proof (pool_addr _ _ _ _ _ _ _ Ho Hwp) as [_ Hwt].
      rewrite Hm'; [|unfold tr_freelist; lia|intros ->; apply (Hd3 e.1); [apply list_elem_of_fmap; eauto|done]].
      apply Ho1. intros Hx. destruct (chain_away _ _ _ _ _ _ _ _ Ho Hb Hx) as (_ & _ & A2).
      apply (proj2 (A2 w Hwp)); [|lia]. intros Hv%node_list_elem. by apply (Hd3 w).
Qed.

Lemma del_ok t N mfree m l1 e l2 free ptr :
  ok t N mfree m (l1 ++ e :: l2) free -> rec_ptr e.2 = ptr -> (forall e', e' ∈ l1 -> rec_ptr e'.2 <> ptr) ->
  exists m', mb_tracer_del t ptr m = Done (0, m') /\ ok t N mfree m' (l1 ++ l2) (e.1 :: free).
Proof.
  intros Ho He Hp. destruct (unlink_ok _ _ _ _ _ _ _ _ Ho) as (m1 & E & Hhead & Hw & Ho').
  eexists. split; [|exact Ho']. unfold mb_tracer_del. rewrite (walk_finds _ _ _ _ _ _ _ _ _ Ho He Hp).
  assert (e.1 <> 0) as Hn0.
  { eapply pool_addr; [exact Ho|]. apply (proj1 (ok_pool_nodes _ _ _ _ _ _ Ho)), list_elem_of_fmap. exists e. set_solver. }
  cbn [obind fst]. rewrite (proj2 (Z.eqb_neq e.1 0)) by done. cbn [negb]. unfold hash_del. rewrite E. cbn [obind].
  unfold mb_node_free. rewrite (ld_ok _ _ _ Hhead). cbn [obind]. rewrite st_ok by done. cbn [obind].
  rewrite st_ok by (apply insert_is_Some; eauto). done.
Qed.

(** ** Walking all buckets *)

Section Visit.
Context {A : Type} (vis : Z * Z * Z -> A -> bool * A).

Abbreviation vbody m := (fun pos s => let* r := visitor vis pos m s in Done (negb r.1, r.2)).

Lemma visitor_ok m e s : rec_at m e -> visitor vis e.1 m s = Done (vis e.2 s).
Proof.
  intros (H1 & H2 & H3). unfold visitor. rewrite (ld_ok _ _ _ H1), (ld_ok _ _ _ H2), (ld_ok _ _ _ H3).
  by destruct e as [n [[p z] y]].
Qed.

(** A walk ends at NULL exactly when the visitor wants to go on. *)
Definition visits (obj : Z) (l : list rec) (s : A) : Prop :=
  forall k, visit_all vis (l ++ k) s =
    if obj =? 0 then visit_all vis k (visit_all vis l s) else visit_all vis l s.

Lemma each_visit m (L : list (Z * rec)) s :
  (forall e, e ∈ L -> rec_at m e /\ e.1 <> 0) ->
  exists obj, each (fst <$> L) (vbody m) s = Done (obj, visit_all vis (snd <$> L) s) /\ visits obj (snd <$> L) s.
Proof.
  revert s. induction L as [|e L IH]; intros s H; [exists 0; done|].
  destruct (H e ltac:(constructor)) as [He Hn]. rewrite !fmap_cons. cbn [each visit_all].
  rewrite visitor_ok by done. cbn [obind fst snd]. destruct (vis e.2 s) as [[] s'] eqn:Ev; cbn [fst snd negb].
  - destruct (IH s') as (obj & -> & Hv); [intros; apply H; by constructor|]. exists obj. split; [done|].
    intros k. cbn [app visit_all]. rewrite Ev. apply Hv.
  - exists e.1. split; [done|]. intros k. cbn [app visit_all]. rewrite Ev. by rewrite (proj2 (Z.eqb_neq e.1 0)).
Qed.

Lemma in_bucket_live b (live : list (Z * rec)) :
  in_bucket b (snd <$> live) = snd <$> filter (fun e => hash_of e.2 = b) live.
Proof.
  unfold in_bucket. induction live as [|e live IH]; [done|]. rewrite fmap_cons, !filter_cons.
  destruct (decide (hash_of e.2 = b)); rewrite IH; done.
Qed.

Lemma hash_for_each_ok t N mfree m live free n : forall bkt s,
  ok t N mfree m live free -> 0 <= bkt -> bkt + Z.of_nat n = HASH_SIZE ->
  exists obj, hash_for_each_from n bkt (tr_hashtbl t) (vbody m) m s =
    Done (obj, visit_all vis (seqZ bkt (Z.of_nat n) ≫= fun b => in_bucket b (snd <$> live)) s).
Proof.
  induction n as [|n IH]; intros bkt s Ho Hb Hn; [by exists 0|].
  cbn [hash_for_each_from]. rewrite <- obind_assoc, (chain_walk _ _ _ _ _ _ bkt _ _ Ho) by lia. unfold node_list.
  destruct (each_visit m (filter (fun e => hash_of e.2 = bkt) live) s) as (obj & -> & Hv).
  { intros e [_ He]%list_elem_of_filter. split; [by apply (ok_recs _ _ _ _ _ _ Ho)|].
    eapply pool_addr; [done|]. apply (proj1 (ok_pool_nodes _ _ _ _ _ _ Ho)). apply list_elem_of_fmap. eauto. }
  rewrite <- in_bucket_live in *. cbn [obind fst snd].
  rewrite (seqZ_cons bkt) by lia. rewrite bind_cons.
  replace (Z.pred (Z.of_nat (S n))) with (Z.of_nat n) by lia. rewrite Hv.
  destruct (obj =? 0); [|eauto]. replace (bkt + 1) with (Z.succ bkt) by lia. apply IH; [done|lia|lia].
Qed.

Lemma visit_ok t N mfree m live free s : ok t N mfree m live free ->
  mb_tracer_visit t (Some (visitor vis)) m s = Done (visit_all vis (walk (snd <$> live)) s).
Proof.
  intros Ho. unfold mb_tracer_visit. pose proof (ok_addr _ _ _ _ _ _ Ho).
  rewrite (proj2 (Z.eqb_neq t 0)) by lia. cbn [negb]. unfold hash_for_each.
  destruct (hash_for_each_ok t N mfree m live free (Z.to_nat HASH_SIZE) 0 s Ho) as (obj & ->); [lia|done|done].
Qed.
End Visit.

(** ** A new tracer *)

Lemma memset0_ok n : forall p m,
  (forall k, 0 <= k < Z.of_nat n -> is_Some (m !! (p + 4 * k))) ->
  exists m', memset0 n p m = Done m' /\ stays_mapped m m' /\
    (forall k, 0 <= k < Z.of_nat n -> m' !! (p + 4 * k) = Some 0) /\
    (forall x, x < p -> m' !! x = m !! x).
Proof.
  induction n as [|n IH]; intros p m Hm; [exists m; split_and!; [done|by intros ?|lia|done]|].
  cbn [memset0]. rewrite st_ok by (replace p with (p + 4 * 0) by lia; apply Hm; lia). cbn [obind].
  destruct (IH (p + 4) (<[p := 0]> m)) as (m' & -> & Hs & Hk & Hx).
  { intros k Hk. apply insert_is_Some. replace (p + 4 + 4 * k) with (p + 4 * (k + 1)) by lia. apply Hm. lia. }
  exists m'. split_and!; [done|intros x Hx'; by apply Hs, insert_is_Some| |].
  - intros k Hk2. destruct (decide (k = 0)) as [->|].
    + replace (p + 4 * 0) with p by lia. rewrite Hx by lia. by lk.
    + replace (p + 4 * k) with (p + 4 + 4 * (k - 1)) by lia. apply Hk. lia.
  - intros x Hx'. rewrite Hx by lia. by lk.
Qed.

(** The nodes from index [i], the last in front. *)
Lemma init_freelist_ok t n : forall i m free,
  0 < t -> 0 <= i ->
  is_Some (m !! tr_freelist t) ->
  (forall j, i <= j < i + Z.of_nat n -> is_Some (m !! (tr_freends t + sizeof_mb_node * j))) ->
  m !! tr_freelist t = Some (after free) -> free_links m free ->
  (forall x, x ∈ free -> x < tr_freends t + sizeof_mb_node * i /\ x <> tr_freelist t) ->
  exists m', init_freelist n t (tr_freends t + sizeof_mb_node * i) m = Done m' /\ stays_mapped m m' /\
    let free' := reverse ((fun j => tr_freends t + sizeof_mb_node * j) <$> seqZ i (Z.of_nat n)) ++ free in
    m' !! tr_freelist t = Some (after free') /\ free_links m' free'.
Proof.
  induction n as [|n IH]; intros i m free Ht Hi Hfl Hm Hh Hf Hx.
  { exists m. split; [done|]. split; [by intros ?|]. split; [exact Hh|exact Hf]. }
  cbn [init_freelist]. rewrite (ld_ok _ _ _ Hh). cbn [obind].
  pose proof (Hm i ltac:(lia)) as Hmi. set (x := tr_freends t + sizeof_mb_node * i) in *.
  rewrite st_ok by done. cbn [obind]. rewrite st_ok by (by apply insert_is_Some). cbn [obind].
  replace (x + sizeof_mb_node) with (tr_freends t + sizeof_mb_node * (i + 1)) by (unfold x; addr_unfold; lia).
  assert (x <> tr_freelist t) as Hne by (unfold x; addr_unfold; lia).
  destruct (IH (i + 1) (<[tr_freelist t := x]> (<[x := after free]> m)) (x :: free)) as (m' & -> & Hs & H1 & H2).
  - done.
  - lia.
  - by do 2 apply insert_is_Some.
  - intros j Hj. do 2 apply insert_is_Some. apply Hm. lia.
  - by rewrite lookup_insert_eq.
  - split; [by rewrite lookup_insert_ne, lookup_insert_eq by done|].
    eapply free_links_ext; [|exact Hf]. intros y Hy. destruct (Hx y Hy).
    rewrite !lookup_insert_ne; [done|lia|congruence].
  - intros y [->|Hy]%elem_of_cons; [split; [unfold x; addr_unfold; lia|done]|].
    destruct (Hx y Hy). split; [addr_unfold; lia|done].
  - exists m'. split; [done|]. split; [intros y Hy; by apply Hs; do 2 apply insert_is_Some|].
    rewrite (seqZ_cons i) by lia. replace (Z.pred (Z.of_nat (S n))) with (Z.of_nat n) by lia.
    cbv zeta in *. rewrite fmap_cons, reverse_cons, <- app_assoc. replace (Z.succ i) with (i + 1) by lia. done.
Qed.

Lemma hash_init_ok t n : forall i m,
  (forall b, i <= b < i + Z.of_nat n -> is_Some (m !! (bucket t b))) ->
  exists m', hash_init_from n i t m = Done m' /\ stays_mapped m m' /\
    (forall b, i <= b < i + Z.of_nat n -> m' !! bucket t b = Some 0) /\
    (forall x, (forall b, i <= b < i + Z.of_nat n -> x <> bucket t b) -> m' !! x = m !! x).
Proof.
  induction n as [|n IH]; intros i m Hm; [exists m; split_and!; [done|by intros ?|lia|done]|].
  cbn [hash_init_from]. unfold INIT_HLIST_HEAD, first. rewrite st_ok by (apply Hm; lia). cbn [obind].
  destruct (IH (i + 1) (<[bucket t i := 0]> m)) as (m' & -> & Hs & H1 & H2).
  { intros b Hb. apply insert_is_Some, Hm. lia. }
  exists m'. split_and!; [done|intros x Hx; by apply Hs, insert_is_Some| |].
  - intros b Hb. destruct (decide (b = i)) as [->|]; [|apply H1; lia].
    rewrite H2; [by lk|]. intros b Hb2. unfold bucket. lia.
  - intros x Hx. rewrite H2; [|intros b Hb; apply Hx; lia]. apply lookup_insert_ne. intros <-. apply (Hx i); [lia|done].
Qed.

Lemma create_ok call_alloc N alloc mfree m t m1 :
  0 < N -> sizeof_mb_tracer + sizeof_mb_node * N < 2 ^ 32 -> alloc <> 0 -> mfree <> 0 ->
  call_alloc alloc (sizeof_mb_tracer + sizeof_mb_node * N) m = Done (t, m1) -> 0 < t ->
  (forall k, 0 <= k < 260 + 5 * N -> is_Some (m1 !! (t + 4 * k))) ->
  exists m', mb_tracer_create call_alloc N alloc mfree m = Done (t, None, m') /\
    ok t N mfree m' [] (reverse (pool t N)).
Proof.
  intros HN Hw Ha Hf Ec Ht Hm. unfold mb_tracer_create.
  rewrite (proj2 (Z.eqb_neq N 0)), (proj2 (Z.eqb_neq alloc 0)), (proj2 (Z.eqb_neq mfree 0)) by lia. cbn [orb].
  unfold sizeof_mb_tracer, sizeof_mb_node in *. rewrite (wrap_small 32 (20 * N)) by (split; lia).
  rewrite (wrap_small 32 (1040 + 20 * N)) by (split; lia). rewrite Ec. cbn [obind].
  rewrite (proj2 (Z.eqb_neq t 0)) by lia.
  replace (Z.to_nat ((1040 + 20 * N) / 4)) with (Z.to_nat (260 + 5 * N)) by (f_equal; zlia).
  destruct (memset0_ok (Z.to_nat (260 + 5 * N)) t m1) as (m2 & -> & Hs2 & Hz2 & _); [intros; apply Hm; lia|].
  rewrite Z2Nat.id in Hz2 by lia. cbn [obind].
  assert (forall k, 0 <= k < 260 + 5 * N -> is_Some (m2 !! (t + 4 * k))) as Hm2 by (intros; by apply Hs2, Hm).
  destruct (init_freelist_ok t (Z.to_nat N) 0 m2 []) as (m3 & E3 & Hs3 & H3 & H3').
  { done. } { done. }
  { unfold tr_freelist. replace (t + 1032) with (t + 4 * 258) by lia. apply Hm2. lia. }
  { intros j Hj. addr_unfold. replace (t + 1040 + 20 * j) with (t + 4 * (260 + 5 * j)) by lia. apply Hm2. lia. }
  { unfold tr_freelist. replace (t + 1032) with (t + 4 * 258) by lia. apply Hz2. lia. }
  { done. } { set_solver. }
  unfold sizeof_mb_node in E3. rewrite Z.add_0_r in E3. rewrite E3. cbn [obind].
  rewrite Z2Nat.id, app_nil_r in H3, H3' by lia. fold (pool t N) in H3, H3'.
  assert (forall k, 0 <= k < 260 + 5 * N -> is_Some (m3 !! (t + 4 * k))) as Hm3 by (intros; by apply Hs3, Hm2).
  unfold hash_init, tr_hashtbl. destruct (hash_init_ok t (Z.to_nat HASH_SIZE) 0 m3) as (m4 & -> & Hs4 & H4 & H4').
  { unfold bucket, HASH_SIZE. intros. apply Hm3. lia. }
  cbn [obind]. change (Z.of_nat (Z.to_nat HASH_SIZE)) with 256 in *.
  assert (forall k, 0 <= k < 260 + 5 * N -> is_Some (m4 !! (t + 4 * k))) as Hm4 by (intros; by apply Hs4, Hm3).
  rewrite st_ok by (unfold tr_free; replace (t + 1028) with (t + 4 * 257) by lia; apply Hm4; lia). cbn [obind].
  rewrite st_ok by (apply insert_is_Some; unfold tr_size; replace (t + 1036) with (t + 4 * 259) by lia; apply Hm4; lia).
  cbn [obind]. eexists; split; [done|].
  assert (forall x, x <> tr_free t -> x <> tr_size t ->
    (<[tr_size t := N]> (<[tr_free t := mfree]> m4)) !! x = m4 !! x) as Hx.
  { intros x H1 H2. by rewrite !lookup_insert_ne by done. }
  split.
  - done.
  - simpl. by rewrite reverse_Permutation.
  - intros b Hb. change (node_list b []) with (@nil Z). unfold HASH_SIZE in Hb. split; [|split; [done|]].
    + split; [apply NoDup_singleton|set_solver].
    + unfold endp. simpl. rewrite Hx; [apply H4; lia|unfold tr_free, bucket; lia|unfold tr_size, bucket; lia].
  - set_solver.
  - rewrite Hx by (unfold tr_free, tr_size, tr_freelist; lia). rewrite H4'; [done|].
    intros b Hb. unfold tr_freelist, bucket. lia.
  - eapply free_links_ext; [|exact H3']. intros n Hn. rewrite reverse_Permutation in Hn.
    apply pool_elem in Hn as (i & Hi & ->). rewrite Hx by (unfold tr_free, tr_size; lia).
    apply H4'. intros b Hb. unfold bucket. lia.
  - intros k Hk. by do 2 apply insert_is_Some; apply Hm4.
  - unfold tr_free, tr_size. rewrite lookup_insert_ne by lia. by rewrite lookup_insert_eq.
Qed.

Lemma live_count t N mfree m live free : ok t N mfree m live free -> 0 <= N ->
  len (snd <$> live) + len free = N.
Proof.
  intros Ho HN. pose proof (Permutation_length (ok_pool _ _ _ _ _ _ Ho)) as H.
  unfold pool in H. rewrite length_app, !length_fmap, length_seqZ in H. unfold len. rewrite length_fmap. lia.
Qed.

(** One call, and a sequence of calls. *)
Lemma run_ok {A} (vis : Z * Z * Z -> A -> bool * A) t N mfree cs : forall m live free s,
  ok t N mfree m live free -> 0 <= N ->
  exists m' live' free' rs s', run vis t cs m s = Done (rs, s', m') /\
    run_spec vis N cs (snd <$> live) s = (rs, s', snd <$> live') /\ ok t N mfree m' live' free'.
Proof.
  induction cs as [|c cs IH]; intros m live free s Ho HN; [exists m, live, free, [], s; done|].
  assert (forall m1 live1 free1 rs1 s1, ok t N mfree m1 live1 free1 ->
    exists m' live' free' rs s', (let* k := run vis t cs m1 s1 in let '(rs', s, m) := k in Done (rs1 ++ rs', s, m))
        = Done (rs, s', m') /\
      (let '(rs', s, l) := run_spec vis N cs (snd <$> live1) s1 in (rs1 ++ rs', s, l)) = (rs, s', snd <$> live') /\
      ok t N mfree m' live' free') as Hstep.
  { intros m1 live1 free1 rs1 s1 Ho1. destruct (IH m1 live1 free1 s1 Ho1 HN) as (m' & live' & free' & rs & s' & -> & -> & ?).
    exists m', live', free', (rs1 ++ rs), s'. done. }
  cbn [run run_spec]. destruct c as [p z y|p|].
  - pose proof (live_count _ _ _ _ _ _ Ho HN) as Hc. destruct free as [|n free].
    + rewrite (add_full _ _ _ _ _ _ _ _ Ho). cbn [obind fst snd]. rewrite (proj2 (Z.ltb_ge _ _)) by (unfold len in *; simpl in Hc; lia).
      by apply (Hstep m live []).
    + destruct (tracer_add_ok t N mfree m live n free p z y Ho) as (m1 & -> & Ho1). cbn [obind fst snd].
      rewrite (proj2 (Z.ltb_lt _ _)) by (rewrite len_cons in Hc; pose proof (len_nonneg free); lia).
      apply (Hstep m1 _ free [0] s Ho1).
  - destruct (live_cases p live) as [Hn|(l1 & e & l2 & -> & He & Hl1)].
    + rewrite (del_missing _ _ _ _ _ _ _ Ho Hn), remove_first_none by done. cbn [obind fst snd]. by apply (Hstep m live free).
    + destruct (del_ok t N mfree m l1 e l2 free p Ho He Hl1) as (m1 & -> & Ho1). rewrite remove_first_some by done.
      cbn [obind fst snd]. by apply (Hstep m1 _ (e.1 :: free)).
  - rewrite (visit_ok vis _ _ _ _ _ _ s Ho). cbn [obind]. by apply (Hstep m live free).
Qed.

(** C22: the tracer is a list of at most [maxitems] records, the newest
    first. [mb_tracer_create] makes an empty one, with the allocator called
    once; then, for every sequence of calls, [mb_tracer_add] adds a record
    or refuses with -ENOMEM when there are [maxitems], [mb_tracer_del] takes
    out the newest record of the pointer or answers -ENODATA, and
    [mb_tracer_visit] shows the records, bucket by bucket, until the visitor
    returns false; [mb_tracer_destory] gives the object to the function
    [mb_tracer_create] was told. No call fails or reads outside of the
    object, and nodes that are given back can be used again. *)
Theorem mb_tracer_refines {A} (vis : Z * Z * Z -> A -> bool * A) call_alloc call_free N alloc mfree m t m1 cs s :
  0 < N -> sizeof_mb_tracer + sizeof_mb_node * N < 2 ^ 32 -> alloc <> 0 -> mfree <> 0 ->
  call_alloc alloc (sizeof_mb_tracer + sizeof_mb_node * N) m = Done (t, m1) -> 0 < t ->
  (forall k, 0 <= k < 260 + 5 * N -> is_Some (m1 !! (t + 4 * k))) ->
  exists m2 m3, mb_tracer_create call_alloc N alloc mfree m = Done (t, None, m2) /\
    run vis t cs m2 s = Done ((run_spec vis N cs [] s).1, m3) /\
    mb_tracer_destory call_free t m3 = call_free mfree t m3.
Proof.
  intros HN Hw Ha Hf Ec Ht Hm. destruct (create_ok call_alloc N alloc mfree m t m1) as (m2 & E2 & Ho); [done..|].
  destruct (run_ok vis t N mfree cs m2 [] _ s Ho ltac:(lia)) as (m3 & live & free & rs & s' & E3 & Es & Ho3).
  exists m2, m3. split; [done|]. change (snd <$> []) with (@nil rec) in Es. rewrite Es. split; [done|].
  unfold mb_tracer_destory. rewrite (proj2 (Z.eqb_neq t 0)) by lia. cbn [negb].
  by rewrite (ld_ok _ _ _ (ok_mfree _ _ _ _ _ _ Ho3)).
Qed.

(** An allocator of one object at 4096. *)
Definition alloc_example (_ size : Z) (m : mem) : outcome (Z * mem) :=
  Done (4096, list_to_map ((fun k => (4096 + 4 * k, 7)) <$> seqZ 0 (size / 4)) ∪ m).
Definition free_example (_ _ : Z) (m : mem) : outcome mem := Done m.
Definition calls_example : list call :=
  [Add 16 1 2; Add 32 3 4; Add 16 5 6; Visit; Delete 16; Delete 48; Add 64 7 8; Add 80 9 0; Visit].

Lemma mb_tracer_refines_witness :
  exists m2 m3, mb_tracer_create alloc_example 3 1 2 ∅ = Done (4096, None, m2) /\
    run (fun r s => (true, s ++ [r])) 4096 calls_example m2 [] =
      Done ((run_spec (fun r s => (true, s ++ [r])) 3 calls_example [] []).1, m3) /\
    mb_tracer_destory free_example 4096 m3 = free_example 2 4096 m3.
Proof.
  refine (mb_tracer_refines (fun r s => (true, s ++ [r])) alloc_example free_example 3 1 2 ∅ 4096 _ calls_example [] _ _ _ _ _ _ _).
  - lia.
  - vm_compute. reflexivity.
  - lia.
  - lia.
  - reflexivity.
  - lia.
  - intros k Hk. apply lookup_union_is_Some. left.
    change ((sizeof_mb_tracer + sizeof_mb_node * 3) / 4) with 275.
    apply elem_of_dom. rewrite dom_list_to_map. apply elem_of_list_to_set, list_elem_of_fmap.
    exists (4096 + 4 * k, 7). split; [done|]. apply list_elem_of_fmap. exists k. split; [done|]. apply elem_of_seqZ. lia.
Defined.

(** The results of the example: 64 and 80 take the places of the newest 16
    and of the last free node, and the table is full after that. *)
Example tracer_example_results :
  (run_spec (fun r s => (true, s ++ [r])) 3 calls_example [] []).1.1 = [0; 0; 0; 0; - ENODATA; 0; - ENOMEM].
Proof. vm_compute. reflexivity. Qed.

(** The size of the object is computed in 32 bits without a check: 214748365
    nodes of 20 bytes are 4 bytes, and the second node is outside. *)
Lemma tracer_size_overflows : mb_tracer_create alloc_example 214748365 1 2 ∅ = Undef.
Proof.
  unfold mb_tracer_create. replace (Z.to_nat 214748365) with (S (S (Z.to_nat 214748363))) by lia.
  generalize (Z.to_nat 214748363). intros n. vm_compute. reflexivity.
Qed.
End MbTrace.
