(* ===== verification/RunQueue.v ===== *)
(** * rq.c : the run queue

    A list of free nodes and a list of pending ones. Other threads submit
    work; the service thread takes it from the front and runs it. Every
    critical section is one step, so the commands below can follow each other
    in any order a scheduler may choose. After [os_resched] the service thread
    goes back to the head of its loop without the lock: it looks at the list,
    takes the first node off it and then unlocks a mutex that it does not own.
    This is a window of its own, from the first look at the list to that
    unlock. A critical section of another thread that overlaps it races with
    the service thread on the pointers of the list and has its mutex unlocked,
    which is undefined; [rq_unlocked_pop_loses_job] shows on the pointers what
    can happen then. The unlock itself, of a mutex that nobody owns, is taken
    to have no effect; [unheld] counts how often it happens. *)
From Stdlib Require Import ZArith Lia Bool.
From stdpp Require Import base list numbers gmap.
From S2P Require Import Prelude DList.

Module RunQueue.

(** ** Data *)

(** [exec] and [arg] of a node: the user's function with its argument, or
    [exec_adaptor_cb] with a [struct buffer_hdr]. *)
Inductive work := Direct (fn arg : Z) | Adaptor (bh : nat).
#[export] Instance work_eq_dec : EqDecision work.
Proof. solve_decision. Defined.

Record buffer_hdr := mk_hdr { cb : Z; data : list Z }.

Record rq_context := mk_rq {
  frees : list nat;            (* nodes, by their index in the buffer *)
  pending : list nat;
  proc : nat;                  (* value of the semaphore *)
  buffer : Z;                  (* address; 0 is NULL *)
  nq : Z;
}.

(** Where the service thread is in [_rq_schedule]: at the head of the loop
    with or without the lock, in [sem_wait], before the call of a node's
    function, or after it. Without the lock, it has seen the node [rn] at the
    front of the list (Removing) or the list empty (Leaving), and has not come
    to the unlock yet. *)
Inductive pc := Locked | Woken | Removing (rn : nat) | Leaving | Sleeping | Calling (rn : nat) (fn : work) | Finished (rn : nat).
#[export] Instance pc_eq_dec : EqDecision pc.
Proof. solve_decision. Defined.

(** A submission with a copy between its two critical sections. *)
Record reserved := mk_reserved { r_node : nat; r_bh : nat; r_cb : Z; r_data : list Z; r_prepend : bool }.

Record world := mk_world {
  ctx : rq_context;
  nodes : gmap nat work;             (* exec and arg of the nodes *)
  bufs : gmap nat buffer_hdr;        (* allocated headers *)
  next_bh : nat;
  held : list reserved;
  thread : pc;
  unheld : nat;                      (* unlocks of the mutex by a thread that does not own it *)
}.

Definition set_ctx (c : rq_context) (w : world) : world :=
  mk_world c (nodes w) (bufs w) (next_bh w) (held w) (thread w) (unheld w).
Definition set_lists (f p : list nat) (s : nat) (c : rq_context) : rq_context := mk_rq f p s (buffer c) (nq c).
Definition set_node (rn : nat) (k : work) (w : world) : world :=
  mk_world (ctx w) (<[rn := k]> (nodes w)) (bufs w) (next_bh w) (held w) (thread w) (unheld w).
Definition set_bufs (b : gmap nat buffer_hdr) (n : nat) (w : world) : world :=
  mk_world (ctx w) (nodes w) b n (held w) (thread w) (unheld w).
Definition set_held (h : list reserved) (w : world) : world :=
  mk_world (ctx w) (nodes w) (bufs w) (next_bh w) h (thread w) (unheld w).
Definition set_thread (t : pc) (w : world) : world :=
  mk_world (ctx w) (nodes w) (bufs w) (next_bh w) (held w) t (unheld w).
(** [os_critical_unlock] by a thread that does not hold the mutex. *)
Definition unlock_unheld (w : world) : world :=
  mk_world (ctx w) (nodes w) (bufs w) (next_bh w) (held w) (thread w) (S (unheld w)).

(** What an observer sees. *)
Inductive job := JDirect (fn arg : Z) | JCopy (fn : Z) (bytes : list Z).
#[export] Instance job_eq_dec : EqDecision job.
Proof. solve_decision. Defined.
Inductive event :=
| EvSubmit (j : job) (prepend : bool)   (* _rq_submit returns 0 *)
| EvBusy                                (* a submission returns -EBUSY *)
| EvReserve                             (* _rq_submit_with_copy has a node *)
| EvPublish (j : job) (prepend : bool)  (* ... and returns 0 *)
| EvTake                                (* the service thread takes the first node *)
| EvRun (j : job)                       (* it calls the function *)
| EvDone                                (* the node is free again *)
| EvSleep                               (* nothing is pending *)
| EvReset.                              (* _rq_reset *)

(** ** Operations *)

Definition NODE_SIZE : Z := 32.

(** [_rq_static_init (rq)] *)
Definition _rq_static_init (c : rq_context) : rq_context :=
  mk_rq (seq 0 (Z.to_nat (nq c))) [] 0 (buffer c) (nq c).

(** [_rq_init (rq, buffer, size)], where [rq] is not NULL *)
Definition _rq_init (c : rq_context) (buf size : Z) : Z * rq_context :=
  if (buf =? 0) || negb (Z.land buf 3 =? 0) then (- EINVAL, c)
  else if size <? NODE_SIZE then (- EINVAL, c)
  else (0, _rq_static_init (mk_rq (frees c) (pending c) (proc c) buf (u16 (size / NODE_SIZE)))).

(** [rq_init (rq)]; [sys] is [_system_rq] (NULL or an address), [self] the
    address of [rq]. *)
Definition rq_init (self : Z) (sys : Z) (c : rq_context) : Z * Z * rq_context :=
  if (buffer c =? 0) || (nq c =? 0) then (- EINVAL, sys, c)
  else (0, if sys =? 0 then self else sys, _rq_static_init c).

Definition rq_put_locked (rn : nat) (c : rq_context) : rq_context :=
  set_lists (rn :: frees c) (pending c) (proc c) c.

Definition rq_get_first_locked (head : list nat) : option (nat * list nat) :=
  match head with
  | rn :: head => Some (rn, head)
  | [] => None
  end.

Definition rq_add_node_locked (rn : nat) (prepend : bool) (c : rq_context) : rq_context :=
  let need_wakeup := match pending c with [] => true | _ => false end in
  let p := if prepend then rn :: pending c else pending c ++ [rn] in
  set_lists (frees c) p (if need_wakeup then S (proc c) else proc c) c.

(** [_rq_submit (rq, exec, arg, prepend)] *)
Definition _rq_submit (exec arg : Z) (prepend : bool) (w : world) : world * list event :=
  match rq_get_first_locked (frees (ctx w)) with
  | None => (w, [EvBusy])
  | Some (rn, f) =>
      let w := set_ctx (set_lists f (pending (ctx w)) (proc (ctx w)) (ctx w)) w in
      let w := set_node rn (Direct exec arg) w in
      (set_ctx (rq_add_node_locked rn prepend (ctx w)) w, [EvSubmit (JDirect exec arg) prepend])
  end.

(** [_rq_submit_with_copy] up to the end of its first critical section; [ok]
    is the answer of the allocator. *)
Definition rq_submit_reserve (ok : bool) (exec : Z) (bytes : list Z) (prepend : bool) (w : world)
    : outcome (world * list event) :=
  assert* ok in
  let bh := next_bh w in
  (* the buffer is allocated, and freed again when there is no node *)
  let alloc := <[bh := mk_hdr 0 []]> (bufs w) in
  match rq_get_first_locked (frees (ctx w)) with
  | None => Done (set_bufs (delete bh alloc) (S bh) w, [EvBusy])
  | Some (rn, f) =>
      let w := set_bufs alloc (S bh) w in
      let w := set_ctx (set_lists f (pending (ctx w)) (proc (ctx w)) (ctx w)) w in
      Done (set_held (held w ++ [mk_reserved rn bh exec bytes prepend]) w, [EvReserve])
  end.

(** The rest of it, for the [i]-th submission under way. *)
Definition rq_submit_publish (i : nat) (w : world) : world * list event :=
  match held w !! i with
  | None => (w, [])
  | Some r =>
      let w := set_held (delete i (held w)) w in
      let w := set_bufs (<[r_bh r := mk_hdr (r_cb r) (r_data r)]> (bufs w)) (next_bh w) w in
      let w := set_node (r_node r) (Adaptor (r_bh r)) w in
      (set_ctx (rq_add_node_locked (r_node r) (r_prepend r) (ctx w)) w,
       [EvPublish (JCopy (r_cb r) (r_data r)) (r_prepend r)])
  end.

(** [_rq_reset (rq)] *)
Definition _rq_reset (w : world) : world * list event :=
  (set_ctx (set_lists (frees (ctx w) ++ pending (ctx w)) [] (proc (ctx w)) (ctx w)) w, [EvReset]).

(** [fn (rn->arg)]; [exec_adaptor_cb] frees the copy. *)
Definition exec_work (k : work) (w : world) : outcome (world * job) :=
  match k with
  | Direct fn arg => Done (w, JDirect fn arg)
  | Adaptor bh =>
      match bufs w !! bh with
      | None => Undef
      | Some h => Done (set_bufs (delete bh (bufs w)) (next_bh w) w, JCopy (cb h) (data h))
      end
  end.

(** The rest of [rq_get_first_locked], which takes the first node [rn] off the
    list and leaves [p], and [fn = rn->exec]. *)
Definition take_first (rn : nat) (p : list nat) (w : world) : outcome (world * list event) :=
  let w := set_ctx (set_lists (frees (ctx w)) p (proc (ctx w)) (ctx w)) w in
  match nodes w !! rn with
  | None => Undef
  | Some fn => Done (set_thread (Calling rn fn) w, [EvTake])
  end.

(** One step of [_rq_schedule]: with the lock, up to the unlock; without it,
    the first access to the list and the rest up to the unlock are two. *)
Definition rq_schedule_step (w : world) : outcome (world * list event) :=
  match thread w with
  | Locked =>
      match rq_get_first_locked (pending (ctx w)) with
      | None => Done (set_thread Sleeping w, [EvSleep])
      | Some (rn, p) => take_first rn p w
      end
  | Woken =>
      match rq_get_first_locked (pending (ctx w)) with
      | None => Done (set_thread Leaving w, [])
      | Some (rn, _) => Done (set_thread (Removing rn) w, [])
      end
  | Leaving => Done (set_thread Sleeping (unlock_unheld w), [EvSleep])
  | Removing rn =>
      match pending (ctx w) with
      | x :: p => if Nat.eqb x rn then take_first rn p (unlock_unheld w) else Undef
      | [] => Undef
      end
  | Sleeping =>
      match proc (ctx w) with
      | O => Done (w, [])
      | S n => Done (set_thread Woken (set_ctx (set_lists (frees (ctx w)) (pending (ctx w)) n (ctx w)) w), [])
      end
  | Calling rn fn =>
      let* r := exec_work fn w in
      Done (set_thread (Finished rn) r.1, [EvRun r.2])
  | Finished rn => Done (set_thread Locked (set_ctx (rq_put_locked rn (ctx w)) w), [EvDone])
  end.

(** The service thread is at the list without the lock. *)
Definition in_window (t : pc) : bool := match t with Removing _ | Leaving => true | _ => false end.

(** What may happen next: a critical section of some thread that submits or
    resets, or a step of the service thread. *)
Inductive cmd :=
| Submit (exec arg : Z) (prepend : bool)
| SubmitCopy (ok : bool) (exec : Z) (bytes : list Z) (prepend : bool)
| Publish (i : nat)
| Reset
| Service.

(** A critical section in the window is undefined. *)
Definition critical (w : world) (r : outcome (world * list event)) : outcome (world * list event) :=
  if in_window (thread w) then Undef else r.

Definition rq_step (c : cmd) (w : world) : outcome (world * list event) :=
  match c with
  | Submit exec arg prepend => critical w (Done (_rq_submit exec arg prepend w))
  | SubmitCopy ok exec bytes prepend => critical w (rq_submit_reserve ok exec bytes prepend w)
  | Publish i => critical w (Done (rq_submit_publish i w))
  | Reset => critical w (Done (_rq_reset w))
  | Service => rq_schedule_step w
  end.

Fixpoint rq_run (cs : list cmd) (w : world) : outcome (world * list event) :=
  match cs with
  | [] => Done (w, [])
  | c :: cs =>
      let* r := rq_step c w in
      let* s := rq_run cs r.1 in
      Done (s.1, r.2 ++ s.2)
  end.

(** No critical section of another thread falls into the window. *)
Fixpoint undisturbed (cs : list cmd) (w : world) : bool :=
  match cs with
  | [] => true
  | c :: cs =>
      match c with Service => true | _ => negb (in_window (thread w)) end &&
      match rq_step c w with Done r => undisturbed cs r.1 | _ => true end
  end.

(** The service thread starts with the lock ([rq_main_thread]). *)
Definition rq_start (c : rq_context) : world := mk_world c ∅ ∅ 0 [] Locked 0.

(** [_rq_new_thread (rq, stack, size, posix_prio)] up to [pthread_create],
    whose answer is [created]. *)
Definition _rq_new_thread (self sys : Z) (created : Z) (c : rq_context) : Z * Z * option world :=
  if (buffer c =? 0) || (nq c =? 0) then (- EINVAL, sys, None)
  else let '(_, sys, c) := rq_init self sys c in
       (created, sys, if created =? 0 then Some (rq_start c) else None).

(** ** The bounded queue that it implements

    [q_out] counts the nodes that are neither free nor pending. *)
Record bq := mk_bq { q_jobs : list job; q_current : option job; q_out : nat }.

Definition q_insert (j : job) (prepend : bool) (l : list job) : list job :=
  if prepend then j :: l else l ++ [j].

Definition q_room (n : nat) (a : bq) : bool := bool_decide (length (q_jobs a) + q_out a < n)%nat.

Definition q_step (n : nat) (e : event) (a : bq) : option bq :=
  match e with
  | EvSubmit j p => if q_room n a then Some (mk_bq (q_insert j p (q_jobs a)) (q_current a) (q_out a)) else None
  | EvBusy => if q_room n a then None else Some a
  | EvReserve => if q_room n a then Some (mk_bq (q_jobs a) (q_current a) (S (q_out a))) else None
  | EvPublish j p =>
      match q_out a with
      | S o => Some (mk_bq (q_insert j p (q_jobs a)) (q_current a) o)
      | O => None
      end
  | EvTake =>
      match q_jobs a, q_current a with
      | j :: l, None => Some (mk_bq l (Some j) (S (q_out a)))
      | _, _ => None
      end
  | EvRun j => if decide (q_current a = Some j) then Some (mk_bq (q_jobs a) None (q_out a)) else None
  | EvDone =>
      match q_current a, q_out a with
      | None, S o => Some (mk_bq (q_jobs a) None o)
      | _, _ => None
      end
  | EvSleep => match q_jobs a with [] => Some a | _ => None end
  | EvReset => Some (mk_bq [] (q_current a) (q_out a))
  end.

Fixpoint q_run (n : nat) (es : list event) (a : bq) : option bq :=
  match es with
  | [] => Some a
  | e :: es => a' ← q_step n e a; q_run n es a'
  end.

(** ** The invariant *)

Definition buf_of (k : work) : list nat := match k with Direct _ _ => [] | Adaptor b => [b] end.
Definition job_of (b : gmap nat buffer_hdr) (k : work) : option job :=
  match k with
  | Direct fn arg => Some (JDirect fn arg)
  | Adaptor bh => h ← b !! bh; Some (JCopy (cb h) (data h))
  end.
Definition node_job (w : world) (rn : nat) : option job := k ← nodes w !! rn; job_of (bufs w) k.

Definition busy_nodes (t : pc) : list nat :=
  match t with Calling rn _ => [rn] | Finished rn => [rn] | _ => [] end.
Definition busy_bufs (t : pc) : list nat := match t with Calling _ k => buf_of k | _ => [] end.
Definition node_bufs (m : gmap nat work) (rn : nat) : list nat := default [] (buf_of <$> m !! rn).

(** Each node is in one place. *)
Definition all_nodes (w : world) : list nat :=
  frees (ctx w) ++ pending (ctx w) ++ map r_node (held w) ++ busy_nodes (thread w).
(** The copies in use. *)
Definition live_bufs (w : world) : list nat :=
  concat (map (node_bufs (nodes w)) (pending (ctx w))) ++ map r_bh (held w) ++ busy_bufs (thread w).

(** The invariant but for the nodes [xs] and the copies [bs], which the
    critical section under way has in its hands. *)
Record rq_inv_but (n : nat) (xs bs : list nat) (w : world) : Prop := {
  inv_nodes : xs ++ all_nodes w ≡ₚ seq 0 n;
  inv_jobs : forall rn, rn ∈ pending (ctx w) -> is_Some (node_job w rn);
  inv_current : match thread w with Calling _ k => is_Some (job_of (bufs w) k) | _ => True end;
  inv_bufs : NoDup (bs ++ live_bufs w);
  inv_fresh : forall b, (next_bh w <= b)%nat -> b ∉ bs ++ live_bufs w;
  inv_wake : thread w = Sleeping -> pending (ctx w) <> [] -> (0 < proc (ctx w))%nat;
}.
Abbreviation rq_inv n w := (rq_inv_but n [] [] w).

(** The queue a state stands for. *)
Definition rq_abs (w : world) : bq :=
  mk_bq (omap (node_job w) (pending (ctx w)))
        (match thread w with Calling _ k => job_of (bufs w) k | _ => None end)
        (length (held w) + length (busy_nodes (thread w))).

(** ** Frames *)

Lemma omap_ext_in {A B} (f g : A -> option B) (l : list A) : (forall x, x ∈ l -> f x = g x) -> omap f l = omap g l.
Proof.
  induction l as [|x l IH]; intros Hfg; [done|]. csimpl. rewrite Hfg by constructor.
  rewrite IH; [done|]. intros y Hy. apply Hfg. by constructor.
Qed.

Lemma concat_map_ext {A B} (f g : A -> list B) (l : list A) : (forall x, x ∈ l -> f x = g x) -> concat (map f l) = concat (map g l).
Proof.
  induction l as [|x l IH]; intros Hfg; [done|]. csimpl. rewrite Hfg by constructor.
  rewrite IH; [done|]. intros y Hy. apply Hfg. by constructor.
Qed.

Lemma omap_full {A B} (f : A -> option B) (l : list A) : (forall x, x ∈ l -> is_Some (f x)) -> length (omap f l) = length l.
Proof.
  induction l as [|x l IH]; intros Hf; [done|]. csimpl. destruct (Hf x) as [y ->]; [constructor|].
  simpl. rewrite IH; [done|]. intros z Hz. apply Hf. by constructor.
Qed.

Lemma omap_snoc {A B} (f : A -> option B) (l : list A) x y : f x = Some y -> omap f (l ++ [x]) = omap f l ++ [y].
Proof.
  intros Hx. induction l as [|z l IH]; csimpl; [by rewrite Hx|]. rewrite IH. by destruct (f z).
Qed.

(** A copy that no pending node owns may change. *)
Lemma node_job_frame w w' rn :
  nodes w' !! rn = nodes w !! rn ->
  (forall b, b ∈ node_bufs (nodes w) rn -> bufs w' !! b = bufs w !! b) -> node_job w' rn = node_job w rn.
Proof.
  unfold node_job, node_bufs. intros -> Hb. destruct (nodes w !! rn) as [[fn arg|b]|]; simpl in *; [done| |done].
  rewrite Hb; [done|]. constructor.
Qed.

Lemma node_bufs_live w rn b : rn ∈ pending (ctx w) -> b ∈ node_bufs (nodes w) rn -> b ∈ live_bufs w.
Proof.
  intros Hrn Hb. unfold live_bufs. apply elem_of_app. left. apply list_elem_of_In, in_concat.
  exists (node_bufs (nodes w) rn). split; [|by apply list_elem_of_In].
  apply in_map. by apply list_elem_of_In.
Qed.

Lemma job_frame b b' k : (forall x, x ∈ buf_of k -> b' !! x = b !! x) -> job_of b' k = job_of b k.
Proof. destruct k as [|x]; simpl; [done|]. intros ->; [done|constructor]. Qed.

Section Steps.
Context (n : nat).

Lemma inv_len xs bs w : rq_inv_but n xs bs w ->
  (length xs + length (frees (ctx w)) + length (pending (ctx w)) + length (held w) + length (busy_nodes (thread w)) = n)%nat.
Proof.
  intros [Hn _ _ _ _ _]. apply Permutation_length in Hn. unfold all_nodes in Hn.
  rewrite !length_app, length_map, length_seq in Hn. lia.
Qed.

Lemma abs_jobs_len xs bs w : rq_inv_but n xs bs w -> length (q_jobs (rq_abs w)) = length (pending (ctx w)).
Proof. intros [_ Hj _ _ _ _]. by apply omap_full. Qed.

Lemma room_frees w : rq_inv n w -> q_room n (rq_abs w) = match frees (ctx w) with [] => false | _ => true end.
Proof.
  intros Hi. pose proof (inv_len _ _ _ Hi) as Hl. unfold q_room. rewrite (abs_jobs_len [] []) by done. simpl in *.
  destruct (frees (ctx w)); simpl in *; [apply bool_decide_eq_false_2|apply bool_decide_eq_true_2]; lia.
Qed.

(** The first node of the free list is taken. *)
Lemma take_free w rn f :
  rq_inv n w -> frees (ctx w) = rn :: f ->
  rq_inv_but n [rn] [] (set_ctx (set_lists f (pending (ctx w)) (proc (ctx w)) (ctx w)) w).
Proof.
  intros [H1 H2 H3 H4 H5 H6] E. split; [|done..]. unfold all_nodes in *. rewrite E in H1. done.
Qed.

(** A node in hand becomes pending. *)
Lemma add_node w rn k j prepend :
  rq_inv_but n [rn] (buf_of k) w -> job_of (bufs w) k = Some j ->
  let w' := set_ctx (rq_add_node_locked rn prepend (ctx w)) (set_node rn k w) in
  rq_inv n w' /\
  rq_abs w' = mk_bq (q_insert j prepend (q_jobs (rq_abs w))) (q_current (rq_abs w)) (q_out (rq_abs w)).
Proof.
  intros [H1 H2 H3 H4 H5 H6] Hj w'.
  assert (NoDup (rn :: all_nodes w)) as Hnd by (change (NoDup ([rn] ++ all_nodes w)); rewrite H1; apply NoDup_seq).
  assert (rn ∉ pending (ctx w)) as Hrn by (apply NoDup_cons in Hnd as [Hnd _]; unfold all_nodes in Hnd; set_solver).
  assert (node_job w' rn = Some j) as Hrj by (unfold node_job; simpl; by rewrite lookup_insert_eq).
  assert (forall r, r ∈ pending (ctx w) -> node_job w' r = node_job w r) as Hold.
  { intros r Hr. apply node_job_frame; [|done]. simpl. apply lookup_insert_ne. set_solver. }
  assert (pending (ctx w') ≡ₚ rn :: pending (ctx w)) as Hp by (simpl; destruct prepend; [done|symmetry; apply Permutation_cons_append]).
  assert (live_bufs w' ≡ₚ buf_of k ++ live_bufs w) as Hl.
  { unfold live_bufs. rewrite Hp. change (map r_bh (held w')) with (map r_bh (held w)).
    change (thread w') with (thread w). rewrite (app_assoc (buf_of k)). apply Permutation_app_tail. simpl.
    apply Permutation_app.
    - unfold node_bufs. simpl. by rewrite lookup_insert_eq.
    - erewrite concat_map_ext; [done|]. intros r Hr. unfold node_bufs. simpl. rewrite lookup_insert_ne; [done|]. set_solver. }
  split.
  - split.
    + rewrite <- H1. change ([] ++ all_nodes w') with (frees (ctx w) ++ pending (ctx w') ++ map r_node (held w) ++ busy_nodes (thread w)).
      rewrite Hp. symmetry. apply (Permutation_middle (frees (ctx w))).
    + intros r Hr. rewrite Hp in Hr. apply elem_of_cons in Hr as [->|Hr]; [by rewrite Hrj|]. rewrite Hold by done. by apply H2.
    + done.
    + simpl. by rewrite Hl.
    + intros b Hb. simpl. rewrite Hl. by apply H5.
    + intros Ht _. simpl. destruct (pending (ctx w)) eqn:Ep; [lia|]. by apply H6.
  - unfold rq_abs. f_equal. simpl. rewrite <- (omap_ext_in (node_job w') (node_job w)) by done.
    destruct prepend; simpl; [by rewrite Hrj|]. by apply omap_snoc.
Qed.

(** Copies that are not in use may change. *)
Lemma bufs_frame xs bs w b' m :
  rq_inv_but n xs bs w -> (forall b, b ∈ live_bufs w -> b' !! b = bufs w !! b) -> (next_bh w <= m)%nat ->
  rq_inv_but n xs bs (set_bufs b' m w) /\ rq_abs (set_bufs b' m w) = rq_abs w.
Proof.
  intros [H1 H2 H3 H4 H5 H6] Hb Hm.
  assert (forall r, r ∈ pending (ctx w) -> node_job (set_bufs b' m w) r = node_job w r) as Hold.
  { intros r Hr. apply node_job_frame; [done|]. intros b Hbr. by apply Hb, (node_bufs_live w r). }
  assert (forall rn k, thread w = Calling rn k -> job_of b' k = job_of (bufs w) k) as Hcur.
  { intros rn k E. apply job_frame. intros x Hx. apply Hb. unfold live_bufs. rewrite E, !elem_of_app. by do 2 right. }
  split; [split|].
  - done.
  - intros rn Hrn. rewrite Hold by done. by apply H2.
  - simpl. destruct (thread w) eqn:E; try done. by erewrite Hcur.
  - done.
  - simpl. intros b Hle. apply H5. lia.
  - done.
  - unfold rq_abs. simpl. f_equal; [by apply omap_ext_in|]. destruct (thread w) eqn:E; try done. by erewrite Hcur.
Qed.

(** What a step of the model does to the queue. *)
Definition sim (w : world) (r : world * list event) : Prop :=
  rq_inv n r.1 /\ q_run n r.2 (rq_abs w) = Some (rq_abs r.1).

Lemma sim_busy w w' : rq_inv n w' -> rq_abs w' = rq_abs w -> frees (ctx w') = [] -> sim w (w', [EvBusy]).
Proof.
  intros Hi Ha E. split; [done|]. cbn [q_run snd q_step mbind option_bind]. rewrite <- Ha, room_frees by done. by rewrite E.
Qed.

Lemma room_cons w rn f : rq_inv n w -> frees (ctx w) = rn :: f -> q_room n (rq_abs w) = true.
Proof. intros Hi E. rewrite room_frees by done. by rewrite E. Qed.

Lemma submit_sim exec arg prepend w : rq_inv n w -> sim w (_rq_submit exec arg prepend w).
Proof.
  intros Hi. unfold _rq_submit, rq_get_first_locked. destruct (frees (ctx w)) as [|rn f] eqn:E; [by apply sim_busy|].
  destruct (add_node _ rn (Direct exec arg) (JDirect exec arg) prepend (take_free w rn f Hi E) eq_refl) as [H1 H2].
  split; [done|]. cbn [q_run snd q_step mbind option_bind fst]. rewrite (room_cons w rn f) by done. simpl.
  f_equal. symmetry. apply H2.
Qed.

Lemma hold_node w r :
  rq_inv_but n [r_node r] [r_bh r] w -> rq_inv n (set_held (held w ++ [r]) w).
Proof.
  intros [H1 H2 H3 H4 H5 H6].
  assert (live_bufs (set_held (held w ++ [r]) w) ≡ₚ [r_bh r] ++ live_bufs w) as Hl.
  { unfold live_bufs. simpl. rewrite map_app. solve_Permutation. }
  split; try done.
  - rewrite <- H1. unfold all_nodes. simpl. rewrite map_app. solve_Permutation.
  - simpl. by rewrite Hl.
  - intros b Hb. simpl. rewrite Hl. by apply H5.
Qed.

Lemma reserve_sim exec bytes prepend w :
  rq_inv n w -> exists r, rq_submit_reserve true exec bytes prepend w = Done r /\ sim w r.
Proof.
  intros Hi. unfold rq_submit_reserve, rq_get_first_locked.
  assert (forall b, b ∈ live_bufs w -> b <> next_bh w) as Hfresh.
  { intros b Hb ->. by apply (inv_fresh _ _ _ _ Hi (next_bh w)). }
  destruct (frees (ctx w)) as [|rn f] eqn:E; (eexists; split; [reflexivity|]).
  - assert (rq_inv n (set_bufs (delete (next_bh w) (<[next_bh w := mk_hdr 0 []]> (bufs w))) (S (next_bh w)) w)
      /\ rq_abs (set_bufs (delete (next_bh w) (<[next_bh w := mk_hdr 0 []]> (bufs w))) (S (next_bh w)) w) = rq_abs w) as [H1 H2].
    { apply bufs_frame; [done| |lia]. intros b Hb. pose proof (Hfresh b Hb).
      by rewrite lookup_delete_ne, lookup_insert_ne by done. }
    by apply sim_busy.
  - destruct (bufs_frame [] [] w (<[next_bh w := mk_hdr 0 []]> (bufs w)) (S (next_bh w)) Hi) as [H1 H2]; [|lia|].
    { intros b Hb. pose proof (Hfresh b Hb). by rewrite lookup_insert_ne. }
    pose proof (take_free _ rn f H1 E) as H3. split.
    + simpl. apply (hold_node (set_ctx _ (set_bufs _ _ w)) (mk_reserved rn (next_bh w) exec bytes prepend)). destruct H3 as [K1 K2 K3 K4 K5 K6].
      split; try done.
      * apply NoDup_cons. split; [|done]. by apply (inv_fresh _ _ _ _ Hi).
      * intros b Hb. simpl in Hb. apply not_elem_of_cons. split; [simpl; lia|]. apply (inv_fresh _ _ _ _ Hi). lia.
    + cbn [q_run snd q_step mbind option_bind fst]. rewrite (room_cons w rn f) by done.
      rewrite <- H2. unfold rq_abs. simpl. do 2 f_equal. rewrite length_app. simpl. lia.
Qed.

Lemma publish_sim i w : rq_inv n w -> sim w (rq_submit_publish i w).
Proof.
  intros Hi. unfold rq_submit_publish. destruct (held w !! i) as [r|] eqn:E; [|split; done].
  pose proof (delete_Permutation _ _ _ E) as Hp.
  assert (rq_inv_but n [r_node r] [r_bh r] (set_held (delete i (held w)) w)) as H1.
  { destruct Hi as [K1 K2 K3 K4 K5 K6].
    assert (live_bufs w ≡ₚ [r_bh r] ++ live_bufs (set_held (delete i (held w)) w)) as Hl.
    { unfold live_bufs. simpl. rewrite (Permutation_map r_bh Hp). simpl. solve_Permutation. }
    split; try done.
    - rewrite <- K1. unfold all_nodes. simpl. rewrite (Permutation_map r_node Hp). simpl. solve_Permutation.
    - by rewrite <- Hl.
    - intros b Hb. rewrite <- Hl. by apply K5. }
  destruct (bufs_frame _ _ _ (<[r_bh r := mk_hdr (r_cb r) (r_data r)]> (bufs w)) (next_bh w) H1) as [H2 H3]; [|simpl; lia|].
  { intros b Hb. rewrite lookup_insert_ne; [done|]. intros <-. apply inv_bufs in H1. by apply NoDup_cons in H1 as [? _]. }
  destruct (add_node _ (r_node r) (Adaptor (r_bh r)) (JCopy (r_cb r) (r_data r)) (r_prepend r) H2) as [H4 H5].
  { simpl. by rewrite lookup_insert_eq. }
  split; [done|]. cbn [q_run snd q_step mbind option_bind fst]. 
  refine (eq_trans _ (eq_sym (f_equal Some H5))). rewrite H3. unfold rq_abs at 1. cbn [q_out].
  apply Permutation_length in Hp. simpl in Hp. rewrite Hp. simpl. done.
Qed.

Lemma reset_sim w : rq_inv n w -> sim w (_rq_reset w).
Proof.
  intros [H1 H2 H3 H4 H5 H6]. split; [|done]. split; simpl; try done.
  - rewrite <- H1. unfold all_nodes. simpl. by rewrite <- app_assoc.
  - intros rn Hrn. by apply not_elem_of_nil in Hrn.
  - unfold live_bufs in H4 |- *. simpl in *. by apply NoDup_app in H4 as (_ & _ & ?).
  - intros b Hb Hin. apply (H5 b Hb). unfold live_bufs in *. simpl in *. apply elem_of_app. by right.
Qed.

(** What the service thread has seen in the window still holds. *)
Definition window_ok (w : world) : Prop :=
  match thread w with
  | Removing rn => head (pending (ctx w)) = Some rn
  | Leaving => pending (ctx w) = []
  | _ => True
  end.

(** A thread that has no node in hand. *)
Definition idle (t : pc) : Prop := match t with Calling _ _ | Finished _ => False | _ => True end.

Lemma idle_none w : idle (thread w) ->
  busy_nodes (thread w) = [] /\ busy_bufs (thread w) = [] /\ match thread w with Calling _ k => job_of (bufs w) k | _ => None end = None.
Proof. by destruct (thread w). Qed.

(** Steps of the thread that leave the lists alone. *)
Lemma move_sim w u t :
  rq_inv n w -> idle (thread w) -> idle t -> (t = Sleeping -> pending (ctx w) = []) ->
  let w' := mk_world (ctx w) (nodes w) (bufs w) (next_bh w) (held w) t u in
  rq_inv n w' /\ rq_abs w' = rq_abs w.
Proof.
  intros [H1 H2 H3 H4 H5 H6] Hw Ht Hs w'. apply idle_none in Hw as (B1 & B2 & B3).
  assert (idle (thread w')) as Ht' by done. apply idle_none in Ht' as (C1 & C2 & C3).
  assert (all_nodes w' = all_nodes w) as Ea by (unfold all_nodes; by rewrite B1, C1).
  assert (live_bufs w' = live_bufs w) as El by (unfold live_bufs; by rewrite B2, C2).
  split; [split; simpl; rewrite ?Ea, ?El; try done|].
  - by destruct t.
  - intros Et. destruct (pending (ctx w)); [done|]. by specialize (Hs Et).
  - unfold rq_abs. by rewrite B1, B3, C1, C3.
Qed.

(** The first node is taken off the list. *)
Lemma take_sim w rn p u :
  rq_inv n w -> idle (thread w) -> pending (ctx w) = rn :: p ->
  exists r, take_first rn p (mk_world (ctx w) (nodes w) (bufs w) (next_bh w) (held w) (thread w) u) = Done r /\ sim w r /\ window_ok r.1.
Proof.
  intros [H1 H2 H3 H4 H5 H6] Hw Ep. apply idle_none in Hw as (Hb1 & Hb2 & Hb3).
  destruct (H2 rn) as [j Hj]; [rewrite Ep; constructor|]. pose proof Hj as Hj'.
  unfold node_job in Hj. destruct (nodes w !! rn) as [fn|] eqn:En; [|done]. simpl in Hj.
  unfold take_first. cbn [nodes set_ctx ctx]. rewrite En. eexists. split; [reflexivity|]. split; [|done].
  set (w' := set_thread _ _).
  assert (live_bufs w' ≡ₚ live_bufs w) as Hl.
  { unfold live_bufs. rewrite Ep. simpl. rewrite Hb2. unfold node_bufs at 2. rewrite En. simpl. solve_Permutation. }
  split.
  - split; try done.
    + rewrite <- H1. unfold all_nodes. rewrite Ep. simpl. rewrite Hb1. solve_Permutation.
    + intros r Hr. apply H2. rewrite Ep. by constructor.
    + simpl. rewrite Hj. done.
    + change (NoDup (live_bufs w')). by rewrite Hl.
    + intros b Hb. change (b ∉ live_bufs w'). rewrite Hl. by apply H5.
  - cbn [q_run snd q_step mbind option_bind fst]. unfold rq_abs at 1 2. rewrite Ep, Hb3. cbn [q_jobs q_current].
    change (omap (node_job w) (rn :: p)) with (match node_job w rn with Some y => y :: omap (node_job w) p | None => omap (node_job w) p end).
    rewrite Hj'. cbn [mbind option_bind]. f_equal. unfold rq_abs. simpl. rewrite Hj, Hb1. simpl. do 2 f_equal. lia.
Qed.

Lemma sleep_event w : idle (thread w) -> pending (ctx w) = [] -> q_step n EvSleep (rq_abs w) = Some (rq_abs w).
Proof. intros _ E. unfold q_step, rq_abs. by rewrite E. Qed.

(** The head of the loop and the window. *)
Lemma pop_sim w :
  rq_inv n w -> window_ok w -> thread w = Locked \/ thread w = Woken \/ in_window (thread w) = true ->
  exists r, rq_schedule_step w = Done r /\ sim w r /\ window_ok r.1.
Proof.
  intros Hi Hwin Ht. assert (idle (thread w)) as Hid by (by destruct (thread w); naive_solver).
  assert (forall u, pending (ctx w) = [] -> sim w (mk_world (ctx w) (nodes w) (bufs w) (next_bh w) (held w) Sleeping u, [EvSleep])) as Hsleep.
  { intros u Ep. destruct (move_sim w u Sleeping Hi Hid I (fun _ => Ep)) as [M1 M2]. split; [done|].
    cbn [q_run snd mbind option_bind fst]. rewrite sleep_event by done. cbn [mbind option_bind]. by rewrite M2. }
  unfold window_ok in Hwin. unfold rq_schedule_step, rq_get_first_locked. destruct (thread w) as [| |rn| | | |] eqn:Et; try (exfalso; naive_solver).
  - destruct (pending (ctx w)) as [|rn p] eqn:Ep; [eexists; split; [reflexivity|]; split; [by apply (Hsleep (unheld w))|done]|].
    assert (mk_world (ctx w) (nodes w) (bufs w) (next_bh w) (held w) (thread w) (unheld w) = w) as <- by (by destruct w).
    apply (take_sim w rn p (unheld w) Hi); [by rewrite Et|done].
  - destruct (pending (ctx w)) as [|rn p] eqn:Ep; (eexists; split; [reflexivity|]; split; [|unfold window_ok; simpl; by rewrite Ep]);
      (edestruct (move_sim w (unheld w)) as [M1 M2]; [done|by rewrite Et| | |split; [exact M1|exact (f_equal Some (eq_sym M2))]]); done.
  - destruct (pending (ctx w)) as [|x p] eqn:Ep; [done|]. simpl in Hwin. injection Hwin as ->. rewrite Nat.eqb_refl.
    apply (take_sim w rn p (S (unheld w)) Hi); [by rewrite Et|done].
  - eexists; split; [reflexivity|]. split; [by apply (Hsleep (S (unheld w)))|done].
Qed.

(** The call of the function. *)
Lemma call_sim w rn fn :
  rq_inv n w -> thread w = Calling rn fn -> exists r, rq_schedule_step w = Done r /\ sim w r.
Proof.
  intros [H1 H2 H3 H4 H5 H6] Et. unfold rq_schedule_step. rewrite Et in H3 |- *.
  assert (live_bufs w ≡ₚ buf_of fn ++ live_bufs (set_thread (Finished rn) w)) as Hl.
  { unfold live_bufs. rewrite Et. simpl. solve_Permutation. }
  assert (rq_inv n (set_thread (Finished rn) w)) as Hi.
  { split; try done.
    - rewrite <- H1. unfold all_nodes. by rewrite Et.
    - change (NoDup (live_bufs w)) in H4. rewrite Hl in H4. by apply NoDup_app in H4 as (_ & _ & ?).
    - intros b Hb Hin. apply (H5 b Hb). change (b ∈ live_bufs w). rewrite Hl. apply elem_of_app. by right. }
  destruct fn as [fn arg|bh]; simpl in H3 |- *.
  - eexists; split; [reflexivity|]. split; [done|]. cbn [q_run snd q_step mbind option_bind fst].
    rewrite decide_True by (unfold rq_abs; by rewrite Et). simpl. unfold rq_abs. simpl. by rewrite Et.
  - destruct (bufs w !! bh) as [h|] eqn:Eb; [|by destruct H3]. eexists; split; [reflexivity|]. simpl.
    destruct (bufs_frame [] [] _ (delete bh (bufs w)) (next_bh w) Hi) as [H7 H8]; [|simpl; lia|].
    { intros b Hb. rewrite lookup_delete_ne; [done|]. intros <-. change (NoDup (live_bufs w)) in H4. rewrite Hl in H4. by apply NoDup_cons in H4 as [? _]. }
    split; [done|]. cbn [q_run snd q_step mbind option_bind fst].
    rewrite decide_True by (unfold rq_abs; rewrite Et; simpl; by rewrite Eb).
    cbn [mbind option_bind]. refine (eq_trans _ (eq_sym (f_equal Some H8))). unfold rq_abs. simpl. by rewrite Et.
Qed.

Lemma service_sim w : rq_inv n w -> window_ok w -> exists r, rq_schedule_step w = Done r /\ sim w r /\ window_ok r.1.
Proof.
  intros Hi Hwin. pose proof Hi as [H1 H2 H3 H4 H5 H6].
  destruct (thread w) as [| |rn| | |rn fn|rn] eqn:Et; try (apply pop_sim; [done|done|rewrite Et; tauto]).
  2: { destruct (call_sim w rn fn Hi Et) as (r & Hr & Hs). exists r. split; [done|]. split; [done|].
    unfold rq_schedule_step in Hr. rewrite Et in Hr. destruct (exec_work fn w); simplify_eq/=. done. }
  all: unfold rq_schedule_step; rewrite Et.
  - destruct (proc (ctx w)) as [|m] eqn:Em; (eexists; split; [reflexivity|]); [by split|]. split; [|done].
    split.
    + split; simpl; try done; unfold all_nodes, live_bufs in *; simpl in *; rewrite Et in *; done.
    + simpl. unfold rq_abs. simpl. by rewrite Et.
  - eexists; split; [reflexivity|]. split; [|done]. split.
    + split; simpl; try done; unfold all_nodes, live_bufs in *; simpl in *; rewrite Et in *; try done.
      rewrite <- H1. solve_Permutation.
    + cbn [q_run snd q_step mbind option_bind fst]. unfold rq_abs at 1 2 3. rewrite Et. cbn [q_current q_out q_jobs busy_nodes length].
      rewrite Nat.add_1_r. simpl. unfold rq_abs. simpl. by rewrite Nat.add_0_r.
Qed.

(** The allocator has memory ([os_panic] otherwise). *)
Definition malloc_ok (c : cmd) : bool := match c with SubmitCopy ok _ _ _ => ok | _ => true end.

(** A step of the model in which no critical section falls into the window. *)
Definition apart (c : cmd) (w : world) : bool := match c with Service => true | _ => negb (in_window (thread w)) end.

Lemma step_sim c w : rq_inv n w -> window_ok w -> malloc_ok c = true -> apart c w = true ->
  exists r, rq_step c w = Done r /\ sim w r /\ window_ok r.1.
Proof.
  intros Hi Hwin Hc Ha.
  assert (forall w', thread w' = thread w -> c <> Service -> window_ok w') as Hout.
  { intros w' E Hc'. unfold window_ok. rewrite E. destruct c; try done; simpl in Ha; by destruct (thread w). }
  assert (c <> Service -> in_window (thread w) = false) as Hin by (intros Hc'; destruct c; try done; simpl in Ha; by apply negb_true_iff).
  destruct c as [exec arg p|ok exec bytes p|i| |]; simpl in Hc; cbn [rq_step]; unfold critical; rewrite ?Hin by done; [| | | |by apply service_sim].
  - eexists. split; [done|]. split; [by apply submit_sim|]. apply Hout; [|done]. unfold _rq_submit. by repeat case_match.
  - subst. destruct (reserve_sim exec bytes p w Hi) as (r & Hr & Hs). exists r. split; [done|]. split; [done|]. apply Hout; [|done].
    unfold rq_submit_reserve in Hr. simpl in Hr. by repeat case_match; simplify_eq.
  - eexists. split; [done|]. split; [by apply publish_sim|]. apply Hout; [|done]. unfold rq_submit_publish. by repeat case_match.
  - eexists. split; [done|]. split; [by apply reset_sim|]. by apply Hout.
Qed.

Lemma q_run_app es fs a : q_run n (es ++ fs) a = (a' ← q_run n es a; q_run n fs a').
Proof. revert a. induction es as [|e es IH]; intros a; [done|]. simpl. destruct (q_step n e a); [apply IH|done]. Qed.

Lemma run_sim cs w :
  rq_inv n w -> window_ok w -> forallb malloc_ok cs = true ->
  if undisturbed cs w then exists r, rq_run cs w = Done r /\ sim w r /\ window_ok r.1 else rq_run cs w = Undef.
Proof.
  revert w. induction cs as [|c cs IH]; intros w Hi Hwin Hcs; simpl in *; [exists (w, []); split; [done|]; by split|].
  bools. change (match c with Service => true | _ => negb (in_window (thread w)) end) with (apart c w).
  destruct (apart c w) eqn:Ea; cbn [andb].
  - destruct (step_sim c w Hi Hwin) as ([w1 es] & -> & [Hi1 Hq1] & Hw1); [done|done|]. cbn [obind fst snd] in *.
    specialize (IH w1 Hi1 Hw1 ltac:(done)). destruct (undisturbed cs w1); [|by rewrite IH].
    destruct IH as ([w2 fs] & -> & [Hi2 Hq2] & Hw2). cbn [obind fst snd] in *. eexists. split; [done|]. split; [|done]. split; [done|].
    cbn [fst snd]. by rewrite q_run_app, Hq1.
  - assert (rq_step c w = Undef) as ->; [|done].
    destruct c; simpl in Ea; try done; apply negb_false_iff in Ea; cbn [rq_step]; unfold critical; by rewrite Ea.
Qed.

(** ** The service thread alone *)

(** The jobs that are still to be run, in order. *)
Definition q_todo (a : bq) : list job := option_list (q_current a) ++ q_jobs a.
Definition runs_of (es : list event) : list job :=
  omap (fun e => match e with EvRun j => Some j | _ => None end) es.

Definition service_event (e : event) : bool :=
  match e with EvTake | EvRun _ | EvDone | EvSleep => true | _ => false end.

Lemma service_todo es a a' :
  forallb service_event es = true -> q_run n es a = Some a' -> q_todo a = runs_of es ++ q_todo a'.
Proof.
  revert a. induction es as [|e es IH]; intros a He Hq; [by simplify_eq/=|].
  simpl in He, Hq. bools. destruct (q_step n e a) as [a1|] eqn:E; [|done]. simpl in Hq.
  assert (q_todo a = runs_of [e] ++ q_todo a1) as ->.
  { destruct a as [l cur o]. unfold q_todo. destruct e; simpl in *; try done; repeat case_match; by simplify_eq/=. }
  rewrite (IH a1) by done. rewrite app_assoc. f_equal. unfold runs_of. change (e :: es) with ([e] ++ es). by rewrite omap_app.
Qed.

Definition rq_left (w : world) : nat :=
  6 * length (pending (ctx w)) + 3 * proc (ctx w)
  + match thread w with Calling _ _ => 4 | Finished _ => 3 | Locked | Woken => 2 | Removing _ | Leaving => 1 | Sleeping => 0 end.

Lemma service_left w r :
  rq_schedule_step w = Done r -> thread w <> Sleeping \/ (0 < proc (ctx w))%nat ->
  (rq_left r.1 < rq_left w)%nat /\ forallb service_event r.2 = true.
Proof.
  unfold rq_schedule_step, rq_get_first_locked, take_first, rq_left. intros Hr Hs.
  destruct (thread w) as [| |rn| | |rn fn|rn] eqn:Et.
  - destruct (pending (ctx w)) as [|x p] eqn:Ep; [|cbn [nodes set_ctx ctx] in Hr; destruct (nodes w !! x)]; simplify_eq/=; rewrite ?Ep; simpl; split; [lia|done|lia|done].
  - destruct (pending (ctx w)) as [|x p] eqn:Ep; simplify_eq/=; rewrite ?Ep; simpl; split; [lia|done|lia|done].
  - destruct (pending (ctx w)) as [|x p] eqn:Ep; [done|]. destruct (Nat.eqb x rn); [|done]. cbn [nodes set_ctx ctx unlock_unheld] in Hr.
    destruct (nodes w !! rn); simplify_eq/=. split; [lia|done].
  - simplify_eq/=. split; [lia|done].
  - destruct Hs; [done|]. destruct (proc (ctx w)); [lia|]. simplify_eq/=. split; [lia|done].
  - destruct fn as [|bh]; simpl in *; [|destruct (bufs w !! bh); [|done]]; simplify_eq/=; split; try done; lia.
  - simplify_eq/=. split; [lia|done].
Qed.

Lemma drains w :
  rq_inv n w -> window_ok w -> exists k w' es,
    rq_run (repeat Service k) w = Done (w', es) /\ thread w' = Sleeping /\ pending (ctx w') = [] /\ rq_inv n w'
    /\ runs_of es = q_todo (rq_abs w).
Proof.
  remember (rq_left w) as m eqn:Em. revert w Em. induction m as [m IH] using lt_wf_ind. intros w -> Hi Hwin.
  destruct (decide (thread w = Sleeping /\ proc (ctx w) = 0%nat)) as [[Ht Hp]|Hgo].
  - assert (pending (ctx w) = []) as Hpe.
    { destruct (pending (ctx w)) eqn:E; [done|]. pose proof (inv_wake _ _ _ _ Hi Ht). rewrite E in *. naive_solver lia. }
    exists 0%nat, w, []. split; [done|]. split; [done|]. split; [done|]. split; [done|].
    unfold q_todo, rq_abs. simpl. by rewrite Ht, Hpe.
  - destruct (service_sim w Hi Hwin) as (r & Hr & [Hi1 Hq] & Hw1).
    destruct (service_left w r Hr) as [Hl Hev]; [destruct (decide (thread w = Sleeping)); [right|by left]; destruct (proc (ctx w)) eqn:E; [naive_solver|lia]|].
    destruct (IH _ Hl r.1 eq_refl Hi1 Hw1) as (k & w' & es & Hrun & H1 & H2 & H3 & H4).
    exists (S k), w', (r.2 ++ es). simpl. rewrite Hr. simpl. rewrite Hrun. split; [done|]. split; [done|]. split; [done|]. split; [done|].
    rewrite (service_todo _ _ _ Hev Hq), <- H4. unfold runs_of. apply omap_app.
Qed.
End Steps.

Lemma new_thread_inv self sys c sys' w :
  0 <= nq c -> _rq_new_thread self sys 0 c = (0, sys', Some w) -> rq_inv (Z.to_nat (nq c)) w /\ rq_abs w = mk_bq [] None 0 /\ window_ok w.
Proof.
  unfold _rq_new_thread, rq_init. intros Hn Hw. destruct ((buffer c =? 0) || (nq c =? 0)); simplify_eq/=.
  split; [|done]. split; simpl; try done.
  - unfold all_nodes. simpl. by rewrite app_nil_r.
  - intros rn Hrn. by apply not_elem_of_nil in Hrn.
  - apply NoDup_nil_2.
  - intros b _. apply not_elem_of_nil.
Qed.


Definition ctx_example : rq_context := mk_rq [] [] 0 4096 2.
Definition cmds_example : list cmd :=
  [Service; Submit 100 7 false; SubmitCopy true 200 [1; 2; 3] true; Submit 100 8 false; Publish 0;
   Service; Service; Service; Service; Service; Submit 100 9 true; Service; Service; Service].

Definition world_example : world := rq_start (_rq_static_init ctx_example).

Example rq_example_events :
  (let* r := rq_run cmds_example world_example in Done r.2)
  = Done [EvSleep; EvSubmit (JDirect 100 7) false; EvReserve; EvBusy; EvPublish (JCopy 200 [1; 2; 3]) true;
          EvTake; EvRun (JCopy 200 [1; 2; 3]); EvDone; EvSubmit (JDirect 100 9) true; EvTake; EvRun (JDirect 100 9); EvDone].
Proof. vm_compute. reflexivity. Qed.



(** Two pending jobs, and a service thread that is in [sem_wait]. *)
Definition world_2 : world :=
  mk_world (mk_rq [] [1%nat; 0%nat] 1 4096 2) (list_to_map [(1%nat, Direct 100 8); (0%nat, Direct 100 7)]) ∅ 0 [] Sleeping 0.


(** ** The lock *)

(** The list code of [rq_get_first_locked (head)] and of
    [rq_add_node_locked (rq, rn, false)]. *)
Definition get_first_prog (head : Z) : DList.prog :=
  DList.LoadNext head (fun n => if n =? head then DList.Stop
    else DList.LoadNext head (fun rn => DList.list_del rn)).
Definition add_tail_prog (rn head : Z) : DList.prog :=
  DList.LoadNext head (fun _ => DList.list_add_tail rn head).

(** The pending list (head 10) with the node 1; the node 2 is in hand. *)
Definition pending_1 : DList.heap :=
  DList.mk_heap (list_to_map [(10, 1); (1, 10); (2, 0)]%Z) (list_to_map [(10, 1); (1, 10); (2, 0)]%Z).

(** The service thread that wakes up does not hold the lock: its first
    removal runs beside a submission (whose unlock and its own may even be of
    a mutex that it does not own, as the first wake-up shows). There is an
    order of their accesses to the list after which the submitted node is in
    no list, although the submission has succeeded and, as it found the list
    not empty, has not posted the semaphore; in the two orders in which one
    runs after the other, the node is pending. *)
Theorem rq_unlocked_pop_loses_job :
  (exists sched h, DList.interleave sched (get_first_prog 10) (add_tail_prog 2 10) pending_1
      = Some (DList.Stop, DList.Stop, h) /\ DList.dlist h 10 [])
  /\ (forall sched, sched = repeat true 8 ++ repeat false 6 \/ sched = repeat false 6 ++ repeat true 8 ->
       exists h, DList.interleave sched (get_first_prog 10) (add_tail_prog 2 10) pending_1
         = Some (DList.Stop, DList.Stop, h) /\ DList.dlist h 10 [2])
  /\ (exists w es, rq_run [Service; Submit 100 7 false; Service; Service; Service] world_example = Done (w, es)
       /\ thread w = Calling 0 (Direct 100 7) /\ unheld w = 1%nat).
Proof.
  split; [|split].
  - exists ([true; true; true; true] ++ repeat false 6 ++ [true; true; true; true]). eexists.
    split; [vm_compute; reflexivity|]. split; [apply NoDup_singleton|]. vm_compute. repeat split.
  - intros sched [-> | ->]; (eexists; split; [vm_compute; reflexivity|]; split;
      [by apply (bool_decide_unpack _)|vm_compute; repeat split]).
  - do 2 eexists. split; [vm_compute; reflexivity|]. by split.
Qed.

Lemma rq_run_app cs ds w : rq_run (cs ++ ds) w =
  (let* r := rq_run cs w in let* s := rq_run ds r.1 in Done (s.1, r.2 ++ s.2)).
Proof.
  revert w. induction cs as [|c cs IH]; intros w; simpl.
  - destruct (rq_run ds w) as [[? ?]| |]; done.
  - destruct (rq_step c w) as [[w1 e1]| |]; simpl; [|done..]. rewrite IH.
    destruct (rq_run cs w1) as [[w2 e2]| |]; simpl; [|done..]. destruct (rq_run ds w2) as [[w3 e3]| |]; simpl; [|done..].
    by rewrite app_assoc.
Qed.

(** One more submission with a copy that a reset discards. *)
Lemma leak_round w rn f exec bytes :
  frees (ctx w) = rn :: f -> pending (ctx w) = [] -> held w = [] -> thread w = Locked ->
  (forall b, (next_bh w <= b)%nat -> bufs w !! b = None) ->
  exists w' es, rq_run [SubmitCopy true exec bytes false; Publish 0; Reset] w = Done (w', es)
    /\ frees (ctx w') = f ++ [rn] /\ pending (ctx w') = [] /\ held w' = [] /\ thread w' = Locked
    /\ size (bufs w') = S (size (bufs w)) /\ (forall b, (next_bh w' <= b)%nat -> bufs w' !! b = None).
Proof.
  intros Hf Hp Hh Ht Hb. destruct w as [[fr pe pr bu nq0] nd bs nb hd th uh]. simpl in *. subst.
  do 2 eexists. split; [reflexivity|]. simpl. do 4 (split; [done|]). split.
  - rewrite insert_insert_eq, map_size_insert, Hb by lia. done.
  - intros b Hle. rewrite !lookup_insert_ne by lia. apply Hb. lia.
Qed.

(** [_rq_reset] gives the nodes of pending submissions back but not their
    copies: each buffer stays allocated although nothing refers to it, so a
    client that submits and resets again and again takes ever more memory with
    an empty queue. *)
Lemma rq_reset_leaks k :
  exists w es,
    rq_run (concat (repeat [SubmitCopy true 200 [1; 2; 3] false; Publish 0; Reset] k)) world_example = Done (w, es)
    /\ size (bufs w) = k /\ live_bufs w = [] /\ length (frees (ctx w)) = 2%nat.
Proof.
  enough (exists w es,
    rq_run (concat (repeat [SubmitCopy true 200 [1; 2; 3] false; Publish 0; Reset] k)) world_example = Done (w, es)
    /\ length (frees (ctx w)) = 2%nat /\ pending (ctx w) = [] /\ held w = [] /\ thread w = Locked
    /\ size (bufs w) = k /\ (forall b, (next_bh w <= b)%nat -> bufs w !! b = None)) as (w & es & H1 & H2 & H3 & H4 & H5 & H6 & _).
  { exists w, es. do 2 (split; [done|]). split; [|done]. unfold live_bufs. by rewrite H3, H4, H5. }
  induction k as [|k (w & es & H1 & H2 & H3 & H4 & H5 & H6 & H7)].
  - exists world_example, []. done.
  - destruct (frees (ctx w)) as [|rn f] eqn:Ef; [done|].
    destruct (leak_round w rn f 200 [1; 2; 3] Ef H3 H4 H5 H7) as (w' & es' & K1 & K2 & K3 & K4 & K5 & K6 & K7).
    exists w', (es ++ es'). simpl repeat. rewrite repeat_cons, concat_app, rq_run_app, H1. cbn [obind fst snd]. rewrite (app_nil_r [SubmitCopy true 200 [1; 2; 3] false; Publish 0; Reset] : concat [_] = _).
    rewrite K1. cbn [obind fst snd]. do 2 (split; [try done|]); [by rewrite K2, length_app, Nat.add_1_r|].
    rewrite K6, H6. done.
Qed.
End RunQueue.
