(* ===== verification/Kfifo.v ===== *)
(** * kfifo.c : the ring buffer with free-running counters

    The state is [struct __kfifo]: two 32-bit counters that are never
    reduced, a mask and a byte array.  Every routine of [kfifo.c] is a
    definition here; [memcpy] is a bounded copy that is [Undef] outside of
    the buffer, so the refinement theorems also say the buffer is never
    overrun.  [contents] is the abstraction function: the queued bytes in
    order.  The abstract queue is a byte list; [queue_in], [queue_out],
    [queue_peek] are its operations. *)
From Stdlib Require Import ZArith Lia Bool.
From stdpp Require Import base list numbers.
From S2P Require Import Prelude.

Module Kfifo.

(** ** Data *)

(** [struct __kfifo]; [kf_data = None] is a NULL data pointer. *)
Record kfifo := mk_kfifo {
  kf_in : Z;
  kf_out : Z;
  kf_mask : Z;
  kf_esize : Z;
  kf_data : option (list Z);
}.

Definition with_in (f : kfifo) (i : Z) : kfifo :=
  mk_kfifo i (kf_out f) (kf_mask f) (kf_esize f) (kf_data f).
Definition with_out (f : kfifo) (o : Z) : kfifo :=
  mk_kfifo (kf_in f) o (kf_mask f) (kf_esize f) (kf_data f).
Definition with_data (f : kfifo) (d : list Z) : kfifo :=
  mk_kfifo (kf_in f) (kf_out f) (kf_mask f) (kf_esize f) (Some d).

(** ** Operations *)

(** [fls] of bitops.h on an unsigned int. *)
Definition fls (x : Z) : Z := if x =? 0 then 0 else Z.log2 x + 1.

(** [1UL << fls((n) - 1)] *)
Definition roundup_pow_of_two (n : Z) : Z := u64 (Z.shiftl 1 (fls (u32 (n - 1)))).

(** [1UL << (fls(n) - 1)], for [n > 0] *)
Definition rounddown_pow_of_two (n : Z) : Z := u64 (Z.shiftl 1 (fls n - 1)).

Definition powerof2 (x : Z) : bool := Z.land (u32 (x - 1)) x =? 0.

Definition kfifo_unused (f : kfifo) : Z :=
  u32 ((kf_mask f + 1) - (kf_in f - kf_out f)).

(** [calloc n s] is the C library's allocator: [None] is NULL. *)
Definition __kfifo_alloc (calloc : Z -> Z -> option (list Z)) (size esize : Z)
    : kfifo * Z :=
  let size := u32 (roundup_pow_of_two size) in
  if size <? 2 then (mk_kfifo 0 0 0 esize None, - EINVAL)
  else match calloc esize size with
       | None => (mk_kfifo 0 0 0 esize None, - ENOMEM)
       | Some d => (mk_kfifo 0 0 (size - 1) esize (Some d), 0)
       end.

Definition __kfifo_free (f : kfifo) : kfifo := mk_kfifo 0 0 0 0 None.

Definition __kfifo_init (buffer : list Z) (size esize : Z) : outcome (kfifo * Z) :=
  guard* negb (esize =? 0) in
  let size := u32 (size / esize) in
  let size := if powerof2 size then size else u32 (rounddown_pow_of_two size) in
  if size <? 2 then Done (mk_kfifo 0 0 0 esize (Some buffer), - EINVAL)
  else Done (mk_kfifo 0 0 (size - 1) esize (Some buffer), 0).

(** The offset, size and length both copy routines compute first:
    [(off, size, len)] in bytes. *)
Definition copy_bounds (f : kfifo) (len off : Z) : Z * Z * Z :=
  let size := u32 (kf_mask f + 1) in
  let esize := u32 (kf_esize f) in
  let off := Z.land off (kf_mask f) in
  if esize =? 1 then (off, size, len)
  else (u32 (off * esize), u32 (size * esize), u32 (len * esize)).

Definition kfifo_copy_in (f : kfifo) (src : list Z) (len off : Z) : outcome kfifo :=
  let '(off, size, len) := copy_bounds f len off in
  let l := Z.min len (u32 (size - off)) in
  match kf_data f with
  | None => Undef
  | Some d =>
      let* s1 := mem_read src 0 l in
      let* d1 := mem_write d off s1 in
      let* s2 := mem_read src l (len - l) in
      let* d2 := mem_write d1 0 s2 in
      Done (with_data f d2)
  end.

Definition __kfifo_in (f : kfifo) (buf : list Z) (len : Z) : outcome (kfifo * Z) :=
  let l := kfifo_unused f in
  let len := if len >? l then l else len in
  let* f := kfifo_copy_in f buf len (kf_in f) in
  Done (with_in f (u32 (kf_in f + len)), len).

(** The bytes stored at [dst]. *)
Definition kfifo_copy_out (f : kfifo) (len off : Z) : outcome (list Z) :=
  let '(off, size, len) := copy_bounds f len off in
  let l := Z.min len (u32 (size - off)) in
  match kf_data f with
  | None => Undef
  | Some d =>
      let* d1 := mem_read d off l in
      let* d2 := mem_read d 0 (len - l) in
      Done (d1 ++ d2)
  end.

Definition __kfifo_out_peek (f : kfifo) (len : Z) : outcome (list Z * Z) :=
  let l := u32 (kf_in f - kf_out f) in
  let len := if len >? l then l else len in
  let* dst := kfifo_copy_out f len (kf_out f) in
  Done (dst, len).

Definition __kfifo_out (f : kfifo) (len : Z) : outcome (kfifo * list Z * Z) :=
  let* r := __kfifo_out_peek f len in
  let '(dst, len) := r in
  Done (with_out f (u32 (kf_out f + len)), dst, len).

(** [1 << (recsize << 3)] is an [int] shift: defined for [recsize <= 3]. *)
Definition __kfifo_max_r (len recsize : Z) : outcome Z :=
  guard* recsize <=? 3 in
  let max := u32 (Z.shiftl 1 (Z.shiftl recsize 3) - 1) in
  if len >? max then Done max else Done len.

(** [data[(out) & (mask)]] *)
Definition kfifo_peek_byte (f : kfifo) (out : Z) : outcome Z :=
  match kf_data f with
  | None => Undef
  | Some d =>
      match d !! Z.to_nat (Z.land out (kf_mask f)) with
      | None => Undef
      | Some b => Done b
      end
  end.

Definition __kfifo_peek_n (f : kfifo) (recsize : Z) : outcome Z :=
  let* l := kfifo_peek_byte f (kf_out f) in
  if u64 (recsize - 1) =? 0 then Done l
  else
    let* h := kfifo_peek_byte f (u32 (kf_out f + 1)) in
    Done (Z.lor l (Z.shiftl h 8)).

(** [data[(in) & (mask)] = (unsigned char)(val)] *)
Definition kfifo_poke_byte (f : kfifo) (inp val : Z) : outcome kfifo :=
  match kf_data f with
  | None => Undef
  | Some d =>
      let* d := mem_write d (Z.land inp (kf_mask f)) [u8 val] in
      Done (with_data f d)
  end.

Definition __kfifo_poke_n (f : kfifo) (n recsize : Z) : outcome kfifo :=
  let* f := kfifo_poke_byte f (kf_in f) n in
  if recsize >? 1 then kfifo_poke_byte f (u32 (kf_in f + 1)) (Z.shiftr n 8)
  else Done f.

Definition __kfifo_len_r (f : kfifo) (recsize : Z) : outcome Z := __kfifo_peek_n f recsize.

Definition __kfifo_in_r (f : kfifo) (buf : list Z) (len recsize : Z) : outcome (kfifo * Z) :=
  if u64 (len + recsize) >? kfifo_unused f then Done (f, 0)
  else
    let* f := __kfifo_poke_n f len recsize in
    let* f := kfifo_copy_in f buf len (u32 (kf_in f + recsize)) in
    Done (with_in f (u32 (kf_in f + (len + recsize))), len).

(** [(dst, len, n)] *)
Definition kfifo_out_copy_r (f : kfifo) (len recsize : Z) : outcome (list Z * Z * Z) :=
  let* n := __kfifo_peek_n f recsize in
  let len := if len >? n then n else len in
  let* dst := kfifo_copy_out f len (u32 (kf_out f + recsize)) in
  Done (dst, len, n).

Definition __kfifo_out_peek_r (f : kfifo) (len recsize : Z) : outcome (list Z * Z) :=
  if kf_in f =? kf_out f then Done ([], 0)
  else
    let* r := kfifo_out_copy_r f len recsize in
    let '(dst, len, _) := r in
    Done (dst, len).

Definition __kfifo_out_r (f : kfifo) (len recsize : Z) : outcome (kfifo * list Z * Z) :=
  if kf_in f =? kf_out f then Done (f, [], 0)
  else
    let* r := kfifo_out_copy_r f len recsize in
    let '(dst, len, n) := r in
    Done (with_out f (u32 (kf_out f + (n + recsize))), dst, len).

Definition __kfifo_skip_r (f : kfifo) (recsize : Z) : outcome kfifo :=
  let* n := __kfifo_peek_n f recsize in
  Done (with_out f (u32 (kf_out f + (n + recsize)))).

(** ** The abstract queue *)

(** [n] bytes of the circular buffer [d] from offset [p]. *)
Definition cread (d : list Z) (p n : Z) : list Z :=
  let l := Z.min n (len d - p) in slice d p l ++ slice d 0 (n - l).

(** The circular buffer after [src] is stored at offset [q]. *)
Definition cwrite (d : list Z) (q : Z) (src : list Z) : list Z :=
  let l := Z.min (len src) (len d - q) in
  splice (splice d q (slice src 0 l)) 0 (slice src l (len src - l)).

(** [x] plus [n], around a circle of [N] places. *)
Definition cadd (N x n : Z) : Z := if x + n <? N then x + n else x + n - N.

Definition used (f : kfifo) : Z := u32 (kf_in f - kf_out f).

(** Abstraction: the queued bytes, oldest first. *)
Definition contents (f : kfifo) : list Z :=
  match kf_data f with
  | None => []
  | Some d =>
      cread d (Z.land (kf_out f) (kf_mask f) * kf_esize f) (used f * kf_esize f)
  end.

(** Well-formedness: a power-of-two capacity of [2 ^ k] elements whose byte
    size fits an unsigned int, counters at most a capacity apart. *)
Record kf_ok (f : kfifo) (k : Z) : Prop := {
  ok_k : 1 <= k <= 31;
  ok_mask : kf_mask f = 2 ^ k - 1;
  ok_esize : 1 <= kf_esize f;
  ok_bytes : 2 ^ k * kf_esize f < 2 ^ 32;
  ok_in : in_w 32 (kf_in f);
  ok_out : in_w 32 (kf_out f);
  ok_used : used f <= 2 ^ k;
  ok_data : exists d, kf_data f = Some d /\ len d = 2 ^ k * kf_esize f;
}.

(** ** Circular buffers *)

Lemma lookup_cread d p n i :
  0 <= p < len d -> 0 <= n <= len d ->
  cread d p n !! i =
    if decide (Z.of_nat i < n) then d !! Z.to_nat (cadd (len d) p (Z.of_nat i)) else None.
Proof.
  intros Hp Hn. unfold cread, cadd; cbv zeta.
  set (m := Z.min n (len d - p)).
  assert (0 <= m) by lia.
  assert (length (slice d p m) = Z.to_nat m) as Hl.
  { rewrite length_slice. unfold len in *. lia. }
  destruct (decide (i < Z.to_nat m)%nat).
  - rewrite lookup_app_l by lia. rewrite lookup_slice, decide_True by lia.
    rewrite decide_True by lia. rewrite (proj2 (Z.ltb_lt _ _)) by lia. f_equal. lia.
  - rewrite lookup_app_r by lia. rewrite Hl, lookup_slice.
    destruct (decide (Z.of_nat i < n)).
    + rewrite decide_True by lia. rewrite (proj2 (Z.ltb_ge _ _)) by lia. f_equal. lia.
    + by rewrite decide_False by lia.
Qed.

Lemma len_cread d p n :
  0 <= p < len d -> 0 <= n <= len d -> len (cread d p n) = n.
Proof.
  intros Hp Hn. unfold cread. rewrite len_app, !len_slice; lia.
Qed.

Lemma len_cwrite d q src :
  0 <= q < len d -> len src <= len d -> len (cwrite d q src) = len d.
Proof.
  intros. unfold cwrite; cbv zeta. pose proof (len_nonneg src).
  rewrite !len_splice; rewrite ?len_splice; rewrite ?len_slice; try lia.
Qed.

Lemma lookup_cwrite d q src i :
  0 <= q < len d -> len src <= len d -> (i < length d)%nat ->
  let t := if q <=? Z.of_nat i then Z.of_nat i - q else Z.of_nat i - q + len d in
  cwrite d q src !! i = if decide (t < len src) then src !! Z.to_nat t else d !! i.
Proof.
  intros Hq Hs Hi t. unfold cwrite; cbv zeta. pose proof (len_nonneg src).
  set (l := len src `min` (len d - q)).
  assert (len (slice src 0 l) = l) as E1 by (apply len_slice; lia).
  assert (len (slice src l (len src - l)) = len src - l) as E2 by (apply len_slice; lia).
  rewrite !lookup_splice; rewrite ?len_splice; try lia.
  assert (length (slice src 0 l) = Z.to_nat l) as -> by (unfold len in E1; lia).
  assert (length (slice src l (len src - l)) = Z.to_nat (len src - l)) as ->
    by (unfold len in E2; unfold len; lia).
  rewrite !lookup_slice. subst t l. unfold len in *.
  destruct (Z.leb_spec q (Z.of_nat i)); repeat case_decide; try lia; try done; f_equal; lia.
Qed.

Lemma cread_app d p a b :
  0 <= p < len d -> 0 <= a -> 0 <= b -> a + b <= len d -> a < len d ->
  cread d p (a + b) = cread d p a ++ cread d (cadd (len d) p a) b.
Proof.
  intros Hp Ha Hb Hab Hlt. apply list_eq. intros i.
  assert (length (cread d p a) = Z.to_nat a) as Hl.
  { pose proof (len_cread d p a). unfold len in *. lia. }
  assert (0 <= cadd (len d) p a < len d).
  { unfold cadd. destruct (Z.ltb_spec (p + a) (len d)); lia. }
  rewrite lookup_cread by lia.
  destruct (decide (i < Z.to_nat a)%nat).
  - rewrite lookup_app_l by lia. rewrite lookup_cread by lia.
    by rewrite !decide_True by lia.
  - rewrite lookup_app_r by lia. rewrite Hl, lookup_cread by lia.
    repeat case_decide; try lia; try done. f_equal. unfold cadd.
    repeat case_match; bools; lia.
Qed.

Lemma cread_cwrite d p u src :
  0 <= p < len d -> 0 <= u < len d -> u + len src <= len d ->
  cread (cwrite d (cadd (len d) p u) src) p (u + len src) = cread d p u ++ src.
Proof.
  intros Hp Hu Hus. pose proof (len_nonneg src) as Hs.
  set (q := cadd (len d) p u).
  assert (0 <= q < len d) as Hq.
  { subst q. unfold cadd. destruct (Z.ltb_spec (p + u) (len d)); lia. }
  assert (length (cread d p u) = Z.to_nat u) as Hl.
  { pose proof (len_cread d p u). unfold len in *. lia. }
  apply list_eq. intros i.
  rewrite lookup_cread; rewrite ?len_cwrite; try lia.
  destruct (decide (i < Z.to_nat u)%nat).
  - rewrite lookup_app_l, lookup_cread, !decide_True by lia.
    rewrite lookup_cwrite; try lia;
      (subst q; unfold cadd, len in *; repeat case_match; bools; try case_decide; try lia; done).
  - rewrite lookup_app_r, Hl by lia. case_decide.
    + rewrite lookup_cwrite; try lia.
      * rewrite decide_True by (subst q; unfold cadd, len in *; repeat case_match; bools; lia).
        f_equal. subst q; unfold cadd, len in *; repeat case_match; bools; lia.
      * subst q; unfold cadd, len in *; repeat case_match; bools; lia.
    + symmetry. apply lookup_ge_None. unfold len in *. lia.
Qed.

(** ** Copy routines *)

Section ok.
Context (f : kfifo) (k : Z) (Hok : kf_ok f k).

Lemma ok_size : 2 <= 2 ^ k < 2 ^ 32.
Proof.
  destruct (ok_k _ _ Hok). split.
  - change 2 with (2 ^ 1) at 1. apply Z.pow_le_mono_r; lia.
  - apply Z.pow_lt_mono_r; lia.
Qed.

Lemma copy_bounds_ok n off :
  0 <= n <= 2 ^ k ->
  copy_bounds f n off = (off mod 2 ^ k * kf_esize f, 2 ^ k * kf_esize f, n * kf_esize f).
Proof.
  intros Hn. pose proof ok_size. destruct Hok as [Hk Hm He Hb _ _ _ _].
  unfold copy_bounds. rewrite Hm, land_mask by lia.
  replace (2 ^ k - 1 + 1) with (2 ^ k) by lia.
  assert (0 <= off mod 2 ^ k < 2 ^ k) by (apply Z.mod_pos_bound; lia).
  rewrite !(wrap_small 32 (kf_esize f)), (wrap_small 32 (2 ^ k)) by (unfold in_w; nia).
  destruct (Z.eqb_spec (kf_esize f) 1) as [->|].
  - by rewrite !Z.mul_1_r.
  - by rewrite !wrap_small by (unfold in_w; nia).
Qed.

Lemma pos_bounds x : 0 <= x mod 2 ^ k * kf_esize f < 2 ^ k * kf_esize f.
Proof.
  pose proof ok_size. destruct Hok.
  assert (0 <= x mod 2 ^ k < 2 ^ k) by (apply Z.mod_pos_bound; lia). nia.
Qed.

(** [in] is [used] elements after [out] around the circle. *)
Lemma in_pos n o :
  0 <= n <= 2 ^ k ->
  wrap 32 (o + n) mod 2 ^ k * kf_esize f =
  cadd (2 ^ k * kf_esize f) (o mod 2 ^ k * kf_esize f) (n * kf_esize f).
Proof.
  intros Hn. pose proof ok_size as Hs. destruct Hok as [Hk _ He _ _ _ _ _].
  assert (wrap 32 (o + n) mod 2 ^ k = (o mod 2 ^ k + n) mod 2 ^ k) as ->.
  { unfold wrap. rewrite Zplus_mod_idemp_l.
    assert (2 ^ 32 = 2 ^ (32 - k) * 2 ^ k) as -> by (rewrite <- Z.pow_add_r; f_equal; lia).
    rewrite (Z.mod_eq (o + n)) by nia.
    replace (o + n - 2 ^ (32 - k) * 2 ^ k * ((o + n) / (2 ^ (32 - k) * 2 ^ k)))
      with (o + n + (- (2 ^ (32 - k) * ((o + n) / (2 ^ (32 - k) * 2 ^ k)))) * 2 ^ k) by ring.
    apply Z_mod_plus_full. }
  pose proof (Z.mod_pos_bound o (2 ^ k)).
  unfold cadd. destruct (Z.ltb_spec (o mod 2 ^ k * kf_esize f + n * kf_esize f)
    (2 ^ k * kf_esize f)).
  - rewrite Z.mod_small by nia. lia.
  - replace (o mod 2 ^ k + n) with ((o mod 2 ^ k + n - 2 ^ k) + 1 * 2 ^ k) by lia.
    rewrite Z_mod_plus_full, Z.mod_small by nia. lia.
Qed.

Lemma used_bounds : 0 <= used f <= 2 ^ k.
Proof. destruct Hok. split; [|done]. apply wrap_range. lia. Qed.

Lemma used_out : wrap 32 (kf_out f + used f) = kf_in f.
Proof.
  unfold used, wrap. rewrite Zplus_mod_idemp_r.
  replace (kf_out f + (kf_in f - kf_out f)) with (kf_in f) by lia.
  apply Z.mod_small, Hok.
Qed.

Lemma unused_ok : kfifo_unused f = 2 ^ k - used f.
Proof.
  pose proof ok_size. pose proof used_bounds. unfold kfifo_unused.
  rewrite (ok_mask _ _ Hok).
  replace (2 ^ k - 1 + 1 - (kf_in f - kf_out f)) with (2 ^ k - (kf_in f - kf_out f)) by lia.
  unfold wrap. rewrite Zminus_mod. fold (used f).
  change ((kf_in f - kf_out f) mod 2 ^ 32) with (used f).
  rewrite (Z.mod_small (2 ^ k)) by lia. apply Z.mod_small. lia.
Qed.

Lemma copy_in_ok d src n off :
  kf_data f = Some d -> len d = 2 ^ k * kf_esize f ->
  0 <= n <= 2 ^ k -> n * kf_esize f <= len src ->
  kfifo_copy_in f src n off =
  Done (with_data f (cwrite d (off mod 2 ^ k * kf_esize f) (slice src 0 (n * kf_esize f)))).
Proof.
  intros Hd Hl Hn Hs. unfold kfifo_copy_in. rewrite copy_bounds_ok, Hd by done.
  pose proof (pos_bounds off) as Hp. pose proof (ok_bytes _ _ Hok). pose proof (ok_esize _ _ Hok).
  set (p := off mod 2 ^ k * kf_esize f) in *. set (m := n * kf_esize f) in *.
  assert (0 <= m <= len d) by (subst m; nia).
  rewrite wrap_small by (unfold in_w; lia). rewrite <- Hl in *.
  set (l := Z.min m (len d - p)).
  unfold cwrite. rewrite len_slice by lia. fold l.
  rewrite mem_read_ok by lia. simpl.
  rewrite mem_write_ok by (rewrite ?len_slice; lia). simpl.
  rewrite mem_read_ok by lia. simpl.
  rewrite mem_write_ok; rewrite ?len_splice; rewrite ?len_slice; try lia.
  simpl. by rewrite !slice_slice by lia.
Qed.

Lemma copy_out_ok d n off :
  kf_data f = Some d -> len d = 2 ^ k * kf_esize f -> 0 <= n <= 2 ^ k ->
  kfifo_copy_out f n off = Done (cread d (off mod 2 ^ k * kf_esize f) (n * kf_esize f)).
Proof.
  intros Hd Hl Hn. unfold kfifo_copy_out. rewrite copy_bounds_ok, Hd by done.
  pose proof (pos_bounds off) as Hp. pose proof (ok_bytes _ _ Hok). pose proof (ok_esize _ _ Hok).
  set (p := off mod 2 ^ k * kf_esize f) in *. set (m := n * kf_esize f) in *.
  assert (0 <= m <= len d) by (subst m; nia).
  rewrite wrap_small by (unfold in_w; lia). rewrite <- Hl in *.
  unfold cread. by rewrite !mem_read_ok by lia.
Qed.

End ok.

Lemma cadd_range N x n : 0 <= x < N -> 0 <= n <= N -> 0 <= cadd N x n < N.
Proof. intros. unfold cadd. destruct (Z.ltb_spec (x + n) N); lia. Qed.

Lemma cwrite_nil d q : 0 <= q < len d -> cwrite d q [] = d.
Proof.
  intros Hq. apply list_eq. intros i.
  destruct (decide (i < length d)%nat).
  - rewrite lookup_cwrite by (done || rewrite len_nil; lia).
    rewrite decide_False; [done|]. rewrite len_nil. destruct (Z.leb_spec q (Z.of_nat i)); lia.
  - pose proof (len_cwrite d q []). rewrite !lookup_ge_None_2; [done|lia|].
    unfold len in *. simpl in *. lia.
Qed.

(** [cread_cwrite] and [cread_app] with a full prefix allowed. *)
Lemma cread_cwrite' d p u src :
  0 <= p < len d -> 0 <= u -> u + len src <= len d ->
  cread (cwrite d (cadd (len d) p u) src) p (u + len src) = cread d p u ++ src.
Proof.
  intros Hp Hu Hs. pose proof (len_nonneg src).
  destruct (decide (u < len d)); [by apply cread_cwrite|].
  assert (src = []) as -> by (destruct src; [done|rewrite len_cons in *; pose proof (len_nonneg src); lia]).
  rewrite cwrite_nil by (apply cadd_range; lia).
  by rewrite len_nil, Z.add_0_r, app_nil_r.
Qed.

Lemma cread_app' d p a b :
  0 <= p < len d -> 0 <= a -> 0 <= b -> a + b <= len d ->
  cread d p (a + b) = cread d p a ++ cread d (cadd (len d) p a) b.
Proof.
  intros Hp Ha Hb Hab. destruct (decide (a < len d)); [by apply cread_app|].
  assert (b = 0) as -> by lia. rewrite Z.add_0_r.
  assert (cread d (cadd (len d) p a) 0 = []) as ->.
  { apply nil_length_inv. pose proof (len_cread d (cadd (len d) p a) 0) as E.
    pose proof (cadd_range (len d) p a). unfold len in *. lia. }
  by rewrite app_nil_r.
Qed.

Section queue.
Context (f : kfifo) (k : Z) (Hok : kf_ok f k).

Lemma contents_eq d :
  kf_data f = Some d ->
  contents f = cread d (kf_out f mod 2 ^ k * kf_esize f) (used f * kf_esize f).
Proof.
  intros Hd. unfold contents. rewrite Hd, (ok_mask _ _ Hok), land_mask; [done|].
  destruct (ok_k _ _ Hok). lia.
Qed.

Lemma len_contents : len (contents f) = used f * kf_esize f.
Proof.
  destruct (ok_data _ _ Hok) as (d & Hd & Hl).
  pose proof (pos_bounds f k Hok (kf_out f)). pose proof (used_bounds f k Hok).
  pose proof (ok_esize _ _ Hok).
  rewrite (contents_eq d) by done. apply len_cread; nia.
Qed.

(** Storing [src] behind the queued elements and advancing [in]. *)
Lemma kf_push_ok d src n :
  kf_data f = Some d -> len d = 2 ^ k * kf_esize f ->
  0 <= n <= 2 ^ k - used f -> len src = n * kf_esize f ->
  let f' := with_in (with_data f (cwrite d (kf_in f mod 2 ^ k * kf_esize f) src))
              (u32 (kf_in f + n)) in
  kf_ok f' k /\ used f' = used f + n /\ contents f' = contents f ++ src.
Proof.
  intros Hd Hl Hn Hs f'.
  pose proof (ok_size f k Hok). pose proof (used_bounds f k Hok) as Hu.
  pose proof (pos_bounds f k Hok (kf_in f)). pose proof (pos_bounds f k Hok (kf_out f)).
  pose proof (ok_esize _ _ Hok).
  assert (used f' = used f + n) as Hu'.
  { change (used f') with (u32 (u32 (kf_in f + n) - kf_out f)).
    rewrite <- (used_out f k Hok).
    rewrite wrap_add_l, <- Z.add_assoc. apply wrap_diff. unfold in_w. lia. }
  assert (kf_ok f' k) as Hok'.
  { destruct Hok. split; try done; simpl.
    - apply wrap_range. lia.
    - rewrite Hu'. lia.
    - eexists. split; [done|]. rewrite len_cwrite; nia. }
  split; [done|]. split; [done|].
  rewrite (contents_eq d) by done.
  unfold contents; simpl. rewrite (ok_mask _ _ Hok), land_mask by (destruct (ok_k _ _ Hok); lia).
  rewrite Hu', Z.mul_add_distr_r, <- Hs.
  rewrite <- (used_out f k Hok), (in_pos f k Hok), <- Hl by lia.
  apply cread_cwrite'; nia.
Qed.

(** Advancing [out] over [n] elements. *)
Lemma kf_pop_ok n :
  0 <= n <= used f ->
  let f' := with_out f (u32 (kf_out f + n)) in
  kf_ok f' k /\ used f' = used f - n /\
  contents f = slice (contents f) 0 (n * kf_esize f) ++ contents f'.
Proof.
  intros Hn f'. destruct (ok_data _ _ Hok) as (d & Hd & Hl).
  pose proof (ok_size f k Hok). pose proof (used_bounds f k Hok) as Hu.
  pose proof (pos_bounds f k Hok (kf_out f)). pose proof (ok_esize _ _ Hok).
  assert (used f' = used f - n) as Hu'.
  { change (used f') with (u32 (kf_in f - u32 (kf_out f + n))).
    rewrite <- (used_out f k Hok).
    unfold wrap. rewrite <- Zminus_mod.
    replace (kf_out f + used f - (kf_out f + n)) with (used f - n) by lia.
    apply Z.mod_small. lia. }
  assert (kf_ok f' k) as Hok'.
  { pose proof (ok_out _ _ Hok). destruct Hok. split; try done; simpl.
    - apply wrap_range. lia.
    - rewrite Hu'. lia. }
  split; [done|]. split; [done|].
  assert (contents f' = cread d (cadd (len d) (kf_out f mod 2 ^ k * kf_esize f)
            (n * kf_esize f)) ((used f - n) * kf_esize f)) as ->.
  { unfold contents. simpl. rewrite Hd, (ok_mask _ _ Hok), land_mask
      by (destruct (ok_k _ _ Hok); lia).
    by rewrite (in_pos f k Hok), Hu', Hl by lia. }
  rewrite (contents_eq d) by done.
  replace (used f * kf_esize f) with (n * kf_esize f + (used f - n) * kf_esize f) at 1 2 by ring.
  rewrite cread_app' by nia. f_equal.
  unfold slice. rewrite drop_0. symmetry.
  assert (length (cread d (kf_out f mod 2 ^ k * kf_esize f) (n * kf_esize f))
            = Z.to_nat (n * kf_esize f)) as E.
  { pose proof (len_cread d (kf_out f mod 2 ^ k * kf_esize f) (n * kf_esize f)) as E.
    unfold len in *. nia. }
  rewrite <- E. apply take_app_length.
Qed.

Lemma front_ok d n :
  kf_data f = Some d -> 0 <= n <= used f ->
  cread d (kf_out f mod 2 ^ k * kf_esize f) (n * kf_esize f) =
  slice (contents f) 0 (n * kf_esize f).
Proof.
  intros Hd Hn. destruct (ok_data _ _ Hok) as (d' & Hd' & Hl).
  assert (d' = d) as -> by congruence.
  pose proof (used_bounds f k Hok).
  pose proof (pos_bounds f k Hok (kf_out f)). pose proof (ok_esize _ _ Hok).
  rewrite (contents_eq d) by done.
  replace (used f * kf_esize f) with (n * kf_esize f + (used f - n) * kf_esize f) by ring.
  rewrite cread_app' by nia. unfold slice. rewrite drop_0. symmetry.
  assert (length (cread d (kf_out f mod 2 ^ k * kf_esize f) (n * kf_esize f))
            = Z.to_nat (n * kf_esize f)) as E.
  { pose proof (len_cread d (kf_out f mod 2 ^ k * kf_esize f) (n * kf_esize f)) as E.
    unfold len in *. nia. }
  rewrite <- E. apply take_app_length.
Qed.

End queue.

(** *** The specification: a bounded queue of [es]-byte elements *)

Definition queue_in (cap es : Z) (q buf : list Z) (n : Z) : list Z * Z :=
  let m := Z.min n (cap - len q / es) in (q ++ slice buf 0 (m * es), m).
Definition queue_peek (es : Z) (q : list Z) (n : Z) : list Z * Z :=
  let m := Z.min n (len q / es) in (slice q 0 (m * es), m).
Definition queue_out (es : Z) (q : list Z) (n : Z) : list Z * list Z * Z :=
  let m := Z.min n (len q / es) in (drop (Z.to_nat (m * es)) q, slice q 0 (m * es), m).

(** A client's calls and what it observes. *)
Inductive kop :=
| KIn (buf : list Z) (n : Z)
| KOut (n : Z)
| KPeek (n : Z).
Inductive kobs :=
| ObsIn (m : Z)
| ObsOut (dst : list Z) (m : Z).

(** The caller's side of the contract: an unsigned int count, and [n]
    elements behind [buf]. *)
Definition kop_ok (es : Z) (op : kop) : Prop :=
  match op with
  | KIn buf n => in_w 32 n /\ n * es <= len buf
  | KOut n | KPeek n => in_w 32 n
  end.

Definition kstep (f : kfifo) (op : kop) : outcome (kfifo * kobs) :=
  match op with
  | KIn buf n => let* r := __kfifo_in f buf n in Done (r.1, ObsIn r.2)
  | KOut n => let* r := __kfifo_out f n in Done (r.1.1, ObsOut r.1.2 r.2)
  | KPeek n => let* r := __kfifo_out_peek f n in Done (f, ObsOut r.1 r.2)
  end.

Definition qstep (cap es : Z) (q : list Z) (op : kop) : list Z * kobs :=
  match op with
  | KIn buf n => let r := queue_in cap es q buf n in (r.1, ObsIn r.2)
  | KOut n => let r := queue_out es q n in (r.1.1, ObsOut r.1.2 r.2)
  | KPeek n => let r := queue_peek es q n in (q, ObsOut r.1 r.2)
  end.

Fixpoint krun (f : kfifo) (ops : list kop) : outcome (kfifo * list kobs) :=
  match ops with
  | [] => Done (f, [])
  | op :: ops =>
      let* r := kstep f op in
      let* rs := krun r.1 ops in
      Done (rs.1, r.2 :: rs.2)
  end.

Fixpoint qrun (cap es : Z) (q : list Z) (ops : list kop) : list Z * list kobs :=
  match ops with
  | [] => (q, [])
  | op :: ops =>
      let r := qstep cap es q op in
      let rs := qrun cap es r.1 ops in
      (rs.1, r.2 :: rs.2)
  end.

Section refinement.
Context (f : kfifo) (k : Z) (Hok : kf_ok f k).

Lemma used_len : len (contents f) / kf_esize f = used f.
Proof.
  rewrite (len_contents f k Hok). pose proof (ok_esize _ _ Hok).
  apply Z.div_mul. lia.
Qed.

Lemma kfifo_in_refines buf n :
  in_w 32 n -> n * kf_esize f <= len buf ->
  exists f', __kfifo_in f buf n = Done (f', Z.min n (2 ^ k - used f)) /\ kf_ok f' k /\
    kf_esize f' = kf_esize f /\
    (contents f', Z.min n (2 ^ k - used f)) = queue_in (2 ^ k) (kf_esize f) (contents f) buf n.
Proof.
  intros Hn Hb. destruct (ok_data _ _ Hok) as (d & Hd & Hl).
  pose proof (used_bounds f k Hok). pose proof (ok_esize _ _ Hok).
  unfold __kfifo_in, queue_in. rewrite (unused_ok f k Hok), used_len.
  set (m := Z.min n (2 ^ k - used f)).
  assert ((if n >? 2 ^ k - used f then 2 ^ k - used f else n) = m) as ->.
  { destruct (n >? 2 ^ k - used f) eqn:E; bools; lia. }
  assert (0 <= m <= 2 ^ k - used f) by (unfold in_w in *; lia).
  rewrite (copy_in_ok f k Hok d) by (done || nia). simpl.
  destruct (kf_push_ok f k Hok d (slice buf 0 (m * kf_esize f)) m) as (Hok' & _ & Hc);
    try done.
  { rewrite len_slice; nia. }
  eexists. split; [done|]. split; [done|]. split; [done|]. by rewrite Hc.
Qed.

Lemma kfifo_peek_refines n :
  in_w 32 n ->
  __kfifo_out_peek f n = Done (queue_peek (kf_esize f) (contents f) n).
Proof.
  intros Hn. destruct (ok_data _ _ Hok) as (d & Hd & Hl).
  pose proof (used_bounds f k Hok).
  unfold __kfifo_out_peek, queue_peek. rewrite used_len.
  change (u32 (kf_in f - kf_out f)) with (used f).
  set (m := Z.min n (used f)).
  assert ((if n >? used f then used f else n) = m) as ->.
  { destruct (n >? used f) eqn:E; bools; lia. }
  assert (0 <= m <= used f) by (unfold in_w in *; lia).
  rewrite (copy_out_ok f k Hok d) by (done || lia). simpl.
  by rewrite (front_ok f k Hok d).
Qed.

Lemma kfifo_out_refines n :
  in_w 32 n ->
  exists f' dst m, __kfifo_out f n = Done (f', dst, m) /\ kf_ok f' k /\
    kf_esize f' = kf_esize f /\
    (contents f', dst, m) = queue_out (kf_esize f) (contents f) n.
Proof.
  intros Hn. unfold __kfifo_out. rewrite kfifo_peek_refines by done.
  unfold queue_peek, queue_out. rewrite used_len. simpl.
  pose proof (used_bounds f k Hok). pose proof (ok_esize _ _ Hok).
  set (m := Z.min n (used f)).
  assert (0 <= m <= used f) by (unfold in_w in *; lia).
  destruct (kf_pop_ok f k Hok m) as (Hok' & _ & Hc); [done|].
  do 3 eexists. split; [done|]. split; [done|]. split; [done|].
  f_equal. f_equal. rewrite Hc at 1.
  rewrite drop_app_ge by (rewrite length_slice; lia).
  rewrite length_slice. replace (Z.to_nat (m * kf_esize f) -
    Z.to_nat (m * kf_esize f) `min` (length (contents f) - Z.to_nat 0))%nat with 0%nat.
  - by rewrite drop_0.
  - pose proof (len_contents f k Hok). unfold len in *. nia.
Qed.

Lemma kstep_refines op :
  kop_ok (kf_esize f) op ->
  exists f' o, kstep f op = Done (f', o) /\ kf_ok f' k /\ kf_esize f' = kf_esize f /\
    qstep (2 ^ k) (kf_esize f) (contents f) op = (contents f', o).
Proof.
  destruct op as [buf n|n|n]; unfold kop_ok, kstep, qstep; intros Hop; cbv zeta.
  - destruct Hop as [Hn Hb].
    destruct (kfifo_in_refines buf n) as (f' & -> & H1 & H2 & <-); eauto.
    simpl. eauto 8.
  - destruct (kfifo_out_refines n) as (f' & dst & m & -> & H1 & H2 & <-); eauto.
    simpl. eauto 8.
  - rewrite kfifo_peek_refines by done. simpl. eauto 8.
Qed.

End refinement.

(** C6: the byte-stream interface of the ring buffer is a bounded queue:
    whatever a client does with [kfifo_in], [kfifo_out] and
    [kfifo_out_peek], over any number of calls and any wrap-around of the
    32-bit counters, no call leaves the buffer or fails, and every byte and
    count the client sees is the queue's. *)
Theorem kfifo_refines_queue (f : kfifo) (k : Z) (ops : list kop) :
  kf_ok f k -> Forall (kop_ok (kf_esize f)) ops ->
  exists f' obs, krun f ops = Done (f', obs) /\ kf_ok f' k /\
    qrun (2 ^ k) (kf_esize f) (contents f) ops = (contents f', obs).
Proof.
  intros Hok Hops. revert f Hok Hops. induction ops as [|op ops IH]; intros f Hok Hops.
  - by exists f, [].
  - inversion Hops as [|?? Hop Hrest]; subst.
    destruct (kstep_refines f k Hok op Hop) as (f1 & o & E & Hok1 & He & Eq).
    destruct (IH f1) as (f2 & obs & E2 & Hok2 & Eq2); [done|by rewrite He|].
    exists f2, (o :: obs). simpl. rewrite E. simpl. rewrite E2. simpl.
    split; [done|]. split; [done|].
    rewrite Eq. simpl. rewrite He in Eq2. by rewrite Eq2.
Qed.

(** ** Record mode *)

(** The length prefix of a record: one byte, or two in little-endian order. *)
Definition rec_header (recsize n : Z) : list Z :=
  if recsize =? 1 then [u8 n] else [u8 n; u8 (Z.shiftr n 8)].

Definition rec_bytes (recsize : Z) (rs : list (list Z)) : list Z :=
  concat (map (fun r => rec_header recsize (len r) ++ r) rs).

(** A record-mode client's calls. *)
Inductive rop :=
| RIn (buf : list Z)
| ROut (n : Z)
| RPeek (n : Z)
| RLen
| RSkip.
Inductive robs :=
| RObsIn (m : Z)
| RObsOut (dst : list Z) (m : Z)
| RObsLen (n : Z)
| RObsSkip.

Definition rop_ok (recsize : Z) (op : rop) : Prop :=
  match op with
  | RIn buf => len buf < 2 ^ (8 * recsize)
  | ROut n | RPeek n => in_w 32 n
  | RLen | RSkip => True
  end.

Definition rstep (recsize : Z) (f : kfifo) (op : rop) : outcome (kfifo * robs) :=
  match op with
  | RIn buf => let* r := __kfifo_in_r f buf (len buf) recsize in Done (r.1, RObsIn r.2)
  | ROut n => let* r := __kfifo_out_r f n recsize in Done (r.1.1, RObsOut r.1.2 r.2)
  | RPeek n => let* r := __kfifo_out_peek_r f n recsize in Done (f, RObsOut r.1 r.2)
  | RLen => let* n := __kfifo_len_r f recsize in Done (f, RObsLen n)
  | RSkip => let* f := __kfifo_skip_r f recsize in Done (f, RObsSkip)
  end.

(** The specification: a list of records sharing [cap] bytes.  [RLen] and
    [RSkip] have no meaning on an empty queue. *)
Definition rspec (cap recsize : Z) (rs : list (list Z)) (op : rop)
    : option (list (list Z) * robs) :=
  match op, rs with
  | RIn buf, _ =>
      if len (rec_bytes recsize rs) + recsize + len buf <=? cap
      then Some (rs ++ [buf], RObsIn (len buf)) else Some (rs, RObsIn 0)
  | ROut n, [] => Some ([], RObsOut [] 0)
  | ROut n, r :: rs =>
      let m := Z.min n (len r) in Some (rs, RObsOut (slice r 0 m) m)
  | RPeek n, [] => Some ([], RObsOut [] 0)
  | RPeek n, r :: _ => let m := Z.min n (len r) in Some (rs, RObsOut (slice r 0 m) m)
  | RLen, r :: _ => Some (rs, RObsLen (len r))
  | RSkip, _ :: rs => Some (rs, RObsSkip)
  | _, [] => None
  end.

Fixpoint rrun (recsize : Z) (f : kfifo) (ops : list rop) : outcome (kfifo * list robs) :=
  match ops with
  | [] => Done (f, [])
  | op :: ops =>
      let* r := rstep recsize f op in
      let* rs := rrun recsize r.1 ops in
      Done (rs.1, r.2 :: rs.2)
  end.

Fixpoint rspec_run (cap recsize : Z) (rs : list (list Z)) (ops : list rop)
    : option (list (list Z) * list robs) :=
  match ops with
  | [] => Some (rs, [])
  | op :: ops =>
      match rspec cap recsize rs op with
      | None => None
      | Some (rs, o) =>
          match rspec_run cap recsize rs ops with
          | None => None
          | Some (rs, os) => Some (rs, o :: os)
          end
      end
  end.

(** The buffer holds the records [rs]. *)
Record rec_repr (f : kfifo) (k recsize : Z) (rs : list (list Z)) : Prop := {
  rr_ok : kf_ok f k;
  rr_esize : kf_esize f = 1;
  rr_recsize : recsize = 1 \/ recsize = 2;
  rr_contents : contents f = rec_bytes recsize rs;
  rr_len : Forall (fun r => len r < 2 ^ (8 * recsize)) rs;
}.

Lemma cwrite_1 d q b : 0 <= q < len d -> cwrite d q [b] = splice d q [b].
Proof.
  intros Hq. unfold cwrite. change (len [b]) with 1. cbv zeta.
  rewrite Z.min_l by lia. change (slice [b] 0 1) with [b].
  change (slice [b] 1 (1 - 1)) with (@nil Z).
  unfold splice at 1. simpl. by rewrite drop_0.
Qed.

Section records.
Context (f : kfifo) (k : Z) (Hok : kf_ok f k) (He : kf_esize f = 1).

Lemma rec_pos x : 0 <= x mod 2 ^ k < 2 ^ k.
Proof. pose proof (pos_bounds f k Hok x). rewrite He in *. lia. Qed.

Lemma poke_ok d i v :
  kf_data f = Some d -> len d = 2 ^ k ->
  kfifo_poke_byte f i v = Done (with_data f (cwrite d (i mod 2 ^ k) [u8 v])).
Proof.
  intros Hd Hl. pose proof (rec_pos i).
  unfold kfifo_poke_byte. rewrite Hd, (ok_mask _ _ Hok), land_mask
    by (destruct (ok_k _ _ Hok); lia).
  rewrite cwrite_1 by lia. rewrite mem_write_ok; [done|lia|].
  rewrite len_cons, len_nil. lia.
Qed.

Lemma peek_ok i b :
  contents f !! i = Some b -> Z.of_nat i < used f ->
  kfifo_peek_byte f (u32 (kf_out f + Z.of_nat i)) = Done b.
Proof.
  intros Hb Hi. destruct (ok_data _ _ Hok) as (d & Hd & Hl).
  pose proof (used_bounds f k Hok). pose proof (rec_pos (kf_out f)) as Hp.
  pose proof (in_pos f k Hok (Z.of_nat i) (kf_out f)) as E.
  rewrite (contents_eq f k Hok d) in Hb by done.
  rewrite He, !Z.mul_1_r in *.
  rewrite lookup_cread in Hb by lia. rewrite decide_True in Hb by lia.
  unfold kfifo_peek_byte. rewrite Hd, (ok_mask _ _ Hok), land_mask
    by (destruct (ok_k _ _ Hok); lia).
  rewrite E by lia. rewrite Hl in Hb. by rewrite Hb.
Qed.

End records.

Lemma header_value n :
  0 <= n < 2 ^ 16 -> Z.lor (u8 n) (Z.shiftl (u8 (Z.shiftr n 8)) 8) = n.
Proof.
  intros Hn. unfold wrap. rewrite <- !Z.land_ones by lia.
  apply Z.bits_inj'. intros i Hi.
  rewrite Z.lor_spec, Z.land_spec, Z.testbit_ones_nonneg by lia.
  destruct (Z.ltb_spec i 8).
  - rewrite Z.shiftl_spec_low by lia. by rewrite andb_true_r, orb_false_r.
  - rewrite andb_false_r, orb_false_l, Z.shiftl_spec, Z.land_spec, Z.shiftr_spec by lia.
    rewrite Z.testbit_ones_nonneg by lia. rewrite Z.sub_add.
    destruct (Z.ltb_spec (i - 8) 8); [by rewrite andb_true_r|].
    rewrite andb_false_r. symmetry.
    apply Z.bits_above_log2; [lia|].
    destruct (decide (n = 0)) as [->|]; [simpl; lia|].
    apply Z.log2_lt_pow2; [lia|].
    apply Z.lt_le_trans with (2 ^ 16); [lia|]. apply Z.pow_le_mono_r; lia.
Qed.

Lemma rec_bytes_snoc recsize rs r :
  rec_bytes recsize (rs ++ [r]) =
  rec_bytes recsize rs ++ rec_header recsize (len r) ++ r.
Proof.
  unfold rec_bytes. rewrite map_app, concat_app. simpl. by rewrite app_nil_r.
Qed.

Lemma rec_bytes_cons recsize r rs :
  rec_bytes recsize (r :: rs) = rec_header recsize (len r) ++ r ++ rec_bytes recsize rs.
Proof. unfold rec_bytes. simpl. by rewrite <- app_assoc. Qed.

Lemma len_header recsize n : recsize = 1 \/ recsize = 2 -> len (rec_header recsize n) = recsize.
Proof. by intros [-> | ->]. Qed.

Lemma slice_all {A} (l : list A) : slice l 0 (len l) = l.
Proof. unfold slice, len. rewrite drop_0, Nat2Z.id. by apply firstn_all. Qed.

(** *** Storing without publishing, and publishing *)

Definition store (k : Z) (f : kfifo) (i : Z) (src : list Z) : kfifo :=
  match kf_data f with
  | None => f
  | Some d => with_data f (cwrite d (i mod 2 ^ k) src)
  end.
Definition advance (f : kfifo) (n : Z) : kfifo := with_in f (u32 (kf_in f + n)).
Definition append (k : Z) (f : kfifo) (src : list Z) : kfifo :=
  advance (store k f (kf_in f) src) (len src).

Lemma store_advance k f n i src : store k (advance f n) i src = advance (store k f i src) n.
Proof. destruct f as [? ? ? ? [d|]]; done. Qed.

Lemma advance_advance f a b : advance (advance f a) b = advance f (a + b).
Proof. unfold advance, with_in. simpl. by rewrite wrap_add_l, Z.add_assoc. Qed.

Lemma store_in k f i src : kf_in (store k f i src) = kf_in f.
Proof. unfold store. by destruct (kf_data f). Qed.

Lemma append_ok f k src :
  kf_ok f k -> kf_esize f = 1 -> used f + len src <= 2 ^ k ->
  kf_ok (append k f src) k /\ kf_esize (append k f src) = 1 /\
  used (append k f src) = used f + len src /\
  contents (append k f src) = contents f ++ src.
Proof.
  intros Hok He Hu. destruct (ok_data _ _ Hok) as (d & Hd & Hl).
  pose proof (len_nonneg src).
  destruct (kf_push_ok f k Hok d src (len src)) as (H1 & H2 & H3); try done;
    rewrite ?He; try lia.
  unfold append, store, advance. rewrite Hd.
  rewrite He, Z.mul_1_r in *. done.
Qed.

Lemma kf_store_ok f k i src :
  kf_ok f k -> kf_esize f = 1 -> len src <= 2 ^ k ->
  kf_ok (store k f i src) k /\ kf_esize (store k f i src) = 1.
Proof.
  intros Hok He Hs. destruct (ok_data _ _ Hok) as (d & Hd & Hl).
  pose proof (rec_pos f k Hok He i). rewrite He in Hl.
  unfold store. rewrite Hd. split; [|done].
  destruct Hok; split; try done. eexists. split; [done|]. simpl.
  rewrite len_cwrite; rewrite ?He; lia.
Qed.

Lemma poke_store f k i v :
  kf_ok f k -> kf_esize f = 1 -> kfifo_poke_byte f i v = Done (store k f i [u8 v]).
Proof.
  intros Hok He. destruct (ok_data _ _ Hok) as (d & Hd & Hl).
  rewrite He, Z.mul_1_r in Hl.
  rewrite (poke_ok f k Hok He d) by done. unfold store. by rewrite Hd.
Qed.

Lemma copy_in_store f k i src :
  kf_ok f k -> kf_esize f = 1 -> len src <= 2 ^ k ->
  kfifo_copy_in f src (len src) i = Done (store k f i src).
Proof.
  intros Hok He Hs. destruct (ok_data _ _ Hok) as (d & Hd & Hl). pose proof (len_nonneg src).
  rewrite (copy_in_ok f k Hok d) by (done || rewrite ?He; lia).
  unfold store. by rewrite Hd, He, !Z.mul_1_r, slice_all.
Qed.

(** The bytes [__kfifo_poke_n] stores, as appends. *)
Definition append_header (k : Z) (f : kfifo) (recsize n : Z) : kfifo :=
  if recsize =? 1 then append k f [u8 n]
  else append k (append k f [u8 n]) [u8 (Z.shiftr n 8)].

Lemma append_header_ok f k recsize n :
  kf_ok f k -> kf_esize f = 1 -> recsize = 1 \/ recsize = 2 -> used f + recsize <= 2 ^ k ->
  let f' := append_header k f recsize n in
  kf_ok f' k /\ kf_esize f' = 1 /\ used f' = used f + recsize /\
  contents f' = contents f ++ rec_header recsize n.
Proof.
  intros Hok He Hr Hu. unfold append_header, rec_header.
  destruct (append_ok f k [u8 n]) as (H1 & H2 & H3 & H4); try done.
  { change (len [u8 n]) with 1. lia. }
  change (len [u8 n]) with 1 in H3.
  destruct Hr as [-> | ->]; simpl.
  - by rewrite H3, H4.
  - destruct (append_ok (append k f [u8 n]) k [u8 (Z.shiftr n 8)]) as (Q1 & Q2 & Q3 & Q4);
      try done.
    { change (len [u8 (Z.shiftr n 8)]) with 1. lia. }
    change (len [u8 (Z.shiftr n 8)]) with 1 in Q3.
    split_and!; [done|done|lia|]. by rewrite Q4, H4, <- app_assoc.
Qed.

(** [__kfifo_in_r], when the record fits, is an append of header and data. *)
Lemma in_r_append f k recsize buf :
  kf_ok f k -> kf_esize f = 1 -> recsize = 1 \/ recsize = 2 ->
  used f + recsize + len buf <= 2 ^ k ->
  __kfifo_in_r f buf (len buf) recsize =
  Done (append k (append_header k f recsize (len buf)) buf, len buf).
Proof.
  intros Hok He Hr Hfit. pose proof (len_nonneg buf). pose proof (ok_size f k Hok).
  pose proof (used_bounds f k Hok).
  unfold __kfifo_in_r. rewrite (unused_ok f k Hok), (wrap_small 64) by (unfold in_w; lia).
  destruct (len buf + recsize >? 2 ^ k - used f) eqn:E; bools; [lia|]. clear E.
  unfold __kfifo_poke_n. rewrite (poke_store f k) by done. simpl.
  destruct (kf_store_ok f k (kf_in f) [u8 (len buf)]) as [Hok1 He1]; try done.
  { change (len [u8 (len buf)]) with 1. lia. }
  unfold append_header, append.
  destruct Hr as [-> | ->]; simpl.
  - rewrite (copy_in_store _ k) by (done || lia). simpl.
    rewrite !store_advance, advance_advance. unfold advance.
    rewrite ?store_in. simpl. rewrite ?store_in. change (len [u8 (len buf)]) with 1.
    by rewrite (Z.add_comm 1).
  - rewrite store_in, (poke_store _ k) by done. simpl.
    destruct (kf_store_ok (store k f (kf_in f) [u8 (len buf)]) k (u32 (kf_in f + 1))
      [u8 (Z.shiftr (len buf) 8)]) as [Hok2 He2]; try done.
    { change (len [u8 (Z.shiftr (len buf) 8)]) with 1. lia. }
    rewrite (copy_in_store _ k) by (done || lia). simpl.
    change (len [u8 (len buf)]) with 1. change (len [u8 (Z.shiftr (len buf) 8)]) with 1.
    rewrite !store_advance, !advance_advance. unfold advance.
    simpl. rewrite !store_in.
    rewrite wrap_add_l, <- Z.add_assoc.
    by replace (len buf + 2) with (1 + (1 + len buf)) by lia.
Qed.

Lemma slice_prefix {A} (a b : list A) : slice (a ++ b) 0 (len a) = a.
Proof. unfold slice, len. rewrite drop_0, Nat2Z.id. apply take_app_length. Qed.

(** *** Reading a record *)

Lemma peek_n_ok f k recsize r rs :
  rec_repr f k recsize (r :: rs) -> __kfifo_peek_n f recsize = Done (len r).
Proof.
  intros [Hok He Hr Hc Hl]. inversion Hl as [|?? Hlr _]; subst.
  rewrite rec_bytes_cons in Hc. pose proof (len_contents f k Hok) as Hu.
  rewrite He, Hc, !len_app, len_header, Z.mul_1_r in Hu by done.
  pose proof (len_nonneg r). pose proof (len_nonneg (rec_bytes recsize rs)).
  unfold __kfifo_peek_n.
  assert (forall i b, rec_header recsize (len r) !! i = Some b ->
            kfifo_peek_byte f (u32 (kf_out f + Z.of_nat i)) = Done b) as Hb.
  { intros i b Hi. apply (peek_ok f k Hok He).
    - rewrite Hc. by apply lookup_app_l_Some.
    - apply lookup_lt_Some in Hi. pose proof (len_header recsize (len r) Hr).
      unfold len in *. lia. }
  assert (u32 (kf_out f) = kf_out f) as Ho by (apply wrap_small, Hok).
  destruct Hr as [-> | ->]; simpl.
  - specialize (Hb 0%nat (u8 (len r)) eq_refl).
    rewrite Z.add_0_r, Ho in Hb. rewrite Hb. simpl. f_equal.
    apply wrap_small. unfold in_w. lia.
  - pose proof (Hb 0%nat (u8 (len r)) eq_refl) as Hb0.
    pose proof (Hb 1%nat (u8 (Z.shiftr (len r) 8)) eq_refl) as Hb1.
    rewrite Z.add_0_r, Ho in Hb0. rewrite Hb0. simpl.
    change (Z.of_nat 1) with 1 in Hb1. rewrite Hb1. simpl. f_equal.
    apply header_value. lia.
Qed.

(** Dropping the header, then the data, of the first record. *)
Lemma pop_record f k recsize r rs :
  rec_repr f k recsize (r :: rs) ->
  let f1 := with_out f (u32 (kf_out f + recsize)) in
  let f2 := with_out f (u32 (kf_out f + (len r + recsize))) in
  kf_ok f1 k /\ contents f1 = r ++ rec_bytes recsize rs /\ rec_repr f2 k recsize rs.
Proof.
  intros [Hok He Hr Hc Hl] f1 f2. inversion Hl as [|?? Hlr Hlrs]; subst.
  rewrite rec_bytes_cons in Hc. pose proof (len_contents f k Hok) as Hu.
  rewrite He, Hc, !len_app, len_header, Z.mul_1_r in Hu by done.
  pose proof (len_nonneg r). pose proof (len_nonneg (rec_bytes recsize rs)).
  destruct (kf_pop_ok f k Hok recsize) as (Hok1 & Hu1 & Hc1); [lia|].
  fold f1 in Hok1, Hu1, Hc1.
  rewrite He, Z.mul_1_r, Hc in Hc1.
  assert (slice (rec_header recsize (len r) ++ r ++ rec_bytes recsize rs) 0 recsize =
    rec_header recsize (len r)) as E.
  { rewrite <- (slice_prefix (rec_header recsize (len r)) (r ++ rec_bytes recsize rs)) at 2.
    by rewrite len_header. }
  rewrite E in Hc1. apply app_inv_head in Hc1.
  split; [done|]. split; [done|].
  destruct (kf_pop_ok f1 k Hok1 (len r)) as (Hok2 & Hu2 & Hc2); [lia|].
  assert (with_out f1 (u32 (kf_out f1 + len r)) = f2) as E2.
  { unfold f1, f2, with_out. simpl. rewrite wrap_add_l.
    by replace (kf_out f + recsize + len r) with (kf_out f + (len r + recsize)) by lia. }
  rewrite E2, <- Hc1 in Hc2. rewrite E2 in Hok2.
  assert (kf_esize f1 = 1) as He1 by done. rewrite He1, Z.mul_1_r in Hc2.
  assert (slice (r ++ rec_bytes recsize rs) 0 (len r) = r) as E3.
  { apply slice_prefix. }
  rewrite E3 in Hc2. apply app_inv_head in Hc2. by split.
Qed.

Lemma out_copy_r_ok f k recsize r rs n :
  rec_repr f k recsize (r :: rs) -> in_w 32 n ->
  kfifo_out_copy_r f n recsize =
  Done (slice r 0 (Z.min n (len r)), Z.min n (len r), len r).
Proof.
  intros HR Hn. pose proof HR as [Hok He Hr Hc Hl].
  unfold kfifo_out_copy_r. rewrite (peek_n_ok f k recsize r rs) by done. simpl.
  set (m := Z.min n (len r)).
  assert ((if n >? len r then len r else n) = m) as ->.
  { destruct (n >? len r) eqn:E; bools; lia. }
  destruct (pop_record f k recsize r rs HR) as (Hok1 & Hc1 & _).
  set (f1 := with_out f (u32 (kf_out f + recsize))) in *.
  change (kfifo_copy_out f m (u32 (kf_out f + recsize))) with (kfifo_copy_out f1 m (kf_out f1)).
  destruct (ok_data _ _ Hok) as (d & Hd & Hld).
  pose proof (len_contents f1 k Hok1) as Hu. rewrite Hc1, len_app in Hu.
  assert (kf_esize f1 = 1) as He1 by done. rewrite He1, Z.mul_1_r in Hu.
  pose proof (used_bounds f1 k Hok1). pose proof (len_nonneg r).
  pose proof (len_nonneg (rec_bytes recsize rs)). unfold in_w in *.
  rewrite (copy_out_ok f1 k Hok1 d) by (done || lia). simpl.
  rewrite (front_ok f1 k Hok1 d), He1, Z.mul_1_r, Hc1 by (done || lia).
  f_equal. f_equal. f_equal. unfold slice. rewrite !drop_0.
  apply take_app_le. unfold len in *. lia.
Qed.

Lemma in_eq_out_iff f k : kf_ok f k -> (kf_in f =? kf_out f) = (used f =? 0).
Proof.
  intros Hok. pose proof (ok_in _ _ Hok). pose proof (ok_out _ _ Hok).
  pose proof (used_out f k Hok) as E. unfold in_w in *.
  destruct (Z.eqb_spec (kf_in f) (kf_out f)) as [Heq|Hne].
  - symmetry. apply Z.eqb_eq. unfold used. by rewrite Heq, Z.sub_diag.
  - symmetry. apply Z.eqb_neq. intros H0'. rewrite H0', Z.add_0_r in E.
    rewrite wrap_small in E by done. congruence.
Qed.

Lemma used_rec_bytes f k recsize rs :
  rec_repr f k recsize rs -> used f = len (rec_bytes recsize rs).
Proof.
  intros [Hok He Hr Hc Hl]. pose proof (len_contents f k Hok) as Hu.
  rewrite Hc, He in Hu. lia.
Qed.

Lemma rstep_refines f k recsize rs op rs' o :
  rec_repr f k recsize rs -> rop_ok recsize op -> rspec (2 ^ k) recsize rs op = Some (rs', o) ->
  exists f', rstep recsize f op = Done (f', o) /\ rec_repr f' k recsize rs'.
Proof.
  intros HR Hop Hs. pose proof HR as [Hok He Hr Hc Hl].
  pose proof (used_rec_bytes f k recsize rs HR) as Hu.
  pose proof (in_eq_out_iff f k Hok) as Hio. rewrite Hu in Hio.
  destruct op as [buf|n|n| |]; simpl in *.
  - destruct (Z.leb_spec (len (rec_bytes recsize rs) + recsize + len buf) (2 ^ k));
      simplify_eq.
    + rewrite (in_r_append f k) by (done || lia). simpl. eexists. split; [done|].
      destruct (append_header_ok f k recsize (len buf)) as (A1 & A2 & A3 & A4);
        try done; [pose proof (len_nonneg buf); lia|].
      destruct (append_ok (append_header k f recsize (len buf)) k buf) as (B1 & B2 & B3 & B4);
        try done; [lia|].
      split; try done.
      * by rewrite B4, A4, Hc, rec_bytes_snoc, app_assoc.
      * apply Forall_app. split; [done|]. by constructor.
    + unfold __kfifo_in_r. pose proof (used_bounds f k Hok). pose proof (ok_size f k Hok).
      pose proof (len_nonneg buf).
      rewrite (unused_ok f k Hok), (wrap_small 64) by (unfold in_w; destruct Hr; subst; lia).
      destruct (len buf + recsize >? 2 ^ k - used f) eqn:E; bools; [|lia].
      simpl. eauto.
  - unfold __kfifo_out_r. destruct rs as [|r rs]; simplify_eq.
    + rewrite Hio. simpl. eauto.
    + rewrite rec_bytes_cons, !len_app, len_header in Hio by done.
      pose proof (len_nonneg r). pose proof (len_nonneg (rec_bytes recsize rs')).
      rewrite Hio, (proj2 (Z.eqb_neq _ _)) by (destruct Hr; subst; lia).
      rewrite (out_copy_r_ok f k recsize r rs') by done. simpl.
      eexists. split; [done|]. by apply (pop_record f k recsize r rs').
  - unfold __kfifo_out_peek_r. destruct rs as [|r rs]; simplify_eq.
    + rewrite Hio. simpl. eauto.
    + rewrite rec_bytes_cons, !len_app, len_header in Hio by done.
      pose proof (len_nonneg r). pose proof (len_nonneg (rec_bytes recsize rs)).
      rewrite Hio, (proj2 (Z.eqb_neq _ _)) by (destruct Hr; subst; lia).
      rewrite (out_copy_r_ok f k recsize r rs) by done. simpl. eauto.
  - destruct rs as [|r rs]; simplify_eq. unfold __kfifo_len_r.
    rewrite (peek_n_ok f k recsize r rs) by done. simpl. eauto.
  - destruct rs as [|r rs]; simplify_eq. unfold __kfifo_skip_r.
    rewrite (peek_n_ok f k recsize r rs') by done. simpl.
    eexists. split; [done|]. by apply (pop_record f k recsize r rs').
Qed.

(** Record mode (one- or two-byte length prefixes) is a queue of
    records.  A record goes in whole or not at all, comes out with exactly
    its own bytes (or their first [n] when the reader asks for fewer, the
    rest of that record being dropped), and lengths read from the buffer
    are the lengths written, over any sequence of calls. *)
Theorem kfifo_records_refine (f : kfifo) (k recsize : Z) (rs rs' : list (list Z))
    (ops : list rop) (obs : list robs) :
  rec_repr f k recsize rs -> Forall (rop_ok recsize) ops ->
  rspec_run (2 ^ k) recsize rs ops = Some (rs', obs) ->
  exists f', rrun recsize f ops = Done (f', obs) /\ rec_repr f' k recsize rs'.
Proof.
  intros HR Hops Hs. revert f rs obs HR Hops Hs.
  induction ops as [|op ops IH]; intros f rs obs HR Hops Hs; simpl in *.
  - simplify_eq. eauto.
  - inversion Hops as [|?? Hop Hrest]; subst.
    destruct (rspec (2 ^ k) recsize rs op) as [[rs1 o]|] eqn:E1; [|done].
    destruct (rspec_run (2 ^ k) recsize rs1 ops) as [[rs2 os]|] eqn:E2; [|done].
    simplify_eq.
    destruct (rstep_refines f k recsize rs op rs1 o) as (f1 & R1 & HR1); [done..|].
    destruct (IH f1 rs1 os) as (f2 & R2 & HR2); [done..|].
    exists f2. rewrite R1. simpl. rewrite R2. done.
Qed.

(** *** Creation *)

Lemma fls_pow2 x : 1 <= x -> 2 ^ (fls x - 1) <= x < 2 ^ fls x.
Proof.
  intros Hx. unfold fls. rewrite (proj2 (Z.eqb_neq _ _)) by lia.
  replace (Z.log2 x + 1 - 1) with (Z.log2 x) by lia.
  apply Z.log2_spec. lia.
Qed.

Lemma kf_ok_new k es d :
  1 <= k <= 31 -> 1 <= es -> 2 ^ k * es < 2 ^ 32 -> len d = 2 ^ k * es ->
  let f := mk_kfifo 0 0 (2 ^ k - 1) es (Some d) in kf_ok f k /\ contents f = [].
Proof.
  intros Hk He Hb Hd f. assert (0 < 2 ^ k) by lia. split.
  - split; simpl; try done; try (unfold in_w; lia).
    + change (used f) with 0. lia.
    + eauto.
  - unfold contents. simpl. apply nil_length_inv.
    change (used f) with 0. rewrite Z.land_0_l, Z.mul_0_l.
    assert (0 < len d) by nia.
    pose proof (len_cread d 0 0 ltac:(lia) ltac:(lia)) as E. unfold len in *. lia.
Qed.

Lemma roundup_ok n :
  2 <= n <= 2 ^ 31 ->
  exists k, 1 <= k <= 31 /\ u32 (roundup_pow_of_two n) = 2 ^ k /\ n <= 2 ^ k < 2 * n.
Proof.
  intros Hn. unfold roundup_pow_of_two. rewrite (wrap_small 32 (n - 1)) by (unfold in_w; lia).
  pose proof (fls_pow2 (n - 1) ltac:(lia)) as Hf.
  set (k := fls (n - 1)) in *. exists k.
  assert (1 <= k) as Hk1.
  { destruct (Z.le_gt_cases 1 k); [done|]. assert (2 ^ k <= 2 ^ 0); [|lia].
    apply Z.pow_le_mono_r; lia. }
  assert (k <= 31) as Hk2.
  { destruct (Z.le_gt_cases k 31); [done|].
    assert (2 ^ 31 <= 2 ^ (k - 1)); [apply Z.pow_le_mono_r; lia|lia]. }
  assert (2 ^ k = 2 * 2 ^ (k - 1)) as H2.
  { rewrite <- Z.pow_succ_r by lia. f_equal. lia. }
  split; [lia|]. rewrite Z.shiftl_1_l.
  rewrite !wrap_small by (rewrite ?wrap_small; unfold in_w; lia). lia.
Qed.

(** Creation.  [__kfifo_alloc] with an allocator that gives zeroed
    memory yields an empty fifo of the least power of two of elements that
    is at least the request; it reports [-EINVAL] below two elements and
    [-ENOMEM] when the allocator fails, without keeping a buffer. *)
Theorem kfifo_alloc_correct (calloc : Z -> Z -> option (list Z)) (size esize : Z) :
  (forall n s d, 0 <= n -> 0 <= s -> calloc n s = Some d -> len d = n * s) ->
  0 <= size <= 2 ^ 31 -> 1 <= esize -> size * esize < 2 ^ 31 ->
  let '(f, ret) := __kfifo_alloc calloc size esize in
  if size <? 2 then ret = - EINVAL /\ kf_data f = None
  else exists k, size <= 2 ^ k < 2 * size /\
    match calloc esize (2 ^ k) with
    | None => ret = - ENOMEM /\ kf_data f = None
    | Some _ => ret = 0 /\ kf_ok f k /\ contents f = []
    end.
Proof.
  intros Hc Hs He Hb. unfold __kfifo_alloc. destruct (Z.ltb_spec size 2).
  - assert (size = 0 \/ size = 1) as [-> | ->] by lia; done.
  - destruct (roundup_ok size) as (k & Hk & E & Hk2); [lia|].
    rewrite E. rewrite (proj2 (Z.ltb_ge _ _)) by lia.
    destruct (calloc esize (2 ^ k)) as [d|] eqn:Ed.
    + exists k. split; [lia|]. rewrite Ed. split; [done|].
      apply kf_ok_new; [done|done|nia|]. rewrite (Hc esize (2 ^ k) d ltac:(lia) ltac:(nia) Ed). apply Z.mul_comm.
    + exists k. split; [done|]. by rewrite Ed.
Qed.

(** ** Witnesses *)

(** Eight one-byte elements, the counters about to wrap around. *)
Definition demo : kfifo :=
  mk_kfifo (2 ^ 32 - 3) (2 ^ 32 - 3) 7 1 (Some (replicate 8 0)).

Lemma demo_ok : kf_ok demo 3.
Proof. split; try done. by exists (replicate 8 0). Qed.

Lemma kfifo_refines_queue_witness :
  exists f' obs,
    krun demo [KIn [1; 2; 3; 4; 5] 5; KOut 2; KIn [6; 7; 8; 9; 10; 11] 6; KPeek 9]
      = Done (f', obs) /\ kf_ok f' 3 /\
    qrun 8 1 [] [KIn [1; 2; 3; 4; 5] 5; KOut 2; KIn [6; 7; 8; 9; 10; 11] 6; KPeek 9]
      = (contents f', obs).
Proof.
  apply (kfifo_refines_queue demo 3).
  - exact demo_ok.
  - repeat constructor; vm_compute; congruence.
Defined.

Lemma kfifo_records_refine_witness :
  exists f', rrun 2 demo [RIn [1; 2; 3]; RLen; RIn [4; 5; 6; 7]; ROut 2; RIn [9]; RPeek 7; RSkip]
    = Done (f', [RObsIn 3; RObsLen 3; RObsIn 0; RObsOut [1; 2] 2; RObsIn 1; RObsOut [9] 1; RObsSkip])
    /\ rec_repr f' 3 2 [].
Proof.
  apply (kfifo_records_refine demo 3 2 [] []).
  - split; try done; [exact demo_ok|by right].
  - repeat constructor; vm_compute; congruence.
  - vm_compute. reflexivity.
Defined.

Lemma kfifo_alloc_correct_witness :
  let '(f, ret) := __kfifo_alloc (fun n s => Some (replicate (Z.to_nat (n * s)) 0)) 5 4 in
  exists k, 5 <= 2 ^ k < 10 /\ ret = 0 /\ kf_ok f k /\ contents f = [].
Proof.
  apply (kfifo_alloc_correct (fun n s => Some (replicate (Z.to_nat (n * s)) 0)) 5 4).
  - intros n s d ?? [= <-]. unfold len. rewrite length_replicate. apply Z2Nat.id. lia.
  - lia.
  - lia.
  - lia.
Defined.

End Kfifo.
