(* ===== verification/KfifoMacros.v ===== *)
(** * kfifo.h : the macros for typed fifos

    Kfifo has the routines behind the macros.  Here are the macros themselves:
    what each does with the type of the fifo it is given, the direct access of
    [kfifo_put], [kfifo_get] and [kfifo_peek] to the array of elements, and
    the choice between elements and records.  [macros_refine]: over any
    sequence of macros a fifo is a bounded queue of its elements, or of its
    records. *)
From Stdlib Require Import ZArith Lia Bool.
From stdpp Require Import base list numbers.
From S2P Require Import Prelude Kfifo.
Import Kfifo.

Module KfifoMacros.

(** ** The type of a fifo

    What the macros take from the declaration of the fifo: the size of an
    element, the size of the length field of a record (0: a fifo of elements),
    whether the array is outside of the structure, and else how many elements
    it has.  The array inside of the structure is what [kf_data] points to
    from [INIT_KFIFO] on, so both arms of the conditional in [kfifo_put] and
    [kfifo_get] are the same storage. *)
Record fifo_type := mk_type { ft_esize : Z; ft_recsize : Z; ft_ptr : bool; ft_count : Z }.

(** [struct kfifo], and the types of STRUCT_KFIFO_REC_1 and _2 *)
Definition STRUCT_KFIFO (esize count : Z) : fifo_type := mk_type esize 0 false count.
Definition STRUCT_KFIFO_PTR (esize : Z) : fifo_type := mk_type esize 0 true 0.
Definition STRUCT_KFIFO_REC_1 (count : Z) : fifo_type := mk_type 1 1 false count.
Definition STRUCT_KFIFO_REC_2 (count : Z) : fifo_type := mk_type 1 2 false count.
Definition struct_kfifo : fifo_type := mk_type 1 0 true 0.
Definition kfifo_rec_ptr_1 : fifo_type := mk_type 1 1 true 0.
Definition kfifo_rec_ptr_2 : fifo_type := mk_type 1 2 true 0.

(** The array of STRUCT_KFIFO has a negative size, which does not compile, for
    other counts. *)
Definition buf_compiles (count : Z) : bool := negb ((count <? 2) || negb (Z.land count (count - 1) =? 0)).

(** ** The macros *)

Definition kfifo_initialized (f : kfifo) : Z := kf_mask f.
Definition kfifo_esize (f : kfifo) : Z := kf_esize f.
Definition kfifo_size (f : kfifo) : Z := u32 (kf_mask f + 1).
Definition kfifo_reset (f : kfifo) : kfifo := with_in (with_out f 0) 0.
Definition kfifo_reset_out (f : kfifo) : kfifo := with_out f (kf_in f).
Definition kfifo_len (f : kfifo) : Z := u32 (kf_in f - kf_out f).
Definition kfifo_is_empty (f : kfifo) : bool := kf_in f =? kf_out f.
Definition kfifo_is_full (f : kfifo) : bool := kfifo_len f >? kf_mask f.

Section Macros.
Context (t : fifo_type).

(** [INIT_KFIFO] and [DEFINE_KFIFO]; [buf] is the array in the structure. *)
Definition INIT_KFIFO (buf : list Z) : kfifo :=
  mk_kfifo 0 0 (if ft_ptr t then 0 else u32 (ft_count t - 1)) (ft_esize t) (if ft_ptr t then None else Some buf).

Definition kfifo_recsize : Z := ft_recsize t.

Definition kfifo_avail (f : kfifo) : outcome Z :=
  let avail := u32 (kfifo_size f - kfifo_len f) in
  if negb (ft_recsize t =? 0) then
    if avail <=? ft_recsize t then Done 0 else __kfifo_max_r (u32 (avail - ft_recsize t)) (ft_recsize t)
  else Done avail.

Definition kfifo_skip (f : kfifo) : outcome kfifo :=
  if negb (ft_recsize t =? 0) then __kfifo_skip_r f (ft_recsize t) else Done (with_out f (u32 (kf_out f + 1))).

Definition kfifo_peek_len (f : kfifo) : outcome Z :=
  if ft_recsize t =? 0 then Done (u32 (kfifo_len f * ft_esize t)) else __kfifo_len_r f (ft_recsize t).

Definition kfifo_alloc (calloc : Z -> Z -> option (list Z)) (size : Z) (f : kfifo) : kfifo * Z :=
  if ft_ptr t then __kfifo_alloc calloc size (ft_esize t) else (f, - EINVAL).

Definition kfifo_free (f : kfifo) : kfifo := if ft_ptr t then __kfifo_free f else f.

Definition kfifo_init (buffer : list Z) (size : Z) (f : kfifo) : outcome (kfifo * Z) :=
  if ft_ptr t then __kfifo_init buffer size (ft_esize t) else Done (f, - EINVAL).

(** [val]: the bytes of the value *)
Definition kfifo_put (val : list Z) (f : kfifo) : outcome (kfifo * Z) :=
  if negb (ft_recsize t =? 0) then __kfifo_in_r f val (ft_esize t) (ft_recsize t)
  else if negb (kfifo_is_full f) then
    match kf_data f with
    | None => Undef
    | Some d =>
        let* d := mem_write d (Z.land (kf_in f) (kf_mask f) * ft_esize t) val in
        Done (with_in (with_data f d) (u32 (kf_in f + 1)), 1)
    end
  else Done (f, 0).

(** The element at [out]. *)
Definition kfifo_element (f : kfifo) : outcome (list Z) :=
  match kf_data f with
  | None => Undef
  | Some d => mem_read d (Z.land (kf_out f) (kf_mask f) * ft_esize t) (ft_esize t)
  end.

(** The bytes stored through [val] and the result. *)
Definition kfifo_get (f : kfifo) : outcome (kfifo * list Z * Z) :=
  if negb (ft_recsize t =? 0) then __kfifo_out_r f (ft_esize t) (ft_recsize t)
  else if negb (kfifo_is_empty f) then
    let* v := kfifo_element f in Done (with_out f (u32 (kf_out f + 1)), v, 1)
  else Done (f, [], 0).

Definition kfifo_peek (f : kfifo) : outcome (list Z * Z) :=
  if negb (ft_recsize t =? 0) then __kfifo_out_peek_r f (ft_esize t) (ft_recsize t)
  else if negb (kfifo_is_empty f) then let* v := kfifo_element f in Done (v, 1)
  else Done ([], 0).

(** [n] is an [unsigned long] that the routines take as an [unsigned int]. *)
Definition kfifo_in (buf : list Z) (n : Z) (f : kfifo) : outcome (kfifo * Z) :=
  if negb (ft_recsize t =? 0) then __kfifo_in_r f buf (u32 n) (ft_recsize t) else __kfifo_in f buf (u32 n).

Definition kfifo_out (n : Z) (f : kfifo) : outcome (kfifo * list Z * Z) :=
  if negb (ft_recsize t =? 0) then __kfifo_out_r f (u32 n) (ft_recsize t) else __kfifo_out f (u32 n).

Definition kfifo_out_peek (n : Z) (f : kfifo) : outcome (list Z * Z) :=
  if negb (ft_recsize t =? 0) then __kfifo_out_peek_r f (u32 n) (ft_recsize t) else __kfifo_out_peek f (u32 n).

(** ** A client's calls *)

Inductive mop :=
| MPut (val : list Z) | MGet | MPeek | MIn (buf : list Z) (n : Z) | MOut (n : Z) | MOutPeek (n : Z)
| MSkip | MReset | MResetOut | MLen | MAvail | MPeekLen | MIsEmpty | MIsFull.

(** What a call gives back: bytes and a number. *)
Definition mstep (f : kfifo) (op : mop) : outcome (kfifo * (list Z * Z)) :=
  match op with
  | MPut val => let* r := kfifo_put val f in Done (r.1, ([], r.2))
  | MGet => let* r := kfifo_get f in Done (r.1.1, (r.1.2, r.2))
  | MPeek => let* r := kfifo_peek f in Done (f, r)
  | MIn buf n => let* r := kfifo_in buf n f in Done (r.1, ([], r.2))
  | MOut n => let* r := kfifo_out n f in Done (r.1.1, (r.1.2, r.2))
  | MOutPeek n => let* r := kfifo_out_peek n f in Done (f, r)
  | MSkip => let* f := kfifo_skip f in Done (f, ([], 0))
  | MReset => Done (kfifo_reset f, ([], 0))
  | MResetOut => Done (kfifo_reset_out f, ([], 0))
  | MLen => Done (f, ([], kfifo_len f))
  | MAvail => let* n := kfifo_avail f in Done (f, ([], n))
  | MPeekLen => let* n := kfifo_peek_len f in Done (f, ([], n))
  | MIsEmpty => Done (f, ([], Z.b2z (kfifo_is_empty f)))
  | MIsFull => Done (f, ([], Z.b2z (kfifo_is_full f)))
  end.

Fixpoint mrun (f : kfifo) (ops : list mop) : outcome (kfifo * list (list Z * Z)) :=
  match ops with
  | [] => Done (f, [])
  | op :: ops => let* r := mstep f op in let* rs := mrun r.1 ops in Done (rs.1, r.2 :: rs.2)
  end.

(** The caller's side: values and buffers of the size the type says, counts
    that fit an [unsigned int], records whose length fits its field. *)
Definition mop_ok (op : mop) : Prop :=
  match op with
  | MPut val => len val = ft_esize t
  | MIn buf n => in_w 32 n /\ n * ft_esize t = len buf /\ (ft_recsize t <> 0 -> len buf < 2 ^ (8 * ft_recsize t))
  | MOut n | MOutPeek n => in_w 32 n
  | _ => True
  end.

(** ** The specification *)

(** The first [n] elements of a buffer. *)
Fixpoint chunks (es : Z) (n : nat) (buf : list Z) : list (list Z) :=
  match n with O => [] | S n => slice buf 0 es :: chunks es n (drop (Z.to_nat es) buf) end.

(** A fifo of elements is a bounded queue of them; [cap] counts elements.
    Skipping an element there is not has no meaning. *)
Definition espec (cap : Z) (q : list (list Z)) (op : mop) : option (list (list Z) * (list Z * Z)) :=
  let take_n n := take (Z.to_nat n) q in
  match op with
  | MPut v => Some (if len q <? cap then (q ++ [v], ([], 1)) else (q, ([], 0)))
  | MGet => Some (match q with [] => ([], ([], 0)) | v :: q => (q, (v, 1)) end)
  | MPeek => Some (match q with [] => ([], ([], 0)) | v :: _ => (q, (v, 1)) end)
  | MIn buf n => let m := Z.min n (cap - len q) in Some (q ++ chunks (ft_esize t) (Z.to_nat m) buf, ([], m))
  | MOut n => let m := Z.min n (len q) in Some (drop (Z.to_nat m) q, (concat (take_n m), m))
  | MOutPeek n => let m := Z.min n (len q) in Some (q, (concat (take_n m), m))
  | MSkip => match q with [] => None | _ :: q => Some (q, ([], 0)) end
  | MReset | MResetOut => Some ([], ([], 0))
  | MLen => Some (q, ([], len q))
  | MAvail => Some (q, ([], cap - len q))
  | MPeekLen => Some (q, ([], len q * ft_esize t))
  | MIsEmpty => Some (q, ([], Z.b2z (len q =? 0)))
  | MIsFull => Some (q, ([], Z.b2z (len q =? cap)))
  end.

(** A fifo of records is a queue of records that share [cap] bytes. A record
    comes out whole, or cut to what the reader has room for. *)
Definition rspec (cap : Z) (rs : list (list Z)) (op : mop) : option (list (list Z) * (list Z * Z)) :=
  let recsize := ft_recsize t in
  let bytes := len (rec_bytes recsize rs) in
  let put buf := if bytes + recsize + len buf <=? cap then (rs ++ [buf], ([], len buf)) else (rs, ([], 0)) in
  let front n := match rs with [] => ([], 0) | r :: _ => let m := Z.min n (len r) in (slice r 0 m, m) end in
  match op with
  | MPut buf | MIn buf _ => Some (put buf)
  | MGet => Some (tail rs, front (ft_esize t))
  | MOut n => Some (tail rs, front n)
  | MPeek => Some (rs, front (ft_esize t))
  | MOutPeek n => Some (rs, front n)
  | MSkip => match rs with [] => None | _ :: rs => Some (rs, ([], 0)) end
  | MPeekLen => match rs with [] => None | r :: _ => Some (rs, ([], len r)) end
  | MReset | MResetOut => Some ([], ([], 0))
  | MLen => Some (rs, ([], bytes))
  | MAvail => Some (rs, ([], Z.max 0 (Z.min (cap - bytes - recsize) (2 ^ (8 * recsize) - 1))))
  | MIsEmpty => Some (rs, ([], Z.b2z (bytes =? 0)))
  | MIsFull => Some (rs, ([], Z.b2z (bytes =? cap)))
  end.

Definition mspec (cap : Z) (q : list (list Z)) (op : mop) : option (list (list Z) * (list Z * Z)) :=
  if ft_recsize t =? 0 then espec cap q op else rspec cap q op.

Fixpoint mspec_run (cap : Z) (q : list (list Z)) (ops : list mop) : option (list (list Z) * list (list Z * Z)) :=
  match ops with
  | [] => Some (q, [])
  | op :: ops =>
      match mspec cap q op with
      | None => None
      | Some (q, o) => match mspec_run cap q ops with None => None | Some (q, os) => Some (q, o :: os) end
      end
  end.

(** The queued elements of a fifo, or its records. *)
Record erepr (f : kfifo) (k : Z) (q : list (list Z)) : Prop := {
  er_ok : kf_ok f k;
  er_esize : kf_esize f = ft_esize t;
  er_contents : contents f = concat q;
  er_len : Forall (fun v => len v = ft_esize t) q }.

Definition represents (f : kfifo) (k : Z) (q : list (list Z)) : Prop :=
  if ft_recsize t =? 0 then erepr f k q else rec_repr f k (ft_recsize t) q /\ ft_esize t = 1.
End Macros.

(** ** Elements *)

Lemma concat_uniform es (q : list (list Z)) : Forall (fun v => len v = es) q -> len (concat q) = len q * es.
Proof. induction 1 as [|v q Hv _ IH]; [done|]. cbn [concat]. rewrite len_app, len_cons. lia. Qed.

Lemma concat_split es (q : list (list Z)) m : 0 <= es -> 0 <= m <= len q -> Forall (fun v => len v = es) q ->
  slice (concat q) 0 (m * es) = concat (take (Z.to_nat m) q) /\
  drop (Z.to_nat (m * es)) (concat q) = concat (drop (Z.to_nat m) q).
Proof.
  intros He Hm Hq. rewrite <- (take_drop (Z.to_nat m) q) at 1 3.
  rewrite concat_app.
  assert (length (concat (take (Z.to_nat m) q)) = Z.to_nat (m * es)) as Hl.
  { pose proof (concat_uniform es (take (Z.to_nat m) q)) as E. unfold len in *.
    rewrite length_take in E. specialize (E ltac:(by apply Forall_take)). nia. }
  unfold slice. rewrite drop_0. split; [by apply take_app_length'|by apply drop_app_length'].
Qed.

Lemma record_chunks_ok es n buf : 0 <= es -> Z.of_nat n * es <= len buf ->
  concat (chunks es n buf) = slice buf 0 (Z.of_nat n * es) /\ Forall (fun v => len v = es) (chunks es n buf) /\
  length (chunks es n buf) = n.
Proof.
  intros He. revert buf. induction n as [|n IH]; intros buf Hb; cbn [chunks concat]; [done|].
  pose proof (len_nonneg buf). assert (len (drop (Z.to_nat es) buf) = len buf - es) as Hd by (unfold len in *; rewrite length_drop; nia).
  destruct (IH (drop (Z.to_nat es) buf)) as (H1 & H2 & H3); [nia|]. split_and!.
  - rewrite H1. replace (Z.of_nat (S n) * es) with (es + Z.of_nat n * es) by lia. rewrite slice_app_split by lia. done.
  - constructor; [apply len_slice; nia|done].
  - cbn [length]. by rewrite H3.
Qed.

(** An access to one element does not wrap around. *)
Lemma cwrite_whole d p v : 0 <= p -> p + len v <= len d -> cwrite d p v = splice d p v.
Proof.
  intros Hp Hv. pose proof (len_nonneg v). unfold cwrite. cbv zeta. rewrite Z.min_l by lia. rewrite slice_all.
  rewrite Z.sub_diag. assert (slice v (len v) 0 = []) as -> by (unfold slice; done).
  unfold splice at 1. simpl. by rewrite drop_0.
Qed.

Lemma cread_whole d p n : 0 <= p -> 0 <= n -> p + n <= len d -> cread d p n = slice d p n.
Proof.
  intros Hp Hn Hl. unfold cread. cbv zeta. rewrite Z.min_l, Z.sub_diag by lia.
  assert (slice d 0 0 = []) as -> by done. apply app_nil_r.
Qed.

Lemma element_in f k x : kf_ok f k -> 0 <= x mod 2 ^ k * kf_esize f /\ x mod 2 ^ k * kf_esize f + kf_esize f <= 2 ^ k * kf_esize f.
Proof.
  intros Hok. pose proof (ok_size f k Hok). pose proof (ok_esize f k Hok).
  assert (0 <= x mod 2 ^ k < 2 ^ k) by (apply Z.mod_pos_bound; lia). nia.
Qed.

Lemma land_out f k x : kf_ok f k -> Z.land x (kf_mask f) = x mod 2 ^ k.
Proof. intros Hok. rewrite (ok_mask _ _ Hok). apply land_mask. destruct (ok_k _ _ Hok). lia. Qed.

Lemma kfifo_len_used f : kfifo_len f = used f.
Proof. done. Qed.

Lemma kfifo_size_ok f k : kf_ok f k -> kfifo_size f = 2 ^ k.
Proof.
  intros Hok. unfold kfifo_size. rewrite (ok_mask _ _ Hok), Z.sub_add. pose proof (ok_size f k Hok). apply wrap_small. unfold in_w. lia.
Qed.

Lemma kfifo_full_ok f k : kf_ok f k -> kfifo_is_full f = (used f =? 2 ^ k).
Proof.
  intros Hok. unfold kfifo_is_full. rewrite kfifo_len_used, (ok_mask _ _ Hok). pose proof (used_bounds f k Hok).
  destruct (Z.eqb_spec (used f) (2 ^ k)); [apply Z.gtb_lt; lia|]. rewrite Z.gtb_ltb. apply Z.ltb_ge. lia.
Qed.

Lemma kfifo_empty_ok f k : kf_ok f k -> kfifo_is_empty f = (used f =? 0).
Proof. apply in_eq_out_iff. Qed.

Lemma kfifo_reset_ok f k : kf_ok f k -> kf_ok (kfifo_reset f) k /\ contents (kfifo_reset f) = [].
Proof.
  intros Hok. destruct (ok_data _ _ Hok) as (d & Hd & Hl).
  destruct (kf_ok_new k (kf_esize f) d (ok_k _ _ Hok) (ok_esize _ _ Hok) (ok_bytes _ _ Hok) Hl) as [H1 H2].
  assert (kfifo_reset f = mk_kfifo 0 0 (2 ^ k - 1) (kf_esize f) (Some d)) as ->; [|done].
  unfold kfifo_reset, with_in, with_out. cbn. by rewrite (ok_mask _ _ Hok), Hd.
Qed.

Lemma reset_out_ok f k : kf_ok f k -> kf_ok (kfifo_reset_out f) k /\ contents (kfifo_reset_out f) = [].
Proof.
  intros Hok. pose proof (used_bounds f k Hok). destruct (kf_pop_ok f k Hok (used f) ltac:(lia)) as (H1 & H2 & _).
  rewrite (used_out f k Hok) in *. change (with_out f (kf_in f)) with (kfifo_reset_out f) in *. split; [done|].
  apply nil_length_inv. pose proof (len_contents _ k H1) as E. rewrite H2 in E. unfold len in E. lia.
Qed.

(** ** A step on elements *)

Section Step.
Context (t : fifo_type) (f : kfifo) (k : Z) (q : list (list Z)).

Lemma erepr_used : erepr t f k q -> used f = len q.
Proof.
  intros [Hok He Hc Hq]. pose proof (len_contents f k Hok) as Hu. rewrite Hc, He, (concat_uniform (ft_esize t)) in Hu by done.
  pose proof (ok_esize f k Hok). nia.
Qed.

Lemma erepr_push v f' : erepr t f k q -> kf_ok f' k -> kf_esize f' = kf_esize f -> contents f' = contents f ++ v ->
  forall vs, v = concat vs -> Forall (fun v => len v = ft_esize t) vs -> erepr t f' k (q ++ vs).
Proof.
  intros [Hok He Hc Hq] Hok' He' Hc' vs -> Hvs. split; [done|congruence| |by apply Forall_app].
  by rewrite Hc', Hc, concat_app.
Qed.

Lemma erepr_pop m : erepr t f k q -> 0 <= m <= len q ->
  erepr t (with_out f (u32 (kf_out f + m))) k (drop (Z.to_nat m) q) /\
  slice (contents f) 0 (m * kf_esize f) = concat (take (Z.to_nat m) q).
Proof.
  intros HR Hm. pose proof (erepr_used HR) as Hu. destruct HR as [Hok He Hc Hq]. pose proof (ok_esize f k Hok).
  destruct (kf_pop_ok f k Hok m ltac:(lia)) as (Hok' & _ & Hc'). destruct (concat_split (ft_esize t) q m ltac:(lia) Hm Hq) as [E1 E2].
  rewrite He, Hc, E1 in Hc'. split; [|by rewrite Hc, He].
  split; [done|done| |by apply Forall_drop]. rewrite <- (take_drop (Z.to_nat m) q), concat_app in Hc' at 1.
  by apply app_inv_head in Hc'.
Qed.

Lemma element_ok v : erepr t f k (v :: q) -> kfifo_element t f = Done v.
Proof.
  intros [Hok He Hc Hq]. destruct (ok_data _ _ Hok) as (d & Hd & Hl). pose proof (ok_esize f k Hok).
  inversion Hq as [|?? Hv Hq']; subst. pose proof (element_in f k (kf_out f) Hok).
  unfold kfifo_element. rewrite Hd, (land_out f k) by done. rewrite <- He. rewrite mem_read_ok by lia. f_equal.
  rewrite <- (cread_whole d) by lia. pose proof (len_contents f k Hok) as Hu. rewrite Hc, (concat_uniform (ft_esize t)), len_cons in Hu by done.
  pose proof (len_nonneg q). rewrite <- (Z.mul_1_l (kf_esize f)) at 2. rewrite (front_ok f k Hok d 1 Hd) by nia.
  rewrite Hc. cbn [concat]. unfold slice. rewrite drop_0. apply take_app_length'. unfold len in *. lia.
Qed.

Lemma put_element v : ft_recsize t = 0 -> erepr t f k q -> len v = ft_esize t ->
  exists f', kfifo_put t v f = Done (f', if len q <? 2 ^ k then 1 else 0) /\ erepr t f' k (if len q <? 2 ^ k then q ++ [v] else q).
Proof.
  intros Hr HR Hv. pose proof (erepr_used HR) as Hu. pose proof HR as [Hok He Hc Hq].
  destruct (ok_data _ _ Hok) as (d & Hd & Hl). pose proof (used_bounds f k Hok). pose proof (element_in f k (kf_in f) Hok).
  unfold kfifo_put. rewrite Hr. cbn [Z.eqb negb]. rewrite (kfifo_full_ok f k Hok), Hu.
  destruct (Z.eqb_spec (len q) (2 ^ k)) as [E|E]; cbn [negb].
  - rewrite (proj2 (Z.ltb_ge _ _)) by lia. by eexists.
  - rewrite (proj2 (Z.ltb_lt _ _)) by lia. rewrite Hd, (land_out f k) by done. rewrite <- He in *.
    rewrite mem_write_ok by lia. cbn [obind]. eexists. split; [done|].
    destruct (kf_push_ok f k Hok d v 1 Hd Hl) as (Hok' & _ & Hc'); [lia|lia|]. rewrite cwrite_whole in Hok', Hc' by lia.
    eapply (erepr_push v); [done|exact Hok'|done|exact Hc'|symmetry; apply app_nil_r|].
    constructor; [lia|constructor].
Qed.

Lemma in_elements buf n : erepr t f k q -> in_w 32 n -> n * ft_esize t = len buf ->
  exists f', __kfifo_in f buf n = Done (f', Z.min n (2 ^ k - len q)) /\
    erepr t f' k (q ++ chunks (ft_esize t) (Z.to_nat (Z.min n (2 ^ k - len q))) buf).
Proof.
  intros HR Hn Hb. pose proof (erepr_used HR) as Hu. pose proof HR as [Hok He Hc Hq]. pose proof (used_bounds f k Hok).
  pose proof (ok_esize f k Hok).
  destruct (kfifo_in_refines f k Hok buf n Hn ltac:(rewrite He; lia)) as (f' & E & Hok' & He' & HQ). rewrite <- Hu.
  exists f'. split; [done|]. unfold queue_in in HQ. rewrite (used_len f k Hok) in HQ. apply pair_eq in HQ as [HQ _].
  set (m := Z.min n (2 ^ k - used f)) in *. assert (0 <= m <= n) by (unfold in_w in *; lia).
  destruct (record_chunks_ok (ft_esize t) (Z.to_nat m) buf) as (Hch & Hcl & _); [lia|rewrite Z2Nat.id by lia; nia|].
  rewrite Z2Nat.id in Hch by lia.
  eapply (erepr_push (slice buf 0 (m * kf_esize f))); [done|done|done|by rewrite HQ|by rewrite Hch, He|done].
Qed.

Lemma out_elements n : erepr t f k q -> in_w 32 n ->
  let m := Z.min n (len q) in
  __kfifo_out_peek f n = Done (concat (take (Z.to_nat m) q), m) /\
  exists f', __kfifo_out f n = Done (f', concat (take (Z.to_nat m) q), m) /\ erepr t f' k (drop (Z.to_nat m) q).
Proof.
  intros HR Hn m. pose proof (erepr_used HR) as Hu. pose proof HR as [Hok He Hc Hq]. pose proof (len_nonneg q).
  destruct (erepr_pop m HR) as [HR' Hs]; [unfold in_w in *; lia|].
  assert (__kfifo_out_peek f n = Done (concat (take (Z.to_nat m) q), m)) as Ep.
  { rewrite (kfifo_peek_refines f k Hok) by done. unfold queue_peek. rewrite (used_len f k Hok), Hu. fold m. by rewrite Hs. }
  split; [done|]. unfold __kfifo_out. rewrite Ep. cbn [obind]. by eexists.
Qed.
End Step.

(** ** A step of either kind *)

Lemma element_step t f k q op q' o : ft_recsize t = 0 -> erepr t f k q -> mop_ok t op -> espec t (2 ^ k) q op = Some (q', o) ->
  exists f', mstep t f op = Done (f', o) /\ erepr t f' k q'.
Proof.
  intros Hr HR Hop Hs. pose proof (erepr_used t f k q HR) as Hu. pose proof HR as [Hok He Hc Hq].
  pose proof (kfifo_empty_ok f k Hok) as Hem. rewrite Hu in Hem. pose proof (len_nonneg q).
  pose proof (used_bounds f k Hok) as Hub. pose proof (ok_size f k Hok). pose proof (ok_bytes f k Hok). rewrite Hu in Hub.
  pose proof (fun m => erepr_pop t f k q m HR) as Hpop.
  destruct op as [v| | |buf n|n|n| | | | | | | |]; unfold mstep, mop_ok, espec in *.
  - injection Hs as Hs. destruct (put_element t f k q v Hr HR Hop) as (f' & -> & HR'). cbn. exists f'. by destruct (len q <? 2 ^ k); injection Hs as <- <-.
  - unfold kfifo_get. rewrite Hr, Hem. destruct q as [|v q]; injection Hs as <- <-; [by exists f|].
    destruct (Z.eqb_spec (len (v :: q)) 0) as [E|_]; [by rewrite len_cons in E; pose proof (len_nonneg q); lia|].
    cbn [negb]. rewrite (element_ok t f k q v HR). cbn [obind fst snd]. eexists. split; [done|].
    apply (Hpop 1). rewrite len_cons. pose proof (len_nonneg q). lia.
  - unfold kfifo_peek. rewrite Hr, Hem. destruct q as [|v q]; injection Hs as <- <-; [by exists f|].
    destruct (Z.eqb_spec (len (v :: q)) 0) as [E|_]; [by rewrite len_cons in E; pose proof (len_nonneg q); lia|].
    cbn [negb]. rewrite (element_ok t f k q v HR). cbn [obind]. by eexists.
  - injection Hs as <- <-. destruct Hop as (Hn & Hb & _). unfold kfifo_in. rewrite Hr. cbn [Z.eqb negb]. rewrite (wrap_small 32 n) by done.
    destruct (in_elements t f k q buf n HR Hn Hb) as (f' & -> & HR'). by exists f'.
  - injection Hs as <- <-. unfold kfifo_out. rewrite Hr. cbn [Z.eqb negb]. rewrite (wrap_small 32 n) by done.
    destruct (out_elements t f k q n HR Hop) as (_ & f' & -> & HR'). by exists f'.
  - injection Hs as <- <-. unfold kfifo_out_peek. rewrite Hr. cbn [Z.eqb negb]. rewrite (wrap_small 32 n) by done.
    destruct (out_elements t f k q n HR Hop) as (-> & _). by exists f.
  - unfold kfifo_skip. rewrite Hr. cbn [Z.eqb negb]. destruct q as [|v q]; [done|]. injection Hs as <- <-.
    cbn [obind]. eexists. split; [done|]. apply (Hpop 1). rewrite len_cons. pose proof (len_nonneg q). lia.
  - injection Hs as <- <-. destruct (kfifo_reset_ok f k Hok) as [Hok' Hc']. eexists. split; [done|]. by split.
  - injection Hs as <- <-. destruct (reset_out_ok f k Hok) as [Hok' Hc']. eexists. split; [done|]. by split.
  - injection Hs as <- <-. exists f. by rewrite kfifo_len_used, Hu.
  - injection Hs as <- <-. unfold kfifo_avail. rewrite Hr, (kfifo_size_ok f k Hok), kfifo_len_used, Hu. cbn [Z.eqb negb obind].
    exists f. by rewrite wrap_small by (unfold in_w; lia).
  - injection Hs as <- <-. unfold kfifo_peek_len. rewrite Hr, kfifo_len_used, Hu. cbn [Z.eqb obind]. rewrite wrap_small; [by exists f|].
    pose proof (ok_esize f k Hok). unfold in_w. nia.
  - injection Hs as <- <-. exists f. by rewrite Hem.
  - injection Hs as <- <-. exists f. by rewrite (kfifo_full_ok f k Hok), Hu.
Qed.

Lemma record_step t f k rs op rs' o : ft_recsize t <> 0 -> rec_repr f k (ft_recsize t) rs -> ft_esize t = 1 -> mop_ok t op ->
  rspec t (2 ^ k) rs op = Some (rs', o) ->
  exists f', mstep t f op = Done (f', o) /\ rec_repr f' k (ft_recsize t) rs'.
Proof.
  intros Hr HR Ht Hop Hs. pose proof (used_rec_bytes f k _ rs HR) as Hu. pose proof HR as [Hok He Hrs Hc Hl].
  pose proof (kfifo_empty_ok f k Hok) as Hem. rewrite Hu in Hem.
  pose proof (used_bounds f k Hok) as Hub. pose proof (ok_size f k Hok). rewrite Hu in Hub.
  assert (forall kop rs1 ob, rop_ok (ft_recsize t) kop -> Kfifo.rspec (2 ^ k) (ft_recsize t) rs kop = Some (rs1, ob) ->
    exists f', rstep (ft_recsize t) f kop = Done (f', ob) /\ rec_repr f' k (ft_recsize t) rs1) as Hstep.
  { intros kop rs1 ob. by apply rstep_refines. }
  apply Z.eqb_neq in Hr.
  assert (forall buf, len buf < 2 ^ (8 * ft_recsize t) ->
    exists f', __kfifo_in_r f buf (len buf) (ft_recsize t) =
      Done (f', if len (rec_bytes (ft_recsize t) rs) + ft_recsize t + len buf <=? 2 ^ k then len buf else 0) /\
      rec_repr f' k (ft_recsize t) (if len (rec_bytes (ft_recsize t) rs) + ft_recsize t + len buf <=? 2 ^ k then rs ++ [buf] else rs)) as Hin.
  { intros buf Hb. specialize (Hstep (RIn buf)). cbn [Kfifo.rspec rstep rop_ok] in Hstep.
    destruct (_ <=? _); edestruct Hstep as (f' & E & HR'); [exact Hb|reflexivity| |exact Hb|reflexivity|];
      apply obind_done in E as ([f1 m] & -> & [= -> ->]); by exists f'. }
  assert (forall n, in_w 32 n ->
    let fr := match rs with [] => ([], 0) | r :: _ => let m := Z.min n (len r) in (slice r 0 m, m) end in
    __kfifo_out_peek_r f n (ft_recsize t) = Done fr /\
    exists f', __kfifo_out_r f n (ft_recsize t) = Done (f', fr.1, fr.2) /\ rec_repr f' k (ft_recsize t) (tail rs)) as Hout.
  { intros n Hn. pose proof (Hstep (ROut n)) as Ho. pose proof (Hstep (RPeek n)) as Hp. cbn [Kfifo.rspec rstep rop_ok] in Ho, Hp.
    destruct rs as [|r rs0]; cbn zeta; (split;
      [edestruct Hp as (f' & E & _); [exact Hn|reflexivity|]; apply obind_done in E as ([d m] & -> & [= _ <- <-]); done
      |edestruct Ho as (f' & E & HR'); [exact Hn|reflexivity|]; apply obind_done in E as ([[f1 d] m] & -> & [= -> <- <-]); by exists f']). }
  assert (in_w 32 (ft_esize t)) as Hw by (rewrite Ht; split; [done|reflexivity]).
  destruct op as [v| | |buf n|n|n| | | | | | | |]; unfold mstep, mop_ok, rspec in *.
  - injection Hs as Hs. unfold kfifo_put. rewrite Hr. cbn [negb]. rewrite <- Hop. destruct (Hin v) as (f' & -> & HR').
    { rewrite Hop, Ht. destruct Hrs as [-> | ->]; reflexivity. }
    cbn [obind fst snd]. exists f'. by destruct (_ <=? _); injection Hs as <- <-.
  - injection Hs as <- <-. unfold kfifo_get. rewrite Hr. cbn [negb]. destruct (Hout _ Hw) as (_ & f' & -> & HR').
    exists f'. split; [|done]. cbn [obind fst snd]. by destruct (match rs with [] => _ | _ :: _ => _ end).
  - injection Hs as <- <-. unfold kfifo_peek. rewrite Hr. cbn [negb]. destruct (Hout _ Hw) as (-> & _). by exists f.
  - injection Hs as Hs. destruct Hop as (Hn & Hb & Hlt). rewrite Ht, Z.mul_1_r in Hb. unfold kfifo_in. rewrite Hr. cbn [negb].
    rewrite wrap_small, Hb by done. destruct (Hin buf) as (f' & -> & HR'); [by apply Hlt, Z.eqb_neq|].
    cbn [obind fst snd]. exists f'. by destruct (_ <=? _); injection Hs as <- <-.
  - injection Hs as <- <-. unfold kfifo_out. rewrite Hr. cbn [negb]. rewrite wrap_small by done. destruct (Hout _ Hop) as (_ & f' & -> & HR').
    exists f'. split; [|done]. cbn [obind fst snd]. by destruct (match rs with [] => _ | _ :: _ => _ end).
  - injection Hs as <- <-. unfold kfifo_out_peek. rewrite Hr. cbn [negb]. rewrite wrap_small by done. destruct (Hout _ Hop) as (-> & _). by exists f.
  - unfold kfifo_skip. rewrite Hr. cbn [negb]. destruct rs as [|r rs0]; [done|]. injection Hs as <- <-.
    edestruct (Hstep RSkip) as (f' & E & HR'); [done|reflexivity|]. apply obind_done in E as (f1 & E & [= ->]). rewrite E. by exists f'.
  - injection Hs as <- <-. destruct (kfifo_reset_ok f k Hok) as [Hok' Hc']. eexists. split; [done|]. by split.
  - injection Hs as <- <-. destruct (reset_out_ok f k Hok) as [Hok' Hc']. eexists. split; [done|]. by split.
  - injection Hs as <- <-. exists f. by rewrite kfifo_len_used, Hu.
  - injection Hs as <- <-. unfold kfifo_avail. rewrite Hr, (kfifo_size_ok f k Hok), kfifo_len_used, Hu. cbn [negb].
    rewrite (wrap_small 32 (2 ^ k - _)) by (unfold in_w; lia). set (a := 2 ^ k - len (rec_bytes (ft_recsize t) rs)) in *.
    destruct (Z.leb_spec a (ft_recsize t)); cbn [obind]; [exists f; split; [|done]; do 3 f_equal; lia|].
    unfold __kfifo_max_r. rewrite (proj2 (Z.leb_le _ _)) by lia. rewrite wrap_small by (unfold in_w; lia).
    assert (u32 (Z.shiftl 1 (Z.shiftl (ft_recsize t) 3) - 1) = 2 ^ (8 * ft_recsize t) - 1) as -> by (destruct Hrs as [-> | ->]; reflexivity).
    exists f. rewrite Z.gtb_ltb. destruct (Z.ltb_spec (2 ^ (8 * ft_recsize t) - 1) (a - ft_recsize t)); cbn [obind]; (split; [|done]); do 3 f_equal; lia.
  - unfold kfifo_peek_len. rewrite Hr. destruct rs as [|r rs0]; [done|]. injection Hs as <- <-.
    edestruct (Hstep RLen) as (f' & E & HR'); [done|reflexivity|]. apply obind_done in E as (n & E & [= -> ->]). rewrite E. by exists f'.
  - injection Hs as <- <-. exists f. by rewrite Hem.
  - injection Hs as <- <-. exists f. by rewrite (kfifo_full_ok f k Hok), Hu.
Qed.

Lemma mstep_refines t f k q op q' o : represents t f k q -> mop_ok t op -> mspec t (2 ^ k) q op = Some (q', o) ->
  exists f', mstep t f op = Done (f', o) /\ represents t f' k q'.
Proof.
  unfold represents, mspec. intros HR Hop Hs. destruct (Z.eqb_spec (ft_recsize t) 0) as [E|E]; [by eapply element_step|].
  destruct HR as [HR Ht]. destruct (record_step t f k q op q' o) as (f' & Hf & HR'); try done. by exists f'.
Qed.

(** C32: the macros of kfifo.h on a fifo of any declared type are a bounded
    queue: of elements of the type's size, or of records that share the bytes
    of the buffer.  Whatever a client does with [kfifo_put], [kfifo_get],
    [kfifo_peek], [kfifo_in], [kfifo_out], [kfifo_out_peek], [kfifo_skip],
    [kfifo_reset], [kfifo_reset_out] and the questions, over any number of
    calls and any wrap-around of the counters, no call leaves the buffer, an
    element or a record comes out whole and in order, and every count is the
    queue's. *)
Theorem macros_refine (t : fifo_type) (f : kfifo) (k : Z) (q q' : list (list Z)) (ops : list mop)
    (obs : list (list Z * Z)) :
  represents t f k q -> Forall (mop_ok t) ops -> mspec_run t (2 ^ k) q ops = Some (q', obs) ->
  exists f', mrun t f ops = Done (f', obs) /\ represents t f' k q'.
Proof.
  intros HR Hops. revert f q obs HR. induction Hops as [|op ops Hop _ IH]; intros f q obs HR Hs; cbn [mrun mspec_run] in *.
  - injection Hs as <- <-. by exists f.
  - destruct (mspec t (2 ^ k) q op) as [[q1 o]|] eqn:E1; [|done].
    destruct (mspec_run t (2 ^ k) q1 ops) as [[q2 os]|] eqn:E2; [|done]. injection Hs as -> <-.
    destruct (mstep_refines t f k q op q1 o HR Hop E1) as (f1 & -> & HR1). cbn [obind fst snd].
    destruct (IH f1 q1 os HR1 E2) as (f2 & -> & HR2). by exists f2.
Qed.

(** ** Creation *)

Lemma represents_new t k d : 1 <= k <= 31 -> 1 <= ft_esize t -> 2 ^ k * ft_esize t < 2 ^ 32 -> len d = 2 ^ k * ft_esize t ->
  ft_recsize t = 0 \/ (ft_recsize t = 1 \/ ft_recsize t = 2) /\ ft_esize t = 1 ->
  represents t (mk_kfifo 0 0 (2 ^ k - 1) (ft_esize t) (Some d)) k [].
Proof.
  intros Hk He Hb Hd Hr. destruct (kf_ok_new k (ft_esize t) d Hk He Hb Hd) as [Hok Hc]. unfold represents.
  destruct Hr as [-> |[Hr E]]; [by split|]. rewrite (proj2 (Z.eqb_neq _ _)) by lia. split; [|done]. by split.
Qed.

(** A declared fifo is empty after INIT_KFIFO. *)
Lemma INIT_KFIFO_empty t k buf : ft_ptr t = false -> ft_count t = 2 ^ k -> 1 <= k <= 31 -> 1 <= ft_esize t ->
  2 ^ k * ft_esize t < 2 ^ 32 -> len buf = 2 ^ k * ft_esize t ->
  ft_recsize t = 0 \/ (ft_recsize t = 1 \/ ft_recsize t = 2) /\ ft_esize t = 1 ->
  represents t (INIT_KFIFO t buf) k [].
Proof.
  intros Hp Hc Hk He Hb Hl Hr. unfold INIT_KFIFO. rewrite Hp, Hc.
  assert (0 < 2 ^ k) by (apply Z.pow_pos_nonneg; lia).
  rewrite wrap_small by (unfold in_w; nia). by apply represents_new.
Qed.

(** A buffer of any other size than a power of two is used in part: the number
    of elements is rounded down. *)
Lemma kfifo_init_rounds_down : (let* r := kfifo_init struct_kfifo (replicate 7 0) 7 (__kfifo_free demo) in Done (kfifo_size r.1, r.2)) = Done (4, 0).
Proof. vm_compute. reflexivity. Qed.

(** Skipping an element there is not makes the fifo overfull. *)
Lemma kfifo_skip_empty : (let* f := kfifo_skip struct_kfifo demo in Done (kfifo_len f, kfifo_is_full f)) = Done (2 ^ 32 - 1, true).
Proof. vm_compute. reflexivity. Qed.

(** *** Witness: eight points of four bytes each, and records in eight bytes *)

Definition points : fifo_type := STRUCT_KFIFO 4 8.
Definition points_fifo : kfifo := INIT_KFIFO points (replicate 32 0).

Lemma macros_refine_witness :
  exists f', mrun points points_fifo
    [MPut [1; 2; 3; 4]; MIn [5; 6; 7; 8; 9; 10; 11; 12] 2; MLen; MPeek; MGet; MOut 7; MGet; MAvail; MPut [1; 1; 1; 1]; MSkip; MIsEmpty]
    = Done (f', [([], 1); ([], 2); ([], 3); ([1; 2; 3; 4], 1); ([1; 2; 3; 4], 1); ([5; 6; 7; 8; 9; 10; 11; 12], 2); ([], 0);
        ([], 8); ([], 1); ([], 0); ([], 1)])
    /\ represents points f' 3 [].
Proof.
  apply (macros_refine points points_fifo 3 []).
  - apply (INIT_KFIFO_empty points 3 (replicate 32 0)); try reflexivity; [lia|vm_compute; discriminate|by left].
  - repeat constructor; vm_compute; congruence.
  - vm_compute. reflexivity.
Defined.

Example records_run : (let* r := mrun (STRUCT_KFIFO_REC_1 8) (INIT_KFIFO (STRUCT_KFIFO_REC_1 8) (replicate 8 0))
    [MIn [1; 2; 3] 3; MPut [4]; MAvail; MPeekLen; MOut 2; MGet; MIsEmpty] in Done r.2) =
  Done [([], 3); ([], 1); ([], 1); ([], 3); ([1; 2], 2); ([4], 1); ([], 1)].
Proof. vm_compute. reflexivity. Qed.
End KfifoMacros.
