(* ===== verification/BdbufAvl.v ===== *)
(** * bdbuf.c : the AVL tree of buffer descriptors

    [rtems_bdbuf_avl_search], [rtems_bdbuf_avl_insert] and
    [rtems_bdbuf_avl_remove] are loops over an explicit stack of pointers
    ([buf_stack]) with a direction noted in each node ([avl.cache]).  Here
    the tree is an inductive type that carries the balance factors, and the
    stack with its directions is a list of frames, innermost first: a frame
    is the node, its balance, the direction taken and the child on the other
    side.  Storing past the end of [buf_stack] and following a NULL child in
    a rotation are [Undef]. *)
From Stdlib Require Import ZArith Lia Bool.
From stdpp Require Import base list numbers gmap sorting.
From S2P Require Import Prelude.

Module Avl.

(** ** Data *)

(** The descriptor in the tree: its identity and the two search keys. *)
Record node := mk_node { nd_bd : nat; nd_dd : Z; nd_block : Z }.

#[export] Instance node_eq_dec : EqDecision node.
Proof. solve_decision. Defined.

Inductive avl : Type :=
| Leaf
| Node (l : avl) (n : node) (bal : Z) (r : avl).

(** [avl.cache]: the direction taken from a node on the stack. *)
Inductive dir := DLeft | DRight.

Record frame := mk_frame { f_cache : dir; f_node : node; f_bal : Z; f_other : avl }.

Definition RTEMS_BDBUF_AVL_MAX_HEIGHT : nat := 32.

(** ** Operations *)

(** [p->dd < dd || (p->dd == dd && p->block < block)] *)
Definition key_lt (n : node) (dd block : Z) : bool :=
  (nd_dd n <? dd) || ((nd_dd n =? dd) && (nd_block n <? block)).

(** [p->dd != dd || p->block != block] *)
Definition key_ne (n : node) (dd block : Z) : bool :=
  negb (nd_dd n =? dd) || negb (nd_block n =? block).

Fixpoint rtems_bdbuf_avl_search (p : avl) (dd block : Z) : option node :=
  match p with
  | Leaf => None
  | Node l n _ r =>
      if key_ne n dd block then
        if key_lt n dd block then rtems_bdbuf_avl_search r dd block
        else rtems_bdbuf_avl_search l dd block
      else Some n
  end.

(** [*buf_prev++ = p] *)
Definition push (f : frame) (stack : list frame) : outcome (list frame) :=
  guard* (length stack <? RTEMS_BDBUF_AVL_MAX_HEIGHT)%nat in Done (f :: stack).

(** Linking a subtree back into the node on the stack. *)
Definition plug (t : avl) (f : frame) : avl :=
  match f_cache f with
  | DLeft => Node t (f_node f) (f_bal f) (f_other f)
  | DRight => Node (f_other f) (f_node f) (f_bal f) t
  end.
Definition plugs (stack : list frame) (t : avl) : avl := fold_left plug stack t.

(** *** Insertion *)

(** The descent: [None] when the key is already there. *)
Fixpoint insert_path (p : avl) (dd block : Z) (stack : list frame)
    : outcome (option (list frame)) :=
  match p with
  | Leaf => Done (Some stack)
  | Node l n bal r =>
      if key_lt n dd block then
        let* stack := push (mk_frame DRight n bal l) stack in
        insert_path r dd block stack
      else if key_ne n dd block then
        let* stack := push (mk_frame DLeft n bal r) stack in
        insert_path l dd block stack
      else
        (* the node is pushed before the comparison *)
        let* _ := push (mk_frame DLeft n bal r) stack in Done None
  end.

(** One turn of the loop: the node [f] whose child on the noted side is now
    [q], one level higher.  Returns the subtree and [modified]. *)
Definition insert_fix (f : frame) (q : avl) : outcome (avl * bool) :=
  let n := f_node f in
  let other := f_other f in
  match f_cache f with
  | DLeft =>
      if f_bal f =? 1 then Done (Node q n 0 other, false)
      else if f_bal f =? 0 then Done (Node q n (-1) other, true)
      else if f_bal f =? -1 then
        match q with
        | Leaf => Undef
        | Node l1 n1 b1 r1 =>
            if b1 =? -1 then (* simple LL-turn *)
              Done (Node l1 n1 0 (Node r1 n 0 other), false)
            else (* double LR-turn *)
              match r1 with
              | Leaf => Undef
              | Node l2 n2 b2 r2 =>
                  Done (Node (Node l1 n1 (if b2 =? 1 then -1 else 0) l2) n2 0
                          (Node r2 n (if b2 =? -1 then 1 else 0) other), false)
              end
        end
      else Done (Node q n (f_bal f) other, true)
  | DRight =>
      if f_bal f =? -1 then Done (Node other n 0 q, false)
      else if f_bal f =? 0 then Done (Node other n 1 q, true)
      else if f_bal f =? 1 then
        match q with
        | Leaf => Undef
        | Node l1 n1 b1 r1 =>
            if b1 =? 1 then (* simple RR-turn *)
              Done (Node (Node other n 0 l1) n1 0 r1, false)
            else (* double RL-turn *)
              match l1 with
              | Leaf => Undef
              | Node l2 n2 b2 r2 =>
                  Done (Node (Node other n (if b2 =? 1 then -1 else 0) l2) n2 0
                          (Node r2 n1 (if b2 =? -1 then 1 else 0) r1), false)
              end
        end
      else Done (Node other n (f_bal f) q, true)
  end.

(** [while (modified)] *)
Fixpoint insert_retrace (stack : list frame) (q : avl) : outcome avl :=
  match stack with
  | [] => Done q
  | f :: stack =>
      let* r := insert_fix f q in
      let '(p, modified) := r in
      if modified then insert_retrace stack p else Done (plugs stack p)
  end.

Definition rtems_bdbuf_avl_insert (root : avl) (n : node) : outcome (avl * Z) :=
  match root with
  | Leaf => Done (Node Leaf n 0 Leaf, 0)
  | Node _ _ _ _ =>
      let* path := insert_path root (nd_dd n) (nd_block n) [] in
      match path with
      | None => Done (root, -1)
      | Some stack =>
          let* root := insert_retrace stack (Node Leaf n 0 Leaf) in
          Done (root, 0)
      end
  end.

(** *** Removal *)

(** The descent to the node to delete: the stack above it and the node. *)
Fixpoint remove_path (p : avl) (dd block : Z) (stack : list frame)
    : outcome (option (list frame * (avl * node * Z * avl))) :=
  match p with
  | Leaf => Done None
  | Node l n bal r =>
      if key_lt n dd block then
        let* stack := push (mk_frame DRight n bal l) stack in
        remove_path r dd block stack
      else if key_ne n dd block then
        let* stack := push (mk_frame DLeft n bal r) stack in
        remove_path l dd block stack
      else
        let* _ := push (mk_frame DLeft n bal r) stack in
        Done (Some (stack, (l, n, bal, r)))
  end.

(** [while (s->avl.left != NULL)]: the frames passed, the leftmost node of
    the tree [(l, n, bal, r)], and its right child. *)
Fixpoint leftmost (l : avl) (n : node) (bal : Z) (r : avl) (stack : list frame)
    : outcome (list frame * node * avl) :=
  match l with
  | Leaf => Done (stack, n, r)
  | Node l' n' bal' r' =>
      let* stack := push (mk_frame DLeft n bal r) stack in
      leftmost l' n' bal' r' stack
  end.

(** Taking the node [(l, n, bal, r)] out: the stack to rebalance along, and
    the subtree that has become one level lower. *)
Definition remove_unlink (stack : list frame) (l : avl) (bal : Z) (r : avl)
    : outcome (list frame * avl) :=
  match r with
  | Leaf =>
      match l with
      | Leaf => Done (stack, Leaf)
      | Node ll ln _ lr => Done (stack, Node ll ln 0 lr)
      end
  | Node rl rn rb rr =>
      match rl with
      | Leaf =>
          let* stack := push (mk_frame DRight rn bal l) stack in
          Done (stack, rr)
      | Node _ _ _ _ =>
          (* the successor: its slot [t] is reserved before the descent *)
          let* slot := push (mk_frame DRight rn bal l) stack in
          let* res := leftmost rl rn rb rr slot in
          Done (
            (* the frames above the slot, the slot filled with [s] *)
            let '(path, s, sr) := res in
            (take (length path - length slot) path ++ mk_frame DRight s bal l :: stack, sr))
      end
  end.

(** One turn of the loop: the child of [f] on the noted side is now [q], one
    level lower. *)
Definition remove_fix (f : frame) (q : avl) : outcome (avl * bool) :=
  let n := f_node f in
  let other := f_other f in
  match f_cache f with
  | DLeft => (* rebalance left branch *)
      if f_bal f =? -1 then Done (Node q n 0 other, true)
      else if f_bal f =? 0 then Done (Node q n 1 other, false)
      else if f_bal f =? 1 then
        match other with
        | Leaf => Undef
        | Node l1 n1 b1 r1 =>
            if b1 >=? 0 then (* simple RR-turn *)
              if b1 =? 0 then Done (Node (Node q n (f_bal f) l1) n1 (-1) r1, false)
              else Done (Node (Node q n 0 l1) n1 0 r1, true)
            else (* double RL-turn *)
              match l1 with
              | Leaf => Undef
              | Node l2 n2 b2 r2 =>
                  Done (Node (Node q n (if b2 =? 1 then -1 else 0) l2) n2 0
                          (Node r2 n1 (if b2 =? -1 then 1 else 0) r1), true)
              end
        end
      else Done (Node q n (f_bal f) other, true)
  | DRight => (* rebalance right branch *)
      if f_bal f =? 1 then Done (Node other n 0 q, true)
      else if f_bal f =? 0 then Done (Node other n (-1) q, false)
      else if f_bal f =? -1 then
        match other with
        | Leaf => Undef
        | Node l1 n1 b1 r1 =>
            if b1 <=? 0 then (* simple LL-turn *)
              if b1 =? 0 then Done (Node l1 n1 1 (Node r1 n (f_bal f) q), false)
              else Done (Node l1 n1 0 (Node r1 n 0 q), true)
            else (* double LR-turn *)
              match r1 with
              | Leaf => Undef
              | Node l2 n2 b2 r2 =>
                  Done (Node (Node l1 n1 (if b2 =? 1 then -1 else 0) l2) n2 0
                          (Node r2 n (if b2 =? -1 then 1 else 0) q), true)
              end
        end
      else Done (Node other n (f_bal f) q, true)
  end.

Fixpoint remove_retrace (stack : list frame) (q : avl) : outcome avl :=
  match stack with
  | [] => Done q
  | f :: stack =>
      let* r := remove_fix f q in
      let '(p, modified) := r in
      if modified then remove_retrace stack p else Done (plugs stack p)
  end.

Definition rtems_bdbuf_avl_remove (root : avl) (n : node) : outcome (avl * Z) :=
  let* found := remove_path root (nd_dd n) (nd_block n) [] in
  match found with
  | None => Done (root, -1)
  | Some (stack, (l, _, bal, r)) =>
      let* cut := remove_unlink stack l bal r in
      let* root := remove_retrace cut.1 cut.2 in
      Done (root, 0)
  end.

(** ** Invariants *)

Fixpoint height (t : avl) : Z :=
  match t with
  | Leaf => 0
  | Node l _ _ r => 1 + Z.max (height l) (height r)
  end.

Fixpoint inorder (t : avl) : list node :=
  match t with
  | Leaf => []
  | Node l n _ r => inorder l ++ n :: inorder r
  end.

(** Every balance factor is the height difference and is -1, 0 or 1. *)
Fixpoint balanced (t : avl) : Prop :=
  match t with
  | Leaf => True
  | Node l _ b r => balanced l /\ balanced r /\ b = height r - height l /\ -1 <= b <= 1
  end.

(** The order of the keys: the device first, then the block. *)
Definition node_lt (a b : node) : Prop :=
  nd_dd a < nd_dd b \/ (nd_dd a = nd_dd b /\ nd_block a < nd_block b).
Definition same_key (a b : node) : Prop := nd_dd a = nd_dd b /\ nd_block a = nd_block b.

Definition avl_ok (t : avl) : Prop := balanced t /\ StronglySorted node_lt (inorder t).

(** ** Shape lemmas *)

Lemma height_nonneg t : 0 <= height t.
Proof. induction t; simpl; lia. Qed.

Definition rootbal (t : avl) : Z := match t with Leaf => 0 | Node _ _ b _ => b end.

(** [q] is [t] grown by one level: not evenly, unless from nothing. *)
Definition grown (t q : avl) : Prop := t = Leaf \/ rootbal q <> 0.

(** Case analysis on the tests of a rebalancing step. *)
Ltac avl_cases :=
  repeat match goal with
  | |- context [?a =? ?b] => destruct (Z.eqb_spec a b); subst; try lia
  | |- context [?a >=? ?b] => rewrite (Z.geb_leb a b)
  | |- context [?a <=? ?b] => destruct (Z.leb_spec a b); try lia
  end.

Ltac heights :=
  repeat match goal with
  | t : avl |- _ =>
      lazymatch goal with
      | _ : 0 <= height t |- _ => fail
      | _ => pose proof (height_nonneg t)
      end
  end.

Ltac avl_done :=
  simpl in *; heights; destruct_and?;
  split_and?; try done; try lia; try (by list_simplifier).

Lemma insert_fix_ok f t q :
  balanced (plug t f) -> balanced q -> height q = height t + 1 -> grown t q ->
  exists p m, insert_fix f q = Done (p, m) /\ balanced p /\ inorder p = inorder (plug q f) /\
    if m : bool then height p = height (plug t f) + 1 /\ grown (plug t f) p
    else height p = height (plug t f).
Proof.
  intros Hb Hq Hh Hg. destruct f as [[] n b o]; unfold insert_fix, plug in *; simpl in *;
    destruct Hb as (Hb1 & Hb2 & Hb3 & Hb4).
  - destruct (Z.eqb_spec b 1) as [?E|?E]; [do 2 eexists; split; [done|]; avl_done|].
    destruct (Z.eqb_spec b 0) as [?E|?E].
    { do 2 eexists; split; [done|]. unfold grown; simpl. split_and!; try done; try lia; by right. }
    rewrite (proj2 (Z.eqb_eq _ _)) by lia.
    destruct q as [|l1 n1 b1 r1]; [simpl in *; heights; lia|].
    unfold grown in Hg; destruct Hg as [-> | Hg]; [simpl in *; heights; lia|]. simpl in *.
    destruct (Z.eqb_spec b1 (-1)) as [?E|?E]; [do 2 eexists; split; [done|]; avl_done|].
    destruct r1 as [|l2 n2 b2 r2]; [simpl in *; heights; lia|].
    do 2 eexists; split; [done|]. avl_cases; avl_done.
  - destruct (Z.eqb_spec b (-1)) as [?E|?E]; [do 2 eexists; split; [done|]; avl_done|].
    destruct (Z.eqb_spec b 0) as [?E|?E].
    { do 2 eexists; split; [done|]. unfold grown; simpl. split_and!; try done; try lia; by right. }
    rewrite (proj2 (Z.eqb_eq _ _)) by lia.
    destruct q as [|l1 n1 b1 r1]; [simpl in *; heights; lia|].
    unfold grown in Hg; destruct Hg as [-> | Hg]; [simpl in *; heights; lia|]. simpl in *.
    destruct (Z.eqb_spec b1 1) as [?E|?E]; [do 2 eexists; split; [done|]; avl_done|].
    destruct l1 as [|l2 n2 b2 r2]; [simpl in *; heights; lia|].
    do 2 eexists; split; [done|]. avl_cases; avl_done.
Qed.

Lemma remove_fix_ok f t q :
  balanced (plug t f) -> balanced q -> height q = height t - 1 ->
  exists p m, remove_fix f q = Done (p, m) /\ balanced p /\ inorder p = inorder (plug q f) /\
    height p = height (plug t f) - (if m : bool then 1 else 0).
Proof.
  intros Hb Hq Hh. destruct f as [[] n b o]; unfold remove_fix, plug in *; simpl in *;
    destruct Hb as (Hb1 & Hb2 & Hb3 & Hb4).
  - destruct (Z.eqb_spec b (-1)) as [?E|?E]; [do 2 eexists; split; [done|]; avl_done|].
    destruct (Z.eqb_spec b 0) as [?E|?E]; [do 2 eexists; split; [done|]; avl_done|].
    rewrite (proj2 (Z.eqb_eq b 1)) by lia.
    destruct o as [|l1 n1 b1 r1]; [simpl in *; heights; lia|]. simpl in *.
    rewrite Z.geb_leb. destruct (Z.leb_spec 0 b1).
    + destruct (Z.eqb_spec b1 0) as [?E|?E]; do 2 eexists; (split; [done|]); avl_done.
    + destruct l1 as [|l2 n2 b2 r2]; [simpl in *; heights; lia|].
      do 2 eexists; split; [done|]. avl_cases; avl_done.
  - destruct (Z.eqb_spec b 1) as [?E|?E]; [do 2 eexists; split; [done|]; avl_done|].
    destruct (Z.eqb_spec b 0) as [?E|?E]; [do 2 eexists; split; [done|]; avl_done|].
    rewrite (proj2 (Z.eqb_eq b (-1))) by lia.
    destruct o as [|l1 n1 b1 r1]; [simpl in *; heights; lia|]. simpl in *.
    destruct (Z.leb_spec b1 0).
    + destruct (Z.eqb_spec b1 0) as [?E|?E]; do 2 eexists; (split; [done|]); avl_done.
    + destruct r1 as [|l2 n2 b2 r2]; [simpl in *; heights; lia|].
      do 2 eexists; split; [done|]. avl_cases; avl_done.
Qed.

(** ** The stack as a context *)

Lemma plugs_app s1 s2 t : plugs (s1 ++ s2) t = plugs s2 (plugs s1 t).
Proof. apply fold_left_app. Qed.

(** The nodes before and after the hole. *)
Fixpoint ctx_l (s : list frame) : list node :=
  match s with
  | [] => []
  | f :: s => ctx_l s ++ match f_cache f with DLeft => [] | DRight => inorder (f_other f) ++ [f_node f] end
  end.
Fixpoint ctx_r (s : list frame) : list node :=
  match s with
  | [] => []
  | f :: s => match f_cache f with DLeft => f_node f :: inorder (f_other f) | DRight => [] end ++ ctx_r s
  end.

Lemma inorder_plugs s t : inorder (plugs s t) = ctx_l s ++ inorder t ++ ctx_r s.
Proof.
  revert t. induction s as [|f s IH]; intros t; simpl; [by rewrite app_nil_r|].
  rewrite IH. destruct f as [[] n b o]; unfold plug; simpl;
    rewrite <- ?app_assoc; simpl; by rewrite ?app_nil_r, <- ?app_assoc.
Qed.

Lemma balanced_plugs s t : balanced (plugs s t) -> balanced t.
Proof.
  revert t. induction s as [|f s IH]; intros t H; simpl in *; [done|].
  apply IH in H. destruct f as [[] n b o]; unfold plug in H; simpl in H; tauto.
Qed.

Lemma balanced_replace s t t' :
  balanced (plugs s t) -> balanced t' -> height t' = height t -> balanced (plugs s t').
Proof.
  revert t t'. induction s as [|f s IH]; intros t t' H H1 H2; simpl in *; [done|].
  pose proof (balanced_plugs _ _ H) as Hf.
  apply (IH _ _ H); destruct f as [[] n b o]; unfold plug in *; simpl in *;
    destruct_and?; split_and?; try done; lia.
Qed.

Lemma insert_retrace_ok s t q :
  balanced (plugs s t) -> balanced q -> height q = height t + 1 -> grown t q ->
  exists p, insert_retrace s q = Done p /\ balanced p /\ inorder p = inorder (plugs s q).
Proof.
  revert t q. induction s as [|f s IH]; intros t q H Hq Hh Hg; simpl in *; [eauto|].
  destruct (insert_fix_ok f t q) as (p & m & -> & Hp & Hi & Hm);
    try done; [by apply balanced_plugs in H|]. simpl.
  destruct m as [].
  - destruct Hm as [Hm1 Hm2]. destruct (IH _ _ H Hp Hm1 Hm2) as (p' & -> & Hp' & Hi').
    exists p'. split_and!; [done..|]. by rewrite Hi', !inorder_plugs, Hi.
  - eexists. split; [done|]. split; [by eapply balanced_replace|].
    by rewrite !inorder_plugs, Hi.
Qed.

Lemma remove_retrace_ok s t q :
  balanced (plugs s t) -> balanced q -> height q = height t - 1 ->
  exists p, remove_retrace s q = Done p /\ balanced p /\ inorder p = inorder (plugs s q).
Proof.
  revert t q. induction s as [|f s IH]; intros t q H Hq Hh; simpl in *; [eauto|].
  destruct (remove_fix_ok f t q) as (p & m & -> & Hp & Hi & Hm);
    try done; [by apply balanced_plugs in H|]. simpl.
  destruct m as [].
  - destruct (IH _ _ H Hp Hm) as (p' & -> & Hp' & Hi').
    exists p'. split_and!; [done..|]. by rewrite Hi', !inorder_plugs, Hi.
  - eexists. split; [done|]. split; [eapply balanced_replace; [done..|lia]|].
    by rewrite !inorder_plugs, Hi.
Qed.

(** ** The descents *)

Lemma key_lt_spec m n : key_lt m (nd_dd n) (nd_block n) = true <-> node_lt m n.
Proof.
  unfold key_lt, node_lt. rewrite orb_true_iff, andb_true_iff, !Z.ltb_lt, Z.eqb_eq. done.
Qed.
Lemma key_lt_false m n :
  key_lt m (nd_dd n) (nd_block n) = false -> node_lt n m \/ same_key m n.
Proof.
  intros H. apply not_true_iff_false in H. rewrite key_lt_spec in H.
  unfold node_lt, same_key in *. lia.
Qed.
Lemma key_ne_spec m n : key_ne m (nd_dd n) (nd_block n) = false <-> same_key m n.
Proof.
  unfold key_ne, same_key. rewrite orb_false_iff, !negb_false_iff, !Z.eqb_eq. done.
Qed.
Lemma key_ne_true m n : key_ne m (nd_dd n) (nd_block n) = true -> ~ same_key m n.
Proof. rewrite <- key_ne_spec. by intros ->. Qed.

Lemma node_lt_trans a b c : node_lt a b -> node_lt b c -> node_lt a c.
Proof. unfold node_lt. lia. Qed.
Lemma node_lt_same_r a b c : node_lt a b -> same_key b c -> node_lt a c.
Proof. unfold node_lt, same_key. lia. Qed.
Lemma node_lt_same_l a b c : node_lt b a -> same_key b c -> node_lt c a.
Proof. unfold node_lt, same_key. lia. Qed.
Lemma node_lt_irrefl a b : node_lt a b -> same_key a b -> False.
Proof. unfold node_lt, same_key. lia. Qed.
Lemma same_key_sym a b : same_key a b -> same_key b a.
Proof. unfold same_key. lia. Qed.

(** The three ways a key can relate to the node of a step of a descent. *)
Lemma key_cases m n (P : bool -> bool -> Prop) :
  (node_lt m n -> P true true) ->
  (node_lt n m -> P false true) ->
  (same_key m n -> P false false) ->
  P (key_lt m (nd_dd n) (nd_block n)) (key_ne m (nd_dd n) (nd_block n)).
Proof.
  intros H1 H2 H3. destruct (key_lt _ _ _) eqn:E.
  - apply key_lt_spec in E. destruct (key_ne _ _ _) eqn:E2; [by apply H1|].
    apply key_ne_spec in E2. unfold node_lt, same_key in *; lia.
  - destruct (key_ne _ _ _) eqn:E2.
    + apply H2. apply key_lt_false in E as [|]; [done|]. by apply key_ne_true in E2.
    + apply H3. by apply key_ne_spec.
Qed.

Lemma sorted_node l n b r :
  StronglySorted node_lt (inorder (Node l n b r)) <->
  StronglySorted node_lt (inorder l) /\ StronglySorted node_lt (inorder r) /\
  Forall (fun m => node_lt m n) (inorder l) /\ Forall (node_lt n) (inorder r).
Proof.
  simpl. rewrite StronglySorted_app. split.
  - intros (H1 & H2 & H3). apply StronglySorted_inv in H3 as [H3 H4].
    split_and!; try done. apply Forall_forall. intros x Hx. apply H1; [done|]. constructor.
  - intros (H1 & H2 & H3 & H4). split_and!; try done; [|by constructor].
    intros x y Hx Hy. rewrite Forall_forall in H3, H4.
    apply elem_of_cons in Hy as [-> | Hy]; [auto|]. eapply node_lt_trans; eauto.
Qed.

Lemma push_ok f s : (length s < RTEMS_BDBUF_AVL_MAX_HEIGHT)%nat -> push f s = Done (f :: s).
Proof. intros H. unfold push. by rewrite (proj2 (Nat.ltb_lt _ _)). Qed.

(** No node of the tree has the key of [n]. *)
Definition absent (n : node) (t : avl) : Prop := forall m, m ∈ inorder t -> ~ same_key m n.

Lemma elem_node x l m b r :
  x ∈ inorder (Node l m b r) <-> x ∈ inorder l \/ x = m \/ x ∈ inorder r.
Proof. simpl. by rewrite elem_of_app, elem_of_cons. Qed.

Lemma absent_right l m b r n :
  Forall (fun x => node_lt x m) (inorder l) -> node_lt m n ->
  absent n (Node l m b r) <-> absent n r.
Proof.
  unfold absent. setoid_rewrite elem_node. intros Hl Hm. split; [naive_solver|].
  rewrite Forall_forall in Hl. intros Hr x [Hx|[->|Hx]] Hk; [|by eapply node_lt_irrefl|by eapply Hr].
  eapply node_lt_irrefl; [|exact Hk]. eapply node_lt_trans; eauto.
Qed.

Lemma absent_left l m b r n :
  Forall (node_lt m) (inorder r) -> node_lt n m ->
  absent n (Node l m b r) <-> absent n l.
Proof.
  unfold absent. setoid_rewrite elem_node. intros Hl Hm. split; [naive_solver|].
  rewrite Forall_forall in Hl. intros Hr x [Hx|[->|Hx]] Hk; [by eapply Hr| |].
  - apply same_key_sym in Hk. by eapply node_lt_irrefl.
  - apply same_key_sym in Hk. eapply node_lt_irrefl; [|exact Hk]. eapply node_lt_trans; eauto.
Qed.

Lemma search_ok t n :
  StronglySorted node_lt (inorder t) ->
  match rtems_bdbuf_avl_search t (nd_dd n) (nd_block n) with
  | Some m => m ∈ inorder t /\ same_key m n
  | None => absent n t
  end.
Proof.
  induction t as [|l IHl m b r IHr]; intros H; [intros ? []%elem_of_nil|].
  apply sorted_node in H as (H1 & H2 & H3 & H4).
  simpl rtems_bdbuf_avl_search. apply key_cases.
  - intros Hlt. specialize (IHr H2). destruct (rtems_bdbuf_avl_search r _ _).
    + rewrite elem_node. tauto.
    + by apply absent_right.
  - intros Hlt. specialize (IHl H1). destruct (rtems_bdbuf_avl_search l _ _).
    + rewrite elem_node. tauto.
    + by apply absent_left.
  - intros Hk. rewrite elem_node. auto.
Qed.

Lemma ctx_l_app s1 s2 : ctx_l (s1 ++ s2) = ctx_l s2 ++ ctx_l s1.
Proof. induction s1; simpl; [by rewrite app_nil_r|]. by rewrite IHs1, app_assoc. Qed.
Lemma ctx_r_app s1 s2 : ctx_r (s1 ++ s2) = ctx_r s1 ++ ctx_r s2.
Proof. induction s1; simpl; [done|]. by rewrite IHs1, app_assoc. Qed.

Lemma Forall_lt_trans n m k :
  Forall (fun x => node_lt x m) k -> node_lt m n -> Forall (fun x => node_lt x n) k.
Proof. intros H Hm. eapply Forall_impl; [exact H|]. intros x Hx. exact (node_lt_trans _ _ _ Hx Hm). Qed.
Lemma Forall_gt_trans n m k :
  Forall (node_lt m) k -> node_lt n m -> Forall (node_lt n) k.
Proof. intros H Hm. eapply Forall_impl; [exact H|]. intros x Hx. exact (node_lt_trans _ _ _ Hm Hx). Qed.

Lemma insert_path_ok n t s0 :
  StronglySorted node_lt (inorder t) ->
  Z.of_nat (length s0) + height t <= Z.of_nat RTEMS_BDBUF_AVL_MAX_HEIGHT ->
  match insert_path t (nd_dd n) (nd_block n) s0 with
  | Done None => ~ absent n t
  | Done (Some s) => exists s', s = s' ++ s0 /\ t = plugs s' Leaf /\
      Forall (fun m => node_lt m n) (ctx_l s') /\ Forall (node_lt n) (ctx_r s')
  | _ => False
  end.
Proof.
  revert s0. induction t as [|l IHl m b r IHr]; intros s0 H Hh.
  { exists []. simpl. auto. }
  apply sorted_node in H as (H1 & H2 & H3 & H4). simpl in Hh. heights.
  unfold RTEMS_BDBUF_AVL_MAX_HEIGHT in Hh.
  simpl insert_path. rewrite !push_ok by (unfold RTEMS_BDBUF_AVL_MAX_HEIGHT; lia). cbn [obind].
  apply key_cases; cbv beta iota.
  - intros Hlt.
    specialize (IHr (mk_frame DRight m b l :: s0) H2 ltac:(simpl length; unfold RTEMS_BDBUF_AVL_MAX_HEIGHT; lia)).
    destruct (insert_path r _ _ _) as [[s|]| |];
      [|rewrite absent_right by done; exact IHr|exact IHr..].
    destruct IHr as (s' & -> & -> & Hl & Hr).
    exists (s' ++ [mk_frame DRight m b l]).
    rewrite plugs_app, <- app_assoc, ctx_l_app, ctx_r_app. simpl. rewrite app_nil_r.
    split_and!; try done. rewrite !Forall_app. split_and!; try done; [|by constructor].
    by eapply Forall_lt_trans.
  - intros Hlt.
    specialize (IHl (mk_frame DLeft m b r :: s0) H1 ltac:(simpl length; unfold RTEMS_BDBUF_AVL_MAX_HEIGHT; lia)).
    destruct (insert_path l _ _ _) as [[s|]| |];
      [|rewrite absent_left by done; exact IHl|exact IHl..].
    destruct IHl as (s' & -> & -> & Hl & Hr).
    exists (s' ++ [mk_frame DLeft m b r]).
    rewrite plugs_app, <- app_assoc, ctx_l_app, ctx_r_app. simpl. rewrite app_nil_r.
    split_and!; try done. rewrite !Forall_app. split_and!; try done.
    constructor; [done|]. by eapply Forall_gt_trans.
  - intros Hk Ha. apply (Ha m); [apply elem_node; auto|done].
Qed.

Lemma remove_path_ok n t s0 :
  StronglySorted node_lt (inorder t) ->
  Z.of_nat (length s0) + height t <= Z.of_nat RTEMS_BDBUF_AVL_MAX_HEIGHT ->
  match remove_path t (nd_dd n) (nd_block n) s0 with
  | Done None => absent n t
  | Done (Some (s, (l, m, b, r))) => exists s', s = s' ++ s0 /\ t = plugs s' (Node l m b r) /\
      same_key m n /\ Z.of_nat (length s') + height (Node l m b r) <= height t
  | _ => False
  end.
Proof.
  revert s0. induction t as [|l IHl m b r IHr]; intros s0 H Hh.
  { intros ? []%elem_of_nil. }
  apply sorted_node in H as (H1 & H2 & H3 & H4). simpl in Hh. heights.
  unfold RTEMS_BDBUF_AVL_MAX_HEIGHT in Hh.
  simpl remove_path. rewrite !push_ok by (unfold RTEMS_BDBUF_AVL_MAX_HEIGHT; lia). cbn [obind].
  apply key_cases; cbv beta iota.
  - intros Hlt.
    specialize (IHr (mk_frame DRight m b l :: s0) H2
      ltac:(simpl length; unfold RTEMS_BDBUF_AVL_MAX_HEIGHT; lia)).
    destruct (remove_path r _ _ _) as [[[s [[[l' m'] b'] r']]|]| |];
      [|by rewrite absent_right|exact IHr..].
    destruct IHr as (s' & -> & Hr & Hk & Hs).
    exists (s' ++ [mk_frame DRight m b l]).
    rewrite plugs_app, <- app_assoc, <- Hr. split_and!; try done.
    rewrite length_app. simpl in *. lia.
  - intros Hlt.
    specialize (IHl (mk_frame DLeft m b r :: s0) H1
      ltac:(simpl length; unfold RTEMS_BDBUF_AVL_MAX_HEIGHT; lia)).
    destruct (remove_path l _ _ _) as [[[s [[[l' m'] b'] r']]|]| |];
      [|by rewrite absent_left|exact IHl..].
    destruct IHl as (s' & -> & Hr & Hk & Hs).
    exists (s' ++ [mk_frame DLeft m b r]).
    rewrite plugs_app, <- app_assoc, <- Hr. split_and!; try done.
    rewrite length_app. simpl in *. lia.
  - intros Hk. exists []. simpl. split_and!; by try lia.
Qed.

Lemma leftmost_ok l n b r s0 :
  Z.of_nat (length s0) + height (Node l n b r) <= Z.of_nat RTEMS_BDBUF_AVL_MAX_HEIGHT + 1 ->
  exists s m mb mr, leftmost l n b r s0 = Done (s ++ s0, m, mr) /\
    Node l n b r = plugs s (Node Leaf m mb mr) /\ ctx_l s = [].
Proof.
  revert n b r s0. induction l as [|l1 IH1 n1 b1 r1 _]; intros n b r s0 Hh.
  { exists [], n, b, r. done. }
  simpl in Hh. heights. unfold RTEMS_BDBUF_AVL_MAX_HEIGHT in Hh.
  cbn [leftmost]. rewrite push_ok by (unfold RTEMS_BDBUF_AVL_MAX_HEIGHT; lia). cbn [obind].
  destruct (IH1 n1 b1 r1 (mk_frame DLeft n b r :: s0)) as (s & m & mb & mr & -> & Hs & Hc).
  { simpl. unfold RTEMS_BDBUF_AVL_MAX_HEIGHT. lia. }
  exists (s ++ [mk_frame DLeft n b r]), m, mb, mr.
  by rewrite plugs_app, <- app_assoc, ctx_l_app, Hs, Hc.
Qed.

Lemma balanced_relabel s l m b r n :
  balanced (plugs s (Node l m b r)) -> balanced (plugs s (Node l n b r)).
Proof.
  intros H. pose proof (balanced_plugs _ _ H) as Hb. by eapply balanced_replace.
Qed.

Lemma remove_unlink_ok s l m b r :
  balanced (plugs s (Node l m b r)) ->
  Z.of_nat (length s) + height (Node l m b r) <= Z.of_nat RTEMS_BDBUF_AVL_MAX_HEIGHT ->
  exists s' t q, remove_unlink s l b r = Done (s', q) /\ balanced (plugs s' t) /\
    balanced q /\ height q = height t - 1 /\
    inorder (plugs s' q) = ctx_l s ++ inorder l ++ inorder r ++ ctx_r s.
Proof.
  intros H Hh. pose proof (balanced_plugs _ _ H) as Hb. simpl in Hb, Hh.
  destruct Hb as (Hb1 & Hb2 & Hb3 & Hb4).
  unfold RTEMS_BDBUF_AVL_MAX_HEIGHT in Hh. heights.
  destruct r as [|rl rn rb rr]; unfold remove_unlink.
  - destruct l as [|ll ln lb lr].
    + do 3 eexists. split_and!; [done|exact H|done|done|]. by rewrite inorder_plugs.
    + simpl in *. heights. assert (height ll = 0 /\ height lr = 0) as [E1 E2] by lia.
      do 3 eexists. split_and!; [done|exact H|..]; simpl; rewrite ?E1, ?E2; try done; try lia.
      * destruct_and?; split_and!; try done; lia.
      * rewrite inorder_plugs. simpl. by rewrite <- ?app_assoc.
  - destruct rl as [|al an ab ar].
    + rewrite push_ok by (simpl in *; heights; unfold RTEMS_BDBUF_AVL_MAX_HEIGHT; lia).
      cbn [obind]. exists (mk_frame DRight rn b l :: s), (Node Leaf rn rb rr), rr.
      simpl in Hb2. heights. split_and!; [done| |tauto|simpl; lia|].
      * exact (balanced_relabel _ _ _ _ _ rn H).
      * change (plugs (mk_frame DRight rn b l :: s) rr) with (plugs s (Node l rn b rr)).
        rewrite inorder_plugs. simpl. by rewrite <- ?app_assoc.
    + rewrite push_ok by (simpl in *; heights; unfold RTEMS_BDBUF_AVL_MAX_HEIGHT; lia).
      cbn [obind].
      destruct (leftmost_ok (Node al an ab ar) rn rb rr (mk_frame DRight rn b l :: s))
        as (s' & x & xb & xr & -> & Hs & Hc).
      { simpl length. unfold RTEMS_BDBUF_AVL_MAX_HEIGHT. lia. }
      cbn [obind]. rewrite length_app.
      replace (length s' + _ - _)%nat with (length s') by lia.
      rewrite take_app_length.
      exists (s' ++ mk_frame DRight x b l :: s), (Node Leaf x xb xr), xr.
      assert (balanced (plugs (s' ++ mk_frame DRight x b l :: s) (Node Leaf x xb xr))) as Hx.
      { rewrite plugs_app, <- Hs. exact (balanced_relabel _ _ _ _ _ x H). }
      pose proof (balanced_plugs _ _ Hx) as Hx'. simpl in Hx'. heights.
      split_and!; [done|done|simpl in *; tauto|simpl; lia|].
      rewrite plugs_app.
      change (plugs (mk_frame DRight x b l :: s) ?t) with (plugs s (Node l x b t)).
      rewrite Hs, !inorder_plugs, Hc. simpl. rewrite inorder_plugs, Hc. simpl.
      rewrite <- app_assoc. simpl. by rewrite <- ?app_assoc.
Qed.

(** ** The height of a balanced tree *)

(** The fewest nodes of a balanced tree of height [h], and of [h + 1]. *)
Fixpoint min_sizes (h : nat) : Z * Z :=
  match h with
  | O => (0, 1)
  | S h => let '(a, b) := min_sizes h in (b, a + b + 1)
  end.
Definition min_size (h : nat) : Z := (min_sizes h).1.

Lemma min_sizes_snd h : (min_sizes h).2 = min_size (S h).
Proof. unfold min_size. simpl. by destruct (min_sizes h). Qed.
Lemma min_size_SS h : min_size (S (S h)) = min_size h + min_size (S h) + 1.
Proof.
  rewrite <- !min_sizes_snd. unfold min_size. simpl. by destruct (min_sizes h).
Qed.
Lemma min_size_mono h h' : (h <= h')%nat -> 0 <= min_size h <= min_size h'.
Proof.
  assert (forall k, 0 <= min_size k <= min_size (S k)) as Hs.
  { induction k; [by vm_compute|]. rewrite min_size_SS. lia. }
  intros H. induction H; [specialize (Hs h)|specialize (Hs m)]; lia.
Qed.

Lemma min_size_le t : balanced t -> min_size (Z.to_nat (height t)) <= len (inorder t).
Proof.
  induction t as [|l IHl n b r IHr]; intros H; [by vm_compute|].
  simpl in H. destruct H as (H1 & H2 & H3 & H4). specialize (IHl H1). specialize (IHr H2).
  simpl inorder. rewrite len_app, len_cons. heights.
  set (hl := Z.to_nat (height l)) in *. set (hr := Z.to_nat (height r)) in *.
  assert (Z.to_nat (height (Node l n b r)) = S (hl `max` hr)) as -> by (simpl; lia).
  assert (hl = hr \/ hl = S hr \/ hr = S hl) as Hc by lia.
  pose proof (min_size_mono hl (hl `max` hr)). pose proof (min_size_mono hr (hl `max` hr)).
  destruct Hc as [E | [E | E]]; rewrite E in *.
  - rewrite Nat.max_id. destruct hr as [|h]; [change (min_size 1) with 1; pose proof (len_nonneg (inorder l)); pose proof (len_nonneg (inorder r)); lia|].
    rewrite min_size_SS. pose proof (min_size_mono h (S h)). lia.
  - rewrite Nat.max_l by lia. rewrite min_size_SS. lia.
  - rewrite Nat.max_r by lia. rewrite min_size_SS. lia.
Qed.

(** The trees for which 32 entries of stack are enough. *)
Definition avl_capacity : Z := 9227464.

Lemma capacity_height t :
  balanced t -> len (inorder t) < avl_capacity ->
  height t <= Z.of_nat RTEMS_BDBUF_AVL_MAX_HEIGHT.
Proof.
  intros Hb Hl. apply Z.nlt_ge. intros Hh. pose proof (min_size_le t Hb) as Hm.
  pose proof (min_size_mono 33 (Z.to_nat (height t))) as H33.
  assert (min_size 33 = avl_capacity) by (vm_compute; done).
  unfold RTEMS_BDBUF_AVL_MAX_HEIGHT in Hh. lia.
Qed.

(** ** The abstract map *)

Definition key (n : node) : Z * Z := (nd_dd n, nd_block n).

(** What the tree promises to the cache: a finite map from (device, block). *)
Definition contents (t : avl) : gmap (Z * Z) node :=
  list_to_map ((fun n => (key n, n)) <$> inorder t).

Lemma same_key_eq m n : same_key m n <-> key m = key n.
Proof. unfold same_key, key. split; [intros [-> ->]; done|by intros [=]]. Qed.

Lemma keys_NoDup l : StronglySorted node_lt l -> NoDup (key <$> l).
Proof.
  induction 1 as [|a l _ IH Hf]; simpl; constructor; [|done].
  rewrite list_elem_of_fmap. intros (y & Hk & Hy). rewrite Forall_forall in Hf.
  eapply node_lt_irrefl; [by apply Hf|]. by apply same_key_eq.
Qed.

Lemma fst_pairs (l : list node) : ((fun n => (key n, n)) <$> l).*1 = key <$> l.
Proof. by rewrite <- list_fmap_compose. Qed.

Lemma contents_lookup t k m :
  StronglySorted node_lt (inorder t) ->
  contents t !! k = Some m <-> m ∈ inorder t /\ key m = k.
Proof.
  intros H. unfold contents. rewrite <- elem_of_list_to_map.
  - rewrite list_elem_of_fmap. split; [intros (y & [= -> ->] & Hy); done|].
    intros [Hm <-]. eauto.
  - rewrite fst_pairs. by apply keys_NoDup.
Qed.

Lemma contents_absent t n :
  StronglySorted node_lt (inorder t) -> absent n t <-> contents t !! key n = None.
Proof.
  intros H. rewrite eq_None_not_Some. unfold absent, is_Some.
  setoid_rewrite contents_lookup; [|done]. setoid_rewrite same_key_eq.
  split; [intros Ha (x & Hx1 & Hx2); by eapply Ha|intros Ha x Hx1 Hx2; apply Ha; eauto].
Qed.

Lemma contents_perm t t' n :
  StronglySorted node_lt (inorder t') -> inorder t' ≡ₚ n :: inorder t ->
  contents t' = <[key n := n]> (contents t).
Proof.
  intros H Hp. unfold contents.
  change (<[key n := n]> (list_to_map ?l)) with (list_to_map (M := gmap (Z * Z) node) ((key n, n) :: l)).
  apply list_to_map_proper; [rewrite fst_pairs; by apply keys_NoDup|].
  by rewrite Hp.
Qed.

Lemma search_contents t n :
  StronglySorted node_lt (inorder t) ->
  rtems_bdbuf_avl_search t (nd_dd n) (nd_block n) = contents t !! key n.
Proof.
  intros H. pose proof (search_ok t n H) as Hs.
  destruct (rtems_bdbuf_avl_search _ _ _); symmetry.
  - apply contents_lookup; [done|]. by rewrite <- same_key_eq.
  - by apply contents_absent.
Qed.

Lemma insert_ok t n :
  avl_ok t -> height t <= Z.of_nat RTEMS_BDBUF_AVL_MAX_HEIGHT ->
  (contents t !! key n <> None /\ rtems_bdbuf_avl_insert t n = Done (t, -1)) \/
  (contents t !! key n = None /\ exists t', rtems_bdbuf_avl_insert t n = Done (t', 0) /\
    avl_ok t' /\ inorder t' ≡ₚ n :: inorder t).
Proof.
  intros [Hb Hs] Hh. destruct t as [|l m b r].
  { right. split; [done|]. eexists. split; [done|].
    split; [split; simpl; [lia|by repeat constructor]|done]. }
  unfold rtems_bdbuf_avl_insert.
  pose proof (insert_path_ok n (Node l m b r) [] Hs ltac:(simpl length; lia)) as Hp.
  rewrite <- contents_absent by done.
  destruct (insert_path _ _ _ _) as [[s|]| |]; [| |done..]; cbn [obind].
  - destruct Hp as (s' & -> & Ht & Hl & Hr). right. rewrite app_nil_r. rewrite Ht in *.
    rewrite inorder_plugs in *. simpl in Hs.
    destruct (insert_retrace_ok s' Leaf (Node Leaf n 0 Leaf)) as (p & -> & Hp & Hi);
      [done|simpl; lia|done|by left|].
    rewrite inorder_plugs in Hi. cbn [obind]. split.
    + intros x Hx Hk. rewrite inorder_plugs in Hx. simpl in Hx. rewrite elem_of_app in Hx.
      rewrite Forall_forall in Hl, Hr. destruct Hx as [Hx|Hx].
      * by eapply node_lt_irrefl; [apply Hl|].
      * by eapply node_lt_irrefl; [apply Hr|apply same_key_sym].
    + exists p. split; [done|]. split; [split; [done|]|]; rewrite Hi; simpl.
      * apply StronglySorted_app in Hs as (Hx & Hs1 & Hs2). apply StronglySorted_app.
        rewrite Forall_forall in Hl. pose proof (proj1 (Forall_forall _ _) Hr) as Hr'.
        split_and!; [|done|by constructor]. intros x y Hx1 Hy. apply elem_of_cons in Hy as [->|Hy]; auto.
      * by rewrite Permutation_middle.
  - by left.
Qed.

Lemma remove_ok t n :
  avl_ok t -> height t <= Z.of_nat RTEMS_BDBUF_AVL_MAX_HEIGHT ->
  (contents t !! key n = None /\ rtems_bdbuf_avl_remove t n = Done (t, -1)) \/
  (exists m t', contents t !! key n = Some m /\ rtems_bdbuf_avl_remove t n = Done (t', 0) /\
    avl_ok t' /\ inorder t ≡ₚ m :: inorder t').
Proof.
  intros [Hb Hs] Hh. unfold rtems_bdbuf_avl_remove.
  pose proof (remove_path_ok n t [] Hs ltac:(simpl length; lia)) as Hp.
  destruct (remove_path _ _ _ _) as [[[s [[[l m] b] r]]|]| |]; [| |done..]; cbn [obind].
  - destruct Hp as (s' & -> & -> & Hk & Hl). right. rewrite app_nil_r.
    destruct (remove_unlink_ok s' l m b r Hb ltac:(lia)) as (s2 & t2 & q & -> & H2 & Hq & Hqh & Hi).
    cbn [obind fst snd].
    destruct (remove_retrace_ok s2 t2 q H2 Hq Hqh) as (p & -> & Hp & Hpi). cbn [obind].
    rewrite Hi in Hpi.
    assert (inorder (plugs s' (Node l m b r)) ≡ₚ m :: inorder p) as Hperm.
    { rewrite inorder_plugs, Hpi. simpl. rewrite <- app_assoc. simpl.
      by rewrite <- (Permutation_middle (inorder l)), <- (Permutation_middle (ctx_l s')). }
    exists m, p. split_and!; [|done| |done].
    + apply contents_lookup; [done|]. split; [|by apply same_key_eq].
      rewrite Hperm. constructor.
    + split; [done|]. rewrite Hpi. rewrite inorder_plugs in Hs. simpl in Hs.
      rewrite <- app_assoc in Hs. simpl in Hs.
      apply StronglySorted_app in Hs as (Ha & Hs1 & Hs2).
      apply StronglySorted_app in Hs2 as (Hc & Hs3 & Hs4).
      apply StronglySorted_inv in Hs4 as [Hs5 _].
      apply StronglySorted_app. split_and!; [|done|apply StronglySorted_app; split_and!; try done].
      * intros x y Hx Hy. apply Ha; [done|]. rewrite !elem_of_app, elem_of_cons.
        rewrite elem_of_app in Hy. tauto.
      * intros x y Hx Hy. apply Hc; [done|]. by apply elem_of_cons; right.
  - left. split; [by apply contents_absent|done].
Qed.

(** C7: The AVL tree implements a finite map from (device, block) to buffer
    descriptor, for every tree the fixed stack of 32 entries can hold.  On a
    well-formed tree of fewer than [avl_capacity] nodes, the search is the
    map's lookup; the insertion adds the node, or refuses a present key
    with -1 and leaves the tree alone; the removal deletes the key, or
    answers -1; no operation overflows the stack or follows a NULL link, and
    the result is again a balanced and ordered tree. *)
Theorem avl_refines_map (t : avl) (n : node) :
  avl_ok t -> len (inorder t) < avl_capacity ->
  rtems_bdbuf_avl_search t (nd_dd n) (nd_block n) = contents t !! key n /\
  (exists t', rtems_bdbuf_avl_insert t n =
                Done (t', match contents t !! key n with Some _ => -1 | None => 0 end) /\
     avl_ok t' /\
     contents t' = match contents t !! key n with
                   | Some _ => contents t
                   | None => <[key n := n]> (contents t)
                   end) /\
  (exists t', rtems_bdbuf_avl_remove t n =
                Done (t', match contents t !! key n with Some _ => 0 | None => -1 end) /\
     avl_ok t' /\ contents t' = delete (key n) (contents t)).
Proof.
  intros Hok Hc. pose proof (capacity_height t (proj1 Hok) Hc) as Hh.
  split_and!; [apply search_contents, Hok|..].
  - destruct (insert_ok t n Hok Hh) as [(Hk & Hi) | (Hk & t' & Hi & Hok' & Hp)].
    + exists t. destruct (contents t !! key n); done.
    + exists t'. rewrite Hk. split_and!; [done..|]. by apply contents_perm; [apply Hok'|].
  - destruct (remove_ok t n Hok Hh) as [(Hk & Hi) | (m & t' & Hk & Hi & Hok' & Hp)]; rewrite Hk.
    + exists t. split_and!; [done..|]. by rewrite delete_id.
    + exists t'. split_and!; [done..|].
      apply contents_lookup in Hk as [Hm Hk]; [|apply Hok]. rewrite <- Hk.
      rewrite (contents_perm t' t m) by (done || apply Hok).
      rewrite delete_insert_id; [done|]. apply contents_absent; [apply Hok'|].
      destruct Hok as [_ Hs].
      apply keys_NoDup in Hs. rewrite Hp in Hs. simpl in Hs. apply NoDup_cons in Hs as [Hs _].
      intros x Hx Hxk. apply Hs. apply list_elem_of_fmap. exists x. split; [|done].
      symmetry. by apply same_key_eq.
Qed.

(** The tree with (1,5) below (1,7), and a third key. *)
Definition tree_1 : avl :=
  Node (Node Leaf (mk_node 0 1 5) 0 Leaf) (mk_node 1 1 7) (-1) Leaf.
Definition node_1 : node := mk_node 2 1 6.

Lemma avl_refines_map_witness :
  avl_ok tree_1 /\ len (inorder tree_1) < avl_capacity /\
  exists t', rtems_bdbuf_avl_insert tree_1 node_1 = Done (t', 0) /\ avl_ok t' /\
    contents t' = <[key node_1 := node_1]> (contents tree_1).
Proof.
  assert (avl_ok tree_1) as H1.
  { split; [simpl; lia|]. repeat constructor; unfold node_lt; simpl; lia. }
  assert (len (inorder tree_1) < avl_capacity) as H2 by (unfold len, avl_capacity; simpl; lia).
  split; [exact H1|]. split; [exact H2|].
  destruct (avl_refines_map tree_1 node_1 H1 H2) as (_ & (t' & Hi & Hok & Hc) & _).
  assert (contents tree_1 !! key node_1 = None) as Hn by reflexivity.
  rewrite Hn in Hi, Hc. exists t'. split; [exact Hi|]. split; [exact Hok|exact Hc].
Defined.
End Avl.
