(* ===== verification/BdbufState.v ===== *)
(** * bdbuf.h, bdbuf.c, diskdev.h : the data of the block cache

    The records of the cache with their update functions, and the monad the
    operations are written in.

    Descriptors ([rtems_bdbuf_buffer]), groups, workers and threads are
    indices; a disk device pointer is an integer (it is compared as one by
    the AVL tree), with [NULL] as 0.  The chains are lists of descriptor
    indices.  Counters of threads ([waiters], [users]) are unbounded
    integers: they count descriptors and blocked threads, and the invariant of
    BdbufInv shows that they never go below zero.

    An operation runs under the cache lock until it waits on a condition
    variable or a semaphore, or gives the lock up.  What the other threads do
    at such a point is one [env] step, taken from a list the operation is run
    with: [ev_act] is their effect on the cache and [ev_status] the status
    the driver reports when the point is the end of a transfer.  [ev_act] is
    told the buffers the operation has a claim on (it waits for them, is
    transferring them, or was given them), which no other thread may take
    away; the claims play no other role.  A list too short for the run ends
    in [Blocked]. *)
From Stdlib Require Import ZArith Lia Bool.
From stdpp Require Import base list gmap numbers.
From S2P Require Import Prelude BdbufAvl.
Import Avl.

Module BdState.

(** [rtems_bdbuf_buf_state] *)
Inductive buf_state :=
| FREE | EMPTY | CACHED | ACCESS_CACHED | ACCESS_MODIFIED | ACCESS_EMPTY | ACCESS_PURGED
| MODIFIED | SYNC | TRANSFER | TRANSFER_PURGED.

#[export] Instance buf_state_eq_dec : EqDecision buf_state.
Proof. solve_decision. Defined.

Definition BDBUF_INVALID_DEV : Z := 0.
Definition RTEMS_DISK_READ_AHEAD_NO_TRIGGER : Z := 2 ^ 32 - 1.
Definition RTEMS_DISK_READ_AHEAD_SIZE_AUTO : Z := 0.
Definition RTEMS_BLKDEV_CAP_MULTISECTOR_CONT : Z := 1.
Definition RTEMS_BLKDEV_CAP_SYNC : Z := 2.

(** [rtems_bdbuf_config], without the task priorities and the stack size *)
Record bdbuf_config := mk_config {
  max_read_ahead_blocks : Z;
  max_write_blocks : Z;
  swapout_period : Z;
  swap_block_hold : Z;
  swapout_workers : nat;
  cache_size : Z;  (* size *)
  buffer_min : Z;
  buffer_max : Z
}.

(** [rtems_bdbuf_configuration] with the defaults of bdbuf.h *)
Definition rtems_bdbuf_configuration : bdbuf_config :=
  mk_config 0 16 250 1000 0 (64 * 512) 512 4096.


(** [rtems_bdbuf_buffer]; its links are the chains and the tree *)
Record bd := mk_bd {
  bd_dd : Z;
  bd_block : Z;
  bd_buffer : Z;  (* offset in the buffer memory *)
  bd_state : buf_state;
  bd_waiters : Z;
  bd_group : nat;
  bd_hold_timer : Z
}.
Definition set_bd_dd (v : Z) (x : bd) : bd :=
  mk_bd v (bd_block x) (bd_buffer x) (bd_state x) (bd_waiters x) (bd_group x) (bd_hold_timer x).
Definition set_bd_block (v : Z) (x : bd) : bd :=
  mk_bd (bd_dd x) v (bd_buffer x) (bd_state x) (bd_waiters x) (bd_group x) (bd_hold_timer x).
Definition set_bd_buffer (v : Z) (x : bd) : bd :=
  mk_bd (bd_dd x) (bd_block x) v (bd_state x) (bd_waiters x) (bd_group x) (bd_hold_timer x).
Definition set_bd_state (v : buf_state) (x : bd) : bd :=
  mk_bd (bd_dd x) (bd_block x) (bd_buffer x) v (bd_waiters x) (bd_group x) (bd_hold_timer x).
Definition set_bd_waiters (v : Z) (x : bd) : bd :=
  mk_bd (bd_dd x) (bd_block x) (bd_buffer x) (bd_state x) v (bd_group x) (bd_hold_timer x).
Definition set_bd_group (v : nat) (x : bd) : bd :=
  mk_bd (bd_dd x) (bd_block x) (bd_buffer x) (bd_state x) (bd_waiters x) v (bd_hold_timer x).
Definition set_bd_hold_timer (v : Z) (x : bd) : bd :=
  mk_bd (bd_dd x) (bd_block x) (bd_buffer x) (bd_state x) (bd_waiters x) (bd_group x) v.

(** [rtems_bdbuf_group] *)
Record group := mk_group {
  g_bds_per_group : Z;
  g_users : Z;
  g_bdbuf : nat  (* its first descriptor *)
}.
Definition set_g_bds_per_group (v : Z) (x : group) : group :=
  mk_group v (g_users x) (g_bdbuf x).
Definition set_g_users (v : Z) (x : group) : group :=
  mk_group (g_bds_per_group x) v (g_bdbuf x).
Definition set_g_bdbuf (v : nat) (x : group) : group :=
  mk_group (g_bds_per_group x) (g_users x) v.

(** [rtems_blkdev_stats] *)
Record stats := mk_stats {
  read_hits : Z;
  read_misses : Z;
  read_ahead_transfers : Z;
  read_ahead_peeks : Z;
  read_blocks : Z;
  read_errors : Z;
  write_transfers : Z;
  write_blocks : Z;
  write_errors : Z
}.
Definition set_read_hits (v : Z) (x : stats) : stats :=
  mk_stats v (read_misses x) (read_ahead_transfers x) (read_ahead_peeks x) (read_blocks x) (read_errors x) (write_transfers x) (write_blocks x) (write_errors x).
Definition set_read_misses (v : Z) (x : stats) : stats :=
  mk_stats (read_hits x) v (read_ahead_transfers x) (read_ahead_peeks x) (read_blocks x) (read_errors x) (write_transfers x) (write_blocks x) (write_errors x).
Definition set_read_ahead_transfers (v : Z) (x : stats) : stats :=
  mk_stats (read_hits x) (read_misses x) v (read_ahead_peeks x) (read_blocks x) (read_errors x) (write_transfers x) (write_blocks x) (write_errors x).
Definition set_read_ahead_peeks (v : Z) (x : stats) : stats :=
  mk_stats (read_hits x) (read_misses x) (read_ahead_transfers x) v (read_blocks x) (read_errors x) (write_transfers x) (write_blocks x) (write_errors x).
Definition set_read_blocks (v : Z) (x : stats) : stats :=
  mk_stats (read_hits x) (read_misses x) (read_ahead_transfers x) (read_ahead_peeks x) v (read_errors x) (write_transfers x) (write_blocks x) (write_errors x).
Definition set_read_errors (v : Z) (x : stats) : stats :=
  mk_stats (read_hits x) (read_misses x) (read_ahead_transfers x) (read_ahead_peeks x) (read_blocks x) v (write_transfers x) (write_blocks x) (write_errors x).
Definition set_write_transfers (v : Z) (x : stats) : stats :=
  mk_stats (read_hits x) (read_misses x) (read_ahead_transfers x) (read_ahead_peeks x) (read_blocks x) (read_errors x) v (write_blocks x) (write_errors x).
Definition set_write_blocks (v : Z) (x : stats) : stats :=
  mk_stats (read_hits x) (read_misses x) (read_ahead_transfers x) (read_ahead_peeks x) (read_blocks x) (read_errors x) (write_transfers x) v (write_errors x).
Definition set_write_errors (v : Z) (x : stats) : stats :=
  mk_stats (read_hits x) (read_misses x) (read_ahead_transfers x) (read_ahead_peeks x) (read_blocks x) (read_errors x) (write_transfers x) (write_blocks x) v.

(** [rtems_disk_device] with its [rtems_blkdev_read_ahead] *)
Record disk := mk_disk {
  phys_dev : Z;
  capabilities : Z;
  start : Z;
  dd_size : Z;
  media_block_size : Z;
  block_size : Z;
  block_count : Z;
  media_blocks_per_block : Z;
  block_to_media_block_shift : Z;
  bds_per_group : Z;
  dd_stats : stats;  (* stats *)
  ra_linked : bool;  (* read_ahead.node is on the chain *)
  ra_trigger : Z;  (* read_ahead.trigger *)
  ra_next : Z;  (* read_ahead.next *)
  ra_nr_blocks : Z  (* read_ahead.nr_blocks *)
}.
Definition set_phys_dev (v : Z) (x : disk) : disk :=
  mk_disk v (capabilities x) (start x) (dd_size x) (media_block_size x) (block_size x) (block_count x) (media_blocks_per_block x) (block_to_media_block_shift x) (bds_per_group x) (dd_stats x) (ra_linked x) (ra_trigger x) (ra_next x) (ra_nr_blocks x).
Definition set_capabilities (v : Z) (x : disk) : disk :=
  mk_disk (phys_dev x) v (start x) (dd_size x) (media_block_size x) (block_size x) (block_count x) (media_blocks_per_block x) (block_to_media_block_shift x) (bds_per_group x) (dd_stats x) (ra_linked x) (ra_trigger x) (ra_next x) (ra_nr_blocks x).
Definition set_start (v : Z) (x : disk) : disk :=
  mk_disk (phys_dev x) (capabilities x) v (dd_size x) (media_block_size x) (block_size x) (block_count x) (media_blocks_per_block x) (block_to_media_block_shift x) (bds_per_group x) (dd_stats x) (ra_linked x) (ra_trigger x) (ra_next x) (ra_nr_blocks x).
Definition set_dd_size (v : Z) (x : disk) : disk :=
  mk_disk (phys_dev x) (capabilities x) (start x) v (media_block_size x) (block_size x) (block_count x) (media_blocks_per_block x) (block_to_media_block_shift x) (bds_per_group x) (dd_stats x) (ra_linked x) (ra_trigger x) (ra_next x) (ra_nr_blocks x).
Definition set_media_block_size (v : Z) (x : disk) : disk :=
  mk_disk (phys_dev x) (capabilities x) (start x) (dd_size x) v (block_size x) (block_count x) (media_blocks_per_block x) (block_to_media_block_shift x) (bds_per_group x) (dd_stats x) (ra_linked x) (ra_trigger x) (ra_next x) (ra_nr_blocks x).
Definition set_block_size (v : Z) (x : disk) : disk :=
  mk_disk (phys_dev x) (capabilities x) (start x) (dd_size x) (media_block_size x) v (block_count x) (media_blocks_per_block x) (block_to_media_block_shift x) (bds_per_group x) (dd_stats x) (ra_linked x) (ra_trigger x) (ra_next x) (ra_nr_blocks x).
Definition set_block_count (v : Z) (x : disk) : disk :=
  mk_disk (phys_dev x) (capabilities x) (start x) (dd_size x) (media_block_size x) (block_size x) v (media_blocks_per_block x) (block_to_media_block_shift x) (bds_per_group x) (dd_stats x) (ra_linked x) (ra_trigger x) (ra_next x) (ra_nr_blocks x).
Definition set_media_blocks_per_block (v : Z) (x : disk) : disk :=
  mk_disk (phys_dev x) (capabilities x) (start x) (dd_size x) (media_block_size x) (block_size x) (block_count x) v (block_to_media_block_shift x) (bds_per_group x) (dd_stats x) (ra_linked x) (ra_trigger x) (ra_next x) (ra_nr_blocks x).
Definition set_block_to_media_block_shift (v : Z) (x : disk) : disk :=
  mk_disk (phys_dev x) (capabilities x) (start x) (dd_size x) (media_block_size x) (block_size x) (block_count x) (media_blocks_per_block x) v (bds_per_group x) (dd_stats x) (ra_linked x) (ra_trigger x) (ra_next x) (ra_nr_blocks x).
Definition set_bds_per_group (v : Z) (x : disk) : disk :=
  mk_disk (phys_dev x) (capabilities x) (start x) (dd_size x) (media_block_size x) (block_size x) (block_count x) (media_blocks_per_block x) (block_to_media_block_shift x) v (dd_stats x) (ra_linked x) (ra_trigger x) (ra_next x) (ra_nr_blocks x).
Definition set_dd_stats (v : stats) (x : disk) : disk :=
  mk_disk (phys_dev x) (capabilities x) (start x) (dd_size x) (media_block_size x) (block_size x) (block_count x) (media_blocks_per_block x) (block_to_media_block_shift x) (bds_per_group x) v (ra_linked x) (ra_trigger x) (ra_next x) (ra_nr_blocks x).
Definition set_ra_linked (v : bool) (x : disk) : disk :=
  mk_disk (phys_dev x) (capabilities x) (start x) (dd_size x) (media_block_size x) (block_size x) (block_count x) (media_blocks_per_block x) (block_to_media_block_shift x) (bds_per_group x) (dd_stats x) v (ra_trigger x) (ra_next x) (ra_nr_blocks x).
Definition set_ra_trigger (v : Z) (x : disk) : disk :=
  mk_disk (phys_dev x) (capabilities x) (start x) (dd_size x) (media_block_size x) (block_size x) (block_count x) (media_blocks_per_block x) (block_to_media_block_shift x) (bds_per_group x) (dd_stats x) (ra_linked x) v (ra_next x) (ra_nr_blocks x).
Definition set_ra_next (v : Z) (x : disk) : disk :=
  mk_disk (phys_dev x) (capabilities x) (start x) (dd_size x) (media_block_size x) (block_size x) (block_count x) (media_blocks_per_block x) (block_to_media_block_shift x) (bds_per_group x) (dd_stats x) (ra_linked x) (ra_trigger x) v (ra_nr_blocks x).
Definition set_ra_nr_blocks (v : Z) (x : disk) : disk :=
  mk_disk (phys_dev x) (capabilities x) (start x) (dd_size x) (media_block_size x) (block_size x) (block_count x) (media_blocks_per_block x) (block_to_media_block_shift x) (bds_per_group x) (dd_stats x) (ra_linked x) (ra_trigger x) (ra_next x) v.

(** [rtems_bdbuf_waiters] *)
Record waiters := mk_waiters {
  w_count : Z;  (* threads in pthread_cond_wait *)
  w_broadcasts : Z  (* broadcasts made so far *)
}.
Definition set_w_count (v : Z) (x : waiters) : waiters :=
  mk_waiters v (w_broadcasts x).
Definition set_w_broadcasts (v : Z) (x : waiters) : waiters :=
  mk_waiters (w_count x) v.

(** [rtems_bdbuf_swapout_transfer] *)
Record transfer := mk_transfer {
  t_bds : list nat;  (* bds *)
  t_dd : Z;  (* dd *)
  t_syncing : bool  (* syncing *)
}.
Definition set_t_bds (v : list nat) (x : transfer) : transfer :=
  mk_transfer v (t_dd x) (t_syncing x).
Definition set_t_dd (v : Z) (x : transfer) : transfer :=
  mk_transfer (t_bds x) v (t_syncing x).
Definition set_t_syncing (v : bool) (x : transfer) : transfer :=
  mk_transfer (t_bds x) (t_dd x) v.

(** [rtems_bdbuf_swapout_worker] *)
Record worker := mk_worker {
  wk_sem : Z;  (* posts not yet consumed *)
  wk_enabled : bool;
  wk_transfer : transfer
}.
Definition set_wk_sem (v : Z) (x : worker) : worker :=
  mk_worker v (wk_enabled x) (wk_transfer x).
Definition set_wk_enabled (v : bool) (x : worker) : worker :=
  mk_worker (wk_sem x) v (wk_transfer x).
Definition set_wk_transfer (v : transfer) (x : worker) : worker :=
  mk_worker (wk_sem x) (wk_enabled x) v.


(** One [ioctl] a driver gets, in the order of the calls, and the end of a
    transfer, which the driver reports. *)
Inductive io :=
| IoRead (dd : Z) (bufs : list nat)
| IoWrite (dd : Z) (bufs : list nat)
| IoSync (dd : Z)
| IoDone (dd : Z).

Inductive waiter_kind := AccessWaiters | TransferWaiters | BufferWaiters.


(** [rtems_bdbuf_cache] *)
Record cache := mk_cache {
  swapout_sync : Z;  (* semaphore *)
  swapout_enabled : bool;
  swapout_free_workers : list nat;
  bds : list bd;
  buffer_min_count : Z;
  max_bds_per_group : Z;
  sync_active : bool;
  sync_requester : option nat;
  sync_device : Z;
  tree : avl;
  lru : list nat;
  modified : list nat;
  sync : list nat;
  access_waiters : waiters;
  transfer_waiters : waiters;
  buffer_waiters : waiters;
  swapout_transfer : transfer;
  workers : list worker;  (* swapout_workers *)
  group_count : Z;
  groups : list group;
  read_ahead_sem : Z;
  read_ahead_chain : list Z;
  read_ahead_enabled : bool;
  disks : gmap Z disk;  (* the devices the pointers lead to *)
  posted : list nat;  (* sync requesters posted *)
  ios : list io;  (* driver calls made so far, and transfers ended *)
  buffers : list Z;  (* the bytes of the buffer memory *)
  media : gmap Z (list Z)  (* what the media of the physical devices hold *)
}.
Definition set_swapout_sync (v : Z) (x : cache) : cache :=
  mk_cache v (swapout_enabled x) (swapout_free_workers x) (bds x) (buffer_min_count x) (max_bds_per_group x) (sync_active x) (sync_requester x) (sync_device x) (tree x) (lru x) (modified x) (sync x) (access_waiters x) (transfer_waiters x) (buffer_waiters x) (swapout_transfer x) (workers x) (group_count x) (groups x) (read_ahead_sem x) (read_ahead_chain x) (read_ahead_enabled x) (disks x) (posted x) (ios x) (buffers x) (media x).
Definition set_swapout_enabled (v : bool) (x : cache) : cache :=
  mk_cache (swapout_sync x) v (swapout_free_workers x) (bds x) (buffer_min_count x) (max_bds_per_group x) (sync_active x) (sync_requester x) (sync_device x) (tree x) (lru x) (modified x) (sync x) (access_waiters x) (transfer_waiters x) (buffer_waiters x) (swapout_transfer x) (workers x) (group_count x) (groups x) (read_ahead_sem x) (read_ahead_chain x) (read_ahead_enabled x) (disks x) (posted x) (ios x) (buffers x) (media x).
Definition set_swapout_free_workers (v : list nat) (x : cache) : cache :=
  mk_cache (swapout_sync x) (swapout_enabled x) v (bds x) (buffer_min_count x) (max_bds_per_group x) (sync_active x) (sync_requester x) (sync_device x) (tree x) (lru x) (modified x) (sync x) (access_waiters x) (transfer_waiters x) (buffer_waiters x) (swapout_transfer x) (workers x) (group_count x) (groups x) (read_ahead_sem x) (read_ahead_chain x) (read_ahead_enabled x) (disks x) (posted x) (ios x) (buffers x) (media x).
Definition set_bds (v : list bd) (x : cache) : cache :=
  mk_cache (swapout_sync x) (swapout_enabled x) (swapout_free_workers x) v (buffer_min_count x) (max_bds_per_group x) (sync_active x) (sync_requester x) (sync_device x) (tree x) (lru x) (modified x) (sync x) (access_waiters x) (transfer_waiters x) (buffer_waiters x) (swapout_transfer x) (workers x) (group_count x) (groups x) (read_ahead_sem x) (read_ahead_chain x) (read_ahead_enabled x) (disks x) (posted x) (ios x) (buffers x) (media x).
Definition set_buffer_min_count (v : Z) (x : cache) : cache :=
  mk_cache (swapout_sync x) (swapout_enabled x) (swapout_free_workers x) (bds x) v (max_bds_per_group x) (sync_active x) (sync_requester x) (sync_device x) (tree x) (lru x) (modified x) (sync x) (access_waiters x) (transfer_waiters x) (buffer_waiters x) (swapout_transfer x) (workers x) (group_count x) (groups x) (read_ahead_sem x) (read_ahead_chain x) (read_ahead_enabled x) (disks x) (posted x) (ios x) (buffers x) (media x).
Definition set_max_bds_per_group (v : Z) (x : cache) : cache :=
  mk_cache (swapout_sync x) (swapout_enabled x) (swapout_free_workers x) (bds x) (buffer_min_count x) v (sync_active x) (sync_requester x) (sync_device x) (tree x) (lru x) (modified x) (sync x) (access_waiters x) (transfer_waiters x) (buffer_waiters x) (swapout_transfer x) (workers x) (group_count x) (groups x) (read_ahead_sem x) (read_ahead_chain x) (read_ahead_enabled x) (disks x) (posted x) (ios x) (buffers x) (media x).
Definition set_sync_active (v : bool) (x : cache) : cache :=
  mk_cache (swapout_sync x) (swapout_enabled x) (swapout_free_workers x) (bds x) (buffer_min_count x) (max_bds_per_group x) v (sync_requester x) (sync_device x) (tree x) (lru x) (modified x) (sync x) (access_waiters x) (transfer_waiters x) (buffer_waiters x) (swapout_transfer x) (workers x) (group_count x) (groups x) (read_ahead_sem x) (read_ahead_chain x) (read_ahead_enabled x) (disks x) (posted x) (ios x) (buffers x) (media x).
Definition set_sync_requester (v : option nat) (x : cache) : cache :=
  mk_cache (swapout_sync x) (swapout_enabled x) (swapout_free_workers x) (bds x) (buffer_min_count x) (max_bds_per_group x) (sync_active x) v (sync_device x) (tree x) (lru x) (modified x) (sync x) (access_waiters x) (transfer_waiters x) (buffer_waiters x) (swapout_transfer x) (workers x) (group_count x) (groups x) (read_ahead_sem x) (read_ahead_chain x) (read_ahead_enabled x) (disks x) (posted x) (ios x) (buffers x) (media x).
Definition set_sync_device (v : Z) (x : cache) : cache :=
  mk_cache (swapout_sync x) (swapout_enabled x) (swapout_free_workers x) (bds x) (buffer_min_count x) (max_bds_per_group x) (sync_active x) (sync_requester x) v (tree x) (lru x) (modified x) (sync x) (access_waiters x) (transfer_waiters x) (buffer_waiters x) (swapout_transfer x) (workers x) (group_count x) (groups x) (read_ahead_sem x) (read_ahead_chain x) (read_ahead_enabled x) (disks x) (posted x) (ios x) (buffers x) (media x).
Definition set_tree (v : avl) (x : cache) : cache :=
  mk_cache (swapout_sync x) (swapout_enabled x) (swapout_free_workers x) (bds x) (buffer_min_count x) (max_bds_per_group x) (sync_active x) (sync_requester x) (sync_device x) v (lru x) (modified x) (sync x) (access_waiters x) (transfer_waiters x) (buffer_waiters x) (swapout_transfer x) (workers x) (group_count x) (groups x) (read_ahead_sem x) (read_ahead_chain x) (read_ahead_enabled x) (disks x) (posted x) (ios x) (buffers x) (media x).
Definition set_lru (v : list nat) (x : cache) : cache :=
  mk_cache (swapout_sync x) (swapout_enabled x) (swapout_free_workers x) (bds x) (buffer_min_count x) (max_bds_per_group x) (sync_active x) (sync_requester x) (sync_device x) (tree x) v (modified x) (sync x) (access_waiters x) (transfer_waiters x) (buffer_waiters x) (swapout_transfer x) (workers x) (group_count x) (groups x) (read_ahead_sem x) (read_ahead_chain x) (read_ahead_enabled x) (disks x) (posted x) (ios x) (buffers x) (media x).
Definition set_modified (v : list nat) (x : cache) : cache :=
  mk_cache (swapout_sync x) (swapout_enabled x) (swapout_free_workers x) (bds x) (buffer_min_count x) (max_bds_per_group x) (sync_active x) (sync_requester x) (sync_device x) (tree x) (lru x) v (sync x) (access_waiters x) (transfer_waiters x) (buffer_waiters x) (swapout_transfer x) (workers x) (group_count x) (groups x) (read_ahead_sem x) (read_ahead_chain x) (read_ahead_enabled x) (disks x) (posted x) (ios x) (buffers x) (media x).
Definition set_sync (v : list nat) (x : cache) : cache :=
  mk_cache (swapout_sync x) (swapout_enabled x) (swapout_free_workers x) (bds x) (buffer_min_count x) (max_bds_per_group x) (sync_active x) (sync_requester x) (sync_device x) (tree x) (lru x) (modified x) v (access_waiters x) (transfer_waiters x) (buffer_waiters x) (swapout_transfer x) (workers x) (group_count x) (groups x) (read_ahead_sem x) (read_ahead_chain x) (read_ahead_enabled x) (disks x) (posted x) (ios x) (buffers x) (media x).
Definition set_access_waiters (v : waiters) (x : cache) : cache :=
  mk_cache (swapout_sync x) (swapout_enabled x) (swapout_free_workers x) (bds x) (buffer_min_count x) (max_bds_per_group x) (sync_active x) (sync_requester x) (sync_device x) (tree x) (lru x) (modified x) (sync x) v (transfer_waiters x) (buffer_waiters x) (swapout_transfer x) (workers x) (group_count x) (groups x) (read_ahead_sem x) (read_ahead_chain x) (read_ahead_enabled x) (disks x) (posted x) (ios x) (buffers x) (media x).
Definition set_transfer_waiters (v : waiters) (x : cache) : cache :=
  mk_cache (swapout_sync x) (swapout_enabled x) (swapout_free_workers x) (bds x) (buffer_min_count x) (max_bds_per_group x) (sync_active x) (sync_requester x) (sync_device x) (tree x) (lru x) (modified x) (sync x) (access_waiters x) v (buffer_waiters x) (swapout_transfer x) (workers x) (group_count x) (groups x) (read_ahead_sem x) (read_ahead_chain x) (read_ahead_enabled x) (disks x) (posted x) (ios x) (buffers x) (media x).
Definition set_buffer_waiters (v : waiters) (x : cache) : cache :=
  mk_cache (swapout_sync x) (swapout_enabled x) (swapout_free_workers x) (bds x) (buffer_min_count x) (max_bds_per_group x) (sync_active x) (sync_requester x) (sync_device x) (tree x) (lru x) (modified x) (sync x) (access_waiters x) (transfer_waiters x) v (swapout_transfer x) (workers x) (group_count x) (groups x) (read_ahead_sem x) (read_ahead_chain x) (read_ahead_enabled x) (disks x) (posted x) (ios x) (buffers x) (media x).
Definition set_swapout_transfer (v : transfer) (x : cache) : cache :=
  mk_cache (swapout_sync x) (swapout_enabled x) (swapout_free_workers x) (bds x) (buffer_min_count x) (max_bds_per_group x) (sync_active x) (sync_requester x) (sync_device x) (tree x) (lru x) (modified x) (sync x) (access_waiters x) (transfer_waiters x) (buffer_waiters x) v (workers x) (group_count x) (groups x) (read_ahead_sem x) (read_ahead_chain x) (read_ahead_enabled x) (disks x) (posted x) (ios x) (buffers x) (media x).
Definition set_workers (v : list worker) (x : cache) : cache :=
  mk_cache (swapout_sync x) (swapout_enabled x) (swapout_free_workers x) (bds x) (buffer_min_count x) (max_bds_per_group x) (sync_active x) (sync_requester x) (sync_device x) (tree x) (lru x) (modified x) (sync x) (access_waiters x) (transfer_waiters x) (buffer_waiters x) (swapout_transfer x) v (group_count x) (groups x) (read_ahead_sem x) (read_ahead_chain x) (read_ahead_enabled x) (disks x) (posted x) (ios x) (buffers x) (media x).
Definition set_group_count (v : Z) (x : cache) : cache :=
  mk_cache (swapout_sync x) (swapout_enabled x) (swapout_free_workers x) (bds x) (buffer_min_count x) (max_bds_per_group x) (sync_active x) (sync_requester x) (sync_device x) (tree x) (lru x) (modified x) (sync x) (access_waiters x) (transfer_waiters x) (buffer_waiters x) (swapout_transfer x) (workers x) v (groups x) (read_ahead_sem x) (read_ahead_chain x) (read_ahead_enabled x) (disks x) (posted x) (ios x) (buffers x) (media x).
Definition set_groups (v : list group) (x : cache) : cache :=
  mk_cache (swapout_sync x) (swapout_enabled x) (swapout_free_workers x) (bds x) (buffer_min_count x) (max_bds_per_group x) (sync_active x) (sync_requester x) (sync_device x) (tree x) (lru x) (modified x) (sync x) (access_waiters x) (transfer_waiters x) (buffer_waiters x) (swapout_transfer x) (workers x) (group_count x) v (read_ahead_sem x) (read_ahead_chain x) (read_ahead_enabled x) (disks x) (posted x) (ios x) (buffers x) (media x).
Definition set_read_ahead_sem (v : Z) (x : cache) : cache :=
  mk_cache (swapout_sync x) (swapout_enabled x) (swapout_free_workers x) (bds x) (buffer_min_count x) (max_bds_per_group x) (sync_active x) (sync_requester x) (sync_device x) (tree x) (lru x) (modified x) (sync x) (access_waiters x) (transfer_waiters x) (buffer_waiters x) (swapout_transfer x) (workers x) (group_count x) (groups x) v (read_ahead_chain x) (read_ahead_enabled x) (disks x) (posted x) (ios x) (buffers x) (media x).
Definition set_read_ahead_chain (v : list Z) (x : cache) : cache :=
  mk_cache (swapout_sync x) (swapout_enabled x) (swapout_free_workers x) (bds x) (buffer_min_count x) (max_bds_per_group x) (sync_active x) (sync_requester x) (sync_device x) (tree x) (lru x) (modified x) (sync x) (access_waiters x) (transfer_waiters x) (buffer_waiters x) (swapout_transfer x) (workers x) (group_count x) (groups x) (read_ahead_sem x) v (read_ahead_enabled x) (disks x) (posted x) (ios x) (buffers x) (media x).
Definition set_read_ahead_enabled (v : bool) (x : cache) : cache :=
  mk_cache (swapout_sync x) (swapout_enabled x) (swapout_free_workers x) (bds x) (buffer_min_count x) (max_bds_per_group x) (sync_active x) (sync_requester x) (sync_device x) (tree x) (lru x) (modified x) (sync x) (access_waiters x) (transfer_waiters x) (buffer_waiters x) (swapout_transfer x) (workers x) (group_count x) (groups x) (read_ahead_sem x) (read_ahead_chain x) v (disks x) (posted x) (ios x) (buffers x) (media x).
Definition set_disks (v : gmap Z disk) (x : cache) : cache :=
  mk_cache (swapout_sync x) (swapout_enabled x) (swapout_free_workers x) (bds x) (buffer_min_count x) (max_bds_per_group x) (sync_active x) (sync_requester x) (sync_device x) (tree x) (lru x) (modified x) (sync x) (access_waiters x) (transfer_waiters x) (buffer_waiters x) (swapout_transfer x) (workers x) (group_count x) (groups x) (read_ahead_sem x) (read_ahead_chain x) (read_ahead_enabled x) v (posted x) (ios x) (buffers x) (media x).
Definition set_posted (v : list nat) (x : cache) : cache :=
  mk_cache (swapout_sync x) (swapout_enabled x) (swapout_free_workers x) (bds x) (buffer_min_count x) (max_bds_per_group x) (sync_active x) (sync_requester x) (sync_device x) (tree x) (lru x) (modified x) (sync x) (access_waiters x) (transfer_waiters x) (buffer_waiters x) (swapout_transfer x) (workers x) (group_count x) (groups x) (read_ahead_sem x) (read_ahead_chain x) (read_ahead_enabled x) (disks x) v (ios x) (buffers x) (media x).
Definition set_ios (v : list io) (x : cache) : cache :=
  mk_cache (swapout_sync x) (swapout_enabled x) (swapout_free_workers x) (bds x) (buffer_min_count x) (max_bds_per_group x) (sync_active x) (sync_requester x) (sync_device x) (tree x) (lru x) (modified x) (sync x) (access_waiters x) (transfer_waiters x) (buffer_waiters x) (swapout_transfer x) (workers x) (group_count x) (groups x) (read_ahead_sem x) (read_ahead_chain x) (read_ahead_enabled x) (disks x) (posted x) v (buffers x) (media x).
Definition set_buffers (v : list Z) (x : cache) : cache :=
  mk_cache (swapout_sync x) (swapout_enabled x) (swapout_free_workers x) (bds x) (buffer_min_count x) (max_bds_per_group x) (sync_active x) (sync_requester x) (sync_device x) (tree x) (lru x) (modified x) (sync x) (access_waiters x) (transfer_waiters x) (buffer_waiters x) (swapout_transfer x) (workers x) (group_count x) (groups x) (read_ahead_sem x) (read_ahead_chain x) (read_ahead_enabled x) (disks x) (posted x) (ios x) v (media x).
Definition set_media (v : gmap Z (list Z)) (x : cache) : cache :=
  mk_cache (swapout_sync x) (swapout_enabled x) (swapout_free_workers x) (bds x) (buffer_min_count x) (max_bds_per_group x) (sync_active x) (sync_requester x) (sync_device x) (tree x) (lru x) (modified x) (sync x) (access_waiters x) (transfer_waiters x) (buffer_waiters x) (swapout_transfer x) (workers x) (group_count x) (groups x) (read_ahead_sem x) (read_ahead_chain x) (read_ahead_enabled x) (disks x) (posted x) (ios x) (buffers x) v.


(** ** The monad of the operations *)

Record env := mk_env { ev_act : list nat -> cache -> cache; ev_status : Z }.

(** [Fatal]: a failed assertion of [rtems_bdbuf_fatal], with its code;
    [Diverged]: a loop used up its fuel. *)
Inductive fatal_code :=
| FATAL_RECYCLE | FATAL_TREE_RM | FATAL_STATE (n : nat) | FATAL_SWAPOUT_RE | FATAL_OTHER.

Inductive result (A : Type) :=
| Ret (a : A) (c : cache) (o : list env)
| Fatal (f : fatal_code)
| Blocked
| Invalid
| Diverged.
Arguments Ret {A} a c o.
Arguments Fatal {A} f.
Arguments Blocked {A}.
Arguments Invalid {A}.
Arguments Diverged {A}.

Definition M (A : Type) := cache -> list env -> result A.

#[export] Instance M_ret : MRet M := fun A a c o => Ret a c o.
#[export] Instance M_bind : MBind M := fun A B k m c o =>
  match m c o with
  | Ret a c o => k a c o
  | Fatal f => Fatal f
  | Blocked => Blocked
  | Invalid => Invalid
  | Diverged => Diverged
  end.

Definition fatal {A} (f : fatal_code) : M A := fun _ _ => Fatal f.
Definition invalid {A} : M A := fun _ _ => Invalid.
Definition get_cache : M cache := fun c o => Ret c c o.
Definition modify (f : cache -> cache) : M unit := fun c o => Ret tt (f c) o.

(** A point where the other threads run; the status of the driver. *)
Definition yield (claims : list nat) : M Z := fun c o =>
  match o with
  | [] => Blocked
  | e :: o => Ret (ev_status e) (ev_act e claims c) o
  end.

(** Reading through a pointer. *)
Definition from_option_M {A} (m : option A) : M A :=
  match m with Some a => mret a | None => invalid end.
Definition get_bd (i : nat) : M bd := c ← get_cache; from_option_M (bds c !! i).
Definition get_group (g : nat) : M group := c ← get_cache; from_option_M (groups c !! g).
Definition get_disk (d : Z) : M disk := c ← get_cache; from_option_M (disks c !! d).

Definition upd_bd (i : nat) (f : bd -> bd) : M unit :=
  b ← get_bd i; modify (fun c => set_bds (<[i := f b]> (bds c)) c).
Definition upd_group (g : nat) (f : group -> group) : M unit :=
  b ← get_group g; modify (fun c => set_groups (<[g := f b]> (groups c)) c).
Definition upd_disk (d : Z) (f : disk -> disk) : M unit :=
  b ← get_disk d; modify (fun c => set_disks (<[d := f b]> (disks c)) c).

(** A loop that leaves with [Some]. *)
Fixpoint loop {A} (fuel : nat) (body : M (option A)) : M A :=
  match fuel with
  | O => fun _ _ => Diverged
  | S fuel => r ← body; match r with Some a => mret a | None => loop fuel body end
  end.

(** [while (true)] around a wait: every second turn at least takes an [env]
    step, see [loop_fuel_enough]. *)
Definition while_true {A} (body : M (option A)) : M A :=
  fun c o => loop (2 * length o + 3) body c o.

(** [for] over a list of indices. *)
Fixpoint for_each {A} (l : list A) (f : A -> M unit) : M unit :=
  match l with
  | [] => mret tt
  | a :: l => f a ;; for_each l f
  end.

End BdState.
