(* ===== verification/Bdbuf.v ===== *)
(** * bdbuf.c : getting, reading and releasing buffers

    One definition per function of bdbuf.c up to [rtems_bdbuf_syncdev], in the
    order of the file.  [rtems_bdbuf_lock_cache] and its unlock delimit the
    operations and have no definition; where the lock is given up inside an
    operation there is a [yield]. *)
From Stdlib Require Import ZArith Lia Bool.
From stdpp Require Import base list gmap numbers.
From S2P Require Import Prelude BdbufAvl BdbufState.
Import Avl BdState.

Module Bdbuf.

(** ** Small helpers of the C code *)

Definition rtems_bdbuf_set_state (i : nat) (s : buf_state) : M unit := upd_bd i (set_bd_state s).

(** [rtems_chain_extract_unprotected]: the link of a descriptor is on one of
    the chains of the cache; unlinking one that is on none is invalid. *)
Definition chain_del (i : nat) (l : list nat) : list nat := filter (fun j => j <> i) l.

Definition rtems_chain_extract (i : nat) : M unit :=
  c ← get_cache;
  if decide (i ∈ lru c) then modify (fun c => set_lru (chain_del i (lru c)) c)
  else if decide (i ∈ modified c) then modify (fun c => set_modified (chain_del i (modified c)) c)
  else if decide (i ∈ sync c) then modify (fun c => set_sync (chain_del i (sync c)) c)
  else invalid.

Definition lru_append (i : nat) : M unit := modify (fun c => set_lru (lru c ++ [i]) c).
Definition lru_prepend (i : nat) : M unit := modify (fun c => set_lru (i :: lru c) c).
Definition modified_append (i : nat) : M unit := modify (fun c => set_modified (modified c ++ [i]) c).
Definition sync_append (i : nat) : M unit := modify (fun c => set_sync (sync c ++ [i]) c).

Definition rtems_bdbuf_media_block (dd : disk) (block : Z) : outcome Z :=
  if 0 <=? block_to_media_block_shift dd then
    guard* block_to_media_block_shift dd <? 32 in
    Done (u32 (Z.shiftl block (block_to_media_block_shift dd)))
  else
    guard* negb (media_block_size dd =? 0) in
    Done (u32 (u64 (block * block_size dd) / media_block_size dd)).

Definition rtems_bdbuf_group_obtain (i : nat) : M unit :=
  b ← get_bd i; upd_group (bd_group b) (fun g => set_g_users (g_users g + 1) g).

Definition rtems_bdbuf_group_release (i : nat) : M unit :=
  b ← get_bd i; upd_group (bd_group b) (fun g => set_g_users (g_users g - 1) g).

(** ** Waiting and waking *)

Definition get_waiters (k : waiter_kind) (c : cache) : waiters :=
  match k with
  | AccessWaiters => access_waiters c
  | TransferWaiters => transfer_waiters c
  | BufferWaiters => buffer_waiters c
  end.
Definition upd_waiters (k : waiter_kind) (f : waiters -> waiters) (c : cache) : cache :=
  match k with
  | AccessWaiters => set_access_waiters (f (access_waiters c)) c
  | TransferWaiters => set_transfer_waiters (f (transfer_waiters c)) c
  | BufferWaiters => set_buffer_waiters (f (buffer_waiters c)) c
  end.

Definition rtems_bdbuf_anonymous_wait (claims : list nat) (k : waiter_kind) : M unit :=
  modify (upd_waiters k (fun w => set_w_count (w_count w + 1) w)) ;;
  _ ← yield claims;
  modify (upd_waiters k (fun w => set_w_count (w_count w - 1) w)).

Definition rtems_bdbuf_wait (i : nat) (k : waiter_kind) : M unit :=
  rtems_bdbuf_group_obtain i ;;
  upd_bd i (fun b => set_bd_waiters (bd_waiters b + 1) b) ;;
  rtems_bdbuf_anonymous_wait [i] k ;;
  upd_bd i (fun b => set_bd_waiters (bd_waiters b - 1) b) ;;
  rtems_bdbuf_group_release i.

Definition rtems_bdbuf_wake (k : waiter_kind) : M unit :=
  c ← get_cache;
  if w_count (get_waiters k c) >? 0
  then modify (upd_waiters k (fun w => set_w_broadcasts (w_broadcasts w + 1) w))
  else mret tt.

Definition rtems_bdbuf_wake_swapper : M unit :=
  modify (fun c => set_swapout_sync (swapout_sync c + 1) c).

Definition rtems_bdbuf_has_buffer_waiters (c : cache) : bool :=
  negb (w_count (buffer_waiters c) =? 0).

(** ** Tree and chains *)

Definition rtems_bdbuf_remove_from_tree (i : nat) : M unit :=
  b ← get_bd i; c ← get_cache;
  match rtems_bdbuf_avl_remove (tree c) (mk_node i (bd_dd b) (bd_block b)) with
  | Done (t, r) =>
      modify (set_tree t) ;;
      if r =? 0 then mret tt else fatal FATAL_TREE_RM
  | _ => invalid
  end.

Definition rtems_bdbuf_remove_from_tree_and_lru_list (i : nat) : M unit :=
  b ← get_bd i;
  (match bd_state b with
   | FREE => mret tt
   | CACHED => rtems_bdbuf_remove_from_tree i
   | _ => fatal (FATAL_STATE 10)
   end) ;;
  rtems_chain_extract i.

Definition rtems_bdbuf_make_free_and_add_to_lru_list (i : nat) : M unit :=
  rtems_bdbuf_set_state i FREE ;; lru_prepend i.

Definition rtems_bdbuf_make_empty (i : nat) : M unit := rtems_bdbuf_set_state i EMPTY.

Definition rtems_bdbuf_make_cached_and_add_to_lru_list (i : nat) : M unit :=
  rtems_bdbuf_set_state i CACHED ;; lru_append i.

Definition rtems_bdbuf_discard_buffer (i : nat) : M unit :=
  rtems_bdbuf_make_empty i ;;
  b ← get_bd i;
  if bd_waiters b =? 0 then
    rtems_bdbuf_remove_from_tree i ;; rtems_bdbuf_make_free_and_add_to_lru_list i
  else mret tt.

(** ** After an access *)

Section Config.
Context (bdbuf_config : bdbuf_config).

Definition rtems_bdbuf_add_to_modified_list_after_access (i : nat) : M unit :=
  c ← get_cache; b ← get_bd i;
  (if sync_active c && (sync_device c =? bd_dd b)
   then _ ← yield [i]; mret tt (* the sync lock is taken and given back *)
   else mret tt) ;;
  b ← get_bd i;
  (match bd_state b with
   | ACCESS_CACHED | ACCESS_EMPTY => upd_bd i (set_bd_hold_timer (swap_block_hold bdbuf_config))
   | _ => mret tt
   end) ;;
  rtems_bdbuf_set_state i MODIFIED ;;
  modified_append i ;;
  c ← get_cache;
  if negb (bd_waiters b =? 0) then rtems_bdbuf_wake AccessWaiters
  else if rtems_bdbuf_has_buffer_waiters c then rtems_bdbuf_wake_swapper
  else mret tt.

(** Who is woken when a buffer comes back. *)
Definition wake_after_access (i : nat) : M unit :=
  b ← get_bd i;
  if negb (bd_waiters b =? 0) then rtems_bdbuf_wake AccessWaiters
  else rtems_bdbuf_wake BufferWaiters.

Definition rtems_bdbuf_add_to_lru_list_after_access (i : nat) : M unit :=
  rtems_bdbuf_group_release i ;;
  rtems_bdbuf_make_cached_and_add_to_lru_list i ;;
  wake_after_access i.

(** [for (bds_per_size = 1; bds_per_size < bufs_per_size; bds_per_size <<= 1)]
    on a 64-bit [size_t]. *)
Fixpoint bds_per_size_loop (fuel : nat) (bds_per_size bufs_per_size : Z) : Z :=
  match fuel with
  | O => bds_per_size
  | S fuel =>
      if bds_per_size <? bufs_per_size
      then bds_per_size_loop fuel (u64 (Z.shiftl bds_per_size 1)) bufs_per_size
      else bds_per_size
  end.

Definition rtems_bdbuf_bds_per_group (max_bds_per_group size : Z) : Z :=
  if size >? buffer_max bdbuf_config then 0
  else
    let bufs_per_size := u64 (u64 (size - 1) / buffer_min bdbuf_config + 1) in
    max_bds_per_group / bds_per_size_loop 64 1 bufs_per_size.

Definition rtems_bdbuf_discard_buffer_after_access (i : nat) : M unit :=
  rtems_bdbuf_group_release i ;;
  rtems_bdbuf_discard_buffer i ;;
  wake_after_access i.

(** ** Getting a buffer *)

(** The descriptors [bdbuf + b * bufs_per_bd] for [b] in [[from, n)]. *)
Definition group_members (first : nat) (bufs_per_bd : Z) (from n : Z) : list nat :=
  (fun b => first + Z.to_nat (b * bufs_per_bd))%nat <$> seqZ from (n - from).

Definition rtems_bdbuf_group_realloc (g : nat) (new_bds_per_group : Z) : M nat :=
  c ← get_cache; gr ← get_group g;
  if (g_bds_per_group gr =? 0) || (new_bds_per_group =? 0) then invalid else
  let bufs_per_bd := max_bds_per_group c / g_bds_per_group gr in
  for_each (group_members (g_bdbuf gr) bufs_per_bd 0 (g_bds_per_group gr))
    rtems_bdbuf_remove_from_tree_and_lru_list ;;
  upd_group g (set_g_bds_per_group new_bds_per_group) ;;
  let bufs_per_bd := max_bds_per_group c / new_bds_per_group in
  for_each (group_members (g_bdbuf gr) bufs_per_bd 1 new_bds_per_group)
    rtems_bdbuf_make_free_and_add_to_lru_list ;;
  (if 1 <? new_bds_per_group then rtems_bdbuf_wake BufferWaiters else mret tt) ;;
  mret (g_bdbuf gr).

Definition rtems_bdbuf_setup_empty_buffer (i : nat) (dd block : Z) : M unit :=
  upd_bd i (set_bd_dd dd) ;; upd_bd i (set_bd_block block) ;; upd_bd i (set_bd_waiters 0) ;;
  c ← get_cache;
  match rtems_bdbuf_avl_insert (tree c) (mk_node i dd block) with
  | Done (t, r) =>
      modify (set_tree t) ;;
      if r =? 0 then rtems_bdbuf_make_empty i else fatal FATAL_RECYCLE
  | _ => invalid
  end.

(** [list_for_each_safe (node, n, &bdbuf_cache.lru)]: nothing changes before
    the turn that returns. *)
Fixpoint get_buffer_from (nodes : list nat) (dd block : Z) : M (option nat) :=
  match nodes with
  | [] => mret None
  | i :: nodes =>
      b ← get_bd i; d ← get_disk dd; g ← get_group (bd_group b);
      empty_bd ←
        (if bd_waiters b =? 0 then
           if g_bds_per_group g =? bds_per_group d then
             rtems_bdbuf_remove_from_tree_and_lru_list i ;; mret (Some i)
           else if g_users g =? 0 then
             e ← rtems_bdbuf_group_realloc (bd_group b) (bds_per_group d); mret (Some e)
           else mret None
         else mret None);
      match empty_bd with
      | Some e => rtems_bdbuf_setup_empty_buffer e dd block ;; mret (Some e)
      | None => get_buffer_from nodes dd block
      end
  end.

Definition rtems_bdbuf_get_buffer_from_lru_list (dd block : Z) : M (option nat) :=
  c ← get_cache; get_buffer_from (lru c) dd block.

(** ** The waits on a buffer *)

(** The two kinds of waits the state of a buffer asks for. *)
Definition wait_kind (s : buf_state) : option waiter_kind :=
  match s with
  | ACCESS_CACHED | ACCESS_EMPTY | ACCESS_MODIFIED | ACCESS_PURGED => Some AccessWaiters
  | SYNC | TRANSFER | TRANSFER_PURGED => Some TransferWaiters
  | _ => None
  end.

Definition rtems_bdbuf_wait_for_access (i : nat) : M unit :=
  while_true (
    b ← get_bd i;
    match bd_state b with
    | MODIFIED => rtems_bdbuf_group_release i ;; rtems_chain_extract i ;; mret (Some tt)
    | CACHED => rtems_chain_extract i ;; mret (Some tt)
    | EMPTY => mret (Some tt)
    | FREE => fatal (FATAL_STATE 7)
    | s => match wait_kind s with
           | Some k => rtems_bdbuf_wait i k ;; mret None
           | None => fatal (FATAL_STATE 7)
           end
    end).

Definition rtems_bdbuf_request_sync_for_modified_buffer (i : nat) : M unit :=
  rtems_bdbuf_set_state i SYNC ;;
  rtems_chain_extract i ;;
  sync_append i ;;
  rtems_bdbuf_wake_swapper.

Definition rtems_bdbuf_wait_for_recycle (i : nat) : M bool :=
  while_true (
    b ← get_bd i;
    match bd_state b with
    | FREE => mret (Some true)
    | MODIFIED => rtems_bdbuf_request_sync_for_modified_buffer i ;; mret None
    | CACHED | EMPTY =>
        if bd_waiters b =? 0 then mret (Some true)
        else rtems_bdbuf_anonymous_wait [] BufferWaiters ;; mret (Some false)
    | s => match wait_kind s with
           | Some k => rtems_bdbuf_wait i k ;; mret None
           | None => fatal (FATAL_STATE 8)
           end
    end).

Definition rtems_bdbuf_wait_for_sync_done (i : nat) : M unit :=
  while_true (
    b ← get_bd i;
    match bd_state b with
    | CACHED | EMPTY | MODIFIED | ACCESS_CACHED | ACCESS_EMPTY | ACCESS_MODIFIED
    | ACCESS_PURGED => mret (Some tt)
    | SYNC | TRANSFER | TRANSFER_PURGED => rtems_bdbuf_wait i TransferWaiters ;; mret None
    | FREE => fatal (FATAL_STATE 9)
    end).

Definition rtems_bdbuf_wait_for_buffer : M unit :=
  c ← get_cache;
  (match modified c with [] => mret tt | _ => rtems_bdbuf_wake_swapper end) ;;
  rtems_bdbuf_anonymous_wait [] BufferWaiters.

Definition rtems_bdbuf_sync_after_access (i : nat) : M unit :=
  rtems_bdbuf_set_state i SYNC ;;
  sync_append i ;;
  b ← get_bd i;
  (if negb (bd_waiters b =? 0) then rtems_bdbuf_wake AccessWaiters else mret tt) ;;
  rtems_bdbuf_wake_swapper ;;
  rtems_bdbuf_wait_for_sync_done i ;;
  b ← get_bd i;
  if (bd_waiters b =? 0) && bool_decide (bd_state b = CACHED \/ bd_state b = EMPTY) then
    (if decide (bd_state b = EMPTY) then
       rtems_bdbuf_remove_from_tree i ;; rtems_bdbuf_make_free_and_add_to_lru_list i
     else mret tt) ;;
    rtems_bdbuf_wake BufferWaiters
  else mret tt.

Definition rtems_bdbuf_get_buffer_for_read_ahead (dd block : Z) : M (option nat) :=
  c ← get_cache;
  match rtems_bdbuf_avl_search (tree c) dd block with
  | None =>
      r ← rtems_bdbuf_get_buffer_from_lru_list dd block;
      match r with
      | Some i => rtems_bdbuf_group_obtain i ;; mret (Some i)
      | None => mret None
      end
  | Some _ => mret None
  end.

Definition rtems_bdbuf_get_buffer_for_access (dd block : Z) : M nat :=
  i ← while_true (
    c ← get_cache;
    match rtems_bdbuf_avl_search (tree c) dd block with
    | Some n =>
        let i := nd_bd n in
        b ← get_bd i; g ← get_group (bd_group b); d ← get_disk dd;
        if negb (g_bds_per_group g =? bds_per_group d) then
          recycle ← rtems_bdbuf_wait_for_recycle i;
          (if recycle : bool then
             rtems_bdbuf_remove_from_tree_and_lru_list i ;;
             rtems_bdbuf_make_free_and_add_to_lru_list i ;;
             rtems_bdbuf_wake BufferWaiters
           else mret tt) ;;
          mret None
        else mret (Some i)
    | None =>
        r ← rtems_bdbuf_get_buffer_from_lru_list dd block;
        match r with
        | Some i => mret (Some i)
        | None => rtems_bdbuf_wait_for_buffer ;; mret None
        end
    end);
  rtems_bdbuf_wait_for_access i ;;
  rtems_bdbuf_group_obtain i ;;
  mret i.

(** The status and, on success, the media block. *)
Definition rtems_bdbuf_get_media_block (dd : disk) (block : Z) : outcome (Z * Z) :=
  if block <? block_count dd then
    let* m := rtems_bdbuf_media_block dd block in
    Done (0, u32 (m + start dd))
  else Done (- EINVAL, 0).

Definition lift {A} (m : outcome A) : M A :=
  match m with Done a => mret a | Assert => fatal FATAL_OTHER | Undef => invalid end.

Definition rtems_bdbuf_get (dd block : Z) : M (Z * option nat) :=
  d ← get_disk dd;
  mb ← lift (rtems_bdbuf_get_media_block d block);
  let '(sc, media_block) := mb in
  if sc =? 0 then
    i ← rtems_bdbuf_get_buffer_for_access dd media_block;
    b ← get_bd i;
    (match bd_state b with
     | CACHED => rtems_bdbuf_set_state i ACCESS_CACHED
     | EMPTY => rtems_bdbuf_set_state i ACCESS_EMPTY
     | MODIFIED => rtems_bdbuf_set_state i ACCESS_MODIFIED
     | _ => fatal (FATAL_STATE 2)
     end) ;;
    mret (sc, Some i)
  else mret (sc, None).

(** ** Transfers *)

(** [rtems_blkdev_request]: the direction and the [user] of each entry of
    [bufs]; [bufnum] is their number. *)
Record request := mk_request { rq_read : bool; rq_bufs : list nat }.

Definition issue (dd : disk) (req : request) : io :=
  if rq_read req then IoRead (phys_dev dd) (rq_bufs req) else IoWrite (phys_dev dd) (rq_bufs req).

(** The statistics of a finished transfer. *)
Definition transfer_stats (req : request) (sc : Z) (s : stats) : stats :=
  let bufnum := len (rq_bufs req) in
  if rq_read req then
    let s := set_read_blocks (u32 (read_blocks s + bufnum)) s in
    if sc =? 0 then s else set_read_errors (u32 (read_errors s + 1)) s
  else
    let s := set_write_blocks (u32 (write_blocks s + bufnum)) s in
    let s := set_write_transfers (u32 (write_transfers s + 1)) s in
    if sc =? 0 then s else set_write_errors (u32 (write_errors s + 1)) s.

(** The loop over the buffers of the request. *)
Definition transfer_finish (sc : Z) (i : nat) : M unit :=
  rtems_bdbuf_group_release i ;;
  b ← get_bd i;
  if (sc =? 0) && bool_decide (bd_state b = TRANSFER)
  then rtems_bdbuf_make_cached_and_add_to_lru_list i
  else rtems_bdbuf_discard_buffer i.

Fixpoint transfer_loop (sc : Z) (bufs : list nat) (wake_transfer wake_buffer : bool)
    : M (bool * bool) :=
  match bufs with
  | [] => mret (wake_transfer, wake_buffer)
  | i :: bufs =>
      b ← get_bd i;
      let waiters := negb (bd_waiters b =? 0) in
      transfer_finish sc i ;;
      transfer_loop sc bufs (wake_transfer || waiters) (wake_buffer || negb waiters)
  end.

(** The driver calls this with the status, which the waiting thread gets. *)
Definition rtems_bdbuf_transfer_done (p : Z) (c : cache) : cache := set_ios (ios c ++ [IoDone p]) c.

(** [rest] are claims of the caller besides the request; the driver works
    while the thread waits for [rtems_bdbuf_transfer_done]. *)
Definition rtems_bdbuf_execute_transfer_request (rest : list nat) (dd : Z) (req : request) : M Z :=
  d ← get_disk dd;
  modify (fun c => set_ios (ios c ++ [issue d req]) c) ;;
  sc ← yield (rq_bufs req ++ rest);
  modify (rtems_bdbuf_transfer_done (phys_dev d)) ;;
  upd_disk dd (fun d => set_dd_stats (transfer_stats req sc (dd_stats d)) d) ;;
  w ← transfer_loop sc (rq_bufs req) false false;
  (if w.1 : bool then rtems_bdbuf_wake TransferWaiters else mret tt) ;;
  (if w.2 : bool then rtems_bdbuf_wake BufferWaiters else mret tt) ;;
  mret (if (sc =? 0) || (sc =? - ENOSYS) then sc else - EIO).

(** The further buffers of a read, [transfer_count - 1] at most. *)
Fixpoint read_request_bufs (n : nat) (dd media_block : Z) : M (list nat) :=
  match n with
  | O => mret []
  | S n =>
      d ← get_disk dd;
      let media_block := u32 (media_block + media_blocks_per_block d) in
      r ← rtems_bdbuf_get_buffer_for_read_ahead dd media_block;
      match r with
      | None => mret []
      | Some i =>
          rtems_bdbuf_set_state i TRANSFER ;;
          l ← read_request_bufs n dd media_block;
          mret (i :: l)
      end
  end.

Definition rtems_bdbuf_execute_read_request (dd : Z) (i : nat) (transfer_count : Z) : M Z :=
  b ← get_bd i;
  rtems_bdbuf_set_state i TRANSFER ;;
  l ← read_request_bufs (Z.to_nat (transfer_count - 1)) dd (bd_block b);
  rtems_bdbuf_execute_transfer_request [] dd (mk_request true (i :: l)).

(** ** Read ahead *)

Definition rtems_bdbuf_is_read_ahead_active (d : disk) : bool := ra_linked d.

Definition rtems_bdbuf_read_ahead_cancel (dd : Z) : M unit :=
  d ← get_disk dd;
  if rtems_bdbuf_is_read_ahead_active d then
    modify (fun c => set_read_ahead_chain (filter (fun x => x <> dd) (read_ahead_chain c)) c) ;;
    upd_disk dd (set_ra_linked false)
  else mret tt.

Definition rtems_bdbuf_read_ahead_reset (dd : Z) : M unit :=
  rtems_bdbuf_read_ahead_cancel dd ;;
  upd_disk dd (set_ra_trigger RTEMS_DISK_READ_AHEAD_NO_TRIGGER).

Definition rtems_bdbuf_read_ahead_add_to_chain (dd : Z) : M unit :=
  c ← get_cache;
  (match read_ahead_chain c with
   | [] => modify (fun c => set_read_ahead_sem (read_ahead_sem c + 1) c)
   | _ => mret tt
   end) ;;
  modify (fun c => set_read_ahead_chain (read_ahead_chain c ++ [dd]) c) ;;
  upd_disk dd (set_ra_linked true).

Definition rtems_bdbuf_check_read_ahead_trigger (dd block : Z) : M unit :=
  d ← get_disk dd;
  if (ra_trigger d =? block) && negb (rtems_bdbuf_is_read_ahead_active d) then
    upd_disk dd (set_ra_nr_blocks RTEMS_DISK_READ_AHEAD_SIZE_AUTO) ;;
    rtems_bdbuf_read_ahead_add_to_chain dd
  else mret tt.

Definition rtems_bdbuf_set_read_ahead_trigger (dd block : Z) : M unit :=
  d ← get_disk dd;
  if negb (ra_trigger d =? block) then
    rtems_bdbuf_read_ahead_cancel dd ;;
    upd_disk dd (fun d => set_ra_next (u32 (block + 2)) (set_ra_trigger (u32 (block + 1)) d))
  else mret tt.

Definition upd_stats (dd : Z) (f : stats -> stats) : M unit :=
  upd_disk dd (fun d => set_dd_stats (f (dd_stats d)) d).

Definition count_read_hit (s : stats) : stats := set_read_hits (u32 (read_hits s + 1)) s.
Definition count_read_miss (s : stats) : stats := set_read_misses (u32 (read_misses s + 1)) s.

Definition rtems_bdbuf_read (dd block : Z) : M (Z * option nat) :=
  d ← get_disk dd;
  mb ← lift (rtems_bdbuf_get_media_block d block);
  let '(sc, media_block) := mb in
  if sc =? 0 then
    i ← rtems_bdbuf_get_buffer_for_access dd media_block;
    b ← get_bd i;
    r ← (match bd_state b with
         | CACHED =>
             upd_stats dd count_read_hit ;; rtems_bdbuf_set_state i ACCESS_CACHED ;;
             mret (sc, Some i)
         | MODIFIED =>
             upd_stats dd count_read_hit ;; rtems_bdbuf_set_state i ACCESS_MODIFIED ;;
             mret (sc, Some i)
         | EMPTY =>
             upd_stats dd count_read_miss ;;
             rtems_bdbuf_set_read_ahead_trigger dd block ;;
             sc ← rtems_bdbuf_execute_read_request dd i 1;
             if sc =? 0 then
               rtems_bdbuf_set_state i ACCESS_CACHED ;;
               rtems_chain_extract i ;;
               rtems_bdbuf_group_obtain i ;;
               mret (sc, Some i)
             else mret (sc, None)
         | _ => fatal (FATAL_STATE 4)
         end);
    rtems_bdbuf_check_read_ahead_trigger dd block ;;
    mret r
  else mret (sc, None).

Definition rtems_bdbuf_peek (dd block nr_blocks : Z) : M unit :=
  c ← get_cache;
  if read_ahead_enabled c && (nr_blocks >? 0) then
    rtems_bdbuf_read_ahead_reset dd ;;
    upd_disk dd (fun d => set_ra_nr_blocks nr_blocks (set_ra_next block d)) ;;
    rtems_bdbuf_read_ahead_add_to_chain dd
  else mret tt.

(** ** Giving a buffer back *)

(** [rtems_bdbuf_check_bd_and_lock_cache]: a NULL buffer is -EINVAL. *)
Definition with_checked_bd (bd : option nat) (k : nat -> M unit) : M Z :=
  match bd with
  | None => mret (- EINVAL)
  | Some i => k i ;; mret 0
  end.

Definition rtems_bdbuf_release (bd : option nat) : M Z :=
  with_checked_bd bd (fun i =>
    b ← get_bd i;
    match bd_state b with
    | ACCESS_CACHED => rtems_bdbuf_add_to_lru_list_after_access i
    | ACCESS_EMPTY | ACCESS_PURGED => rtems_bdbuf_discard_buffer_after_access i
    | ACCESS_MODIFIED => rtems_bdbuf_add_to_modified_list_after_access i
    | _ => fatal (FATAL_STATE 0)
    end).

Definition rtems_bdbuf_release_modified (bd : option nat) : M Z :=
  with_checked_bd bd (fun i =>
    b ← get_bd i;
    match bd_state b with
    | ACCESS_CACHED | ACCESS_EMPTY | ACCESS_MODIFIED =>
        rtems_bdbuf_add_to_modified_list_after_access i
    | ACCESS_PURGED => rtems_bdbuf_discard_buffer_after_access i
    | _ => fatal (FATAL_STATE 6)
    end).

Definition rtems_bdbuf_sync (bd : option nat) : M Z :=
  with_checked_bd bd (fun i =>
    b ← get_bd i;
    match bd_state b with
    | ACCESS_CACHED | ACCESS_EMPTY | ACCESS_MODIFIED => rtems_bdbuf_sync_after_access i
    | ACCESS_PURGED => rtems_bdbuf_discard_buffer_after_access i
    | _ => fatal (FATAL_STATE 5)
    end).

(** [me] names the semaphore on the caller's stack.  The first [yield] is the
    wait for the sync lock, the second the wait for the semaphore, which
    ends when the swapout task has posted it. *)
Definition rtems_bdbuf_syncdev (me : nat) (dd : Z) : M Z :=
  _ ← yield [];
  modify (set_sync_active true) ;;
  modify (set_sync_requester (Some me)) ;;
  modify (set_sync_device dd) ;;
  rtems_bdbuf_wake_swapper ;;
  _ ← yield [];
  c ← get_cache;
  if decide (me ∈ posted c) then
    modify (fun c => set_posted (filter (fun x => x <> me) (posted c)) c) ;; mret 0
  else fun _ _ => Blocked.

End Config.
End Bdbuf.
