(* ===== verification/BdbufSwap.v ===== *)
(** * bdbuf.c : swapout, purge, block size, read ahead, initialisation

    The rest of bdbuf.c, from [rtems_bdbuf_swapout_write] to the end, with
    [rtems_bdbuf_do_init], and the device initialisation of diskdevs.c and the
    ioctl dispatch of bdbuf-ioctl.c.  The bodies of the tasks' endless loops
    are definitions of one turn. *)
From Stdlib Require Import ZArith Lia Bool.
From stdpp Require Import base list gmap numbers.
From S2P Require Import Prelude BdbufAvl BdbufState Bdbuf.
Import Avl BdState Bdbuf.

Module Swap.

Section Config.
Context (bdbuf_config : bdbuf_config).

(** ** Writing a transfer *)

(** The [while] of [rtems_bdbuf_swapout_write]: [bds] is the chain
    [transfer->bds], which only this thread uses, [bufs] the buffers already
    put in the request. *)
Fixpoint swapout_write_loop (fuel : nat) (dd : Z) (need_continuous_blocks : bool)
    (media_blocks_per_block : Z) (bds bufs : list nat) (last_block : Z) : M unit :=
  match fuel with
  | O => fun _ _ => Diverged
  | S fuel =>
      match bds with
      | [] => mret tt
      | i :: rest =>
          b ← get_bd i;
          let back := need_continuous_blocks && negb (bool_decide (bufs = [])) &&
                      negb (bd_block b =? u32 (last_block + media_blocks_per_block)) in
          let bds := if back then bds else rest in
          let bufs := if back then bufs else bufs ++ [i] in
          let last_block := if back then last_block else bd_block b in
          let write := back || bool_decide (bds = []) ||
                       (max_write_blocks bdbuf_config <=? len bufs) in
          if write then
            _ ← yield (bufs ++ bds); (* the cache is not locked here *)
            _ ← rtems_bdbuf_execute_transfer_request bds dd (mk_request false bufs);
            swapout_write_loop fuel dd need_continuous_blocks media_blocks_per_block bds [] last_block
          else
            swapout_write_loop fuel dd need_continuous_blocks media_blocks_per_block bds bufs last_block
      end
  end.

Definition has_cap (cap capabilities : Z) : bool := negb (Z.land capabilities cap =? 0).

Definition rtems_bdbuf_swapout_write (t : transfer) : M unit :=
  match t_bds t with
  | [] => mret tt
  | bds =>
      d ← get_disk (t_dd t);
      p ← get_disk (phys_dev d);
      swapout_write_loop (2 * length bds + 1) (t_dd t)
        (has_cap RTEMS_BLKDEV_CAP_MULTISECTOR_CONT (capabilities p))
        (media_blocks_per_block d) bds [] 0 ;;
      if t_syncing t && has_cap RTEMS_BLKDEV_CAP_SYNC (capabilities p)
      then modify (fun c => set_ios (ios c ++ [IoSync (phys_dev d)]) c)
      else mret tt
  end.

(** ** Choosing what to write *)

(** The two chains the swapout task scans. *)
Inductive chain_id := ModifiedChain | SyncChain.
Definition get_chain (k : chain_id) (c : cache) : list nat :=
  match k with ModifiedChain => modified c | SyncChain => sync c end.

(** The inner [while]: from the tail of the sorted transfer list towards its
    head.  The list is given in reverse. *)
Fixpoint insert_before (blk : nat -> Z) (i : nat) (rev_transfer : list nat) : list nat :=
  match rev_transfer with
  | [] => [i]
  | t :: l => if blk i >? blk t then i :: t :: l else t :: insert_before blk i l
  end.
Definition transfer_insert (blk : nat -> Z) (i : nat) (transfer : list nat) : list nat :=
  rev (insert_before blk i (rev transfer)).

Definition block_of (c : cache) (i : nat) : Z :=
  match bds c !! i with Some b => bd_block b | None => 0 end.

(** The new value of [bd->hold_timer] in a scan. *)
Definition hold_timer_scan (forced update_timers : bool) (timer_delta hold : Z) : Z :=
  let hold := if forced then 0 else hold in
  if hold =? 0 then 0
  else if update_timers then (if hold >? timer_delta then hold - timer_delta else 0)
  else hold.

(** One scan: [nodes] is the rest of the chain, [dd] is [*dd_ptr]. *)
Fixpoint modified_scan (sync_all sync_active update_timers : bool) (timer_delta : Z)
    (nodes : list nat) (dd : Z) (transfer : list nat) : M (Z * list nat) :=
  match nodes with
  | [] => mret (dd, transfer)
  | i :: nodes =>
      c ← get_cache; b ← get_bd i;
      let forced := sync_all || (sync_active && (dd =? bd_dd b)) ||
                    rtems_bdbuf_has_buffer_waiters c in
      let hold := hold_timer_scan forced update_timers timer_delta (bd_hold_timer b) in
      upd_bd i (set_bd_hold_timer hold) ;;
      if negb (hold =? 0) then
        modified_scan sync_all sync_active update_timers timer_delta nodes dd transfer
      else
        let dd := if dd =? BDBUF_INVALID_DEV then bd_dd b else dd in
        if bd_dd b =? dd then
          rtems_bdbuf_set_state i TRANSFER ;;
          rtems_chain_extract i ;;
          c ← get_cache;
          modified_scan sync_all sync_active update_timers timer_delta nodes dd
            (transfer_insert (block_of c) i transfer)
        else
          modified_scan sync_all sync_active update_timers timer_delta nodes dd transfer
  end.

Definition rtems_bdbuf_swapout_modified_processing (dd : Z) (chain : chain_id)
    (transfer : list nat) (sync_active update_timers : bool) (timer_delta : Z)
    : M (Z * list nat) :=
  c ← get_cache;
  modified_scan (sync_active && (dd =? BDBUF_INVALID_DEV)) sync_active update_timers
    timer_delta (get_chain chain c) dd transfer.

(** Where the transfer in use lives. *)
Definition upd_worker (w : nat) (f : worker -> worker) : M unit :=
  c ← get_cache;
  match workers c !! w with
  | Some x => modify (fun c => set_workers (<[w := f x]> (workers c)) c)
  | None => invalid
  end.
Definition store_transfer (w : option nat) (t : transfer) : M unit :=
  match w with
  | None => modify (set_swapout_transfer t)
  | Some w => upd_worker w (set_wk_transfer t)
  end.

Definition rtems_bdbuf_swapout_processing (timer_delta : Z) (update_timers : bool) : M bool :=
  c ← get_cache;
  let active := sync_active c in
  worker ← (if active then mret None
            else match swapout_free_workers c with
                 | [] => mret None
                 | w :: l => modify (set_swapout_free_workers l) ;; mret (Some w)
                 end);
  let dd := if active then sync_device c else BDBUF_INVALID_DEV in
  r ← rtems_bdbuf_swapout_modified_processing dd SyncChain [] true false timer_delta;
  r ← rtems_bdbuf_swapout_modified_processing r.1 ModifiedChain r.2 active update_timers timer_delta;
  let t := mk_transfer r.2 r.1 active in
  store_transfer worker t ;;
  (* the cache is unlocked from here *)
  transfered_buffers ←
    (match t_bds t with
     | [] => mret false
     | _ =>
         (match worker with
          | Some w => upd_worker w (fun x => set_wk_sem (wk_sem x + 1) x)
          | None => rtems_bdbuf_swapout_write t ;; modify (set_swapout_transfer (set_t_bds [] t))
          end) ;; mret true
     end);
  (if active && negb transfered_buffers then
     _ ← yield [];
     c ← get_cache;
     modify (set_sync_active false) ;;
     modify (set_sync_requester None) ;;
     match sync_requester c with
     | Some r => modify (fun c => set_posted (posted c ++ [r]) c)
     | None => mret tt
     end
   else mret tt) ;;
  mret transfered_buffers.

(** One turn of [rtems_bdbuf_swapout_worker_task], after [sem_wait]. *)
Definition rtems_bdbuf_swapout_worker_turn (w : nat) : M unit :=
  upd_worker w (fun x => set_wk_sem (wk_sem x - 1) x) ;;
  c ← get_cache;
  match workers c !! w with
  | None => invalid
  | Some x =>
      rtems_bdbuf_swapout_write (wk_transfer x) ;;
      upd_worker w (fun x =>
        set_wk_transfer (set_t_dd BDBUF_INVALID_DEV (set_t_bds [] (wk_transfer x))) x) ;;
      modify (fun c => set_swapout_free_workers (swapout_free_workers c ++ [w]) c)
  end.

Definition rtems_bdbuf_swapout_workers_close : M unit :=
  c ← get_cache;
  for_each (swapout_free_workers c)
    (fun w => upd_worker w (fun x => set_wk_sem (wk_sem x + 1) (set_wk_enabled false x))).

(** The [do ... while (transfered_buffers)] of the swapout task; the timers
    are updated in its first turn only. *)
Fixpoint swapout_turns (fuel : nat) (timer_delta : Z) (update_timers : bool) : M unit :=
  match fuel with
  | O => fun _ _ => Diverged
  | S fuel =>
      transfered ← rtems_bdbuf_swapout_processing timer_delta update_timers;
      if transfered : bool then swapout_turns fuel timer_delta false else mret tt
  end.

(** [struct timespec]: the deadline the task gives to [sem_timedwait]. *)
Definition swapout_deadline (now : Z * Z) : Z * Z :=
  (now.1 + swapout_period bdbuf_config / 1000,
   now.2 + swapout_period bdbuf_config mod 1000 * 1000 * 1000).

(** [sem_timedwait] refuses a deadline whose nanoseconds are not below 10^9
    with EINVAL; else it waits, and ends with a post or with ETIMEDOUT.  The
    result is [errno], or 0. *)
Definition sem_timedwait (deadline : Z * Z) : M Z :=
  if (0 <=? deadline.2) && (deadline.2 <? 1000000000)
  then s ← yield []; mret (if s =? 0 then 0 else ETIMEDOUT)
  else mret EINVAL.

(** One turn of [rtems_bdbuf_swapout_task] at the time [now]. *)
Definition rtems_bdbuf_swapout_task_turn (fuel : nat) (now : Z * Z) : M unit :=
  swapout_turns fuel (swapout_period bdbuf_config) true ;;
  sc ← sem_timedwait (swapout_deadline now);
  if negb (sc =? 0) && negb (sc =? ETIMEDOUT) then fatal FATAL_SWAPOUT_RE else mret tt.

(** ** Purging *)

Fixpoint rtems_bdbuf_purge_list_loop (purge_list : list nat) (wake : bool) : M bool :=
  match purge_list with
  | [] => mret wake
  | i :: l =>
      b ← get_bd i;
      rtems_bdbuf_discard_buffer i ;;
      rtems_bdbuf_purge_list_loop l (wake || (bd_waiters b =? 0))
  end.

Definition rtems_bdbuf_purge_list (purge_list : list nat) : M unit :=
  wake ← rtems_bdbuf_purge_list_loop purge_list false;
  if wake : bool then rtems_bdbuf_wake BufferWaiters else mret tt.

(** The walk of [rtems_bdbuf_gather_for_purge] over the tree with an explicit
    stack: [prev] holds, innermost first, which child of the node on the
    stack the walk is in and the node's right child. *)
Definition gframe : Type := dir * avl.

(** [while] going up: past a right child, and past a node with no right child; then
    the right child of the node on top. *)
Fixpoint gather_up (prev : list gframe) : option (avl * list gframe) :=
  match prev with
  | [] => None
  | (d, r) :: prev' =>
      match d, r with
      | DLeft, Node _ _ _ _ => Some (r, (DRight, r) :: prev')
      | _, _ => gather_up prev'
      end
  end.

(** [*++prev = cur] in an array of 32 entries, the first of which is NULL *)
Definition gather_push (f : gframe) (prev : list gframe) : outcome (list gframe) :=
  guard* (length prev + 1 <? RTEMS_BDBUF_AVL_MAX_HEIGHT)%nat in Done (f :: prev).

Fixpoint gather_walk (fuel : nat) (cur : avl) (prev : list gframe) (acc : list node)
    : outcome (list node) :=
  match fuel with
  | O => Undef
  | S fuel =>
      match cur with
      | Leaf => Done acc
      | Node l n _ r =>
          let acc := acc ++ [n] in
          match l, r with
          | Node _ _ _ _, _ =>
              let* prev := gather_push (DLeft, r) prev in gather_walk fuel l prev acc
          | Leaf, Node _ _ _ _ =>
              let* prev := gather_push (DRight, r) prev in gather_walk fuel r prev acc
          | Leaf, Leaf =>
              match gather_up prev with
              | Some (t, prev) => gather_walk fuel t prev acc
              | None => Done acc
              end
          end
      end
  end.

(** The nodes in the order the walk visits them. *)
Definition gather_nodes (t : avl) : outcome (list node) :=
  gather_walk (length (inorder t) + 1) t [] [].

(** What happens to one buffer of the device; [true] puts it on the purge
    list. *)
Definition gather_visit (i : nat) : M bool :=
  b ← get_bd i;
  match bd_state b with
  | FREE | EMPTY | ACCESS_PURGED | TRANSFER_PURGED => mret false
  | SYNC =>
      rtems_bdbuf_wake TransferWaiters ;; rtems_bdbuf_group_release i ;;
      rtems_chain_extract i ;; mret true
  | MODIFIED => rtems_bdbuf_group_release i ;; rtems_chain_extract i ;; mret true
  | CACHED => rtems_chain_extract i ;; mret true
  | TRANSFER => rtems_bdbuf_set_state i TRANSFER_PURGED ;; mret false
  | ACCESS_CACHED | ACCESS_EMPTY | ACCESS_MODIFIED =>
      rtems_bdbuf_set_state i ACCESS_PURGED ;; mret false
  end.

Fixpoint gather_visits (dd : Z) (nodes : list node) (purge_list : list nat) : M (list nat) :=
  match nodes with
  | [] => mret purge_list
  | n :: nodes =>
      b ← get_bd (nd_bd n);
      if bd_dd b =? dd then
        p ← gather_visit (nd_bd n);
        gather_visits dd nodes (if p : bool then purge_list ++ [nd_bd n] else purge_list)
      else gather_visits dd nodes purge_list
  end.

Definition rtems_bdbuf_gather_for_purge (dd : Z) : M (list nat) :=
  c ← get_cache;
  nodes ← lift (gather_nodes (tree c));
  gather_visits dd nodes [].

Definition rtems_bdbuf_do_purge_dev (dd : Z) : M unit :=
  rtems_bdbuf_read_ahead_reset dd ;;
  purge_list ← rtems_bdbuf_gather_for_purge dd;
  rtems_bdbuf_purge_list purge_list.

Definition rtems_bdbuf_purge_dev (dd : Z) : M unit := rtems_bdbuf_do_purge_dev dd.

(** ** The block size of a device *)

(** [while ((one << shift) < media_blocks_per_block) ++shift;] on 32 bits; a
    shift by 32 is undefined. *)
Fixpoint media_shift_loop (fuel : nat) (shift media_blocks_per_block : Z) : outcome Z :=
  match fuel with
  | O => Undef
  | S fuel =>
      if Z.shiftl 1 shift <? media_blocks_per_block
      then media_shift_loop fuel (shift + 1) media_blocks_per_block
      else Done shift
  end.

Definition block_geometry (block_size : Z) (bds_per_group : Z) (d : disk) : outcome disk :=
  guard* negb (media_block_size d =? 0) in
  let mbpb := block_size / media_block_size d in
  let* shift := media_shift_loop 32 0 mbpb in
  let shift := if negb (u32 (Z.shiftl (media_block_size d) shift) =? block_size)
               then -1 else shift in
  guard* negb (mbpb =? 0) in
  Done (set_bds_per_group bds_per_group
         (set_block_to_media_block_shift shift
           (set_media_blocks_per_block mbpb
             (set_block_count (dd_size d / mbpb)
               (set_block_size block_size d))))).

Definition rtems_bdbuf_set_block_size (me : nat) (dd block_size : Z) (sync : bool) : M Z :=
  (if sync then _ ← rtems_bdbuf_syncdev me dd; mret tt else mret tt) ;;
  c ← get_cache;
  if block_size >? 0 then
    let n := rtems_bdbuf_bds_per_group bdbuf_config (max_bds_per_group c) block_size in
    if negb (n =? 0) then
      d ← get_disk dd;
      d ← lift (block_geometry block_size n d);
      upd_disk dd (fun _ => d) ;;
      rtems_bdbuf_do_purge_dev dd ;;
      mret 0
    else mret (- EINVAL)
  else mret (- EINVAL).

(** ** Read ahead *)

(** The size of a read-ahead transfer and the next trigger. *)
Definition read_ahead_plan (d : disk) (block : Z) : Z * disk :=
  let until_end := u32 (block_count d - block) in
  let max := max_read_ahead_blocks bdbuf_config in
  if ra_nr_blocks d =? RTEMS_DISK_READ_AHEAD_SIZE_AUTO then
    if until_end >=? max then
      (max, set_ra_next (u32 (block + max)) (set_ra_trigger (u32 (block + max / 2)) d))
    else (until_end, set_ra_trigger RTEMS_DISK_READ_AHEAD_NO_TRIGGER d)
  else
    let n := if ra_nr_blocks d >? until_end then until_end else ra_nr_blocks d in
    let n := if n >? max then max else n in
    (n, set_dd_stats (set_read_ahead_peeks (u32 (read_ahead_peeks (dd_stats d) + 1)) (dd_stats d)) d).

Definition read_ahead_one (dd : Z) : M unit :=
  d ← get_disk dd;
  let block := ra_next d in
  mb ← lift (rtems_bdbuf_get_media_block d block);
  upd_disk dd (set_ra_linked false) ;;
  if mb.1 =? 0 then
    r ← rtems_bdbuf_get_buffer_for_read_ahead dd mb.2;
    match r with
    | None => mret tt
    | Some i =>
        d ← get_disk dd;
        let plan := read_ahead_plan d block in
        upd_disk dd (fun _ => plan.2) ;;
        upd_stats dd (fun s => set_read_ahead_transfers (u32 (read_ahead_transfers s + 1)) s) ;;
        _ ← rtems_bdbuf_execute_read_request dd i plan.1; mret tt
    end
  else upd_disk dd (set_ra_trigger RTEMS_DISK_READ_AHEAD_NO_TRIGGER).

(** One turn of [rtems_bdbuf_read_ahead_task] after its [sem_wait]: until the
    chain is empty. *)
Definition rtems_bdbuf_read_ahead_turn (fuel : nat) : M unit :=
  loop fuel (
    c ← get_cache;
    match read_ahead_chain c with
    | [] => mret (Some tt)
    | dd :: l => modify (set_read_ahead_chain l) ;; read_ahead_one dd ;; mret None
    end).

(** ** Statistics *)

Definition rtems_bdbuf_get_device_stats (dd : Z) : M stats := d ← get_disk dd; mret (dd_stats d).
Definition stats_0 : stats := mk_stats 0 0 0 0 0 0 0 0 0.
Definition rtems_bdbuf_reset_device_stats (dd : Z) : M unit := upd_disk dd (set_dd_stats stats_0).

(** ** Devices: diskdevs.c *)

Definition read_ahead_0 (d : disk) : disk :=
  set_ra_trigger RTEMS_DISK_READ_AHEAD_NO_TRIGGER d.
Definition disk_0 : disk := mk_disk 0 0 0 0 0 0 0 0 0 0 stats_0 false 0 0 0.

(** [caps] is the driver's answer to RTEMS_BLKIO_CAPABILITIES: its return
    value and what it stored. *)
Definition rtems_disk_init_phys (dd block_size block_count : Z) (caps : Z * Z) : M Z :=
  let d := read_ahead_0 (set_media_block_size block_size (set_dd_size block_count
             (set_phys_dev dd disk_0))) in
  modify (fun c => set_disks (<[dd := d]> (disks c)) c) ;;
  if block_count >? 0 then
    upd_disk dd (set_capabilities (if negb (caps.1 =? 0) then 0 else caps.2)) ;;
    rtems_bdbuf_set_block_size 0 dd block_size false
  else mret (- EINVAL).

Definition rtems_disk_init_log (dd phys_dd block_begin block_count : Z) : M Z :=
  p ← get_disk phys_dd;
  let d := read_ahead_0 (set_media_block_size (media_block_size p)
             (set_dd_size block_count (set_start block_begin (set_phys_dev phys_dd disk_0)))) in
  modify (fun c => set_disks (<[dd := d]> (disks c)) c) ;;
  if phys_dev p =? phys_dd then
    if (block_begin <? dd_size p) && (block_count >? 0) &&
       (block_count <=? dd_size p - block_begin)
    then rtems_bdbuf_set_block_size 0 dd (media_block_size p) false
    else mret (- EINVAL)
  else mret (- EINVAL).

(** ** The ioctl of a block device: bdbuf-ioctl.c *)

Inductive blkio :=
| GETMEDIABLKSIZE | GETBLKSIZE | SETBLKSIZE (size : Z) | GETSIZE | SYNCDEV | GETDISKDEV
| PURGEDEV | GETDEVSTATS | RESETDEVSTATS | OTHER_IOCTL.

(** What is stored through [argp]. *)
Inductive blkio_out := OutNone | OutInt (z : Z) | OutStats (s : stats).

(** The return value, [errno] when it is -1, and the output. *)
Definition rtems_blkdev_ioctl (me : nat) (dd : Z) (req : blkio) : M (Z * Z * blkio_out) :=
  d ← get_disk dd;
  match req with
  | GETMEDIABLKSIZE => mret (0, 0, OutInt (media_block_size d))
  | GETBLKSIZE => mret (0, 0, OutInt (block_size d))
  | SETBLKSIZE n =>
      sc ← rtems_bdbuf_set_block_size me dd n true;
      mret (if negb (sc =? 0) then (-1, EIO, OutNone) else (0, 0, OutNone))
  | GETSIZE => mret (0, 0, OutInt (dd_size d))
  | SYNCDEV =>
      sc ← rtems_bdbuf_syncdev me dd;
      mret (if negb (sc =? 0) then (-1, EIO, OutNone) else (0, 0, OutNone))
  | GETDISKDEV => mret (0, 0, OutInt dd)
  | PURGEDEV => rtems_bdbuf_purge_dev dd ;; mret (0, 0, OutNone)
  | GETDEVSTATS => s ← rtems_bdbuf_get_device_stats dd; mret (0, 0, OutStats s)
  | RESETDEVSTATS => rtems_bdbuf_reset_device_stats dd ;; mret (0, 0, OutNone)
  | OTHER_IOCTL => mret (-1, EINVAL, OutNone)
  end.

(** ** Initialisation *)

(** What [rtems_bdbuf_do_init] acquires. *)
Inductive resource := RBds | RGroups | RBuffers | RTransfer | RWorkers | RTask (t : nat).

(** The loop that fills the descriptors: the group moves on after the last of
    its [max_bds_per_group] members. *)
Fixpoint init_bds (n : nat) (b : Z) (grp : nat) (max_bds_per_group : Z) : list bd :=
  match n with
  | O => []
  | S n =>
      mk_bd BDBUF_INVALID_DEV 0 (b * buffer_min bdbuf_config) FREE 0 grp 0 ::
      init_bds n (b + 1)
        (if b mod max_bds_per_group =? max_bds_per_group - 1 then S grp else grp)
        max_bds_per_group
  end.

Definition init_groups (group_count max_bds_per_group : Z) : list group :=
  (fun g => mk_group max_bds_per_group 0 (Z.to_nat (g * max_bds_per_group)))
    <$> seqZ 0 group_count.

Definition waiters_0 : waiters := mk_waiters 0 0.
Definition transfer_0 : transfer := mk_transfer [] BDBUF_INVALID_DEV false.

(** The cache after a successful initialisation; [mem] is the memory the
    buffers got, [media] what the devices hold. *)
Definition init_cache (mem : list Z) (media : gmap Z (list Z)) (disks : gmap Z disk) : cache :=
  let buffer_min_count := cache_size bdbuf_config / buffer_min bdbuf_config in
  let max_bds_per_group := buffer_max bdbuf_config / buffer_min bdbuf_config in
  let group_count := buffer_min_count / max_bds_per_group in
  mk_cache 0 true (seq 0 (swapout_workers bdbuf_config))
    (init_bds (Z.to_nat buffer_min_count) 0 0 max_bds_per_group)
    buffer_min_count max_bds_per_group false None BDBUF_INVALID_DEV Leaf
    (seq 0 (Z.to_nat buffer_min_count)) [] []
    waiters_0 waiters_0 waiters_0 transfer_0
    (repeat (mk_worker 0 true transfer_0) (swapout_workers bdbuf_config))
    group_count (init_groups group_count max_bds_per_group) 0 []
    (0 <? max_read_ahead_blocks bdbuf_config) disks [] [] mem media.

(** The steps that can fail, in their order. *)
Definition init_steps : list resource :=
  [RBds; RGroups; RBuffers; RTransfer; RTask 0] ++
  (if (0 <? swapout_workers bdbuf_config)%nat
   then RWorkers :: (RTask <$> seq 1 (swapout_workers bdbuf_config)) else []) ++
  (if 0 <? max_read_ahead_blocks bdbuf_config
   then [RTask (S (swapout_workers bdbuf_config))] else []).

(** The steps up to the first failure: what has been acquired, and whether
    all of them succeeded. *)
Fixpoint init_run (ok : resource -> bool) (steps : list resource) : list resource * bool :=
  match steps with
  | [] => ([], true)
  | s :: l => if ok s then let '(h, r) := init_run ok l in (s :: h, r) else ([], false)
  end.

(** The [error:] path: which resources it gives back. *)
Definition error_releases (r : resource) : bool :=
  match r with
  | RBuffers | RGroups | RBds | RTransfer | RWorkers => true
  | RTask O => true
  | RTask t => (t <=? S (swapout_workers bdbuf_config))%nat
  end.

Variable sizeof_blkdev_request sizeof_sg_buffer : Z.
Definition rtems_bdbuf_read_request_size (transfer_count : Z) : Z :=
  sizeof_blkdev_request + sizeof_sg_buffer * transfer_count.
Definition RTEMS_BDBUF_TASK_STACK_SIZE_DEFAULT : Z := 1024.

(** The status, the cache and what is held afterwards; [ok] tells which
    resources the system gives.  After an error there is no cache to use:
    fields that were written before point to memory that was given back. *)
Definition rtems_bdbuf_do_init (ok : resource -> bool) (mem : list Z) (media : gmap Z (list Z)) (disks : gmap Z disk)
    : outcome (Z * option cache * list resource) :=
  guard* negb (buffer_min bdbuf_config =? 0) in
  if negb (buffer_max bdbuf_config mod buffer_min bdbuf_config =? 0) then
    Done (- EINVAL, None, [])
  else if rtems_bdbuf_read_request_size (max_read_ahead_blocks bdbuf_config)
            >? RTEMS_BDBUF_TASK_STACK_SIZE_DEFAULT / 8 then
    Done (- EINVAL, None, [])
  else
    guard* negb (buffer_max bdbuf_config / buffer_min bdbuf_config =? 0) in
    let '(held, success) := init_run ok init_steps in
    if success : bool then Done (0, Some (init_cache mem media disks), held)
    else Done (- ENOSYS, None, filter (fun r => error_releases r = false) held).

End Config.
End Swap.
