(* ===== verification/BdbufStep.v ===== *)
(** * What the steps of the block cache leave alone

    Most steps of bdbuf.c change counters, chains or the tree, and leave the
    buffers with their blocks, states and contents: [bookkeeping].  Others
    change the state of one buffer besides: [marked].  [leaves R m] says that
    the step [m] lets no other thread run and relates the cache before and
    after by [R]; it is a triple without a precondition that is composed
    with the ones of BdbufInv. *)
From Stdlib Require Import ZArith Lia Bool.
From stdpp Require Import base list gmap numbers.
From S2P Require Import Prelude BdbufAvl BdbufState Bdbuf.
Import Avl BdState Bdbuf.

Module Step.

(** The fields that say which block a descriptor has and what it is worth. *)
Definition bd_data (b : bd) : Z * Z * Z * buf_state * nat :=
  (bd_dd b, bd_block b, bd_buffer b, bd_state b, bd_group b).

(** Only counters, chains, the tree or the devices have changed. *)
Definition bookkeeping (c c' : cache) : Prop :=
  bd_data <$> bds c' = bd_data <$> bds c /\
  g_bds_per_group <$> groups c' = g_bds_per_group <$> groups c /\
  max_bds_per_group c' = max_bds_per_group c /\ buffers c' = buffers c /\ media c' = media c /\
  ios c' = ios c.

#[export] Instance bookkeeping_preorder : PreOrder bookkeeping.
Proof. split; [done|]. intros c1 c2 c3. unfold bookkeeping. intuition congruence. Qed.

(** The state of [i] has become [s], and only that. *)
Definition marked (i : nat) (s : buf_state) (c c' : cache) : Prop :=
  exists b, bds c !! i = Some b /\ bookkeeping (set_bds (<[i := set_bd_state s b]> (bds c)) c) c'.

(** [m] lets no other thread run and relates the caches by [R]. *)
Definition leaves {A} (R : cache -> cache -> Prop) (m : M A) : Prop :=
  forall c o a c' o', m c o = Ret a c' o' -> R c c' /\ o' = o.

Lemma leaves_ret {A} R `{!Reflexive R} (a : A) : leaves R (mret a).
Proof. intros c o a' c' o' [= <- <- <-]. done. Qed.
Lemma leaves_bind {A B} R `{!Transitive R} (m : M A) (k : A -> M B) :
  leaves R m -> (forall a, leaves R (k a)) -> leaves R (m ≫= k).
Proof.
  intros Hm Hk c o b c2 o2. unfold mbind, M_bind. destruct (m c o) as [a c1 o1| | | |] eqn:E; try done.
  intros E2. apply Hm in E as [H1 ->]. apply Hk in E2 as [H2 ->]. split; [by transitivity c1|done].
Qed.
Lemma leaves_modify R f : (forall c, R c (f c)) -> leaves R (modify f).
Proof. intros Hf c o a c' o' [= <- <- <-]. done. Qed.
Lemma leaves_get_cache R `{!Reflexive R} : leaves R get_cache.
Proof. intros c o a c' o' [= <- <- <-]. done. Qed.
Lemma leaves_option {A} R `{!Reflexive R} (m : option A) : leaves R (from_option_M m).
Proof. destruct m; [by apply leaves_ret|done]. Qed.
Lemma leaves_fatal {A} R f : leaves (A := A) R (fatal f).
Proof. done. Qed.
Lemma leaves_invalid {A} R : leaves (A := A) R invalid.
Proof. done. Qed.

(** Walks through a step of the monad. *)
Ltac leaves_step :=
  first [match goal with |- leaves _ (_ ≫= _) => apply leaves_bind; [tc_solve| |intros ?] end
        |apply leaves_ret; tc_solve|apply leaves_get_cache; tc_solve|apply leaves_option; tc_solve
        |apply leaves_fatal|apply leaves_invalid
        |apply leaves_modify; intros ?; first [done|exact I]
        |progress cbv beta
        |match goal with |- leaves _ (match ?x with _ => _ end) => destruct x end].

Lemma upd_bd_leaves R i f :
  (forall c b, bds c !! i = Some b -> R c (set_bds (<[i := f b]> (bds c)) c)) -> leaves R (upd_bd i f).
Proof.
  intros HR c o a c' o'. unfold upd_bd, get_bd. unfold mbind, M_bind, get_cache, from_option_M.
  destruct (bds c !! i) as [b|] eqn:Hb; [|done]. intros [= <- <- <-]. eauto.
Qed.
Lemma upd_group_leaves R i f :
  (forall c b, groups c !! i = Some b -> R c (set_groups (<[i := f b]> (groups c)) c)) ->
  leaves R (upd_group i f).
Proof.
  intros HR c o a c' o'. unfold upd_group, get_group. unfold mbind, M_bind, get_cache, from_option_M.
  destruct (groups c !! i) as [b|] eqn:Hb; [|done]. intros [= <- <- <-]. eauto.
Qed.

Lemma bookkeeping_bd c i b f :
  bds c !! i = Some b -> bd_data (f b) = bd_data b -> bookkeeping c (set_bds (<[i := f b]> (bds c)) c).
Proof.
  intros Hb Hf. split_and!; try done. simpl. rewrite list_fmap_insert, Hf.
  apply list_insert_id. by rewrite list_lookup_fmap, Hb.
Qed.
Lemma bookkeeping_group c i b f :
  groups c !! i = Some b -> g_bds_per_group (f b) = g_bds_per_group b ->
  bookkeeping c (set_groups (<[i := f b]> (groups c)) c).
Proof.
  intros Hb Hf. split_and!; try done. simpl. rewrite list_fmap_insert, Hf.
  apply list_insert_id. by rewrite list_lookup_fmap, Hb.
Qed.

Lemma group_obtain_leaves i : leaves bookkeeping (rtems_bdbuf_group_obtain i).
Proof.
  unfold rtems_bdbuf_group_obtain, get_bd. repeat leaves_step. apply upd_group_leaves. intros.
  by apply bookkeeping_group.
Qed.
Lemma group_release_leaves i : leaves bookkeeping (rtems_bdbuf_group_release i).
Proof.
  unfold rtems_bdbuf_group_release, get_bd. repeat leaves_step. apply upd_group_leaves. intros.
  by apply bookkeeping_group.
Qed.
Lemma upd_waiters_leaves i f : leaves bookkeeping (upd_bd i (fun b => set_bd_waiters (f b) b)).
Proof. apply upd_bd_leaves. intros. by apply bookkeeping_bd. Qed.
Lemma extract_leaves i : leaves bookkeeping (rtems_chain_extract i).
Proof. unfold rtems_chain_extract. repeat leaves_step. Qed.
Lemma set_state_leaves i s : leaves (marked i s) (rtems_bdbuf_set_state i s).
Proof. apply upd_bd_leaves. intros c b Hb. exists b. done. Qed.

Lemma upd_waiters_bookkeeping k f c : bookkeeping c (upd_waiters k f c).
Proof. by destruct k. Qed.

Lemma leaves_seq {A B} (R1 R2 R : cache -> cache -> Prop) (m : M A) (k : A -> M B) :
  leaves R1 m -> (forall a, leaves R2 (k a)) -> (forall c1 c2 c3, R1 c1 c2 -> R2 c2 c3 -> R c1 c3) ->
  leaves R (m ≫= k).
Proof.
  intros Hm Hk HR c o b c2 o2. unfold mbind, M_bind. destruct (m c o) as [a c1 o1| | | |] eqn:E; try done.
  intros E2. apply Hm in E as [H1 ->]. apply Hk in E2 as [H2 ->]. eauto.
Qed.
Lemma leaves_get_bd {B} (R : cache -> cache -> Prop) i (k : bd -> M B) :
  (forall b, leaves (fun c c' => bds c !! i = Some b -> R c c') (k b)) -> leaves R (get_bd i ≫= k).
Proof.
  intros Hk c o r c' o'. unfold get_bd, mbind, M_bind, get_cache, from_option_M.
  destruct (bds c !! i) as [b|] eqn:E; [|done]. intros Er. apply Hk in Er as [HR ->]. auto.
Qed.
Lemma leaves_mono {A} (R R' : cache -> cache -> Prop) (m : M A) :
  (forall c c', R c c' -> R' c c') -> leaves R m -> leaves R' m.
Proof. intros HR Hm c o a c' o' E. apply Hm in E as [? ->]. auto. Qed.

Lemma leaves_for_each {A} R `{!Reflexive R, !Transitive R} (l : list A) f :
  (forall a, leaves R (f a)) -> leaves R (for_each l f).
Proof. intros Hf. induction l; simpl; [by apply leaves_ret|by apply leaves_bind]. Qed.

(** *** A mark and the steps around it *)

Lemma bookkeeping_lookup c c' i b :
  bookkeeping c c' -> bds c' !! i = Some b -> exists b0, bds c !! i = Some b0 /\ bd_data b0 = bd_data b.
Proof.
  intros (E & _) Hb. assert ((bd_data <$> bds c') !! i = Some (bd_data b)) as H0
    by (by rewrite list_lookup_fmap, Hb).
  rewrite E, list_lookup_fmap in H0. destruct (bds c !! i) as [b0|]; [|done].
  simpl in H0. exists b0. split; [done|]. congruence.
Qed.

#[export] Instance bookkeeping_sym : Symmetric bookkeeping.
Proof. intros c c' (? & ? & ? & ? & ? & ?). split_and!; by symmetry. Qed.

Lemma bookkeeping_marked i s c c1 c2 : bookkeeping c c1 -> marked i s c1 c2 -> marked i s c c2.
Proof.
  intros HB (b & Hb & Hm). destruct (bookkeeping_lookup c c1 i b HB Hb) as (b0 & Hb0 & Hd).
  exists b0. split; [done|]. etransitivity; [|exact Hm].
  destruct HB as (E1 & E2 & E3 & E4 & E5 & E6). split_and!; simpl; try done.
  rewrite !list_fmap_insert, E1. f_equal. unfold bd_data in *. simpl. congruence.
Qed.
Lemma marked_bookkeeping i s c c1 c2 : marked i s c c1 -> bookkeeping c1 c2 -> marked i s c c2.
Proof. intros (b & Hb & Hm) HB. exists b. split; [done|]. by etransitivity. Qed.
Lemma marked_marked i s s' c c1 c2 : marked i s c c1 -> marked i s' c1 c2 -> marked i s' c c2.
Proof.
  intros (b & Hb & HB) Hm. pose proof (bookkeeping_marked i s' _ _ _ HB Hm) as (b1 & Hb1 & HB1).
  simpl in *. rewrite list_lookup_insert_eq in Hb1 by (by eapply lookup_lt_Some). injection Hb1 as <-.
  rewrite list_insert_insert_eq in HB1. exists b. done.
Qed.
Lemma marked_lookup i s c c' :
  marked i s c c' -> exists b b', bds c !! i = Some b /\ bds c' !! i = Some b' /\
    bd_data b' = bd_data (set_bd_state s b).
Proof.
  intros (b & Hb & HB).
  assert (bds (set_bds (<[i := set_bd_state s b]> (bds c)) c) !! i = Some (set_bd_state s b)) as Hb1.
  { simpl. apply list_lookup_insert_eq. by eapply lookup_lt_Some. }
  destruct (bookkeeping_lookup c' _ i _ (symmetry HB) Hb1) as (b' & Hb' & Hd). eauto.
Qed.

Lemma make_empty_leaves i : leaves (marked i EMPTY) (rtems_bdbuf_make_empty i).
Proof. apply set_state_leaves. Qed.
Lemma lru_append_leaves i : leaves bookkeeping (lru_append i).
Proof. by apply leaves_modify. Qed.
Lemma lru_prepend_leaves i : leaves bookkeeping (lru_prepend i).
Proof. by apply leaves_modify. Qed.
Lemma wake_leaves k : leaves bookkeeping (rtems_bdbuf_wake k).
Proof.
  unfold rtems_bdbuf_wake. repeat leaves_step. apply leaves_modify. intros. apply upd_waiters_bookkeeping.
Qed.
Lemma wake_swapper_leaves : leaves bookkeeping rtems_bdbuf_wake_swapper.
Proof. by apply leaves_modify. Qed.
Lemma remove_from_tree_leaves i : leaves bookkeeping (rtems_bdbuf_remove_from_tree i).
Proof.
  unfold rtems_bdbuf_remove_from_tree, get_bd. repeat leaves_step.
Qed.
Lemma make_cached_leaves i : leaves (marked i CACHED) (rtems_bdbuf_make_cached_and_add_to_lru_list i).
Proof.
  eapply leaves_seq; [apply set_state_leaves|intros; apply lru_append_leaves|apply marked_bookkeeping].
Qed.
Lemma make_free_leaves i : leaves (marked i FREE) (rtems_bdbuf_make_free_and_add_to_lru_list i).
Proof.
  eapply leaves_seq; [apply set_state_leaves|intros; apply lru_prepend_leaves|apply marked_bookkeeping].
Qed.

(** No other thread runs while a buffer is recycled. *)
Definition anyhow (c c' : cache) : Prop := True.
#[export] Instance anyhow_preorder : PreOrder anyhow.
Proof. done. Qed.

Lemma recycle_quiet dd block : leaves anyhow (rtems_bdbuf_get_buffer_from_lru_list dd block).
Proof.
  assert (forall i f, leaves anyhow (upd_bd i f)) as Hu by (intros; apply upd_bd_leaves; intros; exact I).
  assert (forall i, leaves anyhow (rtems_bdbuf_remove_from_tree_and_lru_list i)) as Hr.
  { intros i. unfold rtems_bdbuf_remove_from_tree_and_lru_list, rtems_bdbuf_remove_from_tree,
      rtems_chain_extract, get_bd.
    repeat leaves_step. }
  assert (forall i, leaves anyhow (rtems_bdbuf_setup_empty_buffer i dd block)) as Hs.
  { intros i. unfold rtems_bdbuf_setup_empty_buffer, rtems_bdbuf_make_empty, rtems_bdbuf_set_state.
    repeat first [apply Hu|leaves_step]. }
  assert (forall g n, leaves anyhow (rtems_bdbuf_group_realloc g n)) as Hg.
  { intros g n. unfold rtems_bdbuf_group_realloc, get_group.
    repeat first [apply (leaves_for_each anyhow); intros ?; first
                    [apply Hr|eapply leaves_mono, make_free_leaves; done]
                 |apply upd_group_leaves; intros; exact I|eapply leaves_mono, wake_leaves; done
                 |leaves_step]. }
  unfold rtems_bdbuf_get_buffer_from_lru_list. apply leaves_bind; [tc_solve|by apply leaves_get_cache|].
  intros c. induction (lru c) as [|i l IH]; simpl; [by apply leaves_ret|].
  unfold get_bd, get_disk, get_group. repeat first [apply IH|apply Hr|apply Hs|apply Hg|leaves_step].
Qed.

(** A buffer without valid data ends as EMPTY or FREE. *)
Definition discarded (i : nat) (c c' : cache) : Prop := marked i EMPTY c c' \/ marked i FREE c c'.

Lemma discard_buffer_leaves i : leaves (discarded i) (rtems_bdbuf_discard_buffer i).
Proof.
  unfold rtems_bdbuf_discard_buffer.
  eapply leaves_seq; [apply make_empty_leaves|intros _; apply leaves_get_bd; intros b|].
  - apply (leaves_mono (fun c c' => bookkeeping c c' \/ marked i FREE c c')); [by intros c c' HR _; exact HR|].
    destruct (bd_waiters b =? 0); [|apply (leaves_mono bookkeeping); [by left|by apply leaves_ret]].
    eapply leaves_seq; [apply remove_from_tree_leaves|intros; apply make_free_leaves|].
    intros c1 c2 c3 HB HM. right. by eapply bookkeeping_marked.
  - intros c1 c2 c3 HM [HB|HF]; [left; by eapply marked_bookkeeping|right; by eapply marked_marked].
Qed.

(** [i] has been handed to the driver of [p] to be read. *)
Definition asked (p : Z) (i : nat) (c c' : cache) : Prop :=
  exists c0, marked i TRANSFER c c0 /\ c' = set_ios (ios c0 ++ [IoRead p [i]]) c0.

(** What the end of a transfer with status [st] does to a buffer. *)
Definition ended (i : nat) (st : Z) (c c' : cache) : Prop :=
  if st =? 0 then marked i CACHED c c' else discarded i c c'.

Lemma ended_bookkeeping i st c c1 c2 c3 :
  bookkeeping c c1 -> ended i st c1 c2 -> bookkeeping c2 c3 -> ended i st c c3.
Proof.
  unfold ended, discarded. intros HB HE HB'.
  assert (forall s, marked i s c1 c2 -> marked i s c c3) as HM.
  { intros s HM. eapply bookkeeping_marked; [done|]. by eapply marked_bookkeeping. }
  destruct (st =? 0); [by apply HM|]. destruct HE; auto.
Qed.

(** The fields of a device are bookkeeping. *)
Lemma upd_disk_leaves dd f : leaves bookkeeping (upd_disk dd f).
Proof. unfold upd_disk, get_disk. repeat leaves_step. Qed.
Lemma read_ahead_cancel_leaves dd : leaves bookkeeping (rtems_bdbuf_read_ahead_cancel dd).
Proof. unfold rtems_bdbuf_read_ahead_cancel, get_disk. repeat first [apply upd_disk_leaves|leaves_step]. Qed.
Lemma check_trigger_leaves dd block : leaves bookkeeping (rtems_bdbuf_check_read_ahead_trigger dd block).
Proof.
  unfold rtems_bdbuf_check_read_ahead_trigger, rtems_bdbuf_read_ahead_add_to_chain, get_disk.
  repeat first [apply upd_disk_leaves|leaves_step].
Qed.
Lemma set_trigger_leaves dd block : leaves bookkeeping (rtems_bdbuf_set_read_ahead_trigger dd block).
Proof.
  unfold rtems_bdbuf_set_read_ahead_trigger, get_disk.
  repeat first [apply upd_disk_leaves|apply read_ahead_cancel_leaves|leaves_step].
Qed.

Lemma transfer_finish_leaves sc i :
  leaves (fun c c' => forall b, bds c !! i = Some b -> bd_state b = TRANSFER -> ended i sc c c')
    (transfer_finish sc i).
Proof.
  unfold transfer_finish.
  eapply (leaves_seq bookkeeping (fun c c' => forall b, bds c !! i = Some b -> bd_state b = TRANSFER ->
    ended i sc c c')); [apply group_release_leaves|intros _; apply leaves_get_bd; intros b|].
  - unfold ended. destruct (sc =? 0); cbn [andb].
    + case_bool_decide; [eapply leaves_mono, make_cached_leaves; eauto|].
      eapply leaves_mono, discard_buffer_leaves. intros c c' _ Hb b' Hb' Hst. congruence.
    + eapply leaves_mono, discard_buffer_leaves. auto.
  - intros c1 c2 c3 HB HE b Hb Hst.
    destruct (bookkeeping_lookup c2 c1 i b (symmetry HB) Hb) as (b2 & Hb2 & Hd).
    specialize (HE b2 Hb2 ltac:(unfold bd_data in Hd; congruence)). unfold ended, discarded in *.
    destruct (sc =? 0); [by eapply bookkeeping_marked|].
    destruct HE as [HE|HE]; [left|right]; by eapply bookkeeping_marked.
Qed.

End Step.
