(* ===== verification/BdbufInv.v ===== *)
(** * The invariant of the block cache and its program logic

    [Inv] is the state table of bdbuf.h (lines 168 to 225) as a predicate on
    the cache: which states are in the AVL tree, on which list, and use their
    group, with the counters of the groups and the geometry of the groups.
    [Focus i r b] is the invariant with descriptor [i] singled out, in role
    [r] with contents [b]; each primitive of bdbuf.c has a triple that moves
    the role.  The predicates keep two ghosts fixed: [H], buffers held by
    callers of the cache, and [D], the geometry of the devices. *)
From Stdlib Require Import ZArith Lia Bool.
From stdpp Require Import base list gmap numbers sorting.
From S2P Require Import Prelude BdbufAvl BdbufState Bdbuf BdbufStep.
Import Avl BdState Bdbuf Step.

Module Inv.

(** ** Sums over descriptors *)

Fixpoint sumZ (f : nat -> Z) (l : list nat) : Z :=
  match l with [] => 0 | i :: l => f i + sumZ f l end.

Definition fupd {A} (f : nat -> A) (i : nat) (v : A) : nat -> A :=
  fun j => if decide (j = i) then v else f j.

Lemma fupd_eq {A} (f : nat -> A) i v : fupd f i v i = v.
Proof. unfold fupd. by rewrite decide_True. Qed.
Lemma fupd_ne {A} (f : nat -> A) i v j : j <> i -> fupd f i v j = f j.
Proof. intros. unfold fupd. by rewrite decide_False. Qed.

Lemma sumZ_ext f g l : (forall i, i ∈ l -> f i = g i) -> sumZ f l = sumZ g l.
Proof.
  induction l as [|a l IH]; intros H; simpl; [done|].
  rewrite H by constructor. rewrite IH; [done|]. intros. apply H. by constructor.
Qed.

Lemma sumZ_nonneg f l : (forall i, i ∈ l -> 0 <= f i) -> 0 <= sumZ f l.
Proof.
  induction l as [|a l IH]; intros H; simpl; [done|].
  pose proof (H a ltac:(constructor)). specialize (IH ltac:(intros; apply H; by constructor)). lia.
Qed.

Lemma sumZ_0 f l :
  (forall i, i ∈ l -> 0 <= f i) -> sumZ f l = 0 -> forall i, i ∈ l -> f i = 0.
Proof.
  induction l as [|a l IH]; intros H H0 i Hi; [by apply elem_of_nil in Hi|]. simpl in H0.
  pose proof (H a ltac:(constructor)).
  pose proof (sumZ_nonneg f l ltac:(intros; apply H; by constructor)).
  apply elem_of_cons in Hi as [-> | Hi]; [lia|].
  apply IH; [intros; apply H; by constructor|lia|done].
Qed.

Lemma sumZ_fupd f g l i :
  NoDup l -> (forall j, j <> i -> f j = g j) ->
  sumZ f l = sumZ g l + (if decide (i ∈ l) then f i - g i else 0).
Proof.
  intros Hn He. induction Hn as [|a l Ha Hn IH]; simpl; [done|].
  rewrite IH. destruct (decide (a = i)) as [->|Hai].
  - rewrite (decide_False (P := i ∈ l)) by done.
    rewrite decide_True by constructor. lia.
  - rewrite (He a Hai). destruct (decide (i ∈ l)) as [Hi|Hi].
    + rewrite decide_True by (by constructor). lia.
    + rewrite decide_False; [lia|]. intros [|]%elem_of_cons; congruence.
Qed.

(** ** Roles *)

Inductive loc := Nowhere | InLru | InModified | InSync.
#[export] Instance loc_eq_dec : EqDecision loc.
Proof. solve_decision. Defined.

(** In the tree or not, on which list, and how many uses of its group. *)
Record role := mk_role { r_tree : bool; r_where : loc; r_units : Z }.

Definition tb_tree (s : buf_state) : bool := match s with FREE => false | _ => true end.
Definition tb_where (s : buf_state) : loc :=
  match s with FREE | CACHED => InLru | MODIFIED => InModified | SYNC => InSync | _ => Nowhere end.
Definition tb_user (s : buf_state) : Z := match s with FREE | EMPTY | CACHED => 0 | _ => 1 end.

(** The states in which a caller of the cache holds the buffer. *)
Definition accessed (s : buf_state) : bool :=
  match s with ACCESS_CACHED | ACCESS_MODIFIED | ACCESS_EMPTY | ACCESS_PURGED => true | _ => false end.
(** The states of a buffer nobody uses or waits for. *)
Definition idle (s : buf_state) : bool := match s with FREE | CACHED => true | _ => false end.
Definition transferring (s : buf_state) : bool :=
  match s with TRANSFER | TRANSFER_PURGED => true | _ => false end.

(** Two ways to hold a buffer: as a caller of the cache, and for a transfer. *)
Inductive hold := Acc | Trn.
Definition hold_ok (h : hold) (s : buf_state) : bool :=
  match h with Acc => accessed s | Trn => transferring s end.
Definition holdable (s : buf_state) : bool := accessed s || transferring s.

Definition bd_key (b : bd) : Z * Z := (bd_dd b, bd_block b).

(** ** Geometry *)

(** The fields of a device that only [rtems_bdbuf_set_block_size] changes. *)
Record geom := mk_geom {
  ge_phys : Z; ge_caps : Z; ge_start : Z; ge_size : Z; ge_media : Z; ge_block_size : Z;
  ge_count : Z; ge_mbpb : Z; ge_shift : Z; ge_bpg : Z }.
Definition disk_geom (d : disk) : geom :=
  mk_geom (phys_dev d) (capabilities d) (start d) (dd_size d) (media_block_size d)
    (block_size d) (block_count d) (media_blocks_per_block d) (block_to_media_block_shift d)
    (bds_per_group d).

(** A device that can be used: blocks beyond the count are refused, so one
    without blocks needs nothing. *)
Definition wf_geom (max : Z) (g : geom) : Prop :=
  ge_count g <= 0 \/
  (0 < ge_bpg g <= max /\ ge_shift g < 32 /\ (ge_shift g < 0 -> ge_media g <> 0)).

(** The descriptors in use when a group of [max] is split in [n]. *)
Definition stride (max n : Z) : Z := max / n.
Definition liveb (max n : Z) (i : nat) : bool :=
  let off := Z.of_nat i mod max in
  (off mod stride max n =? 0) && (off / stride max n <? n).

Definition group_size (c : cache) (g : nat) : Z :=
  match groups c !! g with Some gr => g_bds_per_group gr | None => 0 end.

Definition group_of (max : Z) (i : nat) : nat := Z.to_nat (Z.of_nat i / max).
Definition members (max : Z) (g : nat) : list nat := seq (g * Z.to_nat max) (Z.to_nat max).

Record geometry (c : cache) : Prop := {
  geo_max : 0 < max_bds_per_group c;
  geo_bds : Z.of_nat (length (bds c)) = Z.of_nat (length (groups c)) * max_bds_per_group c;
  geo_capacity : Z.of_nat (length (bds c)) < avl_capacity;
  geo_group : forall i b, bds c !! i = Some b -> bd_group b = group_of (max_bds_per_group c) i;
  geo_groups : forall g gr, groups c !! g = Some gr ->
    g_bdbuf gr = (g * Z.to_nat (max_bds_per_group c))%nat /\
    0 < g_bds_per_group gr <= max_bds_per_group c;
  geo_links : forall i, i ∈ lru c ++ modified c ++ sync c -> (i < length (bds c))%nat }.

(** ** The invariant *)

Section Logic.
Context (H : gmap nat (hold * (Z * Z))) (D : gmap Z geom).

(** Lists, tree and counters agree with the roles [rho]. *)
Record Phys (rho : nat -> role) (c : cache) : Prop := {
  ph_geo : geometry c;
  ph_nodup : NoDup (lru c ++ modified c ++ sync c);
  ph_lru : forall i, i ∈ lru c <-> r_where (rho i) = InLru;
  ph_modified : forall i, i ∈ modified c <-> r_where (rho i) = InModified;
  ph_sync : forall i, i ∈ sync c <-> r_where (rho i) = InSync;
  ph_avl : avl_ok (tree c);
  ph_tree : forall k n, contents (tree c) !! k = Some n <->
    exists b, bds c !! nd_bd n = Some b /\ r_tree (rho (nd_bd n)) = true /\
      k = bd_key b /\ n = mk_node (nd_bd n) (bd_dd b) (bd_block b);
  ph_users : forall g gr, groups c !! g = Some gr ->
    g_users gr = sumZ (fun i => r_units (rho i)) (members (max_bds_per_group c) g);
  ph_disks : disk_geom <$> disks c = D;
  ph_geoms : map_Forall (fun _ g => wf_geom (max_bds_per_group c) g) D }.

(** The device of the buffer exists and its blocks have the size the group
    is split for. *)
Definition sized (c : cache) (b : bd) : Prop :=
  exists g, D !! bd_dd b = Some g /\ ge_bpg g = group_size c (bd_group b).

(** The row of the state table for descriptor [i]. *)
Definition row (r : role) (c : cache) (b : bd) : Prop :=
  r = mk_role (tb_tree (bd_state b)) (tb_where (bd_state b)) (tb_user (bd_state b) + bd_waiters b) /\
  (bd_state b <> FREE -> sized c b).

Definition row_off : role := mk_role false Nowhere 0.

Definition Rest (r : role) (c : cache) (i : nat) (b : bd) : Prop :=
  0 <= bd_waiters b /\
  if liveb (max_bds_per_group c) (group_size c (bd_group b)) i
  then row r c b /\ (bd_state b = EMPTY -> 0 < bd_waiters b) /\
       (bd_state b = FREE -> bd_waiters b = 0)
  else r = row_off /\ bd_waiters b = 0 /\ idle (bd_state b) = true.

(** Who holds the buffers of [H] still does. *)
Definition held (c : cache) : Prop :=
  map_Forall (fun i hk => exists b, bds c !! i = Some b /\ hold_ok hk.1 (bd_state b) = true /\
                 bd_key b = hk.2) H.

Definition Inv (c : cache) : Prop :=
  held c /\ exists rho, Phys rho c /\
  forall i b, bds c !! i = Some b -> Rest (rho i) c i b.

(** A descriptor that has been taken out of everything. *)
Definition Off (r : role) (b : bd) : Prop :=
  r = row_off /\ bd_waiters b = 0 /\ idle (bd_state b) = true.

(** The invariant but for [i], which is in role [r] with contents [b], and
    for the descriptors of [S], which have been taken out. *)
Definition Focus (S : gset nat) (i : nat) (r : role) (b : bd) (c : cache) : Prop :=
  held c /\ bds c !! i = Some b /\
  exists rho, Phys rho c /\ rho i = r /\
  forall j bj, j <> i -> bds c !! j = Some bj ->
    if decide (j ∈ S) then Off (rho j) bj else Rest (rho j) c j bj.

(** [i] is one of the descriptors its group is split in. *)
Definition Live (c : cache) (i : nat) : Prop :=
  liveb (max_bds_per_group c) (group_size c (group_of (max_bds_per_group c) i)) i = true.

(** ** The triples *)

(** [m] does not fail, does not run away, and ends in [Q]. *)
Definition wp {A} (m : M A) (Q : A -> cache -> list env -> Prop) (c : cache) (o : list env) : Prop :=
  match m c o with Ret a c o => Q a c o | Blocked => True | _ => False end.

Lemma wp_ret {A} (a : A) Q c o : Q a c o -> wp (mret a) Q c o.
Proof. done. Qed.
Lemma wp_bind {A B} (m : M A) (k : A -> M B) Q c o :
  wp m (fun a c o => wp (k a) Q c o) c o -> wp (m ≫= k) Q c o.
Proof. unfold wp, mbind, M_bind. by destruct (m c o). Qed.
Lemma wp_mono {A} (m : M A) (P Q : A -> cache -> list env -> Prop) c o :
  wp m P c o -> (forall a c o, P a c o -> Q a c o) -> wp m Q c o.
Proof. unfold wp. destruct (m c o); auto. Qed.
Lemma wp_get_cache Q c o : Q c c o -> wp get_cache Q c o.
Proof. done. Qed.
Lemma wp_modify f Q c o : Q tt (f c) o -> wp (modify f) Q c o.
Proof. done. Qed.
Lemma wp_option {A} (m : option A) a Q c o : m = Some a -> Q a c o -> wp (from_option_M m) Q c o.
Proof. by intros ->. Qed.
Lemma wp_get_bd i b Q c o : bds c !! i = Some b -> Q b c o -> wp (get_bd i) Q c o.
Proof. intros. unfold get_bd. apply wp_bind, wp_get_cache. by eapply wp_option. Qed.
Lemma wp_get_group i b Q c o : groups c !! i = Some b -> Q b c o -> wp (get_group i) Q c o.
Proof. intros. unfold get_group. apply wp_bind, wp_get_cache. by eapply wp_option. Qed.
Lemma wp_get_disk i b Q c o : disks c !! i = Some b -> Q b c o -> wp (get_disk i) Q c o.
Proof. intros. unfold get_disk. apply wp_bind, wp_get_cache. by eapply wp_option. Qed.
Lemma wp_lift {A} (m : outcome A) a Q c o : m = Done a -> Q a c o -> wp (lift m) Q c o.
Proof. by intros ->. Qed.

(** What the other threads do keeps the invariant and the claims of the
    waiting operation; [X] is what an operation needs besides. *)
Definition kept (claims : list nat) (c c' : cache) : Prop :=
  forall i b, i ∈ claims -> bds c !! i = Some b ->
  exists b', bds c' !! i = Some b' /\ bd_key b' = bd_key b /\
    (0 < bd_waiters b -> 0 < bd_waiters b') /\
    (accessed (bd_state b) = true -> accessed (bd_state b') = true) /\
    (transferring (bd_state b) = true -> transferring (bd_state b') = true).
Definition env_ok (X : env -> Prop) (e : env) : Prop :=
  X e /\
  forall claims c, Inv c -> Inv (ev_act e claims c) /\ kept claims c (ev_act e claims c).

Lemma wp_yield_env X claims Q c o :
  Forall (env_ok X) o -> Inv c ->
  (forall e o', o = e :: o' -> X e -> Forall (env_ok X) o' -> Inv (ev_act e claims c) ->
    kept claims c (ev_act e claims c) -> Q (ev_status e) (ev_act e claims c) o') ->
  wp (yield claims) Q c o.
Proof.
  intros Ho Hc HQ. unfold wp, yield. destruct o as [|e o]; [done|].
  inversion Ho as [|? ? He Ho']; subst. destruct He as [HX He]. destruct (He claims c Hc).
  by apply HQ.
Qed.

Lemma wp_yield X claims Q c o :
  Forall (env_ok X) o -> Inv c ->
  (forall s c' o', Forall (env_ok X) o' -> (length o' < length o)%nat -> Inv c' -> kept claims c c' ->
    Q s c' o') ->
  wp (yield claims) Q c o.
Proof.
  intros Ho Hc HQ. apply (wp_yield_env X); [done|done|]. intros e o' -> _ Ho' HI Hk.
  apply HQ; try done. simpl. lia.
Qed.

(** A loop whose every unfinished turn lets the other threads run. *)
Lemma wp_while_true X {A} (I : cache -> Prop) (body : M (option A)) Q c o :
  (forall c o, Forall (env_ok X) o -> I c ->
    wp body (fun r c' o' => match r with
                            | Some a => Q a c' o'
                            | None => I c' /\ Forall (env_ok X) o' /\ (length o' < length o)%nat
                            end) c o) ->
  Forall (env_ok X) o -> I c -> wp (while_true body) Q c o.
Proof.
  intros Hb Ho Hc. unfold while_true.
  assert (forall n c o, (length o < n)%nat -> Forall (env_ok X) o -> I c -> wp (loop n body) Q c o) as Hl.
  { clear c o Ho Hc. induction n as [|n IH]; intros c o Hn Ho Hc; [lia|]. simpl.
    apply wp_bind. eapply wp_mono; [by apply Hb|]. intros [a|] c' o'; [by apply wp_ret|].
    intros (Hc' & Ho' & Hlt). apply IH; [lia|done|done]. }
  specialize (Hl (2 * length o + 3)%nat c o ltac:(lia) Ho Hc). exact Hl.
Qed.

(** A step that lets no other thread run, with what it leaves alone. *)
Lemma wp_leaves {A} R (m : M A) Q c o :
  leaves R m -> wp m (fun a c' o' => R c c' -> Q a c' o') c o -> wp m Q c o.
Proof.
  intros Hm. unfold wp. destruct (m c o) eqn:E; try done. apply Hm in E as [HR _]. auto.
Qed.

(** ** Consequences of the geometry *)

Lemma members_spec max g i : 0 < max -> i ∈ members max g <-> group_of max i = g.
Proof.
  intros Hm. unfold members, group_of. rewrite elem_of_seq.
  assert (g * Z.to_nat max = Z.to_nat (Z.of_nat g * max))%nat as -> by (rewrite Z2Nat.inj_mul; lia).
  split.
  - intros [H1 H2]. apply Nat2Z.inj. rewrite Z2Nat.id by (apply Z.div_pos; lia).
    symmetry. apply Z.div_unique with (Z.of_nat i - Z.of_nat g * max); lia.
  - intros <-. rewrite Z2Nat.id by (apply Z.div_pos; lia).
    pose proof (Z.div_mod (Z.of_nat i) max) as Hd.
    pose proof (Z.mod_pos_bound (Z.of_nat i) max Hm). lia.
Qed.

Lemma geo_lookup_group c i b :
  geometry c -> bds c !! i = Some b -> exists gr, groups c !! bd_group b = Some gr.
Proof.
  intros G Hb. rewrite (geo_group c G i b Hb). apply lookup_lt_is_Some_2.
  apply lookup_lt_Some in Hb. pose proof (geo_bds c G) as Hl. pose proof (geo_max c G) as Hm.
  unfold group_of. apply Nat2Z.inj_lt. rewrite Z2Nat.id by (apply Z.div_pos; lia).
  apply Z.div_lt_upper_bound; lia.
Qed.

Lemma group_size_lookup c g gr : groups c !! g = Some gr -> group_size c g = g_bds_per_group gr.
Proof. unfold group_size. by intros ->. Qed.

(** What every primitive leaves as it was: the sizes of the groups, and the
    keys that are not in the tree. *)
Definition frame (c c' : cache) : Prop :=
  max_bds_per_group c' = max_bds_per_group c /\
  (forall g, group_size c' g = group_size c g) /\
  (forall k, contents (tree c) !! k = None -> contents (tree c') !! k = None) /\
  length (bds c') = length (bds c).

Lemma frame_refl c : frame c c.
Proof. done. Qed.
Lemma frame_trans c1 c2 c3 : frame c1 c2 -> frame c2 c3 -> frame c1 c3.
Proof.
  intros (A1 & A2 & A3 & A4) (B1 & B2 & B3 & B4). split_and!; [congruence| |auto|congruence].
  intros g. by rewrite B2.
Qed.

Lemma Rest_frame r c c' i b : frame c c' -> Rest r c i b -> Rest r c' i b.
Proof. intros (Hm & Hg & _). unfold Rest, row, sized. rewrite Hm, Hg. done. Qed.
Lemma row_frame r c c' b : frame c c' -> row r c b -> row r c' b.
Proof. intros (Hm & Hg & _). unfold row, sized. rewrite Hg. done. Qed.
Lemma sized_frame c c' b : frame c c' -> sized c b -> sized c' b.
Proof. intros (Hm & Hg & _). unfold sized. rewrite Hg. done. Qed.
Lemma Live_frame c c' i : frame c c' -> Live c i -> Live c' i.
Proof. intros (Hm & Hg & _). unfold Live. rewrite Hm, Hg. done. Qed.

(** The others, in a cache with the same frame. *)
Lemma others_frame (S : gset nat) r c c' j b :
  frame c c' -> (if decide (j ∈ S) then Off r b else Rest r c j b) ->
  if decide (j ∈ S) then Off r b else Rest r c' j b.
Proof. intros Hf. case_decide; [done|]. by apply Rest_frame. Qed.

(** ** Opening and closing the focus *)

Lemma held_None c i b :
  held c -> bds c !! i = Some b -> holdable (bd_state b) = false -> H !! i = None.
Proof.
  intros Hh Hb Ha. destruct (H !! i) as [[h k]|] eqn:E; [|done].
  destruct (Hh i _ E) as (b' & Hb' & Ha' & _). assert (b' = b) as -> by congruence.
  unfold holdable in Ha. apply orb_false_iff in Ha as [Ha1 Ha2]. destruct h; simpl in Ha'; congruence.
Qed.

Lemma Inv_group c i b : Inv c -> bds c !! i = Some b -> bd_group b = group_of (max_bds_per_group c) i.
Proof. intros (_ & rho & HP & _). apply geo_group, HP. Qed.

Lemma focus_open c i b :
  Inv c -> bds c !! i = Some b -> Live c i ->
  exists r, Focus ∅ i r b c /\ row r c b /\ 0 <= bd_waiters b /\
    (bd_state b = EMPTY -> 0 < bd_waiters b) /\ (bd_state b = FREE -> bd_waiters b = 0).
Proof.
  intros HI Hb Hl. pose proof (Inv_group c i b HI Hb) as Hg. destruct HI as (Hh & rho & HP & HR).
  pose proof (HR i b Hb) as Hr. exists (rho i).
  destruct Hr as [Hw Hr]. rewrite Hg, Hl in Hr. split_and!; try tauto.
  split_and!; [done..|]. exists rho. split_and!; [done..|]. intros.
  rewrite decide_False by set_solver. by apply HR.
Qed.

Lemma focus_lookup S c i r b : Focus S i r b c -> bds c !! i = Some b.
Proof. intros (_ & Hb & _). done. Qed.

Lemma focus_close c i r b :
  Focus ∅ i r b c -> Live c i -> row r c b -> 0 <= bd_waiters b ->
  (bd_state b = EMPTY -> 0 < bd_waiters b) -> (bd_state b = FREE -> bd_waiters b = 0) -> Inv c.
Proof.
  intros (Hh & Hb & rho & HP & Hr & HR) Hl Hrow Hw He Hf. split; [done|].
  exists rho. split; [done|]. intros j bj Hj. destruct (decide (j = i)) as [->|Hne].
  - rewrite Hb in Hj. injection Hj as <-. split; [done|].
    rewrite (geo_group c (ph_geo _ _ HP) i b Hb), Hl, Hr. tauto.
  - specialize (HR j bj Hne Hj). rewrite decide_False in HR by set_solver. done.
Qed.

(** ** The triple of a change to the descriptor in focus *)

(** A change of the descriptor array at [i] that keeps key and group. *)
Lemma Phys_upd_bd rho c i b b' :
  bds c !! i = Some b -> bd_key b' = bd_key b -> bd_group b' = bd_group b ->
  Phys rho c -> Phys rho (set_bds (<[i := b']> (bds c)) c).
Proof.
  intros Hb Hk Hg [G ? ? ? ? ? HT HU ? ?]. split; simpl; try done.
  - destruct G as [g1 g2 g3 g4 g5 g6]. split; simpl; rewrite ?length_insert; try done.
    intros j bj Hj. apply list_lookup_insert_Some in Hj as [(<- & <- & _)|[_ Hj]]; [|by apply g4].
    rewrite Hg. by apply g4.
  - intros k n. rewrite HT. destruct (decide (nd_bd n = i)) as [E|E].
    + rewrite E, list_lookup_insert_eq, Hb by (by eapply lookup_lt_Some).
      unfold bd_key in *. injection Hk as Hk1 Hk2. split.
      * intros (? & [= <-] & ? & -> & ->). exists b'. by rewrite Hk1, Hk2.
      * intros (? & [= <-] & ? & -> & ->). exists b. by rewrite Hk1, Hk2.
    + by rewrite list_lookup_insert_ne.
Qed.

Lemma held_upd_bd c i b b' :
  bds c !! i = Some b -> bd_key b' = bd_key b ->
  H !! i = None \/ (forall h, hold_ok h (bd_state b) = true -> hold_ok h (bd_state b') = true) ->
  held c -> held (set_bds (<[i := b']> (bds c)) c).
Proof.
  intros Hb Hk Hi Hh j k Hj. destruct (Hh j k Hj) as (bj & Hbj & Ha & Hkj). simpl.
  destruct (decide (j = i)) as [->|Hne].
  - exists b'. rewrite list_lookup_insert_eq by (by eapply lookup_lt_Some).
    assert (bj = b) as -> by congruence. destruct Hi as [Hi|Hi]; [congruence|].
    split_and!; [done|auto|congruence].
  - exists bj. by rewrite list_lookup_insert_ne.
Qed.

Lemma wp_upd_bd S i f r b Q c o :
  Focus S i r b c -> bd_key (f b) = bd_key b -> bd_group (f b) = bd_group b ->
  H !! i = None \/ (forall h, hold_ok h (bd_state b) = true -> hold_ok h (bd_state (f b)) = true) ->
  (forall c', Focus S i r (f b) c' -> frame c c' -> Q tt c' o) -> wp (upd_bd i f) Q c o.
Proof.
  intros (Hh & Hb & rho & HP & Hr & HR) Hk Hg Ha HQ. unfold upd_bd.
  apply wp_bind. eapply wp_get_bd; [done|]. apply wp_modify.
  apply HQ; [|split_and!; try done; apply length_insert].
  split_and!; [by eapply held_upd_bd|simpl; apply list_lookup_insert_eq; by eapply lookup_lt_Some|].
  exists rho. split_and!; [by eapply Phys_upd_bd|done|].
  intros j bj Hj. simpl. rewrite list_lookup_insert_ne by done. intros Hbj.
  eapply others_frame; [|by apply HR]. split_and!; try done. apply length_insert.
Qed.

Lemma wp_set_state S i s r b Q c o :
  Focus S i r b c ->
  H !! i = None \/ (forall h, hold_ok h (bd_state b) = true -> hold_ok h s = true) ->
  (forall c', Focus S i r (set_bd_state s b) c' -> frame c c' -> Q tt c' o) ->
  wp (rtems_bdbuf_set_state i s) Q c o.
Proof. intros HF Ha HQ. by eapply wp_upd_bd. Qed.

(** ** Group users *)

Definition with_units (u : Z) (r : role) : role := mk_role (r_tree r) (r_where r) u.
Definition with_where (l : loc) (r : role) : role := mk_role (r_tree r) l (r_units r).
Definition with_tree (t : bool) (r : role) : role := mk_role t (r_where r) (r_units r).

Lemma Phys_units rho c i b gr u :
  Phys rho c -> bds c !! i = Some b -> groups c !! bd_group b = Some gr ->
  Phys (fupd rho i (with_units u (rho i)))
    (set_groups (<[bd_group b := set_g_users (g_users gr + u - r_units (rho i)) gr]> (groups c)) c).
Proof.
  intros [G ? HL HM HS ? HT HU ? ?] Hb Hgr.
  assert (forall j, r_where (fupd rho i (with_units u (rho i)) j) = r_where (rho j)) as Hw.
  { intros j. unfold fupd. case_decide; [by subst|done]. }
  assert (forall j, r_tree (fupd rho i (with_units u (rho i)) j) = r_tree (rho j)) as Ht.
  { intros j. unfold fupd. case_decide; [by subst|done]. }
  split; simpl; try done.
  - destruct G as [g1 g2 g3 g4 g5 g6]. split; simpl; rewrite ?length_insert; try done.
    intros g gr' Hg. apply list_lookup_insert_Some in Hg as [(<- & <- & _)|[_ Hg]]; [|by apply g5].
    simpl. by apply g5.
  - intros j. by rewrite Hw.
  - intros j. by rewrite Hw.
  - intros j. by rewrite Hw.
  - intros k n. rewrite HT. setoid_rewrite Ht. done.
  - intros g gr' Hg.
    rewrite (sumZ_fupd _ (fun j => r_units (rho j)) _ i);
      [|apply NoDup_seq|intros j Hj; by rewrite fupd_ne].
    rewrite fupd_eq. simpl.
    apply list_lookup_insert_Some in Hg as [(<- & <- & _)|[Hne Hg]].
    + rewrite decide_True; [|apply members_spec; [apply G|symmetry; by apply (geo_group c G)]].
      simpl. rewrite (HU _ _ Hgr). lia.
    + rewrite decide_False; [rewrite (HU _ _ Hg); lia|].
      rewrite members_spec by apply G. rewrite <- (geo_group c G i b Hb). done.
Qed.

Lemma wp_users S i (d : Z) r b Q c o :
  Focus S i r b c ->
  (forall c', Focus S i (with_units (r_units r + d) r) b c' -> frame c c' -> Q tt c' o) ->
  wp (b ← get_bd i; upd_group (bd_group b) (fun g => set_g_users (g_users g + d) g)) Q c o.
Proof.
  intros (Hh & Hb & rho & HP & <- & HR) HQ.
  apply wp_bind. eapply wp_get_bd; [done|].
  destruct (geo_lookup_group c i b (ph_geo _ _ HP) Hb) as [gr Hgr].
  unfold upd_group. apply wp_bind. eapply wp_get_group; [done|]. apply wp_modify.
  assert (frame c (set_groups (<[bd_group b := set_g_users (g_users gr + d) gr]> (groups c)) c)) as Hs.
  { split_and!; [done| |done|done]. intros g. unfold group_size. simpl.
    destruct (decide (g = bd_group b)) as [->|Hne].
    - rewrite list_lookup_insert_eq by (by eapply lookup_lt_Some). by rewrite Hgr.
    - by rewrite list_lookup_insert_ne. }
  apply HQ; [|done]. split_and!; [done|done|].
  exists (fupd rho i (with_units (r_units (rho i) + d) (rho i))). split_and!.
  - pose proof (Phys_units rho c i b gr (r_units (rho i) + d) HP Hb Hgr) as HP'.
    replace (g_users gr + (r_units (rho i) + d) - r_units (rho i)) with (g_users gr + d) in HP' by lia.
    done.
  - apply fupd_eq.
  - intros j bj Hj Hbj. rewrite fupd_ne by done. eapply others_frame; [done|]. by apply HR.
Qed.

Lemma wp_group_obtain S i r b Q c o :
  Focus S i r b c ->
  (forall c', Focus S i (with_units (r_units r + 1) r) b c' -> frame c c' -> Q tt c' o) ->
  wp (rtems_bdbuf_group_obtain i) Q c o.
Proof. apply (wp_users S i 1). Qed.

Lemma wp_group_release S i r b Q c o :
  Focus S i r b c ->
  (forall c', Focus S i (with_units (r_units r - 1) r) b c' -> frame c c' -> Q tt c' o) ->
  wp (rtems_bdbuf_group_release i) Q c o.
Proof. apply (wp_users S i (-1)). Qed.

(** ** The chains *)

Lemma Phys_lists rho c i l ls ms ss :
  Phys rho c -> (i < length (bds c))%nat -> NoDup ls -> NoDup ms -> NoDup ss ->
  (forall j, j ∈ ls <-> r_where (fupd rho i (with_where l (rho i)) j) = InLru) ->
  (forall j, j ∈ ms <-> r_where (fupd rho i (with_where l (rho i)) j) = InModified) ->
  (forall j, j ∈ ss <-> r_where (fupd rho i (with_where l (rho i)) j) = InSync) ->
  Phys (fupd rho i (with_where l (rho i))) (set_sync ss (set_modified ms (set_lru ls c))).
Proof.
  intros [[g1 g2 g3 g4 g5 g6] ? HL0 HM0 HS0 ? HT HU ? ?] Hi Hl Hm Hs Il Im Is.
  split; simpl; try done.
  - split; simpl; try done. intros j. rewrite !elem_of_app, Il, Im, Is. unfold fupd.
    case_decide; [by subst|]. intros Hj. apply g6. by rewrite !elem_of_app, HL0, HM0, HS0.
  - apply NoDup_app. split_and!; [done| |apply NoDup_app; split_and!; try done].
    + intros j Hj. apply Il in Hj. rewrite elem_of_app, Im, Is, Hj. intuition congruence.
    + intros j Hj. apply Im in Hj. rewrite Is, Hj. congruence.
  - intros k n. rewrite HT.
    assert (forall j, r_tree (fupd rho i (with_where l (rho i)) j) = r_tree (rho j)) as Ht.
    { intros j. unfold fupd. case_decide; [by subst|done]. }
    setoid_rewrite Ht. done.
  - intros g gr Hg. rewrite (HU g gr Hg). apply sumZ_ext. intros j _.
    unfold fupd. case_decide; [by subst|done].
Qed.

Lemma Focus_lists S i l r b c ls ms ss :
  Focus S i r b c -> NoDup ls -> NoDup ms -> NoDup ss ->
  (forall j, j ∈ ls <-> if decide (j = i) then l = InLru else j ∈ lru c) ->
  (forall j, j ∈ ms <-> if decide (j = i) then l = InModified else j ∈ modified c) ->
  (forall j, j ∈ ss <-> if decide (j = i) then l = InSync else j ∈ sync c) ->
  Focus S i (with_where l r) b (set_sync ss (set_modified ms (set_lru ls c))).
Proof.
  intros (Hh & Hb & rho & HP & <- & HR) Nl Nm Ns Il Im Is.
  split_and!; [done..|]. exists (fupd rho i (with_where l (rho i))).
  split_and!; [|apply fupd_eq|].
  - apply Phys_lists; try done; [by eapply lookup_lt_Some|..]; intros j; unfold fupd.
    + rewrite Il. case_decide; [done|apply HP].
    + rewrite Im. case_decide; [done|apply HP].
    + rewrite Is. case_decide; [done|apply HP].
  - intros j bj Hj Hbj. rewrite fupd_ne by done. eapply others_frame; [|by apply HR]. done.
Qed.

Lemma chain_del_spec i l j : j ∈ chain_del i l <-> j <> i /\ j ∈ l.
Proof. unfold chain_del. by rewrite list_elem_of_filter. Qed.
Lemma chain_del_NoDup i l : NoDup l -> NoDup (chain_del i l).
Proof. apply NoDup_filter. Qed.

(** Where the focused descriptor is linked. *)
Lemma focus_where S i r b c :
  Focus S i r b c -> (i ∈ lru c <-> r_where r = InLru) /\
  (i ∈ modified c <-> r_where r = InModified) /\ (i ∈ sync c <-> r_where r = InSync).
Proof.
  intros (_ & _ & rho & HP & <- & _). split_and!; apply HP.
Qed.

Lemma focus_nodups S i r b c :
  Focus S i r b c -> NoDup (lru c) /\ NoDup (modified c) /\ NoDup (sync c).
Proof.
  intros (_ & _ & rho & HP & _). pose proof (ph_nodup _ _ HP) as N.
  apply NoDup_app in N as (? & _ & N). apply NoDup_app in N as (? & _ & ?). done.
Qed.

Lemma wp_extract S i r b Q c o :
  Focus S i r b c -> r_where r <> Nowhere ->
  (forall c', Focus S i (with_where Nowhere r) b c' -> frame c c' -> bds c' = bds c -> Q tt c' o) ->
  wp (rtems_chain_extract i) Q c o.
Proof.
  intros HF Hw HQ. unfold rtems_chain_extract. apply wp_bind, wp_get_cache.
  destruct (focus_where _ _ _ _ _ HF) as (W1 & W2 & W3).
  destruct (focus_nodups _ _ _ _ _ HF) as (N1 & N2 & N3).
  repeat case_decide; try (apply wp_modify; apply HQ; [|done|done]).
  - apply (Focus_lists S i Nowhere r b c (chain_del i (lru c)) (modified c) (sync c)); try done;
      [by apply chain_del_NoDup|..]; intros j; rewrite ?chain_del_spec; case_decide; subst;
      intuition congruence.
  - apply (Focus_lists S i Nowhere r b c (lru c) (chain_del i (modified c)) (sync c)); try done;
      [by apply chain_del_NoDup|..]; intros j; rewrite ?chain_del_spec; case_decide; subst;
      intuition congruence.
  - apply (Focus_lists S i Nowhere r b c (lru c) (modified c) (chain_del i (sync c))); try done;
      [by apply chain_del_NoDup|..]; intros j; rewrite ?chain_del_spec; case_decide; subst;
      intuition congruence.
  - destruct (r_where r); tauto.
Qed.

(** Linking a descriptor that is on no chain. *)
Ltac link_tac HF Hw :=
  let W1 := fresh in let W2 := fresh in let W3 := fresh in
  let N1 := fresh in let N2 := fresh in let N3 := fresh in
  destruct (focus_where _ _ _ _ _ HF) as (W1 & W2 & W3);
  destruct (focus_nodups _ _ _ _ _ HF) as (N1 & N2 & N3);
  rewrite Hw in *;
  first [apply NoDup_app; split_and!; [done| |apply NoDup_singleton];
         intros ? ? ->%list_elem_of_singleton; intuition congruence
        |apply NoDup_cons; intuition congruence
        |intros j; rewrite ?elem_of_app, ?elem_of_cons, ?elem_of_nil; case_decide; subst;
         intuition congruence
        |done].

Lemma wp_lru_append S i r b Q c o :
  Focus S i r b c -> r_where r = Nowhere ->
  (forall c', Focus S i (with_where InLru r) b c' -> frame c c' -> Q tt c' o) ->
  wp (lru_append i) Q c o.
Proof.
  intros HF Hw HQ. apply wp_modify. apply HQ; [|done].
  apply (Focus_lists S i InLru r b c (lru c ++ [i]) (modified c) (sync c)); [done|..]; link_tac HF Hw.
Qed.

Lemma wp_lru_prepend S i r b Q c o :
  Focus S i r b c -> r_where r = Nowhere ->
  (forall c', Focus S i (with_where InLru r) b c' -> frame c c' -> Q tt c' o) ->
  wp (lru_prepend i) Q c o.
Proof.
  intros HF Hw HQ. apply wp_modify. apply HQ; [|done].
  apply (Focus_lists S i InLru r b c (i :: lru c) (modified c) (sync c)); [done|..]; link_tac HF Hw.
Qed.

Lemma wp_modified_append S i r b Q c o :
  Focus S i r b c -> r_where r = Nowhere ->
  (forall c', Focus S i (with_where InModified r) b c' -> frame c c' -> Q tt c' o) ->
  wp (modified_append i) Q c o.
Proof.
  intros HF Hw HQ. apply wp_modify. apply HQ; [|done].
  apply (Focus_lists S i InModified r b c (lru c) (modified c ++ [i]) (sync c)); [done|..];
    link_tac HF Hw.
Qed.

Lemma wp_sync_append S i r b Q c o :
  Focus S i r b c -> r_where r = Nowhere ->
  (forall c', Focus S i (with_where InSync r) b c' -> frame c c' -> Q tt c' o) ->
  wp (sync_append i) Q c o.
Proof.
  intros HF Hw HQ. apply wp_modify. apply HQ; [|done].
  apply (Focus_lists S i InSync r b c (lru c) (modified c) (sync c ++ [i])); [done|..];
    link_tac HF Hw.
Qed.

(** ** The tree *)

Lemma phys_capacity rho c : Phys rho c -> len (inorder (tree c)) < avl_capacity.
Proof.
  intros HP. destruct (ph_avl _ _ HP) as [_ Hs]. pose proof (geo_capacity c (ph_geo _ _ HP)) as Hc.
  assert (forall n, n ∈ inorder (tree c) -> exists b, bds c !! nd_bd n = Some b /\ key n = bd_key b /\
            n = mk_node (nd_bd n) (bd_dd b) (bd_block b)) as Hn.
  { intros n Hn. assert (contents (tree c) !! key n = Some n) as Hl by (by apply contents_lookup).
    apply (ph_tree _ _ HP) in Hl as (b & ? & _ & ? & ?). eauto. }
  assert (NoDup (nd_bd <$> inorder (tree c))) as Hd.
  { pose proof (keys_NoDup _ Hs) as Hk. clear Hs.
    induction (inorder (tree c)) as [|n l IH]; [constructor|]. simpl in *.
    apply NoDup_cons in Hk as [Hk1 Hk2]. constructor.
    - intros (m & Hm & Hml)%list_elem_of_fmap. apply Hk1, list_elem_of_fmap. exists m.
      destruct (Hn n ltac:(constructor)) as (b & Hb & -> & _).
      destruct (Hn m ltac:(by constructor)) as (b' & Hb' & -> & _).
      rewrite Hm in Hb. split; [congruence|done].
    - apply IH; [|done]. intros m Hm. apply Hn. by constructor. }
  assert (length (nd_bd <$> inorder (tree c)) <= length (seq 0 (length (bds c))))%nat as Hle.
  { apply submseteq_length, NoDup_submseteq; [done|]. intros x (n & -> & Hx)%list_elem_of_fmap.
    destruct (Hn n Hx) as (b & Hb & _). apply elem_of_seq. apply lookup_lt_Some in Hb. lia. }
  rewrite length_fmap, length_seq in Hle. unfold len. lia.
Qed.

Lemma phys_height rho c : Phys rho c -> height (tree c) <= Z.of_nat RTEMS_BDBUF_AVL_MAX_HEIGHT.
Proof. intros HP. apply capacity_height; [apply HP|by eapply phys_capacity]. Qed.

Lemma Phys_tree rho c i x t :
  Phys rho c -> avl_ok t ->
  (forall k n, contents t !! k = Some n <->
    exists b, bds c !! nd_bd n = Some b /\
      (if decide (nd_bd n = i) then x else r_tree (rho (nd_bd n))) = true /\
      k = bd_key b /\ n = mk_node (nd_bd n) (bd_dd b) (bd_block b)) ->
  Phys (fupd rho i (with_tree x (rho i))) (set_tree t c).
Proof.
  intros [[g1 g2 g3 g4 g5 g6] ? HL HM HS ? HT HU ? ?] Ht HC.
  assert (forall j, r_where (fupd rho i (with_tree x (rho i)) j) = r_where (rho j)) as Hw.
  { intros j. unfold fupd. case_decide; [by subst|done]. }
  split; simpl; try done.
  - intros j. by rewrite Hw.
  - intros j. by rewrite Hw.
  - intros j. by rewrite Hw.
  - intros k n. rewrite HC. unfold fupd.
    split; intros (b & H1 & H2 & H3); exists b; (split; [done|]); (split; [|done]);
      case_decide; done.
  - intros g gr Hg. rewrite (HU g gr Hg). apply sumZ_ext. intros j _.
    unfold fupd. case_decide; [by subst|done].
Qed.

Lemma wp_remove_from_tree S i r b Q c o :
  Focus S i r b c -> r_tree r = true ->
  (forall c', Focus S i (with_tree false r) b c' -> frame c c' -> bds c' = bds c -> Q tt c' o) ->
  wp (rtems_bdbuf_remove_from_tree i) Q c o.
Proof.
  intros (Hh & Hb & rho & HP & <- & HR) Ht HQ. unfold rtems_bdbuf_remove_from_tree.
  apply wp_bind. eapply wp_get_bd; [done|]. apply wp_bind, wp_get_cache.
  set (n := mk_node i (bd_dd b) (bd_block b)).
  assert (contents (tree c) !! key n = Some n) as Hn.
  { apply (ph_tree _ _ HP). exists b. done. }
  destruct (remove_ok (tree c) n (ph_avl _ _ HP) (phys_height _ _ HP)) as [[E _]|(m & t & E & -> & Hok & Hp)];
    [congruence|]. rewrite Hn in E. injection E as <-.
  pose proof (contents_perm t (tree c) n (proj2 (ph_avl _ _ HP)) Hp) as Hc.
  assert (frame c (set_tree t c)) as Hfr.
  { split_and!; [done..| |done]. intros k. simpl. rewrite Hc, lookup_insert_None. tauto. }
  apply wp_bind, wp_modify, wp_ret. apply HQ; [|done|done].
  split_and!; [done..|]. exists (fupd rho i (with_tree false (rho i))).
  split_and!; [|apply fupd_eq|].
  - apply Phys_tree; [done|done|]. intros k m.
    pose proof (ph_tree _ _ HP k m) as Hm. rewrite Hc in Hm.
    assert (contents t !! key n = None) as Hx.
    { apply contents_absent; [apply Hok|]. destruct (ph_avl _ _ HP) as [_ Hs].
      apply keys_NoDup in Hs. rewrite Hp in Hs. simpl in Hs. apply NoDup_cons in Hs as [Hs _].
      intros x Hx Hxk. apply Hs, list_elem_of_fmap. exists x. split; [|done].
      symmetry. by apply same_key_eq. }
    split.
    + intros Hk. assert (k <> key n) as Hkn by congruence.
      rewrite lookup_insert_ne in Hm by done. apply Hm in Hk as (b' & Hb' & Ht' & -> & Em).
      exists b'. split_and!; try done. rewrite decide_False; [done|].
      intros E. rewrite E in Hb'. assert (b' = b) as -> by congruence. by apply Hkn.
    + intros (b' & Hb' & Ht' & -> & Em). case_decide as E; [done|].
      rewrite lookup_insert_ne in Hm; [apply Hm; eauto|].
      intros Ek. rewrite <- Ek, lookup_insert_eq in Hm.
      assert (n = m) as Enm by (injection (proj2 Hm ltac:(eauto)); done). by rewrite <- Enm in E.
  - intros j bj Hj Hbj. rewrite fupd_ne by done. eapply others_frame; [|by apply HR]. done.
Qed.

(** ** Changes outside of what the invariant looks at *)

Definition similar (c c' : cache) : Prop :=
  bds c' = bds c /\ groups c' = groups c /\ max_bds_per_group c' = max_bds_per_group c /\
  lru c' = lru c /\ modified c' = modified c /\ sync c' = sync c /\ tree c' = tree c /\
  disk_geom <$> disks c' = disk_geom <$> disks c.

Lemma Phys_similar rho c c' : similar c c' -> Phys rho c -> Phys rho c'.
Proof.
  intros (E1 & E2 & E3 & E4 & E5 & E6 & E7 & E8) [[g1 g2 g3 g4 g5 g6] ? ? ? ? ? ? ? ? ?].
  split; rewrite ?E1, ?E2, ?E3, ?E4, ?E5, ?E6, ?E7, ?E8; try done.
  split; rewrite ?E1, ?E2, ?E3, ?E4, ?E5, ?E6; done.
Qed.

Lemma similar_frame c c' : similar c c' -> frame c c'.
Proof.
  intros (E1 & E2 & E3 & E4 & E5 & E6 & E7 & E8). unfold frame, group_size.
  by rewrite E1, E2, E3, E7.
Qed.

Lemma Focus_similar S i r b c c' : similar c c' -> Focus S i r b c -> Focus S i r b c'.
Proof.
  intros Hs (Hh & Hb & rho & HP & Hr & HR). pose proof Hs as (E1 & _).
  split_and!; [|by rewrite E1|].
  - intros j k Hj. rewrite E1. by apply Hh.
  - exists rho. split_and!; [by eapply Phys_similar|done|]. intros j bj Hj. rewrite E1. intros Hbj.
    eapply others_frame; [by apply similar_frame|]. by apply HR.
Qed.

Lemma Inv_similar c c' : similar c c' -> Inv c -> Inv c'.
Proof.
  intros Hs (Hh & rho & HP & HR). pose proof Hs as (E1 & _). split.
  - intros j k Hj. rewrite E1. by apply Hh.
  - exists rho. split; [by eapply Phys_similar|]. intros j bj. rewrite E1. intros Hj.
    eapply Rest_frame; [by apply similar_frame|]. by apply HR.
Qed.

Lemma upd_waiters_similar k f c : similar c (upd_waiters k f c).
Proof. by destruct k. Qed.

Lemma wp_wake k Q c o :
  (forall c', similar c c' -> Q tt c' o) -> wp (rtems_bdbuf_wake k) Q c o.
Proof.
  intros HQ. unfold rtems_bdbuf_wake. apply wp_bind, wp_get_cache.
  destruct (_ >? _); [apply wp_modify|apply wp_ret]; apply HQ; [apply upd_waiters_similar|done].
Qed.

Lemma wp_wake_swapper Q c o :
  (forall c', similar c c' -> Q tt c' o) -> wp rtems_bdbuf_wake_swapper Q c o.
Proof. intros HQ. apply wp_modify. by apply HQ. Qed.

(** The devices. *)
Lemma disks_lookup rho c dd g :
  Phys rho c -> D !! dd = Some g -> exists d, disks c !! dd = Some d /\ disk_geom d = g.
Proof.
  intros HP Hg. rewrite <- (ph_disks _ _ HP), lookup_fmap in Hg.
  destruct (disks c !! dd) as [d|]; simpl in Hg; [|done]. injection Hg as <-. eauto.
Qed.

Lemma wp_upd_disk dd f d Q c o :
  disks c !! dd = Some d -> disk_geom (f d) = disk_geom d ->
  (forall c', similar c c' -> disks c' !! dd = Some (f d) -> Q tt c' o) ->
  wp (upd_disk dd f) Q c o.
Proof.
  intros Hd Hg HQ. unfold upd_disk. apply wp_bind. eapply wp_get_disk; [done|].
  apply wp_modify. apply HQ; [|simpl; apply lookup_insert_eq].
  split_and!; try done. simpl. rewrite fmap_insert, Hg.
  apply insert_id. by rewrite lookup_fmap, Hd.
Qed.

(** ** Composite primitives *)

Lemma wp_remove_from_tree_and_lru_list S i u b Q c o :
  Focus S i (mk_role (tb_tree (bd_state b)) InLru u) b c -> idle (bd_state b) = true ->
  (forall c', Focus S i (mk_role false Nowhere u) b c' -> frame c c' -> bds c' = bds c ->
     Q tt c' o) ->
  wp (rtems_bdbuf_remove_from_tree_and_lru_list i) Q c o.
Proof.
  intros HF Hi HQ. unfold rtems_bdbuf_remove_from_tree_and_lru_list.
  apply wp_bind. eapply wp_get_bd; [by eapply focus_lookup|]. apply wp_bind.
  assert (wp (match bd_state b with
              | FREE => mret tt
              | CACHED => rtems_bdbuf_remove_from_tree i
              | _ => fatal (FATAL_STATE 10)
              end)
    (fun _ c' o' => o' = o /\ Focus S i (mk_role false InLru u) b c' /\ frame c c' /\ bds c' = bds c)
    c o) as Hw.
  { destruct (bd_state b); try discriminate Hi; [by apply wp_ret|].
    eapply wp_remove_from_tree; [done|done|]. intros c' HF' Hf Hb. done. }
  eapply wp_mono; [exact Hw|]. intros _ c1 o1 (-> & HF1 & Hf1 & Hb1).
  eapply wp_extract; [done|done|]. intros c2 HF2 Hf2 Hb2.
  apply HQ; [done|by eapply frame_trans|congruence].
Qed.

Lemma wp_make_free_and_add_to_lru_list S i r b Q c o :
  Focus S i r b c -> r_where r = Nowhere -> H !! i = None ->
  (forall c', Focus S i (with_where InLru r) (set_bd_state FREE b) c' -> frame c c' -> Q tt c' o) ->
  wp (rtems_bdbuf_make_free_and_add_to_lru_list i) Q c o.
Proof.
  intros HF Hr Hi HQ. unfold rtems_bdbuf_make_free_and_add_to_lru_list.
  apply wp_bind. eapply wp_set_state; [done|by left|]. intros c1 HF1 Hf1.
  eapply wp_lru_prepend; [done|done|]. intros c2 HF2 Hf2. apply HQ; [done|by eapply frame_trans].
Qed.

Lemma wp_make_cached_and_add_to_lru_list S i r b Q c o :
  Focus S i r b c -> r_where r = Nowhere -> H !! i = None ->
  (forall c', Focus S i (with_where InLru r) (set_bd_state CACHED b) c' -> frame c c' -> Q tt c' o) ->
  wp (rtems_bdbuf_make_cached_and_add_to_lru_list i) Q c o.
Proof.
  intros HF Hr Hi HQ. unfold rtems_bdbuf_make_cached_and_add_to_lru_list.
  apply wp_bind. eapply wp_set_state; [done|by left|]. intros c1 HF1 Hf1.
  eapply wp_lru_append; [done|done|]. intros c2 HF2 Hf2. apply HQ; [done|by eapply frame_trans].
Qed.

(** A buffer without valid data: freed, or left to those who wait for it. *)
Lemma wp_discard_buffer S i u b Q c o :
  Focus S i (mk_role true Nowhere u) b c -> H !! i = None ->
  (forall c', frame c c' ->
     (if bd_waiters b =? 0
      then Focus S i (mk_role false InLru u) (set_bd_state FREE b) c'
      else Focus S i (mk_role true Nowhere u) (set_bd_state EMPTY b) c') -> Q tt c' o) ->
  wp (rtems_bdbuf_discard_buffer i) Q c o.
Proof.
  intros HF Hi HQ. unfold rtems_bdbuf_discard_buffer, rtems_bdbuf_make_empty.
  apply wp_bind. eapply wp_set_state; [done|by left|]. intros c1 HF1 Hf1.
  apply wp_bind. eapply wp_get_bd; [by eapply focus_lookup|]. simpl.
  destruct (bd_waiters b =? 0).
  - apply wp_bind. eapply wp_remove_from_tree; [done|done|]. intros c2 HF2 Hf2 _.
    eapply wp_make_free_and_add_to_lru_list; [done|done|done|]. intros c3 HF3 Hf3.
    apply HQ; [eapply frame_trans; [done|by eapply frame_trans]|done].
  - apply wp_ret. by apply HQ.
Qed.

(** *** A recycled buffer enters the tree *)

Lemma wp_upd_bd_off S i f r b Q c o :
  Focus S i r b c -> r_tree r = false -> H !! i = None -> bd_group (f b) = bd_group b ->
  (forall c', Focus S i r (f b) c' -> frame c c' -> Q tt c' o) -> wp (upd_bd i f) Q c o.
Proof.
  intros (Hh & Hb & rho & HP & <- & HR) Ht Hi Hg HQ. unfold upd_bd.
  apply wp_bind. eapply wp_get_bd; [done|]. apply wp_modify.
  assert (frame c (set_bds (<[i := f b]> (bds c)) c)) as Hfr.
  { split_and!; try done. apply length_insert. }
  apply HQ; [|done]. split_and!; [|simpl; apply list_lookup_insert_eq; by eapply lookup_lt_Some|].
  { intros j k Hj. destruct (Hh j k Hj) as (bj & ? & ?). exists bj. simpl.
    rewrite list_lookup_insert_ne by congruence. done. }
  exists rho. split_and!; [|done|].
  - destruct HP as [[g1 g2 g3 g4 g5 g6] ? ? ? ? ? HT HU ? ?]. split; simpl; try done.
    + split; simpl; rewrite ?length_insert; try done.
      intros j bj Hj. apply list_lookup_insert_Some in Hj as [(<- & <- & _)|[_ Hj]]; [|by apply g4].
      rewrite Hg. by apply g4.
    + intros k n. rewrite HT. destruct (decide (nd_bd n = i)) as [E|E].
      * rewrite E, Ht. split; intros (? & _ & [=] & _).
      * by rewrite list_lookup_insert_ne.
  - intros j bj Hj. simpl. rewrite list_lookup_insert_ne by done. intros Hbj.
    eapply others_frame; [exact Hfr|by apply HR].
Qed.

Lemma wp_avl_insert S i r b (next : M unit) Q c o :
  Focus S i r b c -> r_tree r = false -> contents (tree c) !! bd_key b = None ->
  (forall c', Focus S i (with_tree true r) b c' -> max_bds_per_group c' = max_bds_per_group c ->
     groups c' = groups c -> wp next Q c' o) ->
  wp (c ← get_cache;
      match rtems_bdbuf_avl_insert (tree c) (mk_node i (bd_dd b) (bd_block b)) with
      | Done (t, r) => modify (set_tree t) ;; if r =? 0 then next else fatal FATAL_RECYCLE
      | _ => invalid
      end) Q c o.
Proof.
  intros (Hh & Hb & rho & HP & <- & HR) Ht Hk HQ.
  apply wp_bind, wp_get_cache. set (n := mk_node i (bd_dd b) (bd_block b)).
  destruct (insert_ok (tree c) n (ph_avl _ _ HP) (phys_height _ _ HP)) as [[E _]|(E & t & -> & Hok & Hp)];
    [by destruct (E Hk)|].
  apply wp_bind, wp_modify. apply HQ; [|done..].
  split_and!; [done..|]. exists (fupd rho i (with_tree true (rho i))).
  split_and!; [|apply fupd_eq|].
  - apply Phys_tree; [done|done|]. intros k m.
    rewrite (contents_perm (tree c) t n (proj2 Hok) Hp), lookup_insert_Some, (ph_tree _ _ HP).
    split.
    + intros [[<- <-]|[Hne (b' & Hb' & Ht' & Ek & Em)]].
      * exists b. simpl. by rewrite decide_True.
      * exists b'. split_and!; try done. case_decide; done.
    + intros (b' & Hb' & Ht' & Ek & Em). case_decide as Ei.
      * left. rewrite Ei in Hb', Em. assert (b' = b) as -> by congruence. done.
      * right. split; [|eauto]. intros Ekn. subst k.
        assert (contents (tree c) !! bd_key b = Some m) as E2.
        { apply (ph_tree _ _ HP). exists b'. done. }
        congruence.
  - intros j bj Hj Hbj. rewrite fupd_ne by done. specialize (HR j bj Hj Hbj).
    case_decide; [done|]. exact HR.
Qed.

Definition recycled (dd block : Z) (b : bd) : bd :=
  set_bd_state EMPTY (set_bd_waiters 0 (set_bd_block block (set_bd_dd dd b))).

Lemma wp_setup_empty_buffer S i u b dd block Q c o :
  Focus S i (mk_role false Nowhere u) b c -> H !! i = None ->
  contents (tree c) !! (dd, block) = None ->
  (forall c', Focus S i (mk_role true Nowhere u) (recycled dd block b) c' ->
     max_bds_per_group c' = max_bds_per_group c -> (forall g, group_size c' g = group_size c g) ->
     Q tt c' o) ->
  wp (rtems_bdbuf_setup_empty_buffer i dd block) Q c o.
Proof.
  intros HF Hi Hk HQ. unfold rtems_bdbuf_setup_empty_buffer.
  apply wp_bind. eapply wp_upd_bd_off; [done|done|done|done|]. intros c1 HF1 (M1 & G1 & T1 & _).
  apply wp_bind. eapply wp_upd_bd_off; [done|done|done|done|]. intros c2 HF2 (M2 & G2 & T2 & _).
  apply wp_bind. eapply wp_upd_bd_off; [done|done|done|done|]. intros c3 HF3 (M3 & G3 & T3 & _).
  refine (wp_avl_insert S i _ _ (rtems_bdbuf_make_empty i) Q c3 o HF3 _ _ _);
    [done|apply T3, T2, T1, Hk|]. intros c4 HF4 M4 G4.
  eapply wp_set_state; [done|by left|]. intros c5 HF5 (M5 & G5 & _).
  apply HQ; [done|congruence|]. intros g. rewrite G5. unfold group_size at 1. rewrite G4.
  change (group_size c3 g = group_size c g). by rewrite G3, G2, G1.
Qed.

(** ** Waiting *)

(** A buffer of the tree one may wait for: the invariant holds but for a
    buffer without data that nobody waits for. *)
Definition Open (i : nat) (k : Z * Z) (c : cache) : Prop :=
  exists r b, Focus ∅ i r b c /\ Live c i /\ row r c b /\ 0 <= bd_waiters b /\
    bd_state b <> FREE /\ bd_key b = k.

Lemma Inv_Live c i b :
  Inv c -> bds c !! i = Some b -> 0 < bd_waiters b -> Live c i.
Proof.
  intros HI Hb Hw. pose proof (Inv_group c i b HI Hb) as Hg. destruct HI as (Hh & rho & HP & HR).
  specialize (HR i b Hb) as [_ HR]. unfold Live. rewrite <- Hg. destruct (liveb _ _ _); [done|lia].
Qed.

(** What an operation carries through its waits: a property of the
    cache that bookkeeping and the other threads keep. *)
Section Waiting.
Context (X : env -> Prop) (J : cache -> Prop).
Context (J_book : forall c c', bookkeeping c c' -> J c -> J c').
Context (J_env : forall e claims c, X e -> Inv c -> J c -> J (ev_act e claims c)).

Lemma wp_anonymous_wait claims k Q c o :
  Forall (env_ok X) o -> Inv c -> J c ->
  (forall c' o', Forall (env_ok X) o' -> (length o' < length o)%nat -> Inv c' -> J c' ->
     (forall i b, i ∈ claims -> bds c !! i = Some b ->
        exists b', bds c' !! i = Some b' /\ bd_key b' = bd_key b /\
          (0 < bd_waiters b -> 0 < bd_waiters b')) -> Q tt c' o') ->
  wp (rtems_bdbuf_anonymous_wait claims k) Q c o.
Proof.
  intros Ho HI HJ HQ. unfold rtems_bdbuf_anonymous_wait. apply wp_bind, wp_modify, wp_bind.
  pose proof (upd_waiters_bookkeeping k (fun w => set_w_count (w_count w + 1) w) c) as Hb1.
  set (c1 := upd_waiters _ _ _) in *.
  assert (Inv c1) as HI1 by (eapply Inv_similar, HI; apply upd_waiters_similar).
  apply (wp_yield_env X); [done|done|]. intros e o' -> HX Ho' HI' Hk. apply wp_modify.
  set (f := fun w => set_w_count (w_count w - 1) w).
  destruct (upd_waiters_similar k f (ev_act e claims c1)) as (E1 & _).
  apply HQ; [done|simpl; lia|by eapply Inv_similar, HI'; apply upd_waiters_similar| |].
  - eapply J_book; [apply upd_waiters_bookkeeping|]. apply J_env; [done|done|]. by eapply J_book.
  - intros i b Hi Hb. destruct (Hk i b Hi) as (b' & ? & ? & ? & _); [by unfold c1; destruct k|].
    exists b'. by rewrite E1.
Qed.

Lemma wp_wait i k key Q c o :
  Forall (env_ok X) o -> Open i key c -> J c ->
  (forall c' o', Forall (env_ok X) o' -> (length o' < length o)%nat -> Open i key c' -> J c' ->
     Q tt c' o') ->
  wp (rtems_bdbuf_wait i k) Q c o.
Proof.
  intros Ho (r & b & HF & HL & [-> Hs] & Hw & Hfree & Hkey) HJ HQ. unfold rtems_bdbuf_wait.
  apply wp_bind, (wp_leaves _ _ _ _ _ (group_obtain_leaves i)).
  eapply wp_group_obtain; [done|]. intros c1 HF1 Hf1 HB1.
  apply wp_bind, (wp_leaves _ _ _ _ _ (upd_waiters_leaves i _)).
  eapply wp_upd_bd; [done|done|done|by right|]. intros c2 HF2 Hf2 HB2.
  pose proof (frame_trans _ _ _ Hf1 Hf2) as Hf. apply wp_bind.
  apply wp_anonymous_wait; [done| |eapply J_book, J_book; done|].
  { eapply focus_close; [exact HF2|by eapply Live_frame|..]; simpl; [|lia|intros; lia|done].
    split; [|intros; eapply sized_frame; [done|auto]].
    unfold with_units. simpl. f_equal. lia. }
  intros c3 o3 Ho3 Hlt HI3 HJ3 Hk3.
  destruct (Hk3 i _ ltac:(constructor) (focus_lookup _ _ _ _ _ HF2)) as (b3 & Hb3 & Hkey3 & Hw3).
  specialize (Hw3 ltac:(simpl; lia)). pose proof (Inv_Live c3 i b3 HI3 Hb3 Hw3) as HL3.
  destruct (focus_open c3 i b3 HI3 Hb3 HL3) as (r3 & HF3 & [-> Hs3] & _ & _ & Hfree3).
  apply wp_bind, (wp_leaves _ _ _ _ _ (upd_waiters_leaves i _)).
  eapply wp_upd_bd; [done|done|done|by right|]. intros c4 HF4 Hf4 HB4.
  apply (wp_leaves _ _ _ _ _ (group_release_leaves i)).
  eapply wp_group_release; [done|]. intros c5 HF5 Hf5 HB5.
  pose proof (frame_trans _ _ _ Hf4 Hf5) as Hf'.
  apply HQ; [done|done| |eapply J_book, J_book; done]. eexists _, _. split; [exact HF5|].
  split; [by eapply Live_frame|]. split_and!; simpl.
  - split; [unfold with_units; simpl; f_equal; lia|].
    intros Hx. eapply sized_frame; [done|]. auto.
  - lia.
  - intros E. specialize (Hfree3 E). lia.
  - exact (eq_trans Hkey3 Hkey).
Qed.

(** ** Acquiring a buffer *)

(** The buffer is taken off its list, and no caller holds it. *)
Definition Acquired (i : nat) (k : Z * Z) (c : cache) : Prop :=
  exists b, Focus ∅ i (mk_role true Nowhere (bd_waiters b)) b c /\ Live c i /\ sized c b /\
    0 <= bd_waiters b /\ bd_key b = k /\
    (bd_state b = CACHED \/ bd_state b = EMPTY \/ bd_state b = MODIFIED).

Lemma wp_wait_for_access i key Q c o :
  Forall (env_ok X) o -> Open i key c -> J c ->
  (forall c' o', Forall (env_ok X) o' -> Acquired i key c' -> J c' -> Q tt c' o') ->
  wp (rtems_bdbuf_wait_for_access i) Q c o.
Proof.
  intros Ho HO HJ HQ. unfold rtems_bdbuf_wait_for_access.
  apply (wp_while_true X (fun c => Open i key c /\ J c)); [|done|done]. clear c o Ho HO HJ.
  intros c o Ho [HO HJ]. pose proof HO as (r & b & HF & HL & [-> Hs] & Hw & Hfree & Hkey).
  apply wp_bind. eapply wp_get_bd; [by eapply focus_lookup|].
  specialize (Hs Hfree).
  assert (forall c', Focus ∅ i (mk_role true Nowhere (bd_waiters b)) b c' -> frame c c' ->
    bd_state b = CACHED \/ bd_state b = EMPTY \/ bd_state b = MODIFIED -> Acquired i key c') as HA.
  { intros c' HF' Hf Hst. exists b. split_and!; try done; [by eapply Live_frame|by eapply sized_frame]. }
  destruct (bd_state b) eqn:Est; try done; simpl;
    try (apply wp_bind; eapply wp_wait; [done|done|done|]; intros c' o' Ho' Hlt HO' HJ'; by apply wp_ret).
  - apply wp_ret. apply HQ; [done| |done]. apply HA; [done|done|auto].
  - apply wp_bind, (wp_leaves _ _ _ _ _ (extract_leaves i)).
    eapply wp_extract; [done|done|]. intros c' HF' Hf _ HB.
    apply wp_ret. apply HQ; [done| |by eapply J_book]. apply HA; [done|done|auto].
  - apply wp_bind, (wp_leaves _ _ _ _ _ (group_release_leaves i)).
    eapply wp_group_release; [done|]. intros c1 HF1 Hf1 HB1.
    apply wp_bind, (wp_leaves _ _ _ _ _ (extract_leaves i)).
    eapply wp_extract; [done|done|]. intros c2 HF2 Hf2 _ HB2.
    apply wp_ret. apply HQ; [done| |eapply J_book, J_book; done].
    assert (with_where Nowhere (with_units (1 + bd_waiters b - 1) (mk_role true InModified (1 + bd_waiters b)))
            = mk_role true Nowhere (bd_waiters b)) as Er.
    { unfold with_where, with_units. simpl. f_equal. lia. }
    apply HA; [by rewrite <- Er|by eapply frame_trans|auto].
Qed.
End Waiting.

(** ** Reallocating a group *)

Lemma group_members_elem max g n from i :
  0 < n <= max -> 0 <= from ->
  i ∈ group_members (g * Z.to_nat max) (stride max n) from n <->
  group_of max i = g /\ liveb max n i = true /\ from * stride max n <= Z.of_nat i mod max.
Proof.
  intros Hn Hf. unfold group_members, liveb. set (s := stride max n).
  assert (1 <= s) as Hs by (apply Z.div_le_lower_bound; lia).
  assert (n * s <= max) as Hsm by (apply Z.mul_div_le; lia).
  rewrite list_elem_of_fmap, andb_true_iff, Z.eqb_eq, Z.ltb_lt. unfold group_of. split.
  - intros (b & -> & Hb). apply elem_of_seqZ in Hb.
    assert (0 <= b * s /\ b * s < max) as Hbs by nia.
    replace (Z.of_nat (g * Z.to_nat max + Z.to_nat (b * s))) with (Z.of_nat g * max + b * s) by lia.
    assert ((Z.of_nat g * max + b * s) / max = Z.of_nat g) as ->
      by (symmetry; apply Z.div_unique with (b * s); lia).
    assert ((Z.of_nat g * max + b * s) mod max = b * s) as ->
      by (symmetry; apply Z.mod_unique with (Z.of_nat g); lia).
    rewrite Z.mod_mul, Z.div_mul by lia. split_and!; try lia. apply Z.mul_le_mono_nonneg_r; lia.
  - intros (Hg & (Hm & Hd) & Hfr).
    pose proof (Z.div_mod (Z.of_nat i) max ltac:(lia)) as E1.
    pose proof (Z.div_mod (Z.of_nat i mod max) s ltac:(lia)) as E2.
    pose proof (Z.mod_pos_bound (Z.of_nat i) max ltac:(lia)).
    assert (0 <= Z.of_nat i / max) by (apply Z.div_pos; lia).
    set (b := Z.of_nat i mod max / s) in *. exists b. split.
    + apply Nat2Z.inj. rewrite Nat2Z.inj_add, Nat2Z.inj_mul, !Z2Nat.id by nia. subst g.
      rewrite Z2Nat.id by lia. lia.
    + apply elem_of_seqZ. rewrite Hm in E2. nia.
Qed.

Lemma group_members_NoDup first s from n : 0 < s -> 0 <= from -> NoDup (group_members first s from n).
Proof.
  intros Hs Hf. unfold group_members. apply NoDup_fmap_2_strong; [|apply NoDup_seqZ].
  intros x y Hx%elem_of_seqZ Hy%elem_of_seqZ E.
  assert (x * s = y * s) by nia. nia.
Qed.

(** The invariant but for the descriptors of [S], which are taken out. *)
Definition Det (S : gset nat) (c : cache) : Prop :=
  held c /\ exists rho, Phys rho c /\
  forall j bj, bds c !! j = Some bj -> if decide (j ∈ S) then Off (rho j) bj else Rest (rho j) c j bj.

Lemma Inv_Det c : Inv c -> Det ∅ c.
Proof.
  intros (Hh & rho & HP & HR). split; [done|]. exists rho. split; [done|]. intros j bj Hj.
  rewrite decide_False by set_solver. by apply HR.
Qed.

Lemma Det_Focus S c i b :
  Det S c -> bds c !! i = Some b ->
  exists r, Focus S i r b c /\ if decide (i ∈ S) then Off r b else Rest r c i b.
Proof.
  intros (Hh & rho & HP & HR) Hb. exists (rho i). split; [|by apply HR].
  split_and!; [done..|]. exists rho. split_and!; [done..|]. intros j bj _. apply HR.
Qed.

Lemma Focus_Det S S' c i r b :
  Focus S i r b c -> (if decide (i ∈ S') then Off r b else Rest r c i b) ->
  (forall j, j <> i -> j ∈ S' <-> j ∈ S) -> Det S' c.
Proof.
  intros (Hh & Hb & rho & HP & Hr & HR) Hi HS. split; [done|]. exists rho. split; [done|].
  intros j bj Hj. destruct (decide (j = i)) as [->|Hne].
  - rewrite Hr. assert (bj = b) as -> by congruence. done.
  - specialize (HR j bj Hne Hj). destruct (decide (j ∈ S)) as [E|E].
    + by rewrite decide_True by (by apply HS).
    + by rewrite decide_False by (by rewrite HS).
Qed.

(** A descriptor that its group is not split in is out as well. *)
Lemma Det_nonlive S S' c :
  Det S c -> (forall j, Live c j -> j ∈ S' <-> j ∈ S) -> Det S' c.
Proof.
  intros (Hh & rho & HP & HR) HS. split; [done|]. exists rho. split; [done|].
  intros j bj Hj. specialize (HR j bj Hj).
  destruct (liveb (max_bds_per_group c) (group_size c (bd_group bj)) j) eqn:El.
  - specialize (HS j). unfold Live in HS. rewrite <- (geo_group c (ph_geo _ _ HP) j bj Hj) in HS.
    specialize (HS El). destruct (decide (j ∈ S)).
    + by rewrite decide_True by tauto.
    + by rewrite decide_False by tauto.
  - assert (Off (rho j) bj /\ Rest (rho j) c j bj) as [HO Hre].
    { unfold Rest in *. rewrite El in *. unfold Off in *.
      destruct (decide (j ∈ S)); destruct_and?; split_and?; try done; lia. }
    destruct (decide (j ∈ S')); assumption.
Qed.

Lemma wp_remove_all L : forall S Q c o,
  Det S c -> NoDup L ->
  (forall i, i ∈ L -> (i ∉ S) /\ Live c i /\ exists b, bds c !! i = Some b /\
     idle (bd_state b) = true /\ bd_waiters b = 0) ->
  (forall c', Det (list_to_set L ∪ S) c' -> frame c c' -> bds c' = bds c -> Q tt c' o) ->
  wp (for_each L rtems_bdbuf_remove_from_tree_and_lru_list) Q c o.
Proof.
  induction L as [|i L IH]; intros S Q c o HD HN HL HQ; simpl.
  { apply wp_ret. apply HQ; [|done|done]. by rewrite list_to_set_nil, union_empty_l_L. }
  apply NoDup_cons in HN as [Hi HN].
  destruct (HL i ltac:(constructor)) as (HiS & HLi & b & Hb & Hidle & Hw).
  destruct (Det_Focus S c i b HD Hb) as (r & HF & Hr).
  rewrite decide_False in Hr by done. destruct Hr as [_ Hr].
  assert (bd_group b = group_of (max_bds_per_group c) i) as Hg.
  { destruct HD as (_ & rho & HP & _). by apply (geo_group c (ph_geo _ _ HP)). }
  rewrite Hg, HLi in Hr. destruct Hr as ([-> _] & _ & _).
  assert (tb_where (bd_state b) = InLru /\ tb_user (bd_state b) = 0) as [E1 E2]
    by (by destruct (bd_state b)).
  rewrite E1, E2, Hw in HF.
  apply wp_bind. eapply wp_remove_from_tree_and_lru_list; [done|done|]. intros c1 HF1 Hf1 Hb1.
  apply (IH ({[i]} ∪ S)).
  - eapply Focus_Det; [done| |set_solver]. rewrite decide_True by set_solver. done.
  - done.
  - intros j Hj. destruct (HL j ltac:(by constructor)) as (HjS & HLj & bj & Hbj & ?).
    split_and!; [set_solver|by eapply Live_frame|]. exists bj. by rewrite Hb1.
  - intros c2 HD2 Hf2 Hb2. apply HQ; [|by eapply frame_trans|congruence].
    rewrite list_to_set_cons. by replace ({[i]} ∪ list_to_set L ∪ S) with (list_to_set L ∪ ({[i]} ∪ S)) by set_solver.
Qed.

Lemma wp_free_all L : forall S Q c o,
  Det S c -> NoDup L ->
  (forall i, i ∈ L -> i ∈ S /\ Live c i /\ exists b, bds c !! i = Some b) ->
  (forall c', Det (S ∖ list_to_set L) c' -> frame c c' -> Q tt c' o) ->
  wp (for_each L rtems_bdbuf_make_free_and_add_to_lru_list) Q c o.
Proof.
  induction L as [|i L IH]; intros S Q c o HD HN HL HQ; simpl.
  { apply wp_ret. apply HQ; [|done]. by rewrite list_to_set_nil, difference_empty_L. }
  apply NoDup_cons in HN as [Hi HN].
  destruct (HL i ltac:(constructor)) as (HiS & HLi & b & Hb).
  destruct (Det_Focus S c i b HD Hb) as (r & HF & Hr).
  rewrite decide_True in Hr by done. destruct Hr as (-> & Hw & Hidle).
  assert (H !! i = None) as HH.
  { destruct HD as (Hh & _). eapply held_None; [done|done|]. by destruct (bd_state b). }
  apply wp_bind. eapply wp_make_free_and_add_to_lru_list; [done|done|done|]. intros c1 HF1 Hf1.
  apply (IH (S ∖ {[i]})).
  - eapply Focus_Det; [done| |set_solver]. rewrite decide_False by set_solver.
    split; [simpl; lia|]. pose proof (Live_frame _ _ _ Hf1 HLi) as HL1. unfold Live in HL1.
    assert (bd_group b = group_of (max_bds_per_group c1) i) as Hg.
    { destruct HF1 as (_ & Hb1 & rho & HP & _). by apply (geo_group c1 (ph_geo _ _ HP) i _ Hb1). }
    simpl. rewrite Hg, HL1. split_and!; try done. split; [|done]. simpl. by rewrite Hw.
  - done.
  - intros j Hj. destruct (HL j ltac:(by constructor)) as (HjS & HLj & bj & Hbj).
    split_and!; [set_solver|by eapply Live_frame|]. apply lookup_lt_is_Some. destruct Hf1 as (_ & _ & _ & ->).
    by eapply lookup_lt_Some.
  - intros c2 HD2 Hf2. apply HQ; [|by eapply frame_trans].
    rewrite list_to_set_cons. by replace (S ∖ ({[i]} ∪ list_to_set L)) with (S ∖ {[i]} ∖ list_to_set L) by set_solver.
Qed.

(** No descriptor of a group without users is in use. *)
Lemma group_unused c g gr i b :
  Inv c -> groups c !! g = Some gr -> g_users gr = 0 ->
  bds c !! i = Some b -> group_of (max_bds_per_group c) i = g ->
  idle (bd_state b) = true /\ bd_waiters b = 0.
Proof.
  intros (Hh & rho & HP & HR) Hg Hu Hb Hi. pose proof (geo_max c (ph_geo _ _ HP)) as Hm.
  assert (forall j bj, bds c !! j = Some bj -> 0 <= r_units (rho j)) as Hnn.
  { intros j bj Hj. destruct (HR j bj Hj) as [Hw Hr].
    destruct (liveb _ _ _); [destruct Hr as ([-> _] & _); destruct (bd_state bj); simpl; lia|].
    destruct Hr as (-> & _). done. }
  assert (forall j, j ∈ members (max_bds_per_group c) g -> exists bj, bds c !! j = Some bj) as Hex.
  { intros j Hj. apply lookup_lt_is_Some. apply lookup_lt_Some in Hg.
    pose proof (geo_bds c (ph_geo _ _ HP)) as Hl. unfold members in Hj. apply elem_of_seq in Hj. nia. }
  assert (r_units (rho i) = 0) as H0.
  { apply (sumZ_0 (fun j => r_units (rho j)) (members (max_bds_per_group c) g)).
    - intros j Hj. destruct (Hex j Hj) as [bj Hbj]. by eapply Hnn.
    - rewrite <- Hu. symmetry. by apply (ph_users _ _ HP).
    - by apply members_spec. }
  destruct (HR i b Hb) as [Hw Hr]. destruct (liveb _ _ _).
  - destruct Hr as ([Er _] & He & _). rewrite Er in H0. simpl in H0.
    destruct (bd_state b); simpl in *; split; try done; try lia; specialize (He eq_refl); lia.
  - destruct Hr as (_ & ? & ?). done.
Qed.

(** Changing the size of a group all of whose descriptors are out. *)
Lemma Det_resize S c g gr n :
  Det S c -> groups c !! g = Some gr -> 0 < n <= max_bds_per_group c ->
  (forall j, group_of (max_bds_per_group c) j = g -> j ∈ S) ->
  Det S (set_groups (<[g := set_g_bds_per_group n gr]> (groups c)) c).
Proof.
  intros (Hh & rho & HP & HR) Hg Hn HS. split; [done|]. exists rho. split.
  - destruct HP as [[g1 g2 g3 g4 g5 g6] ? ? ? ? ? HT HU ? ?]. split; simpl; try done.
    + split; simpl; rewrite ?length_insert; try done.
      intros g' gr' Hg'. apply list_lookup_insert_Some in Hg' as [(<- & <- & _)|[_ Hg']]; [|by apply g5].
      simpl. destruct (g5 g gr Hg). done.
    + intros g' gr' Hg'. apply list_lookup_insert_Some in Hg' as [(<- & <- & _)|[_ Hg']];
        [exact (HU _ _ Hg)|exact (HU _ _ Hg')].
  - intros j bj Hj. specialize (HR j bj Hj). simpl in *. destruct (decide (j ∈ S)) as [|Hj']; [done|].
    assert (bd_group bj <> g) as Hne.
    { intros E. apply Hj', HS. rewrite <- E. symmetry. by apply (geo_group c (ph_geo _ _ HP)). }
    unfold Rest, row, sized in *. simpl.
    replace (group_size _ (bd_group bj)) with (group_size c (bd_group bj)); [done|].
    unfold group_size. simpl. by rewrite list_lookup_insert_ne.
Qed.

(** A descriptor given to a new block: out of everything, live, not waited
    for, not held. *)
Definition Fresh (i : nat) (n : Z) (c : cache) : Prop :=
  exists b, Focus ∅ i row_off b c /\ Live c i /\ H !! i = None /\
    group_size c (bd_group b) = n /\ bd_waiters b = 0 /\ 0 < n.

(** The descriptors of a group. *)
Definition group_set (max : Z) (g : nat) : gset nat := list_to_set (members max g).

Lemma group_set_spec max g j : 0 < max -> j ∈ group_set max g <-> group_of max j = g.
Proof. intros Hm. unfold group_set. rewrite elem_of_list_to_set. by apply members_spec. Qed.

Lemma geo_member c g j :
  geometry c -> (g < length (groups c))%nat -> group_of (max_bds_per_group c) j = g ->
  exists b, bds c !! j = Some b.
Proof.
  intros G Hg Hj. pose proof (geo_bds c G) as Hl. pose proof (geo_max c G) as Hm.
  apply members_spec in Hj; [|done]. apply lookup_lt_is_Some. unfold members in Hj.
  apply elem_of_seq in Hj. nia.
Qed.

Lemma geo_groups_length c c' :
  geometry c -> geometry c' -> frame c c' -> length (groups c') = length (groups c).
Proof.
  intros G G' (M & _ & _ & L). pose proof (geo_bds c G) as E. pose proof (geo_bds c' G') as E'.
  pose proof (geo_max c G). rewrite M, L in E'. nia.
Qed.

(** The first loop of the reallocation takes the whole group out. *)
Lemma wp_clear_group g gr c o :
  Inv c -> groups c !! g = Some gr -> g_users gr = 0 ->
  wp (for_each (group_members (g_bdbuf gr) (max_bds_per_group c / g_bds_per_group gr) 0
                  (g_bds_per_group gr)) rtems_bdbuf_remove_from_tree_and_lru_list)
    (fun _ c' o' => o' = o /\ Det (group_set (max_bds_per_group c) g) c' /\ frame c c') c o.
Proof.
  intros HI Hg Hu.
  assert (geometry c) as G by (destruct HI as (_ & rho & HP & _); apply HP).
  destruct (geo_groups c G g gr Hg) as [Hfirst Hold]. pose proof (geo_max c G) as Hmax.
  rewrite Hfirst. fold (stride (max_bds_per_group c) (g_bds_per_group gr)).
  pose proof (fun i => group_members_elem (max_bds_per_group c) g (g_bds_per_group gr) 0 i Hold ltac:(lia)) as Hm1.
  set (L := group_members _ _ 0 _) in *.
  assert (forall i, i ∈ L <-> group_of (max_bds_per_group c) i = g /\ Live c i) as HL.
  { intros i. rewrite Hm1. unfold Live. pose proof (Z.mod_pos_bound (Z.of_nat i) _ Hmax).
    split; [intros (E & E2 & _)|intros (E & E2)];
      rewrite E, (group_size_lookup c g gr Hg) in *; [done|]. split_and!; try done; lia. }
  apply (wp_remove_all L ∅); [by apply Inv_Det| | |].
  - apply group_members_NoDup; [|lia]. apply Z.div_str_pos; lia.
  - intros i [Hi HLi]%HL. split_and!; [apply not_elem_of_empty|done|].
    destruct (geo_member c g i G ltac:(by eapply lookup_lt_Some) Hi) as [b Hb].
    exists b. split; [done|]. by eapply group_unused.
  - intros c1 HD1 Hf1 Hb1. split_and!; [done| |done].
    rewrite union_empty_r_L in HD1. eapply Det_nonlive; [exact HD1|]. intros j Hj.
    rewrite group_set_spec, elem_of_list_to_set, HL by done.
    assert (Live c j) as Hj' by (destruct Hf1 as (F1 & F2 & _); unfold Live in *; by rewrite F1, F2 in Hj).
    tauto.
Qed.

(** The second loop puts all but the first of its new descriptors on the LRU
    list. *)
Lemma wp_split_group g n c o :
  Det (group_set (max_bds_per_group c) g) c -> (g < length (groups c))%nat ->
  group_size c g = n -> 0 < n <= max_bds_per_group c ->
  wp (for_each (group_members (g * Z.to_nat (max_bds_per_group c)) (max_bds_per_group c / n) 1 n)
        rtems_bdbuf_make_free_and_add_to_lru_list)
    (fun _ c' o' => o' = o /\ Fresh (g * Z.to_nat (max_bds_per_group c)) n c' /\ frame c c') c o.
Proof.
  intros HD Hg Hgs Hn.
  assert (geometry c) as G by (destruct HD as (_ & rho & HP & _); apply HP).
  set (max := max_bds_per_group c) in *. fold (stride max n).
  pose proof (Z.div_str_pos max n ltac:(lia)) as Hstr. fold (stride max n) in Hstr.
  pose proof (fun i => group_members_elem max g n 1 i Hn ltac:(lia)) as Hm.
  pose proof (group_members_elem max g n 0 (g * Z.to_nat max) Hn ltac:(lia)) as Hm0.
  set (first := (g * Z.to_nat max)%nat) in *. set (L := group_members _ _ 1 _) in *.
  assert (first ∈ group_members first (stride max n) 0 n) as Hfirst.
  { apply list_elem_of_fmap. exists 0. split; [simpl; lia|]. apply elem_of_seqZ. lia. }
  apply Hm0 in Hfirst as (Hf1 & Hf2 & _). clear Hm0.
  assert (Live c first) as HLf by (unfold Live; fold max; by rewrite Hf1, Hgs).
  assert (Z.of_nat first mod max = 0) as Hfm.
  { unfold first. rewrite Nat2Z.inj_mul, Z2Nat.id by lia. apply Z.mod_mul. lia. }
  destruct (geo_member c g first G Hg Hf1) as [bf Hbf].
  apply (wp_free_all L (group_set max g)); [done|apply group_members_NoDup; lia| |].
  - intros i (Hi & HLi & _)%Hm. split_and!; [by apply group_set_spec; [lia|]| |by eapply geo_member].
    unfold Live. fold max. by rewrite Hi, Hgs.
  - intros c' HD' Hf. split_and!; [done| |done]. pose proof Hf as (M & Gs & T & Len).
    assert (Det {[first]} c') as HD2.
    { eapply Det_nonlive; [exact HD'|]. intros j Hj.
      unfold Live in Hj. rewrite M, Gs in Hj. fold max in Hj.
      rewrite elem_of_difference, group_set_spec, elem_of_list_to_set, Hm, elem_of_singleton by lia.
      split; [intros ->; split; [done|intros (_ & _ & ?); lia]|].
      intros [Hjg HjL]. rewrite Hjg, Hgs in Hj.
      assert (Z.of_nat j mod max < 1 * stride max n) as Hlt by (apply Z.nle_gt; intros ?; by apply HjL).
      unfold liveb in Hj. apply andb_prop in Hj as [Hj1 _]. apply Z.eqb_eq in Hj1.
      pose proof (Z.mod_pos_bound (Z.of_nat j) max ltac:(lia)).
      rewrite Z.mod_small in Hj1 by lia.
      unfold first, group_of in *. pose proof (Z.div_mod (Z.of_nat j) max ltac:(lia)).
      assert (0 <= Z.of_nat j / max) by (apply Z.div_pos; lia). subst g. nia. }
    destruct (lookup_lt_is_Some_2 (bds c') first) as [b Hb].
    { rewrite Len. by eapply lookup_lt_Some. }
    destruct (Det_Focus _ c' first b HD2 Hb) as (r & HF & Hr). rewrite decide_True in Hr by set_solver.
    destruct Hr as (-> & Hw & Hidle). exists b.
    assert (bd_group b = g) as Hbg.
    { destruct HD2 as (_ & rho & HP & _). rewrite (geo_group c' (ph_geo _ _ HP) first b Hb), M. done. }
    split_and!; [|by eapply Live_frame| |by rewrite Hbg, Gs|done|lia].
    + destruct HF as (Hh & _ & rho & HP & Hr & HR). split_and!; [done..|]. exists rho.
      split_and!; [done..|]. intros j bj Hj Hbj. specialize (HR j bj Hj Hbj).
      rewrite decide_False in HR by set_solver. rewrite decide_False by set_solver. done.
    + destruct HF as (Hh & _). eapply held_None; [done|done|]. by destruct (bd_state b).
Qed.

Lemma Fresh_similar i n c c' : similar c c' -> Fresh i n c -> Fresh i n c'.
Proof.
  intros Hs (b & HF & HL & Hi & Hg & Hw). exists b.
  pose proof (similar_frame _ _ Hs) as Hf. split_and!; try done; try tauto.
  - by eapply Focus_similar.
  - by eapply Live_frame.
  - destruct Hf as (_ & Gs & _). by rewrite Gs.
Qed.

Lemma wp_group_realloc g gr n Q c o :
  Inv c -> groups c !! g = Some gr -> g_users gr = 0 -> 0 < n <= max_bds_per_group c ->
  (forall e c', Fresh e n c' ->
     (forall k, contents (tree c) !! k = None -> contents (tree c') !! k = None) -> Q e c' o) ->
  wp (rtems_bdbuf_group_realloc g n) Q c o.
Proof.
  intros HI Hg Hu Hn HQ.
  assert (geometry c) as G by (destruct HI as (_ & rho & HP & _); apply HP).
  destruct (geo_groups c G g gr Hg) as [Hfirst Hold].
  unfold rtems_bdbuf_group_realloc. apply wp_bind, wp_get_cache, wp_bind. eapply wp_get_group; [done|].
  rewrite (proj2 (Z.eqb_neq (g_bds_per_group gr) 0)), (proj2 (Z.eqb_neq n 0)) by lia. simpl orb.
  apply wp_bind. eapply wp_mono; [by apply wp_clear_group|].
  intros _ c1 o1 (-> & HD1 & Hf1). pose proof Hf1 as (M1 & G1 & T1 & _).
  assert (geometry c1) as G' by (destruct HD1 as (_ & rho & HP & _); apply HP).
  destruct (lookup_lt_is_Some_2 (groups c1) g) as [gr1 Hg1].
  { rewrite (geo_groups_length c c1 G G' Hf1). by eapply lookup_lt_Some. }
  unfold upd_group. apply wp_bind, wp_bind. eapply wp_get_group; [done|]. apply wp_modify.
  set (c2 := set_groups _ c1).
  assert (Det (group_set (max_bds_per_group c2) g) c2) as HD2.
  { change (max_bds_per_group c2) with (max_bds_per_group c1). rewrite M1.
    apply Det_resize; [done|done|by rewrite M1|].
    intros j Hj. rewrite M1 in Hj. apply group_set_spec; [apply geo_max, G|done]. }
  rewrite Hfirst, <- M1. change (max_bds_per_group c1) with (max_bds_per_group c2).
  apply wp_bind. eapply wp_mono; [apply (wp_split_group g n c2 o HD2)|].
  - simpl. rewrite length_insert. by eapply lookup_lt_Some.
  - unfold group_size. simpl. by rewrite list_lookup_insert_eq by (by eapply lookup_lt_Some).
  - simpl. by rewrite M1.
  - intros _ c3 o3 (-> & HF3 & Hf3). pose proof Hf3 as (_ & _ & T3 & _). apply wp_bind.
    assert (forall k, contents (tree c) !! k = None -> contents (tree c3) !! k = None) as HT.
    { intros k Hk. apply T3. simpl. by apply T1. }
    destruct (1 <? n); [apply wp_wake|apply wp_ret].
    + intros c4 Hs. apply wp_ret. apply HQ; [by eapply Fresh_similar|].
      destruct Hs as (_ & _ & _ & _ & _ & _ & -> & _). done.
    + apply wp_ret. by apply HQ.
Qed.
End Logic. End Inv.
