(* ===== verification/BdbufSafe.v ===== *)
(** * The operations of the block cache keep its invariant

    For every operation of the API: run from a cache that satisfies the
    invariant, with any number of steps of other threads that satisfy it at
    the points where the lock is given up, the operation never reaches
    [rtems_bdbuf_fatal], never unlinks a buffer that is on no list, never
    loops without giving the lock up, and ends in the invariant again. *)
From Stdlib Require Import ZArith Lia Bool.
From stdpp Require Import base list gmap numbers.
From S2P Require Import Prelude BdbufAvl BdbufState Bdbuf BdbufStep BdbufInv.
Import Avl BdState Bdbuf Step Inv.

Module Safe.

Section Safe.
Context (H : gmap nat (hold * (Z * Z))) (D : gmap Z geom) (X : env -> Prop).
Abbreviation Inv := (Inv H D).
Abbreviation Focus := (Focus H D ∅).
Abbreviation Open := (Open H D).
Abbreviation Acquired := (Acquired H D).
Abbreviation env_ok := (env_ok H D X).
Abbreviation sized := (sized D).
Abbreviation row := (row D).

(** ** Getting a buffer *)

(** A buffer just recycled for a block. *)
Definition Recycled (i : nat) (k : Z * Z) (c : cache) : Prop :=
  exists b, Focus i (mk_role true Nowhere 0) b c /\ Live c i /\ sized c b /\
    bd_waiters b = 0 /\ bd_state b = EMPTY /\ bd_key b = k.

Lemma Recycled_Open i k c : Recycled i k c -> Open i k c.
Proof.
  intros (b & HF & HL & Hs & Hw & He & Hk). exists (mk_role true Nowhere 0), b.
  unfold row. rewrite Hw, He. split_and!; try done.
Qed.

Lemma list_member c i l :
  Inv c -> l <> Nowhere ->
  (i ∈ match l with InLru => lru c | InModified => modified c | InSync => sync c | Nowhere => [] end) ->
  exists b, bds c !! i = Some b /\ tb_where (bd_state b) = l /\ Live c i.
Proof.
  intros HI Hl Hi. pose proof HI as (Hh & rho & HP & HR).
  assert (i ∈ lru c ++ modified c ++ sync c) as Hin by (rewrite !elem_of_app; destruct l; tauto).
  pose proof (geo_links c (ph_geo _ _ _ HP) i Hin) as Hlt.
  apply lookup_lt_is_Some in Hlt as [b Hb]. exists b. split; [done|].
  assert (r_where (rho i) = l) as Hw by (destruct l; [done|by apply HP..]).
  pose proof (Inv_group H D c i b HI Hb) as Hg.
  destruct (HR i b Hb) as [_ Hr]. unfold Live. rewrite <- Hg.
  destruct (liveb _ _ _).
  - destruct Hr as ([Er _] & _). rewrite Er in Hw. done.
  - destruct Hr as (Er & _). rewrite Er in Hw. simpl in Hw. by subst l.
Qed.

Lemma lru_member c i :
  Inv c -> i ∈ lru c ->
  exists b, bds c !! i = Some b /\ idle (bd_state b) = true /\ Live c i /\ H !! i = None.
Proof.
  intros HI Hi. destruct (list_member c i InLru HI) as (b & Hb & Hw & HL); [done|done|].
  assert (idle (bd_state b) = true) as Hid by (by destruct (bd_state b)).
  exists b. split_and!; try done. eapply held_None; [apply HI|done|]. by destruct (bd_state b).
Qed.

(** A usable device. *)
Definition Usable (c : cache) (dd : Z) (g : geom) : Prop :=
  D !! dd = Some g /\ 0 < ge_bpg g <= max_bds_per_group c.

Lemma wp_setup_recycled i u b dd block g Q c o :
  Focus i (mk_role false Nowhere u) b c -> u = 0 -> H !! i = None -> Live c i ->
  D !! dd = Some g -> ge_bpg g = group_size c (bd_group b) ->
  contents (tree c) !! (dd, block) = None ->
  (forall c', Recycled i (dd, block) c' -> Q tt c' o) ->
  wp (rtems_bdbuf_setup_empty_buffer i dd block) Q c o.
Proof.
  intros HF -> Hi HL Hd Hs Hk HQ. eapply wp_setup_empty_buffer; [done|done|done|].
  intros c' HF' M' G'. apply HQ. exists (recycled dd block b). split_and!; try done.
  - unfold Live. by rewrite M', G'.
  - exists g. simpl. by rewrite G'.
Qed.

Lemma wp_get_buffer_from nodes dd block g Q c o :
  Inv c -> Usable c dd g -> contents (tree c) !! (dd, block) = None ->
  (forall i, i ∈ nodes -> i ∈ lru c) ->
  (forall i c', Recycled i (dd, block) c' -> Q (Some i) c' o) -> Q None c o ->
  wp (get_buffer_from nodes dd block) Q c o.
Proof.
  intros HI [Hd Hn] Hk. revert HI. induction nodes as [|i nodes IH]; intros HI HL HR HN; simpl.
  { by apply wp_ret. }
  destruct (lru_member c i HI) as (b & Hb & Hid & HLi & Hi); [apply HL; constructor|].
  pose proof HI as (_ & rho & HP & _). pose proof (Inv_group H D c i b HI Hb) as Hbg.
  destruct (disks_lookup D rho c dd g HP Hd) as (d & Hdd & <-).
  destruct (geo_lookup_group c i b (ph_geo _ _ _ HP) Hb) as [gr Hgr].
  assert (wp (get_buffer_from nodes dd block) Q c o) as Hnext.
  { apply IH; try done. intros j Hj. apply HL. by constructor. }
  apply wp_bind. eapply wp_get_bd; [done|]. apply wp_bind. eapply wp_get_disk; [done|].
  apply wp_bind. eapply wp_get_group; [done|]. apply wp_bind.
  destruct (Z.eqb_spec (bd_waiters b) 0) as [Hw|Hw]; [|by apply wp_ret].
  destruct (Z.eqb_spec (g_bds_per_group gr) (bds_per_group d)) as [Hs|Hs].
  - destruct (focus_open H D c i b HI Hb HLi) as (r & HF & [-> Hsz] & _).
    assert (tb_where (bd_state b) = InLru /\ tb_user (bd_state b) = 0) as [E1 E2]
      by (by destruct (bd_state b)).
    rewrite E1, E2, Hw in HF.
    apply wp_bind. eapply wp_remove_from_tree_and_lru_list; [done|done|]. intros c1 HF1 Hf1 _.
    apply wp_ret, wp_bind. pose proof Hf1 as (M1 & G1 & T1 & _).
    eapply wp_setup_recycled; [done|done|done|by eapply Live_frame|done| |by apply T1|].
    + simpl. rewrite G1, (group_size_lookup c _ gr Hgr). done.
    + intros c2 HR2. apply wp_ret. by apply HR.
  - destruct (Z.eqb_spec (g_users gr) 0) as [Hu|Hu]; [|by apply wp_ret].
    apply wp_bind. eapply wp_group_realloc; [done|done|done|done|].
    intros e c1 (b1 & HF1 & HL1 & He & Hg1 & Hw1 & _) HT1. apply wp_ret, wp_bind.
    eapply wp_setup_recycled; [done|done|done|done|done|by rewrite Hg1|by apply HT1|].
    intros c2 HR2. apply wp_ret. by apply HR.
Qed.

Lemma wp_get_buffer_from_lru_list dd block g Q c o :
  Inv c -> Usable c dd g -> contents (tree c) !! (dd, block) = None ->
  (forall i c', Recycled i (dd, block) c' -> Q (Some i) c' o) -> Q None c o ->
  wp (rtems_bdbuf_get_buffer_from_lru_list dd block) Q c o.
Proof.
  intros. unfold rtems_bdbuf_get_buffer_from_lru_list. apply wp_bind, wp_get_cache.
  by eapply wp_get_buffer_from.
Qed.

(** What is in the tree. *)
Lemma tree_member c dd block n g :
  Inv c -> D !! dd = Some g -> contents (tree c) !! (dd, block) = Some n ->
  exists b, bds c !! nd_bd n = Some b /\ bd_key b = (dd, block) /\ Open (nd_bd n) (dd, block) c /\
    group_size c (bd_group b) = ge_bpg g.
Proof.
  intros HI Hg Hn. pose proof HI as (Hh & rho & HP & HR).
  apply (ph_tree _ _ _ HP) in Hn as (b & Hb & Ht & Hk & _).
  pose proof (Inv_group H D c _ b HI Hb) as Hbg. exists b.
  destruct (HR _ b Hb) as [Hw Hr].
  assert (Live c (nd_bd n)) as HL.
  { unfold Live. rewrite <- Hbg. destruct (liveb _ _ _); [done|]. destruct Hr as (Er & _).
    by rewrite Er in Ht. }
  destruct (focus_open H D c _ b HI Hb HL) as (r & HF & Hrow & ?).
  unfold Live in HL. rewrite <- Hbg in HL. rewrite HL in Hr. destruct Hr as ([Er Hs] & _).
  assert (bd_state b <> FREE) as Hfree.
  { intros E. rewrite Er, E in Ht. done. }
  split_and!; try done.
  - exists r, b. split_and!; try done. unfold Live. by rewrite <- Hbg.
  - destruct (Hs Hfree) as (g' & Hg' & Hs'). injection Hk as Hk1 Hk2. rewrite <- Hk1 in Hg'. congruence.
Qed.

Lemma usable c dd g : Inv c -> D !! dd = Some g -> 0 < ge_count g -> Usable c dd g.
Proof.
  intros (_ & rho & HP & _) Hd Hc. split; [done|].
  destruct (ph_geoms _ _ _ HP dd g Hd) as [|(? & _)]; [lia|done].
Qed.

(** What the caller carries through the call: a property that
    bookkeeping, the other threads and the recycling of a buffer keep. *)
Section Carry.
Context (J : cache -> Prop).
Context (J_book : forall c c', bookkeeping c c' -> J c -> J c').
Context (J_env : forall e claims c, X e -> Inv c -> J c -> J (ev_act e claims c)).
Context (J_recycle : forall dd block g, D !! dd = Some g -> 0 < ge_count g ->
  leaves (fun c c' => Inv c -> J c -> J c') (rtems_bdbuf_get_buffer_from_lru_list dd block)).

Lemma wp_wait_for_buffer Q c o :
  Forall env_ok o -> Inv c -> J c ->
  (forall c' o', Forall env_ok o' -> (length o' < length o)%nat -> Inv c' -> J c' -> Q tt c' o') ->
  wp rtems_bdbuf_wait_for_buffer Q c o.
Proof.
  intros Ho HI HJ HQ. unfold rtems_bdbuf_wait_for_buffer. apply wp_bind, wp_get_cache, wp_bind.
  assert (forall c1, similar c c1 -> bookkeeping c c1 ->
    wp (rtems_bdbuf_anonymous_wait [] BufferWaiters) Q c1 o) as Hw.
  { intros c1 Hs HB. eapply (wp_anonymous_wait H D X J J_book J_env);
      [done|by eapply Inv_similar|by eapply J_book|]. auto. }
  destruct (modified c); [by apply wp_ret, Hw|].
  apply (wp_leaves _ _ _ _ _ wake_swapper_leaves), wp_wake_swapper. auto.
Qed.

Lemma wp_get_buffer_for_access dd block g Q c o :
  Forall env_ok o -> Inv c -> J c -> D !! dd = Some g -> 0 < ge_count g ->
  (forall i b c' o', Forall env_ok o' ->
     Focus i (mk_role true Nowhere (bd_waiters b + 1)) b c' -> Live c' i -> sized c' b ->
     0 <= bd_waiters b -> bd_key b = (dd, block) ->
     bd_state b = CACHED \/ bd_state b = EMPTY \/ bd_state b = MODIFIED -> J c' ->
     Q i c' o') ->
  wp (rtems_bdbuf_get_buffer_for_access dd block) Q c o.
Proof.
  intros Ho HI HJ Hd Hc HQ. unfold rtems_bdbuf_get_buffer_for_access. apply wp_bind.
  eapply (wp_while_true H D X (fun c => Inv c /\ J c) _ (fun i c' o' => wp _ Q c' o')); [|done|done].
  clear c o Ho HI HJ. intros c o Ho [HI HJ]. apply wp_bind, wp_get_cache.
  pose proof HI as (_ & rho & HP & _). pose proof (ph_avl _ _ _ HP) as [_ Hs].
  pose proof (search_contents (tree c) (mk_node 0 dd block) Hs) as Hsc. simpl in Hsc.
  change (key (mk_node 0 dd block)) with (dd, block) in Hsc. rewrite Hsc.
  assert (forall i c' o', Forall env_ok o' -> Open i (dd, block) c' -> J c' ->
    wp (_ ← rtems_bdbuf_wait_for_access i; _ ← rtems_bdbuf_group_obtain i; mret i) Q c' o') as Hend.
  { intros i c' o' Ho' HO HJ'. apply wp_bind.
    eapply (wp_wait_for_access H D X J J_book J_env); [done|done|done|].
    intros c2 o2 Ho2 (b & HF & HL & Hsz & Hw & Hk & Hst) HJ2.
    apply wp_bind, (wp_leaves _ _ _ _ _ (group_obtain_leaves i)).
    eapply wp_group_obtain; [done|]. intros c3 HF3 Hf3 HB3. apply wp_ret.
    eapply (HQ i b); try done; [by eapply Live_frame|by eapply sized_frame|by eapply J_book]. }
  destruct (contents (tree c) !! (dd, block)) as [n|] eqn:En.
  - destruct (tree_member c dd block n g HI Hd En) as (b & Hb & Hk & HO & Hg).
    apply wp_bind. eapply wp_get_bd; [done|]. apply wp_bind.
    destruct (geo_lookup_group c _ b (ph_geo _ _ _ HP) Hb) as [gr Hgr].
    eapply wp_get_group; [done|]. apply wp_bind.
    destruct (disks_lookup D rho c dd g HP Hd) as (d & Hdd & Hdg). eapply wp_get_disk; [done|].
    rewrite (group_size_lookup c _ gr Hgr) in Hg. rewrite Hg, <- Hdg. simpl ge_bpg.
    rewrite Z.eqb_refl. simpl negb. apply wp_ret. by apply Hend.
  - apply wp_bind, (wp_leaves _ _ _ _ _ (J_recycle dd block g Hd Hc)).
    eapply wp_get_buffer_from_lru_list; [done|by apply usable|done|..].
    + intros i c' HR HJ'. apply wp_ret. apply Hend; [done| |by apply HJ']. by apply Recycled_Open.
    + intros _. apply wp_bind. apply wp_wait_for_buffer; [done|done|done|].
      intros c' o' Ho' Hlt HI' HJ'. by apply wp_ret.
Qed.
End Carry.

(** The media block of a block of the device; defined for every block the
    count admits. *)
Definition media_block_of (d : disk) (block : Z) : Z :=
  match rtems_bdbuf_get_media_block d block with Done (_, mb) => mb | _ => 0 end.

Lemma get_media_block_ok c rho dd d block :
  Phys D rho c -> disks c !! dd = Some d -> 0 <= block ->
  rtems_bdbuf_get_media_block d block =
    if block <? block_count d then Done (0, media_block_of d block) else Done (- EINVAL, 0).
Proof.
  intros HP Hd Hb. unfold media_block_of, rtems_bdbuf_get_media_block.
  destruct (Z.ltb_spec block (block_count d)) as [Hlt|Hge]; [|done].
  assert (D !! dd = Some (disk_geom d)) as HD.
  { rewrite <- (ph_disks _ _ _ HP), lookup_fmap, Hd. done. }
  destruct (ph_geoms _ _ _ HP dd _ HD) as [Hc|(_ & Hs & Hm)]; [simpl in Hc; lia|].
  simpl in Hs, Hm. unfold rtems_bdbuf_media_block.
  destruct (Z.leb_spec 0 (block_to_media_block_shift d)).
  - by rewrite (proj2 (Z.ltb_lt _ _)).
  - rewrite (proj2 (Z.eqb_neq _ _)) by (apply Hm; lia). done.
Qed.

(** The buffer is with the caller. *)
Definition Given (i : nat) (k : Z * Z) (c : cache) : Prop :=
  H !! i = None /\ exists b, bds c !! i = Some b /\ accessed (bd_state b) = true /\ bd_key b = k.

Lemma given i s b c :
  Focus i (mk_role true Nowhere (bd_waiters b + 1)) (set_bd_state s b) c -> Live c i ->
  sized c b -> 0 <= bd_waiters b -> accessed s = true -> H !! i = None ->
  Inv c /\ Given i (bd_key b) c.
Proof.
  intros HF HL Hsz Hw Hs Hi. split.
  - eapply focus_close; [done|done|..]; simpl; try done; try (by destruct s).
    split; [|done]. simpl. f_equal; destruct s; try done; simpl; lia.
  - split; [done|]. exists (set_bd_state s b). split_and!; try done. by eapply focus_lookup.
Qed.

(** The only live descriptor of its block. *)
Definition sole (i : nat) (c : cache) : Prop :=
  forall j b bj, bds c !! i = Some b -> bds c !! j = Some bj -> Live c j ->
    bd_state bj <> FREE -> bd_key bj = bd_key b -> j = i.

Lemma focus_sole i r b c : Focus i r b c -> r_tree r = true -> sole i c.
Proof.
  intros (Hh & Hb & rho & HP & <- & HR) Ht j b' bj Hb' Hbj HL Hs Hk.
  assert (b' = b) as -> by congruence. destruct (decide (j = i)) as [|Hne]; [done|].
  specialize (HR j bj Hne Hbj). rewrite decide_False in HR by set_solver. destruct HR as [_ HR].
  unfold Live in HL. rewrite <- (geo_group c (ph_geo _ _ _ HP) j bj Hbj) in HL. rewrite HL in HR.
  destruct HR as ([Er _] & _).
  assert (r_tree (rho j) = true) as Htj by (rewrite Er; by destruct (bd_state bj)).
  pose proof (proj2 (ph_tree _ _ _ HP (bd_key b) (mk_node i (bd_dd b) (bd_block b)))
                ltac:(exists b; done)) as E1.
  pose proof (proj2 (ph_tree _ _ _ HP (bd_key bj) (mk_node j (bd_dd bj) (bd_block bj)))
                ltac:(exists bj; done)) as E2.
  rewrite Hk, E1 in E2. by injection E2.
Qed.

(** The state a buffer gets when it is given to a caller. *)
Definition taken (s : buf_state) : buf_state :=
  match s with CACHED => ACCESS_CACHED | EMPTY => ACCESS_EMPTY | MODIFIED => ACCESS_MODIFIED | s => s end.

(** [get] with what the caller carries, up to the last step. *)
Lemma wp_get J dd d block Q c o :
  (forall c c', bookkeeping c c' -> J c -> J c') ->
  (forall e claims c, X e -> Inv c -> J c -> J (ev_act e claims c)) ->
  (forall dd block g, D !! dd = Some g -> 0 < ge_count g ->
     leaves (fun c c' => Inv c -> J c -> J c') (rtems_bdbuf_get_buffer_from_lru_list dd block)) ->
  Forall env_ok o -> Inv c -> J c -> disks c !! dd = Some d -> 0 <= block ->
  (block < block_count d -> forall i b c1 c' o', Forall env_ok o' -> Inv c' ->
     Given i (dd, media_block_of d block) c' -> J c1 -> sole i c1 -> bds c1 !! i = Some b ->
     bd_key b = (dd, media_block_of d block) ->
     bd_state b = CACHED \/ bd_state b = EMPTY \/ bd_state b = MODIFIED ->
     marked i (taken (bd_state b)) c1 c' -> Q (0, Some i) c' o') ->
  (block_count d <= block -> Q (- EINVAL, None) c o) ->
  wp (rtems_bdbuf_get dd block) Q c o.
Proof.
  intros JB JE JR Ho HI HJ Hd Hb HQ HN. unfold rtems_bdbuf_get. apply wp_bind. eapply wp_get_disk; [done|].
  pose proof HI as (_ & rho & HP & _). apply wp_bind.
  assert (D !! dd = Some (disk_geom d)) as HD.
  { rewrite <- (ph_disks _ _ _ HP), lookup_fmap, Hd. done. }
  rewrite (get_media_block_ok c rho dd d block HP Hd Hb).
  destruct (Z.ltb_spec block (block_count d)) as [Hlt|Hge];
    (eapply wp_lift; [done|]; cbv beta iota); [|by apply wp_ret, HN].
  simpl Z.eqb. cbv iota. apply wp_bind.
  eapply (wp_get_buffer_for_access J JB JE JR); [done|done|done|done|simpl; lia|].
  intros i b c' o' Ho' HF HL Hsz Hw Hk Hst HJ'. apply wp_bind.
  eapply wp_get_bd; [by eapply focus_lookup|]. apply wp_bind.
  assert (H !! i = None) as Hi.
  { destruct HF as (Hh & Hb' & _). eapply held_None; [done|done|]. by destruct Hst as [-> | [-> | ->]]. }
  assert (wp (rtems_bdbuf_set_state i (taken (bd_state b)))
    (fun _ c o => wp (mret (0, Some i)) Q c o) c' o') as Hset.
  { eapply wp_leaves; [apply set_state_leaves|]. eapply wp_set_state; [done|by left|].
    intros c2 HF2 Hf2 HM2. apply wp_ret.
    destruct (given i (taken (bd_state b)) b c2) as [HI2 HG2]; try done;
      [by eapply Live_frame|by eapply sized_frame|by destruct Hst as [-> | [-> | ->]]|].
    rewrite Hk in HG2. eapply (HQ Hlt i b c'); try done.
    - by eapply focus_sole.
    - by eapply focus_lookup. }
  destruct Hst as [Est | [Est | Est]]; rewrite Est in *; exact Hset.
Qed.

Theorem get_safe dd d block c o :
  Forall env_ok o -> Inv c -> disks c !! dd = Some d -> 0 <= block ->
  wp (rtems_bdbuf_get dd block)
    (fun r c' o' => Inv c' /\ Forall env_ok o' /\
       if block <? block_count d
       then exists i, r = (0, Some i) /\ Given i (dd, media_block_of d block) c'
       else r = (- EINVAL, None) /\ c' = c) c o.
Proof.
  intros Ho HI Hd Hb. eapply (wp_get (fun _ => True)); try done.
  - intros. by eapply leaves_mono, recycle_quiet.
  - intros Hlt i b c1 c' o' Ho' HI' HG _ _ _ _ _ _. rewrite (proj2 (Z.ltb_lt _ _) Hlt). eauto 10.
  - intros Hge. by rewrite (proj2 (Z.ltb_ge _ _) Hge).
Qed.

(** ** Operations on the device only *)

Lemma similar_trans c1 c2 c3 : similar c1 c2 -> similar c2 c3 -> similar c1 c3.
Proof. unfold similar. intuition congruence. Qed.

Lemma similar_disk c c' dd g :
  disk_geom <$> disks c !! dd = Some g -> similar c c' -> disk_geom <$> disks c' !! dd = Some g.
Proof. intros Hd (_ & _ & _ & _ & _ & _ & _ & E). by rewrite <- lookup_fmap, E, lookup_fmap. Qed.

Lemma wp_upd_disk_sim dd f g Q c o :
  disk_geom <$> disks c !! dd = Some g -> (forall d, disk_geom (f d) = disk_geom d) ->
  (forall c', similar c c' -> Q tt c' o) -> wp (upd_disk dd f) Q c o.
Proof.
  intros Hd Hf HQ. destruct (disks c !! dd) as [d|] eqn:E; [|done].
  eapply wp_upd_disk; [done|done|]. intros c' Hs _. by apply HQ.
Qed.

Lemma wp_get_disk_sim dd g Q c o :
  disk_geom <$> disks c !! dd = Some g -> (forall d, disk_geom d = g -> Q d c o) ->
  wp (get_disk dd) Q c o.
Proof.
  intros Hd HQ. destruct (disks c !! dd) as [d|] eqn:E; [|done].
  eapply wp_get_disk; [done|]. apply HQ. by injection Hd.
Qed.

Lemma wp_read_ahead_cancel dd g Q c o :
  disk_geom <$> disks c !! dd = Some g -> (forall c', similar c c' -> Q tt c' o) ->
  wp (rtems_bdbuf_read_ahead_cancel dd) Q c o.
Proof.
  intros Hd HQ. unfold rtems_bdbuf_read_ahead_cancel. apply wp_bind.
  eapply wp_get_disk_sim; [done|]. intros d _.
  destruct (rtems_bdbuf_is_read_ahead_active d); [|by apply wp_ret, HQ].
  apply wp_bind, wp_modify. eapply wp_upd_disk_sim; [done|done|]. intros c' Hs. by apply HQ.
Qed.

Lemma wp_read_ahead_add_to_chain dd g Q c o :
  disk_geom <$> disks c !! dd = Some g -> (forall c', similar c c' -> Q tt c' o) ->
  wp (rtems_bdbuf_read_ahead_add_to_chain dd) Q c o.
Proof.
  intros Hd HQ. unfold rtems_bdbuf_read_ahead_add_to_chain. apply wp_bind, wp_get_cache, wp_bind.
  assert (forall c1, similar c c1 ->
    wp (_ ← modify (fun c => set_read_ahead_chain (read_ahead_chain c ++ [dd]) c);
        upd_disk dd (set_ra_linked true)) Q c1 o) as Hn.
  { intros c1 Hs1. apply wp_bind, wp_modify.
    eapply (wp_upd_disk_sim dd _ g); [by eapply (similar_disk c c1)|done|].
    intros c' Hs. apply HQ. eapply similar_trans; [exact Hs1|exact Hs]. }
  destruct (read_ahead_chain c); [apply wp_modify|apply wp_ret]; by apply Hn.
Qed.

Lemma wp_check_read_ahead_trigger dd block g Q c o :
  disk_geom <$> disks c !! dd = Some g -> (forall c', similar c c' -> Q tt c' o) ->
  wp (rtems_bdbuf_check_read_ahead_trigger dd block) Q c o.
Proof.
  intros Hd HQ. unfold rtems_bdbuf_check_read_ahead_trigger. apply wp_bind.
  eapply wp_get_disk_sim; [done|]. intros d _. destruct (_ && _); [|by apply wp_ret, HQ].
  apply wp_bind. eapply wp_upd_disk_sim; [done|done|]. intros c1 Hs1.
  eapply wp_read_ahead_add_to_chain; [by eapply similar_disk|]. intros c2 Hs2.
  apply HQ. by eapply similar_trans.
Qed.

Lemma wp_set_read_ahead_trigger dd block g Q c o :
  disk_geom <$> disks c !! dd = Some g -> (forall c', similar c c' -> Q tt c' o) ->
  wp (rtems_bdbuf_set_read_ahead_trigger dd block) Q c o.
Proof.
  intros Hd HQ. unfold rtems_bdbuf_set_read_ahead_trigger. apply wp_bind.
  eapply wp_get_disk_sim; [done|]. intros d _. destruct (negb _); [|by apply wp_ret, HQ].
  apply wp_bind. eapply wp_read_ahead_cancel; [done|]. intros c1 Hs1.
  eapply wp_upd_disk_sim; [by eapply similar_disk|done|]. intros c2 Hs2.
  apply HQ. by eapply similar_trans.
Qed.

(** ** Transfers *)

Lemma Inv_disk c dd g : Inv c -> D !! dd = Some g -> disk_geom <$> disks c !! dd = Some g.
Proof. intros (_ & rho & HP & _) Hd. by rewrite <- lookup_fmap, (ph_disks _ _ _ HP). Qed.

(** The buffer has been read and is on the LRU list. *)
Definition Cached (i : nat) (k : Z * Z) (c : cache) : Prop :=
  Live c i /\ exists b, bds c !! i = Some b /\ bd_state b = CACHED /\ bd_key b = k.

Lemma Cached_similar i k c c' : similar c c' -> Cached i k c -> Cached i k c'.
Proof.
  intros Hs [HL Hb]. split; [eapply Live_frame; [by apply similar_frame|done]|].
  destruct Hs as (-> & _). done.
Qed.

(** A transfer ends for one buffer. *)
Lemma wp_transfer_finish sc i b Q c o :
  Inv c -> bds c !! i = Some b -> transferring (bd_state b) = true -> H !! i = None ->
  (forall c', Inv c' -> (sc = 0 -> bd_state b = TRANSFER -> Cached i (bd_key b) c') ->
     Q tt c' o) ->
  wp (transfer_finish sc i) Q c o.
Proof.
  intros HI Hb Ht Hi HQ. unfold transfer_finish.
  assert (Live c i) as HL.
  { pose proof (Inv_group H D c i b HI Hb) as Hg. destruct HI as (_ & rho & HP & HR).
    destruct (HR i b Hb) as [_ Hr]. unfold Live. rewrite <- Hg. destruct (liveb _ _ _); [done|].
    destruct Hr as (_ & _ & Hid). by destruct (bd_state b). }
  destruct (focus_open H D c i b HI Hb HL) as (r & HF & [-> Hsz] & Hw & _).
  assert (sized c b) as Hs by (apply Hsz; by destruct (bd_state b)).
  assert (mk_role (tb_tree (bd_state b)) (tb_where (bd_state b)) (tb_user (bd_state b) + bd_waiters b)
          = mk_role true Nowhere (1 + bd_waiters b)) as Er by (by destruct (bd_state b)).
  rewrite Er in HF. apply wp_bind. eapply wp_group_release; [done|]. intros c1 HF1 Hf1.
  unfold with_units in HF1. simpl in HF1. replace (1 + bd_waiters b - 1) with (bd_waiters b) in HF1 by lia.
  apply wp_bind. eapply wp_get_bd; [by eapply focus_lookup|].
  destruct ((sc =? 0) && _) eqn:Ec.
  - eapply wp_make_cached_and_add_to_lru_list; [done|done|done|]. intros c2 HF2 Hf2.
    pose proof (frame_trans _ _ _ Hf1 Hf2) as Hf. apply HQ.
    + eapply focus_close; [done|by eapply Live_frame|..]; simpl; try done.
      split; [done|]. intros _. by eapply sized_frame.
    + intros _ _. split; [by eapply Live_frame|]. eexists. split; [by eapply focus_lookup|done].
  - assert (~ (sc = 0 /\ bd_state b = TRANSFER)) as Hn.
    { intros [-> E]. rewrite E in Ec. done. }
    eapply wp_discard_buffer; [done|done|]. intros c2 Hf2 HF2.
    pose proof (frame_trans _ _ _ Hf1 Hf2) as Hf. apply HQ; [|tauto].
    destruct (Z.eqb_spec (bd_waiters b) 0) as [Hw0|Hw0].
    + eapply focus_close; [done|by eapply Live_frame|..]; by simpl.
    + eapply focus_close; [done|by eapply Live_frame|..]; simpl; try done; try lia.
      split; [done|]. intros _. by eapply sized_frame.
Qed.

(** No purge touches the transfers under way. *)
Definition no_purge (e : env) : Prop :=
  forall claims c i b, i ∈ claims -> bds c !! i = Some b -> bd_state b = TRANSFER ->
  exists b', bds (ev_act e claims c) !! i = Some b' /\ bd_state b' = TRANSFER.

(** The transfer of one buffer: [c1] is the cache when the driver is called. *)
Lemma wp_execute_transfer_one dd g (rd : bool) i b Q c o :
  (forall e, X e -> no_purge e) ->
  Forall env_ok o -> Inv c -> D !! dd = Some g -> H !! i = None ->
  bds c !! i = Some b -> bd_state b = TRANSFER ->
  (forall e sc c1 c' o', Forall env_ok o' -> Inv c' ->
     X e -> c1 = set_ios (ios c ++ [if rd then IoRead (ge_phys g) [i] else IoWrite (ge_phys g) [i]]) c ->
     Inv c1 -> ended i (ev_status e) (rtems_bdbuf_transfer_done (ge_phys g) (ev_act e [i] c1)) c' ->
     sc = 0 \/ sc = - ENOSYS \/ sc = - EIO -> (sc = 0 <-> ev_status e = 0) ->
     (sc = 0 -> Cached i (bd_key b) c') ->
     Q sc c' o') ->
  wp (rtems_bdbuf_execute_transfer_request [] dd (mk_request rd [i])) Q c o.
Proof.
  intros HX Ho HI Hd Hi Hb Hst HQ. unfold rtems_bdbuf_execute_transfer_request.
  apply wp_bind. eapply wp_get_disk_sim; [by eapply Inv_disk|]. intros d Hdg.
  apply wp_bind, wp_modify, wp_bind. simpl rq_bufs.
  set (c1 := set_ios _ c). assert (Inv c1) as HI1 by (by eapply Inv_similar, HI).
  assert (c1 = set_ios (ios c ++ [if rd then IoRead (ge_phys g) [i] else IoWrite (ge_phys g) [i]]) c) as Hc1.
  { unfold c1, issue. simpl. rewrite <- Hdg. by destruct rd. }
  apply (wp_yield_env H D X); [done|done|]. intros e o' -> HXe Ho' HI2 Hk2.
  pose proof (HX e HXe) as Hn. simpl app in *. set (c2 := ev_act e [i] c1) in *.
  destruct (Hk2 i b ltac:(constructor) Hb) as (b2 & Hb2 & Hkey & _).
  assert (bd_state b2 = TRANSFER) as Hst2.
  { destruct (Hn [i] c1 i b ltac:(constructor) Hb Hst) as (b' & Hb' & ?). fold c2 in Hb'. congruence. }
  apply wp_bind, wp_modify. replace (phys_dev d) with (ge_phys g) by (by rewrite <- Hdg). set (c2' := rtems_bdbuf_transfer_done _ c2).
  assert (Inv c2') as HI2' by (by eapply Inv_similar, HI2).
  apply wp_bind. eapply wp_leaves; [apply upd_disk_leaves|].
  eapply wp_upd_disk_sim; [by eapply Inv_disk|done|]. intros c3 Hs3 HB3.
  assert (bds c3 !! i = Some b2) as Hb3 by (destruct Hs3 as (-> & _); done).
  apply wp_bind. cbn [transfer_loop]. apply wp_bind. eapply wp_get_bd; [done|]. apply wp_bind.
  eapply wp_leaves; [apply transfer_finish_leaves|].
  eapply wp_transfer_finish; [by eapply Inv_similar|done|by rewrite Hst2|done|].
  intros c4 HI4 Hok HE4. specialize (HE4 b2 Hb3 Hst2). apply wp_ret, wp_bind.
  set (sc := ev_status e) in *. set (w := (_, _)).
  assert (forall c5, similar c4 c5 -> bookkeeping c4 c5 ->
    wp (mret (if (sc =? 0) || (sc =? - ENOSYS) then sc else - EIO)) Q c5 o') as Hend.
  { intros c5 Hs5 HB5. apply wp_ret.
    assert ((if (sc =? 0) || (sc =? - ENOSYS) then sc else - EIO) = 0 <-> sc = 0) as Hsc.
    { destruct (Z.eqb_spec sc 0) as [->|]; [done|]. destruct (Z.eqb_spec sc (- ENOSYS)); simpl; [done|].
      split; [intros E; discriminate E|done]. }
    apply (HQ e _ c1); try done.
    - by eapply Inv_similar.
    - by eapply ended_bookkeeping.
    - destruct (Z.eqb_spec sc 0); [auto|]. destruct (Z.eqb_spec sc (- ENOSYS)); auto.
    - intros E. eapply Cached_similar; [done|]. rewrite <- Hkey. apply Hok; [by apply Hsc|done]. }
  assert (forall c5, similar c4 c5 -> bookkeeping c4 c5 ->
    wp ((if w.2 : bool then rtems_bdbuf_wake BufferWaiters else mret tt) ;;
        mret (if (sc =? 0) || (sc =? - ENOSYS) then sc else - EIO)) Q c5 o') as Hmid.
  { intros c5 Hs5 HB5. apply wp_bind.
    destruct w.2; [apply (wp_leaves _ _ _ _ _ (wake_leaves _)), wp_wake|by apply wp_ret, Hend].
    intros c6 Hs6 HB6. apply Hend; [by eapply similar_trans|by etransitivity]. }
  destruct w.1; [apply (wp_leaves _ _ _ _ _ (wake_leaves _)), wp_wake|by apply wp_ret, Hmid].
  intros c5 Hs5 HB5. by apply Hmid.
Qed.

(** The read of one buffer: [c1] is the cache when the driver is called. *)
Lemma wp_execute_read_one dd g i b Q c o :
  (forall e, X e -> no_purge e) ->
  Forall env_ok o -> Focus i (mk_role true Nowhere (bd_waiters b + 1)) b c -> Live c i ->
  sized c b -> 0 <= bd_waiters b -> H !! i = None -> D !! dd = Some g ->
  (forall e sc c1 c' o', Forall env_ok o' -> Inv c' ->
     X e -> asked (ge_phys g) i c c1 -> Inv c1 -> ended i (ev_status e) (rtems_bdbuf_transfer_done (ge_phys g) (ev_act e [i] c1)) c' ->
     sc = 0 \/ sc = - ENOSYS \/ sc = - EIO -> (sc = 0 <-> ev_status e = 0) ->
     (sc = 0 -> Cached i (bd_key b) c') ->
     Q sc c' o') ->
  wp (rtems_bdbuf_execute_read_request dd i 1) Q c o.
Proof.
  intros HX Ho HF HL Hsz Hw Hi Hd HQ. unfold rtems_bdbuf_execute_read_request.
  apply wp_bind. eapply wp_get_bd; [by eapply focus_lookup|]. apply wp_bind.
  eapply wp_leaves; [apply set_state_leaves|].
  eapply wp_set_state; [done|by left|]. intros c1 HF1 Hf1 HM1. apply wp_bind, wp_ret.
  eapply wp_execute_transfer_one; [done|done| |done|done|by eapply focus_lookup|done|].
  - eapply focus_close; [done|by eapply Live_frame|..]; simpl; try done.
    split; [simpl; f_equal; lia|]. intros _. by eapply sized_frame.
  - intros e sc c2 c' o' Ho' HI' HXe -> HI2 HE Hsc Hst HC. eapply (HQ e sc); try done.
    by exists c1.
Qed.

(** The buffer a successful read leaves on the LRU list is given to the
    caller. *)
Lemma wp_take_cached {A} i k (r : A) Q c o :
  Inv c -> Cached i k c -> (forall c', Inv c' -> Given i k c' -> marked i ACCESS_CACHED c c' -> Q r c' o) ->
  wp (rtems_bdbuf_set_state i ACCESS_CACHED ;; rtems_chain_extract i ;;
      rtems_bdbuf_group_obtain i ;; mret r) Q c o.
Proof.
  intros HI (HL & b & Hb & Hst & <-) HQ.
  assert (H !! i = None) as Hi by (eapply held_None; [apply HI|done|by rewrite Hst]).
  destruct (focus_open H D c i b HI Hb HL) as (r0 & HF & [-> Hsz] & Hw & _).
  rewrite Hst in *. apply wp_bind. eapply wp_leaves; [apply set_state_leaves|].
  eapply wp_set_state; [done|by left|]. intros c1 HF1 Hf1 HM1.
  apply wp_bind. eapply wp_leaves; [apply extract_leaves|]. eapply wp_extract; [done|done|]. intros c2 HF2 Hf2 _ HB2.
  apply wp_bind. eapply wp_leaves; [apply group_obtain_leaves|]. eapply wp_group_obtain; [done|]. intros c3 HF3 Hf3 HB3.
  pose proof (frame_trans _ _ _ Hf1 (frame_trans _ _ _ Hf2 Hf3)) as Hf.
  destruct (given i ACCESS_CACHED b c3) as [HI3 HG3]; try done.
  - by eapply Live_frame.
  - eapply sized_frame; [done|]. by apply Hsz.
  - apply wp_ret. apply HQ; [done|done|]. eapply marked_bookkeeping; [done|by etransitivity].
Qed.

Lemma Given_similar i k c c' : similar c c' -> Given i k c -> Given i k c'.
Proof. intros (E & _) [Hi Hb]. split; [done|]. by rewrite E. Qed.

Definition read_result (i : nat) (k : Z * Z) (r : Z * option nat) (c : cache) : Prop :=
  (r = (0, Some i) /\ Given i k c) \/ r = (- ENOSYS, None) \/ r = (- EIO, None).

(** How a read of block [k] ends, from the cache [c1] in which the buffer
    was acquired: the cache had the data, the driver delivered it, or it
    failed. *)
Inductive fetched (p : Z) (i : nat) (b : bd) (k : Z * Z) (c1 : cache) : Z * option nat -> cache -> Prop :=
| FetchHit c' : bd_state b = CACHED \/ bd_state b = MODIFIED -> Given i k c' ->
    marked i (taken (bd_state b)) c1 c' -> fetched p i b k c1 (0, Some i) c'
| FetchRead e c2 c3 c' : bd_state b = EMPTY -> X e -> Inv c2 -> asked p i c1 c2 ->
    ev_status e = 0 -> marked i CACHED (rtems_bdbuf_transfer_done p (ev_act e [i] c2)) c3 -> Given i k c' ->
    marked i ACCESS_CACHED c3 c' -> fetched p i b k c1 (0, Some i) c'
| FetchFail e c2 sc c' : bd_state b = EMPTY -> X e -> Inv c2 -> asked p i c1 c2 ->
    ev_status e <> 0 -> discarded i (rtems_bdbuf_transfer_done p (ev_act e [i] c2)) c' -> sc = - ENOSYS \/ sc = - EIO ->
    fetched p i b k c1 (sc, None) c'.

Lemma fetched_bookkeeping p i b k c1 r c' c'' :
  similar c' c'' -> bookkeeping c' c'' -> fetched p i b k c1 r c' -> fetched p i b k c1 r c''.
Proof.
  intros Hs HB Hf. revert Hs HB.
  destruct Hf as [c0 Hst HG HM|e c2 c3 c0 ? ? ? ? ? ? HG HM|e c2 sc c0 ? ? ? ? ? HM ?]; intros Hs HB.
  - apply FetchHit; [done|by eapply Given_similar|by eapply marked_bookkeeping].
  - eapply FetchRead; try done; [by eapply Given_similar|by eapply marked_bookkeeping].
  - eapply FetchFail; try done. destruct HM as [HM|HM]; [left|right]; by eapply marked_bookkeeping.
Qed.

(** [read] with what the caller carries, up to the last step. *)
Lemma wp_read J dd d block Q c o :
  (forall e, X e -> no_purge e) ->
  (forall c c', bookkeeping c c' -> J c -> J c') ->
  (forall e claims c, X e -> Inv c -> J c -> J (ev_act e claims c)) ->
  (forall dd block g, D !! dd = Some g -> 0 < ge_count g ->
     leaves (fun c c' => Inv c -> J c -> J c') (rtems_bdbuf_get_buffer_from_lru_list dd block)) ->
  Forall env_ok o -> Inv c -> J c -> disks c !! dd = Some d -> 0 <= block ->
  (block < block_count d -> forall i b r c1 c' o', Forall env_ok o' -> Inv c' -> J c1 -> sole i c1 ->
     bds c1 !! i = Some b -> bd_key b = (dd, media_block_of d block) ->
     fetched (phys_dev d) i b (dd, media_block_of d block) c1 r c' -> Q r c' o') ->
  (block_count d <= block -> Q (- EINVAL, None) c o) ->
  wp (rtems_bdbuf_read dd block) Q c o.
Proof.
  intros HX JB JE JR Ho HI HJ Hd Hb HQ HN. unfold rtems_bdbuf_read. apply wp_bind. eapply wp_get_disk; [done|].
  pose proof HI as (_ & rho & HP & _). apply wp_bind.
  assert (D !! dd = Some (disk_geom d)) as HD.
  { rewrite <- (ph_disks _ _ _ HP), lookup_fmap, Hd. done. }
  rewrite (get_media_block_ok c rho dd d block HP Hd Hb).
  destruct (Z.ltb_spec block (block_count d)) as [Hlt|Hge];
    (eapply wp_lift; [done|]; cbv beta iota); [|by apply wp_ret, HN].
  simpl Z.eqb. cbv iota. apply wp_bind. specialize (HQ Hlt). clear HN.
  set (k := (dd, media_block_of d block)) in *. set (p := phys_dev d) in *.
  eapply (wp_get_buffer_for_access J JB JE JR); [done|done|done|done|simpl; lia|].
  intros i b c1 o1 Ho1 HF HL Hsz Hw Hk Hst HJ1.
  assert (forall r c' o', Forall env_ok o' -> Inv c' -> fetched p i b k c1 r c' ->
    wp (rtems_bdbuf_check_read_ahead_trigger dd block ;; mret r) Q c' o') as Hend.
  { intros r c' o' Ho' HI' Hr. apply wp_bind. eapply wp_leaves; [apply check_trigger_leaves|].
    eapply wp_check_read_ahead_trigger; [by eapply Inv_disk|]. intros c2 Hs2 HB2. apply wp_ret.
    eapply (HQ i b r c1); try done; [by eapply Inv_similar|by eapply focus_sole|by eapply focus_lookup|].
    by eapply fetched_bookkeeping. }
  clear HQ. apply wp_bind. eapply wp_get_bd; [by eapply focus_lookup|]. apply wp_bind.
  assert (H !! i = None) as Hi.
  { destruct HF as (Hh & Hb' & _). eapply held_None; [done|done|]. by destruct Hst as [-> | [-> | ->]]. }
  assert (disk_geom <$> disks c1 !! dd = Some (disk_geom d)) as HD'.
  { destruct HF as (_ & _ & rho' & HP' & _). by rewrite <- lookup_fmap, (ph_disks _ _ _ HP'). }
  assert (bd_state b = CACHED \/ bd_state b = MODIFIED ->
    wp (upd_stats dd count_read_hit ;; rtems_bdbuf_set_state i (taken (bd_state b)) ;; mret (0, Some i))
      (fun r c o => wp (rtems_bdbuf_check_read_ahead_trigger dd block ;; mret r) Q c o) c1 o1) as Hhit.
  { intros Hs. assert (accessed (taken (bd_state b)) = true) as Ha by (by destruct Hs as [-> | ->]).
    apply wp_bind. eapply wp_leaves; [apply upd_disk_leaves|].
    eapply wp_upd_disk_sim; [done|done|]. intros c2 Hs2 HB2.
    apply wp_bind. eapply wp_leaves; [apply set_state_leaves|].
    eapply wp_set_state; [by eapply Focus_similar|by left|]. intros c3 HF3 Hf3 HM3.
    pose proof (frame_trans _ _ _ (similar_frame _ _ Hs2) Hf3) as Hf. apply wp_ret.
    destruct (given i (taken (bd_state b)) b c3) as [HI3 HG3]; try done;
      [by eapply Live_frame|by eapply sized_frame|].
    apply Hend; [done|done|]. apply FetchHit; [done|by rewrite Hk in HG3|by eapply bookkeeping_marked]. }
  destruct Hst as [Est | [Est | Est]]; rewrite Est in *; [by apply Hhit; left| |by apply Hhit; right].
  clear Hhit. apply wp_bind. eapply wp_leaves; [apply upd_disk_leaves|].
  eapply wp_upd_disk_sim; [done|done|]. intros c2 Hs2 HB2.
  apply wp_bind. eapply wp_leaves; [apply set_trigger_leaves|].
  eapply wp_set_read_ahead_trigger; [by eapply similar_disk|]. intros c3 Hs3 HB3.
  pose proof (similar_trans _ _ _ Hs2 Hs3) as Hs. pose proof (similar_frame _ _ Hs) as Hf.
  apply wp_bind. eapply wp_execute_read_one; [done|done|by eapply Focus_similar
    |by eapply Live_frame|by eapply sized_frame|done|done|done|].
  intros e sc c4 c5 o5 Ho5 HI5 HXe (c0 & HM0 & Hc4) HI4 HE Hsc Hse HC.
  assert (asked p i c1 c4) as HM.
  { exists c0. split; [eapply bookkeeping_marked; [by etransitivity|done]|done]. }
  unfold ended in HE. destruct (Z.eqb_spec sc 0) as [->|Hne].
  - rewrite (proj1 Hse eq_refl) in HE. eapply wp_take_cached; [done|by apply HC|]. intros c6 HI6 HG6 HM6.
    apply Hend; [done|done|]. rewrite Hk in HG6. apply (FetchRead p i b k c1 e c4 c5); try done. by apply Hse.
  - destruct (Z.eqb_spec (ev_status e) 0) as [E|Hne']; [by destruct Hne; apply Hse|].
    apply wp_ret. apply Hend; [done|done|]. apply (FetchFail p i b k c1 e c4); try done. by destruct Hsc.
Qed.

Theorem read_safe dd d block c o :
  (forall e, X e -> no_purge e) -> Forall env_ok o -> Inv c -> disks c !! dd = Some d -> 0 <= block ->
  wp (rtems_bdbuf_read dd block)
    (fun r c' o' => Inv c' /\
       if block <? block_count d
       then exists i, read_result i (dd, media_block_of d block) r c'
       else r = (- EINVAL, None) /\ c' = c) c o.
Proof.
  intros HX Ho HI Hd Hb. eapply (wp_read (fun _ => True)); try done.
  - intros. by eapply leaves_mono, recycle_quiet.
  - intros Hlt i b r c1 c' o' Ho' HI' _ _ _ _ Hr. rewrite (proj2 (Z.ltb_lt _ _) Hlt).
    split; [done|]. exists i. unfold read_result. destruct Hr as [| |? ? ? ? ? ? ? ? ? ? [->| ->]]; auto.
  - intros Hge. by rewrite (proj2 (Z.ltb_ge _ _) Hge).
Qed.

(** ** Giving a buffer back *)

(** The buffer the caller holds. *)
Definition Mine (i : nat) (c : cache) : Prop :=
  H !! i = None /\ exists b, bds c !! i = Some b /\ accessed (bd_state b) = true.

Lemma mine_open i c :
  Inv c -> Mine i c ->
  exists b, Focus i (mk_role true Nowhere (1 + bd_waiters b)) b c /\ Live c i /\ sized c b /\
    0 <= bd_waiters b /\ accessed (bd_state b) = true.
Proof.
  intros HI (Hi & b & Hb & Ha). exists b.
  assert (Live c i) as HL.
  { pose proof (Inv_group H D c i b HI Hb) as Hg. destruct HI as (_ & rho & HP & HR).
    destruct (HR i b Hb) as [_ Hr]. unfold Live. rewrite <- Hg. destruct (liveb _ _ _); [done|].
    destruct Hr as (_ & _ & Hid). by destruct (bd_state b). }
  destruct (focus_open H D c i b HI Hb HL) as (r & HF & [-> Hsz] & Hw & _).
  split_and!; try done.
  - by destruct (bd_state b).
  - apply Hsz. by destruct (bd_state b).
Qed.

Lemma wp_wake_after_access i b Q c o :
  bds c !! i = Some b -> (forall c', similar c c' -> Q tt c' o) -> wp (wake_after_access i) Q c o.
Proof.
  intros Hb HQ. unfold wake_after_access. apply wp_bind. eapply wp_get_bd; [done|].
  destruct (negb _); by apply wp_wake.
Qed.

Lemma wake_after_access_leaves i : leaves bookkeeping (wake_after_access i).
Proof. unfold wake_after_access, get_bd. repeat first [apply wake_leaves|leaves_step]. Qed.

Lemma wp_add_to_lru_list_after_access i Q c o :
  Inv c -> Mine i c -> (forall c', Inv c' -> marked i CACHED c c' -> Q tt c' o) ->
  wp (rtems_bdbuf_add_to_lru_list_after_access i) Q c o.
Proof.
  intros HI HM HQ. destruct (mine_open i c HI HM) as (b & HF & HL & Hs & Hw & Ha).
  destruct HM as [Hi _]. unfold rtems_bdbuf_add_to_lru_list_after_access.
  apply wp_bind. eapply wp_leaves; [apply group_release_leaves|].
  eapply wp_group_release; [done|]. intros c1 HF1 Hf1 HB1.
  apply wp_bind. eapply wp_leaves; [apply make_cached_leaves|].
  eapply wp_make_cached_and_add_to_lru_list; [done|done|done|]. intros c2 HF2 Hf2 HM2.
  pose proof (frame_trans _ _ _ Hf1 Hf2) as Hf.
  eapply wp_leaves; [apply wake_after_access_leaves|].
  eapply wp_wake_after_access; [by eapply focus_lookup|]. intros c3 Hs3 HB3.
  apply HQ; [|eapply bookkeeping_marked, marked_bookkeeping; done].
  eapply Inv_similar; [done|]. eapply focus_close; [done|by eapply Live_frame|..]; simpl; try done.
  split; [unfold with_where, with_units; simpl; f_equal; lia|]. intros _. by eapply sized_frame.
Qed.

Lemma wp_discard_buffer_after_access i Q c o :
  Inv c -> Mine i c -> (forall c', Inv c' -> Q tt c' o) ->
  wp (rtems_bdbuf_discard_buffer_after_access i) Q c o.
Proof.
  intros HI HM HQ. destruct (mine_open i c HI HM) as (b & HF & HL & Hs & Hw & Ha).
  destruct HM as [Hi _]. unfold rtems_bdbuf_discard_buffer_after_access.
  apply wp_bind. eapply wp_group_release; [done|]. intros c1 HF1 Hf1.
  unfold with_units in HF1. simpl in HF1. replace (1 + bd_waiters b - 1) with (bd_waiters b) in HF1 by lia.
  apply wp_bind. eapply wp_discard_buffer; [done|done|]. intros c2 Hf2 HF2.
  pose proof (frame_trans _ _ _ Hf1 Hf2) as Hf.
  assert (Inv c2 /\ exists b2, bds c2 !! i = Some b2) as [HI2 [b2 Hb2]].
  { destruct (Z.eqb_spec (bd_waiters b) 0) as [Hw0|Hw0].
    - split; [|eexists; by eapply focus_lookup].
      eapply focus_close; [done|by eapply Live_frame|..]; by simpl.
    - split; [|eexists; by eapply focus_lookup].
      eapply focus_close; [done|by eapply Live_frame|..]; simpl; try done; try lia.
      split; [done|]. intros _. by eapply sized_frame. }
  eapply wp_wake_after_access; [done|]. intros c3 Hs3. apply HQ. by eapply Inv_similar.
Qed.

Lemma wp_add_to_modified_list_after_access cfg i Q c o :
  Forall env_ok o -> Inv c -> Mine i c ->
  (forall c1 c' o', Forall env_ok o' -> Inv c' ->
     c1 = c \/ (exists e, X e /\ Inv c1 /\ kept [i] c c1 /\ c1 = ev_act e [i] c) ->
     marked i MODIFIED c1 c' -> Q tt c' o') ->
  wp (rtems_bdbuf_add_to_modified_list_after_access cfg i) Q c o.
Proof.
  intros Ho HI HM HQ. unfold rtems_bdbuf_add_to_modified_list_after_access.
  apply wp_bind, wp_get_cache, wp_bind. pose proof HM as (Hi & b & Hb & Ha).
  eapply wp_get_bd; [done|]. apply wp_bind.
  match goal with |- wp _ (fun a c o => wp ?k _ c o) _ _ =>
    assert (forall c1 o1, Forall env_ok o1 -> Inv c1 -> Mine i c1 ->
      c1 = c \/ (exists e, X e /\ Inv c1 /\ kept [i] c c1 /\ c1 = ev_act e [i] c) -> wp k Q c1 o1) as Hk end.
  { clear o Ho HI HM b Hb Ha. rename c into c0. intros c o Ho HI HM Hc0.
    destruct (mine_open i c HI HM) as (b & HF & HL & Hs & Hw & Ha).
    apply wp_bind. eapply wp_get_bd; [by eapply focus_lookup|]. apply wp_bind.
    match goal with |- wp _ (fun a c o => wp ?k _ c o) _ _ =>
      assert (forall h c1, Focus i (mk_role true Nowhere (1 + bd_waiters b)) (set_bd_hold_timer h b) c1 ->
        frame c c1 -> bookkeeping c c1 -> wp k Q c1 o) as Hk2 end.
    { intros h c1 HF1 Hf1 HB1. apply wp_bind. eapply wp_leaves; [apply set_state_leaves|].
      eapply wp_set_state; [done|by left|]. intros c2 HF2 Hf2 HM2.
      apply wp_bind. eapply wp_leaves; [by apply (leaves_modify bookkeeping)|].
      eapply wp_modified_append; [done|done|]. intros c3 HF3 Hf3 HB3.
      pose proof (frame_trans _ _ _ Hf1 (frame_trans _ _ _ Hf2 Hf3)) as Hf.
      assert (Inv c3) as HI3.
      { eapply focus_close; [done|by eapply Live_frame|..]; simpl; try done.
        split; [done|]. intros _. by eapply sized_frame. }
      assert (marked i MODIFIED c c3) as HM3 by (eapply bookkeeping_marked, marked_bookkeeping; done).
      apply wp_bind, wp_get_cache.
      destruct (negb _); [eapply wp_leaves; [apply wake_leaves|]; apply wp_wake
        |destruct (rtems_bdbuf_has_buffer_waiters _);
          [eapply wp_leaves; [apply wake_swapper_leaves|]; apply wp_wake_swapper
          |apply wp_ret; by eapply HQ]];
        intros c4 Hs4 HB4; (eapply HQ; [done|by eapply Inv_similar|done|by eapply marked_bookkeeping]). }
    assert (b = set_bd_hold_timer (bd_hold_timer b) b) as Eb by (by destruct b).
    destruct (bd_state b);
      first [eapply wp_leaves; [apply (upd_bd_leaves bookkeeping); intros; by apply bookkeeping_bd|];
             eapply wp_upd_bd; [done|done|done|by right|]; intros c1 HF1 Hf1 HB1; by eapply Hk2
            |apply wp_ret; apply (Hk2 (bd_hold_timer b)); [by rewrite <- Eb|apply frame_refl|done]]. }
  destruct (_ && _); [|apply wp_ret, Hk; auto].
  apply wp_bind. apply (wp_yield_env H D X); [done|done|]. intros e o1 -> HX Ho1 HI1 Hkept.
  apply wp_ret, Hk; [done|done| |by right; exists e]. split; [done|].
  destruct (Hkept i b ltac:(constructor) Hb) as (b1 & Hb1 & _ & _ & Ha1 & _). eauto.
Qed.

Lemma wp_wait_for_sync_done i k Q c o :
  Forall env_ok o -> Open i k c ->
  (forall c' o', Forall env_ok o' -> Open i k c' -> Q tt c' o') ->
  wp (rtems_bdbuf_wait_for_sync_done i) Q c o.
Proof.
  intros Ho HO HQ. unfold rtems_bdbuf_wait_for_sync_done.
  apply (wp_while_true H D X (Open i k)); [|done|done]. clear c o Ho HO.
  intros c o Ho HO. pose proof HO as (r & b & HF & HL & _ & _ & Hfree & _).
  apply wp_bind. eapply wp_get_bd; [by eapply focus_lookup|].
  destruct (bd_state b); try done; first
    [apply wp_ret; by apply HQ
    |apply wp_bind; eapply (wp_wait H D X (fun _ => True)); try done; intros c' o' Ho' Hlt HO' _; by apply wp_ret].
Qed.

Lemma wp_sync_after_access i Q c o :
  Forall env_ok o -> Inv c -> Mine i c ->
  (forall c' o', Forall env_ok o' -> Inv c' -> Q tt c' o') ->
  wp (rtems_bdbuf_sync_after_access i) Q c o.
Proof.
  intros Ho HI HM HQ. destruct (mine_open i c HI HM) as (b & HF & HL & Hs & Hw & Ha).
  destruct HM as [Hi _]. unfold rtems_bdbuf_sync_after_access.
  apply wp_bind. eapply wp_set_state; [done|by left|]. intros c1 HF1 Hf1.
  apply wp_bind. eapply wp_sync_append; [done|done|]. intros c2 HF2 Hf2.
  pose proof (frame_trans _ _ _ Hf1 Hf2) as Hf.
  assert (Open i (bd_key b) c2) as HO2.
  { eexists _, _. split; [exact HF2|]. split; [by eapply Live_frame|]. split_and!; try done.
    split; [done|]. intros _. by eapply sized_frame. }
  apply wp_bind. eapply wp_get_bd; [by eapply focus_lookup|].
  assert (forall c3, similar c2 c3 -> Open i (bd_key b) c3) as HO3.
  { intros c3 Hs3. destruct HO2 as (r & b2 & HF' & HL' & Hr' & ?). exists r, b2.
    pose proof (similar_frame _ _ Hs3). split_and!; try tauto;
      [by eapply Focus_similar|by eapply Live_frame|by eapply row_frame]. }
  apply wp_bind.
  match goal with |- wp _ (fun a c o => wp ?k _ c o) _ _ =>
    assert (forall c3, similar c2 c3 -> wp k Q c3 o) as Hk end.
  { intros c3 Hs3. apply wp_bind, wp_wake_swapper. intros c4 Hs4. apply wp_bind.
    eapply wp_wait_for_sync_done; [done|apply HO3; by eapply similar_trans|].
    intros c5 o5 Ho5 (r5 & b5 & HF5 & HL5 & [-> Hsz5] & Hw5 & Hfree5 & _).
    apply wp_bind. eapply wp_get_bd; [by eapply focus_lookup|].
    assert (Inv c5 \/ (bd_state b5 = EMPTY /\ bd_waiters b5 = 0)) as HI5.
    { destruct (decide (bd_state b5 = EMPTY)) as [E|E]; [|left; by eapply focus_close].
      destruct (Z.eq_dec (bd_waiters b5) 0); [by right|left].
      eapply focus_close; [done|done|done|done|intros; lia|done]. }
    destruct ((bd_waiters b5 =? 0) && _) eqn:Ec.
    - apply andb_prop in Ec as [Ew Est]. apply Z.eqb_eq in Ew. apply bool_decide_eq_true in Est.
      apply wp_bind. destruct (decide (bd_state b5 = EMPTY)) as [E|E].
      + rewrite E, Ew in HF5. apply wp_bind. eapply wp_remove_from_tree; [done|done|].
        intros c6 HF6 Hf6 _. eapply wp_make_free_and_add_to_lru_list; [done|done|done|].
        intros c7 HF7 Hf7. apply wp_wake. intros c8 Hs8. apply HQ; [done|].
        eapply Inv_similar; [done|]. pose proof (frame_trans _ _ _ Hf6 Hf7) as Hf'.
        eapply focus_close; [done|by eapply Live_frame|..]; simpl; try done.
        split; [unfold with_where, with_tree; simpl; f_equal; lia|done].
      + apply wp_ret, wp_wake. intros c6 Hs6. apply HQ; [done|].
        destruct HI5 as [HI5|[? _]]; [by eapply Inv_similar|done].
    - apply wp_ret. apply HQ; [done|]. destruct HI5 as [HI5|[E Ew]]; [done|].
      rewrite E, Ew in Ec. done. }
  destruct (negb _); [apply wp_wake|apply wp_ret]; [intros c3 Hs3; by apply Hk|by apply Hk].
Qed.

(** [bd] is NULL or a buffer of the caller. *)
Definition mine_or_null (bd : option nat) (c : cache) : Prop :=
  match bd with None => True | Some i => Mine i c end.

Definition returned (bd : option nat) : Z := match bd with None => - EINVAL | Some _ => 0 end.

Lemma wp_with_checked_bd bd k c o :
  Inv c -> Forall env_ok o ->
  (forall i, bd = Some i -> wp (k i) (fun _ c' o' => Inv c' /\ Forall env_ok o') c o) ->
  wp (with_checked_bd bd k) (fun r c' o' => r = returned bd /\ Inv c' /\ Forall env_ok o') c o.
Proof.
  intros HI Ho Hk. destruct bd as [i|]; simpl; [|by apply wp_ret].
  apply wp_bind. eapply wp_mono; [by apply Hk|]. intros [] c' o' [HI' Ho']. by apply wp_ret.
Qed.

Theorem release_safe cfg bd c o :
  Forall env_ok o -> Inv c -> mine_or_null bd c ->
  wp (rtems_bdbuf_release cfg bd)
    (fun r c' o' => r = returned bd /\ Inv c' /\ Forall env_ok o') c o.
Proof.
  intros Ho HI HM. apply wp_with_checked_bd; [done..|]. intros i ->. simpl in HM.
  pose proof HM as (Hi & b & Hb & Ha). apply wp_bind. eapply wp_get_bd; [done|].
  destruct (bd_state b); try done;
    [eapply wp_add_to_lru_list_after_access|eapply wp_add_to_modified_list_after_access
    |eapply wp_discard_buffer_after_access..]; eauto.
Qed.

Theorem release_modified_safe cfg bd c o :
  Forall env_ok o -> Inv c -> mine_or_null bd c ->
  wp (rtems_bdbuf_release_modified cfg bd)
    (fun r c' o' => r = returned bd /\ Inv c' /\ Forall env_ok o') c o.
Proof.
  intros Ho HI HM. apply wp_with_checked_bd; [done..|]. intros i ->. simpl in HM.
  pose proof HM as (Hi & b & Hb & Ha). apply wp_bind. eapply wp_get_bd; [done|].
  destruct (bd_state b); try done;
    [eapply wp_add_to_modified_list_after_access..|eapply wp_discard_buffer_after_access]; eauto.
Qed.

Theorem sync_safe bd c o :
  Forall env_ok o -> Inv c -> mine_or_null bd c ->
  wp (rtems_bdbuf_sync bd)
    (fun r c' o' => r = returned bd /\ Inv c' /\ Forall env_ok o') c o.
Proof.
  intros Ho HI HM. apply wp_with_checked_bd; [done..|]. intros i ->. simpl in HM.
  pose proof HM as (Hi & b & Hb & Ha). apply wp_bind. eapply wp_get_bd; [done|].
  destruct (bd_state b); try done;
    [eapply wp_sync_after_access..|eapply wp_discard_buffer_after_access]; eauto.
Qed.
End Safe. End Safe.
