(* ===== verification/BdbufData.v ===== *)
(** * The contents of the buffers of the block cache

    [Data V c] says of the blocks [V] of one device (media block and bytes)
    that the cache [c] and the medium hold them: a buffer in a state with
    valid data has the bytes of its block, a clean one is the same as the
    medium, and a block the medium does not have is in a modified buffer.
    Recycling a buffer keeps it; so do getting, reading and releasing one
    when the other threads do.  The buffers of different blocks lie apart
    in the buffer memory. *)
From Stdlib Require Import ZArith Lia Bool.
From stdpp Require Import base list gmap numbers.
From S2P Require Import Prelude BdbufAvl BdbufState Bdbuf BdbufStep BdbufInv BdbufSafe.
Import Avl BdState Bdbuf Step Inv Safe.

Module Data.

(** ** The invariant *)

(** The states in which the buffer has the bytes of its block, those in
    which the medium has them as well, and those in which it may not. *)
Definition valid (s : buf_state) : bool :=
  match s with CACHED | ACCESS_CACHED | MODIFIED | ACCESS_MODIFIED | SYNC => true | _ => false end.
Definition clean (s : buf_state) : bool := match s with CACHED | ACCESS_CACHED => true | _ => false end.
Definition dirty (s : buf_state) : bool :=
  match s with MODIFIED | ACCESS_MODIFIED | SYNC | TRANSFER => true | _ => false end.
Definition loaded (s : buf_state) : bool := valid s || bool_decide (s = TRANSFER).

Section Data.
(** The device, its physical device, the bytes of its blocks and of the
    blocks of its medium, the unit of the buffer memory, the descriptors of a
    group, and the size of the medium. *)
Context (dd phys bsz mbs bm max msize : Z).

Definition area (c : cache) (b : bd) : list Z := slice (buffers c) (bd_buffer b) bsz.
Definition medium (c : cache) (mb : Z) : list Z := slice (default [] (media c !! phys)) (mb * mbs) bsz.

Record Layout (c : cache) : Prop := {
  la_max : max_bds_per_group c = max;
  la_buffer : forall i b, bds c !! i = Some b -> bd_buffer b = Z.of_nat i * bm;
  la_length : len (buffers c) = len (bds c) * bm;
  la_media : len (default [] (media c !! phys)) = msize }.

(** The request the driver of the device works on. *)
Definition pending (c : cache) (l : list nat) : Prop :=
  list.last (ios c) = Some (IoRead phys l) \/ list.last (ios c) = Some (IoWrite phys l).

Record Data (V : gmap Z (list Z)) (c : cache) : Prop := {
  da_layout : Layout c;
  da_valid : forall i b d, bds c !! i = Some b -> bd_dd b = dd -> Live c i ->
    valid (bd_state b) = true -> V !! bd_block b = Some d -> area c b = d;
  da_clean : forall i b d, bds c !! i = Some b -> bd_dd b = dd -> Live c i ->
    clean (bd_state b) = true -> V !! bd_block b = Some d -> medium c (bd_block b) = d;
  da_kept : forall mb d, V !! mb = Some d -> medium c mb = d \/
    exists i b, bds c !! i = Some b /\ bd_key b = (dd, mb) /\ Live c i /\
      dirty (bd_state b) = true /\ area c b = d;
  da_transfer : forall i b d l, bds c !! i = Some b -> bd_dd b = dd -> Live c i -> bd_state b = TRANSFER ->
    V !! bd_block b = Some d -> i ∈ l ->
    (list.last (ios c) = Some (IoRead phys l) -> medium c (bd_block b) = d) /\
    (list.last (ios c) = Some (IoWrite phys l) -> area c b = d);
  da_pending : forall i l, i ∈ l -> pending c l ->
    exists b, bds c !! i = Some b /\ Live c i /\ bd_state b = TRANSFER }.

(** ** Steps that keep it *)

(** No buffer gets valid data, and no modified buffer loses its own. *)
Record quietly (c c' : cache) : Prop := {
  q_buffers : buffers c' = buffers c;
  q_media : media c' = media c;
  q_ios : ios c' = ios c;
  q_max : max_bds_per_group c' = max_bds_per_group c;
  q_length : length (bds c') = length (bds c);
  q_back : forall j b', bds c' !! j = Some b' -> exists b, bds c !! j = Some b /\
    bd_buffer b' = bd_buffer b /\
    (loaded (bd_state b') = true -> Live c' j -> bd_data b' = bd_data b /\ Live c j);
  q_forw : forall j b, bds c !! j = Some b -> Live c j -> dirty (bd_state b) = true ->
    exists b', bds c' !! j = Some b' /\ bd_data b' = bd_data b /\ Live c' j }.

Lemma bd_data_inv b b' :
  bd_data b' = bd_data b ->
  bd_dd b' = bd_dd b /\ bd_block b' = bd_block b /\ bd_buffer b' = bd_buffer b /\
  bd_state b' = bd_state b /\ bd_group b' = bd_group b.
Proof. unfold bd_data. intros [= -> -> -> -> ->]. done. Qed.

Lemma quietly_Layout c c' : quietly c c' -> Layout c -> Layout c'.
Proof.
  intros [Q1 Q2 _ Q3 Q4 Q5 _] [L1 L2 L3 L4]. split.
  - congruence.
  - intros i b' Hb'. destruct (Q5 i b' Hb') as (b & Hb & -> & _). by apply L2.
  - unfold len in *. by rewrite Q1, Q4.
  - by rewrite Q2.
Qed.

Lemma quietly_Data V c c' : quietly c c' -> Data V c -> Data V c'.
Proof.
  intros HQ [HL HV HC HK HT HP]. pose proof HQ as [Q1 Q2 Qi Q3 Q4 Q5 Q6].
  assert (forall b, area c' b = area c b) as Ea by (intros; unfold area; by rewrite Q1).
  assert (forall mb, medium c' mb = medium c mb) as Em by (intros; unfold medium; by rewrite Q2).
  assert (forall i b', bds c' !! i = Some b' -> loaded (bd_state b') = true -> Live c' i ->
    exists b, bds c !! i = Some b /\ Live c i /\ bd_data b' = bd_data b) as Hback.
  { intros i b' Hb' Hs HLi. destruct (Q5 i b' Hb') as (b & Hb & _ & Hv). destruct (Hv Hs HLi). eauto. }
  split; [by eapply quietly_Layout| | | | |].
  - intros i b' d Hb' Hdd HLi Hs Hd.
    destruct (Hback i b' Hb') as (b & Hb & HLi0 & (E1 & E2 & E3 & E4 & _)%bd_data_inv); [by unfold loaded; rewrite Hs|done|].
    rewrite Ea. unfold area. rewrite E3. rewrite E4, E2, E1 in *. by eapply HV.
  - intros i b' d Hb' Hdd HLi Hs Hd.
    destruct (Hback i b' Hb') as (b & Hb & HLi0 & (E1 & E2 & _ & E4 & _)%bd_data_inv); [by destruct (bd_state b')|done|].
    rewrite Em. rewrite E4, E2, E1 in *. by eapply HC.
  - intros mb d Hd. rewrite Em. destruct (HK mb d Hd) as [|(i & b & Hb & Hk & HLi & Hs & Ha)]; [by left|right].
    destruct (Q6 i b Hb HLi Hs) as (b' & Hb' & (E1 & E2 & E3 & E4 & _)%bd_data_inv & HLi').
    exists i, b'. split_and!; try done; [unfold bd_key in *; congruence|congruence|].
    rewrite Ea. unfold area in *. by rewrite E3.
  - intros i b' d l Hb' Hdd HLi Hs Hd Hl. rewrite Qi, Em, Ea.
    destruct (Hback i b' Hb') as (b & Hb & HLi0 & (E1 & E2 & E3 & E4 & _)%bd_data_inv); [by rewrite Hs|done|].
    unfold area. rewrite E3. rewrite E4, E2, E1 in *. by eapply (HT i b d l).
  - intros i l Hi Hl. unfold pending in Hl. rewrite Qi in Hl. destruct (HP i l Hi Hl) as (b & Hb & HLi & Hs).
    destruct (Q6 i b Hb HLi ltac:(by rewrite Hs)) as (b' & Hb' & (_ & _ & _ & E4 & _)%bd_data_inv & HLi').
    exists b'. split_and!; [done|done|congruence].
Qed.

Lemma bookkeeping_group_size c c' g : bookkeeping c c' -> group_size c' g = group_size c g.
Proof.
  intros (_ & E & _). unfold group_size. pose proof (f_equal (fun l => l !! g) E) as Eg. simpl in Eg.
  rewrite !list_lookup_fmap in Eg. destruct (groups c' !! g), (groups c !! g); simpl in Eg; congruence.
Qed.
Lemma bookkeeping_Live c c' i : bookkeeping c c' -> Live c' i <-> Live c i.
Proof.
  intros HB. unfold Live. rewrite (bookkeeping_group_size c c' _ HB). by destruct HB as (_ & _ & -> & _).
Qed.

Lemma bookkeeping_quietly c c' : bookkeeping c c' -> quietly c c'.
Proof.
  intros HB. pose proof HB as (E1 & E2 & E3 & E4 & E5 & E6). split; try done.
  - by rewrite <- (length_fmap bd_data), E1, length_fmap.
  - intros j b' Hb'. destruct (bookkeeping_lookup c c' j b' HB Hb') as (b & Hb & Hd). exists b.
    split_and!; [done|by apply bd_data_inv|]. intros _ HL. split; [done|].
    by apply (bookkeeping_Live c c').
  - intros j b Hb HL _. destruct (bookkeeping_lookup c' c j b (symmetry HB) Hb) as (b' & Hb' & Hd).
    exists b'. split_and!; try done. by apply (bookkeeping_Live c c').
Qed.

#[local] Instance quietly_preorder : PreOrder quietly.
Proof.
  split; [intros c; by apply bookkeeping_quietly|].
  intros c1 c2 c3 [A1 A2 Ai A3 A4 A5 A6] [B1 B2 Bi B3 B4 B5 B6]. split; try congruence.
  - intros j b3 H3. destruct (B5 j b3 H3) as (b2 & H2 & E2 & V2).
    destruct (A5 j b2 H2) as (b1 & H1 & E1 & V1). exists b1. split_and!; [done|congruence|].
    intros Hv HL. destruct (V2 Hv HL) as [D2 L2]. pose proof (bd_data_inv _ _ D2) as (_ & _ & _ & Es & _).
    destruct V1 as [D1 L1]; [by rewrite <- Es|done|]. split; [congruence|done].
  - intros j b1 H1 HL Hs. destruct (A6 j b1 H1 HL Hs) as (b2 & H2 & D2 & L2).
    pose proof (bd_data_inv _ _ D2) as (_ & _ & _ & Es & _).
    destruct (B6 j b2 H2 L2 ltac:(by rewrite Es)) as (b3 & H3 & D3 & L3).
    exists b3. split_and!; [done|congruence|done].
Qed.

Lemma Data_bookkeeping V c c' : bookkeeping c c' -> Data V c -> Data V c'.
Proof. intros HB. by apply quietly_Data, bookkeeping_quietly. Qed.

(** A change to one descriptor that has nothing to lose and gets nothing. *)
Lemma upd_quietly i f c b :
  bds c !! i = Some b -> bd_buffer (f b) = bd_buffer b -> loaded (bd_state (f b)) = false ->
  dirty (bd_state b) = false -> quietly c (set_bds (<[i := f b]> (bds c)) c).
Proof.
  intros Hb Hbuf Hv Hd.
  assert (i < length (bds c))%nat as Hlt by (by eapply lookup_lt_Some).
  split; simpl; try done; [by rewrite length_insert|..].
  - intros j b' Hb'. apply list_lookup_insert_Some in Hb' as [(<- & <- & _)|[Hne Hb']].
    + exists b. split_and!; try done. intros Hv'. congruence.
    + exists b'. done.
  - intros j bj Hbj HL Hs. exists bj. split_and!; try done. rewrite list_lookup_insert_ne; [done|].
    intros ->. congruence.
Qed.

Lemma marked_quietly i s c c' :
  marked i s c c' -> loaded s = false ->
  (forall b, bds c !! i = Some b -> dirty (bd_state b) = false) -> quietly c c'.
Proof.
  intros (b & Hb & HB) Hs Hd. etransitivity; [|by apply bookkeeping_quietly].
  apply upd_quietly; [done|done|done|auto].
Qed.

(** ** Recycling *)

(** The buffer [i] was idle when it was taken out. *)
Definition idle_in (i : nat) (c : cache) : Prop := exists b, bds c !! i = Some b /\ idle (bd_state b) = true.

Lemma idle_in_bookkeeping i c c' : bookkeeping c c' -> idle_in i c' -> idle_in i c.
Proof.
  intros HB (b' & Hb' & Hi). destruct (bookkeeping_lookup c c' i b' HB Hb') as (b & Hb & Hd).
  exists b. split; [done|]. pose proof (bd_data_inv _ _ Hd) as (_ & _ & _ & -> & _). done.
Qed.

Lemma remove_leaves i :
  leaves (fun c c' => bookkeeping c c' /\ idle_in i c) (rtems_bdbuf_remove_from_tree_and_lru_list i).
Proof.
  unfold rtems_bdbuf_remove_from_tree_and_lru_list. apply leaves_get_bd. intros b.
  eapply (leaves_seq (fun c c' => bookkeeping c c' /\ idle (bd_state b) = true) bookkeeping).
  - destruct (bd_state b); try apply leaves_fatal.
    + intros c o a c' o' [= <- <- <-]. done.
    + eapply leaves_mono, remove_from_tree_leaves. done.
  - intros _. apply extract_leaves.
  - intros c1 c2 c3 [HB Hi] HB' Hb. split; [by etransitivity|]. by exists b.
Qed.

Lemma remove_all_leaves L :
  leaves (fun c c' => bookkeeping c c' /\ forall i, i ∈ L -> idle_in i c)
    (for_each L rtems_bdbuf_remove_from_tree_and_lru_list).
Proof.
  induction L as [|i L IH]; simpl.
  - intros c o a c' o' [= <- <- <-]. split; [|done]. split; [done|]. intros i Hi. by apply elem_of_nil in Hi.
  - eapply leaves_seq; [apply remove_leaves|intros _; exact IH|].
    intros c1 c2 c3 [HB Hi] [HB' HL]. split; [by etransitivity|].
    intros j [-> |Hj]%elem_of_cons; [done|]. eapply idle_in_bookkeeping; [done|auto].
Qed.

(** The descriptor [i] has changed, but not where its buffer is. *)
Definition replaced (i : nat) (c c' : cache) : Prop :=
  exists b b', bds c !! i = Some b /\ bd_buffer b' = bd_buffer b /\
    bookkeeping (set_bds (<[i := b']> (bds c)) c) c'.

Lemma bookkeeping_insert i b c c' :
  bookkeeping c c' -> bookkeeping (set_bds (<[i := b]> (bds c)) c) (set_bds (<[i := b]> (bds c')) c').
Proof.
  intros (E1 & E2 & E3 & E4 & E5 & E6). split_and!; simpl; try done. by rewrite !list_fmap_insert, E1.
Qed.

#[local] Instance replaced_trans i : Transitive (replaced i).
Proof.
  intros c1 c2 c3 (b & b1 & Hb & Hbuf & HB) (b2 & b3 & Hb2 & Hbuf2 & HB2). exists b, b3.
  destruct (bookkeeping_lookup _ c2 i b2 HB Hb2) as (b0 & Hb0 & (_ & _ & E & _)%bd_data_inv). simpl in Hb0.
  rewrite list_lookup_insert_eq in Hb0 by (by eapply lookup_lt_Some). injection Hb0 as <-.
  split_and!; [done|congruence|]. etransitivity; [|exact HB2].
  pose proof (bookkeeping_insert i b3 _ _ HB) as HB3. simpl in HB3. rewrite list_insert_insert_eq in HB3.
  exact HB3.
Qed.

Lemma upd_bd_replaced i f : (forall b, bd_buffer (f b) = bd_buffer b) -> leaves (replaced i) (upd_bd i f).
Proof. intros Hf. apply upd_bd_leaves. intros c b Hb. exists b, (f b). done. Qed.

Lemma setup_empty_leaves i dd' block :
  leaves (fun c c' => forall b, bds c !! i = Some b -> dirty (bd_state b) = false -> quietly c c')
    (rtems_bdbuf_setup_empty_buffer i dd' block).
Proof.
  unfold rtems_bdbuf_setup_empty_buffer.
  eapply (leaves_seq (replaced i) (fun c c' => exists c1, replaced i c c1 /\ marked i EMPTY c1 c'));
    [by apply upd_bd_replaced|intros _|].
  - eapply (leaves_seq (replaced i) (fun c c' => exists c1, replaced i c c1 /\ marked i EMPTY c1 c'));
      [by apply upd_bd_replaced|intros _|intros c1 c2 c3 HR (c4 & HR' & HM); exists c4; split; [by etransitivity|done]].
    eapply (leaves_seq (replaced i) (marked i EMPTY)); [by apply upd_bd_replaced|intros _|eauto].
    eapply (leaves_seq bookkeeping (marked i EMPTY)); [by apply leaves_get_cache|intros c0|
      intros c1 c2 c3; apply bookkeeping_marked].
    destruct (rtems_bdbuf_avl_insert (tree c0) (mk_node i dd' block)) as [[t r]| |]; try done.
    eapply (leaves_seq bookkeeping (marked i EMPTY)); [by apply leaves_modify|intros _|intros c1 c2 c3; apply bookkeeping_marked].
    destruct (r =? 0); [apply make_empty_leaves|done].
  - intros c1 c2 c3 HR (c4 & HR' & HM) b Hb Hs.
    destruct (replaced_trans i c1 c2 c4 HR HR') as (b0 & b4 & Hb0 & Hbuf & HB).
    assert (b0 = b) as -> by congruence.
    destruct HM as (b5 & Hb5 & HM).
    destruct (bookkeeping_lookup _ c4 i b5 HB Hb5) as (b6 & Hb6 & (_ & _ & E & _)%bd_data_inv). simpl in Hb6.
    rewrite list_lookup_insert_eq in Hb6 by (by eapply lookup_lt_Some). injection Hb6 as <-.
    pose proof (bookkeeping_insert i (set_bd_state EMPTY b5) _ _ HB) as HB3. simpl in HB3.
    rewrite list_insert_insert_eq in HB3.
    transitivity (set_bds (<[i:=set_bd_state EMPTY b5]> (bds c1)) c1); [|apply bookkeeping_quietly; by etransitivity].
    apply (upd_quietly i (fun _ => set_bd_state EMPTY b5) c1 b); [done|simpl; congruence|done|done].
Qed.

(** *** Reallocating a group *)

Lemma free_all_leaves L :
  leaves (fun c c' => buffers c' = buffers c /\ media c' = media c /\ ios c' = ios c /\
      max_bds_per_group c' = max_bds_per_group c /\ (forall g, group_size c' g = group_size c g) /\
      length (bds c') = length (bds c) /\
      forall j b', bds c' !! j = Some b' -> exists b, bds c !! j = Some b /\ bd_buffer b' = bd_buffer b /\
        bd_data b' = bd_data (if decide (j ∈ L) then set_bd_state FREE b else b))
    (for_each L rtems_bdbuf_make_free_and_add_to_lru_list).
Proof.
  induction L as [|i L IH]; cbn [for_each].
  - intros c o a c' o' [= <- <- <-]. split_and!; try done. intros j b' Hb'. exists b'.
    rewrite decide_False by apply not_elem_of_nil. done.
  - eapply leaves_seq; [apply make_free_leaves|intros _; exact IH|].
    intros c1 c2 c3 (b & Hb & HB) (A1 & A2 & Ai & A3 & A4 & A5 & A6).
    pose proof HB as (B1 & _ & B3 & B4 & B5 & B6). split_and!.
    + by rewrite A1.
    + by rewrite A2.
    + by rewrite Ai.
    + by rewrite A3.
    + intros g. rewrite A4. by rewrite (bookkeeping_group_size _ c2 g HB).
    + rewrite A5, <- (length_fmap bd_data), B1, length_fmap. simpl. by rewrite length_insert.
    + intros j b3 Hb3. destruct (A6 j b3 Hb3) as (b2 & Hb2 & Hbuf & Hd).
      destruct (bookkeeping_lookup _ c2 j b2 HB Hb2) as (b1 & Hb1 & Hd1).
      pose proof (bd_data_inv _ _ Hd1) as (_ & _ & E1 & _). simpl in Hb1.
      apply list_lookup_insert_Some in Hb1 as [(<- & <- & _)|[Hne Hb1]].
      * exists b. rewrite (decide_True (P := i ∈ i :: L)) by constructor.
        simpl in E1. split_and!; [done|congruence|]. rewrite Hd.
        unfold bd_data in *. simpl in *. case_decide; simpl; congruence.
      * exists b1. split_and!; [done|congruence|]. rewrite Hd. unfold bd_data in *.
        destruct (decide (j ∈ L)); [rewrite decide_True by (by constructor)|
          rewrite decide_False by (intros [|]%elem_of_cons; congruence)]; simpl; congruence.
Qed.

Lemma bind_inv {A B} (m : M A) (k : A -> M B) c o b c2 o2 :
  (m ≫= k) c o = Ret b c2 o2 -> exists a c1 o1, m c o = Ret a c1 o1 /\ k a c1 o1 = Ret b c2 o2.
Proof. unfold mbind, M_bind. destruct (m c o) as [a c1 o1| | | |] eqn:E; try done. eauto 6. Qed.

Lemma get_group_inv g c o gr c1 o1 :
  get_group g c o = Ret gr c1 o1 -> groups c !! g = Some gr /\ c1 = c /\ o1 = o.
Proof.
  unfold get_group, mbind, M_bind, get_cache, from_option_M. destruct (groups c !! g); [|done].
  intros [= -> -> ->]. done.
Qed.

(** A group is split anew: its descriptors were idle, and all but the first
    become free. *)
Lemma realloc_run g gr n c o e c1 o1 :
  geometry c -> groups c !! g = Some gr -> rtems_bdbuf_group_realloc g n c o = Ret e c1 o1 ->
  let L := group_members (g_bdbuf gr) (max_bds_per_group c / g_bds_per_group gr) 0 (g_bds_per_group gr) in
  let L' := group_members (g_bdbuf gr) (max_bds_per_group c / n) 1 n in
  o1 = o /\ e = g_bdbuf gr /\ (forall i, i ∈ L -> idle_in i c) /\
  buffers c1 = buffers c /\ media c1 = media c /\ ios c1 = ios c /\ max_bds_per_group c1 = max_bds_per_group c /\
  length (bds c1) = length (bds c) /\
  (forall g', group_size c1 g' = if decide (g' = g) then n else group_size c g') /\
  (forall j b', bds c1 !! j = Some b' -> exists b, bds c !! j = Some b /\ bd_buffer b' = bd_buffer b /\
      bd_data b' = bd_data (if decide (j ∈ L') then set_bd_state FREE b else b)).
Proof.
  intros G Hg Hrun L L'. unfold rtems_bdbuf_group_realloc in Hrun.
  apply bind_inv in Hrun as (x & cx & ox & [= <- <- <-] & Hrun).
  apply bind_inv in Hrun as (gr' & cx & ox & Hgr & Hrun).
  apply get_group_inv in Hgr as (Hgr & -> & ->). assert (gr' = gr) as -> by congruence.
  destruct ((g_bds_per_group gr =? 0) || (n =? 0)); [done|].
  apply bind_inv in Hrun as ([] & c2 & o2 & H2 & Hrun). fold L in H2.
  apply remove_all_leaves in H2 as [[HB2 Hidle] ->].
  apply bind_inv in Hrun as ([] & c3 & o3 & H3 & Hrun).
  assert (exists gr2, groups c2 !! g = Some gr2 /\ o3 = o /\
            c3 = set_groups (<[g := set_g_bds_per_group n gr2]> (groups c2)) c2) as (gr2 & Hg2 & -> & ->).
  { unfold upd_group, get_group, mbind, M_bind, get_cache, from_option_M in H3.
    destruct (groups c2 !! g) as [gr2|]; [|done]. injection H3 as <- <-. eauto. }
  apply bind_inv in Hrun as ([] & c4 & o4 & H4 & Hrun). fold L' in H4.
  apply free_all_leaves in H4 as [(F1 & F2 & Fi & F3 & F4 & F5 & F6) ->].
  assert (bookkeeping c4 c1 /\ o1 = o /\ e = g_bdbuf gr) as (HB1 & -> & ->).
  { destruct (1 <? n).
    - apply bind_inv in Hrun as ([] & c5 & o5 & H5 & [= <- <- <-]). by apply wake_leaves in H5 as [? ->].
    - apply bind_inv in Hrun as ([] & c5 & o5 & [= <- <-] & [= <- <- <-]). done. }
  pose proof HB1 as (E1 & _ & E3 & E4 & E5 & Ei). pose proof HB2 as (D1 & _ & D3 & D4 & D5 & Di). simpl in *.
  split_and!; try done; try congruence.
  - rewrite <- (length_fmap bd_data), E1, length_fmap, F5.
    by rewrite <- (length_fmap bd_data), D1, length_fmap.
  - intros g'. rewrite (bookkeeping_group_size _ _ _ HB1), F4. unfold group_size at 1. simpl.
    case_decide as Eg; [subst g'; rewrite list_lookup_insert_eq by (by eapply lookup_lt_Some); done|].
    rewrite list_lookup_insert_ne by done. by rewrite <- (bookkeeping_group_size _ _ _ HB2).
  - intros j b' Hb'. destruct (bookkeeping_lookup _ _ j b' HB1 Hb') as (b4 & Hb4 & Hd4).
    destruct (F6 j b4 Hb4) as (b3 & Hb3 & Hbuf & Hd3).
    destruct (bookkeeping_lookup _ _ j b3 HB2 Hb3) as (b & Hb & Hd).
    pose proof (bd_data_inv _ _ Hd) as (_ & _ & Eb & _). pose proof (bd_data_inv _ _ Hd4) as (_ & _ & Eb4 & _).
    exists b. split_and!; [done|congruence|]. rewrite <- Hd4, Hd3. unfold bd_data in *.
    case_decide; simpl; congruence.
Qed.

Lemma first_live m n g :
  0 < m -> 0 < n <= m -> liveb m n (g * Z.to_nat m) = true /\ group_of m (g * Z.to_nat m) = g.
Proof.
  intros Hm Hn. pose proof (Z.div_str_pos m n ltac:(lia)) as Hs.
  unfold liveb, group_of, stride. rewrite Nat2Z.inj_mul, Z2Nat.id, Z.mod_mul, Z.div_mul by lia.
  rewrite Z.mod_0_l, Z.div_0_l by lia. split; [|lia]. apply andb_true_intro. split; [done|]. apply Z.ltb_lt. lia.
Qed.

Lemma realloc_quietly g gr n c o e c1 o1 :
  geometry c -> groups c !! g = Some gr -> 0 < n <= max_bds_per_group c ->
  rtems_bdbuf_group_realloc g n c o = Ret e c1 o1 ->
  o1 = o /\ quietly c c1 /\ idle_in e c1.
Proof.
  intros G Hg Hn Hrun.
  destruct (realloc_run g gr n c o e c1 o1 G Hg Hrun) as (-> & -> & Hidle & E1 & E2 & Ei & E3 & E4 & E5 & E6).
  destruct (geo_groups c G g gr Hg) as [Hfirst Hold]. pose proof (geo_max c G) as Hmax.
  set (m := max_bds_per_group c) in *. rewrite Hfirst in *.
  assert (group_size c g = g_bds_per_group gr) as Egs by (by apply group_size_lookup).
  fold (stride m n) in *. fold (stride m (g_bds_per_group gr)) in *.
  pose proof (fun j => group_members_elem m g n 1 j Hn ltac:(lia)) as HL'.
  pose proof (fun j => group_members_elem m g (g_bds_per_group gr) 0 j Hold ltac:(lia)) as HL.
  destruct (first_live m (g_bds_per_group gr) g Hmax Hold) as [Hfl Hfg].
  assert (forall j, group_of m j = g -> Live c j -> idle_in j c) as Hlive.
  { intros j Hj HLj. apply Hidle, HL. unfold Live in HLj. fold m in HLj. rewrite Hj, Egs in HLj.
    split_and!; [done|done|]. pose proof (Z.mod_pos_bound (Z.of_nat j) m Hmax). lia. }
  assert (forall j, group_of m j <> g -> Live c1 j <-> Live c j) as Hother.
  { intros j Hj. unfold Live. rewrite E3. fold m. rewrite E5, decide_False by done. done. }
  assert (forall j, j ∈ group_members (g * Z.to_nat m) (stride m n) 1 n -> group_of m j = g) as Hg'.
  { intros j Hj. by apply HL' in Hj as (? & _). }
  split; [done|]. split; [split; try done|].
  - intros j b' Hb'. destruct (E6 j b' Hb') as (b & Hb & Hbuf & Hd). exists b. split_and!; [done|done|].
    intros Hv HLj. case_decide as Hj.
    { apply bd_data_inv in Hd as (_ & _ & _ & Es & _). rewrite Es in Hv. done. }
    split; [done|]. destruct (decide (group_of m j = g)) as [Hjg|Hjg]; [|by apply Hother].
    unfold Live in HLj |- *. rewrite E3 in HLj. fold m in HLj |- *. rewrite Hjg in *.
    rewrite E5, decide_True in HLj by done. rewrite Egs.
    assert (j = (g * Z.to_nat m)%nat) as ->; [|done].
    assert (Z.of_nat j mod m < 1 * stride m n) as Hlt.
    { apply Z.nle_gt. intros Hle. apply Hj, HL'. done. }
    unfold liveb in HLj. apply andb_prop in HLj as [Hj1 _]. apply Z.eqb_eq in Hj1.
    pose proof (Z.mod_pos_bound (Z.of_nat j) m Hmax). rewrite Z.mod_small in Hj1 by lia.
    unfold group_of in Hjg. pose proof (Z.div_mod (Z.of_nat j) m ltac:(lia)).
    assert (0 <= Z.of_nat j / m) by (apply Z.div_pos; lia). subst g. nia.
  - intros j b Hb HLj Hs. destruct (decide (group_of m j = g)) as [Hjg|Hjg].
    { destruct (Hlive j Hjg HLj) as (b0 & Hb0 & Hi). assert (b0 = b) as -> by congruence.
      by destruct (bd_state b). }
    destruct (lookup_lt_is_Some_2 (bds c1) j) as [b' Hb'].
    { rewrite E4. by eapply lookup_lt_Some. }
    exists b'. split_and!; [done| |by apply Hother].
    destruct (E6 j b' Hb') as (b0 & Hb0 & _ & Hd). assert (b0 = b) as -> by congruence.
    rewrite decide_False in Hd by (intros ?; by apply Hjg, Hg'). done.
  - destruct (Hlive (g * Z.to_nat m)%nat Hfg) as (b & Hb & Hi).
    { unfold Live. fold m. by rewrite Hfg, Egs. }
    destruct (lookup_lt_is_Some_2 (bds c1) (g * Z.to_nat m)) as [b' Hb'].
    { rewrite E4. by eapply lookup_lt_Some. }
    exists b'. split; [done|]. destruct (E6 _ b' Hb') as (b0 & Hb0 & _ & Hd).
    assert (b0 = b) as -> by congruence. apply bd_data_inv in Hd as (_ & _ & _ & -> & _). by case_decide.
Qed.

Lemma get_bd_inv i c o b c1 o1 : get_bd i c o = Ret b c1 o1 -> bds c !! i = Some b /\ c1 = c /\ o1 = o.
Proof.
  unfold get_bd, mbind, M_bind, get_cache, from_option_M. destruct (bds c !! i); [|done].
  intros [= -> -> ->]. done.
Qed.
Lemma get_disk_inv i c o b c1 o1 : get_disk i c o = Ret b c1 o1 -> disks c !! i = Some b /\ c1 = c /\ o1 = o.
Proof.
  unfold get_disk, mbind, M_bind, get_cache, from_option_M. destruct (disks c !! i); [|done].
  intros [= -> -> ->]. done.
Qed.

Lemma idle_not_dirty i c : idle_in i c -> forall b, bds c !! i = Some b -> dirty (bd_state b) = false.
Proof. intros (b & Hb & Hi) b' Hb'. assert (b' = b) as -> by congruence. by destruct (bd_state b). Qed.

(** Recycling a buffer for a block of a usable device. *)
Lemma recycle_quietly H D dd' block g :
  D !! dd' = Some g -> 0 < ge_count g ->
  leaves (fun c c' => Inv H D c -> quietly c c') (rtems_bdbuf_get_buffer_from_lru_list dd' block).
Proof.
  intros Hd Hc c0 o0 r c' o' Hrun. split; [|by apply recycle_quiet in Hrun as [_ ->]].
  intros HI. unfold rtems_bdbuf_get_buffer_from_lru_list in Hrun.
  apply bind_inv in Hrun as (cc & c1 & o1 & [= <- <- <-] & Hrun).
  revert Hrun. induction (lru c0) as [|i l IH]; cbn [get_buffer_from]; [by intros [= <- <- <-]|].
  intros (b & cx & ox & (Hb & -> & ->)%get_bd_inv & Hrun)%bind_inv.
  apply bind_inv in Hrun as (d & cx & ox & (Hdd & -> & ->)%get_disk_inv & Hrun).
  apply bind_inv in Hrun as (gr & cx & ox & (Hgr & -> & ->)%get_group_inv & Hrun).
  apply bind_inv in Hrun as (e & c2 & o2 & He & Hrun).
  assert (geometry c0 /\ 0 < bds_per_group d <= max_bds_per_group c0) as [G Hn].
  { destruct (usable H D c0 dd' g HI Hd Hc) as [_ Hn]. destruct HI as (_ & rho & HP & _).
    split; [apply HP|]. assert (disk_geom <$> disks c0 !! dd' = Some g) as E
      by (by rewrite <- lookup_fmap, (ph_disks _ _ _ HP)).
    rewrite Hdd in E. injection E as <-. done. }
  assert ((e = None /\ c2 = c0 /\ o2 = o0) \/
          (exists i', e = Some i' /\ o2 = o0 /\ quietly c0 c2 /\ idle_in i' c2)) as Hcase.
  { destruct (bd_waiters b =? 0); [|left; by injection He as <- <- <-].
    destruct (g_bds_per_group gr =? bds_per_group d).
    - apply bind_inv in He as (? & c3 & o3 & H3 & [= <- <- <-]). apply remove_leaves in H3 as [[HB Hi] ->].
      right. exists i. split_and!; [done|done|by apply bookkeeping_quietly|].
      eapply idle_in_bookkeeping; [by symmetry|done].
    - destruct (g_users gr =? 0); [|left; by injection He as <- <- <-].
      apply bind_inv in He as (i' & c3 & o3 & H3 & [= <- <- <-]).
      destruct (realloc_quietly _ gr _ _ _ _ _ _ G Hgr Hn H3) as (-> & HQ & Hi). right. eauto 6. }
  destruct Hcase as [(-> & -> & ->)|(i' & -> & -> & HQ & Hi)]; [by apply IH|].
  apply bind_inv in Hrun as (? & c3 & o3 & H3 & [= <- <- <-]). apply setup_empty_leaves in H3 as [H3 ->].
  etransitivity; [exact HQ|]. pose proof Hi as (b' & Hb' & _). eapply H3; [done|]. by eapply idle_not_dirty.
Qed.

Lemma Data_recycle V H D dd' block g :
  D !! dd' = Some g -> 0 < ge_count g ->
  leaves (fun c c' => Inv H D c -> Data V c -> Data V c') (rtems_bdbuf_get_buffer_from_lru_list dd' block).
Proof.
  intros Hd Hc. eapply leaves_mono, recycle_quietly; [|done|done].
  intros c c' HQ HI. by apply quietly_Data, HQ.
Qed.

(** ** Buffers lie apart *)

Section Ops.
Context (H : gmap nat (hold * (Z * Z))) (D : gmap Z geom) (g : geom).
Context (HD : D !! dd = Some g) (Hphys : ge_phys g = phys) (Hcount : 0 < ge_count g).
Context (Hbsz : 0 < bsz) (Hbm : 0 < bm) (Hfits : bsz <= stride max (ge_bpg g) * bm).

Lemma Inv_row c i b :
  Inv H D c -> bds c !! i = Some b -> Live c i -> bd_state b <> FREE ->
  bd_group b = group_of (max_bds_per_group c) i /\ sized D c b.
Proof.
  intros HI Hb HL Hs. pose proof (Inv_group H D c i b HI Hb) as Hg. split; [done|].
  destruct (focus_open H D c i b HI Hb HL) as (r & _ & [_ Hsz] & _). auto.
Qed.

Lemma live_in_group m n i : 0 < n <= m -> liveb m n i = true ->
  Z.of_nat i mod m + stride m n <= m /\ (stride m n | Z.of_nat i mod m).
Proof.
  intros Hn HL. unfold liveb in HL. apply andb_prop in HL as [H1 H2].
  apply Z.eqb_eq in H1. apply Z.ltb_lt in H2. unfold stride in *.
  pose proof (Z.div_str_pos m n ltac:(lia)). apply Z.mod_divide in H1; [|lia]. split; [|done].
  destruct H1 as [q Hq]. rewrite Hq in *. rewrite Z.div_mul in H2 by lia.
  pose proof (Z.mul_div_le m n ltac:(lia)). nia.
Qed.

Lemma busy_live c i b : Inv H D c -> bds c !! i = Some b -> idle (bd_state b) = false -> Live c i.
Proof.
  intros HI Hb Hs. pose proof (Inv_group H D c i b HI Hb) as Hg.
  destruct HI as (_ & rho & HP & HR). destruct (HR i b Hb) as [_ Hr]. unfold Live. rewrite <- Hg.
  destruct (liveb _ _ _); [done|]. destruct Hr as (_ & _ & Hid). congruence.
Qed.

Definition used (c : cache) (i : nat) (b : bd) : Prop :=
  bds c !! i = Some b /\ bd_dd b = dd /\ Live c i /\ bd_state b <> FREE.

Lemma used_live c i b : Inv H D c -> Layout c -> used c i b ->
  0 < ge_bpg g <= max /\ liveb max (ge_bpg g) i = true.
Proof.
  intros HI [L1 _ _ _] (Hb & Hdd & HL & Hs). destruct (usable H D c dd g HI HD Hcount) as [_ Hn].
  rewrite L1 in Hn. split; [done|]. destruct (Inv_row c i b HI Hb HL Hs) as [Hg (g' & Hg' & Hsz)].
  rewrite Hdd, HD in Hg'. injection Hg' as <-. unfold Live in HL. rewrite <- Hg, <- Hsz, L1 in HL. done.
Qed.

Lemma areas_apart c i j bi bj :
  Inv H D c -> Layout c -> used c i bi -> used c j bj -> i <> j ->
  bd_buffer bi + bsz <= bd_buffer bj \/ bd_buffer bj + bsz <= bd_buffer bi.
Proof.
  intros HI HL Ui Uj Hij.
  destruct (used_live c i bi HI HL Ui) as [Hn Li], (used_live c j bj HI HL Uj) as [_ Lj].
  destruct HL as [_ L2 _ _]. rewrite (L2 i bi (proj1 Ui)), (L2 j bj (proj1 Uj)).
  destruct (live_in_group _ _ i Hn Li) as [Ei [qi Hi]], (live_in_group _ _ j Hn Lj) as [Ej [qj Hj]].
  pose proof (Z.div_mod (Z.of_nat i) max ltac:(lia)). pose proof (Z.div_mod (Z.of_nat j) max ltac:(lia)).
  pose proof (Z.mod_pos_bound (Z.of_nat i) max ltac:(lia)). pose proof (Z.mod_pos_bound (Z.of_nat j) max ltac:(lia)).
  assert (stride max (ge_bpg g) <= Z.abs (Z.of_nat i - Z.of_nat j)) as Hd.
  { destruct (Z.eq_dec (Z.of_nat i / max) (Z.of_nat j / max)) as [E|E]; [|nia].
    assert (qi <> qj) by (intros ->; apply Hij; lia). nia. }
  nia.
Qed.

Lemma area_inside c i b : Inv H D c -> Layout c -> used c i b ->
  0 <= bd_buffer b /\ bd_buffer b + bsz <= len (buffers c).
Proof.
  intros HI HL U. destruct (used_live c i b HI HL U) as [Hn Li].
  destruct HL as [L1 L2 L3 _]. rewrite (L2 i b (proj1 U)), L3.
  destruct (live_in_group _ _ i Hn Li) as [Ei _].
  destruct HI as (_ & rho & HP & _). pose proof (geo_bds c (ph_geo _ _ _ HP)) as Hl. rewrite L1 in Hl.
  pose proof (lookup_lt_Some _ _ _ (proj1 U)) as Hlt.
  pose proof (Z.div_mod (Z.of_nat i) max ltac:(lia)). pose proof (Z.mod_pos_bound (Z.of_nat i) max ltac:(lia)).
  unfold len. rewrite Hl in *. assert (Z.of_nat i / max < Z.of_nat (length (groups c))) by (apply Z.div_lt_upper_bound; lia).
  assert (Z.of_nat i + stride max (ge_bpg g) <= Z.of_nat (length (groups c)) * max) as Hle by nia.
  apply (Z.mul_le_mono_nonneg_r _ _ bm) in Hle; lia.
Qed.

(** ** The caller changes the bytes of its buffer *)

Definition poke (p : Z) (src : list Z) (c : cache) : cache := set_buffers (splice (buffers c) p src) c.

Lemma Inv_poke p src c : Inv H D c -> Inv H D (poke p src c).
Proof. by apply Inv_similar. Qed.

(** Nothing is known of the block any more, and all of its buffer. *)
Lemma Data_poke V c i b ofs src :
  Inv H D c -> Data V c -> used c i b -> sole i c -> 0 <= ofs -> ofs + len src <= bsz ->
  Data (delete (bd_block b) V) (poke (bd_buffer b + ofs) src c) /\
  area (poke (bd_buffer b + ofs) src c) b = splice (area c b) ofs src.
Proof.
  intros HI [HL HV HC HK HT HP] U Hsole Ho Hs. pose proof (len_nonneg src) as Hls.
  destruct (area_inside c i b HI HL U) as [Hb0 Hb1].
  assert (forall j bj, used c j bj -> bd_key bj <> bd_key b ->
    area (poke (bd_buffer b + ofs) src c) bj = area c bj) as Hother.
  { intros j bj Uj Hk. unfold area, poke. simpl.
    destruct (area_inside c j bj HI HL Uj) as [Hj0 Hj1]. apply slice_splice_other; [lia|lia|lia|].
    assert (i <> j) as Hij by (intros <-; destruct U, Uj; congruence).
    destruct (areas_apart c i j b bj HI HL U Uj Hij); lia. }
  pose proof U as (Hb & Hdd & HLi & Hst).
  split; [split|].
  - destruct HL as [L1 L2 L3 L4]. split; [done|done| |done]. unfold poke. simpl. rewrite len_splice by lia. done.
  - intros j bj d Hbj Hddj HLj Hsj Hd. apply lookup_delete_Some in Hd as [Hne Hd].
    rewrite (Hother j bj); [by eapply HV| |unfold bd_key; congruence].
    split_and!; try done. by intros E; rewrite E in Hsj.
  - intros j bj d Hbj Hddj HLj Hsj Hd. apply lookup_delete_Some in Hd as [Hne Hd]. by eapply HC.
  - intros mb d Hd. apply lookup_delete_Some in Hd as [Hne Hd].
    destruct (HK mb d Hd) as [|(j & bj & Hbj & Hk & HLj & Hsj & Ha)]; [by left|right].
    exists j, bj. split_and!; try done. rewrite (Hother j bj); [done| |unfold bd_key in *; congruence].
    unfold bd_key in Hk. split_and!; try done; [congruence|]. by intros E; rewrite E in Hsj.
  - intros j bj d l Hbj Hddj HLj Hsj Hd Hl. apply lookup_delete_Some in Hd as [Hne Hd].
    rewrite (Hother j bj); [by eapply (HT j bj d l)| |unfold bd_key; congruence].
    split_and!; try done. by rewrite Hsj.
  - exact HP.
  - unfold area, poke. simpl. apply slice_splice_in; lia.
Qed.

(** ** A change of state *)

Lemma bookkeeping_area c c' b : bookkeeping c c' -> area c' b = area c b.
Proof. intros (_ & _ & _ & E & _). unfold area. by rewrite E. Qed.
Lemma bookkeeping_medium c c' mb : bookkeeping c c' -> medium c' mb = medium c mb.
Proof. intros (_ & _ & _ & _ & E & _). unfold medium. by rewrite E. Qed.

(** What the new state promises of the contents has to hold, and a block that
    is given up has to be on the medium. *)
Lemma Data_marked V i s c c' b :
  Data V c -> bds c !! i = Some b -> marked i s c c' -> s <> TRANSFER ->
  bd_state b <> TRANSFER \/ (forall l, ~ pending c l) ->
  (forall d, bd_dd b = dd -> Live c i -> V !! bd_block b = Some d ->
     (valid s = true -> area c b = d) /\ (clean s = true -> medium c (bd_block b) = d) /\
     (dirty (bd_state b) = true -> dirty s = true \/ medium c (bd_block b) = d)) ->
  Data V c'.
Proof.
  intros [HL HV HC HK HT HP] Hb (b0 & Hb0 & HB) Hnt Hidle Hs. assert (b0 = b) as -> by congruence. clear Hb0.
  eapply Data_bookkeeping; [exact HB|].
  assert (i < length (bds c))%nat as Hlt by (by eapply lookup_lt_Some).
  set (c1 := set_bds _ c).
  assert (forall j, Live c1 j <-> Live c j) as EL by done.
  assert (forall j bj, bds c1 !! j = Some bj -> j = i /\ bj = set_bd_state s b \/ j <> i /\ bds c !! j = Some bj) as Hl.
  { intros j bj Hj. apply list_lookup_insert_Some in Hj as [(<- & <- & _)|[Hne Hj]]; auto. }
  split.
  - destruct HL as [L1 L2 L3 L4]. split; [done| | |done].
    + intros j bj Hj. destruct (Hl j bj Hj) as [[-> ->]|[_ Hj']]; [by apply (L2 i b)|by apply L2].
    + unfold c1, len in *. simpl. by rewrite length_insert.
  - intros j bj d Hj Hdd HLj Hsj Hd. destruct (Hl j bj Hj) as [[-> ->]|[_ Hj']].
    + by apply (Hs d).
    + by apply (HV j bj d).
  - intros j bj d Hj Hdd HLj Hsj Hd. destruct (Hl j bj Hj) as [[-> ->]|[_ Hj']].
    + by apply (Hs d).
    + by apply (HC j bj d).
  - intros mb d Hd. destruct (HK mb d Hd) as [|(j & bj & Hbj & Hk & HLj & Hsj & Ha)]; [by left|].
    destruct (decide (j = i)) as [->|Hne].
    + assert (bj = b) as -> by congruence. unfold bd_key in Hk. injection Hk as Hk1 Hk2.
      destruct (Hs d Hk1 HLj ltac:(by rewrite Hk2)) as (_ & _ & [Hs'|Hm]); [done| |left; by rewrite <- Hk2].
      right. exists i, (set_bd_state s b). split_and!; try done; [by apply list_lookup_insert_eq|].
      unfold bd_key. simpl. congruence.
    + right. exists j, bj. split_and!; try done. simpl. by rewrite list_lookup_insert_ne.
  - intros j bj d l Hj Hdd HLj Hsj Hd Hl'. destruct (Hl j bj Hj) as [[-> ->]|[_ Hj']]; [done|].
    by apply (HT j bj d l).
  - intros j l Hj Hp. destruct (HP j l Hj Hp) as (bj & Hbj & HLj & Hsj). destruct (decide (j = i)) as [->|Hne].
    + destruct Hidle as [Hst|Hno]; [congruence|by destruct (Hno l)].
    + exists bj. split_and!; try done. simpl. by rewrite list_lookup_insert_ne.
Qed.

Lemma Data_mono V V' c : V' ⊆ V -> Data V c -> Data V' c.
Proof.
  intros Hsub [HL HV HC HK HT HP]. split; [done|..|exact HP].
  - intros i b d ? ? ? ? Hd. eapply HV; try done. by eapply lookup_weaken.
  - intros i b d ? ? ? ? Hd. eapply HC; try done. by eapply lookup_weaken.
  - intros mb d Hd. apply HK. by eapply lookup_weaken.
  - intros i b d l ? ? ? ? Hd ?. apply (HT i b d l); try done. by eapply lookup_weaken.
Qed.

(** A block whose modified buffer has [d]. *)
Lemma Data_insert V i b d c :
  Data (delete (bd_block b) V) c -> bds c !! i = Some b -> bd_dd b = dd -> Live c i ->
  sole i c -> valid (bd_state b) = true -> dirty (bd_state b) = true -> clean (bd_state b) = false ->
  area c b = d -> Data (<[bd_block b := d]> V) c.
Proof.
  intros [HL HV HC HK HT HP] Hb Hdd HLi Hsole Hva Hdi Hcl Ha.
  assert (forall j bj, bds c !! j = Some bj -> bd_dd bj = dd -> Live c j -> loaded (bd_state bj) = true ->
            bd_block bj = bd_block b -> j = i /\ bj = b) as Hi.
  { intros j bj Hj Hddj HLj Hs Hblk. assert (j = i) as ->; [|split; congruence].
    apply (Hsole j b bj); try done; [by intros E; rewrite E in Hs|unfold bd_key; congruence]. }
  split; [done|..|exact HP].
  - intros j bj d' Hj Hddj HLj Hs Hd. apply lookup_insert_Some in Hd as [[Hblk <-]|[Hne Hd]].
    + by destruct (Hi j bj Hj Hddj HLj ltac:(by destruct (bd_state bj)) ltac:(done)) as [-> ->].
    + eapply HV; try done. by rewrite lookup_delete_ne.
  - intros j bj d' Hj Hddj HLj Hs Hd. apply lookup_insert_Some in Hd as [[Hblk <-]|[Hne Hd]].
    + destruct (Hi j bj Hj Hddj HLj ltac:(by destruct (bd_state bj)) ltac:(done)) as [-> ->]. congruence.
    + eapply HC; try done. by rewrite lookup_delete_ne.
  - intros mb d' Hd. apply lookup_insert_Some in Hd as [[<- <-]|[Hne Hd]].
    + right. exists i, b. split_and!; try done. unfold bd_key. congruence.
    + apply HK. by rewrite lookup_delete_ne.
  - intros j bj d' l Hj Hddj HLj Hs Hd Hl. apply lookup_insert_Some in Hd as [[Hblk <-]|[Hne Hd]].
    + destruct (Hi j bj Hj Hddj HLj ltac:(by rewrite Hs) ltac:(done)) as [-> ->]. by rewrite Hs in Hva.
    + eapply (HT j bj d' l); try done. by rewrite lookup_delete_ne.
Qed.

(** A buffer without data: the medium has its block. *)
Lemma Data_on_medium V c i b d :
  Data V c -> sole i c -> bds c !! i = Some b -> bd_dd b = dd -> dirty (bd_state b) = false ->
  V !! bd_block b = Some d -> medium c (bd_block b) = d.
Proof.
  intros [_ _ _ HK _ _] Hsole Hb Hdd Hs Hd.
  destruct (HK _ d Hd) as [|(j & bj & Hbj & Hk & HLj & Hsj & Ha)]; [done|].
  assert (j = i) as -> by (apply (Hsole j b bj); try done;
    [by intros E; rewrite E in Hsj|by rewrite Hk; unfold bd_key; rewrite Hdd]).
  congruence.
Qed.

(** ** What the other threads promise *)

(** They keep the blocks of the device, the bytes and the state of a buffer
    a caller has, and the driver delivers what the medium has or, when it is
    not [reliable], an error.  The blocks of the device are [isblk]. *)
Context (reliable : Prop) (isblk : Z -> Prop).

Definition on_device (V : gmap Z (list Z)) : Prop := forall mb d, V !! mb = Some d -> isblk mb.

Definition data_env (e : env) : Prop :=
  no_purge e /\ (reliable -> ev_status e = 0) /\
  forall claims c, Inv H D c -> Layout c ->
    (forall V, on_device V -> Data V c -> Data V (ev_act e claims c)) /\
    (forall i b, i ∈ claims -> bds c !! i = Some b -> bd_dd b = dd -> accessed (bd_state b) = true ->
       exists b', bds (ev_act e claims c) !! i = Some b' /\ bd_state b' = bd_state b /\
         area (ev_act e claims c) b' = area c b) /\
    (list.last (ios c) = Some (IoRead phys claims) ->
     forall i b, i ∈ claims -> bds c !! i = Some b -> bd_dd b = dd -> bd_state b = TRANSFER ->
       exists b', bds (ev_act e claims c) !! i = Some b' /\ bd_key b' = bd_key b /\
         (isblk (bd_block b) -> medium (ev_act e claims c) (bd_block b) = medium c (bd_block b) /\
          (ev_status e = 0 -> area (ev_act e claims c) b' = medium c (bd_block b)))).

Abbreviation env_ok := (env_ok H D data_env).

Lemma data_env_keeps V e claims c : on_device V -> data_env e -> Inv H D c -> Data V c -> Data V (ev_act e claims c).
Proof. intros HO (_ & _ & He) HI HV. apply He; [done|apply HV|done|done]. Qed.

(** The buffer [i] of media block [mb] is with the caller, in a state in [S]. *)
Definition Held (S : list buf_state) (i : nat) (mb : Z) (c : cache) : Prop :=
  H !! i = None /\ exists b, bds c !! i = Some b /\ bd_state b ∈ S /\ bd_key b = (dd, mb).

Lemma Inv_sole S i mb c : Inv H D c -> Held S i mb c -> (forall s, s ∈ S -> accessed s = true) ->
  sole i c /\ Live c i.
Proof.
  intros HI (Hi & b & Hb & Hs & _) HS.
  destruct (mine_open H D i c HI) as (b' & HF & HL & _); [split; [done|]; by exists b; auto|].
  split; [by eapply focus_sole|done].
Qed.

Lemma Held_used S i mb c : Inv H D c -> Held S i mb c -> (forall s, s ∈ S -> accessed s = true) ->
  exists b, used c i b /\ bd_state b ∈ S /\ bd_block b = mb.
Proof.
  intros HI HH HS. destruct (Inv_sole S i mb c HI HH HS) as [_ HL].
  destruct HH as (_ & b & Hb & Hs & Hk). unfold bd_key in Hk. injection Hk as Hk1 Hk2.
  exists b. split; [|done]. unfold used. split_and!; try done.
  intros E. specialize (HS _ Hs). by rewrite E in HS.
Qed.

(** ** Getting and reading *)

Definition mb_of (block : Z) : Z :=
  media_block_of (mk_disk (ge_phys g) (ge_caps g) (ge_start g) (ge_size g) (ge_media g) (ge_block_size g)
    (ge_count g) (ge_mbpb g) (ge_shift g) (ge_bpg g)
    (mk_stats 0 0 0 0 0 0 0 0 0) false 0 0 0) block.

Lemma the_disk c : Inv H D c -> exists d, disks c !! dd = Some d /\ block_count d = ge_count g /\
  block_size d = ge_block_size g /\ phys_dev d = phys /\ forall block, media_block_of d block = mb_of block.
Proof.
  intros (_ & rho & HP & _). destruct (disks_lookup D rho c dd g HP HD) as (d & Hd & Hg).
  exists d. split_and!; [done|by rewrite <- Hg|by rewrite <- Hg|by rewrite <- Hphys, <- Hg|].
  intros block. unfold mb_of. rewrite <- Hg. by destruct d.
Qed.

Definition held_states : list buf_state := [ACCESS_CACHED; ACCESS_EMPTY; ACCESS_MODIFIED].
Definition read_states : list buf_state := [ACCESS_CACHED; ACCESS_MODIFIED].

Lemma held_accessed s : s ∈ held_states -> accessed s = true.
Proof. unfold held_states. rewrite !elem_of_cons, elem_of_nil. intros [->|[->|[->|[]]]]; done. Qed.
Lemma read_held s : s ∈ read_states -> s ∈ held_states.
Proof. unfold held_states, read_states. rewrite !elem_of_cons. tauto. Qed.

(** What a marked buffer has become. *)
Lemma marked_Held S i s c c' b mb :
  marked i s c c' -> bds c !! i = Some b -> bd_key b = (dd, mb) -> H !! i = None -> s ∈ S -> Held S i mb c'.
Proof.
  intros HM Hb Hk Hi Hs. destruct (marked_lookup i s c c' HM) as (b0 & b' & Hb0 & Hb' & Hd).
  assert (b0 = b) as -> by congruence. apply bd_data_inv in Hd as (E1 & E2 & _ & E4 & _). simpl in *.
  split; [done|]. exists b'. split_and!; [done|by rewrite E4|]. unfold bd_key in *. congruence.
Qed.

Lemma get_data V block c o : on_device V ->
  Forall env_ok o -> Inv H D c -> Data V c -> 0 <= block ->
  wp (rtems_bdbuf_get dd block)
    (fun r c' o' => Inv H D c' /\ Forall env_ok o' /\ Data V c' /\
       if block <? ge_count g then exists i, r = (0, Some i) /\ Held held_states i (mb_of block) c'
       else r = (- EINVAL, None)) c o.
Proof.
  intros HO Ho HI HV Hb. destruct (the_disk c HI) as (d & Hd & Hcnt & _ & _ & Hmb).
  eapply (wp_get H D data_env (Data V)); try done.
  - intros c1 c2. apply Data_bookkeeping.
  - intros e claims c1. by apply data_env_keeps.
  - intros dd' block' g' Hg' Hc'. by eapply Data_recycle.
  - intros Hlt i b c1 c' o' Ho' HI' [Hi _] HV1 Hsole Hb1 Hk Hst HM. rewrite Hcnt in Hlt.
    rewrite (proj2 (Z.ltb_lt _ _) Hlt). rewrite Hmb in Hk. pose proof Hk as Hk'. injection Hk' as Hk1 Hk2.
    split_and!; try done.
    + eapply Data_marked; [exact HV1|exact Hb1|exact HM|by destruct Hst as [-> | [-> | ->]]|left; by destruct Hst as [-> | [-> | ->]]|].
      intros d' Hdd HL Hd'. destruct HV1 as [_ HV1 HC1 _ _ _].
      destruct Hst as [Est|[Est|Est]]; rewrite Est; simpl; split_and!; try done; try (by left);
        intros _; [eapply HV1|eapply HC1|eapply HV1]; try done; by rewrite Est.
    + exists i. split; [done|]. eapply (marked_Held held_states); [done..|].
      destruct Hst as [-> | [-> | ->]]; unfold held_states; rewrite !elem_of_cons; simpl; tauto.
  - intros Hge. rewrite Hcnt in Hge. by rewrite (proj2 (Z.ltb_ge _ _) Hge).
Qed.

(** A buffer without data is handed to the driver. *)
Lemma Data_asked V i b c c' :
  Data V c -> sole i c -> Live c i -> bds c !! i = Some b -> bd_dd b = dd -> bd_state b = EMPTY ->
  asked phys i c c' -> Data V c' /\ forall d, V !! bd_block b = Some d -> medium c' (bd_block b) = d.
Proof.
  intros HV Hsole HLi Hb Hdd Hst (c0 & (b0 & Hb0 & HB) & ->). assert (b0 = b) as -> by congruence. clear Hb0.
  assert (forall d, V !! bd_block b = Some d -> medium c (bd_block b) = d) as Hmed.
  { intros d Hd. eapply (Data_on_medium V c); try done. by rewrite Hst. }
  set (c1 := set_bds _ c) in HB. assert (Data V (set_ios (ios c0 ++ [IoRead phys [i]]) c1)) as H1.
  { pose proof HV as [HL HVV HC HK HT _]. set (c2 := set_ios _ c1).
    assert (forall j bj, bds c2 !! j = Some bj -> j = i /\ bj = set_bd_state TRANSFER b \/ j <> i /\ bds c !! j = Some bj) as Hl.
    { intros j bj Hj. apply list_lookup_insert_Some in Hj as [(<- & <- & _)|[Hne Hj]]; auto. }
    split.
    - destruct HL as [L1 L2 L3 L4]. split; [done| | |done].
      + intros j bj Hj. destruct (Hl j bj Hj) as [[-> ->]|[_ Hj']]; [by apply (L2 i b)|by apply L2].
      + unfold c2, c1, len in *. simpl. by rewrite length_insert.
    - intros j bj d Hj Hddj HLj Hsj Hd. destruct (Hl j bj Hj) as [[-> ->]|[_ Hj']]; [done|by apply (HVV j bj d)].
    - intros j bj d Hj Hddj HLj Hsj Hd. destruct (Hl j bj Hj) as [[-> ->]|[_ Hj']]; [done|by apply (HC j bj d)].
    - intros mb d Hd. destruct (HK mb d Hd) as [|(j & bj & Hbj & Hk & HLj & Hsj & Ha)]; [by left|].
      right. destruct (decide (j = i)) as [->|Hne]; [assert (bj = b) as -> by congruence; by rewrite Hst in Hsj|].
      exists j, bj. split_and!; try done. simpl. by rewrite list_lookup_insert_ne.
    - intros j bj d l Hj Hddj HLj Hsj Hd Hil. unfold c2. cbn [ios set_ios].
      rewrite list.last_snoc. split; [|done]. intros [= <-]. apply list_elem_of_singleton in Hil as ->.
      destruct (Hl i bj Hj) as [[_ ->]|[Hne _]]; [|done]. by apply Hmed.
    - intros j l Hj Hp. unfold pending, c2 in Hp. cbn [ios set_ios] in Hp. rewrite list.last_snoc in Hp.
      destruct Hp as [[= <-]|[=]]. apply list_elem_of_singleton in Hj as ->. exists (set_bd_state TRANSFER b).
      split_and!; try done. simpl. apply list_lookup_insert_eq. by eapply lookup_lt_Some. }
  pose proof HB as (B1 & B2 & B3 & B4 & B5 & B6). split.
  - eapply Data_bookkeeping; [|exact H1]. by split_and!.
  - intros d Hd. change (medium (set_ios (ios c0 ++ [IoRead phys [i]]) c0) (bd_block b)) with (medium c0 (bd_block b)).
    rewrite (bookkeeping_medium c1 c0) by done. by apply Hmed.
Qed.

Lemma asked_lookup p i c c' b : asked p i c c' -> bds c !! i = Some b ->
  list.last (ios c') = Some (IoRead p [i]) /\
  exists b', bds c' !! i = Some b' /\ bd_data b' = bd_data (set_bd_state TRANSFER b).
Proof.
  intros (c0 & HM & ->) Hb. destruct (marked_lookup i _ c c0 HM) as (b0 & b' & Hb0 & Hb' & Hd).
  assert (b0 = b) as -> by congruence. simpl. rewrite list.last_snoc. eauto.
Qed.

(** The request has ended. *)
Lemma done_idle c l : ~ pending (rtems_bdbuf_transfer_done phys c) l.
Proof. unfold pending. cbn [ios set_ios rtems_bdbuf_transfer_done]. rewrite list.last_snoc. by intros [|]. Qed.
Lemma Data_done V c : Data V c -> Data V (rtems_bdbuf_transfer_done phys c).
Proof.
  intros [HL HVV HC HK HT HP]. split; try done.
  - by destruct HL as [L1 L2 L3 L4].
  - intros i b d l _ _ _ _ _ _. cbn [ios set_ios rtems_bdbuf_transfer_done]. rewrite list.last_snoc. by split.
  - intros i l _ Hp. by apply done_idle in Hp.
Qed.

(** The driver has delivered, or failed. *)
Lemma transfer_data V i b e c1 c2 s c3 : on_device V ->
  Data V c1 -> sole i c1 -> bds c1 !! i = Some b -> bd_dd b = dd -> bd_state b = EMPTY ->
  asked phys i c1 c2 -> Inv H D c2 -> data_env e ->
  marked i s (rtems_bdbuf_transfer_done phys (ev_act e [i] c2)) c3 ->
  (s = CACHED /\ ev_status e = 0) \/ s = EMPTY \/ s = FREE ->
  Data V c3 /\ exists b3, bds c3 !! i = Some b3 /\ bd_key b3 = bd_key b /\ bd_state b3 = s.
Proof.
  intros HO HV Hsole Hb Hdd Hst HM HI2 He HM3 Hs.
  destruct (asked_lookup phys i c1 c2 b HM Hb) as (Hio & b2 & Hb2 & Hd2).
  pose proof (bd_data_inv _ _ Hd2) as (E1 & E2 & _ & E4 & _). simpl in E1, E2, E4.
  assert (Live c1 i) as HL1.
  { destruct HM as (c0 & (b0 & Hb0 & HB) & ->). apply (bookkeeping_Live _ _ i HB).
    apply (busy_live _ i b2 HI2 Hb2). by rewrite E4. }
  destruct (Data_asked V i b c1 c2 HV Hsole HL1 Hb Hdd Hst HM) as [HV2 Hmed].
  destruct He as (Hnp & _ & He). destruct (He [i] c2 HI2 (da_layout _ _ HV2)) as (He1 & _ & He3).
  destruct (He3 Hio i b2 ltac:(constructor) Hb2 ltac:(congruence) E4) as (b' & Hb' & Hk' & Hm').
  set (c' := ev_act e [i] c2) in *. rewrite E2 in Hm'.
  assert (bd_key b' = bd_key b) as Hkb by (unfold bd_key in *; congruence).
  pose proof Hkb as Hkb'. unfold bd_key in Hkb'. injection Hkb' as Hkb1 Hkb2.
  split.
  - eapply Data_marked; [apply Data_done; by apply He1|exact Hb'|exact HM3| |right; apply done_idle|].
    { by destruct Hs as [[-> _]|[-> | ->]]. }
    intros d _ _ Hd. rewrite Hkb2 in Hd |- *.
    specialize (Hmed d Hd). destruct (Hm' (HO _ d Hd)) as [Hm Ha]. rewrite Hmed in Hm, Ha.
    destruct Hs as [[-> Hs]|[-> | ->]]; split_and!; try done; try (by intros _; right); intros _; by apply Ha.
  - destruct (marked_lookup i s _ c3 HM3) as (bx & b3 & Hbx & Hb3 & Hd3).
    change (bds c' !! i = Some bx) in Hbx. assert (bx = b') as -> by congruence. pose proof (bd_data_inv _ _ Hd3) as (F1 & F2 & _ & F4 & _).
    simpl in F1, F2, F4. exists b3. split_and!; [done| |done]. unfold bd_key in *. congruence.
Qed.

Lemma read_data V block c o : on_device V ->
  Forall env_ok o -> Inv H D c -> Data V c -> 0 <= block ->
  wp (rtems_bdbuf_read dd block)
    (fun r c' o' => Inv H D c' /\ Forall env_ok o' /\ Data V c' /\
       if block <? ge_count g
       then (exists i, r = (0, Some i) /\ Held read_states i (mb_of block) c') \/
            ~ reliable /\ (r = (- ENOSYS, None) \/ r = (- EIO, None))
       else r = (- EINVAL, None)) c o.
Proof.
  intros HO Ho HI HV Hb. destruct (the_disk c HI) as (d & Hd & Hcnt & _ & Hp & Hmb).
  eapply (wp_read H D data_env (Data V)); try done.
  - by intros e [He _].
  - intros c1 c2. apply Data_bookkeeping.
  - intros e claims c1. by apply data_env_keeps.
  - intros dd' block' g' Hg' Hc'. by eapply Data_recycle.
  - intros Hlt i b r c1 c' o' Ho' HI' HV1 Hsole Hb1 Hk Hf. rewrite Hcnt in Hlt.
    rewrite (proj2 (Z.ltb_lt _ _) Hlt). rewrite Hmb in Hk, Hf. rewrite Hp in Hf.
    pose proof Hk as Hk'. injection Hk' as Hk1 Hk2.
    split; [done|]. split; [done|]. destruct Hf as [c' Hst [Hi _] HM
      |e c2 c3 c' Hst He HI2 HM2 Hs HM3 [Hi _] HM|e c2 sc c' Hst He HI2 HM2 Hs HM Hsc].
    + split.
      * eapply Data_marked; [exact HV1|exact Hb1|exact HM|by destruct Hst as [-> | ->]|left; by destruct Hst as [-> | ->]|].
        intros d' Hdd HL Hd'. destruct HV1 as [_ HV1 HC1 _ _ _].
        destruct Hst as [Est|Est]; rewrite Est; simpl; split_and!; try done; try (by left);
          intros _; [eapply HV1|eapply HC1|eapply HV1]; try done; by rewrite Est.
      * left. exists i. split; [done|]. eapply (marked_Held read_states); [done..|].
        destruct Hst as [-> | ->]; unfold read_states; rewrite !elem_of_cons; simpl; tauto.
    + destruct (transfer_data V i b e c1 c2 CACHED c3) as (HV3 & b3 & Hb3 & Hk3 & Hst3); try done; [by left|].
      split.
      * eapply Data_marked; [exact HV3|exact Hb3|exact HM|done|left; by rewrite Hst3|]. intros d' Hdd HL Hd'. destruct HV3 as [_ HV3 HC3 _ _ _].
        rewrite Hst3. split_and!; try done; intros _; [eapply HV3|eapply HC3]; try done; by rewrite Hst3.
      * left. exists i. split; [done|]. eapply (marked_Held read_states); [done|done|congruence|done|constructor].
    + destruct HM as [HM|HM];
        [destruct (transfer_data V i b e c1 c2 EMPTY c') as (HV3 & _)
        |destruct (transfer_data V i b e c1 c2 FREE c') as (HV3 & _)]; try done; try (by auto);
        (split; [done|]; right; split; [by intros Hr; apply Hs, He|]; destruct Hsc as [-> | ->]; auto).
  - intros Hge. rewrite Hcnt in Hge. by rewrite (proj2 (Z.ltb_ge _ _) Hge).
Qed.

(** ** Giving a buffer back *)

Context (cfg : bdbuf_config).

Lemma Held_Mine S i mb c : Held S i mb c -> (forall s, s ∈ S -> accessed s = true) -> Mine H i c.
Proof. intros (Hi & b & Hb & Hs & _) HS. split; [done|]. exists b. auto. Qed.

(** The buffer of a caller in the cache in which it becomes modified. *)
Lemma still_held V i b c c1 : on_device V ->
  Data V c -> Inv H D c -> bds c !! i = Some b -> bd_dd b = dd -> accessed (bd_state b) = true ->
  c1 = c \/ (exists e, data_env e /\ Inv H D c1 /\ kept [i] c c1 /\ c1 = ev_act e [i] c) ->
  Data V c1 /\ Inv H D c1 /\ exists b1, bds c1 !! i = Some b1 /\ bd_key b1 = bd_key b /\
    bd_state b1 = bd_state b /\ area c1 b1 = area c b.
Proof.
  intros HO HV HI Hb Hdd Ha [->|(e & (_ & _ & He) & HI1 & Hk & ->)]; [eauto 10|].
  destruct (He [i] c HI (da_layout _ _ HV)) as (He1 & He2 & _).
  destruct (He2 i b ltac:(constructor) Hb Hdd Ha) as (b1 & Hb1 & Hs1 & Ha1).
  split; [by apply He1|]. split; [done|]. exists b1. split_and!; try done.
  destruct (Hk i b ltac:(constructor) Hb) as (b1' & Hb1' & Hkk & _). congruence.
Qed.

(** Releasing a buffer whose contents were not changed. *)
Lemma release_data V i mb c o : on_device V ->
  Forall env_ok o -> Inv H D c -> Data V c -> Held read_states i mb c ->
  wp (rtems_bdbuf_release cfg (Some i)) (fun r c' o' => r = 0 /\ Inv H D c' /\ Forall env_ok o' /\ Data V c') c o.
Proof.
  intros HO Ho HI HV HH. pose proof HH as (Hi & b & Hb & Hs & Hk).
  assert (Mine H i c) as HM by (eapply Held_Mine; [done|]; intros; by apply held_accessed, read_held).
  pose proof Hk as Hk'. injection Hk' as Hdd Hblk.
  unfold rtems_bdbuf_release, with_checked_bd. apply wp_bind, wp_bind. eapply wp_get_bd; [done|].
  unfold read_states in Hs. rewrite !elem_of_cons, elem_of_nil in Hs.
  destruct Hs as [Est|[Est|[]]]; rewrite Est.
  - eapply (wp_add_to_lru_list_after_access H D); [done|done|]. intros c' HI' HMk. apply wp_ret.
    split_and!; try done. eapply Data_marked; [exact HV|exact Hb|exact HMk|done|left; by rewrite Est|]. intros d _ HL Hd.
    destruct HV as [_ HV HC _ _ _]. rewrite Est. split_and!; try done; intros _; [eapply HV|eapply HC]; try done; by rewrite Est.
  - eapply (wp_add_to_modified_list_after_access H D data_env); [done|done|done|].
    intros c1 c' o' Ho' HI' Hc1 HMk. apply wp_ret. split_and!; try done.
    destruct (still_held V i b c c1) as (HV1 & HI1 & b1 & Hb1 & Hk1 & Hs1 & Ha1); try done; [by rewrite Est|].
    eapply Data_marked; [exact HV1|exact Hb1|exact HMk|done|left; by rewrite Hs1, Est|]. intros d Hdd1 HL Hd.
    destruct HV1 as [_ HV1 HC1 _ _ _]. rewrite Hs1, Est. split_and!; try done; [|by left].
    intros _. eapply HV1; try done. by rewrite Hs1, Est.
Qed.

(** Releasing a buffer with new contents: the block has them from now on. *)
Lemma release_modified_data V i mb c o b : on_device (delete mb V) ->
  Forall env_ok o -> Inv H D c -> Data (delete mb V) c -> Held held_states i mb c -> bds c !! i = Some b ->
  wp (rtems_bdbuf_release_modified cfg (Some i))
    (fun r c' o' => r = 0 /\ Inv H D c' /\ Forall env_ok o' /\ Data (<[mb := area c b]> V) c') c o.
Proof.
  intros HO Ho HI HV HH Hb. pose proof HH as (Hi & b0 & Hb0 & Hs & Hk). assert (b0 = b) as -> by congruence.
  assert (Mine H i c) as HM by (eapply Held_Mine; [done|]; intros; by apply held_accessed).
  pose proof Hk as Hk'. injection Hk' as Hdd Hblk. pose proof (held_accessed _ Hs) as Hacc.
  assert (wp (rtems_bdbuf_add_to_modified_list_after_access cfg i)
    (fun _ c' o' => Inv H D c' /\ Forall env_ok o' /\ Data (<[mb := area c b]> V) c') c o) as Hadd.
  { eapply (wp_add_to_modified_list_after_access H D data_env); [done|done|done|].
    intros c1 c' o' Ho' HI' Hc1 HMk. split; [done|]. split; [done|].
    destruct (still_held (delete mb V) i b c c1) as (HV1 & HI1 & b1 & Hb1 & Hk1 & Hs1 & Ha1); try done.
    pose proof Hk1 as Hk1'. rewrite Hk in Hk1'. injection Hk1' as Hdd1 Hblk1.
    assert (Held held_states i mb c1) as HH1.
    { split; [done|]. exists b1. split_and!; [done|by rewrite Hs1|congruence]. }
    destruct (Inv_sole held_states i mb c1 HI1 HH1 held_accessed) as [Hsole1 HL1].
    destruct HMk as (bx & Hbx & HB). assert (bx = b1) as -> by congruence.
    eapply Data_bookkeeping; [exact HB|].
    set (c2 := set_bds _ c1). set (b2 := set_bd_state MODIFIED b1).
    assert (bds c2 !! i = Some b2) as Hb2 by (apply list_lookup_insert_eq; by eapply lookup_lt_Some).
    rewrite <- Ha1. change (area c1 b1) with (area c2 b2).
    rewrite <- Hblk1. change (bd_block b1) with (bd_block b2).
    apply (Data_insert V i b2 (area c2 b2) c2); try done.
    - eapply Data_marked; [|exact Hb1|by exists b1|done|left; intros E; by rewrite <- Hs1, E in Hacc|].
      + change (bd_block b2) with (bd_block b1). by rewrite Hblk1.
      + intros d _ _ Hd. change (bd_block b2) with (bd_block b1) in Hd. by rewrite lookup_delete_eq in Hd.
    - intros j bi bj Hbi Hbj HLj Hsj Hkj. assert (bi = b2) as -> by congruence.
      destruct (decide (j = i)) as [|Hne]; [done|].
      apply (Hsole1 j b1 bj); try done. revert Hbj. unfold c2. simpl. by rewrite list_lookup_insert_ne. }
  unfold rtems_bdbuf_release_modified, with_checked_bd. apply wp_bind, wp_bind. eapply wp_get_bd; [done|].
  assert (wp (rtems_bdbuf_add_to_modified_list_after_access cfg i)
    (fun _ c' o' => wp (mret 0) (fun r c' o' => r = 0 /\ Inv H D c' /\ Forall env_ok o' /\ Data (<[mb := area c b]> V) c') c' o') c o) as Hfin.
  { eapply wp_mono; [exact Hadd|]. intros [] c' o' (? & ? & ?). by apply wp_ret. }
  unfold held_states in Hs. rewrite !elem_of_cons, elem_of_nil in Hs.
  destruct Hs as [Est|[Est|[Est|[]]]]; rewrite Est; exact Hfin.
Qed.
End Ops.
End Data.
End Data.
