(* ===== verification/BdbufInit.v ===== *)
(** * Initialisation of the cache, registration of devices, the API theorems

    The initial cache satisfies the invariant; a device that is registered
    with [rtems_disk_init_phys] becomes usable in it; and the theorems about
    the operations of the API, with the cache they are applied to as
    witnesses. *)
From Stdlib Require Import ZArith Lia Bool.
From stdpp Require Import base list gmap numbers sorting.
From S2P Require Import Prelude BdbufAvl BdbufState Bdbuf BdbufSwap BdbufInv BdbufSafe.
Import Avl BdState Bdbuf Swap Inv Safe.

Module Init.

(** ** The initial cache *)

(** A configuration whose memory is a whole number of groups. *)
Record wf_config (cfg : bdbuf_config) : Prop := {
  wc_min : 0 < buffer_min cfg;
  wc_max : 0 < buffer_max cfg / buffer_min cfg;
  wc_size : 0 <= cache_size cfg / buffer_min cfg < avl_capacity;
  wc_whole : (cache_size cfg / buffer_min cfg) mod (buffer_max cfg / buffer_min cfg) = 0 }.

Lemma init_bds_length cfg n b g max : length (init_bds cfg n b g max) = n.
Proof. revert b g. induction n; intros; simpl; [done|]. by rewrite IHn. Qed.

(** The running group counter of the loop is the quotient. *)
Lemma init_bds_lookup cfg n max : 0 < max -> forall b i x,
  0 <= b -> init_bds cfg n b (Z.to_nat (b / max)) max !! i = Some x ->
  x = mk_bd BDBUF_INVALID_DEV 0 ((b + Z.of_nat i) * buffer_min cfg) FREE 0
        (Z.to_nat ((b + Z.of_nat i) / max)) 0.
Proof.
  intros Hm. induction n as [|n IH]; intros b i x Hb Hx; simpl in Hx; [done|].
  destruct i as [|i]; simpl in Hx.
  - injection Hx as <-. by rewrite Z.add_0_r.
  - assert ((if b mod max =? max - 1 then S (Z.to_nat (b / max)) else Z.to_nat (b / max))
            = Z.to_nat ((b + 1) / max)) as Eg.
    { pose proof (Z.div_mod b max ltac:(lia)) as Hd. pose proof (Z.mod_pos_bound b max Hm).
      assert (0 <= b / max) by (apply Z.div_pos; lia).
      destruct (Z.eqb_spec (b mod max) (max - 1)) as [E|E].
      - assert ((b + 1) / max = b / max + 1) as -> by (symmetry; apply Z.div_unique with 0; lia). lia.
      - assert ((b + 1) / max = b / max) as -> by (symmetry; apply Z.div_unique with (b mod max + 1); lia).
        done. }
    rewrite Eg in Hx. apply IH in Hx; [|lia]. rewrite Hx.
    by replace (b + Z.of_nat (S i)) with (b + 1 + Z.of_nat i) by lia.
Qed.

Lemma init_inv cfg mem md ds :
  wf_config cfg ->
  map_Forall (fun _ d => wf_geom (buffer_max cfg / buffer_min cfg) (disk_geom d)) ds ->
  Inv ∅ (disk_geom <$> ds) (init_cache cfg mem md ds).
Proof.
  intros [Hmin Hmax Hsize Hwhole] Hds. split; [apply map_Forall_empty|].
  set (n := Z.to_nat (cache_size cfg / buffer_min cfg)).
  set (max := buffer_max cfg / buffer_min cfg) in *.
  assert (Z.of_nat n = (cache_size cfg / buffer_min cfg)) as En by lia.
  assert (forall i b, init_bds cfg n 0 0 max !! i = Some b ->
    (i < n)%nat /\ b = mk_bd BDBUF_INVALID_DEV 0 (Z.of_nat i * buffer_min cfg) FREE 0 (group_of max i) 0) as Hb.
  { intros i b Hi. split; [apply lookup_lt_Some in Hi; by rewrite init_bds_length in Hi|].
    apply (init_bds_lookup cfg n max Hmax 0) in Hi; done. }
  assert (forall g gr, init_groups (Z.of_nat n / max) max !! g = Some gr ->
    gr = mk_group max 0 (g * Z.to_nat max)) as Hg.
  { intros g gr Hgr. unfold init_groups in Hgr. apply list_lookup_fmap_Some in Hgr as (x & -> & Hx).
    apply lookup_seqZ in Hx as [-> ?]. f_equal. lia. }
  assert (Z.of_nat n = Z.of_nat n / max * max) as Hn.
  { rewrite En. pose proof (Z.div_mod (cache_size cfg / buffer_min cfg) max). lia. }
  exists (fun i => if decide (i < n)%nat then mk_role false InLru 0 else row_off). split.
  - split; simpl; fold max n; rewrite <- ?En; try done.
    + split; simpl; fold max n; rewrite <- ?En; rewrite ?init_bds_length; try done; try lia.
      * unfold init_groups. rewrite length_fmap, length_seqZ, Z2Nat.id; [lia|apply Z.div_pos; lia].
      * intros i b Hi. by apply Hb in Hi as [_ ->].
      * intros g gr Hgr. apply Hg in Hgr as ->. simpl. split; [done|lia].
      * intros i Hi. rewrite app_nil_r in Hi. apply elem_of_seq in Hi. lia.
    + rewrite app_nil_r. apply NoDup_seq.
    + intros i. rewrite elem_of_seq. case_decide; simpl; split; try done; lia.
    + intros i. rewrite elem_of_nil. by case_decide.
    + intros i. rewrite elem_of_nil. by case_decide.
    + split; [done|constructor].
    + intros k m. split; [done|]. intros (b & _ & Ht & _). by case_decide.
    + intros g gr Hgr. apply Hg in Hgr as ->. simpl. symmetry.
      induction (members max g) as [|a l IH]; simpl; [done|]. rewrite IH. by case_decide.
    + intros k g. rewrite lookup_fmap. destruct (ds !! k) as [d|] eqn:E; simpl; [|done].
      intros [= <-]. by apply (Hds k).
  - intros i b Hi. simpl in Hi. fold max n in Hi. apply Hb in Hi as [Hi ->]. split; [done|]. simpl.
    fold max. unfold liveb, group_size. simpl. fold max n. rewrite <- En.
    pose proof (Z.mod_pos_bound (Z.of_nat i) max Hmax).
    destruct (lookup_lt_is_Some_2 (init_groups (Z.of_nat n / max) max) (group_of max i)) as [gr Hgr].
    { unfold init_groups. rewrite length_fmap, length_seqZ. unfold group_of.
      apply Nat2Z.inj_lt. rewrite !Z2Nat.id by (apply Z.div_pos; lia).
      apply Z.div_lt_upper_bound; lia. }
    rewrite Hgr. apply Hg in Hgr as ->. simpl. unfold stride.
    rewrite Z.div_same, Z.mod_1_r, Z.div_1_r by lia. simpl.
    rewrite (proj2 (Z.ltb_lt _ _)) by lia. rewrite decide_True by done.
    split; [|done]. by split.
Qed.

(** ** The walk over the tree *)

Fixpoint preorder (t : avl) : list node :=
  match t with Leaf => [] | Node l n _ r => n :: preorder l ++ preorder r end.

Lemma preorder_perm t : preorder t ≡ₚ inorder t.
Proof.
  induction t as [|l IHl n b r IHr]; simpl; [done|]. by rewrite IHl, IHr, Permutation_middle.
Qed.

(** What the walk does when it is done with a subtree. *)
Definition gather_finish (fuel : nat) (prev : list gframe) (acc : list node) : outcome (list node) :=
  match gather_up prev with
  | Some (t, prev) => gather_walk fuel t prev acc
  | None => Done acc
  end.

Lemma gather_push_ok f prev :
  Z.of_nat (length prev) + 2 <= Z.of_nat RTEMS_BDBUF_AVL_MAX_HEIGHT ->
  gather_push f prev = Done (f :: prev).
Proof.
  intros Hl. unfold gather_push. by rewrite (proj2 (Nat.ltb_lt _ _)) by lia.
Qed.

Lemma gather_walk_ok t : forall fuel prev acc,
  t <> Leaf -> Z.of_nat (length prev) + height t <= Z.of_nat RTEMS_BDBUF_AVL_MAX_HEIGHT ->
  gather_walk (length (inorder t) + fuel) t prev acc = gather_finish fuel prev (acc ++ preorder t).
Proof.
  induction t as [|l IHl n b r IHr]; intros fuel prev acc Ht Hh; [done|]. simpl height in Hh.
  pose proof (height_nonneg l). pose proof (height_nonneg r).
  replace (length (inorder (Node l n b r)) + fuel)%nat
    with (S (length (inorder l) + (length (inorder r) + fuel)))%nat
    by (simpl; rewrite length_app; simpl; lia).
  assert (forall d acc', d = DRight \/ r = Leaf ->
    gather_finish fuel ((d, r) :: prev) acc' = gather_finish fuel prev acc') as Hup.
  { intros d acc' Hd. unfold gather_finish. simpl. destruct d, r; try done. by destruct Hd. }
  assert (forall acc', r <> Leaf ->
    gather_walk (length (inorder r) + fuel) r ((DRight, r) :: prev) acc' =
    gather_finish fuel prev (acc' ++ preorder r)) as Hr.
  { intros acc' Hne. rewrite IHr; [|done|]. - by apply Hup; left.
    - destruct r; [done|]. simpl length. lia. }
  destruct l as [|ll ln lb lr].
  - simpl. destruct r as [|rl rn rb rr].
    + unfold gather_finish. destruct (gather_up prev) as [[t' prev']|]; done.
    + rewrite gather_push_ok by (simpl in Hh; pose proof (height_nonneg rl); lia). simpl obind.
      change (length (inorder rl ++ rn :: inorder rr)) with (length (inorder (Node rl rn rb rr))).
      rewrite Hr by done. by rewrite <- app_assoc.
  - cbn [gather_walk]. rewrite gather_push_ok by (simpl in Hh; pose proof (height_nonneg ll); lia).
    cbn [obind]. rewrite IHl by (done || (simpl length; lia)).
    destruct r as [|rl rn rb rr].
    + rewrite Hup by (by right). simpl preorder. rewrite app_nil_r, <- app_assoc. done.
    + unfold gather_finish at 1. cbn [gather_up]. rewrite Hr by done.
      f_equal. rewrite <- !app_assoc. done.
Qed.

(** The walk of [rtems_bdbuf_gather_for_purge] visits every node of the
    tree exactly once and never overflows its array of 32 pointers, for every
    balanced tree the insertions can build. *)
Theorem gather_visits_tree (t : avl) :
  balanced t -> len (inorder t) < avl_capacity ->
  exists nodes, gather_nodes t = Done nodes /\ nodes ≡ₚ inorder t.
Proof.
  intros Hb Hc. exists (preorder t). split; [|apply preorder_perm].
  destruct t as [|l n b r]; [done|]. unfold gather_nodes.
  rewrite gather_walk_ok; [done|done|]. simpl length.
  pose proof (capacity_height _ Hb Hc). lia.
Qed.

Lemma gather_visits_tree_witness :
  exists nodes, gather_nodes tree_1 = Done nodes /\ nodes ≡ₚ inorder tree_1.
Proof.
  apply (gather_visits_tree tree_1); [simpl; lia|unfold len, avl_capacity; simpl; lia].
Defined.

(** ** Geometry *)

Lemma bds_per_size_loop_ok fuel : forall k bufs,
  0 <= k <= 32 -> bufs <= 2 ^ 32 -> 33 - k <= Z.of_nat fuel -> (k = 0 \/ 2 ^ (k - 1) < bufs) ->
  exists j, k <= j <= 32 /\ bds_per_size_loop fuel (2 ^ k) bufs = 2 ^ j /\ bufs <= 2 ^ j /\
    (j = 0 \/ 2 ^ (j - 1) < bufs).
Proof.
  induction fuel as [|fuel IH]; intros k bufs Hk Hb Hf Hmin; [lia|]. simpl.
  destruct (Z.ltb_spec (2 ^ k) bufs) as [Hlt|Hge]; [|exists k; split_and!; try done; lia].
  assert (k < 32) as Hk32 by (apply (Z.pow_lt_mono_r_iff 2); lia).
  assert (u64 (Z.shiftl (2 ^ k) 1) = 2 ^ (k + 1)) as ->.
  { rewrite Z.shiftl_mul_pow2, <- Z.pow_add_r by lia. apply wrap_small. split.
    - apply Z.pow_nonneg. lia.
    - apply Z.pow_lt_mono_r; lia. }
  destruct (IH (k + 1) bufs) as (j & Hj & Hl); try lia.
  { right. by replace (k + 1 - 1) with k by lia. }
  exists j. split; [lia|done].
Qed.

Lemma bds_per_group_ok (cfg : bdbuf_config) (max size : Z) :
  0 < buffer_min cfg -> 0 < size < 2 ^ 32 -> 0 < max ->
  let n := rtems_bdbuf_bds_per_group cfg max size in
  if size >? buffer_max cfg then n = 0
  else exists k, 0 <= k <= 32 /\ n = max / 2 ^ k /\
    size <= 2 ^ k * buffer_min cfg /\ (k = 0 \/ 2 ^ (k - 1) * buffer_min cfg < size) /\
    (n <> 0 -> 0 < n <= max /\ size <= stride max n * buffer_min cfg).
Proof.
  intros Hmin Hsize Hmax. unfold rtems_bdbuf_bds_per_group.
  destruct (size >? buffer_max cfg); [done|].
  assert (0 <= (size - 1) / buffer_min cfg < 2 ^ 32) as Hq.
  { split; [apply Z.div_pos; lia|apply Z.div_lt_upper_bound; nia]. }
  rewrite (wrap_small 64 (size - 1)) by (split; lia).
  rewrite wrap_small by (split; lia). set (bufs := (size - 1) / buffer_min cfg + 1).
  destruct (bds_per_size_loop_ok 64 0 bufs) as (k & Hk & Hl & Hb & Hm); try lia.
  change (2 ^ 0) with 1 in Hl. rewrite Hl. exists k. split; [done|]. split; [done|].
  assert (0 < 2 ^ k) as Hp by (apply Z.pow_pos_nonneg; lia).
  pose proof (Z.div_mod (size - 1) (buffer_min cfg) ltac:(lia)) as Hd.
  pose proof (Z.mod_pos_bound (size - 1) (buffer_min cfg) Hmin) as Hr.
  assert (size <= 2 ^ k * buffer_min cfg) as Hcover by (subst bufs; nia).
  split_and!; [done| |].
  - destruct Hm as [|Hm]; [by left|right]. subst bufs. nia.
  - intros Hn. pose proof (Z.div_pos max (2 ^ k) ltac:(lia) ltac:(lia)) as Hpos.
    assert (max / 2 ^ k * 2 ^ k <= max) as Hle by (rewrite Z.mul_comm; apply Z.mul_div_le; lia).
    split; [nia|]. unfold stride.
    assert (2 ^ k <= max / (max / 2 ^ k)) as Hs by (apply Z.div_le_lower_bound; lia). nia.
Qed.

(** C39: [rtems_bdbuf_bds_per_group] splits a group in the right number of
    buffers: 0 for a size above the configured maximum, else the number of
    minimum buffers in a group divided by the least power of two that covers
    the size; and when it is not 0, the stretch of memory between two
    descriptors of the group is large enough for the size. *)
Theorem bds_per_group_correct (cfg : bdbuf_config) (max size : Z) :
  0 < buffer_min cfg -> 0 < size < 2 ^ 32 -> 0 < max ->
  let n := rtems_bdbuf_bds_per_group cfg max size in
  if size >? buffer_max cfg then n = 0
  else exists k, 0 <= k <= 32 /\ n = max / 2 ^ k /\
    size <= 2 ^ k * buffer_min cfg /\ (k = 0 \/ 2 ^ (k - 1) * buffer_min cfg < size) /\
    (n <> 0 -> 0 < n <= max /\ size <= stride max n * buffer_min cfg).
Proof. apply bds_per_group_ok. Qed.

Lemma bds_per_group_correct_witness :
  (if 1000 >? buffer_max rtems_bdbuf_configuration
   then rtems_bdbuf_bds_per_group rtems_bdbuf_configuration 8 1000 = 0
   else exists k, 0 <= k <= 32 /\ rtems_bdbuf_bds_per_group rtems_bdbuf_configuration 8 1000 = 8 / 2 ^ k /\
     1000 <= 2 ^ k * 512 /\ (k = 0 \/ 2 ^ (k - 1) * 512 < 1000) /\
     (rtems_bdbuf_bds_per_group rtems_bdbuf_configuration 8 1000 <> 0 ->
       0 < rtems_bdbuf_bds_per_group rtems_bdbuf_configuration 8 1000 <= 8 /\
       1000 <= stride 8 (rtems_bdbuf_bds_per_group rtems_bdbuf_configuration 8 1000) * 512)).
Proof.
  apply (bds_per_group_correct rtems_bdbuf_configuration 8 1000); simpl; lia.
Defined.

Lemma media_shift_loop_ok fuel : forall s m,
  0 <= s -> 32 - s = Z.of_nat fuel -> m <= 2 ^ 31 -> s <= 31 -> (s = 0 \/ 2 ^ (s - 1) < m) ->
  exists j, s <= j <= 31 /\ media_shift_loop fuel s m = Done j /\ m <= 2 ^ j /\
    (j = 0 \/ 2 ^ (j - 1) < m).
Proof.
  induction fuel as [|fuel IH]; intros s m Hs Hf Hm Hs31 Hmin; [lia|]. simpl.
  rewrite Z.shiftl_1_l. destruct (Z.ltb_spec (2 ^ s) m) as [Hlt|Hge].
  - assert (s < 31) by (apply (Z.pow_lt_mono_r_iff 2); lia).
    destruct (IH (s + 1) m) as (j & Hj & Hl); try lia.
    { right. by replace (s + 1 - 1) with s by lia. }
    exists j. split; [lia|done].
  - exists s. split_and!; try done; lia.
Qed.

(** The two ways of computing a media block agree.  After
    [rtems_bdbuf_set_block_size] has set a block size of [m] media blocks,
    [rtems_bdbuf_media_block] is the block number times [m] on 32 bits,
    whether the shift is used (when [m] is a power of two) or the 64-bit
    division, and neither shifts by 32 bits or more nor divides by zero. *)
Theorem media_block_correct (d : disk) (m n block : Z) :
  0 < media_block_size d -> 0 < m <= 2 ^ 31 -> media_block_size d * m < 2 ^ 32 ->
  0 <= block < 2 ^ 32 ->
  exists d', block_geometry (media_block_size d * m) n d = Done d' /\
    media_blocks_per_block d' = m /\ block_count d' = dd_size d / m /\
    rtems_bdbuf_media_block d' block = Done (u32 (block * m)).
Proof.
  intros Hd Hm Hlt Hb. unfold block_geometry.
  assert (negb (media_block_size d =? 0) = true) as Hnz.
  { apply negb_true_iff, Z.eqb_neq. lia. }
  rewrite Hnz. rewrite (Z.mul_comm (media_block_size d) m), Z.div_mul by lia.
  destruct (media_shift_loop_ok 32 0 m) as (j & Hj & -> & Hmj & Hjm); try lia.
  cbn [obind]. rewrite (proj2 (Z.eqb_neq m 0)) by lia. cbn [negb].
  eexists. split; [done|]. split; [done|]. split; [done|].
  unfold rtems_bdbuf_media_block. simpl.
  rewrite Z.shiftl_mul_pow2 by lia.
  assert (0 < 2 ^ j) as Hp by (apply Z.pow_pos_nonneg; lia).
  destruct (Z.eqb_spec (u32 (media_block_size d * 2 ^ j)) (m * media_block_size d)) as [E|E]; cbn [negb].
  - assert (2 ^ j = m) as Em.
    { unfold wrap in E.
      assert (2 ^ j < 2 * m) as H2.
      { destruct (decide (j = 0)) as [->|Hj0]; [change (2 ^ 0) with 1; lia|].
        destruct Hjm as [|Hjm]; [done|].
        assert (2 ^ j = 2 * 2 ^ (j - 1)) by (rewrite <- Z.pow_succ_r by lia; f_equal; lia). lia. }
      pose proof (Z.div_mod (media_block_size d * 2 ^ j) (2 ^ 32) ltac:(lia)) as Hdm.
      assert (0 <= media_block_size d * 2 ^ j / 2 ^ 32) by (apply Z.div_pos; nia).
      nia. }
    rewrite (proj2 (Z.leb_le 0 j)), (proj2 (Z.ltb_lt j 32)) by lia.
    rewrite Z.shiftl_mul_pow2, Em by lia. done.
  - simpl. rewrite Hnz. rewrite (wrap_small 64) by (split; nia).
    rewrite Z.mul_assoc, Z.div_mul by lia. done.
Qed.

Definition disk_3 : disk := set_media_block_size 512 (set_dd_size 90 disk_0).
Lemma media_block_correct_witness :
  exists d', block_geometry (512 * 3) 2 disk_3 = Done d' /\ media_blocks_per_block d' = 3 /\
    block_count d' = 90 / 3 /\ rtems_bdbuf_media_block d' 10 = Done (u32 (10 * 3)).
Proof. apply (media_block_correct disk_3 3 2 10); simpl; lia. Defined.

(** ** Registering a device *)

Section Register.
Context (H : gmap nat (hold * (Z * Z))).

Lemma held_eq c c' : bds c' = bds c -> held H c -> held H c'.
Proof. intros E Hh j k Hj. rewrite E. by apply Hh. Qed.

Lemma Inv_register D c dd d :
  Inv H D c -> D !! dd = None -> wf_geom (max_bds_per_group c) (disk_geom d) ->
  Inv H (<[dd := disk_geom d]> D) (set_disks (<[dd := d]> (disks c)) c).
Proof.
  intros (Hh & rho & HP & HR) Hd Hg. split; [by apply (held_eq c)|]. exists rho. split.
  - destruct HP as [[g1 g2 g3 g4 g5 g6] ? ? ? ? ? ? ? Hdk Hge].
    split; simpl; try done.
    + by rewrite fmap_insert, Hdk.
    + by apply map_Forall_insert_2.
  - intros i b Hi. destruct (HR i b Hi) as [Hw Hr]. split; [done|].
    simpl. change (group_size _ (bd_group b)) with (group_size c (bd_group b)).
    destruct (liveb _ _ _); [|done]. destruct Hr as ([Er Hs] & ?). split; [|done].
    split; [done|]. intros Hf. destruct (Hs Hf) as (g & Hg1 & Hg2). exists g.
    split; [|done]. rewrite lookup_insert_ne; [done|]. congruence.
Qed.

(** Purging a device none of whose blocks is in the cache. *)
Lemma wp_gather_visits_none dd nodes Q c o :
  (forall n, n ∈ nodes -> exists b, bds c !! nd_bd n = Some b /\ bd_dd b <> dd) ->
  Q [] c o -> wp (gather_visits dd nodes []) Q c o.
Proof.
  intros Hn HQ. induction nodes as [|n nodes IH]; simpl; [by apply wp_ret|].
  destruct (Hn n) as (b & Hb & Hne); [constructor|].
  apply wp_bind. eapply wp_get_bd; [done|]. rewrite (proj2 (Z.eqb_neq _ _)) by done.
  apply IH. intros m Hm. apply Hn. by constructor.
Qed.

Lemma wp_purge_none D dd g Q c o :
  Inv H D c -> D !! dd = Some g ->
  (forall n, n ∈ inorder (tree c) -> exists b, bds c !! nd_bd n = Some b /\ bd_dd b <> dd) ->
  (forall c', similar c c' -> Q tt c' o) -> wp (rtems_bdbuf_do_purge_dev dd) Q c o.
Proof.
  intros HI Hd Hn HQ. pose proof HI as (_ & rho & HP & _). unfold rtems_bdbuf_do_purge_dev.
  assert (disk_geom <$> disks c !! dd = Some g) as Hdk by (by eapply Inv_disk).
  apply wp_bind. unfold rtems_bdbuf_read_ahead_reset. apply wp_bind.
  eapply wp_read_ahead_cancel; [done|]. intros c1 Hs1.
  eapply wp_upd_disk_sim; [by eapply similar_disk|done|]. intros c2 Hs2.
  pose proof (similar_trans _ _ _ Hs1 Hs2) as Hs. pose proof Hs as (Eb & _ & _ & _ & _ & _ & Et & _).
  apply wp_bind. unfold rtems_bdbuf_gather_for_purge. apply wp_bind, wp_get_cache, wp_bind.
  rewrite Et. unfold gather_nodes.
  assert (gather_walk (length (inorder (tree c)) + 1) (tree c) [] [] = Done (preorder (tree c))) as Hw.
  { destruct (tree c) as [|l n b r] eqn:E; [done|]. rewrite gather_walk_ok; [done|done|].
    simpl length. rewrite <- E. pose proof (phys_height _ _ _ HP). lia. }
  rewrite Hw. eapply wp_lift; [done|]. apply wp_gather_visits_none.
  - intros n Hin. rewrite preorder_perm in Hin. rewrite Eb. by apply Hn.
  - unfold rtems_bdbuf_purge_list. simpl. apply wp_bind, wp_ret, wp_ret. by apply HQ.
Qed.

Definition dd_absent (dd : Z) (c : cache) : Prop :=
  forall n, n ∈ inorder (tree c) -> exists b, bds c !! nd_bd n = Some b /\ bd_dd b <> dd.

Lemma Inv_absent D c dd : Inv H D c -> D !! dd = None -> dd_absent dd c.
Proof.
  intros HI Hd n Hn. pose proof HI as (_ & rho & HP & HR).
  assert (contents (tree c) !! key n = Some n) as Hk
    by (apply contents_lookup; [apply (ph_avl _ _ _ HP)|done]).
  apply (ph_tree _ _ _ HP) in Hk as (b & Hb & Ht & _). exists b. split; [done|]. intros E.
  destruct (HR _ b Hb) as [_ Hr]. destruct (liveb _ _ _).
  - destruct Hr as ([Er Hs] & _). destruct Hs as (g & Hg & _).
    + intros Ef. by rewrite Er, Ef in Ht.
    + congruence.
  - destruct Hr as (Er & _). by rewrite Er in Ht.
Qed.

Lemma disk_init_phys_ok cfg D dd bs count caps c o :
  Inv H D c -> D !! dd = None -> 0 < buffer_min cfg -> 0 <= bs < 2 ^ 32 ->
  let n := rtems_bdbuf_bds_per_group cfg (max_bds_per_group c) bs in
  wp (rtems_disk_init_phys cfg dd bs count caps)
    (fun r c' o' => o' = o /\ exists g, Inv H (<[dd := g]> D) c' /\
       if (0 <? count) && (0 <? bs) && negb (n =? 0)
       then r = 0 /\ ge_count g = count /\ ge_block_size g = bs /\ ge_mbpb g = 1 /\ ge_start g = 0
       else r = - EINVAL /\ ge_count g = 0) c o.
Proof.
  intros HI Hd Hmin Hbs n. assert (0 < max_bds_per_group c) as Hmax.
  { destruct HI as (_ & rho & HP & _). apply (geo_max c (ph_geo _ _ _ HP)). }
  pose proof (Inv_absent D c dd HI Hd) as Habs.
  unfold rtems_disk_init_phys. set (d0 := read_ahead_0 _). apply wp_bind, wp_modify. rewrite Z.gtb_ltb.
  destruct (Z.ltb_spec 0 count) as [Hcount|Hcount]; cbn [andb].
  2: { apply wp_ret. split; [done|]. exists (disk_geom d0). split; [|done].
       apply Inv_register; [done|done|]. left. simpl. lia. }
  unfold upd_disk. apply wp_bind, wp_bind. eapply wp_get_disk; [apply lookup_insert_eq|].
  apply wp_modify. set (d1 := set_capabilities _ d0). unfold rtems_bdbuf_set_block_size.
  apply wp_bind, wp_ret, wp_bind, wp_get_cache. simpl disks. rewrite insert_insert_eq.
  rewrite Z.gtb_ltb. simpl max_bds_per_group. fold n.
  assert (Inv H (<[dd:=disk_geom d1]> D) (set_disks (<[dd:=d1]> (disks c)) c)) as HI1.
  { apply Inv_register; [done|done|]. left. simpl. lia. }
  destruct (Z.ltb_spec 0 bs) as [Hbs0|Hbs0]; cbn [andb].
  2: { apply wp_ret. split; [done|]. by exists (disk_geom d1). }
  pose proof (bds_per_group_ok cfg (max_bds_per_group c) bs Hmin ltac:(lia) Hmax) as Hn. cbv zeta in Hn. fold n in Hn.
  destruct (Z.eqb_spec n 0) as [En|En]; cbn [negb].
  { apply wp_ret. split; [done|]. by exists (disk_geom d1). }
  destruct (bs >? buffer_max cfg); [done|]. destruct Hn as (k & _ & _ & _ & _ & Hn).
  destruct (Hn En) as [Hn' _].
  apply wp_bind. eapply wp_get_disk; [apply lookup_insert_eq|]. apply wp_bind.
  assert (exists d2, block_geometry bs n d1 = Done d2 /\ disk_geom d2 =
    mk_geom dd (capabilities d1) 0 count bs bs count 1 0 n) as (d2 & Hd2 & Hg2).
  { unfold block_geometry. simpl. rewrite (proj2 (Z.eqb_neq bs 0)) by lia. cbn [negb].
    rewrite Z.div_same by lia. simpl. rewrite Z.shiftl_0_r, (wrap_small 32) by (split; lia).
    rewrite Z.eqb_refl. cbn [negb]. eexists. split; [done|]. simpl. by rewrite Z.div_1_r. }
  eapply wp_lift; [done|]. apply wp_bind. unfold upd_disk. apply wp_bind.
  eapply wp_get_disk; [apply lookup_insert_eq|]. apply wp_modify. simpl disks. rewrite insert_insert_eq.
  assert (Inv H (<[dd:=disk_geom d2]> D) (set_disks (<[dd:=d2]> (disks c)) c)) as HI2.
  { apply Inv_register; [done|done|]. rewrite Hg2. right. simpl. lia. }
  apply wp_bind. eapply wp_purge_none; [exact HI2|apply lookup_insert_eq|exact Habs|].
  intros c3 Hs3. apply wp_ret. split; [done|]. exists (disk_geom d2).
  split; [by eapply Inv_similar|]. by rewrite Hg2.
Qed.

End Register.

(** ** The API theorems *)

(** C4: [rtems_bdbuf_get] on a cache whose devices keep their block sizes: as
    long as the other threads keep the cache consistent for the geometries [D]
    and leave it the buffer it waits for ([env_ok]), the call fails no
    assertion: a block outside of the device is refused with -EINVAL and
    nothing changes; else, when the call returns, it has given the caller a
    buffer for the block's key that no other holder of a buffer holds, and the
    cache is consistent. With these rules no buffer of another size is found,
    so the branch that recycles such buffers is not reached here;
    [recycle_of_empty_buffer_is_fatal] below shows that it can fail an
    assertion after a block size was changed. *)
Theorem bdbuf_get_exclusive (H : gmap nat (hold * (Z * Z))) (D : gmap Z geom) (X : env -> Prop)
    (dd : Z) (d : disk) (block : Z) (c : cache) (o : list env) :
  Forall (env_ok H D X) o -> Inv H D c -> disks c !! dd = Some d -> 0 <= block ->
  wp (rtems_bdbuf_get dd block)
    (fun r c' o' => Inv H D c' /\ Forall (env_ok H D X) o' /\
       if block <? block_count d
       then exists i, r = (0, Some i) /\ Given H i (dd, media_block_of d block) c'
       else r = (- EINVAL, None) /\ c' = c) c o.
Proof. apply get_safe. Qed.

(** [rtems_bdbuf_read] has the same guarantee, with a driver that may
    fail: it returns a buffer for the block's key, or -EIO or -ENOSYS and no
    buffer, provided no other thread purges the buffer while its transfer is
    under way. *)
Theorem bdbuf_read_exclusive (H : gmap nat (hold * (Z * Z))) (D : gmap Z geom) (X : env -> Prop)
    (dd : Z) (d : disk) (block : Z) (c : cache) (o : list env) :
  (forall e, X e -> no_purge e) ->
  Forall (env_ok H D X) o -> Inv H D c -> disks c !! dd = Some d -> 0 <= block ->
  wp (rtems_bdbuf_read dd block)
    (fun r c' o' => Inv H D c' /\
       if block <? block_count d
       then exists i, read_result H i (dd, media_block_of d block) r c'
       else r = (- EINVAL, None) /\ c' = c) c o.
Proof. apply read_safe. Qed.

(** C34: [rtems_bdbuf_release], [rtems_bdbuf_release_modified] and
    [rtems_bdbuf_sync] of a buffer the caller holds, in whatever state a purge
    may have left it, return 0 and leave the cache consistent; NULL is
    refused with -EINVAL. *)
Theorem bdbuf_release_consistent (H : gmap nat (hold * (Z * Z))) (D : gmap Z geom)
    (X : env -> Prop) (cfg : bdbuf_config) (bd : option nat) (c : cache) (o : list env) :
  Forall (env_ok H D X) o -> Inv H D c -> mine_or_null H bd c ->
  let ok := fun r c' o' => r = returned bd /\ Inv H D c' /\ Forall (env_ok H D X) o' in
  wp (rtems_bdbuf_release cfg bd) ok c o /\
  wp (rtems_bdbuf_release_modified cfg bd) ok c o /\
  wp (rtems_bdbuf_sync bd) ok c o.
Proof.
  intros Ho HI HM. cbv zeta.
  split; [by apply release_safe|]. split; [by apply release_modified_safe|by apply sync_safe].
Qed.

(** *** [rtems_bdbuf_do_init] *)

Lemma init_run_ok ok steps : let r := init_run ok steps in
  (r.2 = true <-> forall s, s ∈ steps -> ok s = true) /\ (r.2 = true -> r.1 = steps) /\ forall s, s ∈ r.1 -> s ∈ steps.
Proof.
  induction steps as [|s l IH]; cbn [init_run].
  - split_and!; [|done|done]. split; [|done]. intros _ s Hs. by apply elem_of_nil in Hs.
  - cbv zeta in IH. destruct (ok s) eqn:E, (init_run ok l) as [h r]; cbn [fst snd] in *.
    + destruct IH as (IH1 & IH2 & IH3). setoid_rewrite elem_of_cons. split_and!.
      * rewrite IH1. naive_solver.
      * intros Hr. by rewrite IH2.
      * naive_solver.
    + split_and!; [|done|intros x Hx; by apply elem_of_nil in Hx]. split; [done|]. intros Hs.
      specialize (Hs s ltac:(constructor)). congruence.
Qed.

(** Every resource a step acquires is given back after an error. *)
Lemma init_releases cfg s : s ∈ init_steps cfg -> error_releases cfg s = true.
Proof.
  unfold init_steps. rewrite !elem_of_app. intros [Hs|[Hs|Hs]].
  - repeat (apply elem_of_cons in Hs as [->|Hs]; [done|]). by apply elem_of_nil in Hs.
  - destruct (0 <? swapout_workers cfg)%nat; [|by apply elem_of_nil in Hs].
    apply elem_of_cons in Hs as [->|(t & -> & Ht%elem_of_seq)%list_elem_of_fmap]; [done|].
    destruct t; [lia|]. simpl. apply Nat.leb_le. lia.
  - destruct (0 <? max_read_ahead_blocks cfg); [|by apply elem_of_nil in Hs].
    apply elem_of_cons in Hs as [->|Hs]; [|by apply elem_of_nil in Hs]. simpl. apply Nat.leb_le. lia.
Qed.

(** What [rtems_bdbuf_do_init] asks of a configuration. *)
Definition accepted (cfg : bdbuf_config) (sizeof_blkdev_request sizeof_sg_buffer : Z) : bool :=
  (buffer_max cfg mod buffer_min cfg =? 0) &&
  (sizeof_blkdev_request + sizeof_sg_buffer * max_read_ahead_blocks cfg <=? 128).

Lemma do_init_ok cfg sz sg ok mem md ds : 0 < buffer_min cfg <= buffer_max cfg ->
  rtems_bdbuf_do_init cfg sz sg ok mem md ds =
    Done (if accepted cfg sz sg then
            if (init_run ok (init_steps cfg)).2 then (0, Some (init_cache cfg mem md ds), init_steps cfg)
            else (- ENOSYS, None, [])
          else (- EINVAL, None, [])).
Proof.
  intros Hb. unfold rtems_bdbuf_do_init, accepted. rewrite (proj2 (Z.eqb_neq (buffer_min cfg) 0)) by lia. cbn [negb].
  destruct (buffer_max cfg mod buffer_min cfg =? 0); cbn [negb andb]; [|done].
  unfold rtems_bdbuf_read_request_size. change (RTEMS_BDBUF_TASK_STACK_SIZE_DEFAULT / 8) with 128.
  rewrite Z.gtb_ltb, Z.ltb_antisym. destruct (_ <=? 128); cbn [negb]; [|done].
  assert (0 < buffer_max cfg / buffer_min cfg) by (apply Z.div_str_pos; lia).
  rewrite (proj2 (Z.eqb_neq (buffer_max cfg / buffer_min cfg) 0)) by lia. cbn [negb].
  destruct (init_run_ok ok (init_steps cfg)) as (_ & H2 & H3). destruct (init_run ok (init_steps cfg)) as [h r]; cbn [fst snd] in *.
  destruct r; [by rewrite H2|]. do 2 f_equal. apply elem_of_nil_inv. intros s [Hs1 Hs2]%list_elem_of_filter.
  rewrite (init_releases cfg s) in Hs1 by auto. done.
Qed.

(** With buffers left over behind the last whole group, the last buffer has a
    group that does not exist. *)
Lemma broken_groups cfg mem md ds :
  0 < buffer_max cfg / buffer_min cfg -> 0 <= cache_size cfg / buffer_min cfg ->
  (cache_size cfg / buffer_min cfg) mod (buffer_max cfg / buffer_min cfg) <> 0 ->
  exists i b, bds (init_cache cfg mem md ds) !! i = Some b /\ groups (init_cache cfg mem md ds) !! bd_group b = None.
Proof.
  intros Hmax Hn Hw. set (n := cache_size cfg / buffer_min cfg) in *. set (max := buffer_max cfg / buffer_min cfg) in *.
  assert (0 < n) by (destruct (decide (n = 0)) as [E|]; [by rewrite E, Z.mod_0_l in Hw by lia|lia]).
  simpl. fold n max. destruct (lookup_lt_is_Some_2 (init_bds cfg (Z.to_nat n) 0 0 max) (Z.to_nat (n - 1))) as [b Hb].
  { rewrite init_bds_length. lia. }
  exists (Z.to_nat (n - 1)), b. split; [done|].
  apply (init_bds_lookup cfg _ max Hmax 0) in Hb as ->; [|lia]. simpl. apply lookup_ge_None.
  unfold init_groups. rewrite length_fmap, length_seqZ. apply Z2Nat.inj_le; [apply Z.div_pos; lia|apply Z.div_pos; lia|].
  pose proof (Z.div_mod n max ltac:(lia)). pose proof (Z.mod_pos_bound n max Hmax). apply Z.div_le_lower_bound; nia.
Qed.

(** When [rtems_bdbuf_bds_per_group] is not 0. *)
Lemma bds_per_group_fits cfg bs : 0 < buffer_min cfg <= buffer_max cfg -> 0 < bs < 2 ^ 32 ->
  rtems_bdbuf_bds_per_group cfg (buffer_max cfg / buffer_min cfg) bs <> 0 <->
  exists k, 0 <= k /\ bs <= 2 ^ k * buffer_min cfg <= buffer_max cfg.
Proof.
  intros Hb Hbs. set (max := buffer_max cfg / buffer_min cfg).
  assert (0 < max) as Hmax by (apply Z.div_str_pos; lia).
  pose proof (bds_per_group_ok cfg max bs ltac:(lia) Hbs Hmax) as Hn. cbv zeta in Hn.
  destruct (Z.gtb_spec bs (buffer_max cfg)) as [Hgt|Hle].
  { rewrite Hn. split; [done|]. intros (k & _ & ?). lia. }
  destruct Hn as (k & Hk & -> & Hk1 & Hk2 & _). assert (0 < 2 ^ k) by (apply Z.pow_pos_nonneg; lia).
  assert (max / 2 ^ k <> 0 <-> 2 ^ k * buffer_min cfg <= buffer_max cfg) as ->.
  { rewrite Z.div_small_iff by lia. split.
    - intros Hx. assert (2 ^ k <= max) by lia. pose proof (Z.mul_div_le (buffer_max cfg) (buffer_min cfg) ltac:(lia)).
      fold max in H1. nia.
    - intros Hx [[_ Hlt]|]; [|lia]. assert (2 ^ k <= max) by (apply Z.div_le_lower_bound; lia). lia. }
  split; [intros Hx; exists k; lia|]. intros (k' & Hk' & Hx). etransitivity; [|apply Hx].
  apply Z.mul_le_mono_nonneg_r; [lia|]. destruct (decide (k <= k')); [by apply Z.pow_le_mono_r|].
  destruct Hk2 as [->|Hk2]; [lia|]. assert (2 ^ k' <= 2 ^ (k - 1)) by (apply Z.pow_le_mono_r; lia). nia.
Qed.

(** C36: The initialisation of the cache and the registration of a device, for
    a configuration with [0 < buffer_min <= buffer_max].
    [rtems_bdbuf_do_init] answers 0 exactly if the configuration is accepted
    ([buffer_max] is a multiple of [buffer_min], and the request of a read
    ahead fits in its task's stack) and the system gives every resource;
    otherwise -EINVAL or -ENOSYS, and everything acquired is given back.  The
    cache of a successful initialisation is consistent if its memory, of fewer
    than [avl_capacity] buffers, is a whole number of groups; the code does
    not check this, and if it is not, the last buffer belongs to a group that
    does not exist.  [rtems_disk_init_phys] in a consistent cache answers 0
    exactly if the device has blocks and some power of two times [buffer_min]
    covers a block and is not above [buffer_max]; the device then has as many
    blocks as it was given, else the answer is -EINVAL and the device refuses
    every block; the cache stays consistent in both cases. *)
Theorem bdbuf_init_register (cfg : bdbuf_config) (sizeof_blkdev_request sizeof_sg_buffer : Z) (ok : resource -> bool)
    (H : gmap nat (hold * (Z * Z))) (D : gmap Z geom) (mem : list Z) (md : gmap Z (list Z))
    (dd bs count : Z) (caps : Z * Z) (c : cache) (o : list env) :
  0 < buffer_min cfg <= buffer_max cfg -> 0 <= cache_size cfg ->
  0 <= bs < 2 ^ 32 -> Inv H D c -> max_bds_per_group c = buffer_max cfg / buffer_min cfg -> D !! dd = None ->
  (exists r c0 held, rtems_bdbuf_do_init cfg sizeof_blkdev_request sizeof_sg_buffer ok mem md ∅ = Done (r, c0, held) /\
     (r = 0 <-> accepted cfg sizeof_blkdev_request sizeof_sg_buffer = true /\ forall s, s ∈ init_steps cfg -> ok s = true) /\
     (r <> 0 -> c0 = None /\ held = [] /\
        r = if accepted cfg sizeof_blkdev_request sizeof_sg_buffer then - ENOSYS else - EINVAL) /\
     (r = 0 -> held = init_steps cfg /\ exists c1, c0 = Some c1 /\ max_bds_per_group c1 = buffer_max cfg / buffer_min cfg /\
        if (cache_size cfg / buffer_min cfg) mod (buffer_max cfg / buffer_min cfg) =? 0
        then cache_size cfg / buffer_min cfg < avl_capacity -> Inv ∅ ∅ c1
        else exists i b, bds c1 !! i = Some b /\ groups c1 !! bd_group b = None)) /\
  wp (rtems_disk_init_phys cfg dd bs count caps)
    (fun r c' o' => o' = o /\
       (r = 0 <-> 0 < count /\ 0 < bs /\ exists k, 0 <= k /\ bs <= 2 ^ k * buffer_min cfg <= buffer_max cfg) /\
       exists g, Inv H (<[dd := g]> D) c' /\
       (r = 0 /\ ge_count g = count /\ ge_block_size g = bs /\ ge_mbpb g = 1 /\ ge_start g = 0 \/
        r = - EINVAL /\ ge_count g = 0)) c o.
Proof.
  intros Hb Hsize Hbs HI Hmax Hd. split.
  - rewrite do_init_ok by done. destruct (init_run_ok ok (init_steps cfg)) as (H1 & _).
    assert (0 < buffer_max cfg / buffer_min cfg) by (apply Z.div_str_pos; lia).
    assert (0 <= cache_size cfg / buffer_min cfg) by (apply Z.div_pos; lia).
    destruct (accepted cfg _ _); [destruct (init_run ok (init_steps cfg)).2|]; do 3 eexists; (split; [done|]); split_and!; try done.
    + naive_solver.
    + intros _. split; [done|]. eexists. split; [done|]. split; [done|].
      destruct (Z.eqb_spec ((cache_size cfg / buffer_min cfg) mod (buffer_max cfg / buffer_min cfg)) 0) as [E|E].
      * intros Hcap. pose proof (init_inv cfg mem md ∅) as Hi. rewrite fmap_empty in Hi. apply Hi; [|apply map_Forall_empty].
        by split; try lia.
      * by apply broken_groups.
    + split; [done|]. intros [_ Hx]. by apply H1 in Hx.
    + by split; [|intros [? _]].
  - eapply wp_mono; [apply disk_init_phys_ok; [done|done|lia|done]|]. cbv beta zeta. rewrite Hmax.
    intros r c' o' (-> & g & HI' & Hr). split; [done|]. split; [|exists g; split; [done|]; case_match; auto].
    destruct (Z.ltb_spec 0 count); cbn [andb] in Hr; [|destruct Hr as [-> _]; split; [done|lia]].
    destruct (Z.ltb_spec 0 bs); cbn [andb] in Hr; [|destruct Hr as [-> _]; split; [done|lia]].
    rewrite <- bds_per_group_fits by (split; lia || done).
    destruct (Z.eqb_spec (rtems_bdbuf_bds_per_group cfg (buffer_max cfg / buffer_min cfg) bs) 0); destruct Hr as [-> _]; naive_solver.
Qed.

(** *** Witnesses: a cache of eight small buffers with one device *)

Definition cfg_1 : bdbuf_config := mk_config 0 16 250 1000 0 4096 512 1024.
Definition disk_7 : disk :=
  mk_disk 7 0 0 100 512 512 100 1 0 2 stats_0 false RTEMS_DISK_READ_AHEAD_NO_TRIGGER 0 0.
Definition cache_1 : cache := init_cache cfg_1 [] ∅ {[7 := disk_7]}.
Definition geoms_1 : gmap Z geom := {[7 := disk_geom disk_7]}.
Definition idle_env : env := mk_env (fun _ c => c) 0.

Lemma wf_cfg_1 : wf_config cfg_1.
Proof. split; try reflexivity; split; try reflexivity; discriminate. Qed.

Lemma cache_1_inv : Inv ∅ geoms_1 cache_1.
Proof.
  pose proof (init_inv cfg_1 [] ∅ {[7 := disk_7]} wf_cfg_1) as Hi.
  rewrite map_fmap_singleton in Hi. apply Hi. apply map_Forall_singleton. right.
  split_and!; [reflexivity|discriminate|reflexivity|intros _; discriminate].
Qed.

Lemma idle_env_ok H D (X : env -> Prop) : X idle_env -> env_ok H D X idle_env.
Proof. intros HX. split; [done|]. intros claims c HI. split; [done|]. intros i b _ Hb. eauto 10. Qed.

Lemma idle_no_purge : no_purge idle_env.
Proof. intros claims c i b _ Hb Hs. eauto. Qed.

Lemma bdbuf_get_exclusive_witness :
  wp (rtems_bdbuf_get 7 5)
    (fun r c' o' => Inv ∅ geoms_1 c' /\ Forall (env_ok ∅ geoms_1 (fun _ => True)) o' /\
       if 5 <? block_count disk_7
       then exists i, r = (0, Some i) /\ Given ∅ i (7, media_block_of disk_7 5) c'
       else r = (- EINVAL, None) /\ c' = cache_1) cache_1 [idle_env].
Proof.
  apply (bdbuf_get_exclusive ∅ geoms_1 (fun _ => True) 7 disk_7 5 cache_1 [idle_env]).
  - constructor; [by apply idle_env_ok|constructor].
  - apply cache_1_inv.
  - reflexivity.
  - lia.
Defined.

Lemma bdbuf_read_exclusive_witness :
  wp (rtems_bdbuf_read 7 5)
    (fun r c' o' => Inv ∅ geoms_1 c' /\
       if 5 <? block_count disk_7
       then exists i, read_result ∅ i (7, media_block_of disk_7 5) r c'
       else r = (- EINVAL, None) /\ c' = cache_1) cache_1 [idle_env].
Proof.
  apply (bdbuf_read_exclusive ∅ geoms_1 no_purge 7 disk_7 5 cache_1 [idle_env]).
  - intros e He. exact He.
  - constructor; [apply idle_env_ok, idle_no_purge|constructor].
  - apply cache_1_inv.
  - reflexivity.
  - lia.
Defined.

(** The cache after block 5 has been got. *)
Definition cache_2 : cache :=
  match rtems_bdbuf_get 7 5 cache_1 [] with Ret _ c _ => c | _ => cache_1 end.

Lemma cache_2_mine : Inv ∅ geoms_1 cache_2 /\ mine_or_null ∅ (Some 0%nat) cache_2.
Proof.
  pose proof (get_safe ∅ geoms_1 (fun _ => True) 7 disk_7 5 cache_1 [] ltac:(constructor)
    cache_1_inv ltac:(reflexivity) ltac:(lia)) as Hw.
  assert (rtems_bdbuf_get 7 5 cache_1 [] = Ret (0, Some 0%nat) cache_2 []) as E by (vm_compute; reflexivity).
  unfold wp in Hw. rewrite E in Hw. destruct Hw as (HI & _ & i & [= <-] & Hi & b & Hb & Ha & _).
  split; [done|]. split; [done|]. eauto.
Qed.

Lemma bdbuf_release_consistent_witness :
  let ok := fun r c' o' => r = returned (Some 0%nat) /\ Inv ∅ geoms_1 c' /\
                           Forall (env_ok ∅ geoms_1 (fun _ => True)) o' in
  wp (rtems_bdbuf_release cfg_1 (Some 0%nat)) ok cache_2 [idle_env] /\
  wp (rtems_bdbuf_release_modified cfg_1 (Some 0%nat)) ok cache_2 [idle_env] /\
  wp (rtems_bdbuf_sync (Some 0%nat)) ok cache_2 [idle_env].
Proof.
  refine (bdbuf_release_consistent ∅ geoms_1 (fun _ => True) cfg_1 (Some 0%nat) cache_2 [idle_env]
    _ (proj1 cache_2_mine) (proj2 cache_2_mine)).
  constructor; [by apply idle_env_ok|constructor].
Defined.

Lemma bdbuf_init_register_witness :
  (exists r c0 held, rtems_bdbuf_do_init cfg_1 48 24 (fun _ => true) [] ∅ ∅ = Done (r, c0, held) /\
     (r = 0 <-> accepted cfg_1 48 24 = true /\ forall s, s ∈ init_steps cfg_1 -> true = true) /\
     (r <> 0 -> c0 = None /\ held = [] /\ r = if accepted cfg_1 48 24 then - ENOSYS else - EINVAL) /\
     (r = 0 -> held = init_steps cfg_1 /\ exists c1, c0 = Some c1 /\ max_bds_per_group c1 = 2 /\
        if 8 mod 2 =? 0 then 8 < avl_capacity -> Inv ∅ ∅ c1
        else exists i b, bds c1 !! i = Some b /\ groups c1 !! bd_group b = None)) /\
  wp (rtems_disk_init_phys cfg_1 9 1024 50 (0, 0))
    (fun r c' o' => o' = [] /\
       (r = 0 <-> 0 < 50 /\ 0 < 1024 /\ exists k, 0 <= k /\ 1024 <= 2 ^ k * 512 <= 1024) /\
       exists g, Inv ∅ (<[9 := g]> geoms_1) c' /\
       (r = 0 /\ ge_count g = 50 /\ ge_block_size g = 1024 /\ ge_mbpb g = 1 /\ ge_start g = 0 \/
        r = - EINVAL /\ ge_count g = 0)) cache_1 [].
Proof.
  apply (bdbuf_init_register cfg_1 48 24 (fun _ => true) ∅ geoms_1 [] ∅ 9 1024 50 (0, 0) cache_1 []).
  - simpl. lia.
  - simpl. lia.
  - lia.
  - apply cache_1_inv.
  - reflexivity.
  - reflexivity.
Defined.

(** Three buffers of 512 bytes and groups of up to 4096 bytes: the
    initialisation succeeds without any group. *)
Example init_without_groups :
  match rtems_bdbuf_do_init (mk_config 0 16 250 1000 0 1536 512 4096) 48 24 (fun _ => true) [] ∅ ∅ with
  | Done (r, Some c, _) => r = 0 /\ length (bds c) = 3%nat /\ groups c = []
  | _ => False
  end.
Proof. vm_compute. done. Qed.

(** ** Runs in which the cache fails *)

(** Another thread completes [m]. *)
Definition thread {A} (m : M A) : env :=
  mk_env (fun _ c => match m c [] with Ret _ c _ => c | _ => c end) 0.

Fixpoint get_blocks (dd : Z) (blocks : list Z) : M unit :=
  match blocks with [] => mret tt | b :: l => _ ← rtems_bdbuf_get dd b; get_blocks dd l end.

Definition state_of (i : nat) (c : cache) : option buf_state := bd_state <$> bds c !! i.

(** A purge of the device while [rtems_bdbuf_read] waits for the
    transfer: the read still succeeds and hands out a buffer that is no
    longer in the tree; after its release the buffer is CACHED on the LRU
    list, and recycling it later is a fatal error. *)
Theorem purge_during_read_is_fatal :
  exists c1 c2,
    rtems_bdbuf_read 7 5 cache_1 [thread (rtems_bdbuf_purge_dev 7)] = Ret (0, Some 0%nat) c1 [] /\
    state_of 0 c1 = Some ACCESS_CACHED /\ rtems_bdbuf_avl_search (tree c1) 7 5 = None /\
    rtems_bdbuf_release cfg_1 (Some 0%nat) c1 [] = Ret 0 c2 [] /\
    state_of 0 c2 = Some CACHED /\
    get_blocks 7 [10; 11; 12; 13; 14; 15; 16; 17] c2 [] = Fatal FATAL_TREE_RM.
Proof. do 2 eexists. split; [vm_compute; reflexivity|]. split; [reflexivity|]. split; [reflexivity|].
  split; [vm_compute; reflexivity|]. split; [reflexivity|]. vm_compute. reflexivity. Qed.

(** After a change of the block size, a caller that waits to recycle a
    buffer in use of the old size fails an assertion when the buffer is
    released: the release leaves the buffer EMPTY for the waiter, and
    [rtems_bdbuf_remove_from_tree_and_lru_list] accepts FREE and CACHED
    only. *)
Theorem recycle_of_empty_buffer_is_fatal :
  exists c1 c2,
    rtems_bdbuf_get 7 4 cache_1 [] = Ret (0, Some 0%nat) c1 [] /\
    rtems_bdbuf_set_block_size cfg_1 0 7 1024 false c1 [] = Ret 0 c2 [] /\
    state_of 0 c2 = Some ACCESS_PURGED /\
    rtems_bdbuf_get 7 2 c2 [thread (rtems_bdbuf_release cfg_1 (Some 0%nat))] =
      Fatal (FATAL_STATE 10).
Proof. do 2 eexists. split; [vm_compute; reflexivity|]. split; [vm_compute; reflexivity|].
  split; [reflexivity|]. vm_compute. reflexivity. Qed.
End Init.
