(* ===== verification/Blkdev.v ===== *)
(** * lib/block/blkdev.c, os/posix/os_vdisk_impl.cc : files over the buffer cache

    Reading and writing bytes through the buffer cache, the list of the block
    devices, and the virtual disk the posix build registers.  The loops are
    in the monad of the cache; the memory of the caller is a list of bytes.
    [rtems_blkdev_refines] shows that the calls act on an array of bytes. *)
From Stdlib Require Import ZArith Lia Bool.
From stdpp Require Import base list gmap numbers strings.
From S2P Require Import Prelude BdbufAvl BdbufState Bdbuf BdbufStep BdbufSwap BdbufInv BdbufSafe BdbufData BdbufInit.
Import Avl BdState Bdbuf Step Swap Inv Safe Data Init.

Module Blkdev.

(** ** The devices *)

(** [disk_device_context]: its name and the device it contains. *)
Record disk_device_context := mk_ctx { ctx_name : string; ctx_dd : Z }.

Definition disk_node_add (name : string) (ctx : disk_device_context) (disk_list : list disk_device_context)
    : list disk_device_context :=
  mk_ctx name (ctx_dd ctx) :: disk_list.

(** The status and what is stored through [pdd]. *)
Definition rtems_blkdev_open (name : option string) (pdd : bool) (disk_list : list disk_device_context)
    : Z * option Z :=
  match name with
  | None => (- EINVAL, None)
  | Some name =>
      if negb pdd then (- EINVAL, None)
      else
        match find (fun dc => String.eqb (ctx_name dc) name) disk_list with
        | Some dc => (0, Some (ctx_dd dc))
        | None => (- ENODATA, None)
        end
  end.

Section Blkdev.
Context (bdbuf_config : bdbuf_config).

(** [init_status] is the answer of [rtems_bdbuf_init], [ctx] the device
    inside of the memory [general_malloc] gives ([None] is [NULL]), and
    [caps] what the handler does with RTEMS_BLKIO_CAPABILITIES. *)
Definition rtems_blkdev_create (device : string) (media_block_size media_block_count : Z) (caps : Z * Z)
    (init_status : Z) (ctx : option Z) (disk_list : list disk_device_context)
    : M (Z * list disk_device_context) :=
  if negb (init_status =? 0) then mret (init_status, disk_list)
  else
    match ctx with
    | Some dd =>
        sc ← rtems_disk_init_phys bdbuf_config dd media_block_size media_block_count caps;
        mret (sc, if sc =? 0 then disk_node_add device (mk_ctx device dd) disk_list else disk_list)
    | None => mret (- ENOMEM, disk_list)
    end.

Definition rtems_blkdev_create_partition (partition : string) (parent_block_device : option string)
    (media_block_begin media_block_count : Z) (ctx : option Z) (disk_list : list disk_device_context)
    : M (Z * list disk_device_context) :=
  match rtems_blkdev_open parent_block_device true disk_list with
  | (0, Some phys_dd) =>
      match ctx with
      | Some dd =>
          sc ← rtems_disk_init_log bdbuf_config dd phys_dd media_block_begin media_block_count;
          mret (sc, if sc =? 0 then disk_node_add partition (mk_ctx partition dd) disk_list else disk_list)
      | None => mret (- ENOMEM, disk_list)
      end
  | _ => mret (- EINVAL, disk_list)
  end.

(** ** Reading and writing *)

Definition rtems_disk_get_block_size (d : disk) : Z := block_size d.

(** [remaining] at the end, -1 after an error, and the bytes put in the
    buffer of the caller. *)
Fixpoint read_loop (fuel : nat) (dd bsize remaining block block_offset : Z) (dst : list Z) : M (Z * list Z) :=
  match fuel with
  | O => if remaining >? 0 then fun _ _ => Diverged else mret (remaining, dst)
  | S fuel =>
      if remaining >? 0 then
        r ← rtems_bdbuf_read dd block;
        if r.1 =? 0 then
          i ← from_option_M r.2;
          let copy := bsize - block_offset in
          let copy := if copy >? remaining then remaining else copy in
          b ← get_bd i; c ← get_cache;
          data ← lift (mem_read (buffers c) (bd_buffer b + block_offset) copy);
          sc ← rtems_bdbuf_release bdbuf_config r.2;
          if sc =? 0 then read_loop fuel dd bsize (remaining - copy) (u32 (block + 1)) 0 (dst ++ data)
          else mret (-1, dst ++ data)
        else mret (-1, dst)
      else mret (remaining, dst)
  end.

Fixpoint write_loop (fuel : nat) (dd bsize remaining block block_offset : Z) (src : list Z) : M Z :=
  match fuel with
  | O => if remaining >? 0 then fun _ _ => Diverged else mret remaining
  | S fuel =>
      if remaining >? 0 then
        r ← (if (block_offset =? 0) && (remaining >=? bsize)
             then rtems_bdbuf_get dd block else rtems_bdbuf_read dd block);
        if r.1 =? 0 then
          i ← from_option_M r.2;
          let copy := bsize - block_offset in
          let copy := if copy >? remaining then remaining else copy in
          b ← get_bd i; c ← get_cache;
          mem ← lift (mem_write (buffers c) (bd_buffer b + block_offset) (take (Z.to_nat copy) src));
          modify (set_buffers mem) ;;
          sc ← rtems_bdbuf_release_modified bdbuf_config r.2;
          if sc =? 0
          then write_loop fuel dd bsize (remaining - copy) (u32 (block + 1)) 0 (drop (Z.to_nat copy) src)
          else mret (-1)
        else mret (-1)
      else mret remaining
  end.

(** What the calls return, set [errno] to when it is -1, and store in [*ofs]. *)
Definition io_result (remaining count ofs : Z) : Z * Z * Z :=
  if remaining >=? 0 then (s32 count, 0, s64 (ofs + count)) else (-1, EIO, ofs).

(** Every turn moves a byte at least. *)
Definition io_fuel (count : Z) : nat := Z.to_nat count.

Definition rtems_blkdev_read (dd count ofs : Z) : M (Z * Z * Z * list Z) :=
  d ← get_disk dd;
  let bsize := rtems_disk_get_block_size d in
  if bsize =? 0 then invalid else
  let block := u32 (Z.quot ofs bsize) in
  let block_offset := Z.rem ofs bsize in
  r ← read_loop (io_fuel (s64 count)) dd bsize (s64 count) block block_offset [];
  mret (io_result r.1 count ofs, r.2).

Definition rtems_blkdev_write (dd : Z) (buffer : list Z) (ofs : Z) : M (Z * Z * Z) :=
  let count := len buffer in
  d ← get_disk dd;
  let bsize := rtems_disk_get_block_size d in
  if bsize =? 0 then invalid else
  let block := u32 (Z.quot ofs bsize) in
  let block_offset := Z.rem ofs bsize in
  remaining ← write_loop (io_fuel (s64 count)) dd bsize (s64 count) block block_offset buffer;
  mret (io_result remaining count ofs).

(** ** Control *)

Inductive rtems_blkdev_request_op := REQ_READ | REQ_WRITE | REQ_SYNC.

(** [rtems_blkdev_sg_buffer]: the media block, the length, and where the
    buffer is in the buffer memory. *)
Record rtems_blkdev_sg_buffer := mk_sg { sg_block : Z; sg_length : Z; sg_buffer : Z }.

(** The requests of an ioctl: a transfer, the two that only the virtual disk
    knows, and those [rtems_blkdev_ioctl] knows. *)
Inductive ioctl_command :=
| BLKIO_REQUEST (req : rtems_blkdev_request_op) (bufs : list rtems_blkdev_sg_buffer)
| BLKIO_DELETED | BLKIO_GETBUFFER | BLKIO (r : blkio).

(** The result and [errno]; [handler] is [dd->ioctl]. *)
Definition rtems_blkdev_control {O} (handler : Z -> ioctl_command -> M (Z * Z * option O)) (dd : Z)
    (request : ioctl_command) : M (Z * Z * option O) :=
  match request with
  | BLKIO_REQUEST _ _ => mret (-1, EINVAL, None)
  | request => handler dd request
  end.

(** ** The virtual disk of the posix build *)

Definition FLASH_PGSZ : Z := 512.
Definition FLASH_CAPACITY : Z := 1024 * 1024.
Definition FLASH_NRBLK : Z := FLASH_CAPACITY / FLASH_PGSZ.

(** The loops over the entries of a request; the product is of 32 bits. *)
Fixpoint vdisk_read (bufs : list rtems_blkdev_sg_buffer) (vdisk_memory mem : list Z) : outcome (list Z) :=
  match bufs with
  | [] => Done mem
  | sg :: bufs =>
      let* data := mem_read vdisk_memory (u32 (sg_block sg * FLASH_PGSZ)) (sg_length sg) in
      let* mem := mem_write mem (sg_buffer sg) data in
      vdisk_read bufs vdisk_memory mem
  end.

Fixpoint vdisk_write (bufs : list rtems_blkdev_sg_buffer) (mem vdisk_memory : list Z) : outcome (list Z) :=
  match bufs with
  | [] => Done vdisk_memory
  | sg :: bufs =>
      let* data := mem_read mem (sg_buffer sg) (sg_length sg) in
      let* vdisk_memory := mem_write vdisk_memory (u32 (sg_block sg * FLASH_PGSZ)) data in
      vdisk_write bufs mem vdisk_memory
  end.

(** What [vdisk_request] stores through [argp]. *)
Inductive vdisk_out := VMemory | VOut (o : blkio_out).

(** [media !! vdd] is [vdisk_memory]; [me] is the calling thread. *)
Definition vdisk_request (vdd : Z) (me : nat) (dd : Z) (req : ioctl_command) : M (Z * Z * option vdisk_out) :=
  match req with
  | BLKIO_REQUEST REQ_READ bufs =>
      c ← get_cache; vdisk_memory ← from_option_M (media c !! vdd);
      mem ← lift (vdisk_read bufs vdisk_memory (buffers c));
      modify (set_buffers mem) ;; mret (0, 0, None)
  | BLKIO_REQUEST REQ_WRITE bufs =>
      c ← get_cache; vdisk_memory ← from_option_M (media c !! vdd);
      vdisk_memory ← lift (vdisk_write bufs (buffers c) vdisk_memory);
      modify (fun c => set_media (<[vdd := vdisk_memory]> (media c)) c) ;; mret (0, 0, None)
  | BLKIO_REQUEST REQ_SYNC _ => mret (-1, EINVAL, None)
  | BLKIO_DELETED => mret (0, 0, None)
  | BLKIO_GETBUFFER => mret (0, 0, Some VMemory)
  | BLKIO r => a ← rtems_blkdev_ioctl bdbuf_config me dd r; mret (a.1.1, a.1.2, Some (VOut a.2))
  end.

(** [CC_INIT (posix_vdisk, ...)]: a failure is an assertion; the driver does
    not know RTEMS_BLKIO_CAPABILITIES and answers -1. *)
Definition posix_vdisk (init_status : Z) (ctx : option Z) (disk_list : list disk_device_context)
    : M (list disk_device_context) :=
  r ← rtems_blkdev_create "/dev/disk0" FLASH_PGSZ FLASH_NRBLK (-1, 0) init_status ctx disk_list;
  if r.1 =? 0 then mret r.2 else fatal FATAL_OTHER.

End Blkdev.
(** ** The calls act on an array of bytes *)

Inductive call := BRead (count ofs : Z) | BWrite (src : list Z) (ofs : Z).

Section Calls.
Context (cfg : bdbuf_config) (dd : Z).

(** A call: the return value, [errno], the new offset, and the bytes read. *)
Definition perform (a : call) : M (Z * Z * Z * list Z) :=
  match a with
  | BRead count ofs => rtems_blkdev_read cfg dd count ofs
  | BWrite src ofs => r ← rtems_blkdev_write cfg dd src ofs; mret (r, [])
  end.

Fixpoint perform_all (l : list call) : M (list (Z * Z * Z * list Z)) :=
  match l with
  | [] => mret []
  | a :: l => r ← perform a; rs ← perform_all l; mret (r :: rs)
  end.
End Calls.

Section Array.
Context (reliable : Prop) (capacity : Z).

(** The device is an array of [capacity] bytes.  A call within it succeeds;
    one that goes past the end, or whose driver fails, answers -1 and EIO
    after part of the work, and leaves the offset. *)
Inductive served (A : list Z) : call -> Z * Z * Z * list Z -> list Z -> Prop :=
| ServedRead n ofs : n = 0 \/ ofs + n <= capacity ->
    served A (BRead n ofs) (n, 0, ofs + n, slice A ofs n) A
| ServedWrite src ofs : src = [] \/ ofs + len src <= capacity ->
    served A (BWrite src ofs) (len src, 0, ofs + len src, []) (splice A ofs src)
| FailedRead n ofs k : 0 <= k < n -> k = 0 \/ ofs + k <= capacity -> (reliable -> capacity < ofs + n) ->
    served A (BRead n ofs) (-1, EIO, ofs, slice A ofs k) A
| FailedWrite src ofs k : 0 <= k < len src -> k = 0 \/ ofs + k <= capacity ->
    (reliable -> capacity < ofs + len src) ->
    served A (BWrite src ofs) (-1, EIO, ofs, []) (splice A ofs (slice src 0 k)).

Inductive served_all : list Z -> list call -> list (Z * Z * Z * list Z) -> list Z -> Prop :=
| AllServed A : served_all A [] [] A
| OneServed A a l r rs A1 A2 : served A a r A1 -> served_all A1 l rs A2 ->
    served_all A (a :: l) (r :: rs) A2.
End Array.

(** The calls considered: the count fits an [int], and the blocks 32 bits. *)
Definition call_ok (bsz : Z) (a : call) : Prop :=
  let ok ofs n := 0 <= ofs /\ 0 <= n < 2 ^ 31 /\ ofs + n <= 2 ^ 32 * bsz /\ ofs + n < 2 ^ 63 in
  match a with BRead n ofs => ok ofs n | BWrite src ofs => ok ofs (len src) end.

Section Refine.
Context (dd phys bsz mbs bm max msize : Z) (H : gmap nat (hold * (Z * Z))) (D : gmap Z geom) (g : geom).
Context (HD : D !! dd = Some g) (Hphys : ge_phys g = phys) (Hcount : 0 < ge_count g).
Context (Hbsz : 0 < bsz) (Hsize : ge_block_size g = bsz) (Hbm : 0 < bm).
Context (Hfits : bsz <= stride max (ge_bpg g) * bm).
Context (Hblocks : forall b b', 0 <= b < ge_count g -> 0 <= b' < ge_count g -> mb_of g b = mb_of g b' -> b = b').
Context (reliable : Prop) (cfg : bdbuf_config).

Definition is_block (mb : Z) : Prop := exists b, 0 <= b < ge_count g /\ mb = mb_of g b.

Abbreviation Data := (Data dd phys bsz mbs bm max msize).
Abbreviation area := (area bsz).
Abbreviation env_ok := (env_ok H D (data_env dd phys bsz mbs bm max msize H D reliable is_block)).
Abbreviation Held := (Held dd H).

(** *** The array and the blocks *)

Definition capacity : Z := ge_count g * bsz.
Definition block_at (A : list Z) (b : Z) : list Z := slice A (b * bsz) bsz.
Definition blocks (A : list Z) : gmap Z (list Z) :=
  list_to_map ((fun b => (mb_of g b, block_at A b)) <$> seqZ 0 (ge_count g)).

Lemma blocks_spec A mb d :
  blocks A !! mb = Some d <-> exists b, 0 <= b < ge_count g /\ mb = mb_of g b /\ d = block_at A b.
Proof.
  unfold blocks. rewrite <- elem_of_list_to_map.
  - rewrite list_elem_of_fmap. split.
    + intros (b & [= -> ->] & Hb%elem_of_seqZ). exists b. split_and!; [lia|lia|done|done].
    + intros (b & Hb & -> & ->). exists b. split; [done|]. apply elem_of_seqZ. lia.
  - rewrite <- list_fmap_compose. apply NoDup_fmap_2_strong; [|apply NoDup_seqZ].
    intros b b' Hb Hb' E. apply elem_of_seqZ in Hb, Hb'. apply Hblocks; [lia|lia|exact E].
Qed.

Lemma blocks_on A : on_device is_block (blocks A).
Proof. intros mb d (b & Hb & -> & _)%blocks_spec. by exists b. Qed.
Lemma blocks_on_delete A mb : on_device is_block (delete mb (blocks A)).
Proof. intros mb' d [_ Hd]%lookup_delete_Some. by eapply blocks_on. Qed.

Lemma blocks_at A b : 0 <= b < ge_count g -> blocks A !! mb_of g b = Some (block_at A b).
Proof. intros Hb. apply blocks_spec. eauto. Qed.

Lemma blocks_insert A b ofs src :
  len A = capacity -> 0 <= b < ge_count g -> 0 <= ofs -> ofs + len src <= bsz ->
  <[mb_of g b := splice (block_at A b) ofs src]> (blocks A) = blocks (splice A (b * bsz + ofs) src).
Proof.
  intros HA Hb Ho Hs. pose proof (len_nonneg src) as Hl. unfold capacity in HA.
  assert (forall b', 0 <= b' < ge_count g -> b' * bsz + bsz <= len A) as Hin by (intros; nia).
  assert (forall b', 0 <= b' < ge_count g -> b' <> b ->
    block_at (splice A (b * bsz + ofs) src) b' = block_at A b') as Hother.
  { intros b' Hb' Hne. pose proof (Hin b Hb). apply slice_splice_other; [nia|lia|nia|].
    destruct (Z.lt_total b' b) as [|[|]]; [left|done|right]; nia. }
  assert (block_at (splice A (b * bsz + ofs) src) b = splice (block_at A b) ofs src) as Hsame.
  { pose proof (Hin b Hb). apply slice_splice_in; nia. }
  apply map_eq. intros mb. apply option_eq. intros d. rewrite lookup_insert_Some, !blocks_spec. split.
  - intros [[<- <-]|[Hne (b' & Hb' & -> & ->)]]; [by exists b|].
    exists b'. split_and!; try done; try lia. rewrite Hother; [done|done|]. by intros ->.
  - intros (b' & Hb' & -> & ->). destruct (decide (b' = b)) as [->|Hne]; [by left|right].
    split; [intros E; apply Hne; symmetry; by apply Hblocks|]. exists b'. by rewrite Hother.
Qed.

(** *** Reading *)

Lemma read_copy A i b c :
  Inv H D c -> Data (blocks A) c -> 0 <= b < ge_count g -> Held read_states i (mb_of g b) c ->
  forall ofs n, 0 <= ofs -> 0 <= n -> ofs + n <= bsz ->
  exists x, bds c !! i = Some x /\
    mem_read (buffers c) (bd_buffer x + ofs) n = Done (slice A (b * bsz + ofs) n).
Proof.
  intros HI HV Hb HH ofs n Ho Hn Hle.
  destruct (Held_used dd H D read_states i (mb_of g b) c HI HH) as (x & U & Hs & Hk).
  { intros s Hs. by apply held_accessed, read_held. }
  pose proof HV as [HL HVa _ _ _].
  destruct (area_inside dd phys bsz bm max msize H D g HD Hcount Hbm Hfits c i x HI HL U) as [A1 A2].
  exists x. split; [apply U|]. rewrite mem_read_ok by lia. f_equal.
  assert (area c x = block_at A b) as E.
  { destruct U as (Hx & Hdd & HLi & _). eapply HVa; try done; [|rewrite Hk; by apply blocks_at].
    unfold read_states in Hs. rewrite !elem_of_cons, elem_of_nil in Hs. by destruct Hs as [-> |[-> |[]]]. }
  unfold block_at, BdbufData.Data.area in E. rewrite <- (slice_slice _ (bd_buffer x) bsz ofs n), E by lia.
  rewrite slice_slice by (try lia; nia). done.
Qed.

(** What the loop gives when [remaining] bytes are wanted. *)
Definition read_end (A : list Z) (pos remaining : Z) (dst : list Z) (r : Z * list Z) : Prop :=
  (remaining = 0 \/ pos + remaining <= capacity) /\ r = (0, dst ++ slice A pos remaining) \/
  (reliable -> capacity < pos + remaining) /\ exists k, 0 <= k < remaining /\ (k = 0 \/ pos + k <= capacity) /\
    r = (-1, dst ++ slice A pos k).

Lemma read_end_step A pos n m dst r :
  0 <= pos -> 0 < n -> 0 <= m -> pos + n <= capacity ->
  read_end A (pos + n) m (dst ++ slice A pos n) r -> read_end A pos (n + m) dst r.
Proof.
  intros Hp Hn Hm Hc Hr. unfold read_end in *.
  assert (forall k, 0 <= k -> (dst ++ slice A pos n) ++ slice A (pos + n) k = dst ++ slice A pos (n + k)) as E.
  { intros k Hk. by rewrite <- app_assoc, <- slice_app_split by lia. }
  destruct Hr as [[Hm' ->]|[HR (k & Hk & Hk' & ->)]].
  - left. rewrite E by lia. split; [lia|done].
  - right. split; [intros Hrel; specialize (HR Hrel); lia|]. exists (n + k). rewrite E by lia.
    split_and!; [lia|lia|lia|done].
Qed.

Lemma rw_read_loop_ok A : len A = capacity -> forall fuel remaining block ofs dst c o,
  0 <= remaining -> (Z.to_nat remaining <= fuel)%nat -> 0 <= ofs < bsz ->
  (0 < remaining -> 0 <= block /\ block * bsz + ofs + remaining <= 2 ^ 32 * bsz) ->
  Forall env_ok o -> Inv H D c -> Data (blocks A) c ->
  wp (read_loop cfg fuel dd bsz remaining block ofs dst)
    (fun r c' o' => Inv H D c' /\ Forall env_ok o' /\ Data (blocks A) c' /\
       (0 < remaining -> read_end A (block * bsz + ofs) remaining dst r) /\
       (remaining = 0 -> r = (0, dst))) c o.
Proof.
  intros HA. induction fuel as [|fuel IH]; intros rem block ofs dst c o Hr Hf Ho Hb He HI HV.
  { assert (rem = 0) as -> by lia. apply wp_ret. split_and!; done. }
  cbn [read_loop]. rewrite Z.gtb_ltb. destruct (Z.ltb_spec 0 rem) as [Hpos|Hz].
  2:{ assert (rem = 0) as -> by lia. apply wp_ret. split_and!; done. }
  destruct (Hb Hpos) as [Hb0 Hb1]. unfold capacity in HA.
  apply wp_bind. eapply wp_mono; [eapply (read_data dd phys bsz mbs bm max msize H D g); try done; apply blocks_on|].
  intros r c1 o1 (HI1 & He1 & HV1 & Hres).
  destruct (Z.ltb_spec block (ge_count g)) as [Hlt|Hge].
  2:{ rewrite Hres. cbn [fst]. cbv beta iota. apply wp_ret. split_and!; try done; [|lia]. intros _. right.
      split; [unfold capacity; nia|]. exists 0. unfold slice at 1. simpl. rewrite app_nil_r.
      split_and!; [lia|lia|lia|done]. }
  destruct Hres as [(i & -> & HH)|[Hrel Hres]].
  2:{ assert (r.1 =? 0 = false /\ r.2 = None) as [-> _] by (destruct Hres as [-> | ->]; done).
      apply wp_ret. split_and!; try done; [|lia]. intros _. right. split; [done|].
      exists 0. unfold slice at 1. simpl. rewrite app_nil_r. split_and!; [lia|lia|lia|done]. }
  cbn [fst snd]. rewrite Z.eqb_refl. apply wp_bind, wp_ret. rewrite Z.gtb_ltb.
  set (copy := if rem <? bsz - ofs then rem else bsz - ofs).
  assert (0 < copy <= rem /\ copy <= bsz - ofs /\ (copy < rem -> copy = bsz - ofs)) as (Hc1 & Hc2 & Hc3).
  { unfold copy. destruct (Z.ltb_spec rem (bsz - ofs)); lia. }
  destruct (read_copy A i block c1 HI1 HV1 ltac:(lia) HH ofs copy) as (x & Hx & Hm); [lia..|].
  apply wp_bind. eapply wp_get_bd; [done|]. apply wp_bind, wp_get_cache, wp_bind.
  eapply wp_lift; [exact Hm|]. apply wp_bind.
  eapply wp_mono; [eapply (release_data dd phys bsz mbs bm max msize H D reliable is_block); try done; apply blocks_on|].
  intros sc c2 o2 (-> & HI2 & He2 & HV2). rewrite Z.eqb_refl.
  eapply wp_mono; [eapply (IH (rem - copy)); try done; try lia|].
  - intros Hrem. rewrite wrap_small; [|split; nia]. specialize (Hc3 ltac:(lia)). nia.
  - intros r c' o' (HI' & He' & HV' & Hr1 & Hr2). split_and!; try done; [|lia]. intros _.
    replace rem with (copy + (rem - copy)) by lia.
    assert (block * bsz + ofs + copy <= capacity) as Hin by (unfold capacity; nia).
    apply read_end_step; [nia|lia|lia|done|].
    destruct (Z.eq_dec (rem - copy) 0) as [E|E].
    + rewrite (Hr2 E), E. left. unfold slice at 3. simpl. rewrite app_nil_r. split; [by left|done].
    + specialize (Hr1 ltac:(lia)). specialize (Hc3 ltac:(lia)).
      rewrite wrap_small in Hr1 by (split; nia).
      replace ((block + 1) * bsz + 0) with (block * bsz + ofs + copy) in Hr1 by nia. exact Hr1.
Qed.

(** *** Writing *)

(** The caller has all of the block's bytes, or overwrites them all. *)
Lemma write_copy A i b ofs src c o :
  len A = capacity -> Forall env_ok o ->
  Inv H D c -> Data (blocks A) c -> 0 <= b < ge_count g -> Held held_states i (mb_of g b) c ->
  Held read_states i (mb_of g b) c \/ (ofs = 0 /\ len src = bsz) ->
  0 <= ofs -> ofs + len src <= bsz ->
  exists x mem, bds c !! i = Some x /\ mem_write (buffers c) (bd_buffer x + ofs) src = Done mem /\
    wp (rtems_bdbuf_release_modified cfg (Some i))
      (fun r c' o' => r = 0 /\ Inv H D c' /\ Forall env_ok o' /\
         Data (blocks (splice A (b * bsz + ofs) src)) c') (set_buffers mem c) o.
Proof.
  intros HA He HI HV Hb HH Hwhole Ho Hle. pose proof (len_nonneg src) as Hl.
  destruct (Held_used dd H D held_states i (mb_of g b) c HI HH held_accessed) as (x & U & Hs & Hk).
  destruct (Inv_sole dd H D held_states i (mb_of g b) c HI HH held_accessed) as [Hsole _].
  pose proof HV as [HL HVa _ _ _].
  destruct (area_inside dd phys bsz bm max msize H D g HD Hcount Hbm Hfits c i x HI HL U) as [A1 A2].
  destruct (Data_poke dd phys bsz mbs bm max msize H D g HD Hcount Hbm Hfits (blocks A) c i x ofs src HI HV U Hsole Ho Hle)
    as [HVp Hap]. rewrite Hk in HVp.
  exists x, (splice (buffers c) (bd_buffer x + ofs) src). split; [apply U|].
  split; [by rewrite mem_write_ok by lia|]. change (set_buffers _ c) with (poke (bd_buffer x + ofs) src c).
  assert (bds (poke (bd_buffer x + ofs) src c) !! i = Some x) as Hx by apply U.
  eapply wp_mono; [eapply (release_modified_data dd phys bsz mbs bm max msize H D reliable is_block cfg (blocks A) i (mb_of g b));
    [apply blocks_on_delete|exact He|by apply Inv_poke|exact HVp|exact HH|exact Hx]|].
  intros r c' o' (-> & HI' & He' & HV'). split_and!; try done.
  rewrite Hap in HV'. rewrite <- blocks_insert by done.
  assert (splice (area c x) ofs src = splice (block_at A b) ofs src) as <-; [|done].
  destruct Hwhole as [(_ & y & Hy & Hys & _)|[-> Hfull]].
  - f_equal. destruct U as (Hx' & Hdd & HLi & _). assert (y = x) as -> by congruence.
    eapply HVa; try done; [|rewrite Hk; by apply blocks_at].
    unfold read_states in Hys. rewrite !elem_of_cons, elem_of_nil in Hys. by destruct Hys as [-> |[-> |[]]].
  - rewrite !splice_all; [done|..].
    + unfold block_at. rewrite len_slice; [done|nia|lia|]. unfold capacity in HA. nia.
    + unfold BdbufData.Data.area. rewrite len_slice; lia.
Qed.

(** What the loop does with the bytes [src]. *)
Definition write_end (A : list Z) (pos : Z) (src : list Z) (r : Z) (A' : list Z) : Prop :=
  (src = [] \/ pos + len src <= capacity) /\ r = 0 /\ A' = splice A pos src \/
  (reliable -> capacity < pos + len src) /\ exists k, 0 <= k < len src /\ (k = 0 \/ pos + k <= capacity) /\
    r = -1 /\ A' = splice A pos (slice src 0 k).

Lemma write_end_step A pos src n r A' :
  len A = capacity -> 0 <= pos -> 0 < n <= len src -> pos + n <= capacity ->
  write_end (splice A pos (slice src 0 n)) (pos + n) (drop (Z.to_nat n) src) r A' ->
  write_end A pos src r A'.
Proof.
  intros HA Hp Hn Hc Hr. unfold write_end in *.
  assert (len (drop (Z.to_nat n) src) = len src - n) as Hd by (unfold len in *; rewrite length_drop; lia).
  assert (len (slice src 0 n) = n) as Hs by (apply len_slice; lia).
  assert (forall k, 0 <= k <= len src - n -> k = 0 \/ pos + n + k <= capacity ->
    splice (splice A pos (slice src 0 n)) (pos + n) (slice (drop (Z.to_nat n) src) 0 k) =
    splice A pos (slice src 0 (n + k))) as E.
  { intros k Hk Hin. rewrite (slice_app_split src 0 n k) by lia.
    assert (slice (drop (Z.to_nat n) src) 0 k = slice src (0 + n) k) as ->.
    { unfold slice. rewrite drop_drop. do 2 f_equal. lia. }
    rewrite splice_app; [by rewrite Hs|done|]. rewrite Hs, len_slice by lia. lia. }
  assert (forall l : list Z, slice l 0 (len l) = l) as Eall.
  { intros l. unfold slice, len. simpl. rewrite Nat2Z.id. by apply take_ge. }
  destruct Hr as [(Hin & -> & ->)|(HR & k & Hk & Hk' & -> & ->)].
  - left. split; [|split; [done|]].
    + right. destruct Hin as [E0|]; [rewrite E0 in Hd; change (len (@nil Z)) with 0 in Hd; lia|lia].
    + rewrite <- (Eall (drop (Z.to_nat n) src)), Hd, E.
      * replace (n + (len src - n)) with (len src) by lia. by rewrite Eall.
      * lia.
      * destruct Hin as [E0|]; [rewrite E0 in Hd; change (len (@nil Z)) with 0 in Hd; lia|lia].
  - right. split; [intros Hrel; specialize (HR Hrel); lia|]. exists (n + k). split_and!; [lia|lia|lia|done|].
    apply E; lia.
Qed.

Lemma rw_write_loop_ok fuel : forall A src block ofs c o,
  len A = capacity -> (length src <= fuel)%nat -> 0 <= ofs < bsz ->
  (0 < len src -> 0 <= block /\ block * bsz + ofs + len src <= 2 ^ 32 * bsz) ->
  Forall env_ok o -> Inv H D c -> Data (blocks A) c ->
  wp (write_loop cfg fuel dd bsz (len src) block ofs src)
    (fun r c' o' => Inv H D c' /\ Forall env_ok o' /\ exists A', len A' = capacity /\ Data (blocks A') c' /\
       (0 < len src -> write_end A (block * bsz + ofs) src r A') /\
       (len src = 0 -> r = 0 /\ A' = A)) c o.
Proof.
  induction fuel as [|fuel IH]; intros A src block ofs c o HA Hf Ho Hb He HI HV.
  { assert (len src = 0) as E by (unfold len; lia). rewrite E. apply wp_ret. split_and!; try done.
    exists A. split_and!; done. }
  cbn [write_loop]. rewrite Z.gtb_ltb. destruct (Z.ltb_spec 0 (len src)) as [Hpos|Hz].
  2:{ pose proof (len_nonneg src). assert (len src = 0) as E by lia. rewrite E. apply wp_ret.
      split_and!; try done. exists A. split_and!; done. }
  destruct (Hb Hpos) as [Hb0 Hb1]. pose proof HA as HA'. unfold capacity in HA'.
  rewrite Z.geb_leb, Z.gtb_ltb.
  set (copy := if len src <? bsz - ofs then len src else bsz - ofs).
  assert (0 < copy <= len src /\ copy <= bsz - ofs /\ (copy < len src -> copy = bsz - ofs)) as (Hc1 & Hc2 & Hc3).
  { unfold copy. destruct (Z.ltb_spec (len src) (bsz - ofs)); lia. }
  assert (forall c1 o1, Inv H D c1 -> Forall env_ok o1 -> Data (blocks A) c1 ->
    (reliable -> capacity < block * bsz + ofs + len src) ->
    wp (mret (-1)) (fun r c' o' => Inv H D c' /\ Forall env_ok o' /\ exists A', len A' = capacity /\
       Data (blocks A') c' /\ (0 < len src -> write_end A (block * bsz + ofs) src r A') /\
       (len src = 0 -> r = 0 /\ A' = A)) c1 o1) as Hfail.
  { intros c1 o1 HI1 He1 HV1 HR. apply wp_ret. split_and!; try done. exists A. split_and!; try done; [|lia].
    intros _. right. split; [done|]. exists 0. split_and!; [lia|lia|lia|done|].
    unfold slice, splice. simpl. rewrite Nat.add_0_r. by rewrite take_drop. }
  apply wp_bind. eapply (wp_mono _ (fun r c1 o1 => Inv H D c1 /\ Forall env_ok o1 /\ Data (blocks A) c1 /\
    (if block <? ge_count g
     then (exists i, r = (0, Some i) /\ Held held_states i (mb_of g block) c1 /\
             (Held read_states i (mb_of g block) c1 \/ (ofs = 0 /\ copy = bsz))) \/
          ~ reliable /\ r.1 =? 0 = false
     else r.1 =? 0 = false))).
  { destruct ((ofs =? 0) && (bsz <=? len src)) eqn:Ew.
    - apply andb_prop in Ew as [Ew1%Z.eqb_eq Ew2%Z.leb_le].
      eapply wp_mono; [eapply (get_data dd phys bsz mbs bm max msize H D g); try done; apply blocks_on|].
      intros r c1 o1 (HI1 & He1 & HV1 & Hres). split_and!; try done.
      destruct (block <? ge_count g); [|by rewrite Hres]. destruct Hres as (i & -> & HH). left. exists i.
      split_and!; try done. right. split; [done|]. unfold copy. destruct (Z.ltb_spec (len src) (bsz - ofs)); lia.
    - eapply wp_mono; [eapply (read_data dd phys bsz mbs bm max msize H D g); try done; apply blocks_on|].
      intros r c1 o1 (HI1 & He1 & HV1 & Hres). split_and!; try done.
      destruct (block <? ge_count g); [|by rewrite Hres].
      destruct Hres as [(i & -> & HH)|[Hrel Hres]]; [left|right; split; [done|by destruct Hres as [-> | ->]]].
      exists i. split_and!; try done; [|by left]. destruct HH as (Hi & y & Hy & Hys & Hyk).
      split; [done|]. exists y. split_and!; try done. by apply read_held. }
  intros r c1 o1 (HI1 & He1 & HV1 & Hres).
  destruct (Z.ltb_spec block (ge_count g)) as [Hlt|Hge].
  2:{ rewrite Hres. apply Hfail; try done. intros _. unfold capacity. nia. }
  destruct Hres as [(i & -> & HH & Hw)|[Hrel ->]]; [|by apply Hfail]. cbn [fst snd]. rewrite Z.eqb_refl.
  apply wp_bind, wp_ret.
  assert (take (Z.to_nat copy) src = slice src 0 copy) as Hsl by done.
  assert (len (slice src 0 copy) = copy) as Hlen by (apply len_slice; lia).
  destruct (write_copy A i block ofs (slice src 0 copy) c1 o1 HA He1 HI1 HV1 ltac:(lia) HH) as (x & mem & Hx & Hm & Hrel);
    [rewrite Hlen; tauto|lia|rewrite Hlen; lia|].
  apply wp_bind. eapply wp_get_bd; [done|]. apply wp_bind, wp_get_cache, wp_bind.
  rewrite Hsl. eapply wp_lift; [exact Hm|]. apply wp_bind, wp_modify, wp_bind.
  eapply wp_mono; [exact Hrel|]. intros sc c2 o2 (-> & HI2 & He2 & HV2). rewrite Z.eqb_refl.
  assert (len (drop (Z.to_nat copy) src) = len src - copy) as Hd by (unfold len in *; rewrite length_drop; lia).
  assert (block * bsz + ofs + copy <= capacity) as Hin by (unfold capacity; nia).
  rewrite <- Hd. eapply wp_mono; [eapply (IH (splice A (block * bsz + ofs) (slice src 0 copy))); try done; try lia|].
  - rewrite len_splice; [done|nia|]. rewrite Hlen. lia.
  - rewrite length_drop. unfold len in *. lia.
  - intros Hrem. rewrite wrap_small; [|split; nia]. specialize (Hc3 ltac:(lia)). nia.
  - intros r c' o' (HI' & He' & A' & HA2 & HV' & Hr1 & Hr2). split_and!; try done. exists A'.
    split_and!; try done; [|lia]. intros _. apply (write_end_step A _ src copy); try done; [nia|].
    destruct (Z.eq_dec (len src - copy) 0) as [E|E].
    + destruct (Hr2 ltac:(lia)) as [-> ->]. left.
      assert (drop (Z.to_nat copy) src = []) as -> by (apply drop_ge; unfold len in *; lia).
      split; [by left|]. split; [done|]. unfold splice. simpl. rewrite Nat.add_0_r. by rewrite take_drop.
    + specialize (Hr1 ltac:(lia)). specialize (Hc3 ltac:(lia)).
      rewrite wrap_small in Hr1 by (split; nia).
      replace ((block + 1) * bsz + 0) with (block * bsz + ofs + copy) in Hr1 by nia. exact Hr1.
Qed.

(** *** The calls *)

Lemma quot_rem_pos ofs : 0 <= ofs ->
  0 <= Z.quot ofs bsz /\ 0 <= Z.rem ofs bsz < bsz /\ Z.quot ofs bsz * bsz + Z.rem ofs bsz = ofs.
Proof.
  intros Ho. pose proof (Z.quot_rem' ofs bsz). pose proof (Z.rem_bound_pos ofs bsz Ho Hbsz).
  pose proof (Z.quot_pos ofs bsz Ho Hbsz). split_and!; lia.
Qed.

Lemma perform_ok A a c o :
  len A = capacity -> call_ok bsz a -> Forall env_ok o -> Inv H D c -> Data (blocks A) c ->
  wp (perform cfg dd a)
    (fun r c' o' => Inv H D c' /\ Forall env_ok o' /\ exists A', len A' = capacity /\ Data (blocks A') c' /\
       served reliable capacity A a r A') c o.
Proof.
  intros HA Hok He HI HV. destruct (the_disk dd phys H D g HD Hphys c HI) as (d & Hd & _ & Hds & _).
  assert (len A = capacity) as HA' by done.
  destruct a as [n ofs|src ofs]; destruct Hok as (Ho & Hn & Hb & Hs); cbn [perform].
  - unfold rtems_blkdev_read, rtems_disk_get_block_size. apply wp_bind. eapply wp_get_disk; [done|].
    rewrite Hds, Hsize, (proj2 (Z.eqb_neq bsz 0)) by lia. rewrite (swrap_small 64 n) by (try lia; zlia).
    destruct (quot_rem_pos ofs Ho) as (Hq & Hr & Heq). set (q := Z.quot ofs bsz) in *. set (r := Z.rem ofs bsz) in *.
    apply wp_bind. eapply wp_mono; [apply (rw_read_loop_ok A HA); try done; try (unfold io_fuel; lia)|].
    + intros Hpos. rewrite wrap_small by (split; [done|nia]). split; [done|nia].
    + intros x c' o' (HI' & He' & HV' & Hx1 & Hx2). apply wp_ret. split_and!; try done. exists A.
      split_and!; try done. destruct (Z.eq_dec n 0) as [->|Hne].
      * rewrite (Hx2 eq_refl). unfold io_result. cbn [fst snd]. rewrite Z.geb_leb. cbn [Z.leb Z.compare].
        rewrite !swrap_small by (try lia; zlia). apply (ServedRead reliable capacity A 0 ofs). by left.
      * specialize (Hx1 ltac:(lia)). rewrite wrap_small in Hx1 by (split; [done|nia]). rewrite Heq in Hx1.
        destruct Hx1 as [(Hin & ->)|(HR & k & Hk & Hk' & ->)]; unfold io_result; cbn [fst snd app].
        -- cbn [Z.geb Z.compare]. rewrite !swrap_small by (try lia; zlia). by constructor.
        -- by constructor.
  - unfold rtems_blkdev_write, rtems_disk_get_block_size. apply wp_bind, wp_bind. eapply wp_get_disk; [done|].
    rewrite Hds, Hsize, (proj2 (Z.eqb_neq bsz 0)) by lia. rewrite (swrap_small 64 (len src)) by (try lia; zlia).
    destruct (quot_rem_pos ofs Ho) as (Hq & Hr & Heq). set (q := Z.quot ofs bsz) in *. set (r := Z.rem ofs bsz) in *.
    apply wp_bind. eapply wp_mono; [apply (rw_write_loop_ok _ A); try done|].
    + unfold io_fuel, len. lia.
    + intros Hpos. rewrite wrap_small by (split; [done|nia]). split; [done|nia].
    + intros x c' o' (HI' & He' & A' & HA2 & HV' & Hx1 & Hx2). apply wp_ret, wp_ret. split_and!; try done. exists A'.
      split_and!; try done. destruct (Z.eq_dec (len src) 0) as [E|Hne].
      * destruct (Hx2 E) as [-> ->]. unfold io_result. cbn [Z.geb Z.compare].
        rewrite !swrap_small by (try lia; zlia).
        assert (src = []) as -> by (destruct src; [done|unfold len in E; simpl in E; lia]).
        assert (A = splice A ofs []) as EA by (unfold splice; simpl; by rewrite Nat.add_0_r, take_drop).
        rewrite EA at 2. constructor. by left.
      * specialize (Hx1 ltac:(pose proof (len_nonneg src); lia)). rewrite wrap_small in Hx1 by (split; [done|nia]).
        rewrite Heq in Hx1.
        destruct Hx1 as [(Hin & -> & ->)|(HR & k & Hk & Hk' & -> & ->)]; unfold io_result.
        -- cbn [Z.geb Z.compare]. rewrite !swrap_small by (try lia; zlia). by constructor.
        -- by constructor.
Qed.

Lemma perform_all_ok calls : forall A c o,
  len A = capacity -> Forall (call_ok bsz) calls -> Forall env_ok o -> Inv H D c -> Data (blocks A) c ->
  wp (perform_all cfg dd calls)
    (fun rs c' o' => Inv H D c' /\ Forall env_ok o' /\ exists A', Data (blocks A') c' /\
       served_all reliable capacity A calls rs A') c o.
Proof.
  induction calls as [|a calls IH]; intros A c o HA Hok He HI HV; simpl.
  { apply wp_ret. split_and!; try done. exists A. split; [done|constructor]. }
  apply Forall_cons in Hok as [Ha Hok]. apply wp_bind. eapply wp_mono; [by apply (perform_ok A)|].
  intros r c1 o1 (HI1 & He1 & A1 & HA1 & HV1 & Hs). apply wp_bind. eapply wp_mono; [by apply (IH A1)|].
  intros rs c2 o2 (HI2 & He2 & A2 & HV2 & Hss). apply wp_ret. split_and!; try done. exists A2.
  split; [done|by econstructor].
Qed.

End Refine.

(** ** The refinement *)

(** A device with blocks whose buffers fit in the memory of a group. *)
Record device (D : gmap Z geom) (dd phys bsz bm max : Z) (g : geom) : Prop := {
  dv_geom : D !! dd = Some g;
  dv_phys : ge_phys g = phys;
  dv_count : 0 < ge_count g;
  dv_size : 0 < bsz /\ ge_block_size g = bsz;
  dv_fits : 0 < bm /\ bsz <= stride max (ge_bpg g) * bm;
  dv_blocks : forall b b', 0 <= b < ge_count g -> 0 <= b' < ge_count g -> mb_of g b = mb_of g b' -> b = b' }.

(** C2: The calls of blkdev.c act on the device as on an array of bytes,
    through the buffer cache and whatever the other threads do within its
    rules.  From a cache and medium that hold the array [A], a sequence of
    calls of [rtems_blkdev_read] and [rtems_blkdev_write] answers as the
    array does ([served_all]): a read gives the bytes last written, a write
    changes the bytes at its offset and no others, the offset moves by the
    count, and a call fails with -1 and EIO, having done a part from the
    front, only past the end of the device or when the driver failed.  The
    cache and the medium hold the array that results. *)
Theorem rtems_blkdev_refines (cfg : bdbuf_config) (D : gmap Z geom) (H : gmap nat (hold * (Z * Z)))
    (dd phys bsz mbs bm max msize : Z) (g : geom) (reliable : Prop) (A : list Z) (calls : list call)
    (c : cache) (o : list env) :
  device D dd phys bsz bm max g ->
  Forall (env_ok H D (data_env dd phys bsz mbs bm max msize H D reliable (is_block g))) o ->
  Inv H D c -> Data dd phys bsz mbs bm max msize (blocks bsz g A) c ->
  len A = capacity bsz g -> Forall (call_ok bsz) calls ->
  wp (perform_all cfg dd calls)
    (fun rs c' o' => Inv H D c' /\ exists A', Data dd phys bsz mbs bm max msize (blocks bsz g A') c' /\
       served_all reliable (capacity bsz g) A calls rs A') c o.
Proof.
  intros [HD Hp Hc [Hb Hs] [Hbm Hf] Hi] Ho HI HV HA Hcalls.
  eapply wp_mono; [eapply (perform_all_ok dd phys bsz mbs bm max msize H D g); done|]. intros rs c' o' (HI' & _ & HA'). done.
Qed.

(** ** The cache after its initialisation *)

Lemma Data_init V cfg mem md ds dd phys bsz mbs :
  wf_config cfg -> len mem = cache_size cfg / buffer_min cfg * buffer_min cfg ->
  (forall mb d, V !! mb = Some d -> slice (default [] (md !! phys)) (mb * mbs) bsz = d) ->
  Data dd phys bsz mbs (buffer_min cfg) (buffer_max cfg / buffer_min cfg) (len (default [] (md !! phys))) V
    (init_cache cfg mem md ds).
Proof.
  intros [Hmin Hmax Hsize _] Hmem HV. set (max := buffer_max cfg / buffer_min cfg) in *.
  assert (forall i b, bds (init_cache cfg mem md ds) !! i = Some b ->
    bd_state b = FREE /\ bd_buffer b = Z.of_nat i * buffer_min cfg) as Hb.
  { intros i b Hi. apply (init_bds_lookup cfg _ max Hmax 0 i b ltac:(lia)) in Hi as ->.
    split; [done|]. simpl. f_equal. }
  split.
  - split; [done| | |done].
    + intros i b Hi. by apply Hb.
    + simpl. rewrite Hmem. unfold len. rewrite init_bds_length. f_equal. lia.
  - intros i b d Hi _ _ Hv. apply Hb in Hi as [E _]. by rewrite E in Hv.
  - intros i b d Hi _ _ Hv. apply Hb in Hi as [E _]. by rewrite E in Hv.
  - intros mb d Hd. left. by apply HV.
  - intros i b d l Hi _ _ Hv. apply Hb in Hi as [E _]. by rewrite E in Hv.
  - intros i l _ [Hp|Hp]; discriminate Hp.
Qed.

(** ** The virtual disk as the driver *)

#[export] Instance io_eq_dec : EqDecision io.
Proof. solve_decision. Defined.

Section Vdisk.
Context (cfg : bdbuf_config) (vdd bm max msize : Z) (H : gmap nat (hold * (Z * Z))) (D : gmap Z geom) (g : geom).
Context (Hdev : device D vdd vdd FLASH_PGSZ bm max g).
Context (Hplain : forall b, 0 <= b < ge_count g -> mb_of g b = b).
Context (Hmsize : ge_count g * FLASH_PGSZ <= msize < 2 ^ 32).

(** The entry of a request for a buffer that is to be transferred. *)
Definition sg_of (c : cache) (i : nat) : option rtems_blkdev_sg_buffer :=
  b ← bds c !! i;
  if bool_decide (bd_dd b = vdd) && bool_decide (bd_state b = TRANSFER) &&
     (0 <=? bd_block b) && (bd_block b <? ge_count g)
  then Some (mk_sg (bd_block b) FLASH_PGSZ (bd_buffer b)) else None.

(** The driver serves the request the thread has just issued to be read, or
    the last one that is to be written. *)
Definition vdisk_serve (kind : rtems_blkdev_request_op) (l : list nat) (c : cache) : cache :=
  match vdisk_request cfg vdd 0 vdd (BLKIO_REQUEST kind (omap (sg_of c) l)) c [] with
  | Ret _ c' _ => c'
  | _ => c
  end.
Definition vdisk_turn (claims : list nat) (c : cache) : cache :=
  match list.last (ios c) with
  | Some (IoRead p l) => if bool_decide (p = vdd /\ l = claims) then vdisk_serve REQ_READ l c else c
  | Some (IoWrite p l) => if bool_decide (p = vdd) then vdisk_serve REQ_WRITE l c else c
  | _ => c
  end.
Definition vdisk_env : env := mk_env vdisk_turn 0.

Abbreviation Layout := (Layout vdd bm max msize).
Abbreviation Data := (Data vdd vdd FLASH_PGSZ FLASH_PGSZ bm max msize).

Lemma sg_of_Some c i sg : sg_of c i = Some sg ->
  exists b, bds c !! i = Some b /\ bd_dd b = vdd /\ bd_state b = TRANSFER /\ 0 <= bd_block b < ge_count g /\
    sg = mk_sg (bd_block b) FLASH_PGSZ (bd_buffer b).
Proof.
  unfold sg_of. destruct (bds c !! i) as [b|]; [|done]. cbn [mbind option_bind].
  destruct (bool_decide (bd_dd b = vdd)) eqn:E1, (bool_decide (bd_state b = TRANSFER)) eqn:E2; try done.
  destruct (Z.leb_spec 0 (bd_block b)), (Z.ltb_spec (bd_block b) (ge_count g)); try done. simpl. intros [= <-].
  exists b. by apply bool_decide_eq_true in E1, E2.
Qed.

Lemma busy_used c i b : Inv H D c -> bds c !! i = Some b -> bd_dd b = vdd -> idle (bd_state b) = false ->
  used vdd c i b.
Proof.
  intros HI Hb Hdd Hs. split_and!; try done; [by eapply busy_live|]. intros E. by rewrite E in Hs.
Qed.

(** The request fills the buffers it names and no others. *)
Lemma vdisk_read_ok c disk l : Inv H D c -> Layout c -> len disk = msize -> forall mem, len mem = len (buffers c) ->
  exists mem', vdisk_read (omap (sg_of c) l) disk mem = Done mem' /\ len mem' = len (buffers c) /\
    forall j bj, used vdd c j bj ->
      slice mem' (bd_buffer bj) FLASH_PGSZ =
        if bool_decide (j ∈ l /\ is_Some (sg_of c j)) then slice disk (bd_block bj * FLASH_PGSZ) FLASH_PGSZ
        else slice mem (bd_buffer bj) FLASH_PGSZ.
Proof.
  intros HI HL Hdisk. destruct Hdev as [HD _ Hc _ [Hbm Hf] _].
  induction l as [|i l IH]; intros mem Hmem.
  { exists mem. split; [done|]. split; [done|]. intros j bj _. rewrite bool_decide_eq_false_2; [done|].
    intros [Hj _]. by apply elem_of_nil in Hj. }
  assert (omap (sg_of c) (i :: l) = match sg_of c i with Some sg => sg :: omap (sg_of c) l | None => omap (sg_of c) l end) as -> by done.
  destruct (sg_of c i) as [sg|] eqn:Esg.
  - destruct (sg_of_Some c i sg Esg) as (b & Hb & Hdd & Hs & Hblk & ->).
    pose proof (busy_used c i b HI Hb Hdd ltac:(by rewrite Hs)) as U.
    destruct (area_inside vdd vdd FLASH_PGSZ bm max msize H D g HD Hc Hbm Hf c i b HI HL U) as [A1 A2].
    cbn [vdisk_read sg_block sg_length sg_buffer].
    assert (0 <= bd_block b * FLASH_PGSZ /\ bd_block b * FLASH_PGSZ + FLASH_PGSZ <= msize) as [B1 B2].
    { unfold FLASH_PGSZ in *. lia. }
    rewrite wrap_small by (split; [done|unfold FLASH_PGSZ in *; lia]).
    rewrite mem_read_ok by (try done; lia). cbn [obind].
    set (data := slice disk (bd_block b * FLASH_PGSZ) FLASH_PGSZ).
    assert (len data = FLASH_PGSZ) as Hdata by (apply len_slice; [done|done|lia]).
    rewrite mem_write_ok by (try done; lia). cbn [obind].
    destruct (IH (splice mem (bd_buffer b) data)) as (mem' & Hm & Hl & Hall); [rewrite len_splice by lia; done|].
    exists mem'. split; [done|]. split; [done|]. intros j bj Uj. rewrite (Hall j bj Uj).
    destruct (bool_decide (j ∈ l /\ is_Some (sg_of c j))) eqn:E1.
    { apply bool_decide_eq_true in E1 as [E1 E2]. rewrite bool_decide_eq_true_2; [done|]. split; [by constructor|done]. }
    destruct (decide (j = i)) as [->|Hne].
    + rewrite bool_decide_eq_true_2 by (split; [by constructor|by rewrite Esg]).
      assert (bj = b) as -> by (destruct U, Uj; congruence).
      pose proof (slice_splice_same mem (bd_buffer b) data) as E. rewrite Hdata in E. apply E; lia.
    + rewrite bool_decide_eq_false_2.
      * destruct (areas_apart vdd vdd FLASH_PGSZ bm max msize H D g HD Hc Hbm Hf c i j b bj HI HL U Uj ltac:(done));
          destruct (area_inside vdd vdd FLASH_PGSZ bm max msize H D g HD Hc Hbm Hf c j bj HI HL Uj);
          apply slice_splice_other; lia.
      * apply bool_decide_eq_false in E1. intros [[->|Hj]%elem_of_cons Hs']; [done|]. by apply E1.
  - destruct (IH mem Hmem) as (mem' & Hm & Hl & Hall). exists mem'. split; [done|]. split; [done|].
    intros j bj Uj. rewrite (Hall j bj Uj).
    assert (bool_decide (j ∈ i :: l /\ is_Some (sg_of c j)) = bool_decide (j ∈ l /\ is_Some (sg_of c j))) as ->; [|done].
    apply bool_decide_ext. rewrite elem_of_cons. split; [|tauto]. intros [[-> |Hj] Hs']; [|done].
    rewrite Esg in Hs'. by destruct Hs'.
Qed.

(** What a write leaves in a block of the memory: the bytes of a buffer of the
    request for that block, or what was there. *)
Definition written (c : cache) (l : list nat) (disk disk' : list Z) (mb : Z) : Prop :=
  (exists i b, i ∈ l /\ is_Some (sg_of c i) /\ bds c !! i = Some b /\ bd_block b = mb /\
     slice disk' (mb * FLASH_PGSZ) FLASH_PGSZ = area FLASH_PGSZ c b) \/
  (forall i b, i ∈ l -> is_Some (sg_of c i) -> bds c !! i = Some b -> bd_block b <> mb) /\
    slice disk' (mb * FLASH_PGSZ) FLASH_PGSZ = slice disk (mb * FLASH_PGSZ) FLASH_PGSZ.

Lemma vdisk_write_ok c l : Inv H D c -> Layout c -> forall disk, len disk = msize ->
  exists disk', vdisk_write (omap (sg_of c) l) (buffers c) disk = Done disk' /\ len disk' = msize /\
    forall mb, 0 <= mb < ge_count g -> written c l disk disk' mb.
Proof.
  intros HI HL. destruct Hdev as [HD _ Hc _ [Hbm Hf] _].
  induction l as [|i l IH]; intros disk Hdisk.
  { exists disk. split; [done|]. split; [done|]. intros mb _. right. split; [|done]. intros i b Hi. by apply elem_of_nil in Hi. }
  assert (omap (sg_of c) (i :: l) = match sg_of c i with Some sg => sg :: omap (sg_of c) l | None => omap (sg_of c) l end) as -> by done.
  destruct (sg_of c i) as [sg|] eqn:Esg.
  - destruct (sg_of_Some c i sg Esg) as (b & Hb & Hdd & Hs & Hblk & ->).
    pose proof (busy_used c i b HI Hb Hdd ltac:(by rewrite Hs)) as U.
    destruct (area_inside vdd vdd FLASH_PGSZ bm max msize H D g HD Hc Hbm Hf c i b HI HL U) as [A1 A2].
    cbn [vdisk_write sg_block sg_length sg_buffer].
    assert (0 <= bd_block b * FLASH_PGSZ /\ bd_block b * FLASH_PGSZ + FLASH_PGSZ <= msize) as [B1 B2].
    { unfold FLASH_PGSZ in *. lia. }
    rewrite mem_read_ok by (try done; lia). cbn [obind].
    rewrite wrap_small by (split; [done|unfold FLASH_PGSZ in *; lia]).
    change (slice (buffers c) (bd_buffer b) FLASH_PGSZ) with (area FLASH_PGSZ c b).
    assert (len (area FLASH_PGSZ c b) = FLASH_PGSZ) as Hdata by (apply len_slice; [done|done|lia]).
    rewrite mem_write_ok by (try done; lia). cbn [obind].
    set (disk1 := splice disk (bd_block b * FLASH_PGSZ) (area FLASH_PGSZ c b)).
    destruct (IH disk1) as (disk' & Hm & Hl & Hall); [unfold disk1; rewrite len_splice by lia; done|].
    exists disk'. split; [done|]. split; [done|]. intros mb Hmb.
    destruct (Hall mb Hmb) as [(k & bk & Hk & Hsg & Hbk & Eb & E)|[Hno E]].
    { left. exists k, bk. split_and!; try done. by constructor. }
    destruct (decide (bd_block b = mb)) as [Heq|Hne].
    + left. exists i, b. split; [by constructor|]. split; [by rewrite Esg; eexists|]. split; [done|]. split; [done|]. rewrite E, <- Heq. unfold disk1.
      pose proof (slice_splice_same disk (bd_block b * FLASH_PGSZ) (area FLASH_PGSZ c b)) as E1. rewrite Hdata in E1. apply E1; lia.
    + right. split.
      * intros k bk [->|Hk]%elem_of_cons Hsg Hbk; [by replace bk with b by congruence|by apply (Hno k)].
      * rewrite E. unfold disk1. apply slice_splice_other; unfold FLASH_PGSZ in *; lia.
  - destruct (IH disk Hdisk) as (disk' & Hm & Hl & Hall). exists disk'. split; [done|]. split; [done|].
    intros mb Hmb. destruct (Hall mb Hmb) as [(k & bk & Hk & Hsg & Hbk & Eb & E)|[Hno E]].
    + left. exists k, bk. split_and!; try done. by constructor.
    + right. split; [|done]. intros k bk [->|Hk]%elem_of_cons Hsg Hbk; [rewrite Esg in Hsg; by destruct Hsg|by apply (Hno k)].
Qed.

(** The three things a turn can be. *)
Inductive turned (claims : list nat) (c : cache) : cache -> Prop :=
| TurnNothing : list.last (ios c) <> Some (IoRead vdd claims) ->
    (forall l, list.last (ios c) <> Some (IoWrite vdd l)) -> turned claims c c
| TurnRead mem : list.last (ios c) = Some (IoRead vdd claims) -> len mem = len (buffers c) ->
    (forall j bj, used vdd c j bj ->
      slice mem (bd_buffer bj) FLASH_PGSZ =
        if bool_decide (j ∈ claims /\ is_Some (sg_of c j)) then medium vdd FLASH_PGSZ FLASH_PGSZ c (bd_block bj)
        else area FLASH_PGSZ c bj) -> turned claims c (set_buffers mem c)
| TurnWrite l disk disk' : list.last (ios c) = Some (IoWrite vdd l) -> media c !! vdd = Some disk -> len disk' = msize ->
    (forall mb, 0 <= mb < ge_count g -> written c l disk disk' mb) ->
    turned claims c (set_media (<[vdd := disk']> (media c)) c).

Lemma vdisk_turn_ok claims c : Inv H D c -> Layout c -> turned claims c (vdisk_turn claims c).
Proof.
  intros HI HL. pose proof HL as [_ _ _ L4].
  assert (exists disk, media c !! vdd = Some disk /\ len disk = msize) as (disk & Hdisk & Hlen).
  { destruct (media c !! vdd) as [disk|]; [by exists disk|]. destruct Hdev as [_ _ Hc _ _ _].
    change (len (default [] (None : option (list Z)))) with 0 in L4. unfold FLASH_PGSZ in *. lia. }
  unfold vdisk_turn, vdisk_serve. cbn [vdisk_request]. unfold mbind, M_bind, get_cache, from_option_M. rewrite Hdisk.
  cbn [mret M_ret]. unfold M_ret.
  destruct (list.last (ios c)) as [[p l|p l|p|p]|] eqn:Eio; try (by apply TurnNothing; rewrite Eio).
  - case_bool_decide as Hp; [destruct Hp as [-> ->]|apply TurnNothing; rewrite Eio; [intros [= -> ->]; by apply Hp|done]].
    destruct (vdisk_read_ok c disk claims HI HL Hlen (buffers c) eq_refl) as (mem & Hm & Hl & Hall).
    rewrite Hm. apply TurnRead; [done|done|]. intros j bj U. rewrite (Hall j bj U). unfold medium, area. by rewrite Hdisk.
  - case_bool_decide as Hp; [subst p|apply TurnNothing; rewrite Eio; [done|intros l' [= -> ->]; by apply Hp]].
    destruct (vdisk_write_ok c l HI HL disk Hlen) as (disk' & Hm & Hl & Hall).
    rewrite Hm. by eapply TurnWrite.
Qed.

(** A turn changes bytes only. *)
Lemma vdisk_turn_bds claims c : bds (vdisk_turn claims c) = bds c /\ similar c (vdisk_turn claims c).
Proof.
  assert (forall k l, bds (vdisk_serve k l c) = bds c /\ similar c (vdisk_serve k l c)) as Hs.
  { intros k l. unfold vdisk_serve. destruct k; cbn [vdisk_request]; unfold mbind, M_bind, get_cache, from_option_M;
      [| |done]; destruct (media c !! vdd); try done; cbn [mret M_ret]; unfold M_ret;
      [by destruct (vdisk_read _ _ _)|by destruct (vdisk_write _ _ _)]. }
  unfold vdisk_turn. destruct (list.last (ios c)) as [[]|]; try done; case_bool_decide; done.
Qed.

Lemma read_area mem (claims : list nat) c i b :
  (forall j bj, used vdd c j bj -> slice mem (bd_buffer bj) FLASH_PGSZ =
     if bool_decide (j ∈ claims /\ is_Some (sg_of c j)) then medium vdd FLASH_PGSZ FLASH_PGSZ c (bd_block bj)
     else area FLASH_PGSZ c bj) ->
  used vdd c i b -> bd_state b <> TRANSFER \/ i ∉ claims -> area FLASH_PGSZ (set_buffers mem c) b = area FLASH_PGSZ c b.
Proof.
  intros Hall U Hs. unfold area at 1. cbn [buffers set_buffers]. rewrite (Hall i b U), bool_decide_eq_false_2; [done|].
  intros [Hi [sg Hsg]]. apply sg_of_Some in Hsg as (b' & Hb & _ & Ht & _). destruct U. destruct Hs; [congruence|done].
Qed.

Lemma medium_write disk' c mb :
  medium vdd FLASH_PGSZ FLASH_PGSZ (set_media (<[vdd := disk']> (media c)) c) mb = slice disk' (mb * FLASH_PGSZ) FLASH_PGSZ.
Proof. unfold medium. cbn [media set_media]. by rewrite lookup_insert_eq. Qed.

(** What is on the medium stays, and what is written is what it should be. *)
Lemma write_medium V l disk disk' c mb d :
  on_device (is_block g) V -> Data V c -> Inv H D c -> list.last (ios c) = Some (IoWrite vdd l) -> media c !! vdd = Some disk ->
  (forall mb, 0 <= mb < ge_count g -> written c l disk disk' mb) ->
  V !! mb = Some d -> medium vdd FLASH_PGSZ FLASH_PGSZ c mb = d ->
  medium vdd FLASH_PGSZ FLASH_PGSZ (set_media (<[vdd := disk']> (media c)) c) mb = d.
Proof.
  intros HO HV HI Hio Hdisk Hall Hd Hm. rewrite medium_write. destruct (HO mb d Hd) as (blk & Hblk & Emb).
  rewrite Hplain in Emb by done. subst mb.
  destruct (Hall blk Hblk) as [(i & b & Hi & [sg Hsg] & Hb & <- & ->)|[_ ->]].
  - apply sg_of_Some in Hsg as (b' & Hb' & Hdd & Hs & _). assert (b' = b) as -> by congruence.
    eapply (da_transfer _ _ _ _ _ _ _ _ _ HV i b d l); try done.
    by apply (busy_used c i b HI Hb Hdd ltac:(by rewrite Hs)).
  - unfold medium in Hm. by rewrite Hdisk in Hm.
Qed.

(** What the virtual disk does is what the cache relies on. *)
Lemma vdisk_env_ok :
  env_ok H D (data_env vdd vdd FLASH_PGSZ FLASH_PGSZ bm max msize H D True (is_block g)) vdisk_env.
Proof.
  split; [split; [|split; [done|]]|].
  - intros claims c i b _ Hb Hs. exists b. cbn [ev_act vdisk_env]. by rewrite (proj1 (vdisk_turn_bds claims c)).
  - intros claims c HI HL. cbn [ev_act vdisk_env].
    pose proof (vdisk_turn_ok claims c HI HL) as Hturn. split; [|split].
    + intros V HO HV. pose proof HV as [_ HVa HC HK HT HP].
      destruct Hturn as [_ _|mem Hio Hlen Hall|l disk disk' Hio Hdisk Hlen Hall]; [done| |].
      * assert (forall i b, used vdd c i b -> bd_state b <> TRANSFER -> area FLASH_PGSZ (set_buffers mem c) b = area FLASH_PGSZ c b) as Hsame.
        { intros i b U Hs. eapply read_area; eauto. }
        split.
        -- destruct HL as [L1 L2 L3 L4]. split; [done|done| |done]. cbn [buffers set_buffers bds]. by rewrite Hlen.
        -- intros j bj d Hbj Hdd HLj Hs Hd. rewrite (Hsame j bj); [by eapply HVa| |by intros E; rewrite E in Hs].
           split_and!; try done. by intros E; rewrite E in Hs.
        -- intros j bj d Hbj Hdd HLj Hs Hd. by eapply HC.
        -- intros mb d Hd. destruct (HK mb d Hd) as [|(j & bj & Hbj & Hk & HLj & Hs & Ha)]; [by left|].
           pose proof Hk as Hk'. unfold bd_key in Hk'. injection Hk' as Hdd Hmb.
           assert (used vdd c j bj) as U by (split_and!; try done; by intros E; rewrite E in Hs).
           destruct (bool_decide (j ∈ claims /\ is_Some (sg_of c j))) eqn:E.
           ++ apply bool_decide_eq_true in E as [Hj [sg Hsg]].
              apply sg_of_Some in Hsg as (b & Hb & _ & Ht & _). assert (b = bj) as -> by congruence. left.
              change (medium vdd FLASH_PGSZ FLASH_PGSZ (set_buffers mem c) mb) with (medium vdd FLASH_PGSZ FLASH_PGSZ c mb).
              rewrite <- Hmb. rewrite <- Hmb in Hd. by eapply (HT j bj d claims).
           ++ right. exists j, bj. split_and!; try done. unfold area. cbn [buffers set_buffers].
              rewrite (Hall j bj U), E. done.
        -- intros j bj d l Hbj Hdd HLj Hs Hd Hl. cbn [ios set_buffers]. split.
           ++ intros E. change (medium vdd FLASH_PGSZ FLASH_PGSZ c (bd_block bj) = d). by eapply (HT j bj d l).
           ++ intros E. congruence.
        -- exact HP.
      * set (c' := set_media _ c).
        assert (forall mb d, V !! mb = Some d -> medium vdd FLASH_PGSZ FLASH_PGSZ c mb = d -> medium vdd FLASH_PGSZ FLASH_PGSZ c' mb = d) as Hm.
        { intros mb d Hd. by eapply write_medium. }
        split.
        -- destruct HL as [L1 L2 L3 L4]. split; try done. unfold c'. cbn [media set_media]. by rewrite lookup_insert_eq.
        -- exact HVa.
        -- intros j bj d Hbj Hdd HLj Hs Hd. apply Hm; [done|]. by eapply HC.
        -- intros mb d Hd. destruct (HK mb d Hd) as [|Hk]; [left; by apply Hm|by right].
        -- intros j bj d l' Hbj Hdd HLj Hs Hd Hl. split; [|by apply (HT j bj d l')].
           intros E. apply Hm; [done|]. by apply (HT j bj d l').
        -- exact HP.
    + intros i b Hi Hb Hdd Hacc. exists b. rewrite (proj1 (vdisk_turn_bds claims c)). split_and!; try done.
      destruct Hturn as [_ _|mem _ _ Hall|l disk disk' _ _ _ _]; [done| |done].
      eapply read_area; [exact Hall|apply busy_used; try done; by destruct (bd_state b)|]. left. intros E. by rewrite E in Hacc.
    + intros Hio i b Hi Hb Hdd Hs. exists b. rewrite (proj1 (vdisk_turn_bds claims c)). split_and!; try done.
      intros (blk & Hblk & Eblk). destruct Hturn as [Hne _|mem _ _ Hall|l disk disk' Hio' _ _ _]; [done| |congruence].
      split; [done|]. intros _. rewrite Hplain in Eblk by done. unfold area. cbn [buffers set_buffers].
      rewrite (Hall i b) by (apply busy_used; try done; by rewrite Hs). rewrite bool_decide_eq_true_2; [done|].
      split; [done|]. unfold sg_of. rewrite Hb. cbn [mbind option_bind].
      rewrite !bool_decide_eq_true_2, (proj2 (Z.leb_le _ _)), (proj2 (Z.ltb_lt _ _)) by (try done; lia). by eexists.
  - intros claims c HI. cbn [ev_act vdisk_env]. destruct (vdisk_turn_bds claims c) as [E Hs].
    split; [by eapply Inv_similar|]. intros i b _ Hb. exists b. by rewrite E.
Qed.
End Vdisk.

(** *** Witness: the virtual disk with the default configuration *)

Definition disk_v : disk :=
  mk_disk 1 0 0 FLASH_NRBLK FLASH_PGSZ FLASH_PGSZ FLASH_NRBLK 1 0 8 stats_0 false
    RTEMS_DISK_READ_AHEAD_NO_TRIGGER 0 0.
Definition geom_v : geom := disk_geom disk_v.
Definition mem_v : list Z := replicate (Z.to_nat 32768) 0.
Definition flash_v : list Z := replicate (Z.to_nat FLASH_CAPACITY) 0.
Definition cache_v : cache := init_cache rtems_bdbuf_configuration mem_v {[1 := flash_v]} {[1 := disk_v]}.

(** It is what [posix_vdisk] leaves of an initialised cache without devices. *)
Lemma posix_vdisk_registers mem md :
  posix_vdisk rtems_bdbuf_configuration 0 (Some 1) [] (init_cache rtems_bdbuf_configuration mem md ∅) [] =
    Ret [mk_ctx "/dev/disk0" 1] (init_cache rtems_bdbuf_configuration mem md {[1 := disk_v]}) [].
Proof. vm_compute. reflexivity. Qed.

Lemma wf_configuration : wf_config rtems_bdbuf_configuration.
Proof. split; try reflexivity; split; try reflexivity; discriminate. Qed.

Lemma len_replicate_Z (n z : Z) : 0 <= n -> len (replicate (Z.to_nat n) z) = n.
Proof. intros Hn. unfold len. rewrite length_replicate. lia. Qed.

Lemma len_mem_v : len mem_v = cache_size rtems_bdbuf_configuration.
Proof. unfold mem_v. rewrite len_replicate_Z; [reflexivity|discriminate]. Qed.
Lemma len_flash_v : len flash_v = FLASH_CAPACITY.
Proof. unfold flash_v. rewrite len_replicate_Z; [reflexivity|discriminate]. Qed.

Lemma cache_v_inv : Inv ∅ {[1 := geom_v]} cache_v.
Proof.
  pose proof (init_inv rtems_bdbuf_configuration mem_v {[1 := flash_v]} {[1 := disk_v]} wf_configuration) as Hi.
  rewrite map_fmap_singleton in Hi. apply Hi. apply map_Forall_singleton. right.
  split_and!; [reflexivity|discriminate|reflexivity|intros _; discriminate].
Qed.

Lemma mb_of_v b : 0 <= b < ge_count geom_v -> mb_of geom_v b = b.
Proof.
  intros Hb. change (ge_count geom_v) with 2048 in Hb. unfold mb_of, media_block_of, rtems_bdbuf_get_media_block.
  change (block_count _) with 2048. rewrite (proj2 (Z.ltb_lt _ _)) by lia.
  unfold rtems_bdbuf_media_block. cbn [block_to_media_block_shift ge_shift geom_v disk_geom disk_v Z.leb Z.compare Z.ltb obind start ge_start].
  rewrite Z.shiftl_0_r, Z.add_0_r, !(wrap_small 32 b) by (split; [lia|apply Z.lt_trans with 2048; [lia|reflexivity]]). done.
Qed.

Lemma device_v : device {[1 := geom_v]} 1 1 FLASH_PGSZ 512 8 geom_v.
Proof.
  split; try reflexivity.
  - split; reflexivity.
  - split; [reflexivity|]. change (FLASH_PGSZ <= 512). unfold FLASH_PGSZ. lia.
  - intros b b' Hb Hb'. by rewrite !mb_of_v.
Qed.

Lemma fresh_data mem flash :
  len mem = cache_size rtems_bdbuf_configuration -> len flash = FLASH_CAPACITY ->
  Data 1 1 FLASH_PGSZ FLASH_PGSZ 512 8 FLASH_CAPACITY (blocks FLASH_PGSZ geom_v flash)
    (init_cache rtems_bdbuf_configuration mem {[1 := flash]} {[1 := disk_v]}).
Proof.
  intros Hm Hf.
  pose proof (Data_init (blocks FLASH_PGSZ geom_v flash) rtems_bdbuf_configuration mem {[1 := flash]}
    {[1 := disk_v]} 1 1 FLASH_PGSZ FLASH_PGSZ wf_configuration) as Hd.
  rewrite lookup_singleton_eq in Hd. cbn [default from_option id] in Hd. rewrite Hf in Hd. apply Hd; [done|].
  intros mb d. rewrite blocks_spec by (apply device_v). intros (b & Hb & -> & ->). by rewrite mb_of_v.
Qed.

Lemma cache_v_data : Data 1 1 FLASH_PGSZ FLASH_PGSZ 512 8 FLASH_CAPACITY (blocks FLASH_PGSZ geom_v flash_v) cache_v.
Proof. apply fresh_data; [exact len_mem_v|exact len_flash_v]. Qed.

Lemma vdisk_env_v :
  env_ok ∅ {[1 := geom_v]} (data_env 1 1 FLASH_PGSZ FLASH_PGSZ 512 8 FLASH_CAPACITY ∅ {[1 := geom_v]} True (is_block geom_v))
    (vdisk_env rtems_bdbuf_configuration 1 geom_v).
Proof.
  apply vdisk_env_ok; [apply device_v|apply mb_of_v|]. split; [|reflexivity].
  change (2048 * 512 <= 1024 * 1024). lia.
Qed.

Lemma rtems_blkdev_refines_witness :
  wp (perform_all rtems_bdbuf_configuration 1 [BWrite [1; 2; 3] 510; BRead 4 509])
    (fun rs c' o' => Inv ∅ {[1 := geom_v]} c' /\ exists A',
       Data 1 1 FLASH_PGSZ FLASH_PGSZ 512 8 FLASH_CAPACITY (blocks FLASH_PGSZ geom_v A') c' /\
       served_all True (capacity FLASH_PGSZ geom_v) flash_v [BWrite [1; 2; 3] 510; BRead 4 509] rs A')
    cache_v [vdisk_env rtems_bdbuf_configuration 1 geom_v; vdisk_env rtems_bdbuf_configuration 1 geom_v].
Proof.
  refine (rtems_blkdev_refines rtems_bdbuf_configuration {[1 := geom_v]} ∅ 1 1 FLASH_PGSZ FLASH_PGSZ 512 8
    FLASH_CAPACITY geom_v True flash_v [BWrite [1; 2; 3] 510; BRead 4 509] cache_v _ device_v _ cache_v_inv
    cache_v_data _ _).
  - constructor; [apply vdisk_env_v|]. constructor; [apply vdisk_env_v|constructor].
  - exact len_flash_v.
  - constructor; [|constructor; [|constructor]]; split; cbn; repeat split; try discriminate; lia.
Defined.
End Blkdev.
