(* ===== verification/BdbufWrite.v ===== *)
(** * What the swapout task chooses and writes

    The scan of the modified and sync lists, the order of a transfer, how a
    transfer is cut into requests to the driver, and two defects of the
    swapout task. *)
From Stdlib Require Import ZArith Lia Bool.
From stdpp Require Import base list gmap numbers sorting.
From S2P Require Import Prelude BdbufAvl BdbufState Bdbuf BdbufSwap BdbufInv BdbufSafe BdbufInit.
Import Avl BdState Bdbuf Swap Inv Init.

Module Write.

(** ** The order of the transfer list *)

Section Insert.
Context (blk : nat -> Z).

Definition blk_le (i j : nat) : Prop := blk i <= blk j.
Definition blk_ge (i j : nat) : Prop := blk j <= blk i.

Lemma insert_before_perm i l : insert_before blk i l ≡ₚ i :: l.
Proof.
  induction l as [|t l IH]; simpl; [done|]. destruct (blk i >? blk t); [done|].
  rewrite IH. constructor.
Qed.

Lemma insert_before_sorted i l :
  StronglySorted blk_ge l -> StronglySorted blk_ge (insert_before blk i l).
Proof.
  induction 1 as [|t l Hs IH Hf]; simpl; [by repeat constructor|].
  destruct (Z.gtb_spec (blk i) (blk t)) as [Hgt|Hle].
  - constructor; [by constructor|]. constructor; [unfold blk_ge; lia|].
    eapply Forall_impl; [exact Hf|]. intros x Hx. unfold blk_ge in *. lia.
  - constructor; [done|]. rewrite insert_before_perm. by constructor.
Qed.

Lemma StronglySorted_rev {A} (R : A -> A -> Prop) l :
  StronglySorted R l -> StronglySorted (fun x y => R y x) (rev l).
Proof.
  induction 1 as [|a l Hs IH Hf]; simpl; [constructor|].
  apply StronglySorted_app. split_and!; [|done|by repeat constructor].
  intros x y Hx ->%list_elem_of_singleton. rewrite Forall_forall in Hf. apply Hf.
  by rewrite (Permutation_rev l).
Qed.

Lemma transfer_insert_perm i l : transfer_insert blk i l ≡ₚ i :: l.
Proof.
  unfold transfer_insert. by rewrite <- Permutation_rev, insert_before_perm, <- Permutation_rev.
Qed.

Lemma transfer_insert_sorted i l :
  StronglySorted blk_le l -> StronglySorted blk_le (transfer_insert blk i l).
Proof.
  intros Hl. unfold transfer_insert. apply (StronglySorted_rev blk_ge), insert_before_sorted.
  exact (StronglySorted_rev blk_le l Hl).
Qed.

End Insert.

(** ** The scan *)

Lemma wp_upd_bd_eq i f b Q c o :
  bds c !! i = Some b -> Q tt (set_bds (<[i := f b]> (bds c)) c) o -> wp (upd_bd i f) Q c o.
Proof. intros Hb HQ. unfold upd_bd. apply wp_bind. eapply wp_get_bd; [done|]. by apply wp_modify. Qed.

Definition lists (c : cache) : list nat := lru c ++ modified c ++ sync c.

Definition set_chain (k : chain_id) (l : list nat) (c : cache) : cache :=
  match k with ModifiedChain => set_modified l c | SyncChain => set_sync l c end.

Lemma wp_extract_chain k i Q c o :
  NoDup (lists c) -> i ∈ get_chain k c ->
  Q tt (set_chain k (chain_del i (get_chain k c)) c) o -> wp (rtems_chain_extract i) Q c o.
Proof.
  intros Hn Hi HQ. unfold rtems_chain_extract. apply wp_bind, wp_get_cache.
  apply NoDup_app in Hn as (_ & H1 & Hn). apply NoDup_app in Hn as (_ & H2 & _).
  destruct k; simpl in *.
  - rewrite decide_False by (intros E; apply (H1 _ E); by apply elem_of_app; left).
    rewrite decide_True by done. by apply wp_modify.
  - rewrite decide_False by (intros E; apply (H1 _ E); by apply elem_of_app; right).
    rewrite decide_False by (intros E; by apply (H2 _ E)).
    rewrite decide_True by done. by apply wp_modify.
Qed.

Lemma chain_del_id i l : i ∉ l -> chain_del i l = l.
Proof.
  unfold chain_del. induction l as [|j l IH]; intros Hi; [done|].
  apply not_elem_of_cons in Hi as [Hi1 Hi2]. rewrite filter_cons_True by congruence.
  by rewrite IH.
Qed.

Lemma chain_del_middle i kept nodes :
  i ∉ kept -> i ∉ nodes -> chain_del i (kept ++ i :: nodes) = kept ++ nodes.
Proof.
  intros H1 H2. unfold chain_del. rewrite filter_app, filter_cons_False by tauto.
  f_equal; by apply chain_del_id.
Qed.

(** Taking one buffer off a chain keeps the lists disjoint. *)
Lemma NoDup_unchain k c kept i nodes :
  NoDup (lists c) -> get_chain k c = kept ++ i :: nodes -> NoDup (lists (set_chain k (kept ++ nodes) c)).
Proof.
  assert (forall (l1 l2 l3 : list nat), NoDup (l1 ++ (kept ++ i :: nodes) ++ l2) ->
            NoDup (l1 ++ (kept ++ nodes) ++ l2)) as Hsub.
  { intros l1 l2 l3 Hn. eapply sublist_NoDup; [exact Hn|].
    apply sublist_app; [done|]. apply sublist_app; [|done]. apply sublist_app; [done|].
    by apply sublist_cons. }
  intros Hn Hc. unfold lists in *. destruct k; simpl in *; rewrite Hc in Hn.
  - by apply Hsub.
  - rewrite app_assoc in Hn |- *. rewrite <- (app_nil_r (kept ++ i :: nodes)) in Hn.
    rewrite <- (app_nil_r (kept ++ nodes)). by apply Hsub.
Qed.

(** A buffer of the transfer. *)
Definition chosen (dd : Z) (c : cache) (i : nat) : Prop :=
  exists b, bds c !! i = Some b /\ bd_state b = TRANSFER /\ bd_dd b = dd /\ dd <> BDBUF_INVALID_DEV.
(** A buffer left on its list: held back, or of another device. *)
Definition left_over (dd : Z) (c : cache) (i : nat) : Prop :=
  exists b, bds c !! i = Some b /\
    (bd_hold_timer b <> 0 \/ (dd <> BDBUF_INVALID_DEV /\ bd_dd b <> dd)).

Definition scan_post (k : chain_id) (c0 : cache) (chain all : list nat) (r : Z * list nat) (c : cache) : Prop :=
  exists kept, get_chain k c = kept /\ sublist kept chain /\ NoDup (lists c) /\ all ≡ₚ kept ++ r.2 /\
    (forall i, block_of c i = block_of c0 i) /\
    Forall (left_over r.1 c) kept /\ Forall (chosen r.1 c) r.2 /\
    StronglySorted (blk_le (block_of c0)) r.2.

Lemma chosen_insert dd c c' i x b :
  bds c' = <[i := b]> (bds c) -> i <> x -> chosen dd c x -> chosen dd c' x.
Proof. intros E Hne (y & Hy & ?). exists y. by rewrite E, list_lookup_insert_ne. Qed.
Lemma left_over_insert dd c c' i x b :
  bds c' = <[i := b]> (bds c) -> i <> x -> left_over dd c x -> left_over dd c' x.
Proof. intros E Hne (y & Hy & ?). exists y. by rewrite E, list_lookup_insert_ne. Qed.

Lemma block_of_insert c c' i b b' x :
  bds c !! i = Some b -> bds c' = <[i := b']> (bds c) -> bd_block b' = bd_block b ->
  block_of c' x = block_of c x.
Proof.
  intros Hb E Hk. unfold block_of. rewrite E. destruct (decide (x = i)) as [->|Hne].
  - rewrite list_lookup_insert_eq, Hb by (by eapply lookup_lt_Some). done.
  - by rewrite list_lookup_insert_ne.
Qed.

Lemma modified_scan_ok k c0 sync_all active upd delta nodes : forall kept dd tr c o,
  get_chain k c = kept ++ nodes -> NoDup (lists c) -> NoDup tr ->
  (forall i, i ∈ tr -> i ∉ kept ++ nodes) ->
  (forall i, i ∈ nodes -> exists b, bds c !! i = Some b /\ bd_dd b <> BDBUF_INVALID_DEV) ->
  (forall i, block_of c i = block_of c0 i) ->
  Forall (left_over dd c) kept -> Forall (chosen dd c) tr -> StronglySorted (blk_le (block_of c0)) tr ->
  wp (modified_scan sync_all active upd delta nodes dd tr)
    (fun r c' o' => o' = o /\ scan_post k c0 (kept ++ nodes) (kept ++ nodes ++ tr) r c') c o.
Proof.
  induction nodes as [|i nodes IH]; intros kept dd tr c o Hch Hnd Htr Hdis Hn Hbl Hk Hc Hs; simpl.
  { apply wp_ret. split; [done|]. exists kept. rewrite app_nil_r in *.
    split_and!; try done. }
  destruct (Hn i) as (b & Hb & Hdd); [constructor|].
  assert (NoDup (kept ++ i :: nodes)) as Hnk.
  { rewrite <- Hch. unfold lists in Hnd. apply NoDup_app in Hnd as (_ & _ & Hnd).
    apply NoDup_app in Hnd as (? & _ & ?). by destruct k. }
  apply NoDup_app in Hnk as (Hnk1 & Hnk2 & Hnk3). apply NoDup_cons in Hnk3 as [Hin Hnk3].
  assert (i ∉ kept) as Hik by (intros E; apply (Hnk2 _ E); constructor).
  assert (i ∉ tr) as Hit by (intros E; apply (Hdis _ E), elem_of_app; right; constructor).
  apply wp_bind, wp_get_cache, wp_bind. eapply wp_get_bd; [done|].
  set (hold := hold_timer_scan _ _ _ _). apply wp_bind. eapply wp_upd_bd_eq; [done|].
  set (b1 := set_bd_hold_timer hold b). set (c1 := set_bds _ c).
  assert (bds c1 = <[i := b1]> (bds c)) as E1 by done.
  assert (bds c1 !! i = Some b1) as Hb1.
  { rewrite E1. apply list_lookup_insert_eq. by eapply lookup_lt_Some. }
  assert (forall j, j ∈ nodes -> exists b, bds c1 !! j = Some b /\ bd_dd b <> BDBUF_INVALID_DEV) as Hn1.
  { intros j Hj. destruct (Hn j) as (bj & Hbj & ?); [by constructor|]. exists bj.
    rewrite E1, list_lookup_insert_ne by (intros ->; done). done. }
  assert (forall j, block_of c1 j = block_of c0 j) as Hbl1.
  { intros j. rewrite <- Hbl. by eapply block_of_insert. }
  assert (Forall (left_over dd c1) kept) as Hk1.
  { apply Forall_forall. intros j Hj. rewrite Forall_forall in Hk.
    eapply left_over_insert; [done|by intros ->|by apply Hk]. }
  assert (Forall (chosen dd c1) tr) as Hc1.
  { apply Forall_forall. intros j Hj. rewrite Forall_forall in Hc.
    eapply chosen_insert; [done|by intros ->|by apply Hc]. }
  assert (forall dd', left_over dd' c1 i -> Forall (left_over dd' c1) kept -> Forall (chosen dd' c1) tr ->
    wp (modified_scan sync_all active upd delta nodes dd' tr)
      (fun r c' o' => o' = o /\ scan_post k c0 (kept ++ i :: nodes) (kept ++ (i :: nodes) ++ tr) r c') c1 o) as Hskip.
  { intros dd' Hl Hk' Hc'. replace (kept ++ (i :: nodes) ++ tr) with ((kept ++ [i]) ++ nodes ++ tr)
      by (rewrite <- app_assoc; done).
    replace (kept ++ i :: nodes) with ((kept ++ [i]) ++ nodes) by (rewrite <- app_assoc; done).
    apply IH; try done.
    - rewrite <- app_assoc. by destruct k.
    - intros j Hj. rewrite <- app_assoc. by apply Hdis.
    - apply Forall_app. split; [done|by constructor]. }
  destruct (Z.eqb_spec hold 0) as [Hh|Hh]; cbn [negb].
  2: { apply Hskip; try done. exists b1. split; [done|]. by left. }
  set (dd' := if dd =? BDBUF_INVALID_DEV then bd_dd b else dd).
  assert (dd' <> BDBUF_INVALID_DEV) as Hdd'.
  { unfold dd'. by destruct (Z.eqb_spec dd BDBUF_INVALID_DEV). }
  assert (Forall (left_over dd' c1) kept /\ Forall (chosen dd' c1) tr) as [Hk1' Hc1'].
  { unfold dd' in *. destruct (Z.eqb_spec dd BDBUF_INVALID_DEV) as [->|]; [|done].
    split; [eapply Forall_impl; [exact Hk1|]|destruct tr as [|t tr]; [constructor|]].
    - intros j (bj & Hbj & [Hh'|[? _]]); [|done]. exists bj. auto.
    - apply Forall_cons in Hc1 as [(? & _ & _ & _ & ?) _]. done. }
  destruct (Z.eqb_spec (bd_dd b) dd') as [Ed|Ed].
  2: { apply Hskip; try done. exists b1. split; [done|]. right. done. }
  apply wp_bind. eapply wp_upd_bd_eq; [done|]. set (b2 := set_bd_state TRANSFER b1).
  set (c2 := set_bds _ c1).
  assert (bds c2 = <[i := b2]> (bds c1)) as E2 by done.
  apply wp_bind. apply (wp_extract_chain k).
  { exact Hnd. }
  { assert (get_chain k c2 = kept ++ i :: nodes) as -> by (by destruct k).
    apply elem_of_app. right. constructor. }
  assert (get_chain k c2 = kept ++ i :: nodes) as -> by (by destruct k).
  rewrite chain_del_middle by done. set (c3 := set_chain k (kept ++ nodes) c2).
  assert (bds c3 = bds c2) as E3 by (by destruct k).
  apply wp_bind, wp_get_cache.
  assert (forall j, block_of c3 j = block_of c0 j) as Hbl3.
  { intros j. rewrite <- Hbl1. eapply block_of_insert; [exact Hb1|by rewrite E3|done]. }
  assert (transfer_insert (block_of c3) i tr = transfer_insert (block_of c0) i tr) as ->.
  { unfold transfer_insert. f_equal. induction (rev tr) as [|t l IHl]; simpl; [done|].
    by rewrite !Hbl3, IHl. }
  eapply wp_mono; [apply (IH kept dd' (transfer_insert (block_of c0) i tr) c3 o)|].
  - by destruct k.
  - by eapply (NoDup_unchain k c2).
  - rewrite transfer_insert_perm. by constructor.
  - intros j. rewrite transfer_insert_perm, elem_of_cons, elem_of_app. intros [->|Hj] [Hj'|Hj']; try done.
    + apply (Hdis _ Hj), elem_of_app. by left.
    + apply (Hdis _ Hj), elem_of_app. right. by constructor.
  - intros j Hj. destruct (Hn1 j Hj) as (bj & Hbj & ?). exists bj.
    rewrite E3, E2, list_lookup_insert_ne by (intros ->; done). done.
  - done.
  - apply Forall_forall. intros j Hj. rewrite Forall_forall in Hk1'.
    eapply left_over_insert; [by rewrite E3|by intros ->|by apply Hk1'].
  - rewrite transfer_insert_perm. constructor.
    + exists b2. split_and!; try done. rewrite E3, E2. apply list_lookup_insert_eq. by eapply lookup_lt_Some.
    + apply Forall_forall. intros j Hj. rewrite Forall_forall in Hc1'.
      eapply chosen_insert; [by rewrite E3|by intros ->|by apply Hc1'].
  - by apply transfer_insert_sorted.
  - intros r c' o' [-> (kept' & ? & Hsub & ? & Hp & ?)]. split; [done|]. exists kept'.
    split_and!; try tauto.
    { etrans; [exact Hsub|]. apply sublist_app; [done|]. by apply sublist_cons. }
    rewrite <- Hp, transfer_insert_perm. by rewrite (Permutation_middle nodes tr i).
Qed.

Lemma Inv_scan H D k c :
  Inv H D c -> NoDup (lists c) /\
  forall i, i ∈ get_chain k c -> exists b, bds c !! i = Some b /\ D !! bd_dd b <> None.
Proof.
  intros (_ & rho & HP & HR). split; [apply (ph_nodup _ _ _ HP)|]. intros i Hi.
  assert (i ∈ lru c ++ modified c ++ sync c) as Hin by (rewrite !elem_of_app; destruct k; tauto).
  pose proof (geo_links c (ph_geo _ _ _ HP) i Hin) as Hlt. apply lookup_lt_is_Some in Hlt as [b Hb].
  exists b. split; [done|]. destruct (HR i b Hb) as [_ Hr].
  assert (r_where (rho i) = InModified \/ r_where (rho i) = InSync) as Hw.
  { destruct k; [left|right]; by apply HP. }
  destruct (liveb _ _ _).
  - destruct Hr as ([Er Hs] & _). destruct Hs as (g & -> & _); [|done].
    intros Ef. rewrite Er, Ef in Hw. simpl in Hw. by destruct Hw.
  - destruct Hr as (Er & _). rewrite Er in Hw. by destruct Hw.
Qed.

(** *** The scan keeps the invariant *)

Lemma wp_and {A} (m : M A) (P Q : A -> cache -> list env -> Prop) c o :
  wp m P c o -> wp m Q c o -> wp m (fun a c o => P a c o /\ Q a c o) c o.
Proof. unfold wp. destruct (m c o); auto. Qed.

Definition chain_state (k : chain_id) : buf_state :=
  match k with ModifiedChain => MODIFIED | SyncChain => SYNC end.
Definition in_state (s : buf_state) (c : cache) (i : nat) : Prop :=
  exists b, bds c !! i = Some b /\ bd_state b = s.

Section ScanInv.
Context (H : gmap nat (hold * (Z * Z))) (D : gmap Z geom).

(** A buffer of either chain, opened. *)
Lemma chain_open k i c :
  Inv H D c -> in_state (chain_state k) c i ->
  H !! i = None /\ exists r b, Focus H D ∅ i r b c /\ Live c i /\ row D r c b /\ 0 <= bd_waiters b /\
    bd_state b = chain_state k.
Proof.
  intros HI (b & Hb & Hs). split.
  { destruct HI as [Hh _]. eapply held_None; [done|done|]. by rewrite Hs; destruct k. }
  assert (Live c i) as HL.
  { unfold Live. pose proof (Inv_group H D c i b HI Hb) as Hg. destruct HI as (_ & rho & HP & HR).
    specialize (HR i b Hb) as [_ HR]. rewrite <- Hg. destruct (liveb _ _ _); [done|].
    destruct HR as (_ & _ & HR). rewrite Hs in HR. by destruct k. }
  destruct (focus_open H D c i b HI Hb HL) as (r & HF & Hr & Hw & _). exists r, b. done.
Qed.

Lemma in_state_upd s c i (f : bd -> bd) b j :
  j <> i -> in_state s c j -> in_state s (set_bds (<[i := f b]> (bds c)) c) j.
Proof. intros Hne (bj & Hbj & Hs). exists bj. split; [|done]. simpl. by rewrite list_lookup_insert_ne. Qed.

(** A new hold timer. *)
Lemma wp_set_hold k i h c o :
  Inv H D c -> in_state (chain_state k) c i ->
  wp (upd_bd i (set_bd_hold_timer h))
    (fun _ c' o' => o' = o /\ Inv H D c' /\
       forall j s, in_state s c j -> in_state s c' j) c o.
Proof.
  intros HI Hi. pose proof Hi as (b & Hb & _).
  destruct (chain_open k i c HI Hi) as (HH & r & b' & HF & HL & Hr & Hw & Hs).
  eapply wp_mono; [apply wp_and|].
  - eapply (wp_upd_bd H D ∅ i (set_bd_hold_timer h) r b' (fun _ c' o' => o' = o /\ Inv H D c'));
      [exact HF|done|done|by left|].
    intros c' HF' Hf. split; [done|]. eapply focus_close; [exact HF'|by eapply Live_frame| | | |]; simpl.
    + destruct Hr as [-> Hsz]. split; [done|]. intros. eapply sized_frame; [done|]. by apply Hsz.
    + done.
    + rewrite Hs. by destruct k.
    + rewrite Hs. by destruct k.
  - eapply (wp_upd_bd_eq i _ b (fun _ c' o' => forall j s, in_state s c j -> in_state s c' j)); [done|].
    intros j s Hj. destruct (decide (j = i)) as [->|Hne]; [|by apply in_state_upd].
    destruct Hj as (bj & Hbj & Hsj). exists (set_bd_hold_timer h b). simpl.
    rewrite list_lookup_insert_eq by (by eapply lookup_lt_Some). split; [done|]. simpl. congruence.
  - intros _ c' o' [[-> HI'] Hst]. done.
Qed.

(** From the chain to the transfer. *)
Lemma wp_take k i c o :
  Inv H D c -> in_state (chain_state k) c i ->
  wp (rtems_bdbuf_set_state i TRANSFER ;; rtems_chain_extract i)
    (fun _ c' o' => o' = o /\ Inv H D c' /\
       forall j s, j <> i -> in_state s c j -> in_state s c' j) c o.
Proof.
  intros HI Hi. pose proof Hi as (b & Hb & _).
  destruct (chain_open k i c HI Hi) as (HH & r & b' & HF & HL & [-> Hsz] & Hw & Hs).
  apply wp_bind. eapply wp_mono; [apply wp_and|].
  - eapply (wp_set_state H D ∅ i TRANSFER _ b' (fun _ c' o' => o' = o /\ frame c c' /\
      Focus H D ∅ i _ (set_bd_state TRANSFER b') c')); [exact HF|by left|]. intros c1 HF1 Hf1. done.
  - eapply (wp_upd_bd_eq i _ b (fun _ c' o' => forall j s, j <> i -> in_state s c j -> in_state s c' j)); [done|].
    intros j s Hne Hj. by apply in_state_upd.
  - intros _ c1 o1 [(-> & Hf1 & HF1) Hst]. simpl.
    eapply wp_extract; [exact HF1|rewrite Hs; by destruct k|]. intros c2 HF2 Hf2 E2.
    split; [done|]. split.
    + assert (frame c c2) as Hf by (by eapply frame_trans).
      eapply focus_close; [exact HF2|by eapply Live_frame| | | |]; simpl; [|done..].
      split; [rewrite Hs; unfold with_where; by destruct k|]. intros _.
      assert (sized D c b') as Hz by (apply Hsz; rewrite Hs; by destruct k).
      exact (sized_frame D c c2 b' Hf Hz).
    + intros j s Hne Hj. destruct (Hst j s Hne Hj) as (bj & ? & ?). exists bj. by rewrite E2.
Qed.

Lemma modified_scan_inv k sync_all active upd delta nodes : forall dd tr c o,
  Inv H D c -> NoDup nodes -> (forall i, i ∈ nodes -> in_state (chain_state k) c i) ->
  wp (modified_scan sync_all active upd delta nodes dd tr) (fun _ c' o' => Inv H D c' /\
    forall j s, j ∉ nodes -> in_state s c j -> in_state s c' j) c o.
Proof.
  induction nodes as [|i nodes IH]; intros dd tr c o HI Hn Hs; simpl; [by apply wp_ret|].
  apply NoDup_cons in Hn as [Hi Hn]. pose proof (Hs i ltac:(constructor)) as Hsi.
  pose proof Hsi as (b & Hb & _). apply wp_bind, wp_get_cache, wp_bind. eapply wp_get_bd; [done|].
  set (hold := hold_timer_scan _ _ _ _). apply wp_bind. eapply wp_mono; [by eapply wp_set_hold|].
  intros _ c1 o1 (-> & HI1 & Hst1).
  assert (forall dd', wp (modified_scan sync_all active upd delta nodes dd' tr) (fun _ c' o' => Inv H D c' /\
    forall j s, j ∉ i :: nodes -> in_state s c j -> in_state s c' j) c1 o) as Hskip.
  { intros dd'. eapply wp_mono; [apply IH; [done|done|]|].
    - intros j Hj. apply Hst1, Hs. by constructor.
    - intros _ c' _ [HI' Hst']. split; [done|]. intros j s Hj Hjs. apply Hst'; [|by apply Hst1].
      intros E. apply Hj. by constructor. }
  destruct (negb (hold =? 0)); [apply Hskip|].
  destruct (bd_dd b =? _); [|apply Hskip].
  match goal with |- wp (?m1 ;; ?m2 ;; ?k) ?Q ?c ?o => change (wp (m1 ;; m2 ;; k) Q c o) end.
  assert (forall (k' : M (Z * list nat)) Q, wp (rtems_bdbuf_set_state i TRANSFER ;; rtems_chain_extract i)
      (fun _ => wp k' Q) c1 o -> wp (rtems_bdbuf_set_state i TRANSFER ;; rtems_chain_extract i ;; k') Q c1 o) as Hassoc.
  { intros k' Q Hw. unfold wp, mbind, M_bind in *.
    destruct (rtems_bdbuf_set_state i TRANSFER c1 o); try done. by destruct (rtems_chain_extract i _ _). }
  apply Hassoc. eapply wp_mono; [eapply (wp_take k); [done|by apply Hst1]|].
  intros _ c2 o2 (-> & HI2 & Hst2). apply wp_bind, wp_get_cache.
  eapply wp_mono; [apply IH; [done|done|]|].
  - intros j Hj. apply Hst2; [by intros ->|]. apply Hst1, Hs. by constructor.
  - intros _ c' _ [HI' Hst']. split; [done|]. intros j s Hj Hjs. apply not_elem_of_cons in Hj as [Hj1 Hj2].
    apply Hst'; [done|]. apply Hst2; [done|]. by apply Hst1.
Qed.

(** The state of what is on a chain. *)
Lemma chain_in_state k c i : Inv H D c -> i ∈ get_chain k c -> in_state (chain_state k) c i.
Proof.
  intros (_ & rho & HP & HR) Hi.
  assert (i ∈ lru c ++ modified c ++ sync c) as Hin by (rewrite !elem_of_app; destruct k; tauto).
  pose proof (geo_links c (ph_geo _ _ _ HP) i Hin) as Hlt. apply lookup_lt_is_Some in Hlt as [b Hb].
  exists b. split; [done|]. destruct (HR i b Hb) as [_ Hr].
  assert (r_where (rho i) = match k with ModifiedChain => InModified | SyncChain => InSync end) as Hw
    by (destruct k; by apply HP).
  destruct (liveb _ _ _).
  - destruct Hr as ([Er _] & _). rewrite Er in Hw. simpl in Hw. by destruct k, (bd_state b).
  - destruct Hr as (Er & _). rewrite Er in Hw. by destruct k.
Qed.

Lemma chain_NoDup k c : Inv H D c -> NoDup (get_chain k c).
Proof.
  intros (_ & rho & HP & HR). pose proof (ph_nodup _ _ _ HP) as Hn.
  apply NoDup_app in Hn as (_ & _ & Hn). apply NoDup_app in Hn as (? & _ & ?). by destruct k.
Qed.

Lemma swapout_scan_inv k dd tr active upd delta c o :
  Inv H D c -> wp (rtems_bdbuf_swapout_modified_processing dd k tr active upd delta)
    (fun _ c' o' => Inv H D c' /\
       forall j s, j ∉ get_chain k c -> in_state s c j -> in_state s c' j) c o.
Proof.
  intros HI. unfold rtems_bdbuf_swapout_modified_processing. apply wp_bind, wp_get_cache.
  apply (modified_scan_inv k); [done|by eapply chain_NoDup|]. intros i Hi. by apply chain_in_state.
Qed.

End ScanInv.

(** A scan that goes on with the transfer of another one. *)
Lemma swapout_scan_from H D k dd tr active upd delta c0 c o :
  Inv H D c -> D !! BDBUF_INVALID_DEV = None -> NoDup tr ->
  (forall i, i ∈ tr -> i ∉ get_chain k c) -> (forall i, block_of c i = block_of c0 i) ->
  Forall (chosen dd c) tr -> StronglySorted (blk_le (block_of c0)) tr ->
  wp (rtems_bdbuf_swapout_modified_processing dd k tr active upd delta)
    (fun r c' o' => o' = o /\ scan_post k c0 (get_chain k c) (get_chain k c ++ tr) r c') c o.
Proof.
  intros HI Hd Htr Hdis Hb Hc Hs. destruct (Inv_scan H D k c HI) as [Hn Hbd].
  unfold rtems_bdbuf_swapout_modified_processing. apply wp_bind, wp_get_cache.
  apply (modified_scan_ok k c0 (active && (dd =? BDBUF_INVALID_DEV)) active upd delta
    (get_chain k c) [] dd tr c o); try done.
  intros i Hi. destruct (Hbd i Hi) as (b & ? & ?). exists b. split; [done|]. congruence.
Qed.

(** *** Which buffers a scan takes *)

(** The hold timer of a buffer has expired: it is 0, a scan of [delta] takes it
    to 0, or it is forced because all devices or the device [dd] are synced or
    a thread waits for a buffer. *)
Definition expired (active upd : bool) (delta dd : Z) (waiters : bool) (b : bd) : Prop :=
  (active = true /\ (dd = BDBUF_INVALID_DEV \/ dd = bd_dd b)) \/ waiters = true \/ bd_hold_timer b = 0 \/ (upd = true /\ bd_hold_timer b <= delta).

#[export] Instance expired_dec active upd delta dd waiters b : Decision (expired active upd delta dd waiters b).
Proof. unfold expired. apply _. Defined.

(** The timer of a buffer that has not expired. *)
Definition timer_left (upd : bool) (delta : Z) (b : bd) : Z := if upd then bd_hold_timer b - delta else bd_hold_timer b.

Lemma hold_timer_scan_spec active upd delta dd0 dd w b : dd = dd0 \/ dd0 = BDBUF_INVALID_DEV ->
  hold_timer_scan ((active && (dd0 =? BDBUF_INVALID_DEV)) || (active && (dd =? bd_dd b)) || w) upd delta (bd_hold_timer b) =
    if decide (expired active upd delta dd0 w b) then 0 else timer_left upd delta b.
Proof.
  intros Hdd. unfold hold_timer_scan, expired, timer_left.
  destruct active, w, upd, (Z.eqb_spec dd0 BDBUF_INVALID_DEV), (Z.eqb_spec dd (bd_dd b)); cbn [andb orb]; case_decide as He;
    try (rewrite Z.gtb_ltb; destruct (Z.ltb_spec delta (bd_hold_timer b))); try (destruct (Z.eqb_spec (bd_hold_timer b) 0)); try done; try lia; try (exfalso; naive_solver lia).
Qed.

(** The device of a scan: the one it is given, or that of the first buffer that
    has expired. *)
Fixpoint scan_device (E : nat -> Prop) `{!forall i, Decision (E i)} (dev : nat -> Z) (nodes : list nat) (dd : Z) : Z :=
  match nodes with
  | [] => dd
  | i :: nodes => scan_device E dev nodes (if decide (E i /\ dd = BDBUF_INVALID_DEV) then dev i else dd)
  end.

Lemma scan_device_fixed (E : nat -> Prop) `{!forall i, Decision (E i)} dev nodes dd : dd <> BDBUF_INVALID_DEV -> scan_device E dev nodes dd = dd.
Proof. intros Hd. induction nodes as [|i nodes IH]; cbn [scan_device]; [done|]. by rewrite decide_False by tauto. Qed.

Lemma chain_nodup k c : NoDup (lists c) -> NoDup (get_chain k c).
Proof. intros Hn. unfold lists in Hn. apply NoDup_app in Hn as (_ & _ & Hn). apply NoDup_app in Hn as (? & _ & ?). by destruct k. Qed.

Section Exact.
Context (k : chain_id) (c0 : cache) (active upd : bool) (delta dd0 : Z).

(** The buffers as they were before the scan. *)
Definition was (i : nat) : option bd := bds c0 !! i.
Definition exp (i : nat) : Prop := match was i with Some b => expired active upd delta dd0 (rtems_bdbuf_has_buffer_waiters c0) b | None => False end.
#[export] Instance exp_dec i : Decision (exp i).
Proof. unfold exp. destruct (was i); apply _. Defined.
Definition dev_of (i : nat) : Z := match was i with Some b => bd_dd b | None => BDBUF_INVALID_DEV end.
Definition timer_after (i : nat) : Z := match was i with Some b => if decide (exp i) then 0 else timer_left upd delta b | None => 0 end.
Definition timer_of (c : cache) (i : nat) : Z := match bds c !! i with Some b => bd_hold_timer b | None => 0 end.

Definition scan_exact (kept nodes tr : list nat) (dd : Z) (c : cache) (r : Z * list nat) (c' : cache) : Prop :=
  r.1 = scan_device exp dev_of nodes dd /\
  r.2 ≡ₚ tr ++ filter (fun i => exp i /\ dev_of i = r.1) nodes /\
  get_chain k c' = kept ++ filter (fun i => ~ (exp i /\ dev_of i = r.1)) nodes /\
  (forall i, i ∈ nodes -> timer_of c' i = timer_after i) /\ (forall i, i ∉ nodes -> timer_of c' i = timer_of c i).

Lemma timer_of_insert c c' i b b' : bds c !! i = Some b -> bds c' = <[i := b']> (bds c) ->
  forall x, timer_of c' x = if decide (x = i) then bd_hold_timer b' else timer_of c x.
Proof.
  intros Hb E x. unfold timer_of. rewrite E. case_decide as Hx; [subst x; by rewrite list_lookup_insert_eq by (by eapply lookup_lt_Some)|by rewrite list_lookup_insert_ne].
Qed.

Lemma modified_scan_exact nodes : forall kept dd tr c o,
  get_chain k c = kept ++ nodes -> NoDup (lists c) -> dd = dd0 \/ dd0 = BDBUF_INVALID_DEV ->
  rtems_bdbuf_has_buffer_waiters c = rtems_bdbuf_has_buffer_waiters c0 ->
  (forall i, i ∈ nodes -> exists b, bds c !! i = Some b /\ was i = Some b /\ bd_dd b <> BDBUF_INVALID_DEV) ->
  wp (modified_scan (active && (dd0 =? BDBUF_INVALID_DEV)) active upd delta nodes dd tr) (fun r c' _ => scan_exact kept nodes tr dd c r c') c o.
Proof.
  induction nodes as [|i nodes IH]; intros kept dd tr c o Hch Hnd Hdd Hw Hn; cbn [modified_scan].
  { apply wp_ret. split; [done|]. cbn [fst snd]. rewrite !filter_nil, !app_nil_r in *. split_and!; try done. intros i Hi. by apply elem_of_nil in Hi. }
  destruct (Hn i) as (b & Hb & Hwas & Hdv); [constructor|]. pose proof (chain_nodup k c Hnd) as Hnk. rewrite Hch in Hnk.
  apply NoDup_app in Hnk as (Hnk1 & Hnk2 & Hnk3). apply NoDup_cons in Hnk3 as [Hin Hnk3]. assert (i ∉ kept) as Hik by (intros E; apply (Hnk2 _ E); constructor).
  apply wp_bind, wp_get_cache, wp_bind. eapply wp_get_bd; [done|]. rewrite Hw, (hold_timer_scan_spec active upd delta dd0 dd) by done.
  assert (exp i <-> expired active upd delta dd0 (rtems_bdbuf_has_buffer_waiters c0) b) as He by (unfold exp; by rewrite Hwas).
  rewrite (decide_ext _ (exp i)) by (by symmetry). apply wp_bind. eapply wp_upd_bd_eq; [done|]. set (h := if decide (exp i) then _ else _).
  set (b1 := set_bd_hold_timer h b). set (c1 := set_bds _ c). assert (bds c1 = <[i := b1]> (bds c)) as E1 by done.
  assert (timer_after i = h) as Hh by (unfold timer_after; by rewrite Hwas). assert (dev_of i = bd_dd b) as Hdev by (unfold dev_of; by rewrite Hwas).
  assert (forall j, j ∈ nodes -> exists b, bds c1 !! j = Some b /\ was j = Some b /\ bd_dd b <> BDBUF_INVALID_DEV) as Hn1.
  { intros j Hj. destruct (Hn j) as (bj & Hbj & ?); [by constructor|]. exists bj. by rewrite E1, list_lookup_insert_ne by (by intros ->). }
  pose proof (timer_of_insert c c1 i b b1 Hb E1) as Ht1.
  assert (forall dd' r c', (exp i /\ dd = BDBUF_INVALID_DEV -> dd' = bd_dd b) -> (~ (exp i /\ dd = BDBUF_INVALID_DEV) -> dd' = dd) -> ~ (exp i /\ bd_dd b = r.1) ->
    scan_exact (kept ++ [i]) nodes tr dd' c1 r c' -> scan_exact kept (i :: nodes) tr dd c r c') as Hskip.
  { intros dd' r c' H1 H2 Hnt (R1 & R2 & R3 & R4 & R5). split; [cbn [scan_device]; rewrite Hdev; case_decide; [by rewrite <- H1|by rewrite <- H2]|].
    rewrite filter_cons_False by (by rewrite Hdev). rewrite filter_cons_True by (by rewrite Hdev). rewrite <- app_assoc in R3. split_and!; try done.
    - intros j [->|Hj]%elem_of_cons; [|by apply R4]. rewrite R5, Ht1, decide_True by done. done.
    - intros j [Hji Hj]%not_elem_of_cons. rewrite R5, Ht1, decide_False by done. done. }
  assert (h = 0 -> exp i) as Hexp.
  { unfold h. case_decide as Hx; [done|]. rewrite He in Hx. unfold timer_left, expired in *. destruct upd; intros; exfalso; apply Hx; [right; right; right; split; [done|lia]|by right; right; left]. }
  destruct (Z.eqb_spec h 0) as [Hz|Hz]; cbn [negb].
  2: { eapply wp_mono; [apply (IH (kept ++ [i]) dd tr c1 o); try done; rewrite <- app_assoc; by destruct k|]. intros r c' o' HR.
    assert (~ exp i) as Hne by (intros Hx; apply Hz; unfold h; by rewrite decide_True). eapply (Hskip dd); [tauto|done|tauto|exact HR]. }
  specialize (Hexp Hz). set (dd' := if dd =? BDBUF_INVALID_DEV then bd_dd b else dd).
  assert (dd' <> BDBUF_INVALID_DEV) as Hdd' by (unfold dd'; by destruct (Z.eqb_spec dd BDBUF_INVALID_DEV)).
  assert (dd' = dd0 \/ dd0 = BDBUF_INVALID_DEV) as Hdd1 by (unfold dd'; destruct (Z.eqb_spec dd BDBUF_INVALID_DEV) as [->|]; [right; destruct Hdd as [<-|]; done|done]).
  assert ((if decide (exp i /\ dd = BDBUF_INVALID_DEV) then bd_dd b else dd) = dd') as Edd by (unfold dd'; destruct (Z.eqb_spec dd BDBUF_INVALID_DEV); [by rewrite decide_True|by rewrite decide_False by tauto]).
  destruct (Z.eqb_spec (bd_dd b) dd') as [Ed|Ed].
  2: { eapply wp_mono; [apply (IH (kept ++ [i]) dd' tr c1 o); try done; rewrite <- app_assoc; by destruct k|]. intros r c' o' HR.
    apply (Hskip dd'); [intros Hx; by rewrite decide_True in Edd|intros Hx; by rewrite decide_False in Edd| |exact HR].
    destruct HR as (R1 & _). rewrite R1, scan_device_fixed by done. intros [_ ?]. done. }
  apply wp_bind. eapply wp_upd_bd_eq; [rewrite E1; apply list_lookup_insert_eq; by eapply lookup_lt_Some|]. set (c2 := set_bds _ c1).
  apply wp_bind. apply (wp_extract_chain k); [exact Hnd|assert (get_chain k c2 = kept ++ i :: nodes) as -> by (by destruct k); apply elem_of_app; right; constructor|].
  assert (get_chain k c2 = kept ++ i :: nodes) as -> by (by destruct k). rewrite chain_del_middle by done. set (c3 := set_chain k (kept ++ nodes) c2).
  assert (bds c3 = <[i := set_bd_state TRANSFER b1]> (bds c1)) as E3 by (by destruct k). apply wp_bind, wp_get_cache.
  eapply wp_mono; [apply (IH kept dd' (transfer_insert (block_of c3) i tr) c3 o)|].
  - by destruct k.
  - by eapply (NoDup_unchain k c2).
  - done.
  - by destruct k.
  - intros j Hj. destruct (Hn1 j Hj) as (bj & Hbj & ?). exists bj. by rewrite E3, list_lookup_insert_ne by (by intros ->).
  - intros r c' o' (R1 & R2 & R3 & R4 & R5). assert (r.1 = dd') as Er by (by rewrite R1, scan_device_fixed).
    pose proof (timer_of_insert c1 c3 i b1 _ ltac:(rewrite E1; apply list_lookup_insert_eq; by eapply lookup_lt_Some) E3) as Ht3.
    split; [cbn [scan_device]; by rewrite Hdev, Edd, <- R1|]. rewrite filter_cons_True by (by rewrite Hdev, Er). rewrite filter_cons_False by (rewrite Hdev, Er; tauto).
    split; [rewrite R2, transfer_insert_perm; by rewrite <- Permutation_middle|]. split; [done|]. split.
    + intros j [->|Hj]%elem_of_cons; [|by apply R4]. by rewrite R5, Ht3, decide_True.
    + intros j [Hji Hj]%not_elem_of_cons. by rewrite R5, Ht3, decide_False, Ht1, decide_False.
Qed.
End Exact.

(** C26: One scan of [rtems_bdbuf_swapout_modified_processing] over the
    modified or the sync list of a consistent cache keeps it consistent. A
    buffer has [expired] when its hold timer is 0 or goes to 0 with the time
    [delta], when all devices or its device are synced, or when a thread waits
    for a buffer. The scan takes exactly the expired buffers of one device,
    which is [dd] or, when there is none yet, that of the first expired one:
    they leave the list, are in state TRANSFER, in ascending order of their
    blocks. All other buffers stay on the list in the order they had, and the
    timers of those that have not expired go down by [delta]. *)
Theorem swapout_scan_correct (H : gmap nat (hold * (Z * Z))) (D : gmap Z geom) (k : chain_id)
    (dd : Z) (active upd : bool) (delta : Z) (c : cache) (o : list env) :
  Inv H D c -> D !! BDBUF_INVALID_DEV = None ->
  let E := exp c active upd delta dd in
  wp (rtems_bdbuf_swapout_modified_processing dd k [] active upd delta)
    (fun r c' o' => o' = o /\ Inv H D c' /\
       r.1 = scan_device E (dev_of c) (get_chain k c) dd /\
       r.2 ≡ₚ filter (fun i => E i /\ dev_of c i = r.1) (get_chain k c) /\
       StronglySorted (blk_le (block_of c)) r.2 /\ Forall (chosen r.1 c') r.2 /\
       get_chain k c' = filter (fun i => ~ (E i /\ dev_of c i = r.1)) (get_chain k c) /\
       (forall i, block_of c' i = block_of c i) /\
       (forall i, i ∈ get_chain k c -> timer_of c' i = timer_after c active upd delta dd i) /\
       (forall i, i ∉ get_chain k c -> timer_of c' i = timer_of c i)) c o.
Proof.
  intros HI Hd E. eapply wp_mono; [apply wp_and; [by apply (swapout_scan_inv H D k dd [])|apply wp_and]|].
  - apply (swapout_scan_from H D k dd [] active upd delta c c o); try done; try constructor.
    intros i Hi. by apply elem_of_nil in Hi.
  - unfold rtems_bdbuf_swapout_modified_processing. apply wp_bind, wp_get_cache. destruct (Inv_scan H D k c HI) as [Hn Hbd].
    apply (modified_scan_exact k c active upd delta dd (get_chain k c) [] dd [] c o); try done; [by left|].
    intros i Hi. destruct (Hbd i Hi) as (b & ? & ?). exists b. split_and!; [done|done|]. congruence.
  - intros r c' o' [[HI' _] [[-> (kept & _ & _ & _ & _ & Hb & _ & Hc & Hs)] (R1 & R2 & R3 & R4 & R5)]]. by split_and!.
Qed.

(** ** How a transfer is cut into requests *)

(** The requests the loop makes, as a function: [bufs] are in the request
    under construction. *)
Fixpoint chunks (fuel : nat) (blk : nat -> Z) (cont : bool) (mbpb max : Z)
    (bds bufs : list nat) (last : Z) : list (list nat) :=
  match fuel with
  | O => []
  | S fuel =>
      match bds with
      | [] => []
      | i :: rest =>
          let back := cont && negb (bool_decide (bufs = [])) && negb (blk i =? u32 (last + mbpb)) in
          let bds := if back then bds else rest in
          let bufs := if back then bufs else bufs ++ [i] in
          let last := if back then last else blk i in
          if back || bool_decide (bds = []) || (max <=? len bufs)
          then bufs :: chunks fuel blk cont mbpb max bds [] last
          else chunks fuel blk cont mbpb max bds bufs last
      end
  end.

(** Blocks that follow each other on the device. *)
Fixpoint consecutive (blk : nat -> Z) (mbpb : Z) (l : list nat) : Prop :=
  match l with
  | i :: (j :: _) as l => blk j = u32 (blk i + mbpb) /\ consecutive blk mbpb l
  | _ => True
  end.

Lemma consecutive_snoc blk mbpb l i :
  consecutive blk mbpb l -> (forall j, last l = Some j -> blk i = u32 (blk j + mbpb)) ->
  consecutive blk mbpb (l ++ [i]).
Proof.
  induction l as [|a l IH]; intros Hc Hl; [done|]. destruct l as [|b l]; simpl in *.
  - split; [by apply Hl|done].
  - destruct Hc as [H1 H2]. split; [done|]. apply IH; [done|]. intros j Hj. by apply Hl.
Qed.

Definition good_chunk (blk : nat -> Z) (cont : bool) (mbpb max : Z) (l : list nat) : Prop :=
  1 <= len l <= max /\ (cont = true -> consecutive blk mbpb l).

Lemma chunks_ok blk cont mbpb max fuel : forall bds bufs lst,
  1 <= max -> (2 * length bds + (if decide (bufs = []) then 0 else 1) < fuel)%nat ->
  (bds = [] -> bufs = []) -> len bufs < max ->
  (forall j, last bufs = Some j -> blk j = lst) -> (cont = true -> consecutive blk mbpb bufs) ->
  concat (chunks fuel blk cont mbpb max bds bufs lst) = bufs ++ bds /\
  Forall (good_chunk blk cont mbpb max) (chunks fuel blk cont mbpb max bds bufs lst).
Proof.
  induction fuel as [|fuel IH]; intros bds bufs lst Hmax Hf Hne Hlen Hlast Hc; [lia|]. simpl.
  destruct bds as [|i rest]; [rewrite Hne by done; done|].
  destruct (cont && negb (bool_decide (bufs = [])) && negb (blk i =? u32 (lst + mbpb))) eqn:Eb.
  - apply andb_prop in Eb as [Eb _]. apply andb_prop in Eb as [_ Eb].
    apply negb_true_iff, bool_decide_eq_false in Eb. cbn [orb].
    rewrite decide_False in Hf by done.
    destruct (IH (i :: rest) [] lst) as [H1 H2]; try done; [rewrite decide_True by done; lia|rewrite len_nil; lia|].
    simpl. rewrite H1. split; [done|]. constructor; [|done]. split; [|done].
    split; [|lia]. destruct bufs; [done|]. rewrite len_cons. pose proof (len_nonneg bufs). lia.
  - assert (cont = true -> consecutive blk mbpb (bufs ++ [i])) as Hc'.
    { intros Ht. apply consecutive_snoc; [by apply Hc|]. intros j Hj. rewrite Ht in Eb.
      destruct bufs; [done|]. rewrite bool_decide_eq_false_2 in Eb by done. simpl in Eb.
      apply negb_false_iff, Z.eqb_eq in Eb. rewrite (Hlast j Hj). done. }
    assert (len (bufs ++ [i]) = len bufs + 1) as Hl1 by (rewrite len_app; done).
    pose proof (len_nonneg bufs). cbn [orb].
    destruct (bool_decide (rest = []) || (max <=? len (bufs ++ [i]))) eqn:Ew.
    + destruct (IH rest [] (blk i)) as [H1 H2]; try done;
        [rewrite decide_True by done; simpl in Hf; lia|rewrite len_nil; lia|].
      simpl. rewrite H1, <- app_assoc. split; [done|]. constructor; [|done].
      split; [lia|done].
    + apply orb_false_iff in Ew as [Er Em]. apply bool_decide_eq_false in Er. apply Z.leb_gt in Em.
      destruct (IH rest (bufs ++ [i]) (blk i)) as [H1 H2]; try done.
      * rewrite decide_False by (by destruct bufs). cbn [length] in Hf.
        destruct (decide (bufs = [])); lia.
      * intros j Hj. rewrite last_snoc in Hj. by injection Hj as ->.
      * rewrite H1, <- app_assoc. done.
Qed.

(** The requests of a transfer. *)
Definition requests (blk : nat -> Z) (cont : bool) (mbpb max : Z) (l : list nat) : list (list nat) :=
  chunks (2 * length l + 1) blk cont mbpb max l [] 0.

(** ** The writes reach the driver *)

(** The other threads do nothing. *)
Definition quiet (o : list env) : Prop := Forall (fun e => ev_act e = fun _ c => c) o.

(** The driver calls so far, the blocks, and the devices stay. *)
Definition same_io (c c' : cache) : Prop :=
  ios c' = ios c /\ (forall i, block_of c' i = block_of c i) /\
  forall dd, disk_geom <$> disks c' !! dd = disk_geom <$> disks c !! dd.

Definition keeps {A} (m : M A) : Prop :=
  forall c o a c' o', quiet o -> m c o = Ret a c' o' -> same_io c c' /\ quiet o'.

Lemma keeps_ret {A} (a : A) : keeps (mret a).
Proof. intros c o a' c' o' Ho [= -> -> ->]. done. Qed.
Lemma keeps_bind {A B} (m : M A) (k : A -> M B) : keeps m -> (forall a, keeps (k a)) -> keeps (m ≫= k).
Proof.
  intros Hm Hk c o b c' o' Ho. unfold mbind, M_bind. destruct (m c o) as [a c1 o1| | | |] eqn:E; try done.
  intros Hb. destruct (Hm _ _ _ _ _ Ho E) as [(H1 & H2 & H3) Ho1].
  destruct (Hk _ _ _ _ _ _ Ho1 Hb) as [(H4 & H5 & H6) Ho2]. split; [|done].
  split_and!; [congruence|intros; by rewrite H5|intros; by rewrite H6].
Qed.
Lemma keeps_get_cache : keeps get_cache.
Proof. intros c o a' c' o' Ho [= -> -> ->]. done. Qed.
Lemma keeps_modify f : (forall c, same_io c (f c)) -> keeps (modify f).
Proof. intros Hf c o a' c' o' Ho [= <- <- <-]. split; [apply Hf|done]. Qed.
Lemma keeps_option {A} (x : option A) : keeps (from_option_M x).
Proof. destruct x; [apply keeps_ret|]. done. Qed.
Lemma keeps_fatal {A} f : keeps (@fatal A f).
Proof. done. Qed.
Lemma keeps_invalid {A} : keeps (@invalid A).
Proof. done. Qed.

Create HintDb keeps.
#[local] Hint Resolve keeps_ret keeps_get_cache keeps_option keeps_fatal keeps_invalid : keeps.

Ltac keeps :=
  repeat first
    [ solve [eauto with keeps]
    | apply keeps_bind; [|intros ?]
    | apply keeps_modify; intros ?; done
    | match goal with
      | |- keeps (if ?b then _ else _) => destruct b
      | |- keeps (match ?x with _ => _ end) => destruct x
      end ].

Lemma keeps_get_bd i : keeps (get_bd i).
Proof. unfold get_bd. keeps. Qed.
Lemma keeps_get_group i : keeps (get_group i).
Proof. unfold get_group. keeps. Qed.
Lemma keeps_get_disk i : keeps (get_disk i).
Proof. unfold get_disk. keeps. Qed.
#[local] Hint Resolve keeps_get_bd keeps_get_group keeps_get_disk : keeps.

Lemma keeps_upd_bd i f : (forall b, bd_block (f b) = bd_block b) -> keeps (upd_bd i f).
Proof.
  intros Hf c o a c' o' Ho. unfold upd_bd, get_bd, mbind, M_bind, get_cache.
  destruct (bds c !! i) as [b|] eqn:Hb; [|done]. simpl. intros [= <- <- <-].
  split; [|done]. split_and!; try done. intros j. by eapply block_of_insert.
Qed.
Lemma keeps_upd_group g f : keeps (upd_group g f).
Proof. unfold upd_group. keeps. Qed.
Lemma keeps_upd_disk dd f : (forall d, disk_geom (f d) = disk_geom d) -> keeps (upd_disk dd f).
Proof.
  intros Hf c o a c' o' Ho. unfold upd_disk, get_disk, mbind, M_bind, get_cache.
  destruct (disks c !! dd) as [d|] eqn:Hd; [|done]. simpl. intros [= <- <- <-].
  split; [|done]. split_and!; try done. intros dd'. simpl.
  destruct (decide (dd' = dd)) as [->|]; [by rewrite lookup_insert_eq, Hd; simpl; rewrite Hf|].
  by rewrite lookup_insert_ne.
Qed.
#[local] Hint Resolve keeps_upd_group : keeps.
#[local] Hint Extern 1 (keeps (upd_bd _ _)) => apply keeps_upd_bd; done : keeps.

Lemma keeps_transfer_finish sc i : keeps (transfer_finish sc i).
Proof.
  unfold transfer_finish, rtems_bdbuf_group_release, rtems_bdbuf_make_cached_and_add_to_lru_list,
    rtems_bdbuf_discard_buffer, rtems_bdbuf_make_free_and_add_to_lru_list, rtems_bdbuf_make_empty,
    rtems_bdbuf_remove_from_tree, rtems_bdbuf_set_state, lru_append, lru_prepend.
  keeps.
Qed.
#[local] Hint Resolve keeps_transfer_finish : keeps.

Lemma keeps_transfer_loop sc l : forall w1 w2, keeps (transfer_loop sc l w1 w2).
Proof. induction l as [|i l IH]; intros w1 w2; simpl; keeps. Qed.
Lemma keeps_wake k : keeps (rtems_bdbuf_wake k).
Proof.
  unfold rtems_bdbuf_wake. apply keeps_bind; [apply keeps_get_cache|]. intros c.
  destruct (_ >? _); [|apply keeps_ret]. apply keeps_modify. intros c'. by destruct k.
Qed.
#[local] Hint Resolve keeps_transfer_loop keeps_wake : keeps.

Lemma keeps_yield claims : keeps (yield claims).
Proof.
  intros c o a c' o' Ho. unfold yield. destruct o as [|e o]; [done|].
  inversion Ho as [|? ? He Ho']; subst. intros [= <- <- <-]. by rewrite He.
Qed.
#[local] Hint Resolve keeps_yield : keeps.

Lemma bind_ret {A B} (m : M A) (k : A -> M B) c o b c' o' :
  (m ≫= k) c o = Ret b c' o' -> exists a c1 o1, m c o = Ret a c1 o1 /\ k a c1 o1 = Ret b c' o'.
Proof. unfold mbind, M_bind. destruct (m c o); try done. eauto. Qed.

(** The log of write requests that are served one after the other. *)
Definition write_log (p : Z) (reqs : list (list nat)) : list io :=
  flat_map (fun bufs => [IoWrite p bufs; IoDone p]) reqs.

(** What one write does to the log of the driver. *)
Lemma execute_transfer_io claims dd bufs c o sc c' o' d :
  quiet o -> disks c !! dd = Some d ->
  rtems_bdbuf_execute_transfer_request claims dd (mk_request false bufs) c o = Ret sc c' o' ->
  ios c' = ios c ++ write_log (phys_dev d) [bufs] /\ quiet o' /\
  (forall i, block_of c' i = block_of c i) /\
  (forall dd, disk_geom <$> disks c' !! dd = disk_geom <$> disks c !! dd).
Proof.
  intros Ho Hd Hr. unfold rtems_bdbuf_execute_transfer_request in Hr.
  apply bind_ret in Hr as (d' & c1 & o1 & H1 & Hr).
  unfold get_disk, mbind, M_bind, get_cache in H1. rewrite Hd in H1. injection H1 as <- <- <-.
  apply bind_ret in Hr as ([] & c2 & o2 & H2 & Hr). injection H2 as <- <-.
  apply bind_ret in Hr as (s & c3 & o3 & H3 & Hr).
  destruct (keeps_yield _ _ _ _ _ _ Ho H3) as [(E1 & E2 & E3) Ho3].
  apply bind_ret in Hr as ([] & c4 & o4 & H4 & Hr). injection H4 as <- <-.
  match type of Hr with ?m _ _ = _ => assert (keeps m) as Hk end.
  { apply keeps_bind; [by apply keeps_upd_disk|]. intros _. keeps. }
  destruct (Hk _ _ _ _ _ Ho3 Hr) as [(H4 & H5 & H6) Ho']. rewrite H4. cbn [ios set_ios rtems_bdbuf_transfer_done].
  rewrite E1. cbn [ios set_ios issue rq_read rq_bufs]. rewrite <- app_assoc. split; [done|]. split; [done|].
  split; [intros i; rewrite H5; apply (E2 i)|intros dd'; rewrite H6; apply (E3 dd')].
Qed.

Lemma same_disk c c' dd d :
  (forall dd, disk_geom <$> disks c' !! dd = disk_geom <$> disks c !! dd) -> disks c !! dd = Some d ->
  exists d', disks c' !! dd = Some d' /\ phys_dev d' = phys_dev d.
Proof.
  intros Hg Hd. specialize (Hg dd). rewrite Hd in Hg. destruct (disks c' !! dd) as [d'|]; [|done].
  exists d'. split; [done|]. simpl in Hg. by injection Hg.
Qed.

Section Loop.
Context (cfg : bdbuf_config) (blk : nat -> Z).

Lemma swapout_write_loop_io dd cont mbpb fuel : forall bds bufs lst c o c' o' d,
  quiet o -> disks c !! dd = Some d -> (forall i, block_of c i = blk i) ->
  swapout_write_loop cfg fuel dd cont mbpb bds bufs lst c o = Ret tt c' o' ->
  ios c' = ios c ++ write_log (phys_dev d) (chunks fuel blk cont mbpb (max_write_blocks cfg) bds bufs lst) /\
  quiet o'.
Proof.
  induction fuel as [|fuel IH]; intros bds bufs lst c o c' o' d Ho Hd Hb Hr; [done|].
  simpl in Hr. destruct bds as [|i rest].
  { injection Hr as <- <-. by rewrite app_nil_r. }
  apply bind_ret in Hr as (b & c1 & o1 & H1 & Hr).
  unfold get_bd, mbind, M_bind, get_cache in H1. destruct (BdState.bds c !! i) as [b'|] eqn:Eb; [|done].
  injection H1 as <- <- <-.
  assert (bd_block b' = blk i) as Ebk by (rewrite <- Hb; unfold block_of; by rewrite Eb).
  rewrite Ebk in Hr. simpl.
  destruct (cont && negb (bool_decide (bufs = [])) && negb (blk i =? u32 (lst + mbpb))); cbn [orb] in *.
  - apply bind_ret in Hr as (s & c2 & o2 & H2 & Hr).
    destruct (keeps_yield _ _ _ _ _ _ Ho H2) as [(E1 & E2 & E3) Ho2].
    destruct (same_disk _ _ _ _ E3 Hd) as (d2 & Hd2 & Hp2).
    apply bind_ret in Hr as (s3 & c3 & o3 & H3 & Hr).
    destruct (execute_transfer_io _ _ _ _ _ _ _ _ _ Ho2 Hd2 H3) as (E4 & Ho3 & E5 & E6).
    destruct (same_disk _ _ _ _ E6 Hd2) as (d3 & Hd3 & Hp3).
    apply (IH _ _ _ _ _ _ _ d3) in Hr as [-> Ho']; try done; [|intros; by rewrite E5, E2, Hb].
    rewrite E4, E1, <- app_assoc, Hp3, Hp2. done.
  - destruct (bool_decide (rest = []) || (max_write_blocks cfg <=? len (bufs ++ [i]))).
    + apply bind_ret in Hr as (s & c2 & o2 & H2 & Hr).
      destruct (keeps_yield _ _ _ _ _ _ Ho H2) as [(E1 & E2 & E3) Ho2].
      destruct (same_disk _ _ _ _ E3 Hd) as (d2 & Hd2 & Hp2).
      apply bind_ret in Hr as (s3 & c3 & o3 & H3 & Hr).
      destruct (execute_transfer_io _ _ _ _ _ _ _ _ _ Ho2 Hd2 H3) as (E4 & Ho3 & E5 & E6).
      destruct (same_disk _ _ _ _ E6 Hd2) as (d3 & Hd3 & Hp3).
      apply (IH _ _ _ _ _ _ _ d3) in Hr as [-> Ho']; try done; [|intros; by rewrite E5, E2, Hb].
      rewrite E4, E1, <- app_assoc, Hp3, Hp2. done.
    + by apply (IH _ _ _ _ _ _ _ d) in Hr.
Qed.

End Loop.

(** ** The writes of a transfer keep the invariant *)

(** Extending the ghost of held buffers by buffers under transfer. *)
Lemma Inv_extend D c l : forall H,
  Inv H D c -> NoDup l ->
  (forall i, i ∈ l -> H !! i = None /\ exists b, bds c !! i = Some b /\ transferring (bd_state b) = true) ->
  exists H', Inv H' D c /\ (forall i, i ∉ l -> H' !! i = H !! i) /\
    (forall i, i ∈ l -> exists k, H' !! i = Some (Trn, k)).
Proof.
  induction l as [|i l IH]; intros H HI Hn Hl; [exists H; set_solver|].
  apply NoDup_cons in Hn as [Hi Hn].
  destruct (IH H HI Hn) as (H' & HI' & He & Ht); [intros j Hj; apply Hl; by constructor|].
  destruct (Hl i) as (HiN & b & Hb & Htr); [constructor|].
  exists (<[i := (Trn, bd_key b)]> H'). split_and!.
  - destruct HI' as [Hh Hrest]. split; [|exact Hrest]. apply map_Forall_insert_2; [|done].
    exists b. done.
  - intros j Hj. apply not_elem_of_cons in Hj as [Hj1 Hj2]. rewrite lookup_insert_ne by done. by apply He.
  - intros j [->|Hj]%elem_of_cons; [rewrite lookup_insert_eq; eauto|].
    rewrite lookup_insert_ne by (intros ->; done). by apply Ht.
Qed.

Lemma Inv_shrink H H' D c : Inv H' D c -> (forall i k, H !! i = Some k -> H' !! i = Some k) -> Inv H D c.
Proof. intros [Hh HR] Hs. split; [|exact HR]. intros i k Hi. apply Hh. by apply Hs. Qed.

(** The buffers of [l] are under transfer and nobody else's. *)
Definition moving (H : gmap nat (hold * (Z * Z))) (c : cache) (l : list nat) : Prop :=
  NoDup l /\
  forall i, i ∈ l -> H !! i = None /\ exists b, bds c !! i = Some b /\ transferring (bd_state b) = true.

Lemma moving_app H c l1 l2 : moving H c (l1 ++ l2) -> moving H c l1 /\ moving H c l2.
Proof.
  intros [Hn Hl]. apply NoDup_app in Hn as (? & _ & ?).
  split; (split; [done|]); intros i Hi; apply Hl, elem_of_app; auto.
Qed.

Lemma moving_held H H' D c l :
  Inv H' D c -> NoDup l -> (forall i, i ∈ l -> H !! i = None) ->
  (forall i, i ∈ l -> exists k, H' !! i = Some (Trn, k)) -> moving H c l.
Proof.
  intros [Hh _] Hn Hl Ht. split; [done|]. intros i Hi. split; [by apply Hl|].
  destruct (Ht i Hi) as [k Hk]. destruct (Hh i _ Hk) as (b & ? & ? & ?). eauto.
Qed.

Lemma extend H D c l l2 :
  Inv H D c -> moving H c (l ++ l2) ->
  exists H', Inv H' D c /\ moving H' c l /\
    (forall c', Inv H' D c' -> Inv H D c' /\ moving H c' l2).
Proof.
  intros HI Hm. pose proof (moving_app _ _ _ _ Hm) as [Hm1 Hm2].
  destruct (Inv_extend D c l2 H HI (proj1 Hm2) (proj2 Hm2)) as (H' & HI' & He & Ht).
  destruct Hm as [Hn _]. apply NoDup_app in Hn as (_ & Hdis & _).
  exists H'. split; [done|]. split.
  - split; [apply Hm1|]. intros i Hi. rewrite He by (by apply Hdis). by apply (proj2 Hm1).
  - intros c' HI''. split.
    + eapply Inv_shrink; [done|]. intros i k Hi. rewrite He; [done|]. intros Hin.
      destruct (proj2 Hm2 i Hin) as [? _]. congruence.
    + eapply moving_held; [done|apply Hm2| |done]. intros i Hi. by apply (proj2 Hm2).
Qed.

Lemma wp_transfer_loop D sc bufs : forall H w1 w2 Q c o,
  Inv H D c -> moving H c bufs -> (forall w c', Inv H D c' -> Q w c' o) ->
  wp (transfer_loop sc bufs w1 w2) Q c o.
Proof.
  induction bufs as [|i l IH]; intros H w1 w2 Q c o HI Hm HQ; simpl; [by apply wp_ret, HQ|].
  destruct (extend H D c [i] l HI Hm) as (H' & HI' & Hm1 & Hback).
  destruct (proj2 Hm1 i) as (Hi & b & Hb & Ht); [constructor|].
  apply wp_bind. eapply wp_get_bd; [done|]. apply wp_bind.
  eapply Safe.wp_transfer_finish; [exact HI'|done|done|done|]. intros c1 HI1 _.
  destruct (Hback c1 HI1) as [HI2 Hm2]. by apply (IH H).
Qed.

Section Safety.
Context (H : gmap nat (hold * (Z * Z))) (D : gmap Z geom) (X : env -> Prop).

Lemma kept_moving c c' l : moving H c l -> kept l c c' -> moving H c' l.
Proof.
  intros [Hn Hl] Hk. split; [done|]. intros i Hi. destruct (Hl i Hi) as (? & b & Hb & Ht).
  split; [done|]. destruct (Hk i b Hi Hb) as (b' & Hb' & _ & _ & _ & Ht'). eauto.
Qed.

Lemma wp_execute_transfer rest dd g rd bufs Q c o :
  Forall (env_ok H D X) o -> Inv H D c -> D !! dd = Some g -> moving H c (bufs ++ rest) ->
  (forall sc c' o', Forall (env_ok H D X) o' -> Inv H D c' -> moving H c' rest -> Q sc c' o') ->
  wp (rtems_bdbuf_execute_transfer_request rest dd (mk_request rd bufs)) Q c o.
Proof.
  intros Ho HI Hd Hm HQ. unfold rtems_bdbuf_execute_transfer_request.
  apply wp_bind. eapply Safe.wp_get_disk_sim; [by eapply Safe.Inv_disk|]. intros d _.
  apply wp_bind, wp_modify, wp_bind. set (c1 := set_ios _ c).
  assert (Inv H D c1) as HI1 by (by eapply Inv_similar, HI).
  apply (wp_yield H D X); [done|done|]. intros sc c2' o2 Ho2 _ HI2' Hk2.
  assert (moving H c2' (bufs ++ rest)) as Hm2 by (by eapply kept_moving).
  apply wp_bind, wp_modify. set (c2 := rtems_bdbuf_transfer_done _ c2').
  assert (Inv H D c2) as HI2 by (by eapply Inv_similar, HI2').
  apply wp_bind. eapply Safe.wp_upd_disk_sim; [by eapply Safe.Inv_disk|done|]. intros c3 Hs3.
  assert (moving H c3 (bufs ++ rest)) as Hm3 by (destruct Hs3 as (Eb & _); unfold moving; by rewrite Eb).
  destruct (extend H D c3 bufs rest ltac:(by eapply Inv_similar) Hm3) as (H' & HI3 & Hb & Hback).
  apply wp_bind. eapply (wp_transfer_loop D sc bufs H'); [done|done|]. intros w c4 HI4.
  assert (forall c5, similar c4 c5 ->
    wp (mret (if (sc =? 0) || (sc =? - ENOSYS) then sc else - EIO)) Q c5 o2) as Hend.
  { intros c5 Hs5. apply wp_ret. destruct (Hback c5) as [? ?]; [by eapply Inv_similar|]. by apply HQ. }
  assert (forall c5, similar c4 c5 ->
    wp ((if w.2 : bool then rtems_bdbuf_wake BufferWaiters else mret tt) ;;
        mret (if (sc =? 0) || (sc =? - ENOSYS) then sc else - EIO)) Q c5 o2) as Hmid.
  { intros c5 Hs5. apply wp_bind. destruct w.2; [apply wp_wake|by apply wp_ret, Hend].
    intros c6 Hs6. apply Hend. by eapply Safe.similar_trans. }
  apply wp_bind. destruct w.1; [apply wp_wake|by apply wp_ret, Hmid]. intros c5 Hs5. by apply Hmid.
Qed.

Lemma wp_swapout_write_loop cfg dd g cont mbpb fuel : forall bds bufs lst Q c o,
  Forall (env_ok H D X) o -> Inv H D c -> D !! dd = Some g -> moving H c (bufs ++ bds) ->
  (2 * length bds + (if decide (bufs = []) then 0 else 1) < fuel)%nat -> (bds = [] -> bufs = []) ->
  (forall c' o', Forall (env_ok H D X) o' -> Inv H D c' -> Q tt c' o') ->
  wp (swapout_write_loop cfg fuel dd cont mbpb bds bufs lst) Q c o.
Proof.
  induction fuel as [|fuel IH]; intros bds bufs lst Q c o Ho HI Hd Hm Hf Hne HQ; [lia|]. simpl.
  destruct bds as [|i rest]; [by apply wp_ret, HQ|].
  assert (i ∈ bufs ++ i :: rest) as Hin by (apply elem_of_app; right; constructor).
  destruct (proj2 Hm i Hin) as (_ & b & Hb & _). apply wp_bind. eapply wp_get_bd; [done|].
  destruct (cont && negb (bool_decide (bufs = [])) && _) eqn:Eb.
  - apply andb_prop in Eb as [Eb _]. apply andb_prop in Eb as [_ Eb].
    apply negb_true_iff, bool_decide_eq_false in Eb. cbn [orb]. rewrite decide_False in Hf by done.
    apply wp_bind. apply (wp_yield H D X); [done|done|]. intros _ c1 o1 Ho1 _ HI1 Hk1.
    apply wp_bind. eapply wp_execute_transfer; [done|done|done|by eapply kept_moving|].
    intros _ c2 o2 Ho2 HI2 Hm2. apply IH; try done. rewrite decide_True by done. lia.
  - cbn [orb]. assert (moving H c ((bufs ++ [i]) ++ rest)) as Hm' by (by rewrite <- app_assoc).
    destruct (bool_decide (rest = []) || _) eqn:Ew.
    + apply wp_bind. apply (wp_yield H D X); [done|done|]. intros _ c1 o1 Ho1 _ HI1 Hk1.
      apply wp_bind. eapply wp_execute_transfer; [done|done|done|by eapply kept_moving|].
      intros _ c2 o2 Ho2 HI2 Hm2. apply IH; try done. rewrite decide_True by done. simpl in Hf. lia.
    + apply orb_false_iff in Ew as [Er _]. apply bool_decide_eq_false in Er.
      apply IH; try done. rewrite decide_False by (by destruct bufs). cbn [length] in Hf.
      destruct (decide (bufs = [])); lia.
Qed.

End Safety.

(** C27: [rtems_bdbuf_swapout_write] keeps the cache consistent, whatever the
    driver answers; and, with no other thread at work, it hands the driver
    the buffers of the transfer, each once and in order, in requests of at
    least one and at most [max_write_blocks] buffers, whose blocks follow
    each other when the device needs that; a sync request ends a sync on a
    device that supports it. *)
Theorem swapout_write_correct (H : gmap nat (hold * (Z * Z))) (D : gmap Z geom) (X : env -> Prop)
    (cfg : bdbuf_config) (t : transfer) (d p : disk) (c : cache) (o : list env) :
  Forall (env_ok H D X) o -> quiet o -> Inv H D c -> moving H c (t_bds t) -> t_bds t <> [] ->
  disks c !! t_dd t = Some d -> disks c !! phys_dev d = Some p -> 1 <= max_write_blocks cfg ->
  let cont := has_cap RTEMS_BLKDEV_CAP_MULTISECTOR_CONT (capabilities p) in
  let reqs := requests (block_of c) cont (media_blocks_per_block d) (max_write_blocks cfg) (t_bds t) in
  concat reqs = t_bds t /\
  Forall (good_chunk (block_of c) cont (media_blocks_per_block d) (max_write_blocks cfg)) reqs /\
  wp (rtems_bdbuf_swapout_write cfg t)
    (fun _ c' o' => Inv H D c' /\
       ios c' = ios c ++ write_log (phys_dev d) reqs ++
         (if t_syncing t && has_cap RTEMS_BLKDEV_CAP_SYNC (capabilities p)
          then [IoSync (phys_dev d)] else [])) c o.
Proof.
  intros Ho Hq HI Hm Hne Hd Hp Hmax cont reqs.
  destruct (chunks_ok (block_of c) cont (media_blocks_per_block d) (max_write_blocks cfg)
    (2 * length (t_bds t) + 1) (t_bds t) [] 0) as [H1 H2]; try done;
    [rewrite decide_True by done; lia|rewrite len_nil; lia|].
  split; [exact H1|]. split; [exact H2|]. clear H1 H2.
  assert (D !! t_dd t = Some (disk_geom d)) as HD.
  { destruct HI as (_ & rho & HP & _). by rewrite <- (ph_disks _ _ _ HP), lookup_fmap, Hd. }
  unfold rtems_bdbuf_swapout_write. destruct (t_bds t) as [|i l] eqn:El; [done|]. rewrite <- El in *.
  apply wp_bind. eapply wp_get_disk; [done|]. apply wp_bind. eapply wp_get_disk; [done|]. fold cont.
  pose proof (wp_swapout_write_loop H D X cfg (t_dd t) _ cont (media_blocks_per_block d)
    (2 * length (t_bds t) + 1) (t_bds t) [] 0 (fun _ c' o' => Inv H D c') c o Ho HI HD Hm) as Hw.
  specialize (Hw ltac:(rewrite decide_True by done; lia) ltac:(done) ltac:(done)).
  apply wp_bind. unfold wp in Hw. unfold wp at 1.
  destruct (swapout_write_loop cfg _ _ _ _ _ _ _ c o) as [[] c' o'| | | |] eqn:Er; try done.
  apply (swapout_write_loop_io cfg (block_of c) _ _ _ _ _ _ _ _ _ _ _ d) in Er as [Eio _]; try done.
  rewrite El in Eio. fold (requests (block_of c) cont (media_blocks_per_block d) (max_write_blocks cfg) (i :: l)) in Eio.
  fold reqs in Eio. destruct (t_syncing t && _).
  - split; [eapply Inv_similar; [|exact Hw]; done|]. simpl. rewrite Eio, <- app_assoc. done.
  - split; [done|]. rewrite Eio, app_nil_r. done.
Qed.

(** ** The swapout task keeps the cache consistent *)

(** The part [f] of the cache that [m] leaves alone. *)
Definition pres {B A} (f : cache -> B) (m : M A) : Prop :=
  forall c o a c' o', m c o = Ret a c' o' -> f c' = f c.

Lemma pres_bind {B A A'} (f : cache -> B) (m : M A) (k : A -> M A') :
  pres f m -> (forall a, pres f (k a)) -> pres f (m ≫= k).
Proof.
  intros Hm Hk c o a' c' o' (a & c1 & o1 & H1 & H2)%bind_ret.
  rewrite (Hk _ _ _ _ _ _ H2). by eapply Hm.
Qed.
Lemma pres_ret {B A} (f : cache -> B) (a : A) : pres f (mret a).
Proof. by intros c o a' c' o' [= _ -> _]. Qed.
Lemma pres_get_cache {B} (f : cache -> B) : pres f get_cache.
Proof. by intros c o a' c' o' [= _ -> _]. Qed.
Lemma pres_modify {B} (f : cache -> B) g : (forall c, f (g c) = f c) -> pres f (modify g).
Proof. intros Hg c o a' c' o' [= _ <- _]. apply Hg. Qed.
Lemma pres_option {B A} (f : cache -> B) (x : option A) : pres f (from_option_M x).
Proof. destruct x; [apply pres_ret|]. done. Qed.
Lemma pres_fail {B A} (f : cache -> B) : pres f (@invalid A).
Proof. done. Qed.
#[local] Hint Resolve pres_ret pres_get_cache pres_option pres_fail : keeps.

Lemma wp_pres {B A} (f : cache -> B) (m : M A) Q c o :
  pres f m -> wp m Q c o -> wp m (fun a c' o' => Q a c' o' /\ f c' = f c) c o.
Proof.
  intros Hp Hw. unfold wp in *. destruct (m c o) eqn:E; try done. split; [done|]. by eapply Hp.
Qed.

Ltac pres :=
  repeat first
    [ solve [eauto with keeps]
    | apply pres_bind; [|intros ?]
    | apply pres_modify; intros ?; done
    | match goal with
      | |- pres _ (if ?b then _ else _) => destruct b
      | |- pres _ (match ?x with _ => _ end) => destruct x
      end ].

Lemma scan_pres_workers k dd tr active upd delta :
  pres (fun c => (workers c, swapout_free_workers c))
    (rtems_bdbuf_swapout_modified_processing dd k tr active upd delta).
Proof.
  unfold rtems_bdbuf_swapout_modified_processing. apply pres_bind; [pres|]. intros c.
  generalize (active && (dd =? BDBUF_INVALID_DEV)). intros sa. generalize (get_chain k c). clear c.
  intros nodes. revert dd tr. induction nodes as [|i nodes IH]; intros dd tr; simpl; [pres|].
  unfold upd_bd, get_bd, rtems_bdbuf_set_state, rtems_chain_extract, upd_bd, get_bd. pres.
Qed.

Section Processing.
Context (H : gmap nat (hold * (Z * Z))) (D : gmap Z geom) (X : env -> Prop).

Lemma chain_free k c i : Inv H D c -> i ∈ get_chain k c -> H !! i = None.
Proof.
  intros HI Hi. destruct (chain_open H D k i c HI) as [? _]; [by eapply chain_in_state|done].
Qed.

(** Both scans of [rtems_bdbuf_swapout_processing]. *)
Lemma both_scans dd active upd delta c o :
  Inv H D c -> D !! BDBUF_INVALID_DEV = None ->
  wp (r ← rtems_bdbuf_swapout_modified_processing dd SyncChain [] true false delta;
      rtems_bdbuf_swapout_modified_processing r.1 ModifiedChain r.2 active upd delta)
    (fun r c' o' => o' = o /\ Inv H D c' /\ moving H c' r.2 /\ Forall (chosen r.1 c') r.2 /\
       workers c' = workers c /\ swapout_free_workers c' = swapout_free_workers c) c o.
Proof.
  intros HI Hd. apply wp_bind. eapply wp_mono.
  { apply (wp_pres (fun c => (workers c, swapout_free_workers c))); [apply scan_pres_workers|].
    apply wp_and; [by apply (swapout_scan_inv H D SyncChain dd [])|].
    apply (swapout_scan_from H D SyncChain dd [] true false delta c c o); try done; try constructor.
    intros i Hi. by apply elem_of_nil in Hi. }
  intros r c1 o1 [[[HI1 _] [-> (kept & Hk & _ & Hn1 & Hp & Hb & _ & Hc & Hs)]] [= Ew Ef]].
  rewrite app_nil_r in Hp.
  assert (forall i, i ∈ r.2 -> i ∉ get_chain ModifiedChain c1) as Hdis.
  { intros i Hi Hi'. rewrite Forall_forall in Hc. destruct (Hc i Hi) as (b & Hb' & Hst & _).
    destruct (chain_in_state H D ModifiedChain c1 i HI1 Hi') as (b' & ? & Hs'). simpl in Hs'. congruence. }
  pose proof (chain_NoDup H D SyncChain c HI) as Hns. rewrite Hp in Hns.
  apply NoDup_app in Hns as (_ & _ & Hnr).
  eapply wp_mono.
  { apply (wp_pres (fun c => (workers c, swapout_free_workers c))); [apply scan_pres_workers|].
    apply wp_and; [by apply (swapout_scan_inv H D ModifiedChain r.1 r.2)|].
    by apply (swapout_scan_from H D ModifiedChain r.1 r.2 active upd delta c c1 o). }
  intros r2 c2 o2 [[[HI2 _] [-> (kept2 & _ & _ & _ & Hp2 & _ & _ & Hc2 & _)]] [= Ew2 Ef2]].
  split_and!; try done; [|congruence..]. split.
  - assert (NoDup (get_chain ModifiedChain c1 ++ r.2)) as Hna.
    { apply NoDup_app. split_and!; [by eapply chain_NoDup| |done]. intros i Hi Hi'. by eapply Hdis. }
    rewrite Hp2 in Hna. by apply NoDup_app in Hna as (_ & _ & ?).
  - intros i Hi. rewrite Forall_forall in Hc2. destruct (Hc2 i Hi) as (b & Hb2 & Hst & _).
    split; [|exists b; by rewrite Hst].
    assert (i ∈ get_chain ModifiedChain c1 ++ r.2) as Hin by (rewrite Hp2; apply elem_of_app; by right).
    apply elem_of_app in Hin as [Hin|Hin]; [by apply (chain_free ModifiedChain c1)|].
    apply (chain_free SyncChain c); [done|]. rewrite Hp. apply elem_of_app. by right.
Qed.

(** The devices under a device are there. *)
Definition phys_closed : Prop := forall dd g, D !! dd = Some g -> is_Some (D !! ge_phys g).

Lemma wp_swapout_write cfg t Q c o :
  phys_closed -> Forall (env_ok H D X) o -> Inv H D c -> moving H c (t_bds t) ->
  (t_bds t <> [] -> is_Some (D !! t_dd t)) ->
  (forall c' o', Forall (env_ok H D X) o' -> Inv H D c' -> Q tt c' o') ->
  wp (rtems_bdbuf_swapout_write cfg t) Q c o.
Proof.
  intros Hpc Ho HI Hm Hd HQ. unfold rtems_bdbuf_swapout_write.
  destruct (t_bds t) as [|i l] eqn:El; [by apply wp_ret, HQ|]. destruct Hd as [g Hg]; [done|].
  apply wp_bind. eapply Safe.wp_get_disk_sim; [by eapply Safe.Inv_disk|]. intros d Hgd.
  destruct (Hpc _ _ Hg) as [g' Hg']. rewrite <- Hgd in Hg'.
  apply wp_bind. eapply Safe.wp_get_disk_sim; [eapply Safe.Inv_disk; [done|exact Hg']|]. intros p _.
  apply wp_bind. eapply wp_swapout_write_loop; [done|done|exact Hg|done| |done|].
  - rewrite decide_True by done. lia.
  - intros c' o' Ho' HI'. destruct (t_syncing t && _); [apply wp_modify|apply wp_ret]; apply HQ; try done.
    eapply Inv_similar; [|exact HI']. done.
Qed.

Lemma chosen_dev dd c l : Inv H D c -> Forall (chosen dd c) l -> l <> [] -> is_Some (D !! dd).
Proof.
  intros HI Hc Hl. destruct l as [|i l]; [done|]. apply Forall_cons in Hc as [(b & Hb & Hs & <- & _) _].
  destruct HI as (_ & rho & HP & HR). destruct (HR i b Hb) as [_ Hr].
  destruct (liveb _ _ _).
  - destruct Hr as ([_ Hsz] & _). destruct Hsz as (g & ? & _); [by rewrite Hs|eauto].
  - destruct Hr as (_ & _ & Hid). by rewrite Hs in Hid.
Qed.

Lemma wp_store_transfer w t Q c o :
  (forall w', w = Some w' -> is_Some (workers c !! w')) ->
  (forall c', similar c c' -> (forall w', is_Some (workers c !! w') -> is_Some (workers c' !! w')) -> Q tt c' o) ->
  wp (store_transfer w t) Q c o.
Proof.
  intros Hw HQ. unfold store_transfer. destruct w as [w|].
  - destruct (Hw w eq_refl) as [x Hx]. unfold upd_worker. apply wp_bind, wp_get_cache. rewrite Hx.
    apply wp_modify, HQ; [done|]. intros w' Hw'. simpl.
    apply lookup_lt_is_Some. rewrite length_insert. by apply lookup_lt_is_Some.
  - by apply wp_modify, HQ.
Qed.

(** The writing part, without and with a worker. *)
Lemma wp_write_out cfg w t c o (Q : bool -> cache -> list env -> Prop) :
  phys_closed -> Forall (env_ok H D X) o -> Inv H D c -> moving H c (t_bds t) ->
  (t_bds t <> [] -> is_Some (D !! t_dd t)) ->
  (forall w', w = Some w' -> is_Some (workers c !! w')) ->
  (forall r c' o', Forall (env_ok H D X) o' -> Inv H D c' -> Q r c' o') ->
  wp (match t_bds t with
      | [] => mret false
      | _ =>
          (match w with
           | Some w => upd_worker w (fun x => set_wk_sem (wk_sem x + 1) x)
           | None => rtems_bdbuf_swapout_write cfg t ;; modify (set_swapout_transfer (set_t_bds [] t))
           end) ;; mret true
      end) Q c o.
Proof.
  intros Hpc Ho HI Hm Hd Hw HQ. destruct (t_bds t) as [|i l] eqn:El; [by apply wp_ret, HQ|].
  rewrite <- El in Hm, Hd. apply wp_bind. destruct w as [w|].
  - destruct (Hw w eq_refl) as [x Hx]. unfold upd_worker. apply wp_bind, wp_get_cache. rewrite Hx.
    apply wp_modify, wp_ret, HQ; [done|]. eapply Inv_similar; [|exact HI]. done.
  - apply wp_bind. apply wp_swapout_write; try done. intros c1 o1 Ho1 HI1.
    apply wp_modify, wp_ret, HQ; [done|]. eapply Inv_similar; [|exact HI1]. done.
Qed.

Lemma wp_end_sync c o (Q : unit -> cache -> list env -> Prop) :
  Forall (env_ok H D X) o -> Inv H D c ->
  (forall c' o', Forall (env_ok H D X) o' -> Inv H D c' -> Q tt c' o') ->
  wp (_ ← yield [];
      c ← get_cache;
      modify (set_sync_active false) ;;
      modify (set_sync_requester None) ;;
      match sync_requester c with
      | Some r => modify (fun c => set_posted (posted c ++ [r]) c)
      | None => mret tt
      end) Q c o.
Proof.
  intros Ho HI HQ. apply wp_bind, (wp_yield H D X); [done|done|]. intros _ c1 o1 Ho1 _ HI1 _.
  apply wp_bind, wp_get_cache, wp_bind, wp_modify, wp_bind, wp_modify.
  destruct (sync_requester c1); [apply wp_modify|apply wp_ret]; apply HQ; try done;
    (eapply Inv_similar; [|exact HI1]; done).
Qed.

(** The worker for a turn: the first free one, unless a sync is under way. *)
Lemma wp_pick_worker (active : bool) c o (Q : option nat -> cache -> list env -> Prop) :
  (forall w, w ∈ swapout_free_workers c -> is_Some (workers c !! w)) ->
  (forall w c', similar c c' -> workers c' = workers c ->
     (forall w', w = Some w' -> is_Some (workers c !! w')) -> Q w c' o) ->
  wp (if active then mret None
      else match swapout_free_workers c with
           | [] => mret None
           | w :: l => modify (set_swapout_free_workers l) ;; mret (Some w)
           end) Q c o.
Proof.
  intros Hw HQ. destruct active; [by apply wp_ret, HQ|].
  destruct (swapout_free_workers c) as [|w l] eqn:E; [by apply wp_ret, HQ|].
  apply wp_bind, wp_modify, wp_ret, HQ; try done. intros w' [= <-]. apply Hw. constructor.
Qed.

Lemma bind_assoc {A B C} (m : M A) (k : A -> M B) (k' : B -> M C) Q c o :
  wp (m ≫= k) (fun b => wp (k' b) Q) c o -> wp (m ≫= fun a => k a ≫= k') Q c o.
Proof.
  intros Hw. unfold wp, mbind, M_bind in *. destruct (m c o) as [a c1 o1| | | |]; try done.
  by destruct (k a c1 o1).
Qed.

Lemma swapout_processing_ok cfg delta upd c o :
  phys_closed -> D !! BDBUF_INVALID_DEV = None -> Forall (env_ok H D X) o -> Inv H D c ->
  (forall w, w ∈ swapout_free_workers c -> is_Some (workers c !! w)) ->
  wp (rtems_bdbuf_swapout_processing cfg delta upd)
    (fun _ c' o' => Forall (env_ok H D X) o' /\ Inv H D c') c o.
Proof.
  intros Hpc Hd Ho HI Hw. unfold rtems_bdbuf_swapout_processing. apply wp_bind, wp_get_cache, wp_bind.
  apply wp_pick_worker; [done|]. intros w c1 Hs1 Ew Hw1.
  assert (Inv H D c1) as HI1 by (by eapply Inv_similar). apply bind_assoc.
  eapply wp_mono; [by apply both_scans|]. intros r c2 o2 (-> & HI2 & Hm & Hc & Ew2 & _).
  apply wp_bind, wp_store_transfer; [intros w' E; rewrite Ew2, Ew; by apply Hw1|].
  intros c3 Hs3 Hk3. apply wp_bind, wp_write_out; try done.
  - by eapply Inv_similar.
  - destruct Hm as [Hn Hm]. split; [done|]. destruct Hs3 as (E & _). by rewrite E.
  - intros Hne. by eapply (chosen_dev r.1 c2 r.2).
  - intros w' E. apply Hk3. rewrite Ew2, Ew. by apply Hw1.
  - intros b c4 o4 Ho4 HI4. apply wp_bind. destruct (_ && _); [apply wp_end_sync|apply wp_ret]; try done.
Qed.

End Processing.

(** [rtems_bdbuf_swapout_processing] never fails an assertion and keeps
    the cache consistent, whatever the devices answer and whatever the other
    threads do within the rules of the cache: alone, with a worker, and when
    it ends a sync. *)
Theorem swapout_processing_consistent (H : gmap nat (hold * (Z * Z))) (D : gmap Z geom)
    (X : env -> Prop) (cfg : bdbuf_config) (delta : Z) (upd : bool) (c : cache) (o : list env) :
  phys_closed D -> D !! BDBUF_INVALID_DEV = None -> Forall (env_ok H D X) o -> Inv H D c ->
  (forall w, w ∈ swapout_free_workers c -> is_Some (workers c !! w)) ->
  wp (rtems_bdbuf_swapout_processing cfg delta upd)
    (fun _ c' o' => Forall (env_ok H D X) o' /\ Inv H D c') c o.
Proof. apply swapout_processing_ok. Qed.

Lemma run_bind {A B} (m : M A) (k : A -> M B) c o a c1 o1 :
  m c o = Ret a c1 o1 -> (m ≫= k) c o = k a c1 o1.
Proof. intros E. unfold mbind, M_bind. by rewrite E. Qed.

Lemma scan_empty k dd tr active upd delta c o :
  get_chain k c = [] -> rtems_bdbuf_swapout_modified_processing dd k tr active upd delta c o = Ret (dd, tr) c o.
Proof.
  intros E. unfold rtems_bdbuf_swapout_modified_processing.
  rewrite (run_bind get_cache _ c o c c o eq_refl), E. done.
Qed.

(** A turn of the swapout task with a free worker and no sync under way
    loses the worker when there is nothing to write: it takes the worker off
    the list of the free ones, gives it no transfer and no signal, and no
    one puts it back. *)
Theorem idle_turn_loses_worker (cfg : bdbuf_config) (delta : Z) (upd : bool) (w : nat) (l : list nat)
    (x : worker) (c : cache) (o : list env) :
  sync_active c = false -> swapout_free_workers c = w :: l -> workers c !! w = Some x ->
  modified c = [] -> sync c = [] ->
  exists c', rtems_bdbuf_swapout_processing cfg delta upd c o = Ret false c' o /\
    swapout_free_workers c' = l /\
    (wk_sem <$> workers c' !! w) = Some (wk_sem x) /\ (t_bds ∘ wk_transfer <$> workers c' !! w) = Some [].
Proof.
  intros Ha Hf Hx Hm Hs. unfold rtems_bdbuf_swapout_processing. eexists. split.
  - rewrite (run_bind get_cache _ c o c c o eq_refl), Ha, Hf. cbv iota zeta.
    rewrite (run_bind (modify (set_swapout_free_workers l) ;; mret (Some w)) _ c o (Some w) (set_swapout_free_workers l c) o eq_refl).
    rewrite (run_bind _ _ _ _ _ _ _ (scan_empty SyncChain _ _ _ _ _ (set_swapout_free_workers l c) o Hs)). cbn [fst snd].
    rewrite (run_bind _ _ _ _ _ _ _ (scan_empty ModifiedChain _ _ _ _ _ (set_swapout_free_workers l c) o Hm)). cbn [fst snd].
    unfold store_transfer, upd_worker.
    rewrite (run_bind _ _ _ o tt (set_workers (<[w := set_wk_transfer (mk_transfer [] BDBUF_INVALID_DEV false) x]> (workers c))
      (set_swapout_free_workers l c)) o); [done|].
    rewrite (run_bind get_cache _ _ _ (set_swapout_free_workers l c) _ _ eq_refl). cbn [workers set_swapout_free_workers]. by rewrite Hx.
  - split; [done|]. simpl. rewrite list_lookup_insert_eq by (by eapply lookup_lt_Some). done.
Qed.

(** The deadline of the swapout task is not normalised: when the
    nanoseconds of the clock and of the period add up to a second, the wait
    fails with EINVAL and the task takes the fatal error of a failed wait. *)
Theorem swapout_deadline_is_fatal (cfg : bdbuf_config) (fuel : nat) (now : Z * Z) (c : cache)
    (o : list env) (c' : cache) (o' : list env) :
  swapout_turns cfg fuel (swapout_period cfg) true c o = Ret tt c' o' ->
  1000000000 <= now.2 + swapout_period cfg mod 1000 * 1000 * 1000 ->
  rtems_bdbuf_swapout_task_turn cfg fuel now c o = Fatal FATAL_SWAPOUT_RE.
Proof.
  intros Ht Hn. unfold rtems_bdbuf_swapout_task_turn. rewrite (run_bind _ _ _ _ _ _ _ Ht).
  unfold sem_timedwait, swapout_deadline. simpl snd.
  rewrite (proj2 (Z.ltb_ge _ 1000000000)) by exact Hn. by rewrite andb_false_r.
Qed.

(** *** Witnesses: three modified blocks *)

Definition state_after {A} (m : M A) (c : cache) : cache :=
  match m c [] with Ret _ c _ => c | _ => c end.

Definition modify_block (block : Z) : M unit :=
  r ← rtems_bdbuf_get 7 block; _ ← rtems_bdbuf_release_modified cfg_1 r.2; mret tt.

Lemma wp_state_after {A} (m : M A) (P : cache -> Prop) c :
  P c -> wp m (fun _ c' _ => P c') c [] -> P (state_after m c).
Proof. unfold wp, state_after. destruct (m c []); auto. Qed.

Lemma modify_block_inv block c : Inv ∅ geoms_1 c -> 0 <= block < 100 ->
  wp (modify_block block) (fun _ c' _ => Inv ∅ geoms_1 c') c [].
Proof.
  intros HI Hb. assert (disk_geom <$> disks c !! 7 = Some (disk_geom disk_7)) as Hd
    by (eapply Safe.Inv_disk; [exact HI|reflexivity]).
  destruct (disks c !! 7) as [d|] eqn:E; [|done]. injection Hd as _ _ _ _ _ _ Hc _ _ _.
  unfold modify_block. apply wp_bind. eapply wp_mono.
  { apply (Safe.get_safe ∅ geoms_1 (fun _ => True) 7 d block c []); [constructor|done|done|lia]. }
  intros r c1 o1 (HI1 & Ho1 & Hr). rewrite Hc in Hr. change (block_count disk_7) with 100 in Hr.
  rewrite (proj2 (Z.ltb_lt _ _)) in Hr by lia. destruct Hr as (i & -> & Hi & b & Hbd & Ha & _).
  apply wp_bind. eapply wp_mono.
  { apply (Safe.release_modified_safe ∅ geoms_1 (fun _ => True) cfg_1 (Some i)); [done|done|].
    simpl. split; [done|]. eauto. }
  intros r c2 o2 (_ & HI2 & _). by apply wp_ret.
Qed.

Definition cache_3 : cache :=
  Eval vm_compute in
  state_after (modify_block 6) (state_after (modify_block 9) (state_after (modify_block 5) cache_1)).

Lemma cache_3_inv : Inv ∅ geoms_1 cache_3.
Proof.
  assert (cache_3 = state_after (modify_block 6) (state_after (modify_block 9)
    (state_after (modify_block 5) cache_1))) as -> by (vm_compute; reflexivity).
  do 3 (apply wp_state_after; [|apply modify_block_inv; [|lia]]); try apply cache_1_inv;
    repeat (apply wp_state_after; [|apply modify_block_inv; [|lia]]); apply cache_1_inv.
Qed.

Lemma swapout_deadline_is_fatal_witness :
  rtems_bdbuf_swapout_task_turn cfg_1 1 (7, 800000000) cache_1 [] = Fatal FATAL_SWAPOUT_RE.
Proof.
  apply (swapout_deadline_is_fatal cfg_1 1 (7, 800000000) cache_1 []
    (state_after (swapout_turns cfg_1 1 250 true) cache_1) []).
  - vm_compute. reflexivity.
  - vm_compute. discriminate.
Defined.

Lemma swapout_scan_correct_witness :
  let E := exp cache_3 false true 1000 0 in
  wp (rtems_bdbuf_swapout_modified_processing 0 ModifiedChain [] false true 1000)
    (fun r c' o' => o' = [] /\ Inv ∅ geoms_1 c' /\
       r.1 = scan_device E (dev_of cache_3) (get_chain ModifiedChain cache_3) 0 /\
       r.2 ≡ₚ filter (fun i => E i /\ dev_of cache_3 i = r.1) (get_chain ModifiedChain cache_3) /\
       StronglySorted (blk_le (block_of cache_3)) r.2 /\ Forall (chosen r.1 c') r.2 /\
       get_chain ModifiedChain c' = filter (fun i => ~ (E i /\ dev_of cache_3 i = r.1)) (get_chain ModifiedChain cache_3) /\
       (forall i, block_of c' i = block_of cache_3 i) /\
       (forall i, i ∈ get_chain ModifiedChain cache_3 -> timer_of c' i = timer_after cache_3 false true 1000 0 i) /\
       (forall i, i ∉ get_chain ModifiedChain cache_3 -> timer_of c' i = timer_of cache_3 i)) cache_3 [].
Proof.
  apply (swapout_scan_correct ∅ geoms_1 ModifiedChain 0 false true 1000 cache_3 []).
  - apply cache_3_inv.
  - reflexivity.
Defined.

(** The three buffers under transfer, and the transfer the scan makes. *)
Definition scan_3 : M (Z * list nat) :=
  rtems_bdbuf_swapout_modified_processing 0 ModifiedChain [] false true 1000.
Definition cache_4 : cache := Eval vm_compute in state_after scan_3 cache_3.
Definition transfer_4 : transfer := mk_transfer [0; 2; 1]%nat 7 true.

Example scan_3_run : scan_3 cache_3 [] = Ret (7, [0; 2; 1]%nat) cache_4 [].
Proof. vm_compute. reflexivity. Qed.

Lemma cache_4_inv : Inv ∅ geoms_1 cache_4.
Proof.
  assert (cache_4 = state_after scan_3 cache_3) as -> by (vm_compute; reflexivity).
  apply wp_state_after; [apply cache_3_inv|]. eapply wp_mono.
  - apply (swapout_scan_inv ∅ geoms_1 ModifiedChain 0 [] false true 1000), cache_3_inv.
  - by intros r c' o' [? _].
Qed.

Lemma cache_4_moving : moving ∅ cache_4 (t_bds transfer_4).
Proof.
  split; [by apply (bool_decide_unpack (NoDup _))|]. intros i Hi. split; [done|].
  simpl in Hi. rewrite !elem_of_cons, elem_of_nil in Hi.
  destruct Hi as [->|[->|[->|[]]]]; eexists; (split; [vm_compute; reflexivity|reflexivity]).
Qed.

Lemma swapout_write_correct_witness :
  let reqs := requests (block_of cache_4) false 1 16 (t_bds transfer_4) in
  concat reqs = t_bds transfer_4 /\
  Forall (good_chunk (block_of cache_4) false 1 16) reqs /\
  wp (rtems_bdbuf_swapout_write cfg_1 transfer_4)
    (fun _ c' o' => Inv ∅ geoms_1 c' /\
       ios c' = ios cache_4 ++ write_log (phys_dev disk_7) reqs ++
         (if t_syncing transfer_4 && has_cap RTEMS_BLKDEV_CAP_SYNC (capabilities disk_7)
          then [IoSync (phys_dev disk_7)] else [])) cache_4 (repeat idle_env 2).
Proof.
  apply (swapout_write_correct ∅ geoms_1 (fun _ => True) cfg_1 transfer_4 disk_7 disk_7 cache_4 (repeat idle_env 2)).
  - repeat (constructor; [by apply idle_env_ok|]). constructor.
  - repeat (constructor; [reflexivity|]). constructor.
  - apply cache_4_inv.
  - apply cache_4_moving.
  - discriminate.
  - vm_compute. reflexivity.
  - vm_compute. reflexivity.
  - vm_compute. discriminate.
Defined.

Lemma phys_closed_1 : phys_closed geoms_1.
Proof. intros dd g Hg. unfold geoms_1 in Hg. apply lookup_singleton_Some in Hg as [<- <-]. eexists. reflexivity. Qed.

Lemma swapout_processing_consistent_witness :
  wp (rtems_bdbuf_swapout_processing cfg_1 1000 true)
    (fun _ c' o' => Forall (env_ok ∅ geoms_1 (fun _ => True)) o' /\ Inv ∅ geoms_1 c')
    cache_3 (repeat idle_env 2).
Proof.
  apply (swapout_processing_consistent ∅ geoms_1 (fun _ => True) cfg_1 1000 true cache_3 (repeat idle_env 2)).
  - apply phys_closed_1.
  - reflexivity.
  - repeat (constructor; [by apply idle_env_ok|]). constructor.
  - apply cache_3_inv.
  - intros w Hw. change (swapout_free_workers cache_3) with (@nil nat) in Hw. by apply elem_of_nil in Hw.
Defined.

(** An initialised cache with one worker. *)
Definition cache_w : cache := init_cache (mk_config 0 16 250 1000 1 4096 512 1024) [] ∅ ∅.

Lemma idle_turn_loses_worker_witness :
  exists c', rtems_bdbuf_swapout_processing cfg_1 250 true cache_w [] = Ret false c' [] /\
    swapout_free_workers c' = [] /\
    (wk_sem <$> workers c' !! 0%nat) = Some (wk_sem (mk_worker 0 true transfer_0)) /\
    (t_bds ∘ wk_transfer <$> workers c' !! 0%nat) = Some [].
Proof.
  apply (idle_turn_loses_worker cfg_1 250 true 0 [] (mk_worker 0 true transfer_0) cache_w []); reflexivity.
Defined.
End Write.
