(* ===== verification/BdbufSync.v ===== *)
(** * What a sync leaves on the medium

    BdbufWrite says which buffers the swapout hands to the driver and that the
    cache stays consistent; this file follows the bytes.  With a driver that
    stores what it is given ([writes_ok]), a transfer of buffers ends with
    their blocks on the medium, and the turn of the swapout task for a sync
    ends with every block of the device there. *)
From Stdlib Require Import ZArith Lia Bool.
From stdpp Require Import base list gmap numbers sorting.
From S2P Require Import Prelude BdbufAvl BdbufState Bdbuf BdbufSwap BdbufStep BdbufInv BdbufSafe BdbufData BdbufInit BdbufWrite Blkdev.
Import Avl BdState Bdbuf Swap Step Inv Safe Data Init Write.

Module Sync.

Section Sync.
Context (dd phys bsz mbs bm max msize : Z) (H : gmap nat (hold * (Z * Z))) (D : gmap Z geom) (g : geom).
Context (HD : D !! dd = Some g) (Hphys : ge_phys g = phys).
Context (isblk : Z -> Prop) (V : gmap Z (list Z)) (HO : on_device isblk V).

Abbreviation Data := (Data dd phys bsz mbs bm max msize).
Abbreviation Layout := (Layout phys bm max msize).
Abbreviation area := (area bsz).
Abbreviation medium := (medium phys bsz mbs).
Abbreviation pending := (pending phys).

(** The driver is reading into the buffer. *)
Definition being_read (c : cache) (i : nat) : Prop :=
  exists l, list.last (ios c) = Some (IoRead phys l) /\ i ∈ l.

(** What a swapout needs of the other threads and of the driver besides
    [data_env]: they leave the bytes of a buffer that is on its way to the
    driver alone, a write request that ends well has stored the bytes of its
    buffers, and a block that is on the medium as it should be stays so. *)
Definition writes_ok (e : env) : Prop :=
  forall claims c, Inv H D c -> Layout c ->
    (forall i b, i ∈ claims -> bds c !! i = Some b -> bd_dd b = dd -> bd_state b = TRANSFER -> ~ being_read c i ->
       exists b', bds (ev_act e claims c) !! i = Some b' /\ bd_key b' = bd_key b /\ bd_state b' = TRANSFER /\
         area (ev_act e claims c) b' = area c b /\ ~ being_read (ev_act e claims c) i) /\
    (forall l i b, list.last (ios c) = Some (IoWrite phys l) -> ev_status e = 0 -> i ∈ l -> i ∈ claims ->
       bds c !! i = Some b -> bd_dd b = dd -> bd_state b = TRANSFER -> isblk (bd_block b) ->
       medium (ev_act e claims c) (bd_block b) = area c b) /\
    (forall W mb d, on_device isblk W -> Data W c -> W !! mb = Some d -> medium c mb = d ->
       medium (ev_act e claims c) mb = d).

Definition sync_env (e : env) : Prop := data_env dd phys bsz mbs bm max msize H D True isblk e /\ writes_ok e.
(** ** Buffers on their way to the medium *)

Abbreviation env_ok := (env_ok H D sync_env).

Section Blocks.
Context (blk : nat -> Z).

(** The buffers of [l] are to be written and have the bytes of their blocks. *)
Definition Writing (c : cache) (l : list nat) : Prop :=
  forall i, i ∈ l -> exists b, bds c !! i = Some b /\ bd_key b = (dd, blk i) /\ bd_state b = TRANSFER /\
    ~ being_read c i /\ forall d, V !! blk i = Some d -> area c b = d.

(** The blocks in [S] are on the medium. *)
Definition Stored (S : Z -> Prop) (c : cache) : Prop :=
  forall mb d, S mb -> V !! mb = Some d -> medium c mb = d.

Lemma Writing_sub c l l' : (forall i, i ∈ l' -> i ∈ l) -> Writing c l -> Writing c l'.
Proof. intros Hs HW i Hi. by apply HW, Hs. Qed.

Lemma bookkeeping_ios c c' : bookkeeping c c' -> ios c' = ios c.
Proof. by intros (_ & _ & _ & _ & _ & ?). Qed.

Lemma Writing_bookkeeping c c' l : bookkeeping c c' -> Writing c l -> Writing c' l.
Proof.
  intros HB HW i Hi. destruct (HW i Hi) as (b & Hb & Hk & Hs & Hr & Ha).
  destruct (bookkeeping_lookup c' c i b (symmetry HB) Hb) as (b' & Hb' & (E1 & E2 & E3 & E4 & _)%bd_data_inv).
  exists b'. split_and!; [done|unfold bd_key in *; congruence|congruence| |].
  - unfold being_read. by rewrite (bookkeeping_ios c c' HB).
  - intros d Hd. rewrite (bookkeeping_area bsz c c' b' HB). unfold Data.area. rewrite E3. by apply Ha.
Qed.

Lemma Stored_bookkeeping S c c' : bookkeeping c c' -> Stored S c -> Stored S c'.
Proof. intros HB HS mb d Hmb Hd. rewrite (bookkeeping_medium phys bsz mbs c c' mb HB). by apply HS. Qed.

(** The transfers that have ended are looked at. *)
Definition Finishing (S : Z -> Prop) (l : list nat) (c : cache) : Prop :=
  Data V c /\ (forall l', ~ pending c l') /\ Writing c l /\ Stored S c.

Lemma Finishing_bookkeeping S l c c' : bookkeeping c c' -> Finishing S l c -> Finishing S l c'.
Proof.
  intros HB (HV & Hp & HW & HS). split; [by eapply Data_bookkeeping|]. split; [|split].
  - intros l'. unfold Data.pending. rewrite (bookkeeping_ios c c' HB). apply Hp.
  - by eapply Writing_bookkeeping.
  - by eapply Stored_bookkeeping.
Qed.

Lemma finish_one S i l c c' :
  marked i CACHED c c' -> i ∉ l -> S (blk i) -> Finishing S (i :: l) c -> Finishing S l c'.
Proof.
  intros HM Hi HSi (HV & Hp & HW & HS). destruct (HW i) as (b & Hb & Hk & Hs & Hr & Ha); [constructor|].
  pose proof Hk as Hk'. unfold bd_key in Hk'. injection Hk' as Hdd Hblk. split; [|split; [|split]].
  - eapply Data_marked; [exact HV|exact Hb|exact HM|done|by right|]. intros d _ _ Hd. rewrite Hblk in Hd |- *.
    split_and!; [intros _; by apply Ha|intros _; by apply HS|right; by apply HS].
  - destruct HM as (b0 & _ & HB). intros l'. unfold Data.pending. rewrite (bookkeeping_ios _ c' HB). apply Hp.
  - destruct HM as (b0 & Hb0 & HB). eapply Writing_bookkeeping; [exact HB|]. intros j Hj.
    destruct (HW j) as (bj & Hbj & Hj'); [by constructor|]. exists bj. split; [|exact Hj'].
    simpl. rewrite list_lookup_insert_ne; [done|]. by intros ->.
  - destruct HM as (b0 & Hb0 & HB). by eapply Stored_bookkeeping; [exact HB|].
Qed.

Lemma transfer_loop_leaves S bufs : forall w1 w2,
  leaves (fun c c' => forall l, NoDup (bufs ++ l) -> (forall i, i ∈ bufs -> S (blk i)) ->
    Finishing S (bufs ++ l) c -> Finishing S l c') (transfer_loop 0 bufs w1 w2).
Proof.
  induction bufs as [|i bufs IH]; intros w1 w2; simpl; [intros c o a c' o' [= <- <- <-]; auto|].
  apply leaves_get_bd. intros b. eapply leaves_seq; [apply transfer_finish_leaves|intros _; apply IH|].
  intros c1 c2 c3 H1 H2 Hb l Hn HS HF. apply NoDup_cons in Hn as [Hi Hn]. apply H2; [done|intros; apply HS; by constructor|].
  eapply finish_one; [|exact Hi|apply HS; constructor|exact HF].
  destruct HF as (_ & _ & HW & _). destruct (HW i) as (b' & Hb' & _ & Hs & _); [constructor|]. exact (H1 b' Hb' Hs).
Qed.

(** ** One request *)

Lemma Data_issued c bufs : Inv H D c -> Data V c -> Writing c bufs ->
  Data V (set_ios (ios c ++ [IoWrite phys bufs]) c).
Proof.
  intros HI [HL HVV HC HK HT _] HW. split; try done.
  - by destruct HL.
  - intros i b d l Hb Hdd HLi Hs Hd Hl. cbn [ios set_ios]. rewrite list.last_snoc. split; [done|]. intros [= ->].
    destruct (HW i Hl) as (b' & Hb' & Hk & _ & _ & Ha). change (bds c !! i = Some b) in Hb. assert (b' = b) as -> by congruence.
    unfold bd_key in Hk. injection Hk as Hdd' Hblk. apply Ha. by rewrite <- Hblk.
  - intros i l Hi [Hp|Hp]; cbn [ios set_ios] in Hp; rewrite list.last_snoc in Hp; [done|]. injection Hp as ->.
    destruct (HW i Hi) as (b & Hb & _ & Hs & _). exists b. split; [done|]. split; [|done].
    by apply (busy_live H D c i b HI Hb); rewrite Hs.
Qed.

Lemma wp_write_request rest bufs S (Q : Z -> cache -> list env -> Prop) c o :
  Forall env_ok o -> Inv H D c -> moving H c (bufs ++ rest) -> Data V c -> Writing c (bufs ++ rest) -> Stored S c ->
  (forall sc c' o', Forall env_ok o' -> Inv H D c' -> moving H c' rest -> Data V c' -> Writing c' rest ->
     Stored (fun mb => S mb \/ exists i, i ∈ bufs /\ mb = blk i) c' -> Q sc c' o') ->
  wp (rtems_bdbuf_execute_transfer_request rest dd (mk_request false bufs)) Q c o.
Proof.
  intros Ho HI Hm HV HW HS HQ. unfold rtems_bdbuf_execute_transfer_request.
  destruct (the_disk dd phys H D g HD Hphys c HI) as (d & Hd & _ & _ & Hp & _).
  apply wp_bind. eapply wp_get_disk; [done|].
  apply wp_bind, wp_modify, wp_bind. unfold issue. cbn [rq_read rq_bufs]. rewrite Hp. set (c1 := set_ios _ c).
  assert (Inv H D c1) as HI1 by (by eapply Inv_similar, HI).
  assert (Data V c1) as HV1.
  { apply Data_issued; [done|done|]. eapply Writing_sub; [|exact HW]. intros i Hi. apply elem_of_app. by left. }
  assert (Writing c1 (bufs ++ rest)) as HW1.
  { intros i Hi. destruct (HW i Hi) as (b & Hb & Hk & Hs & _ & Ha). exists b. split_and!; try done.
    intros (l & Hl & _). cbn [ios set_ios c1] in Hl. by rewrite list.last_snoc in Hl. }
  apply (wp_yield_env H D sync_env); [done|done|]. intros e o' -> [(_ & Hst & Hdat) Hwr] Ho' HI2 Hk2.
  rewrite (Hst I) in *. set (c2 := ev_act e (bufs ++ rest) c1) in *.
  destruct (Hdat (bufs ++ rest) c1 HI1 (da_layout _ _ _ _ _ _ _ _ _ HV1)) as (HV2 & _). specialize (HV2 V HO HV1). fold c2 in HV2.
  destruct (Hwr (bufs ++ rest) c1 HI1 (da_layout _ _ _ _ _ _ _ _ _ HV1)) as (Hw1 & Hw2 & Hw3). fold c2 in Hw1, Hw2, Hw3.
  assert (moving H c2 (bufs ++ rest)) as Hm2 by (by eapply kept_moving).
  apply wp_bind, wp_modify. set (c2' := rtems_bdbuf_transfer_done _ c2).
  assert (Inv H D c2') as HI2' by (by eapply Inv_similar, HI2).
  set (S' := fun mb => S mb \/ exists i, i ∈ bufs /\ mb = blk i).
  assert (Finishing S' (bufs ++ rest) c2') as HF.
  { split; [by apply Data_done|]. split; [apply done_idle|]. split.
    - intros i Hi. destruct (HW1 i Hi) as (b & Hb & Hk & Hs & Hr & Ha). unfold bd_key in Hk. injection Hk as Hdd Hblk.
      destruct (Hw1 i b Hi Hb Hdd Hs Hr) as (b' & Hb' & Hk' & Hs' & Ha' & _). exists b'.
      split_and!; [done|rewrite Hk'; unfold bd_key; congruence|done| |].
      + intros (l & Hl & _). cbn [ios set_ios c2' rtems_bdbuf_transfer_done] in Hl. by rewrite list.last_snoc in Hl.
      + intros d' Hd'. change (area c2 b' = d'). rewrite Ha'. by apply Ha.
    - intros mb d' [Hmb|(i & Hi & ->)] Hd'; change (medium c2' mb) with (medium c2 mb) || change (medium c2' (blk i)) with (medium c2 (blk i)).
      + apply (Hw3 V mb d'); try done. by apply HS.
      + assert (i ∈ bufs ++ rest) as Hi2 by (apply elem_of_app; by left).
        destruct (HW1 i Hi2) as (b & Hb & Hk & Hs & Hr & Ha). unfold bd_key in Hk. injection Hk as Hdd Hblk.
        rewrite <- (Ha d' Hd'), <- Hblk. apply (Hw2 bufs i b); try done; [|by apply (Hst I)|rewrite Hblk; by eapply HO].
        unfold c1. cbn [ios set_ios]. by rewrite list.last_snoc. }
  apply wp_bind. eapply wp_leaves; [apply upd_disk_leaves|]. eapply Safe.wp_upd_disk_sim; [by eapply Safe.Inv_disk|done|].
  intros c3 Hs3 HB3. apply (Finishing_bookkeeping _ _ _ _ HB3) in HF.
  assert (moving H c3 (bufs ++ rest)) as Hm3 by (destruct Hs3 as (Eb & _); unfold moving; by rewrite Eb).
  destruct (extend H D c3 bufs rest ltac:(by eapply Inv_similar) Hm3) as (H' & HI3 & Hb & Hback).
  apply wp_bind. eapply wp_leaves; [apply (transfer_loop_leaves S')|].
  eapply (wp_transfer_loop D 0 bufs H'); [done|done|]. intros w c4 HI4 HF4.
  specialize (HF4 rest (proj1 Hm3) ltac:(intros i Hi; right; eauto) HF).
  assert (forall c5, similar c4 c5 -> bookkeeping c4 c5 -> wp (mret (if (0 =? 0) || (0 =? - ENOSYS) then 0 else - EIO)) Q c5 o') as Hend.
  { intros c5 Hs5 HB5. apply wp_ret. destruct (Hback c5) as [? ?]; [by eapply Inv_similar|].
    destruct (Finishing_bookkeeping _ _ _ _ HB5 HF4) as (HV5 & _ & HW5 & HS5). by apply HQ. }
  assert (forall c5, similar c4 c5 -> bookkeeping c4 c5 ->
    wp ((if w.2 : bool then rtems_bdbuf_wake BufferWaiters else mret tt) ;;
        mret (if (0 =? 0) || (0 =? - ENOSYS) then 0 else - EIO)) Q c5 o') as Hmid.
  { intros c5 Hs5 HB5. apply wp_bind.
    destruct w.2; [apply (wp_leaves _ _ _ _ _ (wake_leaves _)), wp_wake|by apply wp_ret, Hend].
    intros c6 Hs6 HB6. apply Hend; [by eapply similar_trans|by etransitivity]. }
  apply wp_bind. destruct w.1; [apply (wp_leaves _ _ _ _ _ (wake_leaves _)), wp_wake|by apply wp_ret, Hmid].
  intros c5 Hs5 HB5. by apply Hmid.
Qed.

(** ** A transfer *)

(** While the cache is not locked. *)
Lemma wp_yield_data l S (Q : Z -> cache -> list env -> Prop) c o :
  Forall env_ok o -> Inv H D c -> moving H c l -> Data V c -> Writing c l -> Stored S c ->
  (forall sc c' o', Forall env_ok o' -> Inv H D c' -> moving H c' l -> Data V c' -> Writing c' l -> Stored S c' -> Q sc c' o') ->
  wp (yield l) Q c o.
Proof.
  intros Ho HI Hm HV HW HS HQ. apply (wp_yield_env H D sync_env); [done|done|]. intros e o' -> [(_ & _ & Hdat) Hwr] Ho' HI' Hk.
  destruct (Hdat l c HI (da_layout _ _ _ _ _ _ _ _ _ HV)) as (HV' & _).
  destruct (Hwr l c HI (da_layout _ _ _ _ _ _ _ _ _ HV)) as (Hw1 & _ & Hw3).
  apply HQ; [done|done|by eapply kept_moving|by apply HV'| |].
  - intros i Hi. destruct (HW i Hi) as (b & Hb & Hk' & Hs & Hr & Ha). pose proof Hk' as Hk2.
    unfold bd_key in Hk2. injection Hk2 as Hdd Hblk.
    destruct (Hw1 i b Hi Hb Hdd Hs Hr) as (b' & Hb' & Hkb & Hs' & Ha' & Hr'). exists b'.
    split_and!; [done|congruence|done|done|]. intros d Hd. rewrite Ha'. by apply Ha.
  - intros mb d Hmb Hd. apply (Hw3 V mb d); try done. by apply HS.
Qed.

Lemma wp_write_loop cfg cont mbpb fuel : forall bds bufs lst S (Q : unit -> cache -> list env -> Prop) c o,
  Forall env_ok o -> Inv H D c -> moving H c (bufs ++ bds) -> Data V c -> Writing c (bufs ++ bds) -> Stored S c ->
  (2 * length bds + (if decide (bufs = []) then 0 else 1) < fuel)%nat -> (bds = [] -> bufs = []) ->
  (forall c' o', Forall env_ok o' -> Inv H D c' -> Data V c' ->
     Stored (fun mb => S mb \/ exists i, i ∈ bufs ++ bds /\ mb = blk i) c' -> Q tt c' o') ->
  wp (swapout_write_loop cfg fuel dd cont mbpb bds bufs lst) Q c o.
Proof.
  induction fuel as [|fuel IH]; intros bds bufs lst S Q c o Ho HI Hm HV HW HS Hf Hne HQ; [lia|]. simpl.
  destruct bds as [|i rest].
  { apply wp_ret, HQ; try done. rewrite Hne by done. intros mb d [Hmb|(i & Hi & _)] Hd; [by apply HS|by apply elem_of_nil in Hi]. }
  assert (i ∈ bufs ++ i :: rest) as Hin by (apply elem_of_app; right; constructor).
  destruct (proj2 Hm i Hin) as (_ & b & Hb & _). apply wp_bind. eapply wp_get_bd; [done|].
  assert (forall bufs' rest', bufs ++ i :: rest = bufs' ++ rest' -> (2 * length rest' < fuel)%nat ->
    wp (_ ← yield (bufs' ++ rest'); _ ← rtems_bdbuf_execute_transfer_request rest' dd (mk_request false bufs');
        swapout_write_loop cfg fuel dd cont mbpb rest' [] (if cont && negb (bool_decide (bufs = [])) &&
          negb (bd_block b =? u32 (lst + mbpb)) then lst else bd_block b)) Q c o) as Hwrite.
  { intros bufs' rest' E Hf'. rewrite E in Hm, HW. apply wp_bind. eapply wp_yield_data; [done|done|done|done|exact HW|exact HS|].
    intros _ c1 o1 Ho1 HI1 Hm1 HV1 HW1 HS1. apply wp_bind. eapply wp_write_request; try done.
    intros _ c2 o2 Ho2 HI2 Hm2 HV2 HW2 HS2. eapply IH; try done; [rewrite decide_True by done; lia|].
    intros c' o' Ho' HI' HV' HS'. apply HQ; try done. rewrite E. intros mb d Hmb. apply HS'.
    destruct Hmb as [?|(j & [?|?]%elem_of_app & ->)]; [by left; left|left; right; eauto|right; eauto]. }
  destruct (cont && negb (bool_decide (bufs = [])) && negb _) eqn:Eb.
  - cbn [orb]. apply Hwrite; [done|]. apply andb_prop in Eb as [Eb _]. apply andb_prop in Eb as [_ Eb].
    apply negb_true_iff, bool_decide_eq_false in Eb. rewrite decide_False in Hf by done. lia.
  - cbn [orb]. assert (bufs ++ i :: rest = (bufs ++ [i]) ++ rest) as E by (by rewrite <- app_assoc).
    destruct (bool_decide (rest = []) || _) eqn:Ew.
    + apply Hwrite; [done|]. cbn [length] in Hf. destruct (decide (bufs = [])); lia.
    + apply orb_false_iff in Ew as [Er _]. apply bool_decide_eq_false in Er. rewrite E in Hm, HW, HQ.
      eapply IH; try done. rewrite decide_False by (by destruct bufs). cbn [length] in Hf.
      destruct (decide (bufs = [])); lia.
Qed.

Lemma wp_write_transfer cfg t S (Q : unit -> cache -> list env -> Prop) c o :
  is_Some (D !! phys) -> t_dd t = dd ->
  Forall env_ok o -> Inv H D c -> moving H c (t_bds t) -> Data V c -> Writing c (t_bds t) -> Stored S c ->
  (forall c' o', Forall env_ok o' -> Inv H D c' -> Data V c' ->
     Stored (fun mb => S mb \/ exists i, i ∈ t_bds t /\ mb = blk i) c' -> Q tt c' o') ->
  wp (rtems_bdbuf_swapout_write cfg t) Q c o.
Proof.
  intros [gp Hgp] Htd Ho HI Hm HV HW HS HQ. unfold rtems_bdbuf_swapout_write.
  destruct (t_bds t) as [|i l] eqn:El.
  { apply wp_ret, HQ; try done. intros mb d [Hmb|(i & Hi & _)] Hd; [by apply HS|by apply elem_of_nil in Hi]. }
  rewrite Htd. destruct (the_disk dd phys H D g HD Hphys c HI) as (d & Hd & _ & _ & Hp & _).
  apply wp_bind. eapply wp_get_disk; [done|]. rewrite Hp. apply wp_bind.
  eapply Safe.wp_get_disk_sim; [eapply Safe.Inv_disk; [done|exact Hgp]|]. intros p _.
  apply wp_bind. eapply wp_write_loop; [done|done|exact Hm|done|exact HW|exact HS| |done|].
  - rewrite decide_True by done. lia.
  - intros c' o' Ho' HI' HV' HS'. destruct (t_syncing t && _); [|by apply wp_ret, HQ].
    apply wp_modify, HQ; [done|by eapply Inv_similar, HI'| |done]. destruct HV' as [HL HVV HC HK HT HP]. split; try done.
    + by destruct HL.
    + intros j bj d' l' Hb Hdd HLi Hs Hd' Hl. cbn [ios set_ios]. rewrite list.last_snoc. by split.
    + intros j l' _ [Hq|Hq]; cbn [ios set_ios] in Hq; by rewrite list.last_snoc in Hq.
Qed.
End Blocks.

(** ** The scan of a sync *)

(** The buffers of [L] have become TRANSFER, and the rest is bookkeeping. *)
Definition mark (L : list nat) (c : cache) : cache :=
  set_bds (imap (fun j b => if decide (j ∈ L) then set_bd_state TRANSFER b else b) (bds c)) c.
Definition scanned (L : list nat) (c c' : cache) : Prop := bookkeeping (mark L c) c'.

Lemma mark_lookup L c j :
  bds (mark L c) !! j = (fun b => if decide (j ∈ L) then set_bd_state TRANSFER b else b) <$> bds c !! j.
Proof. unfold mark. cbn [bds set_bds]. by rewrite list_lookup_imap. Qed.

Lemma scanned_nil c : scanned [] c c.
Proof.
  split_and!; try done. apply list_eq. intros j. rewrite !list_lookup_fmap, mark_lookup.
  by destruct (bds c !! j).
Qed.

Lemma scanned_bookkeeping L c c1 c2 : bookkeeping c c1 -> scanned L c1 c2 -> scanned L c c2.
Proof.
  intros (E1 & E2 & E3 & E4 & E5 & E6) HS. unfold scanned in *. etransitivity; [|exact HS]. split_and!; try done.
  apply list_eq. intros j. rewrite !list_lookup_fmap, !mark_lookup.
  apply (f_equal (fun l => l !! j)) in E1. rewrite !list_lookup_fmap in E1.
  destruct (bds c !! j) as [b|], (bds c1 !! j) as [b1|]; try done. cbn in E1 |- *. assert (bd_data b1 = bd_data b) as E by congruence. f_equal.
  apply bd_data_inv in E as (F1 & F2 & F3 & F4 & F5). unfold bd_data. by case_decide; simpl; congruence.
Qed.

Lemma scanned_marked i L c c1 c2 :
  marked i TRANSFER c c1 -> scanned L c1 c2 -> scanned (i :: L) c c2.
Proof.
  intros (b & Hb & HB) HS. eapply scanned_bookkeeping in HS; [|exact HB]. unfold scanned in *.
  etransitivity; [|exact HS]. split_and!; try done. apply list_eq. intros j. rewrite !list_lookup_fmap, !mark_lookup.
  cbn [bds set_bds]. destruct (decide (j = i)) as [->|Hne].
  - rewrite list_lookup_insert_eq by (by eapply lookup_lt_Some). rewrite Hb. simpl.
    rewrite (decide_True (P := i ∈ i :: L)) by constructor. by case_decide.
  - rewrite list_lookup_insert_ne by done. destruct (bds c !! j) as [bj|]; [|done]. simpl. f_equal.
    destruct (decide (j ∈ L)); [rewrite decide_True by (by constructor)|rewrite decide_False by (intros [|]%elem_of_cons; done)]; done.
Qed.

Lemma scanned_trans L1 L2 c c1 c2 : scanned L1 c c1 -> scanned L2 c1 c2 -> scanned (L1 ++ L2) c c2.
Proof.
  intros H1 H2. eapply scanned_bookkeeping in H2; [|exact H1]. unfold scanned in *. etransitivity; [|exact H2].
  split_and!; try done. apply list_eq. intros j. rewrite !list_lookup_fmap, !mark_lookup.
  destruct (bds c !! j) as [b|]; [|done]. simpl. f_equal.
  destruct (decide (j ∈ L1 ++ L2)) as [[?|?]%elem_of_app|Hn]; [rewrite (decide_True (P := j ∈ L1)) by done; by case_decide|rewrite (decide_True (P := j ∈ L2)) by done; by case_decide|].
  rewrite !decide_False; [done| |]; intros ?; apply Hn, elem_of_app; auto.
Qed.

Lemma scanned_lookup L c c' j b' :
  scanned L c c' -> bds c' !! j = Some b' ->
  exists b, bds c !! j = Some b /\ bd_data b' = bd_data (if decide (j ∈ L) then set_bd_state TRANSFER b else b).
Proof.
  intros HS Hb'. destruct (bookkeeping_lookup _ c' j b' HS Hb') as (b & Hb & Hd). rewrite mark_lookup in Hb.
  destruct (bds c !! j) as [b0|]; [|done]. injection Hb as <-. eauto.
Qed.

Lemma scanned_lookup_forw L c c' j b :
  scanned L c c' -> bds c !! j = Some b ->
  exists b', bds c' !! j = Some b' /\ bd_data b' = bd_data (if decide (j ∈ L) then set_bd_state TRANSFER b else b).
Proof.
  intros HS Hb. apply (bookkeeping_lookup c' (mark L c)); [by symmetry|]. by rewrite mark_lookup, Hb.
Qed.

(** The scan for the device of a sync takes all of its buffers. *)
Lemma scan_run sa upd delta nodes : D !! BDBUF_INVALID_DEV = None -> forall tr c o r c' o',
  modified_scan sa true upd delta nodes dd tr c o = Ret r c' o' -> NoDup nodes ->
  o' = o /\ r.1 = dd /\ exists L, (forall i, i ∈ L <-> i ∈ nodes /\ exists b, bds c !! i = Some b /\ bd_dd b = dd) /\
    (forall i, i ∈ r.2 <-> i ∈ L \/ i ∈ tr) /\ scanned L c c'.
Proof.
  intros Hinv. assert ((dd =? BDBUF_INVALID_DEV) = false) as Hdd by (apply Z.eqb_neq; congruence).
  induction nodes as [|i nodes IH]; intros tr c o r c' o' Hr Hn; cbn [modified_scan] in Hr.
  { injection Hr as <- <- <-. split; [done|]. split; [done|]. exists []. split_and!.
    - intros i. rewrite elem_of_nil. tauto.
    - intros i. rewrite elem_of_nil. simpl. tauto.
    - apply scanned_nil. }
  apply NoDup_cons in Hn as [Hi Hn].
  apply bind_inv in Hr as (cc & c1 & o1 & [= <- <- <-] & Hr).
  apply bind_inv in Hr as (b & c1 & o1 & (Hb & -> & ->)%get_bd_inv & Hr).
  apply bind_inv in Hr as ([] & c1 & o1 & H1 & Hr).
  match type of H1 with upd_bd i (set_bd_hold_timer ?h) _ _ = _ => set (hold := h) in * end.
  assert (leaves bookkeeping (upd_bd i (set_bd_hold_timer hold))) as Hlv.
  { apply upd_bd_leaves. intros c0 b0 Hb0. by apply bookkeeping_bd. }
  apply Hlv in H1 as [HB1 ->].
  assert (forall i0, (exists b0, bds c1 !! i0 = Some b0 /\ bd_dd b0 = dd) <-> (exists b0, bds c !! i0 = Some b0 /\ bd_dd b0 = dd)) as Hsame.
  { intros i0. split; intros (b0 & Hb0 & Ed).
    - destruct (bookkeeping_lookup _ _ i0 b0 HB1 Hb0) as (b1 & Hb1 & (E & _)%bd_data_inv). exists b1. split; [done|congruence].
    - destruct (bookkeeping_lookup _ _ i0 b0 (symmetry HB1) Hb0) as (b1 & Hb1 & (E & _)%bd_data_inv). exists b1. split; [done|congruence]. }
  rewrite Hdd in Hr.
  assert (bd_dd b <> dd -> modified_scan sa true upd delta nodes dd tr c1 o = Ret r c' o' ->
    o' = o /\ r.1 = dd /\ exists L, (forall i0, i0 ∈ L <-> i0 ∈ i :: nodes /\ exists b, bds c !! i0 = Some b /\ bd_dd b = dd) /\
    (forall i, i ∈ r.2 <-> i ∈ L \/ i ∈ tr) /\ scanned L c c') as Hskip.
  { intros Hne Hr'. destruct (IH tr c1 o r c' o' Hr' Hn) as (-> & E1 & L & HL & Hr2 & HS). split; [done|]. split; [done|].
    exists L. split_and!; [|done|by eapply scanned_bookkeeping]. intros i0. rewrite HL, Hsame, elem_of_cons.
    split; [tauto|]. intros [[->|?] (b0 & Hb0 & Ed)]; [|eauto 10]. assert (b0 = b) as -> by congruence. done. }
  destruct (Z.eqb_spec (bd_dd b) dd) as [Ed|Ed].
  2: { destruct (negb (hold =? 0)); by apply Hskip. }
  assert (hold = 0) as Hh.
  { unfold hold, hold_timer_scan. rewrite Ed, Z.eqb_refl. rewrite orb_true_r. done. }
  rewrite Hh in Hr. cbn [Z.eqb negb] in Hr.
  apply bind_inv in Hr as ([] & c2 & o2 & H2 & Hr). apply set_state_leaves in H2 as [HM2 ->].
  apply bind_inv in Hr as ([] & c3 & o3 & H3 & Hr). apply extract_leaves in H3 as [HB3 ->].
  apply bind_inv in Hr as (cc & c4 & o4 & [= <- <- <-] & Hr).
  destruct (IH _ _ _ _ _ _ Hr Hn) as (-> & E1 & L & HL & Hr2 & HS). split; [done|]. split; [done|].
  exists (i :: L). assert (marked i TRANSFER c c3) as HM.
  { eapply marked_bookkeeping; [|exact HB3]. by eapply bookkeeping_marked. }
  assert (forall i0, (exists b0, bds c3 !! i0 = Some b0 /\ bd_dd b0 = dd) <-> (exists b0, bds c !! i0 = Some b0 /\ bd_dd b0 = dd)) as Hsame3.
  { assert (scanned [i] c c3) as Hs3.
    { eapply scanned_marked; [exact HM|apply scanned_nil]. }
    intros i0. split; intros (b0 & Hb0 & Ed0).
    - destruct (scanned_lookup _ _ _ i0 b0 Hs3 Hb0) as (b1 & Hb1 & (E & _)%bd_data_inv). exists b1. split; [done|].
      case_decide; simpl in E; congruence.
    - destruct (scanned_lookup_forw _ _ _ i0 b0 Hs3 Hb0) as (b1 & Hb1 & (E & _)%bd_data_inv). exists b1. split; [done|].
      case_decide; simpl in E; congruence. }
  split_and!; [| |by eapply scanned_marked].
  - intros i0. rewrite elem_of_cons, HL, Hsame3, elem_of_cons. split; [intros [->|[? ?]]; eauto|]. intros [[->|?] ?]; eauto.
  - intros i0. rewrite Hr2, transfer_insert_perm, !elem_of_cons. tauto.
Qed.

Definition waiting (c : cache) (i : nat) : Prop :=
  exists b, bds c !! i = Some b /\ bd_dd b = dd /\ (bd_state b = MODIFIED \/ bd_state b = SYNC).

Lemma Data_mark L c : Inv H D c -> Data V c -> (forall i, i ∈ L -> waiting c i) -> Data V (mark L c).
Proof.
  intros HI [HL HVV HC HK HT HP] HW.
  assert (forall j b', bds (mark L c) !! j = Some b' -> exists b, bds c !! j = Some b /\
    b' = if decide (j ∈ L) then set_bd_state TRANSFER b else b) as Hback.
  { intros j b'. rewrite mark_lookup. destruct (bds c !! j) as [b|]; [|done]. simpl. intros [= <-]. eauto. }
  assert (forall l j, j ∈ l -> pending c l -> j ∉ L) as Hidle.
  { intros l j Hj Hp HjL. destruct (HP j l Hj Hp) as (b & Hb & _ & Hs), (HW j HjL) as (b2 & Hb2 & _ & Hs2).
    assert (b2 = b) as -> by congruence. rewrite Hs in Hs2. by destruct Hs2. }
  split.
  - destruct HL as [L1 L2 L3 L4]. split; [done| | |done].
    + intros j b' Hb'. destruct (Hback j b' Hb') as (b & Hb & ->). rewrite <- (L2 j b Hb). by case_decide.
    + unfold len in *. unfold mark. cbn [bds set_bds buffers]. by rewrite length_imap.
  - intros j b' d Hb' Hdd HLj Hs Hd. destruct (Hback j b' Hb') as (b & Hb & ->). case_decide; [done|]. by eapply (HVV j b).
  - intros j b' d Hb' Hdd HLj Hs Hd. destruct (Hback j b' Hb') as (b & Hb & ->). case_decide; [done|]. by eapply (HC j b).
  - intros mb d Hd. destruct (HK mb d Hd) as [|(j & b & Hb & Hk & HLj & Hs & Ha)]; [by left|]. right.
    exists j, (if decide (j ∈ L) then set_bd_state TRANSFER b else b).
    split; [by rewrite mark_lookup, Hb|]. by case_decide.
  - intros j b' d l Hb' Hdd HLj Hs Hd Hl. destruct (Hback j b' Hb') as (b & Hb & ->). case_decide as Hj.
    + split; intros Hio; exfalso; (eapply (Hidle l j); [done| |done]); [by left|by right].
    + by apply (HT j b d l).
  - intros j l Hj Hp. destruct (HP j l Hj Hp) as (b & Hb & HLj & Hs). exists b. split; [|done].
    rewrite mark_lookup, Hb. simpl. rewrite decide_False; [done|]. by apply (Hidle l).
Qed.

Lemma scanned_data L c c' :
  Inv H D c -> Data V c -> (forall i, i ∈ L -> waiting c i) -> scanned L c c' ->
  Data V c' /\ Writing (block_of c) c' L.
Proof.
  intros HI HV HW HS. split; [eapply Data_bookkeeping; [exact HS|by apply Data_mark]|].
  eapply Writing_bookkeeping; [exact HS|]. intros i Hi. destruct (HW i Hi) as (b & Hb & Hdd & Hs).
  assert (block_of c i = bd_block b) as Hblk by (unfold block_of; by rewrite Hb).
  exists (set_bd_state TRANSFER b). split_and!; try done.
  - rewrite mark_lookup, Hb. simpl. by rewrite decide_True.
  - unfold bd_key. simpl. by rewrite Hdd, Hblk.
  - intros (l & Hl & Hil). destruct (da_pending _ _ _ _ _ _ _ _ _ HV i l Hil (or_introl Hl)) as (b2 & Hb2 & _ & Hs2).
    assert (b2 = b) as -> by congruence. rewrite Hs2 in Hs. by destruct Hs.
  - intros d Hd. rewrite Hblk in Hd. change (area c b = d). eapply (da_valid _ _ _ _ _ _ _ _ _ HV i b); try done.
    + apply (busy_live H D c i b HI Hb). by destruct Hs as [-> | ->].
    + by destruct Hs as [-> | ->].
Qed.

Lemma in_chain k c i b : Inv H D c -> bds c !! i = Some b -> bd_state b = chain_state k -> i ∈ get_chain k c.
Proof.
  intros (_ & rho & HP & HR) Hb Hs. destruct (HR i b Hb) as [_ Hr]. destruct (liveb _ _ _).
  - destruct Hr as [[Er _] _]. rewrite Hs in Er. destruct k; apply HP; by rewrite Er.
  - destruct Hr as (_ & _ & Hid). rewrite Hs in Hid. by destruct k.
Qed.

Lemma chain_waiting k c i : Inv H D c -> i ∈ get_chain k c -> (exists b, bds c !! i = Some b /\ bd_dd b = dd) -> waiting c i.
Proof.
  intros HI Hi (b & Hb & Hdd). destruct (chain_in_state H D k c i HI Hi) as (b' & Hb' & Hs).
  assert (b' = b) as -> by congruence. exists b. split; [done|]. split; [done|]. destruct k; auto.
Qed.

Lemma wp_run {A} (m : M A) (Q Q' : A -> cache -> list env -> Prop) c o :
  wp m Q c o -> (forall a c' o', m c o = Ret a c' o' -> Q a c' o' -> Q' a c' o') -> wp m Q' c o.
Proof. unfold wp. destruct (m c o); auto. Qed.
Lemma run_wp {A} (m : M A) (Q : A -> cache -> list env -> Prop) c o a c' o' :
  m c o = Ret a c' o' -> wp m Q c o -> Q a c' o'.
Proof. unfold wp. by intros ->. Qed.

Lemma processing_run k upd delta tr c o r c' o' :
  D !! BDBUF_INVALID_DEV = None -> Inv H D c ->
  rtems_bdbuf_swapout_modified_processing dd k tr true upd delta c o = Ret r c' o' ->
  Inv H D c' /\ o' = o /\ r.1 = dd /\ exists L,
    (forall i, i ∈ L <-> i ∈ get_chain k c /\ exists b, bds c !! i = Some b /\ bd_dd b = dd) /\
    (forall i, i ∈ r.2 <-> i ∈ L \/ i ∈ tr) /\ scanned L c c'.
Proof.
  intros Hinv HI Hr. split; [by destruct (run_wp _ _ _ _ _ _ _ Hr (swapout_scan_inv H D k dd tr true upd delta c o HI))|].
  unfold rtems_bdbuf_swapout_modified_processing in Hr. apply bind_inv in Hr as (cc & c1 & o1 & [= <- <- <-] & Hr).
  eapply scan_run; [done|exact Hr|by eapply chain_NoDup].
Qed.

(** Both scans of a sync: every buffer of the device that is to be written is taken. *)
Lemma sync_scans upd delta c o :
  D !! BDBUF_INVALID_DEV = None -> Inv H D c -> Data V c ->
  wp (r ← rtems_bdbuf_swapout_modified_processing dd SyncChain [] true false delta;
      rtems_bdbuf_swapout_modified_processing r.1 ModifiedChain r.2 true upd delta)
    (fun r c' o' => o' = o /\ r.1 = dd /\ Inv H D c' /\ moving H c' r.2 /\ Data V c' /\ Writing (block_of c) c' r.2 /\
       forall j b', bds c' !! j = Some b' -> bd_dd b' = dd ->
         (bd_state b' = TRANSFER /\ j ∈ r.2) \/
         (bd_state b' <> MODIFIED /\ bd_state b' <> SYNC /\ exists b, bds c !! j = Some b /\ bd_dd b = dd /\ bd_state b = bd_state b')) c o.
Proof.
  intros Hinv HI HV. eapply wp_run; [by apply (both_scans H D dd true upd delta c o)|].
  intros r c2 o2 Hrun (-> & HI2 & Hm & _). split; [done|].
  apply bind_inv in Hrun as (r1 & c1 & o1 & H1 & H2).
  destruct (processing_run _ _ _ _ _ _ _ _ _ Hinv HI H1) as (HI1 & -> & Er1 & L1 & HL1 & Hr1 & HS1). rewrite Er1 in H2.
  destruct (processing_run _ _ _ _ _ _ _ _ _ Hinv HI1 H2) as (_ & _ & Er2 & L2 & HL2 & Hr2 & HS2).
  pose proof (scanned_trans _ _ _ _ _ HS1 HS2) as HS.
  assert (forall i, i ∈ r.2 <-> i ∈ L1 ++ L2) as Hin.
  { intros i. rewrite Hr2, Hr1, elem_of_app. pose proof (not_elem_of_nil i). tauto. }
  (* what the second scan takes was there before the first *)
  assert (forall j b1, bds c1 !! j = Some b1 -> bd_state b1 <> TRANSFER ->
    exists b, bds c !! j = Some b /\ bd_dd b = bd_dd b1 /\ bd_state b = bd_state b1) as Hsame.
  { intros j b1 Hb1 Hs. destruct (scanned_lookup _ _ _ j b1 HS1 Hb1) as (b & Hb & Hd). exists b. split; [done|].
    apply bd_data_inv in Hd as (E1 & _ & _ & E4 & _). case_decide; simpl in E1, E4; [done|]. done. }
  assert (forall i, i ∈ L1 ++ L2 -> waiting c i) as HW.
  { intros i [Hi|Hi]%elem_of_app.
    - apply HL1 in Hi as [? ?]. by apply (chain_waiting SyncChain).
    - apply HL2 in Hi as [Hi Hb]. destruct (chain_waiting ModifiedChain c1 i HI1 Hi Hb) as (b1 & Hb1 & Hdd & Hs).
      destruct (Hsame i b1 Hb1) as (b & Hb' & E1 & E2); [by intros E; rewrite E in Hs; destruct Hs|].
      exists b. by rewrite E1, E2. }
  destruct (scanned_data _ _ _ HI HV HW HS) as [HV2 HWr]. split; [done|]. split; [done|]. split; [done|]. split; [done|].
  split; [eapply Writing_sub; [|exact HWr]; intros i; by apply Hin|].
  intros j b' Hb' Hdd. destruct (scanned_lookup _ _ _ j b' HS Hb') as (b & Hb & (E1 & _ & _ & E4 & _)%bd_data_inv).
  destruct (decide (j ∈ L1 ++ L2)) as [Hj|Hj]; simpl in E1, E4; [left; split; [done|by apply Hin]|]. right.
  rewrite E4. split_and!; [| |exists b; split_and!; [done|congruence|done]]; intros Hs; apply Hj, elem_of_app.
  - right. apply HL2. assert (j ∉ L1) as Hj1 by (intros ?; apply Hj, elem_of_app; by left).
    destruct (scanned_lookup_forw _ _ _ j b HS1 Hb) as (b1 & Hb1 & Hd1). rewrite decide_False in Hd1 by done.
    apply bd_data_inv in Hd1 as (F1 & _ & _ & F4 & _). split; [|exists b1; split; [done|congruence]].
    apply (in_chain ModifiedChain c1 j b1); [done|done|]. by rewrite F4.
  - left. apply HL1. split; [|exists b; split; [done|congruence]]. by apply (in_chain SyncChain c j b).
Qed.

Lemma moving_similar c c' l : bds c' = bds c -> moving H c l -> moving H c' l.
Proof. intros E Hm. unfold moving. by rewrite E. Qed.

Lemma wp_bind_assoc {A B C} (m : M A) (k1 : A -> M B) (k2 : B -> M C) Q c o :
  wp (m ≫= k1) (fun b c o => wp (k2 b) Q c o) c o -> wp (m ≫= fun a => k1 a ≫= k2) Q c o.
Proof. unfold wp, mbind, M_bind. destruct (m c o) as [a c1 o1| | | |]; try done. by destruct (k1 a c1 o1). Qed.

(** A turn of the swapout task for a sync of the device. *)
Lemma wp_sync_processing cfg delta upd c o :
  D !! BDBUF_INVALID_DEV = None -> is_Some (D !! phys) ->
  Forall env_ok o -> Inv H D c -> Data V c -> sync_active c = true -> sync_device c = dd ->
  (forall i b, bds c !! i = Some b -> bd_dd b = dd -> bd_state b <> TRANSFER /\ bd_state b <> ACCESS_MODIFIED) ->
  wp (rtems_bdbuf_swapout_processing cfg delta upd)
    (fun _ c' o' => Inv H D c' /\ Forall env_ok o' /\ Data V c' /\
       forall mb d, V !! mb = Some d -> medium c' mb = d) c o.
Proof.
  intros Hinv Hph Ho HI HV Hact Hdev Hfree. unfold rtems_bdbuf_swapout_processing.
  apply wp_bind, wp_get_cache. rewrite Hact, Hdev. apply wp_bind, wp_ret.
  pose proof (sync_scans upd delta c o Hinv HI HV) as Hscan.
  assert (forall (r : Z * list nat) c1, r.1 = dd -> Inv H D c1 -> moving H c1 r.2 -> Data V c1 -> Writing (block_of c) c1 r.2 ->
    Stored (fun mb => ~ exists i, i ∈ r.2 /\ mb = block_of c i) c1 ->
    wp (let t := mk_transfer r.2 r.1 true in
        store_transfer None t ;;
        transfered_buffers ←
          (match t_bds t with
           | [] => mret false
           | _ => (rtems_bdbuf_swapout_write cfg t ;; modify (set_swapout_transfer (set_t_bds [] t))) ;; mret true
           end);
        (if true && negb transfered_buffers then
           _ ← yield [];
           c ← get_cache;
           modify (set_sync_active false) ;;
           modify (set_sync_requester None) ;;
           match sync_requester c with
           | Some r => modify (fun c => set_posted (posted c ++ [r]) c)
           | None => mret tt
           end
         else mret tt) ;;
        mret transfered_buffers)
      (fun _ c' o' => Inv H D c' /\ Forall env_ok o' /\ Data V c' /\
         forall mb d, V !! mb = Some d -> medium c' mb = d) c1 o) as Hrest.
  { intros r c1 Er HI1 Hm1 HV1 HW1 HS1. cbv zeta. set (t := mk_transfer r.2 r.1 true). apply wp_bind. unfold store_transfer. apply wp_modify. set (c2 := set_swapout_transfer t c1).
    assert (bookkeeping c1 c2) as HB2 by done. assert (Inv H D c2) as HI2 by (by eapply Inv_similar, HI1).
    pose proof (Data_bookkeeping _ _ _ _ _ _ _ _ _ _ HB2 HV1) as HV2. apply (Writing_bookkeeping _ _ _ _ HB2) in HW1 as HW2.
    apply (Stored_bookkeeping _ _ _ HB2) in HS1 as HS2.
    apply wp_bind. cbn [t_bds t]. destruct (r.2) as [|i l] eqn:El.
    - apply wp_ret. cbn [andb negb]. apply wp_bind, wp_bind.
      eapply (wp_yield_data (block_of c) []); [done|done|split; [constructor|intros i Hi; by apply elem_of_nil in Hi]|done|intros i Hi; by apply elem_of_nil in Hi|exact HS2|].
      intros _ c3 o3 Ho3 HI3 _ HV3 _ HS3. apply wp_bind, wp_get_cache, wp_bind, wp_modify, wp_bind, wp_modify.
      assert (forall c4, similar c3 c4 -> bookkeeping c3 c4 -> wp (mret false) (fun _ c' o' => Inv H D c' /\ Forall env_ok o' /\ Data V c' /\
         forall mb d, V !! mb = Some d -> medium c' mb = d) c4 o3) as Hend.
      { intros c4 Hs4 HB4. apply wp_ret. split; [by eapply Inv_similar, HI3|]. split; [done|]. split; [by eapply Data_bookkeeping|].
        intros mb d Hd. rewrite (bookkeeping_medium phys bsz mbs c3 c4 mb HB4). apply HS3; [|done].
        intros (j & Hj & _). by apply elem_of_nil in Hj. }
      destruct (sync_requester c3); [apply wp_modify|apply wp_ret]; by apply Hend.
    - apply wp_bind, wp_bind.
      eapply (wp_write_transfer (block_of c)); [exact Hph|exact Er|exact Ho|exact HI2|by eapply moving_similar, Hm1|exact HV2|exact HW2|exact HS2|].
      intros c3 o3 Ho3 HI3 HV3 HS3. apply wp_modify, wp_ret. cbn [andb negb]. apply wp_bind, wp_ret, wp_ret.
      set (c4 := set_swapout_transfer _ c3). assert (bookkeeping c3 c4) as HB4 by done.
      split; [by eapply Inv_similar, HI3|]. split; [done|]. split; [by eapply Data_bookkeeping|].
      intros mb d Hd. apply HS3; [|done]. destruct (decide (Exists (fun i => mb = block_of c i) (i :: l))) as [He|Hne].
      + apply Exists_exists in He as (j & Hj & ->). right. by exists j.
      + left. intros (j & Hj & ->). apply Hne, Exists_exists. by exists j. }
  apply wp_bind_assoc. eapply wp_mono; [exact Hscan|]. intros r c1 o1 (-> & Er & HI1 & Hm1 & HV1 & HW1 & Hst).
  apply Hrest; try done. intros mb d Hno Hd. destruct HV1 as [_ _ _ HK _ _].
  destruct (HK mb d Hd) as [|(j & b & Hb & Hk & _ & Hs & _)]; [done|]. exfalso.
  unfold bd_key in Hk. injection Hk as Hdd Hblk.
  destruct (Hst j b Hb Hdd) as [[_ Hj]|(N1 & N2 & b0 & Hb0 & Hdd0 & E0)].
  - apply Hno. exists j. split; [done|]. destruct (HW1 j Hj) as (b' & Hb' & Hk & _). unfold bd_key in Hk. congruence.
  - destruct (Hfree j b0 Hb0 Hdd0) as [N3 N4]. rewrite E0 in N3, N4. by destruct (bd_state b).
Qed.
End Sync.

(** ** The virtual disk stores what it is given *)

Section Vdisk.
Context (cfg : bdbuf_config) (vdd bm max msize : Z) (H : gmap nat (hold * (Z * Z))) (D : gmap Z geom) (g : geom).
Context (Hdev : Blkdev.device D vdd vdd Blkdev.FLASH_PGSZ bm max g).
Context (Hplain : forall b, 0 <= b < ge_count g -> mb_of g b = b).
Context (Hmsize : ge_count g * Blkdev.FLASH_PGSZ <= msize < 2 ^ 32).

Lemma busy_sole i c b : Inv H D c -> bds c !! i = Some b -> idle (bd_state b) = false -> sole i c.
Proof.
  intros HI Hb Hs. pose proof (busy_live H D c i b HI Hb Hs) as HL.
  destruct (focus_open H D c i b HI Hb HL) as (r & HF & [-> _] & _). eapply focus_sole; [exact HF|].
  by destruct (bd_state b).
Qed.

Lemma vdisk_writes_ok :
  writes_ok vdd vdd Blkdev.FLASH_PGSZ Blkdev.FLASH_PGSZ bm max msize H D (Blkdev.is_block g) (Blkdev.vdisk_env cfg vdd g).
Proof.
  intros claims c HI HL. cbn [ev_act Blkdev.vdisk_env].
  pose proof (Blkdev.vdisk_turn_ok cfg vdd bm max msize H D g Hdev Hmsize claims c HI HL) as Hturn.
  destruct (Blkdev.vdisk_turn_bds cfg vdd g claims c) as [Ebds _]. split; [|split].
  - intros i b Hi Hb Hdd Hs Hr. exists b. rewrite Ebds. split; [done|]. split; [done|]. split; [done|].
    destruct Hturn as [_ _|mem Hio _ _|l disk disk' _ _ _ _]; [done| |done]. destruct Hr. exists claims. done.
  - intros l i b Hio Hst Hil Hi Hb Hdd Hs (blk & Hblk & Eblk). rewrite Hplain in Eblk by done.
    destruct Hturn as [_ Hno|mem Hio' _ _|l' disk disk' Hio' Hdisk Hlen Hall]; [by destruct (Hno l)|congruence|].
    assert (l' = l) as -> by congruence. rewrite Blkdev.medium_write, Eblk.
    assert (is_Some (Blkdev.sg_of vdd g c i)) as Hsg.
    { unfold Blkdev.sg_of. rewrite Hb. cbn [mbind option_bind].
      rewrite !bool_decide_eq_true_2, (proj2 (Z.leb_le _ _)), (proj2 (Z.ltb_lt _ _)) by (try done; lia). by eexists. }
    destruct (Hall blk Hblk) as [(j & bj & Hj & [sg Hsgj] & Hbj & Ej & ->)|[Hno _]]; [|by destruct (Hno i b Hil Hsg Hb)].
    apply (Blkdev.sg_of_Some) in Hsgj as (bj' & Hbj' & Hddj & Hsj & _). assert (bj' = bj) as -> by congruence.
    assert (j = i) as ->; [|congruence].
    eapply (busy_sole i c b HI Hb ltac:(by rewrite Hs) j b bj); try done; [by apply (busy_live H D c j bj HI Hbj); rewrite Hsj|by rewrite Hsj|].
    unfold bd_key. congruence.
  - intros W mb d HO HV Hd Hm. destruct Hturn as [_ _|mem _ _ _|l disk disk' Hio Hdisk _ Hall]; [done|done|].
    by eapply (Blkdev.write_medium vdd bm max msize H D g).
Qed.

Lemma vdisk_sync_env :
  env_ok H D (sync_env vdd vdd Blkdev.FLASH_PGSZ Blkdev.FLASH_PGSZ bm max msize H D (Blkdev.is_block g)) (Blkdev.vdisk_env cfg vdd g).
Proof.
  destruct (Blkdev.vdisk_env_ok cfg vdd bm max msize H D g Hdev Hplain Hmsize) as [HX HR].
  split; [split; [exact HX|apply vdisk_writes_ok]|exact HR].
Qed.
End Vdisk.

(** C5: a sync reaches the medium. When the cache and the medium together hold
    the array [A], and no buffer of the device is being written (TRANSFER) or
    held by a thread that has changed it (ACCESS_MODIFIED) at the start, the
    turn of the swapout task that serves a sync of the device ends with every
    block of [A] on the medium, whatever the other threads do meanwhile within
    the rules of [sync_env] (they keep the cache consistent and change no
    contents of the device), and the cache still holds [A]. *)
Theorem sync_reaches_medium (cfg : bdbuf_config) (D : gmap Z geom) (H : gmap nat (hold * (Z * Z)))
    (dd phys bsz mbs bm max msize : Z) (g : geom) (A : list Z) (delta : Z) (upd : bool) (c : cache) (o : list env) :
  Blkdev.device D dd phys bsz bm max g -> D !! BDBUF_INVALID_DEV = None -> is_Some (D !! phys) ->
  Forall (env_ok H D (sync_env dd phys bsz mbs bm max msize H D (Blkdev.is_block g))) o ->
  Inv H D c -> Data dd phys bsz mbs bm max msize (Blkdev.blocks bsz g A) c ->
  sync_active c = true -> sync_device c = dd ->
  (forall i b, bds c !! i = Some b -> bd_dd b = dd -> bd_state b <> TRANSFER /\ bd_state b <> ACCESS_MODIFIED) ->
  wp (rtems_bdbuf_swapout_processing cfg delta upd)
    (fun _ c' o' => Inv H D c' /\ Data dd phys bsz mbs bm max msize (Blkdev.blocks bsz g A) c' /\
       forall b, 0 <= b < ge_count g -> medium phys bsz mbs c' (mb_of g b) = slice A (b * bsz) bsz) c o.
Proof.
  intros [HD Hp Hc [Hb Hs] [Hbm Hf] Hi] Hinv Hph Ho HI HV Ha Hdev Hfree.
  eapply wp_mono; [apply (wp_sync_processing dd phys bsz mbs bm max msize H D g HD Hp (Blkdev.is_block g) (Blkdev.blocks bsz g A)); try done|].
  - intros mb d Hd. apply Blkdev.blocks_spec in Hd as (b & Hb' & -> & _); [|done]. by exists b.
  - intros r c' o' (HI' & _ & HV' & HM). split; [done|]. split; [done|]. intros b Hb'. apply HM.
    apply Blkdev.blocks_spec; [done|]. by exists b.
Qed.

(** ** Witness: bytes written to a small disk reach its medium *)

Definition disk_s : disk :=
  mk_disk 7 0 0 4 512 512 4 1 0 1 stats_0 false RTEMS_DISK_READ_AHEAD_NO_TRIGGER 0 0.
Definition geom_s : geom := disk_geom disk_s.
Definition geoms_s : gmap Z geom := {[7 := geom_s]}.
Definition zeros_s : list Z := replicate 2048 0.
Definition cache_s : cache := init_cache cfg_1 (replicate 4096 0) {[7 := zeros_s]} {[7 := disk_s]}.
Definition env_s : env := Blkdev.vdisk_env cfg_1 7 geom_s.
Definition calls_s : list Blkdev.call := [Blkdev.BWrite [1; 2; 3] 510].
Definition bytes_s : list Z := splice zeros_s 510 [1; 2; 3].

(** The cache after the write, when the sync has been asked for. *)
Definition written_s : cache :=
  match Blkdev.perform_all cfg_1 7 calls_s cache_s [env_s; env_s] with
  | Ret _ c _ => set_sync_active true (set_sync_device 7 c)
  | _ => cache_s
  end.

Lemma mb_of_s b : 0 <= b < ge_count geom_s -> mb_of geom_s b = b.
Proof.
  intros Hb. change (ge_count geom_s) with 4 in Hb.
  assert (b = 0 \/ b = 1 \/ b = 2 \/ b = 3) as [->|[->|[->| ->]]] by lia; vm_compute; reflexivity.
Qed.

Lemma device_s : Blkdev.device geoms_s 7 7 512 512 2 geom_s.
Proof.
  split; try reflexivity.
  - split; reflexivity.
  - split; [reflexivity|]. by vm_compute.
  - intros b b' Hb Hb'. by rewrite !mb_of_s.
Qed.

Lemma cache_s_inv : Inv ∅ geoms_s cache_s.
Proof.
  pose proof (init_inv cfg_1 (replicate 4096 0) {[7 := zeros_s]} {[7 := disk_s]} wf_cfg_1) as Hi.
  rewrite map_fmap_singleton in Hi. apply Hi. apply map_Forall_singleton. right.
  split_and!; [reflexivity|discriminate|reflexivity|intros _; discriminate].
Qed.

Lemma cache_s_data : Data 7 7 512 512 512 2 2048 (Blkdev.blocks 512 geom_s zeros_s) cache_s.
Proof.
  pose proof (Blkdev.Data_init (Blkdev.blocks 512 geom_s zeros_s) cfg_1 (replicate 4096 0) {[7 := zeros_s]}
    {[7 := disk_s]} 7 7 512 512 wf_cfg_1) as Hd.
  rewrite lookup_singleton_eq in Hd. apply Hd; [by vm_compute|].
  intros mb d. rewrite Blkdev.blocks_spec by (apply device_s). intros (b & Hb & -> & ->). by rewrite mb_of_s.
Qed.

Lemma env_s_ok :
  env_ok ∅ geoms_s (sync_env 7 7 512 512 512 2 2048 ∅ geoms_s (Blkdev.is_block geom_s)) env_s.
Proof. apply vdisk_sync_env; [apply device_s|apply mb_of_s|]. by vm_compute. Qed.

Lemma data_env_s :
  env_ok ∅ geoms_s (data_env 7 7 512 512 512 2 2048 ∅ geoms_s True (Blkdev.is_block geom_s)) env_s.
Proof. apply Blkdev.vdisk_env_ok; [apply device_s|apply mb_of_s|]. by vm_compute. Qed.

Lemma written_s_ok :
  Inv ∅ geoms_s written_s /\ Data 7 7 512 512 512 2 2048 (Blkdev.blocks 512 geom_s bytes_s) written_s.
Proof.
  assert (wp (Blkdev.perform_all cfg_1 7 calls_s)
    (fun rs c' _ => Inv ∅ geoms_s c' /\ exists A', Data 7 7 512 512 512 2 2048 (Blkdev.blocks 512 geom_s A') c' /\
       Blkdev.served_all True 2048 zeros_s calls_s rs A') cache_s [env_s; env_s]) as Hrun.
  { destruct device_s as [HD Hp Hc [Hb Hs] [Hbm Hf] Hi]. eapply wp_mono.
    - apply (Blkdev.perform_all_ok 7 7 512 512 512 2 2048 ∅ geoms_s geom_s HD Hp Hc Hb Hs Hbm Hf Hi True cfg_1 calls_s
        zeros_s cache_s [env_s; env_s]); [by vm_compute| | |apply cache_s_inv|apply cache_s_data].
      + constructor; [|constructor]. split; cbn; repeat split; try discriminate; lia.
      + repeat (constructor; [apply data_env_s|]). constructor.
    - intros rs c' o' (HI' & _ & HA). by split. }
  unfold wp in Hrun. unfold written_s.
  destruct (Blkdev.perform_all cfg_1 7 calls_s cache_s [env_s; env_s]) as [rs c1 o1| | | |] eqn:Erun.
  2-5: exfalso; revert Erun; by vm_compute.
  assert (rs = [(3, 0, 513, [])]) as ->.
  { change (match Ret rs c1 o1 with Ret r _ _ => r = [(3, 0, 513, [])] | _ => True end). rewrite <- Erun.
    vm_compute. reflexivity. }
  clear Erun. destruct Hrun as (HI & A' & HV & Hs). inversion Hs as [|? ? ? ? ? A1 ? Hone Hnone]; subst.
  inversion Hnone; subst. inversion Hone; subst. clear Hs Hone Hnone. split.
  - eapply Inv_similar, HI. by split_and!.
  - eapply Data_bookkeeping, HV. by split_and!.
Qed.

Lemma sync_reaches_medium_witness :
  wp (rtems_bdbuf_swapout_processing cfg_1 1000 true)
    (fun _ c' o' => Inv ∅ geoms_s c' /\ Data 7 7 512 512 512 2 2048 (Blkdev.blocks 512 geom_s bytes_s) c' /\
       forall b, 0 <= b < ge_count geom_s -> medium 7 512 512 c' (mb_of geom_s b) = slice bytes_s (b * 512) 512)
    written_s [env_s; env_s].
Proof.
  refine (sync_reaches_medium cfg_1 geoms_s ∅ 7 7 512 512 512 2 2048 geom_s bytes_s 1000 true written_s [env_s; env_s]
    device_s _ _ _ (proj1 written_s_ok) (proj2 written_s_ok) _ _ _).
  - reflexivity.
  - eexists. reflexivity.
  - repeat (constructor; [apply env_s_ok|]). constructor.
  - vm_compute. reflexivity.
  - vm_compute. reflexivity.
  - intros i b Hi _.
    assert (Forall (fun b => bd_state b <> TRANSFER /\ bd_state b <> ACCESS_MODIFIED) (bds written_s)) as Hall.
    { apply (bool_decide_unpack (Forall _ _)). vm_compute. reflexivity. }
    rewrite Forall_lookup in Hall. by apply (Hall i).
Defined.
End Sync.
