(* ===== verification/Disk.v ===== *)
(** * dev/disk.c : the disk devices

    The list of registered devices, and the bounds checks in front of a
    device's driver.  A driver is code outside of the repository: it is the
    class [Driver], with the documented behaviour of a NOR flash in the class
    [Flash]; [nor_flash] is a concrete one, [faulty_flash] one whose reads
    fail. *)
From Stdlib Require Import ZArith Lia Bool String.
From stdpp Require Import base list numbers gmap.
From S2P Require Import Prelude.

Module Disk.

(** ** Drivers *)

(** The functions of [struct disk_device] on the device handle [dev]; [F] is
    the state of all the chips.  [read] gives the status and the bytes put in
    the buffer. *)
Class Driver (F : Type) := {
  drv_read : Z -> F -> Z -> Z -> Z * list Z;
  drv_write : Z -> F -> list Z -> Z -> Z * F;
  drv_erase : Z -> F -> Z -> Z -> Z * F }.

Definition bytes (l : list Z) : Prop := Forall (fun b => 0 <= b < 256) l.

(** What a flash chip does within its bounds: a read does not fail and gives
    the contents, an erase sets every bit, and a write to erased bytes puts
    the data there (what it leaves in other bytes is the chip's affair). *)
Class Flash (F : Type) `{Driver F} := {
  fl_content : Z -> F -> list Z;
  fl_unit : Z -> Z;  (* what can be erased: multiples of it *)
  fl_read : forall d f size ofs,
    0 <= ofs -> 0 <= size -> ofs + size <= len (fl_content d f) ->
    exists r, 0 <= r /\ drv_read d f size ofs = (r, slice (fl_content d f) ofs size);
  fl_write : forall d f src ofs,
    0 <= ofs -> ofs + len src <= len (fl_content d f) -> bytes src ->
    exists r f' new, 0 <= r /\ drv_write d f src ofs = (r, f') /\
      fl_content d f' = splice (fl_content d f) ofs new /\ len new = len src /\
      (slice (fl_content d f) ofs (len src) = replicate (length src) 255 -> new = src) /\
      forall d', d' <> d -> fl_content d' f' = fl_content d' f;
  fl_erase : forall d f ofs size,
    0 <= ofs -> 0 <= size -> ofs + size <= len (fl_content d f) ->
    (fl_unit d | ofs) -> (fl_unit d | size) ->
    exists f', drv_erase d f ofs size = (0, f') /\
      fl_content d f' = splice (fl_content d f) ofs (replicate (Z.to_nat size) 255) /\
      forall d', d' <> d -> fl_content d' f' = fl_content d' f }.

(** ** The devices *)

(** [struct disk_device]; a function pointer is there or NULL, and so is the
    handle. *)
Record disk_device := mk_disk_device {
  dd_name : string;
  dd_dev : option Z;
  dd_addr : Z;
  dd_len : Z;
  dd_blk_size : Z;
  dd_get_name : bool;
  dd_read : bool;
  dd_write : bool;
  dd_erase : bool;
  dd_ioctl : option (Z -> Z) (* the status of the driver's command *)
}.

(** The handle given to the driver; [disk_device_register] refuses NULL. *)
Definition handle (dd : disk_device) : Z := default 0 (dd_dev dd).

Definition disk_get_name (dd : disk_device) : outcome string :=
  assert* dd_get_name dd in Done (dd_name dd).

(** [disk_list], the last one registered first; a pointer to a device is
    its index from the end of the list. *)
Fixpoint disk_device_open (name : string) (disk_list : list disk_device) : outcome (Z * option disk_device) :=
  match disk_list with
  | [] => Done (- ENODEV, None)
  | pd :: l =>
      let* n := disk_get_name pd in
      if String.eqb n name then Done (0, Some pd) else disk_device_open name l
  end.

Definition disk_device_close (dd : disk_device) : Z := 0.

Section Ops.
Context {F : Type} `{Driver F}.

(** [offset + size > dd->len] in [size_t] *)
Definition out_of_bound (dd : disk_device) (offset size : Z) : bool := u64 (offset + size) >? dd_len dd.

(** [buf] is the caller's memory from the pointer on, [None] is NULL. *)
Definition disk_device_write (dd : disk_device) (f : F) (buf : option (list Z)) (size offset : Z)
    : outcome (Z * F) :=
  assert* dd_write dd in
  match buf with
  | None => Done (- EINVAL, f)
  | Some buf =>
      if size =? 0 then Done (0, f)
      else if out_of_bound dd offset size then Done (- EINVAL, f)
      else let* src := mem_read buf 0 size in Done (drv_write (handle dd) f src offset)
  end.

(** The bytes are those put in the buffer, if any. *)
Definition disk_device_read (dd : disk_device) (f : F) (buf : bool) (size offset : Z)
    : outcome (Z * list Z) :=
  assert* dd_read dd in
  if negb buf then Done (- EINVAL, [])
  else if size =? 0 then Done (0, [])
  else if out_of_bound dd offset size then Done (- EINVAL, [])
  else Done (drv_read (handle dd) f size offset).

Definition disk_device_erase (dd : disk_device) (f : F) (offset size : Z) : outcome (Z * F) :=
  assert* dd_erase dd in
  if negb (Z.land offset (dd_blk_size dd - 1) =? 0) then Done (- EINVAL, f)
  else if negb (Z.land size (dd_blk_size dd - 1) =? 0) then Done (- EINVAL, f)
  else if size =? 0 then Done (0, f)
  else if out_of_bound dd offset size then Done (- EINVAL, f)
  else Done (drv_erase (handle dd) f offset size).

Definition DISK_GETBLKSIZE : Z := 16.
Definition DISK_GETCAPACITY : Z := 17.

(** The status and what is stored through [arg]. *)
Definition disk_device_ioctl (dd : disk_device) (cmd : Z) (arg : bool) : outcome (Z * option Z) :=
  match dd_ioctl dd with
  | None => Assert
  | Some ioctl =>
      if cmd =? DISK_GETBLKSIZE then assert* arg in Done (0, Some (dd_blk_size dd))
      else if cmd =? DISK_GETCAPACITY then assert* arg in Done (0, Some (dd_len dd))
      else Done (ioctl cmd, None)
  end.

(** The checks of [disk_device_register]. *)
Definition disk_device_valid (dd : disk_device) : bool :=
  match dd_dev dd with
  | None => false
  | Some _ =>
      negb (dd_len dd =? 0) && (Z.land (dd_blk_size dd) (u64 (dd_blk_size dd - 1)) =? 0) &&
      dd_read dd && dd_write dd && dd_erase dd
  end.

(** ** Bounds *)

Lemma out_of_bound_spec dd offset size :
  0 <= offset -> 0 <= size -> offset + size < 2 ^ 64 ->
  out_of_bound dd offset size = (offset + size >? dd_len dd).
Proof. intros. unfold out_of_bound. rewrite wrap_small; [done|]. split; lia. Qed.

(** A block-aligned erase within the device reaches the driver. *)
Lemma disk_erase_ok dd f offset size k :
  dd_erase dd = true -> dd_blk_size dd = 2 ^ k -> 0 <= k ->
  0 <= offset -> 0 < size -> offset + size <= dd_len dd -> dd_len dd < 2 ^ 64 ->
  (2 ^ k | offset) -> (2 ^ k | size) ->
  disk_device_erase dd f offset size = Done (drv_erase (handle dd) f offset size).
Proof.
  intros He Hb Hk Ho Hs Hl Hm Do Ds. unfold disk_device_erase. rewrite He, Hb.
  assert (2 ^ k <> 0) as Hk0 by (by apply Z.pow_nonzero).
  rewrite !land_mask by done.
  rewrite (proj2 (Z.mod_divide offset _ Hk0)), (proj2 (Z.mod_divide size _ Hk0)) by done. simpl.
  rewrite (proj2 (Z.eqb_neq size 0)), out_of_bound_spec, Z.gtb_ltb by lia.
  by rewrite (proj2 (Z.ltb_ge _ _)) by lia.
Qed.

Lemma disk_write_ok dd f buf offset size :
  dd_write dd = true -> 0 <= offset -> 0 < size <= len buf -> offset + size <= dd_len dd -> dd_len dd < 2 ^ 64 ->
  disk_device_write dd f (Some buf) size offset = Done (drv_write (handle dd) f (slice buf 0 size) offset).
Proof.
  intros Hw Ho Hs Hl Hm. unfold disk_device_write. rewrite Hw.
  rewrite (proj2 (Z.eqb_neq size 0)), out_of_bound_spec, Z.gtb_ltb, (proj2 (Z.ltb_ge _ _)) by lia.
  by rewrite mem_read_ok by lia.
Qed.

Lemma disk_read_ok dd f offset size :
  dd_read dd = true -> 0 <= offset -> 0 < size -> offset + size <= dd_len dd -> dd_len dd < 2 ^ 64 ->
  disk_device_read dd f true size offset = Done (drv_read (handle dd) f size offset).
Proof.
  intros Hw Ho Hs Hl Hm. unfold disk_device_read. rewrite Hw.
  by rewrite (proj2 (Z.eqb_neq size 0)), out_of_bound_spec, Z.gtb_ltb, (proj2 (Z.ltb_ge _ _)) by lia.
Qed.

End Ops.

Lemma bytes_slice l ofs n : bytes l -> bytes (slice l ofs n).
Proof. intros Hl. by apply Forall_take, Forall_drop. Qed.

Lemma bytes_splice l ofs src : bytes l -> bytes src -> bytes (splice l ofs src).
Proof.
  intros Hl Hs. unfold splice. apply Forall_app. split; [by apply Forall_take|].
  apply Forall_app. split; [done|by apply Forall_drop].
Qed.

(** Clearing the bits of erased bytes. *)
Lemma land_erased src : bytes src -> zip_with Z.land (replicate (length src) 255) src = src.
Proof.
  intros Hb. induction Hb as [|b l Hb _ IH]; simpl; [done|].
  rewrite IH. f_equal. rewrite Z.land_comm. change 255 with (Z.ones 8).
  rewrite Z.land_ones by lia. apply Z.mod_small. lia.
Qed.

(** Erase and write again. *)
Lemma program_block {F} `{Flash F} d (f : F) src ofs :
  0 <= ofs -> ofs + len src <= len (fl_content d f) -> bytes src ->
  (fl_unit d | ofs) -> (fl_unit d | len src) ->
  exists r f1 f2, 0 <= r /\ drv_erase d f ofs (len src) = (0, f1) /\ drv_write d f1 src ofs = (r, f2) /\
    fl_content d f2 = splice (fl_content d f) ofs src /\
    forall d', d' <> d -> fl_content d' f2 = fl_content d' f.
Proof.
  intros Ho Hl Hs Hu1 Hu2. pose proof (len_nonneg src).
  destruct (fl_erase d f ofs (len src) Ho ltac:(done) Hl Hu1 Hu2) as (f1 & E1 & C1 & O1).
  assert (len (replicate (Z.to_nat (len src)) 255) = len src) as Hr.
  { unfold len at 1. rewrite length_replicate. lia. }
  assert (len (fl_content d f1) = len (fl_content d f)) as L1.
  { rewrite C1, len_splice; [done|done|]. by rewrite Hr. }
  destruct (fl_write d f1 src ofs Ho ltac:(by rewrite L1) Hs) as (r & f2 & new & Hr0 & E2 & C2 & _ & N2 & O2).
  exists r, f1, f2. split_and!; [done..| |].
  - rewrite C2, C1, N2.
    + apply splice_splice; [|done|done]. rewrite length_replicate. unfold len. lia.
    + rewrite C1. pose proof (slice_splice_same (fl_content d f) ofs (replicate (Z.to_nat (len src)) 255)) as E.
      rewrite Hr in E. rewrite E by done. unfold len. by rewrite Nat2Z.id.
  - intros d' Hd. by rewrite O2, O1.
Qed.

(** ** Concrete chips *)

Abbreviation chips := (gmap Z (list Z)).
Definition chip (d : Z) (f : chips) : list Z := default [] (f !! d).

(** A NOR flash: out of bounds it answers an error. *)
Definition nor_read (d : Z) (f : chips) (size ofs : Z) : Z * list Z :=
  if (0 <=? ofs) && (ofs + size <=? len (chip d f))
  then (0, slice (chip d f) ofs size) else (- EIO, []).
Definition nor_program (d : Z) (f : chips) (src : list Z) (ofs : Z) : Z * chips :=
  if (0 <=? ofs) && (ofs + len src <=? len (chip d f))
  then (0, <[d := splice (chip d f) ofs (zip_with Z.land (slice (chip d f) ofs (len src)) src)]> f)
  else (- EIO, f).
Definition nor_erase (d : Z) (f : chips) (ofs size : Z) : Z * chips :=
  if (0 <=? ofs) && (ofs + size <=? len (chip d f))
  then (0, <[d := splice (chip d f) ofs (replicate (Z.to_nat size) 255)]> f)
  else (- EIO, f).
Definition nor_flash : Driver chips :=
  {| drv_read := nor_read; drv_write := nor_program; drv_erase := nor_erase |}.

(** A chip all of whose reads fail. *)
Definition faulty_flash : Driver chips :=
  {| drv_read := fun _ _ _ _ => (- EIO, []); drv_write := nor_program; drv_erase := nor_erase |}.

#[export] Instance nor_flash_ok : @Flash chips nor_flash.
Proof.
  refine {| fl_content := chip; fl_unit := fun _ => 1 |}; simpl.
  - intros d f size ofs H1 H2 H3. exists 0. unfold nor_read.
    by rewrite (proj2 (Z.leb_le 0 ofs)), (proj2 (Z.leb_le _ _)) by done.
  - intros d f src ofs H1 H2 H3. unfold nor_program.
    rewrite (proj2 (Z.leb_le 0 ofs)), (proj2 (Z.leb_le _ _)) by done. eexists 0, _, (zip_with Z.land (slice (chip d f) ofs (len src)) src). split_and!; [done..| | | |].
    + unfold chip. by rewrite lookup_insert_eq.
    + pose proof (len_nonneg src) as Hn. unfold len. rewrite length_zip_with, length_slice. unfold len, chip in *. lia.
    + intros ->. by apply land_erased.
    + intros d' Hd. unfold chip. by rewrite lookup_insert_ne.
  - intros d f ofs size H1 H2 H3 _ _. unfold nor_erase.
    rewrite (proj2 (Z.leb_le 0 ofs)), (proj2 (Z.leb_le _ _)) by done. eexists. split_and!; [done..| |].
    + unfold chip. by rewrite lookup_insert_eq.
    + intros d' Hd. unfold chip. by rewrite lookup_insert_ne.
Defined.

End Disk.
