(* ===== verification/Crc.v ===== *)
(** * lib/libcrc16.c and the CRC of boot/boot.c

    The table-driven CRCs, their bitwise definitions from the polynomials
    (0x1021, most significant bit first; 0xedb88320, reflected), and what the
    checks detect. *)
From Stdlib Require Import ZArith Lia Bool Btauto.
From stdpp Require Import base list numbers gmap.
From S2P Require Import Prelude.

Module Crc.

Definition crc16_tab : list Z :=
  [
   0x0000; 0x1021; 0x2042; 0x3063; 0x4084; 0x50a5; 0x60c6; 0x70e7;
   0x8108; 0x9129; 0xa14a; 0xb16b; 0xc18c; 0xd1ad; 0xe1ce; 0xf1ef;
   0x1231; 0x0210; 0x3273; 0x2252; 0x52b5; 0x4294; 0x72f7; 0x62d6;
   0x9339; 0x8318; 0xb37b; 0xa35a; 0xd3bd; 0xc39c; 0xf3ff; 0xe3de;
   0x2462; 0x3443; 0x0420; 0x1401; 0x64e6; 0x74c7; 0x44a4; 0x5485;
   0xa56a; 0xb54b; 0x8528; 0x9509; 0xe5ee; 0xf5cf; 0xc5ac; 0xd58d;
   0x3653; 0x2672; 0x1611; 0x0630; 0x76d7; 0x66f6; 0x5695; 0x46b4;
   0xb75b; 0xa77a; 0x9719; 0x8738; 0xf7df; 0xe7fe; 0xd79d; 0xc7bc;
   0x48c4; 0x58e5; 0x6886; 0x78a7; 0x0840; 0x1861; 0x2802; 0x3823;
   0xc9cc; 0xd9ed; 0xe98e; 0xf9af; 0x8948; 0x9969; 0xa90a; 0xb92b;
   0x5af5; 0x4ad4; 0x7ab7; 0x6a96; 0x1a71; 0x0a50; 0x3a33; 0x2a12;
   0xdbfd; 0xcbdc; 0xfbbf; 0xeb9e; 0x9b79; 0x8b58; 0xbb3b; 0xab1a;
   0x6ca6; 0x7c87; 0x4ce4; 0x5cc5; 0x2c22; 0x3c03; 0x0c60; 0x1c41;
   0xedae; 0xfd8f; 0xcdec; 0xddcd; 0xad2a; 0xbd0b; 0x8d68; 0x9d49;
   0x7e97; 0x6eb6; 0x5ed5; 0x4ef4; 0x3e13; 0x2e32; 0x1e51; 0x0e70;
   0xff9f; 0xefbe; 0xdfdd; 0xcffc; 0xbf1b; 0xaf3a; 0x9f59; 0x8f78;
   0x9188; 0x81a9; 0xb1ca; 0xa1eb; 0xd10c; 0xc12d; 0xf14e; 0xe16f;
   0x1080; 0x00a1; 0x30c2; 0x20e3; 0x5004; 0x4025; 0x7046; 0x6067;
   0x83b9; 0x9398; 0xa3fb; 0xb3da; 0xc33d; 0xd31c; 0xe37f; 0xf35e;
   0x02b1; 0x1290; 0x22f3; 0x32d2; 0x4235; 0x5214; 0x6277; 0x7256;
   0xb5ea; 0xa5cb; 0x95a8; 0x8589; 0xf56e; 0xe54f; 0xd52c; 0xc50d;
   0x34e2; 0x24c3; 0x14a0; 0x0481; 0x7466; 0x6447; 0x5424; 0x4405;
   0xa7db; 0xb7fa; 0x8799; 0x97b8; 0xe75f; 0xf77e; 0xc71d; 0xd73c;
   0x26d3; 0x36f2; 0x0691; 0x16b0; 0x6657; 0x7676; 0x4615; 0x5634;
   0xd94c; 0xc96d; 0xf90e; 0xe92f; 0x99c8; 0x89e9; 0xb98a; 0xa9ab;
   0x5844; 0x4865; 0x7806; 0x6827; 0x18c0; 0x08e1; 0x3882; 0x28a3;
   0xcb7d; 0xdb5c; 0xeb3f; 0xfb1e; 0x8bf9; 0x9bd8; 0xabbb; 0xbb9a;
   0x4a75; 0x5a54; 0x6a37; 0x7a16; 0x0af1; 0x1ad0; 0x2ab3; 0x3a92;
   0xfd2e; 0xed0f; 0xdd6c; 0xcd4d; 0xbdaa; 0xad8b; 0x9de8; 0x8dc9;
   0x7c26; 0x6c07; 0x5c64; 0x4c45; 0x3ca2; 0x2c83; 0x1ce0; 0x0cc1;
   0xef1f; 0xff3e; 0xcf5d; 0xdf7c; 0xaf9b; 0xbfba; 0x8fd9; 0x9ff8;
   0x6e17; 0x7e36; 0x4e55; 0x5e74; 0x2e93; 0x3eb2; 0x0ed1; 0x1ef0 ].

(** One pass of the loop of [crc16part]; [crc16val] is a [uint16_t]. *)
Definition crc16_byte (crc16val byte : Z) : Z :=
  wrap 16 (Z.lxor (nth (Z.to_nat (Z.lxor (Z.land (Z.shiftr crc16val 8) 0xff) byte)) crc16_tab 0)
                  (Z.shiftl crc16val 8)).

Definition crc16part (src : list Z) (crc16val : Z) : Z := foldl crc16_byte crc16val src.
Definition crc16 (src : list Z) : Z := crc16part src 0.

(** The table of [crc32_update], a nibble at a time. *)
Definition crc32_table : list Z := [
   0x00000000; 0x1db71064; 0x3b6e20c8; 0x26d930ac;
   0x76dc4190; 0x6b6b51f4; 0x4db26158; 0x5005713c;
   0xedb88320; 0xf00f9344; 0xd6d6a3e8; 0xcb61b38c;
   0x9b64c2b0; 0x86d3d2d4; 0xa00ae278; 0xbdbdf21c ].

Definition crc32_nibble (crc x : Z) : Z :=
  Z.lxor (Z.shiftr crc 4) (nth (Z.to_nat (Z.land (Z.lxor crc x) 0x0f)) crc32_table 0).

Definition crc32_byte (crc byte : Z) : Z :=
  crc32_nibble (crc32_nibble crc byte) (Z.shiftr byte 4).

(** [~crc] of a [uint32_t] *)
Definition not32 (x : Z) : Z := Z.lxor x 0xffffffff.

Definition crc32_update (crc : Z) (data : list Z) : Z :=
  not32 (foldl crc32_byte (not32 crc) data).

(** ** The bitwise definitions *)

Definition shift16 (x : Z) : Z :=
  Z.lxor (Z.land (Z.shiftl x 1) 0xffff) (if Z.testbit x 15 then 0x1021 else 0).
Definition shift32 (x : Z) : Z :=
  Z.lxor (Z.shiftr x 1) (if Z.testbit x 0 then 0xedb88320 else 0).

Section Bitwise.
Context (shift : Z -> Z) (top : Z).

(** The bit is added where bits leave the register. *)
Definition crc_bit (c : Z) (b : bool) : Z := shift (if b then Z.lxor c top else c).
Definition crc_bits (c : Z) (bits : list bool) : Z := foldl crc_bit c bits.
End Bitwise.

(** The bits of a byte, the most significant first and last. *)
Definition bits_msb (b : Z) : list bool := (fun i => Z.testbit b i) <$> [7; 6; 5; 4; 3; 2; 1; 0].
Definition bits_lsb (b : Z) : list bool := (fun i => Z.testbit b i) <$> [0; 1; 2; 3; 4; 5; 6; 7].

(** ** Linearity *)

Lemma lxor_land_distr x y m : Z.land (Z.lxor x y) m = Z.lxor (Z.land x m) (Z.land y m).
Proof. apply Z.bits_inj'. intros n Hn. rewrite !Z.land_spec, !Z.lxor_spec, !Z.land_spec. btauto. Qed.

(** [x xor y xor (z xor w)], two by two. *)
Lemma lxor_swap x y z w : Z.lxor (Z.lxor x y) (Z.lxor z w) = Z.lxor (Z.lxor x z) (Z.lxor y w).
Proof. apply Z.bits_inj'. intros n Hn. rewrite !Z.lxor_spec. btauto. Qed.

Lemma lxor_if (b c : bool) x :
  Z.lxor (if b then x else 0) (if c then x else 0) = if xorb b c then x else 0.
Proof. destruct b, c; simpl; by rewrite ?Z.lxor_nilpotent, ?Z.lxor_0_r, ?Z.lxor_0_l. Qed.

Lemma shift16_lxor x y : shift16 (Z.lxor x y) = Z.lxor (shift16 x) (shift16 y).
Proof.
  unfold shift16. by rewrite Z.shiftl_lxor, lxor_land_distr, Z.lxor_spec, <- lxor_if, lxor_swap.
Qed.

Lemma shift32_lxor x y : shift32 (Z.lxor x y) = Z.lxor (shift32 x) (shift32 y).
Proof. unfold shift32. by rewrite Z.shiftr_lxor, Z.lxor_spec, <- lxor_if, lxor_swap. Qed.

Lemma lxor_range w x y : 0 <= w -> 0 <= x < 2 ^ w -> 0 <= y < 2 ^ w -> 0 <= Z.lxor x y < 2 ^ w.
Proof.
  intros Hw Hx Hy. split; [by apply Z.lxor_nonneg; lia|].
  assert (x = x mod 2 ^ w) as -> by (by rewrite Z.mod_small).
  assert (y = y mod 2 ^ w) as -> by (by rewrite Z.mod_small).
  rewrite <- !Z.land_ones, <- lxor_land_distr, Z.land_ones by lia. apply Z.mod_pos_bound. lia.
Qed.

(** *** Registers

    [low k y]: [y] has no bits but the [k] that leave last.  [top] is where
    the bits leave. *)
Class Register (w : nat) (shift : Z -> Z) (top : Z) (low : nat -> Z -> Prop) : Prop := {
  reg_lxor x y : shift (Z.lxor x y) = Z.lxor (shift x) (shift y);
  reg_top_in : 0 <= top < 2 ^ Z.of_nat w;
  reg_in y : 0 <= y < 2 ^ Z.of_nat w -> 0 <= shift y < 2 ^ Z.of_nat w;
  reg_inj y : 0 <= y < 2 ^ Z.of_nat w -> shift y = 0 -> y = 0;
  reg_zero : low O 0;
  reg_add k y : (k < w)%nat -> low (S k) y -> low (S k) (Z.lxor y top);
  reg_back k y : (k < w)%nat -> 0 <= y < 2 ^ Z.of_nat w -> low k (shift y) -> low (S k) y;
  reg_top k : (k < w)%nat -> ~ low k (shift top) }.

Section Detect.
Context {w : nat} {shift : Z -> Z} {top : Z} {low : nat -> Z -> Prop} {HR : Register w shift top low}.
Abbreviation bit := (crc_bit shift top).
Abbreviation run := (crc_bits shift top).
Abbreviation inreg y := (0 <= y < 2 ^ Z.of_nat w).

Lemma shift_0 : shift 0 = 0.
Proof using HR. pose proof (reg_lxor 0 0) as H. by rewrite !Z.lxor_nilpotent in H. Qed.

Lemma crc_bit_eq c b : bit c b = shift (Z.lxor c (if b then top else 0)).
Proof. unfold crc_bit. destruct b; [done|by rewrite Z.lxor_0_r]. Qed.

Lemma crc_bit_in c b : inreg c -> inreg (bit c b).
Proof using HR.
  intros Hc. unfold crc_bit. apply reg_in. destruct b; [|done].
  apply lxor_range; [lia|done|apply reg_top_in].
Qed.

Lemma crc_bits_in u : forall c, inreg c -> inreg (run c u).
Proof using HR. induction u as [|b u IH]; intros c Hc; simpl; [done|]. by apply IH, crc_bit_in. Qed.

Lemma crc_bit_lxor c d x y : Z.lxor (bit c x) (bit d y) = bit (Z.lxor c d) (xorb x y).
Proof using HR. by rewrite !crc_bit_eq, <- reg_lxor, lxor_swap, lxor_if. Qed.

(** CRCs of texts of one length add up. *)
Lemma crc_bits_lxor u : forall v c d, length u = length v ->
  Z.lxor (run c u) (run d v) = run (Z.lxor c d) (zip_with xorb u v).
Proof using HR.
  induction u as [|x u IH]; intros [|y v] c d Hl; simpl in Hl; try lia; [done|].
  simpl. rewrite IH by lia. f_equal. apply crc_bit_lxor.
Qed.

Lemma crc_bits_app c u v : run c (u ++ v) = run (run c u) v.
Proof. apply foldl_app. Qed.

(** The register forgets nothing: a difference before equal bits stays. *)
Lemma crc_bits_inj u : forall c d, inreg c -> inreg d -> run c u = run d u -> c = d.
Proof using HR.
  induction u as [|x u IH]; intros c d Hc Hd H; simpl in H; [done|].
  apply IH in H; [|by apply crc_bit_in..].
  apply Z.lxor_eq, reg_inj; [apply lxor_range; [lia|done..]|].
  pose proof (crc_bit_lxor c d x x) as Hx.
  by rewrite H, Z.lxor_nilpotent, xorb_nilpotent in Hx.
Qed.

(** Bits that clear the register: few can be left of what it held. *)
Lemma crc_bits_low u : forall c, inreg c -> (length u <= w)%nat -> run c u = 0 -> low (length u) c.
Proof using HR.
  induction u as [|b u IH]; intros c Hc Hl H; simpl in *; [subst; apply reg_zero|].
  apply IH in H; [|by apply crc_bit_in|lia]. rewrite crc_bit_eq in H.
  apply reg_back in H; [|lia|].
  - destruct b; [|by rewrite Z.lxor_0_r in H].
    apply reg_add in H; [|lia]. by rewrite Z.lxor_assoc, Z.lxor_nilpotent, Z.lxor_0_r in H.
  - destruct b; [|by rewrite Z.lxor_0_r]. apply lxor_range; [lia|done|apply reg_top_in].
Qed.

Lemma crc_bits_zero u : (length u <= w)%nat -> run 0 u = 0 -> Forall (fun b => b = false) u.
Proof using HR.
  induction u as [|b u IH]; intros Hl H; simpl in *; [constructor|]. destruct b.
  - exfalso. apply crc_bits_low in H; [| |lia].
    + apply (reg_top (length u)); [lia|done].
    + apply crc_bit_in. lia.
  - unfold crc_bit in H. rewrite shift_0 in H. constructor; [done|apply IH; [lia|done]].
Qed.

Lemma burst_detected c pre u v post :
  inreg c -> length u = length v -> (length u <= w)%nat -> u <> v ->
  run c (pre ++ u ++ post) <> run c (pre ++ v ++ post).
Proof using HR.
  intros Hc Hl Hw Hne H. rewrite !crc_bits_app in H.
  apply crc_bits_inj in H; [|by apply crc_bits_in, crc_bits_in..].
  assert (run 0 (zip_with xorb u v) = 0) as Hz.
  { pose proof (crc_bits_lxor u v (run c pre) (run c pre) Hl) as Hx. by rewrite H, !Z.lxor_nilpotent in Hx. }
  apply crc_bits_zero in Hz; [|rewrite length_zip_with; lia].
  apply Hne. clear -Hl Hz. revert v Hl Hz. induction u as [|x u IH]; intros [|y v] Hl Hz; simpl in *; try lia; [done|].
  apply Forall_cons in Hz as [Hx Hz]. apply xorb_eq in Hx; subst y. f_equal. apply IH; [lia|done].
Qed.
End Detect.

(** The reflected register of 32 bits. *)
#[export] Instance shift32_register : Register 32 shift32 1 (fun k y => 0 <= y < 2 ^ Z.of_nat k).
Proof.
  assert (forall y, shift32 y = if Z.testbit y 0 then Z.lxor (y / 2) 0xedb88320 else y / 2) as Hs.
  { intros y. unfold shift32. rewrite Z.shiftr_div_pow2 by lia. destruct (Z.testbit y 0); [done|apply Z.lxor_0_r]. }
  assert (forall y, 0 <= y < 2 ^ 32 -> Z.testbit y 0 = true -> 2 ^ 31 <= Z.lxor (y / 2) 0xedb88320) as Hodd.
  { intros y Hy _. pose proof (Z_div_mod_eq_full y 2). pose proof (Z.mod_pos_bound y 2 ltac:(lia)).
    assert (0 <= y / 2 < 2 ^ 31) as Hh by lia.
    apply Z.nlt_ge. intros Hlt. set (x := Z.lxor (y / 2) _) in *.
    assert (0 <= x) by (apply Z.lxor_nonneg; lia).
    pose proof (lxor_range 31 x (y / 2) ltac:(lia) ltac:(lia) Hh) as Hr.
    unfold x in Hr. rewrite (Z.lxor_comm (y / 2)), Z.lxor_assoc, Z.lxor_nilpotent, Z.lxor_0_r in Hr. lia. }
  split.
  - apply shift32_lxor.
  - done.
  - intros y Hy. rewrite Hs. change (Z.of_nat 32) with 32 in *.
    pose proof (Z_div_mod_eq_full y 2). pose proof (Z.mod_pos_bound y 2 ltac:(lia)).
    destruct (Z.testbit y 0); [apply lxor_range; lia|lia].
  - intros y Hy. rewrite Hs. change (Z.of_nat 32) with 32 in *. destruct (Z.testbit y 0) eqn:E.
    + pose proof (Hodd y Hy E). lia.
    + rewrite Z.bit0_odd in E. rewrite (Z.div_mod y 2) at 2 by lia. rewrite Zmod_odd, E. lia.
  - simpl. lia.
  - intros k y Hk Hy. apply lxor_range; [lia|done|]. split; [lia|]. apply Z.pow_gt_1; lia.
  - intros k y Hk Hy. rewrite Hs. change (Z.of_nat 32) with 32 in *. destruct (Z.testbit y 0) eqn:E.
    + pose proof (Hodd y Hy E). pose proof (Z.pow_le_mono_r 2 (Z.of_nat k) 31 ltac:(lia) ltac:(lia)). lia.
    + rewrite Z.bit0_odd in E. pose proof (Z_div_mod_eq_full y 2) as Hd. rewrite Zmod_odd, E in Hd.
      rewrite Nat2Z.inj_succ, Z.pow_succ_r by lia. lia.
  - intros k Hk [_ Hlt]. change (shift32 1) with 0xedb88320 in Hlt.
    pose proof (Z.pow_le_mono_r 2 (Z.of_nat k) 31 ltac:(lia) ltac:(lia)). lia.
Qed.

(** The register of 16 bits that shifts up. *)
#[export] Instance shift16_register : Register 16 shift16 0x8000
  (fun k y => y mod 2 ^ (16 - Z.of_nat k) = 0).
Proof.
  assert (forall y, 0 <= y < 2 ^ 16 -> shift16 y = if 2 ^ 15 <=? y then Z.lxor (2 * (y - 2 ^ 15)) 0x1021 else 2 * y) as Hs.
  { intros y Hy. unfold shift16. rewrite (Z.land_ones _ 16), Z.shiftl_mul_pow2 by lia.
    assert (Z.testbit y 15 = (2 ^ 15 <=? y)) as ->.
    { apply eq_true_iff_eq. rewrite Z.leb_le, Z.testbit_true by lia.
      pose proof (Z_div_mod_eq_full y (2 ^ 15)). pose proof (Z.mod_pos_bound y (2 ^ 15) ltac:(lia)).
      assert (y / 2 ^ 15 = 0 \/ y / 2 ^ 15 = 1) as [E|E] by nia; rewrite E; split; intros; try done; nia. }
    destruct (Z.leb_spec (2 ^ 15) y); [|rewrite Z.lxor_0_r].
    - f_equal. symmetry. apply (Z.mod_unique_pos _ _ 1); lia.
    - rewrite Z.mod_small; lia. }
  assert (forall x, Z.odd (Z.lxor (2 * x) 0x1021) = true) as Hodd.
  { intros x. rewrite <- Z.bit0_odd, Z.lxor_spec, Z.testbit_even_0. done. }
  split.
  - apply shift16_lxor.
  - done.
  - intros y Hy. change (Z.of_nat 16) with 16 in *. rewrite Hs by done. destruct (Z.leb_spec (2 ^ 15) y); [apply lxor_range; lia|lia].
  - intros y Hy. change (Z.of_nat 16) with 16 in *. rewrite Hs by done. destruct (Z.leb_spec (2 ^ 15) y); [|lia].
    intros H0. pose proof (Hodd (y - 2 ^ 15)) as Ho. by rewrite H0 in Ho.
  - done.
  - intros k y Hk Hy. rewrite <- Z.land_ones in Hy |- * by lia. rewrite lxor_land_distr, Hy, Z.lxor_0_l, Z.land_ones by lia.
    change 0x8000 with (2 ^ 15). apply Z.mod_divide; [apply Z.pow_nonzero; lia|].
    exists (2 ^ (15 - (16 - Z.of_nat (S k)))). rewrite <- Z.pow_add_r by lia. f_equal. lia.
  - intros k y Hk Hy. change (Z.of_nat 16) with 16 in *. rewrite Hs by done.
    replace (16 - Z.of_nat k) with (1 + (16 - Z.of_nat (S k))) by lia.
    rewrite Z.mod_divide, Z.pow_add_r, Z.pow_1_r by (try apply Z.pow_nonzero; lia). intros [q Hq].
    destruct (Z.leb_spec (2 ^ 15) y).
    + exfalso. pose proof (Hodd (y - 2 ^ 15)) as Ho. rewrite Hq in Ho.
      by rewrite (Z.mul_comm 2), Z.mul_assoc, Z.odd_mul, andb_false_r in Ho.
    + apply Z.mod_divide; [apply Z.pow_nonzero; lia|]. exists q. lia.
  - intros k Hk. change (shift16 0x8000) with 0x1021.
    replace (16 - Z.of_nat k) with (1 + (15 - Z.of_nat k)) by lia.
    rewrite Z.mod_divide, Z.pow_add_r, Z.pow_1_r by (try apply Z.pow_nonzero; lia). intros [q Hq]. lia.
Qed.

(** ** The tables *)

Lemma forallb_range n (f : Z -> bool) x : forallb f (seqZ 0 n) = true -> 0 <= x < n -> f x = true.
Proof. intros H Hx. rewrite forallb_forall in H. apply H, list_elem_of_In, elem_of_seqZ. lia. Qed.

Lemma split_bits x k : 0 <= k -> x = Z.lxor (Z.shiftl (Z.shiftr x k) k) (Z.land x (Z.ones k)).
Proof.
  intros Hk. apply Z.bits_inj'. intros n Hn.
  rewrite Z.lxor_spec, Z.land_spec, Z.shiftl_spec by lia. destruct (Z_lt_le_dec n k).
  - rewrite Z.ones_spec_low, (Z.testbit_neg_r _ (n - k)) by lia. by rewrite andb_true_r.
  - rewrite Z.ones_spec_high, Z.shiftr_spec by lia. rewrite andb_false_r, xorb_false_r. f_equal. lia.
Qed.

Abbreviation run16 := (crc_bits shift16 0x8000).
Abbreviation run32 := (crc_bits shift32 1).

(** The table entry is the effect of eight shifts. *)
Lemma tab16_check :
  forallb (fun h => forallb (fun b => run16 (Z.shiftl h 8) (bits_msb b) =? nth (Z.to_nat (Z.lxor h b)) crc16_tab 0)
    (seqZ 0 256)) (seqZ 0 256) = true.
Proof. vm_compute. reflexivity. Qed.
Lemma low16_check : forallb (fun l => run16 l (bits_msb 0) =? Z.shiftl l 8) (seqZ 0 256) = true.
Proof. vm_compute. reflexivity. Qed.
Lemma tab16_range : forallb (fun i => (0 <=? nth (Z.to_nat i) crc16_tab 0) && (nth (Z.to_nat i) crc16_tab 0 <? 65536)) (seqZ 0 256) = true.
Proof. vm_compute. reflexivity. Qed.

Lemma crc16_byte_bits c b : 0 <= c < 65536 -> 0 <= b < 256 -> crc16_byte c b = run16 c (bits_msb b).
Proof.
  intros Hc Hb. set (h := Z.shiftr c 8). set (l := Z.land c (Z.ones 8)).
  assert (0 <= h < 256) as Hh by (unfold h; rewrite Z.shiftr_div_pow2 by lia; pose proof (Z_div_mod_eq_full c (2 ^ 8));
    pose proof (Z.mod_pos_bound c (2 ^ 8) ltac:(lia)); lia).
  assert (0 <= l < 256) as Hl by (unfold l; rewrite Z.land_ones by lia; apply Z.mod_pos_bound; lia).
  assert (c = Z.lxor (Z.shiftl h 8) l) as Ec by (apply split_bits; lia).
  pose proof (forallb_range _ _ h tab16_check Hh) as Ht. pose proof (forallb_range _ _ b Ht Hb) as Htb. apply Z.eqb_eq in Htb.
  pose proof (forallb_range _ _ l low16_check Hl) as Hlo. apply Z.eqb_eq in Hlo.
  assert (0 <= Z.lxor h b < 256) as Hhb by (apply (lxor_range 8); lia).
  pose proof (forallb_range _ _ _ tab16_range Hhb) as Hr. apply andb_true_iff in Hr as [Hr1%Z.leb_le Hr2%Z.ltb_lt].
  assert (run16 c (bits_msb b) = Z.lxor (run16 (Z.shiftl h 8) (bits_msb b)) (run16 l (bits_msb 0))) as ->.
  { rewrite crc_bits_lxor, <- Ec by done. f_equal. unfold bits_msb. simpl. by rewrite ?xorb_false_r. }
  rewrite Htb, Hlo. unfold crc16_byte. fold h.
  replace (Z.land h 0xff) with h by (change 0xff with (Z.ones 8); rewrite Z.land_ones by lia; by rewrite Z.mod_small).
  unfold wrap. rewrite <- Z.land_ones, lxor_land_distr by lia. f_equal.
  - rewrite Z.land_ones, Z.mod_small by lia. done.
  - unfold l. rewrite !Z.land_ones, !Z.shiftl_mul_pow2 by lia.
    change (2 ^ 16) with (2 ^ 8 * 2 ^ 8). apply Z.mul_mod_distr_r; lia.
Qed.

Lemma shift32_even y : 0 <= y -> shift32 (2 * y) = y.
Proof.
  intros Hy. unfold shift32. rewrite Z.testbit_even_0, Z.lxor_0_r, Z.shiftr_div_pow2, Z.mul_comm by lia. by apply Z.div_mul.
Qed.
Lemma high32 y : 0 <= y -> run32 (Z.shiftl y 4) [false; false; false; false] = y.
Proof.
  intros Hy. rewrite Z.shiftl_mul_pow2 by lia. change (2 ^ 4) with 16. simpl. unfold crc_bit.
  replace (y * 16) with (2 * (2 * (2 * (2 * y)))) by lia. by rewrite !shift32_even by lia.
Qed.

Definition bits4 (x : Z) : list bool := (fun i => Z.testbit x i) <$> [0; 1; 2; 3].
Lemma tab32_check :
  forallb (fun l => forallb (fun b => run32 l (bits4 b) =? nth (Z.to_nat (Z.lxor l b)) crc32_table 0)
    (seqZ 0 16)) (seqZ 0 16) = true.
Proof. vm_compute. reflexivity. Qed.

Lemma crc32_nibble_bits c x : 0 <= c -> 0 <= x -> crc32_nibble c x = run32 c (bits4 x).
Proof.
  intros Hc Hx. set (h := Z.shiftr c 4). set (l := Z.land c (Z.ones 4)).
  assert (c = Z.lxor (Z.shiftl h 4) l) as Ec by (apply split_bits; lia).
  assert (0 <= l < 16) as Hl by (unfold l; rewrite Z.land_ones by lia; apply Z.mod_pos_bound; lia).
  assert (0 <= Z.land x (Z.ones 4) < 16) as Hxl by (rewrite Z.land_ones by lia; apply Z.mod_pos_bound; lia).
  pose proof (forallb_range _ _ l tab32_check Hl) as Ht. pose proof (forallb_range _ _ _ Ht Hxl) as Htb. apply Z.eqb_eq in Htb.
  assert (bits4 (Z.land x (Z.ones 4)) = bits4 x) as Hb.
  { cbv [bits4 fmap list_fmap]. rewrite !Z.land_spec, !Z.ones_spec_low by lia. by rewrite !andb_true_r. }
  rewrite Hb in Htb. rewrite Ec at 2.
  pose proof (crc_bits_lxor (HR := shift32_register) [false; false; false; false] (bits4 x) (Z.shiftl h 4) l eq_refl) as Hx2.
  rewrite high32, Htb in Hx2 by (unfold h; apply Z.shiftr_nonneg; lia).
  transitivity (Z.lxor h (nth (Z.to_nat (Z.lxor l (Z.land x (Z.ones 4)))) crc32_table 0)).
  - unfold crc32_nibble. fold h. do 3 f_equal. change 0x0f with (Z.ones 4). by rewrite lxor_land_distr.
  - rewrite Hx2. f_equal.
Qed.

Lemma run32_in c u : 0 <= c < 2 ^ 32 -> 0 <= run32 c u < 2 ^ 32.
Proof. apply (crc_bits_in (HR := shift32_register)). Qed.
Lemma run16_in c u : 0 <= c < 2 ^ 16 -> 0 <= run16 c u < 2 ^ 16.
Proof. apply (crc_bits_in (HR := shift16_register)). Qed.

Lemma crc32_byte_bits c b : 0 <= c < 2 ^ 32 -> 0 <= b -> crc32_byte c b = run32 c (bits_lsb b).
Proof.
  intros Hc Hb. unfold crc32_byte. rewrite (crc32_nibble_bits c b), crc32_nibble_bits; try lia.
  - rewrite <- crc_bits_app. f_equal. cbv [bits4 bits_lsb fmap list_fmap app]. by rewrite !Z.shiftr_spec by lia.
  - by apply run32_in.
  - by apply Z.shiftr_nonneg.
Qed.

Definition byte_ok (b : Z) : Prop := 0 <= b < 256.

Lemma crc32_bytes_bits data : forall c, 0 <= c < 2 ^ 32 -> Forall byte_ok data ->
  foldl crc32_byte c data = run32 c (data ≫= bits_lsb).
Proof.
  induction data as [|b data IH]; intros c Hc Hd; [done|]. apply Forall_cons in Hd as [Hb Hd].
  cbn [foldl]. rewrite crc32_byte_bits by (done || apply Hb). rewrite IH by (by apply run32_in || done).
  rewrite <- crc_bits_app. done.
Qed.

Lemma crc16_bytes_bits data : forall c, 0 <= c < 2 ^ 16 -> Forall byte_ok data ->
  crc16part data c = run16 c (data ≫= bits_msb).
Proof.
  unfold crc16part. induction data as [|b data IH]; intros c Hc Hd; [done|]. apply Forall_cons in Hd as [Hb Hd].
  cbn [foldl]. rewrite crc16_byte_bits by (done || apply Hb). rewrite IH by (by apply run16_in || done).
  rewrite <- crc_bits_app. done.
Qed.

Lemma not32_range c : 0 <= c < 2 ^ 32 -> 0 <= not32 c < 2 ^ 32.
Proof. intros Hc. apply lxor_range; lia. Qed.
Lemma not32_not32 c : not32 (not32 c) = c.
Proof. unfold not32. by rewrite Z.lxor_assoc, Z.lxor_nilpotent, Z.lxor_0_r. Qed.

(** ** Properties *)

(** C33: On bytes, [crc16part] and [crc32_update] compute the CRCs their
    polynomials define bit by bit, so every one of the 256 and 16 table entries
    is right, and a text can be fed in pieces, as the boot loader does. *)
Theorem crc_tables_correct :
  (forall data c, 0 <= c < 2 ^ 16 -> Forall byte_ok data ->
    crc16part data c = crc_bits shift16 0x8000 c (data ≫= bits_msb)) /\
  (forall data c, 0 <= c < 2 ^ 32 -> Forall byte_ok data ->
    crc32_update c data = not32 (crc_bits shift32 1 (not32 c) (data ≫= bits_lsb))) /\
  (forall a b c, crc32_update (crc32_update c a) b = crc32_update c (a ++ b)) /\
  (forall a b c, crc16part b (crc16part a c) = crc16part (a ++ b) c).
Proof.
  split; [|split; [|split]].
  - intros data c Hc Hd. by apply crc16_bytes_bits.
  - intros data c Hc Hd. unfold crc32_update. rewrite crc32_bytes_bits by (done || by apply not32_range). done.
  - intros a b c. unfold crc32_update. by rewrite not32_not32, foldl_app.
  - intros a b c. unfold crc16part. by rewrite foldl_app.
Qed.

(** C37: An error burst is always detected: two texts of one length that differ
    only within 16 consecutive bits have different [crc16], and within 32
    consecutive bits different [crc32_update].  Single wrong bits and bytes,
    and wrong words of up to the width of the CRC, are such bursts. *)
Theorem crc_detects_bursts (data data' : list Z) (pre u v post : list bool) :
  Forall byte_ok data -> Forall byte_ok data' -> u <> v -> length u = length v ->
  (data ≫= bits_msb = pre ++ u ++ post -> data' ≫= bits_msb = pre ++ v ++ post -> (length u <= 16)%nat ->
    crc16 data <> crc16 data') /\
  (data ≫= bits_lsb = pre ++ u ++ post -> data' ≫= bits_lsb = pre ++ v ++ post -> (length u <= 32)%nat ->
    crc32_update 0 data <> crc32_update 0 data').
Proof.
  intros Hd Hd' Hne Hl. split; intros E1 E2 Hw.
  - unfold crc16. rewrite !crc16_bytes_bits, E1, E2 by (done || lia).
    by apply (burst_detected (HR := shift16_register)).
  - unfold crc32_update. rewrite !crc32_bytes_bits, E1, E2 by (done || by apply not32_range).
    intros H. apply (f_equal not32) in H. rewrite !not32_not32 in H. revert H.
    apply (burst_detected (HR := shift32_register)); [by apply (not32_range 0)|done..].
Qed.

(** [abc] and [acc] differ in one bit. *)
Lemma crc_detects_bursts_witness :
  (crc16 [0x61; 0x62; 0x63] <> crc16 [0x61; 0x63; 0x63]) /\
  (crc32_update 0 [0x61; 0x62; 0x63] <> crc32_update 0 [0x61; 0x63; 0x63]).
Proof.
  split.
  - refine (proj1 (crc_detects_bursts [0x61; 0x62; 0x63] [0x61; 0x63; 0x63]
      (take 15 ([0x61; 0x62; 0x63] ≫= bits_msb)) [false] [true] (bits_msb 0x63) _ _ _ _) _ _ _).
    1, 2: by repeat constructor.
    all: first [reflexivity | discriminate | simpl; lia].
  - refine (proj2 (crc_detects_bursts [0x61; 0x62; 0x63] [0x61; 0x63; 0x63]
      (take 8 ([0x61; 0x62; 0x63] ≫= bits_lsb)) [false] [true] (drop 9 ([0x61; 0x62; 0x63] ≫= bits_lsb)) _ _ _ _) _ _ _).
    1, 2: by repeat constructor.
    all: first [reflexivity | discriminate | simpl; lia].
Defined.

(** The check value of each CRC. *)
Example crc_check_values :
  let data := [0x31; 0x32; 0x33; 0x34; 0x35; 0x36; 0x37; 0x38; 0x39] in
  crc16 data = 0x31c3 /\ crc32_update 0 data = 0xcbf43926.
Proof. vm_compute. done. Qed.
End Crc.
