(* ===== verification/Boot.v ===== *)
(** * boot/boot.c, system.c : the boot loader

    Validating, copying and verifying a firmware image on the flash devices
    of Disk, with the CRC of Crc, and the decisions of [general_boot] on the
    environment of Env. The messages that are logged are left out. *)
From Stdlib Require Import ZArith Lia Bool String.
From stdpp Require Import base list numbers gmap.
From S2P Require Import Prelude CString Env Disk Crc.
Import Disk.

Module Boot.

(** A C string constant. *)
Definition cstr (s : string) : list Z := (fun c => Z.of_nat (Ascii.nat_of_ascii c)) <$> String.list_ascii_of_string s.

(** ** The image *)

Definition FW_FLASH_BLKSIZE : Z := 4096.
Definition FH_MAGIC : Z := 0xa578875a.
Definition SIZEOF_HEADER : Z := 64.
Definition SIZEOF_POINTER : Z := 16.

(** [struct firmware_header] is 64 bytes, little endian, with three bytes of
    padding behind [fh_comp]; its first 16 bytes are a
    [struct firmware_pointer]. *)
Definition le_u32 (l : list Z) (ofs : nat) : Z :=
  nth ofs l 0 + 256 * nth (ofs + 1) l 0 + 65536 * nth (ofs + 2) l 0 + 16777216 * nth (ofs + 3) l 0.
Definition fh_magic (h : list Z) : Z := le_u32 h 0.
Definition fh_devid (h : list Z) : Z := le_u32 h 4.
Definition fh_dcrc (h : list Z) : Z := le_u32 h 12.
Definition fh_size (h : list Z) : Z := le_u32 h 16.
Definition fh_isize (h : list Z) : Z := le_u32 h 20.

Record fw_desc := mk_desc { fd_dd : disk_device; fd_offset : Z }.

(** The progress last reported; [notify] is there or NULL. *)
Record indicate_obj := mk_ind { in_notify : bool; in_progress : Z }.

Section Ops.
Context {F : Type} `{Driver F}.

(** The chips, the static buffer, and the calls of [notify]. *)
Record bstate := mk_bs { bs_flash : F; fw_cache : list Z; notes : list Z }.

(** [disk_device_read (dd, fw_cache, bytes, offset)] *)
Definition cache_read (dd : disk_device) (bytes offset : Z) (s : bstate) : outcome (Z * bstate) :=
  let* r := disk_device_read dd (bs_flash s) true bytes offset in
  let* c := mem_write (fw_cache s) 0 r.2 in
  Done (r.1, mk_bs (bs_flash s) c (notes s)).

(** [disk_device_write (dd, fw_cache, bytes, offset)] *)
Definition cache_write (dd : disk_device) (bytes offset : Z) (s : bstate) : outcome (Z * bstate) :=
  let* r := disk_device_write dd (bs_flash s) (Some (fw_cache s)) bytes offset in
  Done (r.1, mk_bs r.2 (fw_cache s) (notes s)).

Definition flash_erase (dd : disk_device) (offset size : Z) (s : bstate) : outcome (Z * bstate) :=
  let* r := disk_device_erase dd (bs_flash s) offset size in
  Done (r.1, mk_bs r.2 (fw_cache s) (notes s)).

(** Turns of a loop over [size] bytes. *)
Definition turns (size : Z) : nat := S (Z.to_nat (size / FW_FLASH_BLKSIZE)).

(** The loop of [is_fw_valid]: [inl] is the status of a read that failed. *)
Fixpoint crc_loop (fuel : nat) (dd : disk_device) (size offset crc : Z) (s : bstate) : outcome ((Z + Z) * bstate) :=
  if negb (size >? 0) then Done (inr crc, s)
  else match fuel with
  | O => Undef
  | S fuel =>
      let bytes := Z.min size FW_FLASH_BLKSIZE in
      let* r := cache_read dd bytes offset s in
      let '(ret, s) := r in
      if negb (ret =? 0) then Done (inl ret, s)
      else let* d := mem_read (fw_cache s) 0 bytes in
           crc_loop fuel dd (size - bytes) (u64 (offset + bytes)) (Crc.crc32_update crc d) s
  end.

(** [is_fw_valid (fd, outfw)]: the answer as a [bool], and what is stored
    through [outfw]. A failing read returns its status, which converts to
    [true]. *)
Definition is_fw_valid (fd : fw_desc) (s : bstate) : outcome (bool * option (list Z) * bstate) :=
  let* r := disk_device_read (fd_dd fd) (bs_flash s) true SIZEOF_HEADER (fd_offset fd) in
  if negb (r.1 =? 0) then Done (true, None, s)
  else
  let fw := r.2 in
  if negb (fh_magic fw =? FH_MAGIC) then Done (false, None, s)
  else if fh_size fw >? fh_isize fw then Done (false, None, s)
  else
  let* c := crc_loop (turns (fh_isize fw)) (fd_dd fd) (fh_isize fw) (u64 (fd_offset fd + SIZEOF_HEADER)) 0 s in
  let '(crc, s) := c in
  match crc with
  | inl ret => Done (true, None, s)
  | inr crc => if negb (crc =? fh_dcrc fw) then Done (false, None, s) else Done (true, Some fw, s)
  end.

Definition ota_progress_indicate (obj : indicate_obj) (progress : Z) (s : bstate) : indicate_obj * bstate :=
  if in_notify obj && negb (progress =? in_progress obj)
  then (mk_ind (in_notify obj) progress, mk_bs (bs_flash s) (fw_cache s) (notes s ++ [progress]))
  else (obj, s).

(** [(ofs * 100) / (fw.fh_isize << 1)], converted to [int] *)
Definition percent (ofs isize : Z) : outcome Z :=
  let d := u32 (Z.shiftl isize 1) in
  guard* negb (d =? 0) in Done (s32 (u64 (ofs * 100) / d)).

(** [fw_save_header (fd, fp)] *)
Definition fw_save_header (fd : fw_desc) (fp : list Z) (s : bstate) : outcome (Z * bstate) :=
  let* r := cache_read (fd_dd fd) FW_FLASH_BLKSIZE (fd_offset fd) s in
  let '(ret, s) := r in
  if negb (ret =? 0) then Done (ret, s)
  else
  let* r := flash_erase (fd_dd fd) (fd_offset fd) FW_FLASH_BLKSIZE s in
  let '(ret, s) := r in
  if negb (ret =? 0) then Done (ret, s)
  else
  let* c := mem_write (fw_cache s) 0 (take (Z.to_nat SIZEOF_POINTER) fp) in
  let s := mk_bs (bs_flash s) c (notes s) in
  let* r := cache_write (fd_dd fd) FW_FLASH_BLKSIZE (fd_offset fd) s in
  let '(ret, s) := r in
  if negb (ret =? 0) then Done (ret, s) else Done (0, s).

(** The copying loop of [fw_copy_decomp]; a status other than 0 ends it. *)
Fixpoint copy_loop (fuel : nat) (dst src : fw_desc) (isize fw_size ofs src_ofs : Z) (phase : indicate_obj) (s : bstate)
    : outcome (Z * indicate_obj * bstate) :=
  if negb (fw_size >? 0) then Done (0, phase, s)
  else match fuel with
  | O => Undef
  | S fuel =>
      let bytes := Z.min fw_size FW_FLASH_BLKSIZE in
      let* r := cache_read (fd_dd src) bytes src_ofs s in
      let '(ret, s) := r in
      if negb (ret =? 0) then Done (ret, phase, s)
      else
      let* r := flash_erase (fd_dd dst) (u64 (fd_offset dst + ofs)) FW_FLASH_BLKSIZE s in
      let '(ret, s) := r in
      if negb (ret =? 0) then Done (- EIO, phase, s)
      else
      let* r := cache_write (fd_dd dst) bytes (u64 (fd_offset dst + ofs)) s in
      let '(ret, s) := r in
      if negb (ret =? 0) then Done (ret, phase, s)
      else
      let* p := percent (ofs + bytes) isize in
      let '(phase, s) := ota_progress_indicate phase p s in
      copy_loop fuel dst src isize (fw_size - bytes) (ofs + bytes) (u64 (src_ofs + bytes)) phase s
  end.

(** The verifying loop; a read that fails ends it with 0 ([break]). *)
Fixpoint verify_loop (fuel : nat) (fw_curinfo dst : fw_desc) (fw : list Z) (fw_size ofs crc : Z) (phase : indicate_obj)
    (s : bstate) : outcome (Z * bstate) :=
  if negb (fw_size >? 0) then Done (0, s)
  else match fuel with
  | O => Undef
  | S fuel =>
      let bytes := Z.min fw_size FW_FLASH_BLKSIZE in
      let* r := cache_read (fd_dd dst) bytes (u64 (fd_offset dst + ofs)) s in
      let '(ret, s) := r in
      if negb (ret =? 0) then Done (0, s)
      else
      let* d := mem_read (fw_cache s) 0 bytes in
      let crc := Crc.crc32_update crc d in
      let ofs := ofs + bytes in
      let fw_size := fw_size - bytes in
      if fw_size =? 0 then
        if negb (crc =? fh_dcrc fw) then Done (- EBADF, s)
        else
        let* r := fw_save_header fw_curinfo fw s in
        let '(ret, s) := r in
        if ret <=? 0 then Done (ret, s)
        else let '(_, s) := ota_progress_indicate phase 100 s in Done (0, s)
      else
        let* p := percent ofs (fh_isize fw) in
        let '(phase, s) := ota_progress_indicate phase (p + 50) s in
        verify_loop fuel fw_curinfo dst fw fw_size ofs crc phase s
  end.

(** [fw_copy_decomp (dst, src, notify, action)]; [fw_curinfo] is static. *)
Definition fw_copy_decomp (fw_curinfo dst src : fw_desc) (notify : bool) (s : bstate) : outcome (Z * bstate) :=
  let* v := is_fw_valid src s in
  let '(ok, fw, s) := v in
  if negb ok then Done (- EINVAL, s)
  else
  let fw := default (replicate (Z.to_nat SIZEOF_HEADER) 0) fw in
  let isize := fh_isize fw in
  let* r := copy_loop (turns isize) dst src isize isize 0 (u64 (fd_offset src + SIZEOF_HEADER)) (mk_ind notify 0) s in
  let '(ret, phase, s) := r in
  if negb (ret =? 0) then Done (ret, s)
  else verify_loop (turns isize) fw_curinfo dst fw isize 0 0 phase s.

(** [is_fw_need_update ()] *)
Definition is_fw_need_update (fw_loader fw_curinfo : fw_desc) (f : F) : outcome bool :=
  let* r := disk_device_read (fd_dd fw_loader) f true SIZEOF_POINTER (fd_offset fw_loader) in
  if negb (r.1 =? 0) then Done false
  else
  let loader := r.2 in
  if negb (fh_magic loader =? FH_MAGIC) then Done false
  else
  let* r := disk_device_read (fd_dd fw_curinfo) f true SIZEOF_POINTER (fd_offset fw_curinfo) in
  if negb (r.1 =? 0) then Done false
  else
  let curr := r.2 in
  if fh_magic curr =? FH_MAGIC then
    Done ((fh_magic loader =? fh_magic curr) && (fh_devid curr =? fh_devid loader) && negb (fh_dcrc curr =? fh_dcrc loader))
  else Done (fh_magic loader =? FH_MAGIC).

(** [bootloader_init ()] on the list of devices: [inl] is its error. *)
Definition LOAD_DEVICE_BASE : Z := 0x01b00000.
Definition RUN_DEVICE_BASE : Z := 0x24000.
Definition FW_INFO_OFFSET : Z := LOAD_DEVICE_BASE + 0x0.
Definition FW_LOAD_OFFSET : Z := LOAD_DEVICE_BASE + 0x1000.
Definition FW_RUN_OFFSET : Z := RUN_DEVICE_BASE.
Definition FW_LOAD_DEVICE : string := "spi_flash"%string.
Definition FW_RUN_DEVICE : string := "spi_flash"%string.

Definition bootloader_init (disk_list : list disk_device) : outcome (Z + fw_desc * fw_desc * fw_desc) :=
  let* a := disk_device_open FW_LOAD_DEVICE disk_list in
  match a.2 with
  | None => Done (inl (- ENODEV))
  | Some d1 =>
      let* b := disk_device_open FW_LOAD_DEVICE disk_list in
      match b.2 with
      | None => Done (inl (- ENODEV))
      | Some d2 =>
          let* c := disk_device_open FW_RUN_DEVICE disk_list in
          match c.2 with
          | None => Done (inl (- ENODEV))
          | Some d3 => Done (inr (mk_desc d1 FW_INFO_OFFSET, mk_desc d2 FW_LOAD_OFFSET, mk_desc d3 FW_RUN_OFFSET))
          end
      end
  end.

(** ** The environment's part *)

Definition REBOOT_MAX_LIMIT : Z := 10.
Definition MIN_TIME : Z := 60.

Definition is_fw_runtime_okay (e : Env.env_reent) : bool := Env.env_getul e (cstr "runtime") >? 3600.

(** [number] is what the array in [env_setint] holds. *)
Definition is_fw_need_recovery (number : list Z) (e : Env.env_reent) : outcome (bool * Env.env_reent) :=
  if Env.env_streq e (cstr "crash") (Some (cstr "yes")) then
    let errs := Env.env_getul e (cstr "crash-cnt") in
    if errs >? REBOOT_MAX_LIMIT then Done (true, e)
    else if Env.env_getul e (cstr "runtime") <? MIN_TIME then
      let* r := Env.env_setint e (cstr "crash-cnt") (s32 errs) number in Done (false, r.2)
    else Done (false, e)
  else Done (false, e).

(** [struct nvram_desc] *)
Record nvram_desc := mk_nvram { nv_magic : Z; env_ram : list Z; crash_ram : list Z }.
Definition NVRAM_MAGIC : Z := 0x5abcdefa.

Definition sys_nvram_get (n : nvram_desc) : nvram_desc :=
  if negb (nv_magic n =? NVRAM_MAGIC)
  then mk_nvram NVRAM_MAGIC (replicate (length (env_ram n)) 0) (replicate (length (crash_ram n)) 0)
  else n.

(** The turns of [_repeat_update]. *)
Fixpoint update_loop (tries : nat) (fw_curinfo dst src : fw_desc) (notify : bool) (s : bstate) : outcome (Z * bstate) :=
  let* r := fw_copy_decomp fw_curinfo dst src notify s in
  if r.1 =? 0 then Done r
  else match tries with
  | O => Done r
  | S tries => update_loop tries fw_curinfo dst src notify r.2
  end.

(** [general_boot (boot, notify)] up to the call of [boot]: the state in which
    the firmware is started. [scratch] and [number] are what the buffers of
    the environment hold. *)
Definition general_boot (disk_list : list disk_device) (boot notify : bool) (scratch number : list Z)
    (n : nvram_desc) (e : Env.env_reent) (s : bstate) : outcome (Z + nvram_desc * Env.env_reent * bstate) :=
  if negb boot then Done (inl (- EINVAL))
  else
  let nvram := sys_nvram_get n in
  let* l := Env.env_load_ram e (Some (env_ram nvram)) (len (env_ram nvram)) scratch in
  let e := l.2 in
  let* i := bootloader_init disk_list in
  match i with
  | inl _ => Assert
  | inr (fw_curinfo, fw_loader, fw_runner) =>
      let* need := is_fw_need_update fw_loader fw_curinfo (bs_flash s) in
      let* r :=
        (if need : bool then
           let* u := update_loop 3 fw_curinfo fw_runner fw_loader notify s in
           if u.1 =? 0 then let* x := Env.env_unset e (Some (cstr "crash-cnt")) in Done (x.2, u.2)
           else Done (e, u.2)
         else
           let* q := is_fw_need_recovery number e in
           if q.1 then let* x := Env.env_set q.2 (cstr "ota-update") (cstr "yes") true in Done (x.2, s)
           else Done (q.2, s)) in
      let '(e, s) := r in
      let* e := (if is_fw_runtime_okay e then let* x := Env.env_unset e (Some (cstr "crash-cnt")) in Done x.2 else Done e) in
      let* x := Env.env_set e (cstr "crash") (cstr "yes") true in
      let* y := Env.env_unset x.2 (Some (cstr "runtime")) in
      let* z := Env.env_flush_ram y.2 (Some (env_ram nvram)) (len (env_ram nvram)) in
      let '(_, e, b) := z in
      Done (inr (mk_nvram (nv_magic nvram) (default (env_ram nvram) b) (crash_ram nvram), e, s))
  end.
End Ops.
Arguments bstate : clear implicits.

(** ** Working chips *)

(** A chip whose reads and writes within its bounds return 0. *)
Class StrictFlash (F : Type) `{Flash F} := {
  sf_read : forall d f size ofs, 0 <= ofs -> 0 <= size -> ofs + size <= len (fl_content d f) -> (drv_read d f size ofs).1 = 0;
  sf_write : forall d f src ofs, 0 <= ofs -> ofs + len src <= len (fl_content d f) -> bytes src -> (drv_write d f src ofs).1 = 0 }.

#[export] Instance nor_flash_strict : @StrictFlash chips nor_flash nor_flash_ok.
Proof.
  split; intros; simpl; unfold nor_read, nor_program;
    rewrite (proj2 (Z.leb_le 0 ofs)), (proj2 (Z.leb_le _ _)) by done; done.
Qed.

Lemma crc32_update_app c a b : Crc.crc32_update (Crc.crc32_update c a) b = Crc.crc32_update c (a ++ b).
Proof. unfold Crc.crc32_update. by rewrite Crc.not32_not32, foldl_app. Qed.

(** The bytes that fill the last block. *)
Definition pad (n : Z) : list Z := replicate (Z.to_nat ((- n) mod FW_FLASH_BLKSIZE)) 255.
Definition padded (p : list Z) : list Z := p ++ pad (len p).

Lemma len_replicate (n x : Z) : 0 <= n -> len (replicate (Z.to_nat n) x) = n.
Proof. intros. unfold len. rewrite length_replicate. lia. Qed.

Lemma len_pad n : len (pad n) = (- n) mod FW_FLASH_BLKSIZE.
Proof. apply len_replicate. apply Z.mod_pos_bound. done. Qed.

Lemma len_padded p : 0 < len p -> len p <= len (padded p) < len p + FW_FLASH_BLKSIZE /\ (FW_FLASH_BLKSIZE | len (padded p)).
Proof.
  intros Hp. unfold padded. rewrite len_app, len_pad. unfold FW_FLASH_BLKSIZE.
  pose proof (Z.mod_pos_bound (- len p) 4096). split; [lia|]. exists (- ((- len p) / 4096)).
  pose proof (Z.div_mod (- len p) 4096). lia.
Qed.

Lemma padded_short p : 0 < len p <= FW_FLASH_BLKSIZE -> padded p = p ++ replicate (Z.to_nat (FW_FLASH_BLKSIZE - len p)) 255.
Proof.
  unfold padded, pad, FW_FLASH_BLKSIZE. intros Hp. do 3 f_equal.
  destruct (decide (len p = 4096)) as [->|]; [done|].
  symmetry. apply (Z.mod_unique_pos _ _ (-1)); lia.
Qed.

Lemma padded_long p q : len p = FW_FLASH_BLKSIZE -> padded (p ++ q) = p ++ padded q.
Proof.
  unfold padded, pad, FW_FLASH_BLKSIZE. intros Hp. rewrite <- app_assoc, len_app, Hp. do 4 f_equal.
  replace (- (4096 + len q)) with (- len q + (-1) * 4096) by lia. apply Z.mod_add. lia.
Qed.

(** Writing over the front of what was written. *)
Lemma splice_over (C X src : list Z) ofs :
  0 <= ofs -> len src <= len X -> ofs + len X <= len C ->
  splice (splice C ofs X) ofs src = splice C ofs (src ++ drop (length src) X).
Proof.
  intros Ho Hs Hl. pose proof (len_nonneg src). apply list_eq. intros i.
  rewrite (lookup_splice (splice C ofs X)) by (rewrite ?len_splice by lia; lia).
  rewrite (lookup_splice C ofs X) by lia. rewrite (lookup_splice C) by (rewrite ?len_app; unfold len in *; rewrite ?length_drop; lia).
  rewrite length_app, length_drop. unfold len in *. repeat case_decide; try lia; try done.
  - rewrite lookup_app_l by lia. done.
  - rewrite lookup_app_r, lookup_drop by lia. f_equal. lia.
Qed.

Lemma slice_splice_front (C a b : list Z) ofs :
  0 <= ofs -> ofs + (len a + len b) <= len C -> slice (splice C ofs (a ++ b)) ofs (len a) = a.
Proof.
  intros Ho Hl. pose proof (len_nonneg a). pose proof (len_nonneg b).
  rewrite <- (Z.add_0_r ofs) at 2. rewrite <- (slice_slice _ ofs (len (a ++ b)) 0 (len a)) by (rewrite ?len_app; lia).
  rewrite slice_splice_same by (rewrite ?len_app; lia). unfold slice, len. rewrite Nat2Z.id. simpl. apply take_app_length.
Qed.

Section Update.
Context {F : Type} `{StrictFlash F}.

(** The one device of the configuration, and its contents. *)
Context (dd : disk_device).
Definition content (s : bstate F) : list Z := fl_content (handle dd) (bs_flash s).

(** The device is as large as its chip, and its blocks divide the buffer. *)
Record device_ok (k size : Z) : Prop := {
  do_funs : dd_read dd = true /\ dd_write dd = true /\ dd_erase dd = true;
  do_len : dd_len dd = size;
  do_size : size < 2 ^ 63;
  do_blk : dd_blk_size dd = 2 ^ k;
  do_k : 0 <= k <= 12;
  do_unit : (fl_unit (handle dd) | FW_FLASH_BLKSIZE);
}.

Record ready (size : Z) (s : bstate F) : Prop := {
  rd_len : len (content s) = size;
  rd_cache : len (fw_cache s) = FW_FLASH_BLKSIZE;
  rd_bytes : bytes (content s);
  rd_cbytes : bytes (fw_cache s);
}.

Context (k size : Z) (Hdev : device_ok k size).

Lemma cache_read_ready s n ofs :
  ready size s -> 0 <= ofs -> 0 < n <= FW_FLASH_BLKSIZE -> ofs + n <= size ->
  cache_read dd n ofs s = Done (0, mk_bs (bs_flash s) (splice (fw_cache s) 0 (slice (content s) ofs n)) (notes s)).
Proof.
  intros [R1 R2 R3 R4] Ho Hn Hl. destruct Hdev as [(D1 & _ & _) D2 D3 _ _]. unfold content in *. unfold cache_read.
  rewrite disk_read_ok by (done || lia). cbn [obind].
  destruct (fl_read (handle dd) (bs_flash s) n ofs) as (r & _ & E); [lia..|].
  pose proof (sf_read (handle dd) (bs_flash s) n ofs) as E0. rewrite E in *. simpl in E0. rewrite E0 by lia. cbn [snd].
  rewrite mem_write_ok; [done|lia|]. rewrite len_slice by lia. lia.
Qed.

Lemma ready_read s n ofs :
  ready size s -> 0 <= ofs -> 0 <= n <= FW_FLASH_BLKSIZE -> ofs + n <= size ->
  ready size (mk_bs (bs_flash s) (splice (fw_cache s) 0 (slice (content s) ofs n)) (notes s)).
Proof.
  intros [R1 R2 R3 R4] Ho Hn Hl. split; try done; simpl.
  - rewrite len_splice; [done|lia|]. rewrite len_slice; lia.
  - by apply bytes_splice; [|apply bytes_slice].
Qed.

Lemma flash_erase_ready s ofs :
  ready size s -> 0 <= ofs -> (FW_FLASH_BLKSIZE | ofs) -> ofs + FW_FLASH_BLKSIZE <= size ->
  exists f, flash_erase dd ofs FW_FLASH_BLKSIZE s = Done (0, mk_bs f (fw_cache s) (notes s))
    /\ fl_content (handle dd) f = splice (content s) ofs (replicate (Z.to_nat FW_FLASH_BLKSIZE) 255).
Proof.
  intros [R1 R2 R3 R4] Ho Ha Hl. destruct Hdev as [(_ & _ & D1) D2 D3 D4 D5 D6]. unfold content, flash_erase, FW_FLASH_BLKSIZE in *.
  assert ((2 ^ k | 4096)) as Hk.
  { exists (2 ^ (12 - k)). rewrite <- Z.pow_add_r by lia. by replace (12 - k + k) with 12 by lia. }
  rewrite (disk_erase_ok dd (bs_flash s) ofs 4096 k); [|done|done|lia|lia|lia|lia|lia|by transitivity 4096|done].
  destruct (fl_erase (handle dd) (bs_flash s) ofs 4096) as (f & E & C & _); [lia..|by transitivity 4096|done|].
  rewrite E. cbn [obind fst snd]. by exists f.
Qed.

(** Erasing a block and writing the front of it. *)
Lemma block_programmed C f f' ofs src new :
  len src <= FW_FLASH_BLKSIZE -> 0 <= ofs -> ofs + FW_FLASH_BLKSIZE <= len C ->
  fl_content (handle dd) f = splice C ofs (replicate (Z.to_nat FW_FLASH_BLKSIZE) 255) ->
  fl_content (handle dd) f' = splice (fl_content (handle dd) f) ofs new ->
  (slice (fl_content (handle dd) f) ofs (len src) = replicate (length src) 255 -> new = src) ->
  fl_content (handle dd) f' = splice C ofs (src ++ replicate (Z.to_nat (FW_FLASH_BLKSIZE - len src)) 255).
Proof.
  intros Hs Ho Hl -> -> Hnew. pose proof (len_nonneg src) as Hs0.
  assert (replicate (Z.to_nat FW_FLASH_BLKSIZE) 255
    = replicate (Z.to_nat (len src)) 255 ++ replicate (Z.to_nat (FW_FLASH_BLKSIZE - len src)) 255) as Erep.
  { rewrite <- replicate_add. f_equal. lia. }
  rewrite Erep in Hnew |- *. rewrite Hnew.
  2: { pose proof (slice_splice_front C (replicate (Z.to_nat (len src)) 255) (replicate (Z.to_nat (FW_FLASH_BLKSIZE - len src)) 255) ofs) as E.
    rewrite !len_replicate in E by lia. unfold len in *. rewrite Nat2Z.id in *.
    apply E; lia. }
  rewrite splice_over by (rewrite ?len_app, ?len_replicate; lia).
  do 2 f_equal. unfold len. rewrite Nat2Z.id. rewrite drop_app_ge by (rewrite length_replicate; lia).
  by rewrite length_replicate, Nat.sub_diag.
Qed.

(** A block is erased, and its front written from the buffer [c]. *)
Lemma program_ready s ofs n :
  ready size s -> 0 <= ofs -> (FW_FLASH_BLKSIZE | ofs) -> ofs + FW_FLASH_BLKSIZE <= size -> 0 < n <= FW_FLASH_BLKSIZE ->
  exists s1, flash_erase dd ofs FW_FLASH_BLKSIZE s = Done (0, s1) /\ fw_cache s1 = fw_cache s
    /\ forall c, len c = FW_FLASH_BLKSIZE -> bytes c -> exists s2,
       cache_write dd n ofs (mk_bs (bs_flash s1) c (notes s1)) = Done (0, s2)
       /\ content s2 = splice (content s) ofs (slice c 0 n ++ replicate (Z.to_nat (FW_FLASH_BLKSIZE - n)) 255)
       /\ ready size s2 /\ fw_cache s2 = c.
Proof.
  intros Hr Ho Ha Hl Hn. destruct (flash_erase_ready s ofs Hr Ho Ha Hl) as (f1 & E1 & C1).
  pose proof Hr as [R1 R2 R3 R4]. destruct Hdev as [(_ & D1 & _) D2 D3 D4 D5 _].
  exists (mk_bs f1 (fw_cache s) (notes s)). split; [done|]. split; [done|]. intros c Hc1 Hc2. cbn [bs_flash notes].
  set (src := slice c 0 n). assert (len src = n) as Hsl by (unfold src; rewrite len_slice; lia).
  assert (bytes src) as Hsb by (by apply bytes_slice).
  assert (len (fl_content (handle dd) f1) = size) as L1.
  { rewrite C1, len_splice; [done|lia|]. rewrite len_replicate; unfold FW_FLASH_BLKSIZE in *; lia. }
  destruct (fl_write (handle dd) f1 src ofs Ho) as (r & f2 & new & _ & E2 & C2 & _ & N2 & _); [lia|done|].
  pose proof (sf_write (handle dd) f1 src ofs Ho) as E0. rewrite E2 in E0. simpl in E0. rewrite E0 in E2 by (done || lia).
  pose proof (block_programmed (content s) f1 f2 ofs src new) as C3. rewrite Hsl in C3, N2.
  specialize (C3 ltac:(lia) Ho ltac:(lia) C1 C2 N2).
  assert (len (src ++ replicate (Z.to_nat (FW_FLASH_BLKSIZE - n)) 255) = FW_FLASH_BLKSIZE) as L2
    by (rewrite len_app, len_replicate; lia).
  exists (mk_bs f2 c (notes s)). split; [|split; [done|split; [|done]]].
  - unfold cache_write. cbn [bs_flash fw_cache notes]. rewrite disk_write_ok by (done || lia). fold src. by rewrite E2.
  - split; unfold content; cbn [bs_flash fw_cache]; try done; rewrite C3.
    + rewrite len_splice; lia.
    + apply bytes_splice; [done|]. apply Forall_app. split; [done|]. apply Forall_replicate. lia.
Qed.

Lemma turns_step (p : list Z) : FW_FLASH_BLKSIZE < len p ->
  len (drop (Z.to_nat FW_FLASH_BLKSIZE) p) = len p - FW_FLASH_BLKSIZE
  /\ Z.to_nat (len p / FW_FLASH_BLKSIZE) = S (Z.to_nat (len (drop (Z.to_nat FW_FLASH_BLKSIZE) p) / FW_FLASH_BLKSIZE)).
Proof.
  intros Hp. assert (len (drop (Z.to_nat FW_FLASH_BLKSIZE) p) = len p - FW_FLASH_BLKSIZE) as E.
  { unfold len, FW_FLASH_BLKSIZE in *. rewrite length_drop. lia. }
  split; [done|]. rewrite E. unfold FW_FLASH_BLKSIZE in *.
  replace (len p) with (len p - 4096 + 1 * 4096) at 1 by lia. rewrite Z.div_add by lia.
  pose proof (Z.div_pos (len p - 4096) 4096). lia.
Qed.

(** The bytes of one turn. *)
Lemma take_turn (p : list Z) : 0 < len p ->
  let b := take (Z.to_nat (Z.min (len p) FW_FLASH_BLKSIZE)) p in
  len b = Z.min (len p) FW_FLASH_BLKSIZE /\ (len p <= FW_FLASH_BLKSIZE -> b = p)
  /\ (FW_FLASH_BLKSIZE < len p -> p = b ++ drop (Z.to_nat FW_FLASH_BLKSIZE) p).
Proof.
  intros Hp b. split; [unfold b, len in *; rewrite length_take; unfold FW_FLASH_BLKSIZE; lia|]. split; intros Hl; unfold b.
  - apply take_ge. unfold len in *. lia.
  - rewrite Z.min_r by lia. symmetry. apply take_drop.
Qed.

Lemma slice_take (C : list Z) o n m : 0 <= m <= n -> slice C o m = take (Z.to_nat m) (slice C o n).
Proof. intros. unfold slice. rewrite take_take. f_equal. lia. Qed.
Lemma slice_drop (C : list Z) o n m : 0 <= o -> 0 <= m <= n -> slice C (o + m) (n - m) = drop (Z.to_nat m) (slice C o n).
Proof.
  intros. unfold slice. rewrite drop_take_drop || rewrite <- skipn_firstn_comm || idtac.
  rewrite Z2Nat.inj_add, <- drop_drop, Z2Nat.inj_sub by lia. rewrite firstn_skipn_comm.
  replace (Z.to_nat m + (Z.to_nat n - Z.to_nat m))%nat with (Z.to_nat n) by lia. done.
Qed.

(** The copying loop puts the image, filled up to whole blocks, in place. *)
Lemma copy_loop_ok fuel isize sd so do p ofs phase s :
  (Z.to_nat (len p / FW_FLASH_BLKSIZE) < fuel)%nat -> 0 < len p ->
  0 <= so -> 0 <= ofs -> 0 <= do -> so + len p <= size -> do + ofs + len (padded p) <= size ->
  (FW_FLASH_BLKSIZE | do + ofs) -> 0 < isize < 2 ^ 31 ->
  so + len p <= do + ofs \/ do + ofs + len (padded p) <= so ->
  ready size s -> slice (content s) so (len p) = p ->
  exists phase' s', copy_loop fuel (mk_desc dd do) (mk_desc dd sd) isize (len p) ofs so phase s = Done (0, phase', s')
    /\ ready size s' /\ content s' = splice (content s) (do + ofs) (padded p).
Proof.
  revert p so ofs phase s. induction fuel as [|fuel IH]; [lia|].
  intros p so ofs phase s Hf Hp Hso Hofs Hdo Hs Hd Ha Hi Hdis Hr Hsl.
  pose proof (len_padded p Hp) as [Hpl Hpd]. pose proof (do_size _ _ Hdev) as Hsz.
  destruct (take_turn p Hp) as (Hb & Hshort & Hlong). set (n := Z.min (len p) FW_FLASH_BLKSIZE) in *.
  set (b := take (Z.to_nat n) p) in *.
  assert (0 < n <= FW_FLASH_BLKSIZE /\ n <= len p) as [Hn Hnp] by (unfold n, FW_FLASH_BLKSIZE; lia).
  assert (FW_FLASH_BLKSIZE <= len (padded p)) as Hone.
  { destruct Hpd as [q Hq]. rewrite Hq. unfold FW_FLASH_BLKSIZE in *. nia. }
  cbn [copy_loop fd_dd fd_offset]. rewrite Z.gtb_ltb, (proj2 (Z.ltb_lt _ _)) by lia. cbn [negb]. fold n.
  rewrite cache_read_ready by (done || lia). cbn [obind]. change (negb (0 =? 0)) with false. cbn iota.
  assert (slice (content s) so n = b) as Hread by (rewrite (slice_take _ _ (len p)), Hsl by lia; done).
  rewrite Hread. pose proof (ready_read s n so Hr) as Hr1. rewrite Hread in Hr1. specialize (Hr1 ltac:(lia) ltac:(lia) ltac:(lia)).
  set (s1 := mk_bs (bs_flash s) (splice (fw_cache s) 0 b) (notes s)) in *.
  assert (u64 (do + ofs) = do + ofs) as -> by (apply wrap_small; split; lia).
  destruct (program_ready s1 (do + ofs) n Hr1) as (s2 & -> & Hc2 & Hw); [lia|done|lia|lia|]. cbn [obind]. change (negb (0 =? 0)) with false. cbn iota.
  assert (s2 = mk_bs (bs_flash s2) (fw_cache s2) (notes s2)) as -> by (by destruct s2).
  destruct (Hw (fw_cache s2)) as (s3 & E3 & C3 & Hr3 & _); [rewrite Hc2; apply Hr1|rewrite Hc2; apply Hr1|].
  rewrite E3. cbn [obind]. change (negb (0 =? 0)) with false. cbn iota.
  assert (slice (fw_cache s2) 0 n = b) as Hsl2.
  { rewrite Hc2. unfold s1. cbn [fw_cache]. rewrite <- Hb. apply slice_splice_same; [lia|]. rewrite Hb.
    rewrite (rd_cache _ _ Hr). lia. }
  rewrite Hsl2 in C3. change (content s1) with (content s) in C3.
  unfold percent. assert (u32 (Z.shiftl isize 1) = 2 * isize) as ->.
  { rewrite Z.shiftl_mul_pow2 by lia. rewrite wrap_small; [lia|]. split; lia. }
  rewrite (proj2 (Z.eqb_neq (2 * isize) 0)) by lia. cbn [negb obind].
  destruct (ota_progress_indicate phase _ s3) as [phase4 s4] eqn:E4.
  assert (ready size s4 /\ content s4 = content s3) as [Hr4 C4].
  { unfold ota_progress_indicate in E4. destruct (_ && _); injection E4 as <- <-; [|done].
    destruct Hr3; by split; [split|]. }
  destruct (Z.leb_spec (len p) FW_FLASH_BLKSIZE) as [Hle|Hgt].
  - assert (n = len p) as -> by (unfold n; lia). rewrite Z.sub_diag.
    exists phase4, s4. split; [by destruct fuel|]. split; [done|]. rewrite C4, C3, Hshort by done. by rewrite padded_short by lia.
  - assert (n = FW_FLASH_BLKSIZE) as En by (unfold n; lia). rewrite En in *.
    destruct (turns_step p Hgt) as [Hdl Hdt]. set (q := drop (Z.to_nat FW_FLASH_BLKSIZE) p) in *.
    rewrite Z.sub_diag, app_nil_r in C3. specialize (Hlong Hgt).
    assert (padded p = b ++ padded q) as Epad by (rewrite Hlong; by apply padded_long).
    rewrite Epad, len_app, Hb in Hd, Hdis. rewrite <- Hdl.
    assert (u64 (so + FW_FLASH_BLKSIZE) = so + FW_FLASH_BLKSIZE) as -> by (apply wrap_small; split; unfold FW_FLASH_BLKSIZE in *; lia).
    destruct (IH q (so + FW_FLASH_BLKSIZE) (ofs + FW_FLASH_BLKSIZE) phase4 s4) as (phase' & s' & E & Hr' & C'); try done; try (unfold FW_FLASH_BLKSIZE in *; lia).
    + rewrite Z.add_assoc. apply Z.divide_add_r; [done|]. by exists 1.
    + pose proof (len_nonneg (padded q)). rewrite C4, C3.
      rewrite slice_splice_other; [|lia|rewrite Hb, (rd_len _ _ Hr); lia|unfold FW_FLASH_BLKSIZE in *; lia|rewrite Hb; lia].
      rewrite Hdl, (slice_drop _ _ (len p)) by (unfold FW_FLASH_BLKSIZE in *; lia). by rewrite Hsl.
    + exists phase', s'. split; [done|]. split; [done|]. rewrite C', C4, C3, Epad.
      rewrite splice_app, Hb by (rewrite ?Hb, ?(rd_len _ _ Hr); unfold FW_FLASH_BLKSIZE in *; lia). f_equal. lia.
Qed.

(** The CRC loops read the image and change nothing but the buffer. *)
Definition same_flash (s s' : bstate F) : Prop := bs_flash s' = bs_flash s.

Lemma turn_read s ofs (p : list Z) :
  ready size s -> 0 < len p -> 0 <= ofs -> ofs + len p <= size -> slice (content s) ofs (len p) = p ->
  let n := Z.min (len p) FW_FLASH_BLKSIZE in
  let b := take (Z.to_nat n) p in
  exists s1, cache_read dd n ofs s = Done (0, s1) /\ ready size s1 /\ same_flash s s1
    /\ mem_read (fw_cache s1) 0 n = Done b /\ notes s1 = notes s.
Proof.
  intros Hr Hp Ho Hl Hsl n b. destruct (take_turn p Hp) as (Hb & _ & _). fold n b in Hb.
  assert (0 < n <= FW_FLASH_BLKSIZE /\ n <= len p) as [Hn Hnp] by (unfold n, FW_FLASH_BLKSIZE; lia).
  rewrite cache_read_ready by (done || lia).
  assert (slice (content s) ofs n = b) as Hread by (rewrite (slice_take _ _ (len p)), Hsl by lia; done).
  rewrite Hread. pose proof (ready_read s n ofs Hr) as Hr1. rewrite Hread in Hr1. specialize (Hr1 ltac:(lia) ltac:(lia) ltac:(lia)).
  eexists. split; [done|]. split; [done|]. split; [done|]. split; [|done]. pose proof (rd_cache _ _ Hr1) as Hc1. cbn [fw_cache] in Hc1 |- *.
  rewrite mem_read_ok by lia. f_equal. rewrite <- Hb.
  apply slice_splice_same; [lia|]. rewrite (rd_cache _ _ Hr). lia.
Qed.

Lemma next_slice s s1 ofs (p : list Z) :
  same_flash s s1 -> FW_FLASH_BLKSIZE < len p -> 0 <= ofs -> slice (content s) ofs (len p) = p ->
  let q := drop (Z.to_nat FW_FLASH_BLKSIZE) p in slice (content s1) (ofs + FW_FLASH_BLKSIZE) (len q) = q.
Proof.
  intros Hs Hp Ho Hsl q. unfold q. clear q. unfold content. rewrite Hs. destruct (turns_step p Hp) as [-> _].
  rewrite (slice_drop _ _ (len p)) by (unfold FW_FLASH_BLKSIZE in *; lia). unfold content in Hsl. by rewrite Hsl.
Qed.

Lemma crc_loop_ok fuel p ofs crc s :
  (Z.to_nat (len p / FW_FLASH_BLKSIZE) < fuel)%nat -> 0 <= ofs -> ofs + len p <= size ->
  ready size s -> slice (content s) ofs (len p) = p ->
  exists s', crc_loop fuel dd (len p) ofs crc s = Done (inr (Crc.crc32_update crc p), s') /\ ready size s' /\ same_flash s s'.
Proof.
  revert p ofs crc s. induction fuel as [|fuel IH]; [lia|]. intros p ofs crc s Hf Ho Hl Hr Hsl.
  pose proof (do_size _ _ Hdev) as Hsz. cbn [crc_loop]. rewrite Z.gtb_ltb.
  destruct (Z.ltb_spec 0 (len p)) as [Hp|Hp]; cbn [negb].
  - destruct (turn_read s ofs p Hr Hp Ho Hl Hsl) as (s1 & -> & Hr1 & Hs1 & Hm & _). cbn [obind].
    change (negb (0 =? 0)) with false. cbn iota. rewrite Hm. cbn [obind].
    destruct (take_turn p Hp) as (Hb & Hshort & Hlong).
    destruct (Z.leb_spec (len p) FW_FLASH_BLKSIZE) as [Hle|Hgt].
    + rewrite Hshort by done. rewrite Z.min_l, Z.sub_diag by lia. exists s1. split; [|done]. destruct fuel; done.
    + destruct (turns_step p Hgt) as [Hdl Hdt]. specialize (Hlong Hgt). rewrite Z.min_r in * by lia.
      set (q := drop (Z.to_nat FW_FLASH_BLKSIZE) p) in *. rewrite <- Hdl.
      assert (u64 (ofs + FW_FLASH_BLKSIZE) = ofs + FW_FLASH_BLKSIZE) as -> by (apply wrap_small; split; unfold FW_FLASH_BLKSIZE in *; lia).
      destruct (IH q (ofs + FW_FLASH_BLKSIZE) (Crc.crc32_update crc (take (Z.to_nat FW_FLASH_BLKSIZE) p)) s1) as (s' & E & Hr' & Hs');
        [lia|unfold FW_FLASH_BLKSIZE in *; lia|lia|done|by apply (next_slice s)|].
      exists s'. split; [|split; [done|unfold same_flash in *; congruence]].
      rewrite E, crc32_update_app. do 3 f_equal. by rewrite <- Hlong.
  - assert (p = []) as -> by (destruct p; [done|rewrite len_cons in Hp; pose proof (len_nonneg p); lia]).
    exists s. split; [|done]. unfold Crc.crc32_update. simpl. by rewrite Crc.not32_not32.
Qed.

(** The header goes to the front of its block, the rest of which is kept. *)
Definition with_header (C : list Z) (io : Z) (h : list Z) : list Z :=
  splice C io (take (Z.to_nat SIZEOF_POINTER) h).

Lemma fw_save_header_ok s io h :
  ready size s -> 0 <= io -> (FW_FLASH_BLKSIZE | io) -> io + FW_FLASH_BLKSIZE <= size -> len h = SIZEOF_HEADER -> bytes h ->
  exists s', fw_save_header (mk_desc dd io) h s = Done (0, s') /\ ready size s' /\ content s' = with_header (content s) io h.
Proof.
  intros Hr Ho Ha Hl Hh Hb. unfold fw_save_header. cbn [fd_dd fd_offset]. pose proof Hr as [R1 R2 R3 R4].
  set (t := take (Z.to_nat SIZEOF_POINTER) h).
  assert (len t = SIZEOF_POINTER) as Ht by (unfold t, len, SIZEOF_HEADER, SIZEOF_POINTER in *; rewrite length_take; lia).
  set (blk := slice (content s) io FW_FLASH_BLKSIZE).
  assert (len blk = FW_FLASH_BLKSIZE) as Hblk by (unfold blk; apply len_slice; unfold FW_FLASH_BLKSIZE in *; lia).
  rewrite cache_read_ready by (done || unfold FW_FLASH_BLKSIZE in *; lia). cbn [obind]. change (negb (0 =? 0)) with false. cbn iota. fold blk.
  pose proof (ready_read s FW_FLASH_BLKSIZE io Hr) as Hr1. fold blk in Hr1. specialize (Hr1 ltac:(lia) ltac:(unfold FW_FLASH_BLKSIZE; lia) ltac:(lia)).
  rewrite splice_all in Hr1 |- * by lia.
  destruct (program_ready _ io FW_FLASH_BLKSIZE Hr1) as (s2 & -> & Hc2 & Hw); [lia|done|lia|unfold FW_FLASH_BLKSIZE; lia|].
  cbn [obind]. change (negb (0 =? 0)) with false. cbn iota. rewrite Hc2. cbn [fw_cache].
  rewrite mem_write_ok by (unfold SIZEOF_POINTER, FW_FLASH_BLKSIZE in *; lia). cbn [obind].
  destruct (Hw (splice blk 0 t)) as (s3 & -> & C3 & Hr3 & _).
  { rewrite len_splice; unfold SIZEOF_POINTER, FW_FLASH_BLKSIZE in *; lia. }
  { apply bytes_splice; [by apply bytes_slice|by apply Forall_take]. }
  cbn [obind]. change (negb (0 =? 0)) with false. cbn iota. exists s3. split; [done|]. split; [done|].
  rewrite C3, Z.sub_diag, app_nil_r. unfold with_header. fold t. change (content _) with (content s).
  assert (slice (splice blk 0 t) 0 FW_FLASH_BLKSIZE = splice blk 0 t) as ->.
  { unfold slice. simpl. apply take_ge. rewrite length_splice; unfold len, SIZEOF_POINTER, FW_FLASH_BLKSIZE in *; lia. }
  unfold SIZEOF_POINTER, FW_FLASH_BLKSIZE in *. apply list_eq. intros i.
  rewrite !lookup_splice by (rewrite ?len_splice; lia).
  pose proof (lookup_slice (content s) io 4096) as Hbk. fold blk in Hbk. rewrite Hbk.
  rewrite length_splice by lia. unfold len in *. repeat case_decide; try lia; try done; f_equal; lia.
Qed.

(** The image at [so]: a header, and a payload that it describes. *)
Record image_at (C : list Z) (so : Z) (h p : list Z) : Prop := {
  im_header : slice C so SIZEOF_HEADER = h;
  im_hlen : len h = SIZEOF_HEADER;
  im_payload : slice C (so + SIZEOF_HEADER) (len p) = p;
  im_magic : fh_magic h = FH_MAGIC;
  im_size : fh_size h <= fh_isize h;
  im_isize : fh_isize h = len p;
  im_crc : fh_dcrc h = Crc.crc32_update 0 p;
}.

Lemma is_fw_valid_ok s so h p :
  ready size s -> 0 <= so -> so + SIZEOF_HEADER + len p <= size -> image_at (content s) so h p ->
  exists s', is_fw_valid (mk_desc dd so) s = Done (true, Some h, s') /\ ready size s' /\ same_flash s s'.
Proof.
  intros Hr Ho Hl [I1 I2 I3 I4 I5 I6 I7]. unfold is_fw_valid. cbn [fd_dd fd_offset]. pose proof (len_nonneg p).
  pose proof Hr as [R1 R2 R3 R4]. pose proof Hdev as [(D1 & _ & _) D2 D3 _ _]. unfold SIZEOF_HEADER in *.
  rewrite disk_read_ok by (done || lia). cbn [obind].
  destruct (fl_read (handle dd) (bs_flash s) 64 so) as (r & _ & E); [unfold content in *; lia..|].
  pose proof (sf_read (handle dd) (bs_flash s) 64 so) as E0. rewrite E in *. simpl in E0. rewrite E0 by (unfold content in *; lia). cbn [fst snd].
  change (negb (0 =? 0)) with false. cbn iota. change (slice (fl_content (handle dd) (bs_flash s)) so 64) with (slice (content s) so 64).
  rewrite I1, I4, Z.eqb_refl, Z.gtb_ltb, (proj2 (Z.ltb_ge _ _)), I6 by lia. cbn [negb].
  rewrite wrap_small by (split; lia).
  destruct (crc_loop_ok (turns (len p)) p (so + 64) 0 s) as (s' & -> & Hr' & Hs'); [unfold turns; lia|lia|lia|done|done|].
  cbn [obind]. rewrite I7, Z.eqb_refl. cbn [negb]. by exists s'.
Qed.

(** The verifying loop, where the image is in place. *)
Lemma verify_loop_ok fuel io do h p ofs crc phase s :
  (Z.to_nat (len p / FW_FLASH_BLKSIZE) < fuel)%nat -> 0 < len p -> 0 <= do -> 0 <= ofs -> do + ofs + len p <= size ->
  0 < fh_isize h < 2 ^ 31 -> Crc.crc32_update crc p = fh_dcrc h ->
  0 <= io -> (FW_FLASH_BLKSIZE | io) -> io + FW_FLASH_BLKSIZE <= size -> len h = SIZEOF_HEADER -> bytes h ->
  ready size s -> slice (content s) (do + ofs) (len p) = p ->
  exists s', verify_loop fuel (mk_desc dd io) (mk_desc dd do) h (len p) ofs crc phase s = Done (0, s')
    /\ ready size s' /\ content s' = with_header (content s) io h.
Proof.
  revert p ofs crc phase s. induction fuel as [|fuel IH]; [lia|].
  intros p ofs crc phase s Hf Hp Hdo Hofs Hl Hi Hcrc Hio Ha Hil Hh Hb Hr Hsl. pose proof (do_size _ _ Hdev) as Hsz.
  cbn [verify_loop fd_dd fd_offset]. rewrite Z.gtb_ltb, (proj2 (Z.ltb_lt _ _)) by lia. cbn [negb].
  rewrite wrap_small by (split; lia).
  destruct (turn_read s (do + ofs) p Hr Hp) as (s1 & -> & Hr1 & Hs1 & Hm & _); [lia|lia|done|]. cbn [obind].
  change (negb (0 =? 0)) with false. cbn iota. rewrite Hm. cbn [obind].
  destruct (take_turn p Hp) as (Hbl & Hshort & Hlong).
  destruct (Z.leb_spec (len p) FW_FLASH_BLKSIZE) as [Hle|Hgt].
  - rewrite Hshort by done. rewrite Z.min_l, Z.sub_diag by lia. cbn [Z.eqb]. rewrite Hcrc, Z.eqb_refl. cbn [negb].
    destruct (fw_save_header_ok s1 io h Hr1) as (s' & -> & Hr' & C'); try done. cbn [obind].
    exists s'. split; [done|]. split; [done|]. rewrite C'. unfold content. by rewrite Hs1.
  - destruct (turns_step p Hgt) as [Hdl Hdt]. specialize (Hlong Hgt). rewrite Z.min_r in * by lia.
    set (q := drop (Z.to_nat FW_FLASH_BLKSIZE) p) in *. rewrite <- Hdl.
    assert (0 < len q) by (rewrite Hdl; lia). rewrite (proj2 (Z.eqb_neq _ _)) by lia.
    unfold percent. assert (u32 (Z.shiftl (fh_isize h) 1) = 2 * fh_isize h) as ->.
    { rewrite Z.shiftl_mul_pow2 by lia. rewrite wrap_small; [lia|]. split; lia. }
    rewrite (proj2 (Z.eqb_neq (2 * fh_isize h) 0)) by lia. cbn [negb obind].
    destruct (ota_progress_indicate phase _ s1) as [phase4 s4] eqn:E4.
    assert (ready size s4 /\ same_flash s1 s4) as [Hr4 Hs4].
    { unfold ota_progress_indicate in E4. destruct (_ && _); injection E4 as <- <-; [|done]. destruct Hr1; by split; [split|]. }
    assert (same_flash s s4) as Hss by (unfold same_flash in *; congruence).
    destruct (IH q (ofs + FW_FLASH_BLKSIZE) (Crc.crc32_update crc (take (Z.to_nat FW_FLASH_BLKSIZE) p)) phase4 s4) as (s' & E & Hr' & C');
      try done; try (unfold FW_FLASH_BLKSIZE in *; lia).
    + rewrite crc32_update_app. by rewrite <- Hlong.
    + rewrite Z.add_assoc. apply (next_slice s); try done. lia.
    + exists s'. split; [done|]. split; [done|]. rewrite C'. unfold content. by rewrite Hss.
Qed.

(** Two ranges that do not meet. *)
Definition apart (a n b m : Z) : Prop := a + n <= b \/ b + m <= a.

(** Where the three regions of the update lie. *)
Record layout_ok (so do io n : Z) : Prop := {
  lo_bounds : 0 <= so /\ 0 <= do /\ 0 <= io;
  lo_in : so + SIZEOF_HEADER + n <= size /\ do + (n + (- n) mod FW_FLASH_BLKSIZE) <= size /\ io + FW_FLASH_BLKSIZE <= size;
  lo_aligned : (FW_FLASH_BLKSIZE | do) /\ (FW_FLASH_BLKSIZE | io);
  lo_src_dst : apart so (SIZEOF_HEADER + n) do (n + (- n) mod FW_FLASH_BLKSIZE);
  lo_src_info : apart so (SIZEOF_HEADER + n) io FW_FLASH_BLKSIZE;
  lo_dst_info : apart do (n + (- n) mod FW_FLASH_BLKSIZE) io FW_FLASH_BLKSIZE;
}.

Lemma read_content s n ofs :
  ready size s -> 0 <= ofs -> 0 < n -> ofs + n <= size ->
  disk_device_read dd (bs_flash s) true n ofs = Done (0, slice (content s) ofs n).
Proof.
  intros [R1 R2 R3 R4] Ho Hn Hl. destruct Hdev as [(D1 & _ & _) D2 D3 _ _]. unfold content in *.
  rewrite disk_read_ok by (done || lia).
  destruct (fl_read (handle dd) (bs_flash s) n ofs) as (r & _ & E); [lia..|].
  pose proof (sf_read (handle dd) (bs_flash s) n ofs) as E0. rewrite E in *. simpl in E0. by rewrite E0 by lia.
Qed.

Lemma le_u32_take (l : list Z) n ofs : (ofs + 3 < n)%nat -> le_u32 (take n l) ofs = le_u32 l ofs.
Proof.
  intros Hn. unfold le_u32. rewrite !(nth_lookup (take n l)), !(nth_lookup l), !lookup_take_lt by lia. done.
Qed.

Lemma with_header_slice C io h : 0 <= io -> io + SIZEOF_POINTER <= len C -> len h = SIZEOF_HEADER ->
  slice (with_header C io h) io SIZEOF_POINTER = take (Z.to_nat SIZEOF_POINTER) h.
Proof.
  intros Ho Hl Hh. unfold with_header.
  assert (len (take (Z.to_nat SIZEOF_POINTER) h) = SIZEOF_POINTER) as Ht
    by (unfold len, SIZEOF_HEADER, SIZEOF_POINTER in *; rewrite length_take; lia).
  rewrite <- Ht at 2. apply slice_splice_same; lia.
Qed.

Lemma with_header_other C io h a n : 0 <= io -> io + FW_FLASH_BLKSIZE <= len C -> 0 <= a -> len h = SIZEOF_HEADER ->
  apart a n io FW_FLASH_BLKSIZE -> slice (with_header C io h) a n = slice C a n.
Proof.
  intros Ho Hl Ha Hh Hd. unfold with_header, apart, FW_FLASH_BLKSIZE, SIZEOF_HEADER, SIZEOF_POINTER in *.
  assert (len (take (Z.to_nat 16) h) = 16) as Ht by (unfold len in *; rewrite length_take; lia).
  apply slice_splice_other; lia.
Qed.

Lemma update_ok so do io h p notify s :
  ready size s -> image_at (content s) so h p -> 0 < len p < 2 ^ 31 -> layout_ok so do io (len p) ->
  exists s', fw_copy_decomp (mk_desc dd io) (mk_desc dd do) (mk_desc dd so) notify s = Done (0, s')
    /\ ready size s' /\ content s' = with_header (splice (content s) do (padded p)) io h.
Proof.
  intros Hr Him Hp [(L1 & L2 & L3) (L4 & L5 & L6) (L7 & L8) L9 L10 L11]. pose proof (do_size _ _ Hdev) as Hsz.
  assert (len (padded p) = len p + (- len p) mod FW_FLASH_BLKSIZE) as Hpad by (unfold padded; by rewrite len_app, len_pad).
  rewrite <- Hpad in *. pose proof (len_padded p) as [Hpl _]; [lia|].
  unfold fw_copy_decomp. destruct (is_fw_valid_ok s so h p Hr) as (s1 & -> & Hr1 & Hs1); [lia|lia|done|].
  cbn [obind negb default from_option id]. pose proof Him as [I1 I2 I3 I4 I5 I6 I7]. rewrite I6. cbn [fd_offset].
  assert (content s1 = content s) as Hc1 by (unfold content; by rewrite Hs1).
  rewrite wrap_small by (unfold SIZEOF_HEADER in *; split; lia).
  destruct (copy_loop_ok (turns (len p)) (len p) so (so + SIZEOF_HEADER) do p 0 (mk_ind notify 0) s1)
    as (ph & s2 & -> & Hr2 & C2); try done; try (unfold turns, SIZEOF_HEADER in *; lia); rewrite ?Z.add_0_r; try done.
  { unfold apart, SIZEOF_HEADER in *. lia. }
  { by rewrite Hc1. }
  cbn [obind]. change (negb (0 =? 0)) with false. cbn iota. rewrite Z.add_0_r in C2.
  assert (bytes h) as Hbh by (rewrite <- I1; apply bytes_slice, Hr).
  destruct (verify_loop_ok (turns (len p)) io do h p 0 0 ph s2) as (s3 & -> & Hr3 & C3);
    try done; try (unfold turns in *; lia).
  { rewrite Z.add_0_r, C2. unfold padded in *. rewrite len_app in *. apply slice_splice_front; rewrite ?Hc1, ?(rd_len _ _ Hr); lia. }
  exists s3. split; [done|]. split; [done|]. by rewrite C3, C2, Hc1.
Qed.

Lemma update_image so do io h p s s' :
  ready size s -> image_at (content s) so h p -> 0 < len p -> layout_ok so do io (len p) ->
  content s' = with_header (splice (content s) do (padded p)) io h ->
  slice (content s') do (len p) = p /\ image_at (content s') so h p /\ slice (content s') io SIZEOF_POINTER = take (Z.to_nat SIZEOF_POINTER) h.
Proof.
  intros Hr Him Hp [(L1 & L2 & L3) (L4 & L5 & L6) (L7 & L8) L9 L10 L11] ->. pose proof Him as [I1 I2 I3 I4 I5 I6 I7].
  assert (len (padded p) = len p + (- len p) mod FW_FLASH_BLKSIZE) as Hpad by (unfold padded; by rewrite len_app, len_pad).
  rewrite <- Hpad in *. pose proof (len_padded p) as [Hpl _]; [lia|].
  assert (len (splice (content s) do (padded p)) = size) as Hl1 by (rewrite len_splice; rewrite ?(rd_len _ _ Hr); lia).
  assert (forall a n, 0 <= a -> 0 <= n -> so <= a -> a + n <= so + (SIZEOF_HEADER + len p) ->
    slice (with_header (splice (content s) do (padded p)) io h) a n = slice (content s) a n) as Hsrc.
  { intros a n Ha Hn Hx1 Hx2. rewrite with_header_other by (try done; rewrite ?Hl1; unfold apart in *; lia).
    apply slice_splice_other; rewrite ?(rd_len _ _ Hr); unfold apart in *; lia. }
  split; [|split].
  - rewrite with_header_other by (try done; rewrite ?Hl1; unfold apart in *; lia).
    unfold padded in *. rewrite len_app in *. apply slice_splice_front; rewrite ?(rd_len _ _ Hr); lia.
  - split; try done; rewrite Hsrc; try done; unfold SIZEOF_HEADER in *; lia.
  - apply with_header_slice; unfold SIZEOF_POINTER, FW_FLASH_BLKSIZE in *; try done; lia.
Qed.

Lemma no_need_update so io h p s :
  ready size s -> 0 <= so -> 0 <= io -> so + SIZEOF_HEADER + len p <= size -> io + FW_FLASH_BLKSIZE <= size ->
  image_at (content s) so h p -> slice (content s) io SIZEOF_POINTER = take (Z.to_nat SIZEOF_POINTER) h ->
  is_fw_need_update (mk_desc dd so) (mk_desc dd io) (bs_flash s) = Done false.
Proof.
  intros Hr Ho Hio Hl Hil [I1 I2 I3 I4 I5 I6 I7] Hi. pose proof (len_nonneg p). unfold is_fw_need_update. cbn [fd_dd fd_offset].
  unfold SIZEOF_POINTER, SIZEOF_HEADER, FW_FLASH_BLKSIZE in *. rewrite !read_content by (done || lia). cbn [obind fst snd].
  change (negb (0 =? 0)) with false. cbn iota.
  assert (slice (content s) so 16 = take 16 h) as -> by (rewrite (slice_take _ _ 64) by lia; by rewrite I1).
  rewrite Hi. unfold fh_magic, fh_devid, fh_dcrc in *. change (Z.to_nat 16) with 16%nat. rewrite !le_u32_take by lia.
  by rewrite I4, !Z.eqb_refl.
Qed.
End Update.

(** C12: on a chip that works, [fw_copy_decomp] of a valid image ends and
    returns 0: the payload is in the run region, the last block of it filled
    with 0xff; the first 16 bytes of the header are in front of the info
    block, the rest of which is kept; every other byte of the chip, the image
    included, is what it was; and [is_fw_need_update] then answers no, so that
    the next boot does not copy again. *)
Theorem boot_update_copies {F} `{StrictFlash F} dd k size so do io h p notify s :
  device_ok dd k size -> ready dd size s -> image_at (content dd s) so h p -> 0 < len p < 2 ^ 31 ->
  layout_ok size so do io (len p) ->
  exists s', fw_copy_decomp (mk_desc dd io) (mk_desc dd do) (mk_desc dd so) notify s = Done (0, s')
    /\ content dd s' = with_header (splice (content dd s) do (padded p)) io h
    /\ slice (content dd s') do (len p) = p
    /\ image_at (content dd s') so h p
    /\ is_fw_need_update (mk_desc dd so) (mk_desc dd io) (bs_flash s') = Done false.
Proof.
  intros Hdev Hr Him Hp Hlo. destruct (update_ok dd k size Hdev so do io h p notify s Hr Him Hp Hlo) as (s' & E & Hr' & C').
  destruct (update_image dd size so do io h p s s' Hr Him) as (H3 & H4 & H5); [lia|done|done|].
  exists s'. split; [done|]. split; [done|]. split; [done|]. split; [done|].
  destruct Hlo as [(L1 & L2 & L3) (L4 & L5 & L6) _ _ _ _]. by apply (no_need_update dd k size Hdev so io h p).
Qed.

#[local] Existing Instance nor_flash.

Definition enc32 (z : Z) : list Z := [z mod 256; z / 256 mod 256; z / 65536 mod 256; z / 16777216 mod 256].
Definition payload_example : list Z := [1; 2; 3; 4; 5].
Definition header_example : list Z :=
  Eval vm_compute in enc32 FH_MAGIC ++ enc32 1 ++ enc32 1 ++ enc32 (Crc.crc32_update 0 payload_example)
    ++ enc32 5 ++ enc32 5 ++ replicate 40 0.
Definition dd_example : disk_device := mk_disk_device "spi_flash" (Some 0) 0 16384 4096 true true true true None.
Definition chips_example : chips :=
  {[ 0 := replicate (Z.to_nat 8192) 255 ++ header_example ++ payload_example ++ replicate (Z.to_nat 8123) 255 ]}.
Definition boot_example : bstate chips := mk_bs chips_example (replicate (Z.to_nat 4096) 0) [].

Lemma boot_update_copies_witness :
  exists s', fw_copy_decomp (mk_desc dd_example 4096) (mk_desc dd_example 0) (mk_desc dd_example 8192) true boot_example
      = Done (0, s')
    /\ content dd_example s' = with_header (splice (content dd_example boot_example) 0 (padded payload_example)) 4096 header_example
    /\ slice (content dd_example s') 0 5 = payload_example
    /\ image_at (content dd_example s') 8192 header_example payload_example
    /\ is_fw_need_update (mk_desc dd_example 8192) (mk_desc dd_example 4096) (bs_flash s') = Done false.
Proof.
  refine (boot_update_copies dd_example 12 16384 8192 0 4096 header_example payload_example true boot_example _ _ _ _ _).
  - split; [by repeat split|reflexivity|lia|reflexivity|lia|exists 4096; reflexivity].
  - split; [vm_compute; reflexivity|vm_compute; reflexivity| |]; apply (bool_decide_unpack _); vm_compute; exact I.
  - split; vm_compute; try reflexivity. discriminate.
  - vm_compute. split; reflexivity.
  - split; unfold apart; [lia| |split; [by exists 0|by exists 1]| | |]; vm_compute; repeat split; try discriminate; (left; discriminate) || (right; discriminate).
Defined.

(** The same run, evaluated: the progress that is reported, and no 100. *)
Example boot_example_notes :
  (let* r := fw_copy_decomp (mk_desc dd_example 4096) (mk_desc dd_example 0) (mk_desc dd_example 8192) true boot_example in
   Done (r.1, notes r.2)) = Done (0, [50]).
Proof. vm_compute. reflexivity. Qed.

(** when the header cannot be read, [is_fw_valid] answers that the
    firmware is valid, because a status other than 0 converts to [true]:
    [fw_copy_decomp] then copies nothing and reports success, and so does the
    loop of [general_boot] that would have tried again. *)
Theorem boot_read_error_succeeds {F} `{Driver F} fw_curinfo dst src notify s r b tries :
  disk_device_read (fd_dd src) (bs_flash s) true SIZEOF_HEADER (fd_offset src) = Done (r, b) -> r <> 0 ->
  update_loop tries fw_curinfo dst src notify s = Done (0, s).
Proof.
  intros Hr Hn. assert (fw_copy_decomp fw_curinfo dst src notify s = Done (0, s)) as E.
  { unfold fw_copy_decomp, is_fw_valid. rewrite Hr. cbn [obind fst]. rewrite (proj2 (Z.eqb_neq _ _)) by done. reflexivity. }
  destruct tries; cbn [update_loop]; rewrite E; reflexivity.
Qed.

Lemma boot_read_error_succeeds_witness :
  @update_loop chips faulty_flash 3 (mk_desc dd_example 4096) (mk_desc dd_example 0) (mk_desc dd_example 8192) true boot_example
  = Done (0, boot_example).
Proof.
  refine (@boot_read_error_succeeds chips faulty_flash _ _ _ _ _ (- EIO) [] 3 _ _); [vm_compute; reflexivity|discriminate].
Defined.

(** the counter of crashes never counts: [is_fw_need_recovery] stores it
    back as it was. From a count of at most 10 it answers no and leaves a count
    of at most 10, whatever [crash] and [runtime] say, so that the recovery of
    [general_boot] is never entered. *)
Theorem boot_recovery_unreachable e kv number :
  Env.env_rep e kv -> len kv + 3 < 2 ^ 31 -> len number = 16 -> Env.env_getul e (cstr "crash-cnt") <= REBOOT_MAX_LIMIT ->
  exists e' kv', is_fw_need_recovery number e = Done (false, e') /\ Env.env_rep e' kv'
    /\ Env.env_getul e' (cstr "crash-cnt") = Env.env_getul e (cstr "crash-cnt").
Proof.
  intros Hr Hroom Hn Hc. unfold is_fw_need_recovery. destruct (Env.env_streq e (cstr "crash") (Some (cstr "yes"))); [|by exists e, kv].
  rewrite Z.gtb_ltb, (proj2 (Z.ltb_ge _ _)) by done.
  destruct (_ <? MIN_TIME); [|by exists e, kv].
  assert (0 <= Env.env_getul e (cstr "crash-cnt")) as H0.
  { unfold Env.env_getul. destruct (Env.env_get e _); [|done]. apply CString.strtoul_nonneg. }
  set (c := Env.env_getul e (cstr "crash-cnt")) in *. unfold REBOOT_MAX_LIMIT in Hc.
  rewrite swrap_small by lia.
  destruct (Env.env_setint_roundtrip e kv (cstr "crash-cnt") c number Hr Hroom) as (e' & kv' & -> & Hr' & _ & Hg);
    [apply (bool_decide_unpack _); vm_compute; exact I|done|lia|done|].
  cbn [obind snd]. exists e', kv'. split; [done|]. split; [done|]. rewrite Hg. apply wrap_small. split; lia.
Qed.

(** ["crash=yes"], ["crash-cnt=a"] *)
Definition crash_example : list (list Z * list Z) := [(cstr "crash", cstr "yes"); (cstr "crash-cnt", cstr "a")].

Lemma boot_recovery_unreachable_witness :
  exists e' kv', is_fw_need_recovery (replicate 16 0) (Env.mk_env (Some (Env.ent <$> crash_example)) true true [] 2) = Done (false, e')
    /\ Env.env_rep e' kv' /\ Env.env_getul e' (cstr "crash-cnt") = 10.
Proof.
  refine (boot_recovery_unreachable (Env.mk_env (Some (Env.ent <$> crash_example)) true true [] 2) crash_example (replicate 16 0) _ _ _ _).
  - split; [reflexivity| | |by repeat constructor|reflexivity|reflexivity|reflexivity]; apply (bool_decide_unpack _); vm_compute; exact I.
  - reflexivity.
  - reflexivity.
  - vm_compute. discriminate.
Defined.
End Boot.
