(* ===== verification/Clock.v ===== *)
(** * dev/clock_base.c : the calendar

    The conversion of seconds since 1970 to the time of day, against a clock
    that is advanced second by second, with the calendar's rules for the
    lengths of months and years. *)
From Stdlib Require Import ZArith Lia Bool.
From stdpp Require Import base list numbers gmap.
From S2P Require Import Prelude.

Module Clock.

(** [struct tod_time] *)
Record tod_time := mk_tod {
  tm_sec : Z; tm_min : Z; tm_hour : Z; tm_mday : Z; tm_mon : Z; tm_year : Z; tm_wday : Z; tm_yday : Z }.

(** [time_civil_from_days (z, tp)]: the fields of the date. The divisions of
    [vtime_t], a [long], truncate; [unsigned int] has 32 bits. *)
Definition time_civil_from_days (z : Z) : Z * Z * Z * Z * Z :=
  let wday := if z >=? -4 then Z.rem (z + 4) 7 else Z.rem (z + 5) 7 + 6 in
  let z := z + 719468 in
  let era := Z.quot (if z >=? 0 then z else z - 146096) 146097 in
  let doe := u32 (z - era * 146097) in
  let yoe := u32 (doe - doe / 1460 + doe / 36524 - doe / 146096) / 365 in
  let y := yoe + era * 400 in
  let doy := u32 (doe - (365 * yoe + yoe / 4 - yoe / 100)) in
  let mp := u32 (5 * doy + 2) / 153 in
  let d := u32 (doy - u32 (153 * mp + 2) / 5 + 1) in
  let m := u32 (mp + (if mp <? 10 then 3 else -9)) in
  let yday :=
    if doy >=? 306 then u32 (doy - 306)
    else u32 (doy + 59 + (if ((yoe mod 4 =? 0) && negb (yoe mod 100 =? 0)) || (yoe =? 0) then 1 else 0)) in
  (s32 (y + (if m <=? 2 then 1 else 0) - 1900), s32 (m - 1), s32 d, s32 wday, s32 yday).

(** [clock_get_tod_time (timep, result)]; the pointers are there or NULL. *)
Definition clock_get_tod_time (timep : option Z) (result : bool) : Z * option tod_time :=
  match timep with
  | None => (- EINVAL, None)
  | Some z =>
      if negb result then (- EINVAL, None)
      else
      let days := Z.quot (if z >=? 0 then z else z - 86399) 86400 in
      let rem := u32 (z - days * 86400) in
      let '(year, mon, mday, wday, yday) := time_civil_from_days days in
      let hour := s32 (rem / 60 / 60) in
      let rem := u32 (rem - hour * 60 * 60) in
      let min := s32 (rem / 60) in
      let sec := s32 (u32 (rem - min * 60)) in
      (0, Some (mk_tod sec min hour mday mon year wday yday))
  end.

(** ** The registered clock *)

(** [struct clock_timer]: the function pointers that are there. *)
Record clock_timer := mk_clock { get_time : option Z (* the seconds it answers *); has_stop : bool }.

(** [ctimer], and the calls of [stop]. *)
Definition clock_register (timer ctimer : option clock_timer) : Z * option clock_timer * bool :=
  match timer with
  | Some t => match get_time t with
              | Some _ => (0, timer, match ctimer with Some c => has_stop c | None => false end)
              | None => (- EINVAL, ctimer, false)
              end
  | None => (- EINVAL, ctimer, false)
  end.

Definition clock_get_time (ctimer : option clock_timer) : outcome Z :=
  match ctimer with
  | Some t => match get_time t with Some s => Done s | None => Assert end
  | None => Assert
  end.

(** [get_tod_time (tod)] *)
Definition get_tod_time (ctimer : option clock_timer) : outcome (Z * option tod_time) :=
  let* tv := clock_get_time ctimer in Done (clock_get_tod_time (Some tv) true).

(** ** The reference: one second after the other *)

Definition leap (y : Z) : bool := (y mod 4 =? 0) && (negb (y mod 100 =? 0) || (y mod 400 =? 0)).

Definition month_length (y mon : Z) : Z :=
  if mon =? 1 then (if leap y then 29 else 28)
  else if (mon =? 3) || (mon =? 5) || (mon =? 8) || (mon =? 10) then 30 else 31.

Definition next_day (t : tod_time) : tod_time :=
  let w := (tm_wday t + 1) mod 7 in
  if tm_mday t <? month_length (tm_year t + 1900) (tm_mon t)
  then mk_tod (tm_sec t) (tm_min t) (tm_hour t) (tm_mday t + 1) (tm_mon t) (tm_year t) w (tm_yday t + 1)
  else if tm_mon t <? 11
  then mk_tod (tm_sec t) (tm_min t) (tm_hour t) 1 (tm_mon t + 1) (tm_year t) w (tm_yday t + 1)
  else mk_tod (tm_sec t) (tm_min t) (tm_hour t) 1 0 (tm_year t + 1) w 0.

Definition next_second (t : tod_time) : tod_time :=
  if tm_sec t <? 59 then mk_tod (tm_sec t + 1) (tm_min t) (tm_hour t) (tm_mday t) (tm_mon t) (tm_year t) (tm_wday t) (tm_yday t)
  else if tm_min t <? 59 then mk_tod 0 (tm_min t + 1) (tm_hour t) (tm_mday t) (tm_mon t) (tm_year t) (tm_wday t) (tm_yday t)
  else if tm_hour t <? 23 then mk_tod 0 0 (tm_hour t + 1) (tm_mday t) (tm_mon t) (tm_year t) (tm_wday t) (tm_yday t)
  else next_day (mk_tod 0 0 0 (tm_mday t) (tm_mon t) (tm_year t) (tm_wday t) (tm_yday t)).

(** Thursday, 1 January 1970, 0:00:00 *)
Definition epoch : tod_time := mk_tod 0 0 0 1 0 70 4 0.

(** ** Years that begin in March *)

(** The days from 1 March of the year 0 to 1 March of [y]. *)
Definition march (y : Z) : Z := 365 * y + y / 4 - y / 100 + y / 400.

Lemma march_next y : march (y + 1) = march y + 365 + (if leap (y + 1) then 1 else 0).
Proof.
  unfold march, leap.
  destruct (Z.eqb_spec ((y + 1) mod 4) 0), (Z.eqb_spec ((y + 1) mod 100) 0), (Z.eqb_spec ((y + 1) mod 400) 0); simpl; zlia.
Qed.

Lemma march_mono y y' : y < y' -> march (y + 1) <= march y'.
Proof. unfold march. intros. zlia. Qed.

(** A day belongs to one year. *)
Lemma march_unique y doy y' doy' :
  march y + doy = march y' + doy' -> 0 <= doy < march (y + 1) - march y -> 0 <= doy' < march (y' + 1) - march y' ->
  y = y' /\ doy = doy'.
Proof.
  intros E H H'. destruct (Z.lt_trichotomy y y') as [Hl|[->|Hl]]; [pose proof (march_mono y y' Hl); lia|lia|pose proof (march_mono y' y Hl); lia].
Qed.

(** The date of the day [doy] of the year [y]. *)
Definition from_march (y doy : Z) : Z * Z * Z * Z :=
  let mp := (5 * doy + 2) / 153 in
  let m := mp + (if mp <? 10 then 3 else -9) in
  (y + (if m <=? 2 then 1 else 0) - 1900, m - 1, doy - (153 * mp + 2) / 5 + 1,
   if doy >=? 306 then doy - 306 else doy + 59 + (if leap y then 1 else 0)).

Definition max_days : Z := 7 * 10 ^ 11.

Lemma year_of_era doe :
  0 <= doe < 146097 ->
  let yoe := (doe - doe / 1460 + doe / 36524 - doe / 146096) / 365 in
  0 <= yoe < 400 /\ 0 <= doe - (365 * yoe + yoe / 4 - yoe / 100)
  /\ doe < 365 * (yoe + 1) + (yoe + 1) / 4 - (yoe + 1) / 100 + (yoe + 1) / 400.
Proof.
  intros Hd yoe. unfold yoe. split; [zlia|]. split; [zlia|]. zlia.
Qed.

Lemma leap_era yoe era : 0 <= yoe < 400 ->
  leap (yoe + era * 400) = ((yoe mod 4 =? 0) && negb (yoe mod 100 =? 0)) || (yoe =? 0).
Proof.
  intros Hy. unfold leap.
  assert ((yoe + era * 400) mod 4 = yoe mod 4) as -> by (replace (era * 400) with (era * 100 * 4) by lia; apply Z.mod_add; lia).
  assert ((yoe + era * 400) mod 100 = yoe mod 100) as -> by (replace (era * 400) with (era * 4 * 100) by lia; apply Z.mod_add; lia).
  assert ((yoe + era * 400) mod 400 = yoe) as -> by (rewrite Z.mod_add by lia; apply Z.mod_small; lia).
  destruct (Z.eqb_spec yoe 0) as [->|]; [done|]. by rewrite !orb_false_r.
Qed.

Lemma march_era yoe era : march (yoe + era * 400) = 365 * yoe + yoe / 4 - yoe / 100 + yoe / 400 + era * 146097.
Proof. unfold march. zlia. Qed.

(** The code finds the year and the day in it. *)
Lemma civil_march z : - max_days <= z <= max_days ->
  exists y doy, z + 719468 = march y + doy /\ 0 <= doy < march (y + 1) - march y
    /\ (let '(year, mon, mday, wday, yday) := time_civil_from_days z in
        (year, mon, mday, yday) = from_march y doy /\ wday = (z + 4) mod 7).
Proof.
  unfold max_days. intros Hz. unfold time_civil_from_days.
  set (era := Z.quot (if z + 719468 >=? 0 then z + 719468 else z + 719468 - 146096) 146097).
  assert (era = (z + 719468) / 146097) as Hera.
  { unfold era. rewrite Z.geb_leb. destruct (Z.leb_spec 0 (z + 719468)); [apply Z.quot_div_nonneg; lia|zlia]. }
  clearbody era. set (doe := z + 719468 - era * 146097).
  assert (0 <= doe < 146097) as Hdoe by (unfold doe; rewrite Hera; zlia).
  destruct (year_of_era doe Hdoe) as (Hy & Hlo & Hhi).
  assert (u32 doe = doe) as -> by (apply wrap_small; split; lia).
  assert (u32 (doe - doe / 1460 + doe / 36524 - doe / 146096) = doe - doe / 1460 + doe / 36524 - doe / 146096) as ->.
  { apply wrap_small. split; zlia. }
  set (yoe := (doe - doe / 1460 + doe / 36524 - doe / 146096) / 365) in *. clearbody yoe.
  set (doy := doe - (365 * yoe + yoe / 4 - yoe / 100)) in *.
  assert (0 <= doy <= 365) as Hdoy by (unfold doy; zlia).
  assert (u32 doy = doy) as -> by (apply wrap_small; split; lia).
  exists (yoe + era * 400), doy.
  assert (z + 719468 = march (yoe + era * 400) + doy) as Hm by (rewrite march_era; unfold doy, doe; zlia).
  split; [done|]. split.
  { split; [lia|]. replace (yoe + era * 400 + 1) with (yoe + 1 + era * 400) by lia. rewrite !march_era. unfold doy. zlia. }
  assert (s32 (if z >=? -4 then Z.rem (z + 4) 7 else Z.rem (z + 5) 7 + 6) = (z + 4) mod 7) as ->.
  { rewrite Z.geb_leb. destruct (Z.leb_spec (-4) z).
    - rewrite Z.rem_mod_nonneg by lia. apply swrap_small; [lia|]. zlia.
    - assert (Z.rem (z + 5) 7 + 6 = (z + 4) mod 7) as -> by zlia. apply swrap_small; [lia|]. zlia. }
  assert (u32 (5 * doy + 2) = 5 * doy + 2) as -> by (apply wrap_small; split; lia).
  unfold from_march. rewrite leap_era by done.
  set (mp := (5 * doy + 2) / 153). assert (0 <= mp <= 11) as Hmp by (unfold mp; zlia).
  assert (u32 (153 * mp + 2) = 153 * mp + 2) as -> by (apply wrap_small; split; lia).
  assert (1 <= doy - (153 * mp + 2) / 5 + 1 <= 31) as Hd by (unfold mp; zlia).
  assert (u32 (doy - (153 * mp + 2) / 5 + 1) = doy - (153 * mp + 2) / 5 + 1) as -> by (apply wrap_small; split; lia).
  set (m := mp + (if mp <? 10 then 3 else -9)).
  assert (1 <= m <= 12) as Hmr by (unfold m; destruct (Z.ltb_spec mp 10); lia).
  assert (u32 m = m) as -> by (apply wrap_small; split; lia).
  assert (-1916577600 <= era * 400 <= 1916577600) as Hy4 by (rewrite Hera; zlia).
  split; [|done]. repeat f_equal.
  - apply swrap_small; [lia|]. destruct (m <=? 2); lia.
  - apply swrap_small; lia.
  - apply swrap_small; lia.
  - rewrite Z.geb_leb. destruct (Z.leb_spec 306 doy).
    + rewrite (wrap_small 32) by (split; lia). apply swrap_small; lia.
    + destruct ((_ && _) || _); rewrite (wrap_small 32) by (split; lia); apply swrap_small; lia.
Qed.

(** ** The next day *)

Definition date_of (t : Z * Z * Z * Z) (w : Z) : tod_time :=
  let '(year, mon, mday, yday) := t in mk_tod 0 0 0 mday mon year w yday.

(** Day and month of the day [doy]: years after the one of March, month, day. *)
Definition month_of (doy : Z) : Z * Z * Z :=
  let mp := (5 * doy + 2) / 153 in
  let m := mp + (if mp <? 10 then 3 else -9) in
  (if m <=? 2 then 1 else 0, m - 1, doy - (153 * mp + 2) / 5 + 1).

Definition days_in (leap : bool) (mon : Z) : Z :=
  if mon =? 1 then (if leap then 29 else 28)
  else if (mon =? 3) || (mon =? 5) || (mon =? 8) || (mon =? 10) then 30 else 31.

(** From a day to the next: in the month, to the next month, to January. *)
Definition month_step (leap : bool) (doy : Z) : bool :=
  let '(dy, mon, mday) := month_of doy in
  let '(dy', mon', mday') := month_of (doy + 1) in
  if mday <? days_in leap mon then (dy' =? dy) && (mon' =? mon) && (mday' =? mday + 1)
  else if mon <? 11 then (dy' =? dy) && (mon' =? mon + 1) && (mday' =? 1)
  else (dy' =? dy + 1) && (mon' =? 0) && (mday' =? 1).

Lemma month_steps :
  forallb (month_step false) (seqZ 0 364) && forallb (month_step true) (seqZ 0 365) = true.
Proof. vm_compute. reflexivity. Qed.

Lemma month_step_ok leap doy : 0 <= doy < 364 + (if leap : bool then 1 else 0) -> month_step leap doy = true.
Proof.
  intros Hd. destruct (andb_prop _ _ month_steps) as [H1 H2]. rewrite forallb_forall in H1, H2.
  destruct leap; [apply H2|apply H1]; apply list_elem_of_In, elem_of_seqZ; lia.
Qed.

Lemma from_march_eq y doy : from_march y doy =
  (y + (month_of doy).1.1 - 1900, (month_of doy).1.2, (month_of doy).2,
   if doy >=? 306 then doy - 306 else doy + 59 + (if leap y then 1 else 0)).
Proof. done. Qed.

(** February and January belong to the next year. *)
Definition month_in (doy : Z) : bool :=
  let '(dy, mon, mday) := month_of doy in
  implb (mon =? 1) (dy =? 1) && Bool.eqb (dy =? 1) (306 <=? doy) && ((dy =? 0) || (dy =? 1)).
Lemma month_ins : forallb month_in (seqZ 0 366) = true.
Proof. vm_compute. reflexivity. Qed.

Lemma month_in_ok doy dy mon mday : 0 <= doy <= 365 -> month_of doy = (dy, mon, mday) ->
  (mon = 1 -> dy = 1) /\ dy = (if 306 <=? doy then 1 else 0).
Proof.
  intros Hd E. pose proof month_ins as H. rewrite forallb_forall in H.
  assert (month_in doy = true) as Hm by (apply H, list_elem_of_In, elem_of_seqZ; lia). clear H.
  unfold month_in in Hm. rewrite E in Hm.
  destruct (Z.eqb_spec mon 1), (Z.eqb_spec dy 1), (Z.leb_spec 306 doy), (Z.eqb_spec dy 0); simpl in Hm; try done; lia.
Qed.

Lemma month_length_in y mon : month_length y mon = days_in (leap y) mon.
Proof. done. Qed.

Lemma days_in_leap b c mon : mon <> 1 -> days_in b mon = days_in c mon.
Proof. intros H. unfold days_in. by rewrite (proj2 (Z.eqb_neq _ _) H). Qed.

(** One day further in the same year (from March to February). *)
Lemma next_in_year y doy w :
  0 <= doy -> doy + 1 < march (y + 1) - march y ->
  next_day (date_of (from_march y doy) w) = date_of (from_march y (doy + 1)) ((w + 1) mod 7).
Proof.
  rewrite march_next. intros H0 H1. rewrite !from_march_eq.
  destruct (month_of doy) as [[dy mon] mday] eqn:E. destruct (month_of (doy + 1)) as [[dy' mon'] mday'] eqn:E'. cbn [fst snd].
  destruct (month_in_ok doy dy mon mday) as [Hf Hdy]; [destruct (leap (y + 1)); lia|done|].
  destruct (month_in_ok (doy + 1) dy' mon' mday') as [Hf' Hdy']; [destruct (leap (y + 1)); lia|done|].
  assert (month_step (leap (y + 1)) doy = true) as Hs by (apply month_step_ok; destruct (leap (y + 1)); lia).
  unfold month_step in Hs. rewrite E, E' in Hs.
  unfold date_of, next_day. cbn [tm_mday tm_year tm_mon tm_yday tm_wday tm_sec tm_min tm_hour].
  rewrite month_length_in. replace (y + dy - 1900 + 1900) with (y + dy) by lia.
  assert (days_in (leap (y + dy)) mon = days_in (leap (y + 1)) mon) as ->.
  { destruct (decide (mon = 1)) as [->|]; [by rewrite Hf by done|by apply days_in_leap]. }
  rewrite !Z.geb_leb. destruct (mday <? days_in (leap (y + 1)) mon); [|destruct (mon <? 11)]; bools; subst mon' mday';
    (f_equal; [lia|]); destruct (Z.leb_spec 306 doy), (Z.leb_spec 306 (doy + 1)); lia.
Qed.

(** From the last of February to the first of March. *)
Lemma next_march y doy w :
  0 <= doy -> doy + 1 = march (y + 1) - march y ->
  next_day (date_of (from_march y doy) w) = date_of (from_march (y + 1) 0) ((w + 1) mod 7).
Proof.
  rewrite march_next. intros H0 H1. rewrite !from_march_eq. assert (doy = 364 + (if leap (y + 1) then 1 else 0)) as -> by lia.
  destruct (leap (y + 1)) eqn:E; simpl; unfold next_day; cbn [tm_mday tm_year tm_mon tm_yday tm_wday tm_sec tm_min tm_hour];
    unfold month_length; simpl; replace (y + 1 - 1900 + 1900) with (y + 1) by lia; rewrite E; simpl; f_equal; lia.
Qed.

Lemma civil_next z : - max_days <= z -> z + 1 <= max_days ->
  let '(year, mon, mday, wday, yday) := time_civil_from_days z in
  let '(year', mon', mday', wday', yday') := time_civil_from_days (z + 1) in
  next_day (mk_tod 0 0 0 mday mon year wday yday) = mk_tod 0 0 0 mday' mon' year' wday' yday'.
Proof.
  intros H1 H2. destruct (civil_march z) as (y & doy & E & Hd & Hc); [lia|]. destruct (civil_march (z + 1)) as (y' & doy' & E' & Hd' & Hc'); [lia|].
  destruct (time_civil_from_days z) as [[[[year mon] mday] wday] yday]. destruct (time_civil_from_days (z + 1)) as [[[[year' mon'] mday'] wday'] yday'].
  destruct Hc as [Hc Hw]. destruct Hc' as [Hc' Hw'].
  assert (wday' = (wday + 1) mod 7) as Hww by (subst; rewrite Zplus_mod_idemp_l; f_equal; lia).
  change (mk_tod 0 0 0 mday mon year wday yday) with (date_of (year, mon, mday, yday) wday).
  change (mk_tod 0 0 0 mday' mon' year' wday' yday') with (date_of (year', mon', mday', yday') wday').
  rewrite Hc, Hc', Hww. destruct (Z.eq_dec (doy + 1) (march (y + 1) - march y)) as [Hl|Hl].
  - rewrite next_march by lia. destruct (march_unique y' doy' (y + 1) 0) as [-> ->]; [lia|lia| |done].
    rewrite march_next. destruct (leap (y + 1 + 1)); lia.
  - rewrite next_in_year by lia. destruct (march_unique y' doy' y (doy + 1)) as [-> ->]; [lia|lia|lia|done].
Qed.

(** ** The time of the day *)

Definition max_seconds : Z := 6 * 10 ^ 16.

Lemma tod_split t : - max_seconds <= t <= max_seconds ->
  let days := t / 86400 in let r := t mod 86400 in
  clock_get_tod_time (Some t) true =
    (let '(year, mon, mday, wday, yday) := time_civil_from_days days in
     (0, Some (mk_tod (r mod 60) (r / 60 mod 60) (r / 3600) mday mon year wday yday))).
Proof.
  intros Ht days r. unfold max_seconds in Ht. unfold clock_get_tod_time. cbn [negb].
  assert (Z.quot (if t >=? 0 then t else t - 86399) 86400 = days) as ->.
  { unfold days. rewrite Z.geb_leb. destruct (Z.leb_spec 0 t); [apply Z.quot_div_nonneg; lia|zlia]. }
  assert (t - days * 86400 = r) as -> by (unfold days, r; zlia).
  assert (0 <= r < 86400) as Hr by (unfold r; zlia). clearbody r days.
  rewrite (wrap_small 32 r) by (split; lia).
  assert (r / 60 / 60 = r / 3600) as -> by (rewrite Z.div_div by lia; done).
  assert (0 <= r / 3600 < 24) as Hh by zlia.
  rewrite (swrap_small 32 (r / 3600)) by lia.
  assert (u32 (r - r / 3600 * 60 * 60) = r mod 3600) as -> by (rewrite wrap_small; [|split]; zlia).
  assert (s32 (r mod 3600 / 60) = r / 60 mod 60) as -> by (rewrite swrap_small; zlia).
  assert (s32 (u32 (r mod 3600 - r / 60 mod 60 * 60)) = r mod 60) as ->.
  { rewrite wrap_small by (split; zlia). rewrite swrap_small; zlia. }
  done.
Qed.

(** C15: [clock_get_tod_time] is the calendar: 0 is Thursday, 1 January 1970,
    0:00:00, and from any second to the next its answer goes on as a clock
    does: minutes, hours, the days of the month with 29 February in leap years
    only, the months, the years, the day of the week and the day of the year.
    This holds for 6 * 10^16 seconds (1.9 * 10^9 years) before and after 1970,
    where every field fits; so it determines the answer for each of these
    seconds. NULL pointers are refused. *)
Theorem clock_follows_calendar :
  clock_get_tod_time (Some 0) true = (0, Some epoch)
  /\ (forall t, - max_seconds <= t -> t + 1 <= max_seconds -> exists r,
       clock_get_tod_time (Some t) true = (0, Some r) /\ clock_get_tod_time (Some (t + 1)) true = (0, Some (next_second r)))
  /\ (forall p r, p = None \/ r = false -> clock_get_tod_time p r = (- EINVAL, None)).
Proof.
  split; [vm_compute; reflexivity|]. split.
  - intros t H1 H2. rewrite !tod_split by lia. set (days := t / 86400). set (r := t mod 86400).
    assert (0 <= r < 86400) as Hr by (unfold r; zlia).
    assert (- max_days <= days /\ days + 1 <= max_days) as [Hd1 Hd2] by (unfold max_seconds, max_days in *; unfold days; zlia).
    pose proof (civil_next days Hd1 Hd2) as Hn.
    destruct (Z.eq_dec r 86399) as [E|Hne].
    + assert ((t + 1) / 86400 = days + 1) as -> by (unfold days, r in *; zlia).
      assert ((t + 1) mod 86400 = 0) as -> by (unfold days, r in *; zlia).
      destruct (time_civil_from_days days) as [[[[year mon] mday] wday] yday].
      destruct (time_civil_from_days (days + 1)) as [[[[year' mon'] mday'] wday'] yday'].
      eexists. split; [done|]. rewrite E. do 2 f_equal. unfold next_second. cbn [tm_mday tm_year tm_mon tm_yday tm_wday tm_sec tm_min tm_hour].
      change (86399 mod 60) with 59. change (86399 / 60 mod 60) with 59. change (86399 / 3600) with 23. simpl. by rewrite Hn.
    + assert ((t + 1) / 86400 = days) as -> by (unfold days, r in *; zlia).
      assert ((t + 1) mod 86400 = r + 1) as -> by (unfold r in *; zlia). clear Hn. clearbody r days.
      destruct (time_civil_from_days days) as [[[[year mon] mday] wday] yday].
      eexists. split; [done|]. do 2 f_equal. unfold next_second. cbn [tm_mday tm_year tm_mon tm_yday tm_wday tm_sec tm_min tm_hour].
      destruct (Z.ltb_spec (r mod 60) 59); [f_equal; zlia|].
      destruct (Z.ltb_spec (r / 60 mod 60) 59); [f_equal; zlia|].
      destruct (Z.ltb_spec (r / 3600) 23); [f_equal; zlia|zlia].
  - intros p r [-> | ->]; [done|]. by destruct p.
Qed.

Lemma clock_follows_calendar_example :
  clock_get_tod_time (Some 951782400) true = (0, Some (mk_tod 0 0 0 29 1 100 2 59)).
Proof. vm_compute. reflexivity. Qed.
End Clock.
