(* ===== verification/Callout.v ===== *)
(** * dev/clock_timer.c : the clock that counts, and its callouts

    A list of callouts that a timer walks once a second. While it walks, the
    callouts are on a list of its own, which is given back at the end. *)
From Stdlib Require Import ZArith Lia Bool.
From stdpp Require Import base list numbers gmap.
From S2P Require Import Prelude.

Module Callout.

(** [struct clock_callout]; a node is known by its index. *)
Record clock_callout := mk_co { co_id : nat; co_fn : nat; co_i_expires : Z; co_expires : Z }.

(** [callout_list], the walker's list ([None] outside of the walk),
    [clock_counter], and the calls of callouts with the counter. *)
Record clock := mk_callouts {
  callout_list : list clock_callout;
  walking : option (list nat);
  clock_counter : Z;
  calls : list (nat * Z);
}.

Definition set_list (l : list clock_callout) (s : clock) : clock := mk_callouts l (walking s) (clock_counter s) (calls s).

(** [clock_callout_find (cc, del)] *)
Definition clock_callout_find (cc : nat) (del : bool) (s : clock) : bool * clock :=
  if existsb (fun c => Nat.eqb (co_id c) cc) (callout_list s)
  then (true, if del then set_list (filter (fun c => co_id c <> cc) (callout_list s)) s else s)
  else (false, s).

(** [clock_callout_add (cc, callout, seconds)]; NULL is [None]. Linking a node
    that is on the walker's list breaks both lists. *)
Definition clock_callout_add (cc callout : option nat) (seconds : Z) (s : clock) : outcome (Z * clock) :=
  match cc, callout with
  | Some cc, Some fn =>
      if seconds =? 0 then Done (- EINVAL, s)
      else if (clock_callout_find cc false s).1 then Done (- EEXIST, s)
      else
      guard* match walking s with Some l => negb (existsb (Nat.eqb cc) l) | None => true end in
      Done (0, set_list (callout_list s ++ [mk_co cc fn seconds (u64 (clock_counter s + seconds))]) s)
  | _, _ => Done (- EINVAL, s)
  end.

Definition clock_callout_del (cc : option nat) (s : clock) : Z * clock :=
  match cc with
  | None => (- EINVAL, s)
  | Some cc => let r := clock_callout_find cc true s in if r.1 then (0, r.2) else (- EFAULT, r.2)
  end.

Definition clock_timer_get_time (s : clock) : Z := clock_counter s.
Definition clock_timer_set_time (tv_sec : Z) (s : clock) : clock := mk_callouts (callout_list s) (walking s) tv_sec (calls s).

(** What a callout's function does. *)
Inductive action :=
| Add (cc fn : nat) (seconds : Z)
| Del (cc : nat)
| SetTime (tv_sec : Z).

Definition act (a : action) (s : clock) : outcome clock :=
  match a with
  | Add cc fn seconds => let* r := clock_callout_add (Some cc) (Some fn) seconds s in Done r.2
  | Del cc => Done (clock_callout_del (Some cc) s).2
  | SetTime t => Done (clock_timer_set_time t s)
  end.

Fixpoint acts (l : list action) (s : clock) : outcome clock :=
  match l with
  | [] => Done s
  | a :: l => let* s := act a s in acts l s
  end.

Section Walk.
Context (fns : nat -> list action).

(** The loop of [clock_timeout_cb]: the walker's list afterwards. *)
Fixpoint walk (tick : Z) (head : list clock_callout) (s : clock) : outcome (list clock_callout * clock) :=
  match head with
  | [] => Done ([], s)
  | co :: head =>
      let* r :=
        (if co_expires co <=? u64 tick then
           let s := mk_callouts (callout_list s) (walking s) (clock_counter s) (calls s ++ [(co_id co, tick)]) in
           let* s := acts (fns (co_fn co)) s in
           Done (mk_co (co_id co) (co_fn co) (co_i_expires co) (u64 (tick + co_i_expires co)), s)
         else Done (co, s)) in
      let* t := walk tick head r.2 in
      Done (r.1 :: t.1, t.2)
  end.

(** [clock_timeout_cb (timer, arg)] *)
Definition clock_timeout_cb (s : clock) : outcome clock :=
  let tick := clock_counter s + 1 in
  let head := callout_list s in
  let merged := match head with [] => false | _ => true end in
  let s := mk_callouts [] (Some (map co_id head)) tick (calls s) in
  let* r := walk tick head s in
  let '(head, s) := r in
  Done (mk_callouts (if merged then head ++ callout_list s else callout_list s) None (clock_counter s) (calls s)).

Fixpoint ticks (n : nat) (s : clock) : outcome clock :=
  match n with
  | O => Done s
  | S n => let* s := clock_timeout_cb s in ticks n s
  end.
End Walk.

(** The timer of the operating system: what it is told. *)
Inductive timer_call := TimerCreate | TimerDestroy | TimerAdd (period : Z).
Definition CLOCK_PERIOD : Z := 1000.

(** [clock_timer_init ()], with the results of [os_timer_create] and
    [clock_register]. *)
Definition clock_timer_init (create register : Z) : Z * list timer_call :=
  if negb (create =? 0) then (create, [TimerCreate])
  else if negb (register =? 0) then (register, [TimerCreate; TimerDestroy])
  else (0, [TimerCreate; TimerAdd CLOCK_PERIOD]).

(** ** Periodic calls *)

(** The next call of a callout that was registered at [t0]: the first multiple
    of its period that is still to come. *)
Record callout_at (t0 now : Z) (c : clock_callout) : Prop := {
  ca_period : 0 < co_i_expires c;
  ca_next : co_expires c = t0 + co_i_expires c * ((now - t0) / co_i_expires c + 1);
}.

(** The counter values in [(t0, now]] at which it is called. *)
Definition due_at (t0 : Z) (c : clock_callout) (t : Z) : bool := (t - t0) mod co_i_expires c =? 0.

Definition calls_at (l : list clock_callout) (t0 : nat -> Z) (t : Z) : list (nat * Z) :=
  (fun c => (co_id c, t)) <$> filter (fun c => due_at (t0 (co_id c)) c t = true) l.

(** The calls of [n] ticks after [now]. *)
Fixpoint calls_from (l : list clock_callout) (t0 : nat -> Z) (now : Z) (n : nat) : list (nat * Z) :=
  match n with
  | O => []
  | S n => calls_at l t0 (now + 1) ++ calls_from l t0 (now + 1) n
  end.
Definition same_callout (c c' : clock_callout) : Prop :=
  co_id c' = co_id c /\ co_fn c' = co_fn c /\ co_i_expires c' = co_i_expires c.


(** The quotient goes up by one exactly at the multiples of [p]. *)
Lemma div_step p k : 0 < p ->
  ((k + 1) mod p = 0 /\ k + 1 = p * (k / p + 1) /\ (k + 1) / p = k / p + 1)
  \/ ((k + 1) mod p <> 0 /\ k + 1 < p * (k / p + 1) /\ (k + 1) / p = k / p).
Proof.
  intros Hp. pose proof (Z.div_mod k p ltac:(lia)) as D. pose proof (Z.mod_pos_bound k p Hp) as M.
  destruct (Z.eq_dec (k mod p) (p - 1)) as [E|E].
  - left. assert (k + 1 = (k / p + 1) * p) as E' by lia. rewrite E'. split; [by apply Z.mod_mul; lia|].
    split; [lia|]. apply Z.div_mul. lia.
  - right. assert ((k + 1) mod p = k mod p + 1) as E2 by (symmetry; apply (Z.mod_unique_pos _ _ (k / p)); lia).
    assert ((k + 1) / p = k / p) as E3 by (symmetry; apply (Z.div_unique_pos _ _ _ (k mod p + 1)); lia).
    rewrite E2. split; [lia|]. split; [lia|done].
Qed.

(** One tick of a callout: it is due exactly when the list's test says so, and
    the time it is given then is right. *)
Lemma callout_tick t0 now c : callout_at t0 now c ->
  (due_at t0 c (now + 1) = true /\ co_expires c <= now + 1
    /\ callout_at t0 (now + 1) (mk_co (co_id c) (co_fn c) (co_i_expires c) (now + 1 + co_i_expires c)))
  \/ (due_at t0 c (now + 1) = false /\ now + 1 < co_expires c /\ callout_at t0 (now + 1) c).
Proof.
  intros [Hp He]. unfold due_at. replace (now + 1 - t0) with (now - t0 + 1) by lia.
  destruct (div_step (co_i_expires c) (now - t0) Hp) as [(E & E1 & E2)|(E & E1 & E2)].
  - left. rewrite (proj2 (Z.eqb_eq _ _) E). split; [done|]. split; [lia|]. split; [done|]. cbn [co_i_expires co_expires].
    replace (now + 1 - t0) with (now - t0 + 1) by lia. rewrite E2. lia.
  - right. rewrite (proj2 (Z.eqb_neq _ _) E). split; [done|]. split; [lia|]. split; [done|].
    replace (now + 1 - t0) with (now - t0 + 1) by lia. by rewrite E2.
Qed.

Lemma callout_added t0 id fn p : 0 < p -> callout_at t0 t0 (mk_co id fn p (t0 + p)).
Proof. intros Hp. split; [done|]. cbn [co_i_expires co_expires]. rewrite Z.sub_diag, Z.div_0_l by lia. lia. Qed.

(** The calls of a list depend on who is in it and the periods only. *)
Lemma calls_at_same l l' t0 t : Forall2 same_callout l l' -> calls_at l' t0 t = calls_at l t0 t.
Proof.
  unfold calls_at. induction 1 as [|c c' l l' (Hi & _ & Hp) _ IH]; [done|].
  assert (due_at (t0 (co_id c')) c' t = due_at (t0 (co_id c)) c t) as E by (unfold due_at; by rewrite Hi, Hp).
  rewrite !filter_cons, E. destruct (decide _); [|done]. rewrite !fmap_cons, Hi. by f_equal.
Qed.

Lemma calls_from_same l l' t0 now n : Forall2 same_callout l l' -> calls_from l' t0 now n = calls_from l t0 now n.
Proof. intros H. revert now. induction n as [|n IH]; intros now; [done|]. simpl. by rewrite IH, (calls_at_same l l'). Qed.

Lemma same_callout_trans l l' l'' : Forall2 same_callout l l' -> Forall2 same_callout l' l'' -> Forall2 same_callout l l''.
Proof.
  intros H. revert l''. induction H as [|a b l l' (?&?&?) _ IH]; intros l'' H'; inversion H' as [|? c ? k (?&?&?)]; subst; constructor; [|by apply IH].
  repeat split; congruence.
Qed.

Section Quiet.
Context (fns : nat -> list action) (t0 : nat -> Z).

(** A callout that is on time and whose function leaves the clock alone. *)
Definition on_time (now : Z) (c : clock_callout) : Prop :=
  callout_at (t0 (co_id c)) now c /\ fns (co_fn c) = [] /\ co_i_expires c < 2 ^ 32.

Lemma walk_quiet now l s : 0 <= now < 2 ^ 62 -> Forall (on_time now) l ->
  exists l', walk fns (now + 1) l s
      = Done (l', mk_callouts (callout_list s) (walking s) (clock_counter s) (calls s ++ calls_at l t0 (now + 1)))
    /\ Forall2 same_callout l l' /\ Forall (on_time (now + 1)) l'.
Proof.
  intros Hn Hl. revert s. induction Hl as [|c l (Hc & Hf & Hp) _ IH]; intros s.
  { exists []. simpl. rewrite app_nil_r. by destruct s. }
  unfold calls_at. rewrite filter_cons. cbn [walk]. rewrite (wrap_small 64 (now + 1)) by (split; lia).
  pose proof (ca_period _ _ _ Hc) as Hpos.
  destruct (callout_tick _ now c Hc) as [(Hd & He & Hc')|(Hd & He & Hc')].
  - rewrite (proj2 (Z.leb_le _ _) He), Hf. cbn [acts obind fst snd].
    rewrite (wrap_small 64) by (split; lia).
    destruct (IH (mk_callouts (callout_list s) (walking s) (clock_counter s) (calls s ++ [(co_id c, now + 1)]))) as (l' & E & Hs & Ho).
    rewrite E. exists (mk_co (co_id c) (co_fn c) (co_i_expires c) (now + 1 + co_i_expires c) :: l').
    split; [|by split; constructor]. destruct (decide _); [|congruence]. cbn. by rewrite <- app_assoc.
  - rewrite (proj2 (Z.leb_gt _ _) He). cbn [obind fst snd]. destruct (IH s) as (l' & E & Hs & Ho). rewrite E.
    exists (c :: l'). split; [|by split; constructor]. by destruct (decide _); [congruence|].
Qed.

Lemma timeout_quiet now s : clock_counter s = now -> 0 <= now < 2 ^ 62 -> walking s = None -> Forall (on_time now) (callout_list s) ->
  exists l', clock_timeout_cb fns s = Done (mk_callouts l' None (now + 1) (calls s ++ calls_at (callout_list s) t0 (now + 1)))
    /\ Forall2 same_callout (callout_list s) l' /\ Forall (on_time (now + 1)) l'.
Proof.
  intros Hc Hn Hw Hl. unfold clock_timeout_cb. rewrite Hc.
  destruct (walk_quiet now (callout_list s) (mk_callouts [] (Some (map co_id (callout_list s))) (now + 1) (calls s)) Hn Hl)
    as (l' & E & Hs & Ho).
  rewrite E. cbn. exists l'. split; [|done]. f_equal. f_equal. rewrite app_nil_r.
  destruct (callout_list s); [by inversion Hs|done].
Qed.
End Quiet.

Lemma find_in cc s : (clock_callout_find cc false s).1 = bool_decide (cc ∈ co_id <$> callout_list s).
Proof.
  unfold clock_callout_find. destruct (existsb _ _) eqn:E; symmetry.
  - apply bool_decide_eq_true. apply existsb_exists in E as (c & Hin & Hc). apply Nat.eqb_eq in Hc as <-.
    apply list_elem_of_fmap_2. by apply list_elem_of_In.
  - apply bool_decide_eq_false. intros H. apply list_elem_of_fmap in H as (c & -> & Hin).
    assert (existsb (fun x => Nat.eqb (co_id x) (co_id c)) (callout_list s) = true); [|congruence].
    apply existsb_exists. exists c. split; [by apply list_elem_of_In|]. apply Nat.eqb_refl.
Qed.

(** C16: Periodic calls, for callouts whose functions call no function of the
    clock, while nobody sets the time. [clock_callout_add] refuses NULL pointers, a period of
    zero and a node that is registered, and otherwise registers the callout
    for the counter plus its period. From there, [n] ticks of the timer with
    callouts whose functions leave the clock alone make exactly the calls of
    the reference: each callout is called at the counter values that are a
    multiple of its period after its registration, in the order of the list at
    each of them; the list holds the same callouts in the same order
    afterwards, each of them on time. *)
Theorem callouts_periodic fns t0 n s :
  0 <= clock_counter s -> clock_counter s + Z.of_nat n < 2 ^ 62 -> walking s = None ->
  Forall (on_time fns t0 (clock_counter s)) (callout_list s) ->
  (exists s', ticks fns n s = Done s' /\ clock_counter s' = clock_counter s + Z.of_nat n /\ walking s' = None
    /\ calls s' = calls s ++ calls_from (callout_list s) t0 (clock_counter s) n
    /\ Forall2 same_callout (callout_list s) (callout_list s')
    /\ Forall (on_time fns t0 (clock_counter s')) (callout_list s'))
  /\ (forall cc fn p, 0 <= p < 2 ^ 32 ->
       clock_callout_add cc fn p s =
         match cc, fn with
         | Some cc, Some fn =>
             if p =? 0 then Done (- EINVAL, s)
             else if decide (cc ∈ co_id <$> callout_list s) then Done (- EEXIST, s)
             else Done (0, set_list (callout_list s ++ [mk_co cc fn p (clock_counter s + p)]) s)
         | _, _ => Done (- EINVAL, s)
         end
       /\ forall id f, 0 < p -> callout_at (clock_counter s) (clock_counter s) (mk_co id f p (clock_counter s + p))).
Proof.
  intros H0 Hn Hw Hl. split.
  - revert s H0 Hn Hw Hl. induction n as [|n IH]; intros s H0 Hn Hw Hl.
    + exists s. cbn [ticks calls_from]. rewrite Z.add_0_r, app_nil_r. repeat split; try done.
      clear. induction (callout_list s); by constructor.
    + destruct (timeout_quiet fns t0 _ s eq_refl ltac:(lia) Hw Hl) as (l' & E & Hs & Ho).
      cbn [ticks]. rewrite E. cbn [obind].
      destruct (IH (mk_callouts l' None (clock_counter s + 1) (calls s ++ calls_at (callout_list s) t0 (clock_counter s + 1))))
        as (s' & E' & Hc & Hw' & Hca & Hs' & Ho'); cbn [clock_counter walking callout_list] in *; [lia|lia|done|done|].
      exists s'. split; [done|]. split; [lia|]. split; [done|]. split; [|split; [|done]].
      * rewrite Hca. cbn [calls calls_from]. rewrite <- app_assoc. f_equal. f_equal. by apply calls_from_same.
      * by eapply same_callout_trans.
  - intros cc fn p Hp. split; [|intros; by apply callout_added].
    destruct cc as [cc|], fn as [fn|]; try done. cbn [clock_callout_add]. destruct (p =? 0); [done|].
    rewrite find_in. destruct (decide (cc ∈ co_id <$> callout_list s)) as [E|E].
    + by rewrite bool_decide_true.
    + rewrite bool_decide_false, Hw by done. cbn. by rewrite wrap_small by (split; lia).
Qed.

Definition two_callouts : clock := mk_callouts [mk_co 0 0 2 102; mk_co 1 0 3 103] None 100 [].

Lemma callouts_periodic_witness :
  exists s', ticks (fun _ => []) 6 two_callouts = Done s' /\ calls s' = [(0%nat, 102); (1%nat, 103); (0%nat, 104); (0%nat, 106); (1%nat, 106)].
Proof.
  refine (match proj1 (callouts_periodic (fun _ => []) (fun _ => 100) 6 two_callouts _ _ _ _) with
          | ex_intro _ s' (conj E (conj _ (conj _ (conj Hc _)))) => ex_intro _ s' (conj E (eq_trans Hc _)) end);
    [by vm_compute|by vm_compute|done| |by vm_compute].
  repeat constructor; vm_compute; congruence.
Defined.

(** During the walk the callouts are on the walker's list, where
    [clock_callout_find] does not look: a callout cannot delete itself. *)
Lemma callout_cannot_delete_itself :
  exists s', clock_timeout_cb (fun _ => [Del 0]) (mk_callouts [mk_co 0 0 1 101] None 100 []) = Done s'
    /\ callout_list s' = [mk_co 0 0 1 102].
Proof. eexists. split; [vm_compute; reflexivity|done]. Qed.
End Callout.
