(* ===== verification/BlkCache.v ===== *)
(** * dev/blkdev.c : the simple write-back block cache of the disk devices

    [bh_desc] buffers on two lists, the clean ones and the dirty ones, under
    one mutex.  The operations are written as the code has them, with the
    mutex, the lists and the buffers explicit; [binv] is the invariant, [rep]
    says which bytes a cache with its chips stands for. *)
From Stdlib Require Import ZArith Lia Bool String.
From stdpp Require Import base list numbers gmap.
From S2P Require Import Prelude Disk.
Import Disk.

Module BlkCache.

Definition NR_BLKS : nat := 4.
Definition CONFIG_BLKDEV_MAX_BLKSZ : Z := 4096.
Definition CONFIG_BLKDEV_SWAP_PERIOD : Z := 2000.
Definition CONFIG_BLKDEV_HOLD_TIME : Z := 10000.

Inductive bh_state_t := BH_STATE_INVALD | BH_STATE_DIRTY | BH_STATE_CACHED.
#[export] Instance bh_state_eq_dec : EqDecision bh_state_t.
Proof. solve_decision. Defined.

(** [struct bh_desc] without its link; a device pointer is an integer, 0 is
    NULL. *)
Record bh_desc := mk_bh {
  bh_dd : Z;
  bh_buffer : list Z;
  bh_blkno : Z;
  bh_state : bh_state_t;
  bh_hold : Z }.

Definition set_buffer (v : list Z) (b : bh_desc) : bh_desc := mk_bh (bh_dd b) v (bh_blkno b) (bh_state b) (bh_hold b).
Definition set_state (v : bh_state_t) (b : bh_desc) : bh_desc := mk_bh (bh_dd b) (bh_buffer b) (bh_blkno b) v (bh_hold b).
Definition set_hold (v : Z) (b : bh_desc) : bh_desc := mk_bh (bh_dd b) (bh_buffer b) (bh_blkno b) (bh_state b) v.

(** The file's static variables, and the chips.  Buffers are indices. *)
Record bcache (F : Type) := mk_bcache {
  bh_mtx : bool;  (* held *)
  bh_initialized : bool;
  bh_bufs : list bh_desc;
  cached_list : list nat;
  dirty_list : list nat;
  cache_hits : Z;
  cache_missed : Z;
  chips_of : F }.
Arguments mk_bcache {F}.
Arguments bh_mtx {F}. Arguments bh_initialized {F}. Arguments bh_bufs {F}.
Arguments cached_list {F}. Arguments dirty_list {F}. Arguments cache_hits {F}.
Arguments cache_missed {F}. Arguments chips_of {F}.

Section Ops.
Context {F : Type} `{Driver F}.
(** The registered devices, by their pointer. *)
Context (devs : Z -> disk_device).

Implicit Types c : bcache F.

Definition set_mtx (v : bool) c : bcache F :=
  mk_bcache v (bh_initialized c) (bh_bufs c) (cached_list c) (dirty_list c) (cache_hits c) (cache_missed c) (chips_of c).
Definition set_bufs (v : list bh_desc) c : bcache F :=
  mk_bcache (bh_mtx c) (bh_initialized c) v (cached_list c) (dirty_list c) (cache_hits c) (cache_missed c) (chips_of c).
Definition set_cached (v : list nat) c : bcache F :=
  mk_bcache (bh_mtx c) (bh_initialized c) (bh_bufs c) v (dirty_list c) (cache_hits c) (cache_missed c) (chips_of c).
Definition set_dirty (v : list nat) c : bcache F :=
  mk_bcache (bh_mtx c) (bh_initialized c) (bh_bufs c) (cached_list c) v (cache_hits c) (cache_missed c) (chips_of c).
Definition count_hit c : bcache F :=
  mk_bcache (bh_mtx c) (bh_initialized c) (bh_bufs c) (cached_list c) (dirty_list c) (cache_hits c + 1) (cache_missed c) (chips_of c).
Definition count_miss c : bcache F :=
  mk_bcache (bh_mtx c) (bh_initialized c) (bh_bufs c) (cached_list c) (dirty_list c) (cache_hits c) (cache_missed c + 1) (chips_of c).
Definition set_chips (v : F) c : bcache F :=
  mk_bcache (bh_mtx c) (bh_initialized c) (bh_bufs c) (cached_list c) (dirty_list c) (cache_hits c) (cache_missed c) v.

(** The thread that holds the mutex does not lock it again, and nobody
    unlocks a mutex that is not held. *)
Definition MTX_LOCK c : outcome (bcache F) := guard* negb (bh_mtx c) in Done (set_mtx true c).
Definition MTX_UNLOCK c : outcome (bcache F) := guard* bh_mtx c in Done (set_mtx false c).

Definition bh (i : nat) c : outcome bh_desc :=
  match bh_bufs c !! i with Some b => Done b | None => Undef end.
Definition upd_bh (i : nat) (f : bh_desc -> bh_desc) c : outcome (bcache F) :=
  let* b := bh i c in Done (set_bufs (<[i := f b]> (bh_bufs c)) c).

(** A link that is on a list must not be added again. *)
Definition unlinked (i : nat) c : bool := bool_decide (i ∉ cached_list c ++ dirty_list c).

Definition bh_enqueue_dirty (i : nat) c : outcome (bcache F) :=
  let* c := upd_bh i (set_hold CONFIG_BLKDEV_HOLD_TIME) c in
  guard* unlinked i c in Done (set_dirty (dirty_list c ++ [i]) c).
Definition bh_enqueue_cached (i : nat) c : outcome (bcache F) :=
  guard* unlinked i c in Done (set_cached (cached_list c ++ [i]) c).

(** [list_del]; a buffer is on one list at most. *)
Definition bh_unlink (i : nat) c : bcache F :=
  set_dirty (filter (fun j => j <> i) (dirty_list c)) (set_cached (filter (fun j => j <> i) (cached_list c)) c).

(** The walk of [blkdev_sync_locked]; [pos] is the rest of [dirty_list]. *)
Fixpoint blkdev_sync_loop (pos : list nat) (expired : Z) c : outcome (bcache F) :=
  match pos with
  | [] => Done c
  | i :: pos =>
      let* b := bh i c in
      if bh_hold b >? expired then
        let* c := upd_bh i (set_hold (bh_hold b - expired)) c in
        blkdev_sync_loop pos expired c
      else
        let dd := devs (bh_dd b) in
        let ofs := u32 (dd_blk_size dd * bh_blkno b) in
        let* r := disk_device_erase dd (chips_of c) ofs (dd_blk_size dd) in
        let c := set_chips r.2 c in
        if negb (r.1 =? 0) then Done c
        else
          let* r := disk_device_write dd (chips_of c) (Some (bh_buffer b)) (dd_blk_size dd) ofs in
          let c := set_chips r.2 c in
          if r.1 <? 0 then Done c
          else
            let* c := upd_bh i (set_state BH_STATE_CACHED) (bh_unlink i c) in
            let* c := bh_enqueue_cached i c in
            blkdev_sync_loop pos expired c
  end.

Definition blkdev_sync_locked (expired : Z) c : outcome (Z * bcache F) :=
  let* c := blkdev_sync_loop (dirty_list c) expired c in Done (0, c).

(** The timer's callback; it is armed again in any case. *)
Definition bh_check_cb c : outcome (bcache F) :=
  let* c := MTX_LOCK c in
  let* r := blkdev_sync_locked CONFIG_BLKDEV_SWAP_PERIOD c in
  MTX_UNLOCK r.2.

Definition bh_release_modified (i : nat) c : outcome (Z * bcache F) :=
  let* c := upd_bh i (set_state BH_STATE_DIRTY) c in
  let* c := bh_enqueue_dirty i c in
  let* c := MTX_UNLOCK c in Done (0, c).

Definition bh_release (i : nat) c : outcome (Z * bcache F) :=
  let* b := bh i c in
  let* c := (if decide (bh_state b = BH_STATE_DIRTY) then bh_enqueue_dirty i c else bh_enqueue_cached i c) in
  let* c := MTX_UNLOCK c in Done (0, c).

Definition matches (dd blkno : Z) c (i : nat) : bool :=
  match bh_bufs c !! i with Some b => (bh_dd b =? dd) && (bh_blkno b =? blkno) | None => false end.

Fixpoint find_bh (dd blkno : Z) c (l : list nat) : option nat :=
  match l with
  | [] => None
  | i :: l => if matches dd blkno c i then Some i else find_bh dd blkno c l
  end.

(** The buffer is taken off its list.  When nothing is clean the dirty ones
    are written; if that leaves [cached_list] empty, its head is taken for a
    buffer. *)
Definition bh_search_locked (dd blkno : Z) c : outcome (nat * bcache F) :=
  match find_bh dd blkno c (cached_list c) with
  | Some i => Done (i, bh_unlink i (count_hit c))
  | None =>
      match find_bh dd blkno c (dirty_list c) with
      | Some i => Done (i, bh_unlink i (count_hit c))
      | None =>
          let* r := (match cached_list c with
                     | [] => blkdev_sync_locked CONFIG_BLKDEV_HOLD_TIME c
                     | _ => Done (0, c)
                     end) in
          let c := count_miss r.2 in
          match cached_list c with
          | [] => Undef
          | i :: _ =>
              let* c := upd_bh i (fun b => mk_bh dd (bh_buffer b) blkno BH_STATE_INVALD (bh_hold b)) (bh_unlink i c) in
              Done (i, c)
          end
      end
  end.

(** The result and what is stored through [pbh]. *)
Definition bh_get (dd blkno : Z) c : outcome (Z * option nat * bcache F) :=
  let* c := MTX_LOCK c in
  let* r := bh_search_locked dd blkno c in
  Done (0, Some r.1, r.2).

Definition bh_read (dd blkno : Z) c : outcome (Z * option nat * bcache F) :=
  let* c := MTX_LOCK c in
  let* r := bh_search_locked dd blkno c in
  let i := r.1 in let c := r.2 in
  let* b := bh i c in
  if negb (bool_decide (bh_state b = BH_STATE_INVALD)) then Done (0, Some i, c)
  else
    let bs := dd_blk_size (devs dd) in
    let ofs := u32 (bs * bh_blkno b) in
    let* r := disk_device_read (devs dd) (chips_of c) true bs ofs in
    if r.1 <? 0 then let* e := bh_release i c in Done (r.1, None, e.2)
    else
      let* buffer := mem_write (bh_buffer b) 0 r.2 in
      let* c := upd_bh i (fun b => set_state BH_STATE_CACHED (set_buffer buffer b)) c in
      Done (0, Some i, c).

Definition blkdev_sync c : outcome (Z * bcache F) :=
  let* c := MTX_LOCK c in
  let* r := blkdev_sync_locked CONFIG_BLKDEV_HOLD_TIME c in
  let* c := MTX_UNLOCK r.2 in Done (r.1, c).

(** The error path of both loops: [bh] as [bh_read] left it, uninitialised in
    the first turn. *)
Definition release_on_error (err : Z) (pbh : option nat) c : outcome (Z * bcache F) :=
  match pbh with
  | None => Undef
  | Some i => let* r := bh_release i c in Done (err, r.2)
  end.

(** The [while] of [blkdev_write]; [src] is what is left to write and [bh0]
    the variable [bh]. *)
Fixpoint blkdev_write_loop (fuel : nat) (dd : Z) (src : list Z) (blkno blkofs : Z) (bh0 : option nat) c
    : outcome (Z * bcache F) :=
  let bs := dd_blk_size (devs dd) in
  if len src =? 0 then Done (0, c) else
  match fuel with
  | O => Undef
  | S fuel =>
      let* r := (if (blkofs =? 0) && (bs <=? len src) then bh_get dd blkno c else bh_read dd blkno c) in
      let err := r.1.1 in let c := r.2 in
      let bh1 := match r.1.2 with Some i => Some i | None => bh0 end in
      if negb (err =? 0) then release_on_error err bh1 c
      else
        match bh1 with
        | None => Undef
        | Some i =>
            let n := u64 (bs - blkofs) in
            let n := if n >? len src then len src else n in
            let* b := bh i c in
            let* buffer := mem_write (bh_buffer b) blkofs (take (Z.to_nat n) src) in
            let* c := upd_bh i (set_buffer buffer) c in
            let* r := bh_release_modified i c in
            blkdev_write_loop fuel dd (drop (Z.to_nat n) src) (u32 (blkno + 1)) 0 bh1 r.2
        end
  end.

(** [size - remain], or the error *)
Definition blkdev_write (dd : Z) (buf : list Z) (offset : Z) c : outcome (Z * bcache F) :=
  let bs := dd_blk_size (devs dd) in
  guard* negb (bs =? 0) in
  let* r := blkdev_write_loop (length buf) dd buf (u32 (offset / bs)) (u32 (offset mod bs)) None c in
  Done (if r.1 =? 0 then len buf else r.1, r.2).

(** The [while] of [blkdev_read]; it gives the bytes as well. *)
Fixpoint blkdev_read_loop (fuel : nat) (dd remain blkno blkofs : Z) (bh0 : option nat) (acc : list Z) c
    : outcome (Z * list Z * bcache F) :=
  let bs := dd_blk_size (devs dd) in
  if remain =? 0 then Done (0, acc, c) else
  match fuel with
  | O => Undef
  | S fuel =>
      let* r := bh_read dd blkno c in
      let err := r.1.1 in let c := r.2 in
      let bh1 := match r.1.2 with Some i => Some i | None => bh0 end in
      if negb (err =? 0) then let* r := release_on_error err bh1 c in Done (r.1, acc, r.2)
      else
        match bh1 with
        | None => Undef
        | Some i =>
            let n := u64 (bs - blkofs) in
            let n := if n >? remain then remain else n in
            let* b := bh i c in
            let* data := mem_read (bh_buffer b) blkofs n in
            let* r := bh_release i c in
            blkdev_read_loop fuel dd (remain - n) (u32 (blkno + 1)) 0 bh1 (acc ++ data) r.2
        end
  end.

Definition blkdev_read (dd size offset : Z) c : outcome (Z * list Z * bcache F) :=
  let bs := dd_blk_size (devs dd) in
  guard* negb (bs =? 0) in
  let* r := blkdev_read_loop (Z.to_nat size) dd size (u32 (offset / bs)) (u32 (offset mod bs)) None [] c in
  Done (if r.1.1 =? 0 then size else r.1.1, r.1.2, r.2).

(** [blkdev_init]; [mem] is what [general_malloc] gives for the buffers
    ([None] is NULL), [timer] the status of [os_timer_create].  Each buffer is
    added in front.  When the timer cannot be created, [bh] points behind the
    last buffer and is freed. *)
Definition blkdev_init (mem : option (list (list Z))) (timer : Z) c : outcome (Z * bcache F) :=
  if bh_initialized c then Done (0, c)
  else
    match mem with
    | None => Assert
    | Some mem =>
        let bufs := (fun m => mk_bh 0 m 0 BH_STATE_INVALD 0) <$> mem in
        let c := set_bufs bufs (set_cached (rev (seq 0 NR_BLKS) ++ cached_list c) c) in
        if negb (timer =? 0) then Undef
        else Done (0, mk_bcache false true (bh_bufs c) (cached_list c) (dirty_list c)
                        (cache_hits c) (cache_missed c) (chips_of c))
    end.

Definition blkdev_destroy c : outcome (Z * bcache F) :=
  if negb (bh_initialized c) then Done (0, c)
  else
    let* c := MTX_LOCK c in
    let* c := MTX_UNLOCK (mk_bcache (bh_mtx c) false [] [] [] (cache_hits c) (cache_missed c) (chips_of c)) in
    Done (0, c).

(** [disk_device_register] of disk.c: the new device goes in front of the
    list, after the block cache is initialised. *)
Definition disk_device_register (dd : option disk_device) (mem : option (list (list Z))) (timer : Z)
    (disk_list : list disk_device) c : outcome (Z * list disk_device * bcache F) :=
  match dd with
  | None => Done (- EINVAL, disk_list, c)
  | Some dd =>
      if negb (disk_device_valid dd) then Done (- EINVAL, disk_list, c)
      else let* r := blkdev_init mem timer c in Done (0, dd :: disk_list, r.2)
  end.

End Ops.
End BlkCache.
