(* ===== verification/BlkCacheOk.v ===== *)
(** * The block cache of dev/blkdev.c stands for flat devices

    The invariant [binv hole m c V]: the buffers of [hole] are in the hands of
    the running operation, [m] says whether the mutex is held, and the cache
    [c] with its chips stands for the device contents [V].  Every operation
    keeps it; reads give [V], writes change [V]. *)
From Stdlib Require Import ZArith Lia Bool String.
From stdpp Require Import base list numbers gmap.
From S2P Require Import Prelude Disk BlkCache.
Import Disk BlkCache.

Module CacheOk.

#[local] Opaque NR_BLKS.

Section Ok.
Context {F : Type} `{HF : Flash F} (devs : Z -> disk_device).
Implicit Types c : bcache F.

Abbreviation bs d := (dd_blk_size (devs d)).

(** A device that passed [disk_device_register] and that fits the cache. *)
Record dev_ok (d : Z) : Prop := {
  ok_null : d <> 0;
  ok_bs : exists k, 0 <= k /\ bs d = 2 ^ k;
  ok_max : bs d <= CONFIG_BLKDEV_MAX_BLKSZ;
  ok_div : (bs d | dd_len (devs d));
  ok_len : 0 < dd_len (devs d) <= 2 ^ 32;
  ok_ops : dd_read (devs d) = true /\ dd_write (devs d) = true /\ dd_erase (devs d) = true;
  ok_unit : (fl_unit (handle (devs d)) | bs d) }.

(** No two devices are the same chip. *)
Definition distinct_chips : Prop :=
  forall d d', dev_ok d -> dev_ok d' -> handle (devs d) = handle (devs d') -> d = d'.
Context (Hchips : distinct_chips).

Lemma bs_pos d : dev_ok d -> 0 < bs d.
Proof. intros [_ (k & Hk & ->) _ _ _ _ _]. by apply Z.pow_pos_nonneg. Qed.

(** What the chip of a device holds. *)
Definition data (d : Z) c : list Z := fl_content (handle (devs d)) (chips_of c).
(** Block [k] of [l]. *)
Definition block (d k : Z) (l : list Z) : list Z := slice l (k * bs d) (bs d).
Definition in_dev (d k : Z) : Prop := dev_ok d /\ 0 <= k /\ (k + 1) * bs d <= dd_len (devs d).

Definition has_key (d k : Z) (b : bh_desc) : Prop := bh_dd b = d /\ bh_blkno b = k.

(** One buffer in good order, with contents [V] of the devices. *)
Record buf_ok (V : Z -> list Z) (b : bh_desc) : Prop := {
  bo_len : len (bh_buffer b) = CONFIG_BLKDEV_MAX_BLKSZ;
  bo_bytes : bytes (bh_buffer b);
  bo_dev : bh_dd b <> 0 -> in_dev (bh_dd b) (bh_blkno b);
  bo_state : bh_state b <> BH_STATE_INVALD -> bh_dd b <> 0;
  bo_valid : bh_state b <> BH_STATE_INVALD ->
    slice (bh_buffer b) 0 (bs (bh_dd b)) = block (bh_dd b) (bh_blkno b) (V (bh_dd b)) }.

Record binv (hole : list nat) (m : bool) c (V : Z -> list Z) : Prop := {
  bi_mtx : bh_mtx c = m;
  bi_len : length (bh_bufs c) = NR_BLKS;
  bi_perm : hole ++ cached_list c ++ dirty_list c ≡ₚ seq 0 NR_BLKS;
  bi_key : forall i j bi bj, bh_bufs c !! i = Some bi -> bh_bufs c !! j = Some bj ->
    bh_dd bi <> 0 -> has_key (bh_dd bi) (bh_blkno bi) bj -> i = j;
  bi_buf : forall i b, bh_bufs c !! i = Some b -> buf_ok V b;
  bi_dirty : forall i b, i ∈ dirty_list c -> bh_bufs c !! i = Some b ->
    bh_state b = BH_STATE_DIRTY /\ bh_hold b <= CONFIG_BLKDEV_HOLD_TIME;
  bi_cached : forall i b, i ∈ cached_list c -> bh_bufs c !! i = Some b -> bh_state b <> BH_STATE_DIRTY;
  bi_data : forall d, dev_ok d -> len (data d c) = dd_len (devs d) /\ bytes (data d c) /\
    len (V d) = dd_len (devs d) /\ bytes (V d);
  bi_clean : forall d k, in_dev d k ->
    (forall i b, bh_bufs c !! i = Some b -> bh_state b = BH_STATE_DIRTY -> ~ has_key d k b) ->
    block d k (data d c) = block d k (V d) }.

(** ** Lists *)

Lemma binv_lookup hole m c V i : binv hole m c V -> i ∈ hole ++ cached_list c ++ dirty_list c ->
  exists b, bh_bufs c !! i = Some b /\ buf_ok V b.
Proof.
  intros HI Hi. rewrite (bi_perm _ _ _ _ HI) in Hi. apply elem_of_seq in Hi.
  destruct (lookup_lt_is_Some_2 (bh_bufs c) i) as [b Hb]; [rewrite (bi_len _ _ _ _ HI); lia|].
  exists b. split; [done|]. by apply (bi_buf _ _ _ _ HI i).
Qed.

Lemma binv_nodup hole m c V : binv hole m c V -> NoDup (hole ++ cached_list c ++ dirty_list c).
Proof. intros HI. rewrite (bi_perm _ _ _ _ HI). apply NoDup_seq. Qed.

Lemma filter_ne_notin (i : nat) (l : list nat) : i ∉ l -> filter (fun j => j <> i) l = l.
Proof.
  induction l as [|j l IH]; intros Hi; [done|]. apply not_elem_of_cons in Hi as [H1 H2].
  rewrite filter_cons_True by congruence. by rewrite IH.
Qed.

Lemma filter_ne_perm (i : nat) (l : list nat) : NoDup l -> i ∈ l -> l ≡ₚ i :: filter (fun j => j <> i) l.
Proof.
  induction 1 as [|j l Hj Hl IH]; intros Hi; [by apply elem_of_nil in Hi|].
  destruct (decide (j = i)) as [->|Hne].
  - rewrite filter_cons_False by tauto. by rewrite filter_ne_notin.
  - rewrite filter_cons_True by done. apply elem_of_cons in Hi as [->|Hi]; [done|].
    rewrite (IH Hi) at 1. apply perm_swap.
Qed.

(** Counting and locking. *)
Lemma binv_count hole m c V : binv hole m c V ->
  binv hole m (count_hit c) V /\ binv hole m (count_miss c) V /\ forall m', binv hole m' (set_mtx m' c) V.
Proof. intros []. split_and!; [by constructor..|]. intros m'. by constructor. Qed.

(** Off the lists. *)
Lemma binv_unlink m c V i : binv [] m c V -> (i < NR_BLKS)%nat -> binv [i] m (bh_unlink i c) V.
Proof.
  intros HI Hi. pose proof (binv_nodup _ _ _ _ HI) as Hn. pose proof (bi_perm _ _ _ _ HI) as Hp.
  simpl in Hn, Hp. assert (i ∈ cached_list c ++ dirty_list c) as Hin by (rewrite Hp; apply elem_of_seq; lia).
  destruct HI as [? ? _ ? ? HD HC ? ?]. split; simpl; try done.
  - rewrite <- filter_app, <- Hp. symmetry. by apply filter_ne_perm.
  - intros j b [_ Hj]%list_elem_of_filter. by apply HD.
  - intros j b [_ Hj]%list_elem_of_filter. by apply HC.
Qed.

Lemma unlinked_hole m c V i : binv [i] m c V -> unlinked i c = true.
Proof.
  intros HI. apply bool_decide_eq_true. pose proof (binv_nodup _ _ _ _ HI) as Hn.
  simpl in Hn. by apply NoDup_cons in Hn as [? _].
Qed.

(** Back on a list. *)
Lemma binv_enqueue m c V i b :
  binv [i] m c V -> bh_bufs c !! i = Some b ->
  (bh_state b = BH_STATE_DIRTY -> bh_hold b <= CONFIG_BLKDEV_HOLD_TIME ->
     binv [] m (set_dirty (dirty_list c ++ [i]) c) V) /\
  (bh_state b <> BH_STATE_DIRTY -> binv [] m (set_cached (cached_list c ++ [i]) c) V).
Proof.
  intros [? ? Hp ? ? HD HC ? ?] Hb. split.
  - intros Hs Hh. split; simpl; try done.
    + rewrite <- Hp. simpl. rewrite app_assoc, Permutation_app_comm. done.
    + intros j bj [Hj|Hj]%elem_of_app Hbj; [by apply HD with j|].
      apply list_elem_of_singleton in Hj as ->. assert (bj = b) as -> by congruence. done.
  - intros Hs. split; simpl; try done.
    + rewrite <- Hp. simpl. rewrite <- app_assoc. symmetry. apply Permutation_middle.
    + intros j bj [Hj|Hj]%elem_of_app Hbj; [by apply HC with j|].
      apply list_elem_of_singleton in Hj as ->. assert (bj = b) as -> by congruence. done.
Qed.

(** ** Changing one buffer *)

(** The buffer in the hole gets the contents [b'] and the devices [V']. *)
Lemma binv_store m c V V' i b b' :
  binv [i] m c V -> bh_bufs c !! i = Some b -> buf_ok V' b' ->
  (forall j bj, j <> i -> bh_bufs c !! j = Some bj -> buf_ok V' bj) ->
  (forall j bj, j <> i -> bh_bufs c !! j = Some bj -> bh_dd b' <> 0 ->
     ~ has_key (bh_dd b') (bh_blkno b') bj) ->
  (forall d, dev_ok d -> len (V' d) = dd_len (devs d) /\ bytes (V' d)) ->
  (forall d k, in_dev d k ->
     (forall j bj, j <> i -> bh_bufs c !! j = Some bj -> bh_state bj = BH_STATE_DIRTY -> ~ has_key d k bj) ->
     ~ (bh_state b' = BH_STATE_DIRTY /\ has_key d k b') ->
     block d k (data d c) = block d k (V' d)) ->
  binv [i] m (set_bufs (<[i := b']> (bh_bufs c)) c) V'.
Proof.
  intros HI Hb Hok Hoth Hkey HV Hcl. pose proof (binv_nodup _ _ _ _ HI) as Hn. simpl in Hn.
  apply NoDup_cons in Hn as [Hni _]. apply not_elem_of_app in Hni as [Hnc Hnd].
  destruct HI as [? Hl ? HK HB HD HC Hdat _]. pose proof (lookup_lt_Some _ _ _ Hb) as Hlt.
  split; simpl; try done; [by rewrite length_insert|..].
  - intros j1 j2 b1 b2 H1 H2 Hd Hk.
    apply list_lookup_insert_Some in H1 as [(<- & <- & _)|[N1 H1]];
      apply list_lookup_insert_Some in H2 as [(<- & <- & _)|[N2 H2]]; try done.
    + exfalso. by eapply (Hkey j2 b2).
    + exfalso. destruct Hk as [E1 E2]. eapply (Hkey j1 b1); [done|done| |].
      * by rewrite E1.
      * by rewrite E1, E2.
    + by eapply HK.
  - intros j bj Hj. apply list_lookup_insert_Some in Hj as [(<- & <- & _)|[N Hj]]; [done|by eapply Hoth].
  - intros j bj Hin Hj. apply list_lookup_insert_Some in Hj as [(<- & <- & _)|[N Hj]]; [done|by apply HD with j].
  - intros j bj Hin Hj. apply list_lookup_insert_Some in Hj as [(<- & <- & _)|[N Hj]]; [done|by apply HC with j].
  - intros d Hd. destruct (Hdat d Hd) as (? & ? & _). destruct (HV d Hd). done.
  - intros d k Hdk Hno. apply Hcl; [done| |].
    + intros j bj Hne Hj. apply (Hno j). by rewrite list_lookup_insert_ne.
    + intros [Hs Hk]. apply (Hno i b'); [|done|done]. by rewrite list_lookup_insert_eq.
Qed.

(** ** Releasing *)

Lemma upd_bh_eq i (f : bh_desc -> bh_desc) b c :
  bh_bufs c !! i = Some b -> upd_bh i f c = Done (set_bufs (<[i := f b]> (bh_bufs c)) c).
Proof. intros Hb. unfold upd_bh, bh. by rewrite Hb. Qed.

Lemma bh_eq i b c : bh_bufs c !! i = Some b -> bh i c = Done b.
Proof. intros Hb. unfold bh. by rewrite Hb. Qed.

Lemma buf_ok_hold V h b : buf_ok V b -> buf_ok V (set_hold h b).
Proof. intros []. by constructor. Qed.

(** A new hold time. *)
Lemma binv_hold hole m c V i b h :
  binv hole m c V -> bh_bufs c !! i = Some b -> (i ∈ dirty_list c -> h <= CONFIG_BLKDEV_HOLD_TIME) ->
  binv hole m (set_bufs (<[i := set_hold h b]> (bh_bufs c)) c) V.
Proof.
  intros HI Hb Hh. assert (forall j bj, (<[i := set_hold h b]> (bh_bufs c)) !! j = Some bj ->
    exists bj', bh_bufs c !! j = Some bj' /\ bh_dd bj = bh_dd bj' /\ bh_blkno bj = bh_blkno bj' /\
      bh_state bj = bh_state bj') as Hj.
  { intros j bj Hj. apply list_lookup_insert_Some in Hj as [(<- & <- & _)|[_ Hj]]; eauto. }
  destruct HI as [? ? ? HK HB HD HC ? HCl]. split; simpl; try done; [by rewrite length_insert|..].
  - intros j1 j2 b1 b2 H1 H2 Hd [K1 K2]. destruct (Hj _ _ H1) as (b1' & H1' & D1 & B1 & _).
    destruct (Hj _ _ H2) as (b2' & H2' & D2 & B2 & _). eapply HK; [done|done|congruence|].
    split; congruence.
  - intros j bj Hbj. apply list_lookup_insert_Some in Hbj as [(<- & <- & _)|[_ Hbj]];
      [by apply buf_ok_hold, (HB i)|by apply (HB j)].
  - intros j bj Hin Hbj. apply list_lookup_insert_Some in Hbj as [(<- & <- & _)|[_ Hbj]];
      [|by apply (HD j)]. destruct (HD i b Hin Hb). simpl. auto.
  - intros j bj Hin Hbj. apply list_lookup_insert_Some in Hbj as [(<- & <- & _)|[_ Hbj]];
      [exact (HC i b Hin Hb)|by apply (HC j)].
  - intros d k Hdk Hno. apply HCl; [done|]. intros j bj Hbj Hs Hk.
    destruct (decide (j = i)) as [->|Hne].
    + assert (bj = b) as -> by congruence. apply (Hno i (set_hold h b)); [|done|done].
      apply list_lookup_insert_eq. by eapply lookup_lt_Some.
    + apply (Hno j bj); [|done|done]. by rewrite list_lookup_insert_ne.
Qed.

(** The keys of the buffers. *)
Definition keys c : list (Z * Z) := (fun b => (bh_dd b, bh_blkno b)) <$> bh_bufs c.

Lemma keys_insert c i b b' :
  bh_bufs c !! i = Some b -> bh_dd b' = bh_dd b -> bh_blkno b' = bh_blkno b ->
  keys (set_bufs (<[i := b']> (bh_bufs c)) c) = keys c.
Proof.
  intros Hb H1 H2. unfold keys. simpl. rewrite list_fmap_insert. apply list_insert_id.
  rewrite list_lookup_fmap, Hb. simpl. congruence.
Qed.

Lemma enqueue_dirty_ok m c V i b :
  binv [i] m c V -> bh_bufs c !! i = Some b -> bh_state b = BH_STATE_DIRTY ->
  exists c', bh_enqueue_dirty i c = Done c' /\ binv [] m c' V /\ chips_of c' = chips_of c.
Proof.
  intros HI Hb Hs. unfold bh_enqueue_dirty. rewrite (upd_bh_eq _ _ _ _ Hb). cbn [obind].
  set (c1 := set_bufs _ c). assert (binv [i] m c1 V) as HI1 by (by apply binv_hold; [..|lia]).
  rewrite (unlinked_hole _ _ _ _ HI1). eexists. split; [done|]. split; [|done].
  apply (binv_enqueue m c1 V i (set_hold CONFIG_BLKDEV_HOLD_TIME b)); [done| |done|done].
  apply list_lookup_insert_eq. by eapply lookup_lt_Some.
Qed.

Lemma enqueue_cached_ok m c V i b :
  binv [i] m c V -> bh_bufs c !! i = Some b -> bh_state b <> BH_STATE_DIRTY ->
  exists c', bh_enqueue_cached i c = Done c' /\ binv [] m c' V /\ chips_of c' = chips_of c /\
    bh_bufs c' = bh_bufs c /\ dirty_list c' = dirty_list c.
Proof.
  intros HI Hb Hs. unfold bh_enqueue_cached. rewrite (unlinked_hole _ _ _ _ HI).
  eexists. split; [done|]. split; [|done]. by apply (binv_enqueue m c V i b).
Qed.

Lemma unlock_ok c V : binv [] true c V ->
  exists c', MTX_UNLOCK c = Done c' /\ binv [] false c' V /\ chips_of c' = chips_of c.
Proof.
  intros HI. unfold MTX_UNLOCK. rewrite (bi_mtx _ _ _ _ HI). eexists. split; [done|].
  split; [by apply (binv_count [] true)|done].
Qed.

Lemma lock_ok c V : binv [] false c V -> MTX_LOCK c = Done (set_mtx true c) /\ binv [] true (set_mtx true c) V.
Proof.
  intros HI. unfold MTX_LOCK. rewrite (bi_mtx _ _ _ _ HI). split; [done|]. by apply (binv_count [] false).
Qed.

Lemma release_ok c V i :
  binv [i] true c V ->
  exists c', bh_release i c = Done (0, c') /\ binv [] false c' V /\ chips_of c' = chips_of c.
Proof.
  intros HI. destruct (binv_lookup _ _ _ _ i HI) as (b & Hb & _); [constructor|].
  unfold bh_release. rewrite (bh_eq _ _ _ Hb). cbn [obind]. destruct (decide (bh_state b = BH_STATE_DIRTY)) as [Hs|Hs].
  - destruct (enqueue_dirty_ok _ _ _ _ _ HI Hb Hs) as (c1 & -> & HI1 & E1). cbn [obind].
    destruct (unlock_ok _ _ HI1) as (c2 & -> & HI2 & E2). cbn [obind]. eexists. split; [done|].
    split; [done|congruence].
  - destruct (enqueue_cached_ok _ _ _ _ _ HI Hb Hs) as (c1 & -> & HI1 & E1 & _). cbn [obind].
    destruct (unlock_ok _ _ HI1) as (c2 & -> & HI2 & E2). cbn [obind]. eexists. split; [done|].
    split; [done|congruence].
Qed.

(** ** Writing out *)

Lemma block_bounds d k : in_dev d k -> 0 < bs d /\ 0 <= k * bs d /\ k * bs d + bs d <= dd_len (devs d) /\
  dd_len (devs d) <= 2 ^ 32.
Proof.
  intros (Hd & Hk & Hl). pose proof (bs_pos d Hd). pose proof (ok_len d Hd). nia.
Qed.

Lemma block_ofs d k : in_dev d k -> u32 (bs d * k) = k * bs d.
Proof. intros Hd. destruct (block_bounds d k Hd). rewrite wrap_small; [lia|]. split; nia. Qed.

(** Programming block [k] of a device with what its dirty buffer holds. *)
Lemma program_ok hole m c V i b r f2 f1 :
  binv hole m c V -> bh_bufs c !! i = Some b -> bh_state b = BH_STATE_DIRTY ->
  let d := bh_dd b in let k := bh_blkno b in let src := slice (bh_buffer b) 0 (bs d) in
  drv_erase (handle (devs d)) (chips_of c) (k * bs d) (bs d) = (0, f1) ->
  drv_write (handle (devs d)) f1 src (k * bs d) = (r, f2) ->
  fl_content (handle (devs d)) f2 = splice (data d c) (k * bs d) src ->
  (forall d', d' <> handle (devs d) -> fl_content d' f2 = fl_content d' (chips_of c)) ->
  binv hole m (set_chips f2 c) V /\ block d k (data d (set_chips f2 c)) = block d k (V d).
Proof.
  intros HI Hb Hs d k src E1 E2 Hc Ho.
  pose proof (bi_buf _ _ _ _ HI i b Hb) as [Hbl Hbb Hbd Hbs Hbv].
  assert (bh_state b <> BH_STATE_INVALD) as Hni by congruence. specialize (Hbs Hni). specialize (Hbv Hni).
  specialize (Hbd Hbs). pose proof Hbd as (Hd & Hk & Hkl). fold d k in Hd, Hk, Hkl, Hbv, Hbd.
  destruct (block_bounds d k Hbd) as (B1 & B2 & B3 & _). pose proof (ok_max d Hd) as Hmax.
  destruct (bi_data _ _ _ _ HI d Hd) as (L1 & L2 & L3 & L4).
  assert (len src = bs d) as Hls by (apply len_slice; lia).
  assert (data d (set_chips f2 c) = splice (data d c) (k * bs d) src) as Hdd by exact Hc.
  assert (block d k (data d (set_chips f2 c)) = block d k (V d)) as Hblk.
  { rewrite Hdd. pose proof (slice_splice_same (data d c) (k * bs d) src ltac:(lia) ltac:(lia)) as E.
    rewrite Hls in E. exact (eq_trans E Hbv). }
  split; [|exact Hblk].
  assert (forall d', d' <> d -> dev_ok d' -> data d' (set_chips f2 c) = data d' c) as Hdo.
  { intros d' Hne Hd'. apply Ho. intros E. by apply Hne, Hchips. }
  destruct HI as [? ? ? ? ? ? ? Hdat HCl]. split; try done.
  - intros d' Hd'. destruct (Hdat d' Hd') as (? & ? & ?). destruct (decide (d' = d)) as [->|Hne].
    + rewrite Hdd. split; [rewrite len_splice; lia|]. split; [|done]. apply bytes_splice; [done|].
      by apply bytes_slice.
    + by rewrite Hdo.
  - intros d' k' Hdk Hno. destruct (decide (d' = d)) as [->|Hne].
    2: { rewrite Hdo by (done || apply Hdk). by apply HCl. }
    destruct (decide (k' = k)) as [->|Hnk]; [exact Hblk|].
    rewrite Hdd. destruct (block_bounds d k' Hdk) as (C1 & C2 & C3 & _).
    unfold block. rewrite slice_splice_other; [by apply HCl|lia|lia|lia|]. rewrite Hls. nia.
Qed.

(** From dirty to clean, once the chip has the contents. *)
Lemma clean_ok m c V i b :
  binv [] m c V -> i ∈ dirty_list c -> bh_bufs c !! i = Some b ->
  block (bh_dd b) (bh_blkno b) (data (bh_dd b) c) = block (bh_dd b) (bh_blkno b) (V (bh_dd b)) ->
  exists c', (let* c := upd_bh i (set_state BH_STATE_CACHED) (bh_unlink i c) in bh_enqueue_cached i c) = Done c' /\
    binv [] m c' V /\ chips_of c' = chips_of c /\ keys c' = keys c /\
    dirty_list c' = filter (fun j => j <> i) (dirty_list c).
Proof.
  intros HI Hi Hb Hblk. pose proof (bi_perm _ _ _ _ HI) as Hp. simpl in Hp.
  assert (i < NR_BLKS)%nat as Hlt.
  { rewrite <- (bi_len _ _ _ _ HI). by eapply lookup_lt_Some. }
  pose proof (binv_unlink m c V i HI Hlt) as HI1.
  destruct (bi_dirty _ _ _ _ HI i b Hi Hb) as [Hs _].
  rewrite (upd_bh_eq i _ b) by done. cbn [obind]. set (c2 := set_bufs _ _).
  assert (binv [i] m c2 V) as HI2.
  { pose proof (bi_buf _ _ _ _ HI i b Hb) as Hok. apply (binv_store m (bh_unlink i c) V V i b); try done.
    - destruct Hok. split; try done; simpl; intros _; [apply bo_state0|apply bo_valid0]; by rewrite Hs.
    - intros j bj _ Hj. by apply (bi_buf _ _ _ _ HI j).
    - intros j bj Hne Hj Hd Hk. apply Hne. symmetry. by eapply (bi_key _ _ _ _ HI i j b bj).
    - intros d Hd. by apply (bi_data _ _ _ _ HI).
    - intros d k Hdk Hno _. destruct (decide (bh_dd b = d /\ bh_blkno b = k)) as [[<- <-]|Hne]; [done|].
      apply (bi_clean _ _ _ _ HI); [done|]. intros j bj Hj Hsj Hkj.
      destruct (decide (j = i)) as [->|Hji]; [|by eapply (Hno j)].
      assert (bj = b) as -> by (simpl in Hj; congruence). by apply Hne. }
  destruct (enqueue_cached_ok m c2 V i (set_state BH_STATE_CACHED b) HI2) as (c3 & -> & HI3 & E1 & E2 & E3).
  { apply list_lookup_insert_eq. by eapply lookup_lt_Some. }
  { done. }
  exists c3. split_and!; [done|done|by rewrite E1|unfold keys; rewrite E2; exact (keys_insert c i b (set_state BH_STATE_CACHED b) Hb eq_refl eq_refl)|by rewrite E3].
Qed.

(** One buffer that has been held long enough. *)
Lemma sync_step m c V i b :
  binv [] m c V -> i ∈ dirty_list c -> bh_bufs c !! i = Some b ->
  let dd := devs (bh_dd b) in let ofs := u32 (dd_blk_size dd * bh_blkno b) in
  exists f1 r f2, disk_device_erase dd (chips_of c) ofs (dd_blk_size dd) = Done (0, f1) /\
    disk_device_write dd f1 (Some (bh_buffer b)) (dd_blk_size dd) ofs = Done (r, f2) /\ 0 <= r /\
    binv [] m (set_chips f2 c) V /\
    block (bh_dd b) (bh_blkno b) (data (bh_dd b) (set_chips f2 c)) = block (bh_dd b) (bh_blkno b) (V (bh_dd b)).
Proof.
  intros HI Hi Hb dd ofs. destruct (bi_dirty _ _ _ _ HI i b Hi Hb) as [Hs _].
  pose proof (bi_buf _ _ _ _ HI i b Hb) as [Hbl Hbb Hbd Hbs _].
  specialize (Hbs ltac:(by rewrite Hs)). specialize (Hbd Hbs). pose proof Hbd as (Hd & Hk & Hkl).
  set (d := bh_dd b) in *. set (k := bh_blkno b) in *.
  assert (ofs = k * bs d) as Eo by (by apply block_ofs). clearbody ofs. subst ofs.
  destruct (block_bounds d k Hbd) as (B1 & B2 & B3 & B4). pose proof (ok_max d Hd) as Hmax.
  destruct (ok_ops d Hd) as (_ & Hw & He). destruct (ok_bs d Hd) as (j & Hj & Ej).
  destruct (bi_data _ _ _ _ HI d Hd) as (L1 & L2 & _).
  assert (dd_len dd < 2 ^ 64) as Hl64 by (unfold dd; lia).
  assert (len (slice (bh_buffer b) 0 (bs d)) = bs d) as Hls by (apply len_slice; lia).
  destruct (program_block (handle dd) (chips_of c) (slice (bh_buffer b) 0 (bs d)) (k * bs d)) as
    (r & f1 & f2 & Hr & E1 & E2 & E3 & E4); [lia| |by apply bytes_slice|..].
  2: { apply Z.divide_mul_r. apply (ok_unit d Hd). }
  2: { rewrite Hls. apply (ok_unit d Hd). }
  { rewrite Hls. change (fl_content (handle dd) (chips_of c)) with (data d c). lia. }
  rewrite Hls in E1. exists f1, r, f2.
  rewrite (disk_erase_ok dd (chips_of c) (k * bs d) (bs d) j); try done; try lia.
  2: { rewrite <- Ej. apply Z.divide_factor_r. }
  2: { rewrite <- Ej. apply Z.divide_refl. }
  rewrite (disk_write_ok dd f1 (bh_buffer b) (k * bs d) (bs d)) by (first [done | apply Hw | lia]). rewrite E1, E2.
  split_and!; try done; by eapply program_ok.
Qed.

Lemma filter_kept i (kept pos : list nat) :
  i ∉ kept -> i ∉ pos -> filter (fun j => j <> i) (kept ++ i :: pos) = kept ++ pos.
Proof.
  intros H1 H2. rewrite filter_app, filter_cons_False by tauto. by rewrite !filter_ne_notin.
Qed.

(** The walk over the dirty list. *)
Lemma sync_loop_ok expired pos : forall kept m c V,
  0 <= expired -> binv [] m c V -> dirty_list c = kept ++ pos ->
  exists c', blkdev_sync_loop devs pos expired c = Done c' /\ binv [] m c' V /\ keys c' = keys c /\
    (CONFIG_BLKDEV_HOLD_TIME <= expired -> dirty_list c' = kept).
Proof.
  induction pos as [|i pos IH]; intros kept m c V He HI Hd; simpl.
  { exists c. rewrite app_nil_r in Hd. done. }
  assert (i ∈ dirty_list c) as Hi by (rewrite Hd; apply elem_of_app; right; constructor).
  assert (NoDup (kept ++ i :: pos)) as Hn.
  { rewrite <- Hd. pose proof (binv_nodup _ _ _ _ HI) as Hn. simpl in Hn. by apply NoDup_app in Hn as (_ & _ & ?). }
  apply NoDup_app in Hn as (_ & Hn1 & Hn2). apply NoDup_cons in Hn2 as [Hn2 _].
  destruct (binv_lookup _ _ _ _ i HI) as (b & Hb & _); [simpl; apply elem_of_app; by right|].
  rewrite (bh_eq _ _ _ Hb). cbn [obind]. destruct (bi_dirty _ _ _ _ HI i b Hi Hb) as [_ Hh].
  destruct (Z.gtb_spec (bh_hold b) expired) as [Hgt|Hle].
  - rewrite (upd_bh_eq _ _ _ _ Hb). cbn [obind].
    destruct (IH (kept ++ [i]) m (set_bufs (<[i := set_hold (bh_hold b - expired) b]> (bh_bufs c)) c) V) as
      (c' & -> & HI' & Ek & Hd'); [done|apply binv_hold; [done|done|lia]|by rewrite <- app_assoc|].
    exists c'. split_and!; [done|done| |lia]. rewrite Ek. by apply (keys_insert c i b).
  - destruct (sync_step m c V i b HI Hi Hb) as (f1 & r & f2 & -> & E2 & Hr & HI1 & Hblk). cbn [obind fst snd].
    rewrite Z.eqb_refl. cbn [negb]. simpl chips_of. rewrite E2. cbn [obind fst snd].
    rewrite (proj2 (Z.ltb_ge _ _)) by done.
    change (set_chips f2 (set_chips f1 c)) with (set_chips f2 c).
    destruct (clean_ok m (set_chips f2 c) V i b HI1 Hi Hb Hblk) as (c1 & E & HI2 & _ & Ek & Ed).
    destruct (upd_bh i _ (bh_unlink i (set_chips f2 c))) as [c2| |]; cbn [obind] in E |- *; try done.
    rewrite E. cbn [obind].
    destruct (IH kept m c1 V) as (c' & -> & HI' & Ek' & Hd'); [done|done| |].
    { rewrite Ed. simpl. rewrite Hd. apply filter_kept; [|done]. intros E'. apply (Hn1 _ E'). constructor. }
    exists c'. split_and!; [done|done| |done]. by rewrite Ek', Ek.
Qed.

Lemma sync_locked_ok expired m c V :
  0 <= expired -> binv [] m c V ->
  exists c', blkdev_sync_locked devs expired c = Done (0, c') /\ binv [] m c' V /\ keys c' = keys c /\
    (CONFIG_BLKDEV_HOLD_TIME <= expired -> dirty_list c' = []).
Proof.
  intros He HI. destruct (sync_loop_ok expired (dirty_list c) [] m c V He HI eq_refl) as (c' & E & H').
  unfold blkdev_sync_locked. rewrite E. eauto.
Qed.

(** ** Finding a buffer *)

Lemma matches_spec d k c i :
  matches d k c i = true <-> exists b, bh_bufs c !! i = Some b /\ has_key d k b.
Proof.
  unfold matches, has_key. destruct (bh_bufs c !! i) as [b|]; [|naive_solver].
  rewrite andb_true_iff, !Z.eqb_eq. naive_solver.
Qed.

Lemma find_bh_some d k c l i : find_bh d k c l = Some i -> i ∈ l /\ matches d k c i = true.
Proof.
  induction l as [|j l IH]; simpl; [done|]. destruct (matches d k c j) eqn:E.
  - intros [= ->]. split; [constructor|done].
  - intros Hf. destruct (IH Hf). split; [by constructor|done].
Qed.

Lemma find_bh_none d k c l : find_bh d k c l = None -> forall i, i ∈ l -> matches d k c i = false.
Proof.
  induction l as [|j l IH]; simpl; intros Hf i Hi; [by apply elem_of_nil in Hi|].
  destruct (matches d k c j) eqn:E; [done|]. apply elem_of_cons in Hi as [->|Hi]; [done|by apply IH].
Qed.

Lemma keys_none m c V d k :
  binv [] m c V -> find_bh d k c (cached_list c) = None -> find_bh d k c (dirty_list c) = None ->
  (d, k) ∉ keys c.
Proof.
  intros HI H1 H2 (b & Hk & Hb)%list_elem_of_fmap. apply list_elem_of_lookup_1 in Hb as [i Hb].
  assert (i ∈ cached_list c ++ dirty_list c) as Hi.
  { pose proof (bi_perm _ _ _ _ HI) as Hp. simpl in Hp. rewrite Hp, elem_of_seq, <- (bi_len _ _ _ _ HI).
    apply lookup_lt_Some in Hb. lia. }
  injection Hk as -> ->.
  assert (matches (bh_dd b) (bh_blkno b) c i = true) as Hm by (apply matches_spec; exists b; done).
  apply elem_of_app in Hi as [Hi|Hi]; [rewrite (find_bh_none _ _ _ _ H1 i Hi) in Hm
    |rewrite (find_bh_none _ _ _ _ H2 i Hi) in Hm]; done.
Qed.

Lemma keys_lookup c d k i b : (d, k) ∉ keys c -> bh_bufs c !! i = Some b -> ~ has_key d k b.
Proof.
  intros Hn Hb [<- <-]. apply Hn, list_elem_of_fmap. exists b. split; [done|]. by eapply list_elem_of_lookup_2.
Qed.

(** Taking a clean buffer for another block. *)
Lemma rekey_ok m c V d k i :
  binv [] m c V -> i ∈ cached_list c -> in_dev d k -> (d, k) ∉ keys c ->
  exists c' b, upd_bh i (fun b => mk_bh d (bh_buffer b) k BH_STATE_INVALD (bh_hold b)) (bh_unlink i c) = Done c' /\
    binv [i] m c' V /\ bh_bufs c' !! i = Some b /\ has_key d k b.
Proof.
  intros HI Hi Hdk Hn. destruct (binv_lookup [] m c V i HI) as (b & Hb & Hok);
    [simpl; apply elem_of_app; by left|].
  assert (i < NR_BLKS)%nat as Hlt by (rewrite <- (bi_len _ _ _ _ HI); by eapply lookup_lt_Some).
  rewrite (upd_bh_eq i _ b) by done. eexists _, _. split; [done|].
  split; [|split; [apply list_lookup_insert_eq; by eapply lookup_lt_Some|done]].
  pose proof (binv_unlink m c V i HI Hlt) as HI1.
  apply (binv_store m (bh_unlink i c) V V i b); try done.
  - destruct Hok. by constructor.
  - intros j bj _ Hj. by apply (bi_buf _ _ _ _ HI j).
  - intros j bj _ Hj _. by apply (keys_lookup c d k j).
  - intros d' Hd. by apply (bi_data _ _ _ _ HI).
  - intros d' k' Hdk' Hno _. apply (bi_clean _ _ _ _ HI); [done|]. intros j bj Hj Hs.
    destruct (decide (j = i)) as [->|Hne]; [|by apply (Hno j)]. exfalso.
    by apply (bi_cached _ _ _ _ HI i bj).
Qed.

(** A buffer that is cached already. *)
Lemma hit_ok m c V d k i :
  binv [] m c V -> i ∈ cached_list c ++ dirty_list c -> matches d k c i = true ->
  exists b, binv [i] m (bh_unlink i (count_hit c)) V /\ bh_bufs (bh_unlink i (count_hit c)) !! i = Some b /\ has_key d k b.
Proof.
  intros HI Hi (b & Hb & Hk)%matches_spec. exists b. split; [|done].
  apply binv_unlink; [by apply binv_count|]. rewrite <- (bi_len _ _ _ _ HI). by eapply lookup_lt_Some.
Qed.

Lemma bh_search_ok m c V d k :
  binv [] m c V -> in_dev d k ->
  exists i c' b, bh_search_locked devs d k c = Done (i, c') /\ binv [i] m c' V /\
    bh_bufs c' !! i = Some b /\ has_key d k b.
Proof.
  intros HI Hdk. unfold bh_search_locked.
  destruct (find_bh d k c (cached_list c)) as [i|] eqn:E1.
  { apply find_bh_some in E1 as [Hi Hm]. destruct (hit_ok m c V d k i HI) as (b & ?); [apply elem_of_app; by left|done|].
    exists i, (bh_unlink i (count_hit c)), b. done. }
  destruct (find_bh d k c (dirty_list c)) as [i|] eqn:E2.
  { apply find_bh_some in E2 as [Hi Hm]. destruct (hit_ok m c V d k i HI) as (b & ?); [apply elem_of_app; by right|done|].
    exists i, (bh_unlink i (count_hit c)), b. done. }
  pose proof (keys_none m c V d k HI E1 E2) as Hn.
  assert (exists c1, (match cached_list c with
                      | [] => blkdev_sync_locked devs CONFIG_BLKDEV_HOLD_TIME c
                      | _ => Done (0, c)
                      end) = Done (0, c1) /\ binv [] m c1 V /\ keys c1 = keys c /\ cached_list c1 <> []) as
    (c1 & -> & HI1 & Ek & Hne).
  { destruct (cached_list c) as [|i0 l0] eqn:Ec; [|exists c; rewrite Ec; done].
    destruct (sync_locked_ok CONFIG_BLKDEV_HOLD_TIME m c V ltac:(done) HI) as (c1 & -> & HI1 & Ek & Hd).
    exists c1. split_and!; try done. intros E. pose proof (bi_perm _ _ _ _ HI1) as Hp.
    rewrite E, (Hd ltac:(done)) in Hp. apply Permutation_length in Hp. done. }
  cbn [obind snd]. destruct (cached_list (count_miss c1)) as [|i l] eqn:El; [done|].
  destruct (rekey_ok m (count_miss c1) V d k i) as (c2 & b & -> & HI2 & Hb & Hk).
  - by apply binv_count.
  - rewrite El. constructor.
  - done.
  - change (keys (count_miss c1)) with (keys c1). by rewrite Ek.
  - cbn [obind]. exists i, c2, b. done.
Qed.

(** ** Reading a block *)

(** Filling a buffer from the chip. *)
Lemma fill_ok m c V i b d k :
  binv [i] m c V -> bh_bufs c !! i = Some b -> has_key d k b -> in_dev d k -> bh_state b = BH_STATE_INVALD ->
  let b' := set_state BH_STATE_CACHED (set_buffer (splice (bh_buffer b) 0 (block d k (data d c))) b) in
  binv [i] m (set_bufs (<[i := b']> (bh_bufs c)) c) V.
Proof.
  intros HI Hb [Hkd Hkk] Hdk Hs b'. pose proof (bi_buf _ _ _ _ HI i b Hb) as [Hbl Hbb Hbd _ _].
  pose proof Hdk as (Hd & Hk & Hkl). destruct (block_bounds d k Hdk) as (B1 & B2 & B3 & _).
  pose proof (ok_max d Hd) as Hmax. destruct (bi_data _ _ _ _ HI d Hd) as (L1 & L2 & L3 & _).
  assert (len (block d k (data d c)) = bs d) as Hls by (apply len_slice; lia).
  assert (block d k (data d c) = block d k (V d)) as Hblk.
  { apply (bi_clean _ _ _ _ HI); [done|]. intros j bj Hj Hsj [K1 K2].
    assert (i = j) as <-.
    { apply (bi_key _ _ _ _ HI i j b bj Hb Hj); [rewrite Hkd; apply (ok_null d Hd)|].
      split; congruence. }
    assert (bj = b) as -> by congruence. by rewrite Hs in Hsj. }
  assert (bh_dd b <> 0) as Hd0 by (rewrite Hkd; apply (ok_null d Hd)).
  apply (binv_store m c V V i b); try done.
  - split; simpl; try done.
    + rewrite len_splice; [done|done|]. lia.
    + apply bytes_splice; [done|]. by apply bytes_slice.
    + intros _. rewrite Hkd, Hkk, <- Hblk.
      pose proof (slice_splice_same (bh_buffer b) 0 (block d k (data d c)) ltac:(done) ltac:(lia)) as E.
      by rewrite Hls in E.
  - intros j bj _ Hj. by apply (bi_buf _ _ _ _ HI j).
  - intros j bj Hne Hj _ Hkj. apply Hne. symmetry. by eapply (bi_key _ _ _ _ HI i j b bj).
  - intros d' Hd'. by apply (bi_data _ _ _ _ HI).
  - intros d' k' Hdk' Hno _. apply (bi_clean _ _ _ _ HI); [done|]. intros j bj Hj Hsj.
    destruct (decide (j = i)) as [->|Hne]; [|by apply (Hno j)].
    assert (bj = b) as -> by congruence. by rewrite Hs in Hsj.
Qed.

Lemma bh_read_ok c V d k :
  binv [] false c V -> in_dev d k ->
  exists i c' b, bh_read devs d k c = Done (0, Some i, c') /\ binv [i] true c' V /\
    bh_bufs c' !! i = Some b /\ has_key d k b /\ bh_state b <> BH_STATE_INVALD.
Proof.
  intros HI Hdk. unfold bh_read. destruct (lock_ok c V HI) as [-> HI1]. cbn [obind].
  destruct (bh_search_ok true _ V d k HI1 Hdk) as (i & c2 & b & -> & HI2 & Hb & Hk). cbn [obind fst snd].
  rewrite (bh_eq _ _ _ Hb). cbn [obind].
  destruct (decide (bh_state b = BH_STATE_INVALD)) as [Hs|Hs].
  2: { rewrite bool_decide_eq_false_2 by done. exists i, c2, b. done. }
  rewrite bool_decide_eq_true_2 by done. cbn [negb]. pose proof Hk as [Hkd ->].
  pose proof Hdk as (Hd & _ & _). rewrite block_ofs by done.
  destruct (block_bounds d k Hdk) as (B1 & B2 & B3 & B4). destruct (ok_ops d Hd) as (Hr & _).
  pose proof (ok_max d Hd). destruct (bi_data _ _ _ _ HI2 d Hd) as (L1 & _).
  rewrite disk_read_ok by (first [exact Hr|lia]).
  destruct (fl_read (handle (devs d)) (chips_of c2) (bs d) (k * bs d)) as (r & Hr0 & ->);
    [lia|lia|change (fl_content (handle (devs d)) (chips_of c2)) with (data d c2); lia|].
  cbn [obind fst snd]. rewrite (proj2 (Z.ltb_ge _ _)) by done.
  change (slice _ (k * bs d) (bs d)) with (block d k (data d c2)).
  pose proof (bi_buf _ _ _ _ HI2 i b Hb) as [Hbl _ _ _ _].
  assert (len (block d k (data d c2)) = bs d) as Hls by (apply len_slice; lia).
  rewrite mem_write_ok by lia. cbn [obind]. rewrite (upd_bh_eq _ _ _ _ Hb). cbn [obind].
  eexists i, _, _. split; [done|]. split; [by eapply (fill_ok true c2 V i b d k)|].
  split; [apply list_lookup_insert_eq; by eapply lookup_lt_Some|]. done.
Qed.

Lemma bh_get_ok c V d k :
  binv [] false c V -> in_dev d k ->
  exists i c' b, bh_get devs d k c = Done (0, Some i, c') /\ binv [i] true c' V /\
    bh_bufs c' !! i = Some b /\ has_key d k b.
Proof.
  intros HI Hdk. unfold bh_get. destruct (lock_ok c V HI) as [-> HI1]. cbn [obind].
  destruct (bh_search_ok true _ V d k HI1 Hdk) as (i & c2 & b & -> & HI2 & Hb & Hk). cbn [obind fst snd].
  exists i, c2, b. done.
Qed.

(** ** Writing a block *)

Definition upd_dev (V : Z -> list Z) (d : Z) (l : list Z) : Z -> list Z :=
  fun x => if decide (x = d) then l else V x.

Lemma upd_dev_eq V d l : upd_dev V d l d = l.
Proof. unfold upd_dev. by rewrite decide_True. Qed.
Lemma upd_dev_ne V d l x : x <> d -> upd_dev V d l x = V x.
Proof. intros. unfold upd_dev. by rewrite decide_False. Qed.

Lemma binv_ext hole m c V V' : (forall d, V d = V' d) -> binv hole m c V -> binv hole m c V'.
Proof.
  intros HE [? ? ? ? HB ? ? HD HC]. split; try done.
  - intros i b Hb. destruct (HB i b Hb). split; try done. intros Hs. rewrite <- HE. auto.
  - intros d Hd. rewrite <- HE. by apply HD.
  - intros d k Hdk. rewrite <- HE. by apply HC.
Qed.

(** The device with [src] written in block [k] at [x]. *)
Lemma block_splice d k x src l k' :
  in_dev d k -> in_dev d k' -> len l = dd_len (devs d) -> 0 <= x -> x + len src <= bs d ->
  block d k' (splice l (k * bs d + x) src) =
    if decide (k' = k) then splice (block d k l) x src else block d k' l.
Proof.
  intros H1 H2 Hl Hx Hs. destruct (block_bounds d k H1) as (B1 & B2 & B3 & _).
  destruct (block_bounds d k' H2) as (C1 & C2 & C3 & _). unfold block. case_decide as E.
  - subst. by apply slice_splice_in; lia.
  - apply slice_splice_other; try lia. nia.
Qed.

Lemma bh_store_ok c V i b d k x src buffer :
  binv [i] true c V -> bh_bufs c !! i = Some b -> has_key d k b -> in_dev d k ->
  0 <= x -> x + len src <= bs d -> bytes src ->
  len buffer = CONFIG_BLKDEV_MAX_BLKSZ -> bytes buffer ->
  slice buffer 0 (bs d) = splice (block d k (V d)) x src ->
  exists c', (let* c := upd_bh i (set_buffer buffer) c in bh_release_modified i c) = Done (0, c') /\
    binv [] false c' (upd_dev V d (splice (V d) (k * bs d + x) src)).
Proof.
  intros HI Hb Hk Hdk Hx Hs Hsb Hbl Hbb Hbuf. pose proof Hk as [Hkd Hkk]. pose proof Hdk as (Hd & _ & _).
  set (V' := upd_dev V d _). destruct (bi_data _ _ _ _ HI d Hd) as (_ & _ & L3 & L4).
  destruct (block_bounds d k Hdk) as (B1 & B2 & B3 & _). pose proof (len_nonneg src).
  assert (forall d' k', in_dev d' k' -> ~ (d' = d /\ k' = k) -> block d' k' (V' d') = block d' k' (V d')) as HV.
  { intros d' k' Hdk' Hne. unfold V'. destruct (decide (d' = d)) as [->|]; [|by rewrite upd_dev_ne].
    rewrite upd_dev_eq, block_splice by done. by rewrite decide_False by tauto. }
  assert (block d k (V' d) = splice (block d k (V d)) x src) as HVk.
  { unfold V'. rewrite upd_dev_eq, block_splice by done. by rewrite decide_True. }
  rewrite (upd_bh_eq _ _ _ _ Hb). cbn [obind]. unfold bh_release_modified.
  assert (bh_bufs (set_bufs (<[i := set_buffer buffer b]> (bh_bufs c)) c) !! i = Some (set_buffer buffer b)) as Hb1
    by (apply list_lookup_insert_eq; by eapply lookup_lt_Some).
  rewrite (upd_bh_eq _ _ _ _ Hb1). cbn [obind]. simpl bh_bufs. rewrite list_insert_insert_eq.
  set (b' := set_state BH_STATE_DIRTY (set_buffer buffer b)).
  change (set_bufs _ (set_bufs _ c)) with (set_bufs (<[i := b']> (bh_bufs c)) c).
  assert (bh_dd b <> 0) as Hd0 by (rewrite Hkd; apply (ok_null d Hd)).
  assert (forall j bj, j <> i -> bh_bufs c !! j = Some bj -> ~ has_key d k bj) as Hoth.
  { intros j bj Hne Hj [K1 K2]. apply Hne. symmetry.
    apply (bi_key _ _ _ _ HI i j b bj Hb Hj Hd0). split; congruence. }
  assert (binv [i] true (set_bufs (<[i := b']> (bh_bufs c)) c) V') as HI2.
  { apply (binv_store true c V V' i b b'); try done.
    - split; simpl; try done; [rewrite Hkd, Hkk; done|]. intros _. by rewrite Hkd, Hkk, HVk.
    - intros j bj Hne Hj. destruct (bi_buf _ _ _ _ HI j bj Hj) as [? ? Hdv Hst Hv]. split; try done.
      intros Hsj. rewrite HV; [by apply Hv|by apply Hdv, Hst|].
      intros [E1 E2]. by apply (Hoth j bj Hne Hj).
    - intros j bj Hne Hj _. simpl. rewrite Hkd, Hkk. by apply (Hoth j).
    - intros d' Hd'. destruct (bi_data _ _ _ _ HI d' Hd') as (_ & _ & L5 & L6). unfold V'.
      destruct (decide (d' = d)) as [->|]; [|by rewrite upd_dev_ne]. rewrite upd_dev_eq.
      split; [rewrite len_splice; lia|by apply bytes_splice].
    - intros d' k' Hdk' Hno Hnk. rewrite HV; [|done|].
      + apply (bi_clean _ _ _ _ HI); [done|]. intros j bj Hj Hsj Hkj.
        destruct (decide (j = i)) as [->|Hne]; [|by apply (Hno j bj)]. apply Hnk. split; [done|].
        assert (bj = b) as -> by congruence. done.
      + intros [-> ->]. apply Hnk. done. }
  destruct (enqueue_dirty_ok true _ V' i b' HI2) as (c3 & -> & HI3 & _);
    [apply list_lookup_insert_eq; by eapply lookup_lt_Some|done|]. cbn [obind].
  destruct (unlock_ok _ _ HI3) as (c4 & -> & HI4 & _). eexists. split; [done|]. exact HI4.
Qed.

(** ** The loops *)

(** The part of the device still to do. *)
Definition in_range (d blkno blkofs n : Z) : Prop :=
  0 < n -> in_dev d blkno /\ blkno < 2 ^ 32 /\ 0 <= blkofs < bs d /\ blkno * bs d + blkofs + n <= dd_len (devs d).

Lemma next_range d blkno blkofs n t :
  in_range d blkno blkofs n -> 0 < n -> t = (if bs d - blkofs >? n then n else bs d - blkofs) ->
  in_range d (u32 (blkno + 1)) 0 (n - t) /\ 0 < t <= n /\ blkofs + t <= bs d /\
  (0 < n - t -> u32 (blkno + 1) * bs d + 0 = blkno * bs d + blkofs + t).
Proof.
  intros Hr Hn Ht. destruct (Hr Hn) as ((Hd & Hk & Hkl) & Hk32 & Hx & Hl).
  assert (0 < t <= n /\ blkofs + t <= bs d /\ (t <> n -> t = bs d - blkofs)) as (Ht1 & Ht2 & Ht3).
  { destruct (Z.gtb_spec (bs d - blkofs) n); lia. }
  split; [|split_and!; try lia].
  - intros Hn'. specialize (Ht3 ltac:(lia)). pose proof (ok_len d Hd).
    assert ((blkno + 1) * bs d < 2 ^ 32) as Hlt by nia.
    assert (blkno + 1 < 2 ^ 32) by nia. rewrite wrap_small by (split; lia).
    destruct (ok_div d Hd) as [q Hq]. pose proof (bs_pos d Hd).
    assert (blkno + 1 < q) by (apply (Z.mul_lt_mono_pos_r (bs d)); lia).
    assert ((blkno + 1 + 1) * bs d <= q * bs d) by (apply Z.mul_le_mono_nonneg_r; lia).
    split; [split; [done|split; lia]|]. split; [lia|]. split; lia.
  - intros Hn'. specialize (Ht3 ltac:(lia)). pose proof (ok_len d Hd).
    assert ((blkno + 1) * bs d < 2 ^ 32) as Hlt by nia.
    assert (blkno + 1 < 2 ^ 32) by nia. rewrite wrap_small by (split; lia). lia.
Qed.

(** The size of the piece in a turn. *)
Lemma piece_ok d blkofs n :
  0 <= blkofs < bs d -> bs d <= CONFIG_BLKDEV_MAX_BLKSZ ->
  (if u64 (bs d - blkofs) >? n then n else u64 (bs d - blkofs)) = (if bs d - blkofs >? n then n else bs d - blkofs).
Proof. intros. unfold CONFIG_BLKDEV_MAX_BLKSZ in *. by rewrite wrap_small by (split; lia). Qed.

Lemma read_loop_ok fuel : forall d n blkno blkofs bh0 acc c V,
  binv [] false c V -> 0 <= n -> in_range d blkno blkofs n -> (Z.to_nat n <= fuel)%nat ->
  exists c', blkdev_read_loop devs fuel d n blkno blkofs bh0 acc c =
      Done (0, acc ++ slice (V d) (blkno * bs d + blkofs) n, c') /\ binv [] false c' V.
Proof.
  induction fuel as [|fuel IH]; intros d n blkno blkofs bh0 acc c V HI Hn Hr Hf; simpl.
  { assert (n = 0) as -> by lia. exists c. unfold slice. simpl. by rewrite app_nil_r. }
  destruct (Z.eqb_spec n 0) as [->|Hn0].
  { exists c. unfold slice. simpl. by rewrite app_nil_r. }
  destruct (Hr ltac:(lia)) as (Hdk & Hk32 & Hx & Hl). pose proof Hdk as (Hd & Hk & Hkl).
  destruct (bh_read_ok c V d blkno HI Hdk) as (i & c1 & b & -> & HI1 & Hb & [Hkd Hkk] & Hs). cbn [obind fst snd negb].
  rewrite Z.eqb_refl. cbn [negb]. rewrite (bh_eq _ _ _ Hb). cbn [obind].
  rewrite piece_ok by (done || apply (ok_max d Hd)). set (t := if bs d - blkofs >? n then n else _).
  destruct (next_range d blkno blkofs n t Hr ltac:(lia) eq_refl) as (Hr' & Ht & Hxt & Hnext).
  pose proof (bi_buf _ _ _ _ HI1 i b Hb) as [Hbl _ _ _ Hbv]. specialize (Hbv Hs). rewrite Hkd, Hkk in Hbv.
  pose proof (ok_max d Hd). destruct (block_bounds d blkno Hdk) as (B1 & B2 & B3 & _).
  rewrite mem_read_ok by lia. cbn [obind].
  assert (slice (bh_buffer b) blkofs t = slice (V d) (blkno * bs d + blkofs) t) as Edata.
  { transitivity (slice (slice (bh_buffer b) 0 (bs d)) blkofs t).
    - rewrite slice_slice by lia. done.
    - rewrite Hbv. unfold block. by rewrite slice_slice by lia. }
  destruct (release_ok c1 V i HI1) as (c2 & -> & HI2 & _). cbn [obind fst snd].
  destruct (IH d (n - t) (u32 (blkno + 1)) 0 (Some i) (acc ++ slice (bh_buffer b) blkofs t) c2 V HI2) as
    (c3 & -> & HI3); [lia|done|lia|].
  exists c3. split; [|done]. do 3 f_equal. rewrite Edata, <- app_assoc. f_equal.
  replace n with (t + (n - t)) at 2 by lia. rewrite slice_app_split by lia. f_equal.
  destruct (decide (0 < n - t)) as [Hlt|Hlt]; [by rewrite Hnext|].
  assert (n - t = 0) as -> by lia. unfold slice. done.
Qed.

Lemma write_loop_ok fuel : forall d src blkno blkofs bh0 c V,
  binv [] false c V -> in_range d blkno blkofs (len src) -> bytes src -> (length src <= fuel)%nat ->
  dev_ok d ->
  exists c', blkdev_write_loop devs fuel d src blkno blkofs bh0 c = Done (0, c') /\
    binv [] false c' (upd_dev V d (splice (V d) (blkno * bs d + blkofs) src)).
Proof.
  assert (forall d V p c, binv [] false c V -> 
    binv [] false c (upd_dev V d (splice (V d) p []))) as Hnil.
  { intros d V p c HI. eapply binv_ext; [|exact HI]. intros x. unfold upd_dev. case_decide; [subst|done].
    unfold splice. rewrite Nat.add_0_r, app_nil_l. by rewrite take_drop. }
  induction fuel as [|fuel IH]; intros d src blkno blkofs bh0 c V HI Hr Hsb Hf Hd; simpl.
  { destruct src; [|simpl in Hf; lia]. exists c. split; [done|]. by apply Hnil. }
  destruct (Z.eqb_spec (len src) 0) as [Hn0|Hn0].
  { destruct src; [|by unfold len in Hn0]. exists c. split; [done|]. by apply Hnil. }
  pose proof (len_nonneg src). destruct (Hr ltac:(lia)) as (Hdk & Hk32 & Hx & Hl).
  pose proof (ok_max d Hd) as Hmax. destruct (block_bounds d blkno Hdk) as (B1 & B2 & B3 & _).
  set (t := if bs d - blkofs >? len src then len src else bs d - blkofs).
  destruct (next_range d blkno blkofs (len src) t Hr ltac:(lia) eq_refl) as (Hr' & Ht & Hxt & Hnext).
  assert (exists i c1 b, (if (blkofs =? 0) && (bs d <=? len src) then bh_get devs d blkno c else bh_read devs d blkno c)
      = Done (0, Some i, c1) /\ binv [i] true c1 V /\ bh_bufs c1 !! i = Some b /\ has_key d blkno b /\
      (bh_state b <> BH_STATE_INVALD \/ (blkofs = 0 /\ t = bs d))) as (i & c1 & b & -> & HI1 & Hb & Hkey & Hcase).
  { destruct ((blkofs =? 0) && (bs d <=? len src)) eqn:E.
    - apply andb_prop in E as [E1%Z.eqb_eq E2%Z.leb_le].
      destruct (bh_get_ok c V d blkno HI Hdk) as (i & c1 & b & -> & ?). exists i, c1, b.
      split_and!; try tauto. right. split; [done|]. unfold t. destruct (Z.gtb_spec (bs d - blkofs) (len src)); lia.
    - destruct (bh_read_ok c V d blkno HI Hdk) as (i & c1 & b & -> & ?). exists i, c1, b. split_and!; tauto. }
  cbn [obind fst snd negb]. rewrite Z.eqb_refl. cbn [negb]. rewrite (bh_eq _ _ _ Hb). cbn [obind].
  rewrite piece_ok by done. fold t.
  set (s1 := take (Z.to_nat t) src). set (s2 := drop (Z.to_nat t) src).
  assert (src = s1 ++ s2) as Esrc by (symmetry; apply take_drop).
  assert (len s1 = t) as Hs1 by (unfold len, s1; rewrite length_take; unfold len in *; lia).
  assert (len s2 = len src - t) as Hs2 by (rewrite Esrc, len_app; lia).
  assert (bytes s1 /\ bytes s2) as [Hb1 Hb2] by (by rewrite Esrc in Hsb; apply Forall_app).
  pose proof (bi_buf _ _ _ _ HI1 i b Hb) as [Hbl Hbb _ _ Hbv].
  rewrite mem_write_ok by lia. cbn [obind]. set (buffer := splice (bh_buffer b) blkofs s1).
  destruct (bi_data _ _ _ _ HI1 d Hd) as (_ & _ & L3 & _).
  destruct (bh_store_ok c1 V i b d blkno blkofs s1 buffer HI1 Hb Hkey Hdk) as (c2 & E & HI2);
    [lia|lia|done|unfold buffer; rewrite len_splice; lia|by apply bytes_splice| |].
  { unfold buffer. pose proof Hkey as [Hkd Hkk].
    pose proof (slice_splice_in (bh_buffer b) 0 (bs d) blkofs s1 ltac:(lia) ltac:(lia) ltac:(lia) ltac:(lia)) as E.
    rewrite Z.add_0_l in E. rewrite E. destruct Hcase as [Hs|[-> Et]].
    - specialize (Hbv Hs). rewrite Hkd, Hkk in Hbv. by rewrite Hbv.
    - rewrite Et in Hs1. rewrite !splice_all; try done; [unfold block; rewrite len_slice by lia; lia|].
      rewrite len_slice by lia. lia. }
  rewrite (upd_bh_eq i (set_buffer buffer) b c1 Hb) in E |- *. cbn [obind] in E |- *. rewrite E. cbn [obind snd].
  destruct (IH d s2 (u32 (blkno + 1)) 0 (Some i) c2 _ HI2) as (c3 & E3 & HI3).
  - by rewrite Hs2.
  - done.
  - unfold len in *. lia.
  - done.
  - exists c3. split; [exact E3|]. eapply binv_ext; [|exact HI3]. intros x. unfold upd_dev.
    case_decide; [|done]. subst x. rewrite decide_True by done.
    replace (splice (V d) (blkno * bs d + blkofs) src) with (splice (V d) (blkno * bs d + blkofs) (s1 ++ s2))
      by (by rewrite <- Esrc).
    destruct (decide (0 < len src - t)) as [Hlt|Hlt].
    + rewrite splice_app, Hs1, Hnext by lia. done.
    + assert (s2 = []) as -> by (destruct s2; [done|rewrite len_cons in Hs2; pose proof (len_nonneg s2); lia]).
      rewrite app_nil_r. unfold splice at 1. rewrite Nat.add_0_r, app_nil_l. by rewrite take_drop.
Qed.

(** ** The entry points *)

Lemma in_range_start d n ofs :
  dev_ok d -> 0 <= ofs -> ofs + n <= dd_len (devs d) ->
  in_range d (u32 (ofs / bs d)) (u32 (ofs mod bs d)) n /\
  (0 < n -> u32 (ofs / bs d) * bs d + u32 (ofs mod bs d) = ofs).
Proof.
  intros Hd Ho Hl. pose proof (bs_pos d Hd). pose proof (ok_len d Hd). pose proof (ok_max d Hd) as Hmax.
  unfold CONFIG_BLKDEV_MAX_BLKSZ in Hmax.
  pose proof (Z.div_mod ofs (bs d) ltac:(lia)) as E. pose proof (Z.mod_pos_bound ofs (bs d) ltac:(lia)).
  assert (0 <= ofs / bs d) by (apply Z.div_pos; lia).
  split.
  - intros Hn. assert (ofs / bs d < 2 ^ 32) by (apply Z.div_lt_upper_bound; nia).
    rewrite !wrap_small by (split; lia). destruct (ok_div d Hd) as [q Hq].
    assert (ofs / bs d < q) by (apply Z.div_lt_upper_bound; lia).
    assert ((ofs / bs d + 1) * bs d <= q * bs d) by (apply Z.mul_le_mono_nonneg_r; lia).
    split; [split; [done|split; lia]|]. split; [lia|]. split; lia.
  - intros Hn. assert (ofs / bs d < 2 ^ 32) by (apply Z.div_lt_upper_bound; nia).
    rewrite !wrap_small by (split; lia). lia.
Qed.

Lemma blkdev_read_ok c V d n ofs :
  binv [] false c V -> dev_ok d -> 0 <= n -> 0 <= ofs -> ofs + n <= dd_len (devs d) ->
  exists c', blkdev_read devs d n ofs c = Done (n, slice (V d) ofs n, c') /\ binv [] false c' V.
Proof.
  intros HI Hd Hn Ho Hl. pose proof (bs_pos d Hd). unfold blkdev_read.
  rewrite (proj2 (Z.eqb_neq (bs d) 0)) by lia. cbn [negb].
  destruct (in_range_start d n ofs Hd Ho Hl) as [Hr Hp].
  destruct (read_loop_ok (Z.to_nat n) d n _ _ None [] c V HI Hn Hr ltac:(lia)) as (c' & -> & HI').
  exists c'. split; [|done]. cbn [obind fst snd]. rewrite Z.eqb_refl, app_nil_l. do 3 f_equal.
  destruct (decide (0 < n)) as [Hlt|Hlt]; [by rewrite Hp|].
  assert (n = 0) as -> by lia. done.
Qed.

Lemma blkdev_write_ok c V d src ofs :
  binv [] false c V -> dev_ok d -> bytes src -> 0 <= ofs -> ofs + len src <= dd_len (devs d) ->
  exists c', blkdev_write devs d src ofs c = Done (len src, c') /\
    binv [] false c' (upd_dev V d (splice (V d) ofs src)).
Proof.
  intros HI Hd Hs Ho Hl. pose proof (bs_pos d Hd). unfold blkdev_write.
  rewrite (proj2 (Z.eqb_neq (bs d) 0)) by lia. cbn [negb].
  destruct (in_range_start d (len src) ofs Hd Ho Hl) as [Hr Hp].
  destruct (write_loop_ok (length src) d src _ _ None c V HI Hr Hs ltac:(lia) Hd) as (c' & -> & HI').
  exists c'. split; [cbn [obind fst snd]; by rewrite Z.eqb_refl|].
  destruct (decide (0 < len src)) as [Hlt|Hlt]; [by rewrite Hp in HI'|].
  assert (src = []) as -> by (destruct src; [done|rewrite len_cons in Hlt; pose proof (len_nonneg src); lia]).
  eapply binv_ext; [|exact HI']. intros x. unfold upd_dev. case_decide; [|done]. subst. unfold splice.
  by rewrite !Nat.add_0_r, !app_nil_l, !take_drop.
Qed.

Lemma blkdev_sync_ok c V :
  binv [] false c V ->
  exists c', blkdev_sync devs c = Done (0, c') /\ binv [] false c' V /\ dirty_list c' = [].
Proof.
  intros HI. unfold blkdev_sync. destruct (lock_ok c V HI) as [-> HI1]. cbn [obind].
  destruct (sync_locked_ok CONFIG_BLKDEV_HOLD_TIME true _ V ltac:(done) HI1) as (c2 & -> & HI2 & _ & Hd).
  cbn [obind fst snd]. unfold MTX_UNLOCK. rewrite (bi_mtx _ _ _ _ HI2). eexists. split; [done|].
  split; [by apply (binv_count [] true)|]. by apply Hd.
Qed.

Lemma bh_check_cb_ok c V :
  binv [] false c V -> exists c', bh_check_cb devs c = Done c' /\ binv [] false c' V.
Proof.
  intros HI. unfold bh_check_cb. destruct (lock_ok c V HI) as [-> HI1]. cbn [obind].
  destruct (sync_locked_ok CONFIG_BLKDEV_SWAP_PERIOD true _ V ltac:(done) HI1) as (c2 & -> & HI2 & _ & _).
  cbn [obind fst snd]. destruct (unlock_ok _ _ HI2) as (c3 & -> & HI3 & _). eauto.
Qed.

(** Nothing dirty: the chips hold what the cache stands for. *)
Lemma clean_devices c V d :
  binv [] false c V -> dirty_list c = [] -> dev_ok d -> data d c = V d.
Proof.
  intros HI Hno Hd. destruct (bi_data _ _ _ _ HI d Hd) as (L1 & _ & L2 & _). pose proof (bs_pos d Hd) as Hbs.
  assert (forall k, in_dev d k -> block d k (data d c) = block d k (V d)) as Hblk.
  { intros k Hk. apply (bi_clean _ _ _ _ HI); [done|]. intros i b Hb Hs _.
    assert (i ∈ cached_list c) as Hi.
    { pose proof (bi_perm _ _ _ _ HI) as Hp. simpl in Hp. rewrite Hno, app_nil_r in Hp.
      rewrite Hp, elem_of_seq, <- (bi_len _ _ _ _ HI). apply lookup_lt_Some in Hb. lia. }
    by apply (bi_cached _ _ _ _ HI i b). }
  apply list_eq. intros j. destruct (decide (Z.of_nat j < dd_len (devs d))) as [Hj|Hj].
  2: { rewrite !lookup_ge_None_2; [done|unfold len in L2; lia|unfold len in L1; lia]. }
  set (k := Z.of_nat j / bs d). pose proof (Z.div_mod (Z.of_nat j) (bs d) ltac:(lia)) as E.
  pose proof (Z.mod_pos_bound (Z.of_nat j) (bs d) ltac:(lia)).
  assert (0 <= k) as Hk by (apply Z.div_pos; lia). fold k in E.
  assert (in_dev d k) as Hdk.
  { destruct (ok_div d Hd) as [q Hq]. assert (k < q) by (apply Z.div_lt_upper_bound; lia).
    assert ((k + 1) * bs d <= q * bs d) by (apply Z.mul_le_mono_nonneg_r; lia).
    split; [done|split; lia]. }
  specialize (Hblk k Hdk). unfold block in Hblk.
  pose proof (f_equal (.!! Z.to_nat (Z.of_nat j mod bs d)) Hblk) as El. simpl in El.
  rewrite !lookup_slice, !decide_True in El by lia.
  replace (Z.to_nat (k * bs d) + Z.to_nat (Z.of_nat j mod bs d))%nat with j in El; [done|].
  rewrite <- Z2Nat.inj_add by nia. lia.
Qed.

(** ** Programs of a client *)

Inductive bop :=
| BWrite (d : Z) (src : list Z) (ofs : Z)
| BRead (d n ofs : Z)
| BSync
| BTimer.

Definition bop_ok (op : bop) : Prop :=
  match op with
  | BWrite d src ofs => dev_ok d /\ bytes src /\ 0 <= ofs /\ ofs + len src <= dd_len (devs d)
  | BRead d n ofs => dev_ok d /\ 0 <= n /\ 0 <= ofs /\ ofs + n <= dd_len (devs d)
  | _ => True
  end.

(** One call, and what the caller sees. *)
Definition bstep (op : bop) c : outcome (Z * list Z * bcache F) :=
  match op with
  | BWrite d src ofs => let* r := blkdev_write devs d src ofs c in Done (r.1, [], r.2)
  | BRead d n ofs => blkdev_read devs d n ofs c
  | BSync => let* r := blkdev_sync devs c in Done (r.1, [], r.2)
  | BTimer => let* c := bh_check_cb devs c in Done (0, [], c)
  end.

(** The same on flat devices. *)
Definition fstep (op : bop) (V : Z -> list Z) : Z * list Z * (Z -> list Z) :=
  match op with
  | BWrite d src ofs => (len src, [], upd_dev V d (splice (V d) ofs src))
  | BRead d n ofs => (n, slice (V d) ofs n, V)
  | _ => (0, [], V)
  end.

Fixpoint brun (ops : list bop) c : outcome (list (Z * list Z) * bcache F) :=
  match ops with
  | [] => Done ([], c)
  | op :: ops =>
      let* r := bstep op c in
      let* rs := brun ops r.2 in Done (r.1 :: rs.1, rs.2)
  end.
Fixpoint frun (ops : list bop) (V : Z -> list Z) : list (Z * list Z) * (Z -> list Z) :=
  match ops with
  | [] => ([], V)
  | op :: ops => let r := fstep op V in let rs := frun ops r.2 in (r.1 :: rs.1, rs.2)
  end.

Lemma bstep_ok op c V :
  binv [] false c V -> bop_ok op ->
  exists c', bstep op c = Done ((fstep op V).1, c') /\ binv [] false c' (fstep op V).2.
Proof.
  intros HI Hop. destruct op; simpl in *.
  - destruct Hop as (? & ? & ? & ?). destruct (blkdev_write_ok c V d src ofs) as (c' & -> & ?); eauto.
  - destruct Hop as (? & ? & ? & ?). destruct (blkdev_read_ok c V d n ofs) as (c' & -> & ?); eauto.
  - destruct (blkdev_sync_ok c V HI) as (c' & -> & ? & _). eauto.
  - destruct (bh_check_cb_ok c V HI) as (c' & -> & ?). eauto.
Qed.

Lemma brun_ok ops : forall c V,
  binv [] false c V -> Forall bop_ok ops ->
  exists c', brun ops c = Done ((frun ops V).1, c') /\ binv [] false c' (frun ops V).2.
Proof.
  induction ops as [|op ops IH]; intros c V HI Hops; simpl; [eauto|].
  apply Forall_cons in Hops as [Hop Hops]. destruct (bstep_ok op c V HI Hop) as (c1 & -> & HI1). cbn [obind fst snd].
  destruct (IH c1 _ HI1 Hops) as (c2 & -> & HI2). cbn [obind fst snd]. eauto.
Qed.

(** ** Initialisation *)

(** The file's variables before the first device is registered. *)
Definition bcache_0 (f : F) : bcache F := mk_bcache false false [] [] [] 0 0 f.

Lemma blkdev_init_ok f mem :
  length mem = NR_BLKS -> Forall (fun m => len m = CONFIG_BLKDEV_MAX_BLKSZ /\ bytes m) mem ->
  (forall d, dev_ok d -> len (fl_content (handle (devs d)) f) = dd_len (devs d) /\
     bytes (fl_content (handle (devs d)) f)) ->
  exists c, blkdev_init (Some mem) 0 (bcache_0 f) = Done (0, c) /\
    binv [] false c (fun d => fl_content (handle (devs d)) f).
Proof.
  intros Hm Hb Hf. eexists. split; [done|].
  assert (forall i b, ((fun m => mk_bh 0 m 0 BH_STATE_INVALD 0) <$> mem) !! i = Some b ->
    exists m, b = mk_bh 0 m 0 BH_STATE_INVALD 0 /\ len m = CONFIG_BLKDEV_MAX_BLKSZ /\ bytes m) as Hmk.
  { intros i b Hi. rewrite list_lookup_fmap in Hi. destruct (mem !! i) as [m|] eqn:E; [|done].
    injection Hi as <-. rewrite Forall_forall in Hb. destruct (Hb m); [by eapply list_elem_of_lookup_2|]. eauto. }
  split; simpl; try done.
  - by rewrite length_fmap.
  - rewrite app_nil_r, app_nil_r. symmetry. apply Permutation_rev.
  - intros i j bi bj Hi _ Hd. destruct (Hmk i bi Hi) as (m & -> & _). done.
  - intros i b Hi. destruct (Hmk i b Hi) as (m & -> & Hl & Hbm). by split.
  - intros i b Hi. by apply elem_of_nil in Hi.
  - intros i b _ Hi. destruct (Hmk i b Hi) as (m & -> & _). done.
  - intros d Hd. destruct (Hf d Hd). done.
Qed.

End Ok.

(** ** The properties *)

(** C1: The block cache refines flat devices: for every sequence of
    [blkdev_write], [blkdev_read], [blkdev_sync] and timer callbacks within the
    devices, on chips that do not fail, every call returns what it returns on
    flat byte arrays (the sizes, and for reads the bytes last written there),
    without undefined behaviour, and the cache stands for the arrays after
    it. *)
Theorem blkdev_refines_flat (F : Type) (HD : Driver F) (HF : Flash F) (devs : Z -> disk_device)
    (ops : list bop) (c : bcache F) (V : Z -> list Z) :
  distinct_chips devs -> binv devs [] false c V -> Forall (bop_ok devs) ops ->
  exists c', brun devs ops c = Done ((frun ops V).1, c') /\ binv devs [] false c' (frun ops V).2.
Proof. intros Hc. by apply brun_ok. Qed.

(** C35: After [blkdev_sync] every device holds what was written to it: no
    buffer is dirty, and the contents of the chips are those of the arrays
    the cache stands for, whatever was read or written before. *)
Theorem blkdev_sync_durable (F : Type) (HD : Driver F) (HF : Flash F) (devs : Z -> disk_device)
    (c : bcache F) (V : Z -> list Z) :
  distinct_chips devs -> binv devs [] false c V ->
  exists c', blkdev_sync devs c = Done (0, c') /\ binv devs [] false c' V /\ dirty_list c' = [] /\
    forall d, dev_ok devs d -> data devs d c' = V d.
Proof.
  intros Hc HI. destruct (blkdev_sync_ok devs Hc c V HI) as (c' & E & HI' & Hd).
  exists c'. split_and!; try done. intros d Hok. by apply (clean_devices devs c' V).
Qed.

(** Registering the first device initialises the cache: its invariant
    holds, and the devices hold what their chips hold. *)
Theorem blkdev_init_establishes (F : Type) (HD : Driver F) (HF : Flash F) (devs : Z -> disk_device)
    (dd : disk_device) (mem : list (list Z)) (f : F) :
  disk_device_valid dd = true -> length mem = NR_BLKS ->
  Forall (fun m => len m = CONFIG_BLKDEV_MAX_BLKSZ /\ bytes m) mem ->
  (forall d, dev_ok devs d -> len (fl_content (handle (devs d)) f) = dd_len (devs d) /\
     bytes (fl_content (handle (devs d)) f)) ->
  exists c, disk_device_register (Some dd) (Some mem) 0 [] (bcache_0 f) = Done (0, [dd], c) /\
    binv devs [] false c (fun d => fl_content (handle (devs d)) f).
Proof.
  intros Hv Hm Hb Hf. destruct (blkdev_init_ok devs f mem Hm Hb Hf) as (c & E & HI).
  exists c. split; [|done]. unfold disk_device_register. rewrite Hv, E. done.
Qed.

(** *** Witnesses: two devices of eight blocks of sixteen bytes *)

Definition dev_1 (h : Z) : disk_device :=
  mk_disk_device "flash" (Some h) 0 128 16 true true true true None.
Definition devs_1 (d : Z) : disk_device :=
  if d =? 1 then dev_1 1 else if d =? 2 then dev_1 2
  else mk_disk_device "none" None 0 0 0 false false false false None.
Definition chips_1 : chips := {[1 := replicate 128 255; 2 := replicate 128 255]}.
Definition mem_1 : list (list Z) := replicate 4 (replicate 4096 0).
#[export] Existing Instance nor_flash.

Lemma dev_ok_1 d : dev_ok devs_1 d -> d = 1 \/ d = 2.
Proof.
  intros [_ _ _ _ Hl _ _]. unfold devs_1 in Hl.
  destruct (Z.eqb_spec d 1); [by left|]. destruct (Z.eqb_spec d 2); [by right|]. simpl in Hl. lia.
Qed.

Lemma dev_1_ok d : d = 1 \/ d = 2 -> dev_ok devs_1 d.
Proof.
  intros [-> | ->]; (split; [done|exists 4; done|done|exists 8; done|done|done|exists 16; done]).
Qed.

Lemma distinct_1 : distinct_chips devs_1.
Proof. by intros d d' [-> | ->]%dev_ok_1 [-> | ->]%dev_ok_1. Qed.

Lemma bytes_replicate n b : 0 <= b < 256 -> bytes (replicate n b).
Proof. intros. by apply Forall_replicate. Qed.

Lemma mem_1_ok : length mem_1 = NR_BLKS /\
  Forall (fun m => len m = CONFIG_BLKDEV_MAX_BLKSZ /\ bytes m) mem_1.
Proof.
  split; [done|]. apply Forall_replicate. split; [|by apply bytes_replicate].
  unfold len. by rewrite length_replicate.
Qed.

Lemma chips_1_ok d : dev_ok devs_1 d ->
  len (fl_content (handle (devs_1 d)) chips_1) = dd_len (devs_1 d) /\
  bytes (fl_content (handle (devs_1 d)) chips_1).
Proof.
  intros [-> | ->]%dev_ok_1; (split; [done|]);
    change (bytes (replicate 128 255)); by apply bytes_replicate.
Qed.

Definition bcache_1 : bcache chips :=
  mk_bcache false true ((fun m => mk_bh 0 m 0 BH_STATE_INVALD 0) <$> mem_1) [3; 2; 1; 0]%nat [] 0 0 chips_1.
Definition flat_1 (d : Z) : list Z := fl_content (handle (devs_1 d)) chips_1.

Lemma bcache_1_inv : binv devs_1 [] false bcache_1 flat_1.
Proof.
  destruct (blkdev_init_ok devs_1 chips_1 mem_1 (proj1 mem_1_ok) (proj2 mem_1_ok) chips_1_ok) as (c & E & HI).
  assert (c = bcache_1) as ->; [|done]. injection E as <-. reflexivity.
Qed.

Lemma blkdev_init_establishes_witness :
  exists c, disk_device_register (Some (dev_1 1)) (Some mem_1) 0 [] (bcache_0 chips_1) = Done (0, [dev_1 1], c) /\
    binv devs_1 [] false c (fun d => fl_content (handle (devs_1 d)) chips_1).
Proof.
  apply (blkdev_init_establishes chips nor_flash nor_flash_ok devs_1 (dev_1 1) mem_1 chips_1).
  - reflexivity.
  - apply mem_1_ok.
  - apply mem_1_ok.
  - apply chips_1_ok.
Defined.

(** Writes across blocks of both devices, more than there are buffers. *)
Definition prog_1 : list bop :=
  [BWrite 1 (replicate 40 7) 10; BWrite 2 [1; 2; 3] 0; BTimer; BWrite 1 (replicate 32 9) 96; BRead 1 20 40; BSync].

Lemma prog_1_ok : Forall (bop_ok devs_1) prog_1.
Proof.
  pose proof (dev_1_ok 1 ltac:(by left)) as H1. pose proof (dev_1_ok 2 ltac:(by right)) as H2.
  unfold prog_1. rewrite !Forall_cons, Forall_nil. cbn [bop_ok].
  repeat match goal with |- _ /\ _ => split end; try done; try by apply bytes_replicate.
  repeat (constructor; [lia|]). constructor.
Qed.

Lemma blkdev_refines_flat_witness :
  exists c', brun devs_1 prog_1 bcache_1 = Done ((frun prog_1 flat_1).1, c') /\
    binv devs_1 [] false c' (frun prog_1 flat_1).2.
Proof.
  apply (blkdev_refines_flat chips nor_flash nor_flash_ok devs_1 prog_1 bcache_1 flat_1).
  - apply distinct_1.
  - apply bcache_1_inv.
  - apply prog_1_ok.
Defined.

Lemma blkdev_sync_durable_witness :
  exists c', blkdev_sync devs_1 bcache_1 = Done (0, c') /\ binv devs_1 [] false c' flat_1 /\ dirty_list c' = [] /\
    forall d, dev_ok devs_1 d -> data devs_1 d c' = flat_1 d.
Proof.
  apply (blkdev_sync_durable chips nor_flash nor_flash_ok devs_1 bcache_1 flat_1).
  - apply distinct_1.
  - apply bcache_1_inv.
Defined.

(** ** Chips that fail *)

(** A read error in the middle of a request is not survived:
    [bh_read] has released the buffer and the mutex already when [blkdev_read]
    releases its variable [bh], which is not set yet in the first turn; and a
    failing erase is reported by nobody, [blkdev_sync] returns 0 with the data
    still dirty. *)
Theorem blkdev_errors :
  @blkdev_read _ faulty_flash devs_1 1 20 0 bcache_1 = Undef /\
  exists c1 c2, @blkdev_write _ nor_flash devs_1 1 (replicate 16 0) 0
      (mk_bcache false true (bh_bufs bcache_1) (cached_list bcache_1) [] 0 0 ∅) = Done (16, c1) /\
    @blkdev_sync _ nor_flash devs_1 c1 = Done (0, c2) /\ dirty_list c2 = [3%nat].
Proof. split; [vm_compute; reflexivity|]. do 2 eexists. split; [vm_compute; reflexivity|]. split; vm_compute; reflexivity. Qed.

End CacheOk.
