(* ===== verification/Partition.v ===== *)
(** * dev/partition.c, dev/partitions_cfg.c : the partition table

    Partitions are ranges of a disk device.  The accesses with the prefix
    [lgpt_] go through a block cache, of which the file uses only what the
    class [ByteStore] states; the accesses with the prefix [disk_partition_]
    go to the device.  The configuration functions lay the table out. *)
From Stdlib Require Import ZArith Lia Bool String Ascii.
From stdpp Require Import base list numbers gmap.
From S2P Require Import Prelude Disk.
Import Disk.

(** ** The interface of a block cache *)

(** What dev/blkdev.c promises to its users: [bs_rep s V] says that the store
    [s] stands for the device contents [V]. *)
Class ByteStore (S : Type) := {
  bs_size : Z -> option Z;  (* the devices and their sizes *)
  bs_read : Z -> Z -> Z -> S -> outcome (Z * list Z * S);  (* device, size, offset *)
  bs_write : Z -> list Z -> Z -> S -> outcome (Z * S);  (* device, bytes, offset *)
  bs_rep : S -> (Z -> list Z) -> Prop;
  bs_len : forall s V d n, bs_rep s V -> bs_size d = Some n -> len (V d) = n /\ n <= 2 ^ 32;
  bs_bytes : forall s V d n, bs_rep s V -> bs_size d = Some n -> bytes (V d);
  bs_read_ok : forall s V d n size ofs, bs_rep s V -> bs_size d = Some n ->
    0 <= size -> 0 <= ofs -> ofs + size <= n ->
    exists s', bs_read d size ofs s = Done (size, slice (V d) ofs size, s') /\ bs_rep s' V;
  bs_write_ok : forall s V d n src ofs, bs_rep s V -> bs_size d = Some n -> bytes src ->
    0 <= ofs -> ofs + len src <= n ->
    exists s' V', bs_write d src ofs s = Done (len src, s') /\ bs_rep s' V' /\
      V' d = splice (V d) ofs src /\ forall x, x <> d -> V' x = V x }.

Module Partition.

(** ** The table *)

#[local] Unset Elimination Schemes.

(** [struct disk_partition]; a table is an array that ends with an entry
    without a name. *)
Inductive disk_partition := mk_part {
  dp_name : string;
  dp_parent : option string;
  dp_offset : Z;
  dp_len : Z;
  dp_child : option (list disk_partition) }.

#[local] Set Elimination Schemes.

(** A pointer to a partition: an index in the table, or an index in the table
    of children of a partition. *)
Inductive part_ptr := Top (i : nat) | Child (i j : nat).

(** The static variables: the table and the devices of its entries. *)
Record ptable := mk_ptable {
  partition_table : option (list disk_partition);
  parition_disk_cache : list Z }.

Definition table (t : ptable) : list disk_partition := default [] (partition_table t).

(** The comparison of pointers fails for a partition outside of the table. *)
Definition disk_device_find_by_part (t : ptable) (part : part_ptr) : outcome Z :=
  match part with
  | Top i => assert* (i <? length (table t))%nat in
      match parition_disk_cache t !! i with Some d => Done d | None => Undef end
  | Child _ _ => Assert
  end.

(** The offset and the length of a partition. *)
Definition part_range (t : ptable) (part : part_ptr) : outcome (Z * Z) :=
  match part with
  | Top i => match table t !! i with Some p => Done (dp_offset p, dp_len p) | None => Undef end
  | Child i j =>
      match p ← table t !! i; l ← dp_child p; l !! j with
      | Some c => Done (dp_offset c, dp_len c)
      | None => Undef
      end
  end.

(** ** Finding a partition *)

(** [strchr (in, '/')] *)
Fixpoint strchr (s : string) (c : ascii) : option nat :=
  match s with
  | EmptyString => None
  | String a s => if Ascii.eqb a c then Some 0%nat else S <$> strchr s c
  end.
(** The string from a pointer on. *)
Definition str_from (s : string) (p : nat) : string := substring p (String.length s - p) s.
(** [!strncmp (a, b, n)] for strings without NUL *)
Definition strn_eq (a b : string) (n : nat) : bool := String.eqb (substring 0 n a) (substring 0 n b).

Fixpoint find_child (name : string) (l : list disk_partition) (j : nat) : option nat :=
  match l with
  | [] => None
  | c :: l => if String.eqb name (dp_name c) then Some j else find_child name l (S j)
  end.

(** The [for] of [partition_match]; [p] is moved on by every entry whose name
    begins with the part of the input before it. *)
Fixpoint match_loop (inp : string) (p : option nat) (l : list disk_partition) (i : nat) : outcome (option part_ptr) :=
  match l with
  | [] => Done None
  | dp :: l =>
      match p with
      | None => if String.eqb inp (dp_name dp) then Done (Some (Top i)) else match_loop inp p l (S i)
      | Some q =>
          if strn_eq inp (dp_name dp) q then
            let q := S q in
            guard* (q <=? String.length inp)%nat in
            match dp_child dp with
            | Some cs =>
                match find_child (str_from inp q) cs 0 with
                | Some j => Done (Some (Child i j))
                | None => match_loop inp (Some q) l (S i)
                end
            | None => match_loop inp (Some q) l (S i)
            end
          else match_loop inp p l (S i)
      end
  end.

Definition partition_match (t : ptable) (inp : string) : outcome (option part_ptr) :=
  match_loop inp (strchr inp "/"%char) (table t) 0.
Definition disk_partition_find (t : ptable) (name : string) : outcome (option part_ptr) := partition_match t name.

(** ** Accesses through the cache *)

Section Cached.
Context {S : Type} `{ByteStore S} (t : ptable).

Definition lgpt_read (part : part_ptr) (addr size : Z) (s : S) : outcome (Z * list Z * S) :=
  let* r := part_range t part in
  if u64 (addr + size) >? r.2 then Done (- EINVAL, [], s)
  else
    let* dd := disk_device_find_by_part t part in
    let* x := bs_read dd size (u32 (r.1 + addr)) s in Done (s32 x.1.1, x.1.2, x.2).

Definition lgpt_write (part : part_ptr) (addr : Z) (buf : list Z) (s : S) : outcome (Z * S) :=
  let* r := part_range t part in
  if u64 (addr + len buf) >? r.2 then Done (- EINVAL, s)
  else
    let* dd := disk_device_find_by_part t part in
    let* x := bs_write dd buf (u32 (r.1 + addr)) s in Done (s32 x.1, x.2).
End Cached.

Section Raw.
Context {F : Type} `{Driver F} (devs : Z -> disk_device) (t : ptable).

Definition lgpt_get_block_size (part : part_ptr) (blksz : bool) : outcome (Z * option Z) :=
  if negb blksz then Done (- EINVAL, None)
  else let* dd := disk_device_find_by_part t part in Done (0, Some (dd_blk_size (devs dd))).

Definition disk_partition_read (part : part_ptr) (addr size : Z) (f : F) : outcome (Z * list Z) :=
  let* r := part_range t part in
  if u64 (addr + size) >? r.2 then Done (- EINVAL, [])
  else
    let* dd := disk_device_find_by_part t part in
    disk_device_read (devs dd) f true size (s64 (r.1 + addr)).

Definition disk_partition_write (part : part_ptr) (addr : Z) (buf : list Z) (f : F) : outcome (Z * F) :=
  let* r := part_range t part in
  if u64 (addr + len buf) >? r.2 then Done (- EINVAL, f)
  else
    let* dd := disk_device_find_by_part t part in
    disk_device_write (devs dd) f (Some buf) (len buf) (s64 (r.1 + addr)).

Definition disk_partition_erase (part : part_ptr) (addr size : Z) (f : F) : outcome (Z * F) :=
  let* r := part_range t part in
  if u64 (addr + size) >? r.2 then Done (- EINVAL, f)
  else
    let* dd := disk_device_find_by_part t part in
    assert* (s64 (r.1 + addr) >? 0) in
    disk_device_erase (devs dd) f (s64 (r.1 + addr)) size.

Definition disk_partition_erase_all (part : part_ptr) (f : F) : outcome (Z * F) :=
  let* r := part_range t part in disk_partition_erase part 0 r.2 f.
End Raw.

(** ** Registration *)

(** [disk_device_open]: the index of the device of that name. *)
Section Register.
Context (disk_device_open : string -> option Z).

(** The [for] of [disk_partition_register]: [dp] stays at the first entry. *)
Fixpoint open_parents (n : nat) (dp : disk_partition) : option (list Z) :=
  match n with
  | O => Some []
  | S n => d ← (name ← dp_parent dp; disk_device_open name); l ← open_parents n dp; Some (d :: l)
  end.

(** [mem] says whether [general_malloc] succeeds. *)
Definition disk_partition_register (pt : option (list disk_partition)) (n : nat) (mem : bool) (t : ptable)
    : outcome (Z * ptable) :=
  match partition_table t with
  | Some _ => Done (- EBUSY, t)
  | None =>
      match pt with
      | None => Done (- EINVAL, t)
      | Some pt =>
          if (n =? 0)%nat then Done (- EINVAL, t)
          else if negb mem then Done (- ENOMEM, t)
          else
            match pt with
            | [] => Undef
            | dp :: _ =>
                match open_parents n dp with
                | None => Done (- EIO, t)
                | Some cs => Done (0, mk_ptable (Some (take n pt)) cs)
                end
            end
      end
  end.

(** ** Laying the table out *)

(** The [while] of [partitions_configure_build] and of
    [logic_partitions_create] changes the table in place: an entry with offset
    -1 gets the running offset, which has 32 bits, and the entry its device.
    [false] when an entry ends behind [limit]; the entries behind it are left
    as they are. *)
Fixpoint layout_loop (limit : Z) (parent : disk_partition -> option string) (offset : Z)
    (l : list disk_partition) : bool * list disk_partition :=
  match l with
  | [] => (true, [])
  | dp :: l =>
      let dp' := mk_part (dp_name dp) (parent dp) (if dp_offset dp =? -1 then offset else dp_offset dp)
                   (dp_len dp) (dp_child dp) in
      let offset := u32 (offset + dp_len dp) in
      if offset >? limit then (false, dp' :: l)
      else let r := layout_loop limit parent offset l in (r.1, dp' :: r.2)
  end.

Definition set_first (base : Z) (l : list disk_partition) : list disk_partition :=
  match l with
  | [] => []
  | dp :: l => (if dp_offset dp =? -1 then mk_part (dp_name dp) (dp_parent dp) base (dp_len dp) (dp_child dp) else dp) :: l
  end.
Definition first_offset (l : list disk_partition) : Z := match l with [] => 0 | dp :: _ => dp_offset dp end.

Definition KB (n : Z) : Z := n * 1024.
Definition MB (n : Z) : Z := KB n * 1024.
Definition PT_ENTRY (name : string) (size : Z) : disk_partition := mk_part name None (-1) size None.
Definition partitions_configure : list disk_partition :=
  [PT_ENTRY "fireware_cur" (KB 4); PT_ENTRY "fireware" (MB 2); PT_ENTRY "syslog" (KB 16);
   PT_ENTRY "usrdata" (KB 100)].

(** The result, and the table [conf] afterwards. *)
Definition partitions_configure_build (conf : list disk_partition) (base_addr size : Z) (phydev : string)
    (mem : bool) (t : ptable) : outcome (Z * list disk_partition * ptable) :=
  let conf := set_first base_addr conf in
  let r := layout_loop (u64 (base_addr + size)) (fun dp => Some (default phydev (dp_parent dp)))
             (u32 (first_offset conf)) conf in
  if negb r.1 then Done (- EINVAL, r.2, t)
  else let* x := disk_partition_register (Some r.2) (length r.2) mem t in Done (x.1, r.2, x.2).

End Register.

(** The partition behind a pointer, and the table with its children set. *)
Definition part_at (t : ptable) (part : part_ptr) : option disk_partition :=
  match part with
  | Top i => table t !! i
  | Child i j => p ← table t !! i; l ← dp_child p; l !! j
  end.
Definition set_child (sub : list disk_partition) (p : disk_partition) : disk_partition :=
  mk_part (dp_name p) (dp_parent p) (dp_offset p) (dp_len p) (Some sub).
Definition set_child_at (sub : list disk_partition) (part : part_ptr) (t : ptable) : ptable :=
  mk_ptable (Some match part with
                  | Top i => alter (set_child sub) i (table t)
                  | Child i j => alter (fun p => mk_part (dp_name p) (dp_parent p) (dp_offset p) (dp_len p)
                                          (alter (set_child sub) j <$> dp_child p)) i (table t)
                  end) (parition_disk_cache t).

(** The result, the sub-table and the table afterwards. *)
Definition logic_partitions_create (t : ptable) (ppt : option string) (sublist : option (list disk_partition))
    : outcome (Z * option (list disk_partition) * ptable) :=
  match ppt, sublist with
  | Some name, Some sub =>
      let* f := disk_partition_find t name in
      match f with
      | None => Done (- ENODEV, sublist, t)
      | Some ptr =>
          match part_at t ptr with
          | None => Undef
          | Some parent =>
              match dp_child parent with
              | Some _ => Done (- EEXIST, sublist, t)
              | None =>
                  let base := u32 (dp_offset parent) in
                  let sub := set_first base sub in
                  let r := layout_loop (u64 (base + dp_len parent)) (fun _ => dp_parent parent)
                             (u32 (first_offset sub)) sub in
                  if negb r.1 then Done (- EINVAL, Some r.2, t)
                  else Done (0, Some r.2, set_child_at r.2 ptr t)
              end
          end
      end
  | _, _ => Done (- EINVAL, sublist, t)
  end.

End Partition.
