(* ===== verification/PartitionOk.v ===== *)
(** * The layout of the partition table and the isolation of partitions

    The properties of Partition: where the configuration puts partitions,
    that the accesses through the cache see each partition as an array of its
    own, and what the look-up finds.  [blkdev_store] shows that the cache of
    dev/blkdev.c has the interface they are proved against. *)
From Stdlib Require Import ZArith Lia Bool String Ascii.
From stdpp Require Import base list numbers gmap.
From S2P Require Import Prelude Disk BlkCache BlkCacheOk Partition.
Import Disk BlkCache CacheOk Partition.

Module PartitionOk.

(** ** The block cache has the interface *)

Section Store.
Context {F : Type} `{HF : Flash F} (devs : Z -> disk_device).

#[local] Instance dev_ok_dec d : Decision (dev_ok devs d).
Proof.
  destruct (decide (d <> 0 /\ (0 < dd_blk_size (devs d) /\ dd_blk_size (devs d) = 2 ^ Z.log2 (dd_blk_size (devs d))) /\
    dd_blk_size (devs d) <= CONFIG_BLKDEV_MAX_BLKSZ /\ dd_len (devs d) mod dd_blk_size (devs d) = 0 /\
    (0 < dd_len (devs d) /\ dd_len (devs d) <= 2 ^ 32) /\
    (dd_read (devs d) = true /\ dd_write (devs d) = true /\ dd_erase (devs d) = true)))
    as [Hd|Hd]; [destruct (Znumtheory.Zdivide_dec (fl_unit (handle (devs d))) (dd_blk_size (devs d))) as [Hu|Hu]|].
  - left. destruct Hd as (H1 & [H2 H2'] & H3 & H4 & H5 & H6). split; try done.
    + exists (Z.log2 (dd_blk_size (devs d))). split; [apply Z.log2_nonneg|done].
    + apply Z.mod_divide; [lia|done].
  - right. by intros [? ? ? ? ? ? ?].
  - right. intros [H1 (k & Hk & H2) H3 H4 H5 H6 _]. apply Hd.
    assert (0 < dd_blk_size (devs d)) as Hb by (rewrite H2; by apply Z.pow_pos_nonneg).
    split; [done|]. split; [split; [done|by rewrite H2, Z.log2_pow2]|]. split; [done|].
    split; [apply Z.mod_divide; [lia|done]|]. done.
Defined.

(** dev/blkdev.c, for chips that do not fail. *)
Definition blkdev_store (Hc : distinct_chips devs) : ByteStore (bcache F).
Proof.
  refine {| bs_size := fun d => if decide (dev_ok devs d) then Some (dd_len (devs d)) else None;
            bs_read := blkdev_read devs;
            bs_write := blkdev_write devs;
            bs_rep := fun c V => binv devs [] false c V |}.
  - intros s V d n HI Hd. case_decide as Hok; [|done]. injection Hd as <-.
    destruct (bi_data _ _ _ _ _ HI d Hok) as (_ & _ & L & _). split; [done|]. by apply (ok_len _ d Hok).
  - intros s V d n HI Hd. case_decide as Hok; [|done].
    by destruct (bi_data _ _ _ _ _ HI d Hok) as (_ & _ & _ & ?).
  - intros s V d n size ofs HI Hd H1 H2 H3. case_decide as Hok; [|done]. injection Hd as <-.
    by apply (blkdev_read_ok devs Hc).
  - intros s V d n src ofs HI Hd H1 H2 H3. case_decide as Hok; [|done]. injection Hd as <-.
    destruct (blkdev_write_ok devs Hc s V d src ofs HI Hok H1 H2 H3) as (s' & E & HI').
    exists s', (upd_dev V d (splice (V d) ofs src)). split_and!; [done|done|by apply upd_dev_eq|].
    intros x Hx. by apply upd_dev_ne.
Defined.
End Store.

(** ** Partitions as arrays *)

Section Isolation.
Context {S : Type} `{HS : ByteStore S} (t : ptable).

(** Partition [i] lies on device [d] of the store. *)
Definition placed (i : nat) (d : Z) (p : disk_partition) : Prop :=
  table t !! i = Some p /\ parition_disk_cache t !! i = Some d /\
  exists n, bs_size d = Some n /\ 0 <= dp_offset p /\ 0 <= dp_len p /\ dp_offset p + dp_len p <= n.

(** The bytes of the partition. *)
Definition pview (d : Z) (p : disk_partition) (V : Z -> list Z) : list Z := slice (V d) (dp_offset p) (dp_len p).

Lemma placed_find i d p : placed i d p -> part_range t (Top i) = Done (dp_offset p, dp_len p) /\
  disk_device_find_by_part t (Top i) = Done d.
Proof.
  intros (Hp & Hd & _). unfold part_range, disk_device_find_by_part. rewrite Hp, Hd.
  rewrite (proj2 (Nat.ltb_lt _ _)) by (by eapply lookup_lt_Some). done.
Qed.

Lemma lgpt_read_ok i d p s V addr size :
  bs_rep s V -> placed i d p -> 0 <= addr < 2 ^ 32 -> 0 <= size < 2 ^ 31 ->
  if addr + size <=? dp_len p
  then exists s', lgpt_read t (Top i) addr size s = Done (size, slice (pview d p V) addr size, s') /\ bs_rep s' V
  else lgpt_read t (Top i) addr size s = Done (- EINVAL, [], s).
Proof.
  intros HR Hp Ha Hs. destruct (placed_find i d p Hp) as [E1 E2]. unfold lgpt_read. rewrite E1. cbn [obind fst snd].
  rewrite wrap_small by (split; lia). rewrite Z.gtb_ltb.
  destruct (Z.leb_spec (addr + size) (dp_len p)) as [Hle|Hgt].
  2: { by rewrite (proj2 (Z.ltb_lt _ _)) by lia. }
  rewrite (proj2 (Z.ltb_ge _ _)), E2 by lia. cbn [obind].
  destruct Hp as (_ & _ & n & Hn & Ho & Hl & Hb). destruct (bs_len s V d n HR Hn) as [Hlen Hn32].
  assert (u32 (dp_offset p + addr) = dp_offset p + addr \/ size = 0) as [Hw|Hz].
  { destruct (decide (size = 0)); [by right|]. left. apply wrap_small. split; lia. }
  - rewrite Hw. destruct (bs_read_ok s V d n size (dp_offset p + addr) HR Hn) as (s' & -> & HR'); [lia..|].
    exists s'. cbn [obind fst snd]. split; [|done]. rewrite swrap_small by (split; lia).
    do 2 f_equal. f_equal. unfold pview. rewrite slice_slice by lia. done.
  - subst size. pose proof (wrap_range 32 (dp_offset p + addr) ltac:(lia)) as Hr.
    assert (wrap 32 (dp_offset p + addr) <= n) as Hrn.
    { unfold wrap. destruct (decide (dp_offset p + addr < 2 ^ 32)); [rewrite Z.mod_small; lia|].
      assert (dp_offset p + addr = 2 ^ 32) as -> by lia. rewrite Z.mod_same by lia. lia. }
    destruct (bs_read_ok s V d n 0 (wrap 32 (dp_offset p + addr)) HR Hn) as (s' & -> & HR');
      [lia|apply Hr|lia|]. exists s'. cbn [obind fst snd]. split; [|done]. done.
Qed.

Lemma lgpt_write_ok i d p s V addr buf :
  bs_rep s V -> placed i d p -> bytes buf -> 0 <= addr < 2 ^ 32 -> 0 < len buf < 2 ^ 31 ->
  if addr + len buf <=? dp_len p
  then exists s' V', lgpt_write t (Top i) addr buf s = Done (len buf, s') /\ bs_rep s' V' /\
    V' d = splice (V d) (dp_offset p + addr) buf /\ forall x, x <> d -> V' x = V x
  else lgpt_write t (Top i) addr buf s = Done (- EINVAL, s).
Proof.
  intros HR Hp Hb Ha Hs. destruct (placed_find i d p Hp) as [E1 E2]. unfold lgpt_write. rewrite E1. cbn [obind fst snd].
  rewrite wrap_small by (split; lia). rewrite Z.gtb_ltb.
  destruct (Z.leb_spec (addr + len buf) (dp_len p)) as [Hle|Hgt].
  2: { by rewrite (proj2 (Z.ltb_lt _ _)) by lia. }
  rewrite (proj2 (Z.ltb_ge _ _)), E2 by lia. cbn [obind].
  destruct Hp as (_ & _ & n & Hn & Ho & Hl & Hbd). destruct (bs_len s V d n HR Hn) as [Hlen Hn32].
  rewrite wrap_small by (split; lia).
  destruct (bs_write_ok s V d n buf (dp_offset p + addr) HR Hn Hb) as (s' & V' & -> & HR' & HV); [lia..|].
  exists s', V'. cbn [obind fst snd]. rewrite swrap_small by (split; lia). done.
Qed.

(** Two partitions do not share a byte. *)
Definition apart (d : Z) (p : disk_partition) (d' : Z) (p' : disk_partition) : Prop :=
  d <> d' \/ dp_offset p + dp_len p <= dp_offset p' \/ dp_offset p' + dp_len p' <= dp_offset p.

Lemma pview_write i d p d' p' j s V V' addr buf :
  bs_rep s V -> placed i d p -> placed j d' p' -> 0 <= addr -> addr + len buf <= dp_len p ->
  V' d = splice (V d) (dp_offset p + addr) buf -> (forall x, x <> d -> V' x = V x) ->
  pview d p V' = splice (pview d p V) addr buf /\ (apart d p d' p' -> pview d' p' V' = pview d' p' V).
Proof.
  intros HR (_ & _ & n & Hn & Ho & Hl & Hb) (_ & _ & n' & Hn' & Ho' & Hl' & Hb') Ha Hs HV1 HV2.
  destruct (bs_len s V d n HR Hn) as [Hlen _]. pose proof (len_nonneg buf). unfold pview. split.
  - rewrite HV1. by apply slice_splice_in; lia.
  - intros Hap. destruct (decide (d' = d)) as [->|Hne]; [|by rewrite HV2].
    rewrite HV1. destruct Hap as [?|Hap]; [done|]. apply slice_splice_other; lia.
Qed.

(** Any sequence of accesses, with the results of each. *)
Inductive lop := LRead (i : nat) (addr size : Z) | LWrite (i : nat) (addr : Z) (buf : list Z).

Definition lstep (o : lop) (s : S) : outcome (Z * list Z * S) :=
  match o with
  | LRead i addr size => lgpt_read t (Top i) addr size s
  | LWrite i addr buf => let* r := lgpt_write t (Top i) addr buf s in Done (r.1, [], r.2)
  end.

Fixpoint lrun (ops : list lop) (s : S) : outcome (list (Z * list Z) * S) :=
  match ops with
  | [] => Done ([], s)
  | o :: ops => let* r := lstep o s in let* q := lrun ops r.2 in Done (r.1 :: q.1, q.2)
  end.

(** The same on one array for each partition. *)
Definition arrays : Type := nat -> list Z.

Definition astep (o : lop) (A : arrays) : (Z * list Z) * arrays :=
  match o with
  | LRead i addr size => (if addr + size <=? len (A i) then (size, slice (A i) addr size) else (- EINVAL, []), A)
  | LWrite i addr buf =>
      if addr + len buf <=? len (A i) then ((len buf, []), fun j => if decide (j = i) then splice (A i) addr buf else A j)
      else ((- EINVAL, []), A)
  end.

Fixpoint arun (ops : list lop) (A : arrays) : list (Z * list Z) * arrays :=
  match ops with
  | [] => ([], A)
  | o :: ops => let r := astep o A in let q := arun ops r.2 in (r.1 :: q.1, q.2)
  end.

(** Every entry of the table lies on its device, apart from the others. *)
Definition laid_out : Prop := forall i p, table t !! i = Some p ->
  (exists d, placed i d p) /\
  forall j p' d d', table t !! j = Some p' -> j <> i -> parition_disk_cache t !! i = Some d -> parition_disk_cache t !! j = Some d' -> apart d p d' p'.

Definition contents (V : Z -> list Z) (i : nat) : list Z :=
  match table t !! i, parition_disk_cache t !! i with Some p, Some d => pview d p V | _, _ => [] end.

(** What an access needs of its arguments: a partition of the table, an
    address of 32 bits, and a size that [int] can return. *)
Definition lop_ok (o : lop) : Prop :=
  match o with
  | LRead i addr size => (i < length (table t))%nat /\ 0 <= addr < 2 ^ 32 /\ 0 <= size < 2 ^ 31
  | LWrite i addr buf => (i < length (table t))%nat /\ 0 <= addr < 2 ^ 32 /\ 0 < len buf < 2 ^ 31 /\ bytes buf
  end.

Lemma contents_placed V i d p : placed i d p -> contents V i = pview d p V.
Proof. intros (E1 & E2 & _). unfold contents. by rewrite E1, E2. Qed.

Lemma len_pview i d p s V : bs_rep s V -> placed i d p -> len (pview d p V) = dp_len p.
Proof. intros HR (_ & _ & n & Hn & Ho & Hl & Hb). destruct (bs_len s V d n HR Hn) as [Hlen _]. unfold pview. by rewrite len_slice by lia. Qed.

(** The part [o, o + n) of device [d] belongs to no partition. *)
Definition unused (d o n : Z) : Prop := forall i p, table t !! i = Some p -> parition_disk_cache t !! i = Some d -> o + n <= dp_offset p \/ dp_offset p + dp_len p <= o.

Lemma lstep_ok o s V : laid_out -> bs_rep s V -> lop_ok o ->
  exists s' V', lstep o s = Done ((astep o (contents V)).1, s') /\ bs_rep s' V' /\ (forall i, contents V' i = (astep o (contents V)).2 i) /\
    forall d o n, unused d o n -> 0 <= o -> slice (V' d) o n = slice (V d) o n.
Proof.
  intros HL HR. destruct o as [i addr size|i addr buf]; cbn [lop_ok lstep astep].
  - intros (Hi & Ha & Hs). destruct (lookup_lt_is_Some_2 _ _ Hi) as [p Hp]. destruct (HL i p Hp) as [[d Hd] _].
    pose proof (lgpt_read_ok i d p s V addr size HR Hd Ha Hs) as Hr. rewrite (contents_placed V i d p Hd), (len_pview i d p s V HR Hd).
    destruct (addr + size <=? dp_len p); [destruct Hr as (s' & -> & HR'); exists s', V|rewrite Hr; exists s, V]; done.
  - intros (Hi & Ha & Hs & Hb). destruct (lookup_lt_is_Some_2 _ _ Hi) as [p Hp]. destruct (HL i p Hp) as [[d Hd] Hap].
    pose proof (lgpt_write_ok i d p s V addr buf HR Hd Hb Ha Hs) as Hw. rewrite (contents_placed V i d p Hd), (len_pview i d p s V HR Hd).
    destruct (Z.leb_spec (addr + len buf) (dp_len p)) as [Hle|Hgt]; [|rewrite Hw; cbn; by exists s, V].
    destruct Hw as (s' & V' & -> & HR' & HV1 & HV2). exists s', V'. split; [done|]. split; [done|]. split.
    + intros j. cbn [snd]. case_decide as Hj.
      * subst j. rewrite (contents_placed V' i d p Hd). exact (proj1 (pview_write i d p d p i s V V' addr buf HR Hd Hd ltac:(lia) Hle HV1 HV2)).
      * unfold contents. destruct (table t !! j) as [p'|] eqn:Ej; [|done]. destruct (parition_disk_cache t !! j) as [d'|] eqn:Ed; [|done].
        destruct (HL j p' Ej) as [[d'' Hd'] _]. destruct Hd' as (_ & E & Hrest). rewrite Ed in E. injection E as <-.
        assert (placed j d' p') as HdJ by (split; [done|]; by split).
        refine (proj2 (pview_write i d p d' p' j s V V' addr buf HR Hd HdJ ltac:(lia) Hle HV1 HV2) _). apply (Hap j p' d d'); try done. apply Hd.
    + intros x o n Hun Ho. destruct (decide (x = d)) as [->|Hne]; [|by rewrite HV2]. rewrite HV1. destruct Hd as (_ & Ec & m & Hm & H1 & H2 & H3).
      destruct (bs_len s V d m HR Hm) as [Hlen _]. destruct (Hun i p Hp Ec); apply slice_splice_other; lia.
Qed.

Lemma arun_ext ops A B : (forall i, A i = B i) -> (arun ops A).1 = (arun ops B).1 /\ forall i, (arun ops A).2 i = (arun ops B).2 i.
Proof.
  revert A B. induction ops as [|o ops IH]; intros A B H; cbn [arun fst snd]; [done|].
  assert ((astep o A).1 = (astep o B).1 /\ forall i, (astep o A).2 i = (astep o B).2 i) as [E1 E2].
  { destruct o as [i addr size|i addr buf]; cbn [astep]; rewrite <- (H i); [done|]. destruct (_ <=? _); [|done]. split; [done|]. intros j. cbn. by case_decide. }
  destruct (IH _ _ E2) as [E3 E4]. by rewrite E1, E3.
Qed.

Lemma lrun_ok ops s V : laid_out -> bs_rep s V -> Forall lop_ok ops ->
  exists s' V', lrun ops s = Done ((arun ops (contents V)).1, s') /\ bs_rep s' V' /\ (forall i, contents V' i = (arun ops (contents V)).2 i) /\
    forall d o n, unused d o n -> 0 <= o -> slice (V' d) o n = slice (V d) o n.
Proof.
  intros HL HR Hok. revert s V HR. induction Hok as [|o ops Ho Hops IH]; intros s V HR; cbn [lrun arun fst snd]; [by exists s, V|].
  destruct (lstep_ok o s V HL HR Ho) as (s1 & V1 & -> & HR1 & HC & HF). cbn [obind fst snd]. destruct (IH s1 V1 HR1) as (s2 & V2 & -> & HR2 & HC2 & HF2). cbn [obind fst snd].
  destruct (arun_ext ops (contents V1) (astep o (contents V)).2 HC) as [E1 E2]. exists s2, V2. rewrite E1. split; [done|]. split; [done|].
  split; [intros i; by rewrite HC2, E2|]. intros d x n Hu Hx. by rewrite HF2, HF.
Qed.
End Isolation.

(** C28: Through the block cache the partitions are arrays of their own. When
    every partition of the table lies on its device and apart from the others,
    any sequence of lgpt_read and lgpt_write has the results it has on one
    array for each partition: an access beyond the length of its partition is
    refused with -EINVAL and changes nothing, a read gives the bytes of its
    partition, a write changes the bytes it was given the address of and no
    other byte of this partition or of another one; and the parts of the
    devices that belong to no partition keep their contents. (Sizes are below
    2^31, which [int] can return, and writes are not empty.) *)
Theorem lgpt_isolated (S : Type) (HS : ByteStore S) (t : ptable) (ops : list lop) (s : S) (V : Z -> list Z) :
  laid_out t -> bs_rep s V -> Forall (lop_ok t) ops ->
  exists s' V', lrun t ops s = Done ((arun ops (contents t V)).1, s') /\ bs_rep s' V' /\ (forall i, contents t V' i = (arun ops (contents t V)).2 i) /\
    forall d o n, unused t d o n -> 0 <= o -> slice (V' d) o n = slice (V d) o n.
Proof. apply lrun_ok. Qed.

(** ** The layout *)

Definition total (l : list disk_partition) : Z := foldr (fun p n => dp_len p + n) 0 l.

(** The partitions one after another from [off]. *)
Fixpoint lay (parent : disk_partition -> option string) (off : Z) (l : list disk_partition) : list disk_partition :=
  match l with
  | [] => []
  | p :: l => mk_part (dp_name p) (parent p) off (dp_len p) (dp_child p) :: lay parent (off + dp_len p) l
  end.

(** Entries that take the running offset, which is [off] at the first one. *)
Definition floating (off : Z) (l : list disk_partition) : Prop :=
  match l with
  | [] => True
  | p :: l => (dp_offset p = -1 \/ dp_offset p = off) /\ Forall (fun p => dp_offset p = -1) l
  end.

Lemma total_nonneg l : Forall (fun p => 0 < dp_len p < 2 ^ 31) l -> 0 <= total l.
Proof. induction 1 as [|p l Hp Hl IH]; simpl; lia. Qed.

Lemma layout_loop_ok limit parent l : forall off,
  0 <= off <= limit -> limit < 2 ^ 31 -> Forall (fun p => 0 < dp_len p < 2 ^ 31) l -> floating off l ->
  if off + total l <=? limit
  then layout_loop limit parent off l = (true, lay parent off l)
  else (layout_loop limit parent off l).1 = false.
Proof.
  induction l as [|p l IH]; intros off Ho Hlim Hl Hf; simpl.
  { by rewrite (proj2 (Z.leb_le _ _)) by lia. }
  apply Forall_cons in Hl as [Hp Hl]. destruct Hf as [Hf1 Hf2]. pose proof (total_nonneg l Hl).
  rewrite (wrap_small 32 (off + dp_len p)) by (split; lia).
  assert ((if dp_offset p =? -1 then off else dp_offset p) = off) as ->.
  { destruct (Z.eqb_spec (dp_offset p) (-1)); [done|]. by destruct Hf1. }
  rewrite Z.gtb_ltb. destruct (Z.ltb_spec limit (off + dp_len p)) as [Hgt|Hle].
  { by rewrite (proj2 (Z.leb_gt _ _)) by lia. }
  assert (floating (off + dp_len p) l) as Hfl.
  { destruct l as [|p' l]; [done|]. apply Forall_cons in Hf2 as [? ?]. split; [by left|done]. }
  specialize (IH (off + dp_len p) ltac:(lia) Hlim Hl Hfl).
  replace (off + (dp_len p + total l)) with (off + dp_len p + total l) by lia.
  destruct (Z.leb_spec (off + dp_len p + total l) limit); [by rewrite IH|]. simpl. exact IH.
Qed.

Lemma lay_lookup parent l : forall off i p, lay parent off l !! i = Some p ->
  exists q, l !! i = Some q /\ dp_name p = dp_name q /\ dp_parent p = parent q /\ dp_len p = dp_len q /\
    dp_offset p = off + total (take i l).
Proof.
  induction l as [|q l IH]; intros off i p Hi; [done|]. destruct i as [|i]; simpl in *.
  - injection Hi as <-. exists q. split_and!; try done. simpl. lia.
  - destruct (IH _ _ _ Hi) as (q' & ? & ? & ? & ? & E). exists q'. split_and!; try done. rewrite E. lia.
Qed.

Lemma length_lay parent l : forall off, length (lay parent off l) = length l.
Proof. induction l as [|q l IH]; intros off; simpl; [done|]. by rewrite IH. Qed.

Lemma total_app l k : total (l ++ k) = total l + total k.
Proof. induction l as [|p l IH]; simpl; [done|]. rewrite IH. lia. Qed.

Lemma total_take_lt l i j q :
  Forall (fun p => 0 < dp_len p < 2 ^ 31) l -> (i < j)%nat -> l !! i = Some q ->
  total (take i l) + dp_len q <= total (take j l).
Proof.
  intros Hl Hij Hq. replace j with (S i + (j - S i))%nat by lia.
  rewrite <- take_take_drop, total_app, (take_S_r _ _ _ Hq), total_app. simpl.
  pose proof (total_nonneg (take (j - S i) (drop (S i) l)) ltac:(by apply Forall_take, Forall_drop)). lia.
Qed.

Lemma open_parents_same open n dp cs : open_parents open n dp = Some cs ->
  forall i, (i < n)%nat -> exists d, cs !! i = Some d /\ (name ← dp_parent dp; open name) = Some d.
Proof.
  revert cs. induction n as [|n IH]; intros cs Hc i Hi; [lia|]. simpl in Hc.
  destruct (name ← dp_parent dp; open name) as [d|] eqn:Ed; [|done]. simpl in Hc.
  destruct (open_parents open n dp) as [l|] eqn:El; [|done]. injection Hc as <-.
  destruct i as [|i]; [exists d; done|]. apply (IH l eq_refl i). lia.
Qed.

Lemma open_parents_ok open n dp d : (name ← dp_parent dp; open name) = Some d ->
  open_parents open n dp = Some (replicate n d).
Proof. intros E. induction n as [|n IH]; simpl; [done|]. rewrite E. simpl. by rewrite IH. Qed.

Lemma register_ok open pt t p0 d :
  partition_table t = None -> pt !! 0%nat = Some p0 -> (name ← dp_parent p0; open name) = Some d ->
  disk_partition_register open (Some pt) (length pt) true t =
    Done (0, mk_ptable (Some pt) (replicate (length pt) d)).
Proof.
  intros Ht Hp Hd. unfold disk_partition_register. rewrite Ht. destruct pt as [|p l]; [done|].
  injection Hp as ->. rewrite (proj2 (Nat.eqb_neq _ 0)) by done. cbn [negb].
  rewrite (open_parents_ok open _ _ d Hd), take_ge; done.
Qed.

Lemma set_first_ok base (conf : list disk_partition) :
  0 <= base -> conf <> [] -> Forall (fun p => dp_offset p = -1) conf ->
  floating base (set_first base conf) /\ first_offset (set_first base conf) = base /\
  total (set_first base conf) = total conf /\
  forall parent, (forall p q, dp_parent p = dp_parent q -> parent p = parent q) -> forall off,
    lay parent off (set_first base conf) = lay parent off conf.
Proof.
  intros Hb Hne Hc. destruct conf as [|p l]; [done|]. apply Forall_cons in Hc as [Hp Hl].
  simpl. rewrite Hp. simpl. split_and!; try done; [by right|]. intros parent Hpar off. f_equal.
  rewrite (Hpar _ p); [done|done].
Qed.

(** [partitions_configure_build] on a table of partitions without
    offsets: when they fit in [size] bytes from [base], they are laid out one
    after another from [base], in order and without gaps, inside of the area
    and apart from each other, all on the device [phydev], under their names
    and with their lengths; else the call answers -EINVAL and registers
    nothing. *)
Theorem partitions_layout (open : string -> option Z) (conf : list disk_partition) (base size : Z)
    (phydev : string) (d : Z) (t : ptable) :
  conf <> [] -> Forall (fun p => dp_offset p = -1 /\ dp_parent p = None /\ 0 < dp_len p < 2 ^ 31) conf ->
  0 <= base -> 0 <= size -> base + size < 2 ^ 31 -> open phydev = Some d -> partition_table t = None ->
  if total conf <=? size
  then exists conf' t', partitions_configure_build open conf base size phydev true t = Done (0, conf', t') /\
    partition_table t' = Some conf' /\ length conf' = length conf /\
    (forall i p, conf' !! i = Some p -> exists q, conf !! i = Some q /\ dp_name p = dp_name q /\
       dp_len p = dp_len q /\ dp_parent p = Some phydev /\ parition_disk_cache t' !! i = Some d /\
       dp_offset p = base + total (take i conf) /\ dp_offset p + dp_len p <= base + size) /\
    (forall i j p p', i <> j -> conf' !! i = Some p -> conf' !! j = Some p' -> apart d p d p')
  else exists conf', partitions_configure_build open conf base size phydev true t = Done (- EINVAL, conf', t).
Proof.
  intros Hne Hc Hb Hs Hbs Hd Ht.
  assert (Forall (fun p => dp_offset p = -1) conf) as Hc1 by (eapply Forall_impl; [exact Hc|]; naive_solver).
  assert (Forall (fun p => 0 < dp_len p < 2 ^ 31) conf) as Hc2 by (eapply Forall_impl; [exact Hc|]; naive_solver).
  destruct (set_first_ok base conf Hb Hne Hc1) as (Hf & Ef & Et & El).
  set (parent := fun dp => Some (default phydev (dp_parent dp))).
  assert (Forall (fun p => 0 < dp_len p < 2 ^ 31) (set_first base conf)) as Hc3.
  { destruct conf as [|p l]; [done|]. apply Forall_cons in Hc2 as [? ?]. simpl.
    constructor; [|done]. by destruct (dp_offset p =? -1). }
  pose proof (layout_loop_ok (base + size) parent (set_first base conf) base ltac:(lia) ltac:(lia) Hc3 Hf) as Hl.
  unfold partitions_configure_build. rewrite Ef, (wrap_small 32 base), (wrap_small 64 (base + size)) by (split; lia).
  fold parent. rewrite Et in Hl.
  replace (base + total conf <=? base + size) with (total conf <=? size) in Hl.
  2: { destruct (Z.leb_spec (total conf) size); symmetry; [apply Z.leb_le|apply Z.leb_gt]; lia. }
  destruct (Z.leb_spec (total conf) size) as [Hfit|Hno].
  2: { destruct (layout_loop _ _ _ _) as [b l]. simpl in Hl. subst b. by exists l. }
  rewrite Hl. cbn [fst snd negb]. rewrite (El parent); [|unfold parent; intros ? ? ->; done].
  set (conf' := lay parent base conf). assert (length conf' = length conf) as Elen by apply length_lay.
  assert (exists p0, conf !! 0%nat = Some p0 /\
    conf' !! 0%nat = Some (mk_part (dp_name p0) (Some phydev) base (dp_len p0) (dp_child p0))) as (p0 & _ & E0).
  { unfold conf'. destruct conf as [|p0 l0]; [done|]. exists p0. split; [done|]. simpl. unfold parent.
    apply Forall_cons in Hc as [(_ & -> & _) _]. done. }
  rewrite (register_ok open conf' t _ d Ht E0) by done. cbn [obind fst snd].
  exists conf', (mk_ptable (Some conf') (replicate (length conf') d)). split_and!; try done.
  - intros i p Hi. destruct (lay_lookup parent conf base i p) as (q' & Hq & E1 & E2 & E3 & E4); [done|].
    exists q'. split_and!; try done.
    + rewrite E2. unfold parent. rewrite Forall_forall in Hc.
      destruct (Hc q') as (_ & -> & _); [by eapply list_elem_of_lookup_2|done].
    + simpl. apply lookup_replicate. split; [done|]. by eapply lookup_lt_Some.
    + rewrite E4, E3. pose proof (total_take_lt conf i (length conf) q' Hc2 ltac:(by eapply lookup_lt_Some) Hq) as Hlt.
      rewrite firstn_all in Hlt. lia.
  - intros i j p p' Hij Hi Hj. right.
    destruct (lay_lookup parent conf base i p Hi) as (q1 & Hq1 & _ & _ & E3 & E4).
    destruct (lay_lookup parent conf base j p' Hj) as (q2 & Hq2 & _ & _ & E3' & E4').
    rewrite E3, E4, E3', E4'. destruct (Nat.lt_gt_cases i j) as [Hlt _]. destruct (Hlt Hij) as [Hl1|Hl1].
    + pose proof (total_take_lt conf i j q1 Hc2 Hl1 Hq1). lia.
    + pose proof (total_take_lt conf j i q2 Hc2 Hl1 Hq2). lia.
Qed.

(** ** Finding partitions *)

Lemma strchr_app s1 s2 : strchr s1 "/"%char = None ->
  strchr (s1 ++ String "/"%char s2) "/"%char = Some (String.length s1).
Proof.
  induction s1 as [|a s1 IH]; simpl; [done|]. destruct (Ascii.eqb a "/"%char); [done|].
  destruct (strchr s1 "/"%char) eqn:E; [done|]. intros _. by rewrite IH.
Qed.

Lemma substring_app_l s1 s2 : substring 0 (String.length s1) (s1 ++ s2) = s1.
Proof. induction s1 as [|a s1 IH]; simpl; [by destruct s2|]. by rewrite IH. Qed.

Lemma substring_all s : substring 0 (String.length s) s = s.
Proof. induction s as [|a s IH]; simpl; [done|]. by rewrite IH. Qed.

Lemma length_append s1 s2 : String.length (s1 ++ s2) = (String.length s1 + String.length s2)%nat.
Proof. induction s1 as [|a s1 IH]; simpl; [done|]. by rewrite IH. Qed.

Lemma str_from_app s1 s2 : str_from (s1 ++ s2) (String.length s1) = s2.
Proof.
  unfold str_from. rewrite length_append.
  replace (String.length s1 + String.length s2 - String.length s1)%nat with (String.length s2) by lia.
  induction s1 as [|a s1 IH]; simpl; [apply substring_all|]. done.
Qed.

Lemma append_assoc_char s1 c s2 : ((s1 ++ String c EmptyString) ++ s2 = s1 ++ String c s2)%string.
Proof.
  induction s1 as [|a s1 IH]; [done|].
  change (String a ((s1 ++ String c EmptyString) ++ s2) = String a (s1 ++ String c s2))%string. by rewrite IH.
Qed.

(** [p] is a prefix of [s]. *)
Definition has_prefix (p s : string) : bool := String.eqb (substring 0 (String.length p) s) p.

Lemma has_prefix_longer p c s : substring 0 (S (String.length p)) s = (p ++ String c EmptyString)%string ->
  has_prefix p s = true.
Proof.
  intros Hs. apply String.eqb_eq. revert s Hs. induction p as [|a p IH]; intros [|b s]; simpl; intros Hs; try done.
  injection Hs as -> Hs. by rewrite IH.
Qed.

(** Entries whose names do not begin with [pname] are passed. *)
Lemma match_loop_skip pname cname l : forall q i,
  q = String.length pname \/ q = S (String.length pname) ->
  (forall p, p ∈ l -> has_prefix pname (dp_name p) = false) ->
  match_loop (pname ++ String "/" cname) (Some q) l i = Done None.
Proof.
  induction l as [|p l IH]; intros q i Hq Hl; simpl; [done|].
  assert (strn_eq (pname ++ String "/" cname) (dp_name p) q = false) as ->.
  { pose proof (Hl p ltac:(constructor)) as Hp. destruct (strn_eq _ _ q) eqn:E; [|done].
    apply String.eqb_eq in E. destruct Hq as [-> | ->].
    - rewrite substring_app_l in E. unfold has_prefix in Hp. by rewrite <- E, String.eqb_refl in Hp.
    - rewrite <- append_assoc_char in E.
      replace (S (String.length pname)) with (String.length (pname ++ String "/" EmptyString)) in E
        by (rewrite length_append; simpl; lia).
      rewrite substring_app_l in E. rewrite length_append in E. simpl in E. rewrite Nat.add_1_r in E.
      by rewrite (has_prefix_longer pname "/"%char (dp_name p)) in Hp. }
  apply IH; [done|]. intros p' Hp'. apply Hl. by constructor.
Qed.

Lemma match_loop_child pname cname l1 p l2 i :
  dp_name p = pname ->
  (forall p', p' ∈ l1 ++ l2 -> has_prefix pname (dp_name p') = false) ->
  match_loop (pname ++ String "/" cname) (Some (String.length pname)) (l1 ++ p :: l2) i =
    Done (j ← (cs ← dp_child p; find_child cname cs 0); Some (Child (i + length l1) j)).
Proof.
  intros Hn. revert i. induction l1 as [|p1 l1 IH]; intros i Hl; cbn [match_loop app length].
  - assert (strn_eq (pname ++ String "/" cname) (dp_name p) (String.length pname) = true) as ->.
    { apply String.eqb_eq. by rewrite substring_app_l, Hn, substring_all. }
    rewrite (proj2 (Nat.leb_le _ _)) by (rewrite length_append; simpl; lia).
    assert (str_from (pname ++ String "/" cname) (S (String.length pname)) = cname) as ->.
    { rewrite <- append_assoc_char.
      replace (S (String.length pname)) with (String.length (pname ++ String "/" EmptyString))
        by (rewrite length_append; simpl; lia). apply str_from_app. }
    assert (match_loop (pname ++ String "/" cname) (Some (S (String.length pname))) l2 (S i) = Done None) as E.
    { apply match_loop_skip; [by right|done]. }
    destruct (dp_child p) as [cs|]; simpl; [|exact E]. destruct (find_child cname cs 0); simpl; [by rewrite Nat.add_0_r|exact E].
  - assert (strn_eq (pname ++ String "/" cname) (dp_name p1) (String.length pname) = false) as ->.
    { pose proof (Hl p1 ltac:(constructor)) as Hp. destruct (strn_eq _ _ _) eqn:E; [|done].
      apply String.eqb_eq in E. rewrite substring_app_l in E. unfold has_prefix in Hp.
      by rewrite <- E, String.eqb_refl in Hp. }
    rewrite IH; [|intros p' Hp'; apply Hl; by constructor]. by rewrite Nat.add_succ_r.
Qed.

(** [disk_partition_find] of "name/child" finds the child of that name
    of the partition of that name, provided no other partition's name begins
    with "name"; it finds nothing when the partition has no such child, and it
    never reads behind the string. *)
Theorem find_child_partition (t : ptable) (pname cname : string) (l1 l2 : list disk_partition)
    (p : disk_partition) :
  table t = l1 ++ p :: l2 -> dp_name p = pname -> strchr pname "/" = None ->
  (forall p', p' ∈ l1 ++ l2 -> has_prefix pname (dp_name p') = false) ->
  disk_partition_find t (pname ++ String "/" cname) =
    Done (j ← (cs ← dp_child p; find_child cname cs 0); Some (Child (length l1) j)).
Proof.
  intros Ht Hn Hs Hl. unfold disk_partition_find, partition_match. rewrite (strchr_app _ _ Hs), Ht.
  by apply match_loop_child.
Qed.

(** *** Witnesses and defects *)

Definition open_1 (name : string) : option Z := if String.eqb name "flash" then Some 1 else Some 2.
Definition ptable_0 : ptable := mk_ptable None [].

Lemma partitions_layout_witness :
  exists conf' t', partitions_configure_build open_1 partitions_configure 65536 4194304 "flash" true ptable_0 = Done (0, conf', t') /\
    partition_table t' = Some conf' /\ length conf' = length partitions_configure /\
    (forall i p, conf' !! i = Some p -> exists q, partitions_configure !! i = Some q /\ dp_name p = dp_name q /\
       dp_len p = dp_len q /\ dp_parent p = Some "flash"%string /\ parition_disk_cache t' !! i = Some 1 /\
       dp_offset p = 65536 + total (take i partitions_configure) /\ dp_offset p + dp_len p <= 65536 + 4194304) /\
    (forall i j p p', i <> j -> conf' !! i = Some p -> conf' !! j = Some p' -> apart 1 p 1 p').
Proof.
  refine (partitions_layout open_1 partitions_configure 65536 4194304 "flash" 1 ptable_0 _ _ _ _ _ _ _).
  - discriminate.
  - repeat (constructor; [done|]). constructor.
  - lia.
  - lia.
  - lia.
  - reflexivity.
  - reflexivity.
Defined.

(** Two partitions on the first device. *)
Definition part_a : disk_partition := mk_part "a" (Some "flash"%string) 16 40 None.
Definition part_b : disk_partition := mk_part "b" (Some "flash"%string) 56 32 None.
Definition ptable_1 : ptable := mk_ptable (Some [part_a; part_b]) [1; 1].
Definition store_1 : ByteStore (bcache chips) := blkdev_store devs_1 distinct_1.

Lemma placed_1 : @placed _ store_1 ptable_1 0 1 part_a /\ @placed _ store_1 ptable_1 1 1 part_b.
Proof.
  assert (@bs_size _ store_1 1 = Some 128) as Hs.
  { unfold store_1, blkdev_store. cbn [bs_size]. case_decide as Hn; [done|]. destruct Hn. apply dev_1_ok. by left. }
  split; (split; [done|split; [done|exists 128; split; [exact Hs|done]]]).
Qed.

Lemma laid_out_1 : @laid_out _ store_1 ptable_1.
Proof.
  intros i p Hp. destruct placed_1 as [PA PB]. destruct i as [|[|i]]; cbn in Hp; [injection Hp as <-|injection Hp as <-|done]; (split; [by exists 1|]);
    intros [|[|j]] p' d d' Hj Hne Ed Ed'; cbn in Hj, Ed, Ed'; try done; injection Hj as <-; [right; left|right; right]; cbn; lia.
Qed.

(** A write, a read, and accesses beyond both partitions. *)
Definition lops_1 : list lop := [LWrite 0 3 [1; 2]; LRead 0 2 4; LRead 1 0 33; LWrite 1 31 [5; 6]; LRead 1 0 32].

Lemma lgpt_isolated_witness :
  exists s' V', @lrun _ store_1 ptable_1 lops_1 bcache_1 = Done ((arun lops_1 (contents ptable_1 flat_1)).1, s') /\ @bs_rep _ store_1 s' V' /\
    (forall i, contents ptable_1 V' i = (arun lops_1 (contents ptable_1 flat_1)).2 i) /\
    forall d o n, unused ptable_1 d o n -> 0 <= o -> slice (V' d) o n = slice (flat_1 d) o n.
Proof.
  refine (lgpt_isolated _ store_1 ptable_1 lops_1 bcache_1 flat_1 laid_out_1 bcache_1_inv _).
  repeat (constructor; [cbn; repeat split; try lia; repeat (constructor; [lia|]); constructor|]). constructor.
Defined.

Lemma find_child_partition_witness :
  disk_partition_find (mk_ptable (Some [PT_ENTRY "boot" 8; mk_part "sys" None 8 8 (Some [PT_ENTRY "x" 4; PT_ENTRY "y" 4])]) [])
    ("sys" ++ String "/" "y") = Done (Some (Child 1 1)).
Proof.
  refine (find_child_partition (mk_ptable (Some [PT_ENTRY "boot" 8; mk_part "sys" None 8 8 (Some [PT_ENTRY "x" 4; PT_ENTRY "y" 4])]) [])
    "sys" "y" [PT_ENTRY "boot" 8] [] (mk_part "sys" None 8 8 (Some [PT_ENTRY "x" 4; PT_ENTRY "y" 4])) _ _ _ _).
  - reflexivity.
  - reflexivity.
  - reflexivity.
  - intros p' Hp. apply list_elem_of_singleton in Hp as ->. reflexivity.
Defined.

(** Four defects of the table.  [disk_partition_register] gives every
    entry the device of the first one; a partition of the configured table
    that has children cannot be found by "name/child" when an earlier name
    begins with its name, as "fireware_cur" does with "fireware"; a partition
    that is found as a child cannot be read, the look-up of its device fails
    its assertion; and the erase of a partition at address 0 of the device
    fails an assertion. *)
Theorem partition_defects :
  (exists conf t, disk_partition_register open_1
      (Some [part_a; mk_part "b" (Some "other"%string) 0 16 None]) 2 true ptable_0 = Done (0, t) /\
    conf = table t /\ open_1 "other" = Some 2 /\ parition_disk_cache t = [1; 1]) /\
  (exists conf t1 s t2, partitions_configure_build open_1 partitions_configure 65536 4194304 "flash" true ptable_0
      = Done (0, conf, t1) /\
    logic_partitions_create t1 (Some "fireware"%string) (Some [PT_ENTRY "app" 4096]) = Done (0, Some s, t2) /\
    disk_partition_find t2 "fireware/app" = Done None) /\
  (forall S (HS : ByteStore S) (s : S),
    lgpt_read (mk_ptable (Some [mk_part "sys" None 0 8 (Some [PT_ENTRY "x" 4])]) [1]) (Child 0 0) 0 4 s = Assert) /\
  @disk_partition_erase_all _ nor_flash devs_1 (mk_ptable (Some [mk_part "sys" None 0 32 None]) [1]) (Top 0) chips_1 = Assert.
Proof.
  split; [do 2 eexists; split; [reflexivity|]; split; [reflexivity|]; split; reflexivity|].
  split; [do 4 eexists; split; [vm_compute; reflexivity|]; split; vm_compute; reflexivity|].
  split; reflexivity.
Qed.

End PartitionOk.
