(* ===== verification/VFlash.v ===== *)
(** * os/posix/os_vflash_impl.cc : the flash of the POSIX port

    A flash device in an array of memory, and the initialiser that registers
    it and lays the partition table out on it.  It is an instance of the
    classes [Driver] and [Flash] of Disk, so that the block cache, which is
    proved against them, can be run on it: [vflash_platform] has no
    hypothesis about a driver. *)
From Stdlib Require Import ZArith Lia Bool String.
From stdpp Require Import base list numbers gmap.
From S2P Require Import Prelude Disk BlkCache BlkCacheOk Partition.
Import Disk BlkCache CacheOk Partition.

Module VFlash.

Definition FLASH_DEVNAME : string := "virtual-flash".
Definition FLASH_PGSZ : Z := 4096.
Definition FLASH_CAPACITY : Z := 5 * 1024 * 1024.

(** [virtual_flash_memory] *)
Abbreviation flash := (list Z).

Definition virt_flash_get_name : string := FLASH_DEVNAME.

(** [offset + size > FLASH_CAPACITY]: the [long] becomes a [size_t]. *)
Definition out_of_flash (offset size : Z) : bool := u64 (offset + size) >? FLASH_CAPACITY.

(** The status and the bytes put in [buf]. *)
Definition virtual_flash_read (virtual_flash_memory : flash) (size offset : Z) : outcome (Z * list Z) :=
  if out_of_flash offset size then Done (- EINVAL, [])
  else let* b := mem_read virtual_flash_memory offset size in Done (s32 size, b).

Definition virtual_flash_write (virtual_flash_memory : flash) (buf : list Z) (offset : Z) : outcome (Z * flash) :=
  let size := len buf in
  if out_of_flash offset size then Done (- EINVAL, virtual_flash_memory)
  else let* m := mem_write virtual_flash_memory offset buf in Done (s32 size, m).

Definition virtual_flash_erase (virtual_flash_memory : flash) (offset size : Z) : outcome (Z * flash) :=
  if out_of_flash offset size then Done (- EINVAL, virtual_flash_memory)
  else if negb (Z.rem offset FLASH_PGSZ =? 0) then Done (- EINVAL, virtual_flash_memory)
  else if negb (size mod FLASH_PGSZ =? 0) then Done (- EINVAL, virtual_flash_memory)
  else
    let* m := mem_write virtual_flash_memory offset (replicate (Z.to_nat size) 255) in Done (0, m).

Definition virtual_flash_ioctl (cmd : Z) : Z := - ENOSYS.

(** The device: [vdisk.dev] is [(device_t)1]. *)
Definition vdisk : disk_device :=
  mk_disk_device virt_flash_get_name (Some 1) 0 FLASH_CAPACITY FLASH_PGSZ true true true true (Some virtual_flash_ioctl).

(** The functions as a driver of Disk, which only reaches accesses that the
    bounds checks of disk.c let through; for those they have a result. *)
Definition done_or {A} (d : A) (m : outcome A) : A := match m with Done a => a | _ => d end.
#[export] Instance vflash_driver : Driver flash :=
  {| drv_read := fun _ f size ofs => done_or (- EIO, []) (virtual_flash_read f size ofs);
     drv_write := fun _ f src ofs => done_or (- EIO, f) (virtual_flash_write f src ofs);
     drv_erase := fun _ f ofs size => done_or (- EIO, f) (virtual_flash_erase f ofs size) |}.

(** What [CC_INIT(posix_vflash)] leaves: the registered devices, the block
    cache, and the partition table; [bufs] is what the allocator gives to the
    block cache, [conf] the static table of partitions_cfg.c. *)
Definition posix_vflash (bufs : list (list Z)) (timer : Z) (disk_list : list disk_device)
    (c : bcache flash) (conf : list disk_partition) (t : ptable)
    : outcome (Z * list disk_device * bcache flash * list disk_partition * ptable) :=
  let* r := disk_device_register (Some vdisk) (Some bufs) timer disk_list c in
  let '(err, disk_list, c) := r in
  assert* err =? 0 in
  let open name := match disk_device_open name disk_list with Done (_, Some _) => Some 1 | _ => None end in
  let* r := partitions_configure_build open conf 0 FLASH_CAPACITY FLASH_DEVNAME true t in
  let '(err, conf, t) := r in
  assert* err =? 0 in
  Done (err, disk_list, c, conf, t).

(** The static memory of a C program starts with zeros. *)
Definition flash_0 : flash := replicate (Z.to_nat FLASH_CAPACITY) 0.

(** ** The functions within the bounds *)

Lemma in_flash offset size : 0 <= offset -> 0 <= size -> offset + size <= FLASH_CAPACITY ->
  out_of_flash offset size = false.
Proof.
  intros. unfold out_of_flash, FLASH_CAPACITY in *. rewrite wrap_small by (split; lia).
  rewrite Z.gtb_ltb. apply Z.ltb_ge. lia.
Qed.

Lemma vflash_read_ok f size offset : len f = FLASH_CAPACITY ->
  0 <= offset -> 0 <= size -> offset + size <= FLASH_CAPACITY ->
  virtual_flash_read f size offset = Done (size, slice f offset size).
Proof.
  intros Hf Ho Hs Hl. unfold virtual_flash_read. rewrite in_flash by done. rewrite mem_read_ok by lia.
  cbn [obind]. unfold FLASH_CAPACITY in *. by rewrite swrap_small by lia.
Qed.

Lemma vflash_write_ok f buf offset : len f = FLASH_CAPACITY ->
  0 <= offset -> offset + len buf <= FLASH_CAPACITY ->
  virtual_flash_write f buf offset = Done (len buf, splice f offset buf).
Proof.
  intros Hf Ho Hl. pose proof (len_nonneg buf). unfold virtual_flash_write. rewrite in_flash by done.
  rewrite mem_write_ok by lia. cbn [obind]. unfold FLASH_CAPACITY in *. by rewrite swrap_small by lia.
Qed.

Lemma vflash_erase_ok f offset size : len f = FLASH_CAPACITY ->
  0 <= offset -> 0 <= size -> offset + size <= FLASH_CAPACITY -> (FLASH_PGSZ | offset) -> (FLASH_PGSZ | size) ->
  virtual_flash_erase f offset size = Done (0, splice f offset (replicate (Z.to_nat size) 255)).
Proof.
  intros Hf Ho Hs Hl Do Ds. unfold virtual_flash_erase. rewrite in_flash by done.
  assert (FLASH_PGSZ <> 0) as Hp by done.
  rewrite Z.rem_mod_nonneg, (proj2 (Z.mod_divide offset _ Hp)), (proj2 (Z.mod_divide size _ Hp)) by (done || unfold FLASH_PGSZ; lia).
  cbn [Z.eqb negb]. rewrite mem_write_ok; [done|done|]. unfold len. rewrite length_replicate. unfold len in Hf. lia.
Qed.

(** ** An instance of a flash *)

(** The one chip, when the memory has the size of the array. *)
Definition vflash_content (d : Z) (f : flash) : list Z :=
  if (d =? 1) && (len f =? FLASH_CAPACITY) then f else [].

Lemma vflash_content_cases d f :
  (d = 1 /\ len f = FLASH_CAPACITY /\ vflash_content d f = f) \/ vflash_content d f = [].
Proof.
  unfold vflash_content. destruct (Z.eqb_spec d 1); [|by right].
  destruct (Z.eqb_spec (len f) FLASH_CAPACITY); [by left|by right].
Qed.

Lemma vflash_content_1 f : len f = FLASH_CAPACITY -> vflash_content 1 f = f.
Proof. intros Hf. unfold vflash_content. by rewrite Hf, !Z.eqb_refl. Qed.

Lemma splice_empty (f : list Z) ofs : splice f ofs [] = f.
Proof. unfold splice. simpl. rewrite Nat.add_0_r. apply take_drop. Qed.

(** Accesses of nothing at all, of a handle without a chip. *)
Lemma no_bytes (f : flash) ofs n : 0 <= ofs -> 0 <= n -> ofs + n <= len (@nil Z) ->
  ofs = 0 /\ n = 0 /\ virtual_flash_read f n ofs = Done (0, []).
Proof.
  change (len (@nil Z)) with 0. intros H1 H2 H3. assert (ofs = 0) as -> by lia. assert (n = 0) as -> by lia.
  split_and!; [done|done|]. unfold virtual_flash_read. rewrite in_flash by (unfold FLASH_CAPACITY; lia).
  pose proof (len_nonneg f). by rewrite mem_read_ok by lia.
Qed.

#[export] Instance vflash_flash : @Flash flash vflash_driver.
Proof.
  refine {| fl_content := vflash_content; fl_unit := fun _ => FLASH_PGSZ |}; simpl.
  - intros d f size ofs H1 H2 H3. destruct (vflash_content_cases d f) as [(-> & Hl & E)|E]; rewrite E in *.
    + exists size. split; [done|]. by rewrite vflash_read_ok by (done || lia).
    + destruct (no_bytes f ofs size) as (-> & -> & ->); [done..|]. by exists 0.
  - intros d f src ofs H1 H2 H3. destruct (vflash_content_cases d f) as [(-> & Hl & E)|E]; rewrite E in *.
    + exists (len src), (splice f ofs src), src. rewrite vflash_write_ok by (done || lia).
      split_and!; [apply len_nonneg|done| |done|done|].
      * apply vflash_content_1. by rewrite len_splice.
      * intros d' Hd. unfold vflash_content. by rewrite (proj2 (Z.eqb_neq _ _)).
    + pose proof (len_nonneg src) as Hn. destruct (no_bytes f ofs (len src) H1 Hn H2) as (-> & Hs & _).
      destruct src; [|rewrite len_cons in Hs; pose proof (len_nonneg src); lia].
      exists 0, f, []. split_and!; [done| |by rewrite E|done|done|done].
      unfold virtual_flash_write. change (len []) with 0. rewrite in_flash by (unfold FLASH_CAPACITY; lia).
      rewrite mem_write_ok by (change (len []) with 0; pose proof (len_nonneg f); lia). cbn [obind done_or].
      by rewrite splice_empty.
  - intros d f ofs size H1 H2 H3 H4 H5. destruct (vflash_content_cases d f) as [(-> & Hl & E)|E]; rewrite E in *.
    + assert (len (replicate (Z.to_nat size) 255) = size) as Hr by (unfold len; rewrite length_replicate; lia).
      exists (splice f ofs (replicate (Z.to_nat size) 255)). rewrite vflash_erase_ok by (done || lia).
      split_and!; [done| |].
      * apply vflash_content_1. rewrite len_splice; rewrite ?Hr; lia.
      * intros d' Hd. unfold vflash_content. by rewrite (proj2 (Z.eqb_neq _ _)).
    + destruct (no_bytes f ofs size) as (-> & -> & _); [done..|]. exists f.
      split_and!; [|by rewrite E|done]. unfold virtual_flash_erase. rewrite in_flash by (unfold FLASH_CAPACITY; lia).
      cbn [Z.rem Z.modulo Z.eqb negb]. change (Z.to_nat 0) with 0%nat. cbn [replicate].
      rewrite mem_write_ok by (change (len []) with 0; pose proof (len_nonneg f); lia). cbn [obind done_or].
      by rewrite splice_empty.
Defined.

(** ** The block cache on the virtual flash *)

(** A pointer to the device; there is no other. *)
Definition devs_v (d : Z) : disk_device :=
  if d =? 1 then vdisk else mk_disk_device "none" None 0 0 0 false false false false None.

(** What the memory holds, as the contents of the devices. *)
Definition device_contents (f : flash) (d : Z) : list Z := vflash_content (handle (devs_v d)) f.

Lemma dev_ok_v d : dev_ok devs_v d <-> d = 1.
Proof.
  split.
  - intros [_ _ _ _ Hl _ _]. unfold devs_v in Hl. destruct (Z.eqb_spec d 1); [done|]. simpl in Hl. lia.
  - intros ->. split; [done|exists 12; done|done|exists 1280; done|done|done|exists 1; done].
Qed.

Lemma distinct_v : distinct_chips devs_v.
Proof. by intros d d' ->%dev_ok_v ->%dev_ok_v. Qed.

Lemma flash_0_ok : len flash_0 = FLASH_CAPACITY /\ bytes flash_0.
Proof.
  unfold flash_0. split; [unfold len; rewrite length_replicate; unfold FLASH_CAPACITY; lia|].
  apply Forall_replicate. lia.
Qed.

(** The memory is what the device holds. *)
Lemma chips_content f : len (device_contents f 1) = FLASH_CAPACITY -> device_contents f 1 = f.
Proof.
  unfold device_contents, vflash_content. change (handle (devs_v 1) =? 1) with true. cbn [andb].
  by destruct (len f =? FLASH_CAPACITY).
Qed.

(** From any contents of the memory. *)
Lemma platform_from (f : flash) (bufs : list (list Z)) (ops : list bop) :
  len f = FLASH_CAPACITY -> bytes f ->
  length bufs = NR_BLKS -> Forall (fun m => len m = CONFIG_BLKDEV_MAX_BLKSZ /\ bytes m) bufs ->
  Forall (bop_ok devs_v) ops ->
  exists c conf t c1 c2,
    posix_vflash bufs 0 [] (bcache_0 f) partitions_configure (mk_ptable None []) = Done (0, [vdisk], c, conf, t) /\
    partition_table t = Some conf /\ parition_disk_cache t = [1; 1; 1; 1] /\
    ((fun p => (dp_name p, dp_offset p, dp_len p)) <$> conf) =
      [("fireware_cur"%string, 0, 4096); ("fireware"%string, 4096, 2097152);
       ("syslog"%string, 2101248, 16384); ("usrdata"%string, 2117632, 102400)] /\
    let flat := frun ops (device_contents f) in
    brun devs_v ops c = Done (flat.1, c1) /\
    blkdev_sync devs_v c1 = Done (0, c2) /\ chips_of c2 = flat.2 1.
Proof.
  intros Hf0 Hfb Hl Hb Hops.  destruct (blkdev_init_ok devs_v f bufs Hl Hb) as (c & Ei & HI).
  { intros d ->%dev_ok_v. change (handle (devs_v 1)) with 1. cbn [fl_content vflash_flash].
    rewrite vflash_content_1 by done. split; done. }
  change (binv devs_v [] false c (device_contents f)) in HI.
  destruct (brun_ok devs_v distinct_v ops c _ HI Hops) as (c1 & E1 & HI1).
  destruct (blkdev_sync_ok devs_v distinct_v c1 _ HI1) as (c2 & E2 & HI2 & Hd2).
  pose proof (clean_devices devs_v c2 _ 1 HI2 Hd2 (proj2 (dev_ok_v 1) eq_refl)) as Hc.
  destruct (bi_data _ _ _ _ _ HI2 1 (proj2 (dev_ok_v 1) eq_refl)) as (L1 & _ & L2 & _).
  unfold posix_vflash, disk_device_register. change (disk_device_valid vdisk) with true. cbn [negb].
  rewrite Ei. cbn [obind fst snd]. set (open := fun name : string => _).
  assert (exists conf t, partitions_configure_build open partitions_configure 0 FLASH_CAPACITY FLASH_DEVNAME true
      (mk_ptable None []) = Done (0, conf, t) /\ partition_table t = Some conf /\ parition_disk_cache t = [1; 1; 1; 1] /\
    ((fun p => (dp_name p, dp_offset p, dp_len p)) <$> conf) =
      [("fireware_cur"%string, 0, 4096); ("fireware"%string, 4096, 2097152);
       ("syslog"%string, 2101248, 16384); ("usrdata"%string, 2117632, 102400)]) as (conf & t & -> & Ht1 & Ht2 & Ht3).
  { eexists _, _. split; [vm_compute; reflexivity|]. split_and!; reflexivity. }
  cbn [Z.eqb obind]. exists c, conf, t, c1, c2. do 4 (split; [done|]). cbv zeta.
  split; [exact E1|]. split; [exact E2|].
  rewrite <- Hc. symmetry. apply chips_content.
  change (device_contents (chips_of c2) 1) with (data devs_v 1 c2). rewrite Hc, L2. reflexivity.
Qed.

(** C24: The POSIX port, end to end: [posix_vflash] succeeds, registers the
    device and lays the four partitions of partitions_cfg.c out on it from
    offset 0; after that, every sequence of writes, reads, syncs and timer
    callbacks of the block cache on the device returns what it would return
    on a flat array of 5 MiB of zeros, and a sync brings
    [virtual_flash_memory] to the contents of that array. *)
Theorem vflash_platform (bufs : list (list Z)) (ops : list bop) :
  length bufs = NR_BLKS -> Forall (fun m => len m = CONFIG_BLKDEV_MAX_BLKSZ /\ bytes m) bufs ->
  Forall (bop_ok devs_v) ops ->
  exists c conf t c1 c2,
    posix_vflash bufs 0 [] (bcache_0 flash_0) partitions_configure (mk_ptable None []) = Done (0, [vdisk], c, conf, t) /\
    partition_table t = Some conf /\ parition_disk_cache t = [1; 1; 1; 1] /\
    ((fun p => (dp_name p, dp_offset p, dp_len p)) <$> conf) =
      [("fireware_cur"%string, 0, 4096); ("fireware"%string, 4096, 2097152);
       ("syslog"%string, 2101248, 16384); ("usrdata"%string, 2117632, 102400)] /\
    let flat := frun ops (device_contents flash_0) in
    brun devs_v ops c = Done (flat.1, c1) /\
    blkdev_sync devs_v c1 = Done (0, c2) /\ chips_of c2 = flat.2 1.
Proof. intros. destruct flash_0_ok. by apply platform_from. Qed.

(** Writing, reading back, and reading what was never written. *)
Definition ops_v : list bop := [BWrite 1 [1; 2; 3] 4095; BTimer; BRead 1 5 4094; BRead 1 2 5242878].
Definition bufs_v : list (list Z) := replicate NR_BLKS (replicate (Z.to_nat CONFIG_BLKDEV_MAX_BLKSZ) 0).

Lemma vflash_platform_witness :
  exists c conf t c1 c2,
    posix_vflash bufs_v 0 [] (bcache_0 flash_0) partitions_configure (mk_ptable None []) = Done (0, [vdisk], c, conf, t) /\
    partition_table t = Some conf /\ parition_disk_cache t = [1; 1; 1; 1] /\
    ((fun p => (dp_name p, dp_offset p, dp_len p)) <$> conf) =
      [("fireware_cur"%string, 0, 4096); ("fireware"%string, 4096, 2097152);
       ("syslog"%string, 2101248, 16384); ("usrdata"%string, 2117632, 102400)] /\
    let flat := frun ops_v (device_contents flash_0) in
    brun devs_v ops_v c = Done (flat.1, c1) /\
    blkdev_sync devs_v c1 = Done (0, c2) /\ chips_of c2 = flat.2 1.
Proof.
  refine (vflash_platform bufs_v ops_v _ _ _).
  - unfold bufs_v. apply length_replicate.
  - apply Forall_replicate. split; [unfold len; rewrite length_replicate; reflexivity|].
    apply Forall_replicate. lia.
  - repeat constructor; try (apply dev_ok_v; reflexivity); try (simpl; unfold FLASH_CAPACITY; lia);
      change (len [1; 2; 3]) with 3; simpl; unfold FLASH_CAPACITY; lia.
Defined.

(** The bound is computed as a [size_t], so a negative offset passes it when
    the sum is not negative, and the access is outside of the memory. *)
Lemma vflash_negative_offset f : virtual_flash_read f 1 (-1) = Undef.
Proof. reflexivity. Qed.
End VFlash.
