(* ===== verification/DiskLog.v ===== *)
(** * lib/disklog.c : a ring buffer of log text in a partition

    The first block of the partition "syslog" holds the header, the rest is
    the ring.  The file uses the partition through [lgpt_read] and
    [lgpt_write], so the definitions and the theorems are over any store with
    the interface of Partition. *)
From Stdlib Require Import ZArith Lia Bool String.
From stdpp Require Import base list numbers gmap.
From S2P Require Import Prelude Disk BlkCache BlkCacheOk Partition PartitionOk.
Import Disk BlkCache CacheOk Partition PartitionOk.

Module DiskLog.

Definition DISKLOG_MAGIC : Z := 0xabdcebcf.

(** [struct disk_log] *)
Record disk_log := mk_log {
  lg_magic : Z; lg_start : Z; lg_end : Z; lg_size : Z; lg_wr_ofs : Z; lg_rd_ofs : Z; lg_d_size : Z }.

(** Its bytes, seven little-endian words. *)
Definition le32 (z : Z) : list Z := [z mod 256; (z / 256) mod 256; (z / 65536) mod 256; (z / 16777216) mod 256].
Definition un_le32 (l : list Z) : Z :=
  match l with [a; b; c; d] => a + 256 * b + 65536 * c + 16777216 * d | _ => 0 end.
Definition encode (g : disk_log) : list Z :=
  le32 (lg_magic g) ++ le32 (lg_start g) ++ le32 (lg_end g) ++ le32 (lg_size g) ++ le32 (lg_wr_ofs g) ++
  le32 (lg_rd_ofs g) ++ le32 (lg_d_size g).
Definition decode (l : list Z) : disk_log :=
  let w k := un_le32 (slice l (4 * k) 4) in mk_log (w 0) (w 1) (w 2) (w 3) (w 4) (w 5) (w 6).
Definition SIZEOF_DISK_LOG : Z := 28.

Section Ops.
Context {S : Type} `{ByteStore S} (t : ptable).

(** The static variables: [dp_dev], [log_file], [initialized] and the
    [rdlog] of [disklog_read]; and the store under the partition. *)
Record dstate := mk_dstate {
  dp_dev : option part_ptr; log_file : disk_log; initialized : bool; rdlog : disk_log; store : S }.
Definition set_log (g : disk_log) (x : dstate) : dstate := mk_dstate (dp_dev x) g (initialized x) (rdlog x) (store x).
Definition set_store (s : S) (x : dstate) : dstate := mk_dstate (dp_dev x) (log_file x) (initialized x) (rdlog x) s.
Definition set_rdlog (g : disk_log) (x : dstate) : dstate := mk_dstate (dp_dev x) (log_file x) (initialized x) g (store x).

Definition get_dev (x : dstate) : outcome part_ptr := match dp_dev x with Some p => Done p | None => Assert end.

Definition logfile_save (x : dstate) : outcome dstate :=
  let* dp := get_dev x in
  let* r := lgpt_write t dp 0 (encode (log_file x)) (store x) in
  assert* r.1 >? 0 in Done (set_store r.2 x).

(** [blksz] is what [lgpt_get_block_size] stores. *)
Definition disklog_reset_locked (blksz : Z) (x : dstate) : outcome dstate :=
  let* dp := get_dev x in
  let* r := part_range t dp in
  guard* negb (blksz =? 0) in
  let start := u32 blksz in
  let size := u32 (u64 (r.2 - blksz) / blksz * blksz) in
  logfile_save (set_log (mk_log DISKLOG_MAGIC start (u32 (start + size)) size start start 0) x).

Definition disklog_reset (blksz : Z) (x : dstate) : outcome dstate := disklog_reset_locked blksz x.

Definition disklog_init (blksz : Z) (x : dstate) : outcome (Z * dstate) :=
  if initialized x then Done (0, x)
  else
    let* f := disk_partition_find t "syslog" in
    match f with
    | None => Assert
    | Some dp =>
        let* r := lgpt_read t dp 0 SIZEOF_DISK_LOG (store x) in
        let x := mk_dstate (Some dp) (log_file x) (initialized x) (rdlog x) r.2 in
        if r.1.1 <? 0 then Done (r.1.1, x)
        else
          let x := set_log (decode r.1.2) x in
          let* x := (if negb (lg_magic (log_file x) =? DISKLOG_MAGIC) then disklog_reset_locked blksz x else Done x) in
          Done (0, mk_dstate (dp_dev x) (log_file x) true (rdlog x) (store x))
    end.

(** The [while] of [disklog_input]: the status of the last write, the place
    to write next and how much is left. *)
Fixpoint input_loop (fuel : nat) (dp : part_ptr) (g : disk_log) (buf : list Z) (wr_ofs : Z) (s : S)
    : outcome (Z * Z * Z * S) :=
  if len buf =? 0 then Done (1, wr_ofs, 0, s) else
  match fuel with
  | O => Undef
  | Datatypes.S fuel =>
      let bytes := Z.min (u32 (lg_end g - wr_ofs)) (len buf) in
      let* r := lgpt_write t dp wr_ofs (take (Z.to_nat bytes) buf) s in
      if r.1 <=? 0 then Done (r.1, wr_ofs, len buf, r.2)
      else
        let wr_ofs := u32 (wr_ofs + bytes) in
        let wr_ofs := if lg_end g <=? wr_ofs then lg_start g else wr_ofs in
        input_loop fuel dp g (drop (Z.to_nat bytes) buf) wr_ofs r.2
  end.

Definition disklog_input (buf : option (list Z)) (x : dstate) : outcome (Z * dstate) :=
  let* dp := get_dev x in
  match buf with
  | None => Done (- EINVAL, x)
  | Some buf =>
      if len buf =? 0 then Done (- EINVAL, x)
      else
        let g := log_file x in
        let* r := input_loop (length buf) dp g buf (lg_wr_ofs g) (store x) in
        let ret := r.1.1.1 in let wr := r.1.1.2 in
        let g' :=
          if ret <=? 0 then mk_log (lg_magic g) (lg_start g) (lg_end g) (lg_size g) wr (lg_rd_ofs g) (lg_d_size g)
          else
            let d := u32 (lg_d_size g + len buf) in
            if d >? lg_size g
            then mk_log (lg_magic g) (lg_start g) (lg_end g) (lg_size g) wr wr (lg_size g)
            else mk_log (lg_magic g) (lg_start g) (lg_end g) (lg_size g) wr (lg_rd_ofs g) d in
        let* x := logfile_save (set_store r.2 (set_log g' x)) in
        Done (if ret <=? 0 then ret else 0, x)
  end.

(** The [while] of [disklog_ouput]; the chunks given to [output], in order. *)
Fixpoint output_loop (fuel : nat) (output : list Z -> bool) (dp : part_ptr) (g : disk_log) (maxsize remain rd_ofs : Z)
    (acc : list (list Z)) (s : S) : outcome (Z * list (list Z) * S) :=
  if remain =? 0 then Done (0, acc, s) else
  match fuel with
  | O => Undef
  | Datatypes.S fuel =>
      let bytes := Z.min (u32 (Z.min (u32 (lg_end g - rd_ofs)) remain)) maxsize in
      let* r := lgpt_read t dp rd_ofs bytes s in
      if r.1.1 <=? 0 then Done (r.1.1, acc, r.2)
      else
        let acc := acc ++ [r.1.2] in
        if negb (output r.1.2) then Done (- EIO, acc, r.2)
        else
          let rd_ofs := u32 (rd_ofs + bytes) in
          let rd_ofs := if lg_end g <=? rd_ofs then lg_start g else rd_ofs in
          output_loop fuel output dp g maxsize (remain - bytes) rd_ofs acc r.2
  end.

(** [mem] says whether the buffer can be allocated. *)
Definition disklog_ouput (output : option (list Z -> bool)) (maxsize : Z) (mem : bool) (x : dstate)
    : outcome (Z * list (list Z) * dstate) :=
  let* dp := get_dev x in
  match output with
  | None => Done (- EINVAL, [], x)
  | Some output =>
      let maxsize := if maxsize =? 0 then 1024 else maxsize in
      if negb mem then Done (- ENOMEM, [], x)
      else
        let g := log_file x in
        let* r := output_loop (Z.to_nat (lg_d_size g)) output dp g maxsize (lg_d_size g) (lg_rd_ofs g) [] (store x) in
        Done (r.1.1, r.1.2, set_store r.2 x)
  end.

(** The [while] of [disklog_read]; every turn reads to the start of the
    buffer. *)
Fixpoint read_loop (fuel : nat) (dp : part_ptr) (g : disk_log) (buffer : list Z) (remain size rd_ofs ret : Z) (s : S)
    : outcome (Z * option (Z * Z) * list Z * S) :=
  if remain =? 0 then Done (ret, Some (rd_ofs, size), buffer, s) else
  match fuel with
  | O => Undef
  | Datatypes.S fuel =>
      let bytes := Z.min (u32 (lg_end g - rd_ofs)) remain in
      let* r := lgpt_read t dp rd_ofs bytes s in
      let* buffer := mem_write buffer 0 r.1.2 in
      if r.1.1 <=? 0 then Done (r.1.1, None, buffer, r.2)
      else
        let rd_ofs := u32 (rd_ofs + bytes) in
        let rd_ofs := if lg_end g <=? rd_ofs then lg_start g else rd_ofs in
        read_loop fuel dp g buffer (remain - bytes) (size - bytes) rd_ofs r.1.1 r.2
  end.

(** The result and the buffer afterwards; [maxlen] is its length. *)
Definition disklog_read (buffer : option (list Z)) (first : bool) (x : dstate) : outcome (Z * list Z * dstate) :=
  let* dp := get_dev x in
  match buffer with
  | None => Done (- EINVAL, [], x)
  | Some buffer =>
      if len buffer =? 0 then Done (- EINVAL, buffer, x)
      else
        let x := if first then set_rdlog (log_file x) x else x in
        let g := rdlog x in
        let remain := Z.min (len buffer) (lg_d_size g) in
        let* r := read_loop (Z.to_nat remain) dp g buffer remain (lg_d_size g) (lg_rd_ofs g) 0 (store x) in
        let g' := match r.1.1.2 with
                  | Some (rd, d) => mk_log (lg_magic g) (lg_start g) (lg_end g) (lg_size g) (lg_wr_ofs g) rd (u32 d)
                  | None => g
                  end in
        Done (r.1.1.1, r.1.2, set_store r.2 (set_rdlog g' x))
  end.

(** [struct log_upload_class]: the callbacks [begin] and [end] are there or
    not; what the class is told, in order. *)
Inductive upload_event := Begin | Chunk (l : list Z) | End (err : Z).
Record log_upload_class := mk_upload {
  lu_upload : option (list Z -> bool); lu_begin : bool; lu_end : bool; lu_maxsize : Z }.

Definition disklog_upload_cb (luc : option log_upload_class) (mem : bool) (x : dstate)
    : outcome (list upload_event * dstate) :=
  match luc with
  | None => Done ([], x)
  | Some luc =>
      match lu_upload luc with
      | None => Done ([], x)
      | Some up =>
          let* r := disklog_ouput (Some up) (lu_maxsize luc) mem x in
          Done ((if lu_begin luc then [Begin] else []) ++ (Chunk <$> r.1.2) ++
                (if lu_end luc then [End r.1.1] else []), r.2)
      end
  end.

End Ops.
Arguments mk_dstate {S}. Arguments dp_dev {S}. Arguments log_file {S}. Arguments initialized {S}.
Arguments rdlog {S}. Arguments store {S}.

End DiskLog.
