(* ===== verification/DiskLogOk.v ===== *)
(** * The disk log keeps the last bytes written to it

    Over any store with the interface of Partition, the ring of disklog.c
    stands for a list of at most [lg_size] bytes: input appends and keeps the
    last ones, output gives them in order, and the header in the partition
    lets [disklog_init] find them again. *)
From Stdlib Require Import ZArith Lia Bool String.
From stdpp Require Import base list numbers gmap.
From S2P Require Import Prelude Disk BlkCache BlkCacheOk Partition PartitionOk DiskLog.
Import Disk BlkCache CacheOk Partition PartitionOk DiskLog.

Module LogOk.

(** ** The header *)

Lemma un_le32_le32 z : 0 <= z < 2 ^ 32 -> un_le32 (le32 z) = z.
Proof. intros. unfold un_le32, le32. zlia. Qed.

Lemma len_le32 z : len (le32 z) = 4.
Proof. done. Qed.

Lemma bytes_le32 z : bytes (le32 z).
Proof. repeat (constructor; [apply Z.mod_pos_bound; lia|]). constructor. Qed.

(** All fields are 32-bit words. *)
Definition words (g : disk_log) : Prop :=
  0 <= lg_magic g < 2 ^ 32 /\ 0 <= lg_start g < 2 ^ 32 /\ 0 <= lg_end g < 2 ^ 32 /\ 0 <= lg_size g < 2 ^ 32 /\
  0 <= lg_wr_ofs g < 2 ^ 32 /\ 0 <= lg_rd_ofs g < 2 ^ 32 /\ 0 <= lg_d_size g < 2 ^ 32.

Lemma decode_encode g : words g -> decode (encode g) = g.
Proof.
  intros (H1 & H2 & H3 & H4 & H5 & H6 & H7). unfold decode, encode. cbn -[le32 Z.mul].
  destruct g as [a b c d e f h]. simpl in *.
  f_equal; (etrans; [|apply un_le32_le32]); try eassumption; reflexivity.
Qed.

Lemma len_encode g : len (encode g) = SIZEOF_DISK_LOG.
Proof. done. Qed.

Lemma bytes_encode g : bytes (encode g).
Proof. unfold encode. repeat (apply Forall_app; split; [apply bytes_le32|]). apply bytes_le32. Qed.

(** ** The ring *)

(** The last [n] elements. *)
Definition lastn {A} (n : Z) (l : list A) : list A := drop (Z.to_nat (len l - n)) l.

(** The bytes of [pv] from [start] on, [size] of them, hold the last [d]
    bytes of the stream [h]: byte [j] of it at place [j] modulo [size]. *)
Definition ring (start size : Z) (pv h : list Z) (d : Z) : Prop :=
  0 <= d <= size /\ d <= len h /\
  forall j, len h - d <= j < len h -> pv !! Z.to_nat (start + j mod size) = h !! Z.to_nat j.

Lemma mod_near s a e : 0 < s -> - s < a - e < 0 -> a mod s <> e mod s.
Proof.
  intros Hs Hae E. pose proof (Z.div_mod a s ltac:(lia)) as H1. pose proof (Z.div_mod e s ltac:(lia)) as H2.
  rewrite E in H1. generalize dependent (a / s). generalize dependent (e / s). intros q' H2 q H1.
  assert (a - e = s * (q - q')) as Hq by (rewrite Z.mul_sub_distr_l; lia).
  clear E H1 H2. destruct (Z.le_gt_cases 0 (q - q')); nia.
Qed.

Lemma mod_step s a n : 0 < s -> 0 <= n -> a mod s + n < s -> (a + n) mod s = a mod s + n.
Proof.
  intros. pose proof (Z.mod_pos_bound a s ltac:(lia)). rewrite <- Zplus_mod_idemp_l. apply Z.mod_small. lia.
Qed.

(** Writing on, up to the end of the ring. *)
Lemma ring_write start size pv h d c :
  0 < size -> 0 <= start -> start + size <= len pv -> len h mod size + len c <= size -> ring start size pv h d ->
  ring start size (splice pv (start + len h mod size) c) (h ++ c) (Z.min (d + len c) size).
Proof.
  intros Hs Hst Hpv Hc (Hd1 & Hd2 & Hr). pose proof (len_nonneg c). pose proof (len_nonneg h).
  pose proof (Z.mod_pos_bound (len h) size ltac:(lia)) as Hm.
  split; [lia|]. rewrite len_app. split; [lia|]. intros j Hj.
  rewrite lookup_splice by lia. pose proof (Z.mod_pos_bound j size ltac:(lia)).
  destruct (decide (len h <= j)) as [Hge|Hlt].
  - set (e := j - len h). assert (j mod size = len h mod size + e) as Ej.
    { replace j with (len h + e) by lia. apply mod_step; lia. }
    rewrite Ej, decide_True by (unfold len in *; lia). rewrite lookup_app_r by (unfold len in *; lia).
    f_equal. unfold len in *. lia.
  - rewrite decide_False.
    + rewrite Hr by lia. by rewrite lookup_app_l by (unfold len in *; lia).
    + intros Hin. set (e := j mod size - len h mod size).
      assert (0 <= e < len c) as He by (unfold len in *; lia).
      apply (mod_near size j (len h + e)); [lia|lia|]. rewrite mod_step by lia. lia.
Qed.

(** The header and the ring of a log. *)
Record log_ok (plen : Z) (g : disk_log) (pv h : list Z) : Prop := {
  lo_magic : lg_magic g = DISKLOG_MAGIC;
  lo_start : SIZEOF_DISK_LOG <= lg_start g;
  lo_size : 0 < lg_size g < 2 ^ 31;
  lo_end : lg_end g = lg_start g + lg_size g;
  lo_len : lg_end g <= plen /\ plen < 2 ^ 32;
  lo_wr : lg_wr_ofs g = lg_start g + len h mod lg_size g;
  lo_rd : lg_rd_ofs g = lg_start g + (len h - lg_d_size g) mod lg_size g;
  lo_ring : ring (lg_start g) (lg_size g) pv h (lg_d_size g) }.

(** The log [g] on the partition contents [pv] holds the bytes [L]. *)
Definition log_holds (plen : Z) (g : disk_log) (pv L : list Z) : Prop :=
  exists h, log_ok plen g pv h /\ L = lastn (lg_d_size g) h.

Lemma log_words plen g pv h : log_ok plen g pv h -> words g.
Proof.
  intros [Hm Hs Hz He Hl Hw Hr (Hd & _)]. unfold words, SIZEOF_DISK_LOG, DISKLOG_MAGIC in *.
  pose proof (Z.mod_pos_bound (len h) (lg_size g) ltac:(lia)).
  pose proof (Z.mod_pos_bound (len h - lg_d_size g) (lg_size g) ltac:(lia)). lia.
Qed.

Lemma log_ok_ext plen g pv pv' h :
  (forall k, lg_start g <= Z.of_nat k < lg_end g -> pv' !! k = pv !! k) ->
  log_ok plen g pv h -> log_ok plen g pv' h.
Proof.
  intros He [? Hs Hz Hend ? ? ? (Hd1 & Hd2 & Hr)]. split; try done. split; [done|]. split; [done|].
  intros j Hj. pose proof (Z.mod_pos_bound j (lg_size g) ltac:(lia)).
  rewrite <- Hr by done. apply He. unfold SIZEOF_DISK_LOG in Hs. lia.
Qed.

Lemma lastn_app {A} n d (h c : list A) :
  0 <= d <= len h -> d <= n -> lastn n (lastn d h ++ c) = lastn (Z.min (d + len c) n) (h ++ c).
Proof.
  intros Hd Hn. pose proof (len_nonneg c). unfold lastn at 2.
  assert (len (drop (Z.to_nat (len h - d)) h) = d) as El by (unfold len in *; rewrite length_drop; lia).
  unfold lastn. rewrite !len_app, El.
  replace (drop (Z.to_nat (len h - d)) h ++ c) with (drop (Z.to_nat (len h - d)) (h ++ c)).
  - rewrite drop_drop. f_equal. lia.
  - rewrite drop_app_le; [done|]. unfold len in *. lia.
Qed.

Section Log.
Context {S : Type} `{HS : ByteStore S} (t : ptable) (i : nat) (d : Z) (p : disk_partition).
Context (Hp : placed t i d p) (Hlen32 : dp_len p < 2 ^ 32).

Abbreviation pv V := (pview d p V).

(** What lies outside of the log's partition stays. *)
Definition elsewhere (V V' : Z -> list Z) : Prop :=
  forall j d' p', placed t j d' p' -> apart d p d' p' -> pview d' p' V' = pview d' p' V.

Lemma elsewhere_refl V : elsewhere V V.
Proof. by intros j d' p' _ _. Qed.
Lemma elsewhere_trans V1 V2 V3 : elsewhere V1 V2 -> elsewhere V2 V3 -> elsewhere V1 V3.
Proof. intros H1 H2 j d' p' Hj Ha. by rewrite (H2 j d' p' Hj Ha), (H1 j d' p' Hj Ha). Qed.

Lemma len_pv s V : bs_rep s V -> len (pv V) = dp_len p.
Proof.
  intros HR. destruct Hp as (_ & _ & n & Hn & Ho & Hl & Hb). destruct (bs_len s V d n HR Hn) as [Hlen _].
  unfold pview. apply len_slice; lia.
Qed.

(** A write inside of the partition. *)
Lemma part_write s V addr buf :
  bs_rep s V -> bytes buf -> 0 <= addr -> 0 < len buf < 2 ^ 31 -> addr + len buf <= dp_len p ->
  exists s' V', lgpt_write t (Top i) addr buf s = Done (len buf, s') /\ bs_rep s' V' /\
    pv V' = splice (pv V) addr buf /\ elsewhere V V'.
Proof.
  intros HR Hb Ha Hl Hle. pose proof (lgpt_write_ok t i d p s V addr buf HR Hp Hb ltac:(lia) Hl) as Hw.
  rewrite (proj2 (Z.leb_le _ _)) in Hw by lia. destruct Hw as (s' & V' & E & HR' & HV1 & HV2).
  exists s', V'. split_and!; try done.
  - by apply (pview_write t i d p d p i s V V' addr buf HR Hp Hp Ha Hle HV1 HV2).
  - intros j d' p' Hj Hap. by apply (pview_write t i d p d' p' j s V V' addr buf HR Hp Hj Ha Hle HV1 HV2).
Qed.

Lemma part_read s V addr size :
  bs_rep s V -> 0 <= addr -> 0 <= size < 2 ^ 31 -> addr + size <= dp_len p ->
  exists s', lgpt_read t (Top i) addr size s = Done (size, slice (pv V) addr size, s') /\ bs_rep s' V.
Proof.
  intros HR Ha Hs Hle. destruct (decide (addr < 2 ^ 32)) as [Hlt|Hge].
  - pose proof (lgpt_read_ok t i d p s V addr size HR Hp ltac:(lia) Hs) as Hr.
    by rewrite (proj2 (Z.leb_le _ _)) in Hr by lia.
  - lia.
Qed.

(** Saving the header changes nothing of the ring. *)
Lemma save_ok x V h :
  dp_dev x = Some (Top i) -> bs_rep (store x) V -> log_ok (dp_len p) (log_file x) (pv V) h ->
  exists s' V', logfile_save t x = Done (set_store s' x) /\ bs_rep s' V' /\
    log_ok (dp_len p) (log_file x) (pv V') h /\ elsewhere V V' /\
    slice (pv V') 0 SIZEOF_DISK_LOG = encode (log_file x).
Proof.
  intros Hd HR HL. unfold logfile_save, get_dev. rewrite Hd. cbn [obind].
  pose proof (lo_start _ _ _ _ HL) as Hst. pose proof (lo_len _ _ _ _ HL) as [Hl1 Hl2].
  pose proof (lo_end _ _ _ _ HL). pose proof (lo_size _ _ _ _ HL). unfold SIZEOF_DISK_LOG in *.
  destruct (part_write (store x) V 0 (encode (log_file x)) HR (bytes_encode _)) as (s' & V' & -> & HR' & Epv & Hel);
    [lia|by rewrite len_encode|rewrite len_encode; unfold SIZEOF_DISK_LOG; lia|].
  cbn [obind fst snd]. rewrite len_encode. exists s', V'. split; [done|]. split; [done|].
  pose proof (len_pv _ _ HR) as Hlp.
  split_and!; [|done|].
  - eapply log_ok_ext; [|exact HL]. intros k Hk. rewrite Epv, lookup_splice.
    + rewrite decide_False; [done|]. unfold len in *. pose proof (len_encode (log_file x)).
      unfold SIZEOF_DISK_LOG, len in *. lia.
    + lia.
    + rewrite len_encode. unfold SIZEOF_DISK_LOG. lia.
  - rewrite Epv. apply (slice_splice_same (pv V) 0 (encode (log_file x))); [lia|].
    rewrite len_encode. unfold SIZEOF_DISK_LOG. lia.
Qed.

(** The loop of [disklog_input]. *)
Lemma input_loop_ok g fuel : forall buf h dd s V,
  SIZEOF_DISK_LOG <= lg_start g -> 0 < lg_size g < 2 ^ 31 -> lg_end g = lg_start g + lg_size g ->
  lg_end g <= dp_len p -> bs_rep s V -> bytes buf -> len buf < 2 ^ 31 -> (length buf <= fuel)%nat ->
  ring (lg_start g) (lg_size g) (pv V) h dd ->
  exists r s' V', input_loop t fuel (Top i) g buf (lg_start g + len h mod lg_size g) s =
      Done (r, lg_start g + len (h ++ buf) mod lg_size g, 0, s') /\ 0 < r /\ bs_rep s' V' /\ elsewhere V V' /\
    ring (lg_start g) (lg_size g) (pv V') (h ++ buf) (Z.min (dd + len buf) (lg_size g)).
Proof.
  assert (forall (h : list Z) dd V, ring (lg_start g) (lg_size g) (pv V) h dd ->
    ring (lg_start g) (lg_size g) (pv V) h (Z.min (dd + 0) (lg_size g))) as Hmin.
  { intros h dd V Hr. destruct Hr as (? & ? & ?). rewrite Z.add_0_r, Z.min_l by lia. done. }
  induction fuel as [|fuel IH]; intros buf h dd s V Hst Hsz Hend Hle HR Hb Hl Hf Hring; simpl.
  { destruct buf; [|simpl in Hf; lia]. exists 1, s, V. rewrite app_nil_r. split_and!; try done;
    first [apply elsewhere_refl|by apply Hmin]. }
  destruct (Z.eqb_spec (len buf) 0) as [Hz|Hz].
  { destruct buf; [|done]. exists 1, s, V. rewrite app_nil_r. split_and!; try done;
    first [apply elsewhere_refl|by apply Hmin]. }
  pose proof (len_nonneg buf). unfold SIZEOF_DISK_LOG in *.
  set (size := lg_size g) in *. set (m := len h mod size).
  pose proof (Z.mod_pos_bound (len h) size ltac:(lia)) as Hm. fold m in Hm.
  rewrite Hend. replace (lg_start g + size - (lg_start g + m)) with (size - m) by lia.
  rewrite (wrap_small 32 (size - m)) by (split; lia).
  set (n := Z.min (size - m) (len buf)). set (b1 := take (Z.to_nat n) buf). set (b2 := drop (Z.to_nat n) buf).
  assert (buf = b1 ++ b2) as Eb by (symmetry; apply take_drop).
  assert (len b1 = n) as E1 by (unfold len, b1; rewrite length_take; unfold len in *; lia).
  assert (len b2 = len buf - n) as E2 by (rewrite Eb, len_app; lia).
  assert (bytes b1 /\ bytes b2) as [Hb1 Hb2] by (by rewrite Eb in Hb; apply Forall_app).
  destruct (part_write s V (lg_start g + m) b1 HR Hb1) as (s1 & V1 & -> & HR1 & Epv & Hel1); [lia..|].
  cbn [obind fst snd]. rewrite E1, (proj2 (Z.leb_gt _ _)) by lia.
  rewrite (wrap_small 32 (lg_start g + m + n)) by (split; lia).
  assert (ring (lg_start g) size (pv V1) (h ++ b1) (Z.min (dd + n) size)) as Hring1.
  { rewrite Epv, <- E1. apply ring_write; try done; try lia. rewrite (len_pv _ _ HR). lia. }
  assert ((if lg_start g + size <=? lg_start g + m + n then lg_start g else lg_start g + m + n) =
          lg_start g + len (h ++ b1) mod size) as ->.
  { rewrite len_app, E1. destruct (Z.leb_spec (lg_start g + size) (lg_start g + m + n)).
    - assert (n = size - m) as -> by lia. unfold m.
      replace (len h + (size - len h mod size)) with ((len h / size + 1) * size).
      + rewrite Z.mod_mul; lia.
      + pose proof (Z.div_mod (len h) size ltac:(lia)). lia.
    - rewrite mod_step; lia. }
  destruct (IH b2 (h ++ b1) (Z.min (dd + n) size) s1 V1) as (r & s2 & V2 & E & Hr & HR2 & Hel2 & Hring2);
    try done; [lia|unfold len in *; lia|].
  exists r, s2, V2. rewrite E, <- app_assoc, <- Eb. split_and!; try done; [by eapply elsewhere_trans|].
  rewrite <- app_assoc, <- Eb in Hring2. replace (Z.min (dd + len buf) size) with
    (Z.min (Z.min (dd + n) size + len b2) size) by lia. done.
Qed.

Definition log_state (x : dstate) (V : Z -> list Z) (L : list Z) : Prop :=
  dp_dev x = Some (Top i) /\ bs_rep (store x) V /\ log_holds (dp_len p) (log_file x) (pv V) L.

Lemma input_ok x V L buf :
  log_state x V L -> bytes buf -> 0 < len buf < 2 ^ 31 ->
  exists x' V', disklog_input t (Some buf) x = Done (0, x') /\
    log_state x' V' (lastn (lg_size (log_file x)) (L ++ buf)) /\ elsewhere V V' /\
    slice (pv V') 0 SIZEOF_DISK_LOG = encode (log_file x') /\ lg_size (log_file x') = lg_size (log_file x).
Proof.
  intros (Hd & HR & h & HL & ->) Hb Hl. pose proof HL as [Hmg Hst Hsz Hend Hln Hwr Hrd Hring].
  unfold disklog_input, get_dev. rewrite Hd. cbn [obind]. rewrite (proj2 (Z.eqb_neq _ 0)) by lia.
  destruct (input_loop_ok (log_file x) (length buf) buf h (lg_d_size (log_file x)) (store x) V) as
    (r & s1 & V1 & E & Hr & HR1 & Hel1 & Hring1); try done; try lia.
  rewrite Hwr, E. cbn [obind fst snd]. rewrite (proj2 (Z.leb_gt r 0)) by lia.
  pose proof Hring as (Hd1 & Hd2 & _). rewrite (wrap_small 32 (_ + len buf)) by (split; lia).
  set (g := log_file x) in *. rewrite Z.gtb_ltb.
  set (g' := if lg_size g <? lg_d_size g + len buf then _ else _).
  assert (log_ok (dp_len p) g' (pv V1) (h ++ buf) /\ lg_d_size g' = Z.min (lg_d_size g + len buf) (lg_size g)) as [HL1 Ed].
  { unfold g'. destruct (Z.ltb_spec (lg_size g) (lg_d_size g + len buf)) as [Hlt|Hge].
    - split; [|simpl; lia]. split; simpl; try done.
      + f_equal. rewrite <- (Z_mod_plus_full (len (h ++ buf) - lg_size g) 1 (lg_size g)). f_equal. lia.
      + by rewrite Z.min_r in Hring1 by lia.
    - split; [|simpl; lia]. split; simpl; try done.
      + rewrite Hrd, len_app. do 2 f_equal. lia.
      + by rewrite Z.min_l in Hring1 by lia. }
  destruct (save_ok (set_store s1 (set_log g' x)) V1 (h ++ buf) Hd HR1 HL1) as (s2 & V2 & -> & HR2 & HL2 & Hel2 & Hhd).
  cbn [obind]. eexists _, V2. split; [done|]. split_and!; try done.
  - split; [done|]. split; [done|]. exists (h ++ buf). split; [exact HL2|]. simpl. rewrite Ed. apply lastn_app; lia.
  - by eapply elsewhere_trans.
  - simpl. unfold g'. by destruct (_ <? _).
Qed.

(** ** Output *)

Lemma lookup_lastn {A} n (l : list A) k : 0 <= n <= len l ->
  lastn n l !! k = l !! (Z.to_nat (len l - n) + k)%nat.
Proof. intros. unfold lastn. by rewrite lookup_drop. Qed.

(** A piece of the ring up to its end is a piece of the stream. *)
Lemma ring_piece start size pv h dd rem n :
  0 < size -> 0 <= start -> start + size <= len pv -> ring start size pv h dd -> 0 <= n <= rem -> rem <= dd ->
  (len h - rem) mod size + n <= size ->
  slice pv (start + (len h - rem) mod size) n = slice h (len h - rem) n.
Proof.
  intros Hs Hst Hpv (Hd1 & Hd2 & Hr) Hn Hrem Hm. apply list_eq. intros k. rewrite !lookup_slice.
  case_decide; [|done]. pose proof (Z.mod_pos_bound (len h - rem) size ltac:(lia)).
  replace (Z.to_nat (len h - rem) + k)%nat with (Z.to_nat (len h - rem + Z.of_nat k)) by lia.
  rewrite <- Hr by lia. f_equal. rewrite mod_step by lia. lia.
Qed.

Lemma output_loop_ok g output maxsize fuel : forall h rem acc s V,
  (forall l, output l = true) -> 0 < maxsize ->
  0 <= lg_start g -> 0 < lg_size g < 2 ^ 31 -> lg_end g = lg_start g + lg_size g -> lg_end g <= dp_len p ->
  bs_rep s V -> ring (lg_start g) (lg_size g) (pv V) h (lg_d_size g) -> 0 <= rem <= lg_d_size g ->
  (Z.to_nat rem <= fuel)%nat ->
  exists chunks s', output_loop t fuel output (Top i) g maxsize rem (lg_start g + (len h - rem) mod lg_size g) acc s =
      Done (0, acc ++ chunks, s') /\ bs_rep s' V /\ concat chunks = lastn rem h /\
      Forall (fun c => 0 < len c <= maxsize) chunks.
Proof.
  intros h rem acc s V Ho Hmax Hst Hsz Hend Hle. revert rem acc s.
  induction fuel as [|fuel IH]; intros rem acc s HR Hring Hrem Hf; simpl.
  { assert (rem = 0) as -> by lia. exists [], s. rewrite app_nil_r. split_and!; try done.
    unfold lastn. rewrite Z.sub_0_r. unfold len. rewrite Nat2Z.id. by rewrite drop_all. }
  destruct (Z.eqb_spec rem 0) as [->|Hz].
  { exists [], s. rewrite app_nil_r. split_and!; try done.
    unfold lastn. rewrite Z.sub_0_r. unfold len. rewrite Nat2Z.id. by rewrite drop_all. }
  pose proof Hring as (Hd1 & Hd2 & _).
  set (size := lg_size g) in *. set (m := (len h - rem) mod size).
  pose proof (Z.mod_pos_bound (len h - rem) size ltac:(lia)) as Hm. fold m in Hm.
  rewrite Hend. replace (lg_start g + size - (lg_start g + m)) with (size - m) by lia.
  rewrite (wrap_small 32 (size - m)), (wrap_small 32 (Z.min (size - m) rem)) by (split; lia).
  set (n := Z.min (Z.min (size - m) rem) maxsize).
  destruct (part_read s V (lg_start g + m) n HR) as (s1 & -> & HR1); [lia..|].
  cbn [obind fst snd]. rewrite (proj2 (Z.leb_gt n 0)), Ho by lia. cbn [negb].
  rewrite (wrap_small 32 (lg_start g + m + n)) by (split; lia).
  assert (slice (pv V) (lg_start g + m) n = slice h (len h - rem) n) as Ep.
  { apply (ring_piece (lg_start g) size (pv V) h (lg_d_size g) rem n); try done; try lia.
    rewrite (len_pv _ _ HR). lia. }
  assert ((if lg_start g + size <=? lg_start g + m + n then lg_start g else lg_start g + m + n) =
          lg_start g + (len h - (rem - n)) mod size) as ->.
  { replace (len h - (rem - n)) with (len h - rem + n) by lia.
    destruct (Z.leb_spec (lg_start g + size) (lg_start g + m + n)).
    - assert (n = size - m) as -> by lia. unfold m.
      replace (len h - rem + (size - (len h - rem) mod size)) with (((len h - rem) / size + 1) * size).
      + rewrite Z.mod_mul; lia.
      + pose proof (Z.div_mod (len h - rem) size ltac:(lia)). lia.
    - rewrite mod_step; lia. }
  destruct (IH (rem - n) (acc ++ [slice (pv V) (lg_start g + m) n]) s1) as (chunks & s2 & -> & HR2 & Ec & Hc);
    [done|done|lia|lia|].
  exists (slice (pv V) (lg_start g + m) n :: chunks), s2. rewrite <- app_assoc. split_and!; try done.
  - simpl. rewrite Ec, Ep. unfold lastn, slice.
    replace (Z.to_nat (len h - (rem - n))) with (Z.to_nat (len h - rem) + Z.to_nat n)%nat by lia.
    rewrite <- drop_drop. apply take_drop.
  - constructor; [|done]. rewrite Ep. rewrite len_slice; lia.
Qed.

Lemma output_ok x V L output maxsize :
  log_state x V L -> (forall l, output l = true) -> 0 <= maxsize ->
  exists chunks s', disklog_ouput t (Some output) maxsize true x = Done (0, chunks, set_store s' x) /\
    bs_rep s' V /\ concat chunks = L /\
    Forall (fun c => 0 < len c <= (if maxsize =? 0 then 1024 else maxsize)) chunks.
Proof.
  intros (Hd & HR & h & HL & ->) Ho Hmax. pose proof HL as [Hmg Hst Hsz Hend Hln Hwr Hrd Hring].
  unfold disklog_ouput, get_dev. rewrite Hd. cbn [obind negb]. set (mx := if maxsize =? 0 then 1024 else maxsize).
  assert (0 < mx) as Hmx by (unfold mx; destruct (Z.eqb_spec maxsize 0); lia).
  pose proof Hring as (Hd1 & _). unfold SIZEOF_DISK_LOG in *. rewrite Hrd.
  destruct (output_loop_ok (log_file x) output mx (Z.to_nat (lg_d_size (log_file x))) h (lg_d_size (log_file x)) [] (store x) V)
    as (chunks & s' & -> & ?); try done; try lia. exists chunks, s'. done.
Qed.

(** ** Start *)

Lemma disklog_init_ok x V L g blksz :
  initialized x = false -> disk_partition_find t "syslog" = Done (Some (Top i)) -> bs_rep (store x) V ->
  log_holds (dp_len p) g (pv V) L -> slice (pv V) 0 SIZEOF_DISK_LOG = encode g ->
  exists x', disklog_init t blksz x = Done (0, x') /\ log_state x' V L /\ log_file x' = g.
Proof.
  intros Hi Hf HR (h & HL & ->) Hhd. unfold disklog_init. rewrite Hi, Hf. cbn [obind].
  pose proof HL as [Hmg Hst Hsz Hend Hln _ _ _]. unfold SIZEOF_DISK_LOG in *.
  destruct (part_read (store x) V 0 28 HR) as (s1 & -> & HR1); [lia..|].
  cbn [obind fst snd]. rewrite (proj2 (Z.ltb_ge 28 0)) by lia. rewrite Hhd.
  rewrite (decode_encode g) by (by eapply log_words). cbn [log_file set_log]. rewrite Hmg, Z.eqb_refl. cbn [negb obind].
  eexists. split; [done|]. split; [|done]. split; [done|]. split; [done|]. exists h. done.
Qed.

(** An empty log. *)
Lemma reset_ok x V blksz :
  dp_dev x = Some (Top i) -> bs_rep (store x) V -> SIZEOF_DISK_LOG <= blksz -> 2 * blksz <= dp_len p -> dp_len p < 2 ^ 31 ->
  exists x' V', disklog_reset t blksz x = Done x' /\ log_state x' V' [] /\ elsewhere V V' /\
    slice (pv V') 0 SIZEOF_DISK_LOG = encode (log_file x') /\
    lg_size (log_file x') = (dp_len p - blksz) / blksz * blksz.
Proof.
  intros Hd HR Hb Hl Hl31. unfold disklog_reset, disklog_reset_locked, get_dev. rewrite Hd. cbn [obind].
  destruct (placed_find t i d p Hp) as [-> _]. cbn [obind snd]. unfold SIZEOF_DISK_LOG in *.
  rewrite (proj2 (Z.eqb_neq blksz 0)) by lia. cbn [negb].
  rewrite (wrap_small 32 blksz), (wrap_small 64 (dp_len p - blksz)) by (split; lia).
  assert (1 <= (dp_len p - blksz) / blksz) by (apply Z.div_le_lower_bound; lia).
  pose proof (Z.mul_div_le (dp_len p - blksz) blksz ltac:(lia)).
  set (size := (dp_len p - blksz) / blksz * blksz). assert (blksz <= size <= dp_len p - blksz) as Hs by (unfold size; nia).
  rewrite (wrap_small 32 size), (wrap_small 32 (blksz + size)) by (split; lia).
  set (g := mk_log _ _ _ _ _ _ _).
  assert (log_ok (dp_len p) g (pv V) []) as HL.
  { split; simpl; try done; try lia; [by rewrite Z.mod_0_l; lia|by rewrite Z.mod_0_l; lia|].
    split; [lia|]. split; [done|]. intros j Hj. unfold len in Hj; simpl in Hj; lia. }
  destruct (save_ok (set_log g x) V [] Hd HR HL) as (s2 & V2 & -> & HR2 & HL2 & Hel2 & Hhd).
  eexists _, V2. split; [done|]. split_and!; try done. split; [done|]. split; [done|]. exists []. done.
Qed.

(** A partition without the magic number gets an empty log. *)
Lemma disklog_init_new x V blksz :
  initialized x = false -> disk_partition_find t "syslog" = Done (Some (Top i)) -> bs_rep (store x) V ->
  un_le32 (slice (pv V) 0 4) <> DISKLOG_MAGIC -> SIZEOF_DISK_LOG <= blksz -> 2 * blksz <= dp_len p -> dp_len p < 2 ^ 31 ->
  exists x' V', disklog_init t blksz x = Done (0, x') /\ log_state x' V' [] /\ elsewhere V V' /\
    slice (pv V') 0 SIZEOF_DISK_LOG = encode (log_file x') /\
    lg_size (log_file x') = (dp_len p - blksz) / blksz * blksz.
Proof.
  intros Hi Hf HR Hm Hb Hl Hl31. unfold disklog_init. rewrite Hi, Hf. cbn [obind]. unfold SIZEOF_DISK_LOG in *.
  destruct (part_read (store x) V 0 28 HR) as (s1 & -> & HR1); [lia..|].
  cbn [obind fst snd]. rewrite (proj2 (Z.ltb_ge 28 0)) by lia. cbn [log_file set_log].
  assert (lg_magic (decode (slice (pv V) 0 28)) = un_le32 (slice (pv V) 0 4)) as ->.
  { cbn [decode lg_magic]. f_equal. unfold slice. rewrite !drop_0, take_take. done. }
  rewrite (proj2 (Z.eqb_neq _ _) Hm). cbn [negb].
  match goal with |- context [disklog_reset_locked t blksz ?y] =>
    destruct (reset_ok y V blksz eq_refl HR1 Hb Hl Hl31) as (x' & V' & E & HL & Hel & Hhd & Es) end.
  change (disklog_reset_locked t blksz) with (disklog_reset t blksz). rewrite E. cbn [obind].
  eexists _, V'. split; [done|]. split; [|done]. destruct HL as (H1 & H2 & H3). done.
Qed.

End Log.

(** ** Traces *)

Lemma lastn_all {A} n (l : list A) : len l <= n -> lastn n l = l.
Proof. intros. unfold lastn. by rewrite Z2Nat.nonpos by lia. Qed.

Lemma lastn_lastn_app {A} n (l c : list A) : 0 <= n -> lastn n (lastn n l ++ c) = lastn n (l ++ c).
Proof.
  intros Hn. destruct (Z.le_gt_cases (len l) n) as [Hle|Hgt]; [by rewrite (lastn_all n l)|].
  rewrite lastn_app by lia. rewrite Z.min_r; [done|]. pose proof (len_nonneg c). lia.
Qed.

Lemma len_lastn {A} n (l : list A) : 0 <= n -> len (lastn n l) <= n.
Proof. intros. unfold lastn, len. rewrite length_drop. lia. Qed.

Fixpoint inputs {S} `{ByteStore S} (t : ptable) (bufs : list (list Z)) (x : dstate) : outcome dstate :=
  match bufs with
  | [] => Done x
  | b :: bufs => let* r := disklog_input t (Some b) x in assert* r.1 =? 0 in inputs t bufs r.2
  end.

(** A freshly started program on the store. *)
Definition fresh {S} (s : S) : @dstate S :=
  let g := mk_log 0 0 0 0 0 0 0 in mk_dstate None g false g s.

Lemma inputs_ok {S} `{HS : ByteStore S} t i d p bufs : forall (x : dstate) V L,
  placed t i d p -> dp_len p < 2 ^ 32 ->
  Forall (fun b => bytes b /\ 0 < len b < 2 ^ 31) bufs -> log_state i d p x V L -> len L <= lg_size (log_file x) ->
  slice (pview d p V) 0 SIZEOF_DISK_LOG = encode (log_file x) ->
  exists x' V', inputs t bufs x = Done x' /\
    log_state i d p x' V' (lastn (lg_size (log_file x)) (L ++ concat bufs)) /\ elsewhere t d p V V' /\
    slice (pview d p V') 0 SIZEOF_DISK_LOG = encode (log_file x') /\ lg_size (log_file x') = lg_size (log_file x).
Proof.
  induction bufs as [|b bufs IH]; intros x V L Hp Hl Hb HL HLs Hhd; simpl.
  { exists x, V. rewrite app_nil_r, lastn_all by done. split_and!; try done. }
  apply Forall_cons in Hb as [[Hb1 Hb2] Hb].
  destruct (input_ok t i d p Hp Hl x V L b HL Hb1 Hb2) as (x1 & V1 & -> & HL1 & Hel1 & Hhd1 & Es). cbn [obind fst snd].
  rewrite Z.eqb_refl. 
  assert (0 < lg_size (log_file x)) as Hpos.
  { destruct HL as (_ & _ & h & HL & _). apply (lo_size _ _ _ _ HL). }
  destruct (IH x1 V1 _ Hp Hl Hb HL1) as (x2 & V2 & -> & HL2 & Hel2 & Hhd2 & Es2); [rewrite Es; apply len_lastn; lia|done|].
  exists x2, V2. split; [done|]. split; [|split; [by eapply elsewhere_trans|split; [done|by rewrite Es2]]].
  rewrite Es, lastn_lastn_app, <- app_assoc in HL2 by lia. done.
Qed.

(** C8: The disk log keeps the last bytes written to it, through restarts that
    keep the bytes of its device. After [disklog_reset] and any sequence of
    [disklog_input] the store stands for some bytes [V'], which differ from
    those before in the partition of the log only. A new start of the program
    over any store of bytes that stands for [V'] again ([disklog_init]: the
    same store, or the one a synchronised cache has left on its medium) finds
    the log, and [disklog_ouput] gives the last [size] bytes of all that was
    written, in order and in chunks of at most the size asked for; every call
    succeeds. *)
Theorem disklog_keeps_last (S : Type) (HS : ByteStore S) (t : ptable) (i : nat) (d : Z) (p : disk_partition)
    (s : S) (V : Z -> list Z) (blksz maxsize : Z) (bufs : list (list Z)) (output : list Z -> bool) :
  placed t i d p -> disk_partition_find t "syslog" = Done (Some (Top i)) -> bs_rep s V ->
  SIZEOF_DISK_LOG <= blksz -> 2 * blksz <= dp_len p -> dp_len p < 2 ^ 31 ->
  Forall (fun b => bytes b /\ 0 < len b < 2 ^ 31) bufs -> (forall l, output l = true) -> 0 < maxsize ->
  let size := (dp_len p - blksz) / blksz * blksz in
  exists x1 x2 V',
    disklog_reset t blksz (mk_dstate (Some (Top i)) (mk_log 0 0 0 0 0 0 0) true (mk_log 0 0 0 0 0 0 0) s) = Done x1 /\
    inputs t bufs x1 = Done x2 /\ bs_rep (store x2) V' /\ elsewhere t d p V V' /\
    forall (S2 : Type) (HS2 : ByteStore S2) (s2 : S2), @placed S2 HS2 t i d p -> @bs_rep S2 HS2 s2 V' ->
      exists x3 x4 chunks,
        @disklog_init S2 HS2 t blksz (fresh s2) = Done (0, x3) /\
        @disklog_ouput S2 HS2 t (Some output) maxsize true x3 = Done (0, chunks, x4) /\
        concat chunks = lastn size (concat bufs) /\ Forall (fun c => 0 < len c <= maxsize) chunks /\
        @bs_rep S2 HS2 (store x4) V'.
Proof.
  intros Hp Hf HR Hb Hl Hl31 Hbufs Ho Hmax size. assert (dp_len p < 2 ^ 32) as Hl32 by lia.
  destruct (reset_ok t i d p Hp Hl32 (mk_dstate (Some (Top i)) (mk_log 0 0 0 0 0 0 0) true (mk_log 0 0 0 0 0 0 0) s) V blksz eq_refl HR Hb Hl Hl31) as (x1 & V1 & -> & HL1 & Hel1 & Hhd1 & Es).
  assert (0 <= size) as Hs by (unfold size, SIZEOF_DISK_LOG in *; apply Z.mul_nonneg_nonneg; [apply Z.div_pos|]; lia).
  destruct (inputs_ok t i d p bufs x1 V1 [] Hp Hl32 Hbufs HL1) as (x2 & V2 & E2 & HL2 & Hel2 & Hhd2 & _); [by rewrite Es|done|].
  destruct HL2 as (_ & HR2 & HL2). rewrite Es in HL2. fold size in HL2.
  exists x1, x2, V2. split; [done|]. split; [done|]. split; [done|]. split; [by eapply elsewhere_trans|].
  intros S2 HS2 s2 Hp2 HRs.
  destruct (disklog_init_ok t i d p Hp2 Hl32 (fresh s2) V2 _ (log_file x2) blksz eq_refl Hf HRs HL2 Hhd2) as (x3 & E3 & HL3 & _).
  destruct (output_ok t i d p Hp2 Hl32 x3 V2 _ output maxsize HL3 Ho ltac:(lia)) as (chunks & s4 & E4 & HR4 & Ec & Hc).
  rewrite (proj2 (Z.eqb_neq maxsize 0)) in Hc by lia.
  exists x3, (set_store s4 x3), chunks. by split_and!.
Qed.

(** *** Witness: a log of three blocks of 32 bytes *)

Definition dev_2 : disk_device := mk_disk_device "flash" (Some 1) 0 256 32 true true true true None.
Definition devs_2 (d : Z) : disk_device :=
  if d =? 1 then dev_2 else mk_disk_device "none" None 0 0 0 false false false false None.
Definition chips_2 : chips := {[1 := replicate 256 255]}.

Lemma dev_ok_2 d : dev_ok devs_2 d <-> d = 1.
Proof.
  split.
  - intros [_ _ _ _ Hl _ _]. unfold devs_2 in Hl. destruct (Z.eqb_spec d 1); [done|]. simpl in Hl. lia.
  - intros ->. split; [done|exists 5; done|done|exists 8; done|done|done|exists 32; done].
Qed.

Lemma distinct_2 : distinct_chips devs_2.
Proof. by intros d d' ->%dev_ok_2 ->%dev_ok_2. Qed.

Definition bcache_2 : bcache chips :=
  mk_bcache false true ((fun m => mk_bh 0 m 0 BH_STATE_INVALD 0) <$> mem_1) [3; 2; 1; 0]%nat [] 0 0 chips_2.
Definition flat_2 (d : Z) : list Z := fl_content (handle (devs_2 d)) chips_2.

Lemma bcache_2_inv : binv devs_2 [] false bcache_2 flat_2.
Proof.
  destruct (blkdev_init_ok devs_2 chips_2 mem_1 (proj1 mem_1_ok) (proj2 mem_1_ok)) as (c & E & HI).
  - intros d ->%dev_ok_2. split; [done|]. change (bytes (replicate 256 255)). by apply bytes_replicate.
  - assert (c = bcache_2) as ->; [|done]. injection E as <-. reflexivity.
Qed.

Definition store_2 : ByteStore (bcache chips) := blkdev_store devs_2 distinct_2.
Definition part_log : disk_partition := mk_part "syslog" (Some "flash"%string) 64 128 None.
Definition ptable_2 : ptable := mk_ptable (Some [mk_part "boot" (Some "flash"%string) 0 64 None; part_log]) [1; 1].

Lemma placed_2 : @placed _ store_2 ptable_2 1 1 part_log.
Proof.
  split; [done|]. split; [done|]. exists 256. split; [|done].
  unfold store_2, blkdev_store. cbn [bs_size]. case_decide as Hn; [done|]. destruct Hn. by apply dev_ok_2.
Qed.

Lemma disklog_keeps_last_witness :
  exists x1 x2 x3 x4 chunks V',
    @disklog_reset _ store_2 ptable_2 32 (mk_dstate (Some (Top 1)) (mk_log 0 0 0 0 0 0 0) true (mk_log 0 0 0 0 0 0 0) bcache_2) = Done x1 /\
    @inputs _ store_2 ptable_2 [replicate 50 1; [2; 3; 4]; replicate 60 5] x1 = Done x2 /\
    @disklog_init _ store_2 ptable_2 32 (fresh (store x2)) = Done (0, x3) /\
    @disklog_ouput _ store_2 ptable_2 (Some (fun _ => true)) 40 true x3 = Done (0, chunks, x4) /\
    concat chunks = lastn 96 (concat [replicate 50 1; [2; 3; 4]; replicate 60 5]) /\ Forall (fun c => 0 < len c <= 40) chunks /\
    @bs_rep _ store_2 (store x4) V' /\ @elsewhere _ store_2 ptable_2 1 part_log flat_2 V'.
Proof.
  edestruct (disklog_keeps_last _ store_2 ptable_2 1 1 part_log bcache_2 flat_2 32 40
    [replicate 50 1; [2; 3; 4]; replicate 60 5] (fun _ => true) placed_2) as (x1 & x2 & V' & E1 & E2 & HR & He & Hall).
  9: { destruct (Hall _ store_2 (store x2) placed_2 HR) as (x3 & x4 & chunks & E3 & E4 & Ec & Hc & HR4).
    exists x1, x2, x3, x4, chunks, V'. split_and!; [exact E1|exact E2|exact E3|exact E4|exact Ec|exact Hc|exact HR4|exact He]. }
  - reflexivity.
  - exact bcache_2_inv.
  - vm_compute. discriminate.
  - vm_compute. discriminate.
  - reflexivity.
  - rewrite !Forall_cons, Forall_nil.
    repeat match goal with |- _ /\ _ => split end; try done; try by apply bytes_replicate.
    repeat (constructor; [lia|]). constructor.
  - reflexivity.
  - reflexivity.
Defined.

(** [disklog_read] of a log that wraps around the end of the ring reads
    the second piece over the first, at the start of the caller's buffer, and
    returns the length of the last piece only: of the bytes 5 to 100 it leaves
    97 to 100 at the start of the buffer, then 9 to 96, and returns 4. *)
Theorem disklog_read_wraps_over :
  let text := Z.of_nat <$> seq 1 100 in
  exists x1 x2 r, @disklog_reset _ store_2 ptable_2 32
      (mk_dstate (Some (Top 1)) (mk_log 0 0 0 0 0 0 0) true (mk_log 0 0 0 0 0 0 0) bcache_2) = Done x1 /\
    @inputs _ store_2 ptable_2 [text] x1 = Done x2 /\
    @disklog_read _ store_2 ptable_2 (Some (replicate 96 0)) true x2 = Done r /\
    r.1 = (4, (Z.of_nat <$> seq 97 4) ++ (Z.of_nat <$> seq 9 88) ++ replicate 4 0).
Proof.
  intros text. do 3 eexists. split; [vm_compute; reflexivity|]. split; [vm_compute; reflexivity|].
  split; vm_compute; reflexivity.
Qed.

End LogOk.
