(* ===== verification/SFile.v ===== *)
(** * dev/partition_file.c : the file of a partition

    A partition holds one file: twelve bytes of metadata with a checksum, and
    the bytes of the file. The operations work over any store with the
    interface of Partition. The structures are on a heap that knows which of
    them are allocated. The code unlocks mutexes in structures it has freed:
    whether the freed memory can still be used as a mutex is a parameter. *)
From Stdlib Require Import ZArith Lia Bool String.
From stdpp Require Import base list numbers gmap.
From S2P Require Import Prelude Disk Crc BlkCache BlkCacheOk Partition PartitionOk DiskLog DiskLogOk.
Import Disk Partition PartitionOk.

Module SFile.

Definition USR_FILE_MAGIC : Z := 0x3721.
Definition SFILE_METADATA_SIZE : Z := 12.

(** [struct sfile_metadata] *)
Record sfile_metadata := mk_meta { md_magic : Z; md_crc : Z; md_len : Z; md_end : Z }.

(** Its bytes: packed, little-endian. *)
Definition le16 (z : Z) : list Z := [z mod 256; (z / 256) mod 256].
Definition un_le16 (l : list Z) : Z := match l with [a; b] => a + 256 * b | _ => 0 end.
Definition encode (m : sfile_metadata) : list Z :=
  le16 (md_magic m) ++ le16 (md_crc m) ++ DiskLog.le32 (md_len m) ++ DiskLog.le32 (md_end m).
Definition decode (l : list Z) : sfile_metadata :=
  mk_meta (un_le16 (slice l 0 2)) (un_le16 (slice l 2 2)) (DiskLog.un_le32 (slice l 4 4)) (DiskLog.un_le32 (slice l 8 4)).

(** [struct sfile]; the link is the order of the list of open files. *)
Record sfile := mk_sfile {
  dp : part_ptr;
  dd : Z;
  metadata : sfile_metadata;
  base : Z;
  offset : Z;
  fsize : Z;
  refcnt : Z;
  dirty : bool;
}.

#[global] Instance part_ptr_eq : EqDecision part_ptr.
Proof. solve_decision. Defined.

Section Ops.
Context {S : Type} `{HS : ByteStore S} (t : ptable).
(** The devices by name, [blkdev_sync] of the store, and whether the mutex of a
    freed structure can be unlocked without further effect. *)
Context (disk_device_open : string -> option Z) (blkdev_sync : S -> outcome (Z * S)) (freed_ok : bool).

(** The structures that are allocated, [sfile_head], the mutexes that were
    unlocked after they were freed, the store. *)
Record fstate := mk_fstate { heap : gmap Z sfile; sfile_head : list Z; stale : list Z; store : S }.

Definition set_file (p : Z) (f : sfile) (s : fstate) : fstate := mk_fstate (<[p := f]> (heap s)) (sfile_head s) (stale s) (store s).
Definition set_store (x : S) (s : fstate) : fstate := mk_fstate (heap s) (sfile_head s) (stale s) x.

(** [*fp] *)
Definition deref (p : Z) (s : fstate) : outcome sfile := match heap s !! p with Some f => Done f | None => Undef end.

(** [MTX_UNLOCK ()] *)
Definition mtx_unlock (p : Z) (s : fstate) : outcome fstate :=
  match heap s !! p with
  | Some _ => Done s
  | None => guard* freed_ok in Done (mk_fstate (heap s) (sfile_head s) (stale s ++ [p]) (store s))
  end.

(** [sfile_read (fp, buf, size, offset)]: the result, the bytes, the state *)
Definition sfile_read (f : sfile) (size offset : Z) (s : fstate) : outcome (Z * list Z * fstate) :=
  let* r := part_range t (dp f) in
  let* x := bs_read (dd f) size (u32 (r.1 + u32 offset)) (store s) in Done (s32 x.1.1, x.1.2, set_store x.2 s).

Definition sfile_write (f : sfile) (buf : list Z) (offset : Z) (s : fstate) : outcome (Z * fstate) :=
  let* r := part_range t (dp f) in
  let* x := bs_write (dd f) buf (u32 (r.1 + u32 offset)) (store s) in Done (s32 x.1, set_store x.2 s).

Definition parent_of (ptr : part_ptr) : option string := p ← part_at t ptr; dp_parent p.

(** [sfile_open (name, found)]. [malloc] is the answer of the allocator, with
    what is in the memory: a structure whose fields have no meaning. *)
Definition sfile_open (name : string) (malloc : option (Z * sfile)) (s : fstate) : outcome (option Z * bool * fstate) :=
  let* d := disk_partition_find t name in
  match d with
  | None => Done (None, false, s)
  | Some ptr =>
      match n ← parent_of ptr; disk_device_open n with
      | None => Done (None, false, s)
      | Some dev =>
          match List.find (fun p => match heap s !! p with Some f => bool_decide (dp f = ptr) | None => false end) (sfile_head s) with
          | Some p =>
              let* f := deref p s in
              Done (Some p, true, set_file p (mk_sfile (dp f) (dd f) (metadata f) (base f) (offset f) (fsize f) (refcnt f + 1) (dirty f)) s)
          | None =>
              match malloc with
              | None => Done (None, false, s)
              | Some (p, g) =>
                  Done (Some p, false,
                    mk_fstate (<[p := mk_sfile ptr dev (metadata g) (base g) (offset g) (fsize g) (refcnt g) (dirty g)]> (heap s))
                      (p :: sfile_head s) (stale s) (store s))
              end
          end
      end
  end.

(** [sfile_close (fp)]: take it off the list and free it. *)
Definition sfile_close (p : Z) (s : fstate) : Z * fstate :=
  if bool_decide (p ∈ sfile_head s)
  then (0, mk_fstate (delete p (heap s)) (filter (fun q => q <> p) (sfile_head s)) (stale s) (store s))
  else (- ENODATA, s).

(** The loop of [usr_sfile_chksum], by blocks of 256 bytes. *)
Fixpoint chksum_loop (fuel : nat) (f : sfile) (size ofs crc : Z) (s : fstate) : outcome (Z * fstate) :=
  match fuel with
  | O => Undef
  | Datatypes.S fuel =>
      if size >? 0 then
        let bytes := Z.min 256 size in
        let* r := sfile_read f bytes ofs s in
        if negb (u64 r.1.1 =? bytes) then Done (0, r.2)
        else chksum_loop fuel f (size - bytes) (u64 (ofs + bytes)) (Crc.crc16part r.1.2 crc) r.2
      else Done (crc, s)
  end.

Definition usr_sfile_chksum (p : Z) (s : fstate) : outcome (Z * fstate) :=
  let* f := deref p s in
  let size := md_len (metadata f) in
  chksum_loop (Datatypes.S (Z.to_nat ((size + 255) / 256))) f size (base f) 0 s.

(** [usr_sfile_open (name, p)]: the result and [*p] *)
Definition usr_sfile_open (name : option string) (pp : bool) (malloc : option (Z * sfile)) (s : fstate)
    : outcome (Z * option Z * fstate) :=
  match name with
  | None => Done (- EINVAL, None, s)
  | Some name =>
      if negb pp then Done (- EINVAL, None, s)
      else
      let* o := sfile_open name malloc s in
      let '(fp, found, s) := o in
      if found then Done (0, fp, s)
      else
      match fp with
      | None => Undef                                  (* fp->dp *)
      | Some p =>
          let* f := deref p s in
          let* r := sfile_read f SFILE_METADATA_SIZE 0 s in
          let s := r.2 in
          if r.1.1 <=? 0 then let* s := mtx_unlock p (sfile_close p s).2 in Done (0, None, s)
          else
          let s := set_file p (mk_sfile (dp f) (dd f) (decode r.1.2) (base f) (offset f) (fsize f) (refcnt f) (dirty f)) s in
          let* f := deref p s in
          let* c :=
            (if negb (md_magic (metadata f) =? USR_FILE_MAGIC) then Done (true, s)
             else let* k := usr_sfile_chksum p s in Done (negb (k.1 =? md_crc (metadata f)), k.2)) in
          let s := c.2 in
          let m := if c.1 : bool then mk_meta USR_FILE_MAGIC 0 0 0 else metadata f in
          Done (0, Some p, set_file p (mk_sfile (dp f) (dd f) m SFILE_METADATA_SIZE 0 (md_len m) 1 false) s)
      end
  end.

(** [usr_sfile_invalid (fp)] *)
Definition usr_sfile_invalid (p : option Z) (s : fstate) : outcome (Z * fstate) :=
  match p with
  | None => Done (- EINVAL, s)
  | Some p =>
      let* f := deref p s in
      let m := mk_meta USR_FILE_MAGIC 0 0 0 in
      let s := set_file p (mk_sfile (dp f) (dd f) m (base f) (offset f) (fsize f) (refcnt f) (dirty f)) s in
      let* r := lgpt_write t (dp f) 0 (encode m) (store s) in
      Done (if r.1 >? 0 then 0 else r.1, set_store r.2 s)
  end.

(** [usr_sfile_write (fp, buffer, size)] *)
Definition usr_sfile_write (p : Z) (buffer : list Z) (s : fstate) : outcome (Z * fstate) :=
  let* f := deref p s in
  let size := len buffer in
  if size =? 0 then Done (0, s)
  else
  let* r := part_range t (dp f) in
  if u64 (u64 (base f + offset f) + size) >? r.2 then Done (- EINVAL, s)
  else
  let* w := sfile_write f buffer (u64 (base f + offset f)) s in
  if negb (w.1 =? s32 size) then Done (- EIO, w.2)
  else
  let ofs := u64 (offset f + w.1) in
  Done (w.1, set_file p (mk_sfile (dp f) (dd f) (metadata f) (base f) ofs (if ofs >? fsize f then ofs else fsize f) (refcnt f) true) w.2).

(** [usr_sfile_read (fp, buffer, size)]: the bytes that are read in the result *)
Definition usr_sfile_read (p size : Z) (s : fstate) : outcome (Z * list Z * fstate) :=
  let* f := deref p s in
  if size =? 0 then Done (0, [], s)
  else
  let* r := part_range t (dp f) in
  if u64 (u64 (base f + offset f) + size) >? r.2 then Done (- EINVAL, [], s)
  else
  let* w := sfile_read f size (u64 (base f + offset f)) s in
  if negb (w.1.1 =? s32 size) then Done (- EIO, w.1.2, w.2)
  else
  Done (w.1.1, w.1.2, set_file p (mk_sfile (dp f) (dd f) (metadata f) (base f) (u64 (offset f + w.1.1)) (fsize f) (refcnt f) (dirty f)) w.2).

(** [usr_sfile_setoffset (fp, offset)], with a signed offset *)
Definition usr_sfile_setoffset (p ofs : Z) (s : fstate) : outcome (Z * fstate) :=
  let* f := deref p s in
  let* r := part_range t (dp f) in
  if ofs >? s64 r.2 then Done (- EINVAL, s)
  else Done (0, set_file p (mk_sfile (dp f) (dd f) (metadata f) (base f) (u64 ofs) (fsize f) (refcnt f) (dirty f)) s).

Definition usr_sfile_size (p : Z) (s : fstate) : outcome Z := let* f := deref p s in Done (fsize f).

(** [usr_sfile_close (fp)] *)
Definition usr_sfile_close (p : Z) (s : fstate) : outcome (Z * fstate) :=
  let* f := deref p s in
  if refcnt f >? 0 then
    let s := set_file p (mk_sfile (dp f) (dd f) (metadata f) (base f) (offset f) (fsize f) (refcnt f - 1) (dirty f)) s in
    if refcnt f - 1 =? 0 then
      let* r :=
        (if dirty f then
           let m := mk_meta (md_magic (metadata f)) (md_crc (metadata f)) (u32 (fsize f)) (md_end (metadata f)) in
           let s := set_file p (mk_sfile (dp f) (dd f) m (base f) (offset f) (fsize f) 0 false) s in
           let* k := usr_sfile_chksum p s in
           let m := mk_meta (md_magic m) k.1 (md_len m) (md_end m) in
           let f := mk_sfile (dp f) (dd f) m (base f) (offset f) (fsize f) 0 false in
           let s := set_file p f k.2 in
           let* w := sfile_write f (encode m) 0 s in
           if w.1 <=? 0 then Done (Some (- EIO), w.2)
           else let* y := blkdev_sync (store w.2) in Done (None, set_store y.2 w.2)
         else Done (None, s)) in
      match r.1 with
      | Some err => let* s := mtx_unlock p r.2 in Done (err, s)
      | None => let c := sfile_close p r.2 in let* s := mtx_unlock p c.2 in Done (c.1, s)
      end
    else Done (0, s)
  else Done (0, s).
End Ops.

(** ** What a file promises *)

(** The bytes of the partition behind the metadata, the size and the position;
    whether a write was made since the file was opened; the size of the file
    that is stored (0 when its checksum is wrong), and the size in its
    metadata. *)
Record afile := mk_afile { a_view : list Z; a_size : Z; a_pos : Z; a_dirty : bool; a_stored : Z; a_len : Z }.

(** A reopening closes the file and opens it again; the allocator gives a
    structure at [q] with the contents [g]. *)
Inductive fcmd := FWrite (c : list Z) | FRead (n : Z) | FSeek (o : Z) | FSize | FReopen (q : Z) (g : sfile).

(** What an opening finds when the memory of the allocator is [g]: the file
    that is stored when its field [base] happens to be right. Otherwise the
    checksum is that of other bytes: the file is dropped, unless its checksum
    is theirs. *)
Definition opens (g : sfile) (a a' : afile) : Prop :=
  exists n, a' = mk_afile (a_view a) n 0 false (a_stored a) (a_len a) /\
    (n = 0 \/ n = a_len a) /\ (base g = SFILE_METADATA_SIZE -> n = a_stored a).

(** A closing writes the metadata when the file was written. *)
Definition closed (a : afile) : afile :=
  if a_dirty a then mk_afile (a_view a) (a_size a) (a_pos a) false (a_size a) (a_size a) else a.

(** The result, the bytes, and the file afterwards. *)
Definition afile_step (c : fcmd) (a : afile) (r : Z * list Z) (a' : afile) : Prop :=
  let room := len (a_view a) in
  let moved n := mk_afile (a_view a) (a_size a) n (a_dirty a) (a_stored a) (a_len a) in
  match c with
  | FWrite c =>
      if len c =? 0 then r = (0, []) /\ a' = a
      else if a_pos a + len c >? room then r = (- EINVAL, []) /\ a' = a
      else r = (len c, []) /\
        a' = mk_afile (splice (a_view a) (a_pos a) c) (Z.max (a_size a) (a_pos a + len c)) (a_pos a + len c) true (a_stored a) (a_len a)
  | FRead n =>
      if n =? 0 then r = (0, []) /\ a' = a
      else if a_pos a + n >? room then r = (- EINVAL, []) /\ a' = a
      else r = (n, slice (a_view a) (a_pos a) n) /\ a' = moved (a_pos a + n)
  | FSeek o => if o >? room + SFILE_METADATA_SIZE then r = (- EINVAL, []) /\ a' = a else r = (0, []) /\ a' = moved o
  | FSize => r = (a_size a, []) /\ a' = a
  | FReopen _ g => r = (0, []) /\ opens g (closed a) a'
  end.

Fixpoint afile_steps (cs : list fcmd) (a : afile) (rs : list (Z * list Z)) (a' : afile) : Prop :=
  match cs with
  | [] => rs = [] /\ a' = a
  | c :: cs => exists r a1 rs1, afile_step c a r a1 /\ afile_steps cs a1 rs1 a' /\ rs = r :: rs1
  end.

(** With this in the memory of the allocator the checksum is computed inside of
    the device. *)
Definition base_ok {S} `{HS : ByteStore S} (d : Z) (p : disk_partition) (g : sfile) : Prop :=
  base g = SFILE_METADATA_SIZE \/ exists n, bs_size d = Some n /\ 0 <= base g /\ dp_offset p + base g + dp_len p <= n.

(** Offsets that are not negative, buffers below 2^63 bytes, and for a
    reopening a mutex that can be unlocked after a closing has freed it. *)
Definition fcmd_ok {S} `{HS : ByteStore S} (d : Z) (p : disk_partition) (freed_ok : bool) (c : fcmd) : Prop :=
  match c with
  | FWrite c => bytes c /\ len c < 2 ^ 63
  | FRead n => 0 <= n < 2 ^ 63
  | FSeek o => 0 <= o < 2 ^ 63
  | FSize => True
  | FReopen q g => freed_ok = true /\ base_ok d p g
  end.

(** The size in the metadata of a partition. *)
Definition disk_len (pv : list Z) : Z :=
  let m := decode (slice pv 0 SFILE_METADATA_SIZE) in if negb (md_magic m =? USR_FILE_MAGIC) then 0 else md_len m.

(** The size of the file that is stored in a partition: none when it has not
    the magic number or the checksum is wrong; [None] when the size in it is
    beyond the partition. *)
Definition disk_size (pv : list Z) : option Z :=
  let m := decode (slice pv 0 SFILE_METADATA_SIZE) in
  if negb (md_magic m =? USR_FILE_MAGIC) then Some 0
  else if md_len m + SFILE_METADATA_SIZE >? len pv then None
  else if Crc.crc16 (slice pv SFILE_METADATA_SIZE (md_len m)) =? md_crc m then Some (md_len m) else Some 0.

Section Steps.
Context {S : Type} `{HS : ByteStore S} (t : ptable).
Context (disk_device_open : string -> option Z) (blkdev_sync : S -> outcome (Z * S)) (freed_ok : bool) (name : string).

(** The calls on a file that is open at a pointer. *)
Definition fstep (c : fcmd) (x : Z * fstate (S := S)) : outcome (Z * list Z * (Z * fstate)) :=
  let '(p, s) := x in
  match c with
  | FWrite c => let* r := usr_sfile_write t p c s in Done (r.1, [], (p, r.2))
  | FRead n => let* r := usr_sfile_read t p n s in Done (r.1.1, r.1.2, (p, r.2))
  | FSeek o => let* r := usr_sfile_setoffset t p o s in Done (r.1, [], (p, r.2))
  | FSize => let* n := usr_sfile_size p s in Done (n, [], (p, s))
  | FReopen q g =>
      let* r := usr_sfile_close t blkdev_sync freed_ok p s in
      let* o := usr_sfile_open t disk_device_open freed_ok (Some name) true (Some (q, g)) r.2 in
      match o.1.2 with Some q => Done (o.1.1, [], (q, o.2)) | None => Undef end
  end.

Fixpoint fsteps (cs : list fcmd) (x : Z * fstate (S := S)) : outcome (list (Z * list Z) * (Z * fstate)) :=
  match cs with
  | [] => Done ([], x)
  | c :: cs => let* r := fstep c x in let* q := fsteps cs r.2 in Done (r.1 :: q.1, q.2)
  end.
End Steps.

(** ** The metadata *)

Definition meta_ok (m : sfile_metadata) : Prop :=
  0 <= md_magic m < 2 ^ 16 /\ 0 <= md_crc m < 2 ^ 16 /\ 0 <= md_len m < 2 ^ 32 /\ 0 <= md_end m < 2 ^ 32.

Lemma decode_meta m : meta_ok m -> decode (encode m) = m.
Proof.
  intros (H1 & H2 & H3 & H4). destruct m as [a b c e]. cbn [md_magic md_crc md_len md_end] in *.
  unfold decode, encode. cbn [md_magic md_crc md_len md_end].
  change (mk_meta (un_le16 (le16 a)) (un_le16 (le16 b)) (DiskLog.un_le32 (DiskLog.le32 c)) (DiskLog.un_le32 (DiskLog.le32 e)) = mk_meta a b c e).
  rewrite !LogOk.un_le32_le32 by done. f_equal; unfold un_le16, le16; zlia.
Qed.

Lemma len_meta m : len (encode m) = SFILE_METADATA_SIZE.
Proof. done. Qed.

Lemma bytes_meta m : bytes (encode m).
Proof. unfold encode. repeat (apply Forall_app; split); repeat (constructor; [apply Z.mod_pos_bound; lia|]); constructor. Qed.

Lemma un_le16_range l : bytes l -> 0 <= un_le16 l < 2 ^ 16.
Proof.
  intros H. destruct l as [|a [|b [|]]]; try (cbn; lia). apply Forall_cons in H as [Ha H]. apply Forall_cons in H as [Hb _]. cbn. lia.
Qed.

Lemma un_le32_range l : bytes l -> 0 <= DiskLog.un_le32 l < 2 ^ 32.
Proof.
  intros H. destruct l as [|a [|b [|c [|e [|]]]]]; try (cbn; lia).
  apply Forall_cons in H as [Ha H]. apply Forall_cons in H as [Hb H]. apply Forall_cons in H as [Hc H]. apply Forall_cons in H as [He _]. cbn. lia.
Qed.

Lemma decode_ok l : bytes l -> meta_ok (decode l).
Proof.
  intros Hb. unfold decode. repeat split; cbn [md_magic md_crc md_len md_end]; (apply un_le16_range || apply un_le32_range); by apply bytes_slice.
Qed.

Lemma crc16_range l : forall c, 0 <= c < 2 ^ 16 -> 0 <= Crc.crc16part l c < 2 ^ 16.
Proof.
  unfold Crc.crc16part. induction l as [|b l IH]; intros c Hc; [done|]. cbn [foldl]. apply IH. apply wrap_range. lia.
Qed.

Lemma meta_fresh : meta_ok (mk_meta USR_FILE_MAGIC 0 0 0).
Proof. unfold meta_ok, USR_FILE_MAGIC. cbn. lia. Qed.
#[local] Hint Resolve meta_fresh : core.

Section Refine.
Context {S : Type} `{HS : ByteStore S} (t : ptable).
Context (disk_device_open : string -> option Z) (blkdev_sync : S -> outcome (Z * S)) (freed_ok : bool).
Context (i : nat) (d : Z) (p : disk_partition) (name dname : string).
Context (Hp : placed t i d p) (Hname : disk_partition_find t name = Done (Some (Top i)))
  (Hpar : dp_parent p = Some dname) (Hdev : disk_device_open dname = Some d)
  (Hsync : forall s V, bs_rep s V -> exists r s', blkdev_sync s = Done (r, s') /\ bs_rep s' V)
  (Hlen : SFILE_METADATA_SIZE <= dp_len p < 2 ^ 31).

#[local] Abbreviation pv V := (pview d p V).
#[local] Abbreviation fs := (fstate (S := S)).

(** Nothing changed in the partitions that lie apart. *)
Definition elsewhere (V V' : Z -> list Z) : Prop :=
  forall j d' p', placed t j d' p' -> apart d p d' p' -> pview d' p' V' = pview d' p' V.

Lemma len_part s V : bs_rep s V -> len (pv V) = dp_len p.
Proof.
  intros HR. destruct Hp as (_ & _ & n & Hn & Ho & Hl & Hb). destruct (bs_len s V d n HR Hn). unfold pview. apply len_slice; lia.
Qed.

Lemma bytes_part s V : bs_rep s V -> bytes (pv V).
Proof. intros HR. destruct Hp as (_ & _ & n & Hn & _). apply bytes_slice. by eapply bs_bytes. Qed.

Lemma file_read f (s : fs) V size ofs : dp f = Top i -> dd f = d -> bs_rep (store s) V ->
  0 < size -> 0 <= ofs -> ofs + size <= dp_len p ->
  exists x, sfile_read t f size ofs s = Done (size, slice (pv V) ofs size, set_store x s) /\ bs_rep x V.
Proof.
  intros Hf Hd HR Hs Ho Hle. destruct (placed_find t i d p Hp) as [E _]. unfold sfile_read. rewrite Hf, Hd, E. cbn [obind fst snd].
  destruct Hp as (_ & _ & n & Hn & Hpo & Hpl & Hb). destruct (bs_len _ V d n HR Hn) as [Hl Hn32].
  rewrite (wrap_small 32 ofs), wrap_small by (split; lia).
  destruct (bs_read_ok _ V d n size (dp_offset p + ofs) HR Hn) as (x & -> & HR'); [lia..|]. cbn [obind fst snd].
  exists x. rewrite swrap_small by lia. split; [|done]. unfold pview. by rewrite slice_slice by lia.
Qed.

Lemma file_write f (s : fs) V buf ofs : dp f = Top i -> dd f = d -> bs_rep (store s) V -> bytes buf ->
  0 < len buf -> 0 <= ofs -> ofs + len buf <= dp_len p ->
  exists x V', sfile_write t f buf ofs s = Done (len buf, set_store x s) /\ bs_rep x V'
    /\ pv V' = splice (pv V) ofs buf /\ elsewhere V V'.
Proof.
  intros Hf Hd HR Hbuf Hs Ho Hle. destruct (placed_find t i d p Hp) as [E _]. unfold sfile_write. rewrite Hf, Hd, E. cbn [obind fst snd].
  pose proof Hp as (_ & _ & n & Hn & Hpo & Hpl & Hb). destruct (bs_len _ V d n HR Hn) as [Hl Hn32].
  rewrite (wrap_small 32 ofs), wrap_small by (split; lia).
  destruct (bs_write_ok _ V d n buf (dp_offset p + ofs) HR Hn Hbuf) as (x & V' & -> & HR' & HV1 & HV2); [lia..|]. cbn [obind fst snd].
  exists x, V'. rewrite swrap_small by lia. split; [done|]. split; [done|]. split.
  - by apply (pview_write t i d p d p i _ V V' ofs buf HR Hp Hp Ho Hle HV1 HV2).
  - intros j d' p' Hj Hap. by apply (pview_write t i d p d' p' j _ V V' ofs buf HR Hp Hj Ho Hle HV1 HV2).
Qed.

(** The loop reads the whole file, and there are enough turns. *)
Lemma chksum_ok fuel f (s : fs) V size ofs crc : dp f = Top i -> dd f = d -> bs_rep (store s) V ->
  0 <= size -> 0 <= ofs -> ofs + size <= dp_len p -> (size + 255) / 256 < Z.of_nat fuel ->
  exists x, chksum_loop t fuel f size ofs crc s = Done (Crc.crc16part (slice (pv V) ofs size) crc, set_store x s) /\ bs_rep x V.
Proof.
  intros Hf Hd. revert s size ofs crc. induction fuel as [|fuel IH]; intros s size ofs crc HR H0 Ho Hle Hfu; [zlia|].
  cbn [chksum_loop]. rewrite Z.gtb_ltb. destruct (Z.ltb_spec 0 size).
  - destruct (file_read f s V (Z.min 256 size) ofs Hf Hd HR) as (x & -> & HR'); [lia..|]. cbn [obind fst snd].
    rewrite (wrap_small 64 (Z.min 256 size)) by (split; lia). rewrite Z.eqb_refl. cbn [negb].
    rewrite (wrap_small 64) by (split; lia).
    destruct (IH (set_store x s) (size - Z.min 256 size) (ofs + Z.min 256 size) (Crc.crc16part (slice (pv V) ofs (Z.min 256 size)) crc))
      as (y & -> & HR2); [done|lia|lia|lia|zlia|].
    exists y. split; [|done].
    assert (slice (pv V) ofs size = slice (pv V) ofs (Z.min 256 size) ++ slice (pv V) (ofs + Z.min 256 size) (size - Z.min 256 size)) as ->.
    { rewrite <- slice_app_split by lia. f_equal. lia. }
    unfold Crc.crc16part. by rewrite foldl_app.
  - assert (size = 0) as -> by lia. exists (store s). split; [|done]. by destruct s.
Qed.

Lemma file_chksum q f (s : fs) V : heap s !! q = Some f -> dp f = Top i -> dd f = d -> bs_rep (store s) V ->
  0 <= md_len (metadata f) -> 0 <= base f -> base f + md_len (metadata f) <= dp_len p ->
  exists x, usr_sfile_chksum t q s = Done (Crc.crc16 (slice (pv V) (base f) (md_len (metadata f))), set_store x s) /\ bs_rep x V.
Proof.
  intros Hq Hf Hd HR H0 Hb Hle. unfold usr_sfile_chksum, deref. rewrite Hq. cbn [obind].
  apply chksum_ok; try done. rewrite Nat2Z.inj_succ, Z2Nat.id by (apply Z.div_pos; lia). lia.
Qed.

(** A checksum from elsewhere in the device. *)
Lemma chksum_any nd fuel f (s : fs) V size ofs crc : bs_size d = Some nd -> dp f = Top i -> dd f = d -> bs_rep (store s) V ->
  0 <= size -> 0 <= ofs -> dp_offset p + ofs + size <= nd -> (size + 255) / 256 < Z.of_nat fuel ->
  exists k x, chksum_loop t fuel f size ofs crc s = Done (k, set_store x s) /\ bs_rep x V.
Proof.
  intros Hnd Hf Hd. revert s size ofs crc. induction fuel as [|fuel IH]; intros s size ofs crc HR H0 Ho Hle Hfu; [zlia|].
  cbn [chksum_loop]. rewrite Z.gtb_ltb. destruct (Z.ltb_spec 0 size).
  - unfold sfile_read. destruct (placed_find t i d p Hp) as [E _]. rewrite Hf, Hd, E. cbn [obind fst snd].
    destruct Hp as (_ & _ & nd' & Hn' & Hpo & Hpl & _). destruct (bs_len _ V d nd HR Hnd) as [_ Hn32].
    rewrite (wrap_small 32 ofs), wrap_small by (split; lia).
    destruct (bs_read_ok _ V d nd (Z.min 256 size) (dp_offset p + ofs) HR Hnd) as (x & -> & HRx); [lia..|]. cbn [obind fst snd].
    destruct (negb _); [by eauto|]. rewrite (wrap_small 64) by (split; lia).
    destruct (IH (set_store x s) (size - Z.min 256 size) (ofs + Z.min 256 size) (Crc.crc16part (slice (V d) (dp_offset p + ofs) (Z.min 256 size)) crc))
      as (k & y & -> & HRy); [done|lia|lia|lia|zlia|]. by eauto.
  - exists crc, (store s). split; [|done]. by destruct s.
Qed.

Lemma file_chksum_any nd q f (s : fs) V : bs_size d = Some nd -> heap s !! q = Some f -> dp f = Top i -> dd f = d -> bs_rep (store s) V ->
  0 <= md_len (metadata f) -> 0 <= base f -> dp_offset p + base f + md_len (metadata f) <= nd ->
  exists k x, usr_sfile_chksum t q s = Done (k, set_store x s) /\ bs_rep x V.
Proof.
  intros Hnd Hq Hf Hd HR H0 Hb Hle. unfold usr_sfile_chksum, deref. rewrite Hq. cbn [obind].
  apply (chksum_any nd); try done. rewrite Nat2Z.inj_succ, Z2Nat.id by (apply Z.div_pos; lia). lia.
Qed.

(** The file is open at [q], and stands for [a]. *)
Record opened (q : Z) (s : fs) (V : Z -> list Z) (a : afile) : Prop := {
  op_rep : bs_rep (store s) V;
  op_view : a_view a = slice (pv V) SFILE_METADATA_SIZE (dp_len p - SFILE_METADATA_SIZE);
  op_head : sfile_head s = [q];
  op_file : exists m, heap s !! q = Some (mk_sfile (Top i) d m SFILE_METADATA_SIZE (a_pos a) (a_size a) 1 (a_dirty a))
    /\ meta_ok m /\ md_magic m = USR_FILE_MAGIC;
  op_stored : a_dirty a = false -> disk_size (pv V) = Some (a_stored a) /\ disk_len (pv V) = a_len a;
  op_pos : 0 <= a_pos a <= dp_len p;
  op_size : 0 <= a_size a <= dp_len p - SFILE_METADATA_SIZE;
}.

(** A file that is not open. *)
Definition at_rest (s : fs) (V : Z -> list Z) (a : afile) : Prop :=
  bs_rep (store s) V /\ sfile_head s = [] /\ a_view a = slice (pv V) SFILE_METADATA_SIZE (dp_len p - SFILE_METADATA_SIZE) /\
  disk_size (pv V) = Some (a_stored a) /\ disk_len (pv V) = a_len a.

Lemma open_ok (s : fs) V a q g : at_rest s V a -> base_ok d p g ->
  exists s' a', usr_sfile_open t disk_device_open freed_ok (Some name) true (Some (q, g)) s = Done (0, Some q, s')
    /\ opened q s' V a' /\ opens g a a'.
Proof.
  intros (HR & Hh & Hv & Hn & Hlen') Hbase. unfold usr_sfile_open, sfile_open. cbn [negb]. rewrite Hname. cbn [obind].
  assert (parent_of t (Top i) = Some dname) as Epar by (unfold parent_of, part_at; destruct Hp as (-> & _); exact Hpar).
  rewrite Epar. cbn [mbind option_bind]. rewrite Hdev, Hh. cbn [List.find obind].
  unfold deref at 1. cbn [heap]. rewrite lookup_insert_eq. cbn [obind].
  set (f0 := mk_sfile (Top i) d _ _ _ _ _ _). set (s0 := mk_fstate _ _ _ _).
  destruct (file_read f0 s0 V SFILE_METADATA_SIZE 0) as (x & -> & HRx); [done|done|done|unfold SFILE_METADATA_SIZE in *; lia..|].
  cbn [obind fst snd]. change (SFILE_METADATA_SIZE <=? 0) with false. cbn match. set (m := decode (slice (pv V) 0 SFILE_METADATA_SIZE)).
  assert (meta_ok m) as Hm by (apply decode_ok, bytes_slice; by eapply bytes_part).
  unfold deref at 1. unfold set_file at 1. cbn [heap]. rewrite lookup_insert_eq. cbn [obind metadata].
  pose proof (len_part _ _ HR) as Hpl. pose proof Hn as Hn'. unfold disk_size in Hn. unfold disk_len in Hlen'. fold m in Hn, Hlen'.
  set (s1 := set_file q _ _). set (f1 := mk_sfile (dp f0) (dd f0) m _ _ _ _ _) in s1.
  assert (heap s1 !! q = Some f1) as Hs1 by (unfold s1, set_file; cbn [heap]; apply lookup_insert_eq).
  assert (sfile_head s1 = [q]) as Hh1 by done.
  assert (bs_rep (store s1) V) as HR1 by done. clearbody s1.
  assert (forall s2 m', sfile_head s2 = [q] -> bs_rep (store s2) V -> meta_ok m' -> md_magic m' = USR_FILE_MAGIC ->
    0 <= md_len m' <= dp_len p - SFILE_METADATA_SIZE -> md_len m' = 0 \/ md_len m' = a_len a -> (base g = SFILE_METADATA_SIZE -> md_len m' = a_stored a) ->
    exists a', opened q (set_file q (mk_sfile (Top i) d m' SFILE_METADATA_SIZE 0 (md_len m') 1 false) s2) V a' /\ opens g a a') as Hfin.
  { intros s2 m' E1 E2 E3 E4 E5 E6 E7. exists (mk_afile (a_view a) (md_len m') 0 false (a_stored a) (a_len a)). split; [|by exists (md_len m')].
    split; try done; [|cbn [a_pos]; unfold SFILE_METADATA_SIZE in *; lia].
    exists m'. split; [|done]. unfold set_file. cbn [heap a_pos a_size a_dirty]. apply lookup_insert_eq. }
  destruct (Z.eqb_spec (md_magic m) USR_FILE_MAGIC) as [Em|Em]; cbn [negb] in Hn, Hlen' |- *.
  2: { cbn [obind fst snd]. injection Hn as Hn.
       edestruct (Hfin s1 (mk_meta USR_FILE_MAGIC 0 0 0)) as (a' & H1 & H2); try done; cbn [md_len]; [unfold SFILE_METADATA_SIZE in *; lia|by left|].
       eexists _, a'. split; [done|]. split; [exact H1|exact H2]. }
  pose proof Hm as (Hm1 & Hm2 & Hm3 & Hm4). rewrite Z.gtb_ltb in Hn. destruct (Z.ltb_spec (len (pv V)) (md_len m + SFILE_METADATA_SIZE)) as [|Hle]; [done|].
  assert (metadata f1 = m) as Hm1' by done.
  assert (exists k y, usr_sfile_chksum t q s1 = Done (k, set_store y s1) /\ bs_rep y V /\
    (base g = SFILE_METADATA_SIZE -> k = Crc.crc16 (slice (pv V) SFILE_METADATA_SIZE (md_len m)))) as (k & y & Ey & HRy & Hk).
  { destruct (decide (base g = SFILE_METADATA_SIZE)) as [Hg|Hg].
    - assert (base f1 = SFILE_METADATA_SIZE) as Hb1 by exact Hg.
      destruct (file_chksum q f1 s1 V Hs1) as (y & Ey & HRy); [done|done|done|rewrite Hm1'; lia|rewrite Hb1; unfold SFILE_METADATA_SIZE; lia|rewrite Hb1, Hm1'; lia|].
      rewrite Hb1, Hm1' in Ey. by eauto.
    - destruct Hbase as [?|(nd & Hnd & Hb0 & Hb1)]; [done|]. change (base g) with (base f1) in Hb0, Hb1.
      destruct (file_chksum_any nd q f1 s1 V Hnd Hs1) as (k & y & Ey & HRy); [done|done|done|rewrite Hm1'; lia|done|rewrite Hm1'; unfold SFILE_METADATA_SIZE in *; lia|].
      exists k, y. by split_and!. }
  rewrite Ey. cbn [obind fst snd].
  destruct (Z.eqb_spec k (md_crc m)) as [Ec|Ec]; cbn [negb obind fst snd].
  - destruct (Hfin (set_store y s1) m) as (a' & H1 & H2); try done; [lia|by right| |eexists _, a'; split; [done|]; split; [exact H1|exact H2]].
    intros Hg. rewrite <- (Hk Hg), (proj2 (Z.eqb_eq _ _) Ec) in Hn. by injection Hn.
  - edestruct (Hfin (set_store y s1) (mk_meta USR_FILE_MAGIC 0 0 0)) as (a' & H1 & H2); try done; cbn [md_len]; [unfold SFILE_METADATA_SIZE in *; lia|by left| |
      eexists _, a'; split; [done|]; split; [exact H1|exact H2]].
    intros Hg. rewrite <- (Hk Hg), (proj2 (Z.eqb_neq _ _) Ec) in Hn. by injection Hn.
Qed.

Lemma view_write V V' buf : len buf = SFILE_METADATA_SIZE -> len (pv V) = dp_len p -> pv V' = splice (pv V) 0 buf ->
  slice (pv V') 0 SFILE_METADATA_SIZE = buf
  /\ forall o n, SFILE_METADATA_SIZE <= o -> slice (pv V') o n = slice (pv V) o n.
Proof.
  intros Hb Hl ->. split.
  - rewrite <- Hb. apply slice_splice_same; [lia|]. lia.
  - intros o n Ho. apply slice_splice_other; unfold SFILE_METADATA_SIZE in *; lia.
Qed.

Lemma close_ok (s : fs) V a q : opened q s V a -> freed_ok = true ->
  exists s' V', usr_sfile_close t blkdev_sync freed_ok q s = Done (0, s') /\ at_rest s' V' (closed a)
    /\ stale s' = stale s ++ [q] /\ elsewhere V V'.
Proof.
  intros [HR Hv Hh (m & Hq & Hm & Hmg) Hdt Hpo Hsz] Hfr. unfold usr_sfile_close, deref at 1. rewrite Hq.
  cbn [obind refcnt dirty dp dd metadata base offset fsize Z.sub]. change (1 >? 0) with true. change (1 + -1 =? 0) with true. cbn match.
  assert (forall s2 : fs, sfile_head s2 = [q] ->
    (sfile_close q s2).1 = 0 /\ exists s3, mtx_unlock freed_ok q (sfile_close q s2).2 = Done s3 /\ sfile_head s3 = [] /\ store s3 = store s2
    /\ stale s3 = stale s2 ++ [q]) as Hclose.
  { intros s2 E. unfold sfile_close. rewrite E, bool_decide_true by left. cbn [snd fst]. unfold mtx_unlock. cbn [heap]. rewrite lookup_delete_eq, Hfr.
    split; [done|]. eexists. split; [done|]. cbn [sfile_head stale store]. split; [|done]. rewrite filter_cons_False by (intros ?; congruence). done. }
  destruct (a_dirty a) eqn:Ed.
  - set (m1 := mk_meta _ _ _ _). set (f1 := mk_sfile _ _ m1 _ _ _ _ _). set (s1 := set_file q f1 _).
    assert (heap s1 !! q = Some f1) as Hs1 by (unfold s1, set_file; cbn [heap]; apply lookup_insert_eq).
    assert (bs_rep (store s1) V) as HR1 by done.
    assert (md_len m1 = a_size a) as Hml by (unfold m1; cbn [md_len]; apply wrap_small; unfold SFILE_METADATA_SIZE in *; split; lia).
    destruct (file_chksum q f1 s1 V Hs1) as (x & -> & HRx); [done|done|done|cbn [metadata f1]; lia|done|cbn [metadata base f1]; unfold SFILE_METADATA_SIZE in *; lia|].
    cbn [obind fst snd base metadata f1]. rewrite Hml. set (crc := Crc.crc16 _). set (m2 := mk_meta _ _ _ _).
    assert (0 <= crc < 2 ^ 16) as Hcrc by (apply crc16_range; lia).
    assert (meta_ok m2) as Hm2.
    { destruct Hm as (? & ? & ? & ?). unfold meta_ok, m2, m1. cbn [md_magic md_crc md_len md_end]. unfold SFILE_METADATA_SIZE in *. lia. }
    set (f2 := mk_sfile _ _ m2 _ _ _ _ _). set (s2 := set_file q f2 _).
    destruct (file_write f2 s2 V (encode m2) 0) as (y & V' & -> & HRy & HpV & Hel); try done; [apply bytes_meta|unfold SFILE_METADATA_SIZE in *; rewrite len_meta; unfold SFILE_METADATA_SIZE; lia|].
    cbn [obind fst snd]. rewrite len_meta. change (SFILE_METADATA_SIZE <=? 0) with false. cbn match.
    destruct (Hsync y V' HRy) as (r & z & Ez & HRz). change (store (set_store y s2)) with y. rewrite Ez. cbn [obind fst snd].
    destruct (Hclose (set_store z (set_store y s2)) Hh) as (-> & s3 & -> & E1 & E2 & E3). cbn [obind].
    pose proof (len_part _ _ HR) as Hpl. destruct (view_write V V' (encode m2) eq_refl Hpl HpV) as [W1 W2].
    assert (md_len m2 = a_size a) as Hml2 by done. assert (md_magic m2 = USR_FILE_MAGIC) as Hmg2 by done.
    eexists _, V'. split; [done|]. split; [|split; [exact E3|exact Hel]]. unfold closed. rewrite Ed.
    split; [by rewrite E2|]. split; [exact E1|]. cbn [a_view a_stored a_len]. split; [rewrite W2 by lia; done|].
    unfold disk_size, disk_len. rewrite W1, decode_meta by done. rewrite Hmg2, Z.eqb_refl. cbn [negb]. split; [|done].
    rewrite Hml2, (len_part _ _ HRy), Z.gtb_ltb, (proj2 (Z.ltb_ge _ _)), W2 by lia. fold crc. by rewrite Z.eqb_refl.
  - cbn [obind fst snd]. set (s1 := set_file q _ s).
    destruct (Hclose s1 Hh) as (-> & s3 & -> & E1 & E2 & E3). cbn [obind]. eexists _, V. split; [done|].
    split; [|split; [exact E3|by intros ? ? ?]]. unfold closed. rewrite Ed. destruct (Hdt eq_refl).
    split; [by rewrite E2|]. split; [exact E1|]. by split.
Qed.

Lemma unchanged_trans V V' V'' : elsewhere V V' -> elsewhere V' V'' -> elsewhere V V''.
Proof. intros H H' j d' p' Hj Ha. by rewrite (H' j d' p' Hj Ha), (H j d' p' Hj Ha). Qed.

Lemma unchanged_refl V : elsewhere V V.
Proof. by intros ? ? ?. Qed.

(** One call on an open file. *)
Lemma fstep_ok c q (s : fs) V a : opened q s V a -> fcmd_ok d p freed_ok c ->
  exists r q' s' V' a', fstep t disk_device_open blkdev_sync freed_ok name c (q, s) = Done (r.1, r.2, (q', s'))
    /\ afile_step c a r a' /\ opened q' s' V' a' /\ elsewhere V V'.
Proof.
  intros O Hc. pose proof O as [HR Hv Hh (m & Hq & Hm & Hmg) Hdt Hpo Hsz]. destruct (placed_find t i d p Hp) as [Erange _].
  pose proof (len_part _ _ HR) as Hpl.
  assert (len (a_view a) = dp_len p - SFILE_METADATA_SIZE) as Hroom by (rewrite Hv; apply len_slice; unfold SFILE_METADATA_SIZE in *; lia).
  assert (forall n, 0 < n < 2 ^ 63 -> u64 (u64 (SFILE_METADATA_SIZE + a_pos a) + n) = SFILE_METADATA_SIZE + a_pos a + n) as Hend.
  { intros n Hn. unfold SFILE_METADATA_SIZE in *. rewrite (wrap_small 64 (12 + _)), wrap_small by (split; lia). lia. }
  assert (u64 (SFILE_METADATA_SIZE + a_pos a) = SFILE_METADATA_SIZE + a_pos a) as Hbeg by (unfold SFILE_METADATA_SIZE in *; apply wrap_small; split; lia).
  assert (forall r : Z * list Z, exists q' s' V' a', Done (r.1, r.2, (q, s)) = Done (r.1, r.2, (q', s')) /\ (r = r /\ a' = a) /\ opened q' s' V' a' /\ elsewhere V V') as Hstay
    by (intros r; exists q, s, V, a; split_and!; try done; by apply unchanged_refl).
  destruct c as [c|n|o| |q' g]; cbn [fstep afile_step fcmd_ok] in *.
  - unfold usr_sfile_write, deref. rewrite Hq. cbn [obind dp base offset]. destruct Hc as [Hb Hc]. pose proof (len_nonneg c).
    destruct (Z.eqb_spec (len c) 0) as [E|E]; [exists (0, []); exact (Hstay (0, []))|].
    rewrite Erange. cbn [obind fst snd]. rewrite Hend by lia. rewrite Hroom, !Z.gtb_ltb.
    destruct (Z.ltb_spec (dp_len p) (SFILE_METADATA_SIZE + a_pos a + len c)), (Z.ltb_spec (dp_len p - SFILE_METADATA_SIZE) (a_pos a + len c));
      [exists (- EINVAL, []); exact (Hstay (- EINVAL, []))|lia|lia|]. rewrite Hbeg.
    destruct (file_write (mk_sfile (Top i) d m SFILE_METADATA_SIZE (a_pos a) (a_size a) 1 (a_dirty a)) s V c (SFILE_METADATA_SIZE + a_pos a))
      as (x & V' & -> & HR' & HpV & Hel); [done|done|done|done|lia|unfold SFILE_METADATA_SIZE in *; lia|lia|].
    cbn [obind fst snd]. rewrite swrap_small by (unfold SFILE_METADATA_SIZE in *; lia). rewrite Z.eqb_refl. cbn [negb obind fst snd dd metadata fsize refcnt].
    eexists (len c, []), _, _, _, _. split; [done|]. split; [done|]. split; [|exact Hel].
    assert (u64 (a_pos a + len c) = a_pos a + len c) as -> by (unfold SFILE_METADATA_SIZE in *; apply wrap_small; split; lia).
    split; cbn [a_view a_size a_pos a_dirty]; try done; [| |unfold SFILE_METADATA_SIZE in *; lia|lia].
    + rewrite HpV, Hv. symmetry. apply slice_splice_in; unfold SFILE_METADATA_SIZE in *; lia.
    + exists m. unfold set_file. cbn [heap]. rewrite lookup_insert_eq. split; [|done]. do 2 f_equal. rewrite Z.gtb_ltb. destruct (Z.ltb_spec (a_size a) (a_pos a + len c)); lia.
  - unfold usr_sfile_read, deref. rewrite Hq. cbn [obind dp base offset].
    destruct (Z.eqb_spec n 0) as [E|E]; [exists (0, []); exact (Hstay (0, []))|].
    rewrite Erange. cbn [obind fst snd]. rewrite Hend by lia. rewrite Hroom, !Z.gtb_ltb.
    destruct (Z.ltb_spec (dp_len p) (SFILE_METADATA_SIZE + a_pos a + n)), (Z.ltb_spec (dp_len p - SFILE_METADATA_SIZE) (a_pos a + n));
      [exists (- EINVAL, []); exact (Hstay (- EINVAL, []))|lia|lia|]. rewrite Hbeg.
    destruct (file_read (mk_sfile (Top i) d m SFILE_METADATA_SIZE (a_pos a) (a_size a) 1 (a_dirty a)) s V n (SFILE_METADATA_SIZE + a_pos a))
      as (x & -> & HR'); [done|done|done|lia|unfold SFILE_METADATA_SIZE in *; lia|lia|].
    cbn [obind fst snd]. rewrite swrap_small by (unfold SFILE_METADATA_SIZE in *; lia). rewrite Z.eqb_refl. cbn [negb obind fst snd dd metadata fsize refcnt dirty].
    assert (slice (pv V) (SFILE_METADATA_SIZE + a_pos a) n = slice (a_view a) (a_pos a) n) as -> by (rewrite Hv, slice_slice by (unfold SFILE_METADATA_SIZE in *; lia); done).
    eexists (n, slice (a_view a) (a_pos a) n), _, _, _, _. split; [done|]. split; [done|]. split; [|apply unchanged_refl].
    assert (u64 (a_pos a + n) = a_pos a + n) as -> by (unfold SFILE_METADATA_SIZE in *; apply wrap_small; split; lia).
    split; cbn [a_view a_size a_pos]; try done; [|unfold SFILE_METADATA_SIZE in *; lia].
    exists m. unfold set_file. cbn [heap]. by rewrite lookup_insert_eq.
  - unfold usr_sfile_setoffset, deref. rewrite Hq. cbn [obind dp]. rewrite Erange. cbn [obind fst snd].
    rewrite swrap_small by lia. rewrite Hroom. replace (dp_len p - SFILE_METADATA_SIZE + SFILE_METADATA_SIZE) with (dp_len p) by lia.
    rewrite Z.gtb_ltb. destruct (Z.ltb_spec (dp_len p) o); [exists (- EINVAL, []); exact (Hstay (- EINVAL, []))|].
    cbn [obind fst snd dd metadata base fsize refcnt dirty]. eexists (0, []), _, _, _, _. split; [done|]. split; [done|]. split; [|apply unchanged_refl].
    split; cbn [a_view a_size a_pos]; try done; [|lia]. exists m. unfold set_file. cbn [heap]. rewrite lookup_insert_eq, wrap_small by (split; lia). done.
  - unfold usr_sfile_size, deref. rewrite Hq. cbn. exists (a_size a, []). exact (Hstay (a_size a, [])).
  - destruct Hc as [Hfr Hbase]. destruct (close_ok s V a q O Hfr) as (s1 & V1 & -> & Hrest & _ & Hel). cbn [obind fst snd].
    destruct (open_ok s1 V1 (closed a) q' g Hrest Hbase) as (s2 & a' & -> & O2 & Hop). cbn [obind fst snd].
    by exists (0, []), q', s2, V1, a'.
Qed.

Lemma fsteps_ok cs q (s : fs) V a : opened q s V a -> Forall (fcmd_ok d p freed_ok) cs ->
  exists rs q' s' V' a', fsteps t disk_device_open blkdev_sync freed_ok name cs (q, s) = Done (rs, (q', s'))
    /\ afile_steps cs a rs a' /\ opened q' s' V' a' /\ elsewhere V V'.
Proof.
  intros O Hf. revert q s V a O. induction Hf as [|c cs Hc _ IH]; intros q s V a O.
  - exists [], q, s, V, a. by split_and!.
  - destruct (fstep_ok c q s V a O Hc) as (r & q1 & s1 & V1 & a1 & E & Hs & O1 & H1).
    destruct (IH q1 s1 V1 a1 O1) as (rs & q2 & s2 & V2 & a2 & E2 & Hs2 & O2 & H2).
    cbn [fsteps afile_steps]. rewrite E. cbn [obind fst snd]. rewrite E2. cbn [obind fst snd].
    exists (r :: rs), q2, s2, V2, a2. split; [by destruct r|]. split; [by exists r, a1, rs|]. split; [done|by eapply unchanged_trans].
Qed.
End Refine.

(** C21: A file of a partition is an array of bytes with a size and a
    position, and its contents survive. After it was opened in a partition of
    the table, every sequence of
    writes, reads, changes of the offset to values that are not negative,
    queries of the size, and reopenings gives results of the array: accesses
    beyond the partition are refused with -EINVAL, a write extends the size,
    and no opening changes a byte. The size after an opening depends on the
    field [base] in the memory of the allocator, which the code sets too late:
    with 12 it is that of the file that is stored (the size before the
    closing, when it was written); with another value, from where a partition
    of this length still is inside of the device, the file can be dropped: the
    size is 0 or that in the metadata. No byte of a partition that lies apart
    is changed. Reopenings need a mutex that can be unlocked after it was
    freed. *)
Theorem sfile_refines_array (S : Type) (HS : ByteStore S) (t : ptable) (disk_device_open : string -> option Z)
    (blkdev_sync : S -> outcome (Z * S)) (freed_ok : bool) (i : nat) (d : Z) (p : disk_partition) (name dname : string)
    (s : fstate (S := S)) (V : Z -> list Z) (n q : Z) (g : sfile) (cs : list fcmd) :
  placed t i d p -> disk_partition_find t name = Done (Some (Top i)) -> dp_parent p = Some dname -> disk_device_open dname = Some d ->
  (forall x V, bs_rep x V -> exists r x', blkdev_sync x = Done (r, x') /\ bs_rep x' V) ->
  SFILE_METADATA_SIZE <= dp_len p < 2 ^ 31 -> bs_rep (store s) V -> sfile_head s = [] -> disk_size (pview d p V) = Some n ->
  base_ok d p g -> Forall (fcmd_ok d p freed_ok) cs ->
  let view V := slice (pview d p V) SFILE_METADATA_SIZE (dp_len p - SFILE_METADATA_SIZE) in
  exists s1 a rs q' s2 V' a',
    usr_sfile_open t disk_device_open freed_ok (Some name) true (Some (q, g)) s = Done (0, Some q, s1)
    /\ opens g (mk_afile (view V) 0 0 false n (disk_len (pview d p V))) a
    /\ fsteps t disk_device_open blkdev_sync freed_ok name cs (q, s1) = Done (rs, (q', s2))
    /\ afile_steps cs a rs a'
    /\ bs_rep (store s2) V' /\ view V' = a_view a'
    /\ (forall j d' p', placed t j d' p' -> apart d p d' p' -> pview d' p' V' = pview d' p' V).
Proof.
  intros Hp Hname Hpar Hdev Hsync Hlen HR Hh Hn Hbase Hcs view.
  destruct (open_ok t disk_device_open freed_ok i d p name dname Hp Hname Hpar Hdev Hlen s V
    (mk_afile (view V) 0 0 false n (disk_len (pview d p V))) q g) as (s1 & a & E1 & O1 & Hop); [by split_and!|done|].
  destruct (fsteps_ok t disk_device_open blkdev_sync freed_ok i d p name dname Hp Hname Hpar Hdev Hsync Hlen cs q s1 V a O1 Hcs)
    as (rs & q' & s2 & V' & a' & E2 & Hst & O2 & Hel).
  exists s1, a, rs, q', s2, V', a'. split; [done|]. split; [done|]. split; [done|]. split; [done|]. split; [apply O2|]. split; [symmetry; apply O2|exact Hel].
Qed.

(** A file on the partition "b" of the example table. *)
Definition open_flash (n : string) : option Z := if bool_decide (n = "flash"%string) then Some 1 else None.
Definition no_files : fstate (S := BlkCache.bcache chips) := mk_fstate ∅ [] [] CacheOk.bcache_1.
Definition memory_with (b : Z) : sfile := mk_sfile (Top 0) 0 (mk_meta 0 0 0 0) b 0 0 0 false.
Definition sync_1 := @BlkCache.blkdev_sync _ nor_flash CacheOk.devs_1.
Definition some_calls : list fcmd :=
  [FWrite [1; 2; 3]; FSize; FReopen 200 (memory_with 12); FSize; FRead 3; FWrite [4]; FReopen 300 (memory_with 0); FSize; FSeek 1; FRead 3; FSeek 33; FSeek 20; FRead 1].

(** The second reopening finds 0 in [base], and the file is dropped. *)
Example some_calls_results :
  (let* o := @usr_sfile_open _ store_1 ptable_1 open_flash true (Some "b"%string) true (Some (100, memory_with 12)) no_files in
   let* r := @fsteps _ store_1 ptable_1 open_flash sync_1 true "b" some_calls (100, o.2) in Done r.1)
  = Done [(3, []); (3, []); (0, []); (3, []); (3, [1; 2; 3]); (1, []); (0, []); (0, []); (0, []); (3, [2; 3; 4]); (- EINVAL, []); (0, []); (- EINVAL, [])].
Proof. vm_compute. reflexivity. Qed.

Lemma sfile_refines_array_witness :
  let view V := slice (pview 1 part_b V) SFILE_METADATA_SIZE (dp_len part_b - SFILE_METADATA_SIZE) in
  exists s1 a rs q' s2 V' a',
    @usr_sfile_open _ store_1 ptable_1 open_flash true (Some "b"%string) true (Some (100, memory_with 12)) no_files = Done (0, Some 100, s1)
    /\ opens (memory_with 12) (mk_afile (view CacheOk.flat_1) 0 0 false 0 (disk_len (pview 1 part_b CacheOk.flat_1))) a
    /\ @fsteps _ store_1 ptable_1 open_flash sync_1 true "b" some_calls (100, s1) = Done (rs, (q', s2))
    /\ afile_steps some_calls a rs a'
    /\ @bs_rep _ store_1 (store s2) V' /\ view V' = a_view a'
    /\ (forall j d' p', @placed _ store_1 ptable_1 j d' p' -> apart 1 part_b d' p' -> pview d' p' V' = pview d' p' CacheOk.flat_1).
Proof.
  assert (@bs_size _ store_1 1 = Some 128) as Hs.
  { unfold store_1, blkdev_store. cbn [bs_size]. case_decide as Hn; [done|]. destruct Hn. apply CacheOk.dev_1_ok. by left. }
  refine (sfile_refines_array _ store_1 ptable_1 open_flash sync_1 true 1 1 part_b "b" "flash" no_files CacheOk.flat_1 0 100 (memory_with 12) some_calls
            (proj2 placed_1) _ _ _ _ _ _ _ _ _ _); [by vm_compute|done|done| |by vm_compute| |done|by vm_compute|by left|].
  - intros x V HR. destruct (CacheOk.blkdev_sync_ok CacheOk.devs_1 CacheOk.distinct_1 x V HR) as (x' & E & HR' & _). by exists 0, x'.
  - exact CacheOk.bcache_1_inv.
  - assert (@base_ok _ store_1 1 part_b (memory_with 0)) as Hb by (right; exists 128; split; [exact Hs|]; vm_compute; split; congruence).
    assert (@base_ok _ store_1 1 part_b (memory_with 12)) as Hb' by (by left).
    unfold some_calls. rewrite !Forall_cons, Forall_nil. unfold fcmd_ok. split_and!; try done; repeat constructor; vm_compute; congruence.
Defined.

(** ** What goes wrong *)

#[local] Existing Instance store_1.

Definition with_file (k : Z -> fstate (S := BlkCache.bcache chips) -> outcome (Z * list Z)) : outcome (Z * list Z) :=
  let* o := usr_sfile_open ptable_1 open_flash true (Some "b"%string) true (Some (100, memory_with 12)) no_files in
  match o.1.2 with Some p => k p o.2 | None => Undef end.

(** [usr_sfile_open] computes the checksum before it sets [base]: with another
    value in the memory, the file of three bytes is gone. *)
Lemma sfile_base_unset :
  with_file (fun p s =>
    let* w := usr_sfile_write ptable_1 p [1; 2; 3] s in
    let* c := usr_sfile_close ptable_1 sync_1 true p w.2 in
    let* o := usr_sfile_open ptable_1 open_flash true (Some "b"%string) true (Some (200, memory_with 0)) c.2 in
    let* n := usr_sfile_size 200 o.2 in Done (n, [])) = Done (0, []).
Proof. vm_compute. reflexivity. Qed.

(** A negative offset is accepted, and a write there is in the partition in
    front: partition "a" ends at 56, the write at -20 is at 48. *)
Lemma sfile_negative_offset :
  with_file (fun p s =>
    let* k := usr_sfile_setoffset ptable_1 p (-20) s in
    let* w := usr_sfile_write ptable_1 p [1; 2; 3; 4; 5; 6; 7; 8] k.2 in
    let* r := lgpt_read ptable_1 (Top 0) (dp_len part_a - 8) 8 (store w.2) in Done (w.1, r.1.2)) = Done (8, [1; 2; 3; 4; 5; 6; 7; 8])
  /\ dp_offset part_a + dp_len part_a = dp_offset part_b.
Proof. vm_compute. done. Qed.

(** [usr_sfile_invalid] leaves the size, and closing writes it back. *)
Lemma sfile_invalid_kept :
  with_file (fun p s =>
    let* w := usr_sfile_write ptable_1 p [1; 2; 3] s in
    let* v := usr_sfile_invalid ptable_1 (Some p) w.2 in
    let* c := usr_sfile_close ptable_1 sync_1 true p v.2 in
    let* o := usr_sfile_open ptable_1 open_flash true (Some "b"%string) true (Some (200, memory_with 12)) c.2 in
    let* n := usr_sfile_size 200 o.2 in Done (n, [])) = Done (3, []).
Proof. vm_compute. reflexivity. Qed.

(** The last close unlocks the mutex of the structure it has freed, which is
    recorded where that is possible and undefined where it is not. *)
Lemma sfile_close_stale :
  with_file (fun p s => let* c := usr_sfile_close ptable_1 sync_1 true p s in Done (c.1, stale c.2)) = Done (0, [100])
  /\ with_file (fun p s => let* c := usr_sfile_close ptable_1 sync_1 false p s in Done (c.1, stale c.2)) = Undef.
Proof. vm_compute. done. Qed.

(** A partition that is not found is followed as a NULL pointer. *)
Lemma sfile_open_missing b g s : usr_sfile_open ptable_1 open_flash b (Some "c"%string) true g s = Undef.
Proof. done. Qed.
End SFile.
