(* ===== verification/Bitops.v ===== *)
(** * bitops.h, lib/bitops.c : searches in bit strings

    The searches walk an array of words with the bit operations of the
    compiler; the reference looks at one bit after the other. *)
From Stdlib Require Import ZArith Lia Bool.
From stdpp Require Import base list numbers gmap.
From S2P Require Import Prelude.

Module Bitops.

Definition BITS_PER_LONG : Z := 64.
Definition ones64 : Z := 2 ^ 64 - 1.

(** [~x] of an [unsigned long]. *)
Definition not64 (x : Z) : Z := Z.lxor x ones64.

(** [BITMAP_LAST_WORD_MASK (n)]: a shift by 64 bits is undefined. *)
Definition BITMAP_LAST_WORD_MASK (n : Z) : outcome Z :=
  guard* (0 <? n) && (n <=? 64) in Done (Z.shiftr ones64 (BITS_PER_LONG - n)).

(** [__builtin_ffsl]: one more than the number of trailing zeros. *)
Fixpoint trailing (p : positive) : Z :=
  match p with xO p => 1 + trailing p | _ => 0 end.
Definition ffsl (x : Z) : Z :=
  match u64 x with Zpos p => trailing p + 1 | _ => 0 end.

(** [flsl]: 64 less the number of leading zeros. *)
Definition flsl (x : Z) : Z := if u64 x =? 0 then 0 else Z.log2 (u64 x) + 1.

Definition __ffsl (mask : Z) : Z := s32 (ffsl mask - 1).
Definition __flsl (mask : Z) : Z := s32 (flsl mask - 1).

(** A pointer into an array of words is the list of the words from it on; an
    access behind the end is undefined. *)
Definition word (addr : list Z) : outcome Z :=
  match addr with w :: _ => Done w | [] => Undef end.

(** The part of a word below [size], from [bit] on. *)
Definition last_part (w size bit : Z) : outcome Z :=
  let* m := BITMAP_LAST_WORD_MASK size in
  let mask := s64 (Z.land w m) in
  Done (if negb (mask =? 0) then s32 (bit + __ffsl mask) else s32 (bit + size)).

(** The loop of [find_first_bit] and of the end of [find_next_bit]. *)
Fixpoint first_loop (addr : list Z) (size bit : Z) : outcome Z :=
  if size >=? BITS_PER_LONG then
    match addr with
    | [] => Undef
    | w :: addr => if w =? 0 then first_loop addr (size - BITS_PER_LONG) (s32 (bit + BITS_PER_LONG)) else Done (s32 (bit + __ffsl w))
    end
  else if size =? 0 then Done bit
  else let* w := word addr in last_part w size bit.

(** The same with the complements of the words. *)
Fixpoint first_zero_loop (addr : list Z) (size bit : Z) : outcome Z :=
  if size >=? BITS_PER_LONG then
    match addr with
    | [] => Undef
    | w :: addr => if not64 w =? 0 then first_zero_loop addr (size - BITS_PER_LONG) (s32 (bit + BITS_PER_LONG)) else Done (s32 (bit + __ffsl (not64 w)))
    end
  else if size =? 0 then Done bit
  else let* w := word addr in last_part (not64 w) size bit.

Definition find_first_bit (addr : list Z) (size : Z) : outcome Z :=
  let* bit := first_loop addr size 0 in Done (u64 bit).

Definition find_first_zero_bit (addr : list Z) (size : Z) : outcome Z :=
  let* bit := first_zero_loop addr size 0 in Done (u64 bit).

(** [find_next_bit (addr, size, offset)] *)
Definition find_next_bit (addr : list Z) (size offset : Z) : outcome Z :=
  if offset >=? size then Done size
  else
  let pos := s32 (offset / BITS_PER_LONG) in
  let offs := s32 (offset mod BITS_PER_LONG) in
  let bit := s32 (BITS_PER_LONG * pos) in
  let addr := drop (Z.to_nat pos) addr in
  if negb (offs =? 0) then
    let* w := word addr in
    let* m := BITMAP_LAST_WORD_MASK offs in
    let mask := s64 (Z.land w (not64 m)) in
    if negb (mask =? 0) then Done (u64 (s32 (bit + __ffsl mask)))
    else if u64 (size - bit) <=? BITS_PER_LONG then Done size
    else
    let bit := s32 (bit + BITS_PER_LONG) in
    let* bit := first_loop (tail addr) (u64 (size - bit)) bit in Done (u64 bit)
  else let* bit := first_loop addr (u64 (size - bit)) bit in Done (u64 bit).

(** [find_next_zero_bit (addr, size, offset)] *)
Definition find_next_zero_bit (addr : list Z) (size offset : Z) : outcome Z :=
  if offset >=? size then Done size
  else
  let pos := s32 (offset / BITS_PER_LONG) in
  let offs := s32 (offset mod BITS_PER_LONG) in
  let bit := s32 (BITS_PER_LONG * pos) in
  let addr := drop (Z.to_nat pos) addr in
  if negb (offs =? 0) then
    let* w := word addr in
    let* m := BITMAP_LAST_WORD_MASK offs in
    let mask := s64 (Z.land (not64 w) (not64 m)) in
    if negb (mask =? 0) then Done (u64 (s32 (bit + __ffsl mask)))
    else if u64 (size - bit) <=? BITS_PER_LONG then Done size
    else
    let bit := s32 (bit + BITS_PER_LONG) in
    let* bit := first_zero_loop (tail addr) (u64 (size - bit)) bit in Done (u64 bit)
  else let* bit := first_zero_loop addr (u64 (size - bit)) bit in Done (u64 bit).

(** The loop of [find_last_bit]: [addr] and [bit] point [pos] words behind the
    start; [mask] is [None] while it has no value. With [pos] = 0 the decrement
    gives -1, and the word in front of the array is read. *)
Fixpoint last_loop (addr : list Z) (size : Z) (mask : option Z) (pos : nat) (bit : Z) : outcome Z :=
  match pos with
  | O => Undef
  | S O => Done size
  | S pos =>
      let bit := s32 (bit - BITS_PER_LONG) in
      let* w := word (drop pos addr) in
      if negb (w =? 0) then match mask with Some mask => Done (u64 (s32 (bit + __flsl mask))) | None => Undef end
      else last_loop addr size mask pos bit
  end.

Definition find_last_bit (addr : list Z) (size : Z) : outcome Z :=
  let pos := s32 (size / BITS_PER_LONG) in
  let offs := s32 (size mod BITS_PER_LONG) in
  let bit := s32 (BITS_PER_LONG * pos) in
  if negb (offs =? 0) then
    let* w := word (drop (Z.to_nat pos) addr) in
    let* m := BITMAP_LAST_WORD_MASK offs in
    let mask := s64 (Z.land w m) in
    if negb (mask =? 0) then Done (u64 (s32 (bit + __flsl mask)))
    else last_loop addr size (Some mask) (Z.to_nat pos) bit
  else last_loop addr size None (Z.to_nat pos) bit.

(** ** The reference: one bit after the other *)

Definition bit_at (addr : list Z) (i : Z) : bool :=
  match addr !! Z.to_nat (i / 64) with Some w => Z.testbit w (i mod 64) | None => false end.

(** The first index from [i] on, among [n], where [p] holds. *)
Fixpoint scan (p : Z -> bool) (n : nat) (i : Z) : Z :=
  match n with O => i | S n => if p i then i else scan p n (i + 1) end.

Definition next_set (p : Z -> bool) (size offset : Z) : Z :=
  if offset >=? size then size else scan p (Z.to_nat (size - offset)) offset.

(** [r] is the first index in [lo, hi) where [p] holds, or [hi]. *)
Definition is_next (p : Z -> bool) (lo hi r : Z) : Prop :=
  lo <= r <= hi /\ (forall i, lo <= i < r -> p i = false) /\ (r < hi -> p r = true).

Lemma scan_next p n i : is_next p i (i + Z.of_nat n) (scan p n i).
Proof.
  revert i. induction n as [|n IH]; intros i; simpl scan.
  - split; [lia|]. split; intros; lia.
  - destruct (p i) eqn:E.
    + split; [lia|]. split; [intros; lia|done].
    + destruct (IH (i + 1)) as (H1 & H2 & H3). split; [lia|]. split; [|intros ?; apply H3; lia].
      intros j Hj. destruct (Z.eq_dec j i) as [->|]; [done|apply H2; lia].
Qed.

Lemma is_next_unique p lo hi r r' : is_next p lo hi r -> is_next p lo hi r' -> r = r'.
Proof.
  intros (H1 & H2 & H3) (K1 & K2 & K3). destruct (Z.lt_trichotomy r r') as [H|[H|H]]; [|done|].
  - specialize (H3 ltac:(lia)). rewrite K2 in H3 by lia. done.
  - specialize (K3 ltac:(lia)). rewrite H2 in K3 by lia. done.
Qed.

Lemma next_set_eq p lo hi r : is_next p lo hi r -> next_set p hi lo = r.
Proof.
  intros H. unfold next_set. rewrite Z.geb_leb. destruct (Z.leb_spec hi lo); [destruct H; lia|].
  eapply is_next_unique; [|exact H].
  pose proof (scan_next p (Z.to_nat (hi - lo)) lo) as K. destruct H as (? & _).
  by replace (lo + Z.of_nat (Z.to_nat (hi - lo))) with hi in K by lia.
Qed.

Lemma is_next_ext p q lo hi r : (forall i, lo <= i < hi -> p i = q i) -> is_next p lo hi r -> is_next q lo hi r.
Proof.
  intros E (H1 & H2 & H3). split; [done|]. split; [intros i Hi; rewrite <- E by lia; by apply H2|].
  intros Hr. rewrite <- E by lia. by apply H3.
Qed.

(** ** The bit operations *)

Lemma trailing_spec p : 0 <= trailing p /\ 2 ^ trailing p <= Zpos p /\ Z.testbit (Zpos p) (trailing p) = true
  /\ forall i, 0 <= i < trailing p -> Z.testbit (Zpos p) i = false.
Proof.
  induction p as [p _|p (I0 & I1 & I2 & I3)|]; cbn [trailing].
  - repeat split; [lia|lia|]. intros; lia.
  - change (Zpos p~0) with (2 * Zpos p). repeat split; [lia|rewrite Z.pow_add_r, Z.pow_1_r by lia; lia| |].
    + replace (1 + trailing p) with (Z.succ (trailing p)) by lia. by rewrite Z.testbit_even_succ by lia.
    + intros i Hi. destruct (Z.eq_dec i 0) as [->|]; [apply Z.testbit_even_0|].
      replace i with (Z.succ (i - 1)) by lia. rewrite Z.testbit_even_succ by lia. apply I3. lia.
  - repeat split; [lia|lia|]. intros; lia.
Qed.

Lemma ffsl_ok w : in_w 64 w -> w <> 0 ->
  0 <= __ffsl w < 64 /\ Z.testbit w (__ffsl w) = true /\ (forall i, 0 <= i < __ffsl w -> Z.testbit w i = false).
Proof.
  intros Hw Hn. unfold __ffsl, ffsl. rewrite (wrap_small 64 w Hw). unfold in_w in Hw.
  destruct w as [|p|p]; [done| |lia]. destruct (trailing_spec p) as (H0 & H1 & H2 & H3).
  assert (trailing p < 64). { apply (Z.pow_lt_mono_r_iff 2); lia. }
  replace (trailing p + 1 - 1) with (trailing p) by lia. rewrite swrap_small by lia. split; [lia|]. done.
Qed.

Lemma flsl_ok w : in_w 64 w -> w <> 0 ->
  0 <= __flsl w < 64 /\ Z.testbit w (__flsl w) = true /\ (forall i, __flsl w < i -> Z.testbit w i = false).
Proof.
  intros Hw Hn. unfold __flsl, flsl. rewrite (wrap_small 64 w Hw). unfold in_w in Hw.
  rewrite (proj2 (Z.eqb_neq _ _) Hn).
  assert (0 <= Z.log2 w < 64). { split; [apply Z.log2_nonneg|]. apply Z.log2_lt_pow2; lia. }
  replace (Z.log2 w + 1 - 1) with (Z.log2 w) by lia. rewrite swrap_small by lia. split; [lia|].
  split; [apply Z.bit_log2; lia|]. intros i Hi. apply Z.bits_above_log2; lia.
Qed.

Lemma u64_s64 x : in_w 64 x -> u64 (s64 x) = x.
Proof. unfold in_w, wrap, swrap. intros. zlia. Qed.

Lemma s64_zero x : in_w 64 x -> s64 x = 0 <-> x = 0.
Proof. unfold in_w, swrap. intros. zlia. Qed.

Lemma ffsl_s64 x : in_w 64 x -> __ffsl (s64 x) = __ffsl x.
Proof. intros H. unfold __ffsl, ffsl. by rewrite u64_s64, (wrap_small 64 x). Qed.
Lemma flsl_s64 x : in_w 64 x -> __flsl (s64 x) = __flsl x.
Proof. intros H. unfold __flsl, flsl. by rewrite u64_s64, (wrap_small 64 x). Qed.

Lemma last_mask n : 0 < n <= 64 -> BITMAP_LAST_WORD_MASK n = Done (2 ^ n - 1).
Proof.
  intros Hn. unfold BITMAP_LAST_WORD_MASK. rewrite (proj2 (Z.ltb_lt _ _)), (proj2 (Z.leb_le _ _)) by lia. cbn [andb].
  f_equal. unfold ones64, BITS_PER_LONG. rewrite Z.shiftr_div_pow2 by lia. symmetry. apply (Z.div_unique_pos _ _ _ (2 ^ (64 - n) - 1)).
  - assert (0 < 2 ^ (64 - n)) by (apply Z.pow_pos_nonneg; lia). lia.
  - assert (2 ^ 64 = 2 ^ (64 - n) * 2 ^ n) by (rewrite <- Z.pow_add_r by lia; f_equal; lia). lia.
Qed.

Lemma not64_bit w i : 0 <= i -> Z.testbit (not64 w) i = if i <? 64 then negb (Z.testbit w i) else Z.testbit w i.
Proof.
  intros Hi. unfold not64, ones64. rewrite Z.lxor_spec. replace (2 ^ 64 - 1) with (Z.ones 64) by done.
  destruct (Z.ltb_spec i 64); [rewrite Z.ones_spec_low by lia|rewrite Z.ones_spec_high by lia]; by destruct (Z.testbit w i).
Qed.

Lemma bits_in_w w : 0 <= w -> (forall i, 64 <= i -> Z.testbit w i = false) -> in_w 64 w.
Proof.
  intros H0 H. split; [done|]. destruct (Z.eq_dec w 0) as [->|]; [lia|].
  apply Z.log2_lt_pow2; [lia|]. destruct (Z.lt_ge_cases (Z.log2 w) 64) as [|G]; [done|].
  specialize (H _ G). rewrite Z.bit_log2 in H by lia. done.
Qed.

Lemma in_w_bits w i : in_w 64 w -> 64 <= i -> Z.testbit w i = false.
Proof.
  intros [H0 H1] Hi. destruct (Z.eq_dec w 0) as [->|]; [apply Z.testbit_0_l|].
  apply Z.bits_above_log2; [done|]. assert (Z.log2 w < 64) by (apply Z.log2_lt_pow2; lia). lia.
Qed.

Lemma not64_in_w w : in_w 64 w -> in_w 64 (not64 w).
Proof.
  intros H. apply bits_in_w; [unfold not64, in_w in *; apply Z.lxor_nonneg; unfold ones64; lia|].
  intros i Hi. rewrite not64_bit by lia. rewrite (proj2 (Z.ltb_ge _ _)) by lia. by apply in_w_bits.
Qed.

Lemma low_bits w n i : 0 <= n -> 0 <= i -> Z.testbit (Z.land w (2 ^ n - 1)) i = Z.testbit w i && (i <? n).
Proof.
  intros Hn Hi. rewrite land_mask by done. destruct (Z.ltb_spec i n).
  - by rewrite Z.mod_pow2_bits_low, andb_true_r by lia.
  - by rewrite Z.mod_pow2_bits_high, andb_false_r by lia.
Qed.

Lemma low_in_w w n : in_w 64 w -> in_w 64 (Z.land w (2 ^ n - 1)).
Proof.
  intros H. apply bits_in_w; [apply Z.land_nonneg; left; apply H|]. intros i Hi. rewrite Z.land_spec, (in_w_bits w) by done. done.
Qed.

Lemma high_bits w n i : 0 <= n -> 0 <= i < 64 -> Z.testbit (Z.land w (not64 (2 ^ n - 1))) i = Z.testbit w i && (n <=? i).
Proof.
  intros Hn Hi. rewrite Z.land_spec, not64_bit by lia. rewrite (proj2 (Z.ltb_lt i 64)) by lia.
  replace (2 ^ n - 1) with (Z.ones n) by (rewrite Z.ones_equiv; lia). f_equal.
  destruct (Z.leb_spec n i); [by rewrite Z.ones_spec_high by lia|by rewrite Z.ones_spec_low by lia].
Qed.

Lemma high_in_w w n : in_w 64 w -> in_w 64 (Z.land w (not64 (2 ^ n - 1))).
Proof.
  intros H. apply bits_in_w; [apply Z.land_nonneg; left; apply H|]. intros i Hi. rewrite Z.land_spec, (in_w_bits w) by done. done.
Qed.

(** ** The loops *)

Lemma bit_at_cons w addr i : 0 <= i -> bit_at (w :: addr) i = if i <? 64 then Z.testbit w i else bit_at addr (i - 64).
Proof.
  intros Hi. unfold bit_at. destruct (Z.ltb_spec i 64).
  - rewrite Z.div_small, Z.mod_small by lia. done.
  - assert (i / 64 = (i - 64) / 64 + 1) as -> by zlia. assert (i mod 64 = (i - 64) mod 64) as -> by zlia.
    rewrite Z2Nat.inj_add by (try apply Z.div_pos; lia). by rewrite Nat.add_1_r.
Qed.

Lemma zero_is_next w : in_w 64 w -> w = 0 \/ exists k, 0 <= k < 64 /\ w <> 0 /\ __ffsl w = k /\ is_next (Z.testbit w) 0 64 k.
Proof.
  intros Hw. destruct (Z.eq_dec w 0) as [->|Hn]; [by left|right].
  destruct (ffsl_ok w Hw Hn) as (H1 & H2 & H3). exists (__ffsl w). repeat split; try done; lia.
Qed.

Lemma last_part_ok w size bit : in_w 64 w -> 0 < size < 64 -> 0 <= bit -> bit + size < 2 ^ 31 ->
  exists r, last_part w size bit = Done (bit + r) /\ is_next (Z.testbit w) 0 size r.
Proof.
  intros Hw Hs Hb Hbs. unfold last_part. rewrite last_mask by lia. cbn [obind].
  pose proof (low_in_w w size Hw) as Hm. set (mk := Z.land w (2 ^ size - 1)) in *.
  assert (forall i, 0 <= i < size -> Z.testbit w i = Z.testbit mk i) as Hbit.
  { intros i Hi. unfold mk. rewrite low_bits by lia. by rewrite (proj2 (Z.ltb_lt i size)), andb_true_r by lia. }
  destruct (Z.eqb_spec (s64 mk) 0) as [E|E]; cbn [negb].
  - apply (proj1 (s64_zero _ Hm)) in E. exists size. rewrite swrap_small by lia. split; [done|].
    split; [lia|]. split; [|lia]. intros i Hi. by rewrite Hbit, E, Z.testbit_0_l by lia.
  - rewrite ffsl_s64 by done. destruct (ffsl_ok mk Hm) as (H1 & H2 & H3); [intros H0; apply E; by apply (proj2 (s64_zero _ Hm))|].
    assert (__ffsl mk < size) as Hl.
    { unfold mk in H2 at 1. rewrite low_bits in H2 by lia. apply andb_true_iff in H2 as [_ H2]. lia. }
    exists (__ffsl mk). rewrite swrap_small by lia. split; [done|]. split; [lia|].
    split; [intros i Hi; rewrite Hbit by lia; by apply H3|]. intros _. by rewrite Hbit by lia.
Qed.

Lemma first_loop_ok addr size bit : Forall (in_w 64) addr -> 0 <= size <= 64 * len addr -> 0 <= bit -> bit + size < 2 ^ 31 ->
  exists r, first_loop addr size bit = Done (bit + r) /\ is_next (bit_at addr) 0 size r.
Proof.
  revert size bit. induction addr as [|w addr IH]; intros size bit Hf Hs Hb Hbs; cbn [first_loop]; unfold BITS_PER_LONG.
  - unfold len in Hs. simpl in Hs. assert (size = 0) as -> by lia. exists 0. rewrite Z.add_0_r. split; [done|]. split; [lia|]. split; intros; lia.
  - apply Forall_cons in Hf as [Hw Hf]. rewrite len_cons in Hs. rewrite Z.geb_leb.
    destruct (Z.leb_spec 64 size).
    + destruct (zero_is_next w Hw) as [->|(k & Hk & Hn & E & N1 & N2 & N3)].
      * rewrite Z.eqb_refl. rewrite swrap_small by lia.
        destruct (IH (size - 64) (bit + 64) Hf) as (r & E & N1 & N2 & N3); [lia|lia|lia|].
        exists (64 + r). rewrite E. split; [f_equal; lia|]. split; [lia|]. split.
        -- intros i Hi. rewrite bit_at_cons by lia. destruct (Z.ltb_spec i 64); [apply Z.testbit_0_l|apply N2; lia].
        -- intros Hr. rewrite bit_at_cons by lia. rewrite (proj2 (Z.ltb_ge _ _)) by lia. replace (64 + r - 64) with r by lia. apply N3. lia.
      * rewrite (proj2 (Z.eqb_neq _ _) Hn), E. exists k. rewrite swrap_small by lia. split; [done|]. split; [lia|]. split.
        -- intros i Hi. rewrite bit_at_cons, (proj2 (Z.ltb_lt _ _)) by lia. apply N2. lia.
        -- intros _. rewrite bit_at_cons, (proj2 (Z.ltb_lt _ _)) by lia. apply N3. lia.
    + destruct (Z.eqb_spec size 0) as [->|].
      { exists 0. rewrite Z.add_0_r. split; [done|]. split; [lia|]. split; intros; lia. }
      cbn [word obind]. destruct (last_part_ok w size bit Hw) as (r & E & N); [lia|lia|lia|].
      exists r. split; [done|]. eapply is_next_ext; [|exact N]. intros i Hi. by rewrite bit_at_cons, (proj2 (Z.ltb_lt _ _)) by lia.
Qed.

(** The searches for zeros are the searches for ones in the complement. *)
Lemma first_zero_not addr size bit : first_zero_loop addr size bit = first_loop (not64 <$> addr) size bit.
Proof.
  revert size bit. induction addr as [|w addr IH]; intros size bit; [done|]. cbn [first_zero_loop first_loop fmap list_fmap].
  destruct (size >=? BITS_PER_LONG); [|done]. rewrite IH. done.
Qed.

Lemma find_first_zero_not addr size : find_first_zero_bit addr size = find_first_bit (not64 <$> addr) size.
Proof. unfold find_first_zero_bit. by rewrite first_zero_not. Qed.

Lemma find_next_zero_not addr size offset : find_next_zero_bit addr size offset = find_next_bit (not64 <$> addr) size offset.
Proof.
  unfold find_next_zero_bit, find_next_bit. destruct (offset >=? size); [done|]. cbv zeta. rewrite <- fmap_drop.
  destruct (drop _ addr) as [|w l]; [done|]. cbn [word obind fmap list_fmap tail]. by rewrite !first_zero_not.
Qed.

Lemma bit_at_not addr i : 0 <= i < 64 * len addr -> bit_at (not64 <$> addr) i = negb (bit_at addr i).
Proof.
  intros Hi. unfold bit_at. rewrite list_lookup_fmap.
  destruct (lookup_lt_is_Some_2 addr (Z.to_nat (i / 64))) as [w ->]; [unfold len in Hi; zlia|]. simpl.
  rewrite not64_bit by (apply Z.mod_pos_bound; lia). by rewrite (proj2 (Z.ltb_lt _ _)) by (apply Z.mod_pos_bound; lia).
Qed.

Lemma words_not addr : Forall (in_w 64) addr -> Forall (in_w 64) (not64 <$> addr).
Proof. rewrite Forall_fmap. intros H. eapply Forall_impl; [exact H|]. intros w. apply not64_in_w. Qed.

Lemma bit_at_drop addr pos i : 0 <= i -> bit_at (drop pos addr) i = bit_at addr (i + 64 * Z.of_nat pos).
Proof.
  intros Hi. unfold bit_at. rewrite lookup_drop.
  assert ((i + 64 * Z.of_nat pos) / 64 = Z.of_nat pos + i / 64) as -> by zlia.
  assert ((i + 64 * Z.of_nat pos) mod 64 = i mod 64) as -> by zlia.
  by rewrite Z2Nat.inj_add, Nat2Z.id by (try apply Z.div_pos; lia).
Qed.

(** A search from the start of a word is a search in the rest of the array. *)
Lemma is_next_drop addr pos n r : is_next (bit_at (drop pos addr)) 0 n r ->
  is_next (bit_at addr) (64 * Z.of_nat pos) (64 * Z.of_nat pos + n) (64 * Z.of_nat pos + r).
Proof.
  intros (H1 & H2 & H3). split; [lia|]. split.
  - intros i Hi. replace i with (i - 64 * Z.of_nat pos + 64 * Z.of_nat pos) by lia. rewrite <- bit_at_drop by lia. apply H2. lia.
  - intros Hr. replace (64 * Z.of_nat pos + r) with (r + 64 * Z.of_nat pos) by lia. rewrite <- bit_at_drop by lia. apply H3. lia.
Qed.

Lemma is_next_skip p lo mid hi r : lo <= mid -> (forall i, lo <= i < mid -> p i = false) -> is_next p mid hi r -> is_next p lo hi r.
Proof.
  intros Hl Hz (H1 & H2 & H3). split; [lia|]. split; [|done].
  intros i Hi. destruct (Z.lt_ge_cases i mid); [apply Hz|apply H2]; lia.
Qed.

Lemma find_first_ok addr size : Forall (in_w 64) addr -> 0 <= size <= 64 * len addr -> size < 2 ^ 31 ->
  find_first_bit addr size = Done (next_set (bit_at addr) size 0).
Proof.
  intros Hf Hs Hb. unfold find_first_bit. destruct (first_loop_ok addr size 0 Hf Hs) as (r & -> & N); [lia|lia|].
  cbn [obind Z.add]. rewrite (next_set_eq _ _ _ _ N). destruct N as (N & _). f_equal. apply wrap_small. split; lia.
Qed.

(** The rest of the array from word [pos] on. *)
Lemma rest_ok addr size pos : Forall (in_w 64) addr -> 64 * Z.of_nat pos <= size <= 64 * len addr -> size < 2 ^ 31 ->
  exists r, first_loop (drop pos addr) (size - 64 * Z.of_nat pos) (64 * Z.of_nat pos) = Done r
    /\ is_next (bit_at addr) (64 * Z.of_nat pos) size r.
Proof.
  intros Hf Hs Hb.
  destruct (first_loop_ok (drop pos addr) (size - 64 * Z.of_nat pos) (64 * Z.of_nat pos)) as (r & E & N).
  - by apply Forall_drop.
  - unfold len in *. rewrite length_drop. lia.
  - lia.
  - lia.
  - eexists. split; [exact E|]. apply is_next_drop in N. by replace (64 * Z.of_nat pos + (size - 64 * Z.of_nat pos)) with size in N by lia.
Qed.

(** The rest of the word the search starts in. *)
Lemma word_rest addr pos w offs : addr !! pos = Some w -> in_w 64 w -> 0 < offs < 64 ->
  let mk := Z.land w (not64 (2 ^ offs - 1)) in
  (mk = 0 -> forall i, 64 * Z.of_nat pos + offs <= i < 64 * Z.of_nat pos + 64 -> bit_at addr i = false)
  /\ (mk <> 0 -> offs <= __ffsl mk < 64 /\ bit_at addr (64 * Z.of_nat pos + __ffsl mk) = true
       /\ forall i, 64 * Z.of_nat pos + offs <= i < 64 * Z.of_nat pos + __ffsl mk -> bit_at addr i = false).
Proof.
  intros Hl Hw Ho mk.
  assert (forall k, offs <= k < 64 -> bit_at addr (64 * Z.of_nat pos + k) = Z.testbit mk k) as Hbit.
  { intros k Hk. unfold bit_at, mk. assert ((64 * Z.of_nat pos + k) / 64 = Z.of_nat pos) as -> by zlia.
    assert ((64 * Z.of_nat pos + k) mod 64 = k) as -> by zlia. rewrite Nat2Z.id, Hl.
    rewrite high_bits by lia. by rewrite (proj2 (Z.leb_le offs k)), andb_true_r by lia. }
  pose proof (high_in_w w offs Hw) as Hm. fold mk in Hm. split.
  - intros E i Hi. replace i with (64 * Z.of_nat pos + (i - 64 * Z.of_nat pos)) by lia. rewrite Hbit by lia. by rewrite E, Z.testbit_0_l.
  - intros Hn. destruct (ffsl_ok mk Hm Hn) as (H1 & H2 & H3).
    assert (offs <= __ffsl mk).
    { unfold mk in H2 at 1. rewrite high_bits in H2 by lia. apply andb_true_iff in H2 as [_ H2]. lia. }
    split; [lia|]. split; [by rewrite Hbit by lia|]. intros i Hi.
    replace i with (64 * Z.of_nat pos + (i - 64 * Z.of_nat pos)) by lia. rewrite Hbit by lia. apply H3. lia.
Qed.

(** The bits a search from [offset] looks at end at [size], but when it starts
    inside of a word all bits of this word are looked at. *)
Definition search_end (size offset : Z) : Z := if offset mod 64 =? 0 then size else Z.max size (64 * (offset / 64) + 64).

(** The first index from [offset] up to there, or [size] when there is none. *)
Definition next_found (p : Z -> bool) (size offset : Z) : Z :=
  if offset >=? size then size
  else let r := next_set p (search_end size offset) offset in if r <? search_end size offset then r else size.

Lemma next_found_eq p size offset r : offset < size -> is_next p offset (search_end size offset) r ->
  next_found p size offset = if r <? search_end size offset then r else size.
Proof. intros Ho H. unfold next_found. rewrite Z.geb_leb, (proj2 (Z.leb_gt _ _)) by lia. by rewrite (next_set_eq _ _ _ _ H). Qed.

Lemma find_next_ok addr size offset : Forall (in_w 64) addr -> 0 <= size <= 64 * len addr -> size < 2 ^ 31 -> 0 <= offset ->
  find_next_bit addr size offset = Done (next_found (bit_at addr) size offset).
Proof.
  intros Hf Hs Hb Ho. unfold find_next_bit. destruct (offset >=? size) eqn:Eo; [by unfold next_found; rewrite Eo|].
  rewrite Z.geb_leb in Eo. apply Z.leb_gt in Eo. pose proof (next_found_eq (bit_at addr) size offset) as HF. unfold search_end in HF. unfold BITS_PER_LONG.
  set (pos := Z.to_nat (offset / 64)). assert (offset / 64 = Z.of_nat pos) as Hp by (unfold pos; rewrite Z2Nat.id by (apply Z.div_pos; lia); lia).
  assert (0 <= offset mod 64 < 64) as Hm by (apply Z.mod_pos_bound; lia).
  assert (offset = 64 * Z.of_nat pos + offset mod 64) as Hd by (rewrite <- Hp; apply Z.div_mod; lia).
  rewrite Hp in *. rewrite (swrap_small 32 (Z.of_nat pos)), (swrap_small 32 (offset mod 64)), (swrap_small 32 (64 * Z.of_nat pos)), Nat2Z.id by lia.
  set (offs := offset mod 64) in *. clearbody offs. rewrite (wrap_small 64 (size - _)) by (split; lia).
  destruct (Z.eqb_spec offs 0) as [E0|E0]; cbn [negb].
  { destruct (rest_ok addr size pos Hf) as (r & -> & N); [lia|lia|]. cbn [obind]. replace (64 * Z.of_nat pos) with offset in N by lia.
    rewrite (HF r Eo N). destruct N as (N & _). rewrite wrap_small by (split; lia). destruct (Z.ltb_spec r size); [done|]. f_equal. lia. }
  destruct (lookup_lt_is_Some_2 addr pos) as [w Hw]; [unfold len in Hs; lia|].
  rewrite (drop_S _ _ _ Hw). cbn [word obind tail]. rewrite last_mask by lia. cbn [obind].
  assert (in_w 64 w) as Hww by (by eapply Forall_lookup_1 in Hw).
  pose proof (high_in_w w offs Hww) as Hmk. destruct (word_rest addr pos w offs Hw Hww) as [Hz Hn]; [lia|].
  set (mk := Z.land w (not64 (2 ^ offs - 1))) in *. rewrite ffsl_s64 by done.
  destruct (Z.eqb_spec (s64 mk) 0) as [E|E]; cbn [negb].
  - apply (proj1 (s64_zero _ Hmk)) in E. specialize (Hz E).
    destruct (Z.leb_spec (size - 64 * Z.of_nat pos) 64).
    + rewrite (HF (64 * Z.of_nat pos + 64) Eo), (proj2 (Z.ltb_ge _ _)); [done|lia|]. split; [lia|]. split; [|lia]. intros i Hi. apply Hz. lia.
    + rewrite swrap_small by lia. rewrite wrap_small by (split; lia).
      destruct (rest_ok addr size (S pos) Hf) as (r & Er & N); [lia|lia|].
      replace (64 * Z.of_nat pos + 64) with (64 * Z.of_nat (S pos)) by lia. rewrite Er. cbn [obind].
      rewrite Z.max_l in HF by lia. rewrite (HF r Eo); [|eapply is_next_skip; [|intros i Hi; apply Hz|exact N]; lia].
      destruct N as (N & _). rewrite wrap_small by (split; lia). destruct (Z.ltb_spec r size); [done|]. f_equal. lia.
  - destruct Hn as (K1 & K2 & K3); [intros E'; apply E; by apply (proj2 (s64_zero _ Hmk))|].
    rewrite swrap_small, wrap_small by (try split; lia). rewrite (HF (64 * Z.of_nat pos + __ffsl mk) Eo), (proj2 (Z.ltb_lt _ _)); [done|lia|].
    split; [lia|]. split; [intros i Hi; apply K3; lia|done].
Qed.

(** Below [size] this is the first index; otherwise there is none below it. *)
Lemma next_found_min p size offset : 0 <= offset -> Z.min (next_found p size offset) size = next_set p size offset.
Proof.
  intros Ho. unfold next_found. destruct (offset >=? size) eqn:Eo; [unfold next_set; rewrite Eo; lia|].
  rewrite Z.geb_leb in Eo. apply Z.leb_gt in Eo. set (e := search_end size offset). assert (size <= e) as He by (unfold e, search_end; destruct (_ =? 0); lia).
  pose proof (scan_next p (Z.to_nat (e - offset)) offset) as N. replace (offset + Z.of_nat (Z.to_nat (e - offset))) with e in N by lia.
  rewrite (next_set_eq _ _ _ _ N). destruct N as (N1 & N2 & N3). set (r := scan p _ offset) in *. symmetry. apply next_set_eq.
  destruct (Z.ltb_spec r e); (split; [lia|]; split; [intros i Hi; apply N2; lia|]); intros Hr; [rewrite Z.min_l by lia; by apply N3|lia].
Qed.

Lemma next_set_ext p q size offset : 0 <= offset -> (forall i, 0 <= i < size -> p i = q i) -> next_set p size offset = next_set q size offset.
Proof.
  intros Ho H. unfold next_set. rewrite Z.geb_leb. destruct (Z.leb_spec size offset); [done|].
  pose proof (scan_next p (Z.to_nat (size - offset)) offset) as N. eapply is_next_unique; [|apply scan_next].
  eapply is_next_ext; [|exact N]. intros i Hi. apply H. lia.
Qed.

Lemma next_found_ext p q size offset : 0 <= offset -> (forall i, 0 <= i < search_end size offset -> p i = q i) -> next_found p size offset = next_found q size offset.
Proof. intros Ho H. unfold next_found. destruct (offset >=? size); [done|]. by rewrite (next_set_ext p q _ offset). Qed.

(** C25: The searches of bitops.c are the search bit by bit. For an array of
    words with at least [size] bits, and a size below 2^31, [find_first_bit]
    and [find_first_zero_bit] return the index of the first 1 or 0 below
    [size], or [size]. [find_next_bit] and [find_next_zero_bit] return the
    first one from [offset] on, or [size], where a search that starts inside of
    a word looks at all bits of this word, those behind [size] too
    ([next_found]): the result is below [size] exactly if there is such an
    index below [size], and then it is the first one; otherwise it need not be
    [size]. No access is behind the words of the array and no shift is
    undefined. *)
Theorem bit_searches_correct addr size :
  Forall (in_w 64) addr -> 0 <= size <= 64 * len addr -> size < 2 ^ 31 ->
  find_first_bit addr size = Done (next_set (bit_at addr) size 0)
  /\ find_first_zero_bit addr size = Done (next_set (fun i => negb (bit_at addr i)) size 0)
  /\ (forall offset, 0 <= offset ->
       find_next_bit addr size offset = Done (next_found (bit_at addr) size offset)
       /\ find_next_zero_bit addr size offset = Done (next_found (fun i => negb (bit_at addr i)) size offset)
       /\ forall p, Z.min (next_found p size offset) size = next_set p size offset).
Proof.
  intros Hf Hs Hb. assert (Forall (in_w 64) (not64 <$> addr)) as Hf' by (by apply words_not).
  assert (0 <= size <= 64 * len (not64 <$> addr)) as Hs' by (unfold len in *; by rewrite length_fmap).
  split; [by apply find_first_ok|]. split.
  - rewrite find_first_zero_not, find_first_ok by done. f_equal. apply next_set_ext; [done|]. intros i Hi. apply bit_at_not. lia.
  - intros o Ho. split; [by apply find_next_ok|]. split; [|intros p; by apply next_found_min]. rewrite find_next_zero_not, find_next_ok by done. f_equal.
    destruct (Z.lt_ge_cases o size) as [Hlt|Hge]; [|unfold next_found; by rewrite Z.geb_leb, (proj2 (Z.leb_le _ _)) by lia].
    apply next_found_ext; [done|]. intros i Hi. apply bit_at_not. unfold search_end in Hi. destruct (_ =? 0); zlia.
Qed.

Lemma bit_searches_correct_witness :
  find_first_bit [0; 12] 100 = Done 66 /\ next_set (bit_at [0; 12]) 100 0 = 66 /\ find_next_zero_bit [-1 mod 2 ^ 64; 13] 100 3 = Done 65.
Proof.
  assert (Forall (in_w 64) [0; 12]) as Hf by (repeat constructor; vm_compute; congruence).
  refine (conj (eq_trans (proj1 (bit_searches_correct [0; 12] 100 Hf _ _)) _) (conj _ _)); [by vm_compute|by vm_compute|by vm_compute|by vm_compute|by vm_compute].
Defined.

(** A result of [find_next_bit] may be greater than [size]. *)
Lemma find_next_bit_above_size : find_next_bit [2 ^ 20] 10 3 = Done 20.
Proof. vm_compute. reflexivity. Qed.

(** [find_last_bit] is right when there is a 1 in the incomplete last word,
    and never looks at the first word otherwise: *)
Lemma find_last_in_last_word addr size i :
  Forall (in_w 64) addr -> 0 <= size <= 64 * len addr -> size < 2 ^ 31 ->
  size / 64 * 64 <= i < size -> bit_at addr i = true ->
  exists r, find_last_bit addr size = Done r /\ i <= r < size /\ bit_at addr r = true /\ forall j, r < j < size -> bit_at addr j = false.
Proof.
  intros Hf Hs Hb Hi Ht. unfold find_last_bit, BITS_PER_LONG.
  set (pos := Z.to_nat (size / 64)). assert (size / 64 = Z.of_nat pos) as Hp by (unfold pos; rewrite Z2Nat.id by (apply Z.div_pos; lia); lia).
  assert (0 <= size mod 64 < 64) as Hm by (apply Z.mod_pos_bound; lia).
  assert (size = 64 * Z.of_nat pos + size mod 64) as Hd by (rewrite <- Hp; apply Z.div_mod; lia).
  rewrite Hp in *. rewrite (swrap_small 32 (Z.of_nat pos)), (swrap_small 32 (size mod 64)), (swrap_small 32 (64 * Z.of_nat pos)), Nat2Z.id by lia.
  set (offs := size mod 64) in *. clearbody offs. rewrite (proj2 (Z.eqb_neq offs 0)) by lia. cbn [negb].
  destruct (lookup_lt_is_Some_2 addr pos) as [w Hw]; [unfold len in Hs; lia|].
  rewrite (drop_S _ _ _ Hw). cbn [word obind]. rewrite last_mask by lia. cbn [obind].
  assert (in_w 64 w) as Hww by (by eapply Forall_lookup_1 in Hw).
  pose proof (low_in_w w offs Hww) as Hmk. set (mk := Z.land w (2 ^ offs - 1)) in *.
  assert (forall k, 0 <= k < offs -> bit_at addr (64 * Z.of_nat pos + k) = Z.testbit mk k) as Hbit.
  { intros k Hk. unfold bit_at, mk. assert ((64 * Z.of_nat pos + k) / 64 = Z.of_nat pos) as -> by zlia.
    assert ((64 * Z.of_nat pos + k) mod 64 = k) as -> by zlia. rewrite Nat2Z.id, Hw.
    rewrite low_bits by lia. by rewrite (proj2 (Z.ltb_lt k offs)), andb_true_r by lia. }
  replace i with (64 * Z.of_nat pos + (i - 64 * Z.of_nat pos)) in Ht by lia. rewrite Hbit in Ht by lia.
  assert (mk <> 0) as Hn by (intros E; by rewrite E, Z.testbit_0_l in Ht).
  rewrite (proj2 (Z.eqb_neq (s64 mk) 0)) by (intros E; apply Hn; by apply (proj1 (s64_zero _ Hmk))). cbn [negb].
  rewrite flsl_s64 by done. destruct (flsl_ok mk Hmk Hn) as (K1 & K2 & K3).
  assert (__flsl mk < offs). { unfold mk in K2 at 1. rewrite low_bits in K2 by lia. apply andb_true_iff in K2 as [_ K2]. lia. }
  rewrite swrap_small, wrap_small by (try split; lia). eexists. split; [done|].
  assert (i - 64 * Z.of_nat pos <= __flsl mk).
  { destruct (Z.le_gt_cases (i - 64 * Z.of_nat pos) (__flsl mk)); [done|]. by rewrite K3 in Ht by lia. }
  split; [lia|]. split; [by rewrite Hbit by lia|]. intros j Hj.
  replace j with (64 * Z.of_nat pos + (j - 64 * Z.of_nat pos)) by lia. rewrite Hbit by lia. apply K3. lia.
Qed.

Lemma find_last_bit_wrong :
  find_last_bit [1] 64 = Done 64                        (* bit 0 is set *)
  /\ find_last_bit [0] 10 = Undef                       (* reads in front of the array *)
  /\ find_last_bit [0; 8; 0] 130 = Done 63              (* bit 67 is set, 63 is not *)
  /\ find_last_bit [0; 8] 128 = Undef.                  (* uses mask without a value *)
Proof. vm_compute. repeat split. Qed.
End Bitops.
