(* ===== verification/Bits.v ===== *)
(** * ilog2.h, bitops.h, circ_buffer.h : macros on integers

    Logarithms to the base 2 and what is made of them, bit fields, and the
    indices of a ring.  A macro takes the size of its argument's type as [sz],
    in bytes, and whether the compiler knows the argument as [const]. *)
From Stdlib Require Import ZArith Lia Bool.
From stdpp Require Import base list numbers gmap.
From S2P Require Import Prelude Bitops.

Module Bits.

(** ** Logarithms *)

(** [__builtin_clz] and [__builtin_clzl]: the zeros above the highest bit of
    an unsigned integer of [w] bits; of 0 there is no result. *)
Definition clz (w x : Z) : outcome Z := guard* negb (x =? 0) in Done (w - 1 - Z.log2 x).

(** [fls], [flsl] and [flsll] of an unsigned value; [sizeof] makes the
    difference an unsigned one. *)
Definition fls (sz x : Z) : outcome Z :=
  if negb (x =? 0) then let* z := clz 32 (u32 x) in Done (u64 (sz * 8 - z)) else Done 0.
Definition flsl (sz x : Z) : outcome Z :=
  if negb (x =? 0) then let* z := clz 64 (u64 x) in Done (u64 (sz * 8 - z)) else Done 0.
Definition flsll (sz x : Z) : outcome Z := flsl sz x.

Definition __ilog2_u32 (n : Z) : outcome Z := let* k := fls 4 n in Done (s32 (k - 1)).
Definition __ilog2_u64 (n : Z) : outcome Z := let* k := flsll 8 n in Done (s32 (k - 1)).

Definition is_power_of_2 (n : Z) : bool := negb (n =? 0) && (Z.land n (u64 (n - 1)) =? 0).

(** [1UL << k] *)
Definition shl1 (k : Z) : outcome Z := guard* (0 <=? k) && (k <? 64) in Done (Z.shiftl 1 k).

Definition __roundup_pow_of_two (n : Z) : outcome Z := let* k := flsl 8 (u64 (n - 1)) in shl1 k.
Definition __rounddown_pow_of_two (n : Z) : outcome Z := let* k := flsl 8 n in shl1 (u64 (k - 1)).

(** [const_ilog2 (n)]: the bits from 63 down to 2. *)
Fixpoint ilog2_chain (k : nat) (n : Z) : Z :=
  match k with
  | O => 1
  | S k' => if negb (Z.land n (Z.shiftl 1 (Z.of_nat k + 1)) =? 0) then Z.of_nat k + 1 else ilog2_chain k' n
  end.
Definition const_ilog2 (const : bool) (n : Z) : Z := if const then (if n <? 2 then 0 else ilog2_chain 62 n) else -1.

Definition ilog2 (const : bool) (sz n : Z) : outcome Z :=
  if const then (if n <? 2 then Done 0 else let* z := clz 64 n in Done (63 - z))
  else if sz <=? 4 then __ilog2_u32 n else __ilog2_u64 n.

Definition roundup_pow_of_two (const : bool) (sz n : Z) : outcome Z :=
  if const then (if n =? 1 then Done 1 else let* k := ilog2 true sz (wrap (8 * sz) (n - 1)) in shl1 (k + 1))
  else __roundup_pow_of_two n.

Definition rounddown_pow_of_two (const : bool) (sz n : Z) : outcome Z :=
  if const then let* k := ilog2 true sz n in shl1 k else __rounddown_pow_of_two n.

Definition __order_base_2 (n : Z) : outcome Z :=
  if n >? 1 then let* k := ilog2 false 8 (n - 1) in Done (k + 1) else Done 0.
Definition order_base_2 (const : bool) (sz n : Z) : outcome Z :=
  if const then (if (n =? 0) || (n =? 1) then Done 0 else let* k := ilog2 true sz (n - 1) in Done (k + 1))
  else __order_base_2 n.

Definition __bits_per (n : Z) : outcome Z :=
  if n <? 2 then Done 1
  else if is_power_of_2 n then let* k := order_base_2 false 8 n in Done (k + 1) else order_base_2 false 8 n.
Definition bits_per (const : bool) (sz n : Z) : outcome Z :=
  if const then (if (n =? 0) || (n =? 1) then Done 1 else let* k := ilog2 true sz n in Done (k + 1)) else __bits_per n.

(** *** What they are *)

Lemma log2_range w n : 0 < n < 2 ^ w -> 0 <= Z.log2 n < w.
Proof. intros Hn. split; [apply Z.log2_nonneg|]. apply Z.log2_lt_pow2; lia. Qed.

Lemma word_fls_ok n : 0 < n < 2 ^ 64 -> flsl 8 n = Done (Z.log2 n + 1).
Proof.
  intros Hn. pose proof (log2_range 64 n Hn). unfold flsl, clz. rewrite (wrap_small 64 n) by (split; lia).
  rewrite (proj2 (Z.eqb_neq n 0)) by lia. cbn [negb obind]. f_equal. rewrite wrap_small; [lia|split; lia].
Qed.

Lemma fls_ok n : 0 < n < 2 ^ 32 -> fls 4 n = Done (Z.log2 n + 1).
Proof.
  intros Hn. pose proof (log2_range 32 n Hn). unfold fls, clz. rewrite (wrap_small 32 n) by (split; lia).
  rewrite (proj2 (Z.eqb_neq n 0)) by lia. cbn [negb obind]. f_equal. rewrite wrap_small; [lia|split; lia].
Qed.

(** The logarithm of a number that is not 0, known or not. *)
Lemma ilog2_ok const sz n : sz = 4 \/ sz = 8 -> 0 < n < 2 ^ (8 * sz) -> ilog2 const sz n = Done (Z.log2 n).
Proof.
  intros Hsz Hn. assert (0 < n < 2 ^ 64) as Hn64 by (destruct Hsz; subst sz; lia). pose proof (log2_range 64 n Hn64) as Hl. unfold ilog2. destruct const.
  - destruct (Z.ltb_spec n 2); [by replace n with 1 by lia|]. unfold clz. rewrite (proj2 (Z.eqb_neq n 0)) by lia. cbn [negb obind]. f_equal. lia.
  - destruct Hsz as [->| ->]; cbn [Z.leb Z.compare Pos.compare Pos.compare_cont].
    + unfold __ilog2_u32. rewrite fls_ok by done. cbn [obind]. f_equal. rewrite swrap_small; lia.
    + unfold __ilog2_u64, flsll. rewrite word_fls_ok by done. cbn [obind]. f_equal. rewrite swrap_small; lia.
Qed.

Lemma testbit_land n k : 0 <= k -> negb (Z.land n (Z.shiftl 1 k) =? 0) = Z.testbit n k.
Proof.
  intros Hk. rewrite Z.shiftl_1_l. destruct (Z.testbit n k) eqn:E.
  - apply negb_true_iff, Z.eqb_neq. intros H. apply (f_equal (fun z => Z.testbit z k)) in H.
    rewrite Z.land_spec, E, Z.pow2_bits_true, Z.bits_0 in H by done. done.
  - apply negb_false_iff, Z.eqb_eq, Z.bits_inj_iff'. intros j Hj. rewrite Z.land_spec, Z.bits_0, Z.pow2_bits_eqb by done.
    destruct (Z.eqb_spec k j) as [<-|]; [by rewrite E|apply andb_false_r].
Qed.

Lemma ilog2_chain_ok k n : 2 <= n < 2 ^ (Z.of_nat k + 2) -> ilog2_chain k n = Z.log2 n.
Proof.
  induction k as [|k IH]; intros Hn; cbn [ilog2_chain].
  - symmetry. apply Z.log2_unique; [lia|]. change (Z.of_nat 0 + 2) with 2 in Hn. split; lia.
  - rewrite testbit_land by lia. replace (Z.of_nat (S k) + 2) with (Z.succ (Z.of_nat (S k) + 1)) in Hn by lia.
    destruct (Z.le_gt_cases (2 ^ (Z.of_nat (S k) + 1)) n) as [Hge|Hlt].
    + assert (Z.log2 n = Z.of_nat (S k) + 1) as E by (apply Z.log2_unique; lia). rewrite <- E, Z.bit_log2 by lia. done.
    + rewrite (Z.bits_above_log2 n (Z.of_nat (S k) + 1)); [|lia|apply Z.log2_lt_pow2; lia].
      apply IH. replace (Z.of_nat k + 2) with (Z.of_nat (S k) + 1) by lia. lia.
Qed.

Lemma const_ilog2_ok n : 0 < n < 2 ^ 64 -> const_ilog2 true n = Z.log2 n.
Proof.
  intros Hn. unfold const_ilog2. destruct (Z.ltb_spec n 2); [by replace n with 1 by lia|].
  apply ilog2_chain_ok. change (Z.of_nat 62 + 2) with 64. lia.
Qed.

Lemma shl1_ok k : 0 <= k < 64 -> shl1 k = Done (2 ^ k).
Proof.
  intros Hk. unfold shl1. rewrite (proj2 (Z.leb_le 0 k)), (proj2 (Z.ltb_lt k 64)) by lia. cbn [andb]. by rewrite Z.shiftl_1_l.
Qed.

Lemma log2_up_pred n : 1 < n -> Z.log2_up n = Z.log2 (n - 1) + 1.
Proof. intros Hn. rewrite Z.log2_up_eqn by lia. rewrite <- Z.sub_1_r. lia. Qed.

(** The least power of 2 that is not less than [n], for [n] up to 2^63; 0 has
    none, and of the numbers above it would not fit. *)
Lemma next_power_ok const sz n : sz = 4 \/ sz = 8 -> 0 < n < 2 ^ (8 * sz) -> n <= 2 ^ 63 ->
  roundup_pow_of_two const sz n = Done (2 ^ Z.log2_up n) /\ n <= 2 ^ Z.log2_up n /\ forall k, 0 <= k -> n <= 2 ^ k -> 2 ^ Z.log2_up n <= 2 ^ k.
Proof.
  intros Hsz Hn H63. split.
  - unfold roundup_pow_of_two, __roundup_pow_of_two. assert (n < 2 ^ 64) as H64 by lia. destruct (Z.eq_dec n 1) as [->|Hne]; [by destruct const|].
    pose proof (log2_up_pred n ltac:(lia)) as Eu. assert (Z.log2 (n - 1) < 63) as Hl by (apply Z.log2_lt_pow2; lia).
    pose proof (Z.log2_nonneg (n - 1)). destruct const.
    + rewrite (proj2 (Z.eqb_neq n 1)) by done. rewrite wrap_small by (split; lia). rewrite ilog2_ok by (done || lia). cbn [obind].
      rewrite shl1_ok by lia. by rewrite Eu.
    + rewrite wrap_small by (split; lia). rewrite word_fls_ok by lia. cbn [obind]. rewrite shl1_ok by lia. by rewrite Eu.
  - destruct (Z.eq_dec n 1) as [->|Hne]; [split; [done|]; intros k Hk _; change (2 ^ Z.log2_up 1) with 1; pose proof (Z.pow_pos_nonneg 2 k); lia|].
    pose proof (Z.log2_up_spec n ltac:(lia)) as Hs. split; [lia|]. intros k Hk Hle. apply Z.pow_le_mono_r; [lia|].
    apply Z.log2_up_le_pow2; lia.
Qed.

Lemma roundup_large n : 2 ^ 63 < n < 2 ^ 64 -> roundup_pow_of_two false 8 n = Undef.
Proof.
  intros Hn. unfold roundup_pow_of_two, __roundup_pow_of_two. rewrite wrap_small by (split; lia). rewrite word_fls_ok by lia. cbn [obind].
  assert (Z.log2 (n - 1) = 63) as -> by (apply Z.log2_unique; lia). done.
Qed.

(** The greatest power of 2 that is not greater. *)
Lemma rounddown_ok const sz n : sz = 4 \/ sz = 8 -> 0 < n < 2 ^ (8 * sz) ->
  rounddown_pow_of_two const sz n = Done (2 ^ Z.log2 n) /\ 2 ^ Z.log2 n <= n < 2 * 2 ^ Z.log2 n.
Proof.
  intros Hsz Hn. assert (0 < n < 2 ^ 64) as H64 by (destruct Hsz; subst sz; lia). pose proof (log2_range 64 n H64) as Hl. split.
  - unfold rounddown_pow_of_two, __rounddown_pow_of_two. destruct const.
    + rewrite ilog2_ok by done. cbn [obind]. by rewrite shl1_ok.
    + rewrite word_fls_ok by done. cbn [obind]. rewrite Z.add_simpl_r, wrap_small by (split; lia). by rewrite shl1_ok.
  - pose proof (Z.log2_spec n ltac:(lia)) as Hs. rewrite Z.pow_succ_r in Hs by lia. done.
Qed.

Lemma order_ok const sz n : sz = 4 \/ sz = 8 -> 0 <= n < 2 ^ (8 * sz) -> order_base_2 const sz n = Done (Z.log2_up n).
Proof.
  intros Hsz Hn. unfold order_base_2, __order_base_2. destruct (Z.leb_spec n 1) as [H1|H1].
  - assert (n = 0 \/ n = 1) as [->| ->] by lia; by destruct const.
  - rewrite (log2_up_pred n H1), (proj2 (Z.eqb_neq n 0)), (proj2 (Z.eqb_neq n 1)), (proj2 (Z.gtb_lt n 1)) by lia. cbn [orb].
    destruct const; [by rewrite ilog2_ok by (done || lia)|]. rewrite ilog2_ok; [done|by right|]. destruct Hsz; subst sz; lia.
Qed.

Lemma power_of_2_spec n : 0 < n < 2 ^ 64 -> is_power_of_2 n = (n =? 2 ^ Z.log2 n).
Proof.
  intros Hn. unfold is_power_of_2. rewrite (proj2 (Z.eqb_neq n 0)) by lia. cbn [negb andb]. rewrite wrap_small by (split; lia).
  pose proof (Z.log2_spec n ltac:(lia)) as [Hlo Hhi]. pose proof (Z.log2_nonneg n) as Hl. remember (Z.log2 n) as k eqn:Ek.
  destruct (Z.eqb_spec n (2 ^ k)) as [En|Hne].
  - rewrite En. apply Z.eqb_eq. replace (2 ^ k - 1) with (Z.ones k) by (rewrite Z.ones_equiv; lia). rewrite Z.land_ones by done. apply Z_mod_same_full.
  - apply Z.eqb_neq. intros H. apply (f_equal (fun z => Z.testbit z k)) in H. rewrite Z.land_spec, Z.bits_0 in H.
    assert (Z.log2 (n - 1) = k) as E by (apply Z.log2_unique; lia).
    assert (Z.testbit n k = true) as E1 by (rewrite Ek; apply Z.bit_log2; lia).
    assert (Z.testbit (n - 1) k = true) as E2 by (rewrite <- E; apply Z.bit_log2; pose proof (Z.pow_pos_nonneg 2 k); lia). by rewrite E1, E2 in H.
Qed.

(** The number of bits of [n], which is 1 for 0. *)
Lemma bits_per_ok const sz n : sz = 4 \/ sz = 8 -> 0 <= n < 2 ^ (8 * sz) -> bits_per const sz n = Done (if n =? 0 then 1 else Z.log2 n + 1).
Proof.
  intros Hsz Hn. assert (n < 2 ^ 64) as H64 by (destruct Hsz; subst sz; lia). unfold bits_per, __bits_per. destruct (Z.leb_spec n 1) as [H1|H1].
  { assert (n = 0 \/ n = 1) as [->| ->] by lia; by destruct const. }
  rewrite (proj2 (Z.eqb_neq n 0)), (proj2 (Z.eqb_neq n 1)), (proj2 (Z.ltb_ge n 2)) by lia. cbn [orb].
  destruct const; [by rewrite ilog2_ok by (done || lia)|].
  rewrite power_of_2_spec, order_ok by (lia || by right). cbn [obind]. pose proof (Z.log2_spec n ltac:(lia)) as [Hlo Hhi]. pose proof (Z.log2_nonneg n).
  destruct (Z.eqb_spec n (2 ^ Z.log2 n)) as [E|E].
  - f_equal. f_equal. rewrite E at 1. by apply Z.log2_up_pow2.
  - f_equal. rewrite log2_up_pred by lia. f_equal. apply Z.log2_unique; lia.
Qed.

(** Of 0 the macro has another value when the compiler knows the argument. *)
Lemma ilog2_zero : ilog2 true 4 0 = Done 0 /\ ilog2 false 4 0 = Done (-1).
Proof. done. Qed.

(** On a type of one byte [fls] is too small by 24 bits, and wraps. *)
Lemma fls_byte : fls 1 1 = Done (2 ^ 64 - 23).
Proof. done. Qed.

(** ** Bit fields, of 64 bits *)

Definition ones64 : Z := Bitops.ones64.

Definition BIT (nr : Z) : outcome Z := shl1 nr.
Definition BIT_MASK (nr : Z) : outcome Z := shl1 (nr mod 64).
Definition BIT_WORD (nr : Z) : Z := nr / 64.

Definition GENMASK (hi lo : Z) : outcome Z :=
  guard* (0 <=? lo) && (lo <? 64) && (0 <=? 63 - hi) && (63 - hi <? 64) in
  Done (Z.land (u64 (Z.shiftl ones64 lo)) (Z.shiftr ones64 (63 - hi))).

Definition __bf_shf (x : Z) : Z := Bitops.ffsl x - 1.

Definition FIELD_MAX (mask : Z) : Z := Z.shiftr mask (__bf_shf mask).
Definition FIELD_FIT (mask v : Z) : bool := Z.land (u64 (Z.shiftl (u64 v) (__bf_shf mask))) (Bitops.not64 mask) =? 0.
Definition FIELD_PREP (mask v : Z) : Z := Z.land (u64 (Z.shiftl (u64 v) (__bf_shf mask))) mask.
Definition FIELD_GET (mask reg : Z) : Z := Z.shiftr (Z.land reg mask) (__bf_shf mask).

Section Field.
Context (hi lo : Z) (Hf : 0 <= lo /\ lo <= hi /\ hi < 64).
#[local] Abbreviation width := (hi - lo + 1).
#[local] Abbreviation mask := (Z.shiftl (Z.ones width) lo).

(** The bits from [lo] to [hi]. *)
Lemma mask_bit j : Z.testbit mask j = (lo <=? j) && (j <=? hi).
Proof.
  destruct (Z.neg_nonneg_cases j) as [Hj|Hj].
  - rewrite Z.testbit_neg_r by done. symmetry. apply andb_false_iff. left. apply Z.leb_gt. lia.
  - destruct (Z.leb_spec lo j) as [H|H]; cbn [andb].
    + rewrite Z.shiftl_spec by lia. rewrite Z.testbit_ones_nonneg by lia. destruct (Z.ltb_spec (j - lo) width), (Z.leb_spec j hi); lia || done.
    + rewrite Z.shiftl_spec_low by lia. done.
Qed.

Lemma ones64_bit j : 0 <= j -> Z.testbit ones64 j = (j <? 64).
Proof. intros Hj. change ones64 with (Z.ones 64). by apply Z.testbit_ones_nonneg. Qed.

Lemma u64_bit x j : 0 <= j -> Z.testbit (u64 x) j = (j <? 64) && Z.testbit x j.
Proof.
  intros Hj. unfold wrap. destruct (Z.ltb_spec j 64); [by rewrite Z.mod_pow2_bits_low by lia|by rewrite Z.mod_pow2_bits_high by lia].
Qed.

Lemma genmask_ok : GENMASK hi lo = Done mask.
Proof.
  unfold GENMASK. rewrite (proj2 (Z.leb_le 0 lo)), (proj2 (Z.ltb_lt lo 64)), (proj2 (Z.leb_le 0 (63 - hi))), (proj2 (Z.ltb_lt (63 - hi) 64)) by lia.
  cbn [andb]. f_equal. apply Z.bits_inj_iff'. intros j Hj. rewrite mask_bit, Z.land_spec, u64_bit, Z.shiftr_spec by done. rewrite ones64_bit by lia.
  destruct (Z.leb_spec lo j) as [H|H]; cbn [andb].
  - rewrite Z.shiftl_spec by lia. rewrite ones64_bit by lia.
    destruct (Z.ltb_spec j 64), (Z.ltb_spec (j - lo) 64), (Z.ltb_spec (j + (63 - hi)) 64), (Z.leb_spec j hi); cbn [andb]; lia || done.
  - rewrite Z.shiftl_spec_low by lia. by rewrite andb_false_r.
Qed.

Lemma mask_range : 0 < mask < 2 ^ 64.
Proof.
  rewrite Z.shiftl_mul_pow2, Z.ones_equiv by lia. assert (2 ^ (hi + 1) = 2 ^ width * 2 ^ lo) as E by (rewrite <- Z.pow_add_r by lia; f_equal; lia).
  assert (2 ^ (hi + 1) <= 2 ^ 64) by (apply Z.pow_le_mono_r; lia). pose proof (Z.pow_pos_nonneg 2 lo ltac:(lia) ltac:(lia)).
  pose proof (Z.pow_gt_1 2 width ltac:(lia)) as [Hw _]. specialize (Hw ltac:(lia)). nia.
Qed.

Lemma trailing_bits p : (forall j, 0 <= j < Bitops.trailing p -> Z.testbit (Zpos p) j = false) /\ Z.testbit (Zpos p) (Bitops.trailing p) = true /\ 0 <= Bitops.trailing p.
Proof.
  induction p as [p IH|p IH|]; cbn [Bitops.trailing]; [split; [lia|done]| |split; [lia|done]].
  destruct IH as (I1 & I2 & I3). change (Zpos p~0) with (2 * Zpos p). split; [|split; [|lia]].
  - intros j Hj. destruct (Z.eq_dec j 0) as [->|]; [by rewrite Z.even_spec || apply Z.testbit_even_0|].
    replace j with (Z.succ (j - 1)) by lia. rewrite Z.testbit_even_succ by lia. apply I1. lia.
  - replace (1 + Bitops.trailing p) with (Z.succ (Bitops.trailing p)) by lia. by rewrite Z.testbit_even_succ.
Qed.

Lemma shf_ok : __bf_shf mask = lo.
Proof.
  pose proof mask_range as Hm. unfold __bf_shf, Bitops.ffsl. rewrite wrap_small by (split; lia). destruct mask as [|p|p] eqn:E; [lia| |lia].
  destruct (trailing_bits p) as (T1 & T2 & T3). rewrite Z.add_simpl_r.
  assert (forall j, Z.testbit (Zpos p) j = (lo <=? j) && (j <=? hi)) as Hb by (intros j; rewrite <- E; apply mask_bit).
  rewrite Hb in T2. apply andb_true_iff in T2 as [T2%Z.leb_le _]. destruct (Z.eq_dec (Bitops.trailing p) lo) as [|Hne]; [done|].
  specialize (T1 lo ltac:(lia)). rewrite Hb, (proj2 (Z.leb_le lo lo)), (proj2 (Z.leb_le lo hi)) in T1 by lia. done.
Qed.

Lemma field_max_ok : FIELD_MAX mask = 2 ^ width - 1.
Proof. unfold FIELD_MAX. rewrite shf_ok, Z.shiftr_shiftl_l, Z.sub_diag, Z.shiftl_0_r, Z.ones_equiv by lia. lia. Qed.

(** A value is cut to the field, and put at its place. *)
Lemma field_prep_ok v : 0 <= v < 2 ^ 64 -> FIELD_PREP mask v = (v mod 2 ^ width) * 2 ^ lo.
Proof.
  intros Hv. unfold FIELD_PREP. rewrite shf_ok, (wrap_small 64 v) by (split; lia). rewrite <- Z.shiftl_mul_pow2 by lia.
  apply Z.bits_inj_iff'. intros j Hj. rewrite Z.land_spec, mask_bit, u64_bit by done.
  destruct (Z.leb_spec lo j) as [H|H]; cbn [andb].
  - rewrite !Z.shiftl_spec by lia. destruct (Z.leb_spec j hi).
    + rewrite Z.mod_pow2_bits_low by lia. rewrite (proj2 (Z.ltb_lt j 64)) by lia. by rewrite andb_true_r.
    + rewrite Z.mod_pow2_bits_high by lia. apply andb_false_r.
  - rewrite !Z.shiftl_spec_low by lia. by rewrite andb_false_r.
Qed.

(** What was put in is what comes out, whatever the other bits are. *)
Lemma field_get_prep v r : 0 <= v < 2 ^ 64 -> Z.land r mask = 0 -> FIELD_GET mask (Z.lor r (FIELD_PREP mask v)) = v mod 2 ^ width.
Proof.
  intros Hv Hr. unfold FIELD_GET. rewrite shf_ok, Z.land_lor_distr_l, Hr, Z.lor_0_l.
  assert (Z.land (FIELD_PREP mask v) mask = FIELD_PREP mask v) as -> by (unfold FIELD_PREP; by rewrite <- Z.land_assoc, Z.land_diag).
  rewrite field_prep_ok by done. rewrite Z.shiftr_div_pow2 by lia. apply Z.div_mul. pose proof (Z.pow_pos_nonneg 2 lo). lia.
Qed.

(** A value fits when the bits that the field has no place for are 0, but those
    that the shift drops are not looked at. *)
Lemma field_fit_ok v : 0 <= v < 2 ^ (64 - lo) -> FIELD_FIT mask v = (v <? 2 ^ width).
Proof.
  intros Hv. assert (2 ^ (64 - lo) <= 2 ^ 64) by (apply Z.pow_le_mono_r; lia). unfold FIELD_FIT.
  rewrite shf_ok, (wrap_small 64 v) by (split; lia). assert (2 ^ 64 = 2 ^ (64 - lo) * 2 ^ lo) as E by (rewrite <- Z.pow_add_r by lia; f_equal; lia).
  pose proof (Z.pow_pos_nonneg 2 lo ltac:(lia) ltac:(lia)). rewrite wrap_small by (rewrite Z.shiftl_mul_pow2 by lia; split; nia).
  destruct (Z.ltb_spec v (2 ^ width)) as [Hlt|Hge].
  - apply Z.eqb_eq, Z.bits_inj_iff'. intros j Hj. rewrite Z.land_spec, Z.bits_0. unfold Bitops.not64. rewrite Z.lxor_spec, mask_bit.
    destruct (Z.leb_spec lo j); [|by rewrite Z.shiftl_spec_low by lia]. rewrite Z.shiftl_spec by lia.
    destruct (Z.leb_spec j hi); cbn [andb xorb].
    + change Bitops.ones64 with ones64. rewrite ones64_bit by lia. rewrite (proj2 (Z.ltb_lt j 64)) by lia. apply andb_false_r.
    + rewrite <- (Z.mod_small v (2 ^ width)) by lia. by rewrite Z.mod_pow2_bits_high by lia.
  - apply Z.eqb_neq. intros Hz. assert (0 < v) by (pose proof (Z.pow_pos_nonneg 2 width); lia).
    assert (width <= Z.log2 v) as Hl by (apply Z.log2_le_pow2; lia). assert (Z.log2 v < 64 - lo) by (apply Z.log2_lt_pow2; lia).
    apply (f_equal (fun z => Z.testbit z (Z.log2 v + lo)))  in Hz. rewrite Z.land_spec, Z.bits_0, Z.shiftl_spec in Hz by lia.
    rewrite Z.add_simpl_r, Z.bit_log2 in Hz by lia. unfold Bitops.not64  in Hz. rewrite Z.lxor_spec, mask_bit  in Hz.
    change Bitops.ones64 with ones64  in Hz. rewrite ones64_bit in Hz by lia.
    rewrite (proj2 (Z.ltb_lt (Z.log2 v + lo) 64)), (proj2 (Z.leb_gt (Z.log2 v + lo) hi)) in Hz by lia. by rewrite andb_false_r  in Hz.
Qed.
End Field.

(** A value that is far too large for the field of the upper four bits. *)
Lemma field_fit_wrong : FIELD_FIT (Z.shiftl (Z.ones 4) 60) 16 = true /\ FIELD_PREP (Z.shiftl (Z.ones 4) 60) 16 = 0.
Proof. done. Qed.

(** ** The ring of circ_buffer.h: indices below a power of 2 *)

Definition CIRC_CNT (head tail size : Z) : Z := Z.land (head - tail) (size - 1).
Definition CIRC_SPACE (head tail size : Z) : Z := CIRC_CNT tail (head + 1) size.
Definition CIRC_CNT_TO_END (head tail size : Z) : Z :=
  let e := size - tail in let n := Z.land (head + e) (size - 1) in if n <? e then n else e.
Definition CIRC_SPACE_TO_END (head tail size : Z) : Z :=
  let e := size - 1 - head in let n := Z.land (e + tail) (size - 1) in if n <=? e then n else e + 1.

Section Ring.
Context (k : Z) (Hk : 0 <= k) (head tail : Z) (Hh : 0 <= head < 2 ^ k) (Ht : 0 <= tail < 2 ^ k).
#[local] Abbreviation size := (2 ^ k).

Lemma land_size z : Z.land z (size - 1) = z mod size.
Proof. replace (size - 1) with (Z.ones k) by (rewrite Z.ones_equiv; lia). by apply Z.land_ones. Qed.

(** The elements between the indices; one place of the ring stays free. *)
Lemma circ_cnt_ok : CIRC_CNT head tail size = (if tail <=? head then head - tail else head - tail + size).
Proof.
  unfold CIRC_CNT. rewrite land_size. destruct (Z.leb_spec tail head); [apply Z.mod_small; lia|].
  rewrite <- (Z.mod_small (head - tail + size) size) by lia. by rewrite Zplus_mod, Z_mod_same_full, Z.add_0_r, Zmod_mod.
Qed.

Lemma circ_space_ok : CIRC_SPACE head tail size + CIRC_CNT head tail size = size - 1.
Proof.
  rewrite circ_cnt_ok. unfold CIRC_SPACE, CIRC_CNT. rewrite land_size. destruct (Z.leb_spec tail head).
  - assert ((tail - (head + 1)) mod size = tail - head - 1 + size) as E by (symmetry; apply (Z.mod_unique _ _ (-1)); lia). lia.
  - rewrite Z.mod_small by lia. lia.
Qed.

(** As many as lie before the end of the memory. *)
Lemma circ_to_end_ok : CIRC_CNT_TO_END head tail size = Z.min (CIRC_CNT head tail size) (size - tail) /\
  CIRC_SPACE_TO_END head tail size = Z.min (CIRC_SPACE head tail size) (size - head).
Proof.
  split.
  - unfold CIRC_CNT_TO_END, CIRC_CNT. rewrite !land_size. assert ((head + (size - tail)) mod size = (head - tail) mod size) as ->.
    { replace (head + (size - tail)) with (head - tail + 1 * size) by lia. apply Z_mod_plus_full. }
    destruct (Z.ltb_spec ((head - tail) mod size) (size - tail)); lia.
  - unfold CIRC_SPACE_TO_END, CIRC_SPACE, CIRC_CNT. rewrite !land_size. assert ((size - 1 - head + tail) mod size = (tail - (head + 1)) mod size) as ->.
    { replace (size - 1 - head + tail) with (tail - (head + 1) + 1 * size) by lia. apply Z_mod_plus_full. }
    destruct (Z.leb_spec ((tail - (head + 1)) mod size) (size - 1 - head)); lia.
Qed.
End Ring.
End Bits.
