(* ===== verification/Dwt.v ===== *)
(** * debug/cortexm/dwt.c, dwt.h : watchpoints and the cycle counter

    The registers of the debug unit as a record; the comparators are a list,
    and an access behind the last one is undefined.  The constants of CMSIS
    and what a write to the lock register does are arguments. *)
From Stdlib Require Import ZArith Lia Bool.
From stdpp Require Import base list numbers.
From S2P Require Import Prelude.

Module Dwt.

(** The cores the file knows; the first three have one layout. *)
Inductive core := CM3 | CM4 | CM7 | CM33 | CM23.
Definition has_mask (k : core) : bool := match k with CM3 | CM4 | CM7 => true | _ => false end.

(** [struct watchpoint_regs]; the cores without [mask] leave it alone. *)
Record watchpoint_regs := mk_wp { comp : Z; mask : Z; function : Z }.

(** The constants of CMSIS. *)
Record cmsis := mk_cmsis {
  NUMCOMP_Msk : Z; NUMCOMP_Pos : Z; LSR_Present_Msk : Z; LSR_Access_Msk : Z; TRCENA_Msk : Z; C_DEBUGEN_Msk : Z;
  MON_EN_Msk : Z; DATAVSIZE_Pos : Z; FUNCTION_Pos : Z; MATCH_Pos : Z; ACTION_Pos : Z; CYCCNTENA_Msk : Z; NOCYCCNT_Msk : Z }.

(** The registers, and [_watchpoint_nums]. *)
Record dwt := mk_dwt {
  CTRL : Z; CYCCNT : Z; LSR : Z; DEMCR : Z; DHCSR : Z; wps : list watchpoint_regs; _watchpoint_nums : Z }.
Definition set_ctrl v d := mk_dwt v (CYCCNT d) (LSR d) (DEMCR d) (DHCSR d) (wps d) (_watchpoint_nums d).
Definition set_cyccnt v d := mk_dwt (CTRL d) v (LSR d) (DEMCR d) (DHCSR d) (wps d) (_watchpoint_nums d).
Definition set_lsr v d := mk_dwt (CTRL d) (CYCCNT d) v (DEMCR d) (DHCSR d) (wps d) (_watchpoint_nums d).
Definition set_demcr v d := mk_dwt (CTRL d) (CYCCNT d) (LSR d) v (DHCSR d) (wps d) (_watchpoint_nums d).
Definition set_wps v d := mk_dwt (CTRL d) (CYCCNT d) (LSR d) (DEMCR d) (DHCSR d) v (_watchpoint_nums d).
Definition set_nums v d := mk_dwt (CTRL d) (CYCCNT d) (LSR d) (DEMCR d) (DHCSR d) (wps d) v.

Definition MEM_READ : Z := 0x0100.
Definition MEM_WRITE : Z := 0x0200.
Definition MEM_SIZE_MASK : Z := 0xF.

Section Dwt.
Context (k : core) (c : cmsis) (write_LAR : Z -> dwt -> dwt).

Definition __cortexm_dwt_get_hwbpks (d : dwt) : Z := Z.shiftr (Z.land (CTRL d) (NUMCOMP_Msk c)) (NUMCOMP_Pos c).

Definition __cortexm_dwt_access (ena : bool) (d : dwt) : dwt :=
  match k with
  | CM7 =>
      let lsr := LSR d in
      if negb (Z.land lsr (LSR_Present_Msk c) =? 0) then
        if ena then (if negb (Z.land lsr (LSR_Access_Msk c) =? 0) then write_LAR 0xC5ACCE55 d else d)
        else (if Z.land lsr (LSR_Access_Msk c) =? 0 then write_LAR 0 d else d)
      else d
  | _ => d
  end.

Definition __cortexm_dwt_init (d : dwt) : Z * dwt :=
  (0, __cortexm_dwt_access true (set_demcr (Z.lor (DEMCR d) (TRCENA_Msk c)) d)).

(** Without CONFIG_ARMV8_M_SE. *)
Definition __cortexm_dwt_enable_monitor_exception (d : dwt) : Z * dwt :=
  if negb (Z.land (DHCSR d) (C_DEBUGEN_Msk c) =? 0) then (- EBUSY, d)
  else (0, set_demcr (Z.lor (DEMCR d) (MON_EN_Msk c)) d).

(** [wp_regs[nr]] *)
Definition regs (nr : Z) (d : dwt) : outcome watchpoint_regs :=
  guard* 0 <=? nr in match wps d !! Z.to_nat nr with Some w => Done w | None => Undef end.
Definition set_regs (nr : Z) (w : watchpoint_regs) (d : dwt) : dwt := set_wps (<[Z.to_nat nr := w]> (wps d)) d.

(** The value of the function register. *)
Definition function_of (mode : Z) : Z :=
  let func := u32 (Z.shiftl (Z.land mode 0xF) (DATAVSIZE_Pos c)) in
  if has_mask k then
    let func := if negb (Z.land mode MEM_READ =? 0) then Z.lor func (Z.shiftl 0x5 (FUNCTION_Pos c)) else func in
    if negb (Z.land mode MEM_WRITE =? 0) then Z.lor func (Z.shiftl 0x6 (FUNCTION_Pos c)) else func
  else
    let func := if negb (Z.land mode MEM_READ =? 0) then Z.lor func (Z.shiftl 0x6 (MATCH_Pos c)) else func in
    let func := if negb (Z.land mode MEM_WRITE =? 0) then Z.lor func (Z.shiftl 0x5 (MATCH_Pos c)) else func in
    Z.lor func (Z.shiftl 0x1 (ACTION_Pos c)).

Definition _cortexm_dwt_enable (nr addr mode : Z) (d : dwt) : outcome (Z * dwt) :=
  if nr >? _watchpoint_nums d then Done (- EINVAL, d)
  else
  let* w := regs nr d in
  Done (0, set_regs nr (mk_wp (u32 addr) (if has_mask k then 0 else mask w) (function_of mode)) d).

Definition _cortexm_dwt_disable (nr : Z) (d : dwt) : outcome (Z * dwt) :=
  if nr >? _watchpoint_nums d then Done (- EINVAL, d)
  else let* w := regs nr d in Done (0, set_regs nr (mk_wp (comp w) (mask w) 0) d).

Definition _cortexm_dwt_busy (nr : Z) (d : dwt) : outcome Z :=
  let* w := regs nr d in Done (if negb (function w =? 0) then 1 else 0).

(** The loop of [_cortexm_dwt_setup]; [disable] is the function
    [_core_debug_watchpoint_disable], which is not in the repository. *)
Fixpoint setup_loop (disable : Z -> dwt -> outcome dwt) (n : nat) (i : Z) (d : dwt) : outcome dwt :=
  match n with O => Done d | S n => let* d := disable i d in setup_loop disable n (i + 1) d end.

Definition _cortexm_dwt_setup (disable : Z -> dwt -> outcome dwt) (d : dwt) : outcome (Z * dwt) :=
  let nr := __cortexm_dwt_get_hwbpks d in
  let d := (__cortexm_dwt_init d).2 in
  let* d := setup_loop disable (Z.to_nat nr) 0 d in
  let d := (__cortexm_dwt_enable_monitor_exception d).2 in
  Done (0, set_nums nr d).

(** *** The cycle counter *)

Definition cortexm_dwt_cycle_counter_start (d : dwt) : dwt :=
  let d := set_cyccnt 0 d in set_ctrl (Z.lor (CTRL d) (CYCCNTENA_Msk c)) d.
Definition cortexm_dwt_init_cycle_counter (d : dwt) : bool * dwt :=
  let d := cortexm_dwt_cycle_counter_start d in (negb (Z.land (CTRL d) (NOCYCCNT_Msk c) =? 0), d).
Definition cortexm_dwt_get_cycles (d : dwt) : Z := CYCCNT d.

(** ** A watchpoint *)

(** A comparator that is there gets the address and the function, and the
    others keep theirs; it is busy until it is disabled. *)
Lemma watchpoint_ok nr addr mode d : 0 <= nr < len (wps d) -> _watchpoint_nums d = len (wps d) -> function_of mode <> 0 ->
  exists d1 d2, _cortexm_dwt_enable nr addr mode d = Done (0, d1) /\ _cortexm_dwt_busy nr d1 = Done 1 /\
    _cortexm_dwt_disable nr d1 = Done (0, d2) /\ _cortexm_dwt_busy nr d2 = Done 0 /\
    (exists m, wps d1 !! Z.to_nat nr = Some (mk_wp (u32 addr) m (function_of mode))) /\
    forall j, j <> Z.to_nat nr -> wps d1 !! j = wps d !! j /\ wps d2 !! j = wps d !! j.
Proof.
  intros Hnr Hn Hf. destruct (lookup_lt_is_Some_2 (wps d) (Z.to_nat nr)) as [w Ew]; [unfold len in Hnr; lia|].
  assert ((nr >? _watchpoint_nums d) = false) as Eg by (rewrite Hn, Z.gtb_ltb; apply Z.ltb_ge; lia).
  set (w1 := mk_wp (u32 addr) (if has_mask k then 0 else mask w) (function_of mode)).
  assert (forall w d, wps d !! Z.to_nat nr = Some w -> regs nr d = Done w) as Hr
    by (intros w' d' E; unfold regs; by rewrite (proj2 (Z.leb_le 0 nr)), E by lia).
  assert (forall w' d', is_Some (wps d' !! Z.to_nat nr) -> wps (set_regs nr w' d') !! Z.to_nat nr = Some w') as Hs.
  { intros w' d' [? E]. cbn [wps set_regs set_wps]. apply list_lookup_insert_eq. by eapply lookup_lt_Some. }
  exists (set_regs nr w1 d), (set_regs nr (mk_wp (comp w1) (mask w1) 0) (set_regs nr w1 d)).
  assert (wps (set_regs nr w1 d) !! Z.to_nat nr = Some w1) as E1 by (by apply Hs).
  split; [unfold _cortexm_dwt_enable; by rewrite Eg, (Hr w d Ew)|].
  split; [unfold _cortexm_dwt_busy; rewrite (Hr _ _ E1); cbn [obind function w1]; by rewrite (proj2 (Z.eqb_neq _ _) Hf)|].
  split; [unfold _cortexm_dwt_disable; change (_watchpoint_nums (set_regs nr w1 d)) with (_watchpoint_nums d); by rewrite Eg, (Hr _ _ E1)|].
  split; [unfold _cortexm_dwt_busy; by rewrite (Hr _ _ (Hs _ _ (mk_is_Some _ _ E1)))|].
  split; [by exists (mask w1)|]. intros j Hj. cbn [wps set_regs set_wps]. by rewrite !list_lookup_insert_ne.
Qed.

(** The number of comparators is accepted as the number of a comparator: the
    registers behind the last one are written. *)
Lemma watchpoint_behind addr mode d : _watchpoint_nums d = len (wps d) -> _cortexm_dwt_enable (len (wps d)) addr mode d = Undef.
Proof.
  intros Hn. unfold _cortexm_dwt_enable. rewrite Hn, Z.gtb_ltb, Z.ltb_irrefl. unfold regs, len. rewrite (proj2 (Z.leb_le 0 _)), Nat2Z.id by lia.
  by rewrite lookup_ge_None_2.
Qed.
End Dwt.
End Dwt.
