(* ===== verification/ObjPool.v ===== *)
(** * os/osapi_obj.c, os/osapi_fs.c, os/posix/os_timer_impl.c : object pools

    The pools of objects of a fixed size, whose free objects are linked
    through their first word, and the two users of them: the files of the
    virtual file system and the timers. Memory is a map from addresses to
    words of eight bytes; an access to an address without a word is
    undefined. *)
From Stdlib Require Import ZArith Lia Bool.
From stdpp Require Import base list numbers gmap.
From S2P Require Import Prelude.

Module ObjPool.

(** [enum obj_type] *)
Inductive obj_type := OBJ_FILE_CLASS | OBJ_TIMER_CLASS.
#[global] Instance obj_type_eq : EqDecision obj_type.
Proof. solve_decision. Defined.

Definition OBJ_DEFAULT_VAL : Z := 2 ^ 64 - 1.

(** [_os_object_table], and the memory. *)
Record pools := mk_pools { object_table : obj_type -> Z; mem : gmap Z Z }.

Definition set_table (t : obj_type) (p : Z) (s : pools) : pools :=
  mk_pools (fun t' => if decide (t' = t) then p else object_table s t') (mem s).

(** The table as it is linked into the program. *)
Definition initial_table : obj_type -> Z := fun _ => OBJ_DEFAULT_VAL.

Definition load (p : Z) (s : pools) : outcome Z :=
  match mem s !! p with Some v => Done v | None => Undef end.
Definition store (p v : Z) (s : pools) : outcome pools :=
  match mem s !! p with Some _ => Done (mk_pools (object_table s) (<[p := v]> (mem s))) | None => Undef end.

Definition os_obj_ready (t : obj_type) (s : pools) : bool := negb (object_table s t =? OBJ_DEFAULT_VAL).

(** [os_obj_allocate (type)] *)
Definition os_obj_allocate (t : obj_type) (s : pools) : outcome (Z * pools) :=
  let p := object_table s t in
  if negb (p =? 0) then let* next := load p s in Done (p, set_table t next s)
  else Done (p, s).

(** [os_obj_free (type, p)] *)
Definition os_obj_free (t : obj_type) (p : Z) (s : pools) : outcome pools :=
  let* s := store p (object_table s t) s in Done (set_table t p s).

(** The loop of [os_obj_initialize]. *)
Fixpoint init_loop (n : nat) (p head fixed_isize : Z) (s : pools) : outcome (Z * pools) :=
  match n with
  | O => Done (head, s)
  | S n => let* s := store p head s in init_loop n (u64 (p + fixed_isize)) p fixed_isize s
  end.

Definition roundup (x y : Z) : Z := u64 (u64 (x + (y - 1)) / y * y).

(** The part of [os_obj_initialize] under the lock. *)
Definition obj_initialize_locked (t : obj_type) (buffer size fixed_isize : Z) (s : pools) : outcome (Z * pools) :=
  if os_obj_ready t s then Done (0, s)
  else
  let* r := init_loop (Z.to_nat (size / fixed_isize)) buffer 0 fixed_isize s in
  Done (0, set_table t r.1 r.2).

(** [os_obj_initialize (type, buffer, size, isize)] *)
Definition os_obj_initialize (t : obj_type) (buffer size isize : Z) (s : pools) : outcome (Z * pools) :=
  let fixed_isize := roundup isize 8 in
  if negb (object_table s t =? 0) && os_obj_ready t s then Done (- EBUSY, s)
  else if buffer =? 0 then Done (- EINVAL, s)
  else if (fixed_isize =? 0) || (size <? fixed_isize) then Done (- EINVAL, s)
  else obj_initialize_locked t buffer size fixed_isize s.

(** ** What a pool promises *)

(** The calls of any threads, one critical section after the other. A write is
    an assignment to a word of an object somebody holds, or to memory outside
    of the pool (an object of the other pool, for example). *)
Inductive pcmd := Alloc | Free (p : Z) | Reinit (buffer size fixed : Z) | Write (a v : Z).

Definition pstep (t : obj_type) (c : pcmd) (s : pools) : outcome (Z * pools) :=
  match c with
  | Alloc => os_obj_allocate t s
  | Free p => let* s := os_obj_free t p s in Done (0, s)
  | Reinit buffer size fixed => obj_initialize_locked t buffer size fixed s
  | Write a v => let* s := store a v s in Done (0, s)
  end.

Fixpoint psteps (t : obj_type) (cs : list pcmd) (s : pools) : outcome (list Z * pools) :=
  match cs with
  | [] => Done ([], s)
  | c :: cs => let* r := pstep t c s in let* q := psteps t cs r.2 in Done (r.1 :: q.1, q.2)
  end.

(** The objects that are free, the latest one first; those that are held; and
    the words of the memory that are known. *)
Record apool := mk_apool { a_free : list Z; a_held : list Z; a_known : gmap Z Z }.

(** Where the objects are, and the addresses where there are words. *)
Record shape := mk_shape { sh_base : Z; sh_fixed : Z; sh_count : nat; sh_words : gset Z }.

Definition object (h : shape) (k : nat) : Z := sh_base h + Z.of_nat k * sh_fixed h.
Definition objects (h : shape) : list Z := object h <$> seq 0 (sh_count h).

Definition in_object (h : shape) (p a : Z) : bool := (p <=? a) && (a <? p + sh_fixed h).
Definition in_pool (h : shape) (a : Z) : bool :=
  (sh_base h <=? a) && (a <? sh_base h + Z.of_nat (sh_count h) * sh_fixed h).

(** [None]: a call that breaks the rules. *)
Definition astep (h : shape) (c : pcmd) (a : apool) : option (Z * apool) :=
  match c with
  | Alloc => match a_free a with
             | [] => Some (0, a)
             | p :: free => Some (p, mk_apool free (p :: a_held a) (a_known a))
             end
  | Free p => if decide (p ∈ a_held a)
              then Some (0, mk_apool (p :: a_free a) (filter (fun q => q <> p) (a_held a)) (delete p (a_known a)))
              else None
  | Reinit _ _ _ => Some (0, a)
  | Write x v => if bool_decide (x ∈ sh_words h) && (existsb (fun p => in_object h p x) (a_held a) || negb (in_pool h x))
                 then Some (0, mk_apool (a_free a) (a_held a) (<[x := v]> (a_known a))) else None
  end.

Fixpoint asteps (h : shape) (cs : list pcmd) (a : apool) : option (list Z * apool) :=
  match cs with
  | [] => Some ([], a)
  | c :: cs => match astep h c a with
               | Some r => match asteps h cs r.2 with Some q => Some (r.1 :: q.1, q.2) | None => None end
               | None => None
               end
  end.

Fixpoint chain (m : gmap Z Z) (head : Z) (l : list Z) : Prop :=
  match l with
  | [] => head = 0
  | p :: l => head = p /\ p <> 0 /\ exists next, m !! p = Some next /\ chain m next l
  end.

Record shape_ok (h : shape) : Prop := {
  so_base : 0 < sh_base h;
  so_fixed : 8 <= sh_fixed h;
  so_end : sh_base h + Z.of_nat (sh_count h) * sh_fixed h <= 2 ^ 64;
  so_words : forall p, p ∈ objects h -> p ∈ sh_words h;
}.

Record pool_inv (h : shape) (t : obj_type) (s : pools) (a : apool) : Prop := {
  pi_chain : chain (mem s) (object_table s t) (a_free a);
  pi_perm : a_free a ++ a_held a ≡ₚ objects h;
  pi_known : a_known a ⊆ mem s;
  pi_free : forall p, p ∈ a_free a -> a_known a !! p = None;
  pi_words : dom (mem s) = sh_words h;
}.

Lemma chain_frame m m' head l : (forall p, p ∈ l -> m' !! p = m !! p) -> chain m head l -> chain m' head l.
Proof.
  revert head. induction l as [|p l IH]; intros head H; [done|]. intros (E & Hn & next & Hp & Hc). split; [done|]. split; [done|].
  exists next. rewrite H by left. split; [done|]. apply IH; [|done]. intros q Hq. apply H. by right.
Qed.

Section Shape.
Context (h : shape) (Hh : shape_ok h).

Lemma object_in p : p ∈ objects h <-> exists k, (k < sh_count h)%nat /\ p = object h k.
Proof.
  unfold objects. rewrite list_elem_of_fmap. split.
  - intros (k & -> & Hk). apply elem_of_seq in Hk. exists k. split; [lia|done].
  - intros (k & Hk & ->). exists k. split; [done|]. apply elem_of_seq. lia.
Qed.

(** Objects do not overlap. *)
Lemma object_apart k j x : object h k <= x < object h k + sh_fixed h -> object h j <= x < object h j + sh_fixed h -> k = j.
Proof.
  destruct Hh as [_ Hf _ _]. unfold object. intros H1 H2.
  assert ((x - sh_base h) / sh_fixed h = Z.of_nat k) by (symmetry; apply (Z.div_unique_pos _ _ _ (x - sh_base h - Z.of_nat k * sh_fixed h)); lia).
  assert ((x - sh_base h) / sh_fixed h = Z.of_nat j) by (symmetry; apply (Z.div_unique_pos _ _ _ (x - sh_base h - Z.of_nat j * sh_fixed h)); lia).
  lia.
Qed.

Lemma object_inj k j : object h k = object h j -> k = j.
Proof. intros E. pose proof (so_fixed h Hh). apply (object_apart k j (object h k)); lia. Qed.

Lemma objects_nodup : NoDup (objects h).
Proof.
  unfold objects. apply NoDup_fmap_2; [|apply NoDup_seq]. intros k j. apply object_inj.
Qed.

Lemma object_range p : p ∈ objects h -> sh_base h <= p /\ p + sh_fixed h <= sh_base h + Z.of_nat (sh_count h) * sh_fixed h.
Proof.
  intros (k & Hk & ->)%object_in. unfold object. pose proof (so_fixed h Hh). split; [nia|].
  assert (Z.of_nat k + 1 <= Z.of_nat (sh_count h)) by lia. nia.
Qed.

Lemma object_nonnull p : p ∈ objects h -> p <> 0 /\ p <> OBJ_DEFAULT_VAL.
Proof.
  intros Hp. pose proof (object_range p Hp). pose proof (so_base h Hh). pose proof (so_fixed h Hh). pose proof (so_end h Hh).
  unfold OBJ_DEFAULT_VAL. lia.
Qed.

(** A word that is written is not the first word of a free object. *)
Lemma write_apart x (held free : list Z) p :
  (forall q, q ∈ held -> q ∈ objects h) -> (forall q, q ∈ free -> q ∈ objects h) -> (forall q, q ∈ held -> q ∈ free -> False) ->
  existsb (fun q => in_object h q x) held || negb (in_pool h x) = true -> p ∈ free -> p <> x.
Proof.
  intros H1 H2 Hd Hw Hp ->. pose proof (object_range x (H2 _ Hp)) as Hr. pose proof (so_fixed h Hh).
  apply orb_true_iff in Hw as [Hw|Hw].
  - apply existsb_exists in Hw as (q & Hq & Hi). apply list_elem_of_In in Hq. unfold in_object in Hi. bools.
    destruct (proj1 (object_in q) (H1 _ Hq)) as (k & _ & ->). destruct (proj1 (object_in x) (H2 _ Hp)) as (j & _ & ->).
    assert (k = j) as -> by (apply (object_apart k j (object h j)); lia). by eapply Hd.
  - unfold in_pool in Hw. apply negb_true_iff, andb_false_iff in Hw as [Hw|Hw]; bools; lia.
Qed.

Lemma inv_held t s a p : pool_inv h t s a -> p ∈ a_held a -> p ∈ objects h.
Proof. intros I Hp. rewrite <- (pi_perm _ _ _ _ I). apply elem_of_app. by right. Qed.
Lemma inv_freed t s a p : pool_inv h t s a -> p ∈ a_free a -> p ∈ objects h.
Proof. intros I Hp. rewrite <- (pi_perm _ _ _ _ I). apply elem_of_app. by left. Qed.
Lemma inv_nodup t s a : pool_inv h t s a -> NoDup (a_free a ++ a_held a).
Proof. intros I. rewrite (pi_perm _ _ _ _ I). apply objects_nodup. Qed.

Lemma inv_ready t s a : pool_inv h t s a -> os_obj_ready t s = true.
Proof.
  intros I. unfold os_obj_ready. apply negb_true_iff, Z.eqb_neq. pose proof (pi_chain _ _ _ _ I) as Hc.
  pose proof (inv_freed t s a) as Hf. destruct (a_free a) as [|p l]; [rewrite Hc; unfold OBJ_DEFAULT_VAL; lia|].
  destruct Hc as (-> & _). apply object_nonnull, Hf; [done|left].
Qed.

Lemma alloc_ok t s a : pool_inv h t s a ->
  exists r s', os_obj_allocate t s = Done (r, s') /\ exists a', astep h Alloc a = Some (r, a') /\ pool_inv h t s' a'.
Proof.
  intros I. pose proof (pi_chain _ _ _ _ I) as Hc. unfold os_obj_allocate, astep. destruct (a_free a) as [|p free] eqn:Ef.
  - rewrite Hc. simpl. do 2 eexists. split; [done|]. by eexists.
  - destruct Hc as (-> & Hn & next & Hp & Hc). rewrite (proj2 (Z.eqb_neq _ _) Hn). cbn [negb]. unfold load. rewrite Hp. cbn [obind].
    do 2 eexists. split; [done|]. eexists. split; [done|]. destruct I as [_ I1 I2 I3 I4]. rewrite Ef in *. split; cbn.
    + by rewrite decide_True.
    + rewrite <- I1. solve_Permutation.
    + done.
    + intros q Hq. apply I3. by right.
    + done.
Qed.

Lemma remove_perm (p : Z) l : NoDup l -> p ∈ l -> p :: filter (fun q => q <> p) l ≡ₚ l.
Proof.
  intros Hn Hp. apply NoDup_Permutation; [|done|].
  - constructor; [rewrite list_elem_of_filter; by intros [? _]|by apply NoDup_filter].
  - intros q. rewrite elem_of_cons, list_elem_of_filter. destruct (decide (q = p)) as [->|]; naive_solver.
Qed.

Lemma free_ok t s a p : pool_inv h t s a -> p ∈ a_held a ->
  exists s', os_obj_free t p s = Done s'
    /\ pool_inv h t s' (mk_apool (p :: a_free a) (filter (fun q => q <> p) (a_held a)) (delete p (a_known a))).
Proof.
  intros I Hp. pose proof (inv_held _ _ _ _ I Hp) as Ho. pose proof (inv_nodup _ _ _ I) as Hnd.
  apply NoDup_app in Hnd as (_ & Hd & Hnh). pose proof (proj1 (object_nonnull p Ho)) as Hn0.
  unfold os_obj_free, store.
  assert (p ∈ dom (mem s)) as Hdom by (rewrite (pi_words _ _ _ _ I); by apply (so_words h Hh)).
  apply elem_of_dom in Hdom as [v Hv]. rewrite Hv. cbn [obind].
  eexists. split; [done|]. destruct I as [I0 I1 I2 I3 I4]. split; cbn.
  - rewrite decide_True by done. split; [done|]. split; [done|]. exists (object_table s t). rewrite lookup_insert_eq. split; [done|].
    eapply chain_frame; [|exact I0]. intros q Hq. apply lookup_insert_ne. intros <-. by eapply Hd.
  - rewrite <- I1. rewrite <- (remove_perm p (a_held a)) at 2 by done. solve_Permutation.
  - apply map_subseteq_spec. intros i x [Hi Hx]%lookup_delete_Some. rewrite lookup_insert_ne by done. by eapply lookup_weaken.
  - intros q [->|Hq]%elem_of_cons; [apply lookup_delete_eq|]. rewrite lookup_delete_None. right. by apply I3.
  - rewrite dom_insert_L, I4. apply (so_words h Hh) in Ho. set_solver.
Qed.

Lemma write_ok t s a x v : pool_inv h t s a -> x ∈ sh_words h ->
  existsb (fun p => in_object h p x) (a_held a) || negb (in_pool h x) = true ->
  exists s', store x v s = Done s' /\ pool_inv h t s' (mk_apool (a_free a) (a_held a) (<[x := v]> (a_known a))).
Proof.
  intros I Hx Hw. unfold store. rewrite <- (pi_words _ _ _ _ I) in Hx. apply elem_of_dom in Hx as [u Hu]. rewrite Hu.
  assert (forall p, p ∈ a_free a -> p <> x) as Hap.
  { intros p Hp. pose proof (inv_nodup _ _ _ I) as Hnd. apply NoDup_app in Hnd as (_ & Hd & _).
    eapply write_apart; [intros q; by eapply inv_held|intros q; by eapply inv_freed| |exact Hw|exact Hp].
    intros q H1 H2. by eapply Hd. }
  eexists. split; [done|]. destruct I as [I0 I1 I2 I3 I4]. split; cbn; try done.
  - eapply chain_frame; [|exact I0]. intros q Hq. apply lookup_insert_ne. intros <-. by eapply Hap.
  - by apply insert_mono.
  - intros q Hq. rewrite lookup_insert_ne; [by apply I3|]. intros <-. by eapply Hap.
  - rewrite dom_insert_L. assert (x ∈ dom (mem s)) by (apply elem_of_dom; by eexists). set_solver.
Qed.

(** An object is taken and its first word is set. *)
Lemma take_ok t s a p free v : pool_inv h t s a -> a_free a = p :: free ->
  exists s1 s2, os_obj_allocate t s = Done (p, s1) /\ p <> 0 /\ p ∉ a_held a /\ store p v s1 = Done s2 /\
    pool_inv h t s2 (mk_apool free (p :: a_held a) (<[p := v]> (a_known a))).
Proof.
  intros I Ef. destruct (alloc_ok t s a I) as (r & s1 & E1 & a1 & E & I1). unfold astep in E. rewrite Ef in E. simplify_eq.
  assert (r ∈ objects h) as Hp by (eapply inv_held; [exact I1|left]).
  destruct (write_ok t s1 _ r v I1) as (s2 & E2 & I2); [by apply (so_words h Hh)| |].
  { cbn [a_held existsb]. unfold in_object at 1. pose proof (so_fixed h Hh). by rewrite Z.leb_refl, (proj2 (Z.ltb_lt _ _)) by lia. }
  exists s1, s2. split; [done|]. split; [by apply object_nonnull|]. split; [|done].
  pose proof (inv_nodup _ _ _ I) as Hn. rewrite Ef in Hn. apply NoDup_app in Hn as (_ & Hd & _). intros Hin. by apply (Hd r ltac:(left)).
Qed.

Lemma pstep_ok t c s a r a' : pool_inv h t s a -> astep h c a = Some (r, a') ->
  exists s', pstep t c s = Done (r, s') /\ pool_inv h t s' a'.
Proof.
  intros I E. destruct c as [|p|b sz fx|x v]; cbn [pstep].
  - destruct (alloc_ok t s a I) as (r' & s' & -> & a'' & E' & I'). rewrite E' in E. simplify_eq. by eexists.
  - cbn [astep] in E. case_decide; [|done]. simplify_eq. destruct (free_ok t s a p I) as (s' & -> & I'); [done|]. by eexists.
  - cbn [astep] in E. simplify_eq. unfold obj_initialize_locked. rewrite (inv_ready t s a' I). by eexists.
  - cbn [astep] in E. destruct (bool_decide _ && _) eqn:Hw; [|done]. simplify_eq. apply andb_true_iff in Hw as [Hx Hw].
    apply bool_decide_eq_true in Hx. destruct (write_ok t s a x v I Hx Hw) as (s' & -> & I'). by eexists.
Qed.

Lemma psteps_ok t cs s a rs a' : pool_inv h t s a -> asteps h cs a = Some (rs, a') ->
  exists s', psteps t cs s = Done (rs, s') /\ pool_inv h t s' a'.
Proof.
  revert s a rs. induction cs as [|c cs IH]; intros s a rs I E; cbn [asteps psteps] in *.
  - simplify_eq. by eexists.
  - destruct (astep h c a) as [[r b]|] eqn:E1; [|done]. destruct (pstep_ok t c s a r b I E1) as (s1 & -> & I1). cbn [obind fst snd] in *.
    destruct (asteps h cs b) as [[q b']|] eqn:E2; [|done]. simplify_eq. destruct (IH _ _ _ I1 E2) as (s2 & -> & I2). by eexists.
Qed.

(** ** Initialisation *)

Lemma init_loop_ok n k s head :
  (k + n)%nat = sh_count h -> (forall p, p ∈ objects h -> is_Some (mem s !! p)) ->
  chain (mem s) head (reverse (object h <$> seq 0 k)) ->
  exists head' m', init_loop n (u64 (object h k)) head (sh_fixed h) s = Done (head', mk_pools (object_table s) m')
    /\ chain m' head' (reverse (objects h)) /\ dom m' = dom (mem s) /\ forall x, x ∉ objects h -> m' !! x = mem s !! x.
Proof.
  revert k s head. induction n as [|n IH]; intros k s head Hk Hm Hc.
  - rewrite Nat.add_0_r in Hk. subst k. exists head, (mem s). split; [by destruct s|done].
  - assert (object h k ∈ objects h) as Ho by (apply object_in; exists k; split; [lia|done]).
    pose proof (object_range _ Ho) as Hr. pose proof (so_end h Hh). pose proof (so_fixed h Hh). pose proof (so_base h Hh).
    cbn [init_loop]. rewrite (wrap_small 64 (object h k)) by (split; lia).
    unfold store. destruct (Hm _ Ho) as [v Hv]. rewrite Hv. cbn [obind].
    replace (object h k + sh_fixed h) with (object h (S k)) by (unfold object; lia).
    destruct (IH (S k) (mk_pools (object_table s) (<[object h k := head]> (mem s))) (object h k)) as (head' & m' & E & C' & D' & F').
    + lia.
    + intros p Hp. cbn. destruct (decide (p = object h k)) as [->|]; [rewrite lookup_insert_eq; by eexists|]. rewrite lookup_insert_ne by done. by apply Hm.
    + rewrite seq_S, fmap_app, reverse_app. cbn. split; [done|]. split; [by apply object_nonnull|]. exists head. rewrite lookup_insert_eq. split; [done|].
      eapply chain_frame; [|exact Hc]. intros q Hq. rewrite elem_of_reverse in Hq. apply list_elem_of_fmap in Hq as (j & -> & Hj). apply elem_of_seq in Hj.
      apply lookup_insert_ne. intros E. apply object_inj in E. lia.
    + cbn in *. exists head', m'. split; [done|]. split; [done|]. split.
      * rewrite D', dom_insert_L. assert (object h k ∈ dom (mem s)) by (apply elem_of_dom; by eexists). set_solver.
      * intros x Hx. rewrite F' by done. apply lookup_insert_ne. intros <-. done.
Qed.
End Shape.

(** The objects [os_obj_initialize] makes of a buffer. *)
Definition pool_shape (buffer size isize : Z) (words : gset Z) : shape :=
  mk_shape buffer (roundup isize 8) (Z.to_nat (size / roundup isize 8)) words.

(** All of them free, the last one first; the words outside of them are known. *)
Definition fresh_pool (h : shape) (m : gmap Z Z) : apool :=
  mk_apool (reverse (objects h)) [] (filter (fun x => x.1 ∉ objects h) m).

Lemma roundup_8 x : 0 < x -> x + 7 < 2 ^ 64 -> roundup x 8 mod 8 = 0 /\ x <= roundup x 8 < x + 8.
Proof.
  intros H0 H1. unfold roundup. rewrite (wrap_small 64 (x + (8 - 1))) by (split; lia).
  rewrite wrap_small by (split; zlia). split; [apply Z.mod_mul; lia|zlia].
Qed.

Lemma pool_shape_ok buffer size isize words :
  0 < buffer -> 0 < isize -> isize + 7 < 2 ^ 64 -> roundup isize 8 <= size -> buffer + size <= 2 ^ 64 ->
  (forall p, p ∈ objects (pool_shape buffer size isize words) -> p ∈ words) ->
  shape_ok (pool_shape buffer size isize words).
Proof.
  intros H1 H2 H3 H4 H5 H6. destruct (roundup_8 isize H2 H3) as [Hm Hr]. split; [done|simpl; zlia| |done].
  simpl. rewrite Z2Nat.id by (apply Z.div_pos; lia). pose proof (Z.mul_div_le size (roundup isize 8)). lia.
Qed.

(** What the initialisation leaves: a pool whose objects are all free. *)
Lemma initialize_ok t buffer size isize s :
  object_table s t = OBJ_DEFAULT_VAL ->
  0 < buffer -> 0 < isize -> isize + 7 < 2 ^ 64 -> roundup isize 8 <= size -> buffer + size <= 2 ^ 64 ->
  (forall p, p ∈ objects (pool_shape buffer size isize (dom (mem s))) -> p ∈ dom (mem s)) ->
  let h := pool_shape buffer size isize (dom (mem s)) in
  shape_ok h /\ exists s1, os_obj_initialize t buffer size isize s = Done (0, s1) /\ pool_inv h t s1 (fresh_pool h (mem s)).
Proof.
  intros Ht Hb Hi Ho Hs He Hw h. pose proof (pool_shape_ok _ _ _ _ Hb Hi Ho Hs He Hw) as Hh. fold h in Hh.
  destruct (roundup_8 isize Hi Ho) as [Hm Hr]. split; [done|].
  unfold os_obj_initialize. assert (os_obj_ready t s = false) as Hrd by (unfold os_obj_ready; by rewrite Ht).
  rewrite Hrd, andb_false_r. rewrite (proj2 (Z.eqb_neq buffer 0)), (proj2 (Z.eqb_neq _ 0)), (proj2 (Z.ltb_ge _ _)) by lia.
  cbn [orb]. unfold obj_initialize_locked. rewrite Hrd.
  destruct (init_loop_ok h Hh (sh_count h) 0 s 0) as (head & m & E & Hc & Hd & Hf); [done| |done|].
  { intros p Hp. by apply elem_of_dom, Hw. }
  assert (object h 0 = buffer) as Ho0 by (unfold object; simpl; lia). rewrite Ho0, wrap_small in E by (split; lia).
  change (sh_fixed h) with (roundup isize 8) in E. change (sh_count h) with (Z.to_nat (size / roundup isize 8)) in E.
  rewrite E. cbn [obind fst snd]. eexists. split; [done|].
  split; cbn [fresh_pool a_free a_held a_known mem object_table set_table].
  - by rewrite decide_True.
  - rewrite app_nil_r. apply reverse_Permutation.
  - apply map_subseteq_spec. intros x v [Hv Hx]%map_lookup_filter_Some. rewrite Hf by done. done.
  - intros p Hp. rewrite elem_of_reverse in Hp. apply map_lookup_filter_None. right. intros v Hv. cbn. by intros Hn.
  - done.
Qed.

(** *** A pool that its first user makes

    The users of the pools look whether the pool is there and make it if not. *)
Definition ensure_pool (t : obj_type) (buffer size isize : Z) (s : pools) : outcome (Z * pools) :=
  if negb (os_obj_ready t s) then os_obj_initialize t buffer size isize s else Done (0, s).

(** The array of the objects, and its words in the memory [m0] at the start. *)
Record array_ok (buffer size isize : Z) (m0 : gmap Z Z) : Prop := {
  ao_buffer : 0 < buffer;
  ao_isize : 0 < isize;
  ao_small : isize + 7 < 2 ^ 64;
  ao_fits : roundup isize 8 <= size;
  ao_end : buffer + size <= 2 ^ 64;
  ao_words : forall p, p ∈ objects (pool_shape buffer size isize (dom m0)) -> p ∈ dom m0 }.

(** The pool is there, or it is not and nobody holds an object. *)
Definition lazy_pool (h : shape) (m0 : gmap Z Z) (t : obj_type) (s : pools) (a : apool) : Prop :=
  pool_inv h t s a \/ object_table s t = OBJ_DEFAULT_VAL /\ mem s = m0 /\ a = fresh_pool h m0.

Section Lazy.
Context (t : obj_type) (buffer size isize : Z) (m0 : gmap Z Z) (Hfit : array_ok buffer size isize m0).
Abbreviation h := (pool_shape buffer size isize (dom m0)).

Lemma array_shape : shape_ok h.
Proof. destruct Hfit. by apply pool_shape_ok. Qed.

Lemma ensure_ok s a : lazy_pool h m0 t s a ->
  exists s', ensure_pool t buffer size isize s = Done (0, s') /\ pool_inv h t s' a.
Proof.
  unfold ensure_pool. intros [Hp|(Ht & Hm & ->)].
  - rewrite (inv_ready _ array_shape _ _ _ Hp). by exists s.
  - unfold os_obj_ready. rewrite Ht, Z.eqb_refl. cbn [negb]. destruct Hfit as [H1 H2 H3 H4 H5 H6].
    destruct (initialize_ok t buffer size isize s Ht H1 H2 H3 H4 H5) as (_ & s' & E & Hi); [by rewrite Hm|].
    rewrite Hm in Hi. by exists s'.
Qed.

Lemma lazy_held s a p : lazy_pool h m0 t s a -> p ∈ a_held a -> pool_inv h t s a /\ p ∈ objects h.
Proof.
  intros [Hi|(_ & _ & ->)] Hp; [|by apply elem_of_nil in Hp]. split; [done|]. by eapply inv_held.
Qed.

Lemma object_pos p : p ∈ objects h -> 0 < p.
Proof. intros Hp. pose proof (object_range _ array_shape p Hp). pose proof (so_base _ array_shape). lia. Qed.

Lemma lazy_nodup s a : lazy_pool h m0 t s a -> NoDup (a_free a ++ a_held a).
Proof.
  intros [Hi|(_ & _ & ->)]; [by eapply inv_nodup; [apply array_shape|]|].
  cbn [fresh_pool a_free a_held]. rewrite app_nil_r, reverse_Permutation. by apply objects_nodup, array_shape.
Qed.
End Lazy.

(** C18: [os_obj_initialize] makes a pool of its buffer: [size / roundup (isize,
    8)] objects inside of the buffer that do not overlap, each as large as
    asked for. From there, for every sequence of calls of any threads that
    give back only what they hold and write only to objects they hold (or
    elsewhere), [os_obj_allocate] and [os_obj_free] behave as a stack of free
    objects: an allocation gives an object that nobody holds, or NULL when all
    are held; every object is free or held by exactly one holder; no word of a
    held object changes by the calls of others; an initialisation that comes
    second, because two threads found the pool missing, changes nothing. *)
Theorem object_pool_correct t buffer size isize s :
  object_table s t = OBJ_DEFAULT_VAL ->
  0 < buffer -> 0 < isize -> isize + 7 < 2 ^ 64 -> roundup isize 8 <= size -> buffer + size <= 2 ^ 64 ->
  (forall p, p ∈ objects (pool_shape buffer size isize (dom (mem s))) -> p ∈ dom (mem s)) ->
  let h := pool_shape buffer size isize (dom (mem s)) in
  (forall p, p ∈ objects h -> buffer <= p /\ p + isize <= buffer + size)
  /\ exists s1, os_obj_initialize t buffer size isize s = Done (0, s1)
  /\ forall cs rs a, asteps h cs (fresh_pool h (mem s)) = Some (rs, a) ->
       exists s2, psteps t cs s1 = Done (rs, s2)
         /\ a_free a ++ a_held a ≡ₚ objects h /\ NoDup (a_free a ++ a_held a) /\ a_known a ⊆ mem s2.
Proof.
  intros Ht Hb Hi Ho Hs He Hw h. destruct (initialize_ok t buffer size isize s Ht Hb Hi Ho Hs He Hw) as (Hh & s1 & E & I). fold h in Hh, I.
  destruct (roundup_8 isize Hi Ho) as [Hm Hr]. split.
  { intros p Hp. pose proof (object_range h Hh p Hp) as Hp'. cbn in Hp'. rewrite Z2Nat.id in Hp' by (apply Z.div_pos; lia).
    pose proof (Z.mul_div_le size (roundup isize 8)). lia. }
  exists s1. split; [done|]. intros cs rs a Ha.
  destruct (psteps_ok h Hh t cs _ _ rs a I Ha) as (s2 & E2 & I2). exists s2. split; [done|].
  split; [apply I2|]. split; [by eapply inv_nodup|apply I2].
Qed.

(** 24 bytes for objects of 7: three of 8. *)
Definition small_memory : pools := mk_pools initial_table (list_to_map [(1000, 5); (1008, 5); (1016, 5); (1024, 7)]).
Definition small_calls : list pcmd := [Alloc; Alloc; Write 1016 3; Reinit 1000 24 8; Alloc; Alloc; Free 1008; Write 1024 9; Alloc].

Lemma object_pool_correct_witness :
  exists s1 s2, os_obj_initialize OBJ_TIMER_CLASS 1000 24 7 small_memory = Done (0, s1)
    /\ psteps OBJ_TIMER_CLASS small_calls s1 = Done ([1016; 1008; 0; 0; 1000; 0; 0; 0; 1008], s2).
Proof.
  refine (match proj2 (object_pool_correct OBJ_TIMER_CLASS 1000 24 7 small_memory _ _ _ _ _ _ _) with
          | ex_intro _ s1 (conj E H) =>
              match H small_calls _ _ _ with ex_intro _ s2 (conj E2 _) => ex_intro _ s1 (ex_intro _ s2 (conj E E2)) end
          end); try (by vm_compute).
  - intros p Hp. assert (p ∈ [1000; 1008; 1016]) as H by exact Hp. clear Hp. apply elem_of_dom.
    repeat (apply elem_of_cons in H as [->|H]; [eexists; by vm_compute|]). by apply not_elem_of_nil in H.
Defined.

(** Before the initialisation an allocation follows the pointer that marks the
    pool as missing. *)
Lemma alloc_before_initialize t m : m !! OBJ_DEFAULT_VAL = None -> os_obj_allocate t (mk_pools initial_table m) = Undef.
Proof. intros H. unfold os_obj_allocate, load. change (object_table _ t) with OBJ_DEFAULT_VAL.
  change (negb (OBJ_DEFAULT_VAL =? 0)) with true. cbn [mem]. by rewrite H. Qed.

(** A pool without a free object is not recognised as initialised. *)
Lemma initialize_exhausted t b size isize m tab : tab t = 0 -> b <> 0 -> roundup isize 8 <> 0 -> roundup isize 8 <= size ->
  os_obj_initialize t b size isize (mk_pools tab m) = Done (0, mk_pools tab m).
Proof.
  intros Ht Hb Hr Hs. unfold os_obj_initialize, obj_initialize_locked, os_obj_ready. cbn -[roundup]. rewrite Ht. cbn -[roundup].
  by rewrite (proj2 (Z.eqb_neq _ _) Hb), (proj2 (Z.eqb_neq _ _) Hr), (proj2 (Z.ltb_ge _ _) Hs).
Qed.

(** ** os/posix/os_timer_impl.c *)

Section Timers.
(** The static array [timer_objs] and the size of its elements. *)
Context (timer_objs sizeof_timer : Z).

Definition CONFIG_OS_MAX_TIMERS : Z := 30.

(** The fields of [struct os_timer] but for [sig], which [os_timer_create]
    sets to constants. *)
Record os_timer := mk_timer { task : Z; arg : Z; id : Z; it_value : Z * Z; it_interval : Z * Z }.

(** The pools, the structures, and the calls of [timer_settime] and
    [timer_delete]. *)
Inductive timer_call := Settime (id : Z) (value interval : Z * Z) | Delete (id : Z).
Record timers := mk_timers { t_pools : pools; t_objs : gmap Z os_timer; t_calls : list timer_call }.

(** [os_timer_create (timer, timeout_cb, arg, isr_context)]: the result and
    [*timer]. [timer_create] gives its result and the id. *)
Definition os_timer_create (timer : bool) (timeout_cb arg : Z) (timer_create : Z * Z) (s : timers) : outcome (Z * option Z * timers) :=
  if negb timer || (timeout_cb =? 0) then Done (- EINVAL, None, s)
  else
  let* r := ensure_pool OBJ_TIMER_CLASS timer_objs (CONFIG_OS_MAX_TIMERS * sizeof_timer) sizeof_timer (t_pools s) in
  assert* r.1 =? 0 in (* os_panic *)
  let* a := os_obj_allocate OBJ_TIMER_CLASS r.2 in
  let p := a.1 in
  if p =? 0 then Done (- ENOMEM, None, mk_timers a.2 (t_objs s) (t_calls s))
  else
  let* m := store p 0 a.2 in (* memset; the first word *)
  let '(err, tid) := timer_create in
  let s := mk_timers m (<[p := mk_timer timeout_cb arg (if err =? 0 then tid else 0) (0, 0) (0, 0)]> (t_objs s)) (t_calls s) in
  if negb (err =? 0) then Done (err, None, s) else Done (0, Some p, s).

(** [os_timer_mod (timer, expires)]; [expires] in milliseconds *)
Definition os_timer_mod (timer expires : Z) (s : timers) : outcome (Z * timers) :=
  assert* negb (timer =? 0) in
  match t_objs s !! timer with
  | None => Undef
  | Some p =>
      let sec := Z.quot expires 1000 in
      let expires := expires - sec * 1000 in
      let value := (sec, expires * 1000000) in
      Done (0, mk_timers (t_pools s) (<[timer := mk_timer (task p) (arg p) (id p) value (0, 0)]> (t_objs s))
                 (t_calls s ++ [Settime (id p) value (0, 0)]))
  end.

Definition os_timer_add (timer expires : Z) (s : timers) : outcome (Z * timers) :=
  assert* negb (timer =? 0) in let* r := os_timer_mod timer expires s in Done (0, r.2).

Definition os_timer_del (timer : Z) (s : timers) : outcome (Z * timers) :=
  assert* negb (timer =? 0) in let* r := os_timer_mod timer 0 s in Done (0, r.2).

Definition os_timer_destroy (timer : Z) (s : timers) : outcome (Z * timers) :=
  assert* negb (timer =? 0) in
  match t_objs s !! timer with
  | None => Undef
  | Some p =>
      let* m := os_obj_free OBJ_TIMER_CLASS timer (t_pools s) in
      Done (0, mk_timers m (delete timer (t_objs s)) (t_calls s ++ [Delete (id p)]))
  end.

(** What a timer of the operating system runs, through the run queue. *)
Definition timer_task_wrapper (timer : Z) (s : timers) : outcome (Z * Z * Z) :=
  match t_objs s !! timer with
  | None => Undef
  | Some p => assert* negb (task p =? 0) in Done (task p, timer, arg p)
  end.
End Timers.

(** The time that is set is exact, and a valid [timespec]. *)
Lemma os_timer_mod_exact timer expires p s : timer <> 0 -> 0 <= expires -> t_objs s !! timer = Some p ->
  exists sec nsec s', os_timer_mod timer expires s = Done (0, s') /\ t_calls s' = t_calls s ++ [Settime (id p) (sec, nsec) (0, 0)]
    /\ sec * 1000000000 + nsec = expires * 1000000 /\ 0 <= sec /\ 0 <= nsec < 1000000000.
Proof.
  intros Ht He Hp. unfold os_timer_mod. rewrite (proj2 (Z.eqb_neq _ _) Ht), Hp. cbn [negb].
  do 3 eexists. split; [done|]. split; [done|]. zlia.
Qed.

(** When the operating system refuses a timer, the object is not given back:
    after thirty refusals no timer can be created. *)
Fixpoint refused (n : nat) (s : timers) : outcome timers :=
  match n with
  | O => Done s
  | S n => let* r := os_timer_create 4096 120 true 7 0 (-1, 0) s in refused n r.2
  end.

Definition thirty_objects : timers :=
  mk_timers (mk_pools initial_table (list_to_map ((fun k => (4096 + 120 * Z.of_nat k, 0)) <$> seq 0 30))) ∅ [].

Lemma os_timer_create_leaks :
  exists s, refused 30 thirty_objects = Done s /\ (let* r := os_timer_create 4096 120 true 7 0 (0, 5) s in Done r.1) = Done (- ENOMEM, None).
Proof. eexists. split; vm_compute; reflexivity. Qed.

(** ** os/osapi_fs.c *)

Section Files.
Context {W : Type}.

Definition CONFIG_OS_MAX_FILES : Z := 10.

(** [struct file_class], with the functions that are there; each gets and
    changes the state [W] of the file system. *)
Record file_class := mk_class {
  fc_open : option (Z -> list Z -> Z -> W -> Z * W);
  fc_close : option (Z -> W -> Z * W);
  fc_ioctl : option (Z -> Z -> Z -> W -> Z * W);
  fc_read : option (Z -> Z -> W -> Z * list Z * W);
  fc_write : option (Z -> list Z -> W -> Z * W);
  fc_flush : option (Z -> W -> Z * W);
  fc_lseek : option (Z -> Z -> Z -> W -> Z * W);
  fc_getdents : option (Z -> Z -> W -> Z * list Z * W);
  fc_truncate : option (Z -> Z -> W -> Z * W);
  fc_unlink : option (list Z -> W -> Z * W);
  fc_stat : option (list Z -> W -> Z * list Z * W);
  fc_rename : option (list Z -> list Z -> W -> Z * W);
  robj : Z * Z;                                      (* start, size *)
}.

(** [_vfs] with its address, the pools, the file system. *)
Record vfs := mk_vfs { _vfs : option (Z * file_class); v_pools : pools; v_world : W }.

Definition set_world (w : W) (s : vfs) : vfs := mk_vfs (_vfs s) (v_pools s) w.

(** A function pointer that is asserted to be there. *)
Definition present {A} (f : option A) : outcome A := match f with Some f => Done f | None => Assert end.

(** [fp->f_class], the first word of the object. *)
Definition f_class (fd : Z) (s : vfs) : outcome file_class :=
  assert* negb (fd =? 0) in
  let* c := load fd (v_pools s) in
  assert* negb (c =? 0) in
  match _vfs s with Some (p, cl) => guard* (c =? p) in Done cl | None => Undef end.

(** [vfs_open (fd, path, flags)]: the result and [*fd] *)
Definition vfs_open (fd : bool) (path : option (list Z)) (flags : Z) (s : vfs) : outcome (Z * option Z * vfs) :=
  match path with
  | None => Done (- EINVAL, None, s)
  | Some path =>
      if negb fd then Done (- EINVAL, None, s)
      else
      match _vfs s with
      | None => Done (- EINVAL, None, s)
      | Some (ptr, f) =>
          let* r := ensure_pool OBJ_FILE_CLASS (robj f).1 (robj f).2 ((robj f).2 / CONFIG_OS_MAX_FILES) (v_pools s) in
          if negb (r.1 =? 0) then Done (r.1, None, mk_vfs (_vfs s) r.2 (v_world s))
          else
          let* a := os_obj_allocate OBJ_FILE_CLASS r.2 in
          let fp := a.1 in
          assert* negb (fp =? 0) in
          let* m := store fp ptr a.2 in
          let* op := present (fc_open f) in
          let '(err, w) := op fp path flags (v_world s) in
          if negb (err =? 0) then
            let* m := os_obj_free OBJ_FILE_CLASS fp m in Done (err, None, mk_vfs (_vfs s) m w)
          else Done (0, Some fp, mk_vfs (_vfs s) m w)
      end
  end.

Definition vfs_close (fd : Z) (s : vfs) : outcome (Z * vfs) :=
  let* f := f_class fd s in
  let* close := present (fc_close f) in
  let '(err, w) := close fd (v_world s) in
  if negb (err =? 0) then Done (err, set_world w s)
  else let* m := os_obj_free OBJ_FILE_CLASS fd (v_pools s) in Done (0, mk_vfs (_vfs s) m w).

Definition vfs_ioctl (fd cmd args : Z) (s : vfs) : outcome (Z * vfs) :=
  let* f := f_class fd s in
  let* op := present (fc_ioctl f) in let '(r, w) := op fd cmd args (v_world s) in Done (r, set_world w s).

(** [vfs_read (fd, buf, len)]; the bytes that are read in the result *)
Definition vfs_read (fd : Z) (buf : bool) (len : Z) (s : vfs) : outcome (Z * list Z * vfs) :=
  let* f := f_class fd s in
  let* op := present (fc_read f) in
  if negb buf then Done (- EINVAL, [], s)
  else if len =? 0 then Done (0, [], s)
  else let '(r, bytes, w) := op fd len (v_world s) in Done (r, bytes, set_world w s).

Definition vfs_write (fd : Z) (buf : option (list Z)) (s : vfs) : outcome (Z * vfs) :=
  assert* negb (fd =? 0) in
  match buf with
  | None => Done (- EINVAL, s)
  | Some [] => Done (0, s)
  | Some bytes =>
      let* f := f_class fd s in
      let* op := present (fc_write f) in let '(r, w) := op fd bytes (v_world s) in Done (r, set_world w s)
  end.

Definition vfs_flush (fd : Z) (s : vfs) : outcome (Z * vfs) :=
  let* f := f_class fd s in
  let* op := present (fc_flush f) in let '(r, w) := op fd (v_world s) in Done (r, set_world w s).

Definition vfs_lseek (fd offset whence : Z) (s : vfs) : outcome (Z * vfs) :=
  let* f := f_class fd s in
  let* op := present (fc_lseek f) in let '(r, w) := op fd offset whence (v_world s) in Done (r, set_world w s).

Definition vfs_getdents (fd : Z) (dirp : bool) (nbytes : Z) (s : vfs) : outcome (Z * list Z * vfs) :=
  assert* negb (fd =? 0) in
  if negb dirp then Done (- EINVAL, [], s)
  else
  let* f := f_class fd s in
  let* op := present (fc_getdents f) in let '(r, d, w) := op fd (u32 nbytes) (v_world s) in Done (r, d, set_world w s).

Definition vfs_ftruncate (fd length : Z) (s : vfs) : outcome (Z * vfs) :=
  let* f := f_class fd s in
  let* op := present (fc_truncate f) in let '(r, w) := op fd length (v_world s) in Done (r, set_world w s).

Definition vfs_rename (oldpath newpath : option (list Z)) (s : vfs) : outcome (Z * vfs) :=
  match oldpath, newpath with
  | Some oldpath, Some newpath =>
      let* fp := present (_vfs s) in
      let* op := present (fc_rename fp.2) in let '(r, w) := op oldpath newpath (v_world s) in Done (r, set_world w s)
  | _, _ => Done (- EINVAL, s)
  end.

Definition vfs_unlink (path : option (list Z)) (s : vfs) : outcome (Z * vfs) :=
  match path with
  | Some path =>
      let* fp := present (_vfs s) in
      let* op := present (fc_unlink fp.2) in let '(r, w) := op path (v_world s) in Done (r, set_world w s)
  | None => Done (- EINVAL, s)
  end.

Definition vfs_stat (path : option (list Z)) (s : vfs) : outcome (Z * list Z * vfs) :=
  match path with
  | Some path =>
      let* fp := present (_vfs s) in
      let* op := present (fc_stat fp.2) in let '(r, b, w) := op path (v_world s) in Done (r, b, set_world w s)
  | None => Done (- EINVAL, [], s)
  end.

(** [vfs_register (fs)]; the address and the class, or NULL *)
Definition vfs_register (fs : option (Z * file_class)) (s : vfs) : Z * vfs :=
  match fs with
  | None => (- EINVAL, s)
  | Some _ => match _vfs s with Some _ => (- EBUSY, s) | None => (0, mk_vfs fs (v_pools s) (v_world s)) end
  end.

(** With all files open, [vfs_open] fails its assertion instead of answering. *)
Lemma vfs_open_exhausted path flags s ptr f : _vfs s = Some (ptr, f) -> object_table (v_pools s) OBJ_FILE_CLASS = 0 ->
  vfs_open true (Some path) flags s = Assert.
Proof.
  intros Hv Ht. unfold vfs_open, ensure_pool, os_obj_ready, os_obj_allocate. rewrite Hv, Ht.
  change (negb (negb (0 =? OBJ_DEFAULT_VAL))) with false. cbn. by rewrite Ht.
Qed.

(** A file that the file system refuses to open leaves the pool as it was. *)
Lemma vfs_open_refused h path flags s ptr f op a : shape_ok h -> pool_inv h OBJ_FILE_CLASS (v_pools s) a -> a_free a <> [] ->
  _vfs s = Some (ptr, f) -> fc_open f = Some op -> (forall fd w, (op fd path flags w).1 <> 0) ->
  exists err s' a', vfs_open true (Some path) flags s = Done (err, None, s') /\ err <> 0
    /\ pool_inv h OBJ_FILE_CLASS (v_pools s') a' /\ a_free a' = a_free a /\ a_held a' ≡ₚ a_held a.
Proof.
  intros Hh I Hne Hv Ho Hop. unfold vfs_open, ensure_pool. rewrite Hv, (inv_ready h Hh _ _ _ I). cbn [negb obind fst snd Z.eqb].
  destruct (a_free a) as [|p free] eqn:Ef; [done|].
  destruct (take_ok h Hh OBJ_FILE_CLASS (v_pools s) a p free ptr I Ef) as (s1 & s2 & -> & Hp0 & Hnh & Es & I2). cbn [obind fst snd].
  rewrite (proj2 (Z.eqb_neq _ _) Hp0). cbn [negb]. rewrite Es.
  cbn [obind]. rewrite Ho. cbn [present obind]. pose proof (Hop p (v_world s)) as Hne'. destruct (op p path flags (v_world s)) as [err w].
  cbn [fst] in Hne'. rewrite (proj2 (Z.eqb_neq _ _) Hne'). cbn [negb].
  destruct (free_ok h Hh _ _ _ p I2) as (s3 & -> & I3); [left|]. cbn [obind].
  do 3 eexists. split; [done|]. split; [done|]. split; [exact I3|]. split; [done|]. cbn [a_held].
  rewrite filter_cons_False by tauto. rewrite filter_all; [done|]. intros q Hq ->. done.
Qed.
End Files.
End ObjPool.
