(* ===== verification/VfsOk.v ===== *)
(** * os/osapi_fs.c : files are objects of their own

    The functions of ObjPool that open, use and close files, over any file
    system.  [vfs_refines]: whatever the file system answers, a sequence of
    calls gives each open file an object that nobody else has, hands exactly
    that object to the file system, and takes it back when the file is closed
    or could not be opened. *)
From Stdlib Require Import ZArith Lia Bool.
From stdpp Require Import base list numbers gmap.
From S2P Require Import Prelude ObjPool.
Import ObjPool.

Module VfsOk.

(** ** The calls *)

Inductive fop :=
| FOpen (path : list Z) (flags : Z) | FClose (fd : Z) | FIoctl (fd cmd args : Z) | FRead (fd len : Z) | FWrite (fd : Z) (bytes : list Z)
| FFlush (fd : Z) | FLseek (fd offset whence : Z) | FGetdents (fd nbytes : Z) | FTruncate (fd length : Z)
| FUnlink (path : list Z) | FStat (path : list Z) | FRename (oldpath newpath : list Z).

(** The result, the file that was opened, the bytes that were read. *)
Abbreviation fobs := (Z * option Z * list Z)%type.

Section Class.
Context {W : Type}.

Definition fstep (op : fop) (s : vfs (W := W)) : outcome (fobs * vfs (W := W)) :=
  let ret (r : outcome (Z * vfs)) := let* r := r in Done ((r.1, None, []), r.2) in
  let data (r : outcome (Z * list Z * vfs)) := let* r := r in Done ((r.1.1, None, r.1.2), r.2) in
  match op with
  | FOpen path flags => let* r := vfs_open true (Some path) flags s in Done ((r.1.1, r.1.2, []), r.2)
  | FClose fd => ret (vfs_close fd s)
  | FIoctl fd cmd args => ret (vfs_ioctl fd cmd args s)
  | FRead fd n => data (vfs_read fd true n s)
  | FWrite fd bytes => ret (vfs_write fd (Some bytes) s)
  | FFlush fd => ret (vfs_flush fd s)
  | FLseek fd offset whence => ret (vfs_lseek fd offset whence s)
  | FGetdents fd n => data (vfs_getdents fd true n s)
  | FTruncate fd n => ret (vfs_ftruncate fd n s)
  | FUnlink path => ret (vfs_unlink (Some path) s)
  | FStat path => data (vfs_stat (Some path) s)
  | FRename o n => ret (vfs_rename (Some o) (Some n) s)
  end.

Fixpoint frun (ops : list fop) (s : vfs (W := W)) : outcome (list fobs * vfs (W := W)) :=
  match ops with
  | [] => Done ([], s)
  | op :: ops => let* r := fstep op s in let* rs := frun ops r.2 in Done (r.1 :: rs.1, rs.2)
  end.

(** ** The specification *)

(** The objects, free and in use, and the file system. *)
Record files := mk_files { f_pool : apool; f_world : W }.

Section Spec.
Context (cls : file_class (W := W)) (ptr : Z).

Definition open_file (a : files) (fd : Z) : bool := bool_decide (fd ∈ a_held (f_pool a)).

(** Assert: no object for a new file, or a function that the class does not
    have, which the code asserts not to happen. Undef: a file that is not
    open. *)
Definition fspec (op : fop) (a : files) : outcome (fobs * files) :=
  let on {A} (fd : Z) (f : option A) (k : A -> fobs * W) : outcome (fobs * files) :=
    guard* open_file a fd in
    let* f := present f in let r := k f in Done (r.1, mk_files (f_pool a) r.2) in
  let at_path {A} (f : option A) (k : A -> fobs * W) : outcome (fobs * files) :=
    let* f := present f in let r := k f in Done (r.1, mk_files (f_pool a) r.2) in
  let ret (r : Z * W) : fobs * W := ((r.1, None, []), r.2) in
  let data (r : Z * list Z * W) : fobs * W := ((r.1.1, None, r.1.2), r.2) in
  match op with
  | FOpen path flags =>
      match a_free (f_pool a) with
      | [] => Assert
      | fd :: free =>
          let* f := present (fc_open cls) in
          let r := f fd path flags (f_world a) in
          if r.1 =? 0
          then Done ((0, Some fd, []),
                     mk_files (mk_apool free (fd :: a_held (f_pool a)) (<[fd := ptr]> (a_known (f_pool a)))) r.2)
          else Done ((r.1, None, []), mk_files (f_pool a) r.2)
      end
  | FClose fd =>
      guard* open_file a fd in
      let* f := present (fc_close cls) in
      let r := f fd (f_world a) in
      Done ((r.1, None, []),
            mk_files (if r.1 =? 0
                      then mk_apool (fd :: a_free (f_pool a)) (filter (fun q => q <> fd) (a_held (f_pool a)))
                             (delete fd (a_known (f_pool a)))
                      else f_pool a) r.2)
  | FIoctl fd cmd args => on fd (fc_ioctl cls) (fun f => ret (f fd cmd args (f_world a)))
  | FRead fd n => on fd (fc_read cls) (fun f => if n =? 0 then ((0, None, []), f_world a) else data (f fd n (f_world a)))
  | FWrite fd bytes =>
      match bytes with
      | [] => guard* open_file a fd in Done ((0, None, []), a)
      | _ => on fd (fc_write cls) (fun f => ret (f fd bytes (f_world a)))
      end
  | FFlush fd => on fd (fc_flush cls) (fun f => ret (f fd (f_world a)))
  | FLseek fd offset whence => on fd (fc_lseek cls) (fun f => ret (f fd offset whence (f_world a)))
  | FGetdents fd n => on fd (fc_getdents cls) (fun f => data (f fd (u32 n) (f_world a)))
  | FTruncate fd n => on fd (fc_truncate cls) (fun f => ret (f fd n (f_world a)))
  | FUnlink path => at_path (fc_unlink cls) (fun f => ret (f path (f_world a)))
  | FStat path => at_path (fc_stat cls) (fun f => data (f path (f_world a)))
  | FRename o n => at_path (fc_rename cls) (fun f => ret (f o n (f_world a)))
  end.

Fixpoint fspec_run (ops : list fop) (a : files) : outcome (list fobs * files) :=
  match ops with
  | [] => Done ([], a)
  | op :: ops => let* r := fspec op a in let* rs := fspec_run ops r.2 in Done (r.1 :: rs.1, rs.2)
  end.
End Spec.

(** ** The calls keep the promise *)

Section Refine.
Context (cls : file_class (W := W)) (ptr : Z) (m0 : gmap Z Z).
Context (Hptr : ptr <> 0) (Hfit : array_ok (robj cls).1 (robj cls).2 ((robj cls).2 / CONFIG_OS_MAX_FILES) m0).

Definition file_pool : shape := pool_shape (robj cls).1 (robj cls).2 ((robj cls).2 / CONFIG_OS_MAX_FILES) (dom m0).

Record finv (s : vfs) (a : files) : Prop := {
  fi_pool : lazy_pool file_pool m0 OBJ_FILE_CLASS (v_pools s) (f_pool a);
  fi_class : _vfs s = Some (ptr, cls);
  fi_files : forall fd, fd ∈ a_held (f_pool a) -> a_known (f_pool a) !! fd = Some ptr;
  fi_world : v_world s = f_world a }.

Lemma file_class_ok s a fd : finv s a -> open_file a fd = true -> fd <> 0 /\ f_class fd s = Done cls.
Proof.
  intros HI Hfd%bool_decide_eq_true. destruct (lazy_held _ _ _ _ _ _ _ fd (fi_pool _ _ HI) Hfd) as [Hp Ho].
  pose proof (object_pos _ _ _ _ Hfit fd Ho). split; [lia|]. unfold f_class. rewrite (proj2 (Z.eqb_neq fd 0)) by lia. cbn [negb].
  unfold load. rewrite (lookup_weaken _ _ _ _ (fi_files _ _ HI fd Hfd) (pi_known _ _ _ _ Hp)). cbn [obind].
  rewrite (proj2 (Z.eqb_neq ptr 0)) by done. cbn [negb]. by rewrite (fi_class _ _ HI), Z.eqb_refl.
Qed.

Lemma finv_world s a w : finv s a -> finv (set_world w s) (mk_files (f_pool a) w).
Proof. intros [H1 H2 H3 H4]. by split. Qed.

(** What a call of the code does where the specification answers. *)
Definition meets (op : fop) (s : vfs) (r : outcome (fobs * files)) : Prop :=
  match r with
  | Done (o, a') => exists s', fstep op s = Done (o, s') /\ finv s' a'
  | Assert => fstep op s = Assert
  | Undef => True
  end.

Lemma vfs_open_ok s a path flags : finv s a -> meets (FOpen path flags) s (fspec cls ptr (FOpen path flags) a).
Proof.
  intros HI. unfold meets. cbn [fspec fstep]. unfold vfs_open. cbn [negb]. rewrite (fi_class _ _ HI).
  destruct (ensure_ok OBJ_FILE_CLASS _ _ _ _ Hfit _ _ (fi_pool _ _ HI)) as (m & -> & Hp). cbn [obind fst snd Z.eqb negb].
  pose proof (array_shape _ _ _ _ Hfit) as Hh.
  destruct (a_free (f_pool a)) as [|fd free] eqn:Efree.
  { unfold os_obj_allocate. pose proof (pi_chain _ _ _ _ Hp) as Hc. rewrite Efree in Hc. cbn [chain] in Hc. by rewrite Hc. }
  destruct (take_ok _ Hh OBJ_FILE_CLASS m (f_pool a) fd free ptr Hp Efree) as (m1 & m2 & -> & Hn0 & Hnh & Est & Hp2). cbn [obind fst snd].
  rewrite (proj2 (Z.eqb_neq fd 0)) by done. cbn [negb]. rewrite Est. cbn [obind].
  destruct (fc_open cls) as [f|]; cbn [present obind]; [|done]. rewrite (fi_world _ _ HI).
  destruct (f fd path flags (f_world a)) as [err w]. cbn [fst snd] in *. destruct (Z.eqb_spec err 0) as [->|Herr]; cbn [negb].
  - cbn [obind fst snd]. eexists. split; [done|]. destruct HI as [H1 H2 H3 H4]. split; cbn; try done; [by left|].
    intros q [->|Hq]%elem_of_cons; [apply lookup_insert_eq|]. rewrite lookup_insert_ne by (intros ->; done). by apply H3.
  - destruct (free_ok _ Hh OBJ_FILE_CLASS m2 _ fd Hp2) as (m3 & -> & Hp3); [left|]. cbn [obind fst snd].
    eexists. split; [done|]. destruct HI as [H1 H2 H3 H4]. split; cbn; try done. left. cbn [a_free a_held a_known] in Hp3.
    rewrite filter_cons_False, filter_all, delete_insert_id in Hp3; [|by apply (pi_free _ _ _ _ Hp); rewrite Efree; left|by intros q Hq ->|tauto].
    rewrite <- Efree in Hp3. by destruct (f_pool a).
Qed.

Lemma vfs_close_ok s a fd : finv s a -> meets (FClose fd) s (fspec cls ptr (FClose fd) a).
Proof.
  intros HI. unfold meets. cbn [fspec fstep]. destruct (open_file a fd) eqn:Hfd; [|done]. destruct (file_class_ok s a fd HI Hfd) as [Hn0 Hc].
  apply bool_decide_eq_true in Hfd. destruct (lazy_held _ _ _ _ _ _ _ fd (fi_pool _ _ HI) Hfd) as [Hp Ho].
  pose proof (array_shape _ _ _ _ Hfit) as Hh.
  unfold vfs_close. rewrite Hc. cbn [obind]. destruct (fc_close cls) as [f|]; cbn [present obind]; [|done].
  rewrite (fi_world _ _ HI). destruct (f fd (f_world a)) as [err w]. cbn [fst snd].
  destruct (Z.eqb_spec err 0) as [->|Herr]; cbn [negb].
  - destruct (free_ok _ Hh OBJ_FILE_CLASS (v_pools s) _ fd Hp Hfd) as (m & -> & Hp'). cbn [obind fst snd]. eexists. split; [done|].
    destruct HI as [H1 H2 H3 H4]. split; cbn; try done; [by left|]. intros q [Hne Hq]%list_elem_of_filter.
    rewrite lookup_delete_ne by done. by apply H3.
  - cbn [obind fst snd]. eexists. split; [done|]. by apply finv_world.
Qed.

Lemma vfs_step_ok s a op : finv s a -> meets op s (fspec cls ptr op a).
Proof.
  intros HI. pose proof (file_class_ok s a) as Hcls. pose proof (fi_world _ _ HI) as Hw. pose proof (fi_class _ _ HI) as Hv.
  pose proof (fun w => finv_world s a w HI) as Hfin.
  assert (finv s (mk_files (f_pool a) (f_world a))) as Hsame by (destruct HI; by split).
  destruct op as [path flags|fd|fd cmd args|fd n|fd bytes|fd|fd offset whence|fd n|fd n|path|path|old new];
    [by apply vfs_open_ok|by apply vfs_close_ok|..]; unfold meets; cbn [fspec fstep].
  3: { destruct bytes as [|b bytes]; (destruct (open_file a fd) eqn:Hfd; [|done]); destruct (Hcls fd HI Hfd) as [Hn0 Hc]; unfold vfs_write;
         rewrite (proj2 (Z.eqb_neq fd 0)) by done; cbn [negb]; [by eexists|]. rewrite Hc. cbn [obind]. destruct (fc_write cls) as [f'|]; cbn [present obind]; [|done].
       rewrite Hw. destruct (f' fd (b :: bytes) (f_world a)). eexists. split; [done|apply Hfin]. }
  all: try (destruct (open_file a fd) eqn:Hfd; [|done]; destruct (Hcls fd HI Hfd) as [Hn0 Hc]);
    unfold vfs_ioctl, vfs_read, vfs_flush, vfs_lseek, vfs_getdents, vfs_ftruncate, vfs_unlink, vfs_stat, vfs_rename;
    rewrite ?Hc, ?Hv; cbn [obind present fst snd negb];
    try (rewrite (proj2 (Z.eqb_neq fd 0)) by done); cbn [negb]; rewrite ?Hc; cbn [obind].
  all: match goal with |- context [present ?f] => destruct f as [f'|]; cbn [present obind]; [|done] end; rewrite ?Hw.
  - destruct (f' fd cmd args (f_world a)). eexists. split; [done|apply Hfin].
  - destruct (n =? 0); [by exists s|]. destruct (f' fd n (f_world a)) as [[r b] w]. eexists. split; [done|apply Hfin].
  - destruct (f' fd (f_world a)). eexists. split; [done|apply Hfin].
  - destruct (f' fd offset whence (f_world a)). eexists. split; [done|apply Hfin].
  - destruct (f' fd (u32 n) (f_world a)) as [[r b] w]. eexists. split; [done|apply Hfin].
  - destruct (f' fd n (f_world a)). eexists. split; [done|apply Hfin].
  - destruct (f' path (f_world a)). eexists. split; [done|apply Hfin].
  - destruct (f' path (f_world a)) as [[r b] w]. eexists. split; [done|apply Hfin].
  - destruct (f' old new (f_world a)). eexists. split; [done|apply Hfin].
Qed.

Lemma frun_ok ops : forall s a, finv s a ->
  match fspec_run cls ptr ops a with
  | Done (os, a') => exists s', frun ops s = Done (os, s') /\ finv s' a'
  | Assert => frun ops s = Assert
  | Undef => True
  end.
Proof.
  induction ops as [|op ops IH]; intros s a HI; cbn [fspec_run frun]; [by exists s|].
  pose proof (vfs_step_ok s a op HI) as Hstep. unfold meets in Hstep.
  destruct (fspec cls ptr op a) as [[o a1]| |]; cbn [obind fst snd]; [|by rewrite Hstep|done].
  destruct Hstep as (s1 & -> & HI1). cbn [obind fst snd]. specialize (IH s1 a1 HI1).
  destruct (fspec_run cls ptr ops a1) as [[os1 a2]| |]; cbn [obind fst snd]; [|by rewrite IH|done].
  destruct IH as (s2 & -> & HI2). by exists s2.
Qed.

Lemma lazy_objects s a : lazy_pool file_pool m0 OBJ_FILE_CLASS s a -> a_free a ++ a_held a ≡ₚ objects file_pool.
Proof.
  intros [Hi|(_ & _ & ->)]; [apply (pi_perm _ _ _ _ Hi)|]. cbn [fresh_pool a_free a_held]. by rewrite app_nil_r, reverse_Permutation.
Qed.
End Refine.

(** The program when it starts, and what it stands for. *)
Definition start_vfs (tab : obj_type -> Z) (m : gmap Z Z) (w : W) : vfs := mk_vfs None (mk_pools tab m) w.
Definition start_files (cls : file_class (W := W)) (m : gmap Z Z) (w : W) : files :=
  mk_files (fresh_pool (file_pool cls m) m) w.
End Class.

(** C20: files of any file system. After [vfs_register], a sequence of calls of
    the functions of osapi_fs.c does what the specification says: an open file
    is an object that no other open file has, the functions of the class get
    exactly the object of the file they are called for and in the state that
    the calls before left, a file that cannot be opened or is closed gives its
    object back, and one that cannot be closed stays open. The number of
    objects is [size / roundup (size / 10, 8)] for the memory of the class,
    which is ten for a multiple of 80 bytes and can be more or fewer otherwise;
    a call that opens one more file, or needs a function that the class does
    not have, fails an assertion, exactly where the specification says. It
    says nothing about the use of a file that is not open. *)
Theorem vfs_refines {W} (cls : file_class (W := W)) (ptr : Z) (tab : obj_type -> Z) (m : gmap Z Z) (w : W) (ops : list fop) :
  ptr <> 0 -> array_ok (robj cls).1 (robj cls).2 ((robj cls).2 / CONFIG_OS_MAX_FILES) m ->
  tab OBJ_FILE_CLASS = OBJ_DEFAULT_VAL ->
  let r := vfs_register (Some (ptr, cls)) (start_vfs tab m w) in
  r.1 = 0 /\
  match fspec_run cls ptr ops (start_files cls m w) with
  | Done (os, a) => exists s, frun ops r.2 = Done (os, s) /\ v_world s = f_world a /\ _vfs s = Some (ptr, cls) /\
      NoDup (a_free (f_pool a) ++ a_held (f_pool a)) /\
      len (a_free (f_pool a)) + len (a_held (f_pool a)) = (robj cls).2 / roundup ((robj cls).2 / CONFIG_OS_MAX_FILES) 8
  | Assert => frun ops r.2 = Assert
  | Undef => True
  end.
Proof.
  intros Hptr Hfit Ht r. split; [done|].
  assert (finv cls ptr m r.2 (start_files cls m w)) as HI0.
  { split; cbn; try done; [by right|]. intros fd Hfd. by apply elem_of_nil in Hfd. }
  pose proof (frun_ok cls ptr m Hptr Hfit ops r.2 (start_files cls m w) HI0) as H.
  destruct (fspec_run cls ptr ops (start_files cls m w)) as [[os a]| |]; [|done|done]. destruct H as (s & E & HI).
  exists s. split; [done|]. split; [apply HI|]. split; [apply HI|]. split; [by eapply lazy_nodup, (fi_pool _ _ _ _ _ HI)|].
  pose proof (lazy_objects _ _ _ _ (fi_pool _ _ _ _ _ HI)) as Hp. apply Permutation_length in Hp.
  rewrite length_app in Hp. unfold objects in Hp. rewrite length_fmap, length_seq in Hp. cbn in Hp. destruct Hfit as [F1 F2 F3 F4 F5 F6].
  destruct (roundup_8 _ F2 F3) as [_ Hr]. assert (0 <= (robj cls).2 / roundup ((robj cls).2 / CONFIG_OS_MAX_FILES) 8) by (apply Z.div_pos; lia).
  unfold len. lia.
Qed.

(** *** Witness: files that hold their own name *)

Definition name_class : file_class (W := gmap Z (list Z)) :=
  mk_class (Some (fun fd path _ w => match path with [] => (- 2, w) | _ => (0, <[fd := path]> w) end))
    (Some (fun fd w => (0, delete fd w))) None
    (Some (fun fd n w => let b := slice (default [] (w !! fd)) 0 n in (len b, b, w))) None None None None None None None None
    (4096, 160).
Definition words_n : gmap Z Z := list_to_map ((fun k => (4096 + 16 * Z.of_nat k, 0)) <$> seq 0 10).
Definition calls_n : list fop :=
  [FOpen [97; 98] 0; FOpen [] 0; FOpen [99] 0; FRead 4224 9; FRead 4240 1; FClose 4240; FOpen [100] 0; FRead 4240 4].

Lemma fit_n : array_ok 4096 160 16 words_n.
Proof.
  split; try done. intros p Hp. apply elem_of_dom.
  assert (Forall (fun p => is_Some (words_n !! p)) (objects (pool_shape 4096 160 16 (dom words_n)))) as Hall.
  { apply (bool_decide_unpack (Forall _ _)). vm_compute. reflexivity. }
  rewrite Forall_forall in Hall. by apply Hall.
Qed.

(** The files stay open until there is none left. *)
Definition calls_full : list fop := repeat (FOpen [97] 0) 11.

Lemma vfs_refines_witness :
  (exists a, let r := vfs_register (Some (64, name_class)) (start_vfs initial_table words_n ∅) in
  r.1 = 0 /\ exists s, frun calls_n r.2 =
      Done ([(0, Some 4240, []); (- 2, None, []); (0, Some 4224, []); (1, None, [99]); (1, None, [97]); (0, None, []);
             (0, Some 4240, []); (1, None, [100])], s) /\ v_world s = f_world a /\ _vfs s = Some (64, name_class) /\
    NoDup (a_free (f_pool a) ++ a_held (f_pool a)) /\ len (a_free (f_pool a)) + len (a_held (f_pool a)) = 10) /\
  (let r := vfs_register (Some (64, name_class)) (start_vfs initial_table words_n ∅) in r.1 = 0 /\ frun calls_full r.2 = Assert).
Proof.
  split.
  - eexists (match fspec_run name_class 64 calls_n (start_files name_class words_n ∅) with Done r => r.2 | _ => start_files name_class words_n ∅ end).
    pose proof (vfs_refines name_class 64 initial_table words_n ∅ calls_n ltac:(discriminate) fit_n eq_refl) as H. vm_compute in H |- *. exact H.
  - pose proof (vfs_refines name_class 64 initial_table words_n ∅ calls_full ltac:(discriminate) fit_n eq_refl) as H. vm_compute in H |- *. exact H.
Defined.
End VfsOk.
