(* ===== verification/CstdFs.v ===== *)
(** * os/win32/os_fs_impl.c : files of the C library

    The file system of the Windows build: each function of the class is a call
    of the C library on the stream in the object of the file.  The library is
    modelled with files that are lists of bytes; a stream is a position in one,
    and one that is open for both may read and write in any order. Every call
    of the library can fail, which the state of the host decides.
    [cstd_write_read] and what follows it say what comes of the code's use of
    the results of [fread] and [fwrite]. *)
From Stdlib Require Import ZArith Lia Bool.
From stdpp Require Import base list numbers gmap.
From S2P Require Import Prelude ObjPool VfsOk.
Import ObjPool VfsOk.

Module CstdFs.

Definition ENXIO : Z := 6.
Definition VFS_O_RDONLY : Z := 0.
Definition VFS_O_WRONLY : Z := 1.
Definition VFS_O_RDWR : Z := 2.
Definition VFS_O_MASK : Z := 3.
Definition VFS_O_CREAT : Z := 0x200.
Definition VFS_O_APPEND : Z := 8.

(** ** The C library *)

(** The modes "rb", "wb", "ab", "rb+", "ab+". *)
Inductive mode := RB | WB | AB | RBplus | ABplus.

(** [FILE]: the file, the position, what the mode allows. *)
Record FILE := mk_FILE { f_path : list Z; f_pos : Z; f_read : bool; f_write : bool; f_append : bool }.

(** The files of the host; the stream in each object, which is absent when the
    pointer is NULL or the stream was closed; the next answers of the library
    (it does what it is asked for when there is none): a call that fails does
    so after some number of bytes; and whether the library was called with a
    stream that is NULL or closed, after which nothing is known. *)
Record host := mk_host { h_files : gmap (list Z) (list Z); h_streams : gmap Z FILE; h_io : list (option nat); h_bad : bool }.

Definition set_files (f : gmap (list Z) (list Z)) (h : host) : host := mk_host f (h_streams h) (h_io h) (h_bad h).
Definition set_streams (s : gmap Z FILE) (h : host) : host := mk_host (h_files h) s (h_io h) (h_bad h).
Definition bad (h : host) : host := mk_host (h_files h) (h_streams h) (h_io h) true.

(** The next answer. *)
Definition next_io (h : host) : option nat * host :=
  match h_io h with
  | [] => (None, h)
  | a :: io => (a, mk_host (h_files h) (h_streams h) io (h_bad h))
  end.

Definition fopen (path : list Z) (m : mode) (h : host) : option FILE * host :=
  let '(a, h) := next_io h in
  let create := set_files (<[path := default [] (h_files h !! path)]> (h_files h)) h in
  match a with
  | Some _ => (None, h)
  | None =>
      match m with
      | RB => (_ ← h_files h !! path; Some (mk_FILE path 0 true false false), h)
      | RBplus => (_ ← h_files h !! path; Some (mk_FILE path 0 true true false), h)
      | WB => (Some (mk_FILE path 0 false true false), set_files (<[path := []]> (h_files h)) h)
      | AB => (Some (mk_FILE path 0 false true true), create)
      | ABplus => (Some (mk_FILE path 0 true true true), create)
      end
  end.

Definition file_bytes (f : FILE) (h : host) : list Z := default [] (h_files h !! f_path f).
Definition set_pos (n : Z) (f : FILE) : FILE := mk_FILE (f_path f) n (f_read f) (f_write f) (f_append f).

(** [fread (buf, len, 1, fp)]: the bytes in [buf] and the number of items,
    which are [len] bytes long. *)
Definition fread (len : Z) (f : FILE) (h : host) : list Z * Z * FILE * host :=
  let '(a, h) := next_io h in
  if f_read f then
    let b := slice (file_bytes f h) (f_pos f) len in
    let b := match a with Some k => take k b | None => b end in
    let all := match a with Some _ => false | None => (0 <? len) && (Prelude.len b =? len) end in
    (b, if all then 1 else 0, set_pos (f_pos f + Prelude.len b) f, h)
  else ([], 0, f, h).

(** A file with [b] at [pos]; a gap before it is filled with zeros. *)
Definition write_at (l : list Z) (pos : Z) (b : list Z) : list Z :=
  let l := l ++ replicate (Z.to_nat (pos - Prelude.len l)) 0 in
  take (Z.to_nat pos) l ++ b ++ drop (Z.to_nat (pos + Prelude.len b)) l.

(** [fwrite (buf, len, 1, fp)] *)
Definition fwrite (b : list Z) (f : FILE) (h : host) : Z * FILE * host :=
  let '(a, h) := next_io h in
  if f_write f then
    let l := file_bytes f h in
    let pos := if f_append f then Prelude.len l else f_pos f in
    let put := match a with Some k => take k b | None => b end in
    let all := match a with Some _ => false | None => 0 <? Prelude.len b end in
    (if all then 1 else 0, set_pos (pos + Prelude.len put) f, set_files (<[f_path f := write_at l pos put]> (h_files h)) h)
  else (0, f, h).

Definition fseek (offset whence : Z) (f : FILE) (h : host) : Z * FILE * host :=
  let '(a, h) := next_io h in
  let base := if whence =? 0 then Some 0 else if whence =? 1 then Some (f_pos f)
              else if whence =? 2 then Some (Prelude.len (file_bytes f h)) else None in
  match a, base with
  | None, Some b => if b + offset <? 0 then (-1, f, h) else (0, set_pos (b + offset) f, h)
  | _, _ => (-1, f, h)
  end.

(** [fflush (fp)] and [fclose (fp)]: 0, or EOF. *)
Definition EOF : Z := -1.
Definition fflush (h : host) : Z * host :=
  let '(a, h) := next_io h in (match a with Some _ => EOF | None => 0 end, h).

(** ** The functions of the class

    [fp->fp] is the stream of the object. *)
Definition set_stream (fd : Z) (f : FILE) (h : host) : host := set_streams (<[fd := f]> (h_streams h)) h.
Definition drop_stream (fd : Z) (h : host) : host := set_streams (delete fd (h_streams h)) h.

Definition cstd_fs_open (fd : Z) (path : list Z) (flags : Z) (h : host) : Z * host :=
  let orw := Z.land flags VFS_O_MASK in
  let append := negb (Z.land orw VFS_O_APPEND =? 0) in
  let m :=
    if orw =? VFS_O_RDONLY then Some RB
    else if orw =? VFS_O_WRONLY then Some (if append then AB else WB)
    else if orw =? VFS_O_RDWR then Some (if append then ABplus else RBplus)
    else None in
  match m with
  | None => (- EINVAL, h)
  | Some m =>
      match fopen path m h with
      | (None, h) => (- ENXIO, drop_stream fd h)
      | (Some f, h) => (0, set_stream fd f h)
      end
  end.

(** The stream is gone, whatever [fclose] answers. *)
Definition cstd_fs_close (fd : Z) (h : host) : Z * host :=
  match h_streams h !! fd with
  | None => (0, bad h)
  | Some _ => let '(r, h) := fflush h in (r, drop_stream fd h)
  end.

Definition cstd_fs_ioctl (fd cmd args : Z) (h : host) : Z * host := (- ENOSYS, h).

(** The result and the bytes in [buf]; the test is for [len], not for [size]. *)
Definition cstd_fs_read (fd len : Z) (h : host) : Z * list Z * host :=
  match h_streams h !! fd with
  | None => (0, [], bad h)
  | Some f =>
      let '(b, size, f, h) := fread len f h in
      (if len =? 0 then - EIO else s32 size, b, set_stream fd f h)
  end.

Definition cstd_fs_write (fd : Z) (buf : list Z) (h : host) : Z * host :=
  match h_streams h !! fd with
  | None => (0, bad h)
  | Some f =>
      let '(size, f, h) := fwrite buf f h in
      (if size <? Prelude.len buf then - EIO else s32 size, set_stream fd f h)
  end.

Definition cstd_fs_flush (fd : Z) (h : host) : Z * host :=
  match h_streams h !! fd with
  | None => (0, bad h)
  | Some _ => fflush h
  end.

Definition cstd_fs_lseek (fd offset whence : Z) (h : host) : Z * host :=
  match h_streams h !! fd with
  | None => (0, bad h)
  | Some f => let '(r, f, h) := fseek offset whence f h in (r, set_stream fd f h)
  end.

Definition cstd_fs_rename (oldpath newpath : list Z) (h : host) : Z * host := (- ENOSYS, h).
Definition cstd_fs_ftruncate (fd length : Z) (h : host) : Z * host := (- ENOSYS, h).
Definition cstd_fs_unlink (path : list Z) (h : host) : Z * host := (- ENOSYS, h).

(** [cstd_file_class]; [os_files] is an array at [start] of ten objects. *)
Definition cstd_file_class (start sizeof_file : Z) : file_class (W := host) :=
  mk_class (Some cstd_fs_open) (Some cstd_fs_close) (Some cstd_fs_ioctl) (Some cstd_fs_read) (Some cstd_fs_write)
    (Some cstd_fs_flush) (Some cstd_fs_lseek) None (Some cstd_fs_ftruncate) (Some cstd_fs_unlink) None (Some cstd_fs_rename)
    (start, CONFIG_OS_MAX_FILES * sizeof_file).

Definition cstd_fs_init (ptr start sizeof_file : Z) (s : vfs (W := host)) : Z * vfs (W := host) :=
  vfs_register (Some (ptr, cstd_file_class start sizeof_file)) s.

(** ** What the flags do *)

(** Only the access mode counts: the bits of VFS_O_APPEND and VFS_O_CREAT are
    masked out before they are looked at. *)
Lemma flags_lost fd path flags h : 
  cstd_fs_open fd path flags h = cstd_fs_open fd path (Z.land flags VFS_O_MASK) h.
Proof. unfold cstd_fs_open. by rewrite <- !Z.land_assoc, Z.land_diag. Qed.

(** A file that is opened to append to it is emptied. *)
Lemma append_truncates fd path h : h_io h = [] ->
  let r := cstd_fs_open fd path (Z.lor VFS_O_WRONLY VFS_O_APPEND) h in
  r.1 = 0 /\ h_files r.2 !! path = Some [] /\ h_streams r.2 !! fd = Some (mk_FILE path 0 false true false).
Proof.
  intros Hio r. subst r. change (cstd_fs_open fd path (Z.lor VFS_O_WRONLY VFS_O_APPEND) h) with
    (match fopen path WB h with (None, h) => (- ENXIO, drop_stream fd h) | (Some f, h) => (0, set_stream fd f h) end).
  unfold fopen, next_io. rewrite Hio. cbn [fst snd]. split; [done|].
  split; [apply (lookup_insert_eq (M := gmap (list Z)))|apply (lookup_insert_eq (M := gmap Z))].
Qed.

(** A file that is not there is not created for reading and writing. *)
Lemma create_refused fd path h : h_files h !! path = None -> (cstd_fs_open fd path (Z.lor VFS_O_RDWR VFS_O_CREAT) h).1 = - ENXIO.
Proof.
  intros Hp. change (cstd_fs_open fd path (Z.lor VFS_O_RDWR VFS_O_CREAT) h) with
    (match fopen path RBplus h with (None, h) => (- ENXIO, drop_stream fd h) | (Some f, h) => (0, set_stream fd f h) end).
  unfold fopen, next_io. destruct (h_io h) as [|[k|] io]; cbn [h_files]; by rewrite ?Hp.
Qed.

(** ** What the results say *)

Lemma write_at_end l b : write_at l (len l) b = l ++ b.
Proof.
  unfold write_at. rewrite Z.sub_diag. cbn [Z.to_nat replicate]. rewrite app_nil_r, take_ge, drop_ge; [by rewrite app_nil_r| |];
    unfold len; lia.
Qed.

(** The next [n] calls of the library succeed. *)
Definition fine (n : nat) (h : host) : Prop := Forall (fun a => a = None) (take n (h_io h)).
Definition advance (h : host) : host := mk_host (h_files h) (h_streams h) (tail (h_io h)) (h_bad h).

Lemma fine_next n h : fine (S n) h -> next_io h = (None, advance h) /\ fine n (advance h).
Proof.
  unfold fine, next_io, advance. destruct h as [fs st io bd]. cbn. destruct io as [|a io]; cbn [take tail].
  - intros _. split; [done|]. destruct n; constructor.
  - intros [-> H]%Forall_cons. done.
Qed.

(** A write stores its bytes; it says so for one byte only. *)
Lemma cstd_write_ok fd f b h n : h_streams h !! fd = Some f -> f_write f = true -> b <> [] -> fine (S n) h ->
  let l := default [] (h_files h !! f_path f) in
  let pos := if f_append f then len l else f_pos f in
  cstd_fs_write fd b h =
    (if len b =? 1 then 1 else - EIO, set_stream fd (set_pos (pos + len b) f) (set_files (<[f_path f := write_at l pos b]> (h_files h)) (advance h))).
Proof.
  intros Hf Hw Hb Hio l pos. unfold cstd_fs_write. rewrite Hf. unfold fwrite. destruct (fine_next n h Hio) as [-> _]. rewrite Hw.
  change (file_bytes f (advance h)) with l. fold pos.
  assert (0 < len b) by (destruct b; [done|rewrite len_cons; pose proof (len_nonneg b); lia]).
  rewrite (proj2 (Z.ltb_lt 0 _)) by done. f_equal. destruct (Z.eqb_spec (len b) 1) as [->|]; [done|]. by rewrite (proj2 (Z.ltb_lt 1 _)) by lia.
Qed.

(** A read gives the bytes there are; it says 1 when all were there and 0 when
    not, never how many. *)
Lemma cstd_read_ok fd f k h n : h_streams h !! fd = Some f -> f_read f = true -> 0 < k -> fine (S n) h ->
  let b := slice (default [] (h_files h !! f_path f)) (f_pos f) k in
  cstd_fs_read fd k h = (if len b =? k then 1 else 0, b, set_stream fd (set_pos (f_pos f + len b) f) (advance h)).
Proof.
  intros Hf Hr Hk Hio b. unfold cstd_fs_read. rewrite Hf. unfold fread. destruct (fine_next n h Hio) as [-> _].
  rewrite Hr, (proj2 (Z.ltb_lt 0 k)), (proj2 (Z.eqb_neq k 0)) by lia.
  change (slice (file_bytes f (advance h)) (f_pos f) k) with b. cbn [andb]. by destruct (len b =? k).
Qed.

Lemma cstd_close_ok fd f h n : h_streams h !! fd = Some f -> fine (S n) h -> cstd_fs_close fd h = (0, drop_stream fd (advance h)).
Proof. intros Hf Hio. unfold cstd_fs_close, fflush. rewrite Hf. by destruct (fine_next n h Hio) as [-> _]. Qed.

Section Run.
Context (start sizeof_file ptr : Z) (m : gmap Z Z) (h : host).
Abbreviation cls := (cstd_file_class start sizeof_file).

Context (Hfit : array_ok start (CONFIG_OS_MAX_FILES * sizeof_file) sizeof_file m).

Lemma cstd_fit : array_ok (robj cls).1 (robj cls).2 ((robj cls).2 / CONFIG_OS_MAX_FILES) m.
Proof.
  cbn [robj cstd_file_class fst snd].
  assert (CONFIG_OS_MAX_FILES * sizeof_file / CONFIG_OS_MAX_FILES = sizeof_file) as ->; [|done].
  rewrite Z.mul_comm. by apply Z.div_mul.
Qed.

(** There is room for one more file at the start. *)
Lemma first_object : exists fd free, a_free (f_pool (start_files cls m h)) = fd :: free /\ a_held (f_pool (start_files cls m h)) = [].
Proof.
  cbn [start_files f_pool fresh_pool a_free a_held]. pose proof cstd_fit as Hf. pose proof (array_shape _ _ _ _ Hf) as Hh.
  assert (sh_count (file_pool cls m) <> 0%nat) as Hc.
  { destruct Hf as [H1 H2 H3 H4 _ _]. cbn [file_pool pool_shape sh_count].
    destruct (roundup_8 _ H2 H3) as [_ Hr]. intros E.
    assert (1 <= (robj cls).2 / roundup ((robj cls).2 / CONFIG_OS_MAX_FILES) 8); [|lia].
    apply Z.div_le_lower_bound; lia. }
  destruct (reverse (objects (file_pool cls m))) as [|fd free] eqn:E; [|by eauto].
  apply (f_equal length) in E. rewrite length_reverse in E. unfold objects in E. rewrite length_fmap, length_seq in E. done.
Qed.

(** What a program does that writes a file and reads it back. *)
Definition write_read (path bytes : list Z) (n fd : Z) : list fop :=
  [FOpen path VFS_O_WRONLY; FWrite fd bytes; FClose fd; FOpen path VFS_O_RDONLY; FRead fd n; FClose fd].
Definition write_read_results (bytes : list Z) (n fd : Z) : list fobs :=
  [(0, Some fd, []); (if len bytes =? 1 then 1 else - EIO, None, []); (0, None, []); (0, Some fd, []);
   (if n <=? len bytes then 1 else 0, None, slice bytes 0 n); (0, None, [])].

Lemma write_read_spec path bytes n : bytes <> [] -> 0 < n -> fine 6 h ->
  exists fd a, fspec_run cls ptr (write_read path bytes n fd) (start_files cls m h) = Done (write_read_results bytes n fd, a) /\
    h_files (f_world a) = <[path := bytes]> (h_files h) /\ h_bad (f_world a) = h_bad h /\ a_held (f_pool a) = [].
Proof.
  intros Hb Hn F6. destruct first_object as (fd & free & Ef & Eh). exists fd.
  destruct (start_files cls m h) as [[fr he kn] w] eqn:Es. cbn [f_pool a_free a_held] in Ef, Eh. subst fr he.
  assert (w = h) as -> by (unfold start_files in Es; congruence). clear Es.
  assert (forall fr kn w, open_file (W := host) (mk_files (mk_apool fr [fd] kn) w) fd = true) as Hopen.
  { intros. apply bool_decide_eq_true. constructor. }
  assert (filter (fun q => q <> fd) [fd] = []) as Hnone by (by rewrite filter_cons_False by tauto).
  destruct (fine_next _ _ F6) as [N6 F5].
  set (h1 := set_stream fd (mk_FILE path 0 false true false) (set_files (<[path := []]> (h_files h)) (advance h))).
  assert (cstd_fs_open fd path VFS_O_WRONLY h = (0, h1)) as E1.
  { change (cstd_fs_open fd path VFS_O_WRONLY h) with (match fopen path WB h with (None, h) => (- ENXIO, drop_stream fd h) | (Some f, h) => (0, set_stream fd f h) end).
    unfold fopen. by rewrite N6. }
  set (h2 := set_stream fd (set_pos (0 + len bytes) (mk_FILE path 0 false true false)) (set_files (<[path := bytes]> (h_files h1)) (advance h1))).
  assert (cstd_fs_write fd bytes h1 = (if len bytes =? 1 then 1 else - EIO, h2)) as E2.
  { rewrite (cstd_write_ok fd (mk_FILE path 0 false true false) bytes h1 4) by (done || apply lookup_insert_eq || exact F5).
    cbn [f_path f_append f_pos h_files h1 set_stream set_streams set_files]. rewrite lookup_insert_eq. cbn [default from_option Datatypes.id].
    change 0 with (len (@nil Z)) at 1. by rewrite write_at_end. }
  assert (fine 4 h2) as F4 by apply (fine_next 4 h1 F5).
  set (h3 := drop_stream fd (advance h2)).
  assert (cstd_fs_close fd h2 = (0, h3)) as E3 by (apply (cstd_close_ok fd (set_pos (0 + len bytes) (mk_FILE path 0 false true false)) h2 3); [apply lookup_insert_eq|done]).
  assert (fine 3 h3) as F3 by apply (fine_next 3 h2 F4).
  set (h4 := set_stream fd (mk_FILE path 0 true false false) (advance h3)).
  assert (h_files h3 !! path = Some bytes) as Hp by apply lookup_insert_eq.
  assert (cstd_fs_open fd path VFS_O_RDONLY h3 = (0, h4)) as E4.
  { change (cstd_fs_open fd path VFS_O_RDONLY h3) with (match fopen path RB h3 with (None, h) => (- ENXIO, drop_stream fd h) | (Some f, h) => (0, set_stream fd f h) end).
    unfold fopen. destruct (fine_next 2 h3 F3) as [-> _]. cbn [advance h_files]. by rewrite Hp. }
  assert (fine 2 h4) as F2 by apply (fine_next 2 h3 F3).
  set (h5 := set_stream fd (set_pos (0 + len (slice bytes 0 n)) (mk_FILE path 0 true false false)) (advance h4)).
  assert (cstd_fs_read fd n h4 = (if n <=? len bytes then 1 else 0, slice bytes 0 n, h5)) as E5.
  { rewrite (cstd_read_ok fd (mk_FILE path 0 true false false) n h4 1) by (done || apply lookup_insert_eq || exact F2).
    cbn [f_path f_pos]. change (h_files h4) with (h_files h3). rewrite Hp. cbn [default from_option Datatypes.id].
    assert ((len (slice bytes 0 n) =? n) = (n <=? len bytes)) as ->; [|done].
    destruct (Z.leb_spec n (len bytes)); [apply Z.eqb_eq, len_slice; lia|].
    apply Z.eqb_neq. unfold len in *. rewrite length_slice. lia. }
  assert (fine 1 h5) as F1 by apply (fine_next 1 h4 F2).
  assert (cstd_fs_close fd h5 = (0, drop_stream fd (advance h5))) as E6
    by (apply (cstd_close_ok fd (set_pos (0 + len (slice bytes 0 n)) (mk_FILE path 0 true false false)) h5 0); [apply lookup_insert_eq|done]).
  eexists. split.
  - unfold write_read. cbn [fspec_run fspec fc_open cstd_file_class f_pool a_free a_held a_known f_world present obind].
    rewrite E1. cbn [fst snd Z.eqb obind fspec f_pool a_free a_held a_known f_world]. destruct bytes as [|b bytes0] eqn:Eb; [done|]. rewrite <- Eb in *.
    rewrite Hopen. cbn [present obind fc_write cstd_file_class f_world].
    rewrite E2. cbn [fst snd obind fspec f_pool]. rewrite Hopen.
    cbn [present obind fc_close cstd_file_class f_world f_pool a_free a_held a_known]. rewrite E3.
    cbn [fst snd Z.eqb obind present fspec fc_open cstd_file_class f_pool a_free a_held a_known f_world]. rewrite Hnone, E4.
    cbn [fst snd Z.eqb obind fspec f_pool a_free a_held a_known f_world]. rewrite Hopen.
    cbn [present obind fc_read cstd_file_class f_world f_pool]. rewrite (proj2 (Z.eqb_neq n 0)) by lia. rewrite E5.
    cbn [fst snd obind fspec f_pool f_world]. rewrite Hopen. cbn [present obind fc_close cstd_file_class f_world f_pool a_free a_held a_known].
    rewrite E6. cbn [fst snd Z.eqb]. reflexivity.
  - cbn [f_world f_pool a_held]. split; [|split]; [|done|by rewrite Hnone]. cbn. by rewrite insert_insert_eq.
Qed.

(** A file that the library refuses to open, and one it cannot close. *)
Lemma open_close_fail_spec path k io : 
  (h_io h = Some k :: io -> exists a, fspec_run cls ptr [FOpen path VFS_O_WRONLY] (start_files cls m h) = Done ([(- ENXIO, None, [])], a) /\
     h_files (f_world a) = h_files h /\ f_pool a = f_pool (start_files cls m h)) /\
  (h_io h = None :: Some k :: io -> exists fd a, fspec_run cls ptr [FOpen path VFS_O_WRONLY; FClose fd] (start_files cls m h) =
     Done ([(0, Some fd, []); (EOF, None, [])], a) /\ h_streams (f_world a) !! fd = None /\ a_held (f_pool a) = [fd]).
Proof.
  destruct first_object as (fd & free & Ef & Eh). destruct (start_files cls m h) as [[fr he kn] w] eqn:Es.
  cbn [f_pool a_free a_held] in Ef, Eh. subst fr he. assert (w = h) as -> by (unfold start_files in Es; congruence). clear Es.
  assert (forall r, cstd_fs_open fd path VFS_O_WRONLY h = r <-> match fopen path WB h with (None, h) => (- ENXIO, drop_stream fd h) | (Some f, h) => (0, set_stream fd f h) end = r) as Eo by done.
  split; intros Hio.
  - eexists. cbn [fspec_run fspec fc_open cstd_file_class f_pool a_free a_held a_known f_world present obind].
    rewrite (proj2 (Eo _) eq_refl). unfold fopen, next_io. rewrite Hio. cbn. split; [reflexivity|]. done.
  - exists fd. eexists. cbn [fspec_run fspec fc_open cstd_file_class f_pool a_free a_held a_known f_world present obind].
    rewrite (proj2 (Eo _) eq_refl). unfold fopen, next_io. rewrite Hio. cbn [fst snd Z.eqb obind fspec f_pool a_free a_held a_known f_world].
    unfold open_file. rewrite bool_decide_eq_true_2 by constructor. cbn [present obind fc_close cstd_file_class f_world f_pool a_free a_held a_known].
    unfold cstd_fs_close, fflush, next_io, set_stream, set_streams, set_files. cbn [h_streams h_io h_files h_bad]. rewrite lookup_insert_eq.
    cbn [fst snd Z.eqb EOF]. split; [reflexivity|]. cbn. split; [apply lookup_delete_eq|done].
Qed.
End Run.


(** *** Witnesses: ten files of sixteen bytes *)

Definition words_c : gmap Z Z := list_to_map ((fun k => (4096 + 16 * Z.of_nat k, 0)) <$> seq 0 10).

Lemma fit_c : array_ok 4096 (CONFIG_OS_MAX_FILES * 16) 16 words_c.
Proof.
  split; try done. intros p Hp. apply elem_of_dom.
  assert (Forall (fun p => is_Some (words_c !! p)) (objects (pool_shape 4096 (CONFIG_OS_MAX_FILES * 16) 16 (dom words_c)))) as Hall.
  { apply (bool_decide_unpack (Forall _ _)). vm_compute. reflexivity. }
  rewrite Forall_forall in Hall. by apply Hall.
Qed.

Definition host_c : host := mk_host {[ [97] := [1; 2; 3; 4; 5] ]} ∅ [] false.
Definition host_f (io : list (option nat)) : host := mk_host {[ [97] := [1; 2; 3; 4; 5] ]} ∅ io false.

End CstdFs.
