(* ===== verification/ZephyrFs.v ===== *)
(** * os/zephyr/os_fs_impl.c : files of Zephyr

    The file system of the Zephyr build: each function of the class is a call
    of Zephyr's file system with the [struct fs_file_t] in the object of the
    file, which follows the pointer to the class.  Zephyr's functions are
    arguments of the model; the results are cut to an [int]. *)
From Stdlib Require Import ZArith Lia Bool.
From stdpp Require Import base list numbers gmap.
From S2P Require Import Prelude ObjPool VfsOk.
Import ObjPool VfsOk.

Module ZephyrFs.

Definition VFS_O_RDONLY : Z := 0.
Definition VFS_O_WRONLY : Z := 1.
Definition VFS_O_RDWR : Z := 2.
Definition VFS_O_MASK : Z := 3.
Definition VFS_O_CREAT : Z := 0x200.
Definition VFS_O_APPEND : Z := 8.

(** The functions and flags of Zephyr; [W] is the state of its file system. *)
Record fs_api (W : Type) := mk_api {
  FS_O_READ : Z; FS_O_WRITE : Z; FS_O_RDWR : Z; FS_O_APPEND : Z; FS_O_CREATE : Z;
  fs_file_t_init : Z -> W -> W;
  fs_open : Z -> list Z -> Z -> W -> Z * W;
  fs_close : Z -> W -> Z * W;
  fs_read : Z -> Z -> W -> Z * list Z * W;
  fs_write : Z -> list Z -> W -> Z * W;
  fs_sync : Z -> W -> Z * W;
  fs_seek : Z -> Z -> Z -> W -> Z * W;
  fs_rename : list Z -> list Z -> W -> Z * W;
  fs_truncate : Z -> Z -> W -> Z * W;
  fs_unlink : list Z -> W -> Z * W;
  fs_mkdir : list Z -> W -> Z * W;
  fs_stat : list Z -> W -> Z * Z * W }.           (* the result, the size *)
Arguments FS_O_READ {W}. Arguments FS_O_WRITE {W}. Arguments FS_O_RDWR {W}. Arguments FS_O_APPEND {W}. Arguments FS_O_CREATE {W}.
Arguments fs_file_t_init {W}. Arguments fs_open {W}. Arguments fs_close {W}. Arguments fs_read {W}. Arguments fs_write {W}.
Arguments fs_sync {W}. Arguments fs_seek {W}. Arguments fs_rename {W}. Arguments fs_truncate {W}. Arguments fs_unlink {W}.
Arguments fs_mkdir {W}. Arguments fs_stat {W}.

Section Class.
Context {W : Type} (fs : fs_api W).

(** [&fp->zfp] *)
Definition zfp (fd : Z) : Z := fd + 8.

(** A result that is returned as an [int]. *)
Definition as_int (r : Z * W) : Z * W := (s32 r.1, r.2).

Definition zephyr_fs_open (fd : Z) (path : list Z) (flags : Z) (w : W) : Z * W :=
  let orw := Z.land flags VFS_O_MASK in
  let ff :=
    if orw =? VFS_O_RDONLY then Some (Z.lor 0 (FS_O_READ fs))
    else if orw =? VFS_O_WRONLY then Some (Z.lor 0 (FS_O_WRITE fs))
    else if orw =? VFS_O_RDWR then Some (Z.lor 0 (FS_O_RDWR fs))
    else None in
  match ff with
  | None => (- EINVAL, w)
  | Some ff =>
      let ff := if negb (Z.land orw VFS_O_APPEND =? 0) then Z.lor ff (FS_O_APPEND fs) else ff in
      let ff := if negb (Z.land orw VFS_O_CREAT =? 0) then Z.lor ff (FS_O_CREATE fs) else ff in
      fs_open fs (zfp fd) path ff (fs_file_t_init fs (zfp fd) w)
  end.

Definition zephyr_fs_close (fd : Z) (w : W) : Z * W := fs_close fs (zfp fd) w.
Definition zephyr_fs_ioctl (fd cmd args : Z) (w : W) : Z * W := (- ENOSYS, w).
Definition zephyr_fs_read (fd len : Z) (w : W) : Z * list Z * W :=
  let r := fs_read fs (zfp fd) len w in (s32 r.1.1, r.1.2, r.2).
Definition zephyr_fs_write (fd : Z) (buf : list Z) (w : W) : Z * W := as_int (fs_write fs (zfp fd) buf w).
Definition zephyr_fs_flush (fd : Z) (w : W) : Z * W := fs_sync fs (zfp fd) w.
Definition zephyr_fs_lseek (fd offset whence : Z) (w : W) : Z * W := fs_seek fs (zfp fd) offset whence w.
Definition zephyr_fs_rename (oldpath newpath : list Z) (w : W) : Z * W := fs_rename fs oldpath newpath w.
Definition zephyr_fs_ftruncate (fd length : Z) (w : W) : Z * W := fs_truncate fs (zfp fd) length w.
Definition zephyr_fs_unlink (path : list Z) (w : W) : Z * W := fs_unlink fs path w.
Definition zephyr_fs_mkdir (path : list Z) (w : W) : Z * W := fs_mkdir fs path w.

(** The fields [st_size], [st_blksize] and [st_blocks] that are set. *)
Definition zephyr_fs_stat (path : list Z) (w : W) : Z * list Z * W :=
  let r := fs_stat fs path w in
  if r.1.1 =? 0 then (r.1.1, [r.1.2; 0; 0], r.2) else (r.1.1, [], r.2).

(** [zephyr_file_class]; [os_files] is an array at [start] of ten objects.
    There is no function of osapi_fs.c for [mkdir]. *)
Definition zephyr_file_class (start sizeof_file : Z) : file_class (W := W) :=
  mk_class (Some zephyr_fs_open) (Some zephyr_fs_close) (Some zephyr_fs_ioctl) (Some zephyr_fs_read) (Some zephyr_fs_write)
    (Some zephyr_fs_flush) (Some zephyr_fs_lseek) None (Some zephyr_fs_ftruncate) (Some zephyr_fs_unlink) (Some zephyr_fs_stat)
    (Some zephyr_fs_rename) (start, CONFIG_OS_MAX_FILES * sizeof_file).

Definition zephyr_fs_init (ptr start sizeof_file : Z) (s : vfs (W := W)) : Z * vfs (W := W) :=
  vfs_register (Some (ptr, zephyr_file_class start sizeof_file)) s.

(** ** What reaches Zephyr's [fs_open] *)

(** The access mode, and nothing else: the bits of VFS_O_APPEND and
    VFS_O_CREAT are masked out before they are looked at, so no file is
    created and none is opened to append to it. *)
Lemma zephyr_open_flags fd path flags w :
  zephyr_fs_open fd path flags w =
  (let go ff := fs_open fs (zfp fd) path (Z.lor 0 ff) (fs_file_t_init fs (zfp fd) w) in
   match flags mod 4 with
   | 0 => go (FS_O_READ fs) | 1 => go (FS_O_WRITE fs) | 2 => go (FS_O_RDWR fs) | _ => (- EINVAL, w)
   end).
Proof.
  unfold zephyr_fs_open, VFS_O_MASK. assert (Z.land flags 3 = flags mod 4) as -> by apply (Z.land_ones flags 2 ltac:(lia)).
  assert (0 <= flags mod 4 < 4) as Hm by (apply Z.mod_pos_bound; lia).
  assert (flags mod 4 = 0 \/ flags mod 4 = 1 \/ flags mod 4 = 2 \/ flags mod 4 = 3) as [->|[->|[->| ->]]] by lia; reflexivity.
Qed.
End Class.

End ZephyrFs.
