(* ===== verification/Printf.v ===== *)
(** * lib/iovprintf.c, lib/printer.c : formatted output

    The interpreter of format strings, and the printer that hands its output
    to the disk log. A format string is the list of its bytes with its
    terminator; a read behind the terminator is undefined. The reference is a
    syntax of format items with the text each of them stands for. *)
From Stdlib Require Import ZArith Lia Bool String Ascii.
From stdpp Require Import base list numbers gmap.
From S2P Require Import Prelude.

Module Printf.

(** The code of a character. *)
Definition chr (a : ascii) : Z := Z.of_nat (nat_of_ascii a).
Definition str (s : string) : list Z := chr <$> list_ascii_of_string s.

(** ** Arguments *)

(** What the caller passes: a value of the size of an [int] or of a [long]
    (also [intmax_t], [size_t], [ptrdiff_t]), a pointer, a string or NULL, the
    bytes of a dump. To fetch another kind is undefined. *)
Inductive varg := VInt (z : Z) | VLong (z : Z) | VPtr (z : Z) | VStr (s : option (list Z)) | VBytes (b : list Z).

Definition va_int (ap : list varg) : outcome (Z * list varg) :=
  match ap with VInt z :: ap => Done (s32 z, ap) | _ => Undef end.
Definition va_long (ap : list varg) : outcome (Z * list varg) :=
  match ap with VLong z :: ap => Done (s64 z, ap) | _ => Undef end.

(** ** Numbers *)

Definition MAXNBUF : Z := 32.

Definition hex2ascii_data (upper : bool) : list Z :=
  if upper then str "0123456789ABCDEF" else str "0123456789abcdef".
Definition hex2ascii (upper : bool) (hex : Z) : outcome Z :=
  match hex2ascii_data upper !! Z.to_nat hex with Some c => Done c | None => Undef end.

(** The loop of [ksprintn]: [*++p = hex2ascii_data[upper][num % base]] *)
Fixpoint ksprintn_loop (fuel : nat) (nbuf : list Z) (p num base : Z) (upper : bool) : outcome (list Z * Z) :=
  match fuel with
  | O => Undef
  | S fuel =>
      let* c := hex2ascii upper (num mod base) in
      let* nbuf := mem_write nbuf (p + 1) [c] in
      let num := num / base in
      if negb (num =? 0) then ksprintn_loop fuel nbuf (p + 1) num base upper else Done (nbuf, p + 1)
  end.

(** [ksprintn (nbuf, num, base, lenp, upper)]: the buffer, and the index of the
    last character, which is also the length. A number of 64 bits has at most
    64 digits. *)
Definition ksprintn (nbuf : list Z) (num base : Z) (upper : bool) : outcome (list Z * Z) :=
  let* nbuf := mem_write nbuf 0 [0] in ksprintn_loop 64 nbuf 0 num base upper.

(** [while ( *p) PCHAR ( *p--)] *)
Fixpoint digits_down (nbuf : list Z) (p : nat) : outcome (list Z) :=
  match nbuf !! p with
  | None => Undef
  | Some c =>
      if c =? 0 then Done []
      else match p with O => Undef | S p => let* l := digits_down nbuf p in Done (c :: l) end
  end.

(** [while (n-- > 0) PCHAR (c)] *)
Definition rep (n c : Z) : list Z := replicate (Z.to_nat n) c.

(** ** Directives *)

(** The local variables a directive sets. [tflag] and [zflag] are [lflag] where
    pointers and sizes are as long as a [long]. *)
Record fl := mk_fl {
  lflag : bool; ladjust : bool; sharpflag : bool; sign : bool; dot : bool;
  cflag : bool; hflag : bool; jflag : bool;
  dwidth : Z; width : Z; padc : Z }.

Definition fl0 : fl := mk_fl false false false false false false false false 0 0 (chr " ").

Definition set_lflag f := mk_fl true (ladjust f) (sharpflag f) (sign f) (dot f) (cflag f) (hflag f) (jflag f) (dwidth f) (width f) (padc f).
Definition set_ladjust b f := mk_fl (lflag f) b (sharpflag f) (sign f) (dot f) (cflag f) (hflag f) (jflag f) (dwidth f) (width f) (padc f).
Definition set_sharp b f := mk_fl (lflag f) (ladjust f) b (sign f) (dot f) (cflag f) (hflag f) (jflag f) (dwidth f) (width f) (padc f).
Definition set_sign b f := mk_fl (lflag f) (ladjust f) (sharpflag f) b (dot f) (cflag f) (hflag f) (jflag f) (dwidth f) (width f) (padc f).
Definition set_dot f := mk_fl (lflag f) (ladjust f) (sharpflag f) (sign f) true (cflag f) (hflag f) (jflag f) (dwidth f) (width f) (padc f).
Definition set_ch c h f := mk_fl (lflag f) (ladjust f) (sharpflag f) (sign f) (dot f) c h (jflag f) (dwidth f) (width f) (padc f).
Definition set_jflag f := mk_fl (lflag f) (ladjust f) (sharpflag f) (sign f) (dot f) (cflag f) (hflag f) true (dwidth f) (width f) (padc f).
Definition set_dwidth n f := mk_fl (lflag f) (ladjust f) (sharpflag f) (sign f) (dot f) (cflag f) (hflag f) (jflag f) n (width f) (padc f).
Definition set_width n f := mk_fl (lflag f) (ladjust f) (sharpflag f) (sign f) (dot f) (cflag f) (hflag f) (jflag f) (dwidth f) n (padc f).
Definition set_padc c f := mk_fl (lflag f) (ladjust f) (sharpflag f) (sign f) (dot f) (cflag f) (hflag f) (jflag f) (dwidth f) (width f) c.

(** [handle_nosign] and [handle_sign]: the argument as [uintmax_t] *)
Definition handle_nosign (f : fl) (ap : list varg) : outcome (Z * list varg) :=
  if jflag f then let* r := va_long ap in Done (u64 r.1, r.2)
  else if lflag f then let* r := va_long ap in Done (u64 r.1, r.2)
  else let* r := va_int ap in
    Done (if hflag f then u16 r.1 else if cflag f then u8 r.1 else u32 r.1, r.2).
Definition handle_sign (f : fl) (ap : list varg) : outcome (Z * list varg) :=
  if jflag f then let* r := va_long ap in Done (u64 r.1, r.2)
  else if lflag f then let* r := va_long ap in Done (u64 r.1, r.2)
  else let* r := va_int ap in
    Done (u64 (if hflag f then swrap 16 r.1 else if cflag f then swrap 8 r.1 else r.1), r.2).

(** The part from the label [number] on: the characters. [- INTMAX_MIN] is
    undefined, and so is an overflow of the widths, which are of type [int] and
    are counted down below 0 by the loops. *)
Definition number (nbuf : list Z) (f : fl) (base : Z) (upper : bool) (num : Z) : outcome (list Z) :=
  let neg := sign f && (s64 num <? 0) in
  guard* negb neg || negb (s64 num =? - 2 ^ 63) in
  let num := if neg then u64 (- s64 num) else num in
  let* k := ksprintn nbuf num base upper in
  let n := k.2 in
  let tmp := (if sharpflag f && negb (num =? 0) then (if base =? 8 then 1 else if base =? 16 then 2 else 0) else 0)
             + (if neg then 1 else 0) in
  let dwidth := if negb (ladjust f) && (padc f =? chr "0") then width f - tmp else dwidth f in
  guard* tmp + Z.max dwidth n <? 2 ^ 31 in
  let width := width f - (tmp + Z.max dwidth n) in
  let dwidth := dwidth - n in
  guard* (- 2 ^ 31 <? width) && (- 2 ^ 31 <? dwidth) in
  let* digits := digits_down k.1 (Z.to_nat n) in
  Done ((if negb (ladjust f) then rep width (chr " ") else [])
        ++ (if neg then [chr "-"] else [])
        ++ (if sharpflag f && negb (num =? 0) then (if base =? 8 then [chr "0"] else if base =? 16 then [chr "0"; chr "x"] else []) else [])
        ++ rep dwidth (chr "0") ++ digits
        ++ (if ladjust f then rep width (chr " ") else [])).

(** [%c] and [%s]: padding on one side *)
Definition padded (f : fl) (width : Z) (l : list Z) : list Z :=
  (if negb (ladjust f) then rep width (padc f) else []) ++ l ++ (if ladjust f then rep width (padc f) else []).

(** The loop of [%s] with a precision. *)
Fixpoint strnlen (p : list Z) (dwidth : Z) (n : Z) : Z :=
  match p with
  | [] => n
  | _ :: p => if n <? dwidth then strnlen p dwidth (n + 1) else n
  end.

(** [%D]: the bytes in hexadecimal, with the string [p] between them. *)
Fixpoint dump (count : nat) (up p : list Z) : outcome (list Z) :=
  match count with
  | O => Done []
  | S count =>
      match up with
      | [] => Undef
      | b :: up =>
          let* h := hex2ascii false (Z.shiftr b 4) in
          let* l := hex2ascii false (Z.land b 15) in
          let* r := dump count up p in
          Done (h :: l :: (if (0 <? count)%nat then p else []) ++ r)
      end
  end.

(** What a character after [%] does. *)
Inductive action :=
| Reswitch (f : fl) (ap : list varg)
| Digits (n : Z)                      (* a number begins *)
| Emit (l : list Z) (ap : list varg)  (* the directive ends *)
| Default.

Definition switch (nbuf : list Z) (f : fl) (c : Z) (ap : list varg) : outcome action :=
  let nosign base upper := let* r := handle_nosign f ap in let* l := number nbuf (set_sign false f) base upper r.1 in Done (Emit l r.2) in
  if c =? chr "." then Done (Reswitch (set_dot f) ap)
  else if c =? chr "#" then Done (Reswitch (set_sharp true f) ap)
  else if c =? chr "+" then Done (Reswitch (set_sign true f) ap)
  else if c =? chr "-" then Done (Reswitch (set_ladjust true f) ap)
  else if c =? chr "%" then Done (Emit [c] ap)
  else if c =? chr "*" then
    let* r := va_int ap in
    if negb (dot f) then
      if r.1 <? 0 then guard* negb (r.1 =? - 2 ^ 31) in Done (Reswitch (set_width (- r.1) (set_ladjust (negb (ladjust f)) f)) r.2)
      else Done (Reswitch (set_width r.1 f) r.2)
    else Done (Reswitch (set_dwidth r.1 f) r.2)
  else if (c =? chr "0") && negb (dot f) then Done (Reswitch (set_padc (chr "0") f) ap)
  else if (chr "0" <=? c) && (c <=? chr "9") then Done (Digits (c - chr "0"))
  else if c =? chr "c" then let* r := va_int ap in Done (Emit (padded f (width f - 1) [u8 r.1]) r.2)
  else if c =? chr "D" then
    match ap with
    | VBytes up :: VStr (Some p) :: ap =>
        let* l := dump (Z.to_nat (if width f =? 0 then 16 else width f)) up p in Done (Emit l ap)
    | _ => Undef
    end
  else if (c =? chr "d") || (c =? chr "i") then
    let* r := handle_sign f ap in let* l := number nbuf (set_sign true f) 10 false r.1 in Done (Emit l r.2)
  else if c =? chr "h" then
    Done (Reswitch (if hflag f then set_ch true false f else set_ch (cflag f) true f) ap)
  else if c =? chr "j" then Done (Reswitch (set_jflag f) ap)
  else if c =? chr "l" then Done (Reswitch (if lflag f then set_jflag f else set_lflag f) ap)
  else if c =? chr "o" then nosign 8 false
  else if c =? chr "p" then
    match ap with
    | VPtr z :: ap => let* l := number nbuf (set_sign false (set_sharp (width f =? 0) f)) 16 false (u64 z) in Done (Emit l ap)
    | _ => Undef
    end
  else if c =? chr "s" then
    match ap with
    | VStr s :: ap =>
        let p := default (str "(null)") s in
        let n := if negb (dot f) then s32 (len p) else strnlen p (dwidth f) 0 in
        guard* 0 <=? n in     (* [while (n--)] *)
        Done (Emit (padded f (width f - n) (take (Z.to_nat n) p)) ap)
    | _ => Undef
    end
  else if c =? chr "t" then Done (Reswitch (set_lflag f) ap)
  else if c =? chr "u" then nosign 10 false
  else if c =? chr "X" then nosign 16 true
  else if c =? chr "x" then nosign 16 false
  else if c =? chr "y" then
    let* r := handle_sign f ap in let* l := number nbuf (set_sign true f) 16 false r.1 in Done (Emit l r.2)
  else if c =? chr "z" then Done (Reswitch (set_lflag f) ap)
  else Done Default.

(** ** The interpreter *)

(** Where it is: in text, behind [%] (with the characters since), in a number. *)
Inductive mode :=
| Text (stop : bool)
| Spec (percent : list Z) (f : fl)
| Num (percent : list Z) (f : fl) (n : Z).

(** The next character is fetched and acted on; [put] is the output. The
    numbers of a format and the result are of type [int], and overflows are
    undefined. *)
Fixpoint vprintf_loop (nbuf : list Z) (m : mode) (fmt : list Z) (ap : list varg) (put : list Z) (retval : Z) {struct fmt}
    : outcome (list Z * Z) :=
  match fmt with
  | [] => Undef
  | ch :: fmt =>
      let switched percent f :=
        let* a := switch nbuf f ch ap in
        match a with
        | Reswitch f ap => vprintf_loop nbuf (Spec (percent ++ [ch]) f) fmt ap put retval
        | Digits n => vprintf_loop nbuf (Num (percent ++ [ch]) f n) fmt ap put retval
        | Emit l ap => guard* retval + len l <? 2 ^ 31 in vprintf_loop nbuf (Text false) fmt ap (put ++ l) (retval + len l)
        | Default => let l := percent ++ [ch] in
            guard* retval + len l <? 2 ^ 31 in vprintf_loop nbuf (Text true) fmt ap (put ++ l) (retval + len l)
        end in
      match m with
      | Text stop =>
          if negb (ch =? chr "%") || stop then
            if ch =? 0 then Done (put, retval)
            else guard* retval + 1 <? 2 ^ 31 in vprintf_loop nbuf (Text stop) fmt ap (put ++ [ch]) (retval + 1)
          else vprintf_loop nbuf (Spec [ch] fl0) fmt ap put retval
      | Spec percent f => switched percent f
      | Num percent f n =>
          if (ch <? chr "0") || (ch >? chr "9") then
            switched percent (if dot f then set_dwidth n f else set_width n f)
          else guard* (n * 10 + ch <? 2 ^ 31) in
            vprintf_loop nbuf (Num (percent ++ [ch]) f (n * 10 + ch - chr "0")) fmt ap put retval
      end
  end.

(** [_IO_Vprintf (put_char, arg, fmt, ap)]: the characters that are put, and
    the result. *)
Definition _IO_Vprintf (nbuf : list Z) (fmt : option (list Z)) (ap : list varg) : outcome (list Z * Z) :=
  vprintf_loop nbuf (Text false) (default (str "(fmt null)" ++ [10]) fmt ++ [0]) ap [] 0.

(** ** The reference: items and their texts *)

(** The digits of [n] in a base, least first. *)
Fixpoint to_base (fuel : nat) (base n : Z) : list Z :=
  match fuel with
  | O => []
  | S fuel => n mod base :: (if n / base =? 0 then [] else to_base fuel base (n / base))
  end.

Definition hexchar (upper : bool) (d : Z) : Z := if d <? 10 then chr "0" + d else (if upper then chr "A" else chr "a") + d - 10.

(** The digits as they are written. *)
Definition digits (upper : bool) (base n : Z) : list Z := hexchar upper <$> reverse (to_base 64 base n).

Inductive size_spec := SNone | SLit (n : Z) | SStar.
Inductive lenmod := LNone | LHH | LH | LL | LLL | LJ | LZ | LT.
Inductive conv := CDec | CDecI | CSHex | CUns | COct | CHex | CHexUp | CPtr | CChr | CStr | CPct.

Record directive := mk_dir {
  d_left : bool; d_sharp : bool; d_plus : bool; d_zero : bool; d_width : size_spec; d_prec : size_spec; d_len : lenmod; d_conv : conv }.

Inductive item := Lit (c : Z) | Dir (d : directive).

(** *** How an item is written in a format *)

Definition show_number (n : Z) : list Z := digits false 10 n.
Definition show_size (s : size_spec) : list Z := match s with SNone => [] | SLit n => show_number n | SStar => str "*" end.
Definition show_len (l : lenmod) : list Z :=
  match l with LNone => [] | LHH => str "hh" | LH => str "h" | LL => str "l" | LLL => str "ll" | LJ => str "j" | LZ => str "z" | LT => str "t" end.
Definition show_conv (c : conv) : list Z :=
  match c with CDec => str "d" | CDecI => str "i" | CSHex => str "y" | CUns => str "u" | COct => str "o" | CHex => str "x" | CHexUp => str "X"
  | CPtr => str "p" | CChr => str "c" | CStr => str "s" | CPct => str "%" end.
Definition show_flags (d : directive) : list Z :=
  (if d_left d then str "-" else []) ++ (if d_sharp d then str "#" else []) ++ (if d_plus d then str "+" else []) ++ (if d_zero d then str "0" else []).
Definition show_prec (s : size_spec) : list Z := match s with SNone => [] | _ => chr "." :: show_size s end.
Definition show_dir (d : directive) : list Z :=
  chr "%" :: show_flags d ++ show_size (d_width d) ++ show_prec (d_prec d) ++ show_len (d_len d) ++ show_conv (d_conv d).
Definition show_item (i : item) : list Z := match i with Lit c => [c] | Dir d => show_dir d end.

(** The numbers that can be read: [n * 10 + ch - '0'] may not overflow. *)
Definition SIZE_LIMIT : Z := 2 ^ 31 - 48.

(** Literal widths begin with a digit that is not 0; no number overflows. *)
Definition item_ok (i : item) : Prop :=
  match i with
  | Lit c => c <> 0 /\ c <> chr "%"
  | Dir d => (match d_width d with SLit n => 0 < n < SIZE_LIMIT | _ => True end) /\ (match d_prec d with SLit n => 0 <= n < SIZE_LIMIT | _ => True end)
  end.

(** *** What it stands for *)

(** [n] characters, none for a negative [n]. *)
Definition fill (n c : Z) : list Z := replicate (Z.to_nat n) c.

(** A number in a field: at least [prec] digits, or with [zero] as many as
    fill the field; then blanks up to the width on one side. *)
Definition number_field (left zero : bool) (w prec : Z) (sgn ds : list Z) : list Z :=
  let zeros := Z.max 0 ((if zero && negb left then w - len sgn else prec) - len ds) in
  let body := sgn ++ fill zeros (chr "0") ++ ds in
  let blanks := fill (w - len body) (chr " ") in
  if left then body ++ blanks else blanks ++ body.

Definition text_field (left zero : bool) (w : Z) (l : list Z) : list Z :=
  let pad := fill (w - len l) (if zero then chr "0" else chr " ") in
  if left then l ++ pad else pad ++ l.

Definition get_int (ap : list varg) : option (Z * list varg) := match ap with VInt z :: ap => Some (s32 z, ap) | _ => None end.
Definition get_long (ap : list varg) : option (Z * list varg) := match ap with VLong z :: ap => Some (s64 z, ap) | _ => None end.

Definition get_size (s : size_spec) (ap : list varg) : option (Z * list varg) :=
  match s with SNone => Some (0, ap) | SLit n => Some (n, ap) | SStar => get_int ap end.

(** The value of an argument with a length modifier. *)
Definition get_signed (l : lenmod) (ap : list varg) : option (Z * list varg) :=
  match l with
  | LNone => get_int ap
  | LH => r ← get_int ap; Some (swrap 16 r.1, r.2)
  | LHH => r ← get_int ap; Some (swrap 8 r.1, r.2)
  | _ => get_long ap
  end.
Definition get_unsigned (l : lenmod) (ap : list varg) : option (Z * list varg) :=
  match l with
  | LNone => r ← get_int ap; Some (u32 r.1, r.2)
  | LH => r ← get_int ap; Some (u16 r.1, r.2)
  | LHH => r ← get_int ap; Some (u8 r.1, r.2)
  | _ => r ← get_long ap; Some (u64 r.1, r.2)
  end.

Definition prefix (sharp : bool) (base v : Z) : list Z :=
  if sharp && negb (v =? 0) then (if base =? 8 then str "0" else if base =? 16 then str "0x" else []) else [].
Definition minus (v : Z) : list Z := if v <? 0 then str "-" else [].

(** A precision from the arguments that is almost [INT_MIN] has no meaning for
    a number: the interpreter takes the number of digits off it. *)
Definition prec_low (prec : Z) : bool := prec <? 32 - 2 ^ 31.

Definition eval_conv (left sharp zero : bool) (w : Z) (has_prec : bool) (prec : Z) (l : lenmod) (c : conv) (ap : list varg)
    : option (list Z * list varg) :=
  let signed base :=
    r ← get_signed l ap;
    if (r.1 =? - 2 ^ 63) || prec_low prec then None
    else Some (number_field left zero w prec (minus r.1 ++ prefix sharp base r.1) (digits false base (Z.abs r.1)), r.2) in
  let unsigned upper base :=
    r ← get_unsigned l ap; if prec_low prec then None else Some (number_field left zero w prec (prefix sharp base r.1) (digits upper base r.1), r.2) in
  match c with
  | CDec | CDecI => signed 10
  | CSHex => signed 16
  | CUns => unsigned false 10
  | COct => unsigned false 8
  | CHex => unsigned false 16
  | CHexUp => unsigned true 16
  | CPtr =>
      match ap with
      | VPtr z :: ap => if prec_low prec then None else Some (number_field left zero w prec (prefix (w =? 0) 16 (u64 z)) (digits false 16 (u64 z)), ap)
      | _ => None
      end
  | CChr => r ← get_int ap; Some (text_field left zero w [u8 r.1], r.2)
  | CStr =>
      match ap with
      | VStr s :: ap =>
          let p := default (str "(null)") s in
          Some (text_field left zero w (if has_prec then take (Z.to_nat prec) p else p), ap)
      | _ => None
      end
  | CPct => Some ([chr "%"], ap)
  end.

(** A negative width from the arguments is the flag [-] and the width; together
    with that flag it has no meaning here. *)
Definition eval_item (i : item) (ap : list varg) : option (list Z * list varg) :=
  match i with
  | Lit c => Some ([c], ap)
  | Dir d =>
      w ← get_size (d_width d) ap;
      if (w.1 <? 0) && (d_left d || (w.1 =? - 2 ^ 31)) then None
      else
      p ← get_size (d_prec d) w.2;
      eval_conv (d_left d || (w.1 <? 0)) (d_sharp d) (d_zero d) (Z.abs w.1)
        (match d_prec d with SNone => false | _ => true end) p.1 (d_len d) (d_conv d) p.2
  end.

Fixpoint eval (l : list item) (ap : list varg) : option (list Z * list varg) :=
  match l with
  | [] => Some ([], ap)
  | i :: l => r ← eval_item i ap; q ← eval l r.2; Some (r.1 ++ q.1, q.2)
  end.

(** ** Digits *)

(** The value of digits, least first. *)
Fixpoint value (base : Z) (ds : list Z) : Z := match ds with [] => 0 | d :: ds => d + base * value base ds end.

Lemma to_base_spec fuel base n : 2 <= base -> 0 <= n < base ^ Z.of_nat fuel ->
  value base (to_base fuel base n) = n /\ Forall (fun d => 0 <= d < base) (to_base fuel base n)
  /\ (n <> 0 -> default 0 (last (to_base fuel base n)) <> 0).
Proof.
  intros Hb. revert n. induction fuel as [|fuel IH]; intros n Hn.
  { change (Z.of_nat 0) with 0 in Hn. rewrite Z.pow_0_r in Hn. assert (n = 0) as -> by lia. simpl. done. }
  rewrite Nat2Z.inj_succ, Z.pow_succ_r in Hn by lia. cbn [to_base].
  pose proof (Z.div_mod n base ltac:(lia)) as Hd. pose proof (Z.mod_pos_bound n base ltac:(lia)) as Hm.
  destruct (Z.eqb_spec (n / base) 0) as [E|E].
  - rewrite E in Hd. simpl. split; [lia|]. split; [by constructor; [|constructor]|]. cbn. lia.
  - assert (0 <= n / base < base ^ Z.of_nat fuel) as Hq by (split; [apply Z.div_pos; lia|apply Z.div_lt_upper_bound; lia]).
    destruct (IH _ Hq) as (I1 & I2 & I3). cbn [value]. rewrite I1. split; [lia|]. split; [by constructor|].
    intros _. specialize (I3 E). destruct (to_base fuel base (n / base)) as [|x l] eqn:El; [done|]. by rewrite last_cons_cons.
Qed.

Lemma to_base_length fuel base n k : 2 <= base -> 0 <= n < base ^ Z.of_nat (S k) -> (length (to_base fuel base n) <= S k)%nat.
Proof.
  intros Hb. revert n k. induction fuel as [|fuel IH]; intros n k Hn; simpl; [lia|].
  destruct (Z.eqb_spec (n / base) 0) as [E|E]; simpl; [lia|].
  assert (0 <= n / base) by (apply Z.div_pos; lia).
  destruct k as [|k].
  - exfalso. apply E. apply Z.div_small. change (Z.of_nat 1) with 1 in Hn. lia.
  - rewrite Nat2Z.inj_succ, Z.pow_succ_r in Hn by lia. specialize (IH (n / base) k).
    assert (n / base < base ^ Z.of_nat (S k)) by (apply Z.div_lt_upper_bound; lia). lia.
Qed.

Lemma to_base_pos fuel base n : (0 < fuel)%nat -> (0 < length (to_base fuel base n))%nat.
Proof. destruct fuel; [lia|]. simpl. lia. Qed.

Lemma hex2ascii_ok upper d : 0 <= d < 16 -> hex2ascii upper d = Done (hexchar upper d).
Proof.
  intros Hd. assert (d ∈ seqZ 0 16) as Hin by (apply elem_of_seqZ; lia).
  assert (forallb (fun d => match hex2ascii upper d with Done c => c =? hexchar upper d | _ => false end) (seqZ 0 16) = true) as H
    by (destruct upper; vm_compute; reflexivity).
  rewrite forallb_forall in H. specialize (H d ltac:(by apply list_elem_of_In)). destruct (hex2ascii upper d); [|done..]. f_equal. lia.
Qed.

Lemma hexchar_nonzero upper d : 0 <= d -> hexchar upper d <> 0.
Proof. intros Hd. unfold hexchar. change (chr "0") with 48. change (chr "A") with 65. change (chr "a") with 97. destruct (d <? 10), upper; lia. Qed.

(** ** Numbers in the buffer *)

Lemma len_single (x : Z) : len [x] = 1.
Proof. done. Qed.

Lemma ksprintn_loop_ok fuel nbuf p n base upper z :
  2 <= base <= 16 -> 0 <= n < base ^ Z.of_nat fuel -> (0 < fuel)%nat -> 0 <= p -> len nbuf = 32 ->
  p + len (to_base fuel base n) <= 31 -> take (Z.to_nat p + 1) nbuf = z ->
  exists nb, ksprintn_loop fuel nbuf p n base upper = Done (nb, p + len (to_base fuel base n)) /\ len nb = 32
    /\ take (Z.to_nat (p + len (to_base fuel base n)) + 1) nb = z ++ (hexchar upper <$> to_base fuel base n).
Proof.
  intros Hb. revert nbuf p n z. induction fuel as [|fuel IH]; intros nbuf p n z Hn Hf Hp Hl Hlen Hz; [lia|].
  pose proof (Z.mod_pos_bound n base ltac:(lia)) as Hm.
  cbn [ksprintn_loop to_base] in *. rewrite hex2ascii_ok by lia. cbn [obind].
  rewrite len_cons in *. pose proof (len_nonneg (if n / base =? 0 then [] else to_base fuel base (n / base))).
  rewrite mem_write_ok by (rewrite ?len_single; lia). cbn [obind].
  set (nb := splice nbuf (p + 1) [hexchar upper (n mod base)]).
  assert (len nb = 32) as Hl' by (unfold nb; rewrite len_splice; rewrite ?len_single; lia).
  assert (take (Z.to_nat (p + 1) + 1) nb = z ++ [hexchar upper (n mod base)]) as Hz'.
  { unfold nb, splice. rewrite <- Hz. replace (Z.to_nat (p + 1)) with (Z.to_nat p + 1)%nat by lia.
    assert (length (take (Z.to_nat p + 1) nbuf) = (Z.to_nat p + 1)%nat) as Ht by (rewrite length_take; unfold len in Hl; lia).
    rewrite take_app_ge by lia. rewrite Ht. replace (Z.to_nat p + 1 + 1 - (Z.to_nat p + 1))%nat with 1%nat by lia. done. }
  clearbody nb. destruct (Z.eqb_spec (n / base) 0) as [E|E]; cbn [negb].
  - exists nb. change (len []) with 0. cbn [fmap list_fmap]. replace (p + (0 + 1)) with (p + 1) by lia. done.
  - rewrite Nat2Z.inj_succ, Z.pow_succ_r in Hn by lia.
    assert (0 <= n / base < base ^ Z.of_nat fuel) as Hq by (split; [apply Z.div_pos; lia|apply Z.div_lt_upper_bound; lia]).
    assert (0 < fuel)%nat by (destruct fuel; [change (Z.of_nat 0) with 0 in Hq; rewrite Z.pow_0_r in Hq; lia|lia]).
    destruct (IH nb (p + 1) (n / base) (z ++ [hexchar upper (n mod base)]) Hq) as (nb' & -> & Hl2 & Ht2); [lia|lia|done|lia|exact Hz'|].
    exists nb'. split; [do 2 f_equal; lia|]. split; [done|].
    replace (p + (len (to_base fuel base (n / base)) + 1)) with (p + 1 + len (to_base fuel base (n / base))) by lia.
    rewrite Ht2, <- app_assoc. done.
Qed.

Lemma digits_down_ok cs nb : Forall (fun c => c <> 0) cs -> take (length cs + 1) nb = 0 :: cs -> digits_down nb (length cs) = Done (reverse cs).
Proof.
  induction cs as [|c cs IH] using rev_ind; intros Hf Ht.
  - destruct nb as [|x nb]; [done|]. simpl in Ht. injection Ht as ->. done.
  - rewrite length_app in *. simpl length in *. apply Forall_app in Hf as [Hf Hc]. apply Forall_cons in Hc as [Hc _].
    replace (length cs + 1)%nat with (S (length cs)) by lia. cbn [digits_down].
    assert (nb !! S (length cs) = Some c) as E.
    { rewrite <- (lookup_take_lt nb (length cs + 1 + 1) (S (length cs))), Ht by lia. simpl. rewrite lookup_app_r, Nat.sub_diag by lia. done. }
    rewrite E, (proj2 (Z.eqb_neq _ _) Hc). rewrite IH; [|done|].
    + cbn [obind]. by rewrite reverse_app.
    + assert (take (length cs + 1) (take (length cs + 1 + 1) nb) = take (length cs + 1) nb) as <- by (rewrite take_take; f_equal; lia).
      rewrite Ht. replace (length cs + 1)%nat with (S (length cs)) by lia. simpl. by rewrite take_app_length.
Qed.

(** 64 bits fit in the buffer in base 8 and above. *)
Lemma ksprintn_ok nbuf n base upper : len nbuf = MAXNBUF -> 8 <= base <= 16 -> 0 <= n < 2 ^ 64 ->
  exists nb, ksprintn nbuf n base upper = Done (nb, len (digits upper base n))
    /\ digits_down nb (Z.to_nat (len (digits upper base n))) = Done (digits upper base n) /\ 0 < len (digits upper base n) <= 22.
Proof.
  intros Hl Hb Hn. unfold MAXNBUF in Hl. unfold ksprintn. rewrite mem_write_ok by (rewrite ?len_single; lia). cbn [obind].
  assert (8 ^ 22 <= base ^ 22) by (apply Z.pow_le_mono_l; lia).
  assert (8 ^ 64 <= base ^ 64) by (apply Z.pow_le_mono_l; lia).
  assert (length (to_base 64 base n) <= 22)%nat as H22 by (apply (to_base_length 64 base n 21); [lia|change (Z.of_nat 22) with 22; lia]).
  assert (len (digits upper base n) = len (to_base 64 base n)) as Hd by (unfold digits, len; by rewrite length_fmap, length_reverse).
  rewrite Hd. pose proof (to_base_pos 64 base n ltac:(lia)) as Hpos.
  destruct (ksprintn_loop_ok 64 (splice nbuf 0 [0]) 0 n base upper [0]) as (nb & E & Hlb & Ht).
  - lia.
  - change (Z.of_nat 64) with 64. lia.
  - lia.
  - lia.
  - rewrite len_splice; rewrite ?len_single; lia.
  - unfold len. lia.
  - destruct nbuf as [|x nbuf]; [done|]. done.
  - rewrite Z.add_0_l in *. exists nb. split; [done|]. split; [|rewrite <- Hd in *; unfold len in *; lia].
    unfold len in *. rewrite Nat2Z.id in *.
    destruct (to_base_spec 64 base n) as (_ & Hr & _); [lia|change (Z.of_nat 64) with 64; lia|].
    rewrite <- (length_fmap (hexchar upper)) in Ht |- *. unfold digits. rewrite fmap_reverse. apply digits_down_ok; [|exact Ht].
    apply Forall_fmap. eapply Forall_impl; [exact Hr|]. intros d Hd'. cbv beta in Hd'. apply hexchar_nonzero. lia.
Qed.

Lemma len_fill n c : len (fill n c) = Z.max 0 n.
Proof. unfold len, fill. rewrite length_replicate. lia. Qed.

Lemma fill_neg n c : n <= 0 -> fill n c = [].
Proof. intros H. unfold fill. by replace (Z.to_nat n) with 0%nat by lia. Qed.

Lemma fill_max n c : fill (Z.max 0 n) c = fill n c.
Proof. unfold fill. f_equal. lia. Qed.

Definition tmp_total (sgn : list Z) (dw : Z) (ds : list Z) : Z := len sgn + Z.max dw (len ds).

(** A field that is not too long leaves room for the computations. *)
Lemma number_room left zero w prec sgn ds dw :
  prec_low prec = false -> 0 <= w -> 0 < len ds <= 22 -> len sgn <= 3 ->
  len (number_field left zero w prec sgn ds) < 2 ^ 31 -> dw = (if negb left && zero then w - len sgn else prec) ->
  tmp_total sgn dw ds < 2 ^ 31 /\ - 2 ^ 31 < dw - len ds.
Proof.
  unfold prec_low, tmp_total. intros Hp%Z.ltb_ge Hw Hd Hs Ho Ed. rewrite (andb_comm (negb left) zero) in Ed.
  assert (len sgn + Z.max dw (len ds) <= len (number_field left zero w prec sgn ds)) as Hle.
  { unfold number_field. rewrite <- Ed. pose proof (len_nonneg (fill (w - len (sgn ++ fill (Z.max 0 (dw - len ds)) (chr "0") ++ ds)) (chr " "))).
    destruct left; rewrite !len_app, !len_fill in *; lia. }
  split; [lia|]. destruct (zero && negb left); lia.
Qed.

(** The label [number] writes the field of the reference. *)
Lemma number_ok nbuf f base upper num sgn v :
  len nbuf = MAXNBUF -> base = 8 \/ base = 10 \/ base = 16 -> 0 <= num < 2 ^ 64 ->
  (sign f = true -> v = s64 num /\ v <> - 2 ^ 63) -> (sign f = false -> v = num) ->
  0 <= width f -> prec_low (dwidth f) = false ->
  len (number_field (ladjust f) (padc f =? chr "0") (width f) (dwidth f) sgn (digits upper base (Z.abs v))) < 2 ^ 31 ->
  sgn = (if sign f then minus v else []) ++ prefix (sharpflag f) base v ->
  number nbuf f base upper num = Done (number_field (ladjust f) (padc f =? chr "0") (width f) (dwidth f) sgn (digits upper base (Z.abs v))).
Proof.
  intros Hl Hb Hn Hs1 Hs0 Hw Hp Ho ->. unfold number.
  assert ((sign f && (s64 num <? 0)) = (if sign f then v <? 0 else false)) as ->.
  { destruct (sign f); [|done]. by destruct (Hs1 eq_refl) as [-> _]. }
  set (neg := if sign f then v <? 0 else false).
  assert (negb neg || negb (s64 num =? - 2 ^ 63) = true) as ->.
  { unfold neg. destruct (sign f); [|done]. destruct (Hs1 eq_refl) as [<- H]. rewrite (proj2 (Z.eqb_neq v _) H). apply orb_true_r. }
  assert ((if neg then u64 (- s64 num) else num) = Z.abs v) as ->.
  { unfold neg. destruct (sign f); [|rewrite (Hs0 eq_refl); lia]. destruct (Hs1 eq_refl) as [-> H].
    assert (- 2 ^ 63 <= s64 num < 2 ^ 63) by (unfold swrap; zlia).
    destruct (Z.ltb_spec (s64 num) 0); [rewrite wrap_small by (split; lia); lia|]. unfold swrap in *. zlia. }
  assert (0 <= Z.abs v < 2 ^ 64) as Hv.
  { destruct (sign f); [|rewrite (Hs0 eq_refl); lia]. destruct (Hs1 eq_refl) as [-> H]. assert (- 2 ^ 63 <= s64 num < 2 ^ 63) by (unfold swrap; zlia). lia. }
  destruct (ksprintn_ok nbuf (Z.abs v) base upper Hl) as (nb & -> & Ed & Hpos); [lia|done|]. cbn [obind fst snd]. rewrite Ed. cbn [obind].
  assert ((Z.abs v =? 0) = (v =? 0)) as -> by (destruct (Z.eqb_spec (Z.abs v) 0), (Z.eqb_spec v 0); lia).
  change ((if sharpflag f && negb (v =? 0) then if base =? 8 then [chr "0"] else if base =? 16 then [chr "0"; chr "x"] else [] else []))
    with (prefix (sharpflag f) base v).
  assert ((if neg then [chr "-"] else []) = (if sign f then minus v else [])) as -> by (unfold neg, minus; by destruct (sign f)).
  set (sg := if sign f then minus v else []). set (pre := prefix (sharpflag f) base v). set (ds := digits upper base (Z.abs v)) in *.
  assert ((if sharpflag f && negb (v =? 0) then if base =? 8 then 1 else if base =? 16 then 2 else 0 else 0) + (if neg then 1 else 0) = len (sg ++ pre)) as ->.
  { rewrite len_app, Z.add_comm. f_equal.
    - unfold sg, neg, minus. destruct (sign f); [destruct (v <? 0)|]; done.
    - unfold pre, prefix. destruct (sharpflag f && negb (v =? 0)); [|done]. by destruct (base =? 8), (base =? 16). }
  unfold number_field, rep. fold (fill (width f - (len (sg ++ pre) + Z.max (if negb (ladjust f) && (padc f =? chr "0") then width f - len (sg ++ pre) else dwidth f) (len ds))) (chr " ")).
  fold (fill ((if negb (ladjust f) && (padc f =? chr "0") then width f - len (sg ++ pre) else dwidth f) - len ds) (chr "0")).
  rewrite (andb_comm (padc f =? chr "0")). set (dw := if negb (ladjust f) && (padc f =? chr "0") then _ else _).
  assert (tmp_total (sg ++ pre) dw ds < 2 ^ 31 /\ - 2 ^ 31 < dw - len ds) as [G1 G2].
  { apply (number_room (ladjust f) (padc f =? chr "0") (width f) (dwidth f)); try done. unfold sg, pre, prefix, minus.
    destruct (sign f), (v <? 0), (sharpflag f && negb (v =? 0)), (base =? 8), (base =? 16); vm_compute; discriminate. }
  unfold tmp_total in G1. pose proof (len_nonneg (sg ++ pre)).
  rewrite (proj2 (Z.ltb_lt _ _) G1). rewrite (proj2 (Z.ltb_lt _ _) G2). rewrite (proj2 (Z.ltb_lt _ _)) by lia. cbn [andb].
  rewrite !len_app, !len_fill, fill_max. f_equal.
  replace (width f - (len sg + len pre + (Z.max 0 (Z.max 0 (dw - len ds)) + len ds))) with (width f - (len sg + len pre + Z.max dw (len ds))) by lia.
  destruct (ladjust f); simpl; by rewrite <- ?app_assoc, ?app_nil_r.
Qed.

(** ** The interpreter on the text of a directive *)

(** Reading digits, the most significant first. *)
Definition horner (n : Z) (ds : list Z) : Z := foldl (fun n d => n * 10 + d) n ds.

Lemma horner_grows n ds : 0 <= n -> Forall (fun d => 0 <= d < 10) ds -> n <= horner n ds.
Proof.
  intros Hn Hd. revert n Hn. unfold horner. induction Hd as [|d ds Hd _ IH]; intros n Hn; cbn [foldl]; [lia|].
  specialize (IH (n * 10 + d) ltac:(lia)). lia.
Qed.

Lemma horner_value ds : horner 0 (reverse ds) = value 10 ds.
Proof.
  unfold horner. induction ds as [|d ds IH]; [done|]. rewrite reverse_cons, foldl_app, IH. simpl. lia.
Qed.

Lemma decimal_digits n : 0 <= n < 2 ^ 31 ->
  horner 0 (reverse (to_base 64 10 n)) = n /\ Forall (fun d => 0 <= d < 10) (reverse (to_base 64 10 n))
  /\ (exists d ds, reverse (to_base 64 10 n) = d :: ds /\ (n <> 0 -> d <> 0)).
Proof.
  intros Hn. destruct (to_base_spec 64 10 n) as (Hv & Hr & Hl); [lia|change (Z.of_nat 64) with 64; lia|].
  rewrite horner_value. split; [done|]. split; [by apply Forall_reverse|].
  pose proof (to_base_pos 64 10 n ltac:(lia)) as Hp. destruct (to_base 64 10 n) as [|x l] using rev_ind; [simpl in Hp; lia|].
  rewrite reverse_app. cbn. eexists _, _. split; [done|]. intros H0. specialize (Hl H0). by rewrite last_snoc in Hl.
Qed.

Lemma decimal_char d : 0 <= d < 10 -> hexchar false d = chr "0" + d.
Proof. intros Hd. unfold hexchar. by rewrite (proj2 (Z.ltb_lt _ _)) by lia. Qed.

Lemma strnlen_ok p k n : 0 <= n -> strnlen p k n = n + Z.min (len p) (Z.max 0 (k - n)).
Proof.
  revert n. induction p as [|c p IH]; intros n Hn; cbn [strnlen]; [unfold len; simpl; lia|].
  rewrite len_cons. pose proof (len_nonneg p). destruct (Z.ltb_spec n k); [rewrite IH by lia; lia|lia].
Qed.

(** A character that is not a digit. *)
Definition nondigit (c : Z) : bool := (c <? chr "0") || (c >? chr "9").

Section Run.
Context (nbuf : list Z) (Hnbuf : len nbuf = MAXNBUF).

#[local] Abbreviation loop := (vprintf_loop nbuf).

(** The text [l] changes the variables, whatever follows it. *)
Definition leads (f : fl) (l : list Z) (ap : list varg) (f' : fl) (ap' : list varg) : Prop :=
  forall pc rest put ret, exists pc', loop (Spec pc f) (l ++ rest) ap put ret = loop (Spec pc' f') rest ap' put ret.

Lemma leads_nil f ap : leads f [] ap f ap.
Proof. intros pc rest put ret. by exists pc. Qed.

Lemma leads_app f l ap f1 ap1 k f2 ap2 : leads f l ap f1 ap1 -> leads f1 k ap1 f2 ap2 -> leads f (l ++ k) ap f2 ap2.
Proof.
  intros H K pc rest put ret. rewrite <- app_assoc. destruct (H pc (k ++ rest) put ret) as (pc' & ->). apply K.
Qed.

Lemma leads_char f c ap f' ap' : switch nbuf f c ap = Done (Reswitch f' ap') -> leads f [c] ap f' ap'.
Proof. intros H pc rest put ret. exists (pc ++ [c]). cbn [app vprintf_loop]. by rewrite H. Qed.

Lemma num_run f n ds pc rest ap put ret :
  Forall (fun d => 0 <= d < 10) ds -> 0 <= n -> horner n ds < SIZE_LIMIT ->
  exists pc', loop (Num pc f n) ((hexchar false <$> ds) ++ rest) ap put ret = loop (Num pc' f (horner n ds)) rest ap put ret.
Proof.
  unfold SIZE_LIMIT. intros Hd. revert n pc. induction Hd as [|d ds Hd Hds IH]; intros n pc Hn Hh; [by exists pc|].
  cbn [horner foldl] in Hh. change (foldl _ ?a ds) with (horner a ds) in Hh.
  pose proof (horner_grows (n * 10 + d) ds ltac:(lia) Hds) as Hg.
  cbn [fmap list_fmap app vprintf_loop]. rewrite decimal_char by done. change (chr "0") with 48. change (chr "9") with 57.
  rewrite (proj2 (Z.ltb_ge _ _)), Z.gtb_ltb, (proj2 (Z.ltb_ge _ _)) by lia. cbn [orb].
  replace (n * 10 + (48 + d) - 48) with (n * 10 + d) by lia. rewrite (proj2 (Z.ltb_lt _ _)) by lia.
  apply IH; [lia|done].
Qed.

Lemma switch_digit f d ap : 0 <= d < 10 -> d <> 0 \/ dot f = true -> switch nbuf f (chr "0" + d) ap = Done (Digits d).
Proof.
  intros Hd Hn.
  assert (d = 0 \/ d = 1 \/ d = 2 \/ d = 3 \/ d = 4 \/ d = 5 \/ d = 6 \/ d = 7 \/ d = 8 \/ d = 9) as H by lia.
  destruct H as [->|H]; [destruct Hn as [?|Hn]; [done|]; unfold switch; by rewrite Hn|].
  repeat (destruct H as [->|H]; [reflexivity|]). by subst.
Qed.

(** A number sets the width, or behind a dot the precision. *)
Lemma number_run f n ap pc c rest put ret : 0 <= n < SIZE_LIMIT -> n <> 0 \/ dot f = true -> nondigit c = true ->
  exists pc', loop (Spec pc f) (show_number n ++ c :: rest) ap put ret
    = loop (Spec pc' (if dot f then set_dwidth n f else set_width n f)) (c :: rest) ap put ret.
Proof.
  unfold SIZE_LIMIT. intros Hn H0 Hc. unfold show_number, digits. destruct (decimal_digits n ltac:(lia)) as (Hh & Hd & d & ds & E & Hd0). rewrite E in *.
  apply Forall_cons in Hd as [Hd Hds]. cbn [fmap list_fmap app].
  cbn [vprintf_loop]. rewrite decimal_char by done. rewrite switch_digit by (done || (destruct H0 as [?|?]; [left; auto|by right])).
  cbn [obind]. destruct (num_run f d ds (pc ++ [chr "0" + d]) (c :: rest) ap put ret Hds) as (pc' & E').
  - lia.
  - cbn [horner foldl] in Hh. change (foldl _ ?a ds) with (horner a ds) in Hh. replace (0 * 10 + d) with d in Hh by lia. unfold SIZE_LIMIT. lia.
  - exists pc'. cbn [horner foldl] in Hh. change (foldl _ ?a ds) with (horner a ds) in Hh. replace (0 * 10 + d) with d in Hh by lia.
    rewrite Hh in E'. change (list_fmap Z Z (hexchar false) ds) with (hexchar false <$> ds). rewrite E'. unfold nondigit in Hc. cbn [vprintf_loop]. by rewrite Hc.
Qed.

(** *** The parts of a directive *)

Definition pad_of (d : directive) : Z := if d_zero d then chr "0" else chr " ".

(** The variables behind the flags, the width, the precision, the length. *)
Definition vars (d : directive) (left : bool) (w : Z) (has : bool) (p : Z) (l : lenmod) : fl :=
  mk_fl (match l with LL | LLL | LZ | LT => true | _ => false end) left (d_sharp d) (d_plus d) has
    (match l with LHH => true | _ => false end) (match l with LH => true | _ => false end)
    (match l with LJ | LLL => true | _ => false end) p w (pad_of d).

Lemma flags_run d ap : leads fl0 (show_flags d) ap (vars d (d_left d) 0 false 0 LNone) ap.
Proof.
  unfold show_flags, vars, pad_of. destruct d as [[] [] [] [] w p l c];
    repeat (apply leads_nil || (eapply leads_app; [apply leads_char; reflexivity|]) || (apply leads_char; reflexivity) || (eapply leads_app; [apply leads_nil|])).
Qed.

Lemma len_run d left w has p l ap : leads (vars d left w has p LNone) (show_len l) ap (vars d left w has p l) ap.
Proof.
  destruct l; cbn [show_len];
    try (apply leads_nil || (apply leads_char; reflexivity)); (eapply (leads_app _ [_] _ _ _ [_]); apply leads_char; reflexivity).
Qed.

Lemma size_star s ap n ap' : get_size s ap = Some (n, ap') -> s = SStar -> exists z, ap = VInt z :: ap' /\ n = s32 z.
Proof. intros H ->. unfold get_size, get_int in H. destruct ap as [|[] ap]; simplify_eq. eauto. Qed.

Lemma switch_star f ap : switch nbuf f (chr "*") ap =
  let* r := va_int ap in
  if negb (dot f) then
    if r.1 <? 0 then guard* negb (r.1 =? - 2 ^ 31) in Done (Reswitch (set_width (- r.1) (set_ladjust (negb (ladjust f)) f)) r.2)
    else Done (Reswitch (set_width r.1 f) r.2)
  else Done (Reswitch (set_dwidth r.1 f) r.2).
Proof. reflexivity. Qed.

Lemma width_run d ap w ap' pc c rest put ret :
  get_size (d_width d) ap = Some (w, ap') -> (w <? 0) && (d_left d || (w =? - 2 ^ 31)) = false ->
  match d_width d with SLit n => 0 < n < SIZE_LIMIT | _ => True end -> nondigit c = true ->
  exists pc', loop (Spec pc (vars d (d_left d) 0 false 0 LNone)) (show_size (d_width d) ++ c :: rest) ap put ret
    = loop (Spec pc' (vars d (d_left d || (w <? 0)) (Z.abs w) false 0 LNone)) (c :: rest) ap' put ret.
Proof.
  intros Hs Hw Hok Hc. destruct (d_width d) as [|n|] eqn:E.
  - cbn in Hs. simplify_eq. rewrite orb_false_r. by exists pc.
  - cbn in Hs. simplify_eq. rewrite (proj2 (Z.ltb_ge _ _)), orb_false_r, Z.abs_eq by lia. cbn [show_size].
    destruct (number_run (vars d (d_left d) 0 false 0 LNone) w ap' pc c rest put ret) as (pc' & ->); [lia|left; lia|done|]. by exists pc'.
  - destruct (size_star _ _ _ _ Hs eq_refl) as (z & -> & ->). cbn [show_size].
    apply (leads_char _ (chr "*")). rewrite switch_star. cbn [va_int obind fst snd vars dot negb ladjust].
    destruct (Z.ltb_spec (s32 z) 0).
    + cbn [andb] in Hw. apply orb_false_iff in Hw as [Hl Hm]. rewrite Hm, Hl, Z.abs_neq by lia. done.
    + rewrite orb_false_r, Z.abs_eq by lia. done.
Qed.

Lemma prec_run d left w ap p ap' pc c rest put ret :
  get_size (d_prec d) ap = Some (p, ap') -> match d_prec d with SLit n => 0 <= n < SIZE_LIMIT | _ => True end -> nondigit c = true ->
  exists pc', loop (Spec pc (vars d left w false 0 LNone)) (show_prec (d_prec d) ++ c :: rest) ap put ret
    = loop (Spec pc' (vars d left w (match d_prec d with SNone => false | _ => true end) p LNone)) (c :: rest) ap' put ret.
Proof.
  intros Hs Hok Hc. destruct (d_prec d) as [|n|] eqn:E.
  - cbn in Hs. simplify_eq. by exists pc.
  - cbn in Hs. simplify_eq. cbn [show_prec show_size].
    change ((chr "." :: show_number p) ++ c :: rest) with ([chr "."] ++ (show_number p ++ c :: rest)).
    destruct (leads_char (vars d left w false 0 LNone) (chr ".") ap' (vars d left w true 0 LNone) ap' eq_refl pc (show_number p ++ c :: rest) put ret) as (pc1 & ->).
    destruct (number_run (vars d left w true 0 LNone) p ap' pc1 c rest put ret) as (pc' & ->); [lia|by right|done|]. by exists pc'.
  - destruct (size_star _ _ _ _ Hs eq_refl) as (z & -> & ->). cbn [show_prec show_size].
    eapply (leads_app _ [chr "."] _ (vars d left w true 0 LNone) _ (str "*")); apply leads_char; reflexivity.
Qed.

(** *** The conversion *)

Definition conv_char (c : conv) : Z :=
  chr match c with CDec => "d" | CDecI => "i" | CSHex => "y" | CUns => "u" | COct => "o" | CHex => "x" | CHexUp => "X"
  | CPtr => "p" | CChr => "c" | CStr => "s" | CPct => "%" end.

Lemma show_conv_char c : show_conv c = [conv_char c].
Proof. by destruct c. Qed.

(** Behind the width and the precision comes a character that is not a digit. *)
Lemma rest_nondigit l c rest : exists x k, show_len l ++ show_conv c ++ rest = x :: k /\ nondigit x = true.
Proof. destruct l, c; eexists _, _; (split; [reflexivity|reflexivity]). Qed.
Lemma prec_nondigit p l c rest : exists x k, show_prec p ++ show_len l ++ show_conv c ++ rest = x :: k /\ nondigit x = true.
Proof. destruct p; [apply rest_nondigit| |]; eexists _, _; (split; [reflexivity|reflexivity]). Qed.

Lemma pad_zero d : (pad_of d =? chr "0") = d_zero d.
Proof. unfold pad_of. by destruct (d_zero d). Qed.

Lemma get_int_va ap r : get_int ap = Some r -> va_int ap = Done r.
Proof. destruct ap as [|[] ap]; cbn; intros; by simplify_eq. Qed.
Lemma get_long_va ap r : get_long ap = Some r -> va_long ap = Done r.
Proof. destruct ap as [|[] ap]; cbn; intros; by simplify_eq. Qed.

Lemma s32_range z : - 2 ^ 31 <= s32 z < 2 ^ 31.
Proof. unfold swrap. zlia. Qed.
Lemma s64_u64 v : - 2 ^ 63 <= v < 2 ^ 63 -> s64 (u64 v) = v.
Proof. intros. unfold swrap, wrap. zlia. Qed.

(** The arguments of the conversions of integers. *)
Lemma signed_arg d left w has p l ap v ap' : get_signed l ap = Some (v, ap') ->
  handle_sign (vars d left w has p l) ap = Done (u64 v, ap') /\ s64 (u64 v) = v.
Proof.
  intros H.
  assert (- 2 ^ 63 <= v < 2 ^ 63) as Hr.
  { destruct l; unfold get_signed in H; (destruct ap as [|[] ap]; try done); cbn in H; simplify_eq; unfold swrap; zlia. }
  split; [|by apply s64_u64]. unfold handle_sign. destruct l; cbn [vars jflag lflag hflag cflag];
    (destruct ap as [|[] ap]; try done); cbn in H; simplify_eq; reflexivity.
Qed.

Lemma unsigned_arg d left w has p l ap v ap' : get_unsigned l ap = Some (v, ap') ->
  handle_nosign (vars d left w has p l) ap = Done (v, ap') /\ 0 <= v < 2 ^ 64.
Proof.
  intros H. split.
  - unfold handle_nosign. destruct l; cbn [vars jflag lflag hflag cflag];
      (destruct ap as [|[] ap]; try done); cbn in H; simplify_eq; reflexivity.
  - destruct l; unfold get_unsigned in H; (destruct ap as [|[] ap]; try done); cbn in H; simplify_eq; unfold wrap; zlia.
Qed.

Lemma signed_ok d left w has p l ap v ap' base : base = 10 \/ base = 16 -> get_signed l ap = Some (v, ap') -> v <> - 2 ^ 63 ->
  0 <= w -> prec_low p = false ->
  len (number_field left (d_zero d) w p (minus v ++ prefix (d_sharp d) base v) (digits false base (Z.abs v))) < 2 ^ 31 ->
  (let* r := handle_sign (vars d left w has p l) ap in
   let* k := number nbuf (set_sign true (vars d left w has p l)) base false r.1 in Done (Emit k r.2))
  = Done (Emit (number_field left (d_zero d) w p (minus v ++ prefix (d_sharp d) base v) (digits false base (Z.abs v))) ap').
Proof.
  intros Hb Hg Hn Hw Hp Ho. destruct (signed_arg d left w has p l ap v ap' Hg) as [-> E]. cbn [obind fst snd].
  rewrite (number_ok nbuf _ base false (u64 v) (minus v ++ prefix (d_sharp d) base v) v Hnbuf); cbn [set_sign vars sign sharpflag ladjust padc width dwidth].
  - cbn [obind]. by rewrite pad_zero.
  - lia.
  - apply wrap_range. lia.
  - by rewrite E.
  - done.
  - done.
  - done.
  - by rewrite pad_zero.
  - done.
Qed.

Lemma unsigned_ok d left w has p l ap v ap' base upper : base = 8 \/ base = 10 \/ base = 16 -> get_unsigned l ap = Some (v, ap') ->
  0 <= w -> prec_low p = false -> len (number_field left (d_zero d) w p (prefix (d_sharp d) base v) (digits upper base v)) < 2 ^ 31 ->
  (let* r := handle_nosign (vars d left w has p l) ap in
   let* k := number nbuf (set_sign false (vars d left w has p l)) base upper r.1 in Done (Emit k r.2))
  = Done (Emit (number_field left (d_zero d) w p (prefix (d_sharp d) base v) (digits upper base v)) ap').
Proof.
  intros Hb Hg Hw Hp Ho. destruct (unsigned_arg d left w has p l ap v ap' Hg) as [-> E]. cbn [obind fst snd].
  rewrite (number_ok nbuf _ base upper v (prefix (d_sharp d) base v) v Hnbuf); cbn [set_sign vars sign sharpflag ladjust padc width dwidth].
  - cbn [obind]. by rewrite pad_zero, Z.abs_eq by lia.
  - done.
  - done.
  - done.
  - done.
  - done.
  - done.
  - by rewrite pad_zero, Z.abs_eq by lia.
  - done.
Qed.

Lemma padded_ok d left w has p l k : padded (vars d left w has p l) (w - len k) k = text_field left (d_zero d) w k.
Proof.
  unfold padded, text_field, rep. cbn [vars ladjust padc]. unfold pad_of. fold (fill (w - len k) (if d_zero d then chr "0" else chr " ")).
  destruct left; cbn [negb app]; by rewrite ?app_nil_r.
Qed.

Lemma conv_run d left w has p l c ap out ap' :
  eval_conv left (d_sharp d) (d_zero d) w has p l c ap = Some (out, ap') -> (has = false -> p = 0) -> 0 <= w -> len out < 2 ^ 31 ->
  switch nbuf (vars d left w has p l) (conv_char c) ap = Done (Emit out ap').
Proof.
  intros H Hp Hw Ho. destruct c; cbn [eval_conv] in H.
  1,2,3: destruct (get_signed l ap) as [[v ap1]|] eqn:Eg; cbn [mbind option_bind fst snd] in H; [|done];
    destruct (prec_low p) eqn:Epl; [by rewrite orb_true_r in H|]; rewrite orb_false_r in H;
    case_match eqn:Em; [done|]; simplify_eq; apply Z.eqb_neq in Em;
    etrans; [|eapply (signed_ok d left w has p l); [|exact Eg|exact Em|exact Hw|exact Epl|exact Ho]]; [reflexivity|lia].
  1,2,3,4: destruct (get_unsigned l ap) as [[v ap1]|] eqn:Eg; cbn [mbind option_bind fst snd] in H; [|done];
    destruct (prec_low p) eqn:Epl; [done|]; simplify_eq;
    etrans; [|eapply (unsigned_ok d left w has p l); [|exact Eg|exact Hw|exact Epl|exact Ho]]; [reflexivity|lia].
  - destruct ap as [|[] ap]; try done. destruct (prec_low p) eqn:Epl; [done|]. simplify_eq.
    change (switch nbuf (vars d left w has p l) (conv_char CPtr) (VPtr z :: ap')) with
      (let* k := number nbuf (set_sign false (set_sharp (w =? 0) (vars d left w has p l))) 16 false (u64 z) in Done (Emit k ap')).
    rewrite (number_ok nbuf _ 16 false (u64 z) (prefix (w =? 0) 16 (u64 z)) (u64 z) Hnbuf); cbn [set_sign set_sharp vars sign sharpflag ladjust padc width dwidth].
    + cbn [obind]. rewrite pad_zero, Z.abs_eq; [done|]. apply wrap_range. lia.
    + lia.
    + apply wrap_range. lia.
    + done.
    + done.
    + done.
    + done.
    + rewrite pad_zero, Z.abs_eq; [done|]. apply wrap_range. lia.
    + done.
  - destruct (get_int ap) as [[v ap1]|] eqn:Eg; cbn in H; [|done]. simplify_eq. apply get_int_va in Eg.
    change (switch nbuf (vars d left w has p l) (conv_char CChr) ap) with
      (let* r := va_int ap in Done (Emit (padded (vars d left w has p l) (w - 1) [u8 r.1]) r.2)).
    rewrite Eg. cbn [obind fst snd]. by rewrite <- (padded_ok d left w has p l [u8 v]).
  - destruct ap as [|[] ap]; try done. simplify_eq. set (q := default (str "(null)") s).
    change (switch nbuf (vars d left w has p l) (conv_char CStr) (VStr s :: ap')) with
      (let n := if negb has then s32 (len q) else strnlen q p 0 in
       guard* 0 <=? n in Done (Emit (padded (vars d left w has p l) (w - n) (take (Z.to_nat n) q)) ap')).
    cbv zeta. pose proof (len_nonneg q). rewrite strnlen_ok by lia. destruct has; cbn [negb]; fold q in Ho.
    2: assert (len q < 2 ^ 31) by (revert Ho; unfold text_field; destruct left; rewrite len_app;
         pose proof (len_nonneg (fill (w - len q) (if d_zero d then chr "0" else chr " "))); lia).
    2: rewrite swrap_small by lia.
    1,2: rewrite (proj2 (Z.leb_le 0 _)) by lia.
    + rewrite <- (padded_ok d left w true p l). do 3 f_equal.
      * f_equal. unfold len. rewrite length_take. lia.
      * destruct (Z.le_gt_cases p (len q)); [f_equal; lia|]. rewrite !take_ge; unfold len in *; [done|lia|lia].
    + rewrite <- (padded_ok d left w false p l). unfold len. rewrite Nat2Z.id, firstn_all. done.
  - by simplify_eq.
Qed.

(** A whole directive. *)
Lemma dir_run d ap out ap' rest put ret :
  item_ok (Dir d) -> eval_item (Dir d) ap = Some (out, ap') -> 0 <= ret -> ret + len out < 2 ^ 31 ->
  loop (Text false) (show_dir d ++ rest) ap put ret = loop (Text false) rest ap' (put ++ out) (ret + len out).
Proof.
  intros [Hw Hp] H Hr0 Hr. assert (len out < 2 ^ 31) as Ho by lia. unfold eval_item in H. destruct (get_size (d_width d) ap) as [[w ap1]|] eqn:Ew; cbn [mbind option_bind] in H; [|done].
  destruct ((w <? 0) && (d_left d || (w =? - 2 ^ 31))) eqn:Eb; cbn [fst snd] in H; rewrite Eb in H; [done|].
  destruct (get_size (d_prec d) ap1) as [[p ap2]|] eqn:Ep; cbn [mbind option_bind fst snd] in H; [|done].
  unfold show_dir. cbn [app vprintf_loop]. change (negb (chr "%" =? chr "%") || false) with false. cbn match.
  rewrite <- !app_assoc. destruct (flags_run d ap [chr "%"] (show_size (d_width d) ++ show_prec (d_prec d) ++ show_len (d_len d) ++ show_conv (d_conv d) ++ rest) put ret) as (pc1 & ->).
  destruct (prec_nondigit (d_prec d) (d_len d) (d_conv d) rest) as (x & k & E & Hx). rewrite E.
  destruct (width_run d ap w ap1 pc1 x k put ret Ew Eb Hw Hx) as (pc2 & ->). rewrite <- E.
  destruct (rest_nondigit (d_len d) (d_conv d) rest) as (y & k2 & E2 & Hy). rewrite E2.
  destruct (prec_run d (d_left d || (w <? 0)) (Z.abs w) ap1 p ap2 pc2 y k2 put ret Ep Hp Hy) as (pc3 & ->). rewrite <- E2.
  destruct (len_run d (d_left d || (w <? 0)) (Z.abs w) (match d_prec d with SNone => false | _ => true end) p (d_len d) ap2 pc3 (show_conv (d_conv d) ++ rest) put ret)
    as (pc4 & ->).
  rewrite show_conv_char. cbn [app vprintf_loop]. rewrite (conv_run d _ _ _ _ _ _ _ _ _ H); [| |lia|done].
  { cbn [obind]. by rewrite (proj2 (Z.ltb_lt _ _)) by lia. }
  destruct (d_prec d); [|done|done]. cbn in Ep. by simplify_eq.
Qed.

Lemma items_run l ap out ap' rest put ret :
  Forall item_ok l -> eval l ap = Some (out, ap') -> 0 <= ret -> ret + len out < 2 ^ 31 ->
  loop (Text false) (concat (show_item <$> l) ++ rest) ap put ret = loop (Text false) rest ap' (put ++ out) (ret + len out).
Proof.
  intros Hf. revert ap out put ret. induction Hf as [|i l Hi _ IH]; intros ap out put ret He H0 Hr.
  - cbn in He. simplify_eq. change (len []) with 0. by rewrite app_nil_r, Z.add_0_r.
  - cbn [eval] in He. destruct (eval_item i ap) as [[o ap1]|] eqn:E1; cbn [mbind option_bind fst snd] in He; [|done].
    destruct (eval l ap1) as [[q ap2]|] eqn:E2; cbn [mbind option_bind fst snd] in He; [|done]. simplify_eq.
    rewrite len_app in *. pose proof (len_nonneg o). pose proof (len_nonneg q).
    cbn [fmap list_fmap concat]. rewrite <- app_assoc.
    assert (loop (Text false) (show_item i ++ concat (show_item <$> l) ++ rest) ap put ret
      = loop (Text false) (concat (show_item <$> l) ++ rest) ap1 (put ++ o) (ret + len o)) as ->.
    { destruct i as [c|d].
      - cbn in E1. simplify_eq. destruct Hi as [Hc0 Hcp]. cbn [show_item app vprintf_loop].
        rewrite (proj2 (Z.eqb_neq c (chr "%")) Hcp), (proj2 (Z.eqb_neq c 0) Hc0). cbn [negb orb].
        change (len [c]) with 1 in *. by rewrite (proj2 (Z.ltb_lt _ _)) by lia.
      - cbn [show_item]. by rewrite (dir_run d ap o ap1 _ _ _ Hi E1) by lia. }
    rewrite (IH ap1 q) by (done || lia). rewrite <- app_assoc. f_equal. lia.
Qed.
End Run.

(** A format made of items puts their texts. *)
Lemma items_print (nbuf : list Z) (l : list item) (ap ap' : list varg) (out : list Z) :
  len nbuf = MAXNBUF -> Forall item_ok l -> eval l ap = Some (out, ap') -> len out < 2 ^ 31 ->
  _IO_Vprintf nbuf (Some (concat (show_item <$> l))) ap = Done (out, len out).
Proof.
  intros Hn Hl He Ho. change (_IO_Vprintf _ _ _) with (vprintf_loop nbuf (Text false) (concat (show_item <$> l) ++ [0]) ap [] 0).
  rewrite (items_run nbuf Hn l ap out ap' [0] [] 0 Hl He) by (done || lia).
  done.
Qed.

(** C17: The format interpreter writes what the format says. For every format
    made of characters and of directives with any flags, width, precision
    (given or from the arguments), length and conversion ([d i y u o x X p c s
    %]), and arguments of the right kinds, [_IO_Vprintf] puts the texts of the
    items in order and returns their length: numbers in their base with their
    sign and prefix, at least as many digits as the precision, filled up to
    the width with blanks on either side or with zeros; characters and strings,
    cut to the precision, filled up to the width. No argument is read as
    another kind, the buffer of 32 characters is never left, and no [int]
    overflows, as long as the output has less than 2^31 characters; the sizes
    that stand in a format are less than 2^31 - 48, and a precision for a
    number from the arguments is not below 32 - 2^31. *)
Theorem printf_writes_items (nbuf : list Z) (l : list item) (ap ap' : list varg) (out : list Z) :
  len nbuf = MAXNBUF -> Forall item_ok l -> eval l ap = Some (out, ap') -> len out < 2 ^ 31 ->
  _IO_Vprintf nbuf (Some (concat (show_item <$> l))) ap = Done (out, len out).
Proof. apply items_print. Qed.

(** ["a%5d|%-#06x%.3s%%"], -42, 255, "hello" *)
Definition some_items : list item :=
  [Lit (chr "a"); Dir (mk_dir false false false false (SLit 5) SNone LNone CDec); Lit (chr "|");
   Dir (mk_dir true true false true (SLit 6) SNone LNone CHex); Dir (mk_dir false false false false SNone (SLit 3) LNone CStr);
   Dir (mk_dir false false false false SNone SNone LNone CPct)].
Definition some_args : list varg := [VInt (-42); VInt 255; VStr (Some (str "hello"))].

Lemma printf_writes_items_witness :
  concat (show_item <$> some_items) = str "a%5d|%-#06x%.3s%%"
  /\ _IO_Vprintf (replicate 32 0) (Some (concat (show_item <$> some_items))) some_args = Done (str "a  -42|0xff  hel%", 17).
Proof.
  split; [by vm_compute|].
  refine (printf_writes_items (replicate 32 0) some_items some_args [] (str "a  -42|0xff  hel%") _ _ _ _); [by vm_compute| |by vm_compute|by vm_compute].
  repeat constructor; vm_compute; congruence.
Defined.

(** A format that ends inside of a directive: the terminator is put, and the
    interpreter goes on behind it. *)
Lemma printf_open_directive nbuf s ap : _IO_Vprintf nbuf (Some (str "100%")) (VStr s :: ap) = Undef.
Proof. reflexivity. Qed.

(** With the flag [-] a negative width from the arguments adjusts to the right. *)
Lemma printf_negative_width nbuf ap : len nbuf = MAXNBUF ->
  _IO_Vprintf nbuf (Some (str "%-*c")) (VInt (-3) :: VInt 65 :: ap) = Done (str "  A", 3).
Proof. reflexivity. Qed.

(** An unknown directive is put as it is, and no directive is interpreted after it. *)
Lemma printf_unknown nbuf z ap : len nbuf = MAXNBUF ->
  _IO_Vprintf nbuf (Some (str "%5kx %d")) (VInt z :: ap) = Done (str "%5kx %d", 7).
Proof. reflexivity. Qed.

(** ** lib/printer.c *)

(** [struct disklog_context]: the characters in the buffer; and the calls of
    [disklog_input]. *)
Record disklog_context := mk_dctx { dc_buffer : list Z; dc_input : list (list Z) }.
Definition DISKLOG_BUFFER : Z := 128.

Definition disklog_put_char (dc : disklog_context) (c : Z) : disklog_context :=
  let b := dc_buffer dc ++ [c] in
  if len b =? DISKLOG_BUFFER then mk_dctx [] (dc_input dc ++ [b]) else mk_dctx b (dc_input dc).

(** [disklog_format (context, fmt, ap)]: the calls of [disklog_input], and the
    result. *)
Definition disklog_format (nbuf : list Z) (fmt : option (list Z)) (ap : list varg) : outcome (list (list Z) * Z) :=
  let* r := _IO_Vprintf nbuf fmt ap in
  let dc := foldl disklog_put_char (mk_dctx [] []) r.1 in
  Done (if len (dc_buffer dc) >? 0 then dc_input dc ++ [dc_buffer dc] else dc_input dc, r.2).

(** [struct queue_context]; [b_buf] is NULL or points to the buffer. *)
Record queue_context := mk_qctx { b_buf : option (list Z); q_head : Z; q_tail : Z; q_size : Z }.

Definition cqueue_put_char (qc : outcome queue_context) (c : Z) : outcome queue_context :=
  let* qc := qc in
  match b_buf qc with
  | None => Undef
  | Some b =>
      let* b := mem_write b (q_head qc) [u8 c] in
      let head := Z.land (q_head qc + 1) (q_size qc - 1) in
      Done (mk_qctx (Some b) head (if head =? q_tail qc then q_tail qc + 1 else q_tail qc) (q_size qc))
  end.

Definition cqueue_format (qc : queue_context) (nbuf : list Z) (fmt : option (list Z)) (ap : list varg) : outcome (Z * queue_context) :=
  let* r := _IO_Vprintf nbuf fmt ap in
  let* qc := foldl cqueue_put_char (Done qc) r.1 in Done (r.2, qc).

(** [queue_format_init (pr, buffer, size)]: [buffer] is not stored. *)
Definition queue_format_init (qc : queue_context) (pr : bool) (buffer : list Z) (size : Z) : outcome queue_context :=
  assert* pr in
  assert* Z.land (u64 (size - 1)) size =? 0 in
  Done (mk_qctx (b_buf qc) 0 0 size).

(** The chunks are in order, nothing is lost, none is empty or longer than the
    buffer. *)
Lemma disklog_chunks l dc : len (dc_buffer dc) < DISKLOG_BUFFER -> Forall (fun b => 0 < len b <= DISKLOG_BUFFER) (dc_input dc) ->
  let dc' := foldl disklog_put_char dc l in
  concat (dc_input dc') ++ dc_buffer dc' = concat (dc_input dc) ++ dc_buffer dc ++ l
  /\ len (dc_buffer dc') < DISKLOG_BUFFER /\ Forall (fun b => 0 < len b <= DISKLOG_BUFFER) (dc_input dc').
Proof.
  revert dc. induction l as [|c l IH]; intros dc Hl Hf; cbn [foldl]; [by rewrite app_nil_r|].
  pose proof (len_nonneg (dc_buffer dc)).
  assert (len (dc_buffer dc ++ [c]) = len (dc_buffer dc) + 1) as E by (by rewrite len_app).
  destruct (Z.eq_dec (len (dc_buffer dc ++ [c])) DISKLOG_BUFFER) as [E'|E'].
  - assert (disklog_put_char dc c = mk_dctx [] (dc_input dc ++ [dc_buffer dc ++ [c]])) as ->
      by (unfold disklog_put_char; by rewrite (proj2 (Z.eqb_eq _ _) E')).
    destruct (IH (mk_dctx [] (dc_input dc ++ [dc_buffer dc ++ [c]]))) as (I1 & I2 & I3); cbn [dc_buffer dc_input].
    + done.
    + apply Forall_app. split; [done|]. constructor; [unfold DISKLOG_BUFFER in *; lia|constructor].
    + split; [|done]. rewrite I1. cbn [dc_input dc_buffer]. rewrite concat_app. cbn [concat]. by rewrite app_nil_r, <- !app_assoc.
  - assert (disklog_put_char dc c = mk_dctx (dc_buffer dc ++ [c]) (dc_input dc)) as ->
      by (unfold disklog_put_char; by rewrite (proj2 (Z.eqb_neq _ _) E')).
    destruct (IH (mk_dctx (dc_buffer dc ++ [c]) (dc_input dc))) as (I1 & I2 & I3); cbn [dc_buffer dc_input].
    + unfold DISKLOG_BUFFER in *. lia.
    + done.
    + split; [|done]. rewrite I1. cbn [dc_input dc_buffer]. by rewrite <- !app_assoc.
Qed.

Lemma disklog_format_complete nbuf fmt ap out n : _IO_Vprintf nbuf fmt ap = Done (out, n) ->
  exists ks, disklog_format nbuf fmt ap = Done (ks, n) /\ concat ks = out /\ Forall (fun b => 0 < len b <= DISKLOG_BUFFER) ks.
Proof.
  intros H. unfold disklog_format. rewrite H. cbn [obind fst snd].
  destruct (disklog_chunks out (mk_dctx [] [])) as (I1 & I2 & I3); [done|constructor|]. cbn [dc_input dc_buffer concat app] in I1.
  set (dc := foldl _ _ _) in *. pose proof (len_nonneg (dc_buffer dc)). eexists. split; [done|].
  rewrite Z.gtb_ltb. destruct (Z.ltb_spec 0 (len (dc_buffer dc))).
  - rewrite concat_app. cbn [concat]. rewrite app_nil_r. split; [done|]. apply Forall_app. split; [done|]. constructor; [lia|constructor].
  - split; [|done]. destruct (dc_buffer dc); [by rewrite app_nil_r in I1|]. rewrite len_cons in *. pose proof (len_nonneg l). lia.
Qed.

(** The queue printer has no buffer: its first character is written to NULL. *)
Lemma cqueue_no_buffer buffer c l : foldl cqueue_put_char (queue_format_init (mk_qctx None 0 0 0) true buffer 64) (c :: l) = Undef.
Proof. cbn. induction l as [|x l IH]; [done|]. exact IH. Qed.

(** With one, the tail runs out of the ring: after seven characters in a ring of
    four it is 4, an index the head never has. *)
Lemma cqueue_tail_leaves : exists b, foldl cqueue_put_char (Done (mk_qctx (Some [0; 0; 0; 0]) 0 0 4)) [1; 2; 3; 4; 5; 6; 7] = Done (mk_qctx (Some b) 3 4 4).
Proof. eexists. vm_compute. reflexivity. Qed.
End Printf.
