(* ===== verification/Log.v ===== *)
(** * lib/printer.c, lib/printer.h, log.h, os/posix and os/win32/os_platform.cc : messages

    A printer is a formatter with its context; the two global printers are the
    default one and the one of the disk log.  A message of a level that the
    file enables goes through the formatter of its printer: to the console, to
    the queue, or in pieces to the disk log.  [npr_disk_appends]: a message to
    the disk log appends its text, whatever it was before. *)
From Stdlib Require Import ZArith Lia Bool.
From stdpp Require Import base list numbers gmap.
From S2P Require Import Prelude Disk BlkCache BlkCacheOk Partition PartitionOk DiskLog DiskLogOk ObjPool CstdFs Printf.
Import Disk Partition PartitionOk DiskLog LogOk.

Module Log.

Definition LOGLEVEL_EMERG : Z := 0.
Definition LOGLEVEL_ERR : Z := 1.
Definition LOGLEVEL_WARNING : Z := 2.
Definition LOGLEVEL_NOTICE : Z := 3.
Definition LOGLEVEL_INFO : Z := 4.
Definition LOGLEVEL_DEBUG : Z := 5.

(** The functions a printer can have. *)
Inductive formatter := stdio_format | cqueue_format | disklog_format | printk_format.
(** [struct printer]; the context is NULL or [queue_context]. *)
Record printer := mk_printer { pr_format : option formatter; pr_context : bool }.

Section Messages.
Context {S : Type} `{ByteStore S} (t : ptable).
(** [vprintf] of the C library and [vprintk] of Zephyr: the text and the
    result. *)
Context (vprintf : list Z -> list Printf.varg -> list Z * Z).

(** [__log_default_printer], [__log_disk_printer], [queue_context], what the
    console got, and the disk log. *)
Record logs := mk_logs {
  __log_default_printer : option printer; __log_disk_printer : option printer;
  queue : Printf.queue_context; console : list Z; disk : dstate (S := S) }.

Definition set_default p (g : logs) : logs := mk_logs p (__log_disk_printer g) (queue g) (console g) (disk g).
Definition set_disk_printer p (g : logs) : logs := mk_logs (__log_default_printer g) p (queue g) (console g) (disk g).
Definition set_queue q (g : logs) : logs := mk_logs (__log_default_printer g) (__log_disk_printer g) q (console g) (disk g).
Definition set_console l (g : logs) : logs := mk_logs (__log_default_printer g) (__log_disk_printer g) (queue g) l (disk g).
Definition set_disk x (g : logs) : logs := mk_logs (__log_default_printer g) (__log_disk_printer g) (queue g) (console g) x.

(** ** Initialisation *)

(** [disklog_format_init (pr)]; [blksz] as in [disklog_init], whose result is
    not looked at. *)
Definition disklog_format_init (blksz : Z) (g : logs) : outcome (printer * logs) :=
  let* r := disklog_init t blksz (disk g) in Done (mk_printer (Some disklog_format) false, set_disk r.2 g).

Definition printf_format_init : printer := mk_printer (Some stdio_format) false.

Definition queue_format_init (buffer : list Z) (size : Z) (g : logs) : outcome (printer * logs) :=
  let* q := Printf.queue_format_init (queue g) true buffer size in
  Done (mk_printer (Some cqueue_format) true, set_queue q g).

Definition printable (pr : option printer) : bool := match pr with Some p => bool_decide (is_Some (pr_format p)) | None => false end.

Definition pr_log_init (pr : option printer) (g : logs) : Z * logs :=
  if printable pr then (0, set_default pr g) else (-1, g).
Definition pr_disklog_init (pr : option printer) (g : logs) : Z * logs :=
  if printable pr then (0, set_disk_printer pr g) else (-1, g).

(** The initialisers of os/posix/os_platform.cc and os/win32/os_platform.cc;
    the arguments of the last are those of [cstd_fs_init]. *)
Definition platform_log (g : logs) : Z * logs := (0, (pr_log_init (Some printf_format_init) g).2).
Definition posix_platform (blksz : Z) (g : logs) : outcome (Z * logs) :=
  let* r := disklog_format_init blksz g in Done (0, (pr_disklog_init (Some r.1) r.2).2).
Definition win32_platform (ptr start sizeof_file : Z) (g : logs) (s : ObjPool.vfs (W := CstdFs.host)) : Z * logs * ObjPool.vfs :=
  let g := (pr_log_init (Some printf_format_init) g).2 in (0, g, (CstdFs.cstd_fs_init ptr start sizeof_file s).2).

(** ** A message *)

(** The calls of [disklog_input]; nobody looks at the results. *)
Fixpoint disklog_inputs (ks : list (list Z)) (x : dstate (S := S)) : outcome dstate :=
  match ks with
  | [] => Done x
  | k :: ks => let* r := disklog_input t (Some k) x in disklog_inputs ks r.2
  end.

(** [printer->format (printer->context, fmt, ap)]; [nbuf] is the buffer of the
    interpreter on the stack. *)
Definition format_with (f : formatter) (context : bool) (nbuf fmt : list Z) (ap : list Printf.varg) (g : logs) : outcome (Z * logs) :=
  match f with
  | stdio_format => let r := vprintf fmt ap in Done (r.2, set_console (console g ++ r.1) g)
  | printk_format => let r := vprintf fmt ap in Done (0, set_console (console g ++ r.1) g)
  | cqueue_format =>
      guard* context in
      let* r := Printf.cqueue_format (queue g) nbuf (Some fmt) ap in Done (r.1, set_queue r.2 g)
  | disklog_format =>
      let* r := Printf.disklog_format nbuf (Some fmt) ap in
      let* x := disklog_inputs r.1 (disk g) in Done (r.2, set_disk x g)
  end.

Definition virt_format (pr : option printer) (nbuf fmt : list Z) (ap : list Printf.varg) (g : logs) : outcome (Z * logs) :=
  match pr with
  | Some p => match pr_format p with Some f => format_with f (pr_context p) nbuf fmt ap g | None => Undef end
  | None => Undef
  end.

(** [CONFIG_LOGLEVEL] and the text that [pr_fmt] puts in front, of the file. *)
Context (CONFIG_LOGLEVEL : Z) (pr_fmt : list Z).

Definition __pr_generic (pr : option printer) (level : Z) (nbuf fmt : list Z) (ap : list Printf.varg) (g : logs) : outcome (Z * logs) :=
  if CONFIG_LOGLEVEL >=? level then virt_format pr nbuf (pr_fmt ++ fmt) ap g else Done (0, g).

(** [pr_xxx (fmt, ...)], and [npr_xxx (disk, fmt, ...)] *)
Definition pr_emerg nbuf fmt ap g := __pr_generic (__log_default_printer g) LOGLEVEL_EMERG nbuf fmt ap g.
Definition pr_err nbuf fmt ap g := __pr_generic (__log_default_printer g) LOGLEVEL_ERR nbuf fmt ap g.
Definition pr_warn nbuf fmt ap g := __pr_generic (__log_default_printer g) LOGLEVEL_WARNING nbuf fmt ap g.
Definition pr_notice nbuf fmt ap g := __pr_generic (__log_default_printer g) LOGLEVEL_NOTICE nbuf fmt ap g.
Definition pr_info nbuf fmt ap g := __pr_generic (__log_default_printer g) LOGLEVEL_INFO nbuf fmt ap g.
Definition pr_dbg nbuf fmt ap g := __pr_generic (__log_default_printer g) LOGLEVEL_DEBUG nbuf fmt ap g.
Definition npr_emerg nbuf fmt ap g := __pr_generic (__log_disk_printer g) LOGLEVEL_EMERG nbuf fmt ap g.
Definition npr_err nbuf fmt ap g := __pr_generic (__log_disk_printer g) LOGLEVEL_ERR nbuf fmt ap g.
Definition npr_warn nbuf fmt ap g := __pr_generic (__log_disk_printer g) LOGLEVEL_WARNING nbuf fmt ap g.
Definition npr_notice nbuf fmt ap g := __pr_generic (__log_disk_printer g) LOGLEVEL_NOTICE nbuf fmt ap g.
Definition npr_info nbuf fmt ap g := __pr_generic (__log_disk_printer g) LOGLEVEL_INFO nbuf fmt ap g.
Definition npr_dbg nbuf fmt ap g := __pr_generic (__log_disk_printer g) LOGLEVEL_DEBUG nbuf fmt ap g.

(** A level that the file does not enable does nothing, whatever the printer. *)
Lemma level_disabled pr level nbuf fmt ap g : CONFIG_LOGLEVEL < level -> __pr_generic pr level nbuf fmt ap g = Done (0, g).
Proof. intros Hl. unfold __pr_generic. destruct (Z.geb_spec CONFIG_LOGLEVEL level); [lia|done]. Qed.

(** A printer without a function is refused and changes nothing. *)
Lemma init_refused pr g : printable pr = false -> pr_log_init pr g = (-1, g) /\ pr_disklog_init pr g = (-1, g).
Proof. intros E. unfold pr_log_init, pr_disklog_init. by rewrite E. Qed.

(** Inputs that succeed are those that nobody looks at. *)
Lemma inputs_unchecked ks x y : inputs t ks x = Done y -> disklog_inputs ks x = Done y.
Proof.
  revert x. induction ks as [|k ks IH]; intros x; [done|]. cbn [inputs disklog_inputs]. intros (r & -> & E)%obind_done. cbn [obind].
  destruct (r.1 =? 0); [by apply IH|done].
Qed.

(** ** A message to the disk log *)

Section ToDisk.
Context (i : nat) (d : Z) (p : disk_partition) (Hp : placed t i d p) (Hlen : dp_len p < 2 ^ 32).

(** The disk log holds [L], on a store that stands for [V]; its header is the
    one in memory. *)
Definition disk_holds (g : logs) (V : Z -> list Z) (L : list Z) : Prop :=
  log_state i d p (disk g) V L /\ slice (pview d p V) 0 SIZEOF_DISK_LOG = encode (log_file (disk g)) /\
  len L <= lg_size (log_file (disk g)).

(** A message of an enabled level to the disk appends its text to the log,
    which keeps its last bytes, and answers the length of the text; the other
    printers, the console and the other partitions stay as they are. *)
Lemma npr_disk_appends pr level nbuf fmt items ap ap' out g V L :
  pr = Some (mk_printer (Some disklog_format) false) -> level <= CONFIG_LOGLEVEL ->
  len nbuf = Printf.MAXNBUF -> pr_fmt ++ fmt = concat (Printf.show_item <$> items) -> Forall Printf.item_ok items ->
  Printf.eval items ap = Some (out, ap') -> len out < 2 ^ 31 -> bytes out -> disk_holds g V L ->
  exists x V', __pr_generic pr level nbuf fmt ap g = Done (len out, set_disk x g) /\
    disk_holds (set_disk x g) V' (lastn (lg_size (log_file (disk g))) (L ++ out)) /\ elsewhere t d p V V' /\
    lg_size (log_file x) = lg_size (log_file (disk g)).
Proof.
  intros -> Hl Hn Hf Hit He Ho Hb (HL & Hh & Hs). unfold __pr_generic. destruct (Z.geb_spec CONFIG_LOGLEVEL level); [|lia].
  rewrite Hf. cbn [virt_format pr_format pr_context format_with].
  destruct (Printf.disklog_format_complete nbuf _ ap out (len out) (Printf.items_print nbuf items ap ap' out Hn Hit He Ho))
    as (ks & -> & Ek & Hks). cbn [obind fst snd].
  destruct (inputs_ok t i d p ks (disk g) V L Hp Hlen) as (x & V' & E & HL' & Hel & Hh' & Hsz); [|done..|].
  { rewrite Forall_forall in Hks. apply Forall_forall. intros b Hin. split; [|specialize (Hks b Hin); unfold Printf.DISKLOG_BUFFER in Hks; lia].
    subst out. apply Forall_forall. intros z Hz. unfold bytes in Hb. rewrite Forall_forall in Hb. apply Hb.
    apply list_elem_of_In, in_concat. exists b. by rewrite <- !list_elem_of_In. }
  rewrite (inputs_unchecked _ _ _ E), Ek in *. cbn [obind]. exists x, V'. split; [done|]. split; [|done].
  split; [done|]. split; [done|]. cbn [disk set_disk]. rewrite Hsz. apply len_lastn.
  destruct HL as (_ & _ & h & Hok & _). pose proof (lo_size _ _ _ _ Hok). lia.
Qed.

(** A message that the file lets through, and its text. *)
Definition message : Type := Z * list Z * list Z * list Printf.varg.
Record message_ok (m : message) (text : list Z) : Prop := {
  mo_level : m.1.1.1 <= CONFIG_LOGLEVEL;
  mo_nbuf : len m.1.1.2 = Printf.MAXNBUF;
  mo_text : exists items ap', pr_fmt ++ m.1.2 = concat (Printf.show_item <$> items) /\ Forall Printf.item_ok items /\
    Printf.eval items m.2 = Some (text, ap');
  mo_len : len text < 2 ^ 31;
  mo_bytes : bytes text }.

(** Messages to the disk, one after another; their results. *)
Fixpoint npr_all (ms : list message) (g : logs) : outcome (list Z * logs) :=
  match ms with
  | [] => Done ([], g)
  | (level, nbuf, fmt, ap) :: ms =>
      let* r := __pr_generic (__log_disk_printer g) level nbuf fmt ap g in
      let* s := npr_all ms r.2 in Done (r.1 :: s.1, s.2)
  end.

Lemma npr_all_ok ms texts g V L :
  Forall2 message_ok ms texts -> __log_disk_printer g = Some (mk_printer (Some disklog_format) false) -> disk_holds g V L ->
  exists x V', npr_all ms g = Done (len <$> texts, set_disk x g) /\
    disk_holds (set_disk x g) V' (lastn (lg_size (log_file (disk g))) (L ++ concat texts)) /\ elsewhere t d p V V'.
Proof.
  intros Hm. revert g V L. induction Hm as [|[[[level nbuf] fmt] ap] text ms texts [H1 H2 (items & ap' & H3 & H4 & H5) H6 H7] _ IH]; intros g V L Hg Hd.
  { exists (disk g), V. destruct Hd as (HL & Hh & Hs). cbn [concat]. rewrite app_nil_r, lastn_all by done.
    split; [by destruct g|]. split; [done|apply elsewhere_refl]. }
  cbn [fst snd] in *. cbn [npr_all].
  destruct (npr_disk_appends _ level nbuf fmt items ap ap' text g V L Hg H1 H2 H3 H4 H5 H6 H7 Hd) as (x & V1 & -> & Hd1 & Hel1 & Es).
  cbn [obind fst snd]. destruct (IH (set_disk x g) V1 _ Hg Hd1) as (y & V2 & -> & Hd2 & Hel2). cbn [obind fst snd disk set_disk] in *.
  exists y, V2. split; [done|]. split; [|by eapply elsewhere_trans]. rewrite Es in Hd2. cbn [concat].
  rewrite app_assoc. rewrite lastn_lastn_app in Hd2; [done|].
  destruct Hd as ((_ & _ & h & Hok & _) & _). pose proof (lo_size _ _ _ _ Hok). lia.
Qed.
End ToDisk.
End Messages.
End Log.
