(* ===== verification/DevStats.v ===== *)
(** * lib/block/blkdev-stats.c, blkdev-blkstats.c, dev/blkdev.c : statistics

    What the statistics of the two block caches print: a message is its format
    with its arguments, which Printf and Log turn into text. *)
From Stdlib Require Import ZArith Lia Bool String.
From stdpp Require Import base list gmap numbers strings.
From S2P Require Import Prelude BdbufAvl BdbufState Bdbuf BdbufStep BdbufSwap BdbufInv BdbufSafe BdbufData BdbufInit Blkdev BlkCache Printf.
Import Avl BdState Bdbuf Step Swap.

Module DevStats.

Abbreviation str := Printf.str.
(** A format and its arguments. *)
Definition message : Type := list Z * list Printf.varg.

Definition line (s : string) : list Z := str s ++ [10].

(** The formats of the lines with a number; the rule above and below. *)
Definition labels : list string :=
  [" MEDIA BLOCK SIZE     | "; " MEDIA BLOCK COUNT    | "; " BLOCK SIZE           | "; " READ HITS            | ";
   " READ MISSES          | "; " READ AHEAD TRANSFERS | "; " READ AHEAD PEEKS     | "; " READ BLOCKS          | ";
   " READ ERRORS          | "; " WRITE TRANSFERS      | "; " WRITE BLOCKS         | "; " WRITE ERRORS         | "]%string.
Definition rule : list Z := line "----------------------+--------------------------------------------------------".
Definition title : list Z :=
  line "-------------------------------------------------------------------------------" ++
  line "                               DEVICE STATISTICS" ++ rule.

(** [rtems_blkdev_print_stats]; PRIu32 is "u". *)
Definition rtems_blkdev_print_stats (s : stats) (media_block_size media_block_count block_size : Z) : message :=
  (title ++ concat ((fun l => str l ++ line "%u") <$> labels) ++ rule,
   Printf.VInt <$> [media_block_size; media_block_count; block_size; read_hits s; read_misses s; read_ahead_transfers s;
     read_ahead_peeks s; read_blocks s; read_errors s; write_transfers s; write_blocks s; write_errors s]).

Section Blkstats.
Context (bdbuf_config : bdbuf_config) (strerror : Z -> list Z).

Definition error_message (what : string) (errno : Z) : message :=
  (str what ++ line "%s", [Printf.VStr (Some (strerror errno))]).

Definition out_int (o : blkio_out) (before : Z) : Z := match o with OutInt z => z | _ => before end.

(** [rtems_blkstats (printer, device, reset)]: the messages to the printer;
    [errno] is its value before, which [rtems_blkdev_open] does not change. *)
Definition rtems_blkstats (me : nat) (device : option string) (reset : bool) (errno : Z)
    (disk_list : list Blkdev.disk_device_context) : M (list message) :=
  match Blkdev.rtems_blkdev_open device true disk_list with
  | (0, Some dd) =>
      if reset then
        r ← rtems_blkdev_ioctl bdbuf_config me dd RESETDEVSTATS;
        mret (if negb (r.1.1 =? 0) then [error_message "error: reset stats: " r.1.2] else [])
      else
        mbs ← rtems_blkdev_ioctl bdbuf_config me dd GETMEDIABLKSIZE;
        mbc ← rtems_blkdev_ioctl bdbuf_config me dd GETSIZE;
        bs ← rtems_blkdev_ioctl bdbuf_config me dd GETBLKSIZE;
        r ← rtems_blkdev_ioctl bdbuf_config me dd GETDEVSTATS;
        match r.2 with
        | OutStats s => mret [rtems_blkdev_print_stats s (out_int mbs.2 0) (out_int mbc.2 0) (out_int bs.2 0)]
        | _ => mret [error_message "error: get stats: " r.1.2]
        end
  | _ => mret [error_message "error: open device: " errno]
  end.

(** ** What is printed *)

(** The lines with the counters of a device. *)
Definition counters (d : disk) : list Z :=
  let s := dd_stats d in
  [media_block_size d; dd_size d; block_size d; read_hits s; read_misses s; read_ahead_transfers s;
   read_ahead_peeks s; read_blocks s; read_errors s; write_transfers s; write_blocks s; write_errors s].
Definition stats_text (vs : list Z) : list Z :=
  title ++ concat (zip_with (fun l v => str l ++ Printf.digits false 10 v ++ [10]) labels vs) ++ rule.

Definition unsigned : Printf.item :=
  Printf.Dir (Printf.mk_dir false false false false Printf.SNone Printf.SNone Printf.LNone Printf.CUns).

Lemma eval_lits l items ap out ap' : Printf.eval items ap = Some (out, ap') ->
  Printf.eval ((Printf.Lit <$> l) ++ items) ap = Some (l ++ out, ap').
Proof. intros E. induction l as [|c l IH]; cbn [fmap list_fmap app Printf.eval Printf.eval_item]; [done|]. cbn. rewrite IH. done. Qed.

(** A number without flags and width. *)
Lemma plain_field ds : Printf.number_field false false 0 0 [] ds = ds.
Proof.
  pose proof (len_nonneg ds). unfold Printf.number_field, Printf.fill. cbn [andb]. rewrite Z.max_l by lia.
  change (Z.to_nat 0) with 0%nat. cbn [replicate app]. by rewrite Z2Nat.nonpos by lia.
Qed.

Lemma eval_unsigned v items ap out ap' : 0 <= v < 2 ^ 32 -> Printf.eval items ap = Some (out, ap') ->
  Printf.eval (unsigned :: items) (Printf.VInt v :: ap) = Some (Printf.digits false 10 v ++ out, ap').
Proof.
  intros Hv E. assert (u32 (s32 v) = v) as Hu by (unfold swrap, wrap; rewrite Zminus_mod_idemp_l, Z.add_simpl_r; by apply Z.mod_small).
  assert (Printf.eval_item unsigned (Printf.VInt v :: ap) = Some (Printf.number_field false false 0 0 [] (Printf.digits false 10 (u32 (s32 v))), ap)) as E1 by done.
  cbn [Printf.eval]. rewrite E1, plain_field, Hu. cbn [mbind option_bind fst snd]. by rewrite E.
Qed.

(** The items of the format. *)
Definition row_items (l : string) : list Printf.item := (Printf.Lit <$> str l) ++ [unsigned] ++ (Printf.Lit <$> [10]).
Definition stats_items : list Printf.item := (Printf.Lit <$> title) ++ concat (row_items <$> labels) ++ (Printf.Lit <$> rule).

Lemma eval_rows ls vs items ap out ap' : length vs = length ls -> Forall (fun v => 0 <= v < 2 ^ 32) vs ->
  Printf.eval items ap = Some (out, ap') ->
  Printf.eval (concat (row_items <$> ls) ++ items) ((Printf.VInt <$> vs) ++ ap) =
    Some (concat (zip_with (fun l v => str l ++ Printf.digits false 10 v ++ [10]) ls vs) ++ out, ap').
Proof.
  intros Hl Hv E. revert vs Hl Hv. induction ls as [|l ls IH]; intros [|v vs] Hl Hv; try done.
  apply Forall_cons in Hv as [Hv0 Hv]. cbn [concat fmap list_fmap zip_with]. unfold row_items at 1. rewrite <- !app_assoc.
  apply eval_lits. cbn [app]. apply eval_unsigned; [done|]. apply (eval_lits [10]). apply IH; [cbn in Hl; lia|done].
Qed.

Lemma len_digits base v : len (Printf.digits false base v) <= 64.
Proof.
  unfold Printf.digits, len. rewrite length_fmap, length_reverse.
  assert (forall fuel n, (length (Printf.to_base fuel base n) <= fuel)%nat) as H; [|specialize (H 64%nat v); lia].
  induction fuel as [|fuel IH]; intros n; cbn [Printf.to_base length]; [lia|].
  destruct (n / base =? 0); cbn [length]; [lia|]. specialize (IH (n / base)). lia.
Qed.

Definition plain (c : Z) : bool := negb (c =? 0) && negb (c =? 37).

Lemma lits_ok l : forallb plain l = true -> Forall Printf.item_ok (Printf.Lit <$> l).
Proof.
  induction l as [|c l IH]; cbn [forallb fmap list_fmap]; [constructor|]. intros [Hc Hl]%andb_true_iff. constructor; [|by apply IH].
  unfold plain in Hc. apply andb_true_iff in Hc as [H1%negb_true_iff%Z.eqb_neq H2%negb_true_iff%Z.eqb_neq]. done.
Qed.

Lemma stats_items_ok : Forall Printf.item_ok stats_items.
Proof.
  unfold stats_items. apply Forall_app. split; [by apply lits_ok; vm_compute|]. apply Forall_app. split; [|by apply lits_ok; vm_compute].
  assert (Forall (fun l => forallb plain (str l) = true) labels) as Hl by (repeat (constructor; [by vm_compute|]); constructor).
  induction Hl as [|l ls Hl _ IH]; cbn [fmap list_fmap concat]; [constructor|]. apply Forall_app. split; [|done].
  unfold row_items. apply Forall_app. split; [by apply lits_ok|]. apply Forall_app. split; [by repeat constructor|by apply lits_ok].
Qed.

Lemma len_rows ls vs : Forall (fun l => len (str l) = 24) ls ->
  len (concat (zip_with (fun l v => str l ++ Printf.digits false 10 v ++ [10]) ls vs)) <= 89 * Z.of_nat (length ls).
Proof.
  intros Hl. revert vs. induction Hl as [|l ls Hl _ IH]; intros [|v vs]; cbn [zip_with concat length]; try (change (len (@nil Z)) with 0; lia).
  rewrite !len_app, Hl. pose proof (len_digits 10 v). specialize (IH vs). change (len [10]) with 1. lia.
Qed.

Lemma stats_text_short d : len (stats_text (counters d)) < 2 ^ 31.
Proof.
  unfold stats_text. rewrite !len_app.
  assert (Forall (fun l => len (str l) = 24) labels) as Hl by (repeat (constructor; [by vm_compute|]); constructor).
  pose proof (len_rows labels (counters d) Hl) as H. change (Z.of_nat (length labels)) with 12 in H.
  assert (len title + len rule <= 400) by (vm_compute; congruence). lia.
Qed.

(** The text of a device: its three sizes and nine counters in decimal, one in
    a line behind its label, whatever the counters are. *)
Lemma blkstats_text me name errno disk_list dd d nbuf c o :
  Blkdev.rtems_blkdev_open (Some name) true disk_list = (0, Some dd) -> disks c !! dd = Some d ->
  Forall (fun v => 0 <= v < 2 ^ 32) (counters d) -> len nbuf = Printf.MAXNBUF ->
  exists m, rtems_blkstats me (Some name) false errno disk_list c o = Ret [m] c o /\
    Printf._IO_Vprintf nbuf (Some m.1) m.2 = Done (stats_text (counters d), len (stats_text (counters d))).
Proof.
  intros Ho Hd Hv Hn. eexists. split.
  - assert (get_disk dd c o = Ret d c o) as Eg by (unfold get_disk, get_cache, mbind, M_bind, from_option_M; by rewrite Hd).
    unfold rtems_blkstats. rewrite Ho. unfold rtems_blkdev_ioctl, rtems_bdbuf_get_device_stats, mbind, M_bind, mret, M_ret. repeat (rewrite Eg; cbn [fst snd out_int]). reflexivity.
  - cbn [fst snd rtems_blkdev_print_stats out_int].
    assert (title ++ concat ((fun l => str l ++ line "%u") <$> labels) ++ rule = concat (Printf.show_item <$> stats_items)) as ->
      by (vm_compute; reflexivity).
    apply (Printf.items_print nbuf stats_items _ []); [done| | |].
    + exact stats_items_ok.
    + unfold stats_items, stats_text. apply eval_lits.
      rewrite <- (app_nil_r (Printf.VInt <$> _)). apply eval_rows; [done|exact Hv|].
      rewrite <- (app_nil_r rule) at 2. rewrite <- (app_nil_r (Printf.Lit <$> rule)). by apply eval_lits.
    + exact (stats_text_short d).
Qed.
End Blkstats.

(** ** dev/blkdev.c *)

(** [blkdev_print]: the messages of level notice; [long] has 64 bits. *)
Definition blkdev_print {F} (c : BlkCache.bcache F) : outcome (list message) :=
  let hits := BlkCache.cache_hits c in let missed := BlkCache.cache_missed c in
  guard* (hits * 100 <? 2 ^ 63) && (hits + missed <? 2 ^ 63) && negb (hits + missed =? 0) in
  Done [([10] ++ line "=========== Block Device Statistics ==========", []);
        (line "Cache Hits: %ld" ++ line "Cache Missed: %ld" ++ line "Cache Hit-Rate: %ld%%" ++ [10],
         [Printf.VLong hits; Printf.VLong missed; Printf.VLong (Z.quot (hits * 100) (hits + missed))])].

(** Before the first access it divides by 0. *)
Lemma blkdev_print_unused {F} (c : BlkCache.bcache F) : BlkCache.cache_hits c = 0 -> BlkCache.cache_missed c = 0 -> blkdev_print c = Undef.
Proof. intros E1 E2. unfold blkdev_print. by rewrite E1, E2. Qed.

(** The rate is the share of the hits, rounded down. *)
Lemma blkdev_print_rate {F} (c : BlkCache.bcache F) : let h := BlkCache.cache_hits c in let m := BlkCache.cache_missed c in
  0 <= h -> 0 <= m -> 0 < h + m < 2 ^ 56 ->
  exists msg rate, blkdev_print c = Done [msg; (line "Cache Hits: %ld" ++ line "Cache Missed: %ld" ++ line "Cache Hit-Rate: %ld%%" ++ [10],
      [Printf.VLong h; Printf.VLong m; Printf.VLong rate])] /\
    0 <= rate <= 100 /\ rate * (h + m) <= 100 * h < (rate + 1) * (h + m).
Proof.
  intros h m Hh Hm Hs. unfold blkdev_print. fold h m.
  rewrite (proj2 (Z.ltb_lt (h * 100) _)), (proj2 (Z.ltb_lt (h + m) _)), (proj2 (Z.eqb_neq (h + m) 0)) by lia. cbn [andb negb].
  eexists _, _. split; [done|]. rewrite Z.quot_div_nonneg by lia.
  pose proof (Z.div_mod (h * 100) (h + m) ltac:(lia)). pose proof (Z.mod_pos_bound (h * 100) (h + m) ltac:(lia)). nia.
Qed.
End DevStats.
