(* ===== verification/ZephyrPlatform.v ===== *)
(** * os/zephyr/os_platform.c : the platform of the Zephyr build

    The heap, the flash chips as disk devices, the area for the partitions, and
    what runs at start.  Zephyr's heap, flash drivers, devices and table of
    partitions are arguments of the model.  [messages_survive_reboot] puts the
    parts of the development together: the start brings the block cache, the
    partitions and the disk log up, and messages are in the log after the next
    start. *)
From Stdlib Require Import ZArith Lia Bool String Ascii.
From stdpp Require Import base list numbers gmap.
From S2P Require Import Prelude Disk BlkCache BlkCacheOk Partition PartitionOk DiskLog DiskLogOk Printf Log.
Import Disk BlkCache CacheOk Partition PartitionOk DiskLog LogOk Log.

Module ZephyrPlatform.

(** ** The heap *)

Section Heap.
Context {H : Type}.

(** [k_heap_aligned_alloc] without waiting, [k_heap_free] and
    [sys_heap_aligned_realloc]; an address is 0 for NULL. *)
Record heap_api := mk_api {
  k_heap_aligned_alloc : Z -> Z -> H -> Z * H;
  k_heap_free : Z -> H -> H;
  sys_heap_aligned_realloc : Z -> Z -> Z -> H -> Z * H }.
Context (api : heap_api).

(** The heap and the bytes of [mem_buffer]. *)
Record heap := mk_heap { h_heap : H; h_mem : gmap Z Z }.

Definition SIZEOF_PTR : Z := 8.

Definition memset0 (ptr n : Z) (m : gmap Z Z) : outcome (gmap Z Z) :=
  let block := (fun k => ptr + k) <$> seqZ 0 n in
  guard* forallb (fun a => bool_decide (is_Some (m !! a))) block in
  Done (foldr (fun a m => <[a := 0]> m) m block).

Definition __general_aligned_alloc (alignment size : Z) (h : heap) : outcome (Z * heap) :=
  let r := k_heap_aligned_alloc api alignment size (h_heap h) in
  assert* negb (r.1 =? 0) in Done (r.1, mk_heap r.2 (h_mem h)).

Definition __general_malloc (size : Z) (h : heap) : outcome (Z * heap) :=
  let r := k_heap_aligned_alloc api SIZEOF_PTR size (h_heap h) in
  assert* negb (r.1 =? 0) in Done (r.1, mk_heap r.2 (h_mem h)).

(** The product of the sizes wraps. *)
Definition __general_calloc (n size : Z) (h : heap) : outcome (Z * heap) :=
  let alloc_size := u64 (n * size) in
  let r := k_heap_aligned_alloc api SIZEOF_PTR alloc_size (h_heap h) in
  assert* negb (r.1 =? 0) in
  let* m := memset0 r.1 alloc_size (h_mem h) in Done (r.1, mk_heap r.2 m).

Definition __general_free (ptr : Z) (h : heap) : heap := mk_heap (k_heap_free api ptr (h_heap h)) (h_mem h).

Definition __general_realloc (ptr size : Z) (h : heap) : Z * heap :=
  let r := sys_heap_aligned_realloc api ptr SIZEOF_PTR size (h_heap h) in (r.1, mk_heap r.2 (h_mem h)).

(** The functions for debugging print in front; [print] stands for the
    message. *)
Definition __general_aligned_alloc_debug (print : Z -> heap -> heap) (alignment size : Z) (h : heap) : outcome (Z * heap) :=
  __general_aligned_alloc alignment size (print size h).
Definition __general_malloc_debug (print : Z -> heap -> heap) (size : Z) (h : heap) : outcome (Z * heap) :=
  __general_malloc size (print size h).
Definition __general_calloc_debug (print : Z -> heap -> heap) (n size : Z) (h : heap) : outcome (Z * heap) :=
  __general_calloc n size (print (u64 (n * size)) h).
Definition __general_realloc_debug (print : Z -> heap -> heap) (ptr size : Z) (h : heap) : Z * heap :=
  __general_realloc ptr size (print size h).

Lemma foldr_zero (block : list Z) (m : gmap Z Z) a :
  foldr (fun a m => <[a := 0]> m) m block !! a = if decide (a ∈ block) then Some 0 else m !! a.
Proof.
  induction block as [|b block IH]; cbn [foldr]; [by rewrite decide_False by apply not_elem_of_nil|].
  destruct (decide (a = b)) as [->|Hne].
  - rewrite lookup_insert_eq. by rewrite decide_True by left.
  - rewrite lookup_insert_ne by done. rewrite IH. destruct (decide (a ∈ block)); [by rewrite decide_True by (by right)|].
    rewrite decide_False; [done|]. rewrite elem_of_cons. tauto.
Qed.

(** A block that lies in [mem_buffer] is cleared, and nothing else changes; the
    block has the size of the wrapped product. *)
Lemma calloc_ok n size h p s :
  k_heap_aligned_alloc api SIZEOF_PTR (u64 (n * size)) (h_heap h) = (p, s) -> p <> 0 ->
  (forall k, 0 <= k < u64 (n * size) -> is_Some (h_mem h !! (p + k))) ->
  exists m, __general_calloc n size h = Done (p, mk_heap s m) /\
    (forall k, 0 <= k < u64 (n * size) -> m !! (p + k) = Some 0) /\
    (forall a, a < p \/ p + u64 (n * size) <= a -> m !! a = h_mem h !! a).
Proof.
  intros E Hp Hm. unfold __general_calloc. rewrite E. cbn [fst snd]. rewrite (proj2 (Z.eqb_neq _ _) Hp). cbn [negb].
  unfold memset0. set (block := _ <$> _).
  assert (forall a, a ∈ block <-> p <= a < p + u64 (n * size)) as Hblk.
  { intros a. unfold block. rewrite list_elem_of_fmap. setoid_rewrite elem_of_seqZ.
    split; [intros (k & -> & ?); lia|intros ?; exists (a - p); lia]. }
  assert (forallb (fun a => bool_decide (is_Some (h_mem h !! a))) block = true) as ->.
  { apply forallb_forall. intros a Ha%list_elem_of_In. apply bool_decide_eq_true.
    apply Hblk in Ha. replace a with (p + (a - p)) by lia. apply Hm. lia. }
  cbn [obind]. eexists. split; [done|]. split; intros; rewrite foldr_zero.
  - rewrite decide_True; [done|]. apply Hblk. lia.
  - rewrite decide_False; [done|]. rewrite Hblk. lia.
Qed.

(** The number of bytes is not checked: an array that does not fit in the
    address space gets the rest of its size. *)
Lemma calloc_wraps n size h : 0 <= size -> __general_calloc (n + 2 ^ 64) size h = __general_calloc n size h.
Proof.
  intros. unfold __general_calloc, u64, wrap. by rewrite Z.mul_add_distr_r, (Z.mul_comm (2 ^ 64)), Z_mod_plus_full.
Qed.

(** Some blocks of one size can be had. *)
Fixpoint heap_room (k : nat) (size : Z) (h : heap) : Prop :=
  match k with
  | O => True
  | Datatypes.S k => exists p h', __general_calloc 1 size h = Done (p, h') /\ heap_room k size h'
  end.
End Heap.
Arguments heap : clear implicits.
Arguments heap_api : clear implicits.

(** ** The crash information *)

Definition CRSI_MAGIC : Z := 0x5abcdefa.
Definition CONFIG_KDUMP_SIZE : Z := 4096.

Section Platform.
Context {F H : Type} (heap_fns : heap_api H).

(** [struct crsi_key], which keeps its value over a restart. *)
Record crsi_key := mk_crsi { magic : Z; kdump : list Z }.

(** [crsi_get_key ()]: the printer gets no use. *)
Definition crsi_get_key (k : crsi_key) (q : Printf.queue_context) : outcome (crsi_key * Printf.queue_context) :=
  if negb (magic k =? CRSI_MAGIC) then
    let k := mk_crsi CRSI_MAGIC (kdump k) in
    let* q := Printf.queue_format_init q true (kdump k) CONFIG_KDUMP_SIZE in Done (k, q)
  else Done (k, q).

(** ** The flash chips

    Zephyr's functions of a flash device, by the address of the device. *)
Record flash_api := mk_flash {
  flash_read : Z -> Z -> Z -> F -> Z * list Z;      (* device, offset, size *)
  flash_write : Z -> Z -> list Z -> F -> Z * F;     (* device, offset, bytes *)
  flash_erase : Z -> Z -> Z -> F -> Z * F }.
Context (flash : flash_api).

(** [struct device]: the name, and what [page_layout] of its driver gives:
    [pages_count] and [pages_size]; [None] when the driver has no such function. *)
Record device := mk_device { name : string; page_layout : option (Z * Z) }.
Context (device_at : Z -> device) (device_get_binding : string -> option Z).

(** The names of the configuration. *)
Context (CONFIG_SPI_FLASH_NAME CONFIG_SPI_FLASH_1_NAME CONFIG_SPI_FLASH_2_NAME : string).

Definition platform_flash_getname (dev : Z) : string := name (device_at dev).
Definition platform_flash_read (dd size offset : Z) (f : F) : Z * list Z := flash_read flash dd offset size f.
Definition platform_flash_write (dd : Z) (buf : list Z) (offset : Z) (f : F) : Z * F := flash_write flash dd offset buf f.
Definition platform_flash_erase (dd offset size : Z) (f : F) : Z * F := flash_erase flash dd offset size f.
Definition platform_flash_ioctl (cmd : Z) : Z := - ENOSYS.

(** The functions of the devices for Disk. *)
#[local] Instance platform_driver : Driver F :=
  {| drv_read := fun dd f size ofs => platform_flash_read dd size ofs f;
     drv_write := fun dd f buf ofs => platform_flash_write dd buf ofs f;
     drv_erase := fun dd f ofs size => platform_flash_erase dd ofs size f |}.

Definition devnames : list string := [CONFIG_SPI_FLASH_NAME; CONFIG_SPI_FLASH_1_NAME; CONFIG_SPI_FLASH_2_NAME].
Context (SIZEOF_DISK_DEVICE : Z).

(** The structure that is filled in for a device. *)
Definition flash_disk (zdev : Z) (layout : Z * Z) : disk_device :=
  mk_disk_device (platform_flash_getname zdev) (Some zdev) 0 (u64 (layout.1 * layout.2)) layout.2
    true true true true (Some platform_flash_ioctl).

(** The [for] of [platform_flash_init]; [bufs] and [timer] as in
    [disk_device_register]. *)
Fixpoint flash_loop (names : list string) (bufs : option (list (list Z))) (timer : Z)
    (h : heap H) (disk_list : list disk_device) (c : bcache F) : outcome (Z * heap H * list disk_device * bcache F) :=
  match names with
  | [] => Done (- EINVAL, h, disk_list, c)
  | n :: names =>
      match device_get_binding n with
      | None => flash_loop names bufs timer h disk_list c
      | Some zdev =>
          match page_layout (device_at zdev) with
          | None => Assert
          | Some layout =>
              let* a := __general_calloc heap_fns 1 SIZEOF_DISK_DEVICE h in
              if a.1 =? 0 then Done (- ENOMEM, a.2, disk_list, c)
              else
              let* r := disk_device_register (Some (flash_disk zdev layout)) bufs timer disk_list c in
              let err := r.1.1 in
              if negb (err =? 0) then Done (err, a.2, r.1.2, r.2)
              else flash_loop names bufs timer a.2 r.1.2 r.2
          end
      end
  end.

Definition platform_flash_init bufs timer h disk_list c := flash_loop devnames bufs timer h disk_list c.

(** ** The area of the partitions *)

(** [struct pt_arg] *)
Record pt_arg := mk_pt { pt_name : list Z; parent : option string; pt_offset : Z; pt_len : Z }.
Definition pt_0 : pt_arg := mk_pt (replicate 16 0) None 0 0.

(** STORAGE_ID_NOR, _DATA_NOR, _SD, _NAND of Zephyr's header. *)
Record storage_ids := mk_ids { STORAGE_ID_NOR : Z; STORAGE_ID_DATA_NOR : Z; STORAGE_ID_SD : Z; STORAGE_ID_NAND : Z }.
Context (ids : storage_ids).

(** [strcmp (name, "USER")] is 0, and the bytes of the string. *)
Definition USER : list Z := Printf.str "USER" ++ [0].
Definition is_user (name : list Z) : bool := bool_decide (take 5 name = USER).

(** The arguments of a call of the iterator: the memory from [name] on, the
    offset, the size and the storage. *)
Abbreviation entry := (list Z * Z * Z * Z)%type.

(** The [switch] over [storage_id]. *)
Definition storage_name (storage_id : Z) : option string :=
  if storage_id =? STORAGE_ID_NOR ids then Some CONFIG_SPI_FLASH_NAME
  else if storage_id =? STORAGE_ID_DATA_NOR ids then Some CONFIG_SPI_FLASH_2_NAME
  else if storage_id =? STORAGE_ID_SD ids then Some "sd"%string
  else if storage_id =? STORAGE_ID_NAND ids then Some "spinand"%string
  else None.

(** [partition_iterator (name, ofs, size, storage_id, arg)]; eight bytes are
    copied, three more than the name has. *)
Definition partition_iterator (e : entry) (pt : pt_arg) : outcome pt_arg :=
  let '(name, ofs, size, storage_id) := e in
  if negb (is_user name) then Done pt
  else let* n := mem_read name 0 8 in Done (mk_pt (n ++ [0] ++ drop 9 (pt_name pt)) (storage_name storage_id) ofs size).

(** [partition_iterate] calls the iterator with every entry of the table. *)
Fixpoint partition_iterate (entries : list entry) (pt : pt_arg) : outcome pt_arg :=
  match entries with
  | [] => Done pt
  | e :: entries => let* pt := partition_iterator e pt in partition_iterate entries pt
  end.

(** [disk_device_open]: the devices are numbered from the first one
    registered, which is the last of the list. *)
Fixpoint open_index (n : string) (disk_list : list disk_device) : option Z :=
  match disk_list with
  | [] => None
  | pd :: l => if String.eqb (dd_name pd) n then Some (Z.of_nat (Datatypes.S (length l))) else open_index n l
  end.

Definition platform_partition_init (entries : list entry) (disk_list : list disk_device) (mem : bool)
    (conf : list disk_partition) (t : ptable) : outcome (Z * list disk_partition * ptable) :=
  let* pt := partition_iterate entries pt_0 in
  match parent pt with
  | None => Done (- EINVAL, conf, t)
  | Some parent => partitions_configure_build (fun n => open_index n disk_list) conf (pt_offset pt) (pt_len pt) parent mem t
  end.

(** ** The start *)

(** The devices there are, in the order they are registered; a pointer to one
    is its number. *)
Definition disk_of (zdev : Z) : option disk_device := flash_disk zdev <$> page_layout (device_at zdev).
Definition zdevs : list Z := omap device_get_binding devnames.
Definition no_device : disk_device := mk_disk_device "" None 0 0 0 false false false false None.
Definition devs (d : Z) : disk_device :=
  if 0 <? d then default no_device (zdev ← zdevs !! Z.to_nat (d - 1); disk_of zdev) else no_device.

(** What the static variables of the parts are when [os_platform_init] is
    done; the block cache is under the disk log. *)
Record platform := mk_platform {
  p_heap : heap H; p_disks : list disk_device; p_conf : list disk_partition; p_table : ptable;
  p_logs : logs (S := bcache F) }.

(** [log_printer], the default printer from the early start on. *)
Definition log_printer : printer := mk_printer (Some printk_format) false.

Definition os_early_platform_init (k : crsi_key) (g : logs (S := bcache F)) : outcome (Z * crsi_key * logs) :=
  let g := (pr_log_init (Some log_printer) g).2 in
  let* r := crsi_get_key k (queue g) in Done (0, r.1, set_queue r.2 g).

(** The block size of the device of the log's partition. *)
Definition syslog_block (t : ptable) : Z :=
  match disk_partition_find t "syslog" with
  | Done (Some part) => match disk_device_find_by_part t part with Done d => dd_blk_size (devs d) | _ => 0 end
  | _ => 0
  end.

(** [os_platform_init], with the block cache as a store of bytes; only the
    start of the log can fail an assertion, the other results are not looked
    at. *)
Definition os_platform_init {BS : ByteStore (bcache F)} (bufs : option (list (list Z))) (timer : Z) (mem : bool)
    (entries : list entry) (conf : list disk_partition) (f : F) (h : heap H) (g : logs (S := bcache F)) : outcome (Z * platform) :=
  let* r := platform_flash_init bufs timer h [] (bcache_0 f) in
  let '(_, h, disks, c) := r in
  let* r := platform_partition_init entries disks mem conf (mk_ptable None []) in
  let '(_, conf, t) := r in
  let* r := disklog_format_init t (syslog_block t) (set_disk (fresh c) g) in
  let g := (pr_disklog_init (Some r.1) r.2).2 in
  Done (0, mk_platform h disks conf t g).

(** *** The area *)

Lemma iterate_app l1 l2 pt : partition_iterate (l1 ++ l2) pt = let* pt := partition_iterate l1 pt in partition_iterate l2 pt.
Proof.
  revert pt. induction l1 as [|e l1 IH]; intros pt; cbn [partition_iterate app obind]; [done|].
  destruct (partition_iterator e pt); cbn [obind]; [apply IH|done|done].
Qed.

Definition e_name (e : entry) : list Z := e.1.1.1.

(** The last entry of the name "USER" decides. *)
Lemma iterate_last l1 nm ofs size id l2 pt :
  Forall (fun e => is_user (e_name e) = true -> 8 <= len (e_name e)) l1 -> Forall (fun e => is_user (e_name e) = false) l2 ->
  is_user nm = true -> 8 <= len nm ->
  exists b, partition_iterate (l1 ++ (nm, ofs, size, id) :: l2) pt = Done (mk_pt b (storage_name id) ofs size).
Proof.
  intros H1 H2 Hu Hl. rewrite iterate_app.
  assert (exists pt1, partition_iterate l1 pt = Done pt1) as (pt1 & ->).
  { revert pt. induction l1 as [|[[[n o] z] i] l1 IH]; intros pt; [by eexists|]. apply Forall_cons in H1 as [Hn H1].
    cbn [partition_iterate partition_iterator]. cbn [e_name fst] in Hn. destruct (is_user n); cbn [negb].
    - rewrite mem_read_ok by (specialize (Hn eq_refl); lia). cbn [obind]. by apply IH.
    - cbn [obind]. by apply IH. }
  cbn [obind partition_iterate partition_iterator]. rewrite Hu. cbn [negb]. rewrite mem_read_ok by lia. cbn [obind].
  eexists. induction l2 as [|[[[n o] z] i] l2 IH]; [done|]. apply Forall_cons in H2 as [Hn H2].
  cbn [partition_iterate partition_iterator]. cbn [e_name fst] in Hn. rewrite Hn. cbn [negb obind]. by apply IH.
Qed.

(** Without such an entry there is no partition, and the start fails the
    assertion of the log. *)
Lemma iterate_none l pt : Forall (fun e => is_user (e_name e) = false) l -> partition_iterate l pt = Done pt.
Proof.
  intros Hl. induction Hl as [|[[[n o] z] i] l Hn _ IH]; [done|].
  cbn [partition_iterate partition_iterator]. cbn [e_name fst] in Hn. rewrite Hn. cbn [negb obind]. exact IH.
Qed.

Lemma no_user_area {BS : ByteStore (bcache F)} bufs timer mem entries conf f h g r :
  Forall (fun e => is_user (e_name e) = false) entries -> platform_flash_init bufs timer h [] (bcache_0 f) = Done r ->
  platform_partition_init entries r.1.2 mem conf (mk_ptable None []) = Done (- EINVAL, conf, mk_ptable None []) /\
  os_platform_init bufs timer mem entries conf f h g = Assert.
Proof.
  intros Hl Er. destruct r as [[[err h'] disks] c]. cbn [fst snd].
  assert (platform_partition_init entries disks mem conf (mk_ptable None []) = Done (- EINVAL, conf, mk_ptable None [])) as E
    by (unfold platform_partition_init; by rewrite iterate_none).
  split; [done|]. unfold os_platform_init. rewrite Er. cbn [obind]. rewrite E. done.
Qed.

(** *** The devices *)

Section Boot.
Context {HF : Flash F}.

(** A flash chip that the block cache can use. *)
Definition chip_ok (zdev : Z) : Prop :=
  exists count size k, page_layout (device_at zdev) = Some (count, size) /\ 0 <= k /\ size = 2 ^ k /\
    size <= CONFIG_BLKDEV_MAX_BLKSZ /\ 0 < count /\ count * size <= 2 ^ 32 /\ (fl_unit zdev | size).

(** The configured names differ, a device is found under its own name, and the
    chips there are can be used. *)
Context (Hnames : NoDup devnames) (Hbind : forall n z, device_get_binding n = Some z -> name (device_at z) = n)
  (Hchips : Forall chip_ok zdevs).

Lemma chip_disk z : z ∈ zdevs -> exists count size k, disk_of z = Some (flash_disk z (count, size)) /\
  page_layout (device_at z) = Some (count, size) /\ 0 <= k /\ size = 2 ^ k /\ size <= CONFIG_BLKDEV_MAX_BLKSZ /\
  0 < count /\ 0 < size /\ count * size <= 2 ^ 32 /\ u64 (count * size) = count * size /\ (fl_unit z | size).
Proof.
  rewrite Forall_forall in Hchips. intros (count & size & k & E & Hk & Es & Hm & Hc & Hl & Hu)%Hchips.
  assert (0 < size) by (subst size; by apply Z.pow_pos_nonneg).
  exists count, size, k. unfold disk_of. rewrite E. do 8 (split; [done|]). split; [|done]. apply wrap_small. split; [nia|lia].
Qed.

Lemma devs_lookup i z : zdevs !! i = Some z -> devs (Z.of_nat (Datatypes.S i)) = default no_device (disk_of z).
Proof.
  intros E. unfold devs. rewrite (proj2 (Z.ltb_lt 0 _)) by lia.
  replace (Z.to_nat (Z.of_nat (Datatypes.S i) - 1)) with i by lia. by rewrite E.
Qed.

Lemma devs_ok i z : zdevs !! i = Some z -> dev_ok devs (Z.of_nat (Datatypes.S i)) /\ handle (devs (Z.of_nat (Datatypes.S i))) = z.
Proof.
  intros E. destruct (chip_disk z) as (count & size & k & Ed & _ & Hk & Es & Hm & Hc & Hs & Hl & Hw & Hu); [by eapply list_elem_of_lookup_2|].
  rewrite (devs_lookup i z E), Ed. cbn [default from_option Datatypes.id]. split; [|done].
  split; rewrite ?(devs_lookup i z E), ?Ed; cbn [default from_option Datatypes.id flash_disk dd_blk_size dd_len dd_read dd_write dd_erase fst snd handle dd_dev]; try done; try lia.
  - by exists k.
  - rewrite Hw. apply Z.divide_factor_r.
Qed.

Lemma devs_inv d : dev_ok devs d -> exists i z, d = Z.of_nat (Datatypes.S i) /\ zdevs !! i = Some z.
Proof.
  intros Hok. pose proof (ok_len _ _ Hok) as Hl. unfold devs in Hl. destruct (Z.ltb_spec 0 d); [|cbn in Hl; lia].
  destruct (zdevs !! Z.to_nat (d - 1)) as [z|] eqn:E; [|cbn in Hl; lia]. exists (Z.to_nat (d - 1)), z. split; [lia|done].
Qed.

(** The names of the devices are the configured ones they were found under. *)
Lemma names_found names : NoDup names -> NoDup (platform_flash_getname <$> omap device_get_binding names) /\
  forall n, n ∈ platform_flash_getname <$> omap device_get_binding names -> n ∈ names.
Proof.
  induction 1 as [|n names Hn _ (IH1 & IH2)]; cbn; [split; [constructor|done]|].
  destruct (device_get_binding n) as [z|] eqn:E; cbn.
  - assert (platform_flash_getname z = n) as -> by (by apply Hbind).
    split; [constructor; [|done]; intros ?; by apply Hn, IH2|]. intros n' [->|Hn']%elem_of_cons; [by left|right; by apply IH2].
  - split; [done|]. intros n' Hn'. right. by apply IH2.
Qed.

Lemma zdevs_names : NoDup (platform_flash_getname <$> zdevs).
Proof. by apply names_found. Qed.
Lemma zdevs_nodup : NoDup zdevs.
Proof. apply NoDup_fmap_1 with (f := platform_flash_getname), zdevs_names. Qed.

Lemma distinct : distinct_chips devs.
Proof.
  intros d d' (i & z & -> & E)%devs_inv (i' & z' & -> & E')%devs_inv.
  destruct (devs_ok i z E) as [_ ->], (devs_ok i' z' E') as [_ ->]. intros <-.
  f_equal. f_equal. by eapply NoDup_lookup; [apply zdevs_nodup| |].
Qed.

(** The list of devices, the last one first. *)
Definition disks (zs : list Z) : list disk_device := reverse ((fun z => default no_device (disk_of z)) <$> zs).

Lemma disk_name z : z ∈ zdevs -> dd_name (default no_device (disk_of z)) = platform_flash_getname z.
Proof. intros (count & size & k & -> & _)%chip_disk. done. Qed.

Lemma open_index_ok i z : zdevs !! i = Some z -> open_index (platform_flash_getname z) (disks zdevs) = Some (Z.of_nat (Datatypes.S i)).
Proof.
  assert (forall z, z ∈ zdevs -> dd_name (default no_device (disk_of z)) = platform_flash_getname z) as Hname by apply disk_name.
  pose proof zdevs_names as Hnd. revert i Hname Hnd. generalize zdevs. clear. intros zs. induction zs as [|y zs IH] using rev_ind; [done|].
  intros i Hname Hnd Hi. unfold disks. rewrite fmap_app, reverse_app. cbn [fmap list_fmap reverse rev_append app open_index].
  rewrite Hname by (apply elem_of_app; right; by left). rewrite fmap_app in Hnd. apply NoDup_app in Hnd as (Hnd & Hno & _).
  assert (length (reverse ((fun z => default no_device (disk_of z)) <$> zs)) = length zs) as El by (by rewrite length_reverse, length_fmap).
  apply lookup_snoc_Some in Hi as [[Hlt Hi]|[-> <-]].
  - destruct (String.eqb_spec (platform_flash_getname y) (platform_flash_getname z)) as [E|E].
    + destruct (Hno (platform_flash_getname z)); [apply list_elem_of_fmap_2; by eapply list_elem_of_lookup_2|]. rewrite <- E. by left.
    + apply IH; [|done|done]. intros x Hx. apply Hname, elem_of_app. by left.
  - rewrite String.eqb_refl. cbn. by rewrite El.
Qed.

(** *** The flash chips *)

Lemma disk_valid z : z ∈ zdevs -> disk_device_valid (default no_device (disk_of z)) = true.
Proof.
  intros (count & size & k & -> & _ & Hk & Es & Hm & Hc & Hs & Hl & Hw & _)%chip_disk. unfold disk_device_valid, CONFIG_BLKDEV_MAX_BLKSZ in *.
  cbn [default from_option Datatypes.id flash_disk dd_dev dd_len dd_blk_size dd_read dd_write dd_erase fst snd].
  rewrite Hw, (proj2 (Z.eqb_neq _ 0)) by nia. rewrite (wrap_small 64) by (split; lia). subst size.
  assert (2 ^ k - 1 = Z.ones k) as -> by (rewrite Z.ones_equiv; lia). rewrite Z.land_ones by done.
  rewrite Z_mod_same_full. done.
Qed.

(** Every device is registered, and the result is -EINVAL. *)
Lemma flash_loop_ok names bufs timer h l c c1 : omap device_get_binding names ⊆ zdevs ->
  heap_room heap_fns (length (omap device_get_binding names)) SIZEOF_DISK_DEVICE h ->
  blkdev_init (F := F) bufs timer c = Done (0, c1) -> blkdev_init bufs timer c1 = Done (0, c1) ->
  exists h', flash_loop names bufs timer h l c =
    Done (- EINVAL, h', disks (omap device_get_binding names) ++ l, if omap device_get_binding names is [] then c else c1).
Proof.
  revert h l c. induction names as [|n names IH]; intros h l c Hin Hr E E1; cbn [omap list_omap flash_loop] in *; [by exists h|].
  destruct (device_get_binding n) as [z|] eqn:Eb; cbn in Hin, Hr; [|by apply IH].
  assert (z ∈ zdevs) as Hz by (apply Hin; by left). destruct Hr as (p & h1 & Ea & Hr).
  pose proof (disk_valid z Hz) as Hv. destruct (chip_disk z Hz) as (count & size & k & Ed & El & _). rewrite El. unfold disks. cbn [omap list_omap fmap list_fmap].
  rewrite Ed in Hv. cbn [default from_option Datatypes.id] in Hv.
  rewrite Ea. cbn [obind fst snd].
  assert ((p =? 0) = false) as ->.
  { unfold __general_calloc in Ea. destruct (Z.eqb_spec (k_heap_aligned_alloc heap_fns SIZEOF_PTR (u64 (1 * SIZEOF_DISK_DEVICE)) (h_heap h)).1 0) as [|Hne]; [done|].
    cbn [negb] in Ea. apply obind_done in Ea as (m & _ & Ea). injection Ea as <- _. by apply Z.eqb_neq. }
  unfold disk_device_register at 1. rewrite Hv. cbn [negb]. rewrite E. cbn [obind fst snd Z.eqb negb].
  destruct (IH h1 (flash_disk z (count, size) :: l) c1) as (h' & ->); [intros x Hx; apply Hin; by right|done..|].
  exists h'. f_equal. f_equal. 2: { by destruct (omap _ _). }
  f_equal. rewrite Ed. cbn [default from_option Datatypes.id].
  unfold disks. rewrite reverse_cons, <- app_assoc. done.
Qed.
(** *** Start *)

Abbreviation cache_store := (blkdev_store devs distinct).

(** What the chips hold, by device. *)
Definition contents (f : F) (d : Z) : list Z := fl_content (handle (devs d)) f.
Definition chips_hold (f : F) : Prop := forall z, z ∈ zdevs ->
  len (fl_content z f) = dd_len (default no_device (disk_of z)) /\ bytes (fl_content z f).

Lemma flash_ok f h bufs : zdevs <> [] -> chips_hold f -> heap_room heap_fns (length zdevs) SIZEOF_DISK_DEVICE h ->
  length bufs = NR_BLKS -> Forall (fun m => len m = CONFIG_BLKDEV_MAX_BLKSZ /\ bytes m) bufs ->
  exists h' c, platform_flash_init (Some bufs) 0 h [] (bcache_0 f) = Done (- EINVAL, h', disks zdevs, c) /\
    binv devs [] false c (contents f).
Proof.
  intros Hne Hf Hh Hl Hb. destruct (blkdev_init_ok devs f bufs Hl Hb) as (c & E & HI).
  { intros d (i & z & -> & Ei)%devs_inv. destruct (devs_ok i z Ei) as [_ ->]. rewrite (devs_lookup i z Ei). apply Hf. by eapply list_elem_of_lookup_2. }
  destruct (flash_loop_ok devnames (Some bufs) 0 h [] (bcache_0 f) c) as (h' & Ef); [done|done|done|by injection E as <-|].
  unfold platform_flash_init. exists h', c. rewrite Ef, app_nil_r. split; [|done]. fold zdevs. by destruct zdevs.
Qed.

(** The last entry of the name "USER" is an area on the device [z] that has
    room for the partitions. *)
Record user_area (entries : list entry) (z base size : Z) : Prop := {
  ua_entry : exists l1 nm id l2 n, entries = l1 ++ (nm, base, size, id) :: l2 /\
    Forall (fun e => is_user (e_name e) = true -> 8 <= len (e_name e)) l1 /\ Forall (fun e => is_user (e_name e) = false) l2 /\
    is_user nm = true /\ 8 <= len nm /\ storage_name id = Some n /\ n ∈ devnames /\ device_get_binding n = Some z;
  ua_base : 0 <= base;
  ua_size : total partitions_configure <= size;
  ua_end : base + size < 2 ^ 31;
  ua_room : base + size <= dd_len (default no_device (disk_of z)) }.

(** What the configuration of the partitions comes to; the log is the third. *)
Record partitions_at (i : nat) (base : Z) (conf : list disk_partition) (t : ptable) (p : disk_partition) : Prop := {
  pa_conf : ((fun q => (dp_name q, dp_offset q, dp_len q)) <$> conf) =
    [("fireware_cur"%string, base, 4096); ("fireware"%string, base + 4096, 2097152);
     ("syslog"%string, base + 2101248, 16384); ("usrdata"%string, base + 2117632, 102400)];
  pa_table : partition_table t = Some conf;
  pa_find : disk_partition_find t "syslog" = Done (Some (Top 2));
  pa_placed : @placed _ cache_store t 2 (Z.of_nat (Datatypes.S i)) p;
  pa_offset : dp_offset p = base + 2101248;
  pa_len : dp_len p = 16384;
  pa_block : syslog_block t = dd_blk_size (devs (Z.of_nat (Datatypes.S i))) }.

Lemma user_device entries z base size : user_area entries z base size -> exists i, zdevs !! i = Some z.
Proof.
  intros [(l1 & nm & id & l2 & n & _ & _ & _ & _ & _ & _ & Hin & Hz) _ _ _ _].
  apply list_elem_of_lookup, list_elem_of_omap. by exists n.
Qed.

Lemma partitions_ok entries z base size i : user_area entries z base size -> zdevs !! i = Some z ->
  exists conf t p, platform_partition_init entries (disks zdevs) true partitions_configure (mk_ptable None []) = Done (0, conf, t) /\
    partitions_at i base conf t p.
Proof.
  intros [(l1 & nm & id & l2 & n & -> & Hl1 & Hl2 & Hu & H8 & Hs & Hin & Hz) Hb Ht He Hr] Hi.
  unfold platform_partition_init. destruct (iterate_last l1 nm base size id l2 pt_0 Hl1 Hl2 Hu H8) as (b & ->). cbn [obind parent pt_offset pt_len].
  rewrite Hs. set (d := Z.of_nat (Datatypes.S i)).
  assert (open_index n (disks zdevs) = Some d) as Hd by (rewrite <- (Hbind n z Hz); by apply open_index_ok).
  change (total partitions_configure) with 2220032 in Ht.
  pose proof (partitions_layout (fun n => open_index n (disks zdevs)) partitions_configure base size n d (mk_ptable None [])) as HP.
  change (total partitions_configure) with 2220032 in HP. rewrite (proj2 (Z.leb_le _ _) Ht) in HP.
  destruct HP as (conf & t & E & Et & Hl & HC & _); [done| |lia|lia|lia|done|done|].
  { repeat (constructor; [done|]). constructor. }
  destruct conf as [|p0 [|p1 [|p2 [|p3 [|]]]]]; try done.
  destruct (HC 0%nat p0 eq_refl) as (? & [= <-] & N0 & L0 & _ & C0 & O0 & _).
  destruct (HC 1%nat p1 eq_refl) as (? & [= <-] & N1 & L1 & _ & _ & O1 & _).
  destruct (HC 2%nat p2 eq_refl) as (? & [= <-] & N2 & L2 & _ & C2 & O2 & B2).
  destruct (HC 3%nat p3 eq_refl) as (? & [= <-] & N3 & L3 & _ & _ & O3 & _).
  cbn in N0, N1, N2, N3, L0, L1, L2, L3. unfold KB, MB, KB in *.
  change (base + total (take 0 partitions_configure)) with (base + 0) in O0.
  change (base + total (take 1 partitions_configure)) with (base + 4096) in O1.
  change (base + total (take 2 partitions_configure)) with (base + 2101248) in O2.
  change (base + total (take 3 partitions_configure)) with (base + 2117632) in O3.
  destruct (devs_ok i z Hi) as [Hok _]. fold d in Hok.
  assert (disk_partition_find t "syslog" = Done (Some (Top 2))) as Hf.
  { unfold disk_partition_find, partition_match, table. rewrite Et. cbn [default from_option Datatypes.id].
    change (strchr "syslog" "/"%char) with (@None nat). cbn [match_loop]. by rewrite N0, N1, N2. }
  assert (@placed _ cache_store t 2 d p2) as Hp.
  { split; [unfold table; by rewrite Et|]. split; [done|]. exists (dd_len (devs d)). split.
    - unfold blkdev_store. cbn [bs_size]. by rewrite decide_True.
    - unfold d. rewrite (devs_lookup i z Hi), O2, L2. lia. }
  exists [p0; p1; p2; p3], t, p2. split; [done|]. split; try done.
  - cbn [fmap list_fmap]. by rewrite N0, N1, N2, N3, O0, O1, O2, O3, L0, L1, L2, L3, Z.add_0_r.
  - unfold syslog_block. rewrite Hf. by rewrite (proj2 (placed_find t 2 d p2 Hp)).
Qed.
(** The start, when the log starts. *)
Lemma start_ok f h g bufs entries base conf t p i h' c x :
  platform_flash_init (Some bufs) 0 h [] (bcache_0 f) = Done (- EINVAL, h', disks zdevs, c) ->
  platform_partition_init entries (disks zdevs) true partitions_configure (mk_ptable None []) = Done (0, conf, t) ->
  partitions_at i base conf t p ->
  @disklog_init _ cache_store t (dd_blk_size (devs (Z.of_nat (Datatypes.S i)))) (fresh c) = Done (0, x) ->
  os_platform_init (BS := cache_store) (Some bufs) 0 true entries partitions_configure f h g =
    Done (0, mk_platform h' (disks zdevs) conf t (set_disk_printer (Some (mk_printer (Some disklog_format) false)) (set_disk x g))).
Proof.
  intros Ef Ep Ha Ed. unfold os_platform_init. rewrite Ef. cbn [obind]. rewrite Ep. cbn [obind].
  unfold disklog_format_init. rewrite (pa_block _ _ _ _ _ Ha). cbn [disk set_disk]. by rewrite Ed.
Qed.

Section Reboot.
Context (f : F) (entries : list entry) (z base size : Z) (Hua : user_area entries z base size).

Lemma area_block i : zdevs !! i = Some z ->
  let blk := dd_blk_size (devs (Z.of_nat (Datatypes.S i))) in blk = dd_blk_size (default no_device (disk_of z)) /\ 0 < blk <= CONFIG_BLKDEV_MAX_BLKSZ.
Proof.
  intros Hi blk. unfold blk. rewrite (devs_lookup i z Hi). split; [done|].
  destruct (chip_disk z) as (count & sz & k & -> & _ & _ & _ & Hm & _ & Hs & _); [by eapply list_elem_of_lookup_2|]. done.
Qed.

(** The chips after a sync hold what the cache stood for. *)
Lemma synced_hold c V : binv devs [] false c V -> dirty_list c = [] ->
  chips_hold (chips_of c) /\ forall i z', zdevs !! i = Some z' -> contents (chips_of c) (Z.of_nat (Datatypes.S i)) = V (Z.of_nat (Datatypes.S i)).
Proof.
  intros HI Hno. split.
  - intros z' [i Hi]%list_elem_of_lookup. destruct (devs_ok i z' Hi) as [Hok Hh].
    destruct (bi_data _ _ _ _ _ HI _ Hok) as (L & B & _). unfold data in L, B. rewrite Hh in L, B. by rewrite (devs_lookup i z' Hi) in L.
  - intros i z' Hi. destruct (devs_ok i z' Hi) as [Hok _]. by apply (clean_devices devs c V).
Qed.

(** C3: From the start of the Zephyr platform to the next one. With flash
    chips that the block cache can use, an entry "USER" in the table of
    partitions with room for the four partitions, and no log yet,
    [os_platform_init] registers the chips that are there, lays the partitions
    out from the offset of the entry one after another, and starts an empty
    disk log. Every message that is then sent to the disk with a level its
    file lets through answers the length of its text, and when the cache has
    been synchronised the machine can be restarted: [os_platform_init] on what
    the chips hold finds the same partitions, and the log gives back the last
    bytes of all the texts, as many as its ring has room for (16384 bytes less
    one block, in whole blocks), in order, in chunks of at most the size asked
    for. *)
Theorem messages_survive_reboot (h h2 : heap H) (g g2 : logs (S := bcache F)) (bufs bufs2 : list (list Z))
    (vprintf : list Z -> list Printf.varg -> list Z * Z) (CONFIG_LOGLEVEL : Z) (pr_fmt : list Z)
    (ms : list message) (texts : list (list Z)) (output : list Z -> bool) (maxsize : Z) :
  chips_hold f -> heap_room heap_fns (length zdevs) SIZEOF_DISK_DEVICE h -> heap_room heap_fns (length zdevs) SIZEOF_DISK_DEVICE h2 ->
  length bufs = NR_BLKS -> Forall (fun m => len m = CONFIG_BLKDEV_MAX_BLKSZ /\ bytes m) bufs ->
  length bufs2 = NR_BLKS -> Forall (fun m => len m = CONFIG_BLKDEV_MAX_BLKSZ /\ bytes m) bufs2 ->
  un_le32 (slice (fl_content z f) (base + 2101248) 4) <> DISKLOG_MAGIC ->
  SIZEOF_DISK_LOG <= dd_blk_size (default no_device (disk_of z)) ->
  Forall2 (message_ok CONFIG_LOGLEVEL pr_fmt) ms texts -> (forall l, output l = true) -> 0 < maxsize ->
  let blk := dd_blk_size (default no_device (disk_of z)) in
  exists P1 g1 c P2 chunks x,
    os_platform_init (BS := cache_store) (Some bufs) 0 true entries partitions_configure f h g = Done (0, P1) /\
    npr_all (H := cache_store) (p_table P1) vprintf CONFIG_LOGLEVEL pr_fmt ms (p_logs P1) = Done (len <$> texts, g1) /\
    blkdev_sync devs (store (disk g1)) = Done (0, c) /\
    os_platform_init (BS := cache_store) (Some bufs2) 0 true entries partitions_configure (chips_of c) h2 g2 = Done (0, P2) /\
    p_disks P1 = disks zdevs /\ p_disks P2 = disks zdevs /\
    ((fun q => (dp_name q, dp_offset q, dp_len q)) <$> p_conf P1) =
      [("fireware_cur"%string, base, 4096); ("fireware"%string, base + 4096, 2097152);
       ("syslog"%string, base + 2101248, 16384); ("usrdata"%string, base + 2117632, 102400)] /\
    p_conf P2 = p_conf P1 /\ p_table P2 = p_table P1 /\
    @disklog_ouput _ cache_store (p_table P2) (Some output) maxsize true (disk (p_logs P2)) = Done (0, chunks, x) /\
    concat chunks = lastn ((16384 - blk) / blk * blk) (concat texts) /\ Forall (fun k => 0 < len k <= maxsize) chunks.
Proof.
  intros Hf Hh Hh2 Hl Hb Hl2 Hb2 Hm Hs28 Hms Ho Hmax blk. destruct (user_device _ _ _ _ Hua) as [i Hi]. set (d := Z.of_nat (Datatypes.S i)).
  destruct (area_block i Hi) as [Eb Hbs]. fold d in Eb, Hbs. fold blk in Eb, Hs28. rewrite Eb in Hbs. unfold CONFIG_BLKDEV_MAX_BLKSZ in Hbs.
  assert (zdevs <> []) as Hne by (intros E; by rewrite E in Hi).
  destruct (partitions_ok entries z base size i Hua Hi) as (conf & t & p & Ep & Ha).
  destruct (flash_ok f h bufs Hne Hf Hh Hl Hb) as (h' & c0 & Ef & HI0).
  pose proof (pa_placed _ _ _ _ _ Ha) as Hp. fold d in Hp. pose proof (pa_len _ _ _ _ _ Ha) as Lp. pose proof (pa_offset _ _ _ _ _ Ha) as Op.
  pose proof (ua_base _ _ _ _ Hua) as Hb0.
  assert (dp_len p < 2 ^ 32) as Hp32 by (rewrite Lp; done).
  destruct (disklog_init_new (HS := cache_store) t 2 d p Hp Hp32 (fresh c0) (contents f) blk) as (x1 & V1 & E1 & HL1 & _ & Hh1 & Es1);
    [done|apply (pa_find _ _ _ _ _ Ha)|exact HI0| |done|lia|lia|].
  { unfold pview, contents, d. destruct (devs_ok i z Hi) as [_ ->]. rewrite Op. intros E. apply Hm. rewrite <- E. f_equal.
    unfold slice. rewrite Lp. rewrite skipn_O, take_take. done. }
  set (pr := Some (mk_printer (Some disklog_format) false)). set (g0 := set_disk_printer pr (set_disk x1 g)).
  destruct (npr_all_ok (H := cache_store) t vprintf CONFIG_LOGLEVEL pr_fmt 2 d p Hp Hp32 ms texts g0 V1 [] Hms eq_refl) as (x2 & V2 & E2 & Hd2 & _).
  { split; [exact HL1|]. split; [exact Hh1|]. cbn [disk set_disk set_disk_printer g0]. change (len []) with 0.
    destruct HL1 as (_ & _ & hh & Hok & _). pose proof (lo_size _ _ _ _ Hok). lia. }
  destruct Hd2 as (HL2 & Hh2' & _). cbn [disk set_disk set_disk_printer g0 app] in HL2, Hh2'. rewrite Es1, Lp in HL2.
  destruct HL2 as (Hdev2 & HR2 & HH2). change (binv devs [] false (store x2) V2) in HR2.
  destruct (blkdev_sync_ok devs distinct (store x2) V2 HR2) as (c3 & E3 & HI3 & Hno3).
  destruct (synced_hold c3 V2 HI3 Hno3) as [Hf3 Hc3].
  destruct (flash_ok (chips_of c3) h2 bufs2 Hne Hf3 Hh2 Hl2 Hb2) as (h4 & c4 & Ef4 & HI4).
  assert (pview d p (contents (chips_of c3)) = pview d p V2) as Epv by (unfold pview, d; by rewrite (Hc3 i z Hi)).
  destruct (disklog_init_ok (HS := cache_store) t 2 d p Hp Hp32 (fresh c4) (contents (chips_of c3))
    (lastn ((16384 - blk) / blk * blk) (concat texts)) (log_file x2) blk) as (x5 & E5 & HL5 & _);
    [done|apply (pa_find _ _ _ _ _ Ha)|exact HI4|by rewrite Epv|by rewrite Epv|].
  destruct (output_ok (HS := cache_store) t 2 d p Hp Hp32 x5 _ _ output maxsize HL5 Ho ltac:(lia)) as (chunks & s6 & E6 & _ & Ec & Hk).
  rewrite (proj2 (Z.eqb_neq maxsize 0)) in Hk by lia.
  eexists _, _, c3, _, chunks, _.
  split; [eapply (start_ok f h g bufs); [exact Ef|exact Ep|exact Ha|fold d; rewrite Eb; exact E1]|].
  split; [exact E2|]. split; [exact E3|].
  split; [eapply (start_ok (chips_of c3) h2 g2 bufs2); [exact Ef4|exact Ep|exact Ha|fold d; rewrite Eb; exact E5]|].
  split; [done|]. split; [done|]. split; [apply (pa_conf _ _ _ _ _ Ha)|]. split; [done|]. split; [done|]. split; [exact E6|]. done.
Qed.
End Reboot.
End Boot.
End Platform.

(** *** Witness: two chips of 4 MiB, and an area of 3 MiB *)

Definition heap_z : heap_api Z := mk_api (fun _ size h => (h, h + size)) (fun _ h => h) (fun _ _ _ h => (0, h)).
Definition heap_z0 : heap Z := mk_heap 4096 (list_to_map ((fun k => (4096 + k, 7)) <$> seqZ 0 128)).
Definition flash_z : flash_api (F := chips) :=
  mk_flash (fun dd ofs size f => drv_read dd f size ofs) (fun dd ofs buf f => drv_write dd f buf ofs) (fun dd ofs size f => drv_erase dd f ofs size).
Definition device_z (z : Z) : device := mk_device (if z =? 16 then "spi0" else "spi2") (Some (1024, 4096)).
Definition binding_z (n : string) : option Z := if String.eqb n "spi0" then Some 16 else if String.eqb n "spi2" then Some 32 else None.
Definition ids_z : storage_ids := mk_ids 0 1 2 3.
Definition flash_z_ok : @Flash chips (platform_driver flash_z) := nor_flash_ok.
Definition erased_z : list Z := replicate (Z.to_nat 4194304) 255.
Definition chips_z : chips := {[16 := erased_z; 32 := erased_z]}.
Definition entries_z : list (list Z * Z * Z * Z) :=
  [(Printf.str "BOOT" ++ [0], 0, 65536, 0); (Printf.str "USER" ++ [0; 1; 2; 3], 65536, 3145728, 0)].
Definition logs_z : logs (S := bcache chips) :=
  mk_logs None None (Printf.mk_qctx None 0 0 0) [] (fresh (bcache_0 chips_z)).

Lemma names_z : NoDup (devnames "spi0" "spi1" "spi2").
Proof. apply (bool_decide_unpack _). by vm_compute. Qed.

Lemma binding_z_ok n z : binding_z n = Some z -> name (device_z z) = n.
Proof. unfold binding_z. destruct (String.eqb_spec n "spi0") as [->|]; [by intros [= <-]|]. destruct (String.eqb_spec n "spi2") as [->|]; [by intros [= <-]|done]. Qed.

Lemma chips_z_ok : Forall (@chip_ok chips flash_z device_z flash_z_ok) (zdevs binding_z "spi0" "spi1" "spi2").
Proof.
  change (zdevs binding_z "spi0" "spi1" "spi2") with [16; 32].
  repeat constructor; (exists 1024, 4096, 12; do 6 (split; [done|]); exists 4096; done).
Qed.

Lemma area_z : user_area device_z binding_z "spi0" "spi1" "spi2" ids_z entries_z 16 65536 3145728.
Proof.
  split; [|vm_compute; congruence..].
  exists [(Printf.str "BOOT" ++ [0], 0, 65536, 0)], (Printf.str "USER" ++ [0; 1; 2; 3]), 0, [], "spi0"%string.
  split; [done|]. split; [by repeat constructor|]. split; [constructor|]. repeat (split; [done|]). split; [by left|done].
Qed.

Lemma content_z z : z = 16 \/ z = 32 -> @fl_content chips _ flash_z_ok z chips_z = erased_z.
Proof.
  intros Hz. change (@fl_content chips _ flash_z_ok z chips_z) with (chip z chips_z). unfold chip, chips_z.
  destruct Hz as [->| ->]; [by rewrite lookup_insert_eq|]. by rewrite lookup_insert_ne, lookup_singleton_eq.
Qed.

Lemma chips_z_hold : @chips_hold chips flash_z device_z binding_z "spi0" "spi1" "spi2" flash_z_ok chips_z.
Proof.
  unfold chips_hold. change (zdevs binding_z "spi0" "spi1" "spi2") with [16; 32].
  intros z Hz. assert (z = 16 \/ z = 32) as Hz' by (rewrite !elem_of_cons, elem_of_nil in Hz; tauto).
  rewrite (content_z z Hz'). split; [|by apply bytes_replicate].
  unfold erased_z, len. rewrite length_replicate, Z2Nat.id by done. by destruct Hz' as [->| ->].
Qed.

Lemma room_z : heap_room heap_z (length (zdevs binding_z "spi0" "spi1" "spi2")) 64 heap_z0.
Proof. repeat (eexists _, _; split; [vm_compute; reflexivity|]). exact I. Qed.

Lemma new_z : un_le32 (slice (@fl_content chips _ flash_z_ok 16 chips_z) (65536 + 2101248) 4) <> DISKLOG_MAGIC.
Proof.
  rewrite (content_z 16) by (by left). unfold erased_z, slice. rewrite drop_replicate, take_replicate.
  rewrite Nat.min_l by lia. by vm_compute.
Qed.

Abbreviation devs_z := (devs device_z binding_z "spi0" "spi1" "spi2").
Abbreviation store_z := (@blkdev_store chips _ flash_z_ok devs_z (@distinct chips flash_z device_z binding_z "spi0" "spi1" "spi2" flash_z_ok names_z binding_z_ok chips_z_ok)).
Abbreviation start_z f := (os_platform_init heap_z device_z binding_z "spi0" "spi1" "spi2" 64 ids_z (BS := store_z) (Some mem_1) 0 true entries_z partitions_configure f heap_z0 logs_z).

(** "n=%d", 7 of a file with the prefix "t: " *)
Definition message_z : message := (1, replicate 32 0, Printf.str "n=%d", [Printf.VInt 7]).
Lemma message_z_ok : message_ok 4 (Printf.str "t: ") message_z (Printf.str "t: n=7").
Proof.
  split; [done|by vm_compute| |done|repeat (constructor; [done|]); constructor].
  exists ((Printf.Lit <$> Printf.str "t: n=") ++ [Printf.Dir (Printf.mk_dir false false false false Printf.SNone Printf.SNone Printf.LNone Printf.CDec)]), [].
  split; [done|]. split; [|done]. repeat (constructor; [vm_compute; congruence|]). repeat constructor; vm_compute; congruence.
Qed.

Lemma messages_survive_reboot_witness :
  exists P1 g1 c P2 chunks x,
    start_z chips_z = Done (0, P1) /\
    npr_all (H := store_z) (p_table P1) (fun l _ => (l, 0)) 4 (Printf.str "t: ") [message_z; message_z] (p_logs P1) = Done ([6; 6], g1) /\
    blkdev_sync devs_z (store (disk g1)) = Done (0, c) /\ start_z (chips_of c) = Done (0, P2) /\
    @disklog_ouput _ store_z (p_table P2) (Some (fun _ => true)) 100 true (disk (p_logs P2)) = Done (0, chunks, x) /\
    concat chunks = Printf.str "t: n=7t: n=7".
Proof.
  destruct (@messages_survive_reboot chips Z heap_z flash_z device_z binding_z "spi0" "spi1" "spi2" 64 ids_z flash_z_ok
    names_z binding_z_ok chips_z_ok chips_z entries_z 16 65536 3145728 area_z heap_z0 heap_z0 logs_z logs_z mem_1 mem_1
    (fun l _ => (l, 0)) 4 (Printf.str "t: ") [message_z; message_z] [Printf.str "t: n=7"; Printf.str "t: n=7"] (fun _ => true) 100
    chips_z_hold room_z room_z (proj1 mem_1_ok) (proj2 mem_1_ok) (proj1 mem_1_ok) (proj2 mem_1_ok) new_z ltac:(vm_compute; congruence)
    ltac:(repeat constructor; apply message_z_ok) ltac:(done) ltac:(done))
    as (P1 & g1 & c & P2 & chunks & x & H1 & H2 & H3 & H4 & _ & _ & _ & _ & _ & H5 & H6 & _).
  exists P1, g1, c, P2, chunks, x. split; [exact H1|]. split; [exact H2|]. split; [exact H3|]. split; [exact H4|]. split; [exact H5|].
  rewrite H6. reflexivity.
Defined.
End ZephyrPlatform.
