(* ===== verification/Motor.v ===== *)
(** * drive/motor/motor.c : the vibration motor

    Two pins and a timer of one shot. The handler of the timer switches the
    motor off and on again until all pulses are done. The timer of the
    operating system is the period it is armed with, if any.  The code gives
    [os_timer_add] and [os_timer_del] the address of its handle where they
    take the handle; what the layer then does is a parameter. *)
From Stdlib Require Import ZArith Lia Bool.
From stdpp Require Import base list numbers gmap.
From S2P Require Import Prelude.

Module Motor.

(** [motor_vibration_mode_e]: the milliseconds of a pulse. *)
Inductive motor_vibration_mode_e := MOTOR_VIBRATION_MODE_DEFAULT | MOTOR_VIBRATION_MODE_WEAK | MOTOR_VIBRATION_MODE_STRONG.
Definition mode_value (m : motor_vibration_mode_e) : Z :=
  match m with MOTOR_VIBRATION_MODE_DEFAULT => 100 | MOTOR_VIBRATION_MODE_WEAK => 200 | MOTOR_VIBRATION_MODE_STRONG => 300 end.

Inductive pin := MOTOR_POWER_EN | MOTOR_GPIO_EN.

(** The static variables, the timer, and the calls of [gpio_if_state_set]. *)
Record motor := mk_motor {
  mode : motor_vibration_mode_e; times : Z; ss_flag : bool; timer : option Z; pins : list (pin * Z) }.

Definition set_pin (p : pin) (v : Z) (s : motor) : motor := mk_motor (mode s) (times s) (ss_flag s) (timer s) (pins s ++ [(p, v)]).
Definition set_times (n : Z) (s : motor) : motor := mk_motor (mode s) n (ss_flag s) (timer s) (pins s).
Definition set_flag (b : bool) (s : motor) : motor := mk_motor (mode s) (times s) b (timer s) (pins s).
Definition set_timer (t : option Z) (s : motor) : motor := mk_motor (mode s) (times s) (ss_flag s) t (pins s).

Definition motor_vibration_mode_set (m : motor_vibration_mode_e) (s : motor) : motor :=
  mk_motor m (times s) (ss_flag s) (timer s) (pins s).
Definition motor_vibration_mode_get (s : motor) : motor_vibration_mode_e := mode s.

(** What the code has for a timer: [motor_vibration_timer] or its address. *)
Inductive timer_ref := Handle | AddressOfHandle.

Section Layer.
(** Which of the two the layer below takes for the timer; with the other one
    it uses the static variables as if they were a timer. *)
Context (takes : timer_ref -> bool).

Definition os_timer_add (t : timer_ref) (ms : Z) (s : motor) : outcome motor :=
  guard* takes t in Done (set_timer (Some ms) s).
Definition os_timer_del (t : timer_ref) (s : motor) : outcome motor :=
  guard* takes t in Done (set_timer None s).

(** [motor_vibration_start (times)], a [uint8_t] *)
Definition motor_vibration_start (n : Z) (s : motor) : outcome motor :=
  let s := set_pin MOTOR_GPIO_EN 1 (set_pin MOTOR_POWER_EN 1 s) in
  os_timer_add AddressOfHandle (mode_value (mode s)) (set_times (u8 n) (set_flag true s)).

Definition motor_vibration_stop (s : motor) : outcome motor :=
  let* s := os_timer_del AddressOfHandle s in
  Done (set_times 0 (set_pin MOTOR_GPIO_EN 0 (set_pin MOTOR_POWER_EN 0 s))).

Definition motor_vibration_timer_handler (s : motor) : outcome motor :=
  let* s :=
    (if ss_flag s then
       let s := set_times (u8 (times s - 1)) (set_pin MOTOR_GPIO_EN 0 s) in
       if times s >? 0 then os_timer_add AddressOfHandle (mode_value (mode s)) s else Done (set_pin MOTOR_POWER_EN 0 s)
     else os_timer_add AddressOfHandle (mode_value (mode s)) (set_pin MOTOR_GPIO_EN 1 s)) in
  Done (set_flag (negb (ss_flag s)) s).

(** [os_timer_create] does take the address; the new timer is not armed. *)
Definition motor_init (s : motor) : motor := set_timer None (set_pin MOTOR_GPIO_EN 0 (set_pin MOTOR_POWER_EN 0 s)).

(** The timer expires: it is not armed any more, and the handler runs. *)
Definition expire (s : motor) : outcome motor := motor_vibration_timer_handler (set_timer None s).

(** Until the timer is not armed: the milliseconds that pass and the state;
    None when the fuel does not last. *)
Fixpoint run (fuel : nat) (ms : Z) (s : motor) : outcome (option (Z * motor)) :=
  match timer s with
  | None => Done (Some (ms, s))
  | Some t => match fuel with O => Done None | S fuel => let* s := expire s in run fuel (ms + t) s end
  end.

(** A layer that takes no addresses makes every use of the timer undefined. *)
Lemma motor_undefined n s : takes AddressOfHandle = false ->
  motor_vibration_start n s = Undef /\ motor_vibration_stop s = Undef.
Proof. intros H. unfold motor_vibration_start, motor_vibration_stop, os_timer_add, os_timer_del. by rewrite H. Qed.

(** What the pins are told for [n] pulses after the first edge. *)
Fixpoint pulses (n : nat) : list (pin * Z) :=
  match n with
  | O => []
  | S O => [(MOTOR_GPIO_EN, 0); (MOTOR_POWER_EN, 0)]
  | S n => [(MOTOR_GPIO_EN, 0); (MOTOR_GPIO_EN, 1)] ++ pulses n
  end.

(** With a layer that takes the address. *)
Context (Htakes : takes AddressOfHandle = true).

Lemma os_timer_add_ok ms s : os_timer_add AddressOfHandle ms s = Done (set_timer (Some ms) s).
Proof. unfold os_timer_add. by rewrite Htakes. Qed.

(** The two edges of a pulse. *)
Lemma expire_on m k t p : 1 < k <= 255 ->
  expire (mk_motor m k true t p) = Done (mk_motor m (k - 1) false (Some (mode_value m)) (p ++ [(MOTOR_GPIO_EN, 0)])).
Proof.
  intros Hk. unfold expire, motor_vibration_timer_handler, set_timer, set_pin, set_times, set_flag. cbn -[wrap].
  rewrite (wrap_small 8) by (split; lia). rewrite Z.gtb_ltb, (proj2 (Z.ltb_lt _ _)) by lia. by rewrite os_timer_add_ok.
Qed.

Lemma expire_last m t p :
  expire (mk_motor m 1 true t p) = Done (mk_motor m 0 false None (p ++ [(MOTOR_GPIO_EN, 0); (MOTOR_POWER_EN, 0)])).
Proof.
  unfold expire, motor_vibration_timer_handler, set_timer, set_pin, set_times, set_flag. cbn -[wrap].
  change (u8 0) with 0. cbn. by rewrite <- app_assoc.
Qed.

Lemma expire_off m k t p : expire (mk_motor m k false t p) = Done (mk_motor m k true (Some (mode_value m)) (p ++ [(MOTOR_GPIO_EN, 1)])).
Proof. unfold expire, motor_vibration_timer_handler. cbn [ss_flag set_timer]. by rewrite os_timer_add_ok. Qed.

Lemma run_armed fuel ms m k b p : run (S fuel) ms (mk_motor m k b (Some (mode_value m)) p)
  = let* s := expire (mk_motor m k b (Some (mode_value m)) p) in run fuel (ms + mode_value m) s.
Proof. done. Qed.

Lemma run_pulses n m p ms : (0 < n <= 255)%nat ->
  run (2 * n - 1) ms (mk_motor m (Z.of_nat n) true (Some (mode_value m)) p)
  = Done (Some (ms + mode_value m * (2 * Z.of_nat n - 1), mk_motor m 0 false None (p ++ pulses n))).
Proof.
  revert p ms. induction n as [|n IH]; intros p ms Hn; [lia|]. destruct n as [|n].
  - change (2 * 1 - 1)%nat with 1%nat. rewrite run_armed, expire_last. cbn [obind run timer pulses]. do 3 f_equal. lia.
  - replace (2 * S (S n) - 1)%nat with (S (S (2 * S n - 1))) by lia.
    rewrite run_armed, expire_on by lia. cbn [obind]. rewrite run_armed, expire_off. cbn [obind].
    replace (Z.of_nat (S (S n)) - 1) with (Z.of_nat (S n)) by lia.
    rewrite IH by lia. rewrite <- !app_assoc. do 3 f_equal. lia.
Qed.

(** [motor_vibration_start (n)] makes [n] pulses of the mode's length with
    pauses of the same length between them, then switches the motor off, and
    the timer rests; it does so from any state. *)
Lemma motor_pulses n s : (0 < n <= 255)%nat ->
  (let* s := motor_vibration_start (Z.of_nat n) s in run (2 * n - 1) 0 s)
  = Done (Some (mode_value (mode s) * (2 * Z.of_nat n - 1),
      mk_motor (mode s) 0 false None (pins s ++ [(MOTOR_POWER_EN, 1); (MOTOR_GPIO_EN, 1)] ++ pulses n))).
Proof.
  intros Hn. unfold motor_vibration_start. rewrite os_timer_add_ok. unfold set_timer, set_times, set_flag, set_pin.
  cbn [obind mode pins times ss_flag timer].
  rewrite (wrap_small 8) by (split; lia). rewrite run_pulses by done. by rewrite <- !app_assoc.
Qed.

(** No pulse at all is 256 pulses: the counter wraps. *)
Lemma motor_no_pulse s : exists s',
  (let* s := motor_vibration_start 0 s in run 511 0 s) = Done (Some (mode_value (mode s) * 511, s')).
Proof.
  unfold motor_vibration_start. rewrite os_timer_add_ok. unfold set_timer, set_times, set_flag, set_pin.
  cbn [obind mode pins times ss_flag timer]. change (u8 0) with 0.
  change 511%nat with (S (S 509)). rewrite run_armed.
  assert (forall m t p, expire (mk_motor m 0 true t p) = Done (mk_motor m 255 false (Some (mode_value m)) (p ++ [(MOTOR_GPIO_EN, 0)]))) as ->.
  { intros m t p. unfold expire, motor_vibration_timer_handler. cbn [ss_flag set_timer set_times times].
    change (u8 (0 - 1) >? 0) with true. by rewrite os_timer_add_ok. }
  cbn [obind]. rewrite run_armed, expire_off. eexists. cbn [obind].
  change 509%nat with (2 * 255 - 1)%nat. change 255 with (Z.of_nat 255). rewrite run_pulses by lia.
  do 3 f_equal. lia.
Qed.
End Layer.
End Motor.
