(* ===== verification/TimerList.v ===== *)
(** * lib/timer/timer_list.c : software timers on a delta list

    The list holds the pending timers in the order of their deadlines, each
    with the time that remains after the one before it.  [abs] gives the
    deadlines; the operations refine those of a queue sorted by deadline, the
    calls a timer's function makes included. *)
From Stdlib Require Import ZArith Lia Bool.
From stdpp Require Import base list numbers gmap sorting.
From S2P Require Import Prelude.

Module TimerList.

Inductive timer_state := TIMER_STATE_IDLE | TIMER_STATE_INSERT | TIMER_STATE_ACTIVED | TIMER_STATE_INVALID.
#[export] Instance timer_state_eq_dec : EqDecision timer_state.
Proof. solve_decision. Defined.

(** [struct timer_list] without the link and the function; timers are named
    by numbers. *)
Record timer := mk_timer { tm_expires : Z; tm_state : timer_state }.

Record timers := mk_timers {
  timer_list : list nat;
  objs : gmap nat timer }.

Definition timer_at (i : nat) (s : timers) : outcome timer :=
  match objs s !! i with Some t => Done t | None => Undef end.

Definition timer_first (s : timers) : option nat := head (timer_list s).

(** The [list_for_each] of [timer_add_locked]: what lies before the place, the
    rest, the delta there, and the timers with the delta behind it adjusted. *)
Fixpoint add_walk (l : list nat) (expires : Z) (m : gmap nat timer)
    : outcome (list nat * list nat * Z * gmap nat timer) :=
  match l with
  | [] => Done ([], [], expires, m)
  | j :: l' =>
      match m !! j with
      | None => Undef
      | Some t =>
          if expires <? tm_expires t
          then Done ([], l, expires, <[j := mk_timer (tm_expires t - expires) (tm_state t)]> m)
          else
            let* r := add_walk l' (expires - tm_expires t) m in
            Done (j :: r.1.1.1, r.1.1.2, r.1.2, r.2)
      end
  end.

Definition timer_add_locked (i : nat) (expires : Z) (s : timers) : outcome (Z * timers) :=
  let* t := timer_at i s in
  if negb (bool_decide (tm_state t = TIMER_STATE_IDLE)) then Done (- EBUSY, s)
  else
    let m := <[i := mk_timer (tm_expires t) TIMER_STATE_INSERT]> (objs s) in
    let* r := add_walk (timer_list s) expires m in
    let m := <[i := mk_timer r.1.2 TIMER_STATE_ACTIVED]> r.2 in
    Done (0, mk_timers (r.1.1.1 ++ i :: r.1.1.2) m).

(** The timer behind [i] on the list. *)
Fixpoint next_of (i : nat) (l : list nat) : option nat :=
  match l with
  | [] => None
  | j :: l' => if decide (j = i) then head l' else next_of i l'
  end.

Definition timer_remove_locked (i : nat) (s : timers) : outcome (Z * timers) :=
  let* t := timer_at i s in
  if bool_decide (tm_state t = TIMER_STATE_IDLE) then Done (0, s)
  else
    let* m := (match next_of i (timer_list s) with
               | None => Done (objs s)
               | Some j => let* n := timer_at j s in
                   Done (<[j := mk_timer (tm_expires n + tm_expires t) (tm_state n)]> (objs s))
               end) in
    Done (1, mk_timers (filter (fun j => j <> i) (timer_list s))
               (<[i := mk_timer (tm_expires t) TIMER_STATE_IDLE]> m)).

Definition timer_add (i : nat) (expires : Z) (s : timers) : outcome (Z * timers) := timer_add_locked i expires s.
Definition timer_del (i : nat) (s : timers) : outcome (Z * timers) := timer_remove_locked i s.
Definition timer_mod (i : nat) (expires : Z) (s : timers) : outcome (Z * timers) :=
  let* r := timer_remove_locked i s in timer_add_locked i expires r.2.
Definition timer_init (i : nat) (s : timers) : timers :=
  mk_timers (timer_list s) (<[i := mk_timer 0 TIMER_STATE_IDLE]> (objs s)).

(** [timer_visit]: the timers a visitor sees. *)
Definition timer_visit (visitor : bool) (s : timers) : Z * list nat :=
  if visitor then (0, timer_list s) else (- EINVAL, []).

(** The calls a timer's function makes; the list is not locked then. *)
Inductive top := TAdd (i : nat) (expires : Z) | TDel (i : nat) | TMod (i : nat) (expires : Z).

Definition tstep (op : top) (s : timers) : outcome (Z * timers) :=
  match op with
  | TAdd i e => timer_add i e s
  | TDel i => timer_del i s
  | TMod i e => timer_mod i e s
  end.
Fixpoint tsteps (ops : list top) (s : timers) : outcome (list Z * timers) :=
  match ops with
  | [] => Done ([], s)
  | op :: ops => let* r := tstep op s in let* rs := tsteps ops r.2 in Done (r.1 :: rs.1, rs.2)
  end.

(** What [timer_schedule] does next when it has the lock: it takes off the
    first timer and unlocks to call its function, with so much of [expires]
    left, or it returns the time to the next deadline. *)
Inductive sched := Calls (i : nat) (expires : Z) | Returns (next : Z).

(** A locked section of [timer_schedule], from a [TIMER_LOCK] to the next
    [TIMER_UNLOCK].  The test is the one before the [do] in the first section
    and the one of the [while] in the others. *)
Definition schedule_section (expires : Z) (s : timers) : outcome (sched * timers) :=
  match timer_first s with
  | None => Done (Returns 0, s)
  | Some i =>
      let* t := timer_at i s in
      if tm_expires t >? expires then
        let next := tm_expires t - expires in
        Done (Returns next, mk_timers (timer_list s) (<[i := mk_timer next (tm_state t)]> (objs s)))
      else
        Done (Calls i (expires - tm_expires t),
              mk_timers (tail (timer_list s)) (<[i := mk_timer (tm_expires t) TIMER_STATE_IDLE]> (objs s)))
  end.

Section Schedule.
(** What the function of each timer does. *)
Context (fn : nat -> list top).

(** The loop of [timer_schedule]: the timers that fire, the result and the
    state.  Between two locked sections the list is not locked: [fn i] are the
    calls made then, by the function of the timer that is called, or by other
    threads meanwhile. *)
Fixpoint schedule_loop (fuel : nat) (expires : Z) (s : timers) : outcome (list nat * Z * timers) :=
  let* r := schedule_section expires s in
  match r.1 with
  | Returns next => Done ([], next, r.2)
  | Calls i expires =>
      match fuel with
      | O => Undef
      | S fuel =>
          let* c := tsteps (fn i) r.2 in
          let* rs := schedule_loop fuel expires c.2 in
          Done (i :: rs.1.1, rs.1.2, rs.2)
      end
  end.

Definition timer_schedule (fuel : nat) (expires : Z) (s : timers) : outcome (list nat * Z * timers) :=
  schedule_loop fuel expires s.
End Schedule.

(** ** The queue *)

(** Timers with their deadlines, sorted; [abs base] reads them off the list. *)
Fixpoint abs (base : Z) (l : list nat) (m : gmap nat timer) : list (nat * Z) :=
  match l with
  | [] => []
  | i :: l =>
      let d := base + match m !! i with Some t => tm_expires t | None => 0 end in
      (i, d) :: abs d l m
  end.

(** Behind the timers with the same deadline. *)
Fixpoint ainsert (i : nat) (d : Z) (q : list (nat * Z)) : list (nat * Z) :=
  match q with
  | [] => [(i, d)]
  | (j, e) :: q' => if d <? e then (i, d) :: q else (j, e) :: ainsert i d q'
  end.
Definition aremove (i : nat) (q : list (nat * Z)) : list (nat * Z) := filter (fun x => x.1 <> i) q.
Definition pending (i : nat) (q : list (nat * Z)) : bool := bool_decide (i ∈ q.*1).

Definition astep (op : top) (q : list (nat * Z)) : Z * list (nat * Z) :=
  match op with
  | TAdd i e => if pending i q then (- EBUSY, q) else (0, ainsert i e q)
  | TDel i => (if pending i q then 1 else 0, aremove i q)
  | TMod i e => (0, ainsert i e (aremove i q))
  end.
Fixpoint asteps (ops : list top) (q : list (nat * Z)) : list Z * list (nat * Z) :=
  match ops with
  | [] => ([], q)
  | op :: ops => let r := astep op q in let rs := asteps ops r.2 in (r.1 :: rs.1, rs.2)
  end.

(** Time goes on by [t]. *)
Definition shift (t : Z) (q : list (nat * Z)) : list (nat * Z) := (fun x => (x.1, x.2 - t)) <$> q.

(** A locked section of [timer_schedule] on the queue. *)
Definition asection (expires : Z) (q : list (nat * Z)) : sched * list (nat * Z) :=
  match q with
  | [] => (Returns 0, [])
  | (i, d) :: q' =>
      if d >? expires then (Returns (d - expires), shift expires q) else (Calls i (expires - d), shift d q')
  end.

(** The timers that are due fire in order, each at its own time. *)
Fixpoint aschedule (fn : nat -> list top) (fuel : nat) (expires : Z) (q : list (nat * Z))
    : option (list nat * Z * list (nat * Z)) :=
  match q with
  | [] => Some ([], 0, [])
  | (i, d) :: q' =>
      if d >? expires then Some ([], d - expires, shift expires q)
      else
        match fuel with
        | O => None
        | S fuel =>
            rs ← aschedule fn fuel (expires - d) (asteps (fn i) (shift d q')).2;
            Some (i :: rs.1.1, rs.1.2, rs.2)
        end
  end.

(** ** The invariant *)

Record twf (s : timers) : Prop := {
  tw_nodup : NoDup (timer_list s);
  tw_active : forall i t, objs s !! i = Some t ->
    (tm_state t = TIMER_STATE_ACTIVED <-> i ∈ timer_list s) /\
    (tm_state t = TIMER_STATE_IDLE <-> i ∉ timer_list s);
  tw_listed : forall i, i ∈ timer_list s -> exists t, objs s !! i = Some t /\ 0 <= tm_expires t }.

(** The calls are for timers that were initialised, with delays that are not
    negative. *)
Definition top_ok (s : timers) (op : top) : Prop :=
  match op with
  | TAdd i e | TMod i e => is_Some (objs s !! i) /\ 0 <= e
  | TDel i => is_Some (objs s !! i)
  end.

Lemma abs_ext base l m m' :
  (forall i, i ∈ l -> tm_expires <$> m' !! i = tm_expires <$> m !! i) -> abs base l m' = abs base l m.
Proof.
  revert base. induction l as [|i l IH]; intros base Hm; simpl; [done|].
  pose proof (Hm i ltac:(constructor)) as Hi.
  assert (match m' !! i with Some t => tm_expires t | None => 0 end =
          match m !! i with Some t => tm_expires t | None => 0 end) as ->.
  { destruct (m' !! i), (m !! i); simpl in Hi; congruence. }
  f_equal. apply IH. intros j Hj. apply Hm. by constructor.
Qed.

Lemma abs_ids base l m : (abs base l m).*1 = l.
Proof. revert base. induction l as [|i l IH]; intros base; simpl; [done|]. by rewrite IH. Qed.

Lemma abs_shift base t l m : shift t (abs base l m) = abs (base - t) l m.
Proof.
  revert base. induction l as [|i l IH]; intros base; simpl; [done|].
  unfold shift in *. rewrite IH. do 2 f_equal; [f_equal; lia|f_equal; lia].
Qed.

(** Insertion, on the list and on the queue. *)
Lemma add_walk_ok i l : forall base e m,
  NoDup l -> i ∉ l -> (forall j, j ∈ l -> exists t, m !! j = Some t /\ 0 <= tm_expires t) -> 0 <= e ->
  exists pre post de m', add_walk l e m = Done (pre, post, de, m') /\ l = pre ++ post /\ 0 <= de /\
    (forall j, j ∉ l -> m' !! j = m !! j) /\
    (forall j t, m !! j = Some t -> exists t', m' !! j = Some t' /\ tm_state t' = tm_state t) /\
    (forall j, j ∈ l -> exists t, m' !! j = Some t /\ 0 <= tm_expires t) /\
    forall st, abs base (pre ++ i :: post) (<[i := mk_timer de st]> m') = ainsert i (base + e) (abs base l m).
Proof.
  induction l as [|j l IH]; intros base e m Hn Hi Hm He; simpl.
  { exists [], [], e, m. split_and!; try done; [eauto|].
    intros st. simpl. by rewrite lookup_insert_eq. }
  apply NoDup_cons in Hn as [Hj Hn]. apply not_elem_of_cons in Hi as [Hij Hi].
  destruct (Hm j ltac:(constructor)) as (t & Ht & Hpos). rewrite Ht.
  destruct (Z.ltb_spec e (tm_expires t)) as [Hlt|Hge].
  - exists [], (j :: l), e, (<[j := mk_timer (tm_expires t - e) (tm_state t)]> m). split_and!; try done.
    + intros k [Hk _]%not_elem_of_cons. by rewrite lookup_insert_ne.
    + intros k u Hu. destruct (decide (k = j)) as [->|]; [rewrite lookup_insert_eq|rewrite lookup_insert_ne by done]; eauto.
      eexists. split; [done|]. simpl. congruence.
    + intros k Hk. destruct (decide (k = j)) as [->|].
      * rewrite lookup_insert_eq. eexists. split; [done|]. simpl. lia.
      * rewrite lookup_insert_ne by done. by apply Hm.
    + intros st. simpl. rewrite lookup_insert_eq, lookup_insert_ne, lookup_insert_eq by done. simpl.
      rewrite (proj2 (Z.ltb_lt _ _)) by lia. f_equal. f_equal; [f_equal; lia|].
      replace (base + e + (tm_expires t - e)) with (base + tm_expires t) by lia.
      apply abs_ext. intros k Hk. rewrite !lookup_insert_ne by (intros ->; done). done.
  - destruct (IH (base + tm_expires t) (e - tm_expires t) m) as
      (pre & post & de & m' & -> & -> & Hde & Hm1 & Hm2 & Hm3 & Habs); try done; [|lia|].
    { intros k Hk. apply Hm. by constructor. }
    cbn [obind fst snd]. exists (j :: pre), post, de, m'. split_and!; try done.
    + intros k [_ Hk]%not_elem_of_cons. by apply Hm1.
    + intros k [->|Hk]%elem_of_cons; [rewrite Hm1 by done; eauto|by apply Hm3].
    + intros st. simpl. rewrite lookup_insert_ne, (Hm1 j Hj), Ht by congruence. simpl.
      rewrite (proj2 (Z.ltb_ge _ _)) by lia. f_equal. rewrite Habs. f_equal. lia.
Qed.


Definition queue (s : timers) : list (nat * Z) := abs 0 (timer_list s) (objs s).

Lemma pending_spec i s : pending i (queue s) = bool_decide (i ∈ timer_list s).
Proof. unfold pending, queue. by rewrite abs_ids. Qed.

Lemma filter_id (i : nat) (l : list nat) : i ∉ l -> filter (fun j => j <> i) l = l.
Proof.
  induction l as [|j l IH]; intros Hi; [done|]. apply not_elem_of_cons in Hi as [H1 H2].
  rewrite filter_cons_True by congruence. by rewrite IH.
Qed.

Lemma aremove_id i base l m : i ∉ l -> aremove i (abs base l m) = abs base l m.
Proof.
  unfold aremove. revert base. induction l as [|j l IH]; intros base Hi; simpl; [done|].
  apply not_elem_of_cons in Hi as [H1 H2]. rewrite filter_cons_True by (simpl; congruence). by rewrite IH.
Qed.

Lemma next_of_in i l j : next_of i l = Some j -> j ∈ l.
Proof.
  induction l as [|k l IH]; simpl; [done|]. case_decide.
  - destruct l; [done|]. intros [= ->]. right. constructor.
  - intros Hn. right. by apply IH.
Qed.

(** Taking a timer off, on the list and on the queue. *)
Lemma remove_walk i t l : forall base m,
  NoDup l -> i ∈ l -> m !! i = Some t -> (forall j, j ∈ l -> is_Some (m !! j)) ->
  let m' := match next_of i l with
            | None => m
            | Some j => match m !! j with
                        | Some n => <[j := mk_timer (tm_expires n + tm_expires t) (tm_state n)]> m
                        | None => m
                        end
            end in
  abs base (filter (fun j => j <> i) l) m' = aremove i (abs base l m).
Proof.
  induction l as [|k l IH]; intros base m Hn Hi Ht Hs; [by apply elem_of_nil in Hi|].
  apply NoDup_cons in Hn as [Hk Hn]. cbn [next_of]. case_decide as E.
  - subst k. rewrite filter_cons_False by tauto. rewrite filter_id by done.
    unfold aremove. cbn [abs]. rewrite filter_cons_False by (simpl; tauto). fold (aremove i (abs (base + match m !! i with Some t => tm_expires t | None => 0 end) l m)).
    rewrite aremove_id by done. rewrite Ht. destruct l as [|j l]; simpl; [done|].
    destruct (Hs j ltac:(right; constructor)) as [n Hnj]. rewrite Hnj, lookup_insert_eq. simpl.
    replace (base + (tm_expires n + tm_expires t)) with (base + tm_expires t + tm_expires n) by lia. f_equal.
    apply NoDup_cons in Hn as [Hj _]. apply abs_ext. intros k' Hk'. by rewrite lookup_insert_ne by (intros ->; done).
  - apply elem_of_cons in Hi as [->|Hi]; [done|]. rewrite filter_cons_True by done.
    unfold aremove. cbn [abs]. rewrite filter_cons_True by done.
    set (m' := match next_of i l with Some j => _ | None => _ end).
    assert (m' !! k = m !! k) as Ek.
    { unfold m'. destruct (next_of i l) as [j|] eqn:Ej; [|done]. destruct (m !! j); [|done].
      rewrite lookup_insert_ne; [done|]. intros ->. by apply Hk, (next_of_in i). }
    rewrite Ek. f_equal. apply IH; try done. intros j Hj. apply Hs. by right.
Qed.

Lemma next_ok i t s : twf s -> i ∈ timer_list s -> objs s !! i = Some t ->
  exists m, (match next_of i (timer_list s) with
             | None => Done (objs s)
             | Some j => let* n := timer_at j s in
                 Done (<[j := mk_timer (tm_expires n + tm_expires t) (tm_state n)]> (objs s))
             end) = Done m /\
    abs 0 (filter (fun j => j <> i) (timer_list s)) m = aremove i (queue s) /\
    (forall j u, m !! j = Some u -> exists u', objs s !! j = Some u' /\ tm_state u' = tm_state u) /\
    (forall j, is_Some (objs s !! j) -> is_Some (m !! j)) /\
    (forall j u, j ∈ timer_list s -> m !! j = Some u -> 0 <= tm_expires u).
Proof.
  intros Hwf Hi Ht. pose proof (tw_listed s Hwf i Hi) as (t' & Ht' & Hpos). assert (t' = t) as -> by congruence.
  pose proof (remove_walk i t (timer_list s) 0 (objs s) (tw_nodup s Hwf) Hi Ht) as Hr.
  assert (forall j, j ∈ timer_list s -> is_Some (objs s !! j)) as Hsm
    by (intros j Hj; destruct (tw_listed s Hwf j Hj) as (u & -> & _); eauto).
  specialize (Hr Hsm). destruct (next_of i (timer_list s)) as [j|] eqn:Ej.
  - pose proof (next_of_in _ _ _ Ej) as Hj. destruct (tw_listed s Hwf j Hj) as (n & Hn & Hpn).
    unfold timer_at. rewrite Hn in Hr |- *. cbn [obind]. eexists. split; [done|]. split; [exact Hr|]. split_and!.
    + intros k u Hu. destruct (decide (k = j)) as [->|].
      * rewrite lookup_insert_eq in Hu. injection Hu as <-. eauto.
      * rewrite lookup_insert_ne in Hu by done. eauto.
    + intros k [u Hu]. destruct (decide (k = j)) as [->|]; [rewrite lookup_insert_eq; eauto|].
      rewrite lookup_insert_ne by done. eauto.
    + intros k u Hk Hu. destruct (decide (k = j)) as [->|].
      * rewrite lookup_insert_eq in Hu. injection Hu as <-. simpl. lia.
      * rewrite lookup_insert_ne in Hu by done. destruct (tw_listed s Hwf k Hk) as (u' & ? & ?). congruence.
  - eexists. split; [done|]. split; [exact Hr|]. split_and!; [eauto|done|].
    intros k u Hk Hu. destruct (tw_listed s Hwf k Hk) as (u' & ? & ?). congruence.
Qed.

Definition keeps_objs (s s' : timers) : Prop := forall j, is_Some (objs s !! j) -> is_Some (objs s' !! j).

Lemma timer_remove_ok i s : twf s -> is_Some (objs s !! i) ->
  exists s', timer_remove_locked i s = Done (if pending i (queue s) then 1 else 0, s') /\ twf s' /\
    queue s' = aremove i (queue s) /\ i ∉ timer_list s' /\ keeps_objs s s'.
Proof.
  intros Hwf [t Ht]. unfold timer_remove_locked, timer_at at 1. rewrite Ht. cbn [obind]. rewrite pending_spec.
  destruct (tw_active s Hwf i t Ht) as [Ha Hid].
  destruct (decide (i ∈ timer_list s)) as [Hi|Hi].
  2: { rewrite bool_decide_eq_true_2, bool_decide_eq_false_2 by tauto. exists s.
       split; [done|]. split; [done|]. split; [by unfold queue; rewrite aremove_id|]. split; [done|]. by intros j. }
  rewrite bool_decide_eq_false_2, bool_decide_eq_true_2 by tauto.
  destruct (next_ok i t s Hwf Hi Ht) as (m & -> & Habs & Hm1 & Hm2 & Hm3). cbn [obind].
  eexists. split; [done|]. assert (forall j, j ∈ filter (fun j => j <> i) (timer_list s) <-> j <> i /\ j ∈ timer_list s) as Hf
    by (intros j; rewrite list_elem_of_filter; done).
  split_and!; simpl.
  - split; simpl.
    + apply NoDup_filter, Hwf.
    + intros j u Hu. rewrite Hf. destruct (decide (j = i)) as [->|Hne].
      * rewrite lookup_insert_eq in Hu. injection Hu as <-. simpl. split; [split; [done|tauto]|split; [tauto|done]].
      * rewrite lookup_insert_ne in Hu by done. destruct (Hm1 j u Hu) as (u' & Hu' & <-).
        destruct (tw_active s Hwf j u' Hu') as [H1 H2]. rewrite H1, H2. tauto.
    + intros j [Hne Hj]%Hf. rewrite lookup_insert_ne by done.
      destruct (tw_listed s Hwf j Hj) as (u & Hu & _). destruct (Hm2 j ltac:(eauto)) as [u' Hu'].
      exists u'. split; [done|]. by apply (Hm3 j).
  - rewrite <- Habs. unfold queue. simpl. apply abs_ext. intros j [Hne _]%Hf. by rewrite lookup_insert_ne.
  - rewrite Hf. tauto.
  - intros j Hj. simpl. destruct (decide (j = i)) as [->|]; [rewrite lookup_insert_eq; eauto|].
    rewrite lookup_insert_ne by done. by apply Hm2.
Qed.

Lemma add_ok i e s : twf s -> is_Some (objs s !! i) -> 0 <= e ->
  exists s', timer_add_locked i e s =
      Done (if pending i (queue s) then - EBUSY else 0, s') /\ twf s' /\
    queue s' = (if pending i (queue s) then queue s else ainsert i e (queue s)) /\ keeps_objs s s'.
Proof.
  intros Hwf [t Ht] He. unfold timer_add_locked, timer_at. rewrite Ht. cbn [obind]. rewrite pending_spec.
  destruct (tw_active s Hwf i t Ht) as [Ha Hid].
  destruct (decide (i ∈ timer_list s)) as [Hi|Hi].
  { rewrite bool_decide_eq_false_2, bool_decide_eq_true_2 by (rewrite ?Hid; tauto).
    exists s. split; [done|]. split; [done|]. split; [done|]. by intros j. }
  rewrite bool_decide_eq_true_2, bool_decide_eq_false_2 by tauto. cbn [negb].
  set (m0 := <[i := mk_timer (tm_expires t) TIMER_STATE_INSERT]> (objs s)).
  destruct (add_walk_ok i (timer_list s) 0 e m0) as (pre & post & de & m' & -> & El & Hde & Hm1 & Hm2 & Hm3 & Habs);
    [apply Hwf|done| |done|].
  { intros j Hj. unfold m0. rewrite lookup_insert_ne by (intros ->; done). by apply Hwf. }
  cbn [obind fst snd]. eexists. split; [done|].
  assert (forall j, j ∈ pre ++ i :: post <-> j = i \/ j ∈ timer_list s) as Hin.
  { intros j. rewrite El, !elem_of_app, elem_of_cons. tauto. }
  assert (forall j u, j <> i -> m' !! j = Some u -> exists u', objs s !! j = Some u' /\ tm_state u' = tm_state u) as Hback.
  { intros j u Hne Hu. destruct (decide (j ∈ timer_list s)) as [Hj|Hj].
    - destruct (tw_listed s Hwf j Hj) as (u' & Hu' & _). exists u'. split; [done|].
      destruct (Hm2 j u') as (u2 & Hu2 & Es); [unfold m0; by rewrite lookup_insert_ne|]. congruence.
    - rewrite Hm1 in Hu by done. unfold m0 in Hu. rewrite lookup_insert_ne in Hu by done. eauto. }
  split_and!; simpl.
  - split; simpl.
    + apply NoDup_app. pose proof (tw_nodup s Hwf) as Hn. rewrite El in Hn, Hi.
      apply NoDup_app in Hn as (N1 & N2 & N3). apply not_elem_of_app in Hi as [I1 I2].
      split_and!; [done| |by apply NoDup_cons]. intros j Hj [->|Hj']%elem_of_cons; [done|]. by apply (N2 j).
    + intros j u Hu. rewrite Hin. destruct (decide (j = i)) as [->|Hne].
      * rewrite lookup_insert_eq in Hu. injection Hu as <-. simpl. split; [tauto|]. split; [done|tauto].
      * rewrite lookup_insert_ne in Hu by done. destruct (Hback j u Hne Hu) as (u' & Hu' & <-).
        destruct (tw_active s Hwf j u' Hu') as [H1 H2]. rewrite H1, H2. tauto.
    + intros j Hj. destruct (decide (j = i)) as [->|Hne]; [rewrite lookup_insert_eq; eauto|].
      rewrite lookup_insert_ne by done. apply Hm3. apply Hin in Hj as [?|?]; done.
  - unfold queue. simpl. rewrite Habs. f_equal. apply abs_ext. intros j Hj. unfold m0.
    by rewrite lookup_insert_ne by (intros ->; done).
  - intros j [u Hu]. simpl. destruct (decide (j = i)) as [->|Hne]; [rewrite lookup_insert_eq; eauto|].
    rewrite lookup_insert_ne by done. destruct (Hm2 j u) as (u' & -> & _); [|eauto].
    unfold m0. by rewrite lookup_insert_ne.
Qed.

Lemma tstep_ok op s : twf s -> top_ok s op ->
  exists s', tstep op s = Done ((astep op (queue s)).1, s') /\ twf s' /\ queue s' = (astep op (queue s)).2 /\
    keeps_objs s s'.
Proof.
  intros Hwf Hop. destruct op as [i e|i|i e]; simpl in *.
  - destruct Hop as [Hi He]. destruct (add_ok i e s Hwf Hi He) as (s' & E & ? & Eq & ?).
    exists s'. unfold timer_add. rewrite E. by destruct (pending i (queue s)).
  - destruct (timer_remove_ok i s Hwf Hop) as (s' & E & ? & Eq & _ & ?). exists s'. done.
  - destruct Hop as [Hi He]. unfold timer_mod. destruct (timer_remove_ok i s Hwf Hi) as (s1 & -> & Hwf1 & Eq & Hni & Hk). cbn [obind snd].
    destruct (add_ok i e s1 Hwf1 (Hk i Hi) He) as (s2 & E & Hwf2 & Eq2 & Hk2). exists s2.
    rewrite pending_spec, bool_decide_eq_false_2 in E, Eq2 by done. rewrite E, Eq2, Eq. split_and!; try done.
    intros j Hj. by apply Hk2, Hk.
Qed.

Lemma tsteps_ok ops : forall s, twf s -> Forall (top_ok s) ops ->
  exists s', tsteps ops s = Done ((asteps ops (queue s)).1, s') /\ twf s' /\ queue s' = (asteps ops (queue s)).2 /\
    keeps_objs s s'.
Proof.
  induction ops as [|op ops IH]; intros s Hwf Hops; simpl.
  { exists s. split; [done|]. split; [done|]. split; [done|]. by intros j. }
  apply Forall_cons in Hops as [Hop Hops].
  destruct (tstep_ok op s Hwf Hop) as (s1 & -> & Hwf1 & Eq1 & Hk1). cbn [obind fst snd].
  destruct (IH s1 Hwf1) as (s2 & -> & Hwf2 & Eq2 & Hk2).
  { eapply Forall_impl; [exact Hops|]. intros [i e|i|i e]; simpl; intros Ho;
      [destruct Ho; split; [by apply Hk1|done]|by apply Hk1|destruct Ho; split; [by apply Hk1|done]]. }
  cbn [obind fst snd]. exists s2. rewrite Eq1 in Eq2 |- *. split_and!; try done. intros j Hj. by apply Hk2, Hk1.
Qed.

(** ** The order of the queue *)

Definition sorted (q : list (nat * Z)) : Prop := StronglySorted (fun x y => x.2 <= y.2) q.

Lemma ainsert_perm i d q : ainsert i d q ≡ₚ (i, d) :: q.
Proof.
  induction q as [|[j e] q IH]; simpl; [done|]. destruct (d <? e); [done|].
  rewrite IH. apply Permutation_swap.
Qed.

Lemma ainsert_sorted i d q : sorted q -> sorted (ainsert i d q).
Proof.
  induction 1 as [|[j e] q Hs IH Hall]; simpl; [repeat constructor|].
  destruct (Z.ltb_spec d e).
  - constructor; [by constructor|]. constructor; [simpl; lia|].
    eapply Forall_impl; [exact Hall|]. simpl. intros; lia.
  - constructor; [done|]. rewrite Forall_forall in Hall |- *. intros x Hx.
    rewrite ainsert_perm in Hx. apply elem_of_cons in Hx as [->|Hx]; [simpl; lia|by apply Hall].
Qed.

Lemma filter_sorted (P : nat * Z -> Prop) `{!forall x, Decision (P x)} q : sorted q -> sorted (filter P q).
Proof.
  induction 1 as [|x q Hs IH Hall]; [constructor|]. rewrite filter_cons. case_decide; [|done].
  constructor; [done|]. rewrite Forall_forall in Hall |- *.
  intros y [_ Hy]%list_elem_of_filter. by apply Hall.
Qed.

Lemma shift_sorted t q : sorted q -> sorted (shift t q).
Proof.
  induction 1 as [|x q Hs IH Hall]; simpl; [constructor|]. constructor; [done|].
  unfold shift. rewrite Forall_fmap. eapply Forall_impl; [exact Hall|]. simpl. intros; lia.
Qed.

Lemma abs_above l : forall base m, (forall i t, i ∈ l -> m !! i = Some t -> 0 <= tm_expires t) ->
  Forall (fun x => base <= x.2) (abs base l m) /\ sorted (abs base l m).
Proof.
  induction l as [|i l IH]; intros base m Hm; simpl; [split; constructor|].
  set (d := base + _).
  assert (base <= d) by (unfold d; destruct (m !! i) as [t|] eqn:E; [pose proof (Hm i t ltac:(constructor) E)|]; lia).
  destruct (IH d m) as [H1 H2]; [intros j t Hj; apply Hm; by constructor|].
  split; constructor; try done. eapply Forall_impl; [exact H1|]. simpl. intros; lia.
Qed.

Lemma queue_sorted s : twf s -> sorted (queue s) /\ Forall (fun x => 0 <= x.2) (queue s).
Proof.
  intros Hwf. destruct (abs_above (timer_list s) 0 (objs s)) as [H1 H2]; [|by split].
  intros i t Hi Ht. destruct (tw_listed s Hwf i Hi) as (t' & ? & ?). congruence.
Qed.

(** ** [timer_schedule] *)

(** Taking the first timer off: time goes on to its deadline. *)
Lemma timer_pop_ok i t s l : twf s -> timer_list s = i :: l -> objs s !! i = Some t ->
  let s' := mk_timers l (<[i := mk_timer (tm_expires t) TIMER_STATE_IDLE]> (objs s)) in
  twf s' /\ queue s' = shift (tm_expires t) (tail (queue s)) /\ keeps_objs s s'.
Proof.
  intros Hwf El Ht. pose proof (tw_nodup s Hwf) as Hn. rewrite El in Hn. apply NoDup_cons in Hn as [Hi Hn].
  split; [split; simpl|split].
  - done.
  - intros j u Hu. destruct (decide (j = i)) as [->|Hne].
    + rewrite lookup_insert_eq in Hu. injection Hu as <-. simpl. done.
    + rewrite lookup_insert_ne in Hu by done. destruct (tw_active s Hwf j u Hu) as [H1 H2].
      rewrite H1, H2, El, !elem_of_cons. naive_solver.
  - intros j Hj. rewrite lookup_insert_ne by (intros ->; done). apply Hwf. rewrite El. by constructor.
  - unfold queue. rewrite El. simpl. rewrite Ht, abs_shift, Z.add_0_l, Z.sub_diag.
    apply abs_ext. intros j Hj. by rewrite lookup_insert_ne by (intros ->; done).
  - intros j Hj. simpl. destruct (decide (j = i)) as [->|]; [rewrite lookup_insert_eq; eauto|].
    by rewrite lookup_insert_ne.
Qed.

(** Time stops before the first timer. *)
Lemma stop_ok i t s l d : twf s -> timer_list s = i :: l -> objs s !! i = Some t -> d <= tm_expires t ->
  let s' := mk_timers (timer_list s) (<[i := mk_timer (tm_expires t - d) (tm_state t)]> (objs s)) in
  twf s' /\ queue s' = shift d (queue s) /\ keeps_objs s s'.
Proof.
  intros Hwf El Ht Hd. pose proof (tw_nodup s Hwf) as Hn. rewrite El in Hn. apply NoDup_cons in Hn as [Hi Hn].
  split; [split; simpl|split].
  - by apply Hwf.
  - intros j u Hu. destruct (decide (j = i)) as [->|Hne].
    + rewrite lookup_insert_eq in Hu. injection Hu as <-. simpl. by apply Hwf.
    + rewrite lookup_insert_ne in Hu by done. by apply Hwf.
  - intros j Hj. destruct (decide (j = i)) as [->|Hne]; [rewrite lookup_insert_eq|rewrite lookup_insert_ne by done; by apply Hwf].
    eexists. split; [done|]. simpl. lia.
  - unfold queue. simpl. rewrite El, abs_shift. simpl. rewrite Ht, lookup_insert_eq. simpl.
    replace (0 - d + tm_expires t) with (tm_expires t - d) by lia. f_equal.
    apply abs_ext. intros j Hj. by rewrite lookup_insert_ne by (intros ->; done).
  - intros j Hj. simpl. destruct (decide (j = i)) as [->|]; [rewrite lookup_insert_eq; eauto|].
    by rewrite lookup_insert_ne.
Qed.

Lemma top_ok_keeps s s' op : keeps_objs s s' -> top_ok s op -> top_ok s' op.
Proof. intros Hk. destruct op; simpl; intros Ho; [destruct Ho; split; [by apply Hk|done]|by apply Hk|destruct Ho; split; [by apply Hk|done]]. Qed.

Lemma section_ok expires s : twf s ->
  exists s', schedule_section expires s = Done ((asection expires (queue s)).1, s') /\ twf s' /\
    queue s' = (asection expires (queue s)).2 /\ keeps_objs s s'.
Proof.
  intros Hwf. unfold schedule_section, timer_first. destruct (timer_list s) as [|i l] eqn:El.
  { exists s. unfold queue. rewrite El. split_and!; try done. by intros j. }
  destruct (tw_listed s Hwf i ltac:(rewrite El; constructor)) as (t & Ht & Hpos).
  assert (queue s = (i, tm_expires t) :: tail (queue s)) as Eq by (unfold queue; rewrite El; simpl; by rewrite Ht).
  rewrite Eq. cbn [head asection]. unfold timer_at. rewrite Ht. cbn [obind].
  destruct (Z.gtb_spec (tm_expires t) expires) as [Hgt|Hle]; eexists; (split; [done|]).
  - destruct (stop_ok i t s l expires Hwf El Ht ltac:(lia)) as (? & Hq & ?). rewrite Eq in Hq. rewrite <- El. done.
  - destruct (timer_pop_ok i t s l Hwf El Ht) as (? & Hq & ?). done.
Qed.

Lemma aschedule_section fn fuel expires q : aschedule fn fuel expires q =
  match asection expires q with
  | (Returns next, q) => Some ([], next, q)
  | (Calls i expires, q) =>
      match fuel with
      | O => None
      | S fuel => rs ← aschedule fn fuel expires (asteps (fn i) q).2; Some (i :: rs.1.1, rs.1.2, rs.2)
      end
  end.
Proof. destruct fuel, q as [|[i d] q]; simpl; try done; by destruct (d >? expires). Qed.

Lemma schedule_sim fn fuel : forall expires s r,
  twf s -> (forall i, Forall (top_ok s) (fn i)) ->
  aschedule fn fuel expires (queue s) = Some r ->
  exists s', schedule_loop fn fuel expires s = Done (r.1.1, r.1.2, s') /\ twf s' /\ queue s' = r.2.
Proof.
  induction fuel as [|fuel IH]; intros expires s r Hwf Hfn; rewrite aschedule_section; cbn [schedule_loop];
    (destruct (section_ok expires s Hwf) as (s1 & -> & Hwf1 & Hq1 & Hk1)); cbn [obind fst snd];
    (destruct (asection expires (queue s)) as [[i e|next] q]; cbn [fst snd] in *).
  2, 4: intros [= <-]; by exists s1.
  - done.
  - destruct (tsteps_ok (fn i) s1 Hwf1) as (s2 & -> & Hwf2 & Hq2 & Hk2).
    { eapply Forall_impl; [apply (Hfn i)|]. intros op. by apply top_ok_keeps. }
    cbn [obind fst snd]. rewrite Hq1 in Hq2. rewrite <- Hq2.
    destruct (aschedule fn fuel _ _) as [rs|] eqn:Ers; simpl; [|done]. intros [= <-].
    destruct (IH e s2 rs Hwf2) as (s3 & -> & Hwf3 & Hq3); [|done|by exists s3].
    intros j. eapply Forall_impl; [apply (Hfn j)|]. intros op Ho. eapply top_ok_keeps; [exact Hk2|].
    by eapply top_ok_keeps.
Qed.

(** *** The timers there are *)

Lemma add_walk_dom l : forall e m r, add_walk l e m = Done r -> dom r.2 = dom m.
Proof.
  induction l as [|j l IH]; intros e m r; simpl; [by intros [= <-]|].
  destruct (m !! j) as [t|] eqn:Ej; [|done]. destruct (e <? tm_expires t).
  - intros [= <-]. simpl. apply dom_insert_lookup_L. eauto.
  - intros (r' & Hr & [= <-])%obind_done. simpl. by eapply IH.
Qed.

Lemma tstep_dom op s r s' : tstep op s = Done (r, s') -> dom (objs s') = dom (objs s).
Proof.
  assert (forall i e s r s', timer_add_locked i e s = Done (r, s') -> dom (objs s') = dom (objs s)) as Hadd.
  { clear. intros i e s r s'. unfold timer_add_locked, timer_at. destruct (objs s !! i) as [t|] eqn:Ei; [|done]. cbn [obind].
    destruct (negb _); [by intros [= _ <-]|]. intros (w & Hw & [= _ <-])%obind_done. apply add_walk_dom in Hw. simpl.
    rewrite dom_insert_lookup_L in Hw by eauto. rewrite <- Hw. apply dom_insert_lookup_L.
    apply elem_of_dom. rewrite Hw. by apply elem_of_dom. }
  assert (forall i s r s', timer_remove_locked i s = Done (r, s') -> dom (objs s') = dom (objs s)) as Hdel.
  { clear. intros i s r s'. unfold timer_remove_locked, timer_at. destruct (objs s !! i) as [t|] eqn:Ei; [|done]. cbn [obind].
    case_bool_decide; [by intros [= _ <-]|]. intros (m & Hm & [= _ <-])%obind_done. simpl.
    assert (dom m = dom (objs s)) as E.
    { destruct (next_of i (timer_list s)) as [j|]; [|by injection Hm as <-].
      destruct (objs s !! j) eqn:Ej; [|done]. injection Hm as <-. apply dom_insert_lookup_L. eauto. }
    rewrite <- E. apply dom_insert_lookup_L. apply elem_of_dom. rewrite E. by apply elem_of_dom. }
  destruct op as [i e|i|i e]; simpl; [apply Hadd|apply Hdel|].
  unfold timer_mod. intros ([r1 s1] & E1 & E2)%obind_done. apply Hdel in E1. apply Hadd in E2. simpl in E2. congruence.
Qed.

Lemma tsteps_dom ops : forall s r s', tsteps ops s = Done (r, s') -> dom (objs s') = dom (objs s).
Proof.
  induction ops as [|op ops IH]; intros s r s'; simpl; [by intros [= _ <-]|].
  intros ([r1 s1] & E1 & ([rs s2] & E2 & [= _ <-])%obind_done)%obind_done. apply tstep_dom in E1. apply IH in E2. simpl in *. congruence.
Qed.

Lemma section_dom e s r : schedule_section e s = Done r -> dom (objs r.2) = dom (objs s).
Proof.
  unfold schedule_section. destruct (timer_first s) as [i|]; [|by intros [= <-]].
  unfold timer_at. destruct (objs s !! i) as [t|] eqn:Ei; [|done]. cbn [obind].
  destruct (_ >? _); intros [= <-]; simpl; apply dom_insert_lookup_L; eauto.
Qed.

Lemma schedule_dom fn fuel : forall e s r, schedule_loop fn fuel e s = Done r -> dom (objs r.2) = dom (objs s).
Proof.
  induction fuel as [|fuel IH]; intros e s r; cbn [schedule_loop]; intros ([[i e'|next] s1] & E & E')%obind_done;
    apply section_dom in E; cbn [fst snd] in *; [done|by injection E' as <-| |by injection E' as <-].
  apply obind_done in E' as ([r1 s2] & E1 & (rs & E2 & [= <-])%obind_done). apply tsteps_dom in E1. apply IH in E2.
  simpl in *. congruence.
Qed.

(** *** Termination

    A function that adds its timer again with a delay of zero keeps the loop
    going for ever ([zero_period_diverges]); with positive delays each pass
    either moves on in time or leaves one timer less that is due now. *)

Definition positive (op : top) : Prop :=
  match op with TAdd _ e | TMod _ e => 0 < e | TDel _ => True end.
Definition top_id (op : top) : nat := match op with TAdd i _ | TMod i _ | TDel i => i end.

(** Timers of the set [X], due now or later. *)
Record qok (X : gset nat) (q : list (nat * Z)) : Prop := {
  qk_sorted : sorted q;
  qk_later : Forall (fun x => 0 <= x.2) q;
  qk_nodup : NoDup q.*1;
  qk_ids : forall i, i ∈ q.*1 -> i ∈ X }.

Definition due_now (q : list (nat * Z)) : nat := length (filter (fun x => x.2 <= 0) q).

Lemma qok_length X q : qok X q -> (length q <= size X)%nat.
Proof.
  intros H. rewrite <- (length_fmap fst q), <- (size_list_to_set (C := gset nat) q.*1) by apply H.
  apply subseteq_size. intros i Hi. apply H. by apply elem_of_list_to_set in Hi.
Qed.

Lemma fst_filter_in (P : nat * Z -> Prop) `{!forall x, Decision (P x)} q i : i ∈ (filter P q).*1 -> i ∈ q.*1.
Proof. rewrite !list_elem_of_fmap. intros (x & -> & [_ Hx]%list_elem_of_filter). eauto. Qed.

Lemma filter_nodup (P : nat * Z -> Prop) `{!forall x, Decision (P x)} q : NoDup q.*1 -> NoDup (filter P q).*1.
Proof.
  induction q as [|x q IH]; simpl; [done|]. intros [Hx Hn]%NoDup_cons. rewrite filter_cons. case_decide; [|by apply IH].
  simpl. apply NoDup_cons. split; [|by apply IH]. intros Hi. by apply Hx, (fst_filter_in P).
Qed.

Lemma aremove_qok X i q : qok X q -> qok X (aremove i q) /\ (due_now (aremove i q) <= due_now q)%nat /\ i ∉ (aremove i q).*1.
Proof.
  intros [H1 H2 H3 H4]. unfold aremove. split; [split|split].
  - by apply filter_sorted.
  - rewrite Forall_forall in H2 |- *. intros x [_ Hx]%list_elem_of_filter. by apply H2.
  - by apply filter_nodup.
  - intros j Hj. apply H4. by eapply fst_filter_in.
  - unfold due_now.
    clear. induction q as [|x q IH]; simpl; [done|]. rewrite !filter_cons. repeat (case_decide; simpl; rewrite ?filter_cons); (contradiction || lia).
  - rewrite list_elem_of_fmap. intros (x & -> & [Hx _]%list_elem_of_filter). done.
Qed.

Lemma ainsert_qok X i d q : qok X q -> i ∉ q.*1 -> i ∈ X -> 0 < d ->
  qok X (ainsert i d q) /\ (due_now (ainsert i d q) <= due_now q)%nat.
Proof.
  intros [H1 H2 H3 H4] Hi HX Hd. split; [split|].
  - by apply ainsert_sorted.
  - rewrite ainsert_perm. constructor; [simpl; lia|done].
  - rewrite ainsert_perm. simpl. by apply NoDup_cons.
  - intros j. rewrite ainsert_perm. simpl. rewrite elem_of_cons. intros [->|Hj]; [done|by apply H4].
  - unfold due_now. rewrite ainsert_perm, filter_cons_False by (simpl; lia). done.
Qed.

Lemma astep_qok X op q : qok X q -> top_id op ∈ X -> positive op ->
  qok X (astep op q).2 /\ (due_now (astep op q).2 <= due_now q)%nat.
Proof.
  intros Hq Hi Hp. destruct op as [i e|i|i e]; simpl in *.
  - unfold pending. case_bool_decide; [by split|]. by apply ainsert_qok.
  - destruct (aremove_qok X i q Hq) as (? & ? & _). done.
  - destruct (aremove_qok X i q Hq) as (Hq1 & Hd1 & Hn). destruct (ainsert_qok X i e _ Hq1 Hn Hi Hp). split; [done|lia].
Qed.

Lemma asteps_qok X ops : forall q, qok X q -> Forall (fun op => top_id op ∈ X /\ positive op) ops ->
  qok X (asteps ops q).2 /\ (due_now (asteps ops q).2 <= due_now q)%nat.
Proof.
  induction ops as [|op ops IH]; intros q Hq Hops; simpl; [done|]. apply Forall_cons in Hops as [[Hi Hp] Hops].
  destruct (astep_qok X op q Hq Hi Hp) as [Hq1 Hd1]. destruct (IH _ Hq1 Hops) as [Hq2 Hd2]. split; [done|lia].
Qed.

Lemma qok_tail X i d q : qok X ((i, d) :: q) -> qok X (shift d q).
Proof.
  intros [H1 H2 H3 H4]. apply StronglySorted_inv in H1 as [H1 Hd]. apply NoDup_cons in H3 as [_ H3].
  assert ((shift d q).*1 = q.*1) as Hids by (unfold shift; rewrite <- list_fmap_compose; by apply list_fmap_ext).
  split; [by apply shift_sorted| |by rewrite Hids|].
  - unfold shift. rewrite Forall_fmap. eapply Forall_impl; [exact Hd|]. simpl. intros; lia.
  - intros j. rewrite Hids. intros Hj. apply H4. by right.
Qed.

Lemma due_now_le q : (due_now q <= length q)%nat.
Proof. unfold due_now. apply length_filter. Qed.

Lemma aschedule_total fn X fuel : (forall i, Forall (fun op => top_id op ∈ X /\ positive op) (fn i)) ->
  forall expires q, qok X q -> 0 <= expires -> (size X * Z.to_nat expires + due_now q <= fuel)%nat ->
  exists r, aschedule fn fuel expires q = Some r.
Proof.
  intros Hfn. induction fuel as [|fuel IH]; intros expires q Hq He Hf; destruct q as [|[i d] q]; simpl; eauto.
  all: destruct (Z.gtb_spec d expires) as [|Hle]; [eauto|].
  all: pose proof (qk_later _ _ Hq) as [Hd _]%Forall_cons; simpl in Hd.
  all: pose proof (qok_length X _ Hq) as HX; simpl in HX.
  - exfalso. unfold due_now in Hf. rewrite filter_cons in Hf. case_decide as Hz; simpl in Hf; [lia|].
    assert (Z.to_nat expires <> 0%nat) by (simpl in Hz; lia). nia.
  - pose proof (qok_tail X i d q Hq) as Hq1.
    destruct (asteps_qok X (fn i) _ Hq1 (Hfn i)) as [Hq2 Hd2].
    destruct (IH (expires - d) _ Hq2) as [r ->]; [lia| |by eexists].
    pose proof (due_now_le (shift d q)) as Hdl. unfold shift in Hdl at 2. rewrite length_fmap in Hdl.
    destruct (decide (d = 0)) as [->|].
    + rewrite Z.sub_0_r. unfold due_now in Hf, Hd2 |- *. rewrite filter_cons_True in Hf by (simpl; lia). simpl in Hf.
      assert (shift 0 q = q) as E0.
      { unfold shift. rewrite <- (list_fmap_id q) at 2. apply list_fmap_ext. intros ? [??] _. simpl. f_equal. lia. }
      rewrite E0 in Hd2 |- *. lia.
    + replace (Z.to_nat expires) with (Z.to_nat (expires - d) + Z.to_nat d)%nat in Hf by lia.
      assert (1 <= Z.to_nat d)%nat by lia. nia.
Qed.

Lemma queue_qok s : twf s -> qok (dom (objs s)) (queue s).
Proof.
  intros Hwf. destruct (queue_sorted s Hwf). split; [done|done| |]; unfold queue; rewrite abs_ids; [apply Hwf|].
  intros i (t & Ht & _)%Hwf. by apply elem_of_dom_2 in Ht.
Qed.

Lemma filter_shift t (P Q : nat * Z -> Prop) `{!forall x, Decision (P x)} `{!forall x, Decision (Q x)} (q : list (nat * Z)) :
  (forall i d, P (i, d - t) <-> Q (i, d)) -> filter P (shift t q) = shift t (filter Q q).
Proof.
  intros HPQ. induction q as [|[i d] q IH]; [done|].
  change (shift t ((i, d) :: q)) with ((i, d - t) :: shift t q). rewrite !filter_cons.
  specialize (HPQ i d). repeat case_decide; try tauto; simpl; by rewrite IH.
Qed.

(** Functions that make no calls: what is due fires, the rest moves up. *)
Lemma aschedule_quiet fuel : forall expires q, sorted q -> (length q <= fuel)%nat ->
  aschedule (fun _ => []) fuel expires q =
    let late := filter (fun x => ~ x.2 <= expires) q in
    Some ((filter (fun x => x.2 <= expires) q).*1,
          match late with [] => 0 | x :: _ => x.2 - expires end, shift expires late).
Proof.
  induction fuel as [|fuel IH]; intros expires q Hs Hl; destruct q as [|[i d] q]; simpl in Hl |- *; try done; [lia|].
  apply StronglySorted_inv in Hs as [Hs Hd]. rewrite Forall_forall in Hd. simpl in Hd.
  rewrite !filter_cons. simpl. destruct (Z.gtb_spec d expires) as [Hgt|Hle]; repeat case_decide; try lia.
  - assert (forall x, x ∈ q -> ~ x.2 <= expires) as Hlate by (intros x Hx%Hd; lia).
    replace (filter (fun x => x.2 <= expires) q) with (@nil (nat * Z)); [|symmetry; apply elem_of_nil_inv; intros x [Hx1 Hx2]%list_elem_of_filter; by apply (Hlate x)].
    replace (filter (fun x => ~ x.2 <= expires) q) with q; [done|].
    symmetry. by apply filter_all.
  - rewrite IH; [|by apply shift_sorted|unfold shift; rewrite length_fmap; lia]. cbn [mbind option_bind fst snd].
    rewrite (filter_shift d (fun x => x.2 <= expires - d) (fun x => x.2 <= expires)) by (intros; simpl; lia).
    rewrite (filter_shift d (fun x => ~ x.2 <= expires - d) (fun x => ~ x.2 <= expires)) by (intros; simpl; lia).
    do 2 f_equal; [f_equal|].
    + simpl. f_equal. unfold shift. rewrite <- list_fmap_compose. by apply list_fmap_ext.
    + destruct (filter _ q) as [|x ?]; [done|]. simpl. lia.
    + unfold shift. rewrite <- list_fmap_compose. apply list_fmap_ext. intros ? [??] _. simpl. f_equal. lia.
Qed.

(** ** Properties *)

Lemma timer_init_ok i s : twf s -> i ∉ timer_list s -> twf (timer_init i s) /\ queue (timer_init i s) = queue s.
Proof.
  intros Hwf Hi. split; [split; simpl; [apply Hwf| |]|].
  - intros j u Hu. destruct (decide (j = i)) as [->|]; [|rewrite lookup_insert_ne in Hu by done; by apply Hwf].
    rewrite lookup_insert_eq in Hu. injection Hu as <-. done.
  - intros j Hj. rewrite lookup_insert_ne by (intros ->; done). by apply Hwf.
  - apply abs_ext. intros j Hj. simpl. by rewrite lookup_insert_ne by (intros ->; done).
Qed.

Lemma init_all ids : twf (foldr timer_init (mk_timers [] ∅) ids) /\ queue (foldr timer_init (mk_timers [] ∅) ids) = [] /\
  timer_list (foldr timer_init (mk_timers [] ∅) ids) = [] /\
  forall i, i ∈ ids -> is_Some (objs (foldr timer_init (mk_timers [] ∅) ids) !! i).
Proof.
  induction ids as [|i ids (IH1 & IH2 & IH3 & IH4)]; simpl.
  - split_and!; [|done|done|intros i Hi; by apply elem_of_nil in Hi].
    split; simpl; [constructor|intros i t; by rewrite lookup_empty|intros i Hi; by apply elem_of_nil in Hi].
  - destruct (timer_init_ok i _ IH1) as [? Hq]; [rewrite IH3; apply not_elem_of_nil|].
    split_and!; [done|by rewrite Hq|by rewrite IH3|]. intros j. destruct (decide (j = i)) as [->|Hne].
    + rewrite lookup_insert_eq. eauto.
    + rewrite lookup_insert_ne by done. intros [?|?]%elem_of_cons; [done|by apply IH4].
Qed.

(** Starting with initialised timers and an empty list, any sequence of
    [timer_add], [timer_del] and [timer_mod] keeps the list well formed (no
    timer twice, the state field tells who is on it, no negative delta) and
    acts as on a queue of absolute deadlines, with the same results: adding a
    pending timer is refused with [EBUSY], deleting tells whether the timer was
    pending, and a timer goes behind those that are due no later; the deadlines
    of the other timers never change, and the queue stays sorted. *)
Theorem timer_calls_refine_queue (ids : list nat) (ops : list top) :
  (forall op, op ∈ ops -> top_id op ∈ ids /\ match op with TAdd _ e | TMod _ e => 0 <= e | TDel _ => True end) ->
  exists s', tsteps ops (foldr timer_init (mk_timers [] ∅) ids) = Done ((asteps ops []).1, s') /\
    twf s' /\ queue s' = (asteps ops []).2 /\ sorted (queue s') /\ (timer_visit true s').2 = (queue s').*1.
Proof.
  intros Hops. destruct (init_all ids) as (Hwf & Hq & _ & Hi).
  destruct (tsteps_ok ops _ Hwf) as (s' & Hs & Hwf' & Hq' & _).
  { apply Forall_forall. intros op Hop. destruct (Hops op Hop) as [H1 H2].
    destruct op; simpl in *; [split; [by apply Hi|done]|by apply Hi|split; [by apply Hi|done]]. }
  rewrite Hq in Hs, Hq'. exists s'. split; [done|]. split; [done|]. split; [done|].
  split; [by apply queue_sorted|]. simpl. unfold queue. by rewrite abs_ids.
Qed.

Lemma timer_calls_refine_queue_witness :
  let ops := [TAdd 1%nat 30; TAdd 2%nat 10; TAdd 3%nat 10; TAdd 1%nat 5; TMod 2%nat 40; TDel 3%nat; TDel 3%nat] in
  exists s', tsteps ops (foldr timer_init (mk_timers [] ∅) [1; 2; 3]%nat) = Done ([0; 0; 0; - EBUSY; 0; 1; 0], s') /\
    twf s' /\ queue s' = [(1%nat, 30); (2%nat, 40)] /\ sorted (queue s') /\ (timer_visit true s').2 = (queue s').*1.
Proof.
  intros ops. refine (timer_calls_refine_queue [1; 2; 3]%nat ops _).
  intros op Hop. unfold ops in Hop. rewrite !elem_of_cons in Hop.
  destruct Hop as [->|[->|[->|[->|[->|[->|[->|Hop]]]]]]]; simpl; try (split; [|lia]); try (split; [|done]).
  8: by apply elem_of_nil in Hop.
  all: repeat (first [apply list_elem_of_here | apply list_elem_of_further]).
Defined.

(** C13: [timer_schedule] returns when the functions of the timers ask for
    positive delays: [size (objs s) * (expires + 1)] passes are enough.  It
    then fires the timers in the order of their deadlines, each with the list
    as it is at that deadline, so that a periodic timer does not drift, and
    what the functions add or remove counts in the same call; it leaves the
    queue moved up by the time that went by and returns the time to the next
    deadline, 0 when there is none. *)
Theorem timer_schedule_returns (fn : nat -> list top) (expires : Z) (s : timers) :
  twf s -> 0 <= expires -> (forall i, Forall (fun op => top_ok s op /\ positive op) (fn i)) ->
  let fuel := (size (dom (objs s)) * S (Z.to_nat expires))%nat in
  exists fired next s', timer_schedule fn fuel expires s = Done (fired, next, s') /\ twf s' /\
    aschedule fn fuel expires (queue s) = Some (fired, next, queue s').
Proof.
  intros Hwf He Hfn fuel. pose proof (queue_qok s Hwf) as Hq.
  destruct (aschedule_total fn (dom (objs s)) fuel) with (expires := expires) (q := queue s) as [[[fired next] q'] Hr]; try done.
  - intros i. eapply Forall_impl; [apply (Hfn i)|]. intros op [Ho Hp]. split; [|done].
    apply elem_of_dom. destruct op; simpl in *; [apply Ho|done|apply Ho].
  - pose proof (qok_length _ _ Hq). pose proof (due_now_le (queue s)). unfold fuel. nia.
  - destruct (schedule_sim fn fuel expires s (fired, next, q') Hwf) as (s' & Hs & Hwf' & Hq'); [|done|].
    { intros i. eapply Forall_impl; [apply (Hfn i)|]. by intros op [? _]. }
    exists fired, next, s'. simpl in Hs, Hq'. by rewrite Hq', Hr.
Qed.

(** Timer 1 is periodic with period 10, timer 2 stops it when it fires. *)
Definition example_timers : timers :=
  mk_timers [1; 2]%nat (<[1%nat := mk_timer 10 TIMER_STATE_ACTIVED]> (<[2%nat := mk_timer 25 TIMER_STATE_ACTIVED]> ∅)).
Definition example_fn (i : nat) : list top := match i with 1%nat => [TAdd 1%nat 10] | 2%nat => [TDel 1%nat] | _ => [] end.

Lemma example_twf : twf example_timers.
Proof.
  split; simpl.
  - apply (bool_decide_unpack _). vm_compute. done.
  - intros i t. rewrite !lookup_insert_Some, lookup_empty.
    intros [[<- <-]|[? [[<- <-]|[? ?]]]]; [| |done]; simpl; (split; split; try done); intros; try set_solver.
  - intros i [->|[->|Hi]%elem_of_cons]%elem_of_cons; [eexists; split; [vm_compute; reflexivity|simpl; lia]..|].
    by apply elem_of_nil in Hi.
Qed.

Lemma timer_schedule_returns_witness :
  exists fired next s', timer_schedule example_fn 102 50 example_timers = Done (fired, next, s') /\ twf s' /\
    aschedule example_fn 102 50 (queue example_timers) = Some (fired, next, queue s').
Proof.
  refine (timer_schedule_returns example_fn 50 example_timers example_twf ltac:(lia) _).
  intros [|[|[|i]]]; repeat constructor; simpl; lia || (apply (bool_decide_unpack _); vm_compute; done).
Defined.

Example example_fires : exists s', timer_schedule example_fn 102 50 example_timers = Done ([1; 1; 1; 2]%nat, 0, s').
Proof. eexists. vm_compute. reflexivity. Qed.

(** With functions that make no calls, [timer_schedule] fires exactly the
    timers whose deadline is not later than [expires], in order, and keeps the
    others with their deadlines that much nearer. *)
Theorem timer_schedule_fires_due (expires : Z) (s : timers) :
  twf s ->
  let due := filter (fun x => x.2 <= expires) (queue s) in
  let late := filter (fun x => ~ x.2 <= expires) (queue s) in
  exists s', timer_schedule (fun _ => []) (length (timer_list s)) expires s =
      Done (due.*1, match late with [] => 0 | x :: _ => x.2 - expires end, s') /\
    twf s' /\ queue s' = shift expires late.
Proof.
  intros Hwf due late. destruct (queue_sorted s Hwf) as [Hs _].
  assert (length (queue s) <= length (timer_list s))%nat as Hl
    by (rewrite <- (length_fmap fst); unfold queue; by rewrite abs_ids).
  pose proof (aschedule_quiet _ expires (queue s) Hs Hl) as Hr.
  destruct (schedule_sim (fun _ => []) _ expires s _ Hwf ltac:(done) Hr) as (s' & Hs' & Hwf' & Hq').
  exists s'. done.
Qed.

Lemma timer_schedule_fires_due_witness :
  exists s', timer_schedule (fun _ => []) 2 12 example_timers = Done ([1%nat], 23, s') /\
    twf s' /\ queue s' = [(2%nat, 23)].
Proof. refine (timer_schedule_fires_due 12 example_timers example_twf). Defined.

(** A function that adds its timer again with no delay keeps the loop going. *)
Lemma zero_period_diverges fuel :
  let s := mk_timers [1%nat] {[ 1%nat := mk_timer 0 TIMER_STATE_ACTIVED ]} in
  timer_schedule (fun i => [TAdd i 0]) fuel 0 s = Undef.
Proof.
  intros s. induction fuel as [|fuel IH]; [done|].
  change (timer_schedule (fun i => [TAdd i 0]) (S fuel) 0 s) with
    (let* rs := timer_schedule (fun i => [TAdd i 0]) fuel 0 s in Done (1%nat :: rs.1.1, rs.1.2, rs.2)).
  by rewrite IH.
Qed.

End TimerList.
