(* ===== verification/WinTimer.v ===== *)
(** * os/win32/os_timer_impl.cc : timers of the operating system layer on the
    software timers

    A timer is an object of the pool of ObjPool that holds a [timer_list] of
    TimerList; a thread of its own drives the list.  [timer_schedule] holds the
    lock only between the callbacks (timer_list.c:96-98), so the thread is a
    state machine here: every step is a locked section or the call of a
    callback, and the calls of all the other threads, and those the callbacks
    make, come between any two of its steps.  [os_timers_refine]: in every
    such sequence the timers have one holder each and one queue of deadlines.
    What this does not promise: a timer can fire early ([timer_fires_early])
    or be called although it was just destroyed ([destroyed_timer_is_called]),
    and two first creations at once fail an assertion ([creations_race]). *)
From Stdlib Require Import ZArith Lia Bool.
From stdpp Require Import base list numbers gmap sorting.
From S2P Require Import Prelude ObjPool TimerList.
Import TimerList.

Module WinTimer.

Abbreviation OBJ_TIMER_CLASS := ObjPool.OBJ_TIMER_CLASS.
Abbreviation CONFIG_OS_MAX_TIMERS := ObjPool.CONFIG_OS_MAX_TIMERS.

Section Timers.
(** The address of [timer_objs] and the size of its elements. *)
Context (timer_objs sizeof_timer : Z).

(** The pools, the list of timers (a timer is named by its address), and the
    functions and arguments the timers were last created with: the pool only
    writes the first word of an object it has, so that these fields stay when
    a timer is destroyed.  The other fields are those of a timer in use. *)
Record wtimers := mk_w { w_pools : ObjPool.pools; w_list : timers; w_fn : gmap nat (Z * Z) }.

(** [os_timer_create (timer, timeout_cb, arg, isr_context)]: the result and
    [*timer]. *)
Definition os_timer_create (timer : bool) (timeout_cb arg : Z) (s : wtimers) : outcome (Z * option Z * wtimers) :=
  if negb timer || (timeout_cb =? 0) then Done (- EINVAL, None, s)
  else
  let* r := ObjPool.ensure_pool OBJ_TIMER_CLASS timer_objs (CONFIG_OS_MAX_TIMERS * sizeof_timer) sizeof_timer (w_pools s) in
  assert* r.1 =? 0 in
  let* a := ObjPool.os_obj_allocate OBJ_TIMER_CLASS r.2 in
  let p := a.1 in
  if p =? 0 then Done (- ENOMEM, None, mk_w a.2 (w_list s) (w_fn s))
  else
  Done (0, Some p, mk_w a.2 (timer_init (Z.to_nat p) (w_list s)) (<[Z.to_nat p := (timeout_cb, arg)]> (w_fn s))).

Definition os_timer_mod (timer expires : Z) (s : wtimers) : outcome (Z * wtimers) :=
  assert* negb (timer =? 0) in
  let* r := timer_mod (Z.to_nat timer) expires (w_list s) in Done (r.1, mk_w (w_pools s) r.2 (w_fn s)).

Definition os_timer_add (timer expires : Z) (s : wtimers) : outcome (Z * wtimers) :=
  assert* negb (timer =? 0) in
  let* r := timer_add (Z.to_nat timer) expires (w_list s) in Done (r.1, mk_w (w_pools s) r.2 (w_fn s)).

Definition os_timer_del (timer : Z) (s : wtimers) : outcome (Z * wtimers) :=
  assert* negb (timer =? 0) in
  let* r := timer_del (Z.to_nat timer) (w_list s) in Done (r.1, mk_w (w_pools s) r.2 (w_fn s)).

(** The second half of [os_timer_destroy], [os_obj_free]. *)
Definition os_timer_free (timer : Z) (s : wtimers) : outcome (Z * wtimers) :=
  let i := Z.to_nat timer in
  let* m := ObjPool.os_obj_free OBJ_TIMER_CLASS timer (w_pools s) in
  Done (0, mk_w m (mk_timers (timer_list (w_list s)) (delete i (objs (w_list s)))) (w_fn s)).

Definition os_timer_destroy (timer : Z) (s : wtimers) : outcome (Z * wtimers) :=
  assert* negb (timer =? 0) in
  let* r := timer_del (Z.to_nat timer) (w_list s) in
  os_timer_free timer (mk_w (w_pools s) r.2 (w_fn s)).

(** ** The thread

    It sleeps for [sleep_ms], or it has taken a timer off the list and has not
    called its function [timeout_cb] yet, or the function runs.  The last two
    have so much of [expires] left. *)
Inductive thread := Sleeping (sleep_ms : Z) | Unlocked (timer : nat) (timeout_cb expires : Z) | Running (expires : Z).

(** What is seen of a step: a result, a result and a handle, the call of a
    function with its timer and argument, or nothing. *)
Inductive wobs := WRet (r : Z) | WHandle (r : Z) (timer : option Z) | WFired (timeout_cb : Z) (timer : nat) (arg : Z) | WQuiet.

(** The end of the loop's body in [os_timer_thread]. *)
Definition next_sleep (next : Z) : Z := if next =? 0 then 10 else next.

(** [timer_schedule] with the lock: the function of the timer it takes off is
    read here.  [int] and [long] have the same width on this system, and
    delays are integers as in TimerList. *)
Definition thread_locked (expires : Z) (s : wtimers) : outcome (thread * wtimers) :=
  let* r := schedule_section expires (w_list s) in
  let s := mk_w (w_pools s) r.2 (w_fn s) in
  match r.1 with
  | Returns next => Done (Sleeping (next_sleep next), s)
  | Calls i expires =>
      match w_fn s !! i with None => Undef | Some (cb, _) => Done (Unlocked i cb expires, s) end
  end.

(** A step of [os_timer_thread]: it wakes up, or calls the function it has
    taken, with [timer->arg] read without the lock, or comes back from it. *)
Definition os_timer_thread (th : thread) (s : wtimers) : outcome (wobs * thread * wtimers) :=
  match th with
  | Sleeping sleep_ms => let* r := thread_locked sleep_ms s in Done (WQuiet, r.1, r.2)
  | Unlocked i cb expires =>
      match w_fn s !! i with None => Undef | Some (_, arg) => Done (WFired cb i arg, Running expires, s) end
  | Running expires => let* r := thread_locked expires s in Done (WQuiet, r.1, r.2)
  end.

(** ** Sequences of calls and steps of the thread

    A call is made by any thread, the timer thread in a callback included.
    [WFree] is the second half of a destroy whose first half was a [WDel]
    before, with other steps between. *)
Inductive wop :=
| WCreate (timer : bool) (timeout_cb arg : Z) | WAdd (timer expires : Z) | WMod (timer expires : Z) | WDel (timer : Z)
| WDestroy (timer : Z) | WFree (timer : Z) | WThread.

Definition wstep (op : wop) (th : thread) (s : wtimers) : outcome (wobs * thread * wtimers) :=
  let ret (r : outcome (Z * wtimers)) := let* r := r in Done (WRet r.1, th, r.2) in
  match op with
  | WCreate t cb a => let* r := os_timer_create t cb a s in Done (WHandle r.1.1 r.1.2, th, r.2)
  | WAdd p e => ret (os_timer_add p e s)
  | WMod p e => ret (os_timer_mod p e s)
  | WDel p => ret (os_timer_del p s)
  | WDestroy p => ret (os_timer_destroy p s)
  | WFree p => ret (os_timer_free p s)
  | WThread => os_timer_thread th s
  end.

Fixpoint wrun (ops : list wop) (th : thread) (s : wtimers) : outcome (list wobs * thread * wtimers) :=
  match ops with
  | [] => Done ([], th, s)
  | op :: ops => let* r := wstep op th s in let* rs := wrun ops r.1.2 r.2 in Done (r.1.1 :: rs.1.1, rs.1.2, rs.2)
  end.

(** ** What the layer promises *)

(** The timers that are free and those that are held, the functions and
    arguments they were last created with, and the deadlines of those that
    are pending, counted from the last locked section of the thread. *)
Record atimers := mk_a { a_pool : ObjPool.apool; a_fns : gmap nat (Z * Z); a_queue : list (nat * Z) }.

Definition held (a : atimers) (p : Z) : bool := bool_decide (p ∈ ObjPool.a_held (a_pool a)).

(** The holder's side: calls for timers one holds, delays that are not
    negative, and nothing that starts a timer while it is destroyed. *)
Definition wop_ok (op : wop) (a : atimers) : bool :=
  match op with
  | WCreate _ _ _ | WThread => true
  | WAdd p e | WMod p e => held a p && (0 <=? e)
  | WDel p | WDestroy p => held a p
  | WFree p => held a p && negb (pending (Z.to_nat p) (a_queue a))
  end.

Definition set_queue (q : list (nat * Z)) (a : atimers) : atimers := mk_a (a_pool a) (a_fns a) q.

Definition a_release (p : Z) (a : atimers) : atimers :=
  mk_a (ObjPool.mk_apool (p :: ObjPool.a_free (a_pool a)) (filter (fun q => q <> p) (ObjPool.a_held (a_pool a)))
          (delete p (ObjPool.a_known (a_pool a))))
    (a_fns a) (a_queue a).

Definition fn_of (i : nat) (a : atimers) : Z * Z := default (0, 0) (a_fns a !! i).

Definition thread_spec (th : thread) (a : atimers) : wobs * thread * atimers :=
  let locked expires :=
    let r := asection expires (a_queue a) in
    (WQuiet, match r.1 with
             | Returns next => Sleeping (next_sleep next)
             | Calls i expires => Unlocked i (fn_of i a).1 expires
             end, set_queue r.2 a) in
  match th with
  | Sleeping sleep_ms => locked sleep_ms
  | Unlocked i cb expires => (WFired cb i (fn_of i a).2, Running expires, a)
  | Running expires => locked expires
  end.

Definition wspec (op : wop) (th : thread) (a : atimers) : wobs * thread * atimers :=
  let on_queue op := let r := astep op (a_queue a) in (WRet r.1, th, set_queue r.2 a) in
  match op with
  | WCreate timer cb arg =>
      if negb timer || (cb =? 0) then (WHandle (- EINVAL) None, th, a)
      else match ObjPool.a_free (a_pool a) with
           | [] => (WHandle (- ENOMEM) None, th, a)
           | p :: free =>
               (WHandle 0 (Some p), th,
                mk_a (ObjPool.mk_apool free (p :: ObjPool.a_held (a_pool a)) (ObjPool.a_known (a_pool a)))
                  (<[Z.to_nat p := (cb, arg)]> (a_fns a)) (a_queue a))
           end
  | WAdd p e => on_queue (TAdd (Z.to_nat p) e)
  | WMod p e => on_queue (TMod (Z.to_nat p) e)
  | WDel p => on_queue (TDel (Z.to_nat p))
  | WDestroy p => (WRet 0, th, a_release p (set_queue (aremove (Z.to_nat p) (a_queue a)) a))
  | WFree p => (WRet 0, th, a_release p a)
  | WThread => thread_spec th a
  end.

(** None when a call breaks the rules in the state it is made in. *)
Fixpoint wspec_run (ops : list wop) (th : thread) (a : atimers) : option (list wobs * thread * atimers) :=
  match ops with
  | [] => Some ([], th, a)
  | op :: ops =>
      if wop_ok op a then
        let r := wspec op th a in
        rs ← wspec_run ops r.1.2 r.2; Some (r.1.1 :: rs.1.1, rs.1.2, rs.2)
      else None
  end.
End Timers.

(** ** The calls keep the promise *)

(** A timer that is not pending can be forgotten. *)
Lemma forget_ok i s : twf s -> i ∉ timer_list s ->
  twf (mk_timers (timer_list s) (delete i (objs s))) /\ queue (mk_timers (timer_list s) (delete i (objs s))) = queue s.
Proof.
  intros Hwf Hi. split; [split; simpl|].
  - apply Hwf.
  - intros j t [_ Hj]%lookup_delete_Some. by apply Hwf.
  - intros j Hj. rewrite lookup_delete_ne by (intros ->; done). by apply Hwf.
  - apply abs_ext. intros j Hj. simpl. by rewrite lookup_delete_ne by (intros ->; done).
Qed.

Section Refine.
Context (timer_objs sizeof_timer : Z) (m0 : gmap Z Z).

Abbreviation pool_bytes := (CONFIG_OS_MAX_TIMERS * sizeof_timer).
Definition timer_pool : ObjPool.shape := ObjPool.pool_shape timer_objs pool_bytes sizeof_timer (dom m0).

(** The array [timer_objs], and its words in the memory [m0] at the start. *)
Abbreviation timers_fit := (ObjPool.array_ok timer_objs pool_bytes sizeof_timer m0).
Context (Hfit : timers_fit).

Record winv (s : wtimers) (th : thread) (a : atimers) : Prop := {
  wi_pool : ObjPool.lazy_pool timer_pool m0 OBJ_TIMER_CLASS (w_pools s) (a_pool a);
  wi_list : twf (w_list s);
  wi_queue : queue (w_list s) = a_queue a;
  wi_fn : w_fn s = a_fns a;
  wi_held : forall i, i ∈ dom (objs (w_list s)) <-> exists p, p ∈ ObjPool.a_held (a_pool a) /\ i = Z.to_nat p;
  wi_fns : dom (objs (w_list s)) ⊆ dom (a_fns a);
  wi_thread : match th with Unlocked i _ _ => is_Some (a_fns a !! i) | _ => True end }.

Lemma held_object s th a p : winv s th a -> p ∈ ObjPool.a_held (a_pool a) ->
  ObjPool.pool_inv timer_pool OBJ_TIMER_CLASS (w_pools s) (a_pool a) /\ p ∈ ObjPool.objects timer_pool /\ 0 < p.
Proof.
  intros HI Hp. destruct (ObjPool.lazy_held _ _ _ _ _ _ _ p (wi_pool _ _ _ HI) Hp) as [Hi Ho]. split; [done|].
  split; [done|]. by eapply ObjPool.object_pos.
Qed.

Lemma held_timer s th a p : winv s th a -> held a p = true -> 0 < p /\ is_Some (objs (w_list s) !! Z.to_nat p).
Proof.
  intros HI Hp%bool_decide_eq_true. destruct (held_object s th a p HI Hp) as (_ & _ & ?). split; [done|].
  apply elem_of_dom, (wi_held _ _ _ HI). eauto.
Qed.

(** A call that only changes the list. *)
Lemma queue_call s th a op : winv s th a -> top_ok (w_list s) op ->
  exists l, tstep op (w_list s) = Done ((astep op (a_queue a)).1, l) /\
    winv (mk_w (w_pools s) l (w_fn s)) th (set_queue (astep op (a_queue a)).2 a).
Proof.
  intros HI Hop. destruct (tstep_ok op (w_list s) (wi_list _ _ _ HI) Hop) as (l & E & Hwf & Hq & _).
  rewrite (wi_queue _ _ _ HI) in E, Hq. exists l. split; [done|]. apply tstep_dom in E. destruct HI.
  split; simpl; rewrite ?E; done.
Qed.

Lemma os_create_ok s th a timer cb arg : winv s th a ->
  let r := wspec (WCreate timer cb arg) th a in
  exists s', wstep timer_objs sizeof_timer (WCreate timer cb arg) th s = Done (r.1.1, r.1.2, s') /\ winv s' r.1.2 r.2.
Proof.
  intros HI. cbn [wspec wstep] in *. unfold os_timer_create. destruct (negb timer || (cb =? 0)); [by exists s|].
  destruct (ObjPool.ensure_ok _ _ _ _ _ Hfit _ _ (wi_pool _ _ _ HI)) as (m & -> & Hp). cbn [obind fst snd Z.eqb].
  pose proof (ObjPool.array_shape _ _ _ _ Hfit) as Hh.
  destruct (ObjPool.alloc_ok timer_pool OBJ_TIMER_CLASS m (a_pool a) Hp) as (r & m' & -> & pa & Ha & Hp'). cbn [obind fst snd].
  cbn [ObjPool.astep] in Ha. pose proof (ObjPool.inv_nodup _ Hh _ _ _ Hp) as Hn.
  destruct (ObjPool.a_free (a_pool a)) as [|p free] eqn:Ef; injection Ha as <- <-.
  - cbn [Z.eqb]. eexists. split; [done|]. destruct HI. split; try done. by left.
  - pose proof (ObjPool.inv_freed _ _ _ _ p Hp) as Ho. rewrite Ef in Ho. specialize (Ho ltac:(constructor)).
    pose proof (ObjPool.object_pos _ _ _ _ Hfit p Ho). rewrite (proj2 (Z.eqb_neq p 0)) by lia. eexists. split; [done|].
    assert (p ∉ ObjPool.a_held (a_pool a)) as Hnh.
    { intros Hin. apply NoDup_app in Hn as (_ & Hd & _). by apply (Hd p ltac:(constructor)). }
    assert (Z.to_nat p ∉ timer_list (w_list s)) as Hnl.
    { intros (t & Ht & _)%(tw_listed _ (wi_list _ _ _ HI)). apply elem_of_dom_2 in Ht.
      apply (wi_held _ _ _ HI) in Ht as (q & Hq & E). destruct (held_object s th a q HI Hq) as (_ & _ & ?).
      by assert (q = p) as -> by lia. }
    destruct (timer_init_ok _ _ (wi_list _ _ _ HI) Hnl) as [Hwf Hq]. destruct HI. split; simpl.
    + by left.
    + done.
    + by rewrite Hq.
    + congruence.
    + intros i. rewrite dom_insert_L, elem_of_union, elem_of_singleton, wi_held0. setoid_rewrite elem_of_cons. naive_solver.
    + rewrite !dom_insert_L. set_solver.
    + destruct th; try done. by apply lookup_insert_is_Some'; right.
Qed.

(** Giving back a timer that is not pending. *)
Lemma free_timer_ok s th a p : winv s th a -> held a p = true -> Z.to_nat p ∉ timer_list (w_list s) ->
  exists s', os_timer_free p s = Done (0, s') /\ winv s' th (a_release p a).
Proof.
  intros HI Hh Hnl. destruct (held_timer s th a p HI Hh) as [Hpos Hi]. apply bool_decide_eq_true in Hh.
  destruct (held_object s th a p HI Hh) as (Hp & Ho & _). pose proof (ObjPool.array_shape _ _ _ _ Hfit) as Hsh.
  unfold os_timer_free.
  destruct (ObjPool.free_ok timer_pool Hsh OBJ_TIMER_CLASS (w_pools s) (a_pool a) p Hp Hh) as (m & -> & Hp'). cbn [obind fst snd].
  eexists. split; [done|]. destruct (forget_ok _ _ (wi_list _ _ _ HI) Hnl) as [Hwf' Hq']. destruct HI. split; simpl; try done.
  - by left.
  - by rewrite Hq'.
  - intros i. rewrite dom_delete_L, elem_of_difference, elem_of_singleton, wi_held0. setoid_rewrite list_elem_of_filter. split.
    + intros ((q & Hq1 & ->) & Hne). exists q. split; [split; [|done]|done]. by intros ->.
    + intros (q & (Hne & Hq1) & ->). split; [eauto|]. intros E.
      assert (q ∈ ObjPool.objects timer_pool) as Hoq by (eapply ObjPool.inv_held; [exact Hp|done]).
      pose proof (ObjPool.object_pos _ _ _ _ Hfit q Hoq). lia.
  - rewrite dom_delete_L. set_solver.
Qed.

Lemma destroy_ok s th a p : winv s th a -> held a p = true ->
  exists s', os_timer_destroy p s = Done (0, s') /\ winv s' th (a_release p (set_queue (aremove (Z.to_nat p) (a_queue a)) a)).
Proof.
  intros HI Hh. destruct (held_timer s th a p HI Hh) as [Hpos Hi].
  unfold os_timer_destroy. rewrite (proj2 (Z.eqb_neq p 0)) by lia. cbn [negb].
  destruct (queue_call s th a (TDel (Z.to_nat p)) HI Hi) as (l & El & HI'). cbn [tstep] in El. rewrite El. cbn [obind fst snd].
  apply free_timer_ok; [done|done|]. unfold timer_del in El.
  destruct (timer_remove_ok (Z.to_nat p) (w_list s) (wi_list _ _ _ HI) Hi) as (l' & El' & _ & _ & Hnl & _).
  rewrite El' in El. by injection El as _ <-.
Qed.

(** A step of the thread with the lock. *)
Lemma locked_ok e s th a : winv s th a ->
  exists s', thread_locked e s = Done (match (asection e (a_queue a)).1 with
                                       | Returns next => Sleeping (next_sleep next)
                                       | Calls i expires => Unlocked i (fn_of i a).1 expires
                                       end, s') /\
    winv s' (match (asection e (a_queue a)).1 with
             | Returns next => Sleeping (next_sleep next)
             | Calls i expires => Unlocked i (fn_of i a).1 expires
             end) (set_queue (asection e (a_queue a)).2 a).
Proof.
  intros HI. unfold thread_locked. destruct (section_ok e (w_list s) (wi_list _ _ _ HI)) as (l & E & Hwf & Hq & _).
  pose proof (section_dom _ _ _ E) as Hd. cbn [snd] in Hd. rewrite (wi_queue _ _ _ HI) in E, Hq. rewrite E. cbn [obind fst snd w_fn].
  destruct (asection e (a_queue a)) as [[i e'|next] q] eqn:Ea; cbn [fst snd] in *.
  - assert (is_Some (a_fns a !! i)) as [[cb arg] Hcb].
    { apply elem_of_dom, (wi_fns _ _ _ HI). destruct (a_queue a) as [|[j d] q'] eqn:Eq; cbn in Ea; [done|].
      destruct (d >? e); [done|]. injection Ea as -> _ _. apply (qk_ids _ _ (queue_qok _ (wi_list _ _ _ HI))).
      rewrite (wi_queue _ _ _ HI), Eq. constructor. }
    rewrite (wi_fn _ _ _ HI), Hcb. unfold fn_of. rewrite Hcb. cbn [default]. eexists. split; [done|].
    destruct HI. split; simpl; rewrite ?Hd; done.
  - eexists. split; [done|]. destruct HI. split; simpl; rewrite ?Hd; done.
Qed.

Lemma thread_ok s th a : winv s th a -> let r := thread_spec th a in
  exists s', os_timer_thread th s = Done (r.1.1, r.1.2, s') /\ winv s' r.1.2 r.2.
Proof.
  intros HI. destruct th as [ms|i cb e|e]; cbn [os_timer_thread thread_spec fst snd].
  1, 3: edestruct locked_ok as (s' & -> & HI'); [exact HI|]; by exists s'.
  pose proof (wi_thread _ _ _ HI) as [[cb' arg] Hi]. rewrite (wi_fn _ _ _ HI), Hi. unfold fn_of. rewrite Hi.
  exists s. split; [done|]. by destruct HI.
Qed.

Lemma wstep_ok s th a op : winv s th a -> wop_ok op a = true -> let r := wspec op th a in
  exists s', wstep timer_objs sizeof_timer op th s = Done (r.1.1, r.1.2, s') /\ winv s' r.1.2 r.2.
Proof.
  intros HI Hop. destruct op as [timer cb arg|p e|p e|p|p|p|].
  - by apply os_create_ok.
  - apply andb_prop in Hop as [Hh He%Z.leb_le]. destruct (held_timer s th a p HI Hh) as [Hp Hi].
    destruct (queue_call s th a (TAdd (Z.to_nat p) e) HI) as (l & E & HI'); [done|].
    cbn [wstep wspec fst snd]. unfold os_timer_add. rewrite (proj2 (Z.eqb_neq p 0)) by lia. cbn [negb].
    cbn [tstep] in E. rewrite E. cbn [obind fst snd]. eauto.
  - apply andb_prop in Hop as [Hh He%Z.leb_le]. destruct (held_timer s th a p HI Hh) as [Hp Hi].
    destruct (queue_call s th a (TMod (Z.to_nat p) e) HI) as (l & E & HI'); [done|].
    cbn [wstep wspec fst snd]. unfold os_timer_mod. rewrite (proj2 (Z.eqb_neq p 0)) by lia. cbn [negb].
    cbn [tstep] in E. rewrite E. cbn [obind fst snd]. eauto.
  - destruct (held_timer s th a p HI Hop) as [Hp Hi].
    destruct (queue_call s th a (TDel (Z.to_nat p)) HI) as (l & E & HI'); [done|].
    cbn [wstep wspec fst snd]. unfold os_timer_del. rewrite (proj2 (Z.eqb_neq p 0)) by lia. cbn [negb].
    cbn [tstep] in E. rewrite E. cbn [obind fst snd]. eauto.
  - destruct (destroy_ok s th a p HI Hop) as (s' & E & HI'). cbn [wstep wspec fst snd]. rewrite E. cbn [obind fst snd]. eauto.
  - apply andb_prop in Hop as [Hh Hn%negb_true_iff]. rewrite <- (wi_queue _ _ _ HI), pending_spec in Hn.
    apply bool_decide_eq_false in Hn. destruct (free_timer_ok s th a p HI Hh Hn) as (s' & E & HI').
    cbn [wstep wspec fst snd]. rewrite E. cbn [obind fst snd]. eauto.
  - by apply thread_ok.
Qed.

Lemma wrun_ok ops : forall s th a r, winv s th a -> wspec_run ops th a = Some r ->
  exists s', wrun timer_objs sizeof_timer ops th s = Done (r.1.1, r.1.2, s') /\ winv s' r.1.2 r.2.
Proof.
  induction ops as [|op ops IH]; intros s th a r HI; cbn [wrun wspec_run].
  - intros [= <-]. by exists s.
  - destruct (wop_ok op a) eqn:Hop; [|done]. destruct (wstep_ok s th a op HI Hop) as (s1 & -> & HI1). cbn [obind fst snd].
    destruct (wspec_run ops _ _) as [rs|] eqn:Ers; [|done]. intros [= <-].
    destruct (IH s1 _ _ _ HI1 Ers) as (s2 & -> & HI2). by exists s2.
Qed.
End Refine.

(** ** The refinement *)

(** The program when it starts, and what it stands for. *)
Definition start_timers (tab : ObjPool.obj_type -> Z) (m : gmap Z Z) : wtimers :=
  mk_w (ObjPool.mk_pools tab m) (mk_timers [] ∅) ∅.
Definition start_spec (timer_objs sizeof_timer : Z) (m : gmap Z Z) : atimers :=
  mk_a (ObjPool.fresh_pool (timer_pool timer_objs sizeof_timer m) m) ∅ [].

Lemma start_inv timer_objs sizeof_timer m tab : tab OBJ_TIMER_CLASS = ObjPool.OBJ_DEFAULT_VAL ->
  winv timer_objs sizeof_timer m (start_timers tab m) (Sleeping 10) (start_spec timer_objs sizeof_timer m).
Proof.
  intros Ht. split; simpl; try done.
  - right. by split_and!.
  - apply (init_all []).
  - intros i. rewrite dom_empty_L. split; [by intros ?%elem_of_empty|]. intros (p & Hp & _). by apply elem_of_nil in Hp.
Qed.


(** *** Witness: thirty timers of eight bytes; function 7 adds its timer again,
    function 9 is interrupted by another thread *)

Definition words_w : gmap Z Z := list_to_map ((fun k => (4096 + 8 * Z.of_nat k, 0)) <$> seq 0 30).
Definition calls_w : list wop :=
  [WCreate true 7 20; WCreate true 9 1; WCreate true 0 5; WAdd 4328 20; WAdd 4328 5; WMod 4320 35; WThread; WThread;
   WThread; WAdd 4328 20; WThread; WThread; WCreate true 5 5; WAdd 4312 0; WThread; WThread; WThread; WThread; WDel 4328;
   WFree 4328; WThread; WDestroy 4312; WCreate true 9 2].

Lemma fit_w : ObjPool.array_ok 4096 240 8 words_w.
Proof.
  split; try done. intros p Hp. apply elem_of_dom.
  assert (Forall (fun p => is_Some (words_w !! p)) (ObjPool.objects (timer_pool 4096 8 words_w))) as Hall.
  { apply (bool_decide_unpack (Forall _ _)). vm_compute. reflexivity. }
  rewrite Forall_forall in Hall. by apply Hall.
Qed.

(** What is seen: the timer of function 7 fires and is added again by the
    function; while function 9 is taken but not called yet, another thread
    creates and adds a timer, which the same turn of the thread calls. *)
Definition seen_w : list wobs :=
  [WHandle 0 (Some 4328); WHandle 0 (Some 4320); WHandle (- EINVAL) None; WRet 0; WRet (- EBUSY); WRet 0; WQuiet; WQuiet;
   WFired 7 4328 20; WRet 0; WQuiet; WQuiet; WHandle 0 (Some 4312); WRet 0; WFired 9 4320 1; WQuiet; WFired 5 4312 5;
   WQuiet; WRet 1; WRet 0; WQuiet; WRet 0; WHandle 0 (Some 4312)].
Definition end_w : atimers :=
  from_option snd (start_spec 4096 8 words_w) (wspec_run calls_w (Sleeping 10) (start_spec 4096 8 words_w)).


(** ** What is not promised *)

Definition seen (ops : list wop) : outcome (list wobs) :=
  let* r := wrun 4096 8 ops (Sleeping 10) (start_timers ObjPool.initial_table words_w) in Done r.1.1.

(** The delay of a timer counts from the last locked section of the thread,
    not from the call: 500 ms that are asked for during a sleep of 990 ms, at
    any moment of it, are over when the sleep is. *)
Example timer_fires_early : seen
    [WCreate true 9 1; WCreate true 9 2; WAdd 4328 1000; WThread; WAdd 4320 500; WThread; WThread] =
  Done [WHandle 0 (Some 4328); WHandle 0 (Some 4320); WRet 0; WQuiet; WRet 0; WQuiet; WFired 9 4320 2].
Proof. vm_compute. reflexivity. Qed.

(** A timer that is destroyed when the thread has taken it off, and has not
    called its function yet, is called, with the argument of the next holder
    of the object. *)
Example destroyed_timer_is_called : seen
    [WCreate true 9 1; WAdd 4328 5; WThread; WDestroy 4328; WCreate true 7 2; WThread] =
  Done [WHandle 0 (Some 4328); WRet 0; WQuiet; WRet 0; WHandle 0 (Some 4328); WFired 9 4328 2].
Proof. vm_compute. reflexivity. Qed.

(** [WCreate] is a single step, although [os_obj_ready] is called without the
    lock.  When the pool is there this makes no difference, and the first
    creation must not meet another one: a thread that saw no pool and calls
    [os_obj_initialize] when the other has made it gets -EBUSY, and
    [os_timer_create] fails its assertion. *)
Example creations_race :
  (let* r := os_timer_create 4096 8 true 9 1 (start_timers ObjPool.initial_table words_w) in
   let* q := ObjPool.os_obj_initialize OBJ_TIMER_CLASS 4096 (CONFIG_OS_MAX_TIMERS * 8) 8 (w_pools r.2) in Done q.1) = Done (- EBUSY).
Proof. vm_compute. reflexivity. Qed.

End WinTimer.
