(* ===== verification/ZephyrTimer.v ===== *)
(** * os/zephyr/os_timer_impl.c : timers of the operating system layer on the
    high-resolution timers of Zephyr

    A timer is an object of the pool of ObjPool around a [struct hrtimer] of
    the operating system, of which the model has the two fields the code relies
    on, and the calls it gets.  A timer that is not for interrupt context hands
    its callback to the run queue of RunQueue. *)
From Stdlib Require Import ZArith Lia Bool.
From stdpp Require Import base list numbers gmap.
From S2P Require Import Prelude ObjPool RunQueue.

Module ZephyrTimer.

Abbreviation OBJ_TIMER_CLASS := ObjPool.OBJ_TIMER_CLASS.
Abbreviation CONFIG_OS_MAX_TIMERS := ObjPool.CONFIG_OS_MAX_TIMERS.

Section Timers.
(** The address of [timer_objs] and the size of its elements; the addresses of
    the functions [timeout_adaptor] and [timer_task_wrapper]. *)
Context (timer_objs sizeof_timer adaptor_fn wrapper_fn : Z).

(** [struct os_timer] *)
Record os_timer := mk_timer { expiry_fn : Z; expiry_fn_arg : Z; task : Z }.

(** The calls of the operating system: [hrtimer_init], [hrtimer_start] with
    its two times in microseconds, [hrtimer_stop]. *)
Inductive hrtimer_call := Init (timer fn arg : Z) | Start (timer duration period : Z) | Stop (timer : Z).

Record ztimers := mk_z { z_pools : ObjPool.pools; z_objs : gmap Z os_timer; z_calls : list hrtimer_call }.

Definition call (c : hrtimer_call) (s : ztimers) : ztimers := mk_z (z_pools s) (z_objs s) (z_calls s ++ [c]).

(** [HRTIMER_MS (n)]; the product is a [long]. *)
Definition HRTIMER_MS (n : Z) : outcome Z :=
  let us := n * 1000 in guard* (- 2 ^ 63 <=? us) && (us <? 2 ^ 63) in Done (s32 us).

(** [timer_task_wrapper (arg)]: the function it calls with its arguments. *)
Definition timer_task_wrapper (arg : Z) (s : ztimers) : outcome (Z * Z * Z) :=
  match z_objs s !! arg with
  | None => Undef
  | Some timer => assert* negb (task timer =? 0) in Done (task timer, arg, expiry_fn_arg timer)
  end.

(** [timeout_adaptor (timer, arg)]; nobody looks at what [rq_submit] returns. *)
Definition timeout_adaptor (timer : Z) (w : RunQueue.world) : RunQueue.world * list RunQueue.event :=
  RunQueue._rq_submit wrapper_fn timer false w.

(** What the operating system calls when the time is over: nothing of the
    timer, or its callback. *)
Definition hrtimer_expires (timer : Z) (s : ztimers) (w : RunQueue.world)
    : outcome (option (Z * Z * Z) * RunQueue.world * list RunQueue.event) :=
  match z_objs s !! timer with
  | None => Undef
  | Some p =>
      if expiry_fn p =? adaptor_fn then let r := timeout_adaptor timer w in Done (None, r.1, r.2)
      else Done (Some (expiry_fn p, timer, expiry_fn_arg p), w, [])
  end.

Definition os_timer_create (timer : bool) (timeout_cb arg : Z) (isr_context : bool) (s : ztimers)
    : outcome (Z * option Z * ztimers) :=
  if negb timer || (timeout_cb =? 0) then Done (- EINVAL, None, s)
  else
  let* r := ObjPool.ensure_pool OBJ_TIMER_CLASS timer_objs (CONFIG_OS_MAX_TIMERS * sizeof_timer) sizeof_timer (z_pools s) in
  assert* r.1 =? 0 in (* os_panic *)
  let* a := ObjPool.os_obj_allocate OBJ_TIMER_CLASS r.2 in
  let p := a.1 in
  if p =? 0 then Done (- ENOMEM, None, mk_z a.2 (z_objs s) (z_calls s))
  else
  let* m := ObjPool.store p 0 a.2 in (* the object is cleared; its first word *)
  let fn := if negb isr_context then adaptor_fn else timeout_cb in
  let task := if negb isr_context then timeout_cb else 0 in
  Done (0, Some p, call (Init p fn arg) (mk_z m (<[p := mk_timer fn arg task]> (z_objs s)) (z_calls s))).

Definition os_timer_mod (timer expires : Z) (s : ztimers) : outcome (Z * ztimers) :=
  assert* negb (timer =? 0) in let* us := HRTIMER_MS expires in Done (0, call (Start timer us 0) s).

Definition os_timer_add (timer expires : Z) (s : ztimers) : outcome (Z * ztimers) :=
  assert* negb (timer =? 0) in let* us := HRTIMER_MS expires in Done (0, call (Start timer us 0) s).

Definition os_timer_del (timer : Z) (s : ztimers) : outcome (Z * ztimers) :=
  assert* negb (timer =? 0) in Done (0, call (Stop timer) s).

(** The fields of the object are the pool's again. *)
Definition os_timer_destroy (timer : Z) (s : ztimers) : outcome (Z * ztimers) :=
  assert* negb (timer =? 0) in
  let s := call (Stop timer) s in
  let* m := ObjPool.os_obj_free OBJ_TIMER_CLASS timer (z_pools s) in
  Done (0, mk_z m (delete timer (z_objs s)) (z_calls s)).

(** ** From the creation to the callback *)

Section Created.
Context (Hfn : adaptor_fn <> 0).

(** What a creation leaves. *)
Lemma create_fields cb arg isr s p s' : os_timer_create true cb arg isr s = Done (0, Some p, s') ->
  p <> 0 /\ cb <> 0 /\ z_objs s' !! p = Some (mk_timer (if negb isr then adaptor_fn else cb) arg (if negb isr then cb else 0)) /\
  z_calls s' = z_calls s ++ [Init p (if negb isr then adaptor_fn else cb) arg].
Proof.
  unfold os_timer_create. cbn [negb orb]. destruct (Z.eqb_spec cb 0); [done|].
  intros (r & _ & H)%obind_done. destruct (r.1 =? 0); [|done]. apply obind_done in H as (a & _ & H).
  destruct (Z.eqb_spec a.1 0); [done|]. apply obind_done in H as (m & _ & H). injection H as <- <-. split; [done|]. split; [done|].
  split; [|done]. cbn [z_objs call]. apply lookup_insert_eq.
Qed.

(** A timer for interrupt context calls its callback itself. *)
Lemma isr_timer_calls cb arg s p s' w : cb <> adaptor_fn -> os_timer_create true cb arg true s = Done (0, Some p, s') ->
  hrtimer_expires p s' w = Done (Some (cb, p, arg), w, []).
Proof.
  intros Hne (_ & _ & Ho & _)%create_fields. unfold hrtimer_expires. rewrite Ho. cbn [expiry_fn expiry_fn_arg negb].
  by rewrite (proj2 (Z.eqb_neq _ _)).
Qed.

(** Another timer puts a job at the end of the run queue, and the job calls
    the callback with the timer and its argument; when the queue has no free
    node, the callback is lost. *)
Lemma thread_timer_submits cb arg s p s' w : os_timer_create true cb arg false s = Done (0, Some p, s') ->
  timer_task_wrapper p s' = Done (cb, p, arg) /\
  exists w' e, hrtimer_expires p s' w = Done (None, w', e) /\
    match RunQueue.frees (RunQueue.ctx w) with
    | [] => w' = w /\ e = [RunQueue.EvBusy]
    | rn :: free => e = [RunQueue.EvSubmit (RunQueue.JDirect wrapper_fn p) false] /\
        RunQueue.frees (RunQueue.ctx w') = free /\
        RunQueue.pending (RunQueue.ctx w') = RunQueue.pending (RunQueue.ctx w) ++ [rn] /\
        RunQueue.nodes w' !! rn = Some (RunQueue.Direct wrapper_fn p)
    end.
Proof.
  intros (_ & Hcb & Ho & _)%create_fields. split.
  - unfold timer_task_wrapper. rewrite Ho. cbn [task expiry_fn_arg negb]. by rewrite (proj2 (Z.eqb_neq cb 0)).
  - unfold hrtimer_expires. rewrite Ho. cbn [expiry_fn negb]. rewrite Z.eqb_refl. do 2 eexists. split; [done|].
    unfold timeout_adaptor, RunQueue._rq_submit. destruct (RunQueue.frees (RunQueue.ctx w)) as [|rn free]; cbn; [done|].
    split_and!; try done. apply lookup_insert_eq.
Qed.
End Created.
End Timers.

(** ** The time that is set *)

(** The time is exact up to 35 minutes. *)
Lemma hrtimer_ms_exact n : 0 <= n <= 2147483 -> HRTIMER_MS n = Done (n * 1000).
Proof.
  intros Hn. unfold HRTIMER_MS. rewrite (proj2 (Z.leb_le _ _)), (proj2 (Z.ltb_lt _ _)) by lia. cbn [andb].
  f_equal. apply swrap_small; lia.
Qed.

(** One millisecond more is a negative time. *)
Example hrtimer_ms_wraps : HRTIMER_MS 2147484 = Done (- 2147483296).
Proof. vm_compute. reflexivity. Qed.

(** A job that is still in the run queue when its timer is destroyed looks at
    an object that is not a timer any more. *)
Lemma destroyed_timer_job timer s s' : os_timer_destroy timer s = Done (0, s') -> timer_task_wrapper timer s' = Undef.
Proof.
  unfold os_timer_destroy. destruct (negb _); [|done]. intros (m & _ & [= <-])%obind_done.
  unfold timer_task_wrapper. cbn [z_objs call]. by rewrite lookup_delete_eq.
Qed.

(** *** A run: created, started, over, run by the service thread *)

Definition words_z : gmap Z Z := list_to_map ((fun k => (4096 + 64 * Z.of_nat k, 0)) <$> seq 0 30).
Definition start_z : ztimers := mk_z (ObjPool.mk_pools ObjPool.initial_table words_z) ∅ [].
Definition queue_z : RunQueue.world := RunQueue.rq_start (RunQueue._rq_static_init (RunQueue.mk_rq [] [] 0 4096 2)).

Example timer_run :
  (let* c := os_timer_create 4096 64 1 true 77 5 false start_z in
   let* a := os_timer_add 5952 1500 c.2 in
   let* x := hrtimer_expires 1 2 5952 a.2 queue_z in
   let* q := RunQueue.rq_run [RunQueue.Service; RunQueue.Service] x.1.2 in
   let* f := timer_task_wrapper 5952 a.2 in
   Done (c.1.2, z_calls a.2, q.2, f)) =
  Done (Some 5952, [Init 5952 1 5; Start 5952 1500000 0],
        [RunQueue.EvTake; RunQueue.EvRun (RunQueue.JDirect 2 5952)], (77, 5952, 5)).
Proof. vm_compute. reflexivity. Qed.
End ZephyrTimer.
