(* ===== verification/CcInit.v ===== *)
(** * ccinit.cc, ccinit.h, cinit.h : the order of the initialisers

    [CC_INIT] registers an object whose [run] is called at start-up, by major
    and minor order.  [std::sort] is a parameter, with what the C++ standard
    says of it; it need not be stable.  The state [S] is that of the rest of
    the program. *)
From Stdlib Require Import ZArith Lia Bool.
From stdpp Require Import base list numbers sorting.
From S2P Require Import Prelude.

Module CcInit.

Definition kDeviceOrder : Z := 0.
Definition kApplicationOrder : Z := 128.

Section Init.
Context {S : Type}.

(** [cc_constructor]: [order_] has 32 bits; [run] is that of the object. *)
Record cc_constructor := mk_ctor { order_ : Z; ctor_run : S -> Z * S }.

(** The constructor's argument is an [int] that is stored as [unsigned]. *)
Definition new_ctor (level : Z) (run : S -> Z * S) : cc_constructor := mk_ctor (u32 level) run.
(** The argument [CC_INIT] gives it. *)
Definition cc_order (major minor : Z) : Z := Z.lor (Z.shiftl major 16) minor.

Definition order (c : cc_constructor) : Z := s32 (order_ c).
Definition major_order (c : cc_constructor) : Z := Z.land (Z.shiftr (order_ c) 16) 0xFFFF.

(** [cc_initializer]; an object that was deleted leaves a dangling pointer. *)
Record cc_initializer := mk_init { container_ : list (option cc_constructor); sorted_ : bool }.

Definition add_constructor (c : cc_constructor) (p : cc_initializer) : cc_initializer :=
  mk_init (container_ p ++ [Some c]) (sorted_ p).

(** The loop of [cc_initializer::run]. *)
Fixpoint run_from (l : list (option cc_constructor)) (first_order last_order : Z) (s : S) : outcome (Z * S) :=
  match l with
  | [] => Done (0, s)
  | None :: _ => Undef
  | Some iter :: l =>
      let order := major_order iter in
      if order >? last_order then Done (0, s)
      else if order >=? first_order then
        let '(ret, s) := ctor_run iter s in
        if negb (ret =? 0) then Done (ret, s) else run_from l first_order last_order s
      else run_from l first_order last_order s
  end.
Definition run (p : cc_initializer) (first_order last_order : Z) (s : S) : outcome (Z * S) :=
  run_from (container_ p) first_order last_order s.

(** [std::sort] with the comparison of orders. *)
Context (std_sort : list cc_constructor -> list cc_constructor).

Fixpoint all_alive (l : list (option cc_constructor)) : option (list cc_constructor) :=
  match l with
  | [] => Some []
  | x :: l => c ← x; k ← all_alive l; Some (c :: k)
  end.

Definition sort (p : cc_initializer) : outcome cc_initializer :=
  match all_alive (container_ p) with
  | Some l => Done (mk_init (Some <$> std_sort l) true)
  | None => Undef
  end.

(** [clear] deletes the objects and leaves the container. *)
Fixpoint delete_all (l : list (option cc_constructor)) : outcome (list (option cc_constructor)) :=
  match l with
  | [] => Done []
  | None :: _ => Undef
  | Some _ :: l => let* k := delete_all l in Done (None :: k)
  end.
Definition clear (p : cc_initializer) : outcome cc_initializer :=
  let* l := delete_all (container_ p) in Done (mk_init l (sorted_ p)).

Definition cc_initializer_run (first_order last_order : Z) (p : cc_initializer) (s : S)
    : outcome (Z * S * cc_initializer) :=
  let* p := (if sorted_ p then Done p else sort p) in
  let* r := run p first_order last_order s in
  Done (r, p).

Definition c_initializer_run (p : cc_initializer) (s : S) := cc_initializer_run 0 0xFFFF p s.
Definition c_initializer_run_order (major : Z) (p : cc_initializer) (s : S) := cc_initializer_run major major p s.

(** [c_initializer_destroy], and the destructor at the end of the program. *)
Definition c_initializer_destroy (p : cc_initializer) : outcome cc_initializer := clear p.
Definition at_exit (p : cc_initializer) : outcome cc_initializer := clear p.

(** ** The specification *)

(** The functions in order, until one of them fails. *)
Fixpoint run_all (l : list cc_constructor) (s : S) : Z * S :=
  match l with
  | [] => (0, s)
  | c :: l => let '(ret, s) := ctor_run c s in if negb (ret =? 0) then (ret, s) else run_all l s
  end.

Definition wanted (first_order last_order : Z) (c : cc_constructor) : Prop :=
  first_order <= major_order c <= last_order.
#[local] Instance wanted_dec f l c : Decision (wanted f l c).
Proof. unfold wanted. apply _. Defined.

(** In the order of major and minor numbers. *)
Definition by_order (c d : cc_constructor) : Prop := order c <= order d.

(** What the standard says of [std::sort]. *)
Definition sorts : Prop := forall l, std_sort l ≡ₚ l /\ StronglySorted by_order (std_sort l).

Lemma all_alive_some l : all_alive (Some <$> l) = Some l.
Proof. induction l as [|c l IH]; [done|]. rewrite fmap_cons. cbn [all_alive]. by rewrite IH. Qed.

Lemma by_order_major c d : 0 <= order_ c < 2 ^ 31 -> 0 <= order_ d < 2 ^ 31 -> by_order c d ->
  major_order c <= major_order d.
Proof.
  intros Hc Hd. unfold by_order, order, major_order. change (2 ^ 31) with 2147483648 in *.
  rewrite !swrap_small by (simpl; lia). intros H. change 0xFFFF with (2 ^ 16 - 1).
  rewrite !land_mask by lia. rewrite !Z.shiftr_div_pow2 by lia. change (2 ^ 16) with 65536. zlia.
Qed.

Lemma filter_none {A} (P : A -> Prop) `{forall x, Decision (P x)} (l : list A) :
  (forall x, x ∈ l -> ~ P x) -> filter P l = [].
Proof.
  induction l as [|x l IH]; intros Hn; [done|]. rewrite filter_cons_False by (apply Hn; constructor).
  apply IH. intros y Hy. apply Hn. by constructor.
Qed.

(** On a sorted list the loop runs what is wanted, and nothing else. *)
Lemma run_from_sorted l first_order last_order s :
  StronglySorted by_order l -> Forall (fun c => 0 <= order_ c < 2 ^ 31) l ->
  run_from (Some <$> l) first_order last_order s = Done (run_all (filter (wanted first_order last_order) l) s).
Proof.
  revert s. induction l as [|c l IH]; intros s Hs Hf; [done|].
  apply StronglySorted_inv in Hs as [Hs Hc]. apply Forall_cons in Hf as [Hcf Hf].
  rewrite fmap_cons. cbn [run_from]. rewrite Z.gtb_ltb, Z.geb_leb.
  destruct (Z.ltb_spec last_order (major_order c)) as [Hlt|Hle].
  - replace (filter (wanted first_order last_order) (c :: l)) with (@nil cc_constructor); [done|].
    symmetry. apply filter_none. intros d Hd Hw. unfold wanted in Hw.
    apply elem_of_cons in Hd as [->|Hd]; [lia|]. rewrite Forall_forall in Hc, Hf.
    pose proof (by_order_major c d Hcf (Hf d Hd) (Hc d Hd)). lia.
  - destruct (Z.leb_spec first_order (major_order c)) as [Hge|Hlt].
    + rewrite filter_cons_True by (unfold wanted; lia). cbn [run_all].
      destruct (ctor_run c s) as [ret s']. destruct (negb (ret =? 0)); [done|]. by apply IH.
    + rewrite filter_cons_False by (unfold wanted; lia). by apply IH.
Qed.

(** C31: [c_initializer_run] and [c_initializer_run_order] run the registered
    functions whose major order is in the range, each once, in increasing
    order of major and minor numbers whatever the order of the registrations
    was, and stop at the first that fails, whose code is the result; the
    table stays sorted for the next call. *)
Theorem initializers_run_in_order (l : list cc_constructor) first_order last_order s :
  sorts -> Forall (fun c => 0 <= order_ c < 2 ^ 31) l ->
  exists k, StronglySorted by_order k /\ k ≡ₚ filter (wanted first_order last_order) l /\
    cc_initializer_run first_order last_order (mk_init (Some <$> l) false) s =
      Done (run_all k s, mk_init (Some <$> std_sort l) true) /\
    forall f' l' s', cc_initializer_run f' l' (mk_init (Some <$> std_sort l) true) s' =
      Done (run_all (filter (wanted f' l') (std_sort l)) s', mk_init (Some <$> std_sort l) true).
Proof.
  intros Hsort Hl. destruct (Hsort l) as [Hp Hs].
  assert (Forall (fun c => 0 <= order_ c < 2 ^ 31) (std_sort l)) as Hl' by (by rewrite Hp).
  exists (filter (wanted first_order last_order) (std_sort l)). split_and!.
  - clear -Hs. induction Hs as [|c k Hs IH Hc]; [constructor|]. rewrite filter_cons. case_decide; [|done].
    constructor; [done|]. rewrite Forall_forall in Hc |- *. intros d [_ Hd]%list_elem_of_filter. auto.
  - by rewrite Hp.
  - unfold cc_initializer_run, sort, run. cbn [sorted_ container_]. rewrite all_alive_some. cbn [obind container_].
    by rewrite run_from_sorted.
  - intros f' l' s'. unfold cc_initializer_run, run. cbn [sorted_ container_ obind]. by rewrite run_from_sorted.
Qed.

(** [c_initializer_destroy] does not empty the container: the destructor at
    the end of the program deletes the objects a second time. *)
Lemma destroy_twice (l : list cc_constructor) srt :
  l <> [] -> (let* q := c_initializer_destroy (mk_init (Some <$> l) srt) in at_exit q) = Undef.
Proof.
  assert (forall k : list cc_constructor, delete_all (Some <$> k) = Done ((fun _ => None) <$> k)) as Hd.
  { induction k as [|c k IH]; [done|]. rewrite !fmap_cons. cbn [delete_all]. by rewrite IH. }
  intros Hl. unfold c_initializer_destroy, at_exit, clear. cbn [container_ sorted_]. rewrite Hd. cbn [obind container_].
  by destruct l.
Qed.

(** A function registered after the first run is not sorted in. *)
Lemma late_constructor_unsorted (l : list cc_constructor) c :
  add_constructor c (mk_init (Some <$> l) true) = mk_init (Some <$> l ++ [c]) true.
Proof. unfold add_constructor. cbn [container_ sorted_]. by rewrite fmap_app. Qed.
End Init.

(** ** Witness: merge sort *)

Arguments cc_constructor : clear implicits.

Section Merge.
Context {S : Type}.
#[local] Instance by_order_dec : RelDecision (@by_order S).
Proof. unfold by_order. intros c d. apply _. Defined.
#[local] Instance by_order_trans : Transitive (@by_order S).
Proof. unfold by_order. intros c d e ??. lia. Qed.
#[local] Instance by_order_total : Total (@by_order S).
Proof. unfold by_order. intros c d. lia. Qed.

Definition merge : list (cc_constructor S) -> list (cc_constructor S) := merge_sort by_order.

Lemma merge_sorts : sorts merge.
Proof.
  intros l. split; [apply merge_sort_Permutation|]. apply StronglySorted_merge_sort; apply _.
Qed.
End Merge.

(** The device of the virtual flash, an application, and a device before the
    first; each leaves a mark. *)
Definition marks (level n ret : Z) : cc_constructor (list Z) := new_ctor level (fun s => (ret, s ++ [n])).
Definition ctors_example : list (cc_constructor (list Z)) :=
  [marks (cc_order kApplicationOrder 0) 3 0; marks (cc_order kDeviceOrder 10) 2 0; marks (cc_order kDeviceOrder 5) 1 0].

Lemma initializers_run_in_order_witness :
  exists k, StronglySorted by_order k /\ k ≡ₚ filter (wanted 0 127) ctors_example /\
    cc_initializer_run merge 0 127 (mk_init (Some <$> ctors_example) false) [] =
      Done (run_all k [], mk_init (Some <$> merge ctors_example) true) /\
    forall f' l' s', cc_initializer_run merge f' l' (mk_init (Some <$> merge ctors_example) true) s' =
      Done (run_all (filter (wanted f' l') (merge ctors_example)) s', mk_init (Some <$> merge ctors_example) true).
Proof.
  refine (initializers_run_in_order merge ctors_example 0 127 [] merge_sorts _).
  repeat constructor; vm_compute; discriminate.
Defined.

Example initializers_example :
  (let* r := c_initializer_run merge (mk_init (Some <$> ctors_example) false) [] in Done r.1) = Done (0, [1; 2; 3]).
Proof. vm_compute. reflexivity. Qed.
End CcInit.
