(* ===== verification/Resource.v ===== *)
(** * ui/resource : resource tables of the user interface

    rc_access.c, the calls of any resource manager, and rc_actions_impl.c,
    the manager over the resource loader of the graphics library: three pools
    of objects linked through their first words, contexts with the lists of
    what was loaded for them, and the callbacks that load more when a table
    is opened.  The graphics library is the log of its calls with the answers
    it gives.  A callback is a program over the operations it gets. *)
From Stdlib Require Import ZArith Lia Bool.
From stdpp Require Import base list numbers gmap strings.
From S2P Require Import Prelude.

Module Resource.

(** ** State *)

(** A call of the graphics library: what is loaded gets a handle, the number
    of the call. *)
Inductive lvcall :=
| LoadScene (id : Z) (sty pic str : string)
| LoadGroup (parent id : Z) | LoadPicregion (parent id : Z)
| LoadPictures (from oid num : Z) | LoadStrings (from oid num : Z) | OpenFont (name : Z)
| Unload (h : Z).

(** An element of a pool: free, with the link in its first word, or in use. *)
Inductive cell (A : Type) := Link (next : option nat) | Obj (a : A).
Arguments Link {A} next.
Arguments Obj {A} a.

Record pool (A : Type) := mk_pool { freelst : option nat; cells : list (cell A) }.
Arguments mk_pool {A} freelst cells.
Arguments freelst {A} _.
Arguments cells {A} _.

(** [rc_context]; [None] is memory without a value. A node of a list is its
    index in the pool, a resource its address. *)
Record rc_context := mk_context {
  scene : option Z; grp_list : list nat; prg_list : list nat; res_list : list nat; ld_ops : bool }.

(** [enum resource_type], and [struct resource]: the object of the caller
    [pres] is an address, 0 for NULL. *)
Inductive resource_type := UI_RES_PICTURE | UI_RES_STRING | UI_RES_FONT | UI_RES_OTHER.
Record resource := mk_resource { r_type : resource_type; r_oid : Z; r_num : Z; r_pres : Z }.

(** [rc_img_obj], [rc_str_obj], [rc_font_obj] behind a [resource_node]: the
    handle of what was loaded, and [obj]. *)
Inductive rc_obj :=
| ImgObj (obj : option Z) (imgs : option Z)
| StrObj (obj : option Z) (rstr : option Z)
| FontObj (obj : option Z) (font : option Z).
Inductive release_fn := rc_pictures_release | rc_strings_release | rc_font_release.
Record resource_node := mk_node { nd_release : option release_fn; nd_data : rc_obj }.

(** What the caller's [image_obj], [string_obj] or [font_obj] points to, and
    [num]. *)
Record user_obj := mk_uobj { uo_type : resource_type; uo_res : option nat; uo_num : Z }.

(** The classes: which functions are there. *)
#[export] Instance resource_type_eq : EqDecision resource_type.
Proof. solve_decision. Defined.

Record rm_class := mk_class { has_alloc : bool; has_free : bool }.

Record st := mk_st {
  rm_class_ops : option rm_class;
  contexts : pool rc_context;
  groups : pool Z;
  picreg : pool Z;
  files : string * string * string; (* sty_file, pic_file, str_file *)
  subrc_root : list nat;
  nodes : gmap nat resource_node;
  users : gmap Z user_obj;
  heap_next : nat;        (* the next address of the allocator *)
  memory : list bool;     (* the answers of the allocator *)
  answers : list Z;       (* the answers of the graphics library *)
  log : list (lvcall * Z) (* its calls, with the answers *)
}.

Definition set_rm v s := mk_st v (contexts s) (groups s) (picreg s) (files s) (subrc_root s) (nodes s) (users s) (heap_next s) (memory s) (answers s) (log s).
Definition set_contexts v s := mk_st (rm_class_ops s) v (groups s) (picreg s) (files s) (subrc_root s) (nodes s) (users s) (heap_next s) (memory s) (answers s) (log s).
Definition set_groups v s := mk_st (rm_class_ops s) (contexts s) v (picreg s) (files s) (subrc_root s) (nodes s) (users s) (heap_next s) (memory s) (answers s) (log s).
Definition set_picreg v s := mk_st (rm_class_ops s) (contexts s) (groups s) v (files s) (subrc_root s) (nodes s) (users s) (heap_next s) (memory s) (answers s) (log s).
Definition set_files v s := mk_st (rm_class_ops s) (contexts s) (groups s) (picreg s) v (subrc_root s) (nodes s) (users s) (heap_next s) (memory s) (answers s) (log s).
Definition set_subrc v s := mk_st (rm_class_ops s) (contexts s) (groups s) (picreg s) (files s) v (nodes s) (users s) (heap_next s) (memory s) (answers s) (log s).
Definition set_nodes v s := mk_st (rm_class_ops s) (contexts s) (groups s) (picreg s) (files s) (subrc_root s) v (users s) (heap_next s) (memory s) (answers s) (log s).
Definition set_users v s := mk_st (rm_class_ops s) (contexts s) (groups s) (picreg s) (files s) (subrc_root s) (nodes s) v (heap_next s) (memory s) (answers s) (log s).
Definition set_heap n m s := mk_st (rm_class_ops s) (contexts s) (groups s) (picreg s) (files s) (subrc_root s) (nodes s) (users s) n m (answers s) (log s).
Definition set_lv a l s := mk_st (rm_class_ops s) (contexts s) (groups s) (picreg s) (files s) (subrc_root s) (nodes s) (users s) (heap_next s) (memory s) a l.

(** ** A monad of the state and the outcome *)

Definition R (A : Type) := st -> outcome (A * st).
#[export] Instance R_ret : MRet R := fun A a s => Done (a, s).
#[export] Instance R_bind : MBind R := fun A B k m s =>
  match m s with Done (a, s) => k a s | Assert => Assert | Undef => Undef end.

Definition get {A} (f : st -> A) : R A := fun s => Done (f s, s).
Definition modify (f : st -> st) : R unit := fun s => Done (tt, f s).
Definition RC_ASSERT (b : bool) : R unit := fun s => if b then Done (tt, s) else Assert.
Definition undef {A} : R A := fun _ => Undef.
Definition deref {A} (a : option A) : R A := match a with Some a => mret a | None => undef end.

(** A call of the graphics library: its answer, and its number for a handle. *)
Definition lv (c : lvcall) : R (Z * Z) := fun s =>
  let err := default 0 (head (answers s)) in
  Done ((err, len (log s)), set_lv (tail (answers s)) (log s ++ [(c, err)]) s).
(** It answers nothing. *)
Definition unload (h : Z) : R unit := modify (fun s => set_lv (answers s) (log s ++ [(Unload h, 0)]) s).

(** ** The pools of rc_actions_impl.c *)

Definition SCENE_MAX : nat := 10.
Definition GROUP_MAX : nat := SCENE_MAX + 50.
Definition PICREG_MAX : nat := 5.

(** The object becomes the head; its first word gets the old one. *)
Definition pool_push {A} (p : pool A) (i : nat) : pool A := mk_pool (Some i) (<[i := Link (freelst p)]> (cells p)).

(** A loop of [rc_pool_init], from element [i] on. *)
Fixpoint pool_init_loop {A} (n i : nat) (p : pool A) : pool A :=
  match n with O => p | S n => pool_init_loop n (S i) (pool_push p i) end.

Definition rc_pool_init : R unit :=
  modify (fun s =>
    set_picreg (pool_init_loop PICREG_MAX 0 (picreg s))
      (set_groups (pool_init_loop GROUP_MAX 0 (groups s))
        (set_contexts (pool_init_loop SCENE_MAX 0 (contexts s)) s))).

(** The static object: every word is 0. *)
Definition pool_0 {A} (n : nat) : pool A := mk_pool None (replicate n (Link None)).

(** The object and the pool; [None]: the assertion fails. *)
Definition pool_alloc {A} (p : pool A) : outcome (nat * pool A) :=
  match freelst p with
  | None => Assert
  | Some i => match cells p !! i with Some (Link next) => Done (i, mk_pool next (cells p)) | _ => Undef end
  end.
Definition pool_set {A} (i : nat) (a : A) (p : pool A) : pool A := mk_pool (freelst p) (<[i := Obj a]> (cells p)).
Definition pool_get {A} (p : pool A) (i : nat) : option A :=
  match cells p !! i with Some (Obj a) => Some a | _ => None end.

(** [rc_alloc (type)], a pool at a time. *)
Definition rc_alloc {A} (get : st -> pool A) (set : pool A -> st -> st) : R nat := fun s =>
  let* r := pool_alloc (get s) in Done (r.1, set r.2 s).
Definition rc_free {A} (get : st -> pool A) (set : pool A -> st -> st) (i : nat) : R unit := fun s =>
  Done (tt, set (pool_push (get s) i) s).

Abbreviation alloc_scene := (rc_alloc contexts set_contexts).
Abbreviation alloc_group := (rc_alloc groups set_groups).
Abbreviation alloc_picreg := (rc_alloc picreg set_picreg).

Definition get_rc (rc : nat) : R rc_context := p ← get contexts; deref (pool_get p rc).
Definition put_rc (rc : nat) (c : rc_context) : R unit := modify (fun s => set_contexts (pool_set rc c (contexts s)) s).

(** ** Loading groups and picture regions *)

(** The four functions of [subrc_load_ops]: [h] is the group to load from,
    [None] for NULL, and [rc] the context. *)
Definition rc_load_group (parent : rc_context -> R Z) (id : Z) (rc : nat) : R (option nat) :=
  grp ← alloc_group;
  c ← get_rc rc; from ← parent c; r ← lv (LoadGroup from id);
  if negb (r.1 =? 0) then rc_free groups set_groups grp ;; mret None
  else
    modify (fun s => set_groups (pool_set grp r.2 (groups s)) s) ;;
    c ← get_rc rc;
    put_rc rc (mk_context (scene c) (grp_list c ++ [grp]) (prg_list c) (res_list c) (ld_ops c)) ;;
    mret (Some grp).

Definition rc_load_picreg (parent : rc_context -> R Z) (id : Z) (rc : nat) : R (option nat) :=
  prg ← alloc_picreg;
  c ← get_rc rc; from ← parent c; r ← lv (LoadPicregion from id);
  if negb (r.1 =? 0) then rc_free picreg set_picreg prg ;; mret None
  else
    modify (fun s => set_picreg (pool_set prg r.2 (picreg s)) s) ;;
    c ← get_rc rc;
    put_rc rc (mk_context (scene c) (grp_list c) (prg_list c ++ [prg]) (res_list c) (ld_ops c)) ;;
    mret (Some prg).

Definition of_scene (c : rc_context) : R Z := deref (scene c).
Definition of_group (h : nat) (c : rc_context) : R Z := p ← get groups; deref (pool_get p h).

Definition rc_load_group_from_scene (id : Z) (rc : option nat) : R (option nat) :=
  match rc with None => mret None | Some rc => rc_load_group of_scene id rc end.
Definition rc_load_group_from_group (h : option nat) (id : Z) (rc : option nat) : R (option nat) :=
  match h, rc with Some h, Some rc => rc_load_group (of_group h) id rc | _, _ => mret None end.
Definition rc_load_picreg_from_scene (id : Z) (rc : option nat) : R (option nat) :=
  match rc with None => mret None | Some rc => rc_load_picreg of_scene id rc end.
Definition rc_load_picreg_from_group (h : option nat) (id : Z) (rc : option nat) : R (option nat) :=
  match h, rc with Some h, Some rc => rc_load_picreg (of_group h) id rc | _, _ => mret None end.

(** What a callback does with the operations it gets: its loads, each with
    what it does with the result, and the [bool] it returns. *)
Inductive loader :=
| Return (b : bool)
| GroupFromScene (id : Z) (k : option nat -> loader)
| GroupFromGroup (h : option nat) (id : Z) (k : option nat -> loader)
| PicregFromScene (id : Z) (k : option nat -> loader)
| PicregFromGroup (h : option nat) (id : Z) (k : option nat -> loader).

Fixpoint run_loader (p : loader) (rc : nat) : R bool :=
  match p with
  | Return b => mret b
  | GroupFromScene id k => r ← rc_load_group_from_scene id (Some rc); run_loader (k r) rc
  | GroupFromGroup h id k => r ← rc_load_group_from_group h id (Some rc); run_loader (k r) rc
  | PicregFromScene id k => r ← rc_load_picreg_from_scene id (Some rc); run_loader (k r) rc
  | PicregFromGroup h id k => r ← rc_load_picreg_from_group h id (Some rc); run_loader (k r) rc
  end.

(** ** Opening and closing a table *)

Section Manager.
(** The function [subrc_load] of each [subrc_node], if any. *)
Context (subrc_load : nat -> option (Z -> nat -> loader)).

(** The nodes up to the first whose function says it is responsible; the
    answer is 0 in every case. *)
Fixpoint load_subrcs (l : list nat) (scene : Z) (rc : nat) : R Z :=
  match l with
  | [] => mret 0
  | subrc :: l =>
      match subrc_load subrc with
      | Some f => b ← run_loader (f scene rc) rc; if b : bool then mret 0 else load_subrcs l scene rc
      | None => load_subrcs l scene rc
      end
  end.
Definition rc_load_subrc (scene : Z) (rc : nat) : R Z := l ← get subrc_root; load_subrcs l scene rc.

(** [handle] tells whether the pointer is there; what is stored in it is the
    second part of the result. *)
Definition rc_open (oid : Z) (handle : bool) : R (Z * option nat) :=
  let scene := u32 oid in
  if negb handle then mret (- EINVAL, None)
  else
    rc ← alloc_scene;
    put_rc rc (mk_context None [] [] [] false) ;;
    f ← get files;
    let '(sty_file, pic_file, str_file) := f in
    r ← lv (LoadScene scene str_file pic_file str_file);
    if negb (r.1 =? 0) then mret (r.1, None)
    else
      put_rc rc (mk_context (Some r.2) [] [] [] true) ;;
      err ← rc_load_subrc scene rc;
      (if negb (err =? 0) then unload r.2 else mret tt) ;;
      mret (err, Some rc).

(** ** Resource nodes: rc_access.c *)

Definition class_alloc : R (option nat) := fun s =>
  let ok := default true (head (memory s)) in
  Done (if ok : bool then Some (heap_next s) else None,
        set_heap (if ok : bool then S (heap_next s) else heap_next s) (tail (memory s)) s).
Definition _resource_malloc : R (option nat) :=
  ops ← get rm_class_ops;
  match ops with
  | None => fun _ => Assert
  | Some c => RC_ASSERT (has_alloc c) ;; class_alloc
  end.
(** [ptr] is not NULL. *)
Definition _resource_mfree (ptr : nat) : R unit :=
  ops ← get rm_class_ops;
  match ops with
  | None => fun _ => Assert
  | Some c => RC_ASSERT (has_free c) ;; modify (fun s => set_nodes (delete ptr (nodes s)) s)
  end.

Definition _resource_node_alloc (release : option release_fn) (data : rc_obj) (rc : nat) : R (option nat) :=
  rn ← _resource_malloc;
  match rn with
  | None => mret None
  | Some p =>
      modify (fun s => set_nodes (<[p := mk_node release data]> (nodes s)) s) ;;
      c ← get_rc rc;
      put_rc rc (mk_context (scene c) (grp_list c) (prg_list c) (res_list c ++ [p]) (ld_ops c)) ;;
      mret (Some p)
  end.

(** [list_del] takes the node out of the list it is in. *)
Definition unlink (p : nat) (x : cell rc_context) : cell rc_context :=
  match x with
  | Obj c => Obj (mk_context (scene c) (grp_list c) (prg_list c) (filter (fun q => q <> p) (res_list c)) (ld_ops c))
  | x => x
  end.
Definition get_node (p : nat) : R resource_node := m ← get nodes; deref (m !! p).
Definition set_data (p : nat) (d : rc_obj) : R unit :=
  n ← get_node p; modify (fun s => set_nodes (<[p := mk_node (nd_release n) d]> (nodes s)) s).

Definition _resource_node_free (p : nat) : R unit :=
  _ ← get_node p;
  modify (fun s => set_contexts (mk_pool (freelst (contexts s)) (unlink p <$> cells (contexts s))) s) ;;
  _resource_mfree p.

(** [num] of the caller's object. *)
Definition user_num (obj : option Z) : R Z := a ← deref obj; m ← get users; u ← deref (m !! a); mret (uo_num u).

Definition release (f : release_fn) (p : nat) : R unit :=
  n ← get_node p;
  match f, nd_data n with
  | rc_pictures_release, ImgObj obj imgs => _ ← user_num obj; h ← deref imgs; unload h ;; _resource_node_free p
  | rc_strings_release, StrObj obj rstr => _ ← user_num obj; h ← deref rstr; unload h ;; _resource_node_free p
  | rc_font_release, FontObj obj font => h ← deref font; unload h ;; _resource_node_free p
  | _, _ => undef
  end.

(** The loops from the tail of a list, safe against the removal of the node:
    a list and what is left to do. *)
Fixpoint for_each {A} (l : list A) (f : A -> R unit) : R unit :=
  match l with [] => mret tt | a :: l => f a ;; for_each l f end.

Definition _resources_release (head : list nat) : R unit :=
  for_each (rev head) (fun p =>
    n ← get_node p; match nd_release n with Some f => release f p | None => mret tt end).

Definition rc_close (handle : option nat) : R unit :=
  match handle with
  | None => mret tt
  | Some rc =>
      c ← get_rc rc;
      _resources_release (res_list c) ;;
      c ← get_rc rc;
      for_each (rev (prg_list c)) (fun prg =>
        c ← get_rc rc;
        put_rc rc (mk_context (scene c) (grp_list c) (filter (fun q => q <> prg) (prg_list c)) (res_list c) (ld_ops c)) ;;
        p ← get picreg; h ← deref (pool_get p prg);
        unload h ;; rc_free picreg set_picreg prg) ;;
      c ← get_rc rc;
      for_each (rev (grp_list c)) (fun grp =>
        c ← get_rc rc;
        put_rc rc (mk_context (scene c) (filter (fun q => q <> grp) (grp_list c)) (prg_list c) (res_list c) (ld_ops c)) ;;
        p ← get groups; h ← deref (pool_get p grp);
        unload h ;; rc_free groups set_groups grp) ;;
      c ← get_rc rc;
      h ← deref (scene c); unload h
  end.

(** ** Loading and unloading resources *)

Definition get_handle (l : list nat) (p : pool Z) : option (list Z) := mapM (pool_get p) l.

(** The sources in turn, until one has what is wanted: the error of the last
    and the handle. *)
Fixpoint first_of (l : list lvcall) (err : Z) : R (Z * option Z) :=
  match l with
  | [] => mret (err, None)
  | c :: l => r ← lv c; if r.1 =? 0 then mret (0, Some r.2) else first_of l r.1
  end.

Definition set_user (a : Z) (u : user_obj) : R unit :=
  m ← get users;
  match m !! a with
  | Some u' => if bool_decide (uo_type u' = uo_type u) then modify (fun s => set_users (<[a := u]> (users s)) s) else undef
  | None => undef
  end.

Definition rc_load_pictures (rc : nat) (r : resource) : R Z :=
  p ← _resource_node_alloc (Some rc_pictures_release) (ImgObj None None) rc;
  match p with
  | None => mret (- ENOMEM)
  | Some p =>
      c ← get_rc rc; sc ← deref (scene c); g ← get groups; q ← get picreg;
      gs ← deref (get_handle (grp_list c) g); ps ← deref (get_handle (prg_list c) q);
      a ← first_of ((fun from => LoadPictures from (r_oid r) (r_num r)) <$> sc :: gs ++ ps) 0;
      match a.2 with
      | None => _resource_node_free p ;; mret a.1
      | Some h =>
          set_data p (ImgObj None (Some h)) ;;
          set_user (r_pres r) (mk_uobj UI_RES_PICTURE (Some p) (r_num r)) ;; mret 0
      end
  end.

Definition rc_load_strings (rc : nat) (r : resource) : R Z :=
  p ← _resource_node_alloc (Some rc_strings_release) (StrObj None None) rc;
  match p with
  | None => mret (- ENOMEM)
  | Some p =>
      c ← get_rc rc; sc ← deref (scene c); g ← get groups; gs ← deref (get_handle (grp_list c) g);
      a ← first_of ((fun from => LoadStrings from (r_oid r) (r_num r)) <$> sc :: gs) 0;
      match a.2 with
      | None => _resource_node_free p ;; mret a.1
      | Some h =>
          set_user (r_pres r) (mk_uobj UI_RES_STRING (Some p) (r_num r)) ;;
          set_data p (StrObj (Some (r_pres r)) (Some h)) ;; mret 0
      end
  end.

Definition rc_load_font (rc : nat) (r : resource) : R Z :=
  if r_pres r =? 0 then mret (- EINVAL)
  else
    p ← _resource_node_alloc (Some rc_font_release) (FontObj None None) rc;
    match p with
    | None => mret (- ENOMEM)
    | Some p =>
        a ← lv (OpenFont (r_oid r));
        (if negb (a.1 =? 0) then _resource_node_free p else set_data p (FontObj None (Some a.2))) ;;
        n ← get_node p;
        set_data p (match nd_data n with FontObj _ f => FontObj (Some (r_pres r)) f | d => d end) ;;
        set_user (r_pres r) (mk_uobj UI_RES_FONT (Some p) 0) ;; mret 0
    end.

Definition rc_load (handle : option nat) (r : option resource) : R Z :=
  match handle, r with
  | Some rc, Some r =>
      match r_type r with
      | UI_RES_PICTURE => rc_load_pictures rc r
      | UI_RES_STRING => rc_load_strings rc r
      | UI_RES_FONT => rc_load_font rc r
      | UI_RES_OTHER => mret (- EINVAL)
      end
  | _, _ => mret (- EINVAL)
  end.

(** The caller's object of type [t] at [r_pres r], and the node that is in
    front of what it points to. *)
Definition user_node (t : resource_type) (r : resource) : R (user_obj * nat) :=
  RC_ASSERT (negb (r_pres r =? 0)) ;;
  m ← get users; u ← deref (m !! r_pres r);
  if bool_decide (uo_type u = t) then p ← deref (uo_res u); mret (u, p) else undef.

Definition rc_unload (handle : option nat) (r : option resource) : R unit :=
  match handle, r with
  | Some rc, Some r =>
      match r_type r with
      | UI_RES_OTHER => mret tt
      | t =>
          up ← user_node t r; n ← get_node up.2;
          match t, nd_data n with
          | UI_RES_PICTURE, ImgObj _ h => h ← deref h; unload h ;; _resource_node_free up.2
          | UI_RES_STRING, StrObj obj h => _ ← user_num obj; h ← deref h; unload h ;; _resource_node_free up.2
          | UI_RES_FONT, FontObj _ h => h ← deref h; unload h ;; _resource_node_free up.2
          | _, _ => undef
          end
      end
  | _, _ => mret tt
  end.

(** ** The calls of any manager *)

Definition ui_resource_manager_register (rm : option rm_class) : R Z :=
  match rm with
  | None => mret (- EINVAL)
  | Some c =>
      ops ← get rm_class_ops;
      match ops with Some _ => mret (- EBUSY) | None => modify (set_rm (Some c)) ;; mret 0 end
  end.

Definition registered {A} (m : R A) : R A := ops ← get rm_class_ops; RC_ASSERT (bool_decide (is_Some ops)) ;; m.
Definition ui_resource_open (oid : Z) (handle : bool) : R (Z * option nat) := registered (rc_open oid handle).
Definition ui_resource_close (handle : option nat) : R unit := registered (rc_close handle).
Definition ui_resource_get (handle : option nat) (r : option resource) : R Z := registered (rc_load handle r).
Definition ui_resource_get_ext (handle : option nat) (type : resource_type) (oid num res : Z) : R Z :=
  ui_resource_get handle (Some (mk_resource type oid num res)).
Definition ui_resource_put (handle : option nat) (r : option resource) : R unit := registered (rc_unload handle r).

(** [rc_actions]: its [alloc] and [free] are NULL. *)
Definition rc_actions : rm_class := mk_class false false.

Definition rc_actions_init (pic_file str_file sty_file : string) : R Z :=
  rc_pool_init ;;
  modify (set_files (sty_file, pic_file, str_file)) ;;
  ui_resource_manager_register (Some rc_actions).

Definition rc_actions_subrc_register (subrc_nd : option nat) : R Z :=
  match subrc_nd with
  | None => mret (- EINVAL)
  | Some n =>
      l ← get subrc_root;
      if bool_decide (n ∈ l) then mret (- EEXIST) else modify (set_subrc (n :: l)) ;; mret 0
  end.

End Manager.

(** The program before the manager is initialised. *)
Definition st_0 : st :=
  mk_st None (pool_0 SCENE_MAX) (pool_0 GROUP_MAX) (pool_0 PICREG_MAX) ("", "", "")%string [] ∅ ∅ 0 [] [] [].

(** ** Pools *)

Section Pool.
Context {A : Type}.
Implicit Types (p : pool A) (held : gmap nat A).

(** The free elements from [h] on. *)
Fixpoint chain p (h : option nat) (l : list nat) : Prop :=
  match l with
  | [] => h = None
  | i :: l => h = Some i /\ exists next, cells p !! i = Some (Link next) /\ chain p next l
  end.

(** The pool of [n] elements: the free ones in order, the ones in use with
    their contents, and the one that has been taken out and not been used. *)
Record pool_ok (n : nat) p (free : list nat) held (out : option nat) : Prop := {
  po_length : length (cells p) = n;
  po_chain : chain p (freelst p) free;
  po_nodup : NoDup free;
  po_free : forall i, i ∈ free -> held !! i = None /\ out <> Some i;
  po_held : forall i a, held !! i = Some a -> cells p !! i = Some (Obj a) /\ out <> Some i;
  po_out : forall i, out = Some i -> (i < n)%nat;
  po_all : forall i, (i < n)%nat -> i ∈ free \/ is_Some (held !! i) \/ out = Some i }.

Lemma chain_lookup p h l i : chain p h l -> i ∈ l -> exists next, cells p !! i = Some (Link next).
Proof.
  revert h. induction l as [|j l IH]; intros h Hc Hi; [by apply elem_of_nil in Hi|].
  destruct Hc as (-> & next & Hj & Hc). apply elem_of_cons in Hi as [-> |Hi]; eauto.
Qed.

Lemma chain_insert p h l i x : chain p h l -> i ∉ l -> chain (mk_pool (freelst p) (<[i := x]> (cells p))) h l.
Proof.
  revert h. induction l as [|j l IH]; intros h Hc Hi; [done|]. apply not_elem_of_cons in Hi as [Hne Hi].
  destruct Hc as (-> & next & Hj & Hc). split; [done|]. exists next. simpl.
  rewrite list_lookup_insert_ne by done. auto.
Qed.

Lemma chain_head p f h l : chain (mk_pool f (cells p)) h l <-> chain p h l.
Proof.
  revert h. induction l as [|j l IH]; intros h; [done|]. simpl.
  split; intros (-> & next & Hj & Hc); (split; [done|]); exists next; (split; [done|]); by apply IH.
Qed.

Lemma pool_push_ok n p free held out i :
  pool_ok n p free held out -> out = Some i \/ (out = None /\ is_Some (held !! i)) ->
  pool_ok n (pool_push p i) (i :: free) (delete i held) None.
Proof.
  intros [L C N F B U Al] Hi.
  assert ((i < length (cells p))%nat /\ i ∉ free) as [Hlt Hfree].
  { destruct Hi as [-> |[-> [a Ha]]].
    - split; [rewrite L; by apply U|]. intros Hin. by apply F in Hin as [_ ?].
    - destruct (B i a Ha) as [Hb _]. split; [by eapply lookup_lt_Some|].
      intros Hin. apply F in Hin as [E _]. congruence. }
  split.
  - simpl. by rewrite length_insert.
  - simpl. split; [done|]. exists (freelst p). rewrite list_lookup_insert_eq by done. split; [done|].
    pose proof (chain_insert p (freelst p) free i (Link (freelst p)) C Hfree) as H1.
    by apply (chain_head _ (Some i)) in H1.
  - by constructor.
  - intros j [-> |Hj]%elem_of_cons; [split; [apply lookup_delete_eq|done]|].
    split; [|done]. apply lookup_delete_None. right. by apply F.
  - intros j a [Hne Ha]%lookup_delete_Some. split; [|done]. simpl. rewrite list_lookup_insert_ne by done. by apply B.
  - done.
  - intros j Hj. destruct (decide (j = i)) as [->|Hne]; [left; by constructor|].
    destruct (Al j Hj) as [?|[[a Ha]|E]]; [left; by constructor|right; left|].
    + exists a. by rewrite lookup_delete_ne by done.
    + destruct Hi as [E'|[E' _]]; congruence.
Qed.

Lemma pool_alloc_ok n p free held :
  pool_ok n p free held None ->
  match free with
  | [] => pool_alloc p = Assert
  | i :: free' => exists p', pool_alloc p = Done (i, p') /\ pool_ok n p' free' held (Some i)
  end.
Proof.
  intros [L C N F B U Al]. unfold pool_alloc. destruct free as [|i free]; [by rewrite C|].
  destruct C as (E & next & Hi & C). rewrite E, Hi. eexists. split; [done|].
  apply NoDup_cons in N as [N1 N2]. split; simpl; try done.
  - by apply chain_head.
  - intros j Hj. split; [apply F; by constructor|]. intros [= ->]. done.
  - intros j a Ha. split; [by apply B|]. intros [= ->]. destruct (F j ltac:(by constructor)). congruence.
  - intros j [= ->]. rewrite <- L. by eapply lookup_lt_Some.
  - intros j Hj. destruct (Al j Hj) as [[-> |?]%elem_of_cons|[?|?]]; auto. done.
Qed.

Lemma pool_set_ok n p free held out i a :
  pool_ok n p free held out -> out = Some i \/ (out = None /\ is_Some (held !! i)) ->
  pool_ok n (pool_set i a p) free (<[i := a]> held) None.
Proof.
  intros [L C N F B U Al] Hi.
  assert ((i < length (cells p))%nat /\ i ∉ free) as [Hlt Hfree].
  { destruct Hi as [-> |[-> [b Hb]]].
    - split; [rewrite L; by apply U|]. intros Hin. by apply F in Hin as [_ ?].
    - destruct (B i b Hb) as [Hc _]. split; [by eapply lookup_lt_Some|].
      intros Hin. apply F in Hin as [E _]. congruence. }
  split; try done.
  - simpl. by rewrite length_insert.
  - by apply chain_insert.
  - intros j Hj. split; [|done]. rewrite lookup_insert_ne; [by apply F|]. by intros ->.
  - intros j b Hb. split; [|done]. simpl. apply lookup_insert_Some in Hb as [[<- <-]|[Hne Hb]].
    + by rewrite list_lookup_insert_eq.
    + rewrite list_lookup_insert_ne by done. by apply B.
  - intros j Hj. destruct (decide (j = i)) as [->|Hne]; [right; left; exists a; apply lookup_insert_eq|].
    destruct (Al j Hj) as [?|[[b Hb]|E]]; [by left|right; left|].
    + exists b. by rewrite lookup_insert_ne by done.
    + destruct Hi as [E'|[E' _]]; congruence.
Qed.

Lemma pool_get_held n p free held out i a : pool_ok n p free held out -> held !! i = Some a -> pool_get p i = Some a.
Proof. intros Hp Ha. destruct (po_held _ _ _ _ _ Hp i a Ha) as [E _]. unfold pool_get. by rewrite E. Qed.

(** The loop of [rc_pool_init] on elements that are in no list. *)
Lemma pool_init_ok n :
  pool_ok n (pool_init_loop n 0 (pool_0 n)) (rev (seq 0 n)) ∅ None.
Proof.
  assert (forall k i p free, (i + k = n)%nat -> length (cells p) = n -> chain p (freelst p) free -> free = rev (seq 0 i) ->
    let p' := pool_init_loop k i p in
    length (cells p') = n /\ chain p' (freelst p') (rev (seq 0 n))) as Hl.
  { induction k as [|k IH]; intros i p free Hi HL HC Hf; simpl.
    - split; [done|]. rewrite Hf in HC. assert (i = n) as <- by lia. exact HC.
    - apply (IH (S i) (pool_push p i) (i :: free)); [lia|simpl; by rewrite length_insert| |].
      + simpl. split; [done|]. exists (freelst p). rewrite list_lookup_insert_eq by lia. split; [done|].
        pose proof (chain_insert p (freelst p) free i (Link (freelst p)) HC) as H1.
        apply (chain_head _ (Some i)) in H1; [done|]. subst free.  intros Hin. apply list_elem_of_In, in_rev, list_elem_of_In, elem_of_seq in Hin. lia.
      + subst free. by rewrite seq_S, rev_app_distr. }
  destruct (Hl n 0%nat (pool_0 n) [] ltac:(lia) ltac:(apply length_replicate) eq_refl eq_refl) as [H1 H2].
  assert (forall i, i ∈ rev (seq 0 n) <-> (i < n)%nat) as Hin.
  { intros i. rewrite list_elem_of_In, <- in_rev, <- list_elem_of_In, elem_of_seq. lia. }
  split; try done.
  - apply NoDup_ListNoDup, NoDup_rev, NoDup_ListNoDup, NoDup_seq.
  - intros i Hi. left. by apply Hin.
Qed.
End Pool.

(** ** What is loaded *)

(** The handles that have been loaded and not been unloaded; a handle is the
    number of its call. *)
Definition live_step (l : gset Z) (k : Z) (e : lvcall * Z) : gset Z :=
  match e with
  | (Unload h, _) => l ∖ {[h]}
  | (_, err) => if err =? 0 then l ∪ {[k]} else l
  end.
Fixpoint live_from (k : Z) (l : gset Z) (log : list (lvcall * Z)) : gset Z :=
  match log with [] => l | e :: log => live_from (k + 1) (live_step l k e) log end.
Definition live (log : list (lvcall * Z)) : gset Z := live_from 0 ∅ log.

Lemma live_snoc log e : live (log ++ [e]) = live_step (live log) (len log) e.
Proof.
  unfold live. assert (forall k l, live_from k l (log ++ [e]) = live_step (live_from k l log) (k + len log) e) as Hl.
  { induction log as [|x log IH]; intros k l; simpl.
    - f_equal. unfold len. simpl. lia.
    - rewrite IH. f_equal. unfold len. simpl. lia. }
  by rewrite Hl.
Qed.

Lemma live_step_bound l k e : (forall h, h ∈ l -> h < k) -> forall h, h ∈ live_step l k e -> h < k + 1.
Proof.
  intros Hl h. destruct e as [c err]. unfold live_step.
  destruct c; try (destruct (err =? 0)); set_unfold; intros Hh; try (destruct Hh as [Hh|Hh]);
    try (apply Hl in Hh; lia); try lia; destruct Hh as [Hh _]; apply Hl in Hh; lia.
Qed.

Lemma live_bound log h : h ∈ live log -> h < len log.
Proof.
  revert h. induction log as [|e log IH] using rev_ind; [set_solver|]. intros h. rewrite live_snoc.
  intros Hh. apply live_step_bound in Hh; [|done]. rewrite len_app. unfold len at 2. simpl. lia.
Qed.

(** ** Well-typed states *)

(** What a loaded handle is the content of. *)
Inductive owner := OScene (rc : nat) | OGroup (g : nat) | OPicreg (p : nat).

(** The free elements of the pools, the contents of those in use, and the
    owners of the handles. *)
Record world := mk_world {
  w_fc : list nat; w_fg : list nat; w_fp : list nat;
  w_ctx : gmap nat rc_context; w_grp : gmap nat Z; w_prg : gmap nat Z; w_own : gmap Z owner }.

(** Every object in use is in exactly one list of one context. *)
Record owned (proj : rc_context -> list nat) (held : gmap nat Z) (ctx : gmap nat rc_context) : Prop := {
  ow_nodup : forall rc c, ctx !! rc = Some c -> NoDup (proj c);
  ow_sound : forall rc c g, ctx !! rc = Some c -> g ∈ proj c -> is_Some (held !! g);
  ow_unique : forall rc rc' c c' g, ctx !! rc = Some c -> ctx !! rc' = Some c' -> g ∈ proj c -> g ∈ proj c' -> rc = rc';
  ow_complete : forall g, is_Some (held !! g) -> exists rc c, ctx !! rc = Some c /\ g ∈ proj c }.

(** The pools hold objects of their own kind, the lists of the open contexts
    [O] share the objects in use among them, closed contexts have none, and
    the handles that are loaded are the contents of scenes of open contexts
    and of objects in use. *)
Record WF (O : gset nat) (og op : option nat) (w : world) (s : st) : Prop := {
  wf_ctx : pool_ok SCENE_MAX (contexts s) (w_fc w) (w_ctx w) None;
  wf_grp : pool_ok GROUP_MAX (groups s) (w_fg w) (w_grp w) og;
  wf_prg : pool_ok PICREG_MAX (picreg s) (w_fp w) (w_prg w) op;
  wf_class : rm_class_ops s = Some rc_actions;
  wf_open : forall rc, rc ∈ O -> exists c h, w_ctx w !! rc = Some c /\ scene c = Some h /\ w_own w !! h = Some (OScene rc);
  wf_closed : forall rc c, w_ctx w !! rc = Some c -> rc ∉ O -> grp_list c = [] /\ prg_list c = [];
  wf_res : forall rc c, w_ctx w !! rc = Some c -> res_list c = [];
  wf_groups : owned grp_list (w_grp w) (w_ctx w);
  wf_picregs : owned prg_list (w_prg w) (w_ctx w);
  wf_own_grp : forall g h, w_grp w !! g = Some h -> w_own w !! h = Some (OGroup g);
  wf_own_prg : forall g h, w_prg w !! g = Some h -> w_own w !! h = Some (OPicreg g);
  wf_own : forall h o, w_own w !! h = Some o ->
    match o with
    | OScene rc => rc ∈ O /\ exists c, w_ctx w !! rc = Some c /\ scene c = Some h
    | OGroup g => w_grp w !! g = Some h
    | OPicreg p => w_prg w !! p = Some h
    end;
  wf_live : live (log s) = dom (w_own w) }.

(** A state that is well typed with the open contexts [O]. *)
Definition typed (O : gset nat) (s : st) : Prop := exists w, WF O None None w s.

(** [m] does nothing undefined, and ends in [Q] when no assertion fails. *)
Definition safe {A} (m : R A) (Q : A -> st -> Prop) (s : st) : Prop :=
  match m s with Done (a, s) => Q a s | Assert => True | Undef => False end.

Lemma safe_ret {A} (a : A) Q s : Q a s -> safe (mret a) Q s.
Proof. done. Qed.
Lemma safe_bind {A B} (m : R A) (k : A -> R B) Q s : safe m (fun a s => safe (k a) Q s) s -> safe (m ≫= k) Q s.
Proof. unfold safe, mbind, R_bind. by destruct (m s) as [[a s']| |]. Qed.
Lemma safe_mono {A} (m : R A) (P Q : A -> st -> Prop) s : safe m P s -> (forall a s, P a s -> Q a s) -> safe m Q s.
Proof. unfold safe. destruct (m s) as [[a s']| |]; auto. Qed.
Lemma safe_done {A} (m : R A) Q s a s' : m s = Done (a, s') -> Q a s' -> safe m Q s.
Proof. unfold safe. by intros ->. Qed.

(** ** Lists of the contexts *)

Lemma owned_add proj held ctx rc c c' g h :
  owned proj held ctx -> ctx !! rc = Some c -> held !! g = None -> proj c' = proj c ++ [g] ->
  owned proj (<[g := h]> held) (<[rc := c']> ctx).
Proof.
  intros [N S U C] Hc Hg Hp.
  assert (forall rc c, ctx !! rc = Some c -> g ∉ proj c) as Hnew.
  { intros rc0 c0 H0 Hin. destruct (S rc0 c0 g H0 Hin). congruence. }
  split.
  - intros rc0 c0 [[<- <-]|[_ H0]]%lookup_insert_Some; [|by eapply N]. rewrite Hp. apply NoDup_app.
    split; [by eapply N|]. split; [|apply NoDup_singleton].
    intros x Hx Hx'. apply list_elem_of_singleton in Hx' as ->. by eapply Hnew.
  - intros rc0 c0 x H0 Hx. destruct (decide (x = g)) as [->|Hne]; [rewrite lookup_insert_eq; eauto|].
    rewrite lookup_insert_ne by done. apply lookup_insert_Some in H0 as [[<- <-]|[_ H0]]; [|by eapply S].
    rewrite Hp in Hx. apply elem_of_app in Hx as [Hx|Hx%list_elem_of_singleton]; [by eapply S|done].
  - intros rc1 rc2 c1 c2 x H1 H2 X1 X2. destruct (decide (x = g)) as [->|Hne].
    + apply lookup_insert_Some in H1 as [[<- <-]|[_ H1]]; [|by apply Hnew in H1].
      apply lookup_insert_Some in H2 as [[<- <-]|[_ H2]]; [done|by apply Hnew in H2].
    + assert (forall rc0 c0, <[rc:=c']> ctx !! rc0 = Some c0 -> x ∈ proj c0 -> exists c1, ctx !! rc0 = Some c1 /\ x ∈ proj c1) as Hold.
      { intros rc0 c0 [[<- <-]|[_ H0]]%lookup_insert_Some Hx; [|eauto]. rewrite Hp in Hx. exists c. split; [done|].
        apply elem_of_app in Hx as [Hx|Hx%list_elem_of_singleton]; [done|congruence]. }
      destruct (Hold _ _ H1 X1) as (d1 & D1 & Y1), (Hold _ _ H2 X2) as (d2 & D2 & Y2). by eapply U.
  - intros x Hx. destruct (decide (x = g)) as [->|Hne].
    + exists rc, c'. rewrite lookup_insert_eq, Hp. split; [done|]. apply elem_of_app. right. constructor.
    + rewrite lookup_insert_ne in Hx by done. destruct (C x Hx) as (rc0 & c0 & H0 & X0).
      destruct (decide (rc0 = rc)) as [->|Hr].
      * exists rc, c'. rewrite lookup_insert_eq, Hp. split; [done|]. apply elem_of_app. left. congruence.
      * exists rc0, c0. by rewrite lookup_insert_ne by done.
Qed.

Lemma owned_same proj held ctx rc c c' :
  owned proj held ctx -> ctx !! rc = Some c -> proj c' = proj c -> owned proj held (<[rc := c']> ctx).
Proof.
  intros [N S U C] Hc Hp.
  assert (forall rc0 c0, <[rc:=c']> ctx !! rc0 = Some c0 -> exists c1, ctx !! rc0 = Some c1 /\ proj c0 = proj c1) as Hold.
  { intros rc0 c0 [[<- <-]|[_ H0]]%lookup_insert_Some; eauto. }
  split.
  - intros rc0 c0 H0. destruct (Hold _ _ H0) as (c1 & H1 & ->). by eapply N.
  - intros rc0 c0 x H0. destruct (Hold _ _ H0) as (c1 & H1 & ->). by eapply S.
  - intros rc1 rc2 c1 c2 x H1 H2. destruct (Hold _ _ H1) as (d1 & D1 & ->), (Hold _ _ H2) as (d2 & D2 & ->). by eapply U.
  - intros x Hx. destruct (C x Hx) as (rc0 & c0 & H0 & X0). destruct (decide (rc0 = rc)) as [->|Hr].
    + exists rc, c'. rewrite lookup_insert_eq, Hp. split; [done|congruence].
    + exists rc0, c0. by rewrite lookup_insert_ne by done.
Qed.

Lemma owned_remove proj held ctx rc c c' g :
  owned proj held ctx -> ctx !! rc = Some c -> g ∈ proj c -> proj c' = filter (fun q => q <> g) (proj c) ->
  owned proj (delete g held) (<[rc := c']> ctx).
Proof.
  intros [N S U C] Hc Hg Hp.
  assert (forall rc0 c0 x, <[rc:=c']> ctx !! rc0 = Some c0 -> x ∈ proj c0 ->
    x <> g /\ exists c1, ctx !! rc0 = Some c1 /\ x ∈ proj c1) as Hold.
  { intros rc0 c0 x [[<- <-]|[Hne H0]]%lookup_insert_Some Hx.
    - rewrite Hp in Hx. apply list_elem_of_filter in Hx as [H1 H2]. eauto.
    - split; [|eauto]. intros ->. apply Hne. symmetry. by eapply U. }
  split.
  - intros rc0 c0 [[<- <-]|[_ H0]]%lookup_insert_Some; [rewrite Hp; apply NoDup_filter|]; by eapply N.
  - intros rc0 c0 x H0 Hx. destruct (Hold _ _ _ H0 Hx) as (Hne & c1 & H1 & Hx1).
    rewrite lookup_delete_ne by done. by eapply S.
  - intros rc1 rc2 c1 c2 x H1 H2 X1 X2. destruct (Hold _ _ _ H1 X1) as (_ & d1 & D1 & Y1), (Hold _ _ _ H2 X2) as (_ & d2 & D2 & Y2).
    by eapply U.
  - intros x [h Hx]. apply lookup_delete_Some in Hx as [Hne Hx]. destruct (C x (ex_intro _ h Hx)) as (rc0 & c0 & H0 & X0).
    destruct (decide (rc0 = rc)) as [->|Hr].
    + exists rc, c'. rewrite lookup_insert_eq, Hp. split; [done|]. apply list_elem_of_filter. split; congruence.
    + exists rc0, c0. by rewrite lookup_insert_ne by done.
Qed.

(** ** The steps keep it *)

Lemma safe_get_rc O og op w s rc c Q :
  WF O og op w s -> w_ctx w !! rc = Some c -> Q c s -> safe (get_rc rc) Q s.
Proof.
  intros HW Hc HQ. eapply safe_done; [|exact HQ]. unfold get_rc, get, mbind, R_bind.
  by rewrite (pool_get_held _ _ _ _ _ rc c (wf_ctx _ _ _ _ _ HW) Hc).
Qed.

Lemma pool_out_fresh {A} n (p : pool A) free held i : pool_ok n p free held (Some i) -> held !! i = None.
Proof. intros Hp. destruct (held !! i) as [a|] eqn:E; [|done]. by destruct (po_held _ _ _ _ _ Hp i a E). Qed.

Lemma own_bound O og op w s h o : WF O og op w s -> w_own w !! h = Some o -> h < len (log s).
Proof. intros HW Ho. apply live_bound. rewrite (wf_live _ _ _ _ _ HW). by eapply elem_of_dom_2. Qed.

Lemma own_fresh O og op w s : WF O og op w s -> w_own w !! len (log s) = None.
Proof. intros HW. destruct (w_own w !! len (log s)) eqn:E; [|done]. apply (own_bound _ _ _ _ _ _ _ HW) in E. lia. Qed.

(** A call that loads nothing. *)
Lemma WF_log_fail O og op w s c err a :
  WF O og op w s -> err <> 0 -> (forall h, c <> Unload h) -> WF O og op w (set_lv a (log s ++ [(c, err)]) s).
Proof.
  intros [] He Hc. split; try done. simpl. rewrite live_snoc. unfold live_step.
  destruct c; try (rewrite (proj2 (Z.eqb_neq err 0)) by done; done). by destruct (Hc h).
Qed.

(** A handle that is new belongs to [o] from now on. *)
Lemma live_gain O og op w s c o :
  WF O og op w s -> (forall h, c <> Unload h) ->
  live (log s ++ [(c, 0)]) = dom (<[len (log s) := o]> (w_own w)).
Proof.
  intros HW Hc. rewrite live_snoc, dom_insert_L, <- (wf_live _ _ _ _ _ HW).
  destruct c; simpl; set_solver.
Qed.

Definition put_group (grp : nat) (h : Z) (rc : nat) (c : rc_context) (fg : list nat) (w : world) : world :=
  mk_world (w_fc w) fg (w_fp w)
    (<[rc := mk_context (scene c) (grp_list c ++ [grp]) (prg_list c) (res_list c) (ld_ops c)]> (w_ctx w))
    (<[grp := h]> (w_grp w)) (w_prg w) (<[h := OGroup grp]> (w_own w)).
Definition put_picreg (prg : nat) (h : Z) (rc : nat) (c : rc_context) (fp : list nat) (w : world) : world :=
  mk_world (w_fc w) (w_fg w) fp
    (<[rc := mk_context (scene c) (grp_list c) (prg_list c ++ [prg]) (res_list c) (ld_ops c)]> (w_ctx w))
    (w_grp w) (<[prg := h]> (w_prg w)) (<[h := OPicreg prg]> (w_own w)).

(** The parts of the invariant that only the context and the owners are
    concerned with, after [rc]'s lists have got something. *)
Lemma put_open (O : gset nat) (ctx : gmap nat rc_context) (own : gmap Z owner) rc c c' h o :
  own !! h = None -> ctx !! rc = Some c -> scene c' = scene c ->
  (forall rc0, rc0 ∈ O -> exists c h, ctx !! rc0 = Some c /\ scene c = Some h /\ own !! h = Some (OScene rc0)) ->
  forall rc0, rc0 ∈ O -> exists c1 h1, <[rc := c']> ctx !! rc0 = Some c1 /\ scene c1 = Some h1 /\
    <[h := o]> own !! h1 = Some (OScene rc0).
Proof.
  intros Hh Hc Hs Ho rc0 H0. destruct (Ho rc0 H0) as (c1 & h1 & E1 & E2 & E3).
  assert (h <> h1) by (intros <-; congruence). destruct (decide (rc0 = rc)) as [->|Hne].
  - exists c', h1. rewrite lookup_insert_eq, lookup_insert_ne by done. split_and!; [done|congruence|done].
  - exists c1, h1. by rewrite !lookup_insert_ne by done.
Qed.

Lemma put_own (ctx : gmap nat rc_context) rc c c' rc0 h :
  ctx !! rc = Some c -> scene c' = scene c ->
  (exists c1, ctx !! rc0 = Some c1 /\ scene c1 = Some h) ->
  exists c1, <[rc := c']> ctx !! rc0 = Some c1 /\ scene c1 = Some h.
Proof.
  intros Hc Hs (c1 & E1 & E2). destruct (decide (rc0 = rc)) as [->|Hne].
  - exists c'. rewrite lookup_insert_eq. split; [done|congruence].
  - exists c1. by rewrite lookup_insert_ne by done.
Qed.

Lemma WF_put_group O w s call a grp rc c fg :
  WF O (Some grp) None w s -> rc ∈ O -> w_ctx w !! rc = Some c -> fg = w_fg w -> (forall h, call <> Unload h) ->
  let s1 := set_lv a (log s ++ [(call, 0)]) s in
  let s2 := set_groups (pool_set grp (len (log s)) (groups s1)) s1 in
  WF O None None (put_group grp (len (log s)) rc c fg w)
    (set_contexts (pool_set rc (mk_context (scene c) (grp_list c ++ [grp]) (prg_list c) (res_list c) (ld_ops c))
       (contexts s2)) s2).
Proof.
  intros HW Hrc Hc -> Hcall s1 s2.
  pose proof (own_fresh _ _ _ _ _ HW) as Hfresh. pose proof (pool_out_fresh _ _ _ _ _ (wf_grp _ _ _ _ _ HW)) as Hg.
  pose proof (live_gain _ _ _ _ _ call (OGroup grp) HW Hcall) as Hlive. pose proof HW as [].
  split; simpl; try done.
  - eapply pool_set_ok; [exact wf_ctx0|]. right. split; [done|]. by eexists.
  - eapply pool_set_ok; [exact wf_grp0|by left].
  - by apply (put_open O (w_ctx w) (w_own w) rc c).
  - intros rc0 c0 [[<- <-]|[_ H0]]%lookup_insert_Some Hno; [done|eauto].
  - intros rc0 c0 [[<- <-]|[_ H0]]%lookup_insert_Some; simpl; eauto.
  - by apply (owned_add _ _ _ _ c).
  - by apply (owned_same _ _ _ _ c).
  - intros g h [[<- <-]|[Hne Hh]]%lookup_insert_Some; [by rewrite lookup_insert_eq|].
    rewrite lookup_insert_ne; [by apply wf_own_grp0|]. intros E. apply wf_own_grp0 in Hh. congruence.
  - intros g h Hh. apply wf_own_prg0 in Hh. rewrite lookup_insert_ne; [done|]. intros E. congruence.
  - intros h o [[<- <-]|[Hne Hh]]%lookup_insert_Some; [by rewrite lookup_insert_eq|]. apply wf_own0 in Hh.
    destruct o as [rc0|g|p]; [|rewrite lookup_insert_ne; [done|]; congruence|done].
    destruct Hh as [H0 Hs]. split; [done|]. by apply (put_own _ _ c).
Qed.

Lemma WF_put_picreg O w s call a prg rc c fp :
  WF O None (Some prg) w s -> rc ∈ O -> w_ctx w !! rc = Some c -> fp = w_fp w -> (forall h, call <> Unload h) ->
  let s1 := set_lv a (log s ++ [(call, 0)]) s in
  let s2 := set_picreg (pool_set prg (len (log s)) (picreg s1)) s1 in
  WF O None None (put_picreg prg (len (log s)) rc c fp w)
    (set_contexts (pool_set rc (mk_context (scene c) (grp_list c) (prg_list c ++ [prg]) (res_list c) (ld_ops c))
       (contexts s2)) s2).
Proof.
  intros HW Hrc Hc -> Hcall s1 s2.
  pose proof (own_fresh _ _ _ _ _ HW) as Hfresh. pose proof (pool_out_fresh _ _ _ _ _ (wf_prg _ _ _ _ _ HW)) as Hg.
  pose proof (live_gain _ _ _ _ _ call (OPicreg prg) HW Hcall) as Hlive. pose proof HW as [].
  split; simpl; try done.
  - eapply pool_set_ok; [exact wf_ctx0|]. right. split; [done|]. by eexists.
  - eapply pool_set_ok; [exact wf_prg0|by left].
  - by apply (put_open O (w_ctx w) (w_own w) rc c).
  - intros rc0 c0 [[<- <-]|[_ H0]]%lookup_insert_Some Hno; [done|eauto].
  - intros rc0 c0 [[<- <-]|[_ H0]]%lookup_insert_Some; simpl; eauto.
  - by apply (owned_same _ _ _ _ c).
  - by apply (owned_add _ _ _ _ c).
  - intros g h Hh. apply wf_own_grp0 in Hh. rewrite lookup_insert_ne; [done|]. intros E. congruence.
  - intros g h [[<- <-]|[Hne Hh]]%lookup_insert_Some; [by rewrite lookup_insert_eq|].
    rewrite lookup_insert_ne; [by apply wf_own_prg0|]. intros E. apply wf_own_prg0 in Hh. congruence.
  - intros h o [[<- <-]|[Hne Hh]]%lookup_insert_Some; [by rewrite lookup_insert_eq|]. apply wf_own0 in Hh.
    destruct o as [rc0|g|p]; [|done|rewrite lookup_insert_ne; [done|]; congruence].
    destruct Hh as [H0 Hs]. split; [done|]. by apply (put_own _ _ c).
Qed.

(** What a load gives: a new element of the context, or nothing. *)
Definition loaded (O : gset nat) (w : world) (held : world -> gmap nat Z) (r : option nat) (s : st) : Prop :=
  exists w', WF O None None w' s /\ dom (w_grp w) ⊆ dom (w_grp w') /\
    (forall g, r = Some g -> g ∈ dom (held w')).

Lemma load_group_ok O w s rc c parent id :
  WF O None None w s -> rc ∈ O -> w_ctx w !! rc = Some c ->
  (forall s1 og op w1, WF O og op w1 s1 -> w_grp w1 = w_grp w -> exists from, parent c s1 = Done (from, s1)) ->
  safe (rc_load_group parent id rc) (loaded O w w_grp) s.
Proof.
  intros HW Hrc Hc Hpar. unfold rc_load_group. apply safe_bind. unfold safe at 1, rc_alloc.
  pose proof (pool_alloc_ok _ _ _ _ (wf_grp _ _ _ _ _ HW)) as Ha.
  destruct (w_fg w) as [|grp fg] eqn:Efg; [by rewrite Ha|]. destruct Ha as (p & Ea & Hp). rewrite Ea. cbn [obind fst snd].
  set (w1 := mk_world (w_fc w) fg (w_fp w) (w_ctx w) (w_grp w) (w_prg w) (w_own w)).
  assert (WF O (Some grp) None w1 (set_groups p s)) as HW1 by (destruct HW; split; try done).
  apply safe_bind. eapply safe_get_rc; [exact HW1|exact Hc|]. apply safe_bind.
  destruct (Hpar _ _ _ _ HW1 eq_refl) as (from & Hfrom). eapply safe_done; [exact Hfrom|].
  apply safe_bind. unfold safe at 1, lv. cbn [fst snd].
  set (err := default 0 _). destruct (Z.eqb_spec err 0) as [E|E]; cbn [negb].
  - rewrite E. apply safe_bind. unfold safe at 1, modify. apply safe_bind.
    set (s2 := set_groups (pool_set _ _ _) _).
    assert (get_rc rc s2 = Done (c, s2)) as Hget.
    { unfold get_rc, get, mbind, R_bind.
      by rewrite (pool_get_held _ _ _ _ _ rc c (wf_ctx _ _ _ _ _ HW1 : pool_ok _ (contexts s2) _ _ _) Hc). }
    eapply safe_done; [exact Hget|]. apply safe_bind. unfold safe at 1, put_rc, modify. apply safe_ret.
    eexists. split; [by apply (WF_put_group O w1 _ (LoadGroup from id) _ grp rc c fg HW1)|].
    simpl. rewrite dom_insert_L. split; [set_solver|]. intros g [= <-]. set_solver.
  - apply safe_bind. unfold safe at 1, rc_free. apply safe_ret. exists w. split; [|split; [done|by intros]].
    pose proof (WF_log_fail _ _ _ _ _ (LoadGroup from id) err (tail (answers (set_groups p s))) HW1 E ltac:(done)) as HW2.
    pose proof (pool_push_ok _ _ _ _ _ grp (wf_grp _ _ _ _ _ HW2) ltac:(by left)) as Hp2. simpl in Hp2.
    rewrite delete_id in Hp2 by (by eapply pool_out_fresh). rewrite <- Efg in Hp2.
    destruct HW2; split; try done.
Qed.

Lemma load_picreg_ok O w s rc c parent id :
  WF O None None w s -> rc ∈ O -> w_ctx w !! rc = Some c ->
  (forall s1 og op w1, WF O og op w1 s1 -> w_grp w1 = w_grp w -> exists from, parent c s1 = Done (from, s1)) ->
  safe (rc_load_picreg parent id rc) (loaded O w w_prg) s.
Proof.
  intros HW Hrc Hc Hpar. unfold rc_load_picreg. apply safe_bind. unfold safe at 1, rc_alloc.
  pose proof (pool_alloc_ok _ _ _ _ (wf_prg _ _ _ _ _ HW)) as Ha.
  destruct (w_fp w) as [|prg fp] eqn:Efp; [by rewrite Ha|]. destruct Ha as (p & Ea & Hp). rewrite Ea. cbn [obind fst snd].
  set (w1 := mk_world (w_fc w) (w_fg w) fp (w_ctx w) (w_grp w) (w_prg w) (w_own w)).
  assert (WF O None (Some prg) w1 (set_picreg p s)) as HW1 by (destruct HW; split; try done).
  apply safe_bind. eapply safe_get_rc; [exact HW1|exact Hc|]. apply safe_bind.
  destruct (Hpar _ _ _ _ HW1 eq_refl) as (from & Hfrom). eapply safe_done; [exact Hfrom|].
  apply safe_bind. unfold safe at 1, lv. cbn [fst snd].
  set (err := default 0 _). destruct (Z.eqb_spec err 0) as [E|E]; cbn [negb].
  - rewrite E. apply safe_bind. unfold safe at 1, modify. apply safe_bind.
    set (s2 := set_picreg (pool_set _ _ _) _).
    assert (get_rc rc s2 = Done (c, s2)) as Hget.
    { unfold get_rc, get, mbind, R_bind.
      by rewrite (pool_get_held _ _ _ _ _ rc c (wf_ctx _ _ _ _ _ HW1 : pool_ok _ (contexts s2) _ _ _) Hc). }
    eapply safe_done; [exact Hget|]. apply safe_bind. unfold safe at 1, put_rc, modify. apply safe_ret.
    eexists. split; [by apply (WF_put_picreg O w1 _ (LoadPicregion from id) _ prg rc c fp HW1)|].
    simpl. rewrite dom_insert_L. split; [set_solver|]. intros g [= <-]. set_solver.
  - apply safe_bind. unfold safe at 1, rc_free. apply safe_ret. exists w. split; [|split; [done|by intros]].
    pose proof (WF_log_fail _ _ _ _ _ (LoadPicregion from id) err (tail (answers (set_picreg p s))) HW1 E ltac:(done)) as HW2.
    pose proof (pool_push_ok _ _ _ _ _ prg (wf_prg _ _ _ _ _ HW2) ltac:(by left)) as Hp2. simpl in Hp2.
    rewrite delete_id in Hp2 by (by eapply pool_out_fresh). rewrite <- Efp in Hp2.
    destruct HW2; split; try done.
Qed.

(** ** Callbacks *)

(** A callback loads from groups it has got before, from those of [known] or
    from NULL. *)
Fixpoint scoped (known : gset nat) (p : loader) : Prop :=
  match p with
  | Return _ => True
  | GroupFromScene _ k => scoped known (k None) /\ forall g, scoped ({[g]} ∪ known) (k (Some g))
  | GroupFromGroup h _ k =>
      (forall g, h = Some g -> g ∈ known) /\ scoped known (k None) /\ forall g, scoped ({[g]} ∪ known) (k (Some g))
  | PicregFromScene _ k => forall r, scoped known (k r)
  | PicregFromGroup h _ k => (forall g, h = Some g -> g ∈ known) /\ forall r, scoped known (k r)
  end.

Lemma of_scene_ok (c : rc_context) h s : scene c = Some h -> exists from, of_scene c s = Done (from, s).
Proof. intros E. exists h. unfold of_scene. by rewrite E. Qed.

Lemma of_group_ok O og op w s c g : WF O og op w s -> g ∈ dom (w_grp w) -> exists from, of_group g c s = Done (from, s).
Proof.
  intros HW [h Hh]%elem_of_dom. exists h. unfold of_group, get, mbind, R_bind.
  by rewrite (pool_get_held _ _ _ _ _ g h (wf_grp _ _ _ _ _ HW) Hh).
Qed.

Lemma run_loader_ok O rc p : rc ∈ O -> forall known w s,
  WF O None None w s -> known ⊆ dom (w_grp w) -> scoped known p ->
  safe (run_loader p rc) (fun _ s' => exists w', WF O None None w' s') s.
Proof.
  intros Hrc. induction p as [b|id k IH|h id k IH|id k IH|h id k IH]; intros known w s HW Hk Hs;
    cbn [run_loader]; [by apply safe_ret; exists w| | | |];
    destruct (wf_open _ _ _ _ _ HW rc Hrc) as (c & h0 & Hc & Hsc & _);
    assert (forall r s', loaded O w w_grp r s' -> (scoped known (k None) /\ forall g, scoped ({[g]} ∪ known) (k (Some g))) ->
      safe (run_loader (k r) rc) (fun _ s' => exists w', WF O None None w' s') s') as Hgrp by
      (intros r s' (w' & HW' & Hd & Hr) [H1 H2]; destruct r as [g|];
        [apply (IH (Some g) ({[g]} ∪ known) w'); [done| |done]; specialize (Hr g eq_refl); set_solver
        |apply (IH None known w'); [done| |done]; set_solver]);
    assert (forall r s', loaded O w w_prg r s' -> (forall r, scoped known (k r)) ->
      safe (run_loader (k r) rc) (fun _ s' => exists w', WF O None None w' s') s') as Hprg by
      (intros r s' (w' & HW' & Hd & _) H1; apply (IH r known w'); [done| |done]; set_solver);
    apply safe_bind.
  - eapply safe_mono; [eapply (load_group_ok O w s rc c of_scene id HW Hrc Hc); intros; by eapply of_scene_ok|auto].
  - destruct Hs as [Hh Hs]. destruct h as [g|]; cbn [rc_load_group_from_group].
    + eapply safe_mono; [eapply (load_group_ok O w s rc c (of_group g) id HW Hrc Hc)|auto].
      intros s1 og op w1 HW1 E. eapply of_group_ok; [done|]. rewrite E. apply Hk. by apply Hh.
    + apply safe_ret. apply Hgrp; [|done]. exists w. by split_and!.
  - eapply safe_mono; [eapply (load_picreg_ok O w s rc c of_scene id HW Hrc Hc); intros; by eapply of_scene_ok|auto].
  - destruct Hs as [Hh Hs]. destruct h as [g|]; cbn [rc_load_picreg_from_group].
    + eapply safe_mono; [eapply (load_picreg_ok O w s rc c (of_group g) id HW Hrc Hc)|auto].
      intros s1 og op w1 HW1 E. eapply of_group_ok; [done|]. rewrite E. apply Hk. by apply Hh.
    + apply safe_ret. apply Hprg; [|done]. exists w. by split_and!.
Qed.

(** ** Closing *)

Lemma live_lose O og op w s h :
  WF O og op w s -> live (log s ++ [(Unload h, 0)]) = dom (delete h (w_own w)).
Proof. intros HW. rewrite live_snoc, dom_delete_L, <- (wf_live _ _ _ _ _ HW). done. Qed.

Definition without_group (g : nat) (c : rc_context) : rc_context :=
  mk_context (scene c) (filter (fun q => q <> g) (grp_list c)) (prg_list c) (res_list c) (ld_ops c).
Definition without_picreg (g : nat) (c : rc_context) : rc_context :=
  mk_context (scene c) (grp_list c) (filter (fun q => q <> g) (prg_list c)) (res_list c) (ld_ops c).

Lemma drop_open (O : gset nat) (ctx : gmap nat rc_context) (own : gmap Z owner) rc c c' h :
  (forall rc, own !! h <> Some (OScene rc)) -> ctx !! rc = Some c -> scene c' = scene c ->
  (forall rc0, rc0 ∈ O -> exists c h, ctx !! rc0 = Some c /\ scene c = Some h /\ own !! h = Some (OScene rc0)) ->
  forall rc0, rc0 ∈ O -> exists c1 h1, <[rc := c']> ctx !! rc0 = Some c1 /\ scene c1 = Some h1 /\
    delete h own !! h1 = Some (OScene rc0).
Proof.
  intros Hh Hc Hs Ho rc0 H0. destruct (Ho rc0 H0) as (c1 & h1 & E1 & E2 & E3).
  assert (h <> h1) by (intros <-; by apply (Hh rc0)).
  destruct (put_own ctx rc c c' rc0 h1 Hc Hs ltac:(eauto)) as (c2 & F1 & F2).
  exists c2, h1. by rewrite lookup_delete_ne by done.
Qed.

Lemma WF_drop_picreg O w s rc c g h :
  WF O None None w s -> w_ctx w !! rc = Some c -> g ∈ prg_list c -> w_prg w !! g = Some h -> rc ∈ O ->
  let s1 := set_lv (answers s) (log s ++ [(Unload h, 0)])
              (set_contexts (pool_set rc (without_picreg g c) (contexts s)) s) in
  WF O None None
    (mk_world (w_fc w) (w_fg w) (g :: w_fp w) (<[rc := without_picreg g c]> (w_ctx w)) (w_grp w) (delete g (w_prg w))
       (delete h (w_own w)))
    (set_picreg (pool_push (picreg s) g) s1).
Proof.
  intros HW Hc Hg Hh Hrc s1. pose proof (live_lose _ _ _ _ _ h HW) as Hlive. destruct HW.
  pose proof (wf_own_prg0 _ _ Hh) as Ho. split; simpl; try done.
  - eapply pool_set_ok; [exact wf_ctx0|]. right. split; [done|]. by eexists.
  - eapply pool_push_ok; [exact wf_prg0|]. right. split; [done|]. by eexists.
  - apply (drop_open O (w_ctx w) (w_own w) rc c); try done. intros rc0. congruence.
  - intros rc0 c0 [[<- <-]|[_ H0]]%lookup_insert_Some Hno; [done|eauto].
  - intros rc0 c0 [[<- <-]|[_ H0]]%lookup_insert_Some; simpl; eauto.
  - by apply (owned_same _ _ _ _ c).
  - by apply (owned_remove _ _ _ _ c).
  - intros g0 h0 H0. apply wf_own_grp0 in H0. rewrite lookup_delete_ne; [done|]. intros <-. congruence.
  - intros g0 h0 [Hne H0]%lookup_delete_Some. apply wf_own_prg0 in H0. rewrite lookup_delete_ne; [done|].
    intros <-. congruence.
  - intros h0 o [Hne H0]%lookup_delete_Some. apply wf_own0 in H0. destruct o as [rc0|g0|g0]; [|done|].
    + destruct H0 as [H0 Hs]. split; [done|]. by apply (put_own _ _ c).
    + rewrite lookup_delete_ne; [done|]. intros <-. congruence.
Qed.

Lemma WF_drop_group O w s rc c g h :
  WF O None None w s -> w_ctx w !! rc = Some c -> g ∈ grp_list c -> w_grp w !! g = Some h -> rc ∈ O ->
  let s1 := set_lv (answers s) (log s ++ [(Unload h, 0)])
              (set_contexts (pool_set rc (without_group g c) (contexts s)) s) in
  WF O None None
    (mk_world (w_fc w) (g :: w_fg w) (w_fp w) (<[rc := without_group g c]> (w_ctx w)) (delete g (w_grp w)) (w_prg w)
       (delete h (w_own w)))
    (set_groups (pool_push (groups s) g) s1).
Proof.
  intros HW Hc Hg Hh Hrc s1. pose proof (live_lose _ _ _ _ _ h HW) as Hlive. destruct HW.
  pose proof (wf_own_grp0 _ _ Hh) as Ho. split; simpl; try done.
  - eapply pool_set_ok; [exact wf_ctx0|]. right. split; [done|]. by eexists.
  - eapply pool_push_ok; [exact wf_grp0|]. right. split; [done|]. by eexists.
  - apply (drop_open O (w_ctx w) (w_own w) rc c); try done. intros rc0. congruence.
  - intros rc0 c0 [[<- <-]|[_ H0]]%lookup_insert_Some Hno; [done|eauto].
  - intros rc0 c0 [[<- <-]|[_ H0]]%lookup_insert_Some; simpl; eauto.
  - by apply (owned_remove _ _ _ _ c).
  - by apply (owned_same _ _ _ _ c).
  - intros g0 h0 [Hne H0]%lookup_delete_Some. apply wf_own_grp0 in H0. rewrite lookup_delete_ne; [done|].
    intros <-. congruence.
  - intros g0 h0 H0. apply wf_own_prg0 in H0. rewrite lookup_delete_ne; [done|]. intros <-. congruence.
  - intros h0 o [Hne H0]%lookup_delete_Some. apply wf_own0 in H0. destruct o as [rc0|g0|g0]; [| |done].
    + destruct H0 as [H0 Hs]. split; [done|]. by apply (put_own _ _ c).
    + rewrite lookup_delete_ne; [done|]. intros <-. congruence.
Qed.

Lemma WF_drop_context O w s rc c h :
  WF O None None w s -> w_ctx w !! rc = Some c -> scene c = Some h -> rc ∈ O -> grp_list c = [] -> prg_list c = [] ->
  WF (O ∖ {[rc]}) None None
    (mk_world (w_fc w) (w_fg w) (w_fp w) (w_ctx w) (w_grp w) (w_prg w) (delete h (w_own w)))
    (set_lv (answers s) (log s ++ [(Unload h, 0)]) s).
Proof.
  intros HW Hc Hs Hrc Hg Hp. pose proof (live_lose _ _ _ _ _ h HW) as Hlive. destruct HW.
  destruct (wf_open0 rc Hrc) as (c1 & h1 & E1 & E2 & Ho). assert (c1 = c) as -> by congruence.
  assert (h1 = h) as -> by congruence. split; simpl; try done.
  - intros rc0 [H0 Hne]%elem_of_difference. destruct (wf_open0 rc0 H0) as (c0 & h0 & F1 & F2 & F3).
    exists c0, h0. split_and!; try done. rewrite lookup_delete_ne; [done|]. intros <-.
    rewrite Ho in F3. injection F3 as <-. set_solver.
  - intros rc0 c0 H0 Hno. destruct (decide (rc0 = rc)) as [->|Hne]; [split; congruence|].
    eapply wf_closed0; [done|]. set_solver.
  - intros g0 h0 H0. apply wf_own_grp0 in H0. rewrite lookup_delete_ne; [done|]. intros <-. congruence.
  - intros g0 h0 H0. apply wf_own_prg0 in H0. rewrite lookup_delete_ne; [done|]. intros <-. congruence.
  - intros h0 o [Hne H0]%lookup_delete_Some. apply wf_own0 in H0. destruct o as [rc0| |]; try done.
    destruct H0 as (H0 & c0 & F1 & F2). split; [|eauto]. apply elem_of_difference. split; [done|].
    intros ->%elem_of_singleton. congruence.
Qed.

(** The log of what is unloaded. *)
Definition unloads (m : gmap nat Z) (l : list nat) : list (lvcall * Z) :=
  (fun g => (Unload (default 0 (m !! g)), 0)) <$> l.

Lemma done_bind {A B} (m : R A) (k : A -> R B) s a s' : m s = Done (a, s') -> (m ≫= k) s = k a s'.
Proof. intros E. unfold mbind, R_bind. by rewrite E. Qed.

Lemma get_rc_done O og op w s rc c : WF O og op w s -> w_ctx w !! rc = Some c -> get_rc rc s = Done (c, s).
Proof.
  intros HW Hc. unfold get_rc, get, mbind, R_bind.
  by rewrite (pool_get_held _ _ _ _ _ rc c (wf_ctx _ _ _ _ _ HW) Hc).
Qed.

Lemma close_picregs O rc : rc ∈ O -> forall l w s c,
  WF O None None w s -> w_ctx w !! rc = Some c -> NoDup l -> (forall g, g ∈ l <-> g ∈ prg_list c) ->
  exists s' w' c',
    for_each l (fun prg =>
      c ← get_rc rc;
      put_rc rc (mk_context (scene c) (grp_list c) (filter (fun q => q <> prg) (prg_list c)) (res_list c) (ld_ops c)) ;;
      p ← get picreg; h ← deref (pool_get p prg);
      unload h ;; rc_free picreg set_picreg prg) s = Done (tt, s') /\
    WF O None None w' s' /\ w_ctx w' !! rc = Some c' /\ prg_list c' = [] /\ grp_list c' = grp_list c /\
    scene c' = scene c /\ w_grp w' = w_grp w /\ log s' = log s ++ unloads (w_prg w) l.
Proof.
  intros Hrc. induction l as [|g l IH]; intros w s c HW Hc Hl Hin; cbn [for_each].
  { exists s, w, c. split_and!; try done; [|by rewrite app_nil_r].
    destruct (prg_list c) as [|x xs]; [done|]. exfalso. eapply elem_of_nil, Hin. constructor. }
  apply NoDup_cons in Hl as [Hnew Hl]. assert (g ∈ prg_list c) as Hg by (apply Hin; constructor).
  destruct (ow_sound _ _ _ (wf_picregs _ _ _ _ _ HW) rc c g Hc Hg) as [h Hh].
  pose proof (WF_drop_picreg O w s rc c g h HW Hc Hg Hh Hrc) as HW1. cbv zeta in HW1.
  set (w1 := mk_world _ _ _ _ _ _ _) in HW1. set (s1 := set_picreg _ _) in HW1.
  destruct (IH w1 s1 (without_picreg g c) HW1) as (s' & w' & c' & Hrun & HW' & Hc' & P1 & P2 & P3 & P4 & P5); try done.
  { apply lookup_insert_eq. }
  { intros x. unfold without_picreg. cbn [prg_list]. rewrite list_elem_of_filter, <- (Hin x), elem_of_cons.
    split; [intros Hx; split; [by intros ->|by right]|tauto]. }
  exists s', w', c'. split_and!; try done.
  - erewrite done_bind; [exact Hrun|]. erewrite done_bind; [|by eapply get_rc_done].
    erewrite done_bind; [|reflexivity]. erewrite done_bind; [|reflexivity].
    erewrite done_bind; [|unfold deref; cbn [picreg set_contexts]; rewrite (pool_get_held _ _ _ _ _ g h (wf_prg _ _ _ _ _ HW) Hh); reflexivity].
    reflexivity.
  - rewrite P5. cbn [log s1 set_picreg set_lv]. rewrite <- app_assoc. f_equal. unfold unloads. cbn [fmap list_fmap].
    rewrite Hh. cbn [default from_option id app]. f_equal. apply list_fmap_ext. intros i x Hx.
    cbn [w_prg w1]. rewrite lookup_delete_ne; [done|]. intros <-. apply Hnew. by eapply list_elem_of_lookup_2.
Qed.

Lemma close_groups O rc : rc ∈ O -> forall l w s c,
  WF O None None w s -> w_ctx w !! rc = Some c -> NoDup l -> (forall g, g ∈ l <-> g ∈ grp_list c) ->
  exists s' w' c',
    for_each l (fun grp =>
      c ← get_rc rc;
      put_rc rc (mk_context (scene c) (filter (fun q => q <> grp) (grp_list c)) (prg_list c) (res_list c) (ld_ops c)) ;;
      p ← get groups; h ← deref (pool_get p grp);
      unload h ;; rc_free groups set_groups grp) s = Done (tt, s') /\
    WF O None None w' s' /\ w_ctx w' !! rc = Some c' /\ grp_list c' = [] /\ prg_list c' = prg_list c /\
    scene c' = scene c /\ log s' = log s ++ unloads (w_grp w) l.
Proof.
  intros Hrc. induction l as [|g l IH]; intros w s c HW Hc Hl Hin; cbn [for_each].
  { exists s, w, c. split_and!; try done; [|by rewrite app_nil_r].
    destruct (grp_list c) as [|x xs]; [done|]. exfalso. eapply elem_of_nil, Hin. constructor. }
  apply NoDup_cons in Hl as [Hnew Hl]. assert (g ∈ grp_list c) as Hg by (apply Hin; constructor).
  destruct (ow_sound _ _ _ (wf_groups _ _ _ _ _ HW) rc c g Hc Hg) as [h Hh].
  pose proof (WF_drop_group O w s rc c g h HW Hc Hg Hh Hrc) as HW1. cbv zeta in HW1.
  set (w1 := mk_world _ _ _ _ _ _ _) in HW1. set (s1 := set_groups _ _) in HW1.
  destruct (IH w1 s1 (without_group g c) HW1) as (s' & w' & c' & Hrun & HW' & Hc' & P1 & P2 & P3 & P5); try done.
  { apply lookup_insert_eq. }
  { intros x. unfold without_group. cbn [grp_list]. rewrite list_elem_of_filter, <- (Hin x), elem_of_cons.
    split; [intros Hx; split; [by intros ->|by right]|tauto]. }
  exists s', w', c'. split_and!; try done.
  - erewrite done_bind; [exact Hrun|]. erewrite done_bind; [|by eapply get_rc_done].
    erewrite done_bind; [|reflexivity]. erewrite done_bind; [|reflexivity].
    erewrite done_bind; [|unfold deref; cbn [groups set_contexts]; rewrite (pool_get_held _ _ _ _ _ g h (wf_grp _ _ _ _ _ HW) Hh); reflexivity].
    reflexivity.
  - rewrite P5. cbn [log s1 set_groups set_lv]. rewrite <- app_assoc. f_equal. unfold unloads. cbn [fmap list_fmap].
    rewrite Hh. cbn [default from_option id app]. f_equal. apply list_fmap_ext. intros i x Hx.
    cbn [w_grp w1]. rewrite lookup_delete_ne; [done|]. intros <-. apply Hnew. by eapply list_elem_of_lookup_2.
Qed.

(** [rc_close] of an open context does not fail, and unloads what was loaded
    for it in the opposite order, the scene last. *)
Lemma rc_close_run O w s rc :
  WF O None None w s -> rc ∈ O -> exists c h s',
    w_ctx w !! rc = Some c /\ scene c = Some h /\
    rc_close (Some rc) s = Done (tt, s') /\ typed (O ∖ {[rc]}) s' /\
    log s' = log s ++ unloads (w_prg w) (rev (prg_list c)) ++ unloads (w_grp w) (rev (grp_list c)) ++ [(Unload h, 0)].
Proof.
  intros HW Hrc. destruct (wf_open _ _ _ _ _ HW rc Hrc) as (c & h & Hc & Hs & _).
  assert (forall l : list nat, forall g, g ∈ rev l <-> g ∈ l) as Hrev.
  { intros l g. by rewrite !list_elem_of_In, <- in_rev. }
  assert (forall l : list nat, NoDup l -> NoDup (rev l)) as Hnd.
  { intros l Hl. apply NoDup_ListNoDup, NoDup_rev, NoDup_ListNoDup, Hl. }
  destruct (close_picregs O rc Hrc (rev (prg_list c)) w s c HW Hc) as (s1 & w1 & c1 & R1 & HW1 & Hc1 & P1 & P2 & P3 & P4 & P5);
    [apply Hnd; by apply (ow_nodup _ _ _ (wf_picregs _ _ _ _ _ HW) rc)|apply Hrev|].
  destruct (close_groups O rc Hrc (rev (grp_list c1)) w1 s1 c1 HW1 Hc1) as (s2 & w2 & c2 & R2 & HW2 & Hc2 & Q1 & Q2 & Q3 & Q5);
    [apply Hnd; by apply (ow_nodup _ _ _ (wf_groups _ _ _ _ _ HW1) rc)|apply Hrev|].
  exists c, h, (set_lv (answers s2) (log s2 ++ [(Unload h, 0)]) s2). split_and!; try done.
  - unfold rc_close. erewrite done_bind; [|by eapply get_rc_done].
    rewrite (wf_res _ _ _ _ _ HW rc c Hc). erewrite done_bind; [|reflexivity].
    erewrite done_bind; [|by eapply get_rc_done]. erewrite done_bind; [|exact R1].
    erewrite done_bind; [|by eapply get_rc_done]. erewrite done_bind; [|exact R2].
    erewrite done_bind; [|by eapply get_rc_done]. erewrite done_bind; [reflexivity|].
    unfold deref. by rewrite Q3, P3, Hs.
  - eexists. eapply WF_drop_context; try done; congruence.
  - cbn [log set_lv]. rewrite Q5, P5, P4, P2, <- !app_assoc. done.
Qed.

Lemma pool_get_in_use {A} n (p : pool A) free held i : pool_ok n p free held None -> is_Some (pool_get p i) -> is_Some (held !! i).
Proof.
  intros Hp [a Ha]. unfold pool_get in Ha. destruct (cells p !! i) as [[next|b]|] eqn:E; try done.
  destruct (po_all _ _ _ _ _ Hp i) as [Hi|[Hi|Hi]]; [|by destruct (chain_lookup _ _ _ i (po_chain _ _ _ _ _ Hp) Hi) as [? ?]; congruence|done|done].
  rewrite <- (po_length _ _ _ _ _ Hp). by eapply lookup_lt_Some.
Qed.

(** Nothing is in use when no table is open. *)
Lemma typed_closed s : typed ∅ s -> live (log s) = ∅ /\
  (forall g, pool_get (groups s) g = None) /\ (forall p, pool_get (picreg s) p = None).
Proof.
  intros (w & HW).
  assert (forall proj held g, owned proj held (w_ctx w) -> (forall c, grp_list c = [] -> prg_list c = [] -> proj c = []) ->
    held !! g = None) as Hno.
  { intros proj held g Hown Hp. destruct (held !! g) as [h|] eqn:E; [|done].
    destruct (ow_complete _ _ _ Hown g ltac:(by eexists)) as (rc & c & Hc & Hg).
    destruct (wf_closed _ _ _ _ _ HW rc c Hc ltac:(set_solver)) as [E1 E2].
    rewrite (Hp c E1 E2) in Hg. by apply elem_of_nil in Hg. }
  assert (forall g, w_grp w !! g = None) as Hg by (intros g; apply (Hno grp_list _ g (wf_groups _ _ _ _ _ HW)); done).
  assert (forall g, w_prg w !! g = None) as Hp by (intros g; apply (Hno prg_list _ g (wf_picregs _ _ _ _ _ HW)); done).
  split_and!.
  - rewrite (wf_live _ _ _ _ _ HW). apply dom_empty_iff_L, map_empty. intros h.
    destruct (w_own w !! h) as [o|] eqn:E; [|done]. apply (wf_own _ _ _ _ _ HW) in E.
    destruct o as [rc|g|p]; [destruct E; set_solver|by rewrite Hg in E|by rewrite Hp in E].
  - intros g. destruct (pool_get (groups s) g) eqn:E; [|done].
    destruct (pool_get_in_use _ _ _ _ g (wf_grp _ _ _ _ _ HW) ltac:(by eexists)) as [x Hx]. by rewrite Hg in Hx.
  - intros g. destruct (pool_get (picreg s) g) eqn:E; [|done].
    destruct (pool_get_in_use _ _ _ _ g (wf_prg _ _ _ _ _ HW) ltac:(by eexists)) as [x Hx]. by rewrite Hp in Hx.
Qed.

(** No function of the class has an allocator to call. *)
Lemma node_alloc_ok O w s release data rc Q : WF O None None w s -> safe (_resource_node_alloc release data rc) Q s.
Proof.
  intros HW. unfold _resource_node_alloc. apply safe_bind. unfold _resource_malloc. apply safe_bind.
  unfold safe at 1, get. rewrite (wf_class _ _ _ _ _ HW). apply safe_bind. done.
Qed.

Lemma rc_load_ok O w s handle r :
  WF O None None w s -> safe (rc_load handle r) (fun _ s' => typed O s') s.
Proof.
  intros HW. assert (typed O s) as HT by (by exists w).
  unfold rc_load. destruct handle as [rc|], r as [r|]; try by apply safe_ret.
  destruct (r_type r); [| |unfold rc_load_font; destruct (r_pres r =? 0); [by apply safe_ret|]|by apply safe_ret];
    apply safe_bind; by eapply node_alloc_ok.
Qed.

Lemma rc_unload_ok O w s handle r :
  WF O None None w s -> (forall x, r = Some x -> r_type x = UI_RES_OTHER \/ r_pres x = 0) ->
  safe (rc_unload handle r) (fun _ s' => typed O s') s.
Proof.
  intros HW Hr. assert (typed O s) as HT by (by exists w).
  unfold rc_unload. destruct handle as [rc|], r as [r|]; try by apply safe_ret.
  destruct (Hr r eq_refl) as [E|E]; [rewrite E; by apply safe_ret|].
  destruct (r_type r); [| | |by apply safe_ret];
    apply safe_bind; unfold user_node; apply safe_bind; unfold safe at 1, RC_ASSERT; by rewrite E.
Qed.

Lemma safe_registered {A} O w s (m : R A) Q : WF O None None w s -> safe m Q s -> safe (registered m) Q s.
Proof.
  intros HW Hm. unfold registered. apply safe_bind. unfold safe at 1, get. rewrite (wf_class _ _ _ _ _ HW).
  apply safe_bind. done.
Qed.

Section Typed.
Context (subrc_load : nat -> option (Z -> nat -> loader)).
Context (Hsubrc : forall n f scene rc, subrc_load n = Some f -> scoped ∅ (f scene rc)).

Lemma load_subrcs_ok O l sc rc : rc ∈ O -> forall w s, WF O None None w s ->
  safe (load_subrcs subrc_load l sc rc) (fun err s' => err = 0 /\ exists w', WF O None None w' s') s.
Proof.
  intros Hrc. induction l as [|n l IH]; intros w s HW; cbn [load_subrcs]; [apply safe_ret; eauto|].
  destruct (subrc_load n) as [f|] eqn:E; [|by eapply IH]. apply safe_bind.
  eapply safe_mono; [eapply (run_loader_ok O rc (f sc rc) Hrc ∅ w s HW); [set_solver|by eapply Hsubrc]|].
  intros b s' (w' & HW'). destruct b; [apply safe_ret; eauto|by eapply IH].
Qed.

(** ** Opening *)

Lemma WF_new_context O w s rc fc p :
  WF O None None w s -> w_fc w = rc :: fc -> pool_ok SCENE_MAX p fc (w_ctx w) (Some rc) ->
  WF O None None (mk_world fc (w_fg w) (w_fp w) (<[rc := mk_context None [] [] [] false]> (w_ctx w)) (w_grp w) (w_prg w) (w_own w))
    (set_contexts (pool_set rc (mk_context None [] [] [] false) p) s) /\ rc ∉ O /\ w_ctx w !! rc = None.
Proof.
  intros HW Efc Hp. pose proof (pool_out_fresh _ _ _ _ _ Hp) as Hfr.
  assert (rc ∉ O) as Hno.
  { intros Hin. destruct (wf_open _ _ _ _ _ HW rc Hin) as (c & h & Hc & _). congruence. }
  split; [|done]. destruct HW.
  assert (forall proj held, owned proj held (w_ctx w) -> proj (mk_context None [] [] [] false) = [] ->
    owned proj held (<[rc := mk_context None [] [] [] false]> (w_ctx w))) as Hown.
  { intros proj held [N S U C] Hp0. split.
    - intros rc0 c0 [[<- <-]|[_ H0]]%lookup_insert_Some; [rewrite Hp0; constructor|by eapply N].
    - intros rc0 c0 x [[<- <-]|[_ H0]]%lookup_insert_Some; [rewrite Hp0; by intros ?%elem_of_nil|by eapply S].
    - intros rc1 rc2 c1 c2 x H1 H2 X1 X2.
      apply lookup_insert_Some in H1 as [[<- <-]|[_ H1]]; [rewrite Hp0 in X1; by apply elem_of_nil in X1|].
      apply lookup_insert_Some in H2 as [[<- <-]|[_ H2]]; [rewrite Hp0 in X2; by apply elem_of_nil in X2|]. by eapply U.
    - intros x Hx. destruct (C x Hx) as (rc0 & c0 & H0 & X0). exists rc0, c0. split; [|done].
      rewrite lookup_insert_ne; [done|]. intros ->. congruence. }
  split; simpl; try done.
  - eapply pool_set_ok; [exact Hp|by left].
  - intros rc0 H0. destruct (wf_open0 rc0 H0) as (c & h & Hc & Hs & Hh). exists c, h.
    rewrite lookup_insert_ne; [done|]. intros ->. congruence.
  - intros rc0 c0 [[<- <-]|[_ H0]]%lookup_insert_Some; [done|eauto].
  - intros rc0 c0 [[<- <-]|[_ H0]]%lookup_insert_Some; [done|eauto].
  - by apply Hown.
  - by apply Hown.
  - intros h o Ho. apply wf_own0 in Ho. destruct o as [rc0| |]; try done.
    destruct Ho as (H0 & c & Hc & Hs). split; [done|]. exists c. rewrite lookup_insert_ne; [done|]. intros ->. congruence.
Qed.

Lemma WF_open_context O w s rc call a :
  WF O None None w s -> rc ∉ O -> w_ctx w !! rc = Some (mk_context None [] [] [] false) -> (forall h, call <> Unload h) ->
  let h := len (log s) in let c := mk_context (Some h) [] [] [] true in
  WF ({[rc]} ∪ O) None None
    (mk_world (w_fc w) (w_fg w) (w_fp w) (<[rc := c]> (w_ctx w)) (w_grp w) (w_prg w) (<[h := OScene rc]> (w_own w)))
    (set_contexts (pool_set rc c (contexts s)) (set_lv a (log s ++ [(call, 0)]) s)).
Proof.
  intros HW Hno Hc Hcall h c. pose proof (own_fresh _ _ _ _ _ HW) as Hfresh.
  pose proof (live_gain _ _ _ _ _ call (OScene rc) HW Hcall) as Hlive. destruct HW.
  split; simpl; try done.
  - eapply pool_set_ok; [exact wf_ctx0|]. right. split; [done|]. by eexists.
  - intros rc0 [->%elem_of_singleton|H0]%elem_of_union; [exists c, h; by rewrite !lookup_insert_eq|].
    destruct (wf_open0 rc0 H0) as (c0 & h0 & Hc0 & Hs0 & Hh0). exists c0, h0.
    assert (rc <> rc0) by (intros ->; done).
    assert (h <> h0) by (intros E; rewrite <- E in Hh0; unfold h in Hh0; congruence).
    by rewrite !lookup_insert_ne by done.
  - intros rc0 c0 [[<- <-]|[_ H0]]%lookup_insert_Some; [done|]. intros Hn. eapply wf_closed0; [done|set_solver].
  - intros rc0 c0 [[<- <-]|[_ H0]]%lookup_insert_Some; [done|eauto].
  - by eapply owned_same.
  - by eapply owned_same.
  - intros g h0 Hg. apply wf_own_grp0 in Hg. rewrite lookup_insert_ne; [done|]. intros E. rewrite <- E in Hg. unfold h in Hg. congruence.
  - intros g h0 Hg. apply wf_own_prg0 in Hg. rewrite lookup_insert_ne; [done|]. intros E. rewrite <- E in Hg. unfold h in Hg. congruence.
  - intros h0 o [[<- <-]|[Hne Ho]]%lookup_insert_Some.
    + split; [set_solver|]. exists c. by rewrite lookup_insert_eq.
    + apply wf_own0 in Ho. destruct o as [rc0| |]; try done. destruct Ho as (H0 & c0 & Hc0 & Hs0).
      split; [set_solver|]. exists c0. rewrite lookup_insert_ne; [done|]. by intros ->.
Qed.

(** The open contexts after an answer of [rc_open]. *)
Definition opened (r : Z * option nat) (O : gset nat) : gset nat :=
  match r.2 with Some rc => {[rc]} ∪ O | None => O end.

Lemma rc_open_ok O s oid handle : typed O s ->
  safe (rc_open subrc_load oid handle)
    (fun r s' => typed (opened r O) s' /\ (r.1 = 0 -> exists rc, r.2 = Some rc /\ rc ∉ O) /\ (r.1 <> 0 -> r.2 = None)) s.
Proof.
  intros (w & HW). unfold rc_open. destruct handle; cbn [negb]; [|apply safe_ret; split; [by exists w|done]].
  apply safe_bind. unfold safe at 1, rc_alloc.
  pose proof (pool_alloc_ok _ _ _ _ (wf_ctx _ _ _ _ _ HW)) as Ha.
  destruct (w_fc w) as [|rc fc] eqn:Efc; [by rewrite Ha|]. destruct Ha as (p & Ea & Hp). rewrite Ea. cbn [obind fst snd].
  apply safe_bind. unfold safe at 1, put_rc, modify.
  change (set_contexts (pool_set rc ?c (contexts (set_contexts p s))) (set_contexts p s))
    with (set_contexts (pool_set rc c p) s).
  destruct (WF_new_context O w s rc fc p HW Efc Hp) as (HW1 & Hno & Hfr). set (w1 := mk_world _ _ _ _ _ _ _) in HW1.
  set (s1 := set_contexts _ s) in *. apply safe_bind. unfold safe at 1, get.
  destruct (files s1) as [[sty pic] str]. apply safe_bind. unfold safe at 1, lv. cbn [fst snd].
  set (err := default 0 _). destruct (Z.eqb_spec err 0) as [E|E]; cbn [negb].
  - rewrite E. apply safe_bind. unfold safe at 1, put_rc, modify.
    pose proof (WF_open_context O w1 s1 rc (LoadScene (u32 oid) str pic str) (tail (answers s1)) HW1 Hno
      ltac:(apply lookup_insert_eq) ltac:(done)) as HW2.
    apply safe_bind. eapply safe_mono.
    { unfold rc_load_subrc. apply safe_bind. unfold safe at 1, get.
      eapply (load_subrcs_ok ({[rc]} ∪ O)); [set_solver|exact HW2]. }
    intros e s3 (-> & w3 & HW3). cbn [Z.eqb negb]. apply safe_bind, safe_ret, safe_ret.
    split; [by exists w3|]. split; [|done]. intros _. exists rc. done.
  - apply safe_ret. split; [|split; [done|done]]. exists w1.
    by apply (WF_log_fail _ _ _ _ _ (LoadScene (u32 oid) str pic str) err (tail (answers s1)) HW1 E).
Qed.

(** ** Any sequence of calls *)

(** The calls of an application; [Loads] is the use of [ld_ops] of an open
    context, with the groups [known] in hand. *)
Inductive cmd :=
| Open (oid : Z) (handle : bool) | Close (handle : option nat)
| Loads (rc : nat) (known : gset nat) (p : loader)
| Get (handle : option nat) (r : option resource) | Put (handle : option nat) (r : option resource)
| Subrc (n : option nat).

Definition exec (c : cmd) : R (Z * option nat) :=
  match c with
  | Open oid handle => ui_resource_open subrc_load oid handle
  | Close handle => ui_resource_close handle ;; mret (0, None)
  | Loads rc _ p => _ ← run_loader p rc; mret (0, None)
  | Get handle r => e ← ui_resource_get handle r; mret (e, None)
  | Put handle r => ui_resource_put handle r ;; mret (0, None)
  | Subrc n => e ← rc_actions_subrc_register n; mret (e, None)
  end.

(** The open contexts after a call. *)
Definition track (c : cmd) (r : Z * option nat) (O : gset nat) : gset nat :=
  match c with Open _ _ => opened r O | Close (Some rc) => O ∖ {[rc]} | _ => O end.

(** What a call may be given: handles of open contexts, groups in use, and,
    for a release, an object into which something was loaded; no load
    succeeds, so it can only be NULL or of an unknown type. *)
Definition allowed (O : gset nat) (s : st) (c : cmd) : Prop :=
  match c with
  | Open _ _ | Subrc _ => True
  | Close handle | Get handle _ => forall rc, handle = Some rc -> rc ∈ O
  | Loads rc known p => rc ∈ O /\ scoped known p /\ forall g, g ∈ known -> is_Some (pool_get (groups s) g)
  | Put handle r => (forall rc, handle = Some rc -> rc ∈ O) /\
      forall x, r = Some x -> r_type x = UI_RES_OTHER \/ r_pres x = 0
  end.

Inductive reached : gset nat -> st -> Prop :=
| ReachedInit pic str sty s : rc_actions_init pic str sty st_0 = Done (0, s) -> reached ∅ s
| ReachedStep O s c r s' : reached O s -> allowed O s c -> exec c s = Done (r, s') -> reached (track c r O) s'.

(** The state after the initialisation. *)
Definition st_1 (pic str sty : string) : st :=
  mk_st (Some rc_actions) (pool_init_loop SCENE_MAX 0 (pool_0 SCENE_MAX)) (pool_init_loop GROUP_MAX 0 (pool_0 GROUP_MAX))
    (pool_init_loop PICREG_MAX 0 (pool_0 PICREG_MAX)) (sty, pic, str) [] ∅ ∅ 0 [] [] [].

Lemma init_runs pic str sty : rc_actions_init pic str sty st_0 = Done (0, st_1 pic str sty).
Proof. reflexivity. Qed.

Lemma init_typed pic str sty s : rc_actions_init pic str sty st_0 = Done (0, s) -> typed ∅ s.
Proof.
  rewrite init_runs. intros [= <-].
  exists (mk_world (rev (seq 0 SCENE_MAX)) (rev (seq 0 GROUP_MAX)) (rev (seq 0 PICREG_MAX)) ∅ ∅ ∅ ∅).
  assert (forall proj : rc_context -> list nat, owned proj ∅ ∅) as Hown.
  { intros proj. split; try done. intros g [h Hh]. done. }
  split; try done; apply pool_init_ok.
Qed.

(** A call keeps the state typed, if it does not fail an assertion. *)
Lemma exec_ok O s c : typed O s -> allowed O s c -> safe (exec c) (fun r s' => typed (track c r O) s') s.
Proof.
  intros (w & HW) Ha. assert (typed O s) as HT by (by exists w).
  destruct c as [oid handle|handle|rc known p|handle r|handle r|n]; cbn [exec track].
  - eapply safe_registered; [done|]. eapply safe_mono; [by apply rc_open_ok|]. tauto.
  - apply safe_bind. eapply safe_registered; [done|]. destruct handle as [rc|]; [|by apply safe_ret, safe_ret].
    destruct (rc_close_run O w s rc HW (Ha rc eq_refl)) as (c & h & s' & _ & _ & E & HT' & _).
    eapply safe_done; [exact E|]. by apply safe_ret.
  - destruct Ha as (Hrc & Hs & Hk). apply safe_bind. eapply safe_mono.
    + eapply (run_loader_ok O rc p Hrc known w s HW); [|done]. intros g Hg. apply elem_of_dom.
      by apply (pool_get_in_use _ _ _ _ _ (wf_grp _ _ _ _ _ HW)), Hk.
    + intros b s' (w' & HW'). apply safe_ret. by exists w'.
  - apply safe_bind. eapply safe_registered; [done|]. eapply safe_mono; [by eapply rc_load_ok|].
    intros e s' HT'. by apply safe_ret.
  - apply safe_bind. eapply safe_registered; [done|]. eapply safe_mono; [eapply rc_unload_ok; [done|apply Ha]|].
    intros e s' HT'. by apply safe_ret.
  - apply safe_bind. unfold rc_actions_subrc_register. destruct n as [n|]; [|by apply safe_ret, safe_ret].
    apply safe_bind. unfold safe at 1, get. case_bool_decide; [by apply safe_ret, safe_ret|].
    apply safe_bind. unfold safe at 1, modify. apply safe_ret, safe_ret. exists w. destruct HW; split; try done.
Qed.

Lemma reached_typed O s : reached O s -> typed O s.
Proof.
  induction 1 as [pic str sty s E|O s c r s' _ IH Ha E]; [by eapply init_typed|].
  pose proof (exec_ok O s c IH Ha) as Hs. unfold safe in Hs. by rewrite E in Hs.
Qed.

End Typed.

(** ** The theorems *)

(** C23: The state of the resource manager stays well typed.  From one
    initialisation on (a second one is not covered, [second_init_overlaps]),
    for calls of [ui_resource_close], [rc_load] and [rc_unload] with contexts
    that are open and callbacks that load from groups they have got
    ([allowed], [scoped]): every group and every picture region is free, in a
    chain without a cycle, or holds an object of its own type that is in
    exactly one list of one open context; every context is free, open, or lost
    (closed, or it failed to open: it holds nothing and is never used again,
    [rc_contexts_leak], [rc_open_leaks]); and the handles that are loaded are
    exactly the contents of those objects and of the open scenes ([typed]).
    No call does anything undefined, a close never fails an assertion, and
    when no table is open nothing is loaded. *)
Theorem resources_well_typed (subrc_load : nat -> option (Z -> nat -> loader)) (O : gset nat) (s : st) :
  (forall n f scene rc, subrc_load n = Some f -> scoped ∅ (f scene rc)) ->
  reached subrc_load O s ->
  typed O s /\
  (forall c, allowed O s c -> exec subrc_load c s <> Undef /\ (forall h, c = Close h -> exec subrc_load c s <> Assert)) /\
  (O = ∅ -> live (log s) = ∅ /\ (forall g, pool_get (groups s) g = None) /\ (forall p, pool_get (picreg s) p = None)).
Proof.
  intros Hsub Hr. pose proof (reached_typed subrc_load Hsub O s Hr) as HT. split; [done|]. split.
  - intros c Ha. pose proof (exec_ok subrc_load Hsub O s c HT Ha) as Hs. unfold safe in Hs. split.
    + intros E. by rewrite E in Hs.
    + intros h -> E. destruct HT as (w & HW). cbn [exec] in E.
      unfold ui_resource_close, registered, get, mbind, R_bind in E. rewrite (wf_class _ _ _ _ _ HW) in E.
      cbn [is_Some] in E. rewrite bool_decide_eq_true_2 in E by (by eexists). cbn [RC_ASSERT] in E.
      destruct h as [rc|]; [|done]. destruct (rc_close_run O w s rc HW (Ha rc eq_refl)) as (c & h & s' & _ & _ & E' & _).
      by rewrite E' in E.
  - intros ->. by apply typed_closed.
Qed.

(** Closing a table unloads what was loaded for it: the picture regions,
    then the groups, each in the opposite order of their loading, so that a
    group goes before the one it was loaded from, and the scene last; nothing
    else is unloaded. *)
Theorem resource_close_unloads (subrc_load : nat -> option (Z -> nat -> loader)) (O : gset nat) (s : st) (rc : nat) :
  (forall n f scene rc, subrc_load n = Some f -> scoped ∅ (f scene rc)) ->
  reached subrc_load O s -> rc ∈ O ->
  exists c h ps gs s', pool_get (contexts s) rc = Some c /\ scene c = Some h /\
    mapM (pool_get (picreg s)) (prg_list c) = Some ps /\ mapM (pool_get (groups s)) (grp_list c) = Some gs /\
    ui_resource_close (Some rc) s = Done (tt, s') /\
    log s' = log s ++ ((fun h => (Unload h, 0)) <$> rev ps ++ rev gs ++ [h]).
Proof.
  intros Hsub Hr Hrc. destruct (reached_typed subrc_load Hsub O s Hr) as (w & HW).
  destruct (rc_close_run O w s rc HW Hrc) as (c & h & s' & Hc & Hs & E & _ & Hlog).
  assert (forall (p : pool Z) n held free l, pool_ok n p free held None -> (forall g, g ∈ l -> is_Some (held !! g)) ->
    mapM (pool_get p) l = Some ((fun g => default 0 (held !! g)) <$> l)) as Hmap.
  { intros p n held free l Hp. induction l as [|g l IH]; intros Hl; [done|]. cbn [mapM].
    destruct (Hl g ltac:(constructor)) as [a Ha]. rewrite (pool_get_held _ _ _ _ _ g a Hp Ha). cbn [mbind option_bind].
    rewrite IH by (intros; apply Hl; by constructor). cbn [mbind option_bind fmap list_fmap]. by rewrite Ha. }
  exists c, h, ((fun g => default 0 (w_prg w !! g)) <$> prg_list c), ((fun g => default 0 (w_grp w !! g)) <$> grp_list c), s'.
  split_and!.
  - by eapply pool_get_held; [apply HW|].
  - done.
  - eapply Hmap; [apply HW|]. intros g. by eapply (ow_sound _ _ _ (wf_picregs _ _ _ _ _ HW)).
  - eapply Hmap; [apply HW|]. intros g. by eapply (ow_sound _ _ _ (wf_groups _ _ _ _ _ HW)).
  - unfold ui_resource_close, registered, get, mbind, R_bind. rewrite (wf_class _ _ _ _ _ HW).
    rewrite bool_decide_eq_true_2 by (by eexists). exact E.
  - rewrite Hlog. f_equal. unfold unloads. by rewrite !fmap_app, <- !map_rev, <- !list_fmap_compose.
Qed.

(** *** Witness: a callback that loads two groups and a picture region *)

Definition loads_1 : loader :=
  GroupFromScene 5 (fun g => GroupFromGroup g 6 (fun _ => PicregFromGroup g 7 (fun _ => Return true))).
Definition subrc_1 (n : nat) : option (Z -> nat -> loader) :=
  match n with 0%nat => Some (fun _ _ => loads_1) | _ => None end.

Lemma subrc_1_scoped n f scene rc : subrc_1 n = Some f -> scoped ∅ (f scene rc).
Proof.
  destruct n; [|done]. intros [= <-]. cbn [scoped loads_1].
  repeat match goal with |- _ /\ _ => split | |- forall _, _ => intros ? end; try done; simplify_eq; set_solver.
Qed.

Definition after (r : outcome (Z * option nat * st)) : st := match r with Done (_, s) => s | _ => st_0 end.
Definition st_2 : st := after (exec subrc_1 (Subrc (Some 0%nat)) (st_1 "pic" "str" "sty")).
Definition st_3 : st := after (exec subrc_1 (Open 3 true) st_2).

Lemma st_3_reached : reached subrc_1 {[9%nat]} st_3.
Proof.
  assert (reached subrc_1 ∅ (st_1 "pic" "str" "sty")) as H1 by exact (ReachedInit _ _ _ _ _ (init_runs _ _ _)).
  assert (reached subrc_1 ∅ st_2) as H2.
  { apply (ReachedStep _ ∅ _ (Subrc (Some 0%nat)) (0, None) st_2 H1 I). vm_compute. reflexivity. }
  pose proof (ReachedStep _ ∅ _ (Open 3 true) (0, Some 9%nat) st_3 H2 I ltac:(vm_compute; reflexivity)) as H3.
  unfold track, opened in H3. cbn [snd] in H3. by rewrite (right_id_L ∅ (∪)) in H3.
Qed.

Lemma resources_well_typed_witness :
  typed {[9%nat]} st_3 /\
  (forall c, allowed {[9%nat]} st_3 c -> exec subrc_1 c st_3 <> Undef /\ (forall h, c = Close h -> exec subrc_1 c st_3 <> Assert)) /\
  ({[9%nat]} = (∅ : gset nat) -> live (log st_3) = ∅ /\ (forall g, pool_get (groups st_3) g = None) /\ (forall p, pool_get (picreg st_3) p = None)).
Proof. exact (resources_well_typed subrc_1 {[9%nat]} st_3 subrc_1_scoped st_3_reached). Defined.

Lemma resource_close_unloads_witness :
  exists c h ps gs s', pool_get (contexts st_3) 9 = Some c /\ scene c = Some h /\
    mapM (pool_get (picreg st_3)) (prg_list c) = Some ps /\ mapM (pool_get (groups st_3)) (grp_list c) = Some gs /\
    ui_resource_close (Some 9%nat) st_3 = Done (tt, s') /\
    log s' = log st_3 ++ ((fun h => (Unload h, 0)) <$> rev ps ++ rev gs ++ [h]).
Proof.
  exact (resource_close_unloads subrc_1 {[9%nat]} st_3 9 subrc_1_scoped st_3_reached ltac:(apply elem_of_singleton; reflexivity)).
Defined.

(** ** What goes wrong *)

Definition no_subrc (n : nat) : option (Z -> nat -> loader) := None.
Fixpoint open_close (n : nat) : R unit :=
  match n with O => mret tt | S n => r ← rc_open no_subrc 3 true; rc_close r.2 ;; open_close n end.
Fixpoint opens (n : nat) : R (list (option nat)) :=
  match n with O => mret [] | S n => r ← rc_open no_subrc 3 true; l ← opens n; mret (r.2 :: l) end.

(** [rc_close] does not give the context back: the eleventh table that is
    opened, one after the other, fails the assertion of [rc_alloc]. *)
Lemma rc_contexts_leak :
  (exists s, open_close 10 (st_1 "" "" "") = Done (tt, s)) /\ open_close 11 (st_1 "" "" "") = Assert.
Proof. split; [eexists|]; vm_compute; reflexivity. Qed.

(** Neither does [rc_open] when the scene cannot be loaded. *)
Lemma rc_open_leaks :
  exists s, opens 10 (set_lv (replicate 10 (-5)) [] (st_1 "" "" "")) = Done (replicate 10 None, s) /\
    rc_open no_subrc 3 true s = Assert.
Proof. eexists. split; vm_compute; reflexivity. Qed.

(** A second [rc_actions_init] answers -EBUSY, but it has built the pools
    again on the old chains, which now have cycles: after ten tables have been
    opened the next free context is the one of the first of them, and taking
    it follows what is now the scene of that table. *)
Lemma second_init_overlaps :
  exists s s' l, (rc_actions_init "" "" "" ;; rc_actions_init "" "" "") st_0 = Done (- EBUSY, s) /\
    opens 10 s = Done (l, s') /\ l !! 0%nat = Some (freelst (contexts s')) /\
    rc_open no_subrc 3 true s' = Undef.
Proof. do 3 eexists. split; [vm_compute; reflexivity|]. split; [vm_compute; reflexivity|]. split; reflexivity. Qed.

(** [rc_actions] has no allocator, so no resource can be loaded. *)
Lemma rc_load_asserts rc r s :
  rm_class_ops s = Some rc_actions -> r_type r = UI_RES_PICTURE \/ r_type r = UI_RES_STRING ->
  ui_resource_get (Some rc) (Some r) s = Assert.
Proof.
  intros Hc Hr. unfold ui_resource_get, registered, get, mbind, R_bind. rewrite Hc.
  rewrite bool_decide_eq_true_2 by (by eexists). cbn [RC_ASSERT]. unfold rc_load.
  destruct Hr as [-> | ->]; unfold rc_load_pictures, rc_load_strings, _resource_node_alloc, _resource_malloc, get, mbind, R_bind;
    by rewrite Hc.
Qed.

(** With an allocator: the objects of the caller at the addresses 1 and 2. *)
Definition st_4 : st :=
  set_users {[1 := mk_uobj UI_RES_PICTURE None 0; 2 := mk_uobj UI_RES_FONT None 0]}
    (set_rm (Some (mk_class true true)) (st_1 "" "" "")).

(** The release of pictures reads [obj], which was never set: a table with a
    picture that is still loaded cannot be closed. *)
Lemma picture_close_undefined :
  (r ← rc_open no_subrc 3 true; e ← rc_load r.2 (Some (mk_resource UI_RES_PICTURE 8 1 1)); RC_ASSERT (e =? 0) ;; mret r.2) st_4 <> Assert /\
  (r ← rc_open no_subrc 3 true; _ ← rc_load r.2 (Some (mk_resource UI_RES_PICTURE 8 1 1)); rc_close r.2) st_4 = Undef.
Proof. split; vm_compute; [discriminate|reflexivity]. Qed.

(** A font that cannot be opened is freed, and written to afterwards. *)
Lemma font_error_use_after_free :
  (r ← rc_open no_subrc 3 true; rc_load r.2 (Some (mk_resource UI_RES_FONT 8 1 2))) (set_lv [0; -5] [] st_4) = Undef.
Proof. vm_compute. reflexivity. Qed.

(** The scene gets the file of the strings twice, and not the one of the
    styles. *)
Lemma rc_open_wrong_file :
  exists s, rc_open no_subrc 3 true (st_1 "pic" "str" "sty") = Done ((0, Some 9%nat), s) /\
    log s = [(LoadScene 3 "str" "pic" "str", 0)].
Proof. eexists. split; vm_compute; reflexivity. Qed.
End Resource.
